(* ===== verification/_CoqProject ===== *)
-Q . S2P
Prelude.v
PyStr.v
PyTime.v
Json.v
JsonText.v
IsoParse.v
TaskDb.v
Paths.v
Policy.v
Outbox.v
OutboxFacts.v
OutboxStore.v
OutboxStoreFacts.v
OutboxMaint.v
OutboxMaintFacts.v
Fanout.v
FanoutFacts.v
MindsDb.v
Regex.v
Secrets.v
WriteBuffer.v
WriteBufferFacts.v
WriteMemory.v
WriteMemoryFacts.v
Lru.v
Caches.v
Mcp.v
ReadPath.v
ReadPathFacts.v
Ranking.v
RankingFacts.v
SourcePolicy.v
SourcePolicyFacts.v
Federated.v
FederatedFacts.v
Sources.v
SourcesFacts.v
Recall.v
RecallFacts.v
Tasks.v
TaskFacts.v
Messaging.v
MessagingFacts.v
TaskExec.v
TaskExecFacts.v
Feedback.v
Profiles.v
ProfilesFacts.v
SearchApi.v
SearchApiFacts.v
Topics.v
TopicsFacts.v
Security.v
SecurityFacts.v
Retention.v
RetentionFacts.v
Catalog.v
CatalogFacts.v
Backfill.v
BackfillFacts.v
TextLog.v
TextLogFacts.v
Monitor.v
MonitorFacts.v
Feeds.v
FeedsFacts.v
Trading.v
TradingFacts.v
Vectors.v
VectorsFacts.v
Letta.v
OutboxGc.v
TaskApi.v
TaskWorker.v
TaskWorkerFacts.v
NdjsonArchive.v
Lifecycle.v
VersionAudit.v
EvalCases.v
AgentOrch.v
