(* ===== verification/Prelude.v ===== *)
(** * The ContextLattice orchestrator: a verification development

    The program is a memory service: [src/services/orchestrator/app.py].  A
    client writes a memory record; the record is checked for secrets, queued for
    the memory bank and, per target, in a durable outbox; workers deliver the
    queued jobs to Qdrant, MindsDB, Letta, Langfuse and a raw MongoDB store.
    Clients read files through a cache in front of the memory server and search
    all stores at once; the answers are merged and ranked.  Beside it runs a
    queue of agent tasks with leases, approval and retries, whose workers write,
    search, call back and execute chat commands; the same commands arrive from
    Telegram, Slack and other channels.  Both queues live in one SQLite file;
    the outbox may live in MongoDB instead.

    ** Parts and files

    - [Prelude]: results and exceptions, the state monad [ST] with its
      [st_try], [st_for] and Hoare triples, faults of external stores, lists,
      stable sorting, tactics.
    - [PyStr]: the Python string operations the code uses, globs, decimal
      texts, the order of strings.  [Json]: JSON values, dictionaries, truth
      values, [str()].  [JsonText]: [json.dumps] and [json.loads].  [Regex]: the
      part of [re] the code uses, a backtracking matcher and its meaning.
    - [PyTime], [IsoParse]: ISO stamps ([_utc_now], [_task_iso_now], cutoffs)
      and their parser [_task_parse_datetime].
    - [Paths]: [normalize_memory_path], [derive_topic_path],
      [topic_tags_for_path].
    - [Policy]: settings lists, the low-value and exclusion rules, the
      classification of error texts.
    - [TaskDb]: [_task_db_exec], one SQLite transaction with its retries.
    - [Outbox], [OutboxFacts]: the outbox table and its SQLite transactions
      (the bodies of [enqueue_fanout_outbox], [claim_fanout_batch], the marks,
      [fail_letta_backlog], [recover_stale_running_jobs]).
    - [OutboxStore], [OutboxStoreFacts]: the MongoDB versions call by call, the
      switching between backends and the functions the program calls.
    - [OutboxMaint], [OutboxMaintFacts]: prune, garbage collection, summary and
      its cache, listing.
    - [Fanout], [FanoutFacts]: [_memory_write_worker] (one round of its loop)
      with everything it calls up to the remote services,
      [_enqueue_memory_write_fanout], the Letta circuit breaker, admission and
      backpressure.  The worker is written against the class [JobQueue] and
      verified against the class [JobTable]; the store of [OutboxStore] is an
      instance of both.
    - [MindsDb]: the SQL sent to MindsDB, the fallback tables, the bulk insert
      and the retry queue with its worker.
    - [Secrets]: the patterns of secrets, redaction, the storage policy.
    - [WriteBuffer], [WriteBufferFacts]: duplicate suppression, unchanged hashes,
      the buffer of hot rollups.  [WriteMemory], [WriteMemoryFacts]: the handler
      [write_memory] and the worker of the memory bank.
    - [Lru], [Caches]: bounded caches with eviction and expiry, and the caches
      of reads, searches and pathways built on them.
    - [Mcp]: the client of the memory server (sessions, retries).  [ReadPath],
      [ReadPathFacts]: reading a file through the cache, with stale answers,
      stubs and refreshes.
    - [Ranking], [RankingFacts]: match scores, merging and ranking of rows.
      [SourcePolicy], [SourcePolicyFacts]: modes, stages, latencies, degraded
      sources.  [Federated], [FederatedFacts]: [federated_search_memory].
      [Sources], [SourcesFacts]: what each source does with its store's answer.
    - [Tasks], [TaskFacts]: the task tables and every operation on them, the
      payload contract, risk and approval.
    - [Messaging], [MessagingFacts]: chat commands, their parser, their
      execution against the class [CommandServices], the endpoints of the chat
      services.  [TaskExec], [TaskExecFacts]: the actions of tasks, the loops of
      the task workers and the scheduler, and the instance of
      [CommandServices] on the task database.

    - [Feedback]: the table of feedback, its listing and the preferences drawn
      from it.  [Profiles], [ProfilesFacts]: the retrieval defaults of agents.
      [SearchApi], [SearchApiFacts]: [search_memory], the context pack, the
      evaluation of recall and the endpoints of the memory engine, against the
      class [MemoryFiles].
    - [Topics], [TopicsFacts]: the topic tree, its listing, the rollups with
      backfill, hold and worker, against the class [RollupStores].
    - [Security], [SecurityFacts]: the settings and the check at start, the keys
      of requests and the middleware around every request.
    - [Retention], [RetentionFacts]: deleting old low-value records from the
      sinks, against the class [Sinks], and pruning Letta's backlog.
    - [Catalog], [CatalogFacts]: projects and files, from the memory server or
      the index.  [Backfill], [BackfillFacts]: queueing records again from the
      bank, the index and the raw store, against the class [BackfillSources].

    - [TextLog], [TextLogFacts]: the history files, read backwards in chunks.
      [Monitor], [MonitorFacts]: alerts and metrics of retrieval, the monitor of
      recall, recommended thresholds, and the warmer against the class
      [Searcher].  [Feeds], [FeedsFacts]: the feeds of signals and overrides.
      [Trading], [TradingFacts]: trading, strategy and sidecar telemetry.
    - [Vectors], [VectorsFacts]: embeddings, the collections and points of the
      vector index on its two backends, search, traces to Langfuse.
    - [Letta]: the agents of sessions and the archive of records.
    - [TaskApi]: the routes and endpoints of the task queue.  [TaskWorker],
      [TaskWorkerFacts]: the script [scripts/task_agent_worker.py], also with
      these endpoints behind it.
    - [Lifecycle]: the handlers of startup and shutdown, the tasks of the event
      loop and the shared clients.  [EvalCases]: the saved cases of the recall
      evaluation.
    - Scripts: [OutboxGc] ([fanout_outbox_gc.py]), [NdjsonArchive]
      ([archive_ndjson_by_time.py]), [VersionAudit] ([service_version_audit.py]),
      [AgentOrch] ([agent_orchestration.py]).  These and the two files before
      hold their proofs themselves, as [Letta] does.


    ** How the code is modelled

    Names follow the source; where a function is split, the parts carry names
    of their own.  A Python call that may raise returns a [result]; stateful
    code is an [ST] computation that keeps the assignments made before a
    [raise].  A table is a list of records in the order of insertion; an
    [UPDATE] maps over it, an [ORDER BY] is a stable sort.

    External stores fail by script: every SQLite connection and every MongoDB
    call takes the next [fault], which may hit before the effect or after it
    (an answer that is lost).  Theorems that do not mention faults hold for
    every script; [ready] and [quiet] say that none is pending.  Remote
    services answer through an [environment] ([Fanout], [WriteMemory]), a
    response function ([MindsDb], [Mcp]), a [reply] per request ([Federated]) or
    the operations of a class ([Messaging], [TaskExec]), so that a theorem over
    all of them covers every behaviour of the services.  [uuid4] and hashes are
    parameters; where values of [uuid4] must differ this is a hypothesis.

    Instants and durations are microseconds in [Z]; the theorems on stamps are
    for the years 1 to 9999 ([in_range]).  An operation reads the clock once
    unless it measures time.  Ratios, delays and scores are exact rationals,
    scores rounded half to even as [round] does; the text of a float
    ([repr_float]), [exp] and [log] are parameters.  Strings are sequences of
    bytes and case mapping, stripping and digits are ASCII.  JSON numbers are
    integers or float literals kept as text; dictionaries keep their insertion
    order.  Log lines are not modelled.

    Loops that are not structural recursion carry fuel that is enough:
    [scan_once], [sub_from] and [findall_from] the length of the text, [slices]
    the number of items, [try_candidates] the twelve tries of the code, [scroll]
    the limit of points, [tail_loop] the length of the file, retries their
    configured number.  The loops of workers
    are given by one round; [rounds] repeats it.  All definitions are
    executable.

    ** What the theorems show

    - Durability: while no MongoDB call fails, an accepted event is stored for
      all its targets
      ([enqueue_is_durable], [enqueue_accepted_is_stored],
      [write_fanout_is_durable]); replays insert nothing
      ([enqueue_replay_inserts_nothing]); an accepted write reaches the raw
      store or the outbox and the bank ([write_memory_outcomes]); counters add
      up ([rollup_buffer_conserves]).
    - Invariants of both stores, of the task tables and of the latency counters
      in every reachable state ([store_reachable_wf], [task_reachable_wf],
      [latency_reachable_wf]).
    - Claims are exclusive, ordered and the same on both backends
      ([claim_batch_exclusive], [claim_earliest_due_first],
      [claim_takes_due_batch]); leases are exclusive ([lease_is_exclusive]).
    - Workers settle what they claim, whatever the services answer
      ([worker_settles_batch], [bank_round_settles], [worker_settles_task]); a
      sink that is switched off by the settings takes its jobs without a request; the
      circuit breaker opens at its threshold and stays open
      ([breaker_opens_at_threshold], [letta_stays_disabled]); delays are bounded
      ([backoff_bounds], [backpressure_bounds]).
    - Transactions are atomic and absorb short locks ([task_db_exec_atomic],
      [task_db_exec_absorbs_locks]).
    - Recovery, garbage collection and prune touch only what they should.
    - Reads and searches: every text read has a source ([read_has_source]),
      caches serve what was written last ([cache_serves_recent_writes]), a search
      survives failing sources ([search_survives_failures]), merges what they
      return ([merge_unites_sources]), ranks it ([search_results_ranked]) and
      is served from the cache when repeated ([repeated_search_is_cached]).
    - Secrets: none is stored unless allowed ([detected_secrets_never_stored]),
      a secure chat surface refuses them in the texts that are stored, looked up
      or scheduled and redacts its answers but for project and topic
      ([secure_surface_holds], [secure_surface_gaps]); chat events are signed
      ([slack_event_is_signed]); tasks request allowed URLs only
      ([requests_are_allowlisted]).
    - Round trips: stamps, JSON columns, SQL statements, chat commands.
    - Inputs are validated: memory paths without traversal, task payloads,
      payloads built from chat messages.
    - Endpoints: a search answers whatever fails behind it
      ([search_endpoint_answers]), agent profiles stay well formed
      ([profiles_stay_well_formed]) but inherit nothing ([agent_inherits_nothing]),
      the metrics of an evaluation are in range ([evaluation_metrics_in_range]),
      preferences partition the feedback ([preferences_partition]).
    - Topics: the listing counts writes ([topics_list_counts_writes]), a rollup
      counts a write once for its topic and every topic above
      ([rollups_count_distinct_writes]), a backfill is kept
      by the rounds that follow ([backfill_survives_rounds]) but, scoped to one
      project, empties the others ([scoped_backfill_empties_others]).
    - Who is served: without the key only the open paths
      ([strict_production_guards]), with it everything ([right_key_is_served]);
      the chat webhooks rest on secrets of their own
      ([keyless_webhook_runs_commands]).
    - Maintenance: retention deletes the first expired records of its window
      ([retention_deletes_first_expired]), only expired ones but for passages of
      Letta without a stamp ([retention_keeps_the_rest],
      [undated_passage_is_pruned]), and never passes the window
      ([retention_never_passes_window]); a backfill keeps the backlog bounded
      ([backfill_bounds_backlog]) but leaves the oldest version of a file
      ([backfill_leaves_oldest_version]); decoding names ends ([names_decode]).
    - Histories and monitoring: the tail of a file is its last lines
      ([tail_matches_whole_file]), what was appended is loaded again
      ([signals_survive_restart], [monitor_survives_restart],
      [trading_survives_restart]) up to a torn line
      ([torn_snapshot_hides_later]); recommended thresholds fire rarely and pass
      the bounds of the settings ([recommended_thresholds_rarely_fire],
      [recommended_settings_hold]); the warmer accounts for its searches and does
      not count as use ([warmer_accounts], [warming_is_not_use]); a number in SQL
      reads back ([sql_numbers_read_back]); an odd symbol ends the signal task
      ([odd_symbol_ends_refresh]).
    - The vector index: a batch is stored whole, each row once in its collection
      ([batch_stored]); the dimension in an error is read back
      ([dimension_read_back]); a search answers without its provider
      ([search_without_provider]); a dimension with the digits 404 is taken for a
      missing collection ([dimension_404_is_missing]).
    - Letta: an archived record reads back ([archived_record_reads_back]) but for
      names with spaces ([archived_name_cut]); a push that returns was accepted
      ([letta_push_accepted]); an agent Letta lost is never forgotten
      ([lost_agent_blocks_session]).
    - Start and stop: every row of the outbox has a worker, but for Letta without
      workers of its own ([targets_have_workers]); a second start changes nothing
      ([second_start_keeps_workers]); an undisturbed stop ends the background
      loops and task workers, closes and flushes ([stop_ends_workers]) but leaves
      the write workers
      ([stop_strands_writes]), and a failed task worker blocks it
      ([failed_worker_blocks_stop]).
    - Task scripts: the exit code of a command becomes the status of the task
      ([exit_code_becomes_status]), a handled task was reported
      ([handled_task_is_reported]); two documented routes are shadowed
      ([task_lists_are_shadowed]).
    - Other scripts: the pruning script agrees with the service on targets in
      lower case and is all or nothing ([gc_script_matches_service],
      [gc_targets_case_differs], [gc_script_all_or_nothing]); archiving loses no
      line wherever it stops ([archive_loses_nothing]) and is done after one run
      ([archive_again]) but loses what is appended meanwhile
      ([appended_during_run_lost]) and hides what it adds behind a member that was
      cut ([cut_member_hides_lines]); image updates go up to the greatest stable
      tag of the pages read ([updates_go_up], [latest_is_greatest]) and touch
      nothing else
      ([patching_touches_images_only]); an update of a shared task list sets one
      task ([update_sets_one_task]) but two at once lose one
      ([concurrent_update_lost]).
    - Saved cases: an unreadable file counts as the default set
      ([unreadable_cases_are_defaults]), their evaluation is the evaluation of a
      request ([saved_evaluation_is_evaluation]), a threshold of zero is not kept
      ([zero_gate_is_default]).
    - Defects, each as a theorem: a task whose lease ends on its last attempt
      is stranded, a lost commit is repeated, a failed MongoDB insert is taken
      for a duplicate, a backend fallback strands documents, a failed retry ends
      a task worker, a cancellation is overwritten, and others marked in the
      files that hold them.

    ** Not modelled

    FastAPI itself, apart from the routes of tasks and the middleware; the
    telemetry endpoints that copy counters and settings into a dictionary
    ([get_memory_metrics], [get_fanout_metrics] and the like), [status] and
    [health], which probe services and report; the HTML pages; the creation of
    tables and indexes ([_init_task_db], [init_mongo_client]); log output.  The
    dashboard is TypeScript.  Of the scripts, the generators of documents and
    diagrams, the terminal displays, the proxies, the load test and the preflight
    list have no state of their own: they print or forward what others hold.  The
    [runtime] package is not part of the repository; where the service calls it,
    it is a parameter or taken as absent, as without it. *)

From stdpp Require Export base gmap list strings.
From stdpp Require Import pretty.
From Stdlib Require Export ZArith Lia Bool Permutation Sorted.
From Stdlib Require Import Ascii.

(** Natural-number and list notations come from stdpp; integers are always
    written in [Z_scope]. *)
#[export] Set Default Goal Selector "!".

(** ** Scope of the development *)

Declare Scope lattice_scope.
Delimit Scope lattice_scope with lattice.

(** Python [==] on strings as a boolean. *)
Infix "=s" := String.eqb (at level 70, no associativity) : lattice_scope.

(** [x in ("a", "b", ...)] on strings. *)
Definition mem_str (x : string) (l : list string) : bool :=
  existsb (String.eqb x) l.

Open Scope lattice_scope.

(** ** Exceptions and results

    A Python call that may raise returns a [result]; [exn] keeps the exception
    classes the orchestrator distinguishes together with the text that
    [str(exc)] exposes to the handlers. *)

Inductive exn : Type :=
| HTTPException (code : Z) (detail : string)
| OrchestratorError (msg : string)
| OperationalError (msg : string)
| IntegrityError (msg : string)
| KeyError (key : string)
| TimeoutError
| OtherError (cls msg : string).

(** [str(exc)]; for an [HTTPException], Starlette's status and detail. *)
Definition exn_str (e : exn) : string :=
  match e with
  | HTTPException code d => pretty code +:+ ": " +:+ d
  | OrchestratorError m | OperationalError m | IntegrityError m | OtherError _ m => m
  | KeyError k => "'" +:+ k +:+ "'"
  | TimeoutError => ""
  end.

Inductive result (A : Type) : Type :=
| Ok (a : A)
| Raise (e : exn).
Arguments Ok {A} a.
Arguments Raise {A} e.

Definition rbind {A B} (m : result A) (k : A -> result B) : result B :=
  match m with Ok a => k a | Raise e => Raise e end.

Notation "'let!' x ':=' m 'in' k" := (rbind m (fun x => k))
  (at level 10, x binder, m at level 100, k at level 200,
   format "'[v' 'let!'  x  ':='  m  'in' '/' k ']'") : lattice_scope.

Definition is_ok {A} (r : result A) : bool :=
  match r with Ok _ => true | Raise _ => false end.

(** Stateful code threads its state and keeps it when an exception is raised:
    a Python assignment made before the [raise] stays visible. *)
Definition ST (S A : Type) : Type := S -> S * result A.

Definition st_ret {S A} (a : A) : ST S A := fun s => (s, Ok a).
Definition st_raise {S A} (e : exn) : ST S A := fun s => (s, Raise e).
Definition st_get {S} : ST S S := fun s => (s, Ok s).
Definition st_put {S} (s : S) : ST S unit := fun _ => (s, Ok tt).
Definition st_modify {S} (f : S -> S) : ST S unit := fun s => (f s, Ok tt).

Definition st_bind {S A B} (m : ST S A) (k : A -> ST S B) : ST S B :=
  fun s => match m s with
           | (s', Ok a) => k a s'
           | (s', Raise e) => (s', Raise e)
           end.

(** [try: m except Exception as exc: h exc] *)
Definition st_try {S A} (m : ST S A) (h : exn -> ST S A) : ST S A :=
  fun s => match m s with
           | (s', Ok a) => (s', Ok a)
           | (s', Raise e) => h e s'
           end.

Notation "x '<-' m ';;' k" := (st_bind m (fun x => k))
  (at level 100, m at next level, right associativity) : lattice_scope.
Notation "m ';;;' k" := (st_bind m (fun _ => k))
  (at level 100, right associativity) : lattice_scope.

(** ** Faults of external stores

    A call to SQLite or MongoDB may fail.  A script of faults, one entry per
    call, says what happens: the call may fail without effect, or take effect
    and fail afterwards, when its answer is lost. *)

Inductive fault := NoFault | FailBefore (e : exn) | FailAfter (e : exn).

(** A call past the end of the script succeeds. *)
Definition next_fault (l : list fault) : fault * list fault :=
  match l with [] => (NoFault, []) | f :: l' => (f, l') end.

(** [for x in l: body x] *)
Fixpoint st_for {S A} (l : list A) (body : A -> ST S unit) : ST S unit :=
  match l with
  | [] => st_ret tt
  | x :: l' => body x ;;; st_for l' body
  end.

(** [[await body(x) for x in l]] *)
Fixpoint st_map {S A B} (body : A -> ST S B) (l : list A) : ST S (list B) :=
  match l with
  | [] => st_ret []
  | x :: l' => y <- body x ;; ys <- st_map body l' ;; st_ret (y :: ys)
  end.

(** [try: m finally: c], for a cleanup that does not raise. *)
Definition st_finally {S A} (m : ST S A) (c : S -> S) : ST S A :=
  fun s => let '(s', r) := m s in (c s', r).

(** A pure computation that may raise. *)
Definition st_lift {S A} (r : result A) : ST S A := fun s => (s, r).

(** ** Tactics *)

(** Turn boolean hypotheses and goals of the executable definitions into
    propositions. *)
Ltac blift :=
  repeat match goal with
  | H : (_ && _) = true |- _ => apply andb_true_iff in H as [? ?]
  | H : (_ || _) = false |- _ => apply orb_false_iff in H as [? ?]
  | H : negb _ = true |- _ => apply negb_true_iff in H
  | H : negb _ = false |- _ => apply negb_false_iff in H
  | H : String.eqb _ _ = true |- _ => apply String.eqb_eq in H
  | H : String.eqb _ _ = false |- _ => apply String.eqb_neq in H
  | H : (_ <=? _)%Z = true |- _ => apply Z.leb_le in H
  | H : (_ <=? _)%Z = false |- _ => apply Z.leb_gt in H
  | H : (_ <? _)%Z = true |- _ => apply Z.ltb_lt in H
  | H : (_ <? _)%Z = false |- _ => apply Z.ltb_ge in H
  | H : (_ =? _)%Z = true |- _ => apply Z.eqb_eq in H
  | H : (_ =? _)%Z = false |- _ => apply Z.eqb_neq in H
  end.

(** Case analysis on the first test of the goal. *)
Ltac dmatch :=
  match goal with
  | |- context [ match ?e with _ => _ end ] =>
      lazymatch e with context [ match _ with _ => _ end ] => fail | _ => destruct e eqn:? end
  end.

Ltac dmatch_in H :=
  match type of H with
  | context [ match ?e with _ => _ end ] =>
      lazymatch e with context [ match _ with _ => _ end ] => fail | _ => destruct e eqn:? end
  end.

Create HintDb lattice discriminated.

(** ** Generic list lemmas *)

Section lists.
Context {A B : Type}.
Implicit Types (l : list A) (f : A -> bool).

Lemma existsb_false_iff f l :
  existsb f l = false <-> forall x, In x l -> f x = false.
Proof.
  induction l as [|a l IH]; simpl; [naive_solver|].
  rewrite orb_false_iff, IH. naive_solver.
Qed.

Lemma NoDup_map_filter (g : A -> B) f l :
  List.NoDup (map g l) -> List.NoDup (map g (List.filter f l)).
Proof.
  induction l as [|a l IH]; simpl; [done|].
  intros [Hin Hnd]%List.NoDup_cons_iff. destruct (f a); simpl; auto.
  constructor; auto. intros (b & Hb & [Hbl _]%filter_In)%in_map_iff.
  apply Hin, in_map_iff; eauto.
Qed.

(** Rows kept and rows deleted by a [DELETE ... WHERE f] partition the table. *)
Lemma filter_length_split f l :
  length (List.filter f l) + length (List.filter (fun x => negb (f x)) l) = length l.
Proof.
  induction l as [|a l IH]; simpl; [done|]. destruct (f a); simpl; lia.
Qed.

Lemma filter_filter f (g : A -> bool) l :
  List.filter f (List.filter g l) = List.filter (fun x => g x && f x) l.
Proof.
  induction l as [|a l IH]; simpl; [done|].
  destruct (g a) eqn:Hg; simpl; [destruct (f a)|]; simpl; rewrite ?IH; done.
Qed.

Lemma filter_ext_In f (g : A -> bool) l :
  (forall x, In x l -> f x = g x) -> List.filter f l = List.filter g l.
Proof.
  induction l as [|a l IH]; simpl; [done|]. intros H.
  rewrite (H a), IH by auto. done.
Qed.

Lemma filter_none f l :
  (forall x, In x l -> f x = false) -> List.filter f l = [].
Proof.
  induction l as [|a l IH]; simpl; [done|]. intros H. rewrite H by auto. auto.
Qed.

Lemma filter_all f l :
  (forall x, In x l -> f x = true) -> List.filter f l = l.
Proof.
  induction l as [|a l IH]; simpl; [done|]. intros H. rewrite H by auto. f_equal; auto.
Qed.

(** An [UPDATE ... WHERE p] that does not touch the column [g] keeps it. *)
Lemma map_update_column (g : A -> B) (p : A -> bool) (u : A -> A) l :
  (forall x, g (u x) = g x) ->
  map g (map (fun x => if p x then u x else x) l) = map g l.
Proof.
  intros Hg. rewrite List.map_map. apply List.map_ext. intros x. by destruct (p x).
Qed.

Lemma In_firstn n x l : In x (firstn n l) -> In x l.
Proof. revert n; induction l; intros [|n]; simpl; naive_solver. Qed.

Lemma last_nth l d : List.last l d = nth (length l - 1) l d.
Proof.
  induction l as [|a [|b l] IH]; [done..|].
  change (List.last (b :: l) d = nth (length (b :: l)) (a :: b :: l) d).
  rewrite IH. simpl. by rewrite Nat.sub_0_r.
Qed.

Lemma In_NoDup_inj (g : A -> B) l x y :
  List.NoDup (map g l) -> In x l -> In y l -> g x = g y -> x = y.
Proof.
  induction l as [|a l IH]; simpl; [done|].
  intros [Hin Hnd]%List.NoDup_cons_iff [->|Hx] [->|Hy] Heq; auto.
  - destruct Hin. rewrite Heq. by apply in_map.
  - destruct Hin. rewrite <- Heq. by apply in_map.
Qed.
End lists.

Lemma mem_str_In x l : mem_str x l = true <-> In x l.
Proof.
  unfold mem_str. rewrite existsb_exists. split.
  - intros (y & Hy & ->%String.eqb_eq). done.
  - intros H. exists x. by rewrite String.eqb_refl.
Qed.

Lemma mem_str_false x l : mem_str x l = false <-> ~ In x l.
Proof. rewrite <- mem_str_In. destruct (mem_str x l); naive_solver. Qed.

(** ** Hoare triples for stateful code

    [hoare P m Q X]: from a state in [P], [m] ends in a state in [Q a] when it
    returns [a] and in a state in [X e] when it raises [e]. *)

Definition hoare {S A} (P : S -> Prop) (m : ST S A) (Q : A -> S -> Prop) (X : exn -> S -> Prop) : Prop :=
  forall s, P s -> match m s with (s', Ok a) => Q a s' | (s', Raise e) => X e s' end.

(** The exceptional postcondition of code that does not raise. *)
Definition never {S} : exn -> S -> Prop := fun _ _ => False.

Section hoare.
Context {S : Type}.

Lemma hoare_conseq {A} (P P' : S -> Prop) (m : ST S A) (Q Q' : A -> S -> Prop) (X X' : exn -> S -> Prop) :
  hoare P' m Q' X' -> (forall s, P s -> P' s) -> (forall a s, Q' a s -> Q a s) -> (forall e s, X' e s -> X e s) ->
  hoare P m Q X.
Proof. intros Hm HP HQ HX s Hs. specialize (Hm s (HP s Hs)). destruct (m s) as [s' [a|e]]; auto. Qed.

Lemma hoare_ret {A} (P : S -> Prop) (a : A) (Q : A -> S -> Prop) X : (forall s, P s -> Q a s) -> hoare P (st_ret a) Q X.
Proof. intros H s Hs. cbn. auto. Qed.

Lemma hoare_modify (P : S -> Prop) f (Q : unit -> S -> Prop) X :
  (forall s, P s -> Q tt (f s)) -> hoare P (st_modify f) Q X.
Proof. intros H s Hs. cbn. auto. Qed.

Lemma hoare_bind {A B} (P : S -> Prop) (m : ST S A) R (k : A -> ST S B) Q X :
  hoare P m R X -> (forall a, hoare (R a) (k a) Q X) -> hoare P (st_bind m k) Q X.
Proof.
  intros Hm Hk s Hs. specialize (Hm s Hs). unfold st_bind. destruct (m s) as [s' [a|e]]; [by apply Hk|done].
Qed.

Lemma hoare_try {A} (P : S -> Prop) (m : ST S A) Q Y h X :
  hoare P m Q Y -> (forall e, hoare (Y e) (h e) Q X) -> hoare P (st_try m h) Q X.
Proof.
  intros Hm Hh s Hs. specialize (Hm s Hs). unfold st_try. destruct (m s) as [s' [a|e]]; [done|by apply Hh].
Qed.

Lemma hoare_map {A B} (P : S -> Prop) (body : A -> ST S B) l X :
  (forall x, In x l -> hoare P (body x) (fun _ => P) X) -> hoare P (st_map body l) (fun _ => P) X.
Proof.
  induction l as [|x l IH]; intros Hb; cbn; [by apply hoare_ret|].
  eapply hoare_bind; [apply Hb; by left|]. intros y.
  eapply hoare_bind; [apply IH; intros ? ?; apply Hb; by right|]. intros ys. by apply hoare_ret.
Qed.

(** A loop that keeps an invariant. *)
Lemma hoare_for_inv {A} (P : S -> Prop) (body : A -> ST S unit) l X :
  (forall x, In x l -> hoare P (body x) (fun _ => P) X) -> hoare P (st_for l body) (fun _ => P) X.
Proof.
  induction l as [|x l IH]; intros Hb; cbn; [by apply hoare_ret|].
  eapply hoare_bind; [apply Hb; by left|]. intros u. apply IH. intros ? ?. apply Hb. by right.
Qed.

(** A loop that extends a set of keys [D], each round by [key x]. *)
Lemma hoare_for {A K} (I : (K -> Prop) -> S -> Prop) (key : A -> K -> Prop) (body : A -> ST S unit) l X :
  (forall D D' s, (forall k, D' k -> D k) -> I D s -> I D' s) ->
  (forall x D, In x l -> hoare (I D) (body x) (fun _ => I (fun k => D k \/ key x k)) X) ->
  forall D, hoare (I D) (st_for l body) (fun _ => I (fun k => D k \/ exists x, In x l /\ key x k)) X.
Proof.
  intros Hmono. induction l as [|x l IH]; intros Hb D; cbn.
  { apply hoare_ret. intros s. apply Hmono. naive_solver. }
  eapply hoare_bind; [apply Hb; by left|]. intros u.
  eapply hoare_conseq; [apply IH; intros ? ? ?; apply Hb; by right|done| |done].
  intros v s. apply Hmono. naive_solver.
Qed.
(** [P] holds after [m], whether it returns or raises. *)
Definition always {A} (P : S -> Prop) (m : ST S A) : Prop := hoare P m (fun _ => P) (fun _ => P).

Lemma always_bind {A B} P (m : ST S A) (k : A -> ST S B) :
  always P m -> (forall a, always P (k a)) -> always P (st_bind m k).
Proof. intros Hm Hk. by eapply hoare_bind. Qed.

Lemma always_try {A} P (m : ST S A) h : always P m -> (forall e, always P (h e)) -> always P (st_try m h).
Proof. intros Hm Hh. by eapply hoare_try. Qed.

Lemma always_ret {A} (P : S -> Prop) (a : A) : always P (st_ret a).
Proof. by intros s. Qed.

Lemma always_raise {A} (P : S -> Prop) e : always P (st_raise (A := A) e).
Proof. by intros s. Qed.

Lemma always_modify (P : S -> Prop) f : (forall s, P s -> P (f s)) -> always P (st_modify f).
Proof. intros Hf. by apply hoare_modify. Qed.

Lemma always_for {A} P (body : A -> ST S unit) l : (forall x, always P (body x)) -> always P (st_for l body).
Proof. intros Hb. apply hoare_for_inv. intros x _. apply Hb. Qed.
End hoare.

(** A sequence that returns: so did its parts. *)
Lemma st_bind_ok {S A B} (m : ST S A) (k : A -> ST S B) s s' b :
  st_bind m k s = (s', Ok b) -> exists s1 a, m s = (s1, Ok a) /\ k a s1 = (s', Ok b).
Proof. unfold st_bind. destruct (m s) as [s1 [a|e]]; [eauto|done]. Qed.

(** Take a run apart at its first step. *)
Ltac step_in H s1 a H1 := apply st_bind_ok in H as (s1 & a & H1 & H).

(** ** Stable sorting ([ORDER BY], [sorted(key=...)])

    [sort_by le l] is insertion sort; for a total preorder it is the stable
    sort that Python's [sorted] computes and an [ORDER BY] result whose ties
    follow the row order. *)

Fixpoint insert_by {A} (le : A -> A -> bool) (x : A) (l : list A) : list A :=
  match l with
  | [] => [x]
  | y :: l' => if le x y then x :: y :: l' else y :: insert_by le x l'
  end.

Fixpoint sort_by {A} (le : A -> A -> bool) (l : list A) : list A :=
  match l with
  | [] => []
  | x :: l' => insert_by le x (sort_by le l')
  end.

Section sorting.
Context {A : Type} (le : A -> A -> bool).

Lemma insert_by_perm x l : Permutation (insert_by le x l) (x :: l).
Proof.
  induction l as [|y l IH]; simpl; [done|].
  destruct (le x y); [done|]. by rewrite IH, Permutation_swap.
Qed.

Lemma sort_by_perm l : Permutation (sort_by le l) l.
Proof.
  induction l as [|x l IH]; simpl; [done|]. by rewrite insert_by_perm, IH.
Qed.

Lemma sort_by_length l : length (sort_by le l) = length l.
Proof. apply Permutation_length, sort_by_perm. Qed.

Lemma sort_by_In x l : In x (sort_by le l) <-> In x l.
Proof.
  split; apply Permutation_in; [|symmetry]; apply sort_by_perm.
Qed.

Hypothesis le_total : forall x y, le x y = true \/ le y x = true.
Hypothesis le_trans : forall x y z, le x y = true -> le y z = true -> le x z = true.

Let Le (x y : A) : Prop := le x y = true.

Lemma insert_by_sorted x l :
  StronglySorted Le l -> StronglySorted Le (insert_by le x l).
Proof.
  induction 1 as [|y l Hs IH Hall]; simpl; [by repeat constructor|].
  destruct (le x y) eqn:Hxy.
  - constructor; [by constructor|]. constructor; [done|].
    eapply Forall_impl; [exact Hall|]. intros z Hz. by eapply le_trans.
  - constructor; [done|].
    rewrite List.Forall_forall in *. intros z Hz.
    apply (Permutation_in _ (insert_by_perm x l)) in Hz as [<-|Hz]; auto.
    destruct (le_total x y); [congruence|done].
Qed.

Lemma sort_by_sorted l : StronglySorted Le (sort_by le l).
Proof. induction l; simpl; [constructor|by apply insert_by_sorted]. Qed.

(** A sorted list is determined by its elements when no two of them tie. *)
Lemma sorted_unique l1 l2 :
  StronglySorted Le l1 -> StronglySorted Le l2 -> Permutation l1 l2 ->
  (forall x y, In x l1 -> In y l1 -> Le x y -> Le y x -> x = y) -> l1 = l2.
Proof.
  intros Hs1. revert l2. induction Hs1 as [|x l1 Hs1 IH Hx]; intros l2 Hs2 Hp Hanti.
  { symmetry. by apply Permutation_nil. }
  destruct Hs2 as [|y l2 Hs2 Hy]; [apply Permutation_sym, Permutation_nil in Hp; done|].
  rewrite List.Forall_forall in Hx, Hy.
  assert (x = y) as <-.
  { assert (In x (y :: l2)) as [->|Hxy] by (eapply Permutation_in; [exact Hp|by left]); [done|].
    assert (In y (x :: l1)) as [->|Hyx]
      by (eapply Permutation_in; [symmetry; exact Hp|by left]); [done|].
    apply Hanti; [by left|by right|by apply Hx|by apply Hy]. }
  f_equal. apply IH; [done|by eapply Permutation_cons_inv|].
  intros a b Ha Hb. apply Hanti; by right.
Qed.

(** The rows a [LIMIT n] cuts off come after the rows it keeps. *)
Lemma sorted_firstn_skipn n l x y :
  StronglySorted Le l -> In x (firstn n l) -> In y (skipn n l) -> Le x y.
Proof.
  intros Hs. revert n. induction Hs as [|z l Hs IH Hall]; intros [|n]; simpl; try done.
  intros [->|Hx] Hy; [|eauto].
  rewrite List.Forall_forall in Hall. apply Hall.
  rewrite <- (firstn_skipn n l). apply in_or_app; auto.
Qed.
End sorting.

Lemma NoDup_map_sort {A B} (g : A -> B) le l : List.NoDup (map g l) -> List.NoDup (map g (sort_by le l)).
Proof. apply Permutation_NoDup, Permutation_map. symmetry. apply sort_by_perm. Qed.

Lemma NoDup_map_firstn {A B} (g : A -> B) n l : List.NoDup (map g l) -> List.NoDup (map g (firstn n l)).
Proof.
  intros Hnd. rewrite <- (firstn_skipn n l), map_app in Hnd.
  apply List.NoDup_app_remove_r in Hnd. done.
Qed.

(** ** Python slices and clamps *)

(** [max(lo, min(x, hi))] *)
Definition clamp (lo hi x : Z) : Z := Z.max lo (Z.min x hi).

Lemma clamp_bounds lo hi x : (lo <= hi -> lo <= clamp lo hi x <= hi)%Z.
Proof. unfold clamp; lia. Qed.
