(* ===== verification/PyStr.v ===== *)
(** * Python string operations

    The [str] methods the orchestrator uses, on Rocq's byte strings.  A string
    stands for the UTF-8 bytes of the Python string; [lower], [upper] and
    [strip] act on ASCII characters, and slices count bytes, so every
    definition agrees with Python on ASCII text. *)

From S2P Require Import Prelude.
From Stdlib Require Import Ascii.
Open Scope Z_scope.

Abbreviation ascii_code := Ascii.N_of_ascii.

(** ** Characters *)

(** ASCII members of [str.isspace]: tab, LF, VT, FF, CR, FS, GS, RS, US, space. *)
Definition is_space (c : ascii) : bool :=
  let n := Z.of_N (ascii_code c) in
  ((9 <=? n) && (n <=? 13)) || ((28 <=? n) && (n <=? 32)).

Definition is_digit (c : ascii) : bool :=
  let n := Z.of_N (ascii_code c) in (48 <=? n) && (n <=? 57).

Definition lower_char (c : ascii) : ascii :=
  let n := Z.of_N (ascii_code c) in
  if (65 <=? n) && (n <=? 90) then Ascii.ascii_of_N (Z.to_N (n + 32)) else c.

Definition upper_char (c : ascii) : ascii :=
  let n := Z.of_N (ascii_code c) in
  if (97 <=? n) && (n <=? 122) then Ascii.ascii_of_N (Z.to_N (n - 32)) else c.

(** ** Whole-string operations *)

Fixpoint smap (f : ascii -> ascii) (s : string) : string :=
  match s with
  | EmptyString => EmptyString
  | String c s' => String (f c) (smap f s')
  end.

(** [s.lower()], [s.upper()] *)
Definition lower : string -> string := smap lower_char.
Definition upper : string -> string := smap upper_char.

(** [s.lstrip(chars)] / [s.rstrip(chars)] / [s.strip(chars)] with the set of
    characters given by a predicate. *)
Fixpoint lstrip_by (p : ascii -> bool) (s : string) : string :=
  match s with
  | EmptyString => EmptyString
  | String c s' => if p c then lstrip_by p s' else s
  end.

Fixpoint rstrip_by (p : ascii -> bool) (s : string) : string :=
  match s with
  | EmptyString => EmptyString
  | String c s' =>
      match rstrip_by p s' with
      | EmptyString => if p c then EmptyString else String c EmptyString
      | t => String c t
      end
  end.

Definition strip_by (p : ascii -> bool) (s : string) : string :=
  rstrip_by p (lstrip_by p s).

Definition strip : string -> string := strip_by is_space.

(** Truth value of a string. *)
Definition truthy (s : string) : bool := negb (String.eqb s "").

(** [a or b] on strings. *)
Definition str_or (a b : string) : string := if truthy a then a else b.

(** [s.startswith(p)] *)
Fixpoint startswith (s p : string) : bool :=
  match p, s with
  | EmptyString, _ => true
  | String a p', String b s' => Ascii.eqb a b && startswith s' p'
  | String _ _, EmptyString => false
  end.

(** [s.endswith(p)] *)
Fixpoint endswith (s p : string) : bool :=
  String.eqb s p || match s with EmptyString => false | String _ s' => endswith s' p end.

(** [p in s] *)
Fixpoint contains (s p : string) : bool :=
  startswith s p || match s with EmptyString => false | String _ s' => contains s' p end.

(** [s[:n]] for [n >= 0]. *)
Fixpoint take (n : nat) (s : string) : string :=
  match n, s with
  | S n', String c s' => String c (take n' s')
  | _, _ => EmptyString
  end.

(** [s[:-n]] when [s] has at least [n] characters. *)
Definition drop_last (n : nat) (s : string) : string := take (String.length s - n) s.

(** [s.replace(c, r)] for a one-character pattern. *)
Fixpoint replace_char (c : ascii) (r : string) (s : string) : string :=
  match s with
  | EmptyString => EmptyString
  | String a s' =>
      if Ascii.eqb a c then r +:+ replace_char c r s' else String a (replace_char c r s')
  end.

(** [s.split(c)] for a one-character separator: never empty. *)
Fixpoint split (c : ascii) (s : string) : list string :=
  match s with
  | EmptyString => [EmptyString]
  | String a s' =>
      if Ascii.eqb a c then EmptyString :: split c s'
      else match split c s' with
           | [] => [String a EmptyString]
           | p :: ps => String a p :: ps
           end
  end.

(** [sep.join(l)] *)
Fixpoint join (sep : string) (l : list string) : string :=
  match l with
  | [] => EmptyString
  | [x] => x
  | x :: l' => x +:+ sep +:+ join sep l'
  end.

(** Does the character occur in the string? *)
Fixpoint has_char (c : ascii) (s : string) : bool :=
  match s with
  | EmptyString => false
  | String a s' => Ascii.eqb a c || has_char c s'
  end.

(** ** [urllib.parse.unquote] *)

Definition hex_val (c : ascii) : option N :=
  let n := ascii_code c in
  if ((48 <=? n) && (n <=? 57))%N then Some (n - 48)%N
  else if ((65 <=? n) && (n <=? 70))%N then Some (n - 55)%N
  else if ((97 <=? n) && (n <=? 102))%N then Some (n - 87)%N
  else None.

(** Every [%XX] escape becomes its byte; anything else is copied.  The result
    is the UTF-8 text Python decodes when the bytes are valid UTF-8. *)
Fixpoint unquote (s : string) : string :=
  match s with
  | String "%" ((String a (String b s'')) as s') =>
      match hex_val a, hex_val b with
      | Some x, Some y => String (Ascii.ascii_of_N (16 * x + y)%N) (unquote s'')
      | _, _ => String "%" (unquote s')
      end
  | String c s' => String c (unquote s')
  | EmptyString => EmptyString
  end.

(** ** Decimal rendering *)

(** [n] decimal digits of [z], most significant first ([f"{z:0nd}"] when [z]
    fits). *)
Fixpoint digits (n : nat) (z : Z) : string :=
  match n with
  | O => EmptyString
  | S n' => digits n' (z / 10) +:+ String (Ascii.ascii_of_N (Z.to_N (48 + z mod 10))) EmptyString
  end.

Fixpoint digits_needed (fuel : nat) (z : Z) : nat :=
  match fuel with
  | O => 1
  | S f => if z <? 10 then 1%nat else S (digits_needed f (z / 10))
  end.

(** [str(z)] for an integer. *)
Definition str_of_Z (z : Z) : string :=
  let a := Z.abs z in
  let body := digits (digits_needed (Z.to_nat (Z.log2 (a + 1)) + 1) a) a in
  if z <? 0 then "-" +:+ body else body.

(** Value of a string of decimal digits ([int(s)] when [s.isdigit()]). *)
Fixpoint int_of_digits (acc : Z) (s : string) : option Z :=
  match s with
  | EmptyString => Some acc
  | String c s' =>
      if is_digit c
      then int_of_digits (10 * acc + (Z.of_N (ascii_code c) - 48)) s'
      else None
  end.

(** ** [fnmatch] *)

Inductive glob_tok :=
| GStar
| GAny
| GLit (c : ascii)
| GClass (neg : bool) (ranges : list (ascii * ascii)).

(** The text of a bracket expression up to the closing bracket. *)
Fixpoint class_body (first : bool) (s : string) : option (string * string) :=
  match s with
  | EmptyString => None
  | String c s' =>
      if Ascii.eqb c "]" && negb first then Some (EmptyString, s')
      else match class_body false s' with
           | Some (b, r) => Some (String c b, r)
           | None => None
           end
  end.

Fixpoint class_ranges (s : string) : list (ascii * ascii) :=
  match s with
  | String a (String "-" (String b s')) => (a, b) :: class_ranges s'
  | String a s' => (a, a) :: class_ranges s'
  | EmptyString => []
  end.

Fixpoint glob_parse (fuel : nat) (p : string) : list glob_tok :=
  match fuel with
  | O => []
  | S fuel' =>
      match p with
      | EmptyString => []
      | String "*" p' => GStar :: glob_parse fuel' p'
      | String "?" p' => GAny :: glob_parse fuel' p'
      | String "[" p' =>
          let '(neg, q) := match p' with
                           | String "!" q => (true, q)
                           | _ => (false, p')
                           end in
          match class_body true q with
          | Some (b, r) => GClass neg (class_ranges b) :: glob_parse fuel' r
          | None => GLit "[" :: glob_parse fuel' p'
          end
      | String c p' => GLit c :: glob_parse fuel' p'
      end
  end.

Definition in_class (neg : bool) (rs : list (ascii * ascii)) (c : ascii) : bool :=
  xorb neg (existsb (fun '(a, b) =>
    ((ascii_code a <=? ascii_code c) && (ascii_code c <=? ascii_code b))%N) rs).

Fixpoint glob_match (ts : list glob_tok) (s : string) : bool :=
  match ts with
  | [] => String.eqb s ""
  | GStar :: ts' =>
      (fix star (s : string) : bool :=
         glob_match ts' s || match s with EmptyString => false | String _ s' => star s' end) s
  | GAny :: ts' => match s with String _ s' => glob_match ts' s' | _ => false end
  | GLit c :: ts' => match s with String d s' => Ascii.eqb c d && glob_match ts' s' | _ => false end
  | GClass n rs :: ts' => match s with String d s' => in_class n rs d && glob_match ts' s' | _ => false end
  end.

(** [fnmatch(name, pat)] *)
Definition fnmatch (name pat : string) : bool :=
  glob_match (glob_parse (S (String.length pat)) pat) name.

Example fnmatch_index : fnmatch "index__arena.json" "index__*.json" = true.
Proof. reflexivity. Qed.
Example fnmatch_class : fnmatch "a7" "[!b-z][0-9]" = true.
Proof. reflexivity. Qed.
Example str_of_Z_ex : str_of_Z 1205 = "1205" /\ str_of_Z (-7) = "-7" /\ str_of_Z 0 = "0".
Proof. repeat split. Qed.
Example unquote_ex : unquote "a%2Fb%zz%" = "a/b%zz%".
Proof. reflexivity. Qed.
Example split_ex : split "," "a,,b" = ["a"; ""; "b"] /\ split "," "" = [""].
Proof. split; reflexivity. Qed.
Example strip_ex : strip "  a b  " = "a b" /\ lower "AbZ" = "abz" /\ contains "xabcy" "abc" = true.
Proof. repeat split. Qed.

(** ** Lemmas on [split] and [join] *)

Lemma append_cons c s t : String c s +:+ t = String c (s +:+ t).
Proof. reflexivity. Qed.

Lemma append_length s t :
  String.length (s +:+ t) = (String.length s + String.length t)%nat.
Proof. induction s as [|c s IH]; [done|]. rewrite append_cons. simpl. by rewrite IH. Qed.

Lemma append_assoc s t u : (s +:+ t) +:+ u = s +:+ (t +:+ u).
Proof. induction s as [|c s IH]; [done|]. rewrite !append_cons. by rewrite IH. Qed.

Lemma append_nil_r s : s +:+ "" = s.
Proof. induction s as [|c s IH]; [done|]. rewrite append_cons. by rewrite IH. Qed.

Lemma split_not_nil c s : split c s <> [].
Proof.
  destruct s as [|a s]; simpl; [done|].
  destruct (Ascii.eqb a c), (split c s); done.
Qed.

Lemma join_cons sep x l : l <> [] -> join sep (x :: l) = x +:+ sep +:+ join sep l.
Proof. destruct l; done. Qed.

(** [c.join(s.split(c)) == s] *)
Lemma join_split c s : join (String c "") (split c s) = s.
Proof.
  induction s as [|a s IH]; [done|]. cbn [split].
  pose proof (split_not_nil c s) as Hne.
  destruct (Ascii.eqb_spec a c) as [->|Hac].
  - rewrite join_cons by done. rewrite IH. done.
  - destruct (split c s) as [|p ps] eqn:Hs; [done|].
    rewrite <- IH. destruct ps; reflexivity.
Qed.

Lemma split_no_sep c s : List.Forall (fun p => has_char c p = false) (split c s).
Proof.
  induction s as [|a s IH]; cbn [split]; [by repeat constructor|].
  destruct (Ascii.eqb a c) eqn:Hac; [by constructor|].
  destruct (split c s) as [|p ps]; inversion IH; subst; constructor; simpl; rewrite ?Hac; done.
Qed.

Lemma split_nosep c s : has_char c s = false -> split c s = [s].
Proof.
  induction s as [|a s IH]; simpl; [done|]. intros [-> H]%orb_false_iff.
  by rewrite IH.
Qed.

Lemma split_app_sep c p s :
  has_char c p = false -> split c (p +:+ String c s) = p :: split c s.
Proof.
  induction p as [|a p IH]; simpl; [by rewrite Ascii.eqb_refl|].
  intros [-> H]%orb_false_iff. rewrite IH by done. done.
Qed.

(** [c.join(l).split(c) == l] for a non-empty list of separator-free parts. *)
Lemma split_join c l :
  l <> [] -> List.Forall (fun p => has_char c p = false) l ->
  split c (join (String c "") l) = l.
Proof.
  induction l as [|p l IH]; [done|]. intros _ Hall. inversion Hall; subst.
  destruct l as [|q l]; [by apply split_nosep|].
  rewrite join_cons by done.
  change (String c "" +:+ join (String c "") (q :: l))
    with (String c (join (String c "") (q :: l))).
  rewrite split_app_sep by done. f_equal. by apply IH.
Qed.

Lemma has_char_app c s t : has_char c (s +:+ t) = has_char c s || has_char c t.
Proof.
  induction s as [|a s IH]; simpl; [done|]. rewrite IH. by rewrite orb_assoc.
Qed.

Lemma smap_smap f g s : smap f (smap g s) = smap (fun c => f (g c)) s.
Proof. induction s; simpl; congruence. Qed.

Lemma smap_ext f g s : (forall c, f c = g c) -> smap f s = smap g s.
Proof. intros H. induction s; simpl; congruence. Qed.

(** [s.lower().lower() == s.lower()] *)
Lemma lower_lower s : lower (lower s) = lower s.
Proof.
  unfold lower. rewrite smap_smap. apply smap_ext.
  intros [[] [] [] [] [] [] [] []]; reflexivity.
Qed.

Lemma lower_app s t : lower (s +:+ t) = lower s +:+ lower t.
Proof.
  unfold lower. induction s as [|c s IH]; [done|].
  rewrite append_cons. cbn [smap]. by rewrite IH.
Qed.

Lemma lstrip_idem p s : lstrip_by p (lstrip_by p s) = lstrip_by p s.
Proof.
  induction s as [|c s IH]; simpl; [done|].
  destruct (p c) eqn:H; simpl; [done|by rewrite H].
Qed.

Lemma rstrip_idem p s : rstrip_by p (rstrip_by p s) = rstrip_by p s.
Proof.
  induction s as [|c s IH]; simpl; [done|].
  destruct (rstrip_by p s) as [|d t] eqn:Hr.
  - destruct (p c) eqn:H; simpl; [done|by rewrite H].
  - cbn [rstrip_by] in *. rewrite IH. done.
Qed.

Lemma rstrip_head p c s : p c = false -> exists t, rstrip_by p (String c s) = String c t.
Proof. intros H. simpl. destruct (rstrip_by p s); rewrite ?H; eauto. Qed.

(** [s.strip().strip() == s.strip()] *)
Lemma strip_strip s : strip (strip s) = strip s.
Proof.
  unfold strip, strip_by.
  destruct (lstrip_by is_space s) as [|c t] eqn:Hl; [done|].
  assert (is_space c = false) as Hc.
  { clear -Hl. revert c t Hl. induction s as [|a s IH]; intros c t; simpl; [done|].
    destruct (is_space a) eqn:Ha; [apply IH|]. by intros [= -> ->]. }
  destruct (rstrip_head is_space c t Hc) as [t' Ht']. rewrite Ht'.
  cbn [lstrip_by]. rewrite Hc. rewrite <- Ht'. apply rstrip_idem.
Qed.

(** ** Prefixes *)

Lemma startswith_app s t : startswith (s +:+ t) s = true.
Proof.
  induction s as [|a s IH]; simpl; [by destruct t|]. by rewrite Ascii.eqb_refl.
Qed.

Lemma startswith_spec s p : startswith s p = true <-> exists t, s = p +:+ t.
Proof.
  revert s. induction p as [|a p IH]; intros s; simpl.
  - split; [eauto|destruct s; done].
  - destruct s as [|b s]; simpl.
    + split; [done|]. intros [t Ht]. done.
    + rewrite andb_true_iff, IH, Ascii.eqb_eq. split.
      * intros [-> [t ->]]. by exists t.
      * intros [t Ht]. injection Ht as -> ->. eauto.
Qed.

Lemma take_length n s : (String.length (take n s) <= n)%nat.
Proof. revert s; induction n; intros [|c s]; simpl; [lia..|]. specialize (IHn s). lia. Qed.

(** ** Lexicographic order *)

Definition str_leb : string -> string -> bool := String.leb.
Definition str_ltb : string -> string -> bool := String.ltb.

Lemma str_leb_refl s : str_leb s s = true.
Proof.
  unfold str_leb. destruct (String.leb_total s s); done.
Qed.

Lemma str_leb_total s t : str_leb s t = true \/ str_leb t s = true.
Proof. apply String.leb_total. Qed.

Lemma str_leb_antisym s t : str_leb s t = true -> str_leb t s = true -> s = t.
Proof. apply String.leb_antisym. Qed.

Lemma str_leb_trans s t u : str_leb s t = true -> str_leb t u = true -> str_leb s u = true.
Proof.
  intros H1%Is_true_true H2%Is_true_true. apply Is_true_true.
  exact (transitivity (R := String.le) H1 H2).
Qed.

Lemma str_leb_compare s t : str_leb s t = negb (match String.compare s t with Gt => true | _ => false end).
Proof. unfold str_leb, String.leb. by destruct (String.compare s t). Qed.

Lemma str_ltb_leb s t : str_ltb s t = negb (str_leb t s).
Proof.
  unfold str_ltb, str_leb, String.ltb, String.leb.
  rewrite (String.compare_antisym s t). by destruct (String.compare t s).
Qed.

Lemma ascii_compare_refl c : Ascii.compare c c = Eq.
Proof. unfold Ascii.compare. apply N.compare_refl. Qed.

Lemma str_compare_refl s : String.compare s s = Eq.
Proof. induction s as [|c s IH]; simpl; [done|]. by rewrite ascii_compare_refl. Qed.

(** Comparing strings whose first parts have the same length: the first parts
    decide unless they are equal. *)
Lemma compare_app a1 a2 b1 b2 :
  String.length a1 = String.length a2 ->
  String.compare (a1 +:+ b1) (a2 +:+ b2) =
    match String.compare a1 a2 with Eq => String.compare b1 b2 | c => c end.
Proof.
  revert a2. induction a1 as [|x a1 IH]; intros [|y a2]; simpl; try done.
  intros [= Hlen]. destruct (Ascii.compare x y); auto.
Qed.

Lemma digits_length n z : String.length (digits n z) = n.
Proof.
  revert z. induction n as [|n IH]; intros z; [done|]. cbn [digits].
  rewrite append_length, IH. simpl. lia.
Qed.

Lemma digit_char_compare x y :
  0 <= x < 10 -> 0 <= y < 10 ->
  Ascii.compare (Ascii.ascii_of_N (Z.to_N (48 + x))) (Ascii.ascii_of_N (Z.to_N (48 + y)))
    = (x ?= y).
Proof.
  intros Hx Hy. unfold Ascii.compare. rewrite !Ascii.N_ascii_embedding by lia.
  destruct (Z.compare_spec x y).
  - apply N.compare_eq_iff. lia.
  - apply N.compare_lt_iff. lia.
  - apply N.compare_gt_iff. lia.
Qed.

(** Zero-padded decimals of the same width compare like their values. *)
Lemma digits_compare n x y :
  0 <= x < 10 ^ Z.of_nat n -> 0 <= y < 10 ^ Z.of_nat n ->
  String.compare (digits n x) (digits n y) = (x ?= y).
Proof.
  revert x y. induction n as [|n IH]; intros x y Hx Hy.
  - simpl in *. replace x with 0 by lia. replace y with 0 by lia. done.
  - rewrite Nat2Z.inj_succ, Z.pow_succ_r in * by lia. cbn [digits].
    rewrite compare_app by (by rewrite !digits_length).
    rewrite IH by (split; [apply Z.div_pos; lia|apply Z.div_lt_upper_bound; lia]).
    cbn [String.compare].
    rewrite digit_char_compare by (apply Z.mod_pos_bound; lia).
    pose proof (Z.div_mod x 10). pose proof (Z.div_mod y 10).
    pose proof (Z.mod_pos_bound x 10). pose proof (Z.mod_pos_bound y 10).
    destruct (Z.compare_spec (x / 10) (y / 10)) as [Hq|Hq|Hq].
    + destruct (Z.compare_spec (x mod 10) (y mod 10)); symmetry;
        [apply Z.compare_eq_iff|apply Z.compare_lt_iff|apply Z.compare_gt_iff]; lia.
    + symmetry. apply Z.compare_lt_iff. lia.
    + symmetry. apply Z.compare_gt_iff. lia.
Qed.

(** ** Characters of transformed strings *)

Lemma unquote_cons c s : c <> "%"%char -> unquote (String c s) = String c (unquote s).
Proof.
  intros Hc. destruct c as [[] [] [] [] [] [] [] []]; first [reflexivity | by destruct Hc].
Qed.

Lemma unquote_id s : has_char "%" s = false -> unquote s = s.
Proof.
  induction s as [|c s IH]; [done|]. cbn [has_char]. intros [Hc Hs]%orb_false_iff.
  rewrite unquote_cons, IH; [done..|]. by apply Ascii.eqb_neq.
Qed.

Lemma replace_char_id c r s : has_char c s = false -> replace_char c r s = s.
Proof.
  induction s as [|a s IH]; [done|]. cbn [has_char replace_char].
  intros [-> Hs]%orb_false_iff. by rewrite IH.
Qed.

Lemma replace_char_gone c r s : has_char c r = false -> has_char c (replace_char c r s) = false.
Proof.
  intros Hr. induction s as [|a s IH]; [done|]. cbn [replace_char].
  destruct (Ascii.eqb a c) eqn:E; [by rewrite has_char_app, Hr|]. cbn [has_char]. by rewrite E.
Qed.

Lemma split_has_char c d s :
  has_char d s = false -> List.Forall (fun p => has_char d p = false) (split c s).
Proof.
  induction s as [|a s IH]; cbn [split has_char]; [by repeat constructor|].
  intros [Ha Hs]%orb_false_iff. specialize (IH Hs).
  destruct (Ascii.eqb a c); [by constructor|].
  destruct (split c s) as [|p ps]; inversion IH; subst; constructor; cbn; rewrite ?Ha; done.
Qed.

Lemma join_has_char d sep l :
  has_char d sep = false -> List.Forall (fun p => has_char d p = false) l ->
  has_char d (join sep l) = false.
Proof.
  intros Hsep. induction l as [|p l IH]; [done|]. intros Hall. inversion Hall; subst.
  destruct l as [|q l]; [done|]. rewrite join_cons by done.
  rewrite !has_char_app, Hsep, IH by done. by destruct (has_char d p).
Qed.
