(* ===== verification/PyTime.v ===== *)
(** * UTC time stamps

    The orchestrator writes every time stamp as
    [datetime.utcnow().isoformat() + "Z"] and lets SQLite and MongoDB compare
    those texts.  This file models the naive UTC [datetime], [isoformat] and
    the conversion from the epoch, and relates the order of the texts to the
    order of the instants.  Instants and durations are integers in
    microseconds, the resolution of [datetime]. *)

From S2P Require Import Prelude PyStr.
Open Scope Z_scope.

Record datetime := mkDatetime {
  year : Z; month : Z; day : Z;
  hour : Z; minute : Z; second : Z; microsecond : Z }.

(** ** Calendar *)

Definition is_leap (y : Z) : bool :=
  (y mod 4 =? 0) && (negb (y mod 100 =? 0) || (y mod 400 =? 0)).

Definition month_lengths (leap : bool) : list Z :=
  [31; (if leap then 29 else 28); 31; 30; 31; 30; 31; 31; 30; 31; 30; 31].

Definition days_before_year (y : Z) : Z :=
  let p := y - 1 in 365 * p + p / 4 - p / 100 + p / 400.

Definition days_before_month (leap : bool) (m : Z) : Z :=
  foldr Z.add 0 (firstn (Z.to_nat (m - 1)) (month_lengths leap)).

(** Proleptic Gregorian ordinal; 1 is 0001-01-01. *)
Definition ymd2ord (y m d : Z) : Z :=
  days_before_year y + days_before_month (is_leap y) m + d.

Fixpoint find_month (ls : list Z) (m n : Z) : Z * Z :=
  match ls with
  | [] => (m, n + 1)
  | l :: ls' => if n <? l then (m, n + 1) else find_month ls' (m + 1) (n - l)
  end.

Definition ord2ymd (ord : Z) : Z * Z * Z :=
  let n := ord - 1 in
  let n400 := n / 146097 in let n := n mod 146097 in
  let n100 := n / 36524 in let n := n mod 36524 in
  let n4 := n / 1461 in let n := n mod 1461 in
  let n1 := n / 365 in let n := n mod 365 in
  let y := n400 * 400 + 1 + n100 * 100 + n4 * 4 + n1 in
  if (n1 =? 4) || (n100 =? 4) then (y - 1, 12, 31)
  else let '(m, d) := find_month (month_lengths (is_leap y)) 1 n in (y, m, d).

Definition us_per_sec : Z := 1000000.
Definition us_per_day : Z := 86400000000.

(** [datetime.utcfromtimestamp(t)] with [t] in microseconds. *)
Definition utcfromtimestamp (t : Z) : datetime :=
  let '(y, m, d) := ord2ymd (t / us_per_day + 719163) in
  let r := t mod us_per_day in
  let s := r / us_per_sec in
  {| year := y; month := m; day := d;
     hour := s / 3600; minute := s / 60 mod 60; second := s mod 60;
     microsecond := r mod us_per_sec |}.

(** [dt.isoformat()] of a naive datetime: the fraction is printed only when it
    is not zero. *)
Definition isoformat_secs (dt : datetime) : string :=
  digits 4 (year dt) +:+ "-" +:+ digits 2 (month dt) +:+ "-" +:+ digits 2 (day dt) +:+
  "T" +:+ digits 2 (hour dt) +:+ ":" +:+ digits 2 (minute dt) +:+ ":" +:+ digits 2 (second dt).

Definition isoformat (dt : datetime) : string :=
  isoformat_secs dt +:+
  (if microsecond dt =? 0 then "" else "." +:+ digits 6 (microsecond dt)).

(** [datetime.utcfromtimestamp(t).isoformat() + "Z"]; with [t] the current
    time, [datetime.utcnow().isoformat() + "Z"]. *)
Definition _utc_iso_from_unix (t : Z) : string := isoformat (utcfromtimestamp t) +:+ "Z".
Definition _utc_now (now : Z) : string := _utc_iso_from_unix now.
Definition _task_iso_now (now : Z) : string := _utc_iso_from_unix now.

(** [_task_iso_after(seconds)]: now plus a non-negative delay. *)
Definition _task_iso_after (now delay : Z) : string := _utc_iso_from_unix (now + Z.max 0 delay).

(** [_outbox_gc_cutoff_iso(hours)]: an aware datetime prints "+00:00", which the
    code replaces by "Z". *)
Definition _outbox_gc_cutoff_iso (now hours : Z) : string :=
  _utc_iso_from_unix (now - 3600 * us_per_sec * Z.max 0 hours).

Example iso_ex : _utc_now 1700000000000000 = "2023-11-14T22:13:20Z".
Proof. reflexivity. Qed.
Example iso_ex_us : _utc_now 1709210096000042 = "2024-02-29T12:34:56.000042Z".
Proof. vm_compute. reflexivity. Qed.
Example iso_ex_epoch : _utc_now 0 = "1970-01-01T00:00:00Z".
Proof. vm_compute. reflexivity. Qed.

(** ** The calendar conversion is correct *)

Local Ltac Zify.zify_post_hook ::= Z.to_euclidean_division_equations.

Local Ltac eval_calendar :=
  repeat match goal with
  | |- context [days_before_month ?l ?m] =>
      let v := eval vm_compute in (days_before_month l m) in
      change (days_before_month l m) with v
  | |- context [nth ?i ?l ?d] =>
      let v := eval vm_compute in (nth i l d) in change (nth i l d) with v
  end.

Lemma find_month_spec (leap : bool) (n : Z) :
  0 <= n < (if leap then 366 else 365) ->
  let '(m, d) := find_month (month_lengths leap) 1 n in
  days_before_month leap m + d = n + 1 /\ 1 <= m <= 12 /\
  1 <= d <= nth (Z.to_nat (m - 1)) (month_lengths leap) 0.
Proof.
  intros Hn. unfold month_lengths. cbn [find_month].
  destruct leap; repeat (dmatch; [blift; eval_calendar; lia|]); blift; lia.
Qed.

Definition valid_ymd (y m d : Z) : Prop :=
  1 <= m <= 12 /\ 1 <= d <= nth (Z.to_nat (m - 1)) (month_lengths (is_leap y)) 0.

Lemma leap_spec y : is_leap y = true <-> y mod 4 = 0 /\ (y mod 100 <> 0 \/ y mod 400 = 0).
Proof.
  unfold is_leap. rewrite andb_true_iff, orb_true_iff, negb_true_iff, !Z.eqb_eq, Z.eqb_neq. done.
Qed.

Lemma days_before_year_succ y :
  days_before_year (y + 1) = days_before_year y + (if is_leap y then 366 else 365).
Proof.
  unfold days_before_year. pose proof (leap_spec y) as Hl. destruct (is_leap y).
  - destruct Hl as [Hl _]. specialize (Hl eq_refl). lia.
  - assert (~ (y mod 4 = 0 /\ (y mod 100 <> 0 \/ y mod 400 = 0))) as Hn by (intros ?%Hl; done).
    lia.
Qed.

Lemma ord2ymd_spec ord y m d :
  ord2ymd ord = (y, m, d) -> ymd2ord y m d = ord /\ valid_ymd y m d.
Proof.
  unfold ord2ymd, ymd2ord, valid_ymd.
  set (n := ord - 1).
  set (n400 := n / 146097). set (na := n mod 146097).
  set (n100 := na / 36524). set (nb := na mod 36524).
  set (n4 := nb / 1461). set (nc := nb mod 1461).
  set (n1 := nc / 365). set (nd := nc mod 365).
  assert (n = 146097 * n400 + na /\ 0 <= na < 146097) as [E1 B1] by (unfold n400, na; lia).
  assert (na = 36524 * n100 + nb /\ 0 <= nb < 36524) as [E2 B2] by (unfold n100, nb; lia).
  assert (nb = 1461 * n4 + nc /\ 0 <= nc < 1461) as [E3 B3] by (unfold n4, nc; lia).
  assert (nc = 365 * n1 + nd /\ 0 <= nd < 365) as [E4 B4] by (unfold n1, nd; lia).
  assert (ord = n + 1) as E0 by (unfold n; lia).
  clearbody n n400 na n100 nb n4 nc n1 nd.
  set (yy := n400 * 400 + 1 + n100 * 100 + n4 * 4 + n1).
  destruct ((n1 =? 4) || (n100 =? 4)) eqn:H4.
  - intros [= <- <- <-].
    assert (is_leap (yy - 1) = true) as Hl.
    { apply leap_spec. unfold yy. apply orb_true_iff in H4 as [H4|H4]; blift; subst; lia. }
    rewrite Hl. pose proof (days_before_year_succ (yy - 1)) as Hs. rewrite Hl in Hs.
    replace (yy - 1 + 1) with yy in Hs by lia.
    split; [|eval_calendar; lia]. eval_calendar.
    enough (days_before_year yy = n + 1) by lia.
    unfold days_before_year, yy. apply orb_true_iff in H4 as [H4|H4]; blift; subst; lia.
  - blift. assert (0 <= n1 <= 3 /\ 0 <= n100 <= 3 /\ 0 <= n4 <= 24) as Hb by lia.
    assert (days_before_year yy = n - nd) as Hy by (unfold days_before_year, yy; lia).
    pose proof (find_month_spec (is_leap yy) nd) as Hm.
    destruct (find_month (month_lengths (is_leap yy)) 1 nd) as [m' d'].
    intros [= <- <- <-]. destruct Hm as (Hm & ? & ?); [destruct (is_leap yy); lia|].
    split; [lia|done].
Qed.

(** ** Order of dates and instants *)

Definition lexc (c d : comparison) : comparison :=
  match c with Eq => d | _ => c end.

(** Comparison of two naive datetimes truncated to the second, and in full:
    Python compares the fields in this order. *)
Definition secs_compare (a b : datetime) : comparison :=
  lexc (year a ?= year b) (lexc (month a ?= month b) (lexc (day a ?= day b)
    (lexc (hour a ?= hour b) (lexc (minute a ?= minute b) (second a ?= second b))))).

Definition dt_compare (a b : datetime) : comparison :=
  lexc (secs_compare a b) (microsecond a ?= microsecond b).

(** Fields that [isoformat] prints without widening. *)
Definition valid_dt (a : datetime) : Prop :=
  0 <= year a < 10000 /\ 0 <= month a < 100 /\ 0 <= day a < 100 /\
  0 <= hour a < 100 /\ 0 <= minute a < 100 /\ 0 <= second a < 100 /\
  0 <= microsecond a < us_per_sec.

Lemma compare_sep c s t : String.compare (String c "" +:+ s) (String c "" +:+ t) = String.compare s t.
Proof. change (String.compare (String c s) (String c t) = String.compare s t). simpl. by rewrite ascii_compare_refl. Qed.

Lemma digits_lexc n x y s t :
  0 <= x < 10 ^ Z.of_nat n -> 0 <= y < 10 ^ Z.of_nat n ->
  String.compare (digits n x +:+ s) (digits n y +:+ t) = lexc (x ?= y) (String.compare s t).
Proof.
  intros Hx Hy. rewrite compare_app by (by rewrite !digits_length).
  rewrite digits_compare by done. by destruct (x ?= y).
Qed.

Lemma isoformat_secs_compare a b s t :
  valid_dt a -> valid_dt b ->
  String.compare (isoformat_secs a +:+ s) (isoformat_secs b +:+ t) =
    lexc (secs_compare a b) (String.compare s t).
Proof.
  intros (?&?&?&?&?&?&?) (?&?&?&?&?&?&?). unfold isoformat_secs, secs_compare.
  rewrite !append_assoc.
  repeat (rewrite digits_lexc by (simpl; lia); rewrite ?compare_sep).
  by destruct (year a ?= year b), (month a ?= month b), (day a ?= day b),
    (hour a ?= hour b), (minute a ?= minute b).
Qed.

(** Order of the printed fractions: an absent fraction sorts after every
    present one, because ["Z"] is greater than ["."]. *)
Definition frac_compare (x y : Z) : comparison :=
  if x =? 0 then if y =? 0 then Eq else Gt
  else if y =? 0 then Lt else x ?= y.

(** The text order of two time stamps, in full. *)
Lemma iso_text_compare a b :
  valid_dt a -> valid_dt b ->
  String.compare (isoformat a +:+ "Z") (isoformat b +:+ "Z") =
    lexc (secs_compare a b) (frac_compare (microsecond a) (microsecond b)).
Proof.
  intros Ha Hb. unfold isoformat. rewrite !append_assoc, isoformat_secs_compare by done.
  f_equal. unfold frac_compare. destruct Ha as (_&_&_&_&_&_&Ha), Hb as (_&_&_&_&_&_&Hb).
  unfold us_per_sec in *.
  destruct (microsecond a =? 0) eqn:E1, (microsecond b =? 0) eqn:E2; try done.
  rewrite !append_assoc, compare_sep, digits_lexc by (simpl; lia).
  rewrite str_compare_refl. by destruct (_ ?= _).
Qed.

Lemma month_step leap m m' d :
  1 <= m -> m < m' <= 12 -> d <= nth (Z.to_nat (m - 1)) (month_lengths leap) 0 ->
  days_before_month leap m + d <= days_before_month leap m'.
Proof.
  intros Hm Hm' Hd.
  assert (m = 1 \/ m = 2 \/ m = 3 \/ m = 4 \/ m = 5 \/ m = 6 \/ m = 7 \/ m = 8 \/ m = 9 \/
          m = 10 \/ m = 11) as Hms by lia.
  assert (m' = 2 \/ m' = 3 \/ m' = 4 \/ m' = 5 \/ m' = 6 \/ m' = 7 \/ m' = 8 \/ m' = 9 \/
          m' = 10 \/ m' = 11 \/ m' = 12) as Hms' by lia.
  destruct leap; destruct_or! Hms; subst m; vm_compute nth in Hd;
    destruct_or! Hms'; subst m'; try lia; eval_calendar; lia.
Qed.

Lemma year_span y m d :
  valid_ymd y m d ->
  1 <= days_before_month (is_leap y) m + d <= (if is_leap y then 366 else 365).
Proof.
  intros [Hm [Hd1 Hd2]].
  assert (0 <= days_before_month (is_leap y) m).
  { destruct (Z.eq_dec m 1) as [->|]; [by destruct (is_leap y)|].
    assert (days_before_month (is_leap y) 1 = 0) as H1 by (by destruct (is_leap y)).
    pose proof (month_step (is_leap y) 1 m 0) as Hs. rewrite H1 in Hs.
    assert (0 <= nth (Z.to_nat (1 - 1)) (month_lengths (is_leap y)) 0) by (by destruct (is_leap y)).
    lia. }
  split; [lia|]. destruct (Z.eq_dec m 12) as [->|].
  - destruct (is_leap y); vm_compute nth in Hd2; eval_calendar; lia.
  - pose proof (month_step (is_leap y) m 12 d ltac:(lia) ltac:(lia) Hd2) as H12.
    assert (days_before_month (is_leap y) 12 = if is_leap y then 335 else 334) as E12
      by (by destruct (is_leap y)).
    rewrite E12 in H12. destruct (is_leap y); lia.
Qed.

(** Ordinals order dates lexicographically. *)
Lemma ymd_lt y1 m1 d1 y2 m2 d2 :
  valid_ymd y1 m1 d1 -> valid_ymd y2 m2 d2 ->
  lexc (y1 ?= y2) (lexc (m1 ?= m2) (d1 ?= d2)) = Lt ->
  ymd2ord y1 m1 d1 < ymd2ord y2 m2 d2.
Proof.
  intros V1 V2. pose proof (year_span _ _ _ V1). pose proof (year_span _ _ _ V2).
  unfold ymd2ord. destruct (Z.compare_spec y1 y2) as [->|Hy|Hy]; simpl; [|intros _|done].
  - destruct V1 as [? ?], V2 as [? ?].
    destruct (Z.compare_spec m1 m2) as [->|Hm|Hm]; simpl; [|intros _|done].
    + rewrite Z.compare_lt_iff. lia.
    + pose proof (month_step (is_leap y2) m1 m2 d1). lia.
  - pose proof (days_before_year_succ y1).
    assert (days_before_year (y1 + 1) <= days_before_year y2) by (unfold days_before_year; lia).
    lia.
Qed.

Lemma lexc_opp c d : CompOpp (lexc c d) = lexc (CompOpp c) (CompOpp d).
Proof. by destruct c. Qed.

Lemma ymd_compare y1 m1 d1 y2 m2 d2 :
  valid_ymd y1 m1 d1 -> valid_ymd y2 m2 d2 ->
  lexc (y1 ?= y2) (lexc (m1 ?= m2) (d1 ?= d2)) = (ymd2ord y1 m1 d1 ?= ymd2ord y2 m2 d2).
Proof.
  intros V1 V2.
  destruct (lexc (y1 ?= y2) (lexc (m1 ?= m2) (d1 ?= d2))) eqn:E; symmetry.
  - destruct (Z.compare_spec y1 y2), (Z.compare_spec m1 m2), (Z.compare_spec d1 d2); try done.
    subst. apply Z.compare_refl.
  - apply Z.compare_lt_iff. by apply ymd_lt.
  - apply Z.compare_gt_iff. apply ymd_lt; [done..|].
    apply (f_equal CompOpp) in E. rewrite !lexc_opp, <- !Z.compare_antisym in E. done.
Qed.

(** Seconds since the epoch. *)
Definition secs (t : Z) : Z := t / us_per_sec.

Lemma utc_secs_compare t1 t2 :
  secs_compare (utcfromtimestamp t1) (utcfromtimestamp t2) = (secs t1 ?= secs t2).
Proof.
  unfold secs_compare, utcfromtimestamp, secs.
  destruct (ord2ymd (t1 / us_per_day + 719163)) as [[y1 m1] d1] eqn:E1.
  destruct (ord2ymd (t2 / us_per_day + 719163)) as [[y2 m2] d2] eqn:E2.
  apply ord2ymd_spec in E1 as [O1 V1]. apply ord2ymd_spec in E2 as [O2 V2].
  cbn [year month day hour minute second].
  pose proof (ymd_compare _ _ _ _ _ _ V1 V2) as Hc. rewrite O1, O2 in Hc.
  set (rest := lexc (_ / 3600 ?= _) _).
  transitivity (lexc (lexc (y1 ?= y2) (lexc (m1 ?= m2) (d1 ?= d2))) rest).
  { by destruct (y1 ?= y2), (m1 ?= m2), (d1 ?= d2). }
  rewrite Hc. unfold rest, us_per_day, us_per_sec in *. clear.
  set (r1 := t1 mod 86400000000). set (r2 := t2 mod 86400000000).
  assert (t1 / 1000000 = 86400 * (t1 / 86400000000) + r1 / 1000000 /\ 0 <= r1 / 1000000 < 86400) by (unfold r1; lia).
  assert (t2 / 1000000 = 86400 * (t2 / 86400000000) + r2 / 1000000 /\ 0 <= r2 / 1000000 < 86400) by (unfold r2; lia).
  set (s1 := r1 / 1000000) in *. set (s2 := r2 / 1000000) in *. clearbody s1 s2.
  set (D1 := t1 / 86400000000) in *. set (D2 := t2 / 86400000000) in *. clearbody D1 D2.
  set (S1 := t1 / 1000000) in *. set (S2 := t2 / 1000000) in *. clearbody S1 S2. clear r1 r2.
  destruct (Z.compare_spec (D1 + 719163) (D2 + 719163)); simpl;
    [|symmetry; apply Z.compare_lt_iff; lia|symmetry; apply Z.compare_gt_iff; lia].
  destruct (Z.compare_spec (s1 / 3600) (s2 / 3600)); simpl;
    [|symmetry; apply Z.compare_lt_iff; lia|symmetry; apply Z.compare_gt_iff; lia].
  destruct (Z.compare_spec (s1 / 60 mod 60) (s2 / 60 mod 60)); simpl;
    [|symmetry; apply Z.compare_lt_iff; lia|symmetry; apply Z.compare_gt_iff; lia].
  destruct (Z.compare_spec (s1 mod 60) (s2 mod 60)); symmetry;
    [apply Z.compare_eq_iff; lia|apply Z.compare_lt_iff; lia|apply Z.compare_gt_iff; lia].
Qed.

(** Instants whose year has four digits, from the epoch on. *)
Definition in_range (t : Z) : Prop := 0 <= t < 253402300800 * us_per_sec.

Lemma utc_valid t : in_range t -> valid_dt (utcfromtimestamp t).
Proof.
  intros [H0 H1]. unfold utcfromtimestamp, valid_dt, us_per_day, us_per_sec in *.
  destruct (ord2ymd (t / 86400000000 + 719163)) as [[y m] d] eqn:E.
  apply ord2ymd_spec in E as [O V]. cbn [year month day hour minute second microsecond].
  pose proof (year_span _ _ _ V) as Hspan. destruct V as [Hm Hd].
  assert (nth (Z.to_nat (m - 1)) (month_lengths (is_leap y)) 0 <= 31) as Hlen.
  { assert (m = 1 \/ m = 2 \/ m = 3 \/ m = 4 \/ m = 5 \/ m = 6 \/ m = 7 \/ m = 8 \/ m = 9 \/
          m = 10 \/ m = 11 \/ m = 12) as Hms by lia.
    destruct (is_leap y); destruct_or! Hms; subst m; vm_compute; done. }
  assert (0 <= y < 10000).
  { unfold ymd2ord, days_before_year in O. destruct (is_leap y); lia. }
  repeat split; try lia.
Qed.

Lemma utc_microsecond t : microsecond (utcfromtimestamp t) = t mod us_per_sec.
Proof.
  unfold utcfromtimestamp. destruct (ord2ymd _) as [[? ?] ?]. simpl.
  unfold us_per_day, us_per_sec. lia.
Qed.

(** The text order of two time stamps as a function of the instants. *)
Lemma iso_compare t1 t2 :
  in_range t1 -> in_range t2 ->
  String.compare (_utc_iso_from_unix t1) (_utc_iso_from_unix t2) =
    lexc (secs t1 ?= secs t2) (frac_compare (t1 mod us_per_sec) (t2 mod us_per_sec)).
Proof.
  intros H1 H2. unfold _utc_iso_from_unix.
  rewrite iso_text_compare, utc_secs_compare, !utc_microsecond by (by apply utc_valid). done.
Qed.

(** Time stamps that differ by at least one second are ordered as texts. *)
Lemma iso_lt_1s t1 t2 :
  in_range t1 -> in_range t2 -> t1 + us_per_sec <= t2 ->
  str_ltb (_utc_iso_from_unix t1) (_utc_iso_from_unix t2) = true.
Proof.
  intros H1 H2 H. unfold str_ltb, String.ltb. rewrite iso_compare by done.
  assert (secs t1 < secs t2) as Hs by (unfold secs, us_per_sec in *; lia).
  apply Z.compare_lt_iff in Hs. by rewrite Hs.
Qed.

Lemma iso_leb_1s t1 t2 :
  in_range t1 -> in_range t2 -> t1 + us_per_sec <= t2 ->
  str_leb (_utc_iso_from_unix t1) (_utc_iso_from_unix t2) = true /\
  str_leb (_utc_iso_from_unix t2) (_utc_iso_from_unix t1) = false.
Proof.
  intros H1 H2 H. pose proof (iso_lt_1s _ _ H1 H2 H) as Hlt.
  rewrite str_ltb_leb in Hlt. blift. split; [|done].
  destruct (str_leb_total (_utc_iso_from_unix t1) (_utc_iso_from_unix t2)); congruence.
Qed.

(** The text order decides the order of the instants up to one second. *)
Lemma iso_leb_inv t1 t2 :
  in_range t1 -> in_range t2 ->
  str_leb (_utc_iso_from_unix t1) (_utc_iso_from_unix t2) = true -> t1 < t2 + us_per_sec.
Proof.
  intros H1 H2 H. apply Z.nle_gt. intros Hle.
  pose proof (iso_leb_1s _ _ H2 H1 Hle) as [_ ?]. congruence.
Qed.

Lemma iso_text_order_exact_aux t1 t2 :
  in_range t1 -> in_range t2 ->
  (t1 mod us_per_sec = 0 <-> t2 mod us_per_sec = 0) \/ secs t1 <> secs t2 ->
  String.compare (_utc_iso_from_unix t1) (_utc_iso_from_unix t2) = (t1 ?= t2).
Proof.
  intros H1 H2 H. rewrite iso_compare by done. unfold frac_compare, secs, us_per_sec in *.
  destruct (Z.compare_spec (t1 / 1000000) (t2 / 1000000)) as [Hs|Hs|Hs]; simpl.
  - destruct H as [H|H]; [|done].
    destruct (t1 mod 1000000 =? 0) eqn:E1, (t2 mod 1000000 =? 0) eqn:E2; blift.
    + symmetry. apply Z.compare_eq_iff. lia.
    + tauto.
    + tauto.
    + destruct (Z.compare_spec (t1 mod 1000000) (t2 mod 1000000)); symmetry;
        [apply Z.compare_eq_iff|apply Z.compare_lt_iff|apply Z.compare_gt_iff]; lia.
  - symmetry. apply Z.compare_lt_iff. lia.
  - symmetry. apply Z.compare_gt_iff. lia.
Qed.

(** The orchestrator compares instants by their ISO texts.  The text order
    is the order in time for all instants of different seconds, and within a
    second when both instants or neither have a fraction. *)
Theorem iso_text_order_exact t1 t2 :
  in_range t1 -> in_range t2 ->
  (t1 mod us_per_sec = 0 <-> t2 mod us_per_sec = 0) \/ secs t1 <> secs t2 ->
  str_leb (_utc_iso_from_unix t1) (_utc_iso_from_unix t2) = (t1 <=? t2).
Proof.
  intros H1 H2 H. rewrite str_leb_compare, iso_text_order_exact_aux by done.
  unfold Z.leb. by destruct (t1 ?= t2).
Qed.

Lemma iso_text_order_exact_witness :
  str_leb (_utc_iso_from_unix 1700000000999999) (_utc_iso_from_unix 1700000001000000) = true.
Proof.
  rewrite (iso_text_order_exact 1700000000999999 1700000001000000).
  - reflexivity.
  - unfold in_range, us_per_sec. lia.
  - unfold in_range, us_per_sec. lia.
  - right. vm_compute. discriminate.
Defined.

(** A stamp taken exactly on a second has no fraction and sorts after every
    later stamp of that second: "T22:13:20Z" against "T22:13:20.000001Z". *)
Theorem whole_second_sorts_late t d :
  in_range t -> t mod us_per_sec = 0 -> 0 < d < us_per_sec ->
  str_ltb (_utc_iso_from_unix (t + d)) (_utc_iso_from_unix t) = true.
Proof.
  intros Ht H0 Hd. assert (in_range (t + d)) as Htd by (unfold in_range, us_per_sec in *; lia).
  unfold str_ltb, String.ltb. rewrite iso_compare by done.
  assert (secs (t + d) = secs t) as -> by (unfold secs, us_per_sec in *; lia).
  rewrite Z.compare_refl. cbn [lexc]. unfold frac_compare.
  assert ((t + d) mod us_per_sec = d) as -> by (unfold us_per_sec in *; lia).
  rewrite H0. destruct (Z.eqb_spec d 0); [lia|]. done.
Qed.

Lemma whole_second_sorts_late_witness :
  str_ltb (_utc_iso_from_unix (1700000000000000 + 1)) (_utc_iso_from_unix 1700000000000000) = true.
Proof.
  apply (whole_second_sorts_late 1700000000000000 1).
  - unfold in_range, us_per_sec. lia.
  - reflexivity.
  - unfold us_per_sec. lia.
Defined.
