(* ===== verification/Json.v ===== *)
(** * JSON values as Python sees them

    Request payloads, outbox payloads and task metadata are dictionaries of
    arbitrary JSON values.  A dictionary is an association list in insertion
    order with distinct keys; a float keeps its [repr]. *)

From S2P Require Import Prelude PyStr.
From Stdlib Require Import Ascii.
Open Scope Z_scope.

Inductive json : Type :=
| JNull
| JBool (b : bool)
| JInt (z : Z)
| JFloat (repr : string)
| JStr (s : string)
| JList (l : list json)
| JObj (d : list (string * json)).

Abbreviation dict := (list (string * json)).

(** ** Dictionaries *)

(** [d.get(k)] with the presence of the key kept apart. *)
Fixpoint dlookup (k : string) (d : dict) : option json :=
  match d with
  | [] => None
  | (k', v) :: d' => if k =s k' then Some v else dlookup k d'
  end.

(** [d.get(k)] *)
Definition dget (d : dict) (k : string) : json :=
  match dlookup k d with Some v => v | None => JNull end.

(** [d[k] = v]: an existing key keeps its position. *)
Fixpoint dset (k : string) (v : json) (d : dict) : dict :=
  match d with
  | [] => [(k, v)]
  | (k', v') :: d' => if k =s k' then (k', v) :: d' else (k', v') :: dset k v d'
  end.

(** ** Truth value and [or] *)

Definition jtruthy (j : json) : bool :=
  match j with
  | JNull => false
  | JBool b => b
  | JInt z => negb (z =? 0)
  | JFloat r => negb (mem_str r ["0.0"; "-0.0"])
  | JStr s => truthy s
  | JList l => match l with [] => false | _ => true end
  | JObj d => match d with [] => false | _ => true end
  end.

(** [a or b] *)
Definition jor (a b : json) : json := if jtruthy a then a else b.

(** ** [str(x)] *)

Definition hex_digit (n : N) : ascii :=
  Ascii.ascii_of_N (if (n <? 10)%N then 48 + n else 87 + n)%N.

(** One character of [repr(s)] inside quotes [q]. *)
Definition repr_char (q c : ascii) : string :=
  if Ascii.eqb c q || Ascii.eqb c "\" then String "\" (String c "")
  else
    let n := ascii_code c in
    if (n =? 10)%N then "\n" else if (n =? 13)%N then "\r" else if (n =? 9)%N then "\t"
    else if ((n <? 32) || (n =? 127))%N
    then "\x" +:+ String (hex_digit (n / 16)) (String (hex_digit (n mod 16)) "")
    else String c "".

Fixpoint repr_body (q : ascii) (s : string) : string :=
  match s with
  | EmptyString => EmptyString
  | String c s' => repr_char q c +:+ repr_body q s'
  end.

(** [repr(s)]: single quotes unless the text has one and no double quote. *)
Definition repr_str (s : string) : string :=
  let dq := Ascii.ascii_of_N 34 in
  let q := if has_char "'" s && negb (has_char dq s) then dq else "'"%char in
  String q (repr_body q s +:+ String q "").

Fixpoint jrepr (j : json) : string :=
  match j with
  | JNull => "None"
  | JBool b => if b then "True" else "False"
  | JInt z => str_of_Z z
  | JFloat r => r
  | JStr s => repr_str s
  | JList l => "[" +:+ join ", " (map jrepr l) +:+ "]"
  | JObj d => "{" +:+ join ", " (map (fun kv => repr_str (fst kv) +:+ ": " +:+ jrepr (snd kv)) d) +:+ "}"
  end.

Definition jstr (j : json) : string :=
  match j with JStr s => s | _ => jrepr j end.

(** [str(x or "")] *)
Definition jstr_or_empty (j : json) : string := if jtruthy j then jstr j else "".

(** [x if isinstance(x, dict) else {}] *)
Definition as_dict (j : json) : dict := match j with JObj d => d | _ => [] end.

(** ** Equality of values *)

Fixpoint json_eqb (a b : json) : bool :=
  match a, b with
  | JNull, JNull => true
  | JBool x, JBool y => Bool.eqb x y
  | JInt x, JInt y => x =? y
  | JFloat x, JFloat y => x =s y
  | JStr x, JStr y => x =s y
  | JList l, JList m =>
      (fix go (l m : list json) : bool :=
         match l, m with
         | [], [] => true
         | x :: l', y :: m' => json_eqb x y && go l' m'
         | _, _ => false
         end) l m
  | JObj d, JObj e =>
      (fix go (d e : list (string * json)) : bool :=
         match d, e with
         | [], [] => true
         | (k, x) :: d', (k', y) :: e' => (k =s k') && json_eqb x y && go d' e'
         | _, _ => false
         end) d e
  | _, _ => false
  end.

Definition is_obj (j : json) : bool := match j with JObj _ => true | _ => false end.

Example jrepr_ex :
  jstr (JObj [("a", JList [JInt 1; JStr "x'y"; JBool true]); ("b", JNull)])
  = "{'a': [1, " +:+ String (Ascii.ascii_of_N 34) ("x'y" +:+ String (Ascii.ascii_of_N 34) ", True], 'b': None}").
Proof. vm_compute. reflexivity. Qed.

(** ** Laws of the dictionary operations *)

Lemma dlookup_dset_eq k v d : dlookup k (dset k v d) = Some v.
Proof.
  induction d as [|[k' v'] d IH]; simpl; [by rewrite String.eqb_refl|].
  destruct (k =s k') eqn:E; simpl; rewrite E; [done|exact IH].
Qed.

Lemma dlookup_dset_ne k k' v d : k <> k' -> dlookup k' (dset k v d) = dlookup k' d.
Proof.
  intros Hne. induction d as [|[k2 v2] d IH]; simpl.
  - by rewrite (proj2 (String.eqb_neq k' k)) by congruence.
  - destruct (k =s k2) eqn:E; simpl; [|by rewrite IH].
    blift; subst. by rewrite (proj2 (String.eqb_neq k' k2)) by congruence.
Qed.

Lemma dget_dset_eq k v d : dget (dset k v d) k = v.
Proof. unfold dget. by rewrite dlookup_dset_eq. Qed.

Lemma dget_dset_ne k k' v d : k <> k' -> dget (dset k v d) k' = dget d k'.
Proof. intros. unfold dget. by rewrite dlookup_dset_ne. Qed.

Lemma dset_keys k v d :
  List.NoDup (map fst d) -> List.NoDup (map fst (dset k v d)).
Proof.
  intros Hnd. induction d as [|[k' v'] d IH]; simpl in *;
    [constructor; [simpl; tauto|constructor]|].
  apply List.NoDup_cons_iff in Hnd as [Hin Hnd].
  destruct (k =s k') eqn:E; simpl; constructor; auto.
  intros Hin'. apply Hin. revert Hin'. clear -E. blift.
  induction d as [|[k2 v2] d IH]; simpl; [naive_solver|].
  destruct (k =s k2) eqn:E2; simpl; naive_solver.
Qed.

Lemma jstr_or_empty_str s : jstr_or_empty (JStr s) = s.
Proof. unfold jstr_or_empty; simpl. unfold truthy. destruct (String.eqb_spec s ""); subst; done. Qed.

(** ** Equality is decided *)

(** Induction over values, lists and dictionaries at once. *)
Lemma json_ind' (P : json -> Prop) :
  P JNull -> (forall b, P (JBool b)) -> (forall z, P (JInt z)) -> (forall r, P (JFloat r)) ->
  (forall s, P (JStr s)) -> (forall l, List.Forall P l -> P (JList l)) ->
  (forall d, List.Forall (fun kv => P (snd kv)) d -> P (JObj d)) -> forall j, P j.
Proof.
  intros H1 H2 H3 H4 H5 H6 H7. fix IH 1. intros [|b|z|r|s|l|d];
    [exact H1|apply H2|apply H3|apply H4|apply H5| |].
  - apply H6. induction l; constructor; auto.
  - apply H7. induction d as [|[k v] d IHd]; constructor; [apply IH|exact IHd].
Qed.

Lemma json_eqb_eq a b : json_eqb a b = true <-> a = b.
Proof.
  revert b. induction a using json_ind'; intros []; simpl; try (split; congruence).
  - rewrite Bool.eqb_true_iff. split; congruence.
  - rewrite Z.eqb_eq. split; congruence.
  - rewrite String.eqb_eq. split; congruence.
  - rewrite String.eqb_eq. split; congruence.
  - transitivity (l = l0); [|split; congruence].
    revert l0. induction H as [|x l Hx Hl IH]; intros [|y m]; try (split; congruence).
    rewrite andb_true_iff, Hx, IH. split; [intros [-> ->]|intros [= -> ->]]; auto.
  - transitivity (d = d0); [|split; congruence].
    revert d0. induction H as [|[k x] d Hx Hd IH]; intros [|[k' y] m]; try (split; congruence).
    rewrite !andb_true_iff, String.eqb_eq, IH. cbn in Hx. rewrite Hx.
    split; [intros [[-> ->] ->]|intros [= -> -> ->]]; auto.
Qed.

#[export] Instance json_eq_dec : EqDecision json.
Proof.
  intros a b. destruct (json_eqb a b) eqn:E; [left; by apply json_eqb_eq|right].
  intros ->. assert (json_eqb b b = true) by (by apply json_eqb_eq). congruence.
Defined.
