(* ===== verification/JsonText.v ===== *)
(** * JSON text

    [json.dumps] and [json.loads] with their default arguments.  The outbox and
    task tables store values as the text of [json.dumps] and read them back
    with [json.loads]; the round trip lets the tables of this development hold
    the values themselves.  A character is its code point, so text is exact
    for ASCII; code points above 255 are outside the alphabet. *)

From S2P Require Import Prelude PyStr Json.
From Stdlib Require Import Ascii.
Open Scope Z_scope.

Definition dquote : ascii := Ascii.ascii_of_N 34.

(** ** Printing *)

(** [ESCAPE_ASCII]: printable ASCII is copied, the rest is escaped. *)
Definition escape_char (c : ascii) : string :=
  let n := ascii_code c in
  if Ascii.eqb c dquote then String "\" (String dquote "")
  else if Ascii.eqb c "\" then "\\"
  else if (n =? 10)%N then "\n" else if (n =? 13)%N then "\r" else if (n =? 9)%N then "\t"
  else if (n =? 12)%N then "\f" else if (n =? 8)%N then "\b"
  else if ((n <? 32) || (126 <? n))%N
  then "\u00" +:+ String (hex_digit (n / 16)) (String (hex_digit (n mod 16)) "")
  else String c "".

Fixpoint escape_body (s : string) : string :=
  match s with
  | EmptyString => EmptyString
  | String c s' => escape_char c +:+ escape_body s'
  end.

Definition quote_json (s : string) : string :=
  String dquote (escape_body s +:+ String dquote "").

Fixpoint dumps (j : json) : string :=
  match j with
  | JNull => "null"
  | JBool b => if b then "true" else "false"
  | JInt z => str_of_Z z
  | JFloat r => r
  | JStr s => quote_json s
  | JList l => "[" +:+ join ", " (map dumps l) +:+ "]"
  | JObj d => "{" +:+ join ", " (map (fun kv => quote_json (fst kv) +:+ ": " +:+ dumps (snd kv)) d) +:+ "}"
  end.

(** ** Scanning *)

Definition json_ws (c : ascii) : bool :=
  let n := ascii_code c in ((n =? 32) || (n =? 9) || (n =? 10) || (n =? 13))%N.

Definition skip_ws : string -> string := lstrip_by json_ws.

(** [scanstring] in strict mode, after the opening quote. *)
Fixpoint scan_string (s : string) : option (string * string) :=
  match s with
  | EmptyString => None
  | String c s' =>
      if Ascii.eqb c dquote then Some ("", s')
      else if (ascii_code c <? 32)%N then None
      else if negb (Ascii.eqb c "\") then
        match scan_string s' with Some (t, r) => Some (String c t, r) | None => None end
      else
        let esc d rest := match scan_string rest with Some (t, r) => Some (String d t, r) | None => None end in
        match s' with
        | String "u" (String a (String b (String x (String y rest)))) =>
            match hex_val a, hex_val b, hex_val x, hex_val y with
            | Some h1, Some h2, Some h3, Some h4 =>
                let n := (4096 * h1 + 256 * h2 + 16 * h3 + h4)%N in
                if (n <? 256)%N then esc (Ascii.ascii_of_N n) rest else None
            | _, _, _, _ => None
            end
        | String e rest =>
            if Ascii.eqb e dquote || Ascii.eqb e "\" || Ascii.eqb e "/" then esc e rest
            else if Ascii.eqb e "n" then esc (Ascii.ascii_of_N 10) rest
            else if Ascii.eqb e "r" then esc (Ascii.ascii_of_N 13) rest
            else if Ascii.eqb e "t" then esc (Ascii.ascii_of_N 9) rest
            else if Ascii.eqb e "f" then esc (Ascii.ascii_of_N 12) rest
            else if Ascii.eqb e "b" then esc (Ascii.ascii_of_N 8) rest
            else None
        | EmptyString => None
        end
  end.

(** The rest of the text after the character [c], if the text starts with it. *)
Definition eat (c : ascii) (s : string) : option string :=
  match s with
  | String d s' => if Ascii.eqb d c then Some s' else None
  | EmptyString => None
  end.

(** Longest prefix of digits and the rest. *)
Fixpoint span_digits (s : string) : string * string :=
  match s with
  | String c s' => if is_digit c then let '(a, b) := span_digits s' in (String c a, b) else ("", s)
  | EmptyString => ("", "")
  end.

(** The number pattern of the scanner: an optional sign, [0] or digits without
    leading zero, an optional fraction and an optional exponent. *)
Definition scan_int_part (s : string) : option (string * string) :=
  match eat "0" s with
  | Some s' => Some ("0", s')
  | None => let '(a, r) := span_digits s in if truthy a then Some (a, r) else None
  end.

Definition scan_frac (s : string) : string * string :=
  match eat "." s with
  | Some s' => let '(a, r) := span_digits s' in if truthy a then (String "." a, r) else ("", s)
  | None => ("", s)
  end.

(** An optional sign. *)
Definition scan_sign (s : string) : string * string :=
  match eat "-" s with
  | Some t => ("-", t)
  | None => match eat "+" s with Some t => ("+", t) | None => ("", s) end
  end.

Definition scan_exp (s : string) : string * string :=
  match s with
  | String c s' =>
      if Ascii.eqb c "e" || Ascii.eqb c "E" then
        let '(sg, s'') := scan_sign s' in
        let '(a, r) := span_digits s'' in
        if truthy a then (String c (sg +:+ a), r) else ("", s)
      else ("", s)
  | EmptyString => ("", s)
  end.

Definition scan_number (s : string) : option (json * string) :=
  let '(sg, s1) := match eat "-" s with Some t => ("-", t) | None => ("", s) end in
  match scan_int_part s1 with
  | None => None
  | Some (a, r) =>
      let '(f, r1) := scan_frac r in
      let '(e, r2) := scan_exp r1 in
      if truthy f || truthy e then Some (JFloat (sg +:+ a +:+ f +:+ e), r2)
      else match int_of_digits 0 a with
           | Some z => Some (JInt (if truthy sg then - z else z), r2)
           | None => None
           end
  end.

Definition json_constants : list (string * json) :=
  [("null", JNull); ("true", JBool true); ("false", JBool false);
   ("NaN", JFloat "NaN"); ("Infinity", JFloat "Infinity"); ("-Infinity", JFloat "-Infinity")].

Fixpoint drop (n : nat) (s : string) : string :=
  match n, s with
  | S n', String _ s' => drop n' s'
  | _, _ => s
  end.

Definition scan_constant (s : string) : option (json * string) :=
  match List.find (fun kv => startswith s (fst kv)) json_constants with
  | Some (k, v) => Some (v, drop (String.length k) s)
  | None => None
  end.

(** [scan_once] with the array and object parsers; [fuel] bounds the nesting
    and the number of items, and the length of the text is enough. *)
Fixpoint scan_once (fuel : nat) (s : string) : option (json * string) :=
  match fuel with
  | O => None
  | S f =>
      match eat dquote s with
      | Some s' => match scan_string s' with Some (t, r) => Some (JStr t, r) | None => None end
      | None =>
      match eat "{" s with
      | Some s' =>
          match eat "}" (skip_ws s') with
          | Some r => Some (JObj [], r)
          | None => match scan_members f (skip_ws s') with
                    | Some (d, r) => Some (JObj (fold_left (fun acc kv => dset (fst kv) (snd kv) acc) d []), r)
                    | None => None
                    end
          end
      | None =>
      match eat "[" s with
      | Some s' =>
          match eat "]" (skip_ws s') with
          | Some r => Some (JList [], r)
          | None => match scan_items f (skip_ws s') with Some (l, r) => Some (JList l, r) | None => None end
          end
      | None =>
      match scan_constant s with
      | Some x => Some x
      | None => scan_number s
      end end end end
  end
with scan_items (fuel : nat) (s : string) : option (list json * string) :=
  match fuel with
  | O => None
  | S f =>
      match scan_once f s with
      | None => None
      | Some (j, r) =>
          match eat "," (skip_ws r) with
          | Some r1 =>
              match scan_items f (skip_ws r1) with Some (l, r2) => Some (j :: l, r2) | None => None end
          | None => match eat "]" (skip_ws r) with Some r1 => Some ([j], r1) | None => None end
          end
      end
  end
with scan_members (fuel : nat) (s : string) : option (dict * string) :=
  match fuel with
  | O => None
  | S f =>
      match eat dquote s with
      | None => None
      | Some s0 =>
          match scan_string s0 with
          | None => None
          | Some (k, r) =>
              match eat ":" (skip_ws r) with
              | None => None
              | Some r1 =>
                  match scan_once f (skip_ws r1) with
                  | None => None
                  | Some (v, r2) =>
                      match eat "," (skip_ws r2) with
                      | Some r3 =>
                          match scan_members f (skip_ws r3) with
                          | Some (d, r4) => Some ((k, v) :: d, r4)
                          | None => None
                          end
                      | None => match eat "}" (skip_ws r2) with Some r3 => Some ([(k, v)], r3) | None => None end
                      end
                  end
              end
          end
      end
  end.

(** [json.loads(s)]; [None] is a [JSONDecodeError]. *)
Definition loads (s : string) : option json :=
  match scan_once (S (String.length s)) (skip_ws s) with
  | Some (j, r) => if truthy (skip_ws r) then None else Some j
  | None => None
  end.

Example loads_ex :
  loads "{ 'a' : [1, -2.5e3, true, {} ], 'b':null }" = None /\
  option_map dumps (loads (dumps (JObj [("a", JList [JInt (-10); JFloat "2.5"; JBool true; JObj []]); ("b", JNull)])))
  = Some (dumps (JObj [("a", JList [JInt (-10); JFloat "2.5"; JBool true; JObj []]); ("b", JNull)])).
Proof. vm_compute. done. Qed.

(** ** Strings *)

Lemma drop_length n s : String.length (drop n s) = (String.length s - n)%nat.
Proof. revert s. induction n as [|n IH]; intros [|c s]; cbn; [done|done|done|apply IH]. Qed.

Lemma scan_escape_char c rest :
  scan_string (escape_char c +:+ rest) =
    match scan_string rest with Some (t, r) => Some (String c t, r) | None => None end.
Proof. by destruct c as [[] [] [] [] [] [] [] []]. Qed.

Lemma scan_escape_body s rest :
  scan_string (escape_body s +:+ String dquote rest) = Some (s, rest).
Proof.
  induction s as [|c s IH]; [done|].
  cbn [escape_body]. by rewrite append_assoc, scan_escape_char, IH.
Qed.

(** ** Numbers *)

Fixpoint all_digits (s : string) : bool :=
  match s with
  | EmptyString => true
  | String c s' => is_digit c && all_digits s'
  end.

(** The text after a value: nothing, or a separator. *)
Definition delim (s : string) : bool :=
  match s with
  | EmptyString => true
  | String c _ => Ascii.eqb c "," || Ascii.eqb c "]" || Ascii.eqb c "}"
  end.

Definition no_digit_head (s : string) : bool :=
  match s with EmptyString => true | String c _ => negb (is_digit c) end.

Lemma span_digits_app a rest :
  all_digits a = true -> no_digit_head rest = true -> span_digits (a +:+ rest) = (a, rest).
Proof.
  intros Ha Hr. induction a as [|c a IH].
  - change ("" +:+ rest) with rest. destruct rest as [|c rest]; [done|]. cbn in *. by destruct (is_digit c).
  - cbn [all_digits] in Ha. blift. rewrite append_cons. cbn [span_digits].
    rewrite H. by rewrite IH.
Qed.

Lemma delim_inv s : delim s = true -> s = "" \/ exists c s', s = String c s' /\ In c [","; "]"; "}"]%char.
Proof.
  destruct s as [|c s]; [by left|]. cbn. rewrite !orb_true_iff, !Ascii.eqb_eq. intros H. right.
  exists c, s. split; [done|]. cbn. destruct H as [[->| ->]| ->]; tauto.
Qed.

Ltac delim_cases H :=
  apply delim_inv in H as [->|(? & ? & -> & H)];
  [|destruct H as [<-|[<-|[<-|[]]]]].

Lemma delim_no_digit s : delim s = true -> no_digit_head s = true.
Proof. intros H. delim_cases H; done. Qed.

Lemma int_of_digits_app acc a b :
  int_of_digits acc (a +:+ b) =
    match int_of_digits acc a with Some z => int_of_digits z b | None => None end.
Proof.
  revert acc. induction a as [|c a IH]; intros acc; [done|].
  rewrite append_cons. cbn [int_of_digits]. by destruct (is_digit c).
Qed.

Lemma digit_char d : 0 <= d < 10 ->
  let c := Ascii.ascii_of_N (Z.to_N (48 + d)) in
  is_digit c = true /\ Z.of_N (ascii_code c) - 48 = d.
Proof.
  intros Hd. assert (d = 0 \/ d = 1 \/ d = 2 \/ d = 3 \/ d = 4 \/ d = 5 \/ d = 6 \/ d = 7 \/ d = 8 \/ d = 9) as H by lia.
  repeat destruct H as [->|H]; try done. by subst.
Qed.

Lemma all_digits_app a b : all_digits (a +:+ b) = all_digits a && all_digits b.
Proof.
  induction a as [|c a IH]; [done|]. rewrite append_cons. cbn [all_digits]. rewrite IH. by rewrite andb_assoc.
Qed.

Lemma digits_all n z : all_digits (digits n z) = true.
Proof.
  revert z. induction n as [|n IH]; intros z; [done|]. cbn [digits].
  rewrite all_digits_app, IH. cbn [all_digits].
  by rewrite (proj1 (digit_char (z mod 10) ltac:(apply Z.mod_pos_bound; lia))).
Qed.

Lemma int_of_digits_digits n z acc :
  0 <= z < 10 ^ Z.of_nat n -> int_of_digits acc (digits n z) = Some (acc * 10 ^ Z.of_nat n + z).
Proof.
  revert z acc. induction n as [|n IH]; intros z acc Hz.
  - cbn in *. f_equal. lia.
  - cbn [digits]. rewrite Nat2Z.inj_succ, Z.pow_succ_r in * by lia.
    rewrite int_of_digits_app, IH by (split; [apply Z.div_pos; lia|apply Z.div_lt_upper_bound; lia]).
    pose proof (digit_char (z mod 10) ltac:(apply Z.mod_pos_bound; lia)) as [Hd Hv]. cbn zeta in *.
    cbn [int_of_digits]. rewrite Hd, Hv. f_equal. pose proof (Z.div_mod z 10). nia.
Qed.

Lemma digits_needed_pos f z : (1 <= digits_needed f z)%nat.
Proof. destruct f; cbn; [lia|]. destruct (z <? 10); lia. Qed.

Lemma digits_needed_spec f z : 0 <= z < 10 ^ Z.of_nat f ->
  let n := digits_needed f z in
  z < 10 ^ Z.of_nat n /\ (n = 1%nat \/ 10 ^ (Z.of_nat n - 1) <= z).
Proof.
  revert z. induction f as [|f IH]; intros z Hz; cbn [digits_needed].
  - cbn in *. split; [lia|by left].
  - destruct (z <? 10) eqn:E; blift; [split; [cbn; lia|by left]|].
    rewrite Nat2Z.inj_succ, Z.pow_succ_r in Hz by lia.
    destruct (IH (z / 10)) as [H1 H2].
    { split; [apply Z.div_pos; lia|apply Z.div_lt_upper_bound; lia]. }
    set (n := digits_needed f (z / 10)) in *. cbn zeta in *.
    pose proof (Z.div_mod z 10 ltac:(lia)). pose proof (Z.mod_pos_bound z 10 ltac:(lia)).
    rewrite Nat2Z.inj_succ, Z.pow_succ_r by lia. split; [lia|right].
    replace (Z.succ (Z.of_nat n) - 1) with (Z.of_nat n) by lia.
    destruct H2 as [->|H2]; [cbn; lia|].
    assert (10 ^ Z.of_nat n = 10 * 10 ^ (Z.of_nat n - 1)).
    { destruct n; [cbn in H1; assert (1 <= z / 10) by (apply Z.div_le_lower_bound; lia); lia|].
      rewrite <- Z.pow_succ_r by lia. f_equal. lia. }
    lia.
Qed.

(** The digits of [str(a)]: a value of its own, no leading zero. *)
Lemma digits_head n z : 0 <= z < 10 ^ Z.of_nat (S n) -> 10 ^ Z.of_nat n <= z ->
  exists c s, digits (S n) z = String c s /\ c <> "0"%char.
Proof.
  revert z. induction n as [|n IH]; intros z Hz Hl.
  - cbn [digits]. cbn in Hz, Hl. rewrite Z.mod_small by lia. eexists _, _. split; [reflexivity|].
    assert (z = 1 \/ z = 2 \/ z = 3 \/ z = 4 \/ z = 5 \/ z = 6 \/ z = 7 \/ z = 8 \/ z = 9) as H by lia.
    repeat destruct H as [->|H]; try done. by subst.
  - destruct (IH (z / 10)) as (c & s & E & Hc).
    + rewrite !Nat2Z.inj_succ in *. rewrite (Z.pow_succ_r 10 (Z.succ (Z.of_nat n))) in Hz by lia.
      split; [apply Z.div_pos; lia|apply Z.div_lt_upper_bound; lia].
    + rewrite Nat2Z.inj_succ, Z.pow_succ_r in Hl by lia. apply Z.div_le_lower_bound; lia.
    + change (digits (S (S n)) z) with
        (digits (S n) (z / 10) +:+ String (Ascii.ascii_of_N (Z.to_N (48 + z mod 10))) "").
      rewrite E, append_cons. by eauto.
Qed.

(** [0], or digits without a leading zero. *)
Definition int_text (a : string) : Prop :=
  a = "0" \/ (all_digits a = true /\ exists c s, a = String c s /\ c <> "0"%char).

Definition abs_text (z : Z) : string := digits (digits_needed (Z.to_nat (Z.log2 (z + 1)) + 1) z) z.

Lemma abs_text_spec z : 0 <= z -> int_text (abs_text z) /\ int_of_digits 0 (abs_text z) = Some z.
Proof.
  intros Hz. unfold abs_text. set (f := (Z.to_nat (Z.log2 (z + 1)) + 1)%nat).
  assert (z < 10 ^ Z.of_nat f) as Hf.
  { unfold f. rewrite Nat2Z.inj_add, Z2Nat.id by apply Z.log2_nonneg.
    pose proof (Z.log2_spec (z + 1) ltac:(lia)) as [_ H].
    eapply Z.lt_le_trans; [|apply (Z.pow_le_mono_l 2 10)]; [|lia].
    rewrite <- Z.add_1_r in H. change (Z.of_nat 1) with 1. lia. }
  destruct (digits_needed_spec f z) as [H1 H2]; [lia|]. cbn zeta in *.
  pose proof (digits_needed_pos f z) as Hpos.
  set (n := digits_needed f z) in *. split.
  - destruct n as [|n]; [lia|].
    destruct (Z_le_gt_dec (10 ^ Z.of_nat n) z) as [Hle|Hgt].
    + right. split; [apply digits_all|]. apply digits_head; lia.
    + destruct H2 as [H2|H2].
      * injection H2 as ->. left. cbn in Hgt. assert (z = 0) as -> by lia. done.
      * rewrite Nat2Z.inj_succ in H2. replace (Z.succ (Z.of_nat n) - 1) with (Z.of_nat n) in H2 by lia. lia.
  - rewrite int_of_digits_digits by lia. f_equal; lia.
Qed.

Lemma scan_int_part_app a rest :
  int_text a -> no_digit_head rest = true -> scan_int_part (a +:+ rest) = Some (a, rest).
Proof.
  intros [->|(Ha & c & s & -> & Hc)] Hr; [done|].
  unfold scan_int_part. rewrite append_cons. cbn [eat].
  apply Ascii.eqb_neq in Hc. rewrite Hc. rewrite <- append_cons, span_digits_app by done. done.
Qed.

(** [str(z)] of an integer and the [repr] of a float, as [dumps] prints them. *)
Inductive float_text : string -> Prop :=
| float_const r : In r ["NaN"; "Infinity"; "-Infinity"] -> float_text r
| float_num sg a f e :
    In sg [""; "-"] -> int_text a ->
    (f = "" \/ exists d, f = String "." d /\ all_digits d = true /\ truthy d = true) ->
    (e = "" \/ exists c s d, e = String c (s +:+ d) /\ In c ["e"; "E"]%char /\ In s [""; "-"; "+"] /\
               all_digits d = true /\ truthy d = true) ->
    truthy f || truthy e = true -> float_text (sg +:+ a +:+ f +:+ e).

Lemma all_digits_head d : all_digits d = true -> truthy d = true ->
  exists c s, d = String c s /\ is_digit c = true.
Proof. destruct d as [|c s]; [done|]. cbn. intros H _. blift. eauto. Qed.

Lemma not_digit_neq c x : is_digit c = true -> is_digit x = false -> Ascii.eqb c x = false.
Proof. intros H1 H2. apply Ascii.eqb_neq. intros ->. congruence. Qed.

Lemma scan_frac_app f rest :
  (f = "" \/ exists d, f = String "." d /\ all_digits d = true /\ truthy d = true) ->
  no_digit_head rest = true -> eat "." rest = None -> scan_frac (f +:+ rest) = (f, rest).
Proof.
  intros [->|(d & -> & Hd & Ht)] Hr He; unfold scan_frac.
  - change ("" +:+ rest) with rest. by rewrite He.
  - rewrite append_cons. cbn. rewrite span_digits_app by done. by rewrite Ht.
Qed.

Lemma scan_sign_digits s d rest : In s [""; "-"; "+"] -> all_digits d = true -> truthy d = true ->
  scan_sign ((s +:+ d) +:+ rest) = (s, d +:+ rest).
Proof.
  intros Hs Hd Ht. destruct (all_digits_head d Hd Ht) as (c & t & -> & Hc).
  destruct Hs as [<-|[<-|[<-|[]]]]; unfold scan_sign; rewrite ?append_assoc; [|done..].
  change ("" +:+ ?x) with x. rewrite append_cons. cbn [eat].
  by rewrite !not_digit_neq.
Qed.

Lemma scan_exp_app e rest :
  (e = "" \/ exists c s d, e = String c (s +:+ d) /\ In c ["e"; "E"]%char /\ In s [""; "-"; "+"] /\
             all_digits d = true /\ truthy d = true) ->
  delim rest = true -> scan_exp (e +:+ rest) = (e, rest).
Proof.
  intros [->|(c & s & d & -> & Hc & Hs & Hd & Ht)] Hr.
  - change ("" +:+ rest) with rest. delim_cases Hr; done.
  - rewrite append_cons. cbn [scan_exp].
    replace (Ascii.eqb c "e" || Ascii.eqb c "E") with true by (by destruct Hc as [<-|[<-|[]]]).
    rewrite scan_sign_digits by done. rewrite span_digits_app by (done || by apply delim_no_digit).
    by rewrite Ht.
Qed.

Lemma int_text_head a : int_text a -> exists c s, a = String c s /\ is_digit c = true.
Proof.
  intros [->|(Ha & c & s & -> & _)]; [by exists "0"%char, ""|].
  exists c, s. cbn in Ha. by blift.
Qed.

Lemma scan_number_app sg a f e rest :
  In sg [""; "-"] -> int_text a ->
  (f = "" \/ exists d, f = String "." d /\ all_digits d = true /\ truthy d = true) ->
  (e = "" \/ exists c s d, e = String c (s +:+ d) /\ In c ["e"; "E"]%char /\ In s [""; "-"; "+"] /\
             all_digits d = true /\ truthy d = true) ->
  delim rest = true ->
  scan_number ((sg +:+ a +:+ f +:+ e) +:+ rest) =
    if truthy f || truthy e then Some (JFloat (sg +:+ a +:+ f +:+ e), rest)
    else match int_of_digits 0 a with
         | Some z => Some (JInt (if truthy sg then - z else z), rest)
         | None => None
         end.
Proof.
  intros Hsg Ha Hf He Hr. destruct (int_text_head a Ha) as (c & s & Ea & Hc).
  assert (no_digit_head (e +:+ rest) = true /\ eat "." (e +:+ rest) = None) as [Hn1 Hn2].
  { destruct He as [->|(x & sg' & d & -> & Hx & _)].
    - change ("" +:+ rest) with rest. split; [by apply delim_no_digit|]. delim_cases Hr; done.
    - rewrite append_cons. by destruct Hx as [<-|[<-|[]]]. }
  assert (no_digit_head (f +:+ e +:+ rest) = true) as Hn3.
  { destruct Hf as [->|(d & -> & _)]; [done|by rewrite append_cons]. }
  unfold scan_number. rewrite !append_assoc.
  replace (match eat "-" (sg +:+ a +:+ f +:+ e +:+ rest) with
           | Some t => ("-", t) | None => ("", sg +:+ a +:+ f +:+ e +:+ rest) end)
    with (sg, a +:+ f +:+ e +:+ rest).
  - by rewrite scan_int_part_app, scan_frac_app, scan_exp_app.
  - destruct Hsg as [<-|[<-|[]]]; [|done]. change ("" +:+ ?x) with x. rewrite Ea, append_cons. cbn [eat].
    by rewrite not_digit_neq.
Qed.

(** ** Values *)

(** Values [dumps] can print: floats as their [repr], distinct keys. *)
Fixpoint json_wf (j : json) : Prop :=
  match j with
  | JFloat r => float_text r
  | JList l => fold_right (fun x P => json_wf x /\ P) True l
  | JObj d => List.NoDup (map fst d) /\ fold_right (fun kv P => json_wf (snd kv) /\ P) True d
  | _ => True
  end.

Definition starts_number (s : string) : Prop :=
  exists sg c t, In sg [""; "-"] /\ is_digit c = true /\ s = sg +:+ String c t.

Lemma starts_number_scan s fuel : starts_number s -> scan_once (S fuel) s = scan_number s.
Proof.
  intros (sg & c & t & Hsg & Hc & ->).
  assert (eat dquote (sg +:+ String c t) = None /\ eat "{" (sg +:+ String c t) = None /\
          eat "[" (sg +:+ String c t) = None /\ scan_constant (sg +:+ String c t) = None) as (H1 & H2 & H3 & H4).
  { destruct Hsg as [<-|[<-|[]]]; destruct c as [[] [] [] [] [] [] [] []]; try done. }
  cbn [scan_once]. by rewrite H1, H2, H3, H4.
Qed.

Lemma number_starts sg a rest : In sg [""; "-"] -> int_text a -> starts_number ((sg +:+ a) +:+ rest).
Proof.
  intros Hsg (c & s & -> & Hc)%int_text_head. exists sg, c, (s +:+ rest). by rewrite append_assoc, append_cons.
Qed.

Lemma str_of_Z_text z : exists sg, In sg [""; "-"] /\ str_of_Z z = sg +:+ abs_text (Z.abs z) /\
  z = (if truthy sg then - Z.abs z else Z.abs z).
Proof.
  unfold str_of_Z. fold (abs_text (Z.abs z)). destruct (z <? 0) eqn:E; blift.
  - exists "-". cbn. repeat split; [tauto|lia].
  - exists "". cbn. repeat split; [tauto|lia].
Qed.

Lemma scan_int z fuel rest : delim rest = true ->
  scan_once (S fuel) (str_of_Z z +:+ rest) = Some (JInt z, rest).
Proof.
  intros Hr. destruct (str_of_Z_text z) as (sg & Hsg & -> & Hz).
  destruct (abs_text_spec (Z.abs z)) as [Ht Hv]; [lia|].
  rewrite starts_number_scan by (by apply number_starts).
  rewrite <- (append_nil_r (abs_text (Z.abs z))) at 1. rewrite <- (append_nil_r "") at 1.
  rewrite scan_number_app by auto. cbn [truthy]. rewrite Hv. by rewrite <- Hz.
Qed.

Lemma scan_float r fuel rest : float_text r -> delim rest = true ->
  scan_once (S fuel) (r +:+ rest) = Some (JFloat r, rest).
Proof.
  intros [r' Hr'|sg a f e Hsg Ha Hf He Hfe] Hr.
  - destruct Hr' as [<-|[<-|[<-|[]]]]; destruct rest; reflexivity.
  - rewrite starts_number_scan.
    + rewrite scan_number_app by done. by rewrite Hfe.
    + rewrite <- (append_assoc sg). rewrite append_assoc. by apply number_starts.
Qed.

(** The first character of a value. *)
Definition value_head (c : ascii) : bool :=
  negb (json_ws c) && negb (Ascii.eqb c "]") && negb (Ascii.eqb c "}").

Lemma digit_value_head c : is_digit c = true -> value_head c = true.
Proof. destruct c as [[] [] [] [] [] [] [] []]; done. Qed.

Lemma dumps_head j : json_wf j -> exists c s, dumps j = String c s /\ value_head c = true.
Proof.
  destruct j as [|[]|z|r|s|l|d]; cbn [dumps json_wf]; intros Hwf; [by repeat eexists..| | | | |];
    [|destruct Hwf as [r' Hr'|sg a f e Hsg Ha _ _ _]| | |].
  - destruct (str_of_Z_text z) as (sg & Hsg & -> & _). destruct (abs_text_spec (Z.abs z)) as [Ht _]; [lia|].
    destruct (int_text_head _ Ht) as (c & s & -> & Hc).
    destruct Hsg as [<-|[<-|[]]]; [exists c, s|by repeat eexists]. split; [done|by apply digit_value_head].
  - destruct Hr' as [<-|[<-|[<-|[]]]]; by repeat eexists.
  - destruct (int_text_head _ Ha) as (c & s & -> & Hc).
    destruct Hsg as [<-|[<-|[]]]; [exists c, (s +:+ f +:+ e)|by repeat eexists].
    split; [done|by apply digit_value_head].
  - unfold quote_json. by repeat eexists.
  - by repeat eexists.
  - by repeat eexists.
Qed.

Lemma skip_ws_value j rest : json_wf j ->
  skip_ws (dumps j +:+ rest) = dumps j +:+ rest /\ eat "]" (dumps j +:+ rest) = None /\
  skip_ws (String " " (dumps j +:+ rest)) = dumps j +:+ rest.
Proof.
  intros (c & s & -> & Hc)%dumps_head. rewrite append_cons. unfold value_head in Hc. blift.
  unfold skip_ws. cbn [lstrip_by eat]. change (json_ws " ") with true. cbn match.
  by repeat match goal with H : _ = false |- _ => rewrite H end.
Qed.

Definition scans (j : json) : Prop :=
  forall fuel rest, (String.length (dumps j) < fuel)%nat -> delim rest = true ->
    scan_once fuel (dumps j +:+ rest) = Some (j, rest).

Lemma scan_items_spec l fuel rest : l <> [] ->
  List.Forall (fun j => json_wf j /\ scans j) l ->
  (String.length (join ", " (map dumps l)) + 1 < fuel)%nat ->
  scan_items fuel (join ", " (map dumps l) +:+ String "]" rest) = Some (l, rest).
Proof.
  intros Hne Hl. revert fuel. induction Hl as [|j l [Hwf Hj] Hl IH]; intros [|fuel] Hf; [done..|lia|].
  cbn [map scan_items] in *. destruct l as [|j' l].
  - cbn [map join] in *. rewrite Hj by (done || lia). done.
  - rewrite join_cons in * by done. rewrite !append_length in Hf.
    change (String.length ", ") with 2%nat in Hf.
    rewrite !append_assoc, Hj by (done || lia).
    change (", " +:+ ?x) with (String "," (String " " x)).
    change (skip_ws (String "," ?x)) with (String "," x). cbn [eat]. rewrite Ascii.eqb_refl.
    replace (skip_ws (String " " (join ", " (map dumps (j' :: l)) +:+ String "]" rest)))
      with (join ", " (map dumps (j' :: l)) +:+ String "]" rest).
    + rewrite IH; [done|done|lia].
    + inversion Hl as [|? ? [Hwf' _] _]; subst. cbn [map]. destruct l as [|j2 l].
      * cbn [map join]. by rewrite (proj2 (proj2 (skip_ws_value j' _ Hwf'))).
      * rewrite join_cons by done. rewrite append_assoc.
        by rewrite (proj2 (proj2 (skip_ws_value j' _ Hwf'))).
Qed.

Definition dumps_member (kv : string * json) : string := quote_json (fst kv) +:+ ": " +:+ dumps (snd kv).

Lemma scan_members_spec (d : dict) fuel rest : d <> [] ->
  List.Forall (fun kv => json_wf (snd kv) /\ scans (snd kv)) d ->
  (String.length (join ", " (map dumps_member d)) + 1 < fuel)%nat ->
  scan_members fuel (join ", " (map dumps_member d) +:+ String "}" rest) = Some (d, rest).
Proof.
  intros Hne Hd. revert fuel. induction Hd as [|[k v] d [Hwf Hv] Hd IH]; intros [|fuel] Hf; [done..|lia|].
  cbn [map scan_members snd] in *.
  assert (forall tl, dumps_member (k, v) +:+ tl =
    String dquote (escape_body k +:+ String dquote (String ":" (String " " (dumps v +:+ tl))))) as Em.
  { intros tl. unfold dumps_member, quote_json. cbn [fst snd].
    by rewrite append_assoc, append_cons, !append_assoc. }
  assert (String.length (dumps v) < String.length (dumps_member (k, v)))%nat as Hlen.
  { unfold dumps_member. rewrite !append_length. cbn. lia. }
  assert (forall tl, (String.length (dumps v) < fuel)%nat -> delim tl = true ->
    match eat dquote (dumps_member (k, v) +:+ tl) with
    | None => None
    | Some s0 => match scan_string s0 with
      | None => None
      | Some (k', r) => match eat ":" (skip_ws r) with
        | None => None
        | Some r1 => match scan_once fuel (skip_ws r1) with
          | None => None | Some (v', r2) => Some (k', v', r2) end end end end = Some (k, v, tl)) as Hone.
  { intros tl Hfu Htl. rewrite Em. cbn [eat]. rewrite Ascii.eqb_refl, scan_escape_body.
    change (skip_ws (String ":" ?x)) with (String ":" x). cbn [eat]. rewrite Ascii.eqb_refl.
    rewrite (proj2 (proj2 (skip_ws_value v tl Hwf))). by rewrite Hv. }
  destruct d as [|[k' v'] d].
  - cbn [map join] in *. specialize (Hone (String "}" rest) ltac:(lia) eq_refl).
    destruct (eat dquote _) as [s0|]; [|done]. destruct (scan_string s0) as [[k1 r]|]; [|done].
    destruct (eat ":" _) as [r1|]; [|done]. destruct (scan_once _ _) as [[v1 r2]|]; [|done].
    injection Hone as -> -> ->. done.
  - rewrite join_cons in * by done. rewrite !append_length in Hf.
    change (String.length ", ") with 2%nat in Hf. rewrite !append_assoc.
    change (", " +:+ ?x) with (String "," (String " " x)).
    assert (skip_ws (String " " (join ", " (map dumps_member ((k', v') :: d)) +:+ String "}" rest)) =
              join ", " (map dumps_member ((k', v') :: d)) +:+ String "}" rest) as Ej.
    { cbn [map]. destruct d; [cbn [map join]|rewrite join_cons by done; rewrite append_assoc]; done. }
    specialize (IH ltac:(done) fuel ltac:(lia)).
    remember (join ", " (map dumps_member ((k', v') :: d))) as J eqn:EJ. clear EJ.
    specialize (Hone (String "," (String " " (J +:+ String "}" rest))) ltac:(lia) eq_refl).
    destruct (eat dquote _) as [s0|]; [|done]. destruct (scan_string s0) as [[k1 r]|]; [|done].
    destruct (eat ":" _) as [r1|]; [|done]. destruct (scan_once _ _) as [[v1 r2]|]; [|done].
    injection Hone as -> -> ->.
    change (skip_ws (String "," ?x)) with (String "," x). cbn [eat].
    by rewrite Ascii.eqb_refl, Ej, IH.
Qed.

Lemma fold_dset_app (d acc : dict) : List.NoDup (map fst (acc ++ d)) ->
  fold_left (fun acc kv => dset (fst kv) (snd kv) acc) d acc = acc ++ d.
Proof.
  revert acc. induction d as [|[k v] d IH]; intros acc Hnd; cbn [fold_left]; [by rewrite app_nil_r|].
  assert (dset k v acc = acc ++ [(k, v)]) as E.
  { rewrite map_app in Hnd. cbn in Hnd. apply List.NoDup_remove_2 in Hnd.
    assert (~ In k (map fst acc)) as Hk by (intros Hi; apply Hnd, in_or_app; by left).
    clear -Hk. induction acc as [|[k' v'] acc IH]; [done|]. cbn in *.
    destruct (String.eqb_spec k k') as [->|]; [tauto|]. rewrite IH by tauto. done. }
  cbn [fst snd]. rewrite E, IH; by rewrite <- app_assoc.
Qed.

Lemma scan_dumps j : json_wf j -> scans j.
Proof.
  induction j as [|b|z|r|s|l IH|d IH] using json_ind'; intros Hwf [|fuel] rest Hf Hr; try lia.
  - destruct rest; reflexivity.
  - destruct b, rest; reflexivity.
  - by apply scan_int.
  - by apply scan_float.
  - cbn [dumps]. unfold quote_json. rewrite append_cons, append_assoc, append_cons.
    cbn [scan_once eat]. by rewrite Ascii.eqb_refl, scan_escape_body.
  - cbn [dumps] in *. change ("[" +:+ ?x) with (String "[" x) in *.
    rewrite append_cons, append_assoc. cbn [String.length] in Hf. rewrite append_length in Hf.
    cbn [json_wf] in Hwf.
    assert (List.Forall (fun j => json_wf j /\ scans j) l) as Hl.
    { clear -IH Hwf. induction IH as [|x l Hx IHl IH']; constructor; cbn in Hwf; [|apply IH']; tauto. }
    destruct l as [|j l]; [by destruct rest|].
    cbn [scan_once]. cbn [eat]. change (Ascii.eqb "[" dquote) with false.
    change (Ascii.eqb "[" "{") with false. change (Ascii.eqb "[" "[") with true. cbn match.
    assert (skip_ws (join ", " (map dumps (j :: l)) +:+ String "]" rest) =
              join ", " (map dumps (j :: l)) +:+ String "]" rest /\
            eat "]" (join ", " (map dumps (j :: l)) +:+ String "]" rest) = None) as [E1 E2].
    { inversion Hl as [|? ? [Hj _] _]; subst. cbn [map]. destruct l as [|j2 l]; [cbn [map join]|].
      - destruct (skip_ws_value j (String "]" rest) Hj) as (? & ? & _); done.
      - rewrite join_cons by done. rewrite append_assoc.
        edestruct (skip_ws_value j) as (? & ? & _); [exact Hj|]. split; eassumption. }
    change ("]" +:+ rest) with (String "]" rest). rewrite E1, E2.
    rewrite scan_items_spec; [done|done|done|change (String.length "]") with 1%nat in Hf; lia].
  - cbn [dumps] in *. change ("{" +:+ ?x) with (String "{" x) in *.
    change (fun kv : string * json => quote_json (fst kv) +:+ ": " +:+ dumps (snd kv)) with dumps_member in *.
    rewrite append_cons, append_assoc. cbn [String.length] in Hf. rewrite append_length in Hf.
    cbn [json_wf] in Hwf. destruct Hwf as [Hnd Hwf].
    assert (List.Forall (fun kv => json_wf (snd kv) /\ scans (snd kv)) d) as Hd.
    { clear -IH Hwf. induction IH as [|x l Hx IHl IH']; constructor; cbn in Hwf; [|apply IH']; tauto. }
    destruct d as [|[k v] d]; [by destruct rest|].
    cbn [scan_once eat]. change (Ascii.eqb "{" dquote) with false. change (Ascii.eqb "{" "{") with true. cbn match.
    assert (skip_ws (join ", " (map dumps_member ((k, v) :: d)) +:+ String "}" rest) =
              join ", " (map dumps_member ((k, v) :: d)) +:+ String "}" rest /\
            eat "}" (join ", " (map dumps_member ((k, v) :: d)) +:+ String "}" rest) = None) as [E1 E2].
    { cbn [map]. destruct d; [cbn [map join]|rewrite join_cons by done; rewrite append_assoc]; done. }
    change ("}" +:+ rest) with (String "}" rest). rewrite E1, E2.
    rewrite scan_members_spec; [|done|done|change (String.length "}") with 1%nat in Hf; lia].
    by rewrite (fold_dset_app _ []).
Qed.

(** [json.loads] inverts [json.dumps]: every value the orchestrator stores in a
    text column (floats by their [repr], distinct keys) is read back
    unchanged. *)
Lemma loads_dumps j : json_wf j -> loads (dumps j) = Some j.
Proof.
  intros Hwf. unfold loads. rewrite <- (append_nil_r (dumps j)) at 2.
  rewrite (proj1 (skip_ws_value j "" Hwf)). rewrite (scan_dumps j Hwf) by (done || lia). done.
Qed.
