(* ===== verification/IsoParse.v ===== *)
(** * Parsing of time stamps

    [datetime.fromisoformat] on the extended format
    [YYYY-MM-DD[*HH[:MM[:SS[.f+]]][+HH:MM[:SS[.f+]]]]], any character as
    separator, and [_task_parse_datetime], which also reads Unix seconds.
    The basic and week-date formats that recent Python versions accept as well
    are read as invalid. *)

From S2P Require Import Prelude PyStr PyTime JsonText.
From Stdlib Require Import Ascii.
Open Scope Z_scope.

Local Ltac Zify.zify_post_hook ::= Z.to_euclidean_division_equations.

(** Exactly [n] digits. *)
Definition num (n : nat) (s : string) : option (Z * string) :=
  let a := take n s in
  if (Nat.eqb (String.length a) n) && all_digits a then
    match int_of_digits 0 a with Some z => Some (z, drop n s) | None => None end
  else None.

Definition valid_ymdb (y m d : Z) : bool :=
  (1 <=? y) && (1 <=? m) && (m <=? 12) && (1 <=? d)
  && (d <=? nth (Z.to_nat (m - 1)) (month_lengths (is_leap y)) 0).

(** The ordinal of [YYYY-MM-DD]. *)
Definition parse_date (s : string) : option (Z * string) :=
  match num 4 s with
  | Some (y, s1) =>
    match eat "-" s1 with
    | Some s2 =>
      match num 2 s2 with
      | Some (m, s3) =>
        match eat "-" s3 with
        | Some s4 =>
          match num 2 s4 with
          | Some (d, s5) => if valid_ymdb y m d then Some (ymd2ord y m d, s5) else None
          | None => None
          end
        | None => None
        end
      | None => None
      end
    | None => None
    end
  | None => None
  end.

(** Six digits of a fraction; further digits are dropped. *)
Definition parse_fraction (s : string) : option (Z * string) :=
  let '(a, r) := span_digits s in
  if truthy a then
    match int_of_digits 0 (take 6 (a +:+ "000000")) with Some z => Some (z, r) | None => None end
  else None.

(** [HH[:MM[:SS[.f+]]]] in microseconds. *)
Definition parse_time (s : string) : option (Z * string) :=
  match num 2 s with
  | Some (h, s1) =>
    if 23 <? h then None else
    match eat ":" s1 with
    | None => Some (3600 * us_per_sec * h, s1)
    | Some s2 =>
      match num 2 s2 with
      | Some (m, s3) =>
        if 59 <? m then None else
        match eat ":" s3 with
        | None => Some (us_per_sec * (3600 * h + 60 * m), s3)
        | Some s4 =>
          match num 2 s4 with
          | Some (sec, s5) =>
            if 59 <? sec then None else
            let us := us_per_sec * (3600 * h + 60 * m + sec) in
            match (match eat "." s5 with Some s6 => Some s6 | None => eat "," s5 end) with
            | None => Some (us, s5)
            | Some s6 => match parse_fraction s6 with Some (f, s7) => Some (us + f, s7) | None => None end
            end
          | None => None
          end
        end
      | None => None
      end
    end
  | None => None
  end.

(** The offset from UTC, [None] for a naive time. *)
Definition parse_offset (s : string) : option (option Z) :=
  if negb (truthy s) then Some None
  else
    let signed k := match k with
                    | Some (o, r) => if truthy r then None else Some o
                    | None => None
                    end in
    match eat "+" s with
    | Some s1 => option_map Some (signed (parse_time s1))
    | None => match eat "-" s with
              | Some s1 => option_map (fun o => Some (- o)) (signed (parse_time s1))
              | None => None
              end
    end.

(** Microseconds since the epoch in the stamp's own zone, and its offset. *)
Definition fromisoformat (s : string) : option (Z * option Z) :=
  match parse_date s with
  | None => None
  | Some (o, r) =>
      let midnight := (o - 719163) * us_per_day in
      match r with
      | EmptyString => Some (midnight, None)
      | String _ t =>
          match parse_time t with
          | None => None
          | Some (us, z) => match parse_offset z with Some off => Some (midnight + us, off) | None => None end
          end
      end
  end.

(** [_task_parse_datetime(value)]; naive stamps are taken as UTC. *)
Definition _task_parse_datetime (value : string) : result (option Z) :=
  let raw := strip value in
  if negb (truthy raw) then Ok None
  else if all_digits raw then
    match int_of_digits 0 raw with
    | Some n => if n <=? 253402300799 then Ok (Some (n * us_per_sec))
                else Raise (OtherError "ValueError" "year is out of range")
    | None => Ok None
    end
  else
    let candidate := if endswith raw "Z" then drop_last 1 raw +:+ "+00:00" else raw in
    Ok (match fromisoformat candidate with
        | Some (us, Some off) => Some (us - off)
        | Some (us, None) => Some us
        | None => None
        end).

Example parse_ex : _task_parse_datetime "2024-02-29T12:34:56.25+02:00" = Ok (Some 1709202896250000).
Proof. vm_compute. reflexivity. Qed.
Example parse_ex2 : _task_parse_datetime " 1700000000 " = Ok (Some 1700000000000000).
Proof. vm_compute. reflexivity. Qed.
Example parse_ex3 : _task_parse_datetime "2023-02-29" = Ok None.
Proof. vm_compute. reflexivity. Qed.

(** ** Round trip *)

Lemma take_app n s t : String.length s = n -> take n (s +:+ t) = s.
Proof.
  revert n. induction s as [|c s IH]; intros n <-; [by destruct t|].
  rewrite append_cons. cbn. by rewrite IH.
Qed.

Lemma drop_app n s t : String.length s = n -> drop n (s +:+ t) = t.
Proof.
  revert n. induction s as [|c s IH]; intros n <-; [by destruct t|].
  rewrite append_cons. cbn. by apply IH.
Qed.

Lemma num_digits n z rest : 0 <= z < 10 ^ Z.of_nat n -> num n (digits n z +:+ rest) = Some (z, rest).
Proof.
  intros Hz. unfold num. rewrite take_app, drop_app by apply digits_length.
  rewrite digits_length, Nat.eqb_refl, digits_all, int_of_digits_digits by done. done.
Qed.

Lemma append_single c s : String c "" +:+ s = String c s.
Proof. done. Qed.

Lemma eat_hit c s : eat c (String c s) = Some s.
Proof. cbn. by rewrite Ascii.eqb_refl. Qed.

Lemma parse_date_text y m d rest : 1 <= y < 10000 -> valid_ymd y m d ->
  parse_date (digits 4 y +:+ "-" +:+ digits 2 m +:+ "-" +:+ digits 2 d +:+ rest) = Some (ymd2ord y m d, rest).
Proof.
  intros Hy [Hm Hd].
  assert (nth (Z.to_nat (m - 1)) (month_lengths (is_leap y)) 0 <= 31) as Hlen.
  { assert (m = 1 \/ m = 2 \/ m = 3 \/ m = 4 \/ m = 5 \/ m = 6 \/ m = 7 \/ m = 8 \/ m = 9 \/
          m = 10 \/ m = 11 \/ m = 12) as Hms by lia.
    destruct (is_leap y); destruct_or! Hms; subst m; vm_compute; done. }
  unfold parse_date. rewrite num_digits by (cbn; lia). rewrite !append_single.
  rewrite eat_hit, num_digits, eat_hit, num_digits by (cbn; lia).
  unfold valid_ymdb. rewrite !(proj2 (Z.leb_le _ _)) by lia. done.
Qed.

(** The fraction printed by [isoformat], if any. *)
Definition frac_text (f : Z) : string := if f =? 0 then "" else "." +:+ digits 6 f.

Lemma parse_time_text h m s f z :
  0 <= h < 24 -> 0 <= m < 60 -> 0 <= s < 60 -> 0 <= f < 1000000 ->
  parse_time (digits 2 h +:+ ":" +:+ digits 2 m +:+ ":" +:+ digits 2 s +:+ frac_text f +:+ String "+" z)
  = Some (us_per_sec * (3600 * h + 60 * m + s) + f, String "+" z).
Proof.
  intros Hh Hm Hs Hf. unfold parse_time. rewrite num_digits by (cbn; lia).
  rewrite (proj2 (Z.ltb_ge 23 h)) by lia. rewrite !append_single.
  rewrite eat_hit, num_digits by (cbn; lia). rewrite (proj2 (Z.ltb_ge 59 m)) by lia.
  rewrite eat_hit, num_digits by (cbn; lia). rewrite (proj2 (Z.ltb_ge 59 s)) by lia.
  unfold frac_text. destruct (Z.eqb_spec f 0) as [->|Hf0].
  - change ("" +:+ ?x) with x. cbn [eat]. change (Ascii.eqb "+" ".") with false.
    change (Ascii.eqb "+" ",") with false. cbn match. do 2 f_equal. lia.
  - rewrite append_assoc. change ("." +:+ ?x) with (String "." x). rewrite eat_hit.
    unfold parse_fraction. rewrite span_digits_app by (done || apply digits_all).
    assert (truthy (digits 6 f) = true) as ->.
    { pose proof (digits_length 6 f) as H. by destruct (digits 6 f). }
    rewrite take_app by apply digits_length. by rewrite int_of_digits_digits by (cbn; lia).
Qed.

(** [strip] keeps a text that starts and ends with visible characters. *)
Lemma rstrip_last p s c : p c = false -> rstrip_by p (s +:+ String c "") = s +:+ String c "".
Proof.
  intros Hc. induction s as [|d s IH]; [change ("" +:+ ?x) with x; cbn; by rewrite Hc|].
  rewrite append_cons. cbn [rstrip_by]. rewrite IH. destruct (s +:+ String c "") eqn:E; [|done].
  by destruct s.
Qed.

Lemma strip_visible c s d : is_space c = false -> is_space d = false ->
  strip (String c (s +:+ String d "")) = String c (s +:+ String d "").
Proof.
  intros Hc Hd. unfold strip, strip_by. cbn [lstrip_by]. rewrite Hc.
  rewrite <- append_cons. by apply rstrip_last.
Qed.

Lemma endswith_last s c : endswith (s +:+ String c "") (String c "") = true.
Proof.
  induction s as [|d s IH]; [change ("" +:+ ?x) with x; cbn; by rewrite Ascii.eqb_refl|].
  rewrite append_cons. cbn [endswith]. rewrite IH. by rewrite orb_true_r.
Qed.

Lemma drop_last_app s c : drop_last 1 (s +:+ String c "") = s.
Proof.
  unfold drop_last. rewrite append_length. cbn [String.length].
  replace (String.length s + 1 - 1)%nat with (String.length s) by lia. by apply take_app.
Qed.

Lemma iso_head t : in_range t -> exists c s, isoformat (utcfromtimestamp t) = String c s /\ is_digit c = true.
Proof.
  intros Ht. unfold isoformat, isoformat_secs. pose proof (digits_all 4 (year (utcfromtimestamp t))) as Ha.
  pose proof (digits_length 4 (year (utcfromtimestamp t))) as Hl.
  destruct (digits 4 _) as [|c s]; [done|]. cbn in Ha. blift.
  eexists _, _. rewrite !append_cons. done.
Qed.

(** Every stamp the orchestrator prints is read back as the same instant. *)
Theorem task_parse_datetime_roundtrip t : in_range t ->
  _task_parse_datetime (_utc_iso_from_unix t) = Ok (Some t).
Proof.
  intros Ht. unfold _task_parse_datetime, _utc_iso_from_unix.
  destruct (iso_head t Ht) as (c & s & E & Hc).
  assert (is_space c = false) as Hsp by (destruct c as [[] [] [] [] [] [] [] []]; done).
  assert (strip (isoformat (utcfromtimestamp t) +:+ "Z") = isoformat (utcfromtimestamp t) +:+ "Z") as ->
    by (rewrite E, append_cons; by apply strip_visible).
  assert (truthy (isoformat (utcfromtimestamp t) +:+ "Z") = true) as -> by (by rewrite E).
  assert (all_digits (isoformat (utcfromtimestamp t) +:+ "Z") = false) as ->.
  { rewrite all_digits_app. by rewrite andb_false_r. }
  cbn [negb]. rewrite endswith_last, drop_last_app. clear c s E Hc Hsp. f_equal.
  pose proof (utc_valid t Ht) as Hv.
  unfold isoformat, isoformat_secs, utcfromtimestamp in *.
  destruct (ord2ymd (t / us_per_day + 719163)) as [[y m] d] eqn:E. apply ord2ymd_spec in E as [O V].
  cbn [year month day hour minute second microsecond] in *.
  set (sec := t mod us_per_day / us_per_sec) in *. set (us := (t mod us_per_day) mod us_per_sec) in *.
  assert (0 <= sec < 86400 /\ 0 <= us < 1000000 /\ t = (t / us_per_day) * us_per_day + us_per_sec * sec + us) as (Hsec & Hus & Et).
  { unfold sec, us, us_per_day, us_per_sec in *. lia. }
  unfold fromisoformat. rewrite !append_assoc. rewrite parse_date_text; [|pose proof (year_span _ _ _ V)|done].
  - change ("T" +:+ ?x) with (String "T" x). fold (frac_text us).
    change ("+00:00") with (String "+" "00:00"). cbv beta iota. rewrite parse_time_text by lia.
    change (parse_offset (String "+" "00:00")) with (Some (Some 0)). cbn match. f_equal. rewrite O.
    assert (3600 * (sec / 3600) + 60 * (sec / 60 mod 60) + sec mod 60 = sec) as Es by lia. rewrite Es.
    transitivity (t / us_per_day * us_per_day + us_per_sec * sec + us); [ring|by symmetry].
  - destruct Ht as [Ht0 _], Hv as [Hy _]. cbn [year] in Hy. clear -O H Ht0 Hy.
    assert (0 <= t / us_per_day) by (unfold us_per_day in *; lia).
    generalize dependent (t / us_per_day). intros T HT O.
    unfold ymd2ord, days_before_year in *. destruct (is_leap y); lia.
Qed.

Lemma task_parse_datetime_roundtrip_witness :
  _task_parse_datetime (_utc_iso_from_unix 1709210096000042) = Ok (Some 1709210096000042).
Proof.
  apply (task_parse_datetime_roundtrip 1709210096000042). unfold in_range, us_per_sec. lia.
Defined.
