(* ===== verification/TaskDb.v ===== *)
(** * Transactions of the task database

    [_task_db_exec] runs a function of a connection as one transaction of the
    SQLite file that holds the tasks, their events and the outbox, and retries
    when SQLite reports a lock or a disk I/O error.  The transaction is a
    function of the tables; the connection rolls it back when it raises. *)

From S2P Require Import Prelude PyStr.
Open Scope Z_scope.

(** The tables [S] and the faults still to come, one per connection. *)
Record task_db (S : Type) := mkDb { tables : S; db_faults : list fault }.
Arguments mkDb {S}. Arguments tables {S}. Arguments db_faults {S}.

Section exec.
Context {S A : Type}.
Variable TASK_DB_LOCK_RETRIES : Z.
Variable fn : S -> result (S * A).

(** [with _task_db_connect() as conn: return fn(conn)]: committed on success,
    rolled back on an exception of [fn] or of SQLite before the commit; a
    failure after the commit leaves the changes in place. *)
Definition with_connection : ST (task_db S) A := fun db =>
  let '(f, rest) := next_fault (db_faults db) in
  match f with
  | FailBefore e => (mkDb (tables db) rest, Raise e)
  | _ =>
      match fn (tables db) with
      | Raise e => (mkDb (tables db) rest, Raise e)
      | Ok (s', a) =>
          (mkDb s' rest, match f with FailAfter e => Raise e | _ => Ok a end)
      end
  end.

(** [except sqlite3.OperationalError]: locks and disk I/O errors are retried. *)
Definition retryable (e : exn) : bool :=
  match e with
  | OperationalError m => contains (lower m) "locked" || contains (lower m) "disk i/o error"
  | _ => false
  end.

(** [more] attempts are left after this one. *)
Fixpoint run_attempts (more : nat) : ST (task_db S) A :=
  match more with
  | O => with_connection
  | Datatypes.S more' => st_try with_connection (fun e => if retryable e then run_attempts more' else st_raise e)
  end.

(** [for attempt in range(1, max(1, TASK_DB_LOCK_RETRIES) + 1)] *)
Definition _task_db_exec : ST (task_db S) A :=
  run_attempts (Z.to_nat (Z.max 1 TASK_DB_LOCK_RETRIES) - 1).
End exec.

(** ** Atomicity *)

(** Faults that hit a transaction before its commit. *)
Definition before_commit (f : fault) : bool :=
  match f with FailAfter _ => false | _ => true end.

Section facts.
Context {S A : Type}.
Variable fn : S -> result (S * A).

(** One attempt: applied and answered, or without effect. *)
Lemma with_connection_atomic db :
  List.Forall (fun f => before_commit f = true) (db_faults db) ->
  let '(db', r) := with_connection fn db in
  db_faults db' = skipn 1 (db_faults db) /\
  match r with
  | Ok a => fn (tables db) = Ok (tables db', a)
  | Raise e => tables db' = tables db
  end.
Proof.
  destruct db as [s fs]. unfold with_connection. cbn [tables db_faults].
  intros Hf. destruct fs as [|f fs]; cbn [next_fault].
  - destruct (fn s) as [[s' a]|e]; done.
  - inversion Hf as [|? ? Hb Hfs]; subst. destruct f; try done; destruct (fn s) as [[s' a]|e]; done.
Qed.

Lemma run_attempts_atomic more db :
  List.Forall (fun f => before_commit f = true) (db_faults db) ->
  let '(db', r) := run_attempts fn more db in
  (exists k, (k <= Datatypes.S more)%nat /\ db_faults db' = skipn k (db_faults db)) /\
  match r with
  | Ok a => fn (tables db) = Ok (tables db', a)
  | Raise e => tables db' = tables db
  end.
Proof.
  revert db. induction more as [|more IH]; intros db Hf; cbn [run_attempts].
  - pose proof (with_connection_atomic db Hf) as H. destruct (with_connection fn db) as [db' r].
    destruct H as [H1 H2]. split; [exists 1%nat; auto|done].
  - unfold st_try. pose proof (with_connection_atomic db Hf) as H.
    destruct (with_connection fn db) as [db1 [a|e]]; destruct H as [H1 H2].
    + split; [exists 1%nat; split; [lia|done]|done].
    + destruct (retryable e); [|split; [exists 1%nat; split; [lia|done]|done]].
      specialize (IH db1). rewrite H1 in IH.
      destruct (run_attempts fn more db1) as [db' r].
      destruct IH as [(k & Hk & Hs) Hr]; [|split].
      * rewrite List.Forall_forall in *. intros x Hx. apply Hf.
        rewrite <- (firstn_skipn 1 (db_faults db)). apply in_or_app; auto.
      * exists (k + 1)%nat. split; [lia|]. rewrite Hs, skipn_skipn. done.
      * by rewrite H2 in Hr.
Qed.

Lemma run_attempts_no_fault more s s' a :
  fn s = Ok (s', a) -> run_attempts fn more (mkDb s []) = (mkDb s' [], Ok a).
Proof.
  intros Hfn. destruct more; cbn [run_attempts]; unfold st_try, with_connection; cbn; by rewrite Hfn.
Qed.

(** Locks shorter than the retry budget are invisible to the caller. *)
Lemma run_attempts_absorbs more locks rest s s' a :
  fn s = Ok (s', a) -> (length locks <= more)%nat ->
  List.Forall (fun e => retryable e = true) locks ->
  run_attempts fn more (mkDb s (map FailBefore locks ++ NoFault :: rest)) = (mkDb s' rest, Ok a).
Proof.
  intros Hfn. revert more. induction locks as [|e locks IH]; intros more Hl Hr; cbn [map app length] in *.
  - destruct more; cbn [run_attempts]; unfold st_try, with_connection; cbn; by rewrite Hfn.
  - destruct more as [|more]; [lia|]. inversion Hr as [|? ? He Hr']; subst.
    cbn [run_attempts]. unfold st_try. unfold with_connection at 1. cbn. rewrite He.
    apply IH; [lia|done].
Qed.
End facts.

(** [_task_db_exec] is atomic: as long as SQLite fails only before a commit,
    an answer means the transaction was applied exactly once to the tables it
    found, an exception means the tables are unchanged, and at most
    [max(1, TASK_DB_LOCK_RETRIES)] connections are used. *)
Theorem task_db_exec_atomic {S A} (fn : S -> result (S * A)) retries db db' r :
  List.Forall (fun f => before_commit f = true) (db_faults db) ->
  _task_db_exec retries fn db = (db', r) ->
  (exists k, (k <= Z.to_nat (Z.max 1 retries))%nat /\ db_faults db' = skipn k (db_faults db)) /\
  match r with
  | Ok a => fn (tables db) = Ok (tables db', a)
  | Raise e => tables db' = tables db
  end.
Proof.
  intros Hf E. unfold _task_db_exec in E.
  pose proof (run_attempts_atomic fn (Z.to_nat (Z.max 1 retries) - 1) db Hf) as H. rewrite E in H.
  destruct H as [(k & Hk & Hs) Hr]. split; [|done]. exists k. split; [lia|done].
Qed.

Definition demo_fn (n : Z) : result (Z * Z) := if n <? 10 then Ok (n + 1, n) else Raise TimeoutError.
Definition demo_db : task_db Z := mkDb 5 [FailBefore (OperationalError "database is locked")].

Lemma task_db_exec_atomic_witness :
  demo_fn 5 = Ok (tables (fst (_task_db_exec 2 demo_fn demo_db)), 5).
Proof.
  apply (task_db_exec_atomic demo_fn 2 demo_db (mkDb 6 []) (Ok 5)).
  - repeat constructor.
  - vm_compute. reflexivity.
Defined.

(** Locks and disk I/O errors that end within the retry budget are
    invisible: the transaction is applied once and answered. *)
Theorem task_db_exec_absorbs_locks {S A} (fn : S -> result (S * A)) retries locks rest s s' a :
  fn s = Ok (s', a) -> (length locks < Z.to_nat (Z.max 1 retries))%nat ->
  List.Forall (fun e => retryable e = true) locks ->
  _task_db_exec retries fn (mkDb s (map FailBefore locks ++ NoFault :: rest)) = (mkDb s' rest, Ok a).
Proof. intros Hfn Hl Hr. apply run_attempts_absorbs; [done|lia|done]. Qed.

Lemma task_db_exec_absorbs_locks_witness :
  _task_db_exec 8 (fun n : Z => Ok (n + 1, n))
    (mkDb 5 (map FailBefore [OperationalError "database is locked"; OperationalError "disk I/O error"] ++ [NoFault]))
  = (mkDb 6 [], Ok 5).
Proof.
  apply (task_db_exec_absorbs_locks (fun n : Z => Ok (n + 1, n)) 8
    [OperationalError "database is locked"; OperationalError "disk I/O error"] [] 5 6 5).
  - reflexivity.
  - cbn. lia.
  - repeat constructor.
Defined.
