(* ===== verification/Paths.v ===== *)
(** * Memory paths and topic paths

    Models [normalize_memory_path], [normalize_topic_path],
    [derive_topic_path], [topic_tags_for_path] and
    [build_hot_memory_rollup_file] of [services/orchestrator/app.py]. *)

From S2P Require Import Prelude PyStr.
From Stdlib Require Import Ascii.
Open Scope Z_scope.

Definition slash : ascii := "/".

(** [re.sub(r"/+", "/", s)] *)
Fixpoint collapse_slashes (s : string) : string :=
  match s with
  | EmptyString => EmptyString
  | String c s' =>
      match s' with
      | String d _ =>
          if Ascii.eqb c slash && Ascii.eqb d slash then collapse_slashes s'
          else String c (collapse_slashes s')
      | EmptyString => String c EmptyString
      end
  end.

(** [part and part != "."] *)
Definition keep_part (p : string) : bool := truthy p && negb (p =s ".").

Definition path_parts (s : string) : list string := List.filter keep_part (split slash s).

Definition normalize_memory_path (value : string) : result string :=
  if negb (truthy value) then Ok ""
  else
    let decoded := lstrip_by (Ascii.eqb slash) (replace_char "\" "/" (unquote value)) in
    let decoded := collapse_slashes decoded in
    let parts := path_parts decoded in
    if existsb (String.eqb "..") parts then Raise (HTTPException 400 "invalid file path")
    else Ok (join "/" parts).

Definition normalize_topic_path (value : string) : result string :=
  if negb (truthy value) then Ok "" else normalize_memory_path value.

Section topics.
(** The configured [DEFAULT_TOPIC_ROOT]. *)
Variable DEFAULT_TOPIC_ROOT : string.

(** The branch of [derive_topic_path] without an explicit topic: the
    directory of the file. *)
Definition topic_of_file (file_name : string) : string :=
  if negb (truthy file_name) then DEFAULT_TOPIC_ROOT
  else if negb (has_char slash file_name) then DEFAULT_TOPIC_ROOT
  else
    let parts := List.filter truthy (split slash file_name) in
    if (length parts <=? 1)%nat then DEFAULT_TOPIC_ROOT
    else str_or (join "/" (removelast parts)) DEFAULT_TOPIC_ROOT.

Definition derive_topic_path (file_name : string) (explicit : option string) : result string :=
  match explicit with
  | Some e =>
      if truthy e then
        let! normalized := normalize_topic_path e in
        Ok (str_or normalized DEFAULT_TOPIC_ROOT)
      else Ok (topic_of_file file_name)
  | None => Ok (topic_of_file file_name)
  end.

(** The loop of [topic_tags_for_path]: [current.append(part);
    tags.append("/".join(current))]. *)
Fixpoint tag_prefixes (current parts : list string) : list string :=
  match parts with
  | [] => []
  | p :: ps => let current := current ++ [p] in join "/" current :: tag_prefixes current ps
  end.

Definition topic_tags_for_path (topic_path : string) : result (list string) :=
  let! normalized := normalize_topic_path topic_path in
  if negb (truthy normalized) || (normalized =s DEFAULT_TOPIC_ROOT) then Ok [DEFAULT_TOPIC_ROOT]
  else
    let parts := List.filter truthy (split slash normalized) in
    let tags := tag_prefixes [] parts in
    Ok (match tags with [] => [DEFAULT_TOPIC_ROOT] | _ => tags end).
End topics.

(** [s.rsplit("/", 1)] when [s] has a slash: what stands before and after the
    last one. *)
Definition rsplit_slash (s : string) : string * string :=
  let parts := split slash s in (join "/" (removelast parts), List.last parts "").

Definition build_hot_memory_rollup_file (HOT_MEMORY_ROLLUP_SUFFIX file_name : string) : result string :=
  let! normalized := normalize_memory_path file_name in
  if negb (truthy normalized) then Ok "_rollups/hot__rollup.json"
  else
    let '(directory, base) :=
      if has_char slash normalized then rsplit_slash normalized else ("", normalized) in
    let rollup_name :=
      if endswith base HOT_MEMORY_ROLLUP_SUFFIX then base
      else (if endswith base ".json" then drop_last 5 base else base) +:+ HOT_MEMORY_ROLLUP_SUFFIX in
    if truthy directory then Ok (directory +:+ "/_rollups/" +:+ rollup_name)
    else Ok ("_rollups/" +:+ rollup_name).

Example normalize_ex :
  normalize_memory_path "//a\b%2F./c//d.json" = Ok "a/b/c/d.json".
Proof. vm_compute. reflexivity. Qed.
Example normalize_reject : normalize_memory_path "a/%2e%2E/b" = Raise (HTTPException 400 "invalid file path").
Proof. vm_compute. reflexivity. Qed.
Example tags_ex : topic_tags_for_path "root" "/a/b//c" = Ok ["a"; "a/b"; "a/b/c"].
Proof. vm_compute. reflexivity. Qed.
Example rollup_ex :
  build_hot_memory_rollup_file "__rollup.json" "d/e/x__latest.json" = Ok "d/e/_rollups/x__latest__rollup.json".
Proof. vm_compute. reflexivity. Qed.

(** ** Collapsing and stripping slashes does not change the parts *)

Lemma keep_empty : keep_part "" = false.
Proof. done. Qed.

Lemma split_slash_cons s : split slash (String slash s) = "" :: split slash s.
Proof. done. Qed.

Lemma path_parts_slash s : path_parts (String slash s) = path_parts s.
Proof. unfold path_parts. by rewrite split_slash_cons. Qed.

Lemma path_parts_lstrip s : path_parts (lstrip_by (Ascii.eqb slash) s) = path_parts s.
Proof.
  induction s as [|c s IH]; [done|]. cbn [lstrip_by].
  destruct (Ascii.eqb_spec slash c) as [<-|]; [|done]. by rewrite IH, path_parts_slash.
Qed.

(** The first component and the remaining ones. *)
Lemma split_cons_ne c s :
  c <> slash ->
  split slash (String c s) = String c (List.hd "" (split slash s)) :: List.tl (split slash s).
Proof.
  intros Hc. cbn [split]. rewrite (proj2 (Ascii.eqb_neq c slash)) by done.
  pose proof (split_not_nil slash s). by destruct (split slash s).
Qed.

Lemma collapse_cons2 c d s :
  collapse_slashes (String c (String d s)) =
    if Ascii.eqb c slash && Ascii.eqb d slash then collapse_slashes (String d s)
    else String c (collapse_slashes (String d s)).
Proof. reflexivity. Qed.

Lemma split_hd_tl s : split slash s = List.hd "" (split slash s) :: List.tl (split slash s).
Proof. pose proof (split_not_nil slash s). by destruct (split slash s). Qed.

Lemma collapse_split s :
  List.hd "" (split slash (collapse_slashes s)) = List.hd "" (split slash s) /\
  List.filter keep_part (List.tl (split slash (collapse_slashes s))) =
    List.filter keep_part (List.tl (split slash s)).
Proof.
  induction s as [|c s IH]; [done|]. destruct s as [|d s']; [done|].
  rewrite collapse_cons2.
  assert (d = slash -> List.hd "" (split slash (String d s')) = "") as Hh by (by intros ->).
  revert IH Hh. generalize (String d s'). clear s'. intros s [IH1 IH2] Hh.
  destruct (Ascii.eqb_spec c slash) as [->|Hc]; cbn [andb].
  - destruct (Ascii.eqb_spec d slash) as [->|Hd].
    + rewrite split_slash_cons, IH1, Hh by done. split; [done|].
      cbn [List.tl]. rewrite (split_hd_tl s), Hh by done. exact IH2.
    + rewrite !split_slash_cons. split; [done|]. cbn [List.tl].
      rewrite (split_hd_tl s), (split_hd_tl (collapse_slashes s)), IH1.
      cbn [List.filter List.tl]. by rewrite IH2.
  - rewrite !split_cons_ne by done. cbn [List.hd List.tl]. by rewrite IH1.
Qed.

Lemma path_parts_collapse s : path_parts (collapse_slashes s) = path_parts s.
Proof.
  unfold path_parts. destruct (collapse_split s) as [H1 H2].
  pose proof (split_not_nil slash s). pose proof (split_not_nil slash (collapse_slashes s)).
  destruct (split slash s), (split slash (collapse_slashes s)); try done.
  simpl in *. subst. by rewrite H2.
Qed.

(** Reference definition: decode, treat backslashes as slashes, keep the
    meaningful components. *)
Definition decoded_parts (value : string) : list string :=
  path_parts (replace_char "\" "/" (unquote value)).

Lemma normalize_memory_path_ref value :
  normalize_memory_path value =
    if existsb (String.eqb "..") (decoded_parts value)
    then Raise (HTTPException 400 "invalid file path")
    else Ok (join "/" (decoded_parts value)).
Proof.
  unfold normalize_memory_path, decoded_parts.
  destruct (truthy value) eqn:Hv.
  - cbn [negb]. rewrite path_parts_collapse, path_parts_lstrip. done.
  - unfold truthy in Hv. blift. by subst.
Qed.

Lemma path_parts_spec s p :
  In p (path_parts s) -> p <> "" /\ p <> "." /\ has_char slash p = false.
Proof.
  unfold path_parts. rewrite filter_In. intros [Hin Hk]. unfold keep_part, truthy in Hk.
  blift. repeat split; [done..|].
  pose proof (split_no_sep slash s) as Hf. rewrite List.Forall_forall in Hf. auto.
Qed.

(** A stored path splits back into exactly its components. *)
Lemma normalize_split value p :
  normalize_memory_path value = Ok p -> p <> "" -> split slash p = decoded_parts value.
Proof.
  rewrite normalize_memory_path_ref. case_match; [done|]. intros [= <-] Hne.
  apply split_join.
  - intros E. by rewrite E in Hne.
  - apply List.Forall_forall. intros q Hq%path_parts_spec. tauto.
Qed.

Lemma decoded_parts_no_backslash value :
  List.Forall (fun p => has_char "\" p = false) (decoded_parts value).
Proof.
  apply List.Forall_forall. intros p [Hp _]%filter_In.
  assert (has_char "\" (replace_char "\" "/" (unquote value)) = false) as Hn
    by (by apply replace_char_gone).
  pose proof (split_has_char slash "\" _ Hn) as Hall.
  rewrite List.Forall_forall in Hall. auto.
Qed.

Lemma normalized_no_backslash value p :
  normalize_memory_path value = Ok p -> has_char "\" p = false.
Proof.
  rewrite normalize_memory_path_ref. case_match; [done|]. intros [= <-].
  apply join_has_char; [done|]. apply decoded_parts_no_backslash.
Qed.

Lemma decoded_parts_fix p l :
  has_char "%" p = false -> has_char "\" p = false ->
  split slash p = l -> List.Forall (fun q => keep_part q = true) l ->
  decoded_parts p = l.
Proof.
  intros H1 H2 Hs Hall. unfold decoded_parts, path_parts.
  rewrite unquote_id, replace_char_id, Hs by done. apply filter_all.
  by apply List.Forall_forall.
Qed.

Lemma decoded_parts_keep value : List.Forall (fun q => keep_part q = true) (decoded_parts value).
Proof. apply List.Forall_forall. by intros q [_ H]%filter_In. Qed.

(** ** Properties *)

(** Whatever [normalize_memory_path] accepts is a relative path without
    traversal: it has no backslash and either is empty or consists of
    slash-separated components none of which is empty, [.] or [..]. *)
Theorem normalize_memory_path_safe value p :
  normalize_memory_path value = Ok p ->
  has_char "\" p = false /\
  (p = "" \/ List.Forall (fun q => q <> "" /\ q <> "." /\ q <> "..") (split slash p)).
Proof.
  intros H. split; [by eapply normalized_no_backslash|].
  destruct (String.eqb_spec p "") as [|Hne]; [by left|right].
  rewrite (normalize_split _ _ H Hne).
  rewrite normalize_memory_path_ref in H. case_match eqn:E; [done|].
  rewrite existsb_false_iff in E. apply List.Forall_forall. intros q Hq.
  pose proof (path_parts_spec _ _ Hq) as (? & ? & _). specialize (E q Hq). blift.
  repeat split; congruence.
Qed.

Lemma normalize_memory_path_safe_witness :
  normalize_memory_path "/a//./b%2fc" = Ok "a/b/c" /\
  List.Forall (fun q => q <> "" /\ q <> "." /\ q <> "..") (split slash "a/b/c").
Proof.
  assert (normalize_memory_path "/a//./b%2fc" = Ok "a/b/c") as H by (vm_compute; reflexivity).
  split; [exact H|].
  destruct (normalize_memory_path_safe _ _ H) as [_ [Hn|Hf]]; [discriminate Hn|exact Hf].
Defined.

(** [normalize_memory_path] raises exactly when a decoded component is
    [..], and then with HTTP 400; otherwise it returns the joined components.
    Percent-encoded and backslash-separated traversal is caught as well. *)
Theorem normalize_memory_path_decides value :
  (In ".." (decoded_parts value) ->
     normalize_memory_path value = Raise (HTTPException 400 "invalid file path")) /\
  (~ In ".." (decoded_parts value) ->
     normalize_memory_path value = Ok (join "/" (decoded_parts value))).
Proof.
  rewrite normalize_memory_path_ref. fold (mem_str ".." (decoded_parts value)).
  split; intros H.
  - rewrite (proj2 (mem_str_In ".." (decoded_parts value)) H). done.
  - rewrite (proj2 (mem_str_false ".." (decoded_parts value)) H). done.
Qed.

Lemma normalize_memory_path_decides_witness :
  normalize_memory_path "a/..%2f\..\b" = Raise (HTTPException 400 "invalid file path") /\
  normalize_memory_path "x/..y/z" = Ok "x/..y/z".
Proof.
  split.
  - apply (normalize_memory_path_decides "a/..%2f\..\b"). vm_compute. tauto.
  - apply (normalize_memory_path_decides "x/..y/z"). vm_compute. intuition discriminate.
Defined.

(** Normalising a stored path again changes nothing, provided the stored
    path has no percent sign left. *)
Theorem normalize_memory_path_idempotent value p :
  normalize_memory_path value = Ok p -> has_char "%" p = false ->
  normalize_memory_path p = Ok p.
Proof.
  intros H Hpct. destruct (String.eqb_spec p "") as [->|Hne]; [done|].
  pose proof (normalized_no_backslash _ _ H) as Hbs.
  pose proof (normalize_split _ _ H Hne) as Hs.
  rewrite normalize_memory_path_ref, (decoded_parts_fix p _ Hpct Hbs Hs (decoded_parts_keep value)).
  by rewrite <- normalize_memory_path_ref.
Qed.

Lemma normalize_memory_path_idempotent_witness :
  normalize_memory_path "a/b" = Ok "a/b".
Proof.
  apply (normalize_memory_path_idempotent "/a%2Fb" "a/b"); vm_compute; reflexivity.
Defined.

(** With a percent sign left, a second normalisation decodes once more: a
    doubly encoded traversal is accepted and stored by the first pass and
    rejected by the second one.  [derive_topic_path] followed by
    [topic_tags_for_path] makes these two passes. *)
Theorem double_encoded_traversal_passes_once :
  derive_topic_path "root" "f" (Some "a/%252e%252e/b") = Ok "a/%2e%2e/b" /\
  topic_tags_for_path "root" "a/%2e%2e/b" = Raise (HTTPException 400 "invalid file path").
Proof. split; vm_compute; reflexivity. Qed.

Lemma tag_prefixes_nth current parts i :
  (i < length parts)%nat ->
  nth i (tag_prefixes current parts) "" = join "/" (current ++ firstn (S i) parts).
Proof.
  revert current i. induction parts as [|p ps IH]; intros current i Hi; simpl in Hi; [lia|].
  cbn [tag_prefixes]. destruct i as [|i]; [by destruct ps|].
  cbn [nth]. rewrite IH by lia. by rewrite <- app_assoc.
Qed.

Lemma tag_prefixes_length current parts : length (tag_prefixes current parts) = length parts.
Proof. revert current. induction parts; intros; simpl; auto. Qed.

(** The topic tags of a path are its prefixes, one per component: tag [i]
    joins the first [i+1] components, so the last tag is the path itself. *)
Theorem topic_tags_are_prefixes root topic_path p :
  normalize_topic_path topic_path = Ok p -> p <> "" -> p <> root ->
  exists tags, topic_tags_for_path root topic_path = Ok tags /\
    length tags = length (split slash p) /\
    (forall i, (i < length tags)%nat -> nth i tags "" = join "/" (firstn (S i) (split slash p))) /\
    List.last tags "" = p.
Proof.
  intros H Hne Hroot. unfold topic_tags_for_path. rewrite H. cbn [rbind].
  unfold truthy at 1. rewrite (proj2 (String.eqb_neq p "")), (proj2 (String.eqb_neq p root)) by done.
  cbn [negb orb].
  assert (List.filter truthy (split slash p) = split slash p) as Hf.
  { apply filter_all. intros q Hq. unfold normalize_topic_path in H.
    destruct (negb (truthy topic_path)); [congruence|].
    rewrite (normalize_split _ _ H Hne) in Hq. apply path_parts_spec in Hq as [Hq _].
    unfold truthy. by rewrite (proj2 (String.eqb_neq q "")). }
  rewrite Hf. pose proof (split_not_nil slash p) as Hs.
  pose proof (tag_prefixes_length [] (split slash p)) as Hlen.
  destruct (tag_prefixes [] (split slash p)) as [|t ts] eqn:Ht.
  { by destruct (split slash p). }
  exists (t :: ts). rewrite <- Ht in *. clear t ts Ht.
  assert (forall i, (i < length (tag_prefixes [] (split slash p)))%nat ->
    nth i (tag_prefixes [] (split slash p)) "" = join "/" (firstn (S i) (split slash p))) as Hn.
  { intros i Hi. rewrite tag_prefixes_nth by lia. done. }
  repeat split; [done..|].
  assert (length (split slash p) <> 0)%nat by (by destruct (split slash p)).
  rewrite <- (join_split slash p) at 2. rewrite <- (firstn_all (split slash p)) at 2.
  replace (length (split slash p)) with (S (length (split slash p) - 1))%nat at 1 by lia.
  change (String slash "") with "/". rewrite <- Hn by lia.
  by rewrite last_nth, Hlen.
Qed.

Lemma topic_tags_are_prefixes_witness :
  exists tags, topic_tags_for_path "root" "a/b" = Ok tags /\ List.last tags "" = "a/b".
Proof.
  destruct (topic_tags_are_prefixes "root" "a/b" "a/b") as (tags & H1 & _ & _ & H2);
    [vm_compute; reflexivity|discriminate|discriminate|].
  exists tags. split; [exact H1|exact H2].
Defined.
