(* ===== verification/Policy.v ===== *)
(** * Configuration lists, record classification and error classification

    The comma-separated configuration values and their normalisers, the
    predicates that classify memory records as low value or excluded from
    Letta, and the predicates that classify sink error messages.  All from
    [services/orchestrator/app.py]. *)

From S2P Require Import Prelude PyStr.
From Stdlib Require Import Ascii.
Open Scope Z_scope.

(** ** Fan-out targets and retrieval sources *)

Definition FANOUT_TARGET_MONGO_RAW : string := "mongo_raw".
Definition FANOUT_TARGET_QDRANT : string := "qdrant".
Definition FANOUT_TARGET_LANGFUSE : string := "langfuse".
Definition FANOUT_TARGET_MINDSDB : string := "mindsdb".
Definition FANOUT_TARGET_LETTA : string := "letta".

Definition FANOUT_TARGETS : list string :=
  [FANOUT_TARGET_MONGO_RAW; FANOUT_TARGET_QDRANT; FANOUT_TARGET_LANGFUSE;
   FANOUT_TARGET_MINDSDB; FANOUT_TARGET_LETTA].

Definition RETRIEVAL_SOURCES : list string :=
  ["qdrant"; FANOUT_TARGET_MONGO_RAW; FANOUT_TARGET_MINDSDB; FANOUT_TARGET_LETTA;
   "memory_bank"; "topic_rollups"].

(** ** Comma-separated values *)

Definition opt_str (raw : option string) : string :=
  match raw with Some s => s | None => "" end.

(** [[item.strip().lower() for item in str(raw or "").split(",") if item.strip()]] *)
Definition _normalize_lower_csv (raw : option string) : list string :=
  map (fun item => lower (strip item))
    (List.filter (fun item => truthy (strip item)) (split "," (opt_str raw))).

(** The loop shared by the normalisers: keep the allowed items not seen yet. *)
Fixpoint keep_new (allowed : string -> bool) (seen : list string) (l : list string) : list string :=
  match l with
  | [] => []
  | x :: l' =>
      if negb (allowed x) || mem_str x seen then keep_new allowed seen l'
      else x :: keep_new allowed (x :: seen) l'
  end.

Definition _normalize_fanout_target_csv (raw : option string) : list string :=
  keep_new (fun t => mem_str t FANOUT_TARGETS) [] (_normalize_lower_csv raw).

Definition _normalize_outbox_status_csv (raw : option string) : list string :=
  keep_new (fun s => mem_str s ["pending"; "retrying"; "running"]) [] (_normalize_lower_csv raw).

Definition _normalize_task_action_csv (raw : option string) : list string :=
  match keep_new (fun _ => true) [] (_normalize_lower_csv raw) with
  | [] => ["memory_write"; "memory_search"; "messaging_command"; "http_callback"; "provider_chat"]
  | normalized => normalized
  end.

Definition _normalize_host_allowlist (raw : option string) : list string :=
  keep_new (fun _ => true) [] (_normalize_lower_csv raw).

Definition _normalize_retrieval_source_csv (raw : option string) : list string :=
  keep_new (fun s => mem_str s RETRIEVAL_SOURCES) [] (_normalize_lower_csv raw).

(** [_env_alias(primary, legacy, default)] over an environment. *)
Definition _env_alias (environ : string -> option string) (primary legacy default : string) : string :=
  match environ primary with
  | Some v => v
  | None => match environ legacy with Some v => v | None => default end
  end.

(** ** Record classification *)

Record record_policy := mkRecordPolicy {
  LOW_VALUE_FILE_SUFFIXES : list string;
  LOW_VALUE_TOPIC_PREFIXES : list string;
  LETTA_EXCLUDED_FILE_PATTERNS : list string;
  LETTA_EXCLUDED_TOPIC_PREFIXES : list string;
  LETTA_ADMISSION_LOW_VALUE_MIN_SUMMARY_CHARS : Z;
  HOT_MEMORY_FILE_PATTERNS : list string;
  HOT_MEMORY_FILE_SUFFIXES : list string }.

Definition default_record_policy : record_policy := {|
  LOW_VALUE_FILE_SUFFIXES := ["__latest.json"; "__rollup.json"];
  LOW_VALUE_TOPIC_PREFIXES := ["telemetry"; "metrics"; "signals"; "overrides"; "perf"; "tmp"];
  LETTA_EXCLUDED_FILE_PATTERNS :=
    ["index__*.json"; "*_agg-latest.json"; "*__agg-*.json"; "telemetry__*.json"; "*__state__*.json";
     "*__stats__*.json"; "*__snapshots__*.json"; "*__health__*.json"; "*__allocations__*.json"];
  LETTA_EXCLUDED_TOPIC_PREFIXES := ["telemetry"; "metrics"; "signals"; "overrides"; "perf"; "tmp"];
  LETTA_ADMISSION_LOW_VALUE_MIN_SUMMARY_CHARS := 96;
  HOT_MEMORY_FILE_PATTERNS :=
    ["index__*.json"; "*_agg-latest.json"; "*__agg-*.json"; "telemetry__*.json"; "*__state__*.json";
     "*__stats__*.json"; "*__snapshots__*.json"; "*__health__*.json"; "*__allocations__*.json"];
  HOT_MEMORY_FILE_SUFFIXES := ["__latest.json"] |}.

(** [normalized == prefix or normalized.startswith(f"{prefix}/")] for some
    configured prefix, on the trimmed lower-case topic. *)
Definition topic_under (prefixes : list string) (topic_path : string) : bool :=
  let normalized := strip_by (Ascii.eqb "/") (lower (strip topic_path)) in
  truthy normalized &&
  existsb (fun prefix => (normalized =s prefix) || startswith normalized (prefix +:+ "/")) prefixes.

Definition _matches_any_glob (value : string) (patterns : list string) : bool :=
  let lowered := lower (strip value) in
  truthy lowered &&
  existsb (fun pattern => let token := lower (strip pattern) in
                          truthy token && fnmatch lowered token) patterns.

Section classify.
Variable P : record_policy.

Definition _looks_low_value_topic_path (topic_path : string) : bool :=
  topic_under (LOW_VALUE_TOPIC_PREFIXES P) topic_path.

Definition _looks_letta_excluded_topic_path (topic_path : string) : bool :=
  topic_under (LETTA_EXCLUDED_TOPIC_PREFIXES P) topic_path.

Definition _looks_low_value_file (file_name : string) : bool :=
  let lowered := lower (strip file_name) in
  truthy lowered &&
  (contains lowered "/_rollups/" || existsb (endswith lowered) (LOW_VALUE_FILE_SUFFIXES P)).

(** Returns the reason when the record is excluded. *)
Definition _is_letta_excluded_memory_record (file_name topic_path : string) : option string :=
  if _matches_any_glob file_name (LETTA_EXCLUDED_FILE_PATTERNS P) then Some "excluded_file_pattern"
  else if _looks_letta_excluded_topic_path topic_path then Some "excluded_topic_prefix"
  else None.

Definition _is_low_value_memory_record
    (file_name topic_path summary source_kind : string) (include_short_summary : bool) : bool :=
  if lower (strip source_kind) =s "high_frequency_rollup" then true
  else if _looks_low_value_file file_name then true
  else if _looks_low_value_topic_path topic_path then true
  else if include_short_summary then
    let summary_len := Z.of_nat (String.length (strip summary)) in
    let threshold := Z.max 1 (LETTA_ADMISSION_LOW_VALUE_MIN_SUMMARY_CHARS P) in
    let lowered_file := lower (strip file_name) in
    let is_quick_churn_file := endswith lowered_file ".json" || endswith lowered_file ".log" in
    is_quick_churn_file && (0 <? summary_len) && (summary_len <=? threshold)
  else false.

Definition is_hot_memory_file (file_name : string) : bool :=
  let lowered := lower file_name in
  truthy lowered &&
  (_matches_any_glob lowered (HOT_MEMORY_FILE_PATTERNS P)
   || existsb (endswith lowered) (HOT_MEMORY_FILE_SUFFIXES P)).
End classify.

(** ** Error classification *)

Definition three_digits (s : string) : option Z :=
  match s with
  | String a (String b (String c _)) => int_of_digits 0 (String a (String b (String c "")))
  | _ => None
  end.

Fixpoint skip (n : nat) (s : string) : string :=
  match n, s with
  | S n', String _ s' => skip n' s'
  | _, _ => s
  end.

(** [re.search(r"status=(\d{3})", text)]: the leftmost match. *)
Fixpoint search_status (text : string) : option Z :=
  match (if startswith text "status=" then three_digits (skip 7 text) else None) with
  | Some code => Some code
  | None => match text with EmptyString => None | String _ text' => search_status text' end
  end.

Definition _is_letta_permanent_error (message : string) : bool :=
  let text := lower message in
  (match search_status text with
   | Some status => existsb (Z.eqb status) [400; 401; 403; 404; 405; 410; 422]
   | None => false
   end) || contains text "not found" || contains text "invalid_argument".

Definition _is_letta_transient_server_error (message : string) : bool :=
  let text := lower message in
  (match search_status text with
   | Some status => (500 <=? status) && (status <=? 599)
   | None => false
   end) || contains text "unknown error occurred" || contains text "internal server error".

Definition _is_sqlite_disk_io_error (message : string) : bool :=
  let text := lower message in
  contains text "disk i/o error" || contains text "database is locked"
  || contains text "unable to open database file".

Definition _is_mindsdb_permanent_error (message : string) : bool :=
  let text := lower message in
  contains text "file is too small to be a well-formed file"
  || contains text "verification of flatbuffer-encoded footer failed"
  || contains text "lz4 compressed input contains more than one frame"
  || (contains text "expected to read" && contains text "metadata bytes but got")
  || (contains text "unable to read" && contains text "from end of file").

Example status_ex :
  search_status "call failed status=x status=503 body" = Some 503 /\
  _is_letta_permanent_error "Letta error status=404 body=.." = true /\
  _is_letta_transient_server_error "Letta error status=503" = true.
Proof. repeat split; vm_compute; reflexivity. Qed.

(** ** Lemmas *)

Lemma keep_new_In allowed seen l x :
  In x (keep_new allowed seen l) <-> In x l /\ allowed x = true /\ ~ In x seen.
Proof.
  revert seen. induction l as [|y l IH]; intros seen; simpl; [tauto|].
  destruct (allowed y) eqn:Ha; simpl.
  - destruct (mem_str y seen) eqn:Hm.
    + rewrite IH. apply mem_str_In in Hm. naive_solver.
    + simpl. rewrite IH. simpl. apply mem_str_false in Hm.
      destruct (String.string_dec y x); naive_solver.
  - rewrite IH. naive_solver congruence.
Qed.

Lemma keep_new_NoDup allowed seen l : List.NoDup (keep_new allowed seen l).
Proof.
  revert seen. induction l as [|y l IH]; intros seen; simpl; [constructor|].
  destruct (negb (allowed y) || mem_str y seen); [done|]. constructor; [|done].
  rewrite keep_new_In. simpl. tauto.
Qed.

Lemma keep_new_id allowed seen l :
  List.NoDup l -> (forall x, In x l -> allowed x = true /\ ~ In x seen) -> keep_new allowed seen l = l.
Proof.
  revert seen. induction l as [|y l IH]; intros seen Hnd Hall; simpl; [done|].
  apply List.NoDup_cons_iff in Hnd as [Hin Hnd].
  destruct (Hall y) as [Ha Hs]; [by left|]. rewrite Ha. cbn [negb orb].
  rewrite (proj2 (mem_str_false y seen)) by done. f_equal. apply IH; [done|].
  intros x Hx. destruct (Hall x) as [Hax Hsx]; [by right|]. split; [done|].
  intros [->|?]; done.
Qed.

(** A list of clean tokens survives being written as CSV and read back. *)
Definition clean_token (t : string) : bool :=
  truthy t && negb (has_char "," t) && (lower (strip t) =s t) && (strip t =s t).

Lemma lower_csv_join l :
  l <> [] -> forallb clean_token l = true -> _normalize_lower_csv (Some (join "," l)) = l.
Proof.
  intros Hne Hall. rewrite forallb_forall in Hall. unfold _normalize_lower_csv, opt_str.
  rewrite (split_join "," l); [|done|].
  - rewrite filter_all.
    + rewrite <- (List.map_id l) at 2. apply List.map_ext_in. intros t Ht.
      apply Hall in Ht. unfold clean_token in Ht. by blift.
    + intros t Ht. apply Hall in Ht. unfold clean_token in Ht. blift. congruence.
  - apply List.Forall_forall. intros t Ht. apply Hall in Ht. unfold clean_token in Ht. by blift.
Qed.

(** ** Properties *)

(** A normalised target list has no duplicates, names only known fan-out
    targets, contains every known target the raw value names in any case and
    spacing, and reading it back after joining it with commas gives the same
    list. *)
Theorem normalize_fanout_targets_canonical raw :
  let ts := _normalize_fanout_target_csv raw in
  List.NoDup ts /\
  (forall t, In t ts <-> In t (_normalize_lower_csv raw) /\ In t FANOUT_TARGETS) /\
  (ts = [] \/ _normalize_fanout_target_csv (Some (join "," ts)) = ts).
Proof.
  cbn zeta. set (ts := _normalize_fanout_target_csv raw).
  assert (List.NoDup ts) as Hnd by apply keep_new_NoDup.
  assert (forall t, In t ts <-> In t (_normalize_lower_csv raw) /\ In t FANOUT_TARGETS) as Hin.
  { intros t. unfold ts, _normalize_fanout_target_csv. rewrite keep_new_In, mem_str_In.
    simpl. tauto. }
  repeat split; [done|by apply Hin..|by apply Hin|].
  destruct (decide (ts = [])) as [|Hne]; [by left|right].
  unfold _normalize_fanout_target_csv. rewrite lower_csv_join; [|done|].
  - apply keep_new_id; [done|]. intros t Ht. split; [|simpl; tauto].
    apply mem_str_In. by apply Hin.
  - apply forallb_forall. intros t Ht. apply Hin in Ht as [_ Ht].
    assert (forallb clean_token FANOUT_TARGETS = true) as Hc by (vm_compute; reflexivity).
    rewrite forallb_forall in Hc. auto.
Qed.
