(* ===== verification/Outbox.v ===== *)
(** * The durable fan-out outbox, SQLite backend

    Table [fanout_outbox] of the task database and the transactions the
    orchestrator runs on it: [enqueue_fanout_outbox], [claim_fanout_batch],
    [recover_stale_running_jobs], [mark_fanout_success], [mark_fanout_failed],
    [fail_letta_backlog] and [mark_fanout_retry].  The rows are shared with the
    MongoDB backend, whose documents have the same fields and a text key. *)

From S2P Require Import Prelude PyStr PyTime Json Policy.
Open Scope Z_scope.

(** ** Rows *)

Inductive outbox_status := Pending | Retrying | Running | Succeeded | Failed.

#[export] Instance outbox_status_eq_dec : EqDecision outbox_status.
Proof. solve_decision. Defined.

Definition status_str (s : outbox_status) : string :=
  match s with
  | Pending => "pending" | Retrying => "retrying" | Running => "running"
  | Succeeded => "succeeded" | Failed => "failed"
  end.

(** [status IN (...)] *)
Definition status_in (s : outbox_status) (l : list outbox_status) : bool :=
  bool_decide (s ∈ l).

(** Keys of rows: [INTEGER PRIMARY KEY] in SQLite, a text [_id] in MongoDB. *)
Class RowId (I : Type) := {
  id_leb : I -> I -> bool;
  id_eqb : I -> I -> bool;
  id_eqb_spec : forall a b, id_eqb a b = true <-> a = b;
  id_leb_total : forall a b, id_leb a b = true \/ id_leb b a = true;
  id_leb_trans : forall a b c, id_leb a b = true -> id_leb b c = true -> id_leb a c = true;
  id_leb_antisym : forall a b, id_leb a b = true -> id_leb b a = true -> a = b }.

#[export] Instance rowid_Z : RowId Z.
Proof.
  refine {| id_leb := Z.leb; id_eqb := Z.eqb |}; intros; blift; rewrite ?Z.leb_le in *; lia.
Defined.

#[export] Instance rowid_string : RowId string.
Proof.
  refine {| id_leb := str_leb; id_eqb := String.eqb |}; intros.
  - apply String.eqb_eq.
  - apply str_leb_total.
  - by eapply str_leb_trans.
  - by apply str_leb_antisym.
Defined.

Record fanout_row (I : Type) := mkRow {
  oid : I;
  event_id : string; target : string; project : string; file : string;
  summary : string; payload : json; topic_path : string; topic_tags : json;
  status : outbox_status; attempts : Z; max_attempts : Z;
  next_attempt_at : string; last_attempt_at : option string;
  completed_at : option string; last_error : option string;
  created_at : string; updated_at : string; dedupe_key : string }.
Arguments mkRow {I}.
Arguments oid {I}. Arguments event_id {I}. Arguments target {I}. Arguments project {I}.
Arguments file {I}. Arguments summary {I}. Arguments payload {I}. Arguments topic_path {I}.
Arguments topic_tags {I}. Arguments status {I}. Arguments attempts {I}.
Arguments max_attempts {I}. Arguments next_attempt_at {I}. Arguments last_attempt_at {I}.
Arguments completed_at {I}. Arguments last_error {I}. Arguments created_at {I}.
Arguments updated_at {I}. Arguments dedupe_key {I}.

(** Column assignments of the [UPDATE] statements: the content columns, and
    the columns of the delivery state. *)
Definition set_body {I} (summ : string) (pay : json) (tp : string) (tags : json) (r : fanout_row I) : fanout_row I :=
  mkRow (oid r) (event_id r) (target r) (project r) (file r) summ pay tp tags
    (status r) (attempts r) (max_attempts r) (next_attempt_at r) (last_attempt_at r)
    (completed_at r) (last_error r) (created_at r) (updated_at r) (dedupe_key r).

Definition set_job {I} (st : outbox_status) (att mx : Z) (nxt : string) (la ca le : option string) (upd : string)
    (r : fanout_row I) : fanout_row I :=
  mkRow (oid r) (event_id r) (target r) (project r) (file r)
    (summary r) (payload r) (topic_path r) (topic_tags r)
    st att mx nxt la ca le (created_at r) upd (dedupe_key r).

(** [UPDATE t SET u WHERE p] with its row count. *)
Definition update_where {A} (p : A -> bool) (u : A -> A) (rows : list A) : list A * Z :=
  (map (fun r => if p r then u r else r) rows, Z.of_nat (length (List.filter p rows))).

(** ** Configuration *)

Record fanout_config := mkFanoutConfig {
  FANOUT_MAX_ATTEMPTS : Z;
  FANOUT_RETRY_BASE_SECS : Z;      (* microseconds *)
  FANOUT_RETRY_MAX_SECS : Z;       (* microseconds *)
  FANOUT_COALESCE_ENABLED : bool;
  FANOUT_COALESCE_WINDOW_SECS : Z; (* microseconds *)
  FANOUT_COALESCE_TARGETS : list string;
  FANOUT_COALESCE_STALE_TARGETS : list string }.

Definition default_fanout_config : fanout_config := {|
  FANOUT_MAX_ATTEMPTS := 40;
  FANOUT_RETRY_BASE_SECS := 2 * us_per_sec;
  FANOUT_RETRY_MAX_SECS := 900 * us_per_sec;
  FANOUT_COALESCE_ENABLED := true;
  FANOUT_COALESCE_WINDOW_SECS := 6 * us_per_sec;
  FANOUT_COALESCE_TARGETS := ["qdrant"; "mindsdb"; "letta"; "langfuse"];
  FANOUT_COALESCE_STALE_TARGETS := ["letta"] |}.

(** ** The event being enqueued *)

(** The values [enqueue_fanout_outbox] reads from the payload before it opens
    the transaction.  The [payload] and [topic_tags] columns hold the JSON text
    of these values; the model keeps the values themselves. *)
Record event := mkEvent {
  ev_id : string; ev_summary : string; ev_project : string; ev_file : string;
  ev_topic_path : string; ev_topic_tags : json; ev_payload : json }.

(** [uuid] is the value of [uuid.uuid4().hex], used when the payload has no
    event id. *)
Definition event_of_payload (uuid : string) (p : dict) : event := {|
  ev_id := jstr (jor (dget p "event_id") (JStr uuid));
  ev_summary := jstr_or_empty (dget p "summary");
  ev_project := jstr_or_empty (dget p "project");
  ev_file := jstr_or_empty (dget p "file");
  ev_topic_path := jstr_or_empty (dget p "topic_path");
  ev_topic_tags := jor (dget p "topic_tags") (JList []);
  ev_payload := JObj p |}.

(** Counters returned by an enqueue. *)
Record enqueue_counts := mkCounts {
  inserted : Z; requeued : Z; existing : Z; coalesced : Z;
  coalesced_by_target : list (string * Z) }.

Definition zero_counts : enqueue_counts := mkCounts 0 0 0 0 [].

(** [d[k] = int(d.get(k, 0) or 0) + 1] *)
Fixpoint bump (k : string) (d : list (string * Z)) : list (string * Z) :=
  match d with
  | [] => [(k, 1)]
  | (k', n) :: d' => if k =s k' then (k', n + 1) :: d' else (k', n) :: bump k d'
  end.

Section enqueue_common.
Context {I : Type} `{RowId I}.
Variable cfg : fanout_config.

Definition _fanout_coalescer_active_for_target (target_name : string) : bool :=
  if negb (FANOUT_COALESCE_ENABLED cfg) then false
  else if negb (mem_str target_name (FANOUT_COALESCE_TARGETS cfg)) then false
  else (0 <? Z.max 0 (FANOUT_COALESCE_WINDOW_SECS cfg)).

Definition _fanout_coalescer_ignores_window_for_target (target_name : string) : bool :=
  if negb (FANOUT_COALESCE_ENABLED cfg) then false
  else mem_str target_name (FANOUT_COALESCE_STALE_TARGETS cfg).

Definition coalesce_cutoff (now : Z) : string :=
  _utc_iso_from_unix (now - Z.max 0 (FANOUT_COALESCE_WINDOW_SECS cfg)).

(** The [WHERE] clause of the coalescing query. *)
Definition coalesce_matches (now : Z) (ev : event) (tgt : string) (r : fanout_row I) : bool :=
  (target r =s tgt) && (project r =s ev_project ev) && (file r =s ev_file ev)
  && status_in (status r) [Pending; Retrying]
  && (_fanout_coalescer_ignores_window_for_target tgt
      || str_leb (coalesce_cutoff now) (updated_at r)).

(** [ORDER BY updated_at DESC, id DESC] *)
Definition newest_first (a b : fanout_row I) : bool :=
  str_ltb (updated_at b) (updated_at a)
  || ((updated_at a =s updated_at b) && id_leb (oid b) (oid a)).

(** [... LIMIT 1], [fetchone()] *)
Definition coalesce_candidate (now : Z) (ev : event) (tgt : string) (rows : list (fanout_row I)) : option (fanout_row I) :=
  head (sort_by newest_first (List.filter (coalesce_matches now ev tgt) rows)).

(** The guard before the coalescing query. *)
Definition tries_coalesce (force_requeue : bool) (ev : event) (tgt : string) : bool :=
  negb force_requeue && truthy (ev_project ev) && truthy (ev_file ev)
  && _fanout_coalescer_active_for_target tgt.

(** [SET payload, summary, topic_path, topic_tags, next_attempt_at, updated_at] *)
Definition coalesce_row (now : Z) (ev : event) (r : fanout_row I) : fanout_row I :=
  set_job (status r) (attempts r) (max_attempts r) (_utc_now now) (last_attempt_at r)
    (completed_at r) (last_error r) (_utc_now now)
    (set_body (ev_summary ev) (ev_payload ev) (ev_topic_path ev) (ev_topic_tags ev) r).

Definition make_dedupe_key (ev : event) (tgt : string) : string := ev_id ev +:+ ":" +:+ tgt.

(** The forced requeue of an existing row. *)
Definition requeue_row (now : Z) (ev : event) (r : fanout_row I) : fanout_row I :=
  set_job Pending 0 (FANOUT_MAX_ATTEMPTS cfg) (_utc_now now) (last_attempt_at r) None None (_utc_now now)
    (set_body (ev_summary ev) (ev_payload ev) (ev_topic_path ev) (ev_topic_tags ev) r).

(** The inserted row; columns the [INSERT] leaves out are [NULL]. *)
Definition new_row (now : Z) (ev : event) (tgt : string) (key : I) : fanout_row I :=
  mkRow key (ev_id ev) tgt (ev_project ev) (ev_file ev) (ev_summary ev) (ev_payload ev)
    (ev_topic_path ev) (ev_topic_tags ev) Pending 0 (FANOUT_MAX_ATTEMPTS cfg)
    (_utc_now now) None None None (_utc_now now) (_utc_now now) (make_dedupe_key ev tgt).
End enqueue_common.

(** ** SQLite transactions *)

(** [id INTEGER PRIMARY KEY AUTOINCREMENT]: [next_id] is above every key ever
    used. *)
Record sqlite_outbox := mkOutbox { rows : list (fanout_row Z); next_id : Z }.

Definition empty_outbox : sqlite_outbox := mkOutbox [] 1.

Definition with_rows (st : sqlite_outbox) (rs : list (fanout_row Z)) : sqlite_outbox :=
  mkOutbox rs (next_id st).

(** [INSERT]: the [UNIQUE] constraint on [dedupe_key] is enforced. *)
Definition insert_row (mk : Z -> fanout_row Z) (st : sqlite_outbox) : result sqlite_outbox :=
  let r := mk (next_id st) in
  if existsb (fun r' => dedupe_key r' =s dedupe_key r) (rows st)
  then Raise (IntegrityError "UNIQUE constraint failed: fanout_outbox.dedupe_key")
  else Ok (mkOutbox (rows st ++ [r]) (next_id st + 1)).

Section sqlite.
Variable cfg : fanout_config.

(** The coalescing [UPDATE ... WHERE id = ? AND status IN (...)]. *)
Definition coalesce_update (now : Z) (ev : event) (key : Z) (rs : list (fanout_row Z)) : list (fanout_row Z) * Z :=
  update_where (fun r => (oid r =? key) && status_in (status r) [Pending; Retrying])
    (coalesce_row now ev) rs.

(** The part of the loop body after the coalescing attempt. *)
Definition enqueue_dedupe (now : Z) (ev : event) (force_requeue : bool) (tgt : string)
    (st : sqlite_outbox) (c : enqueue_counts) : result (sqlite_outbox * enqueue_counts) :=
  match List.find (fun r => dedupe_key r =s make_dedupe_key ev tgt) (rows st) with
  | Some r =>
      let c := mkCounts (inserted c) (requeued c) (existing c + 1) (coalesced c) (coalesced_by_target c) in
      if force_requeue then
        let rs := fst (update_where (fun r' => oid r' =? oid r) (requeue_row cfg now ev) (rows st)) in
        Ok (with_rows st rs,
            mkCounts (inserted c) (requeued c + 1) (existing c) (coalesced c) (coalesced_by_target c))
      else Ok (st, c)
  | None =>
      let! st' := insert_row (new_row cfg now ev tgt) st in
      Ok (st', mkCounts (inserted c + 1) (requeued c) (existing c) (coalesced c) (coalesced_by_target c))
  end.

(** One iteration of [for target in targets]. *)
Definition enqueue_target (now : Z) (ev : event) (force_requeue : bool) (tgt : string)
    (st : sqlite_outbox) (c : enqueue_counts) : result (sqlite_outbox * enqueue_counts) :=
  let candidate :=
    if tries_coalesce cfg force_requeue ev tgt then coalesce_candidate cfg now ev tgt (rows st) else None in
  match candidate with
  | Some r =>
      let '(rs, n) := coalesce_update now ev (oid r) (rows st) in
      if 0 <? n then
        Ok (with_rows st rs,
            mkCounts (inserted c) (requeued c) (existing c) (coalesced c + 1)
              (bump tgt (coalesced_by_target c)))
      else enqueue_dedupe now ev force_requeue tgt (with_rows st rs) c
  | None => enqueue_dedupe now ev force_requeue tgt st c
  end.

Fixpoint enqueue_targets (now : Z) (ev : event) (force_requeue : bool) (targets : list string)
    (st : sqlite_outbox) (c : enqueue_counts) : result (sqlite_outbox * enqueue_counts) :=
  match targets with
  | [] => Ok (st, c)
  | t :: ts =>
      let! sc := enqueue_target now ev force_requeue t st c in
      enqueue_targets now ev force_requeue ts (fst sc) (snd sc)
  end.

(** [_enqueue(conn)] of [enqueue_fanout_outbox], over the known targets. *)
Definition sqlite_enqueue (now : Z) (ev : event) (targets : list string) (force_requeue : bool)
    (st : sqlite_outbox) : result (sqlite_outbox * enqueue_counts) :=
  enqueue_targets now ev force_requeue
    (List.filter (fun t => mem_str t FANOUT_TARGETS) targets) st zero_counts.
End sqlite.

(** ** Claiming a batch *)

Section claim.
Context {I : Type} `{RowId I}.

(** [if target: target = ? elif exclude_target: target != ?] *)
Definition target_ok (tgt exclude : option string) (r : fanout_row I) : bool :=
  if truthy (opt_str tgt) then target r =s opt_str tgt
  else if truthy (opt_str exclude) then negb (target r =s opt_str exclude)
  else true.

Definition claimable (now : string) (tgt exclude : option string) (r : fanout_row I) : bool :=
  status_in (status r) [Pending; Retrying] && str_leb (next_attempt_at r) now && target_ok tgt exclude r.

(** [ORDER BY next_attempt_at ASC, id ASC] *)
Definition due_first (a b : fanout_row I) : bool :=
  str_ltb (next_attempt_at a) (next_attempt_at b)
  || ((next_attempt_at a =s next_attempt_at b) && id_leb (oid a) (oid b)).

(** [SET status = 'running', attempts = ?, last_attempt_at = ?, updated_at = ?] *)
Definition claim_row (now : string) (att : Z) (r : fanout_row I) : fanout_row I :=
  set_job Running att (max_attempts r) (next_attempt_at r) (Some now) (completed_at r) (last_error r) now r.

Definition select_due (now : string) (limit : nat) (tgt exclude : option string) (rs : list (fanout_row I)) : list (fanout_row I) :=
  firstn limit (sort_by due_first (List.filter (claimable now tgt exclude) rs)).
End claim.

(** [limit = max(1, min(limit, 256))] *)
Definition clamp_limit (limit : Z) : nat := Z.to_nat (Z.max 1 (Z.min limit 256)).

(** The loop over the selected rows: update by key, then read the row back. *)
Fixpoint claim_loop (now : string) (selected : list (fanout_row Z)) (rs claimed : list (fanout_row Z))
  : list (fanout_row Z) * list (fanout_row Z) :=
  match selected with
  | [] => (rs, claimed)
  | row :: selected' =>
      let rs := fst (update_where (fun r => oid r =? oid row) (claim_row now (attempts row + 1)) rs) in
      let claimed := match List.find (fun r => oid r =? oid row) rs with
                     | Some updated => claimed ++ [updated]
                     | None => claimed
                     end in
      claim_loop now selected' rs claimed
  end.

(** [_claim(conn)] of [claim_fanout_batch]. *)
Definition sqlite_claim (now limit : Z) (tgt exclude : option string) (st : sqlite_outbox)
  : sqlite_outbox * list (fanout_row Z) :=
  let now := _utc_now now in
  let '(rs, claimed) := claim_loop now (select_due now (clamp_limit limit) tgt exclude (rows st)) (rows st) [] in
  (with_rows st rs, claimed).

(** ** Marking *)

Section marks.
Context {I : Type} `{RowId I}.
Variable cfg : fanout_config.

Definition success_row (now : string) (r : fanout_row I) : fanout_row I :=
  set_job Succeeded (attempts r) (max_attempts r) (next_attempt_at r) (last_attempt_at r) (Some now) None now r.

Definition failed_row (now error : string) (r : fanout_row I) : fanout_row I :=
  set_job Failed (attempts r) (max_attempts r) now (last_attempt_at r) (Some now) (Some (take 2000 error)) now r.

Definition retry_row (next_status : outbox_status) (next_attempt now error : string) (r : fanout_row I) : fanout_row I :=
  set_job next_status (attempts r) (max_attempts r) next_attempt (last_attempt_at r)
    (if decide (next_status = Failed) then Some now else completed_at r)
    (Some (take 2000 error)) now r.

(** [_backoff_seconds(attempt)] in microseconds; [jitter] is the draw of
    [random.uniform(0, min(1.0, bounded * 0.2))]. *)
Definition backoff_bounded (attempt : Z) : Z :=
  let exp := Z.max 0 (attempt - 1) in
  let base := FANOUT_RETRY_BASE_SECS cfg * 2 ^ exp in
  Z.min base (FANOUT_RETRY_MAX_SECS cfg).

Definition _backoff_seconds (attempt jitter : Z) : Z := backoff_bounded attempt + jitter.

Definition jitter_ok (attempt jitter : Z) : Prop :=
  0 <= jitter /\ jitter <= us_per_sec /\ 5 * jitter <= backoff_bounded attempt.

(** The decision of [mark_fanout_retry]: the next status and due time. *)
Definition retry_decision (now jitter : Z) (job : fanout_row I) : outbox_status * string :=
  let max_att := if max_attempts job =? 0 then FANOUT_MAX_ATTEMPTS cfg else max_attempts job in
  if attempts job <? max_att
  then (Retrying, _utc_iso_from_unix (now + _backoff_seconds (attempts job) jitter))
  else (Failed, _utc_now now).
End marks.

Definition sqlite_mark_success (now : Z) (key : Z) (st : sqlite_outbox) : sqlite_outbox :=
  with_rows st (fst (update_where (fun r => oid r =? key) (success_row (_utc_now now)) (rows st))).

Definition sqlite_mark_failed (now : Z) (key : Z) (error : string) (st : sqlite_outbox) : sqlite_outbox :=
  with_rows st (fst (update_where (fun r => oid r =? key) (failed_row (_utc_now now) error) (rows st))).

Definition letta_open {I} (r : fanout_row I) : bool :=
  (target r =s FANOUT_TARGET_LETTA) && status_in (status r) [Pending; Retrying; Running].

Definition sqlite_fail_letta_backlog (now : Z) (error : string) (st : sqlite_outbox) : sqlite_outbox * Z :=
  let '(rs, n) := update_where letta_open (failed_row (_utc_now now) error) (rows st) in
  (with_rows st rs, n).

Definition sqlite_mark_retry (cfg : fanout_config) (now jitter : Z) (job : fanout_row Z) (error : string)
    (st : sqlite_outbox) : sqlite_outbox * outbox_status :=
  let '(next_status, next_attempt) := retry_decision cfg now jitter job in
  (with_rows st (fst (update_where (fun r => oid r =? oid job)
                        (retry_row next_status next_attempt (_utc_now now) error) (rows st))),
   next_status).

(** ** Recovery of stale running jobs *)

Definition recovered_error : string := "Recovered stale running fanout job after worker restart".

Section recover.
Context {I : Type}.

Definition stale_running (cutoff : string) (r : fanout_row I) : bool :=
  status_in (status r) [Running]
  && match last_attempt_at r with None => true | Some t => str_leb t cutoff end.

(** [last_error IS NULL OR last_error = ''] *)
Definition no_error (r : fanout_row I) : bool :=
  match last_error r with None => true | Some e => e =s "" end.

Definition recover_row (now : string) (r : fanout_row I) : fanout_row I :=
  set_job Retrying (attempts r) (max_attempts r) now (last_attempt_at r) (completed_at r)
    (if no_error r then Some recovered_error else last_error r) now r.
End recover.

Definition stale_cutoff (now max_age_secs : Z) : string :=
  _utc_iso_from_unix (now - Z.max 0 max_age_secs * us_per_sec).

Definition sqlite_recover (now max_age_secs : Z) (st : sqlite_outbox) : sqlite_outbox * Z :=
  let '(rs, n) := update_where (stale_running (stale_cutoff now max_age_secs)) (recover_row (_utc_now now)) (rows st) in
  (with_rows st rs, n).
