(* ===== verification/OutboxFacts.v ===== *)
(** * Correctness of the SQLite outbox

    The table invariant and its preservation by every transaction, the
    behaviour of enqueue and claim, the retry schedule. *)

From S2P Require Import Prelude PyStr PyTime Json Policy Outbox.
From Stdlib Require Import Ascii.
Open Scope Z_scope.

(** ** The invariant *)

(** A row's dedupe key names its event and target, its target is known, and
    its delivery columns agree with its status. *)
Definition row_ok {I} (r : fanout_row I) : Prop :=
  dedupe_key r = event_id r +:+ ":" +:+ target r /\
  In (target r) FANOUT_TARGETS /\
  0 <= attempts r /\
  match status r with
  | Pending => attempts r = 0 /\ completed_at r = None /\ last_error r = None
  | Retrying => True
  | Running => 1 <= attempts r /\ last_attempt_at r = Some (updated_at r)
  | Succeeded => completed_at r = Some (updated_at r) /\ last_error r = None
  | Failed => completed_at r = Some (updated_at r) /\ is_Some (last_error r)
  end.

Definition table_ok {I} (rs : list (fanout_row I)) : Prop :=
  List.NoDup (map oid rs) /\ List.NoDup (map dedupe_key rs) /\ List.Forall row_ok rs.

Definition outbox_ok (st : sqlite_outbox) : Prop :=
  table_ok (rows st) /\ List.Forall (fun r => oid r < next_id st) (rows st).

Lemma status_in_spec s l : status_in s l = true <-> s ∈ l.
Proof. unfold status_in. apply bool_decide_eq_true. Qed.

(** Updates of the code never touch the identifying columns. *)
Definition keeps_key {I} (u : fanout_row I -> fanout_row I) : Prop :=
  forall r, oid (u r) = oid r /\ dedupe_key (u r) = dedupe_key r /\ target (u r) = target r /\
            event_id (u r) = event_id r /\ project (u r) = project r /\ file (u r) = file r.

Create HintDb outbox discriminated.
#[export] Hint Extern 1 (keeps_key _) => intros ?; repeat split; reflexivity : outbox.

Section table.
Context {I : Type} `{RowId I}.
Implicit Types (r : fanout_row I) (rs : list (fanout_row I)).

Lemma id_eqb_refl (a : I) : id_eqb a a = true.
Proof. by apply id_eqb_spec. Qed.

Lemma table_ok_update (p : fanout_row I -> bool) u rs :
  keeps_key u -> (forall r, p r = true -> row_ok r -> row_ok (u r)) ->
  table_ok rs -> table_ok (fst (update_where p u rs)).
Proof.
  intros Hk Hok (Hid & Hdk & Hall). unfold update_where; cbn [fst].
  split; [|split].
  - rewrite map_update_column; [done|apply Hk].
  - rewrite map_update_column; [done|intros r; apply Hk].
  - apply List.Forall_map. eapply List.Forall_impl; [|exact Hall].
    intros r Hr. destruct (p r) eqn:E; auto.
Qed.

Lemma table_ok_filter p rs : table_ok rs -> table_ok (List.filter p rs).
Proof.
  intros (Hid & Hdk & Hall). split; [|split]; [by apply NoDup_map_filter..|].
  rewrite List.Forall_forall in *. intros r [Hr _]%filter_In. auto.
Qed.

Lemma table_ok_row rs r : table_ok rs -> In r rs -> row_ok r.
Proof. intros (_ & _ & Hall). rewrite List.Forall_forall in Hall. auto. Qed.

(** ** Every update of the code keeps rows well formed *)

Lemma coalesce_row_ok now ev r :
  status_in (status r) [Pending; Retrying] = true -> row_ok r -> row_ok (coalesce_row now ev r).
Proof.
  intros Hs%status_in_spec (H1 & H2 & H3 & H4). unfold row_ok, coalesce_row; cbn.
  repeat split; auto. destruct (status r); set_solver.
Qed.

Lemma requeue_row_ok cfg now ev r : row_ok r -> row_ok (requeue_row cfg now ev r).
Proof. intros (H1 & H2 & H3 & H4). unfold row_ok; cbn. repeat split; auto. lia. Qed.

Lemma claim_row_ok now att r : 1 <= att -> row_ok r -> row_ok (claim_row now att r).
Proof. intros Ha (H1 & H2 & H3 & H4). unfold row_ok; cbn. repeat split; auto. lia. Qed.

Lemma success_row_ok now r : row_ok r -> row_ok (success_row now r).
Proof. intros (H1 & H2 & H3 & H4). unfold row_ok; cbn. repeat split; auto. Qed.

Lemma failed_row_ok now e r : row_ok r -> row_ok (failed_row now e r).
Proof. intros (H1 & H2 & H3 & H4). unfold row_ok; cbn. repeat split; eauto. Qed.

Lemma retry_row_ok cfg now jitter (job : fanout_row I) e r :
  let '(s, n) := retry_decision cfg now jitter job in
  row_ok r -> row_ok (retry_row (I:=I) s n (_utc_now now) e r).
Proof.
  unfold retry_decision. destruct (_ <? _); intros (H1 & H2 & H3 & H4);
    unfold row_ok; cbn; repeat split; eauto.
Qed.

Lemma recover_row_ok now r : row_ok r -> row_ok (recover_row now r).
Proof. intros (H1 & H2 & H3 & H4). unfold row_ok; cbn. repeat split; auto. Qed.

Lemma new_row_ok cfg now ev tgt key :
  In tgt FANOUT_TARGETS -> row_ok (new_row (I:=I) cfg now ev tgt key).
Proof. intros Ht. unfold row_ok, new_row; cbn. repeat split; [done|lia]. Qed.
End table.

#[export] Hint Resolve coalesce_row_ok requeue_row_ok claim_row_ok success_row_ok failed_row_ok
  recover_row_ok new_row_ok : outbox.

Lemma keeps_key_retry {I} s n now e : keeps_key (retry_row (I:=I) s n now e).
Proof. intros r. repeat split. Qed.

Lemma outbox_ok_update p u st :
  keeps_key u -> (forall r, p r = true -> row_ok r -> row_ok (u r)) ->
  outbox_ok st -> outbox_ok (with_rows st (fst (update_where p u (rows st)))).
Proof.
  intros Hk Hok [Ht Hid]. split; [by apply table_ok_update|].
  cbn. apply List.Forall_map. eapply List.Forall_impl; [|exact Hid].
  intros r Hr. destruct (p r); [|done]. by rewrite (proj1 (Hk r)).
Qed.

Lemma outbox_ok_filter p st : outbox_ok st -> outbox_ok (with_rows st (List.filter p (rows st))).
Proof.
  intros [Ht Hid]. split; [by apply table_ok_filter|].
  cbn. rewrite List.Forall_forall in *. intros r [Hr _]%filter_In. auto.
Qed.

(** ** Enqueue *)

Lemma find_none_existsb {A} (p : A -> bool) l : List.find p l = None -> existsb p l = false.
Proof.
  intros Hf. apply existsb_false_iff. intros x Hx. by eapply List.find_none in Hf.
Qed.

(** The [INSERT] of an enqueue is only reached when its key is free. *)
Lemma insert_row_fresh cfg now ev tgt st :
  List.find (fun r => dedupe_key r =s make_dedupe_key ev tgt) (rows st) = None ->
  insert_row (new_row cfg now ev tgt) st =
    Ok (mkOutbox (rows st ++ [new_row cfg now ev tgt (next_id st)]) (next_id st + 1)).
Proof.
  intros Hf. unfold insert_row. cbn [dedupe_key new_row].
  by rewrite (find_none_existsb _ _ Hf).
Qed.

Lemma outbox_ok_insert cfg now ev tgt st :
  In tgt FANOUT_TARGETS ->
  List.find (fun r => dedupe_key r =s make_dedupe_key ev tgt) (rows st) = None ->
  outbox_ok st ->
  outbox_ok (mkOutbox (rows st ++ [new_row cfg now ev tgt (next_id st)]) (next_id st + 1)).
Proof.
  intros Ht Hf [(Hid & Hdk & Hall) Hlt]. rewrite List.Forall_forall in Hlt.
  assert (forall B (g : fanout_row Z -> B) x, List.NoDup (map g (rows st)) ->
    ~ In (g x) (map g (rows st)) -> List.NoDup (map g (rows st ++ [x]))) as Happ.
  { intros B g x Hnd Hnin. rewrite map_app. apply (Permutation_NoDup (Permutation_cons_append _ _)).
    by constructor. }
  repeat split; cbn [rows next_id].
  - apply Happ; [done|]. intros (r & Hr & Hin)%in_map_iff. apply Hlt in Hin. cbn in Hr. lia.
  - apply Happ; [done|]. intros (r & Hr & Hin)%in_map_iff.
    pose proof (find_none_existsb _ _ Hf) as He. rewrite existsb_false_iff in He.
    specialize (He r Hin). blift. cbn in Hr. congruence.
  - apply List.Forall_app. split; [done|]. constructor; [by apply new_row_ok|constructor].
  - apply List.Forall_app. split; [|constructor; [cbn; lia|constructor]].
    apply List.Forall_forall. intros r Hr. apply Hlt in Hr. lia.
Qed.

Lemma enqueue_dedupe_ok cfg now ev force tgt st c :
  In tgt FANOUT_TARGETS -> outbox_ok st ->
  exists st' c', enqueue_dedupe cfg now ev force tgt st c = Ok (st', c') /\ outbox_ok st'.
Proof.
  intros Ht Hok. unfold enqueue_dedupe.
  destruct (List.find _ _) as [r|] eqn:Hf.
  - destruct force; [|by eauto]. do 2 eexists. split; [done|].
    apply outbox_ok_update; eauto with outbox.
  - rewrite insert_row_fresh by done. do 2 eexists. split; [done|]. by apply outbox_ok_insert.
Qed.

Lemma enqueue_target_ok cfg now ev force tgt st c :
  In tgt FANOUT_TARGETS -> outbox_ok st ->
  exists st' c', enqueue_target cfg now ev force tgt st c = Ok (st', c') /\ outbox_ok st'.
Proof.
  intros Ht Hok. unfold enqueue_target.
  destruct (if tries_coalesce cfg force ev tgt then _ else None) as [r|]; [|by apply enqueue_dedupe_ok].
  unfold coalesce_update, update_where.
  assert (outbox_ok (with_rows st (map (fun r0 =>
    if (oid r0 =? oid r) && status_in (status r0) [Pending; Retrying]
    then coalesce_row now ev r0 else r0) (rows st)))) as Hok'.
  { apply (outbox_ok_update _ (coalesce_row now ev)); auto with outbox.
    intros r0 Hp Hr0. blift. by apply coalesce_row_ok. }
  destruct (0 <? _); [by eauto|]. by apply enqueue_dedupe_ok.
Qed.

Lemma enqueue_targets_ok cfg now ev force ts st c :
  (forall t, In t ts -> In t FANOUT_TARGETS) -> outbox_ok st ->
  exists st' c', enqueue_targets cfg now ev force ts st c = Ok (st', c') /\ outbox_ok st'.
Proof.
  revert st c. induction ts as [|t ts IH]; intros st c Hts Hok; [by eauto|].
  cbn [enqueue_targets].
  destruct (enqueue_target_ok cfg now ev force t st c) as (st1 & c1 & -> & Hok1);
    [apply Hts; by left|done|].
  cbn [rbind fst snd]. apply IH; [|done]. intros; apply Hts; by right.
Qed.

Lemma known_targets ts t : In t (List.filter (fun t => mem_str t FANOUT_TARGETS) ts) -> In t FANOUT_TARGETS.
Proof. by intros [_ ?%mem_str_In]%filter_In. Qed.

Lemma sqlite_enqueue_ok cfg now ev ts force st :
  outbox_ok st -> exists st' c, sqlite_enqueue cfg now ev ts force st = Ok (st', c) /\ outbox_ok st'.
Proof. intros Hok. apply enqueue_targets_ok; [apply known_targets|done]. Qed.

(** ** Claim *)

Section due_order.
Context {I : Type} `{RowId I}.

Lemma due_first_total (a b : fanout_row I) : due_first a b = true \/ due_first b a = true.
Proof.
  unfold due_first. rewrite !str_ltb_leb.
  destruct (String.eqb_spec (next_attempt_at a) (next_attempt_at b)) as [E|E].
  - rewrite E, String.eqb_refl, str_leb_refl. simpl. apply id_leb_total.
  - destruct (str_leb (next_attempt_at b) (next_attempt_at a)) eqn:E1; [|by left].
    destruct (str_leb (next_attempt_at a) (next_attempt_at b)) eqn:E2; [|by right].
    destruct E. by apply str_leb_antisym.
Qed.

Lemma due_first_leb (a b : fanout_row I) :
  due_first a b = true -> str_leb (next_attempt_at a) (next_attempt_at b) = true.
Proof.
  unfold due_first. rewrite str_ltb_leb, orb_true_iff, andb_true_iff, negb_true_iff.
  intros [E|[E _]].
  - destruct (str_leb_total (next_attempt_at a) (next_attempt_at b)); congruence.
  - apply String.eqb_eq in E as ->. apply str_leb_refl.
Qed.

Lemma due_first_trans (a b c : fanout_row I) :
  due_first a b = true -> due_first b c = true -> due_first a c = true.
Proof.
  intros Hab Hbc. pose proof (due_first_leb _ _ Hab) as L1. pose proof (due_first_leb _ _ Hbc) as L2.
  pose proof (str_leb_trans _ _ _ L1 L2) as L3. unfold due_first in *. rewrite !str_ltb_leb in *.
  destruct (str_leb (next_attempt_at c) (next_attempt_at a)) eqn:E; [|done]. cbn [negb orb].
  assert (next_attempt_at a = next_attempt_at c) as Eac by (by apply str_leb_antisym).
  assert (next_attempt_at a = next_attempt_at b) as Eab.
  { apply str_leb_antisym; [done|]. eapply str_leb_trans; [exact L2|]. by rewrite Eac, str_leb_refl. }
  assert (next_attempt_at b = next_attempt_at c) as Ebc by congruence.
  rewrite Eab, str_leb_refl, String.eqb_refl in Hab. rewrite Ebc, str_leb_refl, String.eqb_refl in Hbc.
  rewrite Eac, String.eqb_refl. cbn in *. eapply id_leb_trans; eassumption.
Qed.

Lemma newest_first_leb (a b : fanout_row I) :
  newest_first a b = true -> str_leb (updated_at b) (updated_at a) = true.
Proof.
  unfold newest_first. rewrite str_ltb_leb, orb_true_iff, andb_true_iff, negb_true_iff.
  intros [E|[E _]].
  - destruct (str_leb_total (updated_at b) (updated_at a)); congruence.
  - apply String.eqb_eq in E as ->. apply str_leb_refl.
Qed.
End due_order.

Lemma update_where_In {A} (p : A -> bool) u l x :
  In x l -> In (if p x then u x else x) (fst (update_where p u l)).
Proof. intros Hx. unfold update_where; cbn. by apply (in_map (fun r => if p r then u r else r)). Qed.

Lemma find_by_oid rs r :
  List.NoDup (map oid rs) -> In r rs -> List.find (fun r' => oid r' =? oid r) rs = Some r.
Proof.
  intros Hnd Hin. destruct (List.find _ rs) as [r'|] eqn:Hf.
  - apply List.find_some in Hf as [Hin' E]. blift. f_equal. by eapply In_NoDup_inj.
  - eapply List.find_none in Hf; [|exact Hin]. blift. done.
Qed.

(** The loop over the selected rows claims exactly those rows, each with one
    more attempt, and returns them in the order of selection. *)
Lemma claim_loop_spec now selected rs claimed :
  List.NoDup (map oid rs) -> List.NoDup (map oid selected) -> incl selected rs ->
  claim_loop now selected rs claimed =
    (map (fun r => if existsb (fun s => oid r =? oid s) selected
                   then claim_row now (attempts r + 1) r else r) rs,
     claimed ++ map (fun r => claim_row now (attempts r + 1) r) selected).
Proof.
  revert rs claimed. induction selected as [|row sel IH]; intros rs claimed Hnd Hns Hincl.
  { cbn. rewrite app_nil_r. f_equal. by rewrite List.map_id. }
  cbn [map] in Hns. apply List.NoDup_cons_iff in Hns as [Hrow Hns].
  assert (In row rs) as Hin by (apply Hincl; by left).
  cbn [claim_loop]. set (p := fun r : fanout_row Z => oid r =? oid row).
  set (u := claim_row now (attempts row + 1)).
  set (rs1 := fst (update_where p u rs)).
  assert (List.NoDup (map oid rs1)) as Hnd1.
  { unfold rs1, update_where; cbn. rewrite map_update_column; done. }
  assert (In (u row) rs1) as Hu.
  { pose proof (update_where_In p u rs row Hin) as Hu. unfold p in Hu at 1.
    by rewrite Z.eqb_refl in Hu. }
  assert (List.find p rs1 = Some (u row)) as -> by (by apply (find_by_oid rs1 (u row))).
  rewrite IH; [|done|done|].
  - f_equal.
    + unfold rs1, update_where; cbn [fst]. rewrite List.map_map. apply List.map_ext_in. intros r Hr.
      unfold p. destruct (Z.eqb_spec (oid r) (oid row)) as [E|E].
      * assert (r = row) as -> by (by apply (In_NoDup_inj oid rs)). cbn [existsb].
        rewrite Z.eqb_refl. cbn [orb].
        replace (existsb (fun s => oid (u row) =? oid s) sel) with false; [done|].
        symmetry. apply existsb_false_iff. intros s Hs. apply Z.eqb_neq. intros E'.
        apply Hrow, in_map_iff. exists s. split; [by rewrite <- E'|done].
      * cbn [existsb]. by rewrite (proj2 (Z.eqb_neq _ _) E).
    + by rewrite <- app_assoc.
  - intros s Hs. assert (In s rs) as Hsr by (apply Hincl; by right).
    pose proof (update_where_In p u rs s Hsr) as H. unfold p in H at 1.
    destruct (Z.eqb_spec (oid s) (oid row)) as [E|E]; [|done].
    destruct Hrow. rewrite <- E. by apply in_map.
Qed.

Lemma select_due_NoDup {I} `{RowId I} now n tgt ex (rs : list (fanout_row I)) :
  List.NoDup (map oid rs) -> List.NoDup (map oid (select_due now n tgt ex rs)).
Proof. intros. by apply NoDup_map_firstn, NoDup_map_sort, NoDup_map_filter. Qed.

Lemma select_due_In {I} `{RowId I} now n tgt ex (rs : list (fanout_row I)) r :
  In r (select_due now n tgt ex rs) -> In r rs /\ claimable now tgt ex r = true.
Proof. unfold select_due. intros Hr%In_firstn. by rewrite sort_by_In, filter_In in Hr. Qed.

Lemma sqlite_claim_spec now limit tgt ex st :
  outbox_ok st ->
  let sel := select_due (_utc_now now) (clamp_limit limit) tgt ex (rows st) in
  sqlite_claim now limit tgt ex st =
    (with_rows st (map (fun r => if existsb (fun s => oid r =? oid s) sel
                                 then claim_row (_utc_now now) (attempts r + 1) r else r) (rows st)),
     map (fun r => claim_row (_utc_now now) (attempts r + 1) r) sel).
Proof.
  intros [(Hid & _ & _) _]. cbn zeta. unfold sqlite_claim.
  rewrite claim_loop_spec; [done|done|by apply select_due_NoDup|].
  intros r Hr%select_due_In. tauto.
Qed.

Lemma sqlite_claim_ok now limit tgt ex st :
  outbox_ok st -> outbox_ok (fst (sqlite_claim now limit tgt ex st)).
Proof.
  intros Hok. rewrite sqlite_claim_spec by done. cbn [fst].
  destruct Hok as [(Hid & Hdk & Hall) Hlt].
  assert (forall B (g : fanout_row Z -> B) sel, (forall r, g (claim_row (_utc_now now) (attempts r + 1) r) = g r) ->
    map g (map (fun r => if existsb (fun s => oid r =? oid s) sel
                    then claim_row (_utc_now now) (attempts r + 1) r else r) (rows st)) = map g (rows st)) as Hg.
  { intros B g sel Hg. rewrite List.map_map. apply List.map_ext. intros r. by case_match. }
  repeat split; cbn.
  - by rewrite Hg.
  - by rewrite Hg.
  - apply List.Forall_map. eapply List.Forall_impl; [|exact Hall]. intros r Hr.
    case_match; [|done]. apply claim_row_ok; [|done]. destruct Hr as (_ & _ & ? & _). lia.
  - apply List.Forall_map. eapply List.Forall_impl; [|exact Hlt]. intros r Hr. by case_match.
Qed.

(** ** Reachable states *)

(** The transactions that change the table.  [step_retry] takes the job as the
    worker claimed it, which may be out of date; [step_delete] covers the
    garbage collector and the prune. *)
Inductive outbox_step (cfg : fanout_config) : sqlite_outbox -> sqlite_outbox -> Prop :=
| step_enqueue now ev ts force st st' c :
    sqlite_enqueue cfg now ev ts force st = Ok (st', c) -> outbox_step cfg st st'
| step_claim now limit tgt ex st : outbox_step cfg st (fst (sqlite_claim now limit tgt ex st))
| step_recover now age st : outbox_step cfg st (fst (sqlite_recover now age st))
| step_success now key st : outbox_step cfg st (sqlite_mark_success now key st)
| step_failed now key e st : outbox_step cfg st (sqlite_mark_failed now key e st)
| step_fail_letta now e st : outbox_step cfg st (fst (sqlite_fail_letta_backlog now e st))
| step_retry now jitter job e st : outbox_step cfg st (fst (sqlite_mark_retry cfg now jitter job e st))
| step_delete keep st : outbox_step cfg st (with_rows st (List.filter keep (rows st))).

Inductive outbox_reachable (cfg : fanout_config) : sqlite_outbox -> Prop :=
| reach_init : outbox_reachable cfg empty_outbox
| reach_step st st' : outbox_reachable cfg st -> outbox_step cfg st st' -> outbox_reachable cfg st'.

Lemma sqlite_mark_retry_ok cfg now jitter job e st :
  outbox_ok st -> outbox_ok (fst (sqlite_mark_retry cfg now jitter job e st)).
Proof.
  intros Hok. unfold sqlite_mark_retry.
  destruct (retry_decision cfg now jitter job) as [s n] eqn:E. cbn [fst].
  apply outbox_ok_update; [apply keeps_key_retry| |done].
  intros r _ Hr. pose proof (retry_row_ok cfg now jitter job e r) as H. rewrite E in H. auto.
Qed.

Lemma outbox_step_ok cfg st st' : outbox_step cfg st st' -> outbox_ok st -> outbox_ok st'.
Proof.
  intros Hs Hok. destruct Hs.
  - destruct (sqlite_enqueue_ok cfg now ev ts force st Hok) as (? & ? & E & ?). congruence.
  - by apply sqlite_claim_ok.
  - unfold sqlite_recover. apply outbox_ok_update; eauto with outbox.
  - apply outbox_ok_update; eauto with outbox.
  - apply outbox_ok_update; eauto with outbox.
  - unfold sqlite_fail_letta_backlog. apply outbox_ok_update; eauto with outbox.
  - by apply sqlite_mark_retry_ok.
  - by apply outbox_ok_filter.
Qed.

Lemma empty_outbox_ok : outbox_ok empty_outbox.
Proof. repeat split; constructor. Qed.

Lemma reachable_ok cfg st : outbox_reachable cfg st -> outbox_ok st.
Proof. induction 1; [apply empty_outbox_ok|by eapply outbox_step_ok]. Qed.

(** ** What an enqueue leaves behind *)

Lemma split_app_sep_gen c a t : split c (a +:+ String c t) = split c a ++ split c t.
Proof.
  induction a as [|x a IH].
  - change (split c (String c t) = "" :: split c t). cbn [split]. by rewrite Ascii.eqb_refl.
  - rewrite append_cons. cbn [split]. rewrite IH. pose proof (split_not_nil c a).
    destruct (Ascii.eqb x c); [done|]. by destruct (split c a).
Qed.

Lemma last_split_sep c a t d : has_char c t = false -> List.last (split c (a +:+ String c t)) d = t.
Proof. intros Ht. rewrite split_app_sep_gen, (split_nosep c t) by done. apply List.last_last. Qed.

(** Equal dedupe keys name the same target: no target contains a colon. *)
Lemma dedupe_key_target a b t u :
  In t FANOUT_TARGETS -> In u FANOUT_TARGETS -> a +:+ ":" +:+ t = b +:+ ":" +:+ u -> t = u.
Proof.
  assert (forall t, In t FANOUT_TARGETS -> has_char ":"%char t = false) as Hc.
  { intros v Hv. cbn in Hv. by repeat destruct Hv as [<-|Hv]. }
  intros Ht Hu E. apply (f_equal (fun s => List.last (split ":" s) "")) in E.
  change (":" +:+ t) with (String ":"%char t) in E. change (":" +:+ u) with (String ":"%char u) in E.
  rewrite !last_split_sep in E; auto.
Qed.

(** Row [r] will deliver the event to target [t]: it is the event's own row, or
    a waiting row of the same project and file whose content the coalescer has
    replaced by the event's.  [Q] is what is known of its times. *)
Definition carries (cfg : fanout_config) (ev : event) (force : bool) (Q : fanout_row Z -> Prop)
    (t : string) (r : fanout_row Z) : Prop :=
  target r = t /\
  (dedupe_key r = make_dedupe_key ev t \/
   (tries_coalesce cfg force ev t = true /\ project r = ev_project ev /\ file r = ev_file ev /\
    payload r = ev_payload ev /\ status_in (status r) [Pending; Retrying] = true /\ Q r)).

Section carries.
Variables (cfg : fanout_config) (now : Z) (ev : event) (force : bool) (Q : fanout_row Z -> Prop).
Hypothesis Qcoalesce : forall r, Q (coalesce_row now ev r).
Hypothesis Qrequeue : forall r, Q (requeue_row cfg now ev r).

Lemma carries_coalesce t r :
  status_in (status r) [Pending; Retrying] = true ->
  carries cfg ev force Q t r -> carries cfg ev force Q t (coalesce_row now ev r).
Proof. intros Hs [Ht [Hd|(H1 & H2 & H3 & H4 & H5 & H6)]]; split; cbn; auto 10. Qed.

Lemma carries_requeue t r :
  carries cfg ev force Q t r -> carries cfg ev force Q t (requeue_row cfg now ev r).
Proof. intros [Ht [Hd|(H1 & H2 & H3 & H4 & H5 & H6)]]; split; cbn; auto 10. Qed.

Lemma enqueue_dedupe_keeps tgt st c st' c' t r :
  enqueue_dedupe cfg now ev force tgt st c = Ok (st', c') ->
  In r (rows st) -> carries cfg ev force Q t r ->
  exists r', In r' (rows st') /\ carries cfg ev force Q t r'.
Proof.
  unfold enqueue_dedupe. intros E Hin Hc. destruct (List.find _ _) as [r0|] eqn:Hf.
  - destruct force eqn:Hfo; injection E as <- <-; [|by eauto].
    eexists. split; [by apply update_where_In|]. case_match; [|done].
    rewrite <- Hfo in *. by apply carries_requeue.
  - rewrite insert_row_fresh in E by done. injection E as <- <-. exists r. split; [|done].
    cbn. apply in_or_app. by left.
Qed.

Lemma coalesce_update_keeps key st rs n t r :
  coalesce_update now ev key (rows st) = (rs, n) -> In r (rows st) -> carries cfg ev force Q t r ->
  exists r', In r' rs /\ carries cfg ev force Q t r'.
Proof.
  unfold coalesce_update. intros E Hin Hc.
  assert (rs = fst (update_where (fun r => (oid r =? key) && status_in (status r) [Pending; Retrying])
    (coalesce_row now ev) (rows st))) as -> by (by rewrite E).
  eexists. split; [by apply update_where_In|]. case_match eqn:Hp; [|done].
  blift. by apply carries_coalesce.
Qed.

Lemma enqueue_target_keeps tgt st c st' c' t r :
  enqueue_target cfg now ev force tgt st c = Ok (st', c') ->
  In r (rows st) -> carries cfg ev force Q t r ->
  exists r', In r' (rows st') /\ carries cfg ev force Q t r'.
Proof.
  unfold enqueue_target. intros E Hin Hc.
  destruct (if tries_coalesce cfg force ev tgt then _ else None) as [r0|];
    [|by eapply enqueue_dedupe_keeps].
  destruct (coalesce_update now ev (oid r0) (rows st)) as [rs n] eqn:Hu.
  destruct (coalesce_update_keeps _ _ _ _ _ _ Hu Hin Hc) as (r' & Hr' & Hc').
  destruct (0 <? n).
  - injection E as <- <-. by eauto.
  - by eapply (enqueue_dedupe_keeps tgt (with_rows st rs)).
Qed.

Lemma candidate_spec tgt (rs : list (fanout_row Z)) r :
  coalesce_candidate cfg now ev tgt rs = Some r ->
  In r rs /\ coalesce_matches cfg now ev tgt r = true.
Proof.
  unfold coalesce_candidate. intros Hh.
  assert (In r (sort_by newest_first (List.filter (coalesce_matches cfg now ev tgt) rs))) as Hin.
  { destruct (sort_by _ _); [done|]. injection Hh as ->. by left. }
  by rewrite sort_by_In, filter_In in Hin.
Qed.

Lemma candidate_none tgt (rs : list (fanout_row Z)) r :
  coalesce_candidate cfg now ev tgt rs = None -> In r rs -> coalesce_matches cfg now ev tgt r = false.
Proof.
  unfold coalesce_candidate. intros Hh Hin.
  destruct (coalesce_matches cfg now ev tgt r) eqn:Hm; [|done].
  assert (In r (sort_by newest_first (List.filter (coalesce_matches cfg now ev tgt) rs))) as Hs
    by (by rewrite sort_by_In, filter_In).
  by destruct (sort_by _ _).
Qed.

(** The coalescing [UPDATE] always finds its candidate again. *)
Lemma coalesce_update_pos tgt rs r rs' n :
  coalesce_candidate cfg now ev tgt rs = Some r ->
  coalesce_update now ev (oid r) rs = (rs', n) -> (0 <? n) = true.
Proof.
  intros [Hin Hm]%candidate_spec [= <- <-]. apply Z.ltb_lt.
  assert (In r (List.filter (fun r0 => (oid r0 =? oid r) && status_in (status r0) [Pending; Retrying]) rs)) as Hf.
  { apply filter_In. split; [done|]. unfold coalesce_matches in Hm. blift.
    rewrite Z.eqb_refl. done. }
  destruct (List.filter _ rs); cbn; [done|lia].
Qed.

Lemma enqueue_dedupe_carries tgt st c st' c' :
  outbox_ok st -> In tgt FANOUT_TARGETS ->
  enqueue_dedupe cfg now ev force tgt st c = Ok (st', c') ->
  exists r, In r (rows st') /\ carries cfg ev force Q tgt r.
Proof.
  intros Hok Ht E. pose proof E as E'. unfold enqueue_dedupe in E.
  destruct (List.find _ _) as [r0|] eqn:Hf.
  - apply List.find_some in Hf as [Hin Hd]. blift.
    eapply enqueue_dedupe_keeps; [exact E'|exact Hin|]. split; [|by left].
    destruct Hok as [Htab _]. destruct (table_ok_row _ _ Htab Hin) as (Hdk & Hkt & _).
    eapply dedupe_key_target; [done|exact Ht|]. by rewrite <- Hdk, Hd.
  - rewrite insert_row_fresh in E by done. injection E as <- <-. cbn.
    eexists. split; [apply in_or_app; right; by left|]. split; [done|by left].
Qed.

Lemma enqueue_target_carries tgt st c st' c' :
  outbox_ok st -> In tgt FANOUT_TARGETS ->
  enqueue_target cfg now ev force tgt st c = Ok (st', c') ->
  exists r, In r (rows st') /\ carries cfg ev force Q tgt r.
Proof.
  intros Hok Ht E. unfold enqueue_target in E.
  destruct (tries_coalesce cfg force ev tgt) eqn:Htc; [|by eapply enqueue_dedupe_carries].
  destruct (coalesce_candidate cfg now ev tgt (rows st)) as [r0|] eqn:Hcand;
    [|by eapply enqueue_dedupe_carries].
  destruct (coalesce_update now ev (oid r0) (rows st)) as [rs n] eqn:Hu.
  rewrite (coalesce_update_pos _ _ _ _ _ Hcand Hu) in E. injection E as <- <-.
  apply candidate_spec in Hcand as [Hin Hm]. unfold coalesce_matches in Hm. blift.
  unfold coalesce_update in Hu. injection Hu as <- _. cbn [rows with_rows].
  exists (coalesce_row now ev r0). split.
  - apply in_map_iff. exists r0. split; [|done]. rewrite Z.eqb_refl. by replace (status_in _ _) with true by congruence.
  - split; [done|right]. cbn. by auto 10.
Qed.

Lemma enqueue_targets_carries ts st c st' c' :
  outbox_ok st -> (forall t, In t ts -> In t FANOUT_TARGETS) ->
  enqueue_targets cfg now ev force ts st c = Ok (st', c') ->
  (forall t r, In r (rows st) -> carries cfg ev force Q t r ->
     exists r', In r' (rows st') /\ carries cfg ev force Q t r') /\
  (forall t, In t ts -> exists r, In r (rows st') /\ carries cfg ev force Q t r).
Proof.
  revert st c. induction ts as [|t ts IH]; intros st c Hok Hts E; cbn [enqueue_targets] in E.
  { injection E as <- <-. split; [by eauto|done]. }
  destruct (enqueue_target_ok cfg now ev force t st c) as (st1 & c1 & E1 & Hok1);
    [apply Hts; by left|done|].
  rewrite E1 in E. cbn [rbind fst snd] in E.
  destruct (IH st1 c1) as [Hkeep Hall]; [done|intros; apply Hts; by right|done|].
  split.
  - intros t' r Hin Hc. destruct (enqueue_target_keeps _ _ _ _ _ _ _ E1 Hin Hc) as (r1 & ? & ?).
    by eapply Hkeep.
  - intros t' [->|Ht']; [|auto].
    destruct (enqueue_target_carries _ _ _ _ _ Hok (Hts t' (or_introl eq_refl)) E1) as (r1 & ? & ?).
    by eapply Hkeep.
Qed.
End carries.

(** ** Accounting *)

Definition total_by_target (d : list (string * Z)) : Z := foldr (fun kv acc => snd kv + acc) 0 d.
Arguments total_by_target : simpl never.

Lemma bump_total k d : total_by_target (bump k d) = total_by_target d + 1.
Proof.
  unfold total_by_target. induction d as [|[k' n] d IH]; cbn [bump]; [done|].
  destruct (k =s k'); cbn in *; lia.
Qed.

(** What one iteration adds to the counters and to the table. *)
Definition counted (force : bool) (st st' : sqlite_outbox) (c c' : enqueue_counts) (n : Z) : Prop :=
  inserted c' + existing c' + coalesced c' = inserted c + existing c + coalesced c + n /\
  Z.of_nat (length (rows st')) = Z.of_nat (length (rows st)) + (inserted c' - inserted c) /\
  inserted c <= inserted c' /\
  requeued c' - requeued c = (if force then existing c' - existing c else 0) /\
  total_by_target (coalesced_by_target c') - total_by_target (coalesced_by_target c) = coalesced c' - coalesced c.

Lemma enqueue_dedupe_counts cfg now ev force tgt st c st' c' :
  enqueue_dedupe cfg now ev force tgt st c = Ok (st', c') -> counted force st st' c c' 1.
Proof.
  unfold enqueue_dedupe, counted. intros E. destruct (List.find _ _) eqn:Hf.
  - destruct force; injection E as <- <-; cbn; rewrite ?length_map; lia.
  - rewrite insert_row_fresh in E by done. injection E as <- <-. cbn.
    rewrite length_app. cbn. destruct force; lia.
Qed.

Lemma enqueue_target_counts cfg now ev force tgt st c st' c' :
  enqueue_target cfg now ev force tgt st c = Ok (st', c') -> counted force st st' c c' 1.
Proof.
  unfold enqueue_target. intros E.
  destruct (if tries_coalesce cfg force ev tgt then _ else None) as [r|];
    [|by eapply enqueue_dedupe_counts].
  destruct (coalesce_update now ev (oid r) (rows st)) as [rs n] eqn:Hu.
  assert (length rs = length (rows st)) as Hl.
  { unfold coalesce_update, update_where in Hu. injection Hu as <- _. by rewrite length_map. }
  destruct (0 <? n).
  - injection E as <- <-. unfold counted; cbn. rewrite bump_total, Hl. destruct force; lia.
  - apply enqueue_dedupe_counts in E. unfold counted in *. cbn in E. rewrite Hl in E. done.
Qed.

Lemma enqueue_targets_counts cfg now ev force ts st c st' c' :
  enqueue_targets cfg now ev force ts st c = Ok (st', c') ->
  counted force st st' c c' (Z.of_nat (length ts)).
Proof.
  revert st c. induction ts as [|t ts IH]; intros st c E; cbn [enqueue_targets] in E.
  - injection E as <- <-. unfold counted; cbn. destruct force; lia.
  - destruct (enqueue_target cfg now ev force t st c) as [[st1 c1]|] eqn:E1; [|done].
    apply enqueue_target_counts in E1. cbn in E. apply IH in E.
    unfold counted in *. cbn [length]. destruct force; lia.
Qed.

(** An iteration inserts nothing for a target that is already carried. *)
Lemma enqueue_target_carried cfg now ev tgt st c st' c' r :
  enqueue_target cfg now ev false tgt st c = Ok (st', c') ->
  In r (rows st) ->
  carries cfg ev false (fun r => str_leb (coalesce_cutoff cfg now) (updated_at r) = true) tgt r ->
  inserted c' = inserted c.
Proof.
  intros E Hin [Ht Hc]. unfold enqueue_target in E.
  assert (forall st1 c1, enqueue_dedupe cfg now ev false tgt st c = Ok (st1, c1) ->
            dedupe_key r = make_dedupe_key ev tgt -> inserted c1 = inserted c) as Hdd.
  { intros st1 c1 E1 Hd. unfold enqueue_dedupe in E1. destruct (List.find _ _) eqn:Hf.
    - by injection E1 as <- <-.
    - eapply List.find_none in Hf; [|exact Hin]. blift. congruence. }
  destruct (tries_coalesce cfg false ev tgt) eqn:Htc.
  - destruct (coalesce_candidate cfg now ev tgt (rows st)) as [r0|] eqn:Hcand.
    + destruct (coalesce_update now ev (oid r0) (rows st)) as [rs n] eqn:Hu.
      rewrite (coalesce_update_pos _ _ _ _ _ _ _ _ Hcand Hu) in E. by injection E as <- <-.
    + destruct Hc as [Hd|(_ & Hp & Hf & _ & Hs & Hq)]; [by eapply Hdd|].
      pose proof (candidate_none _ _ _ _ _ r Hcand Hin) as Hm.
      unfold coalesce_matches in Hm. rewrite Ht, Hp, Hf, !String.eqb_refl, Hs, Hq, orb_true_r in Hm. done.
  - destruct Hc as [Hd|(? & _)]; [by eapply Hdd|congruence].
Qed.

Lemma enqueue_targets_carried cfg now ev ts st c st' c' :
  outbox_ok st -> (forall t, In t ts -> In t FANOUT_TARGETS) ->
  str_leb (coalesce_cutoff cfg now) (_utc_now now) = true ->
  (forall t, In t ts -> exists r, In r (rows st) /\
     carries cfg ev false (fun r => str_leb (coalesce_cutoff cfg now) (updated_at r) = true) t r) ->
  enqueue_targets cfg now ev false ts st c = Ok (st', c') -> inserted c' = inserted c.
Proof.
  intros Hok Hts Hcut. revert st c Hok.
  induction ts as [|t ts IH]; intros st c Hok Hall E; cbn [enqueue_targets] in E.
  { by injection E as <- <-. }
  destruct (enqueue_target_ok cfg now ev false t st c) as (st1 & c1 & E1 & Hok1);
    [apply Hts; by left|done|].
  rewrite E1 in E. cbn [rbind fst snd] in E.
  destruct (Hall t) as (r & Hr & Hc); [by left|].
  rewrite <- (enqueue_target_carried _ _ _ _ _ _ _ _ _ E1 Hr Hc).
  eapply IH; [intros; apply Hts; by right|done| |done].
  intros t' Ht'. destruct (Hall t') as (r' & Hr' & Hc'); [by right|].
  eapply enqueue_target_keeps; [..|exact E1|exact Hr'|exact Hc']; by intros.
Qed.

(** ** Rows that are taken *)

(** A transaction that does not hand row [key] out again: unforced enqueues,
    claims, recoveries for which the row is not stale, retry marks of other rows,
    any other mark and deletions. *)
Inductive keeps_taken (cfg : fanout_config) (key : Z) : sqlite_outbox -> sqlite_outbox -> Prop :=
| taken_enqueue now ev ts st st' c : sqlite_enqueue cfg now ev ts false st = Ok (st', c) -> keeps_taken cfg key st st'
| taken_claim now limit tgt ex st : keeps_taken cfg key st (fst (sqlite_claim now limit tgt ex st))
| taken_recover now age st :
    (forall r, In r (rows st) -> oid r = key -> stale_running (stale_cutoff now age) r = false) ->
    keeps_taken cfg key st (fst (sqlite_recover now age st))
| taken_success now k st : keeps_taken cfg key st (sqlite_mark_success now k st)
| taken_failed now k e st : keeps_taken cfg key st (sqlite_mark_failed now k e st)
| taken_fail_letta now e st : keeps_taken cfg key st (fst (sqlite_fail_letta_backlog now e st))
| taken_retry now jitter job e st : oid job <> key -> keeps_taken cfg key st (fst (sqlite_mark_retry cfg now jitter job e st))
| taken_delete keep st : keeps_taken cfg key st (with_rows st (List.filter keep (rows st))).

(** Any number of such transactions. *)
Inductive stays_taken (cfg : fanout_config) (key : Z) (st : sqlite_outbox) : sqlite_outbox -> Prop :=
| taken_here : stays_taken cfg key st st
| taken_then st1 st2 : stays_taken cfg key st st1 -> keeps_taken cfg key st1 st2 -> stays_taken cfg key st st2.

(** Row [key] is not waiting, and no new row can get its key. *)
Definition taken (key : Z) (st : sqlite_outbox) : Prop :=
  key < next_id st /\ forall r, In r (rows st) -> oid r = key -> status_in (status r) [Pending; Retrying] = false.

Lemma taken_update key p (u : fanout_row Z -> fanout_row Z) st : (forall r, oid (u r) = oid r) ->
  (forall r, In r (rows st) -> oid r = key -> p r = true -> status_in (status r) [Pending; Retrying] = false ->
     status_in (status (u r)) [Pending; Retrying] = false) ->
  taken key st -> taken key (with_rows st (fst (update_where p u (rows st)))).
Proof.
  intros Hid Hu [Hk Hr]. split; [done|]. intros r (r0 & <- & H0)%in_map_iff. destruct (p r0) eqn:Ep; [|by apply Hr].
  rewrite Hid. intros E. by apply Hu; [..|apply Hr].
Qed.

Lemma taken_dedupe cfg now ev tgt st c st' c' key : enqueue_dedupe cfg now ev false tgt st c = Ok (st', c') ->
  taken key st -> taken key st'.
Proof.
  unfold enqueue_dedupe. intros E [Hk Hr]. destruct (List.find _ _) eqn:Hf; [by injection E as <- _|].
  rewrite insert_row_fresh in E by done. injection E as <- _. split; [cbn; lia|].
  intros r [H|[<-|[]]]%in_app_iff; [by apply Hr|]. cbn. lia.
Qed.

Lemma taken_targets cfg now ev ts st c st' c' key : enqueue_targets cfg now ev false ts st c = Ok (st', c') ->
  taken key st -> taken key st'.
Proof.
  revert st c. induction ts as [|t ts IH]; intros st c E Ht; cbn [enqueue_targets] in E; [by injection E as <- _|].
  destruct (enqueue_target cfg now ev false t st c) as [[st1 c1]|] eqn:E1; [|done]. apply (IH st1 c1 E). clear E IH.
  unfold enqueue_target in E1. destruct (if tries_coalesce cfg false ev t then _ else None) as [r|]; [|by eapply taken_dedupe].
  destruct (coalesce_update now ev (oid r) (rows st)) as [rs n] eqn:Hu. unfold coalesce_update in Hu.
  assert (taken key (with_rows st rs)) as Ht'.
  { replace rs with (fst (rs, n)) by done. rewrite <- Hu. by apply taken_update. }
  destruct (0 <? n); [by injection E1 as <- _|]. by eapply taken_dedupe.
Qed.

Lemma keeps_taken_ok cfg key st st' : keeps_taken cfg key st st' -> outbox_ok st -> taken key st ->
  outbox_ok st' /\ taken key st'.
Proof.
  intros Hs Hok Ht. split.
  { apply (outbox_step_ok cfg st); [|done]. destruct Hs; by econstructor. }
  destruct Hs as [now ev ts st st' c E|now limit tgt ex st|now age st Hst|now k st|now k e st|now e st|now jit job e st Hne|keep st].
  - by eapply taken_targets.
  - rewrite sqlite_claim_spec by done. destruct Ht as [Hk Hr]. split; [done|]. cbn.
    intros r (r0 & <- & H0)%in_map_iff. destruct (existsb _ _); [done|by apply Hr].
  - apply taken_update; [done| |done]. intros r Hr Hid Hp. by rewrite Hst in Hp.
  - by apply taken_update.
  - by apply taken_update.
  - unfold sqlite_fail_letta_backlog. by apply taken_update.
  - unfold sqlite_mark_retry. destruct (retry_decision _ _ _ _). cbn [fst]. apply taken_update; [done| |done].
    intros r _ Hid Hp. blift. congruence.
  - destruct Ht as [Hk Hr]. split; [done|]. intros r [H _]%filter_In. by apply Hr.
Qed.

Lemma stays_taken_ok cfg key st st' : stays_taken cfg key st st' -> outbox_ok st -> taken key st ->
  outbox_ok st' /\ taken key st'.
Proof. induction 1 as [|st1 st2 _ IH Hs]; intros Hok Ht; [done|]. destruct (IH Hok Ht). by eapply keeps_taken_ok. Qed.

(** ** Properties *)

(** In every state the transactions can reach, row keys and dedupe keys are
    unique, every dedupe key is the row's own event and target, and the
    delivery columns agree with the status: finished rows carry their
    completion time, running rows their attempt, waiting rows neither error
    nor completion before the first attempt. *)
Theorem outbox_reachable_wf cfg st : outbox_reachable cfg st -> outbox_ok st.
Proof. apply reachable_ok. Qed.

(** An enqueue never fails on the unique key, and its counters account for
    every known target: each is inserted, found existing or coalesced, the
    table grows by the inserted rows only, and a forced enqueue requeues
    exactly the existing rows. *)
Theorem enqueue_accounts_for_every_target cfg now ev ts force st :
  outbox_ok st ->
  exists st' c, sqlite_enqueue cfg now ev ts force st = Ok (st', c) /\ outbox_ok st' /\
    inserted c + existing c + coalesced c =
      Z.of_nat (length (List.filter (fun t => mem_str t FANOUT_TARGETS) ts)) /\
    Z.of_nat (length (rows st')) = Z.of_nat (length (rows st)) + inserted c /\
    requeued c = (if force then existing c else 0) /\
    total_by_target (coalesced_by_target c) = coalesced c.
Proof.
  intros Hok. destruct (sqlite_enqueue_ok cfg now ev ts force st Hok) as (st' & c & E & Hok').
  exists st', c. pose proof (enqueue_targets_counts _ _ _ _ _ _ _ _ _ E) as Hc.
  unfold counted in Hc. cbn [inserted existing coalesced requeued coalesced_by_target zero_counts] in Hc.
  change (total_by_target []) with 0 in Hc.
  split; [done|]. split; [done|]. destruct force; lia.
Qed.

(** Nothing enqueued is lost: afterwards every known target has a row for
    this event, or a waiting row of the same project and file that now carries
    the event's payload and is due immediately. *)
Theorem enqueue_is_durable cfg now ev ts force st st' c :
  outbox_ok st -> sqlite_enqueue cfg now ev ts force st = Ok (st', c) ->
  forall t, In t ts -> In t FANOUT_TARGETS ->
  exists r, In r (rows st') /\ target r = t /\
    (dedupe_key r = make_dedupe_key ev t \/
     (project r = ev_project ev /\ file r = ev_file ev /\ payload r = ev_payload ev /\
      status_in (status r) [Pending; Retrying] = true /\ next_attempt_at r = _utc_now now)).
Proof.
  intros Hok E t Ht Hkt.
  destruct (enqueue_targets_carries cfg now ev force (fun r => next_attempt_at r = _utc_now now)
    ltac:(done) ltac:(done) _ _ _ _ _ Hok (known_targets ts) E) as [_ Hall].
  destruct (Hall t) as (r & Hr & Htr & Hc).
  { apply filter_In. split; [done|]. by apply mem_str_In. }
  exists r. split; [done|]. split; [done|]. destruct Hc as [|(_ & ? & ? & ? & ? & ?)]; auto 10.
Qed.

(** Enqueueing the same event again, unforced and at least one second
    before the coalescing window has passed, inserts no row. *)
Theorem enqueue_replay_inserts_nothing cfg now now' ev ts st st1 c1 st2 c2 :
  outbox_ok st ->
  in_range now -> in_range now' -> in_range (now' - Z.max 0 (FANOUT_COALESCE_WINDOW_SECS cfg)) ->
  now <= now' -> now' - Z.max 0 (FANOUT_COALESCE_WINDOW_SECS cfg) + us_per_sec <= now ->
  sqlite_enqueue cfg now ev ts false st = Ok (st1, c1) ->
  sqlite_enqueue cfg now' ev ts false st1 = Ok (st2, c2) ->
  inserted c2 = 0.
Proof.
  intros Hok R1 R2 R3 Hle Hwin E1 E2.
  assert (outbox_ok st1) as Hok1.
  { destruct (sqlite_enqueue_ok cfg now ev ts false st Hok) as (? & ? & ? & ?). congruence. }
  assert (str_leb (coalesce_cutoff cfg now') (_utc_now now) = true) as Hc
    by (by apply iso_leb_1s).
  assert (str_leb (coalesce_cutoff cfg now') (_utc_now now') = true) as Hc'.
  { apply iso_leb_1s; [done..|lia]. }
  destruct (enqueue_targets_carries cfg now ev false
    (fun r => str_leb (coalesce_cutoff cfg now') (updated_at r) = true)
    ltac:(done) ltac:(done) _ _ _ _ _ Hok (known_targets ts) E1) as [_ Hall].
  apply (enqueue_targets_carried _ _ _ _ _ _ _ _ Hok1 (known_targets ts) Hc' Hall E2).
Qed.

(** C9: a claim on the SQLite outbox returns at most 256 rows, each of which was
    waiting, due and of the requested target, now running with one more attempt;
    every other row is untouched; and after any later transactions, no claim
    returns one of these rows as long as no forced enqueue ran, the row was not
    marked for retry and no recovery found it stale. *)
Theorem claim_batch_exclusive cfg now limit tgt ex st st' claimed :
  outbox_reachable cfg st -> sqlite_claim now limit tgt ex st = (st', claimed) ->
  (length claimed <= 256)%nat /\
  (forall r', In r' claimed -> status r' = Running /\ In r' (rows st') /\
     exists r, In r (rows st) /\ claimable (_utc_now now) tgt ex r = true /\
       r' = claim_row (_utc_now now) (attempts r + 1) r) /\
  (forall r, In r (rows st) -> ~ In (oid r) (map oid claimed) -> In r (rows st')) /\
  (forall r' st2 now2 limit2 tgt2 ex2, In r' claimed -> stays_taken cfg (oid r') st' st2 ->
     ~ In (oid r') (map oid (snd (sqlite_claim now2 limit2 tgt2 ex2 st2)))).
Proof.
  intros Hr E. pose proof (reachable_ok _ _ Hr) as Hok.
  pose proof (sqlite_claim_ok now limit tgt ex st Hok) as Hok'. rewrite E in Hok'. cbn in Hok'.
  rewrite sqlite_claim_spec in E by done. injection E as E1 <-.
  set (sel := select_due (_utc_now now) (clamp_limit limit) tgt ex (rows st)) in *.
  assert (map oid (map (fun r => claim_row (_utc_now now) (attempts r + 1) r) sel) = map oid sel) as Hids
    by (by rewrite List.map_map).
  assert (forall r', In r' (map (fun r => claim_row (_utc_now now) (attempts r + 1) r) sel) ->
    status r' = Running /\ In r' (rows st') /\
    exists r, In r (rows st) /\ claimable (_utc_now now) tgt ex r = true /\
      r' = claim_row (_utc_now now) (attempts r + 1) r) as Hclaimed.
  { intros r' (r & <- & Hin)%in_map_iff. pose proof (select_due_In _ _ _ _ _ _ Hin) as [Hrow Hcl].
    split; [done|]. split; [|by eauto]. rewrite <- E1. cbn. apply in_map_iff. exists r.
    split; [|done]. replace (existsb _ sel) with true; [done|]. symmetry. apply existsb_exists.
    exists r. by rewrite Z.eqb_refl. }
  repeat split.
  - rewrite length_map. unfold sel, select_due. rewrite length_firstn. unfold clamp_limit. lia.
  - by apply Hclaimed.
  - by apply Hclaimed.
  - by apply Hclaimed.
  - intros r Hin Hn. rewrite Hids in Hn. rewrite <- E1. cbn. apply in_map_iff. exists r.
    split; [|done]. replace (existsb _ sel) with false; [done|]. symmetry. apply existsb_false_iff.
    intros s Hs. apply Z.eqb_neq. intros Eq. apply Hn. rewrite Eq. by apply in_map.
  - intros r' st2 now2 limit2 tgt2 ex2 Hr' Hstay Hin. destruct (Hclaimed _ Hr') as (Hst & Hrow' & _).
    assert (taken (oid r') st') as Ht'.
    { pose proof Hok' as [(Hnd & _) Hlt]. rewrite List.Forall_forall in Hlt. split; [by apply Hlt|]. intros r Hr0 E.
      assert (r = r') as -> by (by apply (In_NoDup_inj oid (rows st'))). by rewrite Hst. }
    destruct (stays_taken_ok _ _ _ _ Hstay Hok' Ht') as [Hok2 [_ Ht2]]. rewrite sqlite_claim_spec in Hin by done. cbn in Hin.
    rewrite List.map_map in Hin. apply in_map_iff in Hin as (r2 & Hid2 & Hin2). cbn in Hid2.
    apply select_due_In in Hin2 as [Hrow2 Hcl2]. unfold claimable in Hcl2. by rewrite (Ht2 r2 Hrow2 Hid2) in Hcl2.
Qed.

(** A claim serves the earliest due rows first: any waiting row it leaves
    behind comes after every claimed one in the order of due time and key, and
    rows are left behind only when the batch is full. *)
Theorem claim_earliest_due_first cfg now limit tgt ex st r2 :
  outbox_reachable cfg st ->
  let claimed := snd (sqlite_claim now limit tgt ex st) in
  In r2 (rows st) -> claimable (_utc_now now) tgt ex r2 = true -> ~ In (oid r2) (map oid claimed) ->
  length claimed = clamp_limit limit /\
  (forall r1, In r1 (rows st) -> In (oid r1) (map oid claimed) -> due_first r1 r2 = true).
Proof.
  intros Hr. cbn zeta. pose proof (reachable_ok _ _ Hr) as Hok.
  rewrite sqlite_claim_spec by done. cbn [snd]. intros Hin Hcl Hn.
  rewrite List.map_map in *. cbn in Hn. change (map (fun x => oid x)) with (map (@oid Z)) in Hn.
  set (l := List.filter (claimable (_utc_now now) tgt ex) (rows st)) in *.
  assert (In r2 (skipn (clamp_limit limit) (sort_by due_first l))) as Hskip.
  { assert (In r2 (sort_by due_first l)) as Hs by (by rewrite sort_by_In; apply filter_In).
    rewrite <- (firstn_skipn (clamp_limit limit)) in Hs. apply in_app_or in Hs as [Hs|Hs]; [|done].
    destruct Hn. by apply in_map. }
  split.
  - rewrite length_map. unfold select_due. fold l. rewrite length_firstn.
    assert (length (skipn (clamp_limit limit) (sort_by due_first l)) <> 0)%nat as Hl
      by (by destruct (skipn _ _)).
    rewrite length_skipn in Hl. lia.
  - intros r1 Hr1 (s & Hs & Hsel)%in_map_iff. cbn in Hs.
    assert (s = r1) as ->.
    { destruct Hok as [(Hnd & _) _]. apply (In_NoDup_inj oid (rows st)); try done.
      by apply select_due_In in Hsel as [? _]. }
    eapply (sorted_firstn_skipn due_first); [|exact Hsel|exact Hskip].
    apply sort_by_sorted; [apply due_first_total|apply due_first_trans].
Qed.

(** The retry delay starts at the base, doubles with every attempt, never
    exceeds the cap by more than the one second of jitter, and never shrinks
    from one attempt to the next apart from jitter. *)
Theorem backoff_bounds cfg attempt jitter :
  0 < FANOUT_RETRY_BASE_SECS cfg <= FANOUT_RETRY_MAX_SECS cfg -> 1 <= attempt ->
  jitter_ok cfg attempt jitter ->
  FANOUT_RETRY_BASE_SECS cfg <= _backoff_seconds cfg attempt jitter
    <= FANOUT_RETRY_MAX_SECS cfg + us_per_sec /\
  backoff_bounded cfg attempt <= backoff_bounded cfg (attempt + 1) <= 2 * backoff_bounded cfg attempt /\
  (FANOUT_RETRY_BASE_SECS cfg * 2 ^ (attempt - 1) <= FANOUT_RETRY_MAX_SECS cfg ->
   backoff_bounded cfg attempt = FANOUT_RETRY_BASE_SECS cfg * 2 ^ (attempt - 1)).
Proof.
  intros Hb Ha (Hj0 & Hj1 & Hj2). unfold _backoff_seconds, backoff_bounded in *.
  rewrite !(Z.max_r 0) in * by lia.
  assert (2 ^ (attempt + 1 - 1) = 2 * 2 ^ (attempt - 1)) as Hp.
  { replace (attempt + 1 - 1) with (Z.succ (attempt - 1)) by lia. apply Z.pow_succ_r. lia. }
  assert (1 <= 2 ^ (attempt - 1)) by (pose proof (Z.pow_pos_nonneg 2 (attempt - 1)); lia).
  assert (FANOUT_RETRY_BASE_SECS cfg <= FANOUT_RETRY_BASE_SECS cfg * 2 ^ (attempt - 1)) by nia.
  rewrite Hp, Z.mul_assoc, (Z.mul_comm _ 2), <- Z.mul_assoc. repeat split; lia.
Qed.

Lemma update_by_oid u (st : sqlite_outbox) r :
  In r (rows st) -> In (u r) (fst (update_where (fun r0 => oid r0 =? oid r) u (rows st))).
Proof.
  intros Hin. pose proof (update_where_In (fun r0 => oid r0 =? oid r) u (rows st) r Hin) as H.
  cbn beta in H. by rewrite Z.eqb_refl in H.
Qed.

(** After a failed delivery the job is failed for good when its attempts
    are used up, and otherwise waits: no claim made a second before its due
    time takes it, every claim made a second after it may. *)
Theorem retry_waits_for_backoff cfg now jitter job e st st' s :
  In job (rows st) -> sqlite_mark_retry cfg now jitter job e st = (st', s) ->
  let mx := if max_attempts job =? 0 then FANOUT_MAX_ATTEMPTS cfg else max_attempts job in
  let due := now + _backoff_seconds cfg (attempts job) jitter in
  exists r', In r' (rows st') /\ oid r' = oid job /\ status r' = s /\
    last_error r' = Some (take 2000 e) /\ attempts r' = attempts job /\
    (mx <= attempts job -> s = Failed /\ completed_at r' = Some (_utc_now now)) /\
    (attempts job < mx -> s = Retrying /\ forall t, in_range t -> in_range due ->
       (t + us_per_sec <= due -> claimable (_utc_now t) None None r' = false) /\
       (due + us_per_sec <= t -> claimable (_utc_now t) None None r' = true)).
Proof.
  intros Hin E. cbn zeta. unfold sqlite_mark_retry in E.
  destruct (retry_decision cfg now jitter job) as [ns na] eqn:Hd. injection E as <- <-.
  exists (retry_row ns na (_utc_now now) e job). split; [by apply update_by_oid|].
  unfold retry_decision in Hd. cbn.
  set (mx := if max_attempts job =? 0 then FANOUT_MAX_ATTEMPTS cfg else max_attempts job) in *.
  destruct (attempts job <? mx) eqn:Hlt; injection Hd as <- <-; blift; repeat (split; [done|]).
  - split; [lia|]. intros _. split; [done|]. intros t Ht Hdue.
    unfold claimable, _utc_now; cbn [status next_attempt_at retry_row set_job].
    split; intros Hle.
    + by rewrite (proj2 (iso_leb_1s _ _ Ht Hdue Hle)).
    + by rewrite (proj1 (iso_leb_1s _ _ Hdue Ht Hle)).
  - intros; lia.
Qed.

(** Recovery returns to the queue every running job whose last attempt is
    at least a second older than the limit, due at once, and leaves alone every
    job attempted at least a second more recently than the limit. *)
Theorem recover_frees_stale_jobs now age st r t0 :
  In r (rows st) -> status r = Running -> last_attempt_at r = Some (_utc_iso_from_unix t0) ->
  let cutoff := now - Z.max 0 age * us_per_sec in
  in_range t0 -> in_range cutoff ->
  (t0 + us_per_sec <= cutoff ->
     exists r', In r' (rows (fst (sqlite_recover now age st))) /\ oid r' = oid r /\
       status r' = Retrying /\ claimable (_utc_now now) None None r' = true /\ is_Some (last_error r')) /\
  (cutoff + us_per_sec <= t0 -> In r (rows (fst (sqlite_recover now age st)))).
Proof.
  intros Hin Hs Hla. cbn zeta. intros R0 Rc.
  pose proof (update_where_In (stale_running (stale_cutoff now age)) (recover_row (_utc_now now)) (rows st) r Hin) as Hu.
  unfold stale_running in Hu at 1. rewrite Hs, Hla in Hu. cbn [status_in] in Hu.
  unfold stale_cutoff in Hu at 1. unfold sqlite_recover, update_where in *. cbn [fst rows with_rows] in *.
  split; intros Hle.
  - rewrite (proj1 (iso_leb_1s _ _ R0 Rc Hle)) in Hu. cbn in Hu.
    eexists. split; [exact Hu|]. repeat split; [|].
    + unfold claimable; cbn. by rewrite str_leb_refl.
    + cbn. unfold no_error. destruct (last_error r) as [x|]; [|by eauto]. destruct (x =s ""); eauto.
  - rewrite (proj2 (iso_leb_1s _ _ Rc R0 Hle)) in Hu. by cbn in Hu.
Qed.

(** ** Witnesses *)

(** A concrete run: one event enqueued to three targets, one batch claimed. *)
Definition demo_now : Z := 1700000000123456.
Definition demo_payload : dict :=
  [("event_id", JStr "e1"); ("project", JStr "p"); ("file", JStr "a/b.md"); ("summary", JStr "s")].
Definition demo_event : event := event_of_payload "uuid" demo_payload.
Definition demo_targets : list string := ["qdrant"; "bogus"; "letta"; "mongo_raw"].
Definition demo_state : sqlite_outbox :=
  match sqlite_enqueue default_fanout_config demo_now demo_event demo_targets false empty_outbox with
  | Ok (st, _) => st
  | Raise _ => empty_outbox
  end.
Definition demo_claim := sqlite_claim (demo_now + 5000000) 2 None (Some "letta") demo_state.

Lemma demo_enqueue : exists c,
  sqlite_enqueue default_fanout_config demo_now demo_event demo_targets false empty_outbox = Ok (demo_state, c).
Proof. eexists. vm_compute. reflexivity. Qed.

Lemma demo_reachable : outbox_reachable default_fanout_config demo_state.
Proof.
  destruct demo_enqueue as [c E]. eapply reach_step; [apply reach_init|]. by eapply step_enqueue.
Qed.

Lemma demo_ok : outbox_ok demo_state.
Proof. by eapply reachable_ok, demo_reachable. Qed.

Lemma outbox_reachable_wf_witness : outbox_ok (fst demo_claim).
Proof.
  apply (outbox_reachable_wf default_fanout_config).
  eapply reach_step; [apply demo_reachable|]. apply step_claim.
Defined.

Lemma enqueue_accounts_for_every_target_witness : exists st' c,
  sqlite_enqueue default_fanout_config demo_now demo_event demo_targets true demo_state = Ok (st', c) /\
  inserted c + existing c + coalesced c = 3.
Proof.
  destruct (enqueue_accounts_for_every_target default_fanout_config demo_now demo_event demo_targets true
    demo_state demo_ok) as (st' & c & H1 & _ & H2 & _).
  exists st', c. split; [exact H1|exact H2].
Defined.

Lemma enqueue_is_durable_witness : exists r, In r (rows demo_state) /\ target r = "letta".
Proof.
  destruct demo_enqueue as [c E].
  destruct (enqueue_is_durable _ _ _ _ _ _ _ _ empty_outbox_ok E "letta") as (r & H1 & H2 & _);
    [vm_compute; tauto|vm_compute; tauto|].
  exists r. split; [exact H1|exact H2].
Defined.

Lemma enqueue_replay_inserts_nothing_witness : exists st2 c2,
  sqlite_enqueue default_fanout_config (demo_now + 3000000) demo_event demo_targets false demo_state = Ok (st2, c2) /\
  inserted c2 = 0.
Proof.
  destruct demo_enqueue as [c1 E1].
  destruct (sqlite_enqueue default_fanout_config (demo_now + 3000000) demo_event demo_targets false demo_state)
    as [[st2 c2]|e] eqn:E2; [|vm_compute in E2; discriminate].
  exists st2, c2. split; [reflexivity|].
  apply (enqueue_replay_inserts_nothing default_fanout_config demo_now (demo_now + 3000000)
    demo_event demo_targets empty_outbox demo_state c1 st2 c2 empty_outbox_ok).
  - split; vm_compute; congruence.
  - split; vm_compute; congruence.
  - split; vm_compute; congruence.
  - vm_compute; congruence.
  - vm_compute; congruence.
  - exact E1.
  - exact E2.
Defined.

Lemma claim_batch_exclusive_witness :
  length (snd demo_claim) = 2%nat /\
  forall r', In r' (snd demo_claim) ->
    ~ In (oid r') (map oid (snd (sqlite_claim (demo_now + 9000000) 10 None None
                                   (fst (sqlite_recover (demo_now + 8000000) 900 (fst demo_claim)))))).
Proof.
  split; [vm_compute; reflexivity|].
  destruct (claim_batch_exclusive default_fanout_config (demo_now + 5000000) 2 None (Some "letta") demo_state
    (fst demo_claim) (snd demo_claim) demo_reachable) as (_ & _ & _ & H).
  - unfold demo_claim. destruct (sqlite_claim _ _ _ _ _). reflexivity.
  - intros r' Hr'. apply H; [exact Hr'|]. eapply taken_then; [apply taken_here|]. apply taken_recover.
    intros r Hr _. vm_compute in Hr. repeat (destruct Hr as [<-|Hr]; [vm_compute; reflexivity|]). destruct Hr.
Defined.

Lemma claim_earliest_due_first_witness :
  length (snd (sqlite_claim (demo_now + 5000000) 1 None None demo_state)) = 1%nat /\
  forall r1, In r1 (rows demo_state) ->
    In (oid r1) (map oid (snd (sqlite_claim (demo_now + 5000000) 1 None None demo_state))) ->
    due_first r1 (nth 2 (rows demo_state) (new_row default_fanout_config 0 demo_event "x" 0)) = true.
Proof.
  split; [vm_compute; reflexivity|].
  apply (claim_earliest_due_first default_fanout_config (demo_now + 5000000) 1 None None demo_state).
  - exact demo_reachable.
  - vm_compute. tauto.
  - vm_compute. reflexivity.
  - vm_compute. intuition discriminate.
Defined.

Lemma backoff_bounds_witness :
  backoff_bounded default_fanout_config 4 = 16 * us_per_sec.
Proof.
  destruct (backoff_bounds default_fanout_config 4 1000) as (_ & _ & H).
  - vm_compute. intuition discriminate.
  - lia.
  - unfold jitter_ok. vm_compute. intuition discriminate.
  - apply H. vm_compute. discriminate.
Defined.

Lemma retry_waits_for_backoff_witness : exists r',
  In r' (rows (fst (sqlite_mark_retry default_fanout_config demo_now 0
    (nth 0 (rows demo_state) (new_row default_fanout_config 0 demo_event "x" 0)) "boom" demo_state))) /\
  status r' = Retrying.
Proof.
  destruct (retry_waits_for_backoff default_fanout_config demo_now 0
    (nth 0 (rows demo_state) (new_row default_fanout_config 0 demo_event "x" 0)) "boom" demo_state
    (fst (sqlite_mark_retry default_fanout_config demo_now 0
      (nth 0 (rows demo_state) (new_row default_fanout_config 0 demo_event "x" 0)) "boom" demo_state)) Retrying)
    as (r' & H1 & _ & H2 & _).
  - vm_compute. tauto.
  - vm_compute. reflexivity.
  - exists r'. split; [exact H1|exact H2].
Defined.

Lemma recover_frees_stale_jobs_witness : exists r',
  In r' (rows (fst (sqlite_recover (demo_now + 300000000) 120 (fst demo_claim)))) /\ status r' = Retrying.
Proof.
  destruct (recover_frees_stale_jobs (demo_now + 300000000) 120 (fst demo_claim)
    (nth 0 (rows (fst demo_claim)) (new_row default_fanout_config 0 demo_event "x" 0)) (demo_now + 5000000))
    as [H _].
  - vm_compute. tauto.
  - vm_compute. reflexivity.
  - vm_compute. reflexivity.
  - unfold in_range, demo_now, us_per_sec; lia.
  - unfold in_range, demo_now, us_per_sec; lia.
  - destruct H as (r' & H1 & _ & H2 & _).
    + unfold demo_now, us_per_sec; lia.
    + exists r'. split; [exact H1|exact H2].
Defined.
