(* ===== verification/OutboxStore.v ===== *)
(** * The two outbox backends behind one interface

    The outbox lives in the SQLite task database or in a MongoDB collection;
    [fanout_outbox_backend_active] says which.  An operation that fails on
    MongoDB falls back to SQLite, an SQLite disk error may promote MongoDB.
    This file models the MongoDB operations call by call, with the faults a
    driver call may raise, and the functions the rest of the program calls. *)

From S2P Require Import Prelude PyStr PyTime Json JsonText TaskDb Policy Outbox.
Open Scope Z_scope.

#[export] Instance fanout_row_eq_dec {I} `{EqDecision I} : EqDecision (fanout_row I).
Proof. solve_decision. Defined.

(** ** State *)

Inductive backend := BSqlite | BMongo.

#[export] Instance backend_eq_dec : EqDecision backend.
Proof. solve_decision. Defined.

Record store_config := mkStoreConfig {
  fanout : fanout_config;
  TASK_DB_LOCK_RETRIES : Z;
  FANOUT_OUTBOX_FALLBACK_TO_SQLITE : bool;
  FANOUT_OUTBOX_AUTO_PROMOTE_MONGO_ON_SQLITE_IO_ERROR : bool;
  pymongo_available : bool }.

Abbreviation doc := (fanout_row string).

(** [uuid_next] counts the calls of [uuid.uuid4()]; [connect_script] holds the
    outcomes of the coming connection attempts ([None]: connected, pinged and
    indexed). *)
Record outbox_store := mkStore {
  db : task_db sqlite_outbox;
  docs : list doc; mongo_faults : list fault; uuid_next : nat;
  fanout_outbox_backend_active : backend;
  mongo_client : bool; connect_script : list (option exn);
  fanout_coalesce_total : Z; fanout_coalesce_by_target : list (string * Z) }.

Definition set_db (x : task_db sqlite_outbox) (w : outbox_store) : outbox_store :=
  mkStore x (docs w) (mongo_faults w) (uuid_next w) (fanout_outbox_backend_active w) (mongo_client w)
    (connect_script w) (fanout_coalesce_total w) (fanout_coalesce_by_target w).
Definition set_docs (x : list doc) (fs : list fault) (w : outbox_store) : outbox_store :=
  mkStore (db w) x fs (uuid_next w) (fanout_outbox_backend_active w) (mongo_client w)
    (connect_script w) (fanout_coalesce_total w) (fanout_coalesce_by_target w).
Definition set_active (x : backend) (w : outbox_store) : outbox_store :=
  mkStore (db w) (docs w) (mongo_faults w) (uuid_next w) x (mongo_client w)
    (connect_script w) (fanout_coalesce_total w) (fanout_coalesce_by_target w).
Definition set_client (x : bool) (cs : list (option exn)) (w : outbox_store) : outbox_store :=
  mkStore (db w) (docs w) (mongo_faults w) (uuid_next w) (fanout_outbox_backend_active w) x
    cs (fanout_coalesce_total w) (fanout_coalesce_by_target w).
Definition set_coalesced (t : Z) (b : list (string * Z)) (w : outbox_store) : outbox_store :=
  mkStore (db w) (docs w) (mongo_faults w) (uuid_next w) (fanout_outbox_backend_active w) (mongo_client w)
    (connect_script w) t b.
Definition next_uuid (w : outbox_store) : outbox_store :=
  mkStore (db w) (docs w) (mongo_faults w) (S (uuid_next w)) (fanout_outbox_backend_active w) (mongo_client w)
    (connect_script w) (fanout_coalesce_total w) (fanout_coalesce_by_target w).

(** ** Jobs

    A job carries the key of the backend it was claimed from. *)
Inductive job_id := IntId (z : Z) | TextId (s : string).

(** [WHERE id = ?] on an [INTEGER PRIMARY KEY]: a text matches only as a number. *)
Definition sqlite_key (k : job_id) : option Z :=
  match k with
  | IntId z => Some z
  | TextId s => if truthy s then int_of_digits 0 s else None
  end.

(** [str(job_id)] *)
Definition mongo_key (k : job_id) : string :=
  match k with IntId z => str_of_Z z | TextId s => s end.

Definition with_key {I J} (f : I -> J) (r : fanout_row I) : fanout_row J :=
  mkRow (f (oid r)) (event_id r) (target r) (project r) (file r) (summary r) (payload r) (topic_path r)
    (topic_tags r) (status r) (attempts r) (max_attempts r) (next_attempt_at r) (last_attempt_at r)
    (completed_at r) (last_error r) (created_at r) (updated_at r) (dedupe_key r).

Abbreviation job := (fanout_row job_id).

(** The stored texts of a row's JSON columns, and the row read back. *)
Definition stored_columns {I} (r : fanout_row I) : string * string :=
  (dumps (payload r), dumps (topic_tags r)).

Definition _fanout_row_to_dict (r : fanout_row Z) (columns : string * string) : option job :=
  match (if truthy (fst columns) then loads (fst columns) else Some (JObj [])),
        (if truthy (snd columns) then loads (snd columns) else Some (JList [])) with
  | Some p, Some t => Some (set_body (summary r) p (topic_path r) t (with_key IntId r))
  | _, _ => None
  end.

(** A document read back: a payload that is no object becomes an empty one. *)
Definition reparse (j default : json) : json :=
  match j with JStr s => match loads s with Some v => v | None => default end | _ => j end.

Definition _fanout_doc_to_dict (d : doc) : job :=
  let p := reparse (payload d) (JObj []) in
  let t := reparse (topic_tags d) (JList []) in
  set_body (summary d) (if is_obj p then p else JObj []) (topic_path d)
    (match t with JList _ => t | _ => JList [] end) (with_key TextId d).

(** ** Driver calls *)

(** One call on the collection. *)
Definition mongo_call {A} (f : list doc -> result (list doc * A)) : ST outbox_store A := fun w =>
  let '(ft, rest) := next_fault (mongo_faults w) in
  match ft with
  | FailBefore e => (set_docs (docs w) rest w, Raise e)
  | _ =>
      match f (docs w) with
      | Raise e => (set_docs (docs w) rest w, Raise e)
      | Ok (ds, a) => (set_docs ds rest w, match ft with FailAfter e => Raise e | _ => Ok a end)
      end
  end.

Definition find_one (p : doc -> bool) (ds : list doc) : result (list doc * option doc) :=
  Ok (ds, List.find p ds).

(** The first match under a sort order. *)
Definition find_sorted (le : doc -> doc -> bool) (p : doc -> bool) (ds : list doc) : option doc :=
  head (sort_by le (List.filter p ds)).

(** [modified_count]: matched documents the update really changes. *)
Definition modified (u : doc -> doc) (ds : list doc) : Z :=
  Z.of_nat (length (List.filter (fun d => negb (bool_decide (u d = d))) ds)).

Fixpoint update_first (p : doc -> bool) (u : doc -> doc) (ds : list doc) : list doc :=
  match ds with
  | [] => []
  | d :: ds' => if p d then u d :: ds' else d :: update_first p u ds'
  end.

Definition update_one (p : doc -> bool) (u : doc -> doc) (ds : list doc) : result (list doc * Z) :=
  Ok (update_first p u ds,
      match List.find p ds with Some d => modified u [d] | None => 0 end).

Definition update_many (p : doc -> bool) (u : doc -> doc) (ds : list doc) : result (list doc * Z) :=
  Ok (fst (update_where p u ds), modified u (List.filter p ds)).

(** The unique indexes on [_id] and [dedupe_key]. *)
Definition insert_one (d : doc) (ds : list doc) : result (list doc * unit) :=
  if existsb (fun d' => (oid d' =s oid d) || (dedupe_key d' =s dedupe_key d)) ds
  then Raise (OtherError "DuplicateKeyError" "E11000 duplicate key error")
  else Ok (ds ++ [d], tt).

(** [find_one_and_update(..., return_document=AFTER)] *)
Definition find_one_and_update (le : doc -> doc -> bool) (p : doc -> bool) (u : doc -> doc) (ds : list doc)
  : result (list doc * option doc) :=
  match find_sorted le p ds with
  | None => Ok (ds, None)
  | Some d => Ok (fst (update_where (fun d' => oid d' =s oid d) u ds), Some (u d))
  end.

Section store.
Variable cfg : store_config.
Variable uuid4 : nat -> string.

Definition new_uuid : ST outbox_store string := fun w => (next_uuid w, Ok (uuid4 (uuid_next w))).

(** ** Switching backends *)

Definition _use_mongo_outbox (w : outbox_store) : bool :=
  bool_decide (fanout_outbox_backend_active w = BMongo).

Definition _demote_outbox_backend : ST outbox_store unit :=
  st_modify (fun w =>
    if bool_decide (fanout_outbox_backend_active w = BSqlite) then w
    else if negb (FANOUT_OUTBOX_FALLBACK_TO_SQLITE cfg) then w
    else set_active BSqlite w).

Definition init_fanout_outbox_mongo_client : ST outbox_store bool := fun w =>
  if negb (_use_mongo_outbox w) then (w, Ok false)
  else if negb (pymongo_available cfg) then (_demote_outbox_backend ;;; st_ret false) w
  else if mongo_client w then (w, Ok true)
  else match connect_script w with
       | Some e :: cs => (_demote_outbox_backend ;;; st_ret false) (set_client false cs w)
       | cs => (set_client true (tl cs) w, Ok true)
       end.

Definition _promote_outbox_backend_to_mongo_if_sqlite_error (reason : string) : ST outbox_store bool := fun w =>
  if negb (bool_decide (fanout_outbox_backend_active w = BSqlite)) then (w, Ok false)
  else if negb (FANOUT_OUTBOX_AUTO_PROMOTE_MONGO_ON_SQLITE_IO_ERROR cfg) then (w, Ok false)
  else if negb (_is_sqlite_disk_io_error reason) then (w, Ok false)
  else
    let previous := fanout_outbox_backend_active w in
    (ok <- init_fanout_outbox_mongo_client ;;
     if (ok : bool) then st_ret true
     else st_modify (set_active previous) ;;; st_ret false) (set_active BMongo w).

(** [if not await init_fanout_outbox_mongo_client(): raise OrchestratorError(...)] *)
Definition with_mongo {A} (m : ST outbox_store A) : ST outbox_store A :=
  ok <- init_fanout_outbox_mongo_client ;;
  if (ok : bool) then m else st_raise (OrchestratorError "mongo outbox unavailable").

(** [try: return await <mongo> except Exception as exc: _demote(...)], then SQLite. *)
Definition mongo_else_sqlite {A} (m s : ST outbox_store A) : ST outbox_store A := fun w =>
  if _use_mongo_outbox w then st_try m (fun _ => _demote_outbox_backend ;;; s) w else s w.

(** [await _task_db_exec(fn)] *)
Definition on_sqlite {A} (fn : sqlite_outbox -> result (sqlite_outbox * A)) : ST outbox_store A := fun w =>
  let '(d, r) := _task_db_exec (TASK_DB_LOCK_RETRIES cfg) fn (db w) in (set_db d w, r).

(** [except Exception as exc: if await _promote(...): return await <mongo>; raise] *)
Definition sqlite_else_mongo {A} (s m : ST outbox_store A) : ST outbox_store A :=
  st_try s (fun e =>
    ok <- _promote_outbox_backend_to_mongo_if_sqlite_error (exn_str e) ;;
    if (ok : bool) then m else st_raise e).

(** ** Enqueue *)

(** [str(event_payload.get("event_id") or uuid.uuid4().hex)] and the other
    fields of the payload. *)
Definition read_event (p : dict) : ST outbox_store event :=
  if jtruthy (dget p "event_id") then st_ret (event_of_payload "" p)
  else u <- new_uuid ;; st_ret (event_of_payload u p).

Definition mongo_insert (now : Z) (ev : event) (tgt : string) (c : enqueue_counts) : ST outbox_store enqueue_counts :=
  key <- new_uuid ;;
  st_try
    (mongo_call (insert_one (new_row (fanout cfg) now ev tgt key)) ;;;
     st_ret (mkCounts (inserted c + 1) (requeued c) (existing c) (coalesced c) (coalesced_by_target c)))
    (fun _ => st_ret (mkCounts (inserted c) (requeued c) (existing c + 1) (coalesced c) (coalesced_by_target c))).

Definition mongo_dedupe (now : Z) (ev : event) (force_requeue : bool) (tgt : string) (c : enqueue_counts)
  : ST outbox_store enqueue_counts :=
  row <- mongo_call (find_one (fun d => dedupe_key d =s make_dedupe_key ev tgt)) ;;
  match row with
  | Some r =>
      if force_requeue then
        mongo_call (update_one (fun d => oid d =s oid r) (requeue_row (fanout cfg) now ev)) ;;;
        st_ret (mkCounts (inserted c) (requeued c + 1) (existing c + 1) (coalesced c) (coalesced_by_target c))
      else st_ret (mkCounts (inserted c) (requeued c) (existing c + 1) (coalesced c) (coalesced_by_target c))
  | None => mongo_insert now ev tgt c
  end.

Definition mongo_enqueue_target (now : Z) (ev : event) (force_requeue : bool) (tgt : string) (c : enqueue_counts)
  : ST outbox_store enqueue_counts :=
  candidate <- (if tries_coalesce (fanout cfg) force_requeue ev tgt
                then mongo_call (fun ds => Ok (ds, coalesce_candidate (fanout cfg) now ev tgt ds))
                else st_ret None) ;;
  match candidate with
  | Some r =>
      n <- mongo_call (update_one (fun d => (oid d =s oid r) && status_in (status d) [Pending; Retrying])
                         (coalesce_row now ev)) ;;
      if 0 <? n
      then st_ret (mkCounts (inserted c) (requeued c) (existing c) (coalesced c + 1) (bump tgt (coalesced_by_target c)))
      else mongo_dedupe now ev force_requeue tgt c
  | None => mongo_dedupe now ev force_requeue tgt c
  end.

Fixpoint mongo_enqueue_targets (now : Z) (ev : event) (force_requeue : bool) (ts : list string) (c : enqueue_counts)
  : ST outbox_store enqueue_counts :=
  match ts with
  | [] => st_ret c
  | t :: ts' => c' <- mongo_enqueue_target now ev force_requeue t c ;; mongo_enqueue_targets now ev force_requeue ts' c'
  end.

Definition _enqueue_fanout_outbox_mongo (now : Z) (p : dict) (ts : list string) (force_requeue : bool)
  : ST outbox_store enqueue_counts :=
  with_mongo (ev <- read_event p ;; mongo_enqueue_targets now ev force_requeue ts zero_counts).

(** [d[k] = int(d.get(k, 0) or 0) + delta] *)
Fixpoint add_count (k : string) (n : Z) (d : list (string * Z)) : list (string * Z) :=
  match d with
  | [] => [(k, n)]
  | (k', m) :: d' => if k =s k' then (k', m + n) :: d' else (k', m) :: add_count k n d'
  end.

Definition _record_fanout_coalesce_result (c : enqueue_counts) : ST outbox_store unit :=
  st_modify (fun w =>
    if coalesced c <=? 0 then w
    else set_coalesced (fanout_coalesce_total w + coalesced c)
           (fold_left (fun acc kv => if snd kv <=? 0 then acc else add_count (fst kv) (snd kv) acc)
              (coalesced_by_target c) (fanout_coalesce_by_target w)) w).

Definition recorded (m : ST outbox_store enqueue_counts) : ST outbox_store enqueue_counts :=
  r <- m ;; _record_fanout_coalesce_result r ;;; st_ret r.

Definition enqueue_fanout_outbox (now : Z) (p : dict) (ts : list string) (force_requeue : bool)
  : ST outbox_store enqueue_counts :=
  ev <- read_event p ;;
  let targets := List.filter (fun t => mem_str t FANOUT_TARGETS) ts in
  let mongo := recorded (_enqueue_fanout_outbox_mongo now p targets force_requeue) in
  mongo_else_sqlite mongo
    (sqlite_else_mongo (recorded (on_sqlite (sqlite_enqueue (fanout cfg) now ev targets force_requeue))) mongo).

(** ** Claim *)

Fixpoint mongo_claim_loop (n : nat) (now : string) (tgt exclude : option string) (acc : list job)
  : ST outbox_store (list job) :=
  match n with
  | O => st_ret acc
  | S n' =>
      row <- mongo_call (find_one_and_update due_first (claimable now tgt exclude)
                           (fun d => claim_row now (attempts d + 1) d)) ;;
      match row with
      | None => st_ret acc
      | Some d => mongo_claim_loop n' now tgt exclude (acc ++ [_fanout_doc_to_dict d])
      end
  end.

Definition _claim_fanout_batch_mongo (now : Z) (limit : nat) (tgt exclude : option string) : ST outbox_store (list job) :=
  with_mongo (mongo_claim_loop limit (_utc_now now) tgt exclude []).

Definition claim_fanout_batch (now limit : Z) (tgt exclude : option string) : ST outbox_store (list job) :=
  let mongo := _claim_fanout_batch_mongo now (clamp_limit limit) tgt exclude in
  mongo_else_sqlite mongo
    (sqlite_else_mongo
       (on_sqlite (fun st => let '(st', l) := sqlite_claim now limit tgt exclude st in Ok (st', map (with_key IntId) l)))
       mongo).

(** ** Recovery and marks *)

(** [SET status, next_attempt_at, updated_at] and the second update that fills
    an empty error. *)
Definition mongo_recover_row (now : string) (d : doc) : doc :=
  set_job Retrying (attempts d) (max_attempts d) now (last_attempt_at d) (completed_at d) (last_error d) now d.

Definition fill_error (d : doc) : doc :=
  set_job (status d) (attempts d) (max_attempts d) (next_attempt_at d) (last_attempt_at d) (completed_at d)
    (Some recovered_error) (updated_at d) d.

Definition _recover_stale_running_jobs_mongo (now max_age_secs : Z) : ST outbox_store Z :=
  with_mongo
    (n <- mongo_call (update_many (stale_running (stale_cutoff now max_age_secs)) (mongo_recover_row (_utc_now now))) ;;
     mongo_call (update_many (fun d => status_in (status d) [Retrying] && (next_attempt_at d =s _utc_now now) && no_error d)
                   fill_error) ;;;
     st_ret n).

Definition recover_stale_running_jobs (now max_age_secs : Z) : ST outbox_store Z :=
  mongo_else_sqlite (_recover_stale_running_jobs_mongo now max_age_secs)
    (on_sqlite (fun st => Ok (sqlite_recover now max_age_secs st))).

Definition _update_fanout_job_mongo (key : string) (u : doc -> doc) : ST outbox_store unit :=
  with_mongo (mongo_call (update_one (fun d => oid d =s key) u) ;;; st_ret tt).

(** A statement by key that may match no row. *)
Definition sqlite_by_key (k : job_id) (f : Z -> sqlite_outbox -> sqlite_outbox) (st : sqlite_outbox)
  : result (sqlite_outbox * unit) :=
  Ok (match sqlite_key k with Some z => f z st | None => st end, tt).

Definition mark_fanout_success (now : Z) (k : job_id) : ST outbox_store unit := fun w =>
  if _use_mongo_outbox w then _update_fanout_job_mongo (mongo_key k) (success_row (_utc_now now)) w
  else on_sqlite (sqlite_by_key k (sqlite_mark_success now)) w.

Definition mark_fanout_failed (now : Z) (k : job_id) (error : string) : ST outbox_store unit := fun w =>
  if _use_mongo_outbox w then _update_fanout_job_mongo (mongo_key k) (failed_row (_utc_now now) error) w
  else on_sqlite (sqlite_by_key k (fun z => sqlite_mark_failed now z error)) w.

Definition _fail_letta_backlog_mongo (now : Z) (error : string) : ST outbox_store Z :=
  with_mongo (mongo_call (update_many letta_open (failed_row (_utc_now now) error))).

Definition fail_letta_backlog (now : Z) (error : string) : ST outbox_store Z := fun w =>
  if _use_mongo_outbox w then _fail_letta_backlog_mongo now error w
  else on_sqlite (fun st => Ok (sqlite_fail_letta_backlog now error st)) w.

Definition mark_fanout_retry (now jitter : Z) (j : job) (error : string) : ST outbox_store outbox_status := fun w =>
  let '(next_status, next_attempt) := retry_decision (fanout cfg) now jitter j in
  if _use_mongo_outbox w then
    (_update_fanout_job_mongo (mongo_key (oid j)) (retry_row next_status next_attempt (_utc_now now) error) ;;;
     st_ret next_status) w
  else
    (on_sqlite (sqlite_by_key (oid j) (fun z st =>
       with_rows st (fst (update_where (fun r => oid r =? z)
                            (retry_row next_status next_attempt (_utc_now now) error) (rows st))))) ;;;
     st_ret next_status) w.
End store.
