(* ===== verification/OutboxStoreFacts.v ===== *)
(** * Correctness of the outbox behind its two backends

    Whatever calls fail, both stores keep the table invariant; the MongoDB
    claim takes the same batch as the specification of the SQLite claim; an
    accepted event is in one of the stores; and what a change of backend leaves
    behind. *)

From S2P Require Import Prelude PyStr PyTime Json JsonText TaskDb Policy Outbox OutboxFacts OutboxStore.
From Stdlib Require Import Ascii.
Open Scope Z_scope.

(** ** The invariant of both stores *)

Section invariant.
Variable cfg : store_config.
Variable uuid4 : nat -> string.

Definition docs_ok (n : nat) (ds : list doc) : Prop :=
  table_ok ds /\ List.Forall (fun d => exists i, (i < n)%nat /\ oid d = uuid4 i) ds.

Definition store_ok (w : outbox_store) : Prop :=
  outbox_ok (tables (db w)) /\ docs_ok (uuid_next w) (docs w).

(** A computation that keeps the invariant, whatever faults it meets. *)
Definition keeps {A} (m : ST outbox_store A) : Prop := forall w, store_ok w -> store_ok (fst (m w)).

Lemma keeps_ret {A} (a : A) : keeps (st_ret a).
Proof. by intros w. Qed.

Lemma keeps_raise {A} e : keeps (st_raise (A:=A) e).
Proof. by intros w. Qed.

Lemma keeps_bind {A B} (m : ST outbox_store A) (k : A -> ST outbox_store B) :
  keeps m -> (forall a, keeps (k a)) -> keeps (st_bind m k).
Proof.
  intros Hm Hk w Hw. specialize (Hm w Hw). unfold st_bind.
  destruct (m w) as [w' [a|e]]; [by apply Hk|done].
Qed.

Lemma keeps_try {A} (m : ST outbox_store A) h : keeps m -> (forall e, keeps (h e)) -> keeps (st_try m h).
Proof.
  intros Hm Hh w Hw. specialize (Hm w Hw). unfold st_try.
  destruct (m w) as [w' [a|e]]; [done|by apply Hh].
Qed.

Lemma keeps_modify f : (forall w, db (f w) = db w /\ docs (f w) = docs w /\ uuid_next (f w) = uuid_next w) ->
  keeps (st_modify f).
Proof. intros Hf w. destruct (Hf w) as (E1 & E2 & E3). unfold store_ok. cbn. by rewrite E1, E2, E3. Qed.

Lemma keeps_if {A} (b : outbox_store -> bool) (m1 m2 : ST outbox_store A) :
  keeps m1 -> keeps m2 -> keeps (fun w => if b w then m1 w else m2 w).
Proof. intros H1 H2 w Hw. destruct (b w); auto. Qed.

Lemma docs_ok_more n m ds : (n <= m)%nat -> docs_ok n ds -> docs_ok m ds.
Proof.
  intros Hnm [Ht Hi]. split; [done|]. eapply List.Forall_impl; [|exact Hi].
  intros d (i & Hlt & E). exists i. split; [lia|done].
Qed.

Lemma keeps_uuid : keeps (new_uuid uuid4).
Proof. intros w [H1 H2]. split; [done|]. cbn. eapply docs_ok_more; [|exact H2]. lia. Qed.

(** A call on the collection keeps the invariant if its effect does. *)
Lemma keeps_call {A} (f : list doc -> result (list doc * A)) :
  (forall n ds, docs_ok n ds -> match f ds with Ok (ds', _) => docs_ok n ds' | Raise _ => True end) ->
  keeps (mongo_call f).
Proof.
  intros Hf w [H1 H2]. unfold mongo_call. destruct (next_fault _) as [ft rest].
  specialize (Hf _ _ H2). destruct ft; [|done|]; (destruct (f (docs w)) as [[ds a]|?]; done).
Qed.

Lemma docs_ok_update n p u ds : keeps_key u -> (forall d, p d = true -> row_ok d -> row_ok (u d)) ->
  docs_ok n ds -> docs_ok n (fst (update_where p u ds)).
Proof.
  intros Hk Hok [Ht Hi]. split; [by apply table_ok_update|].
  cbn. apply List.Forall_map. eapply List.Forall_impl; [|exact Hi].
  intros d (i & Hlt & E). exists i. destruct (p d); [|done]. by rewrite (proj1 (Hk d)).
Qed.

(** Updating the first match is an update of its key. *)
Lemma update_first_where p u ds : List.NoDup (map oid ds) ->
  update_first p u ds =
    match List.find p ds with
    | Some d0 => fst (update_where (fun d => oid d =s oid d0) u ds)
    | None => ds
    end.
Proof.
  induction ds as [|d ds IH]; [done|]. cbn [map update_first List.find]. intros [Hn Hnd]%List.NoDup_cons_iff.
  destruct (p d) eqn:E.
  - cbn. rewrite String.eqb_refl. f_equal. symmetry. rewrite <- (List.map_id ds) at 2.
    apply List.map_ext_in. intros x Hx. destruct (String.eqb_spec (oid x) (oid d)) as [Eq|]; [|done].
    destruct Hn. rewrite <- Eq. by apply in_map.
  - rewrite IH by done. destruct (List.find p ds) as [d0|] eqn:Hf; [|done]. cbn.
    apply List.find_some in Hf as [Hin _].
    destruct (String.eqb_spec (oid d) (oid d0)) as [Eq|]; [|done].
    destruct Hn. rewrite Eq. by apply in_map.
Qed.

Lemma keeps_update_one p u : keeps_key u ->
  (forall d d', p d = true -> oid d' = oid d -> row_ok d' -> p d' = true -> row_ok (u d')) ->
  keeps (mongo_call (update_one p u)).
Proof.
  intros Hk Hok. apply keeps_call. intros n ds Hds. unfold update_one.
  rewrite update_first_where by apply Hds. destruct (List.find p ds) as [d0|] eqn:Hf; [|done].
  apply List.find_some in Hf as [Hin Hp].
  assert (fst (update_where (fun d => oid d =s oid d0) u ds) =
          fst (update_where (fun d => (oid d =s oid d0) && p d) u ds)) as ->.
  { cbn. apply List.map_ext_in. intros d Hd. destruct (String.eqb_spec (oid d) (oid d0)) as [E|]; [|done].
    assert (d = d0) as -> by (apply (In_NoDup_inj oid ds); [apply Hds|done..]). by rewrite Hp. }
  apply docs_ok_update; [done| |done]. intros d Hd Hr. blift. eauto.
Qed.

Lemma keeps_update_many p u : keeps_key u -> (forall d, p d = true -> row_ok d -> row_ok (u d)) ->
  keeps (mongo_call (update_many p u)).
Proof. intros Hk Hok. apply keeps_call. intros n ds Hds. by apply docs_ok_update. Qed.

Lemma keeps_find p : keeps (mongo_call (find_one p)).
Proof. apply keeps_call. done. Qed.

Lemma find_sorted_spec le p ds d : find_sorted le p ds = Some d -> In d ds /\ p d = true.
Proof.
  unfold find_sorted. intros Hh.
  assert (In d (sort_by le (List.filter p ds))) as Hin by (destruct (sort_by _ _); [done|]; injection Hh as ->; by left).
  by rewrite sort_by_In, filter_In in Hin.
Qed.

Lemma keeps_claim_one now tgt ex :
  keeps (mongo_call (find_one_and_update due_first (claimable now tgt ex) (fun d => claim_row now (attempts d + 1) d))).
Proof.
  apply keeps_call. intros n ds Hds. unfold find_one_and_update.
  destruct (find_sorted _ _ _) as [d|] eqn:Hf; [|done].
  apply docs_ok_update; [|intros d' _ Hr|done].
  - intros r. repeat split.
  - apply claim_row_ok; [|done]. destruct Hr as (_ & _ & ? & _). lia.
Qed.

(** The key of an inserted document is new, so only a duplicate dedupe key is
    refused. *)
Lemma keeps_insert now ev tgt c : In tgt FANOUT_TARGETS -> keeps (mongo_insert cfg uuid4 now ev tgt c).
Proof.
  intros Ht w [H1 H2]. unfold mongo_insert, st_bind, new_uuid, st_try, mongo_call.
  cbn [docs next_uuid mongo_faults]. destruct (next_fault _) as [ft rest].
  assert (forall e, match insert_one (new_row (fanout cfg) now ev tgt (uuid4 (uuid_next w))) (docs w) with
          | Ok (ds, _) => docs_ok (S (uuid_next w)) ds | Raise e' => e = e' -> True end) as Hins.
  { intros e. unfold insert_one. destruct (existsb _ _) eqn:He; [done|].
    rewrite existsb_false_iff in He. destruct H2 as [(Hid & Hdk & Hall) Hi].
    assert (forall B (g : doc -> B) x, List.NoDup (map g (docs w)) ->
      ~ In (g x) (map g (docs w)) -> List.NoDup (map g (docs w ++ [x]))) as Happ.
    { intros B g x Hnd Hnin. rewrite map_app. apply (Permutation_NoDup (Permutation_cons_append _ _)). by constructor. }
    split; [split; [|split]|].
    - apply Happ; [done|]. intros (d & Hd & Hin)%in_map_iff. specialize (He d Hin).
      apply orb_false_iff in He as [He _]. blift. done.
    - apply Happ; [done|]. intros (d & Hd & Hin)%in_map_iff. specialize (He d Hin).
      apply orb_false_iff in He as [_ He]. blift. done.
    - apply List.Forall_app. split; [done|]. constructor; [by apply new_row_ok|constructor].
    - apply List.Forall_app. split.
      + eapply List.Forall_impl; [|exact Hi]. intros d (i & ? & ?). exists i. split; [lia|done].
      + constructor; [|constructor]. exists (uuid_next w). split; [lia|done]. }
  specialize (Hins TimeoutError). apply (docs_ok_more _ (S (uuid_next w))) in H2; [|lia].
  destruct ft; [|split; done|]; (destruct (insert_one _ _) as [[ds []]|?]; split; done).
Qed.
End invariant.

Create HintDb store discriminated.
#[export] Hint Resolve keeps_ret keeps_raise keeps_uuid keeps_find keeps_claim_one keeps_insert : store.

Section operations.
Variable cfg : store_config.
Variable uuid4 : nat -> string.
Abbreviation keeps := (keeps uuid4).

Lemma keeps_demote : keeps (_demote_outbox_backend cfg).
Proof.
  apply keeps_modify. intros w. by destruct (bool_decide _); [|destruct (FANOUT_OUTBOX_FALLBACK_TO_SQLITE cfg)].
Qed.

Lemma keeps_init : keeps (init_fanout_outbox_mongo_client cfg).
Proof.
  intros w Hw. unfold init_fanout_outbox_mongo_client.
  destruct (negb (_use_mongo_outbox w)); [done|]. destruct (negb (pymongo_available cfg)).
  { apply (keeps_bind uuid4); [apply keeps_demote|intros; apply keeps_ret|done]. }
  destruct (mongo_client w); [done|]. destruct (connect_script w) as [|[e|] cs]; [done| |done].
  apply (keeps_bind uuid4 (_demote_outbox_backend cfg)); [apply keeps_demote|intros; apply keeps_ret|done].
Qed.

Lemma keeps_promote reason : keeps (_promote_outbox_backend_to_mongo_if_sqlite_error cfg reason).
Proof.
  intros w Hw. unfold _promote_outbox_backend_to_mongo_if_sqlite_error.
  do 3 (destruct (negb _); [done|]).
  apply (keeps_bind uuid4); [apply keeps_init| |done].
  intros []; [apply keeps_ret|]. apply keeps_bind; [by apply keeps_modify|intros; apply keeps_ret].
Qed.

Lemma keeps_with_mongo {A} (m : ST outbox_store A) : keeps m -> keeps (with_mongo cfg m).
Proof. intros Hm. apply keeps_bind; [apply keeps_init|]. intros []; [done|apply keeps_raise]. Qed.

Lemma keeps_mongo_else {A} (m s : ST outbox_store A) : keeps m -> keeps s -> keeps (mongo_else_sqlite cfg m s).
Proof.
  intros Hm Hs. apply (keeps_if _ _ (st_try _ _) s); [|done]. apply keeps_try; [done|]. intros _.
  apply keeps_bind; [apply keeps_demote|done].
Qed.

Lemma keeps_sqlite_else {A} (s m : ST outbox_store A) : keeps s -> keeps m -> keeps (sqlite_else_mongo cfg s m).
Proof.
  intros Hs Hm. apply keeps_try; [done|]. intros e. apply keeps_bind; [apply keeps_promote|].
  intros []; [done|apply keeps_raise].
Qed.

(** A transaction that keeps the table invariant keeps it through any number of
    attempts, also when a commit's answer is lost. *)
Lemma run_attempts_inv {S A} (P : S -> Prop) (fn : S -> result (S * A)) more d :
  (forall s, P s -> match fn s with Ok (s', _) => P s' | Raise _ => True end) ->
  P (tables d) -> P (tables (fst (run_attempts fn more d))).
Proof.
  intros Hfn. assert (forall d, P (tables d) -> P (tables (fst (with_connection fn d)))) as H1.
  { intros d0 Hd. specialize (Hfn _ Hd). unfold with_connection. destruct (next_fault _) as [ft rest].
    destruct ft; [|done|]; (destruct (fn (tables d0)) as [[s a]|?]; done). }
  revert d. induction more as [|more IH]; intros d Hd; cbn [run_attempts]; [by apply H1|].
  unfold st_try. specialize (H1 d Hd). destruct (with_connection fn d) as [d' [a|e]]; [done|].
  destruct (retryable e); [by apply IH|done].
Qed.

Lemma keeps_on_sqlite {A} (fn : sqlite_outbox -> result (sqlite_outbox * A)) :
  (forall s, outbox_ok s -> match fn s with Ok (s', _) => outbox_ok s' | Raise _ => True end) ->
  keeps (on_sqlite cfg fn).
Proof.
  intros Hfn w [H1 H2]. unfold on_sqlite, _task_db_exec.
  pose proof (run_attempts_inv outbox_ok fn (Z.to_nat (Z.max 1 (TASK_DB_LOCK_RETRIES cfg)) - 1) (db w) Hfn H1) as H.
  destruct (run_attempts fn _ (db w)) as [d r]. split; done.
Qed.

Lemma keeps_read_event p : keeps (read_event uuid4 p).
Proof.
  unfold read_event. destruct (jtruthy _); [apply keeps_ret|].
  apply keeps_bind; [apply keeps_uuid|intros; apply keeps_ret].
Qed.

Lemma keeps_dedupe now ev force tgt c : In tgt FANOUT_TARGETS -> keeps (mongo_dedupe cfg uuid4 now ev force tgt c).
Proof.
  intros Ht. apply keeps_bind; [apply keeps_find|]. intros [r|]; [|by apply keeps_insert].
  destruct force; [|apply keeps_ret]. apply keeps_bind; [|intros; apply keeps_ret].
  apply keeps_update_one; [intros ?; repeat split|]. intros; by apply requeue_row_ok.
Qed.

Lemma keeps_enqueue_target now ev force tgt c : In tgt FANOUT_TARGETS ->
  keeps (mongo_enqueue_target cfg uuid4 now ev force tgt c).
Proof.
  intros Ht. apply keeps_bind.
  { destruct (tries_coalesce _ _ _ _); [by apply keeps_call|apply keeps_ret]. }
  intros [r|]; [|by apply keeps_dedupe].
  apply keeps_bind; [|intros n; destruct (0 <? n); [apply keeps_ret|by apply keeps_dedupe]].
  apply keeps_update_one; [intros ?; repeat split|]. intros; blift. by apply coalesce_row_ok.
Qed.

Lemma keeps_mongo_enqueue now p ts force : (forall t, In t ts -> In t FANOUT_TARGETS) ->
  keeps (_enqueue_fanout_outbox_mongo cfg uuid4 now p ts force).
Proof.
  intros Hts. apply keeps_with_mongo, keeps_bind; [apply keeps_read_event|]. intros ev.
  generalize zero_counts. induction ts as [|t ts IH]; intros c; cbn [mongo_enqueue_targets]; [apply keeps_ret|].
  apply keeps_bind; [apply keeps_enqueue_target, Hts; by left|]. intros c'. apply IH. intros; apply Hts; by right.
Qed.

Lemma keeps_recorded m : keeps m -> keeps (recorded m).
Proof.
  intros Hm. apply keeps_bind; [done|]. intros r. apply keeps_bind; [|intros; apply keeps_ret].
  apply keeps_modify. intros w. by destruct (_ <=? 0).
Qed.

Lemma keeps_enqueue now p ts force : keeps (enqueue_fanout_outbox cfg uuid4 now p ts force).
Proof.
  apply keeps_bind; [apply keeps_read_event|]. intros ev. cbn zeta.
  assert (keeps (recorded (_enqueue_fanout_outbox_mongo cfg uuid4 now p
    (List.filter (fun t => mem_str t FANOUT_TARGETS) ts) force))) as Hm
    by (apply keeps_recorded, keeps_mongo_enqueue, known_targets).
  apply keeps_mongo_else, keeps_sqlite_else; [done| |done].
  apply keeps_recorded, keeps_on_sqlite. intros s Hs.
  destruct (sqlite_enqueue_ok (fanout cfg) now ev (List.filter (fun t => mem_str t FANOUT_TARGETS) ts) force s Hs)
    as (s' & c & -> & Hs'). done.
Qed.

Lemma keeps_claim_loop n now tgt ex acc : keeps (mongo_claim_loop n now tgt ex acc).
Proof.
  revert acc. induction n as [|n IH]; intros acc; cbn [mongo_claim_loop]; [apply keeps_ret|].
  apply keeps_bind; [apply keeps_claim_one|]. intros [d|]; [apply IH|apply keeps_ret].
Qed.

Lemma keeps_claim now limit tgt ex : keeps (claim_fanout_batch cfg now limit tgt ex).
Proof.
  assert (keeps (_claim_fanout_batch_mongo cfg now (clamp_limit limit) tgt ex)) as Hm
    by (apply keeps_with_mongo, keeps_claim_loop).
  apply keeps_mongo_else, keeps_sqlite_else; [done| |done].
  apply keeps_on_sqlite. intros s Hs. pose proof (sqlite_claim_ok now limit tgt ex s Hs) as H.
  by destruct (sqlite_claim now limit tgt ex s).
Qed.

Lemma keeps_recover now age : keeps (recover_stale_running_jobs cfg now age).
Proof.
  apply keeps_mongo_else.
  - apply keeps_with_mongo, keeps_bind; [|intros n; apply keeps_bind; [|intros; apply keeps_ret]].
    + apply keeps_update_many; [intros ?; repeat split|].
      intros d _ (H1 & H2 & H3 & H4). unfold row_ok; cbn. by repeat split.
    + apply keeps_update_many; [intros ?; repeat split|].
      intros d Hd (H1 & H2 & H3 & H4). blift. unfold row_ok; cbn. repeat split; auto.
      destruct (status d); done.
  - apply keeps_on_sqlite. intros s Hs. unfold sqlite_recover. apply outbox_ok_update; eauto with outbox.
Qed.

Lemma keeps_update_job key u : keeps_key u -> (forall d, row_ok d -> row_ok (u d)) ->
  keeps (_update_fanout_job_mongo cfg key u).
Proof.
  intros Hk Hok. apply keeps_with_mongo, keeps_bind; [|intros; apply keeps_ret].
  apply keeps_update_one; auto.
Qed.

Lemma keeps_by_key k f : (forall z s, outbox_ok s -> outbox_ok (f z s)) -> keeps (on_sqlite cfg (sqlite_by_key k f)).
Proof.
  intros Hf. apply keeps_on_sqlite. intros s Hs. unfold sqlite_by_key. destruct (sqlite_key k); auto.
Qed.

Lemma keeps_success now k : keeps (mark_fanout_success cfg now k).
Proof.
  apply keeps_if.
  - apply keeps_update_job; [intros ?; repeat split|eauto with outbox].
  - apply keeps_by_key. intros. apply outbox_ok_update; eauto with outbox.
Qed.

Lemma keeps_failed now k e : keeps (mark_fanout_failed cfg now k e).
Proof.
  apply keeps_if.
  - apply keeps_update_job; [intros ?; repeat split|eauto with outbox].
  - apply keeps_by_key. intros. apply outbox_ok_update; eauto with outbox.
Qed.

Lemma keeps_fail_letta now e : keeps (fail_letta_backlog cfg now e).
Proof.
  apply keeps_if.
  - apply keeps_with_mongo, keeps_update_many; [intros ?; repeat split|eauto with outbox].
  - apply keeps_on_sqlite. intros s Hs. unfold sqlite_fail_letta_backlog. apply outbox_ok_update; eauto with outbox.
Qed.

Lemma keeps_retry now jitter j e : keeps (mark_fanout_retry cfg now jitter j e).
Proof.
  intros w Hw. unfold mark_fanout_retry. destruct (retry_decision (fanout cfg) now jitter j) as [s n] eqn:E.
  assert (forall I (r : fanout_row I), row_ok r -> row_ok (retry_row s n (_utc_now now) e r)) as Hok.
  { unfold retry_decision in E. destruct (attempts j <? _) in E; injection E as <- <-; intros I r (H1 & H2 & H3 & H4);
      unfold row_ok; cbn; repeat split; eauto. }
  destruct (_use_mongo_outbox w); apply (keeps_bind uuid4); try done; try (intros; apply keeps_ret).
  - apply keeps_update_job; [apply keeps_key_retry|auto].
  - apply keeps_by_key. intros. apply outbox_ok_update; [apply keeps_key_retry|auto|done].
Qed.
End operations.

(** ** The MongoDB claim without faults *)

Lemma mongo_call_ok {A} (f : list doc -> result (list doc * A)) w ds a :
  mongo_faults w = [] -> f (docs w) = Ok (ds, a) -> mongo_call f w = (set_docs ds [] w, Ok a).
Proof. intros Hf E. unfold mongo_call. by rewrite Hf, E. Qed.

Lemma due_first_antisym (a b : doc) : due_first a b = true -> due_first b a = true -> oid a = oid b.
Proof.
  intros H1 H2. pose proof (due_first_leb _ _ H1) as L1. pose proof (due_first_leb _ _ H2) as L2.
  pose proof (str_leb_antisym _ _ L1 L2) as E. unfold due_first in *. rewrite !str_ltb_leb, E in *.
  rewrite str_leb_refl, String.eqb_refl in *. cbn in *. by apply str_leb_antisym.
Qed.

(** The table after the rows [sel] are claimed. *)
Definition claim_all (now : string) (sel ds : list doc) : list doc :=
  map (fun d => if existsb (fun s => oid d =s oid s) sel then claim_row now (attempts d + 1) d else d) ds.

(** After the first row of the batch is claimed, the batch is the rest. *)
Lemma claim_first_rest now tgt ex ds d L :
  List.NoDup (map oid ds) ->
  sort_by due_first (List.filter (claimable now tgt ex) ds) = d :: L ->
  sort_by due_first (List.filter (claimable now tgt ex)
    (fst (update_where (fun d' => oid d' =s oid d) (fun d => claim_row now (attempts d + 1) d) ds))) = L.
Proof.
  intros Hnd HL. set (ds1 := fst _).
  assert (In d ds) as Hd.
  { assert (In d (d :: L)) as H by (by left). rewrite <- HL, sort_by_In, filter_In in H. tauto. }
  assert (List.filter (claimable now tgt ex) ds1 =
          List.filter (fun x => negb (oid x =s oid d)) (List.filter (claimable now tgt ex) ds)) as Hf.
  { unfold ds1, update_where. cbn [fst]. clear -Hnd. induction ds as [|x ds IH]; [done|].
    cbn [map List.filter] in *. apply List.NoDup_cons_iff in Hnd as [_ Hnd]. rewrite IH by done.
    destruct (oid x =s oid d) eqn:E.
    - replace (claimable now tgt ex (claim_row now (attempts x + 1) x)) with false by done.
      destruct (claimable now tgt ex x); [|done]. cbn. by rewrite E.
    - destruct (claimable now tgt ex x); [|done]. cbn. by rewrite E. }
  assert (Permutation (d :: L) (List.filter (claimable now tgt ex) ds)) as HP by (rewrite <- HL; apply sort_by_perm).
  assert (List.NoDup (map oid (d :: L))) as HndL.
  { eapply Permutation_NoDup; [symmetry; by apply Permutation_map|]. by apply NoDup_map_filter. }
  assert (StronglySorted (fun x y => due_first x y = true) (d :: L)) as HsL.
  { rewrite <- HL. apply sort_by_sorted; [apply due_first_total|apply due_first_trans]. }
  apply (sorted_unique due_first).
  - apply sort_by_sorted; [apply due_first_total|apply due_first_trans].
  - by inversion HsL.
  - rewrite sort_by_perm, Hf. transitivity (List.filter (fun x => negb (oid x =s oid d)) (d :: L)).
    { clear -HP. induction HP; cbn; repeat case_match; eauto using Permutation. }
    cbn. rewrite String.eqb_refl. cbn. cbn in HndL. apply List.NoDup_cons_iff in HndL as [Hn _].
    rewrite filter_all; [done|]. intros x Hx. apply negb_true_iff, String.eqb_neq. intros E.
    apply Hn. rewrite <- E. by apply in_map.
  - intros x y Hx Hy H1 H2. apply (In_NoDup_inj oid ds1).
    + unfold ds1, update_where; cbn. by rewrite map_update_column.
    + rewrite sort_by_In, filter_In in Hx. tauto.
    + rewrite sort_by_In, filter_In in Hy. tauto.
    + by apply due_first_antisym.
Qed.

Lemma claim_all_cons now d sel ds :
  List.NoDup (map oid ds) -> ~ In (oid d) (map oid sel) ->
  claim_all now sel (fst (update_where (fun d' => oid d' =s oid d) (fun d => claim_row now (attempts d + 1) d) ds))
  = claim_all now (d :: sel) ds.
Proof.
  intros Hnd Hn. unfold claim_all, update_where. cbn [fst]. rewrite List.map_map. apply List.map_ext.
  intros x. cbn [existsb]. destruct (String.eqb_spec (oid x) (oid d)) as [E|]; [|done]. cbn [orb].
  replace (existsb _ sel) with false; [done|]. symmetry. apply existsb_false_iff. intros s Hs.
  apply String.eqb_neq. intros E'. apply Hn. cbn in E'. rewrite <- E, E'. by apply in_map.
Qed.

Lemma mongo_claim_loop_spec n now tgt ex acc w :
  mongo_faults w = [] -> List.NoDup (map oid (docs w)) ->
  let sel := select_due now n tgt ex (docs w) in
  mongo_claim_loop n now tgt ex acc w =
    (set_docs (claim_all now sel (docs w)) [] w,
     Ok (acc ++ map (fun d => _fanout_doc_to_dict (claim_row now (attempts d + 1) d)) sel)).
Proof.
  revert acc w. induction n as [|n IH]; intros acc w Hf Hnd; cbn zeta; cbn [mongo_claim_loop].
  { unfold select_due. cbn. rewrite app_nil_r. unfold st_ret. f_equal.
    unfold claim_all. cbn. rewrite List.map_id. destruct w; cbn in *. by subst. }
  unfold st_bind, select_due.
  destruct (sort_by due_first (List.filter (claimable now tgt ex) (docs w))) as [|d L] eqn:HL.
  - erewrite mongo_call_ok; [|done|unfold find_one_and_update, find_sorted; by rewrite HL].
    cbn. rewrite app_nil_r. unfold claim_all. cbn. by rewrite List.map_id.
  - erewrite mongo_call_ok; [|done|unfold find_one_and_update, find_sorted; by rewrite HL].
    cbn [firstn map]. rewrite IH; [|done|].
    + unfold select_due. cbn [docs set_docs]. rewrite (claim_first_rest _ _ _ _ _ _ Hnd HL).
      rewrite <- app_assoc. cbn [app]. rewrite claim_all_cons; [done|done|].
      assert (List.NoDup (map oid (d :: L))) as HndL.
      { rewrite <- HL. by apply NoDup_map_sort, NoDup_map_filter. }
      cbn in HndL. apply List.NoDup_cons_iff in HndL as [Hd _]. intros Hin. apply Hd.
      apply in_map_iff in Hin as (x & Ex & Hx). apply In_firstn in Hx. rewrite <- Ex. by apply in_map.
    + cbn. by rewrite map_update_column.
Qed.

(** ** An accepted event is stored *)

(** Row [r] waits with the content of the event and is due at once. *)
Definition queued {I} (now : Z) (ev : event) (r : fanout_row I) : Prop :=
  summary r = ev_summary ev /\ payload r = ev_payload ev /\
  status_in (status r) [Pending; Retrying] = true /\ next_attempt_at r = _utc_now now.

(** Row [r] serves target [t]: it waits with the content of the event, as the
    event's own row or as a waiting row of the same project and file that the
    coalescer has overwritten; or the enqueue is not forced and [r] is the
    event's own row from an earlier enqueue, left as it was among the rows
    [old]. *)
Definition delivers {I} (now : Z) (ev : event) (force : bool) (old : list (fanout_row I)) (t : string)
    (r : fanout_row I) : Prop :=
  target r = t /\
  ((queued now ev r /\
    (dedupe_key r = make_dedupe_key ev t \/ (project r = ev_project ev /\ file r = ev_file ev))) \/
   (force = false /\ dedupe_key r = make_dedupe_key ev t /\ In r old)).

(** A row of [l] serves [t]. *)
Definition served {I} (now : Z) (ev : event) (force : bool) (old : list (fanout_row I)) (t : string)
    (l : list (fanout_row I)) : Prop := exists r, In r l /\ delivers now ev force old t r.

Section served.
Context {I : Type} `{RowId I}.
Variables (cfg : fanout_config) (now : Z) (ev : event) (force : bool) (old : list (fanout_row I)).
Implicit Types (r : fanout_row I) (l : list (fanout_row I)).

(** What an enqueue has left so far: rows of before, and rows it queued. *)
Definition grown l : Prop := forall r, In r l -> In r old \/ queued now ev r.

Lemma queued_requeue r : queued now ev (requeue_row cfg now ev r).
Proof. done. Qed.

Lemma queued_coalesce r : status_in (status r) [Pending; Retrying] = true -> queued now ev (coalesce_row now ev r).
Proof. done. Qed.

Lemma delivers_requeue t r : delivers now ev force old t r -> delivers now ev force old t (requeue_row cfg now ev r).
Proof. intros [Ht [[_ Hk]|(_ & Hk & _)]]; (split; [done|]); left; (split; [done|]); cbn; auto. Qed.

Lemma delivers_coalesce t r : status_in (status r) [Pending; Retrying] = true ->
  delivers now ev force old t r -> delivers now ev force old t (coalesce_row now ev r).
Proof. intros Hs [Ht [[_ Hk]|(_ & Hk & _)]]; (split; [done|]); left; (split; [done|]); cbn; auto. Qed.

Lemma delivers_new t k : delivers now ev force old t (new_row cfg now ev t k).
Proof. split; [done|]. left. split; [done|]. by left. Qed.

Lemma delivers_found t r l : grown l -> In r l -> target r = t -> dedupe_key r = make_dedupe_key ev t ->
  force = false -> delivers now ev force old t r.
Proof. intros Hg Hr Ht Hk Hf. split; [done|]. destruct (Hg r Hr); auto. Qed.

Lemma grown_update p u l : (forall r, In r l -> p r = true -> queued now ev (u r)) -> grown l ->
  grown (fst (update_where p u l)).
Proof.
  intros Hu Hg r Hr. apply in_map_iff in Hr as (r0 & <- & Hr0). destruct (p r0) eqn:Ep; [right; by apply Hu|by apply Hg].
Qed.

Lemma grown_new t k l : grown l -> grown (l ++ [new_row cfg now ev t k]).
Proof. intros Hg r [Hr|[<-|[]]]%in_app_iff; [by apply Hg|by right]. Qed.

Lemma served_update p u t l :
  (forall r, p r = true -> delivers now ev force old t r -> delivers now ev force old t (u r)) ->
  served now ev force old t l -> served now ev force old t (fst (update_where p u l)).
Proof.
  intros Hu (r & Hr & Hd). eexists. split; [by apply (update_where_In p u)|]. destruct (p r) eqn:E; [by apply Hu|done].
Qed.

Lemma served_app t l l' : served now ev force old t l -> served now ev force old t (l ++ l').
Proof. intros (r & Hr & Hd). exists r. split; [apply in_or_app; by left|done]. Qed.

(** A row found under the dedupe key of [t] and requeued. *)
Lemma served_requeue t r p l : In r l -> p r = true -> target r = t -> dedupe_key r = make_dedupe_key ev t ->
  served now ev force old t (fst (update_where p (requeue_row cfg now ev) l)).
Proof.
  intros Hr Hp Ht Hk. exists (requeue_row cfg now ev r). split; [|split; [done|left; split; [done|by left]]].
  pose proof (update_where_In p (requeue_row cfg now ev) l r Hr) as Hu. by rewrite Hp in Hu.
Qed.

(** The candidate of the coalescer, overwritten. *)
Lemma served_coalesce t r p l : In r l -> p r = true -> coalesce_matches cfg now ev t r = true ->
  served now ev force old t (fst (update_where p (coalesce_row now ev) l)).
Proof.
  intros Hr Hp Hm. unfold coalesce_matches in Hm. blift. exists (coalesce_row now ev r).
  split; [|split; [done|left; split; [done|by right]]].
  pose proof (update_where_In p (coalesce_row now ev) l r Hr) as Hu. by rewrite Hp in Hu.
Qed.
End served.

(** *** SQLite *)

Section sqlite_served.
Variables (cfg : fanout_config) (now : Z) (ev : event) (force : bool) (old : list (fanout_row Z)).

(** A step of the transaction serves [t] and keeps what is served. *)
Definition sqlite_serves (t : string) (st st' : sqlite_outbox) : Prop :=
  grown now ev old (rows st) -> grown now ev old (rows st') /\ served now ev force old t (rows st') /\
  forall t', served now ev force old t' (rows st) -> served now ev force old t' (rows st').

Lemma enqueue_dedupe_serves tgt st c st' c' : outbox_ok st -> In tgt FANOUT_TARGETS ->
  enqueue_dedupe cfg now ev force tgt st c = Ok (st', c') -> sqlite_serves tgt st st'.
Proof.
  intros Hok Ht E Hg. unfold enqueue_dedupe in E. destruct (List.find _ _) as [r|] eqn:Hf.
  - apply List.find_some in Hf as [Hin Hd]. blift.
    assert (target r = tgt) as Htr.
    { destruct Hok as [Htab _]. destruct (table_ok_row _ _ Htab Hin) as (Hdk & Hkt & _).
      eapply dedupe_key_target; [done|exact Ht|]. by rewrite <- Hdk, Hd. }
    destruct force eqn:Hfo; injection E as <- <-.
    + split; [by apply grown_update|]. split; [apply (served_requeue cfg now ev true old tgt r); [done|apply Z.eqb_refl|done..]|].
      intros t'. apply served_update. intros r' _. apply delivers_requeue.
    + split; [done|]. split; [|done]. exists r. split; [done|]. by eapply delivers_found.
  - rewrite insert_row_fresh in E by done. injection E as <- <-. cbn [rows]. split; [by apply grown_new|].
    split; [|intros t'; apply served_app]. eexists. split; [apply in_or_app; right; by left|apply delivers_new].
Qed.

Lemma enqueue_target_serves tgt st c st' c' : outbox_ok st -> In tgt FANOUT_TARGETS ->
  enqueue_target cfg now ev force tgt st c = Ok (st', c') -> sqlite_serves tgt st st'.
Proof.
  intros Hok Ht E. unfold enqueue_target in E.
  destruct (tries_coalesce cfg force ev tgt) eqn:Htc; [|by eapply enqueue_dedupe_serves].
  destruct (coalesce_candidate cfg now ev tgt (rows st)) as [r|] eqn:Hcand; [|by eapply enqueue_dedupe_serves].
  destruct (coalesce_update now ev (oid r) (rows st)) as [rs n] eqn:Hu.
  rewrite (coalesce_update_pos _ _ _ _ _ _ _ _ Hcand Hu) in E. injection E as <- <-.
  apply candidate_spec in Hcand as [Hin Hm]. unfold coalesce_update in Hu.
  set (p := fun r' : fanout_row Z => _) in Hu. injection Hu as Hrs _.
  assert (rs = fst (update_where p (coalesce_row now ev) (rows st))) as -> by (symmetry; exact Hrs).
  assert (forall r', p r' = true -> status_in (status r') [Pending; Retrying] = true) as Hp
    by (unfold p; intros r' ?; by blift).
  intros Hg. cbn [rows with_rows]. split; [apply grown_update; [|done]; intros; apply queued_coalesce; auto|].
  split; [|intros t'; apply served_update; intros; apply delivers_coalesce; auto].
  apply (served_coalesce cfg now ev force old tgt r); [done| |done].
  unfold coalesce_matches in Hm. blift. unfold p. rewrite Z.eqb_refl. by replace (status_in (status r) _) with true by congruence.
Qed.

Lemma enqueue_targets_serve ts st c st' c' : outbox_ok st -> (forall t, In t ts -> In t FANOUT_TARGETS) ->
  enqueue_targets cfg now ev force ts st c = Ok (st', c') -> grown now ev old (rows st) ->
  grown now ev old (rows st') /\ (forall t, In t ts -> served now ev force old t (rows st')) /\
  forall t', served now ev force old t' (rows st) -> served now ev force old t' (rows st').
Proof.
  revert st c. induction ts as [|t ts IH]; intros st c Hok Hts E Hg; cbn [enqueue_targets] in E.
  { injection E as <- <-. done. }
  destruct (enqueue_target_ok cfg now ev force t st c) as (st1 & c1 & E1 & Hok1); [apply Hts; by left|done|].
  rewrite E1 in E. cbn [rbind fst snd] in E.
  destruct (enqueue_target_serves _ _ _ _ _ Hok (Hts t (or_introl eq_refl)) E1 Hg) as (Hg1 & Hs1 & Hk1).
  destruct (IH st1 c1 Hok1 ltac:(intros; apply Hts; by right) E Hg1) as (Hg2 & Hs2 & Hk2).
  split; [done|]. split; [|auto]. intros t' [<-|Ht']; auto.
Qed.
End sqlite_served.

(** *** MongoDB *)

Section durable.
Variable cfg : store_config.
Variable uuid4 : nat -> string.
Hypothesis uuid4_inj : forall i j, uuid4 i = uuid4 j -> i = j.
Variables (now : Z) (ev : event) (force : bool) (old : list doc).
Abbreviation serving := (served now ev force old).

(** One target, without driver faults: it succeeds and the target is served. *)
Definition serves (t : string) (w : outbox_store) (m : ST outbox_store enqueue_counts) : Prop :=
  exists w' c', m w = (w', Ok c') /\ mongo_faults w' = [] /\ grown now ev old (docs w') /\ serving t (docs w') /\
    forall t', serving t' (docs w) -> serving t' (docs w').

Lemma mongo_dedupe_serves tgt c w :
  store_ok uuid4 w -> mongo_faults w = [] -> grown now ev old (docs w) -> In tgt FANOUT_TARGETS ->
  serves tgt w (mongo_dedupe cfg uuid4 now ev force tgt c).
Proof.
  intros [_ [Htab Hids]] Hf Hg Ht. unfold serves, mongo_dedupe, st_bind.
  erewrite mongo_call_ok; [|done|reflexivity].
  assert (set_docs (docs w) [] w = w) as -> by (destruct w; cbn in *; by subst).
  destruct (List.find _ (docs w)) as [r|] eqn:Hfind.
  - apply List.find_some in Hfind as [Hin Hk]. blift.
    assert (target r = tgt) as Htr.
    { destruct (table_ok_row _ _ Htab Hin) as (Hdk & Hkt & _).
      eapply dedupe_key_target; [done|exact Ht|]. by rewrite <- Hdk, Hk. }
    destruct force eqn:Hfo.
    + erewrite mongo_call_ok; [|done|reflexivity]. rewrite update_first_where by apply Htab.
      destruct (List.find (fun d => oid d =s oid r) (docs w)) as [d0|] eqn:Hf0.
      2:{ eapply List.find_none in Hf0; [|exact Hin]. blift. done. }
      apply List.find_some in Hf0 as [_ He]. blift.
      do 2 eexists. split; [reflexivity|]. split; [done|].
      split; [by apply grown_update|]. split; [|intros t'; apply served_update; intros r' _; apply delivers_requeue].
      apply (served_requeue (fanout cfg) now ev true old tgt r); [done| |done..]. by apply String.eqb_eq.
    + do 2 eexists. split; [reflexivity|]. split; [done|]. split; [done|]. split; [|done].
      exists r. split; [done|]. by eapply delivers_found.
  - unfold mongo_insert, st_bind, new_uuid, st_try. cbn [docs].
    assert (insert_one (new_row (fanout cfg) now ev tgt (uuid4 (uuid_next w))) (docs w) =
      Ok (docs w ++ [new_row (fanout cfg) now ev tgt (uuid4 (uuid_next w))], tt)) as E.
    { unfold insert_one. replace (existsb _ _) with false; [done|]. symmetry. apply existsb_false_iff.
      intros d Hd. apply orb_false_iff. split.
      - apply String.eqb_neq. rewrite List.Forall_forall in Hids. destruct (Hids d Hd) as (i & Hi & ->).
        cbn. intros E%uuid4_inj. lia.
      - by eapply List.find_none in Hfind. }
    erewrite mongo_call_ok; [|done|exact E]. do 2 eexists. split; [reflexivity|]. split; [done|]. cbn [docs set_docs].
    split; [by apply grown_new|]. split; [|intros t'; apply served_app].
    eexists. split; [apply in_or_app; right; by left|apply delivers_new].
Qed.

Lemma mongo_target_serves tgt c w :
  store_ok uuid4 w -> mongo_faults w = [] -> grown now ev old (docs w) -> In tgt FANOUT_TARGETS ->
  serves tgt w (mongo_enqueue_target cfg uuid4 now ev force tgt c).
Proof.
  intros Hok Hf Hg Ht. unfold serves, mongo_enqueue_target, st_bind.
  assert (set_docs (docs w) [] w = w) as Ew by (destruct w; cbn in *; by subst).
  destruct (tries_coalesce _ _ _ _); [|by apply mongo_dedupe_serves].
  erewrite mongo_call_ok; [|done|reflexivity]. rewrite Ew.
  destruct (coalesce_candidate _ _ _ _ _) as [r|] eqn:Hc; [|by apply mongo_dedupe_serves].
  assert (In r (docs w) /\ coalesce_matches (fanout cfg) now ev tgt r = true) as [Hin Hm].
  { unfold coalesce_candidate in Hc. by apply (find_sorted_spec newest_first). }
  assert (status_in (status r) [Pending; Retrying] = true) as Hsr by (unfold coalesce_matches in Hm; by blift).
  set (p := fun d : doc => (oid d =s oid r) && status_in (status d) [Pending; Retrying]).
  assert (List.find p (docs w) = Some r) as Hfind.
  { destruct (List.find p (docs w)) as [d|] eqn:E.
    - apply List.find_some in E as [Hd Hp]. unfold p in Hp. blift. f_equal.
      apply (In_NoDup_inj oid (docs w)); [apply Hok|done..].
    - eapply List.find_none in E; [|exact Hin]. unfold p in E. rewrite String.eqb_refl in E. cbn in E. congruence. }
  erewrite mongo_call_ok; [|done|reflexivity]. rewrite update_first_where by apply Hok. rewrite Hfind.
  assert (fst (update_where (fun d => oid d =s oid r) (coalesce_row now ev) (docs w)) =
          fst (update_where p (coalesce_row now ev) (docs w))) as ->.
  { cbn. apply List.map_ext_in. intros d Hd. unfold p. destruct (String.eqb_spec (oid d) (oid r)) as [E|]; [|done].
    assert (d = r) as -> by (apply (In_NoDup_inj oid (docs w)); [apply Hok|done..]). cbn. by rewrite Hsr. }
  unfold modified. cbn [List.filter]. destruct (bool_decide (coalesce_row now ev r = r)) eqn:Eq; cbn [negb length].
  - apply bool_decide_eq_true in Eq.
    assert (set_docs (fst (update_where p (coalesce_row now ev) (docs w))) [] w = w) as ->.
    { transitivity (set_docs (docs w) [] w); [f_equal|exact Ew]. cbn. rewrite <- (List.map_id (docs w)) at 2. apply List.map_ext_in.
      intros d Hd. unfold p. destruct (String.eqb_spec (oid d) (oid r)) as [E|]; [|done].
      assert (d = r) as -> by (apply (In_NoDup_inj oid (docs w)); [apply Hok|done..]).
      destruct (status_in _ _); [done|done]. }
    by apply mongo_dedupe_serves.
  - assert (forall d, p d = true -> status_in (status d) [Pending; Retrying] = true) as Hp
      by (unfold p; intros d ?; by blift).
    do 2 eexists. split; [reflexivity|]. split; [done|].
    split; [apply grown_update; [|done]; intros; apply queued_coalesce; auto|].
    split; [|intros t'; apply served_update; intros; apply delivers_coalesce; auto].
    apply (served_coalesce (fanout cfg) now ev force old tgt r); [done| |done]. unfold p. by rewrite String.eqb_refl, Hsr.
Qed.

Lemma mongo_targets_serve ts c w :
  store_ok uuid4 w -> mongo_faults w = [] -> grown now ev old (docs w) -> (forall t, In t ts -> In t FANOUT_TARGETS) ->
  exists w' c', mongo_enqueue_targets cfg uuid4 now ev force ts c w = (w', Ok c') /\
    (forall t, In t ts -> serving t (docs w')) /\ forall t', serving t' (docs w) -> serving t' (docs w').
Proof.
  revert c w. induction ts as [|t ts IH]; intros c w Hok Hf Hg Hts; cbn [mongo_enqueue_targets].
  { do 2 eexists. split; [reflexivity|]. done. }
  destruct (mongo_target_serves t c w Hok Hf Hg (Hts t ltac:(by left))) as (w1 & c1 & E & Hf1 & Hg1 & Hs1 & Hk1).
  assert (store_ok uuid4 w1) as Hok1.
  { pose proof (keeps_enqueue_target cfg uuid4 now ev force t c (Hts t ltac:(by left)) w Hok) as H. by rewrite E in H. }
  destruct (IH c1 w1 Hok1 Hf1 Hg1) as (w2 & c2 & E2 & Hall & Hk2); [intros; apply Hts; by right|].
  unfold st_bind. rewrite E. exists w2, c2. split; [done|]. split; [|auto]. intros t' [<-|Ht']; auto.
Qed.
End durable.

(** ** Reachable stores *)

(** Deletions of the garbage collectors and the prune. *)
Definition delete_rows (keep : fanout_row Z -> bool) (keepd : doc -> bool) (w : outbox_store) : outbox_store :=
  set_db (mkDb (with_rows (tables (db w)) (List.filter keep (rows (tables (db w))))) (db_faults (db w)))
    (set_docs (List.filter keepd (docs w)) (mongo_faults w) w).

Section reachable.
Variable cfg : store_config.
Variable uuid4 : nat -> string.

(** Any operation, whatever its calls answer; the faults are part of the
    state. *)
Inductive fanout_op : outbox_store -> outbox_store -> Prop :=
| op_enqueue now p ts force w : fanout_op w (fst (enqueue_fanout_outbox cfg uuid4 now p ts force w))
| op_claim now limit tgt ex w : fanout_op w (fst (claim_fanout_batch cfg now limit tgt ex w))
| op_recover now age w : fanout_op w (fst (recover_stale_running_jobs cfg now age w))
| op_success now k w : fanout_op w (fst (mark_fanout_success cfg now k w))
| op_failed now k e w : fanout_op w (fst (mark_fanout_failed cfg now k e w))
| op_fail_letta now e w : fanout_op w (fst (fail_letta_backlog cfg now e w))
| op_retry now jitter j e w : fanout_op w (fst (mark_fanout_retry cfg now jitter j e w)).

Inductive store_step : outbox_store -> outbox_store -> Prop :=
| sstep_op w w' : fanout_op w w' -> store_step w w'
| sstep_delete keep keepd w : store_step w (delete_rows keep keepd w).

(** A store without rows: any backend, any faults to come. *)
Definition empty_store (active : backend) (fs ms : list fault) (cs : list (option exn)) : outbox_store :=
  mkStore (mkDb empty_outbox fs) [] ms 0 active false cs 0 [].

Inductive store_reachable : outbox_store -> Prop :=
| sreach_init active fs ms cs : store_reachable (empty_store active fs ms cs)
| sreach_step w w' : store_reachable w -> store_step w w' -> store_reachable w'.

Lemma store_step_ok w w' : store_step w w' -> store_ok uuid4 w -> store_ok uuid4 w'.
Proof.
  intros Hs Hok. destruct Hs as [w w' Hop|].
  - destruct Hop; [by apply keeps_enqueue|by apply keeps_claim|by apply keeps_recover|by apply keeps_success
      |by apply keeps_failed|by apply keeps_fail_letta|by apply keeps_retry].
  - destruct Hok as [H1 [H2 H3]]. split; [by apply outbox_ok_filter|]. split; [by apply table_ok_filter|].
    cbn. rewrite List.Forall_forall in *. intros d [Hd _]%filter_In. auto.
Qed.

Lemma store_reachable_ok w : store_reachable w -> store_ok uuid4 w.
Proof.
  induction 1 as [active fs ms cs|w w' _ IH Hs]; [|by eapply store_step_ok].
  split; [apply empty_outbox_ok|]. split; [|constructor]. repeat split; constructor.
Qed.
End reachable.

(** ** What an answered transaction did *)

Lemma run_attempts_answer {S A} (P : S -> Prop) (fn : S -> result (S * A)) more d d' a :
  (forall s, P s -> match fn s with Ok (s', _) => P s' | Raise _ => True end) ->
  P (tables d) -> run_attempts fn more d = (d', Ok a) -> exists s, P s /\ fn s = Ok (tables d', a).
Proof.
  intros Hfn.
  assert (forall d d' r, P (tables d) -> with_connection fn d = (d', r) ->
    P (tables d') /\ match r with Ok a => exists s, P s /\ fn s = Ok (tables d', a) | Raise _ => True end) as H1.
  { intros d0 d1 r Hd E. pose proof (Hfn _ Hd) as Hs. unfold with_connection in E.
    destruct (next_fault _) as [ft rest].
    destruct ft; [| |]; destruct (fn (tables d0)) as [[s x]|?] eqn:Ef; injection E as <- <-; cbn; eauto. }
  revert d. induction more as [|more IH]; intros d Hd E; cbn [run_attempts] in E.
  - by apply (H1 _ _ _ Hd) in E as [_ ?].
  - unfold st_try in E. destruct (with_connection fn d) as [d1 [x|e]] eqn:Ec.
    + injection E as -> ->. by apply (H1 _ _ _ Hd) in Ec as [_ ?].
    + apply (H1 _ _ _ Hd) in Ec as [Hd1 _]. destruct (retryable e); [by eapply IH|done].
Qed.

Section accepted.
Variable cfg : store_config.
Variable uuid4 : nat -> string.
Hypothesis uuid4_inj : forall i j, uuid4 i = uuid4 j -> i = j.
Variables (now : Z) (p : dict) (force : bool).
Hypothesis has_id : jtruthy (dget p "event_id") = true.
Let ev : event := event_of_payload "" p.

(** In some store every target in [ts] is served; [od] and [or] are the rows
    the stores held before. *)
Definition accepted (od : list doc) (or : list (fanout_row Z)) (ts : list string) (w : outbox_store) : Prop :=
  (forall t, In t ts -> served now ev force od t (docs w)) \/
  (forall t, In t ts -> served now ev force or t (rows (tables (db w)))).

(** The rows of both stores. *)
Definition store_rows (w : outbox_store) := (docs w, rows (tables (db w))).

Lemma init_faults w : let w' := fst (init_fanout_outbox_mongo_client cfg w) in
  mongo_faults w' = mongo_faults w /\ store_rows w' = store_rows w.
Proof.
  unfold init_fanout_outbox_mongo_client, _demote_outbox_backend, st_bind, st_modify, st_ret. cbn.
  repeat dmatch; done.
Qed.

Lemma mongo_answers ts w od or : (forall t, In t ts -> In t FANOUT_TARGETS) ->
  store_ok uuid4 w -> mongo_faults w = [] -> docs w = od ->
  match recorded (_enqueue_fanout_outbox_mongo cfg uuid4 now p ts force) w with
  | (w', Ok _) => accepted od or ts w'
  | (w', Raise _) => store_ok uuid4 w' /\ mongo_faults w' = [] /\ store_rows w' = store_rows w
  end.
Proof.
  intros Hts Hok Hf Hd. unfold recorded, _enqueue_fanout_outbox_mongo, with_mongo, st_bind.
  pose proof (keeps_init cfg uuid4 w Hok) as Hok1. destruct (init_faults w) as [Hf1 Hs1].
  destruct (init_fanout_outbox_mongo_client cfg w) as [w1 [[]|e]]; cbn [fst] in *; rewrite Hf in Hf1; try done.
  unfold read_event. rewrite has_id. cbn [st_ret].
  destruct (mongo_targets_serve cfg uuid4 uuid4_inj now ev force od ts zero_counts w1 Hok1 Hf1) as (w2 & c2 & E & Hall & _);
    [|exact Hts|].
  { unfold store_rows in Hs1. injection Hs1 as -> _. rewrite Hd. intros r Hr. by left. }
  fold ev. rewrite E. cbn. left. by destruct (coalesced c2 <=? 0).
Qed.

Lemma sqlite_answers ts w od or : (forall t, In t ts -> In t FANOUT_TARGETS) ->
  store_ok uuid4 w -> mongo_faults w = [] -> rows (tables (db w)) = or ->
  match recorded (on_sqlite cfg (sqlite_enqueue (fanout cfg) now ev ts force)) w with
  | (w', Ok _) => accepted od or ts w'
  | (w', Raise _) => store_ok uuid4 w' /\ mongo_faults w' = [] /\ docs w' = docs w
  end.
Proof.
  intros Hts Hok Hf Hor. unfold recorded, st_bind.
  assert (keeps uuid4 (on_sqlite cfg (sqlite_enqueue (fanout cfg) now ev ts force))) as Hk.
  { apply keeps_on_sqlite. intros s Hs.
    by destruct (sqlite_enqueue_ok (fanout cfg) now ev ts force s Hs) as (? & ? & -> & ?). }
  specialize (Hk w Hok). unfold on_sqlite in *.
  destruct (_task_db_exec (TASK_DB_LOCK_RETRIES cfg) _ (db w)) as [d' [c|e]] eqn:E; [|done].
  assert (forall s, outbox_ok s /\ grown now ev or (rows s) ->
    match sqlite_enqueue (fanout cfg) now ev ts force s with
    | Ok (s', _) => outbox_ok s' /\ grown now ev or (rows s') | Raise _ => True end) as Hstep.
  { intros s [Hs Hg]. destruct (sqlite_enqueue_ok (fanout cfg) now ev ts force s Hs) as (s' & c' & Es & Hs'). rewrite Es.
    split; [done|]. by eapply (enqueue_targets_serve (fanout cfg) now ev force or) in Es as [? _]; [|done|apply known_targets|]. }
  assert (outbox_ok (tables (db w)) /\ grown now ev or (rows (tables (db w)))) as H0.
  { split; [apply Hok|]. rewrite Hor. intros r Hr. by left. }
  destruct (run_attempts_answer _ _ _ _ _ _ Hstep H0 E) as (s & [Hs Hg] & Es).
  eapply (enqueue_targets_serve (fanout cfg) now ev force or) in Es as (_ & Hall & _); [|done|apply known_targets|done].
  cbn. right. intros t Ht. replace (rows _) with (rows (tables d')) by (by destruct (coalesced c <=? 0)).
  apply Hall. apply filter_In. split; [done|by apply mem_str_In, Hts].
Qed.

Lemma demote_state w : let w' := fst (_demote_outbox_backend cfg w) in
  mongo_faults w' = mongo_faults w /\ store_rows w' = store_rows w.
Proof. unfold _demote_outbox_backend, st_modify. cbn. by repeat dmatch. Qed.

Lemma promote_faults reason w : let w' := fst (_promote_outbox_backend_to_mongo_if_sqlite_error cfg reason w) in
  mongo_faults w' = mongo_faults w /\ store_rows w' = store_rows w.
Proof.
  cbn zeta. unfold _promote_outbox_backend_to_mongo_if_sqlite_error. do 3 (destruct (negb _); [done|]).
  unfold st_bind. pose proof (init_faults (set_active BMongo w)) as H.
  by destruct (init_fanout_outbox_mongo_client cfg _) as [w1 [[]|e]].
Qed.

Lemma enqueue_answers ts w : let known := List.filter (fun t => mem_str t FANOUT_TARGETS) ts in
  store_ok uuid4 w -> mongo_faults w = [] ->
  match enqueue_fanout_outbox cfg uuid4 now p ts force w with
  | (w', Ok _) => accepted (docs w) (rows (tables (db w))) known w'
  | (w', Raise _) => store_ok uuid4 w' /\ mongo_faults w' = []
  end.
Proof.
  cbn zeta. intros Hok Hf. unfold enqueue_fanout_outbox. set (known := List.filter _ ts).
  unfold st_bind at 1, read_event at 1. rewrite has_id. cbn [st_ret]. fold ev.
  set (mongo := recorded (_enqueue_fanout_outbox_mongo cfg uuid4 now p known force)).
  set (od := docs w). set (or := rows (tables (db w))).
  assert (forall w1, store_ok uuid4 w1 -> mongo_faults w1 = [] -> store_rows w1 = (od, or) ->
    match sqlite_else_mongo cfg (recorded (on_sqlite cfg (sqlite_enqueue (fanout cfg) now ev known force))) mongo w1 with
    | (w', Ok _) => accepted od or known w' | (w', Raise _) => store_ok uuid4 w' /\ mongo_faults w' = [] end) as Hsql.
  { intros w1 Hok1 Hf1 [= Hd1 Hr1]. unfold sqlite_else_mongo, st_try, st_bind.
    pose proof (sqlite_answers known w1 od or (known_targets ts) Hok1 Hf1 Hr1) as Ha.
    destruct (recorded _ w1) as [w2 [c|e]]; [done|]. destruct Ha as (Hok2 & Hf2 & Hd2).
    pose proof (keeps_promote cfg uuid4 (exn_str e) w2 Hok2) as Hok3.
    destruct (promote_faults (exn_str e) w2) as [Hf3 Hs3].
    destruct (_promote_outbox_backend_to_mongo_if_sqlite_error cfg (exn_str e) w2) as [w3 [[]|e']];
      cbn [fst] in *; rewrite Hf2 in Hf3; [|done|done]. injection Hs3 as Hd3 _.
    pose proof (mongo_answers known w3 od or (known_targets ts) Hok3 Hf3 ltac:(congruence)) as Hm. fold mongo in Hm.
    destruct (mongo w3) as [w4 [c|e']]; [done|]. by destruct Hm as (? & ? & _). }
  unfold mongo_else_sqlite. destruct (_use_mongo_outbox w); [|by apply Hsql].
  unfold st_try, st_bind. pose proof (mongo_answers known w od or (known_targets ts) Hok Hf eq_refl) as Ha. fold mongo in Ha.
  destruct (mongo w) as [w1 [c|e]]; [done|]. destruct Ha as (Hok1 & Hf1 & Hs1).
  pose proof (keeps_demote cfg uuid4 w1 Hok1) as Hok2. destruct (demote_state w1) as [Hf2 Hs2].
  unfold _demote_outbox_backend, st_modify in Hok2, Hf2, Hs2 |- *. cbn [fst] in Hok2, Hf2, Hs2.
  apply Hsql; [exact Hok2|by rewrite Hf2|by rewrite Hs2, Hs1].
Qed.
End accepted.

(** ** Properties *)

(** C12: whatever sequence of operations runs and whatever driver calls, commits
    and connections fail on the way, both stores keep the table invariant:
    unique keys and dedupe keys, known targets, delivery columns that agree
    with the status. *)
Theorem store_reachable_wf cfg uuid4 w :
  store_reachable cfg uuid4 w -> outbox_ok (tables (db w)) /\ table_ok (docs w).
Proof. intros Hr. destruct (store_reachable_ok cfg uuid4 w Hr) as [H1 [H2 _]]. done. Qed.

(** C2: while no MongoDB call fails, an enqueue of an event with an identifier
    that returns has stored it: whichever backend answered, after any SQLite
    failures, lost commits and failed connections, one store serves every known
    target.  The row that serves a target waits there with the payload of the
    event and is due at once, as the event's own row or as an overwritten row of
    the same project and file; or, when the enqueue is not forced, it is the
    row an earlier enqueue of the same event had left in that store,
    unchanged. *)
Theorem enqueue_accepted_is_stored cfg uuid4 now p ts force w w' c :
  (forall i j, uuid4 i = uuid4 j -> i = j) ->
  store_reachable cfg uuid4 w -> mongo_faults w = [] -> jtruthy (dget p "event_id") = true ->
  enqueue_fanout_outbox cfg uuid4 now p ts force w = (w', Ok c) ->
  let known := List.filter (fun t => mem_str t FANOUT_TARGETS) ts in
  let ev := event_of_payload "" p in
  (forall t, In t known -> exists d, In d (docs w') /\ delivers now ev force (docs w) t d) \/
  (forall t, In t known -> exists r, In r (rows (tables (db w'))) /\ delivers now ev force (rows (tables (db w))) t r).
Proof.
  intros Hinj Hr Hf Hid E. cbn zeta.
  pose proof (enqueue_answers cfg uuid4 Hinj now p force Hid ts w (store_reachable_ok cfg uuid4 w Hr) Hf) as H.
  rewrite E in H. exact H.
Qed.

(** The backend can be used: no fault is pending. *)
Definition ready (cfg : store_config) (w : outbox_store) : bool :=
  match fanout_outbox_backend_active w with
  | BSqlite => match db_faults (db w) with [] => true | _ => false end
  | BMongo => pymongo_available cfg && mongo_client w && match mongo_faults w with [] => true | _ => false end
  end.

(** A claim on a store that answers. *)
Lemma claim_ready cfg uuid4 now limit tgt ex w :
  store_ok uuid4 w -> ready cfg w = true ->
  let t := _utc_now now in let n := clamp_limit limit in
  let claim {I} (r : fanout_row I) := claim_row t (attempts r + 1) r in
  match fanout_outbox_backend_active w with
  | BSqlite =>
      let sel := select_due t n tgt ex (rows (tables (db w))) in
      exists w', claim_fanout_batch cfg now limit tgt ex w = (w', Ok (map (fun r => with_key IntId (claim r)) sel)) /\
        ready cfg w' = true /\ fanout_outbox_backend_active w' = BSqlite /\ docs w' = docs w /\
        rows (tables (db w')) =
          map (fun r => if existsb (fun s => oid r =? oid s) sel then claim r else r) (rows (tables (db w)))
  | BMongo =>
      let sel := select_due t n tgt ex (docs w) in
      exists w', claim_fanout_batch cfg now limit tgt ex w = (w', Ok (map (fun d => _fanout_doc_to_dict (claim d)) sel)) /\
        ready cfg w' = true /\ fanout_outbox_backend_active w' = BMongo /\ tables (db w') = tables (db w) /\
        docs w' = map (fun d => if existsb (fun s => oid d =s oid s) sel then claim d else d) (docs w)
  end.
Proof.
  intros [H1 [[H2 _] _]] Hready. cbn zeta.
  unfold ready in Hready. unfold claim_fanout_batch, mongo_else_sqlite, _use_mongo_outbox.
  destruct (fanout_outbox_backend_active w) eqn:Eb; cbn [bool_decide decide_rel].
  - destruct (db_faults (db w)) eqn:Hdf; [|done].
    unfold sqlite_else_mongo, st_try, on_sqlite, _task_db_exec.
    destruct (db w) as [s fs] eqn:Ed. cbn [tables db_faults] in *. subst fs.
    erewrite run_attempts_no_fault; [|by rewrite sqlite_claim_spec].
    eexists. split; [by rewrite List.map_map|]. unfold ready. cbn. by rewrite Eb.
  - blift. change (bool_decide (BMongo = BMongo)) with true. cbn match.
    unfold st_try, _claim_fanout_batch_mongo, with_mongo, st_bind, init_fanout_outbox_mongo_client.
    unfold _use_mongo_outbox. rewrite Eb. change (bool_decide (BMongo = BMongo)) with true. cbn [negb].
    destruct (pymongo_available cfg) eqn:Hp; [|done].
    destruct (mongo_client w) eqn:Hc; [|done]. cbn [negb].
    destruct (mongo_faults w) eqn:Hf; [|done]. rewrite mongo_claim_loop_spec by done.
    eexists. split; [reflexivity|]. unfold ready. cbn. by rewrite Eb, Hc, Hp.
Qed.

(** C36: without faults both backends implement the same claim: the batch is the
    first [limit] waiting, due and matching rows of the active store in the
    order of due time and key, each with one more attempt, and only they
    change; the store stays usable. *)
Theorem claim_takes_due_batch cfg uuid4 now limit tgt ex w :
  store_reachable cfg uuid4 w -> ready cfg w = true ->
  let t := _utc_now now in let n := clamp_limit limit in
  let claim {I} (r : fanout_row I) := claim_row t (attempts r + 1) r in
  match fanout_outbox_backend_active w with
  | BSqlite =>
      let sel := select_due t n tgt ex (rows (tables (db w))) in
      exists w', claim_fanout_batch cfg now limit tgt ex w = (w', Ok (map (fun r => with_key IntId (claim r)) sel)) /\
        ready cfg w' = true /\ fanout_outbox_backend_active w' = BSqlite /\ docs w' = docs w /\
        rows (tables (db w')) =
          map (fun r => if existsb (fun s => oid r =? oid s) sel then claim r else r) (rows (tables (db w)))
  | BMongo =>
      let sel := select_due t n tgt ex (docs w) in
      exists w', claim_fanout_batch cfg now limit tgt ex w = (w', Ok (map (fun d => _fanout_doc_to_dict (claim d)) sel)) /\
        ready cfg w' = true /\ fanout_outbox_backend_active w' = BMongo /\ tables (db w') = tables (db w) /\
        docs w' = map (fun d => if existsb (fun s => oid d =s oid s) sel then claim d else d) (docs w)
  end.
Proof. intros Hr. by apply (claim_ready cfg uuid4), (store_reachable_ok cfg). Qed.

(** The JSON columns of a stored row are read back as they were written. *)
Theorem row_columns_roundtrip (r : fanout_row Z) :
  json_wf (payload r) -> json_wf (topic_tags r) ->
  _fanout_row_to_dict r (stored_columns r) = Some (with_key IntId r).
Proof.
  intros Hp Ht. unfold _fanout_row_to_dict, stored_columns. cbn [fst snd].
  assert (forall j, json_wf j -> truthy (dumps j) = true) as Hne
    by (intros j (c & s & -> & _)%dumps_head; done).
  by rewrite !Hne, !loads_dumps by done.
Qed.

(** While SQLite is active and promotion is off, no operation reaches the
    collection. *)
Definition untouched {A} (m : ST outbox_store A) : Prop :=
  forall w, fanout_outbox_backend_active w = BSqlite ->
    fanout_outbox_backend_active (fst (m w)) = BSqlite /\ docs (fst (m w)) = docs w.

Section frame.
Variable cfg : store_config.
Hypothesis no_promotion : FANOUT_OUTBOX_AUTO_PROMOTE_MONGO_ON_SQLITE_IO_ERROR cfg = false.

Lemma untouched_ret {A} (a : A) : untouched (st_ret a).
Proof. by intros w. Qed.

Lemma untouched_bind {A B} (m : ST outbox_store A) (k : A -> ST outbox_store B) :
  untouched m -> (forall a, untouched (k a)) -> untouched (st_bind m k).
Proof.
  intros Hm Hk w Hw. destruct (Hm w Hw) as [H1 H2]. unfold st_bind.
  destruct (m w) as [w' [a|e]]; [|done]. cbn in *. destruct (Hk a w' H1) as [H3 H4]. split; congruence.
Qed.

Lemma untouched_sqlite {A} (fn : sqlite_outbox -> result (sqlite_outbox * A)) : untouched (on_sqlite cfg fn).
Proof. intros w Hw. unfold on_sqlite. by destruct (_task_db_exec _ _ _). Qed.

Lemma untouched_mongo_else {A} (m s : ST outbox_store A) : untouched s -> untouched (mongo_else_sqlite cfg m s).
Proof. intros Hs w Hw. unfold mongo_else_sqlite, _use_mongo_outbox. rewrite Hw. by apply Hs. Qed.

Lemma untouched_sqlite_else {A} (s m : ST outbox_store A) : untouched s -> untouched (sqlite_else_mongo cfg s m).
Proof.
  intros Hs w Hw. destruct (Hs w Hw) as [H1 H2]. unfold sqlite_else_mongo, st_try, st_bind.
  destruct (s w) as [w' [a|e]]; [done|]. unfold _promote_outbox_backend_to_mongo_if_sqlite_error.
  cbn in H1. rewrite H1, no_promotion. done.
Qed.

Lemma untouched_op uuid4 w w' : fanout_op cfg uuid4 w w' ->
  fanout_outbox_backend_active w = BSqlite ->
  fanout_outbox_backend_active w' = BSqlite /\ docs w' = docs w.
Proof.
  intros Hs Hw. destruct Hs.
  - apply untouched_bind; [|intros ev|done].
    { unfold read_event. destruct (jtruthy _); [by intros x|]. by intros x. }
    apply untouched_mongo_else, untouched_sqlite_else, untouched_bind; [apply untouched_sqlite|].
    intros c. apply untouched_bind; [|by intros]. intros x Hx. cbn. by destruct (coalesced c <=? 0).
  - apply untouched_mongo_else; [|done]. apply untouched_sqlite_else, untouched_sqlite.
  - apply untouched_mongo_else; [|done]. apply untouched_sqlite.
  - unfold mark_fanout_success, _use_mongo_outbox. rewrite Hw. by apply untouched_sqlite.
  - unfold mark_fanout_failed, _use_mongo_outbox. rewrite Hw. by apply untouched_sqlite.
  - unfold fail_letta_backlog, _use_mongo_outbox. rewrite Hw. by apply untouched_sqlite.
  - unfold mark_fanout_retry, _use_mongo_outbox. rewrite Hw.
    destruct (retry_decision _ _ _ _). apply untouched_bind; [apply untouched_sqlite|by intros|done].
Qed.
End frame.

(** Operations of the fan-out in sequence, without deletions. *)
Inductive deliveries (cfg : store_config) (uuid4 : nat -> string) : outbox_store -> outbox_store -> Prop :=
| deliveries_refl w : deliveries cfg uuid4 w w
| deliveries_step w1 w2 w3 :
    deliveries cfg uuid4 w1 w2 -> fanout_op cfg uuid4 w2 w3 -> deliveries cfg uuid4 w1 w3.

(** A fallback to SQLite strands what MongoDB holds: without promotion, no
    later enqueue, claim, recovery or mark touches a document, so events
    accepted or claimed before the fallback stay as they are. *)
Theorem fallback_strands_documents cfg uuid4 w w' :
  FANOUT_OUTBOX_AUTO_PROMOTE_MONGO_ON_SQLITE_IO_ERROR cfg = false ->
  fanout_outbox_backend_active w = BSqlite -> deliveries cfg uuid4 w w' -> docs w' = docs w.
Proof.
  intros Hno Hw Hd.
  assert (fanout_outbox_backend_active w' = BSqlite /\ docs w' = docs w) as [_ ?]; [|done].
  induction Hd as [w|w1 w2 w3 _ IH Hs]; [done|]. destruct (IH Hw) as [H1 H2].
  destruct (untouched_op cfg Hno uuid4 _ _ Hs H1) as [H3 H4]. split; congruence.
Qed.

(** ** Concrete runs *)

Definition default_store_config : store_config := mkStoreConfig default_fanout_config 8 true true true.

(** A stand-in for [uuid4]: distinct texts. *)
Fixpoint demo_uuid (n : nat) : string :=
  match n with O => "u" | S n' => String "u" (demo_uuid n') end.

Lemma demo_uuid_inj i j : demo_uuid i = demo_uuid j -> i = j.
Proof.
  revert j. induction i as [|i IH]; intros [|j]; cbn; [done|by destruct j|by destruct i|].
  intros [= E]. f_equal. auto.
Qed.

Definition demo_op_enqueue (w : outbox_store) :=
  enqueue_fanout_outbox default_store_config demo_uuid demo_now demo_payload demo_targets false w.

(** An insert that fails for any reason is taken for a duplicate: when the
    driver times out on [insert_one], the enqueue still returns, counts the
    target as existing, and neither store holds the event. *)
Theorem mongo_insert_failure_loses_event :
  let w := empty_store BMongo [] [NoFault; NoFault; FailBefore TimeoutError] [] in
  exists w' c, enqueue_fanout_outbox default_store_config demo_uuid demo_now demo_payload ["qdrant"] false w = (w', Ok c) /\
    inserted c = 0 /\ existing c = 1 /\ docs w' = [] /\ rows (tables (db w')) = [] /\
    fanout_outbox_backend_active w' = BMongo.
Proof. do 2 eexists. vm_compute. repeat split. Qed.

(** A claim whose second driver call fails returns the (empty) SQLite batch
    and leaves the document it had claimed running in MongoDB, which is no
    longer the active store. *)
Theorem mongo_claim_failure_strands_job :
  let w := fst (demo_op_enqueue (empty_store BMongo [] (repeat NoFault 8 ++ [NoFault; FailBefore TimeoutError]) [])) in
  exists w', claim_fanout_batch default_store_config (demo_now + 5000000) 2 None None w = (w', Ok []) /\
    length (docs w') = 3%nat /\
    length (List.filter (fun d => status_in (status d) [Running]) (docs w')) = 1%nat /\
    fanout_outbox_backend_active w' = BSqlite.
Proof. eexists. vm_compute. repeat split. Qed.

(** A commit whose answer is lost is repeated: after a disk I/O error that
    follows the commit, the retried claim takes the next rows, and the rows of
    the first attempt stay running without having been returned. *)
Theorem lost_commit_claims_twice :
  let w := fst (demo_op_enqueue (empty_store BSqlite [NoFault; FailAfter (OperationalError "disk I/O error")] [] [])) in
  exists w' l, claim_fanout_batch default_store_config (demo_now + 5000000) 1 None None w = (w', Ok l) /\
    map oid l = [IntId 2] /\
    map oid (List.filter (fun r => status_in (status r) [Running]) (rows (tables (db w')))) = [1; 2].
Proof. do 2 eexists. vm_compute. repeat split. Qed.

(** ** Witnesses *)

Definition demo_mongo : outbox_store := fst (demo_op_enqueue (empty_store BMongo [] [] [])).
Definition demo_fallback : outbox_store := fst (demo_op_enqueue (empty_store BMongo [] [] [Some TimeoutError])).

Lemma demo_store_reachable cs :
  store_reachable default_store_config demo_uuid (fst (demo_op_enqueue (empty_store BMongo [] [] cs))).
Proof. eapply sreach_step; [apply sreach_init|]. apply sstep_op, op_enqueue. Qed.

Lemma store_reachable_wf_witness :
  length (docs demo_mongo) = 3%nat /\ outbox_ok (tables (db demo_mongo)) /\ table_ok (docs demo_mongo).
Proof.
  split; [vm_compute; reflexivity|].
  apply (store_reachable_wf default_store_config demo_uuid demo_mongo), demo_store_reachable.
Defined.

(** The connection fails and the event is stored in SQLite. *)
Lemma enqueue_accepted_is_stored_witness :
  docs demo_fallback = [] /\
  exists r, In r (rows (tables (db demo_fallback))) /\ delivers demo_now (event_of_payload "" demo_payload) false [] "letta" r.
Proof.
  split; [vm_compute; reflexivity|].
  destruct (enqueue_accepted_is_stored default_store_config demo_uuid demo_now demo_payload demo_targets false
    (empty_store BMongo [] [] [Some TimeoutError]) demo_fallback (mkCounts 3 0 0 0 [])) as [H|H].
  - exact demo_uuid_inj.
  - apply sreach_init.
  - reflexivity.
  - reflexivity.
  - vm_compute. reflexivity.
  - destruct (H "letta") as (d & Hd & _); [vm_compute; tauto|]. vm_compute in Hd. destruct Hd.
  - apply H. vm_compute. tauto.
Defined.

Lemma claim_takes_due_batch_witness : exists w',
  claim_fanout_batch default_store_config (demo_now + 5000000) 2 None (Some "letta") demo_mongo =
    (w', Ok (map (fun d => _fanout_doc_to_dict (claim_row (_utc_now (demo_now + 5000000)) (attempts d + 1) d))
               (select_due (_utc_now (demo_now + 5000000)) (clamp_limit 2) None (Some "letta") (docs demo_mongo)))).
Proof.
  pose proof (claim_takes_due_batch default_store_config demo_uuid (demo_now + 5000000) 2 None (Some "letta") demo_mongo) as H.
  destruct H as (w' & E & _).
  - apply demo_store_reachable.
  - vm_compute. reflexivity.
  - exists w'. exact E.
Defined.

Lemma row_columns_roundtrip_witness :
  let r := new_row default_fanout_config demo_now demo_event "qdrant" 7 in
  _fanout_row_to_dict r (stored_columns r) = Some (with_key IntId r).
Proof.
  apply (row_columns_roundtrip (new_row default_fanout_config demo_now demo_event "qdrant" 7)).
  - cbn. split; [repeat constructor; cbn; naive_solver|tauto].
  - cbn. tauto.
Defined.

Definition no_promotion_config : store_config := mkStoreConfig default_fanout_config 8 true false true.

Lemma fallback_strands_documents_witness :
  let w := set_active BSqlite demo_mongo in
  docs (fst (recover_stale_running_jobs no_promotion_config demo_now 0 w)) = docs w.
Proof.
  apply (fallback_strands_documents no_promotion_config demo_uuid (set_active BSqlite demo_mongo)).
  - reflexivity.
  - reflexivity.
  - eapply deliveries_step; [apply deliveries_refl|apply op_recover].
Defined.
