(* ===== verification/OutboxMaint.v ===== *)
(** * Maintenance of the outbox

    Pruning of low-value Letta jobs, garbage collection of old rows, the
    summary of the table and its cache, the job listing. *)

From S2P Require Import Prelude PyStr PyTime Json JsonText TaskDb Policy Outbox OutboxStore.
From Stdlib Require Import Ascii.
Open Scope Z_scope.

(** ** Prune *)

Definition _extract_source_kind_from_outbox_payload (payload : json) : string :=
  match payload with
  | JObj d =>
      let own := strip (jstr_or_empty (dget d "source_kind")) in
      match dget d "letta_context" with
      | JObj ctx =>
          let source_kind := strip (jstr_or_empty (dget ctx "source_kind")) in
          if truthy source_kind then source_kind else own
      | _ => own
      end
  | _ => ""
  end.

Record prune_scan (I : Type) := mkScan {
  scanned : Z; matched : Z; matched_excluded : Z; matched_low_value : Z; victims : list I }.
Arguments mkScan {I}. Arguments scanned {I}. Arguments matched {I}. Arguments matched_excluded {I}.
Arguments matched_low_value {I}. Arguments victims {I}.

Definition empty_scan {I} : prune_scan I := mkScan 0 0 0 0 [].

Record prune_report := mkPruneReport {
  pr_before : Z; pr_after : Z; pr_scanned : Z; pr_matched : Z; pr_deleted : Z;
  pr_excluded : Z; pr_low_value : Z }.

Section prune.
Context {I : Type} `{RowId I}.
Variable P : record_policy.

Definition row_excluded (r : fanout_row I) : bool :=
  match _is_letta_excluded_memory_record P (file r) (topic_path r) with Some _ => true | None => false end.

Definition row_low_value (r : fanout_row I) : bool :=
  _is_low_value_memory_record P (file r) (topic_path r) (summary r)
    (_extract_source_kind_from_outbox_payload (payload r)) true.

(** One row of the scan. *)
Definition scan_row (r : fanout_row I) (s : prune_scan I) : prune_scan I :=
  if row_excluded r || row_low_value r then
    mkScan (scanned s + 1) (matched s + 1)
      (if row_excluded r then matched_excluded s + 1 else matched_excluded s)
      (if row_low_value r then matched_low_value s + 1 else matched_low_value s)
      (victims s ++ [oid r])
  else mkScan (scanned s + 1) (matched s) (matched_excluded s) (matched_low_value s) (victims s).

(** The loop with [if matched >= limit: break] after a match. *)
Fixpoint scan_rows (limit : Z) (rs : list (fanout_row I)) (s : prune_scan I) : prune_scan I :=
  match rs with
  | [] => s
  | r :: rs' =>
      let s' := scan_row r s in
      if (row_excluded r || row_low_value r) && (limit <=? matched s') then s' else scan_rows limit rs' s'
  end.

(** [target = 'letta' AND status IN statuses] *)
Definition prune_base (statuses : list outbox_status) (r : fanout_row I) : bool :=
  (target r =s FANOUT_TARGET_LETTA) && status_in (status r) statuses.

(** [ORDER BY updated_at ASC, id ASC] *)
Definition oldest_first (a b : fanout_row I) : bool :=
  str_ltb (updated_at a) (updated_at b) || ((updated_at a =s updated_at b) && id_leb (oid a) (oid b)).

Definition prune_candidates (statuses : list outbox_status) (rs : list (fanout_row I)) : list (fanout_row I) :=
  sort_by oldest_first (List.filter (prune_base statuses) rs).

Definition in_ids (ids : list I) (r : fanout_row I) : bool := existsb (id_eqb (oid r)) ids.

Definition count (p : fanout_row I -> bool) (rs : list (fanout_row I)) : Z := Z.of_nat (length (List.filter p rs)).
End prune.

Definition _prune_letta_low_value_outbox_sqlite (P : record_policy) (statuses : list outbox_status) (limit : Z)
    (dry_run : bool) (st : sqlite_outbox) : result (sqlite_outbox * prune_report) :=
  let before := count (prune_base statuses) (rows st) in
  let s := scan_rows P limit (prune_candidates statuses (rows st)) empty_scan in
  let deletes := negb dry_run && match victims s with [] => false | _ => true end in
  let rs := if deletes then List.filter (fun r => negb (in_ids (victims s) r)) (rows st) else rows st in
  let deleted := if deletes then count (in_ids (victims s)) (rows st) else 0 in
  let after := if dry_run then before else count (prune_base statuses) rs in
  Ok (with_rows st rs,
      mkPruneReport before after (scanned s) (matched s) deleted (matched_excluded s) (matched_low_value s)).

Section mongo_prune.
Variable P : record_policy.

Definition delete_many (p : doc -> bool) (ds : list doc) : result (list doc * Z) :=
  Ok (List.filter (fun d => negb (p d)) ds, count p ds).

Definition count_documents (p : doc -> bool) (ds : list doc) : result (list doc * Z) := Ok (ds, count p ds).

(** The cursor loop: victims are deleted in batches of 500; [victims] of the
    scan holds the batch being filled. *)
Fixpoint mongo_scan (limit : Z) (dry_run : bool) (rs : list doc) (s : prune_scan string) (deleted : Z)
  : ST outbox_store (prune_scan string * Z) :=
  match rs with
  | [] => st_ret (s, deleted)
  | r :: rs' =>
      let hit := row_excluded P r || row_low_value P r in
      let s1 := scan_row P r s in
      let s1 := if dry_run then mkScan (scanned s1) (matched s1) (matched_excluded s1) (matched_low_value s1) [] else s1 in
      flushed <- (if hit && negb dry_run && (500 <=? Z.of_nat (length (victims s1)))
                  then n <- mongo_call (delete_many (in_ids (victims s1))) ;;
                       st_ret (mkScan (scanned s1) (matched s1) (matched_excluded s1) (matched_low_value s1) [], deleted + n)
                  else st_ret (s1, deleted)) ;;
      if hit && (limit <=? matched s1) then st_ret flushed
      else mongo_scan limit dry_run rs' (fst flushed) (snd flushed)
  end.

Definition _prune_letta_low_value_outbox_mongo (cfg : store_config) (statuses : list outbox_status) (limit : Z)
    (dry_run : bool) : ST outbox_store prune_report :=
  with_mongo cfg
    (before <- mongo_call (count_documents (prune_base statuses)) ;;
     cursor <- mongo_call (fun ds => Ok (ds, prune_candidates statuses ds)) ;;
     sd <- mongo_scan limit dry_run cursor empty_scan 0 ;;
     deleted <- (if negb dry_run && match victims (fst sd) with [] => false | _ => true end
                 then n <- mongo_call (delete_many (in_ids (victims (fst sd)))) ;; st_ret (snd sd + n)
                 else st_ret (snd sd)) ;;
     after <- (if dry_run then st_ret before else mongo_call (count_documents (prune_base statuses))) ;;
     st_ret (mkPruneReport before after (scanned (fst sd)) (matched (fst sd)) deleted
               (matched_excluded (fst sd)) (matched_low_value (fst sd)))).
End mongo_prune.

(** [normalized_statuses]: the known open statuses in order of first mention,
    by default pending and retrying. *)
Definition open_status (token : string) : option outbox_status :=
  if token =s "pending" then Some Pending else if token =s "retrying" then Some Retrying
  else if token =s "running" then Some Running else None.

Fixpoint prune_statuses_from (seen : list outbox_status) (l : list string) : list outbox_status :=
  match l with
  | [] => []
  | t :: l' =>
      match open_status (lower (strip t)) with
      | None => prune_statuses_from seen l'
      | Some s => if status_in s seen then prune_statuses_from seen l'
                  else s :: prune_statuses_from (s :: seen) l'
      end
  end.

Definition prune_statuses (l : list string) : list outbox_status :=
  match prune_statuses_from [] l with [] => [Pending; Retrying] | ss => ss end.

(** [max(1, min(int(limit or 1), 250000))] *)
Definition prune_limit (limit : Z) : Z := Z.max 1 (Z.min (if limit =? 0 then 1 else limit) 250000).

Definition prune_letta_low_value_outbox (cfg : store_config) (P : record_policy) (statuses : list string) (limit : Z)
    (dry_run : bool) : ST outbox_store prune_report :=
  let ss := prune_statuses statuses in
  let lim := prune_limit limit in
  mongo_else_sqlite cfg (_prune_letta_low_value_outbox_mongo P cfg ss lim dry_run)
    (on_sqlite cfg (_prune_letta_low_value_outbox_sqlite P ss lim dry_run)).

(** ** Garbage collection *)

Record gc_config := mkGcConfig {
  FANOUT_OUTBOX_SUCCEEDED_RETENTION_HOURS : Z;
  FANOUT_OUTBOX_FAILED_RETENTION_HOURS : Z;
  FANOUT_OUTBOX_STALE_PENDING_HOURS : Z;
  FANOUT_OUTBOX_STALE_TARGETS : list string;
  FANOUT_OUTBOX_GC_VACUUM : bool;
  FANOUT_OUTBOX_GC_VACUUM_MIN_DELETED : Z;
  FANOUT_OUTBOX_GC_VACUUM_MIN_INTERVAL_SECS : Z (* microseconds *) }.

Definition default_gc_config : gc_config := mkGcConfig 24 168 24 [] true 500 (3600 * us_per_sec).

Record gc_report := mkGcReport {
  gc_before : Z; gc_after : Z; gc_deleted_total : Z;
  gc_succeeded : Z; gc_failed : Z; gc_stale : Z; gc_vacuum_ran : bool; gc_vacuum_error : string }.

Section gc.
Context {I : Type}.
Variables (G : gc_config) (now : Z).

(** [COALESCE(completed_at, updated_at, created_at)]: [updated_at] is never null. *)
Definition finished_at (r : fanout_row I) : string :=
  match completed_at r with Some t => t | None => updated_at r end.
Definition attempted_at (r : fanout_row I) : string :=
  match last_attempt_at r with Some t => t | None => updated_at r end.

Definition succeeded_cutoff : string := _outbox_gc_cutoff_iso now (FANOUT_OUTBOX_SUCCEEDED_RETENTION_HOURS G).
Definition failed_cutoff : string := _outbox_gc_cutoff_iso now (FANOUT_OUTBOX_FAILED_RETENTION_HOURS G).
Definition stale_pending_cutoff : string := _outbox_gc_cutoff_iso now (FANOUT_OUTBOX_STALE_PENDING_HOURS G).

Definition sqlite_old_succeeded (r : fanout_row I) : bool :=
  status_in (status r) [Succeeded] && str_ltb (finished_at r) succeeded_cutoff.
Definition sqlite_old_failed (r : fanout_row I) : bool :=
  status_in (status r) [Failed] && str_ltb (finished_at r) failed_cutoff.
Definition sqlite_stale (r : fanout_row I) : bool :=
  mem_str (target r) (FANOUT_OUTBOX_STALE_TARGETS G) && status_in (status r) [Pending; Retrying; Running]
  && str_ltb (attempted_at r) stale_pending_cutoff.

Definition mongo_old_succeeded (r : fanout_row I) : bool :=
  status_in (status r) [Succeeded] && str_ltb (updated_at r) succeeded_cutoff.
Definition mongo_old_failed (r : fanout_row I) : bool :=
  status_in (status r) [Failed] && str_ltb (updated_at r) failed_cutoff.
Definition mongo_stale (r : fanout_row I) : bool :=
  mem_str (target r) (FANOUT_OUTBOX_STALE_TARGETS G) && status_in (status r) [Pending; Retrying; Running]
  && str_ltb (updated_at r) stale_pending_cutoff.
End gc.

(** [DELETE ... WHERE p] with its row count. *)
Definition delete_where {A} (p : A -> bool) (l : list A) : list A * Z :=
  (List.filter (fun x => negb (p x)) l, Z.of_nat (length (List.filter p l))).

(** [vacuum] is the outcome of [VACUUM], run after the commit. *)
Definition _fanout_outbox_gc_sqlite (G : gc_config) (now : Z) (run_vacuum : bool) (vacuum : option exn) (st : sqlite_outbox)
  : result (sqlite_outbox * gc_report) :=
  let before := Z.of_nat (length (rows st)) in
  let '(rs1, n1) := delete_where (sqlite_old_succeeded G now) (rows st) in
  let '(rs2, n2) := delete_where (sqlite_old_failed G now) rs1 in
  let '(rs3, n3) := match FANOUT_OUTBOX_STALE_TARGETS G with
                    | [] => (rs2, 0)
                    | _ => delete_where (sqlite_stale G now) rs2
                    end in
  let total := n1 + n2 + n3 in
  let tries_vacuum := run_vacuum && (Z.max 0 (FANOUT_OUTBOX_GC_VACUUM_MIN_DELETED G) <=? total) in
  let ran := tries_vacuum && match vacuum with None => true | Some _ => false end in
  let err := if tries_vacuum then match vacuum with None => "" | Some e => exn_str e end else "" in
  Ok (with_rows st rs3, mkGcReport before (Z.of_nat (length rs3)) total n1 n2 n3 ran err).

Definition _fanout_outbox_gc_mongo (cfg : store_config) (G : gc_config) (now : Z) : ST outbox_store gc_report :=
  with_mongo cfg
    (before <- mongo_call (count_documents (fun _ => true)) ;;
     n1 <- mongo_call (delete_many (mongo_old_succeeded G now)) ;;
     n2 <- mongo_call (delete_many (mongo_old_failed G now)) ;;
     n3 <- (match FANOUT_OUTBOX_STALE_TARGETS G with
            | [] => st_ret 0
            | _ => mongo_call (delete_many (mongo_stale G now))
            end) ;;
     after <- mongo_call (count_documents (fun _ => true)) ;;
     st_ret (mkGcReport before after (n1 + n2 + n3) n1 n2 n3 false "")).

(** [outbox_health["gc"]] and the time of the last [VACUUM]. *)
Record gc_state := mkGcState {
  lastRunAt : option string; gc_runs : Z; gc_lastError : option string; gc_lastDeleted : Z;
  vacuumedAt : option string; outbox_gc_last_vacuum_monotonic : Z }.

Definition _should_run_outbox_gc_vacuum (G : gc_config) (monotonic : Z) (g : gc_state) : bool :=
  if negb (FANOUT_OUTBOX_GC_VACUUM G) then false
  else
    let interval := Z.max 0 (FANOUT_OUTBOX_GC_VACUUM_MIN_INTERVAL_SECS G) in
    if interval <=? 0 then true
    else interval <=? Z.max 0 (monotonic - outbox_gc_last_vacuum_monotonic g).

Definition _record_outbox_gc_result (now : Z) (r : result gc_report) (err : string) (g : gc_state) : gc_state :=
  let g := mkGcState (Some (_utc_now now)) (gc_runs g + 1) (gc_lastError g) (gc_lastDeleted g) (vacuumedAt g)
             (outbox_gc_last_vacuum_monotonic g) in
  if truthy err then
    mkGcState (lastRunAt g) (gc_runs g) (Some (take 400 err)) (gc_lastDeleted g) (vacuumedAt g)
      (outbox_gc_last_vacuum_monotonic g)
  else
    match r with
    | Ok rep =>
        mkGcState (lastRunAt g) (gc_runs g) None (gc_deleted_total rep)
          (if gc_vacuum_ran rep then lastRunAt g else vacuumedAt g) (outbox_gc_last_vacuum_monotonic g)
    | Raise _ =>
        mkGcState (lastRunAt g) (gc_runs g) None 0 (vacuumedAt g) (outbox_gc_last_vacuum_monotonic g)
    end.

Definition exn_class (e : exn) : string :=
  match e with
  | HTTPException _ _ => "HTTPException" | OrchestratorError _ => "OrchestratorError"
  | OperationalError _ => "OperationalError" | IntegrityError _ => "IntegrityError"
  | KeyError _ => "KeyError" | TimeoutError => "TimeoutError" | OtherError c _ => c
  end.

(** [str(exc).strip() or exc.__class__.__name__] *)
Definition error_text_of (e : exn) : string := str_or (strip (exn_str e)) (exn_class e).

(** [run_fanout_outbox_gc_once]; a timeout of [wait_for] is a fault of the
    call it interrupts. *)
Definition run_fanout_outbox_gc_once (cfg : store_config) (G : gc_config) (now monotonic : Z) (vacuum : option exn)
  : ST (outbox_store * gc_state) gc_report := fun wg =>
  let '(w, g) := wg in
  let run_vacuum := _should_run_outbox_gc_vacuum G monotonic g in
  let sqlite := fun w =>
    match on_sqlite cfg (_fanout_outbox_gc_sqlite G now run_vacuum vacuum) w with
    | (w', Ok rep) =>
        let g := if gc_vacuum_ran rep
                 then mkGcState (lastRunAt g) (gc_runs g) (gc_lastError g) (gc_lastDeleted g) (vacuumedAt g) monotonic
                 else g in
        ((w', _record_outbox_gc_result now (Ok rep) "" g), Ok rep)
    | (w', Raise e) => ((w', _record_outbox_gc_result now (Raise e) (error_text_of e) g), Raise e)
    end in
  if _use_mongo_outbox w then
    match _fanout_outbox_gc_mongo cfg G now w with
    | (w', Ok rep) => ((w', _record_outbox_gc_result now (Ok rep) "" g), Ok rep)
    | (w', Raise _) => sqlite (fst (_demote_outbox_backend cfg w'))
    end
  else sqlite w.

(** ** Summary *)

Abbreviation counts := (list (string * Z)).

Definition all_statuses : list outbox_status := [Pending; Retrying; Running; Succeeded; Failed].

Record fanout_summary := mkSummary { by_status : counts; by_target : list (string * counts) }.

Section summary.
Context {I : Type}.

(** The counts that are positive, in the order of [statuses]. *)
Definition status_counts (p : fanout_row I -> bool) (rs : list (fanout_row I)) : counts :=
  List.filter (fun kv => 0 <? snd kv)
    (map (fun s => (status_str s, count (fun r => p r && status_in (status r) [s]) rs)) all_statuses).

Definition _fanout_sqlite_summary (rs : list (fanout_row I)) : fanout_summary :=
  mkSummary (status_counts (fun _ => true) rs)
    (List.filter (fun kv => match snd kv with [] => false | _ => true end)
       (map (fun t => (t, status_counts (fun r => target r =s t) rs)) FANOUT_TARGETS)).
End summary.

(** [by_target.get(target)] of a summary. *)
Fixpoint clookup {A} (k : string) (l : list (string * A)) : option A :=
  match l with
  | [] => None
  | (k', v) :: l' => if k =s k' then Some v else clookup k l'
  end.

Definition count_of (k : string) (c : counts) : Z := match clookup k c with Some n => n | None => 0 end.

Definition _fanout_target_outstanding_count (s : fanout_summary) (target_name : string) : Z :=
  match clookup target_name (by_target s) with
  | None => 0
  | Some c => count_of "pending" c + count_of "retrying" c + count_of "running" c
  end.

(** ** Listing *)

Section listing.
Context {I : Type} `{RowId I}.

Definition list_rows (statuses : list string) (limit : nat) (tgt : option string) (rs : list (fanout_row I)) : list (fanout_row I) :=
  firstn limit (sort_by newest_first
    (List.filter (fun r => mem_str (status_str (status r)) statuses
                           && (negb (truthy (opt_str tgt)) || (target r =s opt_str tgt))) rs)).
End listing.

Definition list_fanout_jobs (cfg : store_config) (statuses : list string) (limit : Z) (tgt : option string)
  : ST outbox_store (list job) :=
  match List.filter truthy statuses with
  | [] => st_ret []
  | statuses =>
      let limit := Z.to_nat (Z.max 1 (Z.min limit 500)) in
      mongo_else_sqlite cfg
        (with_mongo cfg (mongo_call (fun ds => Ok (ds, map _fanout_doc_to_dict (list_rows statuses limit tgt ds)))))
        (on_sqlite cfg (fun st => Ok (st, map (with_key IntId) (list_rows statuses limit tgt (rows st)))))
  end.

(** [$group] by status, and by target and status.  The groups come in the order
    of first appearance; MongoDB leaves the order open. *)
Definition bump_nested (t s : string) (l : list (string * counts)) : list (string * counts) :=
  (fix go (l : list (string * counts)) : list (string * counts) :=
     match l with
     | [] => [(t, [(s, 1)])]
     | (t', c) :: l' => if t =s t' then (t', bump s c) :: l' else (t', c) :: go l'
     end) l.

Definition _get_fanout_summary_mongo (ds : list doc) : fanout_summary :=
  mkSummary (fold_left (fun acc d => bump (status_str (status d)) acc) ds [])
    (fold_left (fun acc d => bump_nested (target d) (status_str (status d)) acc) ds []).

Definition _query_fanout_summary_uncached (cfg : store_config) : ST outbox_store fanout_summary :=
  let mongo := with_mongo cfg (mongo_call (fun ds => Ok (ds, _get_fanout_summary_mongo ds))) in
  mongo_else_sqlite cfg mongo
    (sqlite_else_mongo cfg (on_sqlite cfg (fun st => Ok (st, _fanout_sqlite_summary (rows st)))) mongo).

(** ** Summary cache *)

(** [refresh_scheduled]: a background refresh is pending. *)
Record summary_cache := mkCache {
  cached : fanout_summary; updated_monotonic : option Z; refresh_scheduled : bool }.

Definition empty_summary : fanout_summary := mkSummary [] [].
Definition empty_cache : summary_cache := mkCache empty_summary None false.

Definition has_summary (s : fanout_summary) : bool :=
  negb (match by_status s, by_target s with [], [] => true | _, _ => false end).

Section cache.
Variable cfg : store_config.
Variable FANOUT_SUMMARY_CACHE_TTL_SECS : Z. (* microseconds *)

Definition _set_fanout_summary_cache (monotonic : Z) (s : fanout_summary) (c : summary_cache) : summary_cache :=
  mkCache s (Some monotonic) (refresh_scheduled c).

Definition _fanout_cache_fresh (monotonic : Z) (c : summary_cache) : bool :=
  if negb (has_summary (cached c)) then false
  else match updated_monotonic c with
       | None => false
       | Some t => Z.max 0 (monotonic - t) <=? Z.max 0 FANOUT_SUMMARY_CACHE_TTL_SECS
       end.

Definition _schedule_fanout_summary_refresh (c : summary_cache) : summary_cache :=
  mkCache (cached c) (updated_monotonic c) true.

(** The scheduled task: query, and replace the cache on success. *)
Definition _refresh_fanout_summary_in_background (monotonic : Z) (wc : outbox_store * summary_cache)
  : outbox_store * summary_cache :=
  let c := mkCache (cached (snd wc)) (updated_monotonic (snd wc)) false in
  match _query_fanout_summary_uncached cfg (fst wc) with
  | (w', Ok s) => (w', _set_fanout_summary_cache monotonic s c)
  | (w', Raise _) => (w', c)
  end.

Definition get_fanout_summary (monotonic : Z) (wc : outbox_store * summary_cache)
  : (outbox_store * summary_cache) * fanout_summary :=
  let '(w, c) := wc in
  if _fanout_cache_fresh monotonic c then ((w, c), cached c)
  else if has_summary (cached c) then ((w, _schedule_fanout_summary_refresh c), cached c)
  else match _query_fanout_summary_uncached cfg w with
       | (w', Ok s) => ((w', _set_fanout_summary_cache monotonic s c), s)
       | (w', Raise _) => ((w', c), empty_summary)
       end.
End cache.
