(* ===== verification/OutboxMaintFacts.v ===== *)
(** * Correctness of the outbox maintenance

    What the garbage collector and the prune may delete, that the two backends
    agree, and that the summary counts the table. *)

From S2P Require Import Prelude PyStr PyTime Json JsonText TaskDb Policy Outbox OutboxFacts OutboxStore OutboxMaint.
From Stdlib Require Import Ascii.
Open Scope Z_scope.

(** ** Garbage collection *)

Lemma delete_where_length {A} (p : A -> bool) l :
  Z.of_nat (length (fst (delete_where p l))) + snd (delete_where p l) = Z.of_nat (length l).
Proof. cbn. pose proof (filter_length_split p l). lia. Qed.

(** The rows a collection removes. *)
Definition collected (G : gc_config) (now : Z) (r : fanout_row Z) : bool :=
  sqlite_old_succeeded G now r || sqlite_old_failed G now r || sqlite_stale G now r.

Lemma gc_sqlite_spec G now run vac st : exists rep,
  _fanout_outbox_gc_sqlite G now run vac st =
    Ok (with_rows st (List.filter (fun r => negb (collected G now r)) (rows st)), rep) /\
  gc_before rep = Z.of_nat (length (rows st)) /\
  gc_before rep = gc_after rep + gc_deleted_total rep /\
  gc_deleted_total rep = gc_succeeded rep + gc_failed rep + gc_stale rep /\
  0 <= gc_succeeded rep /\ 0 <= gc_failed rep /\ 0 <= gc_stale rep /\
  (gc_vacuum_ran rep = true -> run = true /\ FANOUT_OUTBOX_GC_VACUUM_MIN_DELETED G <= gc_deleted_total rep).
Proof.
  unfold _fanout_outbox_gc_sqlite.
  pose proof (delete_where_length (sqlite_old_succeeded G now) (rows st)) as L1.
  destruct (delete_where (sqlite_old_succeeded G now) (rows st)) as [rs1 n1] eqn:E1.
  pose proof (delete_where_length (sqlite_old_failed G now) rs1) as L2.
  destruct (delete_where (sqlite_old_failed G now) rs1) as [rs2 n2] eqn:E2.
  destruct (match FANOUT_OUTBOX_STALE_TARGETS G with [] => (rs2, 0) | _ => delete_where (sqlite_stale G now) rs2 end)
    as [rs3 n3] eqn:E3.
  assert (rs3 = List.filter (fun r => negb (sqlite_stale G now r)) rs2 /\
          Z.of_nat (length rs3) + n3 = Z.of_nat (length rs2) /\ 0 <= n3) as (R3 & L3 & P3).
  { destruct (FANOUT_OUTBOX_STALE_TARGETS G) eqn:ET.
    - injection E3 as <- <-. split; [|split; lia]. symmetry. apply filter_all. intros r _.
      unfold sqlite_stale. by rewrite ET.
    - pose proof (delete_where_length (sqlite_stale G now) rs2) as L3. rewrite E3 in L3.
      injection E3 as <- <-. split; [done|]. cbn in *. lia. }
  injection E1 as <- <-. injection E2 as <- <-. cbn [fst snd] in *.
  assert (rs3 = List.filter (fun r => negb (collected G now r)) (rows st)) as <-.
  { rewrite R3, !filter_filter. apply filter_ext_In. intros r _. unfold collected.
    by destruct (sqlite_old_succeeded G now r), (sqlite_old_failed G now r), (sqlite_stale G now r). }
  eexists. split; [reflexivity|].
  cbn [gc_before gc_after gc_deleted_total gc_succeeded gc_failed gc_stale gc_vacuum_ran].
  repeat split; try lia.
  all: blift; try lia; done.
Qed.

(** ** Prune *)

Section scan.
Context {I : Type} `{RowId I}.
Variable P : record_policy.

Definition low_row (r : fanout_row I) : bool := row_excluded P r || row_low_value P r.

Lemma scan_row_victims (r : fanout_row I) s :
  victims (scan_row P r s) = victims s ++ (if low_row r then [oid r] else []) /\
  matched (scan_row P r s) = matched s + (if low_row r then 1 else 0).
Proof.
  unfold scan_row, low_row. destruct (row_excluded P r || row_low_value P r); cbn; rewrite ?app_nil_r; split; lia || done.
Qed.

(** The scan selects a prefix of the low-value candidates, at most [limit]. *)
Lemma scan_rows_spec limit (rs : list (fanout_row I)) s :
  matched s < limit ->
  exists k, victims (scan_rows P limit rs s) = victims s ++ map oid (firstn k (List.filter low_row rs)) /\
    matched (scan_rows P limit rs s) = matched s + Z.of_nat (length (firstn k (List.filter low_row rs))) /\
    matched (scan_rows P limit rs s) <= limit /\
    (length (List.filter low_row rs) <= k \/ matched (scan_rows P limit rs s) = limit)%nat.
Proof.
  revert s. induction rs as [|r rs IH]; intros s Hm; cbn [scan_rows].
  { exists 0%nat. cbn. rewrite app_nil_r. repeat split; [lia|lia|left; lia]. }
  destruct (scan_row_victims r s) as [Hv Hma]. cbn [List.filter]. fold (low_row r).
  destruct (low_row r) eqn:E; cbn [andb].
  - destruct (limit <=? matched (scan_row P r s)) eqn:El; blift.
    + exists 1%nat. cbn. rewrite firstn_O. cbn. rewrite Hv. repeat split; [|lia|right]; lia.
    + destruct (IH (scan_row P r s)) as (k & H1 & H2 & H3 & H4); [lia|]. exists (S k). cbn [firstn map length].
      rewrite H1, Hv, <- app_assoc. repeat split; [lia|done|]. destruct H4 as [H4|H4]; [left|right]; lia.
  - destruct (IH (scan_row P r s)) as (k & H1 & H2 & H3 & H4); [lia|]. exists k.
    rewrite H1, Hv, app_nil_r. repeat split; [lia|done|done].
Qed.
End scan.

Lemma count_partition {I} (p q : fanout_row I -> bool) rs :
  (forall r, In r rs -> q r = true -> p r = true) ->
  count p (List.filter (fun r => negb (q r)) rs) = count p rs - count q rs.
Proof.
  unfold count. induction rs as [|r rs IH]; intros Hqp; [done|].
  specialize (IH ltac:(intros; apply Hqp; [by right|done])). cbn [List.filter].
  destruct (q r) eqn:Eq; cbn [negb].
  - rewrite (Hqp r) by (by left || done). cbn [length]. lia.
  - cbn [List.filter]. destruct (p r); cbn [length]; lia.
Qed.

Lemma in_ids_spec (ids : list Z) (r : fanout_row Z) : in_ids ids r = true <-> In (oid r) ids.
Proof.
  unfold in_ids. rewrite existsb_exists. split.
  - intros (x & Hx & E). apply id_eqb_spec in E as ->. done.
  - intros Hx. exists (oid r). split; [done|]. by apply id_eqb_spec.
Qed.

(** The rows picked out of a table by the keys of some of its own rows. *)
Lemma count_in_ids (sel rs : list (fanout_row Z)) :
  List.NoDup (map oid rs) -> List.NoDup (map oid sel) -> incl sel rs ->
  count (in_ids (map oid sel)) rs = Z.of_nat (length sel).
Proof.
  intros Hnd Hns Hincl. unfold count. f_equal. rewrite <- (length_map oid sel), <- (length_map oid (List.filter _ rs)).
  apply Permutation_length, NoDup_Permutation_bis; [by apply NoDup_map_filter| |].
  - rewrite !length_map.
    assert (incl sel (List.filter (in_ids (map oid sel)) rs)) as Hi.
    { intros r Hr. apply filter_In. split; [by apply Hincl|]. apply in_ids_spec. by apply in_map. }
    apply (List.NoDup_incl_length (NoDup_map_inv _ _ Hns) Hi).
  - intros x (r & <- & Hr)%in_map_iff. apply filter_In in Hr as [_ Hr]. by apply in_ids_spec.
Qed.

Lemma prune_sqlite_spec P ss limit dry st : table_ok (rows st) -> 0 < limit ->
  exists sel rep, _prune_letta_low_value_outbox_sqlite P ss limit dry st =
      Ok (with_rows st (if dry then rows st else List.filter (fun r => negb (in_ids (map oid sel) r)) (rows st)), rep) /\
    incl sel (List.filter (fun r => prune_base ss r && low_row P r) (rows st)) /\ List.NoDup (map oid sel) /\
    pr_matched rep = Z.of_nat (length sel) /\ pr_matched rep <= limit /\
    pr_before rep = count (prune_base ss) (rows st) /\
    pr_deleted rep = (if dry then 0 else pr_matched rep) /\
    pr_after rep = pr_before rep - pr_deleted rep /\
    (pr_matched rep = limit \/ pr_matched rep = count (fun r => prune_base ss r && low_row P r) (rows st)).
Proof.
  intros (Hid & _ & _) Hl. unfold _prune_letta_low_value_outbox_sqlite.
  destruct (scan_rows_spec P limit (prune_candidates ss (rows st)) empty_scan) as (k & Hv & Hm & Hle & Hfull); [done|].
  set (s := scan_rows P limit (prune_candidates ss (rows st)) empty_scan) in *.
  set (sel := firstn k (List.filter (low_row P) (prune_candidates ss (rows st)))) in *.
  cbn [victims matched empty_scan app] in Hv, Hm. rewrite Z.add_0_l in Hm.
  assert (incl sel (List.filter (fun r => prune_base ss r && low_row P r) (rows st))) as Hsel.
  { intros r Hr. apply In_firstn, filter_In in Hr as [Hr Hlow]. unfold prune_candidates in Hr.
    rewrite sort_by_In, filter_In in Hr. apply filter_In. rewrite andb_true_iff. tauto. }
  assert (List.NoDup (map oid sel)) as Hnd.
  { apply NoDup_map_firstn, NoDup_map_filter, NoDup_map_sort, NoDup_map_filter. done. }
  assert (incl sel (rows st)) as Hin by (intros r Hr%Hsel%filter_In; tauto).
  exists sel. rewrite Hv.
  assert (count (in_ids (map oid sel)) (rows st) = Z.of_nat (length sel)) as Hc by (by apply count_in_ids).
  assert (matched s = limit \/ matched s = count (fun r => prune_base ss r && low_row P r) (rows st)) as Hall.
  { destruct Hfull as [Hf|Hf]; [right|by left]. rewrite Hm. unfold sel, count. f_equal.
    rewrite length_firstn, Nat.min_r by done. unfold prune_candidates.
    rewrite <- filter_filter. apply Permutation_length.
    generalize (sort_by_perm oldest_first (List.filter (prune_base ss) (rows st))). clear.
    generalize (sort_by oldest_first (List.filter (prune_base ss) (rows st))).
    generalize (List.filter (prune_base ss) (rows st)). intros l1 l2 HP.
    induction HP; cbn; repeat case_match; eauto using Permutation. }
  assert (count (prune_base ss) (List.filter (fun r => negb (in_ids (map oid sel) r)) (rows st)) =
          count (prune_base ss) (rows st) - Z.of_nat (length sel)) as Hcnt.
  { rewrite count_partition, Hc; [done|]. intros r Hr Hi%in_ids_spec.
    apply in_map_iff in Hi as (r' & E & Hr'). pose proof (Hin _ Hr') as Hr2.
    assert (r = r') as -> by (apply (In_NoDup_inj oid (rows st)); done).
    apply Hsel, filter_In in Hr' as [_ Hb]. by blift. }
  destruct dry; cbn [negb andb].
  - eexists. split; [reflexivity|]. cbn. repeat split; try done; lia.
  - destruct sel as [|r0 sel'] eqn:Esel; cbn [map].
    + eexists. split; [do 3 f_equal; symmetry; by apply filter_all|]. cbn. repeat split; try done; lia.
    + eexists. split; [reflexivity|]. cbn -[count in_ids map]. cbn [map] in *.
      repeat split; try done; lia.
Qed.

(** ** Summary *)

Lemma count_nonneg {I} (p : fanout_row I -> bool) rs : 0 <= count p rs.
Proof. unfold count. lia. Qed.

Lemma count_of_status_counts {I} (p : fanout_row I -> bool) rs s :
  count_of (status_str s) (status_counts p rs) = count (fun r => p r && status_in (status r) [s]) rs.
Proof.
  unfold status_counts. cbn [map all_statuses List.filter snd].
  pose proof (fun s => count_nonneg (fun r => p r && status_in (status r) [s]) rs) as Hn.
  repeat match goal with |- context [0 <? ?e] =>
    let E := fresh in destruct (0 <? e) eqn:E; blift end;
  destruct s; cbn; try done;
  match goal with |- 0 = count (fun r => p r && status_in (status r) [?s]) rs => specialize (Hn s) end; lia.
Qed.

(** Open rows of a target. *)
Definition open_count {I} (t : string) (rs : list (fanout_row I)) : Z :=
  count (fun r => (target r =s t) && status_in (status r) [Pending; Retrying; Running]) rs.

Lemma open_count_split {I} t (rs : list (fanout_row I)) :
  open_count t rs =
    count (fun r => (target r =s t) && status_in (status r) [Pending]) rs
    + count (fun r => (target r =s t) && status_in (status r) [Retrying]) rs
    + count (fun r => (target r =s t) && status_in (status r) [Running]) rs.
Proof.
  unfold open_count, count. induction rs as [|r rs IH]; [done|]. cbn [List.filter].
  destruct (target r =s t); cbn [andb]; [|done].
  destruct (status r);
    repeat match goal with |- context [status_in ?a ?l] =>
      is_constructor a; let b := eval vm_compute in (status_in a l) in change (status_in a l) with b end;
    cbn [length]; rewrite ?Nat2Z.inj_succ; lia.
Qed.

Lemma clookup_targets {A} (f : string -> list A) ts t :
  In t ts ->
  match clookup t (List.filter (fun kv => match snd kv with [] => false | _ => true end) (map (fun t => (t, f t)) ts)) with
  | Some c => c = f t
  | None => f t = []
  end.
Proof.
  induction ts as [|t' ts IH]; [done|]. intros Hin. cbn [map List.filter snd].
  destruct (String.eqb_spec t t') as [->|Hne].
  - destruct (f t') eqn:E.
    + destruct (clookup t' _) as [c|] eqn:Ec; [|done].
      assert (forall ts c, clookup t' (List.filter (fun kv : string * list A => match snd kv with [] => false | _ => true end)
        (map (fun t => (t, f t)) ts)) = Some c -> c = f t') as Hl.
      { clear. induction ts as [|x ts IH]; intros c; cbn; [done|]. destruct (f x) eqn:E; [apply IH|].
        cbn. destruct (String.eqb_spec t' x) as [->|]; [by intros [= <-]|apply IH]. }
      rewrite (Hl _ _ Ec). done.
    + cbn. by rewrite String.eqb_refl.
  - destruct Hin as [->|Hin]; [done|]. specialize (IH Hin).
    destruct (f t') eqn:E; [done|]. cbn. by rewrite (proj2 (String.eqb_neq t t')).
Qed.

Lemma sqlite_outstanding {I} (rs : list (fanout_row I)) t : In t FANOUT_TARGETS ->
  _fanout_target_outstanding_count (_fanout_sqlite_summary rs) t = open_count t rs.
Proof.
  intros Ht. unfold _fanout_target_outstanding_count. cbn [by_target _fanout_sqlite_summary].
  pose proof (clookup_targets (fun t => status_counts (fun r => target r =s t) rs) FANOUT_TARGETS t Ht) as H.
  rewrite open_count_split.
  rewrite <- !(count_of_status_counts (fun r => target r =s t)). cbn [status_str].
  destruct (clookup t _) as [c|]; rewrite H; done.
Qed.

Lemma count_of_bump k k' c : count_of k (bump k' c) = count_of k c + (if k =s k' then 1 else 0).
Proof.
  unfold count_of. induction c as [|[x n] c IH]; cbn [bump clookup].
  - by destruct (k =s k').
  - destruct (String.eqb_spec k' x) as [->|Hne]; cbn [clookup].
    + destruct (String.eqb_spec k x) as [->|]; [done|]. lia.
    + destruct (String.eqb_spec k x) as [->|]; [|done].
      rewrite (proj2 (String.eqb_neq x k')) by congruence. lia.
Qed.

Definition nested_count (t s : string) (l : list (string * counts)) : Z :=
  match clookup t l with None => 0 | Some c => count_of s c end.

Lemma nested_count_bump t s t' s' l :
  nested_count t s (bump_nested t' s' l) = nested_count t s l + (if (t =s t') && (s =s s') then 1 else 0).
Proof.
  unfold nested_count. induction l as [|[x c] l IH]; cbn [bump_nested clookup].
  - destruct (t =s t'); [|done]. unfold count_of. cbn. by destruct (s =s s').
  - destruct (String.eqb_spec t' x) as [->|Hne]; cbn [clookup].
    + destruct (String.eqb_spec t x) as [->|]; cbn [andb]; [apply count_of_bump|lia].
    + destruct (String.eqb_spec t x) as [->|]; [|exact IH].
      rewrite (proj2 (String.eqb_neq x t')) by congruence. cbn. lia.
Qed.

Lemma status_str_inj a b : (status_str a =s status_str b) = status_in a [b].
Proof. by destruct a, b. Qed.

Lemma mongo_group_count t s (ds : list doc) acc :
  nested_count t (status_str s) (fold_left (fun acc d => bump_nested (target d) (status_str (status d)) acc) ds acc) =
  nested_count t (status_str s) acc + count (fun d => (target d =s t) && status_in (status d) [s]) ds.
Proof.
  revert acc. induction ds as [|d ds IH]; intros acc; cbn [fold_left]; [unfold count; cbn; lia|].
  rewrite IH, nested_count_bump, status_str_inj. unfold count. cbn [List.filter].
  rewrite (String.eqb_sym t). replace (status_in s [status d]) with (status_in (status d) [s]) by (by destruct s, (status d)).
  destruct ((target d =s t) && _); cbn [length]; lia.
Qed.

Lemma mongo_outstanding (ds : list doc) t :
  _fanout_target_outstanding_count (_get_fanout_summary_mongo ds) t = open_count t ds.
Proof.
  rewrite open_count_split.
  pose proof (fun s => mongo_group_count t s ds []) as H. cbn [nested_count clookup] in H.
  unfold _fanout_target_outstanding_count. cbn [by_target _get_fanout_summary_mongo].
  pose proof (H Pending) as H1. pose proof (H Retrying) as H2. pose proof (H Running) as H3.
  unfold nested_count in *. cbn [status_str] in *. destruct (clookup t _); lia.
Qed.

(** ** Properties *)

(** The instant before which finished rows of a status may be collected. *)
Definition retention_cutoff (G : gc_config) (now : Z) (s : outbox_status) : Z :=
  now - 3600 * us_per_sec * Z.max 0 (match s with
    | Succeeded => FANOUT_OUTBOX_SUCCEEDED_RETENTION_HOURS G
    | _ => FANOUT_OUTBOX_FAILED_RETENTION_HOURS G end).

(** A collection never fails, keeps the table invariant and accounts for
    every row it removes.  Unfinished jobs of targets that are not configured
    as stale are never removed; a job finished at [t0] is kept while its
    retention lasts and removed once it is over, up to the one second by which
    texts order times. *)
Theorem gc_respects_retention G now run vac st :
  outbox_ok st ->
  exists st' rep, _fanout_outbox_gc_sqlite G now run vac st = Ok (st', rep) /\ outbox_ok st' /\
    Z.of_nat (length (rows st)) = Z.of_nat (length (rows st')) + gc_deleted_total rep /\
    (forall r, In r (rows st) -> status_in (status r) [Pending; Retrying; Running] = true ->
       ~ In (target r) (FANOUT_OUTBOX_STALE_TARGETS G) -> In r (rows st')) /\
    (forall r t0, In r (rows st) -> status_in (status r) [Succeeded; Failed] = true ->
       completed_at r = Some (_utc_iso_from_unix t0) -> in_range t0 -> in_range (retention_cutoff G now (status r)) ->
       (retention_cutoff G now (status r) + us_per_sec <= t0 -> In r (rows st')) /\
       (t0 + us_per_sec <= retention_cutoff G now (status r) -> ~ In r (rows st'))).
Proof.
  intros Hok. destruct (gc_sqlite_spec G now run vac st) as (rep & E & Hb & Hs & Hd & _).
  eexists _, rep. split; [exact E|]. split; [by apply outbox_ok_filter|].
  assert (gc_after rep = Z.of_nat (length (List.filter (fun r => negb (collected G now r)) (rows st)))) as Ha.
  { unfold _fanout_outbox_gc_sqlite in E. repeat dmatch_in E; by injection E as <- <-. }
  cbn [rows with_rows]. split; [lia|]. split.
  - intros r Hr Ho Hn. apply filter_In. split; [done|]. apply negb_true_iff. unfold collected.
    unfold sqlite_old_succeeded, sqlite_old_failed, sqlite_stale.
    rewrite (proj2 (mem_str_false _ _) Hn). by destruct (status r).
  - intros r t0 Hr Ho Hc R0 Rc.
    assert (collected G now r =
      str_ltb (_utc_iso_from_unix t0) (_utc_iso_from_unix (retention_cutoff G now (status r)))) as Ecol.
    { unfold collected, sqlite_old_succeeded, sqlite_old_failed, sqlite_stale, finished_at. rewrite Hc.
      unfold succeeded_cutoff, failed_cutoff, _outbox_gc_cutoff_iso, retention_cutoff.
      destruct (status r); try done; cbn -[str_ltb _utc_iso_from_unix]; rewrite ?andb_false_r, ?orb_false_r; done. }
    rewrite filter_In, Ecol, negb_true_iff. split; intros Hle.
    + split; [done|]. rewrite str_ltb_leb. by rewrite (proj1 (iso_leb_1s _ _ Rc R0 Hle)).
    + rewrite (iso_lt_1s _ _ R0 Rc Hle). intros [_ ?]; done.
Qed.

(** On well-formed finished rows both backends collect by the same rule,
    although SQLite reads the completion time and MongoDB the update time. *)
Theorem gc_backends_agree {I} G now (rs : list (fanout_row I)) :
  table_ok rs -> FANOUT_OUTBOX_STALE_TARGETS G = [] ->
  List.filter (fun r => negb (sqlite_old_succeeded G now r || sqlite_old_failed G now r || sqlite_stale G now r)) rs =
  List.filter (fun r => negb (mongo_old_succeeded G now r || mongo_old_failed G now r || mongo_stale G now r)) rs.
Proof.
  intros Hok Hst. apply filter_ext_In. intros r Hr. f_equal.
  destruct (table_ok_row rs r Hok Hr) as (_ & _ & _ & Hs).
  unfold sqlite_old_succeeded, sqlite_old_failed, sqlite_stale, mongo_old_succeeded, mongo_old_failed, mongo_stale, finished_at.
  rewrite Hst. cbn [mem_str existsb andb]. f_equal.
  destruct (status r); try done; destruct Hs as [-> _]; done.
Qed.

(** A prune of [limit] rows removes only waiting Letta jobs of the chosen
    statuses that are excluded or of low value, never more than [limit], and
    all of them when fewer match; its report adds up, and a dry run changes
    nothing. *)
Theorem prune_removes_only_low_value P ss limit dry st :
  outbox_ok st -> 0 < limit ->
  exists st' rep, _prune_letta_low_value_outbox_sqlite P ss limit dry st = Ok (st', rep) /\ outbox_ok st' /\
    (dry = true -> st' = st) /\
    (forall r, In r (rows st') -> In r (rows st)) /\
    (forall r, In r (rows st) -> ~ In r (rows st') ->
       target r = FANOUT_TARGET_LETTA /\ status_in (status r) ss = true /\ low_row P r = true) /\
    pr_matched rep <= limit /\
    (pr_matched rep = limit \/ pr_matched rep = count (fun r => prune_base ss r && low_row P r) (rows st)) /\
    pr_deleted rep = (if dry then 0 else pr_matched rep) /\
    pr_after rep = pr_before rep - pr_deleted rep.
Proof.
  intros Hok Hl. destruct (prune_sqlite_spec P ss limit dry st (proj1 Hok) Hl)
    as (sel & rep & E & Hsel & _ & _ & Hle & _ & Hdel & Haft & Hfull).
  eexists _, rep. split; [exact E|]. destruct dry.
  - destruct st; cbn. repeat split; try done; apply Hok.
  - split; [by apply outbox_ok_filter|]. split; [done|]. cbn [rows with_rows]. split; [by intros r [? _]%filter_In|].
    split; [|done]. intros r Hr Hn. rewrite filter_In in Hn.
    destruct (in_ids (map oid sel) r) eqn:Ei; [|tauto].
    apply in_ids_spec, in_map_iff in Ei as (r' & Eo & Hr'). apply Hsel, filter_In in Hr' as [Hr' Hb].
    assert (r' = r) as -> by (apply (In_NoDup_inj oid (rows st)); [apply Hok|done..]).
    unfold prune_base in Hb. by blift.
Qed.

(** The backlog that admission and backpressure read from a summary is the
    number of the target's open jobs, on both backends. *)
Theorem summary_counts_open_jobs t (st : sqlite_outbox) (ds : list doc) :
  In t FANOUT_TARGETS ->
  _fanout_target_outstanding_count (_fanout_sqlite_summary (rows st)) t = open_count t (rows st) /\
  _fanout_target_outstanding_count (_get_fanout_summary_mongo ds) t = open_count t ds.
Proof. intros Ht. split; [by apply sqlite_outstanding|apply mongo_outstanding]. Qed.

(** With stale targets configured the backends differ: a job that was
    attempted a day ago and whose content the coalescer has just replaced is
    collected by SQLite, which looks at the last attempt, and kept by
    MongoDB, which looks at the update. *)
Theorem gc_stale_rule_differs :
  let G := mkGcConfig 24 168 24 ["letta"] true 500 0 in
  let t0 := demo_now in let now := demo_now + 90000 * us_per_sec in
  let claimed := claim_row (_utc_now t0) 1 (new_row default_fanout_config t0 demo_event "letta" 1) in
  let waiting := retry_row Retrying (_utc_now (t0 + 2000000)) (_utc_now t0) "boom" claimed in
  let r := coalesce_row now demo_event waiting in
  updated_at r = _utc_now now /\ sqlite_stale G now r = true /\ mongo_stale G now r = false.
Proof. vm_compute. done. Qed.

(** ** Witnesses *)

Definition demo_done : sqlite_outbox := sqlite_mark_success (demo_now + 7000000) 1 demo_state.

Lemma demo_done_ok : outbox_ok demo_done.
Proof. apply (outbox_step_ok default_fanout_config demo_state); [apply step_success|apply demo_ok]. Qed.

Lemma gc_respects_retention_witness : exists st' rep,
  _fanout_outbox_gc_sqlite default_gc_config (demo_now + 90000 * us_per_sec) true None demo_done = Ok (st', rep) /\
  length (rows demo_done) = 3%nat /\ In (nth 2 (rows demo_done) (new_row default_fanout_config 0 demo_event "x" 0)) (rows st').
Proof.
  destruct (gc_respects_retention default_gc_config (demo_now + 90000 * us_per_sec) true None demo_done demo_done_ok)
    as (st' & rep & E & _ & _ & H & _).
  exists st', rep. split; [exact E|]. split; [vm_compute; reflexivity|].
  apply H; [vm_compute; tauto|vm_compute; reflexivity|vm_compute; tauto].
Defined.

Lemma gc_backends_agree_witness :
  List.filter (fun r => negb (sqlite_old_succeeded default_gc_config (demo_now + 90000 * us_per_sec) r
    || sqlite_old_failed default_gc_config (demo_now + 90000 * us_per_sec) r
    || sqlite_stale default_gc_config (demo_now + 90000 * us_per_sec) r)) (rows demo_done) =
  List.filter (fun r => negb (mongo_old_succeeded default_gc_config (demo_now + 90000 * us_per_sec) r
    || mongo_old_failed default_gc_config (demo_now + 90000 * us_per_sec) r
    || mongo_stale default_gc_config (demo_now + 90000 * us_per_sec) r)) (rows demo_done).
Proof.
  apply (gc_backends_agree default_gc_config (demo_now + 90000 * us_per_sec) (rows demo_done)).
  - apply demo_done_ok.
  - reflexivity.
Defined.

Lemma prune_removes_only_low_value_witness : exists st' rep,
  _prune_letta_low_value_outbox_sqlite default_record_policy [Pending] 10 false demo_state = Ok (st', rep) /\
  outbox_ok st'.
Proof.
  destruct (prune_removes_only_low_value default_record_policy [Pending] 10 false demo_state demo_ok)
    as (st' & rep & E & H & _); [lia|]. exists st', rep. split; [exact E|exact H].
Defined.

Lemma summary_counts_open_jobs_witness :
  _fanout_target_outstanding_count (_fanout_sqlite_summary (rows demo_state)) "letta" = 1.
Proof.
  destruct (summary_counts_open_jobs "letta" demo_state []) as [H _]; [vm_compute; tauto|].
  rewrite H. vm_compute. reflexivity.
Defined.
