(* ===== verification/Fanout.v ===== *)
(** * The fanout workers

    A worker claims a batch of outbox jobs, groups them by target, delivers
    each group in chunks and records the outcome of every job.  This file
    models one pass of [_memory_write_worker] with everything it calls up to
    the remote services, the enqueue side, the Letta circuit breaker, admission
    and backpressure.

    The outbox is reached through the interface [JobQueue]; the remote services
    through [push], which notes the request in [sent] and answers what the
    environment says.  Clock readings, jitter and answers come from an
    [environment] and are numbered by [ticks]. *)

From S2P Require Import Prelude PyStr PyTime Json Policy Outbox OutboxStore OutboxMaint.
From Stdlib Require Import QArith Qminmax.
Open Scope Z_scope.

(** ** The outbox a worker sees *)

Class JobQueue (W : Type) := {
  q_uuid : ST W string;
  q_enqueue : Z -> dict -> list string -> ST W enqueue_counts;
  q_claim : Z -> Z -> option string -> option string -> ST W (list job);
  q_success : Z -> job_id -> ST W unit;
  q_failed : Z -> job_id -> string -> ST W unit;
  q_retry : Z -> Z -> job -> string -> ST W outbox_status;
  q_fail_letta : Z -> string -> ST W Z;
  q_list_failed_letta : ST W (list job);
  q_promote : string -> ST W bool }.

(** The two backends of the program, behind their dispatching functions. *)
#[export] Instance store_queue (cfg : store_config) (uuid4 : nat -> string) : JobQueue outbox_store := {|
  q_uuid := new_uuid uuid4;
  q_enqueue := fun now p ts => enqueue_fanout_outbox cfg uuid4 now p ts false;
  q_claim := claim_fanout_batch cfg;
  q_success := mark_fanout_success cfg;
  q_failed := mark_fanout_failed cfg;
  q_retry := mark_fanout_retry cfg;
  q_fail_letta := fail_letta_backlog cfg;
  q_list_failed_letta := list_fanout_jobs cfg ["failed"] 50 (Some FANOUT_TARGET_LETTA);
  q_promote := _promote_outbox_backend_to_mongo_if_sqlite_error cfg |}.

(** ** Settings *)

Record worker_config := mkWorkerConfig {
  LETTA_AUTO_SESSION_ID : string; LETTA_REQUIRE_API_KEY : bool; LETTA_API_KEY : string;
  LETTA_DISABLE_ON_TRANSIENT_ERRORS : bool; LETTA_TRANSIENT_ERROR_THRESHOLD : Z;
  MINDSDB_ENABLED : bool; MINDSDB_AUTOSYNC : bool;
  MINDSDB_FAIL_OPEN_ON_PERMANENT_ERROR : bool; LANGFUSE_API_KEY : string;
  FANOUT_BATCH_SIZE : Z; FANOUT_QDRANT_BULK_SIZE : Z; FANOUT_MINDSDB_BULK_SIZE : Z;
  FANOUT_MONGO_BULK_SIZE : Z; FANOUT_LANGFUSE_BULK_SIZE : Z; FANOUT_LETTA_BULK_SIZE : Z;
  MEMORY_WRITE_QUEUE_MAX : Z; FANOUT_BACKPRESSURE_ENABLED : bool;
  FANOUT_BACKPRESSURE_TARGETS : list string;
  FANOUT_BACKPRESSURE_QUEUE_HIGH_WATERMARK : option Q; FANOUT_BACKPRESSURE_MAX_SLEEP_SECS : Q;
  FANOUT_BACKPRESSURE_LOG_COOLDOWN_SECS : Z; (* microseconds *)
  LETTA_ADMISSION_ENABLED : bool; LETTA_ADMISSION_BACKLOG_SOFT_LIMIT : Z;
  LETTA_ADMISSION_BACKLOG_HARD_LIMIT : Z; LETTA_ADMISSION_LOG_COOLDOWN_SECS : Z (* microseconds *) }.

Definition default_worker_config : worker_config := {|
  LETTA_AUTO_SESSION_ID := "memmcp-default"; LETTA_REQUIRE_API_KEY := false; LETTA_API_KEY := "";
  LETTA_DISABLE_ON_TRANSIENT_ERRORS := true; LETTA_TRANSIENT_ERROR_THRESHOLD := 60;
  MINDSDB_ENABLED := true; MINDSDB_AUTOSYNC := true;
  MINDSDB_FAIL_OPEN_ON_PERMANENT_ERROR := true; LANGFUSE_API_KEY := "";
  FANOUT_BATCH_SIZE := 24; FANOUT_QDRANT_BULK_SIZE := 16; FANOUT_MINDSDB_BULK_SIZE := 12;
  FANOUT_MONGO_BULK_SIZE := 24; FANOUT_LANGFUSE_BULK_SIZE := 24; FANOUT_LETTA_BULK_SIZE := 8;
  MEMORY_WRITE_QUEUE_MAX := 2000; FANOUT_BACKPRESSURE_ENABLED := true;
  FANOUT_BACKPRESSURE_TARGETS := [FANOUT_TARGET_LETTA; FANOUT_TARGET_LANGFUSE];
  FANOUT_BACKPRESSURE_QUEUE_HIGH_WATERMARK := Some (65 # 100);
  FANOUT_BACKPRESSURE_MAX_SLEEP_SECS := 125 # 100;
  FANOUT_BACKPRESSURE_LOG_COOLDOWN_SECS := 30 * us_per_sec;
  LETTA_ADMISSION_ENABLED := true; LETTA_ADMISSION_BACKLOG_SOFT_LIMIT := 500;
  LETTA_ADMISSION_BACKLOG_HARD_LIMIT := 1500; LETTA_ADMISSION_LOG_COOLDOWN_SECS := 30 * us_per_sec |}.

Record environment := mkEnv {
  clock : nat -> Z; monotonic : nat -> Z; jitter : nat -> Z; answer : nat -> option exn }.

(** ** State *)

Record letta_state := mkLetta {
  letta_runtime_enabled : bool; letta_runtime_disabled_reason : string;
  letta_transient_error_streak : Z }.

(** [memory_write_queue] with the count of its unfinished tasks. *)
Record signals := mkSignals {
  memory_write_queue : list json; unfinished_tasks : Z;
  memory_write_queue_processed : Z; memory_write_queue_dropped : Z }.

Record health := mkHealth {
  lastError : option string; lastBatchSize : Z; lastProcessedAt : option string }.

(** A request to a remote service: the jobs it carries, its rows and the
    service's answer ([None]: accepted). *)
Record delivery := mkDelivery {
  sent_target : string; sent_jobs : list job_id; sent_rows : list json; sent_answer : option exn }.

Record fanout_state (W : Type) := mkFanout {
  outbox : W; letta : letta_state; queue : signals; outbox_health : health;
  fanout_backpressure_last_logged_at : list (string * Z);
  sent : list delivery; ticks : nat }.
Arguments mkFanout {W}. Arguments outbox {W}. Arguments letta {W}. Arguments queue {W}.
Arguments outbox_health {W}. Arguments fanout_backpressure_last_logged_at {W}.
Arguments sent {W}. Arguments ticks {W}.

Section setters.
Context {W : Type}.
Implicit Types s : fanout_state W.

Definition set_outbox (w : W) s :=
  mkFanout w (letta s) (queue s) (outbox_health s) (fanout_backpressure_last_logged_at s) (sent s) (ticks s).
Definition set_letta (l : letta_state) s :=
  mkFanout (outbox s) l (queue s) (outbox_health s) (fanout_backpressure_last_logged_at s) (sent s) (ticks s).
Definition set_queue (q : signals) s :=
  mkFanout (outbox s) (letta s) q (outbox_health s) (fanout_backpressure_last_logged_at s) (sent s) (ticks s).
Definition set_health (h : health) s :=
  mkFanout (outbox s) (letta s) (queue s) h (fanout_backpressure_last_logged_at s) (sent s) (ticks s).
Definition set_logged (l : list (string * Z)) s :=
  mkFanout (outbox s) (letta s) (queue s) (outbox_health s) l (sent s) (ticks s).
Definition add_sent (d : delivery) s :=
  mkFanout (outbox s) (letta s) (queue s) (outbox_health s) (fanout_backpressure_last_logged_at s)
    (sent s ++ [d]) (ticks s).
Definition tick s :=
  mkFanout (outbox s) (letta s) (queue s) (outbox_health s) (fanout_backpressure_last_logged_at s)
    (sent s) (S (ticks s)).

(** A reading of the environment. *)
Definition read_env {A} (f : nat -> A) : ST (fanout_state W) A := fun s => (tick s, Ok (f (ticks s))).

(** An operation of the outbox. *)
Definition in_outbox {A} (m : ST W A) : ST (fanout_state W) A := fun s =>
  let '(w, r) := m (outbox s) in (set_outbox w s, r).

Definition set_lastError (e : string) s :=
  set_health (mkHealth (Some e) (lastBatchSize (outbox_health s)) (lastProcessedAt (outbox_health s))) s.
Definition count_processed s :=
  set_queue (mkSignals (memory_write_queue (queue s)) (unfinished_tasks (queue s))
               (memory_write_queue_processed (queue s) + 1) (memory_write_queue_dropped (queue s))) s.
End setters.

(** ** The Letta circuit breaker *)

Section breaker.
Variable C : worker_config.

Definition _letta_config_enabled : bool :=
  if negb (truthy (LETTA_AUTO_SESSION_ID C)) then false
  else if LETTA_REQUIRE_API_KEY C && negb (truthy (LETTA_API_KEY C)) then false
  else true.

Definition _letta_target_enabled (l : letta_state) : bool := _letta_config_enabled && letta_runtime_enabled l.

Definition _set_letta_runtime_disabled (reason : string) (l : letta_state) : letta_state :=
  if negb (letta_runtime_enabled l) then l else mkLetta false (take 240 reason) 0.

Definition _reset_letta_transient_error_streak (l : letta_state) : letta_state :=
  mkLetta (letta_runtime_enabled l) (letta_runtime_disabled_reason l) 0.

(** The new state, and whether the threshold is reached. *)
Definition _record_letta_transient_failure (error_text : string) (l : letta_state) : letta_state * bool :=
  if negb (LETTA_DISABLE_ON_TRANSIENT_ERRORS C) then (l, false)
  else if negb (_is_letta_transient_server_error error_text)
  then (_reset_letta_transient_error_streak l, false)
  else
    let streak := letta_transient_error_streak l + 1 in
    (mkLetta (letta_runtime_enabled l) (letta_runtime_disabled_reason l) streak,
     Z.max 1 (LETTA_TRANSIENT_ERROR_THRESHOLD C) <=? streak).
End breaker.

(** ** Admission *)

Record admission := mkAdmission {
  letta_admission_dropped : Z; letta_admission_last_reason : option string;
  letta_admission_last_backlog : Z; letta_admission_last_logged_at : Z }.

Definition _letta_admission_should_enqueue (C : worker_config) (P : record_policy) (ttl now : Z)
    (file_name topic_path summary source_kind : string) (c : summary_cache)
  : summary_cache * (bool * option string * Z) :=
  if negb (LETTA_ADMISSION_ENABLED C) then (c, (true, None, 0))
  else
    let excluded := _is_letta_excluded_memory_record P file_name topic_path in
    let soft_limit := Z.max 1 (LETTA_ADMISSION_BACKLOG_SOFT_LIMIT C) in
    let hard_limit := Z.max soft_limit (LETTA_ADMISSION_BACKLOG_HARD_LIMIT C) in
    let c' := if negb (_fanout_cache_fresh ttl now c) then _schedule_fanout_summary_refresh c else c in
    let backlog := _fanout_target_outstanding_count (cached c) FANOUT_TARGET_LETTA in
    match excluded with
    | Some reason => (c', (false, Some reason, backlog))
    | None =>
        let low_value := _is_low_value_memory_record P file_name topic_path summary source_kind true in
        if (hard_limit <=? backlog) && low_value then (c', (false, Some "hard_backlog_low_value", backlog))
        else if (soft_limit <=? backlog) && low_value then (c', (false, Some "soft_backlog_low_value", backlog))
        else (c', (true, None, backlog))
    end.

(** The new counters, and whether the drop is logged. *)
Definition _record_letta_admission_drop (C : worker_config) (reason : string) (backlog now : Z) (a : admission)
  : admission * bool :=
  if now - letta_admission_last_logged_at a <? Z.max us_per_sec (LETTA_ADMISSION_LOG_COOLDOWN_SECS C)
  then (mkAdmission (letta_admission_dropped a + 1) (Some reason) (Z.max 0 backlog)
          (letta_admission_last_logged_at a), false)
  else (mkAdmission (letta_admission_dropped a + 1) (Some reason) (Z.max 0 backlog) now, true).

(** ** Chunks and groups *)

(** [items[idx:idx+size] for idx in range(0, len(items), size)]; [fuel] is the
    number of items. *)
Fixpoint slices {A} (fuel size : nat) (items : list A) : list (list A) :=
  match fuel, items with
  | S fuel', _ :: _ => firstn size items :: slices fuel' size (skipn size items)
  | _, _ => []
  end.

Definition _chunk_rows {A} (items : list A) (chunk_size : Z) : list (list A) :=
  slices (length items) (Z.to_nat (Z.max 1 chunk_size)) items.

(** [d.setdefault(target, []).append(job)] *)
Fixpoint append_to (k : string) (j : job) (d : list (string * list job)) : list (string * list job) :=
  match d with
  | [] => [(k, [j])]
  | (k', l) :: d' => if k =s k' then (k', l ++ [j]) :: d' else (k', l) :: append_to k j d'
  end.

Definition jobs_by_target (jobs : list job) : list (string * list job) :=
  fold_left (fun d j => append_to (target j) j d) jobs [].

(** [d.pop(target, [])] *)
Fixpoint pop (k : string) (d : list (string * list job)) : list job * list (string * list job) :=
  match d with
  | [] => ([], [])
  | (k', l) :: d' => if k =s k' then (l, d') else let '(r, rest) := pop k d' in (r, (k', l) :: rest)
  end.

(** ** Backpressure

    Seconds and ratios are exact rationals. *)

Definition _normalize_watermark (value : option Q) : Q :=
  match value with
  | None => 65 # 100
  | Some watermark => Qmin (99 # 100) (Qmax (5 # 100) watermark)
  end.

Definition _fanout_backpressure_seconds (C : worker_config) (qsize : nat) (target_name : string) : Q :=
  (if negb (FANOUT_BACKPRESSURE_ENABLED C) then 0
   else if negb (mem_str target_name (FANOUT_BACKPRESSURE_TARGETS C)) then 0
   else
     let queue_max := Z.max 1 (MEMORY_WRITE_QUEUE_MAX C) in
     let queue_ratio := inject_Z (Z.of_nat qsize) / inject_Z queue_max in
     let high_watermark := _normalize_watermark (FANOUT_BACKPRESSURE_QUEUE_HIGH_WATERMARK C) in
     if Qle_bool queue_ratio high_watermark then 0
     else
       let pressure := Qmin 1 ((queue_ratio - high_watermark) / Qmax (1 # 1000000) (1 - high_watermark)) in
       let max_sleep := Qmax 0 (FANOUT_BACKPRESSURE_MAX_SLEEP_SECS C) in
       pressure * max_sleep)%Q.

(** ** The worker *)

Section worker.
Context {W : Type} `{JobQueue W}.
Variable C : worker_config.
Variable E : environment.
Abbreviation state := (fanout_state W).

(** The sleep is a passage of time: the next clock reading is a later one. *)
Definition _apply_fanout_backpressure (target_name : string) : ST state unit := fun s =>
  let delay_secs := _fanout_backpressure_seconds C (length (memory_write_queue (queue s))) target_name in
  if Qle_bool delay_secs 0 then (s, Ok tt)
  else
    (now <- read_env (monotonic E) ;;
     st_modify (fun s =>
       let cooldown := Z.max us_per_sec (FANOUT_BACKPRESSURE_LOG_COOLDOWN_SECS C) in
       let last_logged := count_of target_name (fanout_backpressure_last_logged_at s) in
       if cooldown <=? now - last_logged
       then set_logged ((target_name, now) ::
              List.filter (fun kv => negb (fst kv =s target_name)) (fanout_backpressure_last_logged_at s)) s
       else s)) s.

(** A request to the remote service of [target_name]; a sink that is switched
    off returns before it ([push_mindsdb_jobs], [push_langfuse_jobs]). *)
Definition push (target_name : string) (jobs : list job) (rows : list json) : ST state unit := fun s =>
  let a := answer E (ticks s) in
  (add_sent (mkDelivery target_name (map oid jobs) rows a) (tick s),
   match a with None => Ok tt | Some e => Raise e end).

(** [push_batch_to_mindsdb]: no request when MindsDB or its autosync is off. *)
Definition push_mindsdb_jobs (jobs : list job) (rows : list json) : ST state unit :=
  if negb (MINDSDB_ENABLED C) || negb (MINDSDB_AUTOSYNC C) then st_ret tt
  else push FANOUT_TARGET_MINDSDB jobs rows.

(** [push_batch_to_langfuse]: no request without an API key. *)
Definition push_langfuse_jobs (jobs : list job) (rows : list json) : ST state unit :=
  if negb (truthy (LANGFUSE_API_KEY C)) then st_ret tt
  else push FANOUT_TARGET_LANGFUSE jobs rows.

Definition _mark_fanout_job_success (j : job) (target_name : string) : ST state unit :=
  st_modify (fun s => if target_name =s FANOUT_TARGET_LETTA
                      then set_letta (_reset_letta_transient_error_streak (letta s)) s else s) ;;;
  now <- read_env (clock E) ;;
  in_outbox (q_success now (oid j)) ;;;
  st_modify count_processed.

(** The branch of [_handle_fanout_job_error] that runs. *)
Inductive error_action := DisableLetta (reason : string) (reset : bool) | FailOpen | FailJob | RetryJob.

(** The tests of the handler in their order; recording the failure is one. *)
Definition error_branch (error_text : string) (target_name : string) (l : letta_state) : letta_state * error_action :=
  if (target_name =s FANOUT_TARGET_LETTA) && _is_letta_permanent_error error_text
  then (l, DisableLetta error_text true)
  else
    let '(l', tripped) := if target_name =s FANOUT_TARGET_LETTA
                          then _record_letta_transient_failure C error_text l else (l, false) in
    if tripped then
      (l', DisableLetta ("persistent Letta server errors (" +:+ str_of_Z (letta_transient_error_streak l')
                           +:+ " consecutive): " +:+ take 180 error_text) false)
    else if (target_name =s FANOUT_TARGET_MINDSDB) && _is_mindsdb_permanent_error error_text
    then (l', if MINDSDB_FAIL_OPEN_ON_PERMANENT_ERROR C then FailOpen else FailJob)
    else (l', RetryJob).

Definition _handle_fanout_job_error (j : job) (exc : exn) : ST state unit :=
  let error_text := error_text_of exc in
  st_modify (set_lastError error_text) ;;;
  s <- st_get ;;
  let '(l, action) := error_branch error_text (target j) (letta s) in
  st_modify (set_letta l) ;;;
  now <- read_env (clock E) ;;
  match action with
  | DisableLetta reason reset =>
      st_modify (fun s => set_letta (_set_letta_runtime_disabled reason (letta s)) s) ;;;
      in_outbox (q_fail_letta now reason) ;;;
      st_modify (fun s => if reset then set_letta (_reset_letta_transient_error_streak (letta s)) s else s)
  | FailOpen => in_outbox (q_success now (oid j)) ;;; st_modify count_processed
  | FailJob => in_outbox (q_failed now (oid j) error_text)
  | RetryJob => r <- read_env (jitter E) ;; in_outbox (q_retry now r j error_text) ;;; st_ret tt
  end.

(** [payload = job.get("payload") or {}]; what Python raises for a payload that
    is no object is represented by one exception. *)
Definition payload_of (j : job) : result dict :=
  match jor (payload j) (JObj []) with
  | JObj d => Ok d
  | _ => Raise (OtherError "TypeError" "payload is not an object")
  end.

(** [payload[key]] *)
Definition getitem (d : dict) (k : string) : result json :=
  match dlookup k d with Some v => Ok v | None => Raise (KeyError k) end.

Definition qdrant_row (j : job) : result json :=
  let! d := payload_of j in
  let! p := getitem d "project" in
  let! f := getitem d "file" in
  Ok (JObj [("project", p); ("file", f); ("content", jor (dget d "summary") (JStr ""));
            ("topic_path", dget d "topic_path"); ("topic_tags", jor (dget d "topic_tags") (JList []));
            ("collection_name", dget d "qdrant_collection")]).

Definition mindsdb_row (now : Z) (j : job) : result json :=
  let! d := payload_of j in
  let! p := getitem d "project" in
  let! f := getitem d "file" in
  Ok (JObj [("project", p); ("file", f); ("summary", jor (dget d "summary") (JStr ""));
            ("created_at", JStr (_utc_now now))]).

Definition mongo_row (j : job) : result json :=
  let! d := payload_of j in
  if is_obj (dget d "raw_event") then Ok (dget d "raw_event")
  else Raise (OrchestratorError "raw_event payload missing for mongo fanout").

Definition langfuse_row (j : job) : result json :=
  let! d := payload_of j in
  Ok (JObj [("project", jor (dget d "project") (JStr "")); ("summary", jor (dget d "summary") (JStr ""));
            ("payload", if is_obj (dget d "payload") then dget d "payload" else JObj [])]).

(** [ok, error = await persist_raw_events_to_mongo(...); if not ok: raise ...] *)
Definition push_raw_events (jobs : list job) (rows : list json) : ST state unit :=
  st_try (push FANOUT_TARGET_MONGO_RAW jobs rows)
    (fun e => st_raise (OrchestratorError (str_or (exn_str e) "mongo raw batch write failed"))).

(** One chunk: deliver it as a whole, then mark every job of it; any exception
    is an error of every job of the chunk. *)
Definition deliver_batch (target_name : string) (row : job -> ST state json)
    (send : list job -> list json -> ST state unit) (batch : list job) : ST state unit :=
  st_try
    (_apply_fanout_backpressure target_name ;;;
     rows <- st_map row batch ;;
     send batch rows ;;;
     st_for batch (fun j => _mark_fanout_job_success j target_name))
    (fun exc => st_for batch (fun j => _handle_fanout_job_error j exc)).

Definition deliver_qdrant (jobs : list job) : ST state unit :=
  st_for (_chunk_rows jobs (FANOUT_QDRANT_BULK_SIZE C))
    (deliver_batch FANOUT_TARGET_QDRANT (fun j => st_lift (qdrant_row j)) (push FANOUT_TARGET_QDRANT)).

Definition deliver_mindsdb (jobs : list job) : ST state unit :=
  st_for (_chunk_rows jobs (FANOUT_MINDSDB_BULK_SIZE C))
    (deliver_batch FANOUT_TARGET_MINDSDB (fun j => now <- read_env (clock E) ;; st_lift (mindsdb_row now j))
       push_mindsdb_jobs).

Definition deliver_mongo (jobs : list job) : ST state unit :=
  st_for (_chunk_rows jobs (FANOUT_MONGO_BULK_SIZE C))
    (deliver_batch FANOUT_TARGET_MONGO_RAW (fun j => st_lift (mongo_row j)) push_raw_events).

Definition deliver_langfuse (jobs : list job) : ST state unit :=
  st_for (_chunk_rows jobs (FANOUT_LANGFUSE_BULK_SIZE C))
    (deliver_batch FANOUT_TARGET_LANGFUSE (fun j => st_lift (langfuse_row j)) push_langfuse_jobs).

(** [_sync_letta], its exception returned as a value by [gather]. *)
Definition _sync_letta (j : job) : ST state (option exn) :=
  st_try
    (d <- st_lift (payload_of j) ;;
     if negb (jtruthy (dget d "letta_session"))
     then st_raise (OrchestratorError "letta_session missing in fanout payload")
     else push FANOUT_TARGET_LETTA [j]
            [dget d "letta_session"; jor (dget d "summary") (JStr ""); jor (dget d "letta_context") (JObj [])] ;;;
          st_ret None)
    (fun e => st_ret (Some e)).

Definition letta_batch (batch : list job) : ST state unit := fun s =>
  if negb (_letta_target_enabled C (letta s)) then
    let reason := str_or (letta_runtime_disabled_reason (letta s)) "letta fanout disabled" in
    (now <- read_env (clock E) ;; in_outbox (q_fail_letta now reason) ;;; st_ret tt) s
  else
    st_try
      (_apply_fanout_backpressure FANOUT_TARGET_LETTA ;;;
       results <- st_map _sync_letta batch ;;
       st_for (zip batch results) (fun '(j, result) =>
         match result with
         | Some exc => _handle_fanout_job_error j exc
         | None => _mark_fanout_job_success j FANOUT_TARGET_LETTA
         end))
      (fun exc => st_for batch (fun j => _handle_fanout_job_error j exc)) s.

Definition deliver_letta (jobs : list job) : ST state unit :=
  st_for (_chunk_rows jobs (FANOUT_LETTA_BULK_SIZE C)) letta_batch.

Definition deliver_unknown (groups : list (string * list job)) : ST state unit :=
  st_for groups (fun '(target_name, jobs) =>
    st_for jobs (fun j => _handle_fanout_job_error j (OrchestratorError ("unknown outbox target: " +:+ target_name)))).

(** The targets one after the other. *)
Definition deliver_jobs (jobs : list job) : ST state unit :=
  let '(qdrant_jobs, g) := pop FANOUT_TARGET_QDRANT (jobs_by_target jobs) in
  deliver_qdrant qdrant_jobs ;;;
  let '(mindsdb_jobs, g) := pop FANOUT_TARGET_MINDSDB g in
  deliver_mindsdb mindsdb_jobs ;;;
  let '(mongo_jobs, g) := pop FANOUT_TARGET_MONGO_RAW g in
  deliver_mongo mongo_jobs ;;;
  let '(langfuse_jobs, g) := pop FANOUT_TARGET_LANGFUSE g in
  deliver_langfuse langfuse_jobs ;;;
  let '(letta_jobs, g) := pop FANOUT_TARGET_LETTA g in
  deliver_letta letta_jobs ;;;
  deliver_unknown g.

(** The body of the [try]. *)
Definition process_batch (tgt exclude : option string) : ST state unit :=
  now <- read_env (clock E) ;;
  jobs <- in_outbox (q_claim now (FANOUT_BATCH_SIZE C) tgt exclude) ;;
  at_ <- read_env (clock E) ;;
  st_modify (fun s =>
    set_health (mkHealth (lastError (outbox_health s)) (Z.of_nat (length jobs))
      (match jobs with [] => lastProcessedAt (outbox_health s) | _ => Some (_utc_now at_) end)) s) ;;;
  match jobs with
  | [] => st_ret tt
  | _ => deliver_jobs jobs
  end.

(** [except Exception]: note the error, maybe promote the outbox. *)
Definition worker_error (exc : exn) : ST state unit :=
  let error_text := error_text_of exc in
  st_modify (set_lastError error_text) ;;;
  in_outbox (q_promote error_text) ;;; st_ret tt.

(** [memory_write_queue.get()]: a waiting signal, or the poll interval ends. *)
Definition take_signal (s : state) : state * bool :=
  match memory_write_queue (queue s) with
  | [] => (s, false)
  | _ :: rest => (set_queue (mkSignals rest (unfinished_tasks (queue s)) (memory_write_queue_processed (queue s))
                               (memory_write_queue_dropped (queue s))) s, true)
  end.

(** [memory_write_queue.task_done()], its [ValueError] ignored. *)
Definition task_done (s : state) : state :=
  if unfinished_tasks (queue s) <=? 0 then s
  else set_queue (mkSignals (memory_write_queue (queue s)) (unfinished_tasks (queue s) - 1)
                    (memory_write_queue_processed (queue s)) (memory_write_queue_dropped (queue s))) s.

(** One round of the worker's loop. *)
Definition _memory_write_worker (tgt exclude : option string) : ST state unit := fun s =>
  let '(s, got_signal) := take_signal s in
  st_finally (st_try (process_batch tgt exclude) worker_error)
    (fun s => if (got_signal : bool) then task_done s else s) s.

(** ** Enqueue *)

(** [memory_write_queue.full()] *)
Definition queue_full (s : state) : bool :=
  (0 <? MEMORY_WRITE_QUEUE_MAX C) && (MEMORY_WRITE_QUEUE_MAX C <=? Z.of_nat (length (memory_write_queue (queue s)))).

Definition put_signal (event_id : json) (s : state) : state :=
  if queue_full s then
    set_queue (mkSignals (memory_write_queue (queue s)) (unfinished_tasks (queue s))
                 (memory_write_queue_processed (queue s)) (memory_write_queue_dropped (queue s) + 1)) s
  else
    set_queue (mkSignals (memory_write_queue (queue s) ++ [event_id]) (unfinished_tasks (queue s) + 1)
                 (memory_write_queue_processed (queue s)) (memory_write_queue_dropped (queue s))) s.

(** [bool(item.get("letta_admit", True))] *)
Definition letta_admit (item : dict) : bool :=
  match dlookup "letta_admit" item with Some v => jtruthy v | None => true end.

Definition fanout_targets (item : dict) (l : letta_state) : list string :=
  (if negb (jtruthy (dget item "mongo_persisted")) then [FANOUT_TARGET_MONGO_RAW] else [])
  ++ [FANOUT_TARGET_QDRANT; FANOUT_TARGET_MINDSDB]
  ++ (if jtruthy (dget item "letta_session") && _letta_target_enabled C l && letta_admit item
      then [FANOUT_TARGET_LETTA] else [])
  ++ (if truthy (LANGFUSE_API_KEY C) then [FANOUT_TARGET_LANGFUSE] else []).

Definition fanout_payload (event_id p f : json) (item : dict) : dict :=
  [("event_id", event_id); ("project", p); ("file", f);
   ("summary", jor (dget item "summary") (JStr "")); ("payload", jor (dget item "payload") (JObj []));
   ("topic_path", dget item "topic_path"); ("topic_tags", jor (dget item "topic_tags") (JList []));
   ("letta_session", dget item "letta_session"); ("letta_context", jor (dget item "letta_context") (JObj []));
   ("letta_admit", JBool (letta_admit item)); ("qdrant_collection", dget item "qdrant_collection");
   ("raw_event", dget item "raw_event")].

Definition _enqueue_memory_write_fanout (item : dict) : ST state unit :=
  s <- st_get ;;
  let targets := fanout_targets item (letta s) in
  event_id <- (if jtruthy (dget item "event_id") then st_ret (dget item "event_id")
               else u <- in_outbox q_uuid ;; st_ret (JStr u)) ;;
  p <- st_lift (getitem item "project") ;;
  f <- st_lift (getitem item "file") ;;
  now <- read_env (clock E) ;;
  in_outbox (q_enqueue now (fanout_payload event_id p f item) targets) ;;;
  st_modify (put_signal event_id).

(** ** Start-up *)

Fixpoint first_permanent (jobs : list job) : option string :=
  match jobs with
  | [] => None
  | j :: jobs' =>
      let error_text := opt_str (last_error j) in
      if _is_letta_permanent_error error_text then Some error_text else first_permanent jobs'
  end.

Definition restore_letta_runtime_state_from_outbox : ST state unit :=
  if negb (_letta_config_enabled C) then st_ret tt
  else
    jobs <- in_outbox q_list_failed_letta ;;
    match first_permanent jobs with
    | None => st_ret tt
    | Some error_text =>
        st_modify (fun s => set_letta (_set_letta_runtime_disabled (str_or error_text "prior permanent Letta error")
                                         (letta s)) s) ;;;
        now <- read_env (clock E) ;;
        s <- st_get ;;
        in_outbox (q_fail_letta now (str_or (letta_runtime_disabled_reason (letta s)) "letta fanout disabled")) ;;;
        st_ret tt
    end.
End worker.
