(* ===== verification/FanoutFacts.v ===== *)
(** * Properties of the fanout workers

    The worker is verified against the interface [JobTable], a table of jobs
    with atomic operations; the outbox with its two backends implements it
    while no driver call fails. *)

From S2P Require Import Prelude PyStr PyTime Json Policy TaskDb Outbox OutboxFacts OutboxStore OutboxStoreFacts.
From S2P Require Import OutboxMaint Fanout.
From Stdlib Require Import QArith Qminmax Lqa.
Open Scope Z_scope.

#[export] Instance job_id_eq_dec : EqDecision job_id.
Proof. solve_decision. Defined.

(** ** The abstract job table *)

(** [UPDATE ... WHERE id = k] on the table. *)
Definition on_key (k : job_id) (u : job -> job) (t : list job) : list job :=
  map (fun r => if bool_decide (oid r = k) then u r else r) t.

(** [view w] is the table a store [w] presents while it is [quiet]: its
    operations succeed, keep it quiet, and act on the table as stated. *)
Class JobTable (W : Type) `{JobQueue W} := {
  view : W -> list job;
  quiet : W -> Prop;
  view_keys w : quiet w -> List.NoDup (map oid (view w));
  claim_law now limit tgt ex w : quiet w -> exists w' l,
    q_claim now limit tgt ex w = (w', Ok l) /\ quiet w' /\
    (forall j, In j l -> exists r, In r (view w') /\ oid r = oid j /\ target r = target j /\ status r = Running) /\
    (forall r, In r (view w') -> In r (view w) \/ In (oid r) (map oid l));
  success_law now k w : quiet w -> In k (map oid (view w)) -> exists w',
    q_success now k w = (w', Ok tt) /\ quiet w' /\ view w' = on_key k (success_row (_utc_now now)) (view w);
  failed_law now k e w : quiet w -> In k (map oid (view w)) -> exists w',
    q_failed now k e w = (w', Ok tt) /\ quiet w' /\ view w' = on_key k (failed_row (_utc_now now) e) (view w);
  retry_law now jit j e w : quiet w -> In (oid j) (map oid (view w)) -> exists w' st na,
    q_retry now jit j e w = (w', Ok st) /\ quiet w' /\ st ∈ [Retrying; Failed] /\
    view w' = on_key (oid j) (retry_row st na (_utc_now now) e) (view w);
  fail_letta_law now e w : quiet w -> exists w' n,
    q_fail_letta now e w = (w', Ok n) /\ quiet w' /\
    view w' = map (fun r => if letta_open r then failed_row (_utc_now now) e r else r) (view w) }.

(** ** The outbox implements it *)

Section store.
Variable cfg : store_config.
Variable uuid4 : nat -> string.

Definition store_view (w : outbox_store) : list job :=
  match fanout_outbox_backend_active w with
  | BSqlite => map (with_key IntId) (rows (tables (db w)))
  | BMongo => map (with_key TextId) (docs w)
  end.

Definition store_quiet (w : outbox_store) : Prop := store_ok uuid4 w /\ ready cfg w = true.

Lemma NoDup_map_inj {A B} (f : A -> B) l : (forall x y, f x = f y -> x = y) -> List.NoDup l -> List.NoDup (map f l).
Proof.
  intros Hf. induction 1 as [|x l Hx _ IH]; cbn; constructor; [|done].
  intros (y & Ey%Hf & Hy)%in_map_iff. by subst.
Qed.

Lemma store_view_keys w : store_quiet w -> List.NoDup (map oid (store_view w)).
Proof.
  intros [[[[H1 _] _] [[H2 _] _]] _]. unfold store_view.
  destruct (fanout_outbox_backend_active w); rewrite List.map_map; cbn;
    rewrite <- (List.map_map oid); apply NoDup_map_inj; naive_solver.
Qed.

(** A statement by the key of a listed job, on the active backend. *)
Lemma by_key_view {A} (m : ST outbox_store A) a k w (u : forall I, fanout_row I -> fanout_row I) :
  keeps uuid4 m -> store_quiet w -> In k (map oid (store_view w)) ->
  (forall I J (f : I -> J) r, with_key f (u I r) = u J (with_key f r)) ->
  (forall z, fanout_outbox_backend_active w = BSqlite -> k = IntId z ->
     m w = (set_db (mkDb (with_rows (tables (db w))
              (fst (update_where (fun r => oid r =? z) (u Z) (rows (tables (db w)))))) []) w, Ok a)) ->
  (forall t, fanout_outbox_backend_active w = BMongo -> k = TextId t ->
     m w = (set_docs (update_first (fun d => oid d =s t) (u string) (docs w)) [] w, Ok a)) ->
  exists w', m w = (w', Ok a) /\ store_quiet w' /\ store_view w' = on_key k (u job_id) (store_view w).
Proof.
  intros Hk [Hok Hr] Hin Hu Hs Hm. specialize (Hk w Hok). unfold store_view in *.
  destruct (fanout_outbox_backend_active w) eqn:Eb.
  - rewrite List.map_map in Hin. apply in_map_iff in Hin as (r & <- & Hin). cbn in *.
    specialize (Hs _ eq_refl eq_refl). rewrite Hs in Hk |- *. eexists. split; [done|]. cbn in Hk.
    split; [split; [done|unfold ready in *; cbn; by rewrite Eb in *]|]. cbn. rewrite Eb.
    unfold on_key, update_where. cbn [fst]. rewrite !List.map_map. apply List.map_ext. intros r'. cbn.
    destruct (Z.eqb_spec (oid r') (oid r)) as [->|Hne]; [rewrite bool_decide_true by done; apply Hu|].
    rewrite bool_decide_false by congruence. done.
  - rewrite List.map_map in Hin. apply in_map_iff in Hin as (d & <- & Hin). cbn in *.
    specialize (Hm _ eq_refl eq_refl). rewrite Hm in Hk |- *. eexists. split; [done|]. cbn in Hk.
    split.
    { split; [done|]. unfold ready in *. cbn. rewrite Eb in *. by blift; rewrite H, H1. }
    cbn. rewrite Eb. rewrite update_first_where by apply Hok.
    destruct (List.find _ (docs w)) as [d0|] eqn:Ef.
    + apply List.find_some in Ef as [_ Ed%String.eqb_eq]. rewrite Ed.
      unfold on_key, update_where. cbn [fst]. rewrite !List.map_map. apply List.map_ext. intros r'. cbn.
      destruct (String.eqb_spec (oid r') (oid d)) as [->|Hne]; [rewrite bool_decide_true by done; apply Hu|].
      rewrite bool_decide_false by congruence. done.
    + eapply List.find_none in Ef; [|exact Hin]. by rewrite String.eqb_refl in Ef.
Qed.

Lemma on_sqlite_ready {A} (fn : sqlite_outbox -> result (sqlite_outbox * A)) w st a :
  fanout_outbox_backend_active w = BSqlite -> ready cfg w = true -> fn (tables (db w)) = Ok (st, a) ->
  on_sqlite cfg fn w = (set_db (mkDb st []) w, Ok a).
Proof.
  unfold ready. intros Eb Hr E. rewrite Eb in Hr. unfold on_sqlite, _task_db_exec.
  destruct (db w) as [t fs] eqn:Ed. cbn in *. destruct fs; [|done].
  by erewrite run_attempts_no_fault.
Qed.

Lemma with_mongo_ready {A} (f : list doc -> result (list doc * A)) w ds a :
  fanout_outbox_backend_active w = BMongo -> ready cfg w = true -> f (docs w) = Ok (ds, a) ->
  with_mongo cfg (mongo_call f) w = (set_docs ds [] w, Ok a).
Proof.
  unfold ready. intros Eb Hr E. rewrite Eb in Hr. blift.
  unfold with_mongo, st_bind, init_fanout_outbox_mongo_client, _use_mongo_outbox.
  rewrite Eb. change (bool_decide (BMongo = BMongo)) with true. cbn [negb].
  destruct (pymongo_available cfg); [|done]. destruct (mongo_client w); [|done]. cbn [negb].
  apply mongo_call_ok; [|done]. by destruct (mongo_faults w).
Qed.

Lemma update_job_ready key u w :
  fanout_outbox_backend_active w = BMongo -> ready cfg w = true ->
  _update_fanout_job_mongo cfg key u w = (set_docs (update_first (fun d => oid d =s key) u (docs w)) [] w, Ok tt).
Proof.
  intros Eb Hr. unfold _update_fanout_job_mongo, with_mongo.
  pose proof (with_mongo_ready (update_one (fun d => oid d =s key) u) w _ _ Eb Hr eq_refl) as E.
  unfold with_mongo in E. unfold st_bind in *. 
  destruct (init_fanout_outbox_mongo_client cfg w) as [w1 [[]|?]]; [|done|done]. by rewrite E.
Qed.

Lemma store_success now k w : store_quiet w -> In k (map oid (store_view w)) -> exists w',
  mark_fanout_success cfg now k w = (w', Ok tt) /\ store_quiet w' /\
  store_view w' = on_key k (success_row (_utc_now now)) (store_view w).
Proof.
  intros Hq Hin. eapply (by_key_view _ tt k w (fun I => success_row (_utc_now now))); [apply keeps_success|done..|  |].
  - intros z Eb ->. unfold mark_fanout_success, _use_mongo_outbox. rewrite Eb.
    change (bool_decide (BSqlite = BMongo)) with false. cbn match. by apply on_sqlite_ready; [|apply Hq|].
  - intros t Eb ->. unfold mark_fanout_success, _use_mongo_outbox. rewrite Eb.
    change (bool_decide (BMongo = BMongo)) with true. cbn match. by apply update_job_ready; [|apply Hq].
Qed.

Lemma store_failed now k e w : store_quiet w -> In k (map oid (store_view w)) -> exists w',
  mark_fanout_failed cfg now k e w = (w', Ok tt) /\ store_quiet w' /\
  store_view w' = on_key k (failed_row (_utc_now now) e) (store_view w).
Proof.
  intros Hq Hin. eapply (by_key_view _ tt k w (fun I => failed_row (_utc_now now) e)); [apply keeps_failed|done..|  |].
  - intros z Eb ->. unfold mark_fanout_failed, _use_mongo_outbox. rewrite Eb.
    change (bool_decide (BSqlite = BMongo)) with false. cbn match. by apply on_sqlite_ready; [|apply Hq|].
  - intros t Eb ->. unfold mark_fanout_failed, _use_mongo_outbox. rewrite Eb.
    change (bool_decide (BMongo = BMongo)) with true. cbn match. by apply update_job_ready; [|apply Hq].
Qed.

Lemma store_retry now jit j e w : store_quiet w -> In (oid j) (map oid (store_view w)) -> exists w' st na,
  mark_fanout_retry cfg now jit j e w = (w', Ok st) /\ store_quiet w' /\ st ∈ [Retrying; Failed] /\
  store_view w' = on_key (oid j) (retry_row st na (_utc_now now) e) (store_view w).
Proof.
  intros Hq Hin. destruct (retry_decision (fanout cfg) now jit j) as [st na] eqn:Er.
  assert (st ∈ [Retrying; Failed]) as Hst.
  { unfold retry_decision in Er. destruct (attempts j <? _); injection Er as <- _; set_solver. }
  pose proof (by_key_view (mark_fanout_retry cfg now jit j e) st (oid j) w
    (fun I => retry_row st na (_utc_now now) e)) as Hv.
  destruct Hv as (w' & ? & ? & ?); [apply keeps_retry|done..| | |by exists w', st, na].
  - intros z Eb Ez. unfold mark_fanout_retry, _use_mongo_outbox. rewrite Eb, Er, Ez.
    change (bool_decide (BSqlite = BMongo)) with false. cbn match. unfold st_bind.
    by erewrite on_sqlite_ready; [|done|apply Hq|].
  - intros t Eb Et. unfold mark_fanout_retry, _use_mongo_outbox. rewrite Eb, Er, Et.
    change (bool_decide (BMongo = BMongo)) with true. cbn match. unfold st_bind.
    by rewrite update_job_ready; [|done|apply Hq].
Qed.

Lemma store_fail_letta now e w : store_quiet w -> exists w' n,
  fail_letta_backlog cfg now e w = (w', Ok n) /\ store_quiet w' /\
  store_view w' = map (fun r => if letta_open r then failed_row (_utc_now now) e r else r) (store_view w).
Proof.
  intros [Hok Hr]. pose proof (keeps_fail_letta cfg uuid4 now e w Hok) as Hk.
  unfold fail_letta_backlog, _fail_letta_backlog_mongo, _use_mongo_outbox in *.
  unfold store_view. destruct (fanout_outbox_backend_active w) eqn:Eb.
  - change (bool_decide (BSqlite = BMongo)) with false in *. cbn match in *.
    erewrite on_sqlite_ready in Hk |- *; try done. eexists _, _. split; [done|]. split.
    { split; [done|]. unfold ready in *. cbn. by rewrite Eb in *. }
    cbn. rewrite Eb. rewrite !List.map_map. apply List.map_ext. intros r. unfold letta_open. cbn. by destruct (_ && _).
  - change (bool_decide (BMongo = BMongo)) with true in *. cbn match in *.
    erewrite with_mongo_ready in Hk |- *; try done. eexists _, _. split; [done|]. split.
    { split; [done|]. unfold ready in *. cbn. rewrite Eb in *. by blift; rewrite H, H1. }
    cbn. rewrite Eb. rewrite !List.map_map. apply List.map_ext. intros r. 
    unfold letta_open. cbn. by destruct (_ && _).
Qed.

Lemma store_claim now limit tgt ex w : store_quiet w -> exists w' l,
  claim_fanout_batch cfg now limit tgt ex w = (w', Ok l) /\ store_quiet w' /\
  (forall j, In j l -> exists r, In r (store_view w') /\ oid r = oid j /\ target r = target j /\ status r = Running) /\
  (forall r, In r (store_view w') -> In r (store_view w) \/ In (oid r) (map oid l)).
Proof.
  intros [Hok Hr]. pose proof (keeps_claim cfg uuid4 now limit tgt ex w Hok) as Hk.
  pose proof (claim_ready cfg uuid4 now limit tgt ex w Hok Hr) as Hc. cbn zeta in Hc. unfold store_view.
  destruct (fanout_outbox_backend_active w) eqn:Eb; destruct Hc as (w' & E & Hr' & Eb' & _ & Ev);
    rewrite E in Hk; exists w'; eexists; (split; [exact E|]); (split; [done|]); rewrite Eb', Ev.
  - split.
    + intros j (s & <- & Hs)%in_map_iff. pose proof (proj1 (select_due_In _ _ _ _ _ _ Hs)) as Hin.
      exists (with_key IntId (claim_row (_utc_now now) (attempts s + 1) s)). split; [|done].
      apply in_map. apply in_map_iff. exists s. split; [|done].
      replace (existsb _ _) with true; [done|]. symmetry. apply existsb_exists. exists s. by rewrite Z.eqb_refl.
    + intros r (r1 & <- & (r0 & <- & Hr0)%in_map_iff)%in_map_iff.
      destruct (existsb _ _) eqn:Ex; [right|left; by apply in_map].
      apply existsb_exists in Ex as (s & Hs & E1%Z.eqb_eq). rewrite List.map_map. cbn.
      apply in_map_iff. exists s. by rewrite E1.
  - split.
    + intros j (s & <- & Hs)%in_map_iff. pose proof (proj1 (select_due_In _ _ _ _ _ _ Hs)) as Hin.
      exists (with_key TextId (claim_row (_utc_now now) (attempts s + 1) s)). split; [|done].
      apply in_map. apply in_map_iff. exists s. split; [|done].
      replace (existsb _ _) with true; [done|]. symmetry. apply existsb_exists. exists s. by rewrite String.eqb_refl.
    + intros r (r1 & <- & (r0 & <- & Hr0)%in_map_iff)%in_map_iff.
      destruct (existsb _ _) eqn:Ex; [right|left; by apply in_map].
      apply existsb_exists in Ex as (s & Hs & E1%String.eqb_eq). rewrite List.map_map. cbn.
      apply in_map_iff. exists s. by rewrite E1.
Qed.

#[export] Instance store_table : @JobTable outbox_store (store_queue cfg uuid4).
Proof.
  refine (@Build_JobTable outbox_store (store_queue cfg uuid4) store_view store_quiet store_view_keys _ _ _ _ _).
  - exact store_claim.
  - exact store_success.
  - exact store_failed.
  - exact store_retry.
  - exact store_fail_letta.
Defined.
End store.

(** ** Chunks and groups *)

Lemma slices_concat {A} fuel size (items : list A) :
  (0 < size)%nat -> (length items <= fuel)%nat -> concat (slices fuel size items) = items.
Proof.
  intros Hs. revert items. induction fuel as [|fuel IH]; intros [|x items] Hf; try done; cbn in Hf; [lia|].
  change (firstn size (x :: items) ++ concat (slices fuel size (skipn size (x :: items))) = x :: items).
  rewrite IH; [apply firstn_skipn|]. rewrite length_skipn. cbn. lia.
Qed.

Lemma chunk_rows_concat {A} (items : list A) size : concat (_chunk_rows items size) = items.
Proof. apply slices_concat; lia. Qed.

Lemma slices_size {A} fuel size (items c : list A) :
  (0 < size)%nat -> In c (slices fuel size items) -> (0 < length c <= size)%nat.
Proof.
  intros Hs. revert items. induction fuel as [|fuel IH]; intros [|x items]; try done.
  intros [<-|Hc]; [|by apply IH in Hc]. rewrite length_firstn. cbn. lia.
Qed.

Definition members (g : list (string * list job)) (j : job) : Prop := exists k l, In (k, l) g /\ In j l.
Definition labelled (g : list (string * list job)) : Prop := forall k l j, In (k, l) g -> In j l -> target j = k.

Lemma members_cons k l g j : members ((k, l) :: g) j <-> In j l \/ members g j.
Proof.
  unfold members. split.
  - intros (k1 & l1 & [[= <- <-]|Hin] & Hj); [auto|]. right. eauto.
  - intros [Hj|(k1 & l1 & Hin & Hj)]; [exists k, l; cbn; auto|exists k1, l1; cbn; auto].
Qed.

Lemma append_to_members k x g j : members (append_to k x g) j <-> members g j \/ j = x.
Proof.
  induction g as [|[k' l] g IH]; cbn.
  - rewrite members_cons. cbn. naive_solver.
  - destruct (k =s k') eqn:Ek.
    + rewrite !members_cons, in_app_iff. cbn. naive_solver.
    + rewrite !members_cons, IH. tauto.
Qed.

Lemma append_to_labelled x g : labelled g -> labelled (append_to (target x) x g).
Proof.
  intros Hg. induction g as [|[k' l] g IH]; cbn.
  - intros k l j [[= <- <-]|[]] [<-|[]]. done.
  - assert (labelled g) as Hg' by (intros k1 l1 j1 ?; apply Hg; by right).
    destruct (target x =s k') eqn:Ek.
    + blift. intros k1 l1 j [[= <- <-]|Hin] Hj; [|by apply (Hg' k1 l1)].
      apply in_app_or in Hj as [Hj|[<-|[]]]; [|done]. apply (Hg k' l); [by left|done].
    + intros k1 l1 j [[= <- <-]|Hin] Hj; [apply (Hg k' l); [by left|done]|by apply (IH Hg' k1 l1)].
Qed.

Lemma jobs_by_target_spec jobs :
  labelled (jobs_by_target jobs) /\ forall j, members (jobs_by_target jobs) j <-> In j jobs.
Proof.
  unfold jobs_by_target.
  assert (forall g, labelled g -> let g' := fold_left (fun d j => append_to (target j) j d) jobs g in
    labelled g' /\ forall j, members g' j <-> members g j \/ In j jobs) as Hgen.
  { induction jobs as [|x jobs IH]; intros g Hg; cbn; [split; [done|]; naive_solver|].
    destruct (IH _ (append_to_labelled x g Hg)) as [H1 H2]. split; [done|].
    intros j. rewrite H2, append_to_members. naive_solver. }
  destruct (Hgen []) as [H1 H2]; [by intros ? ? ? []|]. split; [done|].
  intros j. rewrite H2. split; [|auto]. intros [(? & ? & [] & _)|]; done.
Qed.

Lemma pop_spec k g r g' : labelled g -> pop k g = (r, g') ->
  (forall j, In j r -> target j = k) /\ labelled g' /\ forall j, members g j <-> In j r \/ members g' j.
Proof.
  intros Hg. revert r g'. induction g as [|[k' l] g IH]; intros r g' E; cbn in E.
  { injection E as <- <-. split; [done|]. split; [done|]. naive_solver. }
  assert (labelled g) as Hg' by (intros k1 l1 j1 ?; apply Hg; by right).
  destruct (k =s k') eqn:Ek.
  - blift. injection E as <- <-. split; [intros j Hj; rewrite Ek; apply (Hg k' l); [by left|done]|].
    split; [done|]. intros j. apply members_cons.
  - destruct (pop k g) as [r1 g1] eqn:Ep. injection E as <- <-.
    destruct (IH Hg' _ _ eq_refl) as (H1 & H2 & H3). split; [done|]. split.
    + intros k1 l1 j [[= <- <-]|Hin] Hj; [apply (Hg k' l); [by left|done]|by apply (H2 k1 l1)].
    + intros j. rewrite !members_cons, H3. tauto.
Qed.

(** ** One round of a worker

    The jobs of a claimed batch are settled one after the other.  [t0] is the
    table and [L0] the log of requests when the batch is claimed. *)

Section settle.
Context {W : Type} `{JobTable W}.
Variable C : worker_config.
Variable E : environment.
Variable t0 : list job.
Variable L0 : list delivery.
Abbreviation state := (fanout_state W).

(** Among the requests [l], one carries job [k] to [t] and was accepted, or
    was answered by an error that the settings accept. *)
Definition carried (l : list delivery) (k : job_id) (t : string) : Prop :=
  exists d, In d l /\ sent_target d = t /\ In k (sent_jobs d) /\
    match sent_answer d with
    | None => True
    | Some e => t = FANOUT_TARGET_MINDSDB /\ MINDSDB_FAIL_OPEN_ON_PERMANENT_ERROR C = true /\
                _is_mindsdb_permanent_error (error_text_of e) = true
    end.

(** The sink of [t] is switched off by the settings: its jobs succeed without a
    request. *)
Definition sink_off (t : string) : Prop :=
  (t = FANOUT_TARGET_MINDSDB /\ (MINDSDB_ENABLED C = false \/ MINDSDB_AUTOSYNC C = false)) \/
  (t = FANOUT_TARGET_LANGFUSE /\ LANGFUSE_API_KEY C = "").

Definition delivered (l : list delivery) (k : job_id) (t : string) : Prop :=
  sink_off t \/ carried l k t.

Definition in_t0 (k : job_id) (s : outbox_status) : Prop :=
  exists r0, In r0 t0 /\ oid r0 = k /\ status r0 = s.

(** The jobs in [D] are settled, the others are as in [t0] or better. *)
Definition settled (D : job_id -> Prop) (new : list delivery) (t : list job) : Prop :=
  map (fun r => (oid r, target r)) t = map (fun r => (oid r, target r)) t0 /\
  forall r, In r t ->
    (status r = Running -> ~ D (oid r) /\ in_t0 (oid r) Running) /\
    (status r = Succeeded -> in_t0 (oid r) Succeeded \/ delivered new (oid r) (target r)).

Definition Inv (D : job_id -> Prop) (s : state) : Prop :=
  quiet (outbox s) /\ exists new, sent s = L0 ++ new /\ settled D new (view (outbox s)).

(** A job of the table. *)
Definition known (j : job) : Prop := In (oid j, target j) (map (fun r => (oid r, target r)) t0).

Definition is_delivered (j : job) (s : state) : Prop :=
  exists new, sent s = L0 ++ new /\ delivered new (oid j) (target j).

Lemma Inv_mono D D' s : (forall k, D' k -> D k) -> Inv D s -> Inv D' s.
Proof.
  intros HD (Hq & new & Hs & Hm & Hr). split; [done|]. exists new. split; [done|]. split; [done|].
  intros r Hin. destruct (Hr r Hin) as [H1 H2]. split; [|done]. intros Hst. destruct (H1 Hst). auto.
Qed.

Lemma known_in_view D j s : known j -> Inv D s -> In (oid j) (map oid (view (outbox s))).
Proof.
  intros Hk (_ & new & _ & Hm & _). unfold known in Hk. rewrite <- Hm in Hk.
  apply in_map_iff in Hk as (r & Er & Hr). injection Er as Eo _. rewrite <- Eo. by apply in_map.
Qed.

Lemma known_target D j s r : known j -> Inv D s -> In r (view (outbox s)) -> oid r = oid j -> target r = target j.
Proof.
  intros Hk (Hq & new & _ & Hm & _) Hr Eo. unfold known in Hk. rewrite <- Hm in Hk.
  apply in_map_iff in Hk as (r' & Er & Hr'). injection Er as Eo' <-.
  f_equal. eapply In_NoDup_inj; [by apply view_keys|done..|congruence].
Qed.

(** An update of a job that settles it. *)
Lemma settled_on_key D new k u t : keeps_key u ->
  (forall r, status (u r) <> Running) ->
  (forall r, In r t -> oid r = k -> status (u r) = Succeeded -> delivered new k (target r)) ->
  settled D new t -> settled (fun k' => D k' \/ k' = k) new (on_key k u t).
Proof.
  intros Hu Hnr Hsu [Hm Hr]. unfold on_key. split.
  { rewrite List.map_map, <- Hm. apply List.map_ext. intros r.
    destruct (bool_decide _); [|done]. by destruct (Hu r) as (-> & _ & -> & _). }
  intros r' (r & <- & Hin)%in_map_iff. destruct (Hr r Hin) as [H1 H2]. destruct (Hu r) as (Eo & _ & Et & _).
  destruct (bool_decide_reflect (oid r = k)) as [Ek|Hne].
  - split; [intros Hst; by destruct (Hnr r)|]. intros Hst. right. rewrite Eo, Et, Ek. by eapply Hsu.
  - split; [|done]. intros Hst. destruct (H1 Hst). split; [|done]. by intros [|].
Qed.

Lemma settled_fail_letta D K new now e t :
  (forall r, In r t -> K (oid r) -> target r = FANOUT_TARGET_LETTA) -> settled D new t ->
  settled (fun k => D k \/ K k) new (map (fun r => if letta_open r then failed_row now e r else r) t).
Proof.
  intros Ht [Hm Hr]. split.
  { rewrite List.map_map, <- Hm. apply List.map_ext. intros r. by destruct (letta_open r). }
  intros r' (r & <- & Hin)%in_map_iff. destruct (Hr r Hin) as [H1 H2].
  destruct (letta_open r) eqn:Ho; [by split|]. split; [|done].
  intros Hst. destruct (H1 Hst) as [HD Hz]. split; [|done]. intros [?|Ek]; [done|].
  unfold letta_open in Ho. rewrite (Ht r Hin Ek), Hst in Ho. done.
Qed.

(** *** Marking *)

Lemma hoare_read_env {A} (P : state -> Prop) (f : nat -> A) X :
  (forall s, P s -> P (tick s)) -> hoare P (read_env f) (fun _ => P) X.
Proof. intros HP s Hs. by apply HP. Qed.

Definition marked (D : job_id -> Prop) (L : list delivery) (s : state) : Prop := Inv D s /\ sent s = L.

(** A statement by key that settles the job; it may mark a delivered job as
    succeeded. *)
Lemma by_key_triple {A} D L j (m : ST W A) : known j ->
  (forall w, quiet w -> In (oid j) (map oid (view w)) -> exists w' a u,
     m w = (w', Ok a) /\ quiet w' /\ view w' = on_key (oid j) u (view w) /\ keeps_key u /\
     (forall r, status (u r) <> Running) /\
     ((forall r, status (u r) <> Succeeded) \/ (forall s, sent s = L -> is_delivered j s))) ->
  hoare (marked D L) (in_outbox m) (fun _ => marked (fun k => D k \/ k = oid j) L) never.
Proof.
  intros Hk Hm s [Hi Hs]. pose proof Hi as (Hq & new & Hn & Hset).
  destruct (Hm (outbox s) Hq (known_in_view _ _ _ Hk Hi)) as (w' & a & u & Ew & Hq' & Hv & Hu & Hnr & Hsu).
  unfold in_outbox. rewrite Ew. split; [|done]. split; [done|]. exists new. split; [done|]. cbn. rewrite Hv.
  apply settled_on_key; [done..| |done]. intros r Hr Er Hst. destruct Hsu as [Hns|Hd]; [by destruct (Hns r)|].
  destruct (Hd s Hs) as (new' & Hn' & Hd'). rewrite Hn in Hn'. apply app_inv_head in Hn' as <-.
  by rewrite (known_target _ _ _ _ Hk Hi Hr Er).
Qed.

Lemma fail_letta_triple D L (K : job_id -> Prop) now reason :
  (forall k, K k -> exists j, oid j = k /\ known j /\ target j = FANOUT_TARGET_LETTA) ->
  hoare (marked D L) (in_outbox (q_fail_letta now reason)) (fun _ => marked (fun k => D k \/ K k) L) never.
Proof.
  intros HK s [Hi Hs]. pose proof Hi as (Hq & new & Hn & Hset).
  destruct (fail_letta_law now reason (outbox s) Hq) as (w' & n & Ew & Hq' & Hv).
  unfold in_outbox. rewrite Ew. split; [|done]. split; [done|]. exists new. split; [done|]. cbn. rewrite Hv.
  apply settled_fail_letta; [|done]. intros r Hr (j & Ej & Hk & <-)%HK. by eapply known_target.
Qed.

Lemma success_triple D L j now : known j -> (forall s, sent s = L -> is_delivered j s) ->
  hoare (marked D L) (in_outbox (q_success now (oid j))) (fun _ => marked (fun k => D k \/ k = oid j) L) never.
Proof.
  intros Hk Hd. apply by_key_triple; [done|]. intros w Hq Hin.
  destruct (success_law now (oid j) w Hq Hin) as (w' & Ew & Hq' & Hv).
  exists w', tt, (success_row (_utc_now now)). repeat split; auto.
Qed.

Lemma mark_success_triple D L j tgt : known j ->
  (forall s, sent s = L -> is_delivered j s) ->
  hoare (marked D L) (_mark_fanout_job_success E j tgt)
    (fun _ => marked (fun k => D k \/ k = oid j) L) never.
Proof.
  intros Hk Hd. eapply hoare_bind.
  { apply hoare_modify with (Q := fun _ => marked D L). intros s Hs. by destruct (tgt =s _). }
  intros u. eapply hoare_bind; [by apply hoare_read_env|]. intros now.
  eapply hoare_bind; [by apply success_triple|intros u'; by apply hoare_modify].
Qed.

(** What an exception of a batch may be taken for. *)
Definition excused (e : exn) (j : job) (s : state) : Prop :=
  target j = FANOUT_TARGET_MINDSDB -> MINDSDB_FAIL_OPEN_ON_PERMANENT_ERROR C = true ->
  _is_mindsdb_permanent_error (error_text_of e) = true -> is_delivered j s.

Lemma error_branch_spec error tgt l l' a : error_branch C error tgt l = (l', a) ->
  match a with
  | DisableLetta _ _ => tgt = FANOUT_TARGET_LETTA
  | FailOpen => tgt = FANOUT_TARGET_MINDSDB /\ MINDSDB_FAIL_OPEN_ON_PERMANENT_ERROR C = true /\
                _is_mindsdb_permanent_error error = true
  | _ => True
  end.
Proof.
  unfold error_branch. intros Hb.
  destruct (tgt =s FANOUT_TARGET_LETTA) eqn:El.
  - blift. subst. cbn [andb] in Hb. destruct (_is_letta_permanent_error error); [by injection Hb as <- <-|].
    destruct (_record_letta_transient_failure C error l) as [l1 []]; injection Hb as <- <-; done.
  - cbn [andb] in Hb. destruct (tgt =s FANOUT_TARGET_MINDSDB) eqn:Em; cbn [andb] in Hb.
    + blift. subst. destruct (_is_mindsdb_permanent_error error); [|by injection Hb as <- <-].
      destruct (MINDSDB_FAIL_OPEN_ON_PERMANENT_ERROR C) eqn:Ef; injection Hb as <- <-; done.
    + by injection Hb as <- <-.
Qed.

Lemma handle_error_triple D L j e : known j ->
  (forall s, sent s = L -> excused e j s) ->
  hoare (marked D L) (_handle_fanout_job_error C E j e)
    (fun _ => marked (fun k => D k \/ k = oid j) L) never.
Proof.
  intros Hk Hx. unfold _handle_fanout_job_error. eapply hoare_bind; [by apply hoare_modify with (Q := fun _ => marked D L)|].
  intros u. eapply hoare_bind with (R := fun _ => marked D L); [by intros s Hs|]. intros s0.
  destruct (error_branch C (error_text_of e) (target j) (letta s0)) as [l a] eqn:Eb. apply error_branch_spec in Eb.
  eapply hoare_bind; [by apply hoare_modify with (Q := fun _ => marked D L)|]. intros u'.
  eapply hoare_bind; [by apply hoare_read_env|]. intros now. destruct a as [reason reset| | |].
  - eapply hoare_bind; [by apply hoare_modify with (Q := fun _ => marked D L)|]. intros u''.
    eapply hoare_bind with (R := fun _ => marked (fun k => D k \/ k = oid j) L);
      [|intros n; apply hoare_modify; intros s Hs; by destruct reset].
    apply fail_letta_triple. by intros k ->; exists j.
  - eapply hoare_bind; [apply success_triple; [done|]|intros u''; by apply hoare_modify].
    destruct Eb as (? & ? & ?). intros s Hs. by apply (Hx s Hs).
  - apply by_key_triple; [done|]. intros w Hq Hin.
    destruct (failed_law now (oid j) (error_text_of e) w Hq Hin) as (w' & Ew & Hq' & Hv).
    exists w', tt, (failed_row (_utc_now now) (error_text_of e)). repeat split; [done..|]. by left.
  - eapply hoare_bind; [by apply hoare_read_env|]. intros jit.
    eapply hoare_bind; [apply by_key_triple; [done|]|intros x; by apply hoare_ret]. intros w Hq Hin.
    destruct (retry_law now jit j (error_text_of e) w Hq Hin) as (w' & st & na & Ew & Hq' & Hst & Hv).
    exists w', st, (retry_row st na (_utc_now now) (error_text_of e)).
    repeat split; [done..| |left]; cbn; set_solver.
Qed.

(** *** Chunks *)

(** A loop that settles a job per round and sends nothing. *)
Lemma settle_all {A} (key : A -> job_id) (body : A -> ST state unit) l D (P : state -> Prop) :
  (forall s, P s -> Inv D s /\ forall x D', In x l ->
     hoare (marked D' (sent s)) (body x) (fun _ => marked (fun k => D' k \/ k = key x) (sent s)) never) ->
  hoare P (st_for l body) (fun _ => Inv (fun k => D k \/ In k (map key l))) never.
Proof.
  intros Hb s Hs. destruct (Hb s Hs) as [Hi Hbody].
  pose proof (hoare_for (fun D => marked D (sent s)) (fun x k => k = key x) body l never) as Hf.
  unshelve epose proof (Hf _ Hbody D s (conj Hi eq_refl)) as Hr.
  { intros D1 D2 s' HD [Hi' Hs']. split; [by eapply Inv_mono|done]. }
  cbn in Hr. destruct (st_for l body s) as [s' [v|e]]; [|done]. destruct Hr as [Hr _].
  eapply Inv_mono; [|exact Hr]. intros k [?|(x & <- & Hx)%in_map_iff]; eauto.
Qed.

Lemma backpressure_triple D tgt X : hoare (Inv D) (_apply_fanout_backpressure C E tgt) (fun _ => Inv D) X.
Proof.
  intros s Hi. unfold _apply_fanout_backpressure. destruct (Qle_bool _ 0); [done|]. cbn.
  by destruct (_ <=? _).
Qed.

(** What is left of a batch when an exception ends it. *)
Definition interrupted (D : job_id -> Prop) (batch : list job) (e : exn) (s : state) : Prop :=
  Inv D s /\ forall j, In j batch -> excused e j s.

Definition all_delivered (D : job_id -> Prop) (batch : list job) (s : state) : Prop :=
  Inv D s /\ forall j, In j batch -> is_delivered j s.

Lemma settled_more D new d t : settled D new t -> settled D (new ++ [d]) t.
Proof.
  intros [Hm Hr]. split; [done|]. intros r Hin. destruct (Hr r Hin) as [H1 H2]. split; [done|].
  intros Hst. destruct (H2 Hst) as [|[|(d' & Hd' & Hx)]]; [auto|by right; left|]. right; right. exists d'. split; [by apply in_or_app; left|done].
Qed.

Lemma Inv_push D tgt jobs rws s : Inv D s -> Inv D (fst (push E tgt jobs rws s)).
Proof.
  intros (Hq & new & Hn & Hset). split; [done|]. cbn.
  exists (new ++ [mkDelivery tgt (map oid jobs) rws (answer E (ticks s))]).
  rewrite Hn, app_assoc. split; [done|]. by apply settled_more.
Qed.

Lemma push_triple D tgt batch rws : (forall j, In j batch -> target j = tgt) ->
  hoare (Inv D) (push E tgt batch rws) (fun _ => all_delivered D batch) (interrupted D batch).
Proof.
  intros Ht s Hi. pose proof (Inv_push D tgt batch rws s Hi) as Hi'. destruct Hi as (Hq & new & Hn & Hset).
  unfold push in *. cbn [fst] in Hi'. 
  assert (forall j, In j batch ->
    match answer E (ticks s) with None => True | Some e => target j = FANOUT_TARGET_MINDSDB /\
      MINDSDB_FAIL_OPEN_ON_PERMANENT_ERROR C = true /\ _is_mindsdb_permanent_error (error_text_of e) = true end ->
    is_delivered j (add_sent (mkDelivery tgt (map oid batch) rws (answer E (ticks s))) (tick s))) as Hd.
  { intros j Hj Ha. exists (new ++ [mkDelivery tgt (map oid batch) rws (answer E (ticks s))]). cbn.
    rewrite Hn, app_assoc. split; [done|]. right. eexists. split; [apply in_or_app; right; by left|].
    cbn. split; [by rewrite Ht|]. split; [by apply in_map|done]. }
  destruct (answer E (ticks s)) as [e|] eqn:Ea.
  - split; [done|]. intros j Hj Hm Hf Hp. by apply Hd.
  - split; [done|]. intros j Hj. by apply Hd.
Qed.

Lemma handle_all_triple D batch e : (forall j, In j batch -> known j) ->
  hoare (interrupted D batch e) (st_for batch (fun j => _handle_fanout_job_error C E j e))
    (fun _ => Inv (fun k => D k \/ In k (map oid batch))) never.
Proof.
  intros Hk. apply (settle_all oid). intros s [Hi Hx]. split; [done|]. intros j D' Hj.
  apply handle_error_triple; [by apply Hk|]. intros s' Hs' H1 H2 H3.
  destruct (Hx j Hj H1 H2 H3) as (new & Hn & Hd). exists new. by rewrite Hs'.
Qed.

Lemma mark_all_triple D batch tgt : (forall j, In j batch -> known j) ->
  hoare (all_delivered D batch) (st_for batch (fun j => _mark_fanout_job_success E j tgt))
    (fun _ => Inv (fun k => D k \/ In k (map oid batch))) never.
Proof.
  intros Hk. apply (settle_all oid). intros s [Hi Hx]. split; [done|]. intros j D' Hj.
  apply mark_success_triple; [by apply Hk|]. intros s' Hs'.
  destruct (Hx j Hj) as (new & Hn & Hd). exists new. by rewrite Hs'.
Qed.

Lemma deliver_batch_triple D tgt row send batch :
  (forall j, In j batch -> known j /\ target j = tgt) ->
  (forall j, In j batch -> hoare (Inv D) (row j) (fun _ => Inv D) (interrupted D batch)) ->
  (forall rws, hoare (Inv D) (send batch rws) (fun _ => all_delivered D batch) (interrupted D batch)) ->
  hoare (Inv D) (deliver_batch C E tgt row send batch) (fun _ => Inv (fun k => D k \/ In k (map oid batch))) never.
Proof.
  intros Hk Hrow Hsend. eapply hoare_try; [|intros e; apply handle_all_triple; apply Hk].
  eapply hoare_bind; [apply backpressure_triple|]. intros u.
  eapply hoare_bind; [apply hoare_map; exact Hrow|]. intros rws.
  eapply hoare_bind; [apply Hsend|]. intros u'.
  eapply hoare_conseq; [apply mark_all_triple; apply Hk|done|done|by intros ? ? []].
Qed.

(** *** Targets *)

(** Delivering jobs chunk by chunk. *)
Lemma chunks_triple D (body : list job -> ST state unit) jobs size :
  (forall batch D', incl batch jobs -> hoare (Inv D') (body batch) (fun _ => Inv (fun k => D' k \/ In k (map oid batch))) never) ->
  hoare (Inv D) (st_for (_chunk_rows jobs size) body) (fun _ => Inv (fun k => D k \/ In k (map oid jobs))) never.
Proof.
  intros Hb. eapply hoare_conseq.
  - apply (hoare_for Inv (fun batch k => In k (map oid batch)) body (_chunk_rows jobs size) never); [apply Inv_mono|].
    intros batch D' Hin. apply Hb. intros j Hj. rewrite <- (chunk_rows_concat jobs size). apply in_concat. eauto.
  - done.
  - intros v s. apply Inv_mono. intros k [?|(j & <- & Hj)%in_map_iff]; [auto|]. right.
    rewrite <- (chunk_rows_concat jobs size) in Hj. apply in_concat in Hj as (batch & ? & ?).
    exists batch. split; [done|]. by apply in_map.
  - done.
Qed.

(** Exceptions of the row builders are no MindsDB errors. *)
Lemma interrupted_plain D batch e s : Inv D s -> _is_mindsdb_permanent_error (error_text_of e) = false ->
  interrupted D batch e s.
Proof. intros Hi He. split; [done|]. intros j _ _ _ Hp. congruence. Qed.

Lemma getitem_raise d k e : getitem d k = Raise e -> e = KeyError k.
Proof. unfold getitem. destruct (dlookup k d); [done|]. by intros [= <-]. Qed.

Lemma payload_raise j e : payload_of j = Raise e -> e = OtherError "TypeError" "payload is not an object".
Proof. unfold payload_of. destruct (jor _ _); by intros [= <-]. Qed.

Lemma mindsdb_row_raise now j e : mindsdb_row now j = Raise e -> _is_mindsdb_permanent_error (error_text_of e) = false.
Proof.
  unfold mindsdb_row, rbind. destruct (payload_of j) as [d|e'] eqn:E0;
    [|intros [= <-]; apply payload_raise in E0 as ->; reflexivity].
  destruct (getitem d "project") as [p|e'] eqn:E1; [|intros [= <-]; apply getitem_raise in E1 as ->; reflexivity].
  destruct (getitem d "file") as [f|e'] eqn:E2; [done|intros [= <-]; apply getitem_raise in E2 as ->; reflexivity].
Qed.

(** For the other targets no exception is excused. *)
Lemma interrupted_other D batch e s : Inv D s ->
  (forall j, In j batch -> target j <> FANOUT_TARGET_MINDSDB) -> interrupted D batch e s.
Proof. intros Hi Ht. split; [done|]. intros j Hj Hm. by destruct (Ht j Hj). Qed.

Lemma lift_triple {A} (P : state -> Prop) (r : result A) (X : exn -> state -> Prop) :
  (forall e s, r = Raise e -> P s -> X e s) -> hoare P (st_lift r) (fun _ => P) X.
Proof. intros HX s Hs. unfold st_lift. destruct r; auto. Qed.

Lemma push_raw_triple D batch rws : (forall j, In j batch -> target j = FANOUT_TARGET_MONGO_RAW) ->
  hoare (Inv D) (push_raw_events E batch rws) (fun _ => all_delivered D batch) (interrupted D batch).
Proof.
  intros Ht. eapply hoare_try; [by apply push_triple|]. intros e s [Hi _]. cbn.
  apply interrupted_other; [done|]. intros j Hj. by rewrite Ht.
Qed.

(** A target whose batches are delivered as a whole. *)
Lemma deliver_target_triple D tgt row send jobs size :
  (forall j, In j jobs -> known j /\ target j = tgt) ->
  (forall j batch D', In j batch -> incl batch jobs ->
     hoare (Inv D') (row j) (fun _ => Inv D') (interrupted D' batch)) ->
  (forall batch D' rws, incl batch jobs ->
     hoare (Inv D') (send batch rws) (fun _ => all_delivered D' batch) (interrupted D' batch)) ->
  hoare (Inv D) (st_for (_chunk_rows jobs size) (deliver_batch C E tgt row send))
    (fun _ => Inv (fun k => D k \/ In k (map oid jobs))) never.
Proof.
  intros Hk Hrow Hsend. apply chunks_triple. intros batch D' Hb.
  apply deliver_batch_triple; [intros j Hj; by apply Hk, Hb|by eauto..].
Qed.

(** A row builder of a target other than MindsDB. *)
Lemma plain_row_triple D batch jobs (row : job -> result json) j tgt :
  (forall j, In j jobs -> known j /\ target j = tgt) -> tgt <> FANOUT_TARGET_MINDSDB -> incl batch jobs ->
  hoare (Inv D) (st_lift (row j)) (fun _ => Inv D) (interrupted D batch).
Proof.
  intros Hk Ht Hb. apply lift_triple. intros e s _ Hi. apply interrupted_other; [done|].
  intros j' Hj'. by destruct (Hk j' (Hb j' Hj')) as [_ ->].
Qed.

Lemma push_incl_triple D tgt batch jobs rws : (forall j, In j jobs -> known j /\ target j = tgt) -> incl batch jobs ->
  hoare (Inv D) (push E tgt batch rws) (fun _ => all_delivered D batch) (interrupted D batch).
Proof. intros Hk Hb. apply push_triple. intros j Hj. by apply Hk, Hb. Qed.

(** A sink that is off accepts every batch. *)
Lemma skip_triple D batch : (forall j, In j batch -> sink_off (target j)) ->
  hoare (Inv D) (st_ret tt) (fun _ => all_delivered D batch) (interrupted D batch).
Proof.
  intros Ht s Hi. split; [done|]. intros j Hj. destruct Hi as (_ & new & Hn & _). exists new. split; [done|].
  left. by apply Ht.
Qed.

Lemma push_mindsdb_triple D batch jobs rws :
  (forall j, In j jobs -> known j /\ target j = FANOUT_TARGET_MINDSDB) -> incl batch jobs ->
  hoare (Inv D) (push_mindsdb_jobs C E batch rws) (fun _ => all_delivered D batch) (interrupted D batch).
Proof.
  intros Hk Hb. unfold push_mindsdb_jobs. destruct (MINDSDB_ENABLED C) eqn:E1, (MINDSDB_AUTOSYNC C) eqn:E2; cbn [negb orb].
  1: by eapply push_incl_triple.
  all: apply skip_triple; intros j Hj; left; split; [by apply Hk, Hb|auto].
Qed.

Lemma push_langfuse_triple D batch jobs rws :
  (forall j, In j jobs -> known j /\ target j = FANOUT_TARGET_LANGFUSE) -> incl batch jobs ->
  hoare (Inv D) (push_langfuse_jobs C E batch rws) (fun _ => all_delivered D batch) (interrupted D batch).
Proof.
  intros Hk Hb. unfold push_langfuse_jobs. destruct (LANGFUSE_API_KEY C) eqn:E1; cbn [truthy negb].
  - apply skip_triple. intros j Hj. right. split; [by apply Hk, Hb|done].
  - by eapply push_incl_triple.
Qed.

Section targets.
Variables (D : job_id -> Prop) (jobs : list job).
Abbreviation settles m := (hoare (Inv D) m (fun _ => Inv (fun k => D k \/ In k (map oid jobs))) never).

Lemma deliver_qdrant_triple : (forall j, In j jobs -> known j /\ target j = FANOUT_TARGET_QDRANT) ->
  settles (deliver_qdrant C E jobs).
Proof.
  intros Hk. apply deliver_target_triple; [done|..].
  - intros j batch D' _ Hb. by eapply plain_row_triple.
  - intros batch D' rws Hb. by eapply push_incl_triple.
Qed.

Lemma deliver_langfuse_triple : (forall j, In j jobs -> known j /\ target j = FANOUT_TARGET_LANGFUSE) ->
  settles (deliver_langfuse C E jobs).
Proof.
  intros Hk. apply deliver_target_triple; [done|..].
  - intros j batch D' _ Hb. by eapply plain_row_triple.
  - intros batch D' rws Hb. by eapply push_langfuse_triple.
Qed.

Lemma deliver_mongo_triple : (forall j, In j jobs -> known j /\ target j = FANOUT_TARGET_MONGO_RAW) ->
  settles (deliver_mongo C E jobs).
Proof.
  intros Hk. apply deliver_target_triple; [done|..].
  - intros j batch D' _ Hb. by eapply plain_row_triple.
  - intros batch D' rws Hb. apply push_raw_triple. intros j Hj. by apply Hk, Hb.
Qed.

Lemma deliver_mindsdb_triple : (forall j, In j jobs -> known j /\ target j = FANOUT_TARGET_MINDSDB) ->
  settles (deliver_mindsdb C E jobs).
Proof.
  intros Hk. apply deliver_target_triple; [done|..].
  - intros j batch D' Hj Hb. eapply hoare_bind; [by apply hoare_read_env|]. intros now.
    apply lift_triple. intros e s He Hi. apply interrupted_plain; [done|]. by eapply mindsdb_row_raise.
  - intros batch D' rws Hb. by eapply push_mindsdb_triple.
Qed.
End targets.

(** *** Letta *)

Lemma is_delivered_more j s s' more : sent s' = sent s ++ more -> is_delivered j s -> is_delivered j s'.
Proof.
  intros Hs (new & Hn & [Hoff|(d & Hd & Hx)]); exists (new ++ more); (split; [by rewrite Hs, Hn, app_assoc|]); [by left|].
  right. exists d. split; [apply in_or_app; by left|done].
Qed.

(** A push of one job: its outcome is returned, and [None] means delivered. *)
Lemma sync_letta_spec D j s : target j = FANOUT_TARGET_LETTA -> Inv D s ->
  exists s' r more, _sync_letta E j s = (s', Ok r) /\ Inv D s' /\ sent s' = sent s ++ more /\
    (r = None -> is_delivered j s').
Proof.
  intros Ht Hi. unfold _sync_letta, st_try, st_bind, st_lift.
  destruct (payload_of j) as [d|e]; [|exists s, (Some e), []; by rewrite app_nil_r].
  destruct (negb (jtruthy (dget d "letta_session"))).
  { eexists s, _, []. by rewrite app_nil_r. }
  set (rws := [_; _; _]). pose proof (push_triple D FANOUT_TARGET_LETTA [j] rws) as Hp.
  specialize (Hp ltac:(by intros ? [<-|[]]) s Hi). destruct (push E FANOUT_TARGET_LETTA [j] rws s) as [s' r] eqn:Ep.
  assert (exists more, sent s' = sent s ++ more) as [more Hm] by (injection Ep as <- _; by eexists).
  destruct r as [u|e].
  - exists s', None, more. destruct Hp as [Hi' Hd]. do 3 (split; [done|]). intros _. apply Hd. by left.
  - exists s', (Some e), more. by destruct Hp.
Qed.

Lemma sync_all_spec D batch s : (forall j, In j batch -> target j = FANOUT_TARGET_LETTA) -> Inv D s ->
  exists s' rs more, st_map (_sync_letta E) batch s = (s', Ok rs) /\ Inv D s' /\ sent s' = sent s ++ more /\
    List.Forall2 (fun j r => r = None -> is_delivered j s') batch rs.
Proof.
  intros Ht. revert s. induction batch as [|j batch IH]; intros s Hi; cbn [st_map].
  { exists s, [], []. rewrite app_nil_r. do 3 (split; [done|]). constructor. }
  destruct (sync_letta_spec D j s) as (s1 & r & m1 & E1 & Hi1 & Hm1 & Hd1); [by apply Ht; left|done|].
  destruct (IH ltac:(intros ? ?; apply Ht; by right) s1 Hi1) as (s2 & rs & m2 & E2 & Hi2 & Hm2 & Hd2).
  unfold st_bind. rewrite E1, E2. exists s2, (r :: rs), (m1 ++ m2).
  split; [done|]. split; [done|]. split; [by rewrite Hm2, Hm1, app_assoc|].
  constructor; [|done]. intros Hr. eapply is_delivered_more; eauto.
Qed.

Lemma Forall2_zip {A B} (P : A -> B -> Prop) l1 l2 : List.Forall2 P l1 l2 ->
  (forall x y, In (x, y) (zip l1 l2) -> P x y /\ In x l1) /\ map fst (zip l1 l2) = l1.
Proof.
  induction 1 as [|x y l1 l2 Hxy _ [IH1 IH2]]; cbn; [done|]. split; [|by f_equal].
  intros a b [[= <- <-]|Hin]; [auto|]. destruct (IH1 a b Hin). auto.
Qed.

Lemma letta_result_triple D s j r : known j -> target j = FANOUT_TARGET_LETTA -> (r = None -> is_delivered j s) ->
  hoare (marked D (sent s))
    (match r with Some exc => _handle_fanout_job_error C E j exc | None => _mark_fanout_job_success E j FANOUT_TARGET_LETTA end)
    (fun _ => marked (fun k => D k \/ k = oid j) (sent s)) never.
Proof.
  intros Hk Ht Hd. destruct r as [exc|].
  - apply handle_error_triple; [done|]. intros s' _ Hm. by rewrite Ht in Hm.
  - apply mark_success_triple; [done|]. intros s' Hs'. apply (is_delivered_more j s s' []); [by rewrite app_nil_r|auto].
Qed.

Lemma letta_batch_triple D batch : (forall j, In j batch -> known j /\ target j = FANOUT_TARGET_LETTA) ->
  hoare (Inv D) (letta_batch C E batch) (fun _ => Inv (fun k => D k \/ In k (map oid batch))) never.
Proof.
  intros Hk s Hi. unfold letta_batch. destruct (negb (_letta_target_enabled C (letta s))).
  - pose proof (fail_letta_triple D (sent s) (fun k => In k (map oid batch)) (clock E (ticks s))) as Ht.
    unfold st_bind, read_env. specialize (Ht (str_or (letta_runtime_disabled_reason (letta s)) "letta fanout disabled")).
    specialize (Ht ltac:(intros k (j & <- & Hj)%in_map_iff; destruct (Hk j Hj); by exists j) (tick s) (conj Hi eq_refl)).
    destruct (in_outbox _ (tick s)) as [s' [n|e]]; [apply Ht|done].
  - unfold st_try, st_bind.
    pose proof (backpressure_triple D FANOUT_TARGET_LETTA never s Hi) as Hb.
    destruct (_apply_fanout_backpressure C E FANOUT_TARGET_LETTA s) as [s1 [u|e]]; [|done].
    destruct (sync_all_spec D batch s1) as (s2 & rs & more & E2 & Hi2 & _ & Hf); [intros j Hj; by apply Hk|done|].
    rewrite E2. apply Forall2_zip in Hf as [Hz Hmap].
    set (body := fun '(j, result) => _).
    pose proof (settle_all (fun x : job * option exn => oid (fst x)) body (zip batch rs) D (fun s => s = s2)) as Hs.
    unshelve epose proof (Hs _ s2 eq_refl) as Hs'.
    { intros s' ->. split; [done|]. intros [j r] D' Hin. destruct (Hz j r Hin) as [Hd Hj].
      destruct (Hk j Hj). by apply letta_result_triple. }
    destruct (st_for (zip batch rs) body s2) as [s3 [v|e]]; [|done].
    by rewrite <- (List.map_map fst oid), Hmap in Hs'.
Qed.

Lemma deliver_letta_triple D jobs : (forall j, In j jobs -> known j /\ target j = FANOUT_TARGET_LETTA) ->
  hoare (Inv D) (deliver_letta C E jobs) (fun _ => Inv (fun k => D k \/ In k (map oid jobs))) never.
Proof. intros Hk. apply chunks_triple. intros batch D' Hb. apply letta_batch_triple. intros j Hj. by apply Hk, Hb. Qed.

(** *** Targets no sink knows *)

Lemma deliver_unknown_triple D g : labelled g -> (forall j, members g j -> known j) ->
  hoare (Inv D) (deliver_unknown C E g) (fun _ => Inv (fun k => D k \/ exists j, members g j /\ k = oid j)) never.
Proof.
  intros Hl Hk. eapply hoare_conseq.
  - apply (hoare_for Inv (fun x k => In k (map oid (snd x)))); [apply Inv_mono|].
    intros [t l] D' Hin. apply (settle_all oid). intros s Hi. split; [done|]. intros j D2 Hj.
    apply handle_error_triple; [apply Hk; by exists t, l|]. intros s' _ Hm _ Hp. exfalso.
    pose proof (Hl t l j Hin Hj) as Ht. rewrite Hm in Ht. subst t. by vm_compute in Hp.
  - done.
  - intros v s. apply Inv_mono. intros k [?|(j & (t & l & Hin & Hj) & ->)]; [auto|]. right.
    exists (t, l). split; [done|]. by apply in_map.
  - done.
Qed.

(** *** The whole batch *)

Lemma deliver_jobs_triple jobs : (forall j, In j jobs -> known j) ->
  hoare (Inv (fun _ => False)) (deliver_jobs C E jobs) (fun _ => Inv (fun k => In k (map oid jobs))) never.
Proof.
  intros Hk. unfold deliver_jobs. destruct (jobs_by_target_spec jobs) as [L1 M1].
  destruct (pop FANOUT_TARGET_QDRANT _) as [j1 g1] eqn:E1. destruct (pop_spec _ _ _ _ L1 E1) as (T1 & L2 & M2).
  destruct (pop FANOUT_TARGET_MINDSDB g1) as [j2 g2] eqn:E2. destruct (pop_spec _ _ _ _ L2 E2) as (T2 & L3 & M3).
  destruct (pop FANOUT_TARGET_MONGO_RAW g2) as [j3 g3] eqn:E3. destruct (pop_spec _ _ _ _ L3 E3) as (T3 & L4 & M4).
  destruct (pop FANOUT_TARGET_LANGFUSE g3) as [j4 g4] eqn:E4. destruct (pop_spec _ _ _ _ L4 E4) as (T4 & L5 & M5).
  destruct (pop FANOUT_TARGET_LETTA g4) as [j5 g5] eqn:E5. destruct (pop_spec _ _ _ _ L5 E5) as (T5 & L6 & M6).
  assert (forall j, In j jobs <-> In j j1 \/ In j j2 \/ In j j3 \/ In j j4 \/ In j j5 \/ members g5 j) as Hall.
  { intros j. by rewrite <- M1, M2, M3, M4, M5, M6. }
  eapply hoare_bind; [apply deliver_qdrant_triple; intros j Hj; split; [apply Hk, Hall|]; auto|]. intros u1.
  eapply hoare_bind; [apply deliver_mindsdb_triple; intros j Hj; split; [apply Hk, Hall|]; auto|]. intros u2.
  eapply hoare_bind; [apply deliver_mongo_triple; intros j Hj; split; [apply Hk, Hall|]; auto|]. intros u3.
  eapply hoare_bind; [apply deliver_langfuse_triple; intros j Hj; split; [apply Hk, Hall|]; auto|]. intros u4.
  eapply hoare_bind; [apply deliver_letta_triple; intros j Hj; split; [apply Hk, Hall|]; auto 10|]. intros u5.
  eapply hoare_conseq; [apply deliver_unknown_triple; [done|intros j Hj; apply Hk, Hall; auto 10]|done| |done].
  intros v s. apply Inv_mono. intros k (j & <- & Hj)%in_map_iff. apply Hall in Hj.
  pose proof (in_map oid j1 j). pose proof (in_map oid j2 j). pose proof (in_map oid j3 j).
  pose proof (in_map oid j4 j). pose proof (in_map oid j5 j). naive_solver.
Qed.
End settle.

Section round.
Context {W : Type} `{JobTable W}.
Variable C : worker_config.
Variable E : environment.

(** A pass over a claimed batch, seen from the table before the claim. *)
Lemma process_batch_spec tgt ex (s : fanout_state W) : quiet (outbox s) ->
  exists s' new, process_batch C E tgt ex s = (s', Ok tt) /\ quiet (outbox s') /\ sent s' = sent s ++ new /\
    (forall r, In r (view (outbox s')) -> status r = Running -> in_t0 (view (outbox s)) (oid r) Running) /\
    (forall r, In r (view (outbox s')) -> status r = Succeeded ->
       in_t0 (view (outbox s)) (oid r) Succeeded \/ delivered C new (oid r) (target r)).
Proof.
  intros Hq. destruct (claim_law (clock E (ticks s)) (FANOUT_BATCH_SIZE C) tgt ex (outbox s) Hq)
    as (w' & l & Ec & Hq' & Hrun & Hrows).
  unfold process_batch, st_bind, read_env, in_outbox. cbn [outbox tick]. rewrite Ec. cbn [st_modify].
  set (s1 := set_health _ _).
  assert (forall D new s', Inv C (view w') (sent s) D s' -> sent s' = sent s ++ new ->
    (forall k, In k (map oid l) -> D k) ->
    (forall r, In r (view (outbox s')) -> status r = Running -> in_t0 (view (outbox s)) (oid r) Running) /\
    (forall r, In r (view (outbox s')) -> status r = Succeeded ->
       in_t0 (view (outbox s)) (oid r) Succeeded \/ delivered C new (oid r) (target r))) as Hfin.
  { intros D new s' (_ & new' & Hn & _ & Hr) Hs HD. rewrite Hs in Hn. apply app_inv_head in Hn as <-. split.
    - intros r Hin Hst. destruct (Hr r Hin) as [H1 _]. destruct (H1 Hst) as [HnD (r0 & Hr0 & Eo & Es)].
      destruct (Hrows r0 Hr0) as [Hold|Hnew]; [by exists r0|]. destruct HnD. apply HD. by rewrite <- Eo.
    - intros r Hin Hst. destruct (Hr r Hin) as [_ H2]. destruct (H2 Hst) as [(r0 & Hr0 & Eo & Es)|]; [|auto].
      left. destruct (Hrows r0 Hr0) as [Hold|(j & Ej & Hj)%in_map_iff]; [by exists r0|].
      destruct (Hrun j Hj) as (r1 & Hr1 & Eo1 & _ & Hst1).
      assert (r0 = r1) as <-; [|congruence]. eapply In_NoDup_inj; [by apply view_keys|done..|congruence]. }
  assert (Inv C (view w') (sent s) (fun _ => False) s1) as Hi.
  { split; [done|]. exists []. split; [by rewrite app_nil_r|]. split; [done|]. intros r Hr.
    split; [intros Hst; split; [tauto|by exists r]|]. intros Hst. left. by exists r. }
  destruct l as [|j0 l0] eqn:El.
  - exists s1, []. split; [done|]. split; [done|]. split; [by rewrite app_nil_r|].
    apply (Hfin (fun _ => False)); [done|by rewrite app_nil_r|done].
  - rewrite <- El in *. pose proof (deliver_jobs_triple C E (view w') (sent s) l) as Hd.
    unshelve epose proof (Hd _ s1 Hi) as Hd'.
    { intros j Hj. destruct (Hrun j Hj) as (r & Hr & Eo & Et & _). unfold known. rewrite <- Eo, <- Et.
      by apply (in_map (fun r => (oid r, target r))). }
    cbn beta in Hd'. destruct (deliver_jobs C E l s1) as [s' [[]|e]]; [|done]. pose proof Hd' as (Hq2 & new & Hn & _).
    exists s', new. split; [done|]. split; [done|]. split; [done|]. eapply Hfin; [exact Hd'|done|done].
Qed.
End round.

(** ** The circuit breaker *)


Section breaker.
Context {W : Type} `{JobQueue W}.
Variable C : worker_config.
Variable E : environment.
Variable L0 : list delivery.

(** Letta is disabled and no request went to it since [L0]. *)
Definition letta_off (s : fanout_state W) : Prop :=
  letta_runtime_enabled (letta s) = false /\
  exists new, sent s = L0 ++ new /\ List.Forall (fun d => sent_target d <> FANOUT_TARGET_LETTA) new.

Lemma off_modify f : (forall s, letta_off s -> letta_off (f s)) -> always letta_off (st_modify f).
Proof. intros Hf. by apply hoare_modify. Qed.

Lemma off_outbox {A} (m : ST W A) : always letta_off (in_outbox m).
Proof. intros s Hs. unfold in_outbox. by destruct (m (outbox s)) as [w [a|e]]. Qed.

Lemma off_read {A} (f : nat -> A) : always letta_off (read_env f).
Proof. by apply hoare_read_env. Qed.

Lemma off_push tgt jobs rws : tgt <> FANOUT_TARGET_LETTA -> always letta_off (push E tgt jobs rws).
Proof.
  intros Ht s [Hl (new & Hn & Hf)]. cbn.
  assert (letta_off (add_sent (mkDelivery tgt (map oid jobs) rws (answer E (ticks s))) (tick s))) as Hoff.
  { split; [done|]. eexists. cbn. rewrite Hn, <- app_assoc. split; [done|].
    apply List.Forall_app. split; [done|]. by constructor. }
  by destruct (answer E (ticks s)).
Qed.

(** A send that may be skipped by the settings. *)
Lemma off_skip (b : bool) m : always letta_off m -> always letta_off (if b then st_ret tt else m).
Proof. intros Hm. destruct b; [by apply hoare_ret|done]. Qed.

Lemma disable_off r l : letta_runtime_enabled l = false -> letta_runtime_enabled (_set_letta_runtime_disabled r l) = false.
Proof. unfold _set_letta_runtime_disabled. intros Hl. by rewrite Hl. Qed.

Lemma error_branch_enabled err tgt l : letta_runtime_enabled (fst (error_branch C err tgt l)) = letta_runtime_enabled l.
Proof.
  unfold error_branch, _record_letta_transient_failure, _reset_letta_transient_error_streak.
  repeat (dmatch; simplify_eq; try done).
Qed.

Lemma off_handle j e : always letta_off (_handle_fanout_job_error C E j e).
Proof.
  apply always_bind; [by apply off_modify|]. intros u. intros s Hs. unfold st_bind at 1, st_get.
  pose proof (error_branch_enabled (error_text_of e) (target j) (letta s)) as He.
  destruct (error_branch C (error_text_of e) (target j) (letta s)) as [l a]. cbn in He.
  assert (letta_off (set_letta l s)) as Hs'. { split; [by cbn; rewrite He; apply Hs|apply Hs]. }
  unfold st_bind at 1, st_modify at 1. cbn match.
  refine ((_ : always letta_off _) (set_letta l s) Hs'). clear s Hs He Hs'.
  apply always_bind; [apply off_read|]. intros now.
  destruct a as [reason reset| | |].
  - apply always_bind; [apply off_modify; intros s [H1 H2]; split; [by apply disable_off|done]|]. intros u1.
    apply always_bind; [apply off_outbox|]. intros n. apply off_modify. intros s Hs. by destruct reset.
  - apply always_bind; [apply off_outbox|]. intros u1. by apply off_modify.
  - apply off_outbox.
  - apply always_bind; [apply off_read|]. intros jit. apply always_bind; [apply off_outbox|]. intros st. by apply hoare_ret.
Qed.

Lemma off_mark j tgt : always letta_off (_mark_fanout_job_success E j tgt).
Proof.
  apply always_bind; [apply off_modify; intros s Hs; by destruct (tgt =s _)|]. intros u.
  apply always_bind; [apply off_read|]. intros now. apply always_bind; [apply off_outbox|]. intros u'.
  by apply off_modify.
Qed.

Lemma off_backpressure tgt : always letta_off (_apply_fanout_backpressure C E tgt).
Proof.
  intros s Hs. unfold _apply_fanout_backpressure. destruct (Qle_bool _ 0); [done|]. cbn. by destruct (_ <=? _).
Qed.

Lemma off_for {A} (body : A -> ST (fanout_state W) unit) l : (forall x, always letta_off (body x)) ->
  always letta_off (st_for l body).
Proof. intros Hb. apply hoare_for_inv. intros x _. apply Hb. Qed.

Lemma off_deliver tgt row send batch : (forall j, always letta_off (row j)) ->
  (forall b rws, always letta_off (send b rws)) -> always letta_off (deliver_batch C E tgt row send batch).
Proof.
  intros Hr Hs. eapply hoare_try; [|intros e; apply off_for; intros j; apply off_handle].
  apply always_bind; [apply off_backpressure|]. intros u. eapply hoare_bind; [apply hoare_map; intros j _; apply Hr|]. intros rws.
  apply always_bind; [apply Hs|]. intros u'. apply off_for. intros j. apply off_mark.
Qed.

Lemma off_lift {A} (r : result A) : always letta_off (st_lift r).
Proof. by intros s Hs; destruct r. Qed.

Lemma off_letta_batch batch : always letta_off (letta_batch C E batch).
Proof.
  intros s Hs. unfold letta_batch, _letta_target_enabled. rewrite (proj1 Hs), andb_false_r. cbn [negb].
  set (reason := str_or _ _). refine ((_ : always letta_off _) s Hs).
  apply always_bind; [apply off_read|]. intros now. apply always_bind; [apply off_outbox|]. intros n. by apply hoare_ret.
Qed.

Lemma off_jobs jobs : always letta_off (deliver_jobs C E jobs).
Proof.
  unfold deliver_jobs. repeat match goal with |- context [pop ?t ?g] => destruct (pop t g) end.
  assert (forall tgt row send js size, (forall j, always letta_off (row j)) ->
    (forall b rws, always letta_off (send b rws)) ->
    always letta_off (st_for (_chunk_rows js size) (deliver_batch C E tgt row send))) as Hd
    by (intros; apply off_for; intros; by apply off_deliver).
  apply always_bind; [apply Hd; intros; [apply off_lift|by apply off_push]|]. intros u1.
  apply always_bind; [apply Hd; intros;
    [apply always_bind; [apply off_read|]; intros; apply off_lift|by apply off_skip, off_push]|]. intros u2.
  apply always_bind; [apply Hd; intros;
    [apply off_lift|eapply hoare_try; [by apply off_push|by intros e s Hs]]|]. intros u3.
  apply always_bind; [apply Hd; intros; [apply off_lift|by apply off_skip, off_push]|]. intros u4.
  apply always_bind; [apply off_for; intros; apply off_letta_batch|]. intros u5.
  apply off_for. intros [t js]. apply off_for. intros j. apply off_handle.
Qed.

Lemma off_worker tgt ex : always letta_off (_memory_write_worker C E tgt ex).
Proof.
  intros s Hs. unfold _memory_write_worker.
  assert (forall b : bool, always letta_off (st_finally (st_try (process_batch C E tgt ex) (worker_error))
    (fun s => if b then task_done s else s))) as Hw.
  { intros b. assert (always letta_off (st_try (process_batch C E tgt ex) worker_error)) as Ht.
    - eapply hoare_try.
      + apply always_bind; [apply off_read|]. intros now. apply always_bind; [apply off_outbox|]. intros jobs.
        apply always_bind; [apply off_read|]. intros at_. apply always_bind; [by apply off_modify|]. intros u.
        destruct jobs; [by apply hoare_ret|apply off_jobs].
      + intros e. apply always_bind; [by apply off_modify|]. intros u.
        apply always_bind; [apply off_outbox|]. intros ok. by apply hoare_ret.
    - intros s1 Hs1. unfold st_finally. specialize (Ht s1 Hs1).
      destruct (st_try _ _ s1) as [s2 [v|e]]; destruct b; try done; unfold task_done; by destruct (_ <=? 0). }
  unfold take_signal. destruct (memory_write_queue (queue s)); [by apply (Hw false)|by apply (Hw true)].
Qed.
End breaker.

(** A failure that counts for the breaker but does not trip it at once. *)
Definition transient (e : exn) : bool :=
  negb (_is_letta_permanent_error (error_text_of e)) && _is_letta_transient_server_error (error_text_of e).

Section trip.
Context {W : Type} `{JobQueue W}.
Variable C : worker_config.
Variable E : environment.
Hypothesis breaks : LETTA_DISABLE_ON_TRANSIENT_ERRORS C = true.

Lemma in_outbox_letta {A} (m : ST W A) s : letta (fst (in_outbox m s)) = letta s.
Proof. unfold in_outbox. by destruct (m (outbox s)). Qed.

Lemma error_branch_transient err l :
  _is_letta_permanent_error err = false -> _is_letta_transient_server_error err = true ->
  let streak := letta_transient_error_streak l + 1 in
  exists reason, error_branch C err FANOUT_TARGET_LETTA l =
    (mkLetta (letta_runtime_enabled l) (letta_runtime_disabled_reason l) streak,
     if Z.max 1 (LETTA_TRANSIENT_ERROR_THRESHOLD C) <=? streak then DisableLetta reason false else RetryJob).
Proof.
  intros Hp Ht. cbn zeta. unfold error_branch, _record_letta_transient_failure.
  change (FANOUT_TARGET_LETTA =s FANOUT_TARGET_LETTA) with true.
  change (FANOUT_TARGET_LETTA =s FANOUT_TARGET_MINDSDB) with false.
  rewrite Hp, Ht, breaks. cbn [negb andb]. eexists. by destruct (_ <=? _).
Qed.

(** One counted failure, whatever the outbox answers. *)
Lemma handle_transient_letta j e (s : fanout_state W) : target j = FANOUT_TARGET_LETTA -> transient e = true ->
  let streak := letta_transient_error_streak (letta s) + 1 in
  let l := mkLetta (letta_runtime_enabled (letta s)) (letta_runtime_disabled_reason (letta s)) streak in
  exists reason, letta (fst (_handle_fanout_job_error C E j e s)) =
    if Z.max 1 (LETTA_TRANSIENT_ERROR_THRESHOLD C) <=? streak then _set_letta_runtime_disabled reason l else l.
Proof.
  intros Ht Htr. unfold transient in Htr. apply andb_true_iff in Htr as [Hp%negb_true_iff Htr].
  destruct (error_branch_transient _ (letta s) Hp Htr) as [reason Eb]. cbn zeta. exists reason.
  unfold _handle_fanout_job_error. unfold st_bind at 1 2, st_modify at 1, st_get.
  change (letta (set_lastError (error_text_of e) s)) with (letta s). rewrite Ht, Eb.
  unfold st_bind at 1, st_modify at 1. unfold st_bind at 1, read_env at 1.
  destruct (_ <=? _).
  - unfold st_bind, st_modify at 1.
    match goal with |- context [in_outbox ?m ?s] =>
      pose proof (in_outbox_letta m s) as Hl; destruct (in_outbox m s) as [s3 [n|e3]] end; exact Hl.
  - unfold st_bind, read_env.
    match goal with |- context [in_outbox ?m ?s] =>
      pose proof (in_outbox_letta m s) as Hl; destruct (in_outbox m s) as [s3 [n|e3]] end; exact Hl.
Qed.

Lemma handle_transient j e (s : fanout_state W) : target j = FANOUT_TARGET_LETTA -> transient e = true ->
  let l := letta s in let l' := letta (fst (_handle_fanout_job_error C E j e s)) in
  letta_runtime_enabled l' = letta_runtime_enabled l &&
    (letta_transient_error_streak l + 1 <? Z.max 1 (LETTA_TRANSIENT_ERROR_THRESHOLD C)) /\
  (letta_runtime_enabled l' = true -> letta_transient_error_streak l' = letta_transient_error_streak l + 1).
Proof.
  intros Ht Htr. destruct (handle_transient_letta j e s Ht Htr) as [reason ->]. cbn zeta. rewrite Z.ltb_antisym.
  unfold _set_letta_runtime_disabled. cbn. destruct (_ <=? _); cbn; [|by rewrite andb_true_r].
  rewrite andb_false_r. destruct (letta_runtime_enabled (letta s)) eqn:El; cbn; by split.
Qed.

(** A run of counted failures. *)
Lemma handle_transients l (s : fanout_state W) :
  (forall j e, In (j, e) l -> target j = FANOUT_TARGET_LETTA /\ transient e = true) ->
  letta_runtime_enabled (letta s) = true ->
  letta_runtime_enabled (letta (fold_left (fun s '(j, e) => fst (_handle_fanout_job_error C E j e s)) l s)) =
    ((match l with [] => true | _ => false end) ||
     (letta_transient_error_streak (letta s) + Z.of_nat (length l) <? Z.max 1 (LETTA_TRANSIENT_ERROR_THRESHOLD C))).
Proof.
  assert (forall l (s : fanout_state W), letta_runtime_enabled (letta s) = false ->
    letta_runtime_enabled (letta (fold_left (fun s '(j, e) => fst (_handle_fanout_job_error C E j e s)) l s)) = false) as Hoff.
  { clear l s. induction l as [|[j e] l IH]; intros s Hs; cbn [fold_left]; [done|]. apply IH.
    pose proof (off_handle C E (sent s) j e s) as Ho.
    assert (letta_off (sent s) s) as Hl by (split; [done|]; exists []; by rewrite app_nil_r).
    specialize (Ho Hl). destruct (_handle_fanout_job_error C E j e s) as [s' [v|e']]; apply Ho. }
  revert s. induction l as [|[j e] l IH]; intros s Hl Hen; cbn [fold_left]; [done|].
  destruct (Hl j e) as [Ht Htr]; [by left|]. destruct (handle_transient j e s Ht Htr) as [H1 H2].
  rewrite Hen in H1. cbn [andb orb] in *. destruct (_ <? _) eqn:Elt in H1.
  - rewrite IH; [|intros ? ? ?; apply Hl; by right|done]. rewrite (H2 H1). destruct l as [|x l].
    + cbn [orb length]. change (Z.of_nat 1) with 1. by rewrite Elt.
    + cbn [orb]. f_equal. cbn [length]. lia.
  - rewrite Hoff by done. symmetry. apply Z.ltb_ge. blift. cbn [length]. lia.
Qed.
End trip.

(** ** Backpressure *)

Section pressure.
Local Open Scope Q_scope.

Lemma watermark_bounds v : (5 # 100) <= _normalize_watermark v <= (99 # 100).
Proof.
  destruct v as [q|]; cbn; [|split; discriminate]. split; [|apply Q.le_min_l].
  apply Q.min_glb; [discriminate|apply Q.le_max_l].
Qed.

(** The fraction of the maximal sleep above the watermark. *)
Definition pressure (C : worker_config) (n : nat) : Q :=
  let high := _normalize_watermark (FANOUT_BACKPRESSURE_QUEUE_HIGH_WATERMARK C) in
  Qmin 1 ((inject_Z (Z.of_nat n) / inject_Z (Z.max 1 (MEMORY_WRITE_QUEUE_MAX C)) - high)
          / Qmax (1 # 1000000) (1 - high)).

Lemma span_pos C : 0 < Qmax (1 # 1000000) (1 - _normalize_watermark (FANOUT_BACKPRESSURE_QUEUE_HIGH_WATERMARK C)).
Proof. eapply Qlt_le_trans; [|apply Q.le_max_l]. reflexivity. Qed.

Lemma queue_max_pos C : 0 < inject_Z (Z.max 1 (MEMORY_WRITE_QUEUE_MAX C)).
Proof. change 0 with (inject_Z 0). rewrite <- Zlt_Qlt. lia. Qed.

Lemma pressure_mono C n m : (n <= m)%nat -> pressure C n <= pressure C m.
Proof.
  intros Hnm. unfold pressure. cbn zeta. apply Q.min_le_compat_l. apply Qmult_le_compat_r.
  - apply Qplus_le_compat; [|apply Qle_refl]. apply Qmult_le_compat_r.
    + rewrite <- Zle_Qle. lia.
    + apply Qinv_le_0_compat, Qlt_le_weak, queue_max_pos.
  - apply Qinv_le_0_compat, Qlt_le_weak, span_pos.
Qed.

Lemma pressure_le_1 C n : pressure C n <= 1.
Proof. apply Q.le_min_l. Qed.

Lemma pressure_pos C n :
  Qle_bool (inject_Z (Z.of_nat n) / inject_Z (Z.max 1 (MEMORY_WRITE_QUEUE_MAX C)))
    (_normalize_watermark (FANOUT_BACKPRESSURE_QUEUE_HIGH_WATERMARK C)) = false -> 0 <= pressure C n.
Proof.
  intros Hle. unfold pressure. cbn zeta. apply Q.min_glb; [discriminate|].
  apply Qle_shift_div_l; [apply span_pos|]. rewrite Qmult_0_l.
  apply not_true_iff_false in Hle. rewrite Qle_bool_iff in Hle. apply Qnot_le_lt in Hle. lra.
Qed.

Lemma pressure_full C n : (Z.max 1 (MEMORY_WRITE_QUEUE_MAX C) <= Z.of_nat n)%Z -> pressure C n == 1.
Proof.
  intros Hn. apply Qle_antisym; [apply pressure_le_1|]. unfold pressure. cbn zeta.
  apply Q.min_glb; [apply Qle_refl|]. apply Qle_shift_div_l; [apply span_pos|]. rewrite Qmult_1_l.
  pose proof (watermark_bounds (FANOUT_BACKPRESSURE_QUEUE_HIGH_WATERMARK C)) as [H1 H2].
  assert (1 <= inject_Z (Z.of_nat n) / inject_Z (Z.max 1 (MEMORY_WRITE_QUEUE_MAX C))) as Hr.
  { apply Qle_shift_div_l; [apply queue_max_pos|]. rewrite Qmult_1_l, <- Zle_Qle. done. }
  apply Q.max_lub; lra.
Qed.

Lemma backpressure_seconds_spec C n t :
  _fanout_backpressure_seconds C n t =
    if negb (FANOUT_BACKPRESSURE_ENABLED C) then 0
    else if negb (mem_str t (FANOUT_BACKPRESSURE_TARGETS C)) then 0
    else if Qle_bool (inject_Z (Z.of_nat n) / inject_Z (Z.max 1 (MEMORY_WRITE_QUEUE_MAX C)))
              (_normalize_watermark (FANOUT_BACKPRESSURE_QUEUE_HIGH_WATERMARK C)) then 0
    else pressure C n * Qmax 0 (FANOUT_BACKPRESSURE_MAX_SLEEP_SECS C).
Proof. done. Qed.
End pressure.

(** ** Properties *)

(** C1: one round of a worker settles every job it claims, whatever the remote
    services answer.  When the outbox is reachable and its own calls do not fail
    ([ready]: initialised, no pending driver fault), the round returns, a row
    is running afterwards only if it was running before, and a row is newly
    succeeded only if its sink is switched off by the settings (MindsDB or its
    autosync disabled, Langfuse without an API key: such a job succeeds without
    a request), or a request of this round carried it to its target and was
    accepted or answered by a permanent MindsDB error that the settings
    accept. *)
Theorem worker_settles_batch cfg uuid4 C E tgt ex (s : fanout_state outbox_store) :
  store_reachable cfg uuid4 (outbox s) -> ready cfg (outbox s) = true ->
  exists s' new,
    _memory_write_worker (H := store_queue cfg uuid4) C E tgt ex s = (s', Ok tt) /\
    ready cfg (outbox s') = true /\ sent s' = sent s ++ new /\
    (forall r, In r (store_view (outbox s')) -> status r = Running -> in_t0 (store_view (outbox s)) (oid r) Running) /\
    (forall r, In r (store_view (outbox s')) -> status r = Succeeded ->
       in_t0 (store_view (outbox s)) (oid r) Succeeded \/ sink_off C (target r) \/ carried C new (oid r) (target r)).
Proof.
  intros Hr Hrdy. unfold _memory_write_worker. destruct (take_signal s) as [s1 got] eqn:Et.
  assert (outbox s1 = outbox s /\ sent s1 = sent s) as [Eo Es].
  { unfold take_signal in Et. by destruct (memory_write_queue (queue s)); injection Et as <- _. }
  pose proof (process_batch_spec (H := store_queue cfg uuid4) (H0 := store_table cfg uuid4) C E tgt ex s1) as Hp.
  destruct Hp as (s2 & new & Ep & [_ Hq] & Hn & H1 & H2).
  { rewrite Eo. split; [by eapply store_reachable_ok|done]. }
  unfold st_finally, st_try. rewrite Ep. exists (if got then task_done s2 else s2), new.
  assert (outbox (if got then task_done s2 else s2) = outbox s2 /\
          sent (if got then task_done s2 else s2) = sent s2) as [-> ->].
  { destruct got; [|done]. unfold task_done. by destruct (_ <=? 0). }
  rewrite <- Es. rewrite Eo in H1, H2. by repeat split.
Qed.

(** A disabled Letta target stays disabled and is left alone, even when
    every outbox call may fail: a worker round sends it nothing and does not
    enable it, and new writes are not queued for it. *)
Theorem letta_stays_disabled {W} `{JobQueue W} C E tgt ex (s : fanout_state W) item :
  letta_runtime_enabled (letta s) = false ->
  let s' := fst (_memory_write_worker C E tgt ex s) in
  letta_runtime_enabled (letta s') = false /\
  (exists new, sent s' = sent s ++ new /\ List.Forall (fun d => sent_target d <> FANOUT_TARGET_LETTA) new) /\
  ~ In FANOUT_TARGET_LETTA (fanout_targets C item (letta s')).
Proof.
  intros Hl. cbn zeta. pose proof (off_worker C E (sent s) tgt ex s) as Hw.
  assert (letta_off (sent s) (fst (_memory_write_worker C E tgt ex s))) as [H1 H2].
  { specialize (Hw ltac:(split; [done|]; exists []; by rewrite app_nil_r)).
    by destruct (_memory_write_worker C E tgt ex s) as [s' [v|e]]. }
  split; [done|]. split; [done|]. unfold fanout_targets, _letta_target_enabled. rewrite H1, andb_false_r, andb_false_r.
  rewrite !in_app_iff. destruct (negb _), (truthy _); cbn; intuition discriminate.
Qed.

(** The circuit breaker opens at its threshold: from a healthy state, a run
    of consecutive server errors leaves Letta enabled exactly while it is
    shorter than the configured threshold, whatever the outbox answers. *)
Theorem breaker_opens_at_threshold {W} `{JobQueue W} C E (s : fanout_state W) (failures : list (job * exn)) :
  LETTA_DISABLE_ON_TRANSIENT_ERRORS C = true ->
  letta_runtime_enabled (letta s) = true -> letta_transient_error_streak (letta s) = 0 ->
  (forall j e, In (j, e) failures -> target j = FANOUT_TARGET_LETTA /\ transient e = true) ->
  letta_runtime_enabled (letta (fold_left (fun s '(j, e) => fst (_handle_fanout_job_error C E j e s)) failures s)) =
    (Z.of_nat (length failures) <? Z.max 1 (LETTA_TRANSIENT_ERROR_THRESHOLD C)).
Proof.
  intros Hb Hen Hst Hf. rewrite handle_transients, Hst by done. cbn [Z.add].
  destruct failures; [|done]. cbn [orb length]. symmetry. apply Z.ltb_lt. lia.
Qed.

(** The delay of backpressure lies between zero and the configured maximum,
    grows with the queue, is zero for targets that are not throttled and
    reaches the maximum when the queue is full. *)
Theorem backpressure_bounds C n t :
  let delay n := _fanout_backpressure_seconds C n t in let most := Qmax 0 (FANOUT_BACKPRESSURE_MAX_SLEEP_SECS C) in
  (0 <= delay n /\ delay n <= most)%Q /\ (forall m, (n <= m)%nat -> (delay n <= delay m)%Q) /\
  (FANOUT_BACKPRESSURE_ENABLED C && mem_str t (FANOUT_BACKPRESSURE_TARGETS C) = false -> delay n = 0%Q) /\
  (FANOUT_BACKPRESSURE_ENABLED C && mem_str t (FANOUT_BACKPRESSURE_TARGETS C) = true ->
   Z.max 1 (MEMORY_WRITE_QUEUE_MAX C) <= Z.of_nat n -> (delay n == most)%Q).
Proof.
  cbn zeta. set (most := Qmax 0 _). assert (0 <= most)%Q as Hm by apply Q.le_max_l.
  assert (forall k, (0 <= _fanout_backpressure_seconds C k t)%Q) as H0.
  { intros k. rewrite backpressure_seconds_spec. repeat (dmatch; [apply Qle_refl|]).
    apply Qmult_le_0_compat; [by apply pressure_pos|done]. }
  split; [split; [done|]|split; [|split]].
  - rewrite backpressure_seconds_spec. repeat (dmatch; [done|]). fold most.
    rewrite <- (Qmult_1_l most) at 2. apply Qmult_le_compat_r; [apply pressure_le_1|done].
  - intros m Hnm. specialize (H0 m). revert H0. rewrite !backpressure_seconds_spec. fold most.
    destruct (negb _); [done|]. destruct (negb _); [done|]. destruct (Qle_bool (inject_Z (Z.of_nat n) / _) _) eqn:E1; [done|].
    destruct (Qle_bool (inject_Z (Z.of_nat m) / _) _) eqn:E2.
    + exfalso. apply not_true_iff_false in E1. apply E1. rewrite Qle_bool_iff in *.
      eapply Qle_trans; [|exact E2]. apply Qmult_le_compat_r; [rewrite <- Zle_Qle; lia|].
      apply Qinv_le_0_compat, Qlt_le_weak, queue_max_pos.
    + intros _. apply Qmult_le_compat_r; [by apply pressure_mono|done].
  - rewrite backpressure_seconds_spec. by destruct (FANOUT_BACKPRESSURE_ENABLED C), (mem_str t _).
  - intros [He Ht]%andb_true_iff Hn. rewrite backpressure_seconds_spec, He, Ht. cbn [negb]. fold most.
    assert (1 <= inject_Z (Z.of_nat n) / inject_Z (Z.max 1 (MEMORY_WRITE_QUEUE_MAX C)))%Q as Hr.
    { apply Qle_shift_div_l; [apply queue_max_pos|]. by rewrite Qmult_1_l, <- Zle_Qle. }
    pose proof (watermark_bounds (FANOUT_BACKPRESSURE_QUEUE_HIGH_WATERMARK C)) as [_ Hw].
    destruct (Qle_bool _ _) eqn:E1; [rewrite Qle_bool_iff in E1; exfalso; lra|].
    rewrite pressure_full by done. apply Qmult_1_l.
Qed.

(** Letta admission drops exactly the excluded records and, from the soft
    limit on, the records of low value; the reason names the rule, and the
    backlog is read from the cached summary. *)
Theorem admission_rule C P ttl now file_name topic_path summary source_kind c :
  let '(c', (admitted, reason, backlog)) :=
    _letta_admission_should_enqueue C P ttl now file_name topic_path summary source_kind c in
  cached c' = cached c /\ (admitted = true <-> reason = None) /\
  (LETTA_ADMISSION_ENABLED C = true ->
     backlog = _fanout_target_outstanding_count (cached c) FANOUT_TARGET_LETTA) /\
  (admitted = false <->
     LETTA_ADMISSION_ENABLED C = true /\
     (_is_letta_excluded_memory_record P file_name topic_path <> None \/
      (_is_low_value_memory_record P file_name topic_path summary source_kind true = true /\
       Z.max 1 (LETTA_ADMISSION_BACKLOG_SOFT_LIMIT C) <= backlog))).
Proof.
  unfold _letta_admission_should_enqueue. destruct (LETTA_ADMISSION_ENABLED C); cbn [negb];
    [|repeat split; naive_solver].
  set (b := _fanout_target_outstanding_count (cached c) FANOUT_TARGET_LETTA).
  set (c' := if negb _ then _ else _). assert (cached c' = cached c) as Hc by (unfold c'; by destruct (negb _)).
  destruct (_is_letta_excluded_memory_record P file_name topic_path) as [why|]; [repeat split; naive_solver|].
  set (low := _is_low_value_memory_record _ _ _ _ _ _).
  destruct low; [rewrite !andb_true_r|rewrite !andb_false_r; repeat split; naive_solver].
  destruct (Z.max _ (LETTA_ADMISSION_BACKLOG_HARD_LIMIT C) <=? b) eqn:E1; [|destruct (Z.max 1 (LETTA_ADMISSION_BACKLOG_SOFT_LIMIT C) <=? b) eqn:E2];
    blift; (split; [done|]); (split; [done|]); (split; [done|]); split; try done.
  - intros _. split; [done|]. right. split; [done|]. lia.
  - intros _. split; [done|]. right. split; [done|]. lia.
  - intros (_ & [?|[_ ?]]); [done|]. lia.
Qed.

(** A write that is handed to the fanout is durable: when the enqueue
    returns, after any SQLite failures, lost commits and failed connections,
    one store serves every target the write is meant for (the raw store unless
    it has it, Qdrant, MindsDB, Letta if admitted and enabled, Langfuse if
    configured). *)
Theorem write_fanout_is_durable cfg uuid4 C E item (s s' : fanout_state outbox_store) :
  (forall i j, uuid4 i = uuid4 j -> i = j) ->
  store_reachable cfg uuid4 (outbox s) -> mongo_faults (outbox s) = [] -> jtruthy (dget item "event_id") = true ->
  _enqueue_memory_write_fanout (H := store_queue cfg uuid4) C E item s = (s', Ok tt) ->
  exists now p f, dlookup "project" item = Some p /\ dlookup "file" item = Some f /\
    let ev := event_of_payload "" (fanout_payload (dget item "event_id") p f item) in
    let targets := fanout_targets C item (letta s) in
    (forall t, In t targets -> served now ev false (docs (outbox s)) t (docs (outbox s'))) \/
    (forall t, In t targets ->
       served now ev false (rows (tables (db (outbox s)))) t (rows (tables (db (outbox s'))))).
Proof.
  intros Hinj Hr Hf Hid Ew. unfold _enqueue_memory_write_fanout, st_bind, st_get in Ew. rewrite Hid in Ew.
  cbn [st_ret] in Ew. unfold st_lift, getitem in Ew.
  destruct (dlookup "project" item) as [p|] eqn:Ep; [|done]. destruct (dlookup "file" item) as [f|] eqn:Ef; [|done].
  cbn [read_env] in Ew. exists (clock E (ticks s)), p, f. split; [done|]. split; [done|]. cbn zeta.
  set (payload := fanout_payload _ p f item) in *. unfold in_outbox in Ew. cbn [outbox tick q_enqueue store_queue] in Ew.
  pose proof (enqueue_answers cfg uuid4 Hinj (clock E (ticks s)) payload false Hid (fanout_targets C item (letta s))
    (outbox s) (store_reachable_ok cfg uuid4 _ Hr) Hf) as Ha.
  destruct (enqueue_fanout_outbox cfg uuid4 _ payload _ false (outbox s)) as [w' [c|e]]; [|done].
  injection Ew as <-. replace (outbox (put_signal C (dget item "event_id") (set_outbox w' (tick s)))) with w'
    by (unfold put_signal; by destruct (queue_full _ _)).
  rewrite filter_all in Ha; [exact Ha|]. intros t Ht. apply mem_str_In. unfold fanout_targets in Ht.
  rewrite !in_app_iff in Ht. revert Ht. cbn. destruct (negb _), (_ && _), (truthy _); cbn; tauto.
Qed.

(** ** Witnesses *)

Definition demo_env : environment := mkEnv
  (fun n => demo_now + 5000000 + Z.of_nat n * 1000) (fun n => 60000000 + Z.of_nat n) (fun _ => 0)
  (fun n => if Nat.even n then Some (OrchestratorError "upstream error status=503") else None).

Definition demo_fanout (w : outbox_store) : fanout_state outbox_store :=
  mkFanout w (mkLetta true "" 0) (mkSignals [JStr "evt-1"] 1 0 0) (mkHealth None 0 None) [] [] 0.

Lemma worker_settles_batch_witness : exists s' new,
  _memory_write_worker (H := store_queue default_store_config demo_uuid) default_worker_config demo_env None None
    (demo_fanout demo_mongo) = (s', Ok tt) /\
  sent s' = sent (demo_fanout demo_mongo) ++ new /\
  (forall r, In r (store_view (outbox s')) -> status r = Running ->
     in_t0 (store_view (outbox (demo_fanout demo_mongo))) (oid r) Running).
Proof.
  destruct (worker_settles_batch default_store_config demo_uuid default_worker_config demo_env None None
    (demo_fanout demo_mongo)) as (s' & new & Ew & _ & Hn & H1 & _).
  - apply demo_store_reachable.
  - vm_compute. reflexivity.
  - exists s', new. split; [exact Ew|]. split; [exact Hn|exact H1].
Defined.

Definition demo_off : fanout_state outbox_store := set_letta (mkLetta false "status=404" 0) (demo_fanout demo_mongo).

Lemma letta_stays_disabled_witness :
  ~ In FANOUT_TARGET_LETTA (fanout_targets default_worker_config
      [("letta_session", JStr "x")]
      (letta (fst (_memory_write_worker (H := store_queue default_store_config demo_uuid) default_worker_config demo_env
         None None demo_off)))).
Proof.
  apply (letta_stays_disabled (H := store_queue default_store_config demo_uuid) default_worker_config demo_env None None
    demo_off [("letta_session", JStr "x")]). reflexivity.
Defined.

Definition demo_letta_job : job := with_key TextId (new_row default_fanout_config demo_now demo_event "letta" "u").

Lemma breaker_opens_at_threshold_witness :
  let failed n := fold_left (fun s '(j, e) =>
      fst (_handle_fanout_job_error (H := store_queue default_store_config demo_uuid) default_worker_config demo_env j e s))
    (repeat (demo_letta_job, OrchestratorError "upstream error status=503") n) (demo_fanout demo_mongo) in
  letta_runtime_enabled (letta (failed 59%nat)) = true /\ letta_runtime_enabled (letta (failed 60%nat)) = false.
Proof.
  cbn zeta. split;
    (rewrite (breaker_opens_at_threshold (H := store_queue default_store_config demo_uuid) default_worker_config demo_env);
       [reflexivity|reflexivity|reflexivity|reflexivity|intros j e [= -> ->]%repeat_spec; split; reflexivity]).
Defined.

Lemma backpressure_bounds_witness :
  (_fanout_backpressure_seconds default_worker_config 2000 "letta" == 125 # 100)%Q /\
  (_fanout_backpressure_seconds default_worker_config 1500 "letta" <=
   _fanout_backpressure_seconds default_worker_config 1501 "letta")%Q.
Proof.
  split.
  - apply (backpressure_bounds default_worker_config 2000 "letta"); vm_compute; [reflexivity|discriminate].
  - apply (backpressure_bounds default_worker_config 1500 "letta"). lia.
Defined.

Definition demo_item : dict :=
  [("event_id", JStr "evt-9"); ("project", JStr "p"); ("file", JStr "notes.md"); ("summary", JStr "s");
   ("letta_session", JStr "x")].

Lemma write_fanout_is_durable_witness : exists s', 
  _enqueue_memory_write_fanout (H := store_queue default_store_config demo_uuid) default_worker_config demo_env demo_item
    (demo_fanout (empty_store BSqlite [] [] [])) = (s', Ok tt) /\
  exists now p f, dlookup "project" demo_item = Some p /\ dlookup "file" demo_item = Some f /\
    let ev := event_of_payload "" (fanout_payload (JStr "evt-9") p f demo_item) in
    let targets := fanout_targets default_worker_config demo_item (mkLetta true "" 0) in
    (forall t, In t targets -> served now ev false [] t (docs (outbox s'))) \/
    (forall t, In t targets -> served now ev false [] t (rows (tables (db (outbox s'))))).
Proof.
  eexists. split; [vm_compute; reflexivity|].
  apply (write_fanout_is_durable default_store_config demo_uuid default_worker_config demo_env demo_item
    (demo_fanout (empty_store BSqlite [] [] []))).
  - exact demo_uuid_inj.
  - constructor.
  - reflexivity.
  - reflexivity.
  - vm_compute. reflexivity.
Defined.
