(* ===== verification/MindsDb.v ===== *)
(** * The MindsDB sync

    The SQL texts sent to MindsDB, the tables it writes to and their fallback
    when a table is corrupted, the bulk insert the workers call and the retry
    queue with its worker.  [_mindsdb_execute] is the boundary: it notes the
    statement and answers what the environment says. *)

From S2P Require Import Prelude PyStr PyTime Json JsonText Policy.
From Stdlib Require Import Ascii.
Open Scope Z_scope.

Record mindsdb_config := mkMindsConfig {
  MINDSDB_ENABLED : bool; MINDSDB_AUTOSYNC : bool;
  MINDSDB_AUTOSYNC_DB : string; MINDSDB_AUTOSYNC_TABLE : string; MINDSDB_AUTOSYNC_TABLE_FALLBACK_SUFFIX : string;
  MINDSDB_AUTOSYNC_RETRIES : Z; MINDSDB_AUTOSYNC_QUEUE_MAX : Z; MINDSDB_AUTOSYNC_BATCH_SIZE : Z }.

Definition default_mindsdb_config : mindsdb_config :=
  mkMindsConfig true true "files" "memory_events" "_v2" 5 500 8.

(** A row as [push_batch_to_mindsdb] normalises it. *)
Record mindsdb_item := mkItem { i_project : string; i_file : string; i_summary : string; i_created_at : string }.

(** ** Statements *)

Definition _sql_literal (value : string) : string := "'" +:+ replace_char "'" "''" value +:+ "'".

Section sql.
Variable M : mindsdb_config.

Definition insert_prefix (table_name : string) : string :=
  "INSERT INTO " +:+ MINDSDB_AUTOSYNC_DB M +:+ "." +:+ table_name +:+ " " +:+
  "(project, file, summary, created_at) VALUES ".

(** One parenthesised tuple of the [VALUES]. *)
Definition values_tuple (a b c d : string) : string :=
  "(" +:+ _sql_literal a +:+ ", " +:+ _sql_literal b +:+ ", " +:+ _sql_literal c +:+ ", " +:+ _sql_literal d +:+ ")".

Definition _mindsdb_insert_query (project file_name summary created_at table_name : string) : string :=
  insert_prefix table_name +:+ values_tuple project file_name summary created_at +:+ ";".

Definition _mindsdb_insert_many_query (now : string) (rows : list mindsdb_item) (table_name : string) : string :=
  let values := join ", " (map (fun r => values_tuple (i_project r) (i_file r) (i_summary r)
                                           (str_or (i_created_at r) now)) rows) in
  insert_prefix table_name +:+ values +:+ ";".

(** ** Error texts *)

Definition _looks_like_mindsdb_table_corruption (message : string) : bool :=
  let text := lower message in
  existsb (contains text) ["file is smaller than indicated metadata size"; "can't create table"; "[file/files]"].

Definition _looks_like_mindsdb_table_exists (message : string) : bool :=
  let text := lower message in contains text "already exists" && contains text "table".

Definition _looks_like_mindsdb_database_exists (message : string) : bool :=
  let text := lower message in contains text "already exists" && contains text "database".

(** ** Fallback tables *)

(** [_mindsdb_fallback_table_name(base_table)], a missing argument as [""]. *)
Definition _mindsdb_fallback_table_name (base_table : string) : string :=
  let table_name := str_or base_table (MINDSDB_AUTOSYNC_TABLE M) in
  if endswith table_name (MINDSDB_AUTOSYNC_TABLE_FALLBACK_SUFFIX M) then table_name
  else table_name +:+ MINDSDB_AUTOSYNC_TABLE_FALLBACK_SUFFIX M.

Definition first_fallback : string := _mindsdb_fallback_table_name "".

(** [s[len(p):]] when [s] starts with [p]. *)
Fixpoint after (p s : string) : option string :=
  match p, s with
  | EmptyString, _ => Some s
  | String a p', String b s' => if Ascii.eqb a b then after p' s' else None
  | String _ _, EmptyString => None
  end.

(** [re.match(rf"^{re.escape(first)}_r(\d+)$", table)] *)
Definition revision (table : string) : option Z :=
  match after (first_fallback +:+ "_r") table with
  | Some ds => if truthy ds then int_of_digits 0 ds else None
  | None => None
  end.

(** [seconds] is [int(time.time())]. *)
Definition _mindsdb_next_fallback_table (seconds : Z) (current_table : string) : string :=
  if negb (truthy current_table) || (current_table =s MINDSDB_AUTOSYNC_TABLE M) then first_fallback
  else if current_table =s first_fallback then first_fallback +:+ "_r1"
  else match revision current_table with
       | Some n => first_fallback +:+ "_r" +:+ str_of_Z (n + 1)
       | None => first_fallback +:+ "_r" +:+ str_of_Z seconds
       end.
End sql.

(** ** State *)

Record mindsdb_state := mkMinds {
  mindsdb_table_ready : bool; mindsdb_target_table : string;
  mindsdb_queue : list mindsdb_item; queue_unfinished : Z;
  executed : list (string * option exn); calls : nat }.

Definition set_target (t : string) (s : mindsdb_state) : mindsdb_state :=
  mkMinds true t (mindsdb_queue s) (queue_unfinished s) (executed s) (calls s).
Definition set_items (q : list mindsdb_item) (n : Z) (s : mindsdb_state) : mindsdb_state :=
  mkMinds (mindsdb_table_ready s) (mindsdb_target_table s) q n (executed s) (calls s).

Section sync.
Variable M : mindsdb_config.
(** Answers of MindsDB and readings of the clock, by call. *)
Variable respond : nat -> option exn.
Variable clock : nat -> Z.
Abbreviation ST := (ST mindsdb_state).

Definition _mindsdb_execute (query : string) : ST unit := fun s =>
  let a := respond (calls s) in
  (mkMinds (mindsdb_table_ready s) (mindsdb_target_table s) (mindsdb_queue s) (queue_unfinished s)
     (executed s ++ [(query, a)]) (S (calls s)),
   match a with None => Ok tt | Some e => Raise e end).

Definition utc_now : ST string := fun s => (s, Ok (_utc_now (clock (calls s)))).

Definition _ensure_mindsdb_database_exists (database_name : string) : ST unit :=
  let db_name := strip database_name in
  if negb (truthy db_name) then st_raise (OrchestratorError "MindsDB database name is required")
  else
    st_try (_mindsdb_execute ("CREATE DATABASE IF NOT EXISTS " +:+ db_name +:+ ";"))
      (fun exc =>
         let message := exn_str exc in
         if _looks_like_mindsdb_database_exists message then st_ret tt
         else if contains (lower message) "if not exists" || contains (lower message) "syntax" then
           st_try (_mindsdb_execute ("CREATE DATABASE " +:+ db_name +:+ ";"))
             (fun exc => if _looks_like_mindsdb_database_exists (exn_str exc) then st_ret tt else st_raise exc)
         else st_raise exc).

Definition _ensure_mindsdb_table_exists (table_name : string) : ST unit :=
  _ensure_mindsdb_database_exists (MINDSDB_AUTOSYNC_DB M) ;;;
  st_try (_mindsdb_execute ("CREATE TABLE IF NOT EXISTS " +:+ MINDSDB_AUTOSYNC_DB M +:+ "." +:+ table_name +:+
                            " (project TEXT, file TEXT, summary TEXT, created_at TEXT);"))
    (fun exc => if negb (_looks_like_mindsdb_table_exists (exn_str exc)) then st_raise exc else st_ret tt) ;;;
  _mindsdb_execute ("SELECT COUNT(*) AS c FROM " +:+ MINDSDB_AUTOSYNC_DB M +:+ "." +:+ table_name +:+ ";").

(** [int(time.time())] *)
Definition unix_seconds (s : mindsdb_state) : Z := clock (calls s) / us_per_sec.

(** [for _ in range(12)]: try the candidates in turn. *)
Fixpoint try_candidates (n : nat) (candidate : string) : ST bool :=
  match n with
  | O => st_ret false
  | S n' =>
      st_try (_ensure_mindsdb_table_exists candidate ;;; st_modify (set_target candidate) ;;; st_ret true)
        (fun exc => if _looks_like_mindsdb_table_corruption (exn_str exc)
                    then fun s => try_candidates n' (_mindsdb_next_fallback_table M (unix_seconds s) candidate) s
                    else st_ret false)
  end.

Definition _switch_mindsdb_to_fallback (current_table : string) : ST bool := fun s =>
  let seed_table := str_or current_table (str_or (mindsdb_target_table s) (MINDSDB_AUTOSYNC_TABLE M)) in
  try_candidates 12 (_mindsdb_next_fallback_table M (unix_seconds s) seed_table) s.

Definition ensure_mindsdb_table : ST unit := fun s =>
  if negb (MINDSDB_ENABLED M) || negb (MINDSDB_AUTOSYNC M) then (s, Ok tt)
  else if mindsdb_table_ready s then (s, Ok tt)
  else st_try (_ensure_mindsdb_table_exists (MINDSDB_AUTOSYNC_TABLE M) ;;;
               st_modify (set_target (MINDSDB_AUTOSYNC_TABLE M)))
         (fun exc => if negb (_looks_like_mindsdb_table_corruption (exn_str exc)) then st_ret tt
                     else _switch_mindsdb_to_fallback (MINDSDB_AUTOSYNC_TABLE M) ;;; st_ret tt) s.

(** Insert, and once more into a fallback table when the table is corrupted. *)
Definition insert_with_fallback (query : string -> string) : ST unit :=
  s <- st_get ;;
  let table_name := str_or (mindsdb_target_table s) (MINDSDB_AUTOSYNC_TABLE M) in
  st_try (_mindsdb_execute (query table_name))
    (fun exc =>
       if negb (_looks_like_mindsdb_table_corruption (exn_str exc)) then st_raise exc
       else
         ok <- _switch_mindsdb_to_fallback table_name ;;
         if negb ok then st_raise exc
         else
           s <- st_get ;;
           _mindsdb_execute (query (str_or (mindsdb_target_table s)
                                      (_mindsdb_next_fallback_table M (unix_seconds s) table_name)))).

Definition _insert_into_mindsdb (item : mindsdb_item) : ST unit :=
  ensure_mindsdb_table ;;;
  now <- utc_now ;;
  insert_with_fallback (_mindsdb_insert_query M (i_project item) (i_file item) (i_summary item)
                          (str_or (i_created_at item) now)).

Definition _insert_many_into_mindsdb (items : list mindsdb_item) : ST unit :=
  match items with
  | [] => st_ret tt
  | _ =>
      ensure_mindsdb_table ;;;
      now <- utc_now ;;
      insert_with_fallback (_mindsdb_insert_many_query M now items)
  end.

(** ** Bulk push and retry queue *)

Definition _enqueue_mindsdb (item : mindsdb_item) : ST unit :=
  st_modify (fun s =>
    if (0 <? MINDSDB_AUTOSYNC_QUEUE_MAX M) && (MINDSDB_AUTOSYNC_QUEUE_MAX M <=? Z.of_nat (length (mindsdb_queue s)))
    then s else set_items (mindsdb_queue s ++ [item]) (queue_unfinished s + 1) s).

Definition normalize_item (now : string) (item : dict) : mindsdb_item :=
  mkItem (jstr_or_empty (dget item "project")) (jstr_or_empty (dget item "file"))
    (jstr_or_empty (dget item "summary")) (jstr (jor (dget item "created_at") (JStr now))).

Definition push_batch_to_mindsdb (items : list dict) (allow_fallback_queue : bool) : ST unit :=
  if negb (MINDSDB_ENABLED M) || negb (MINDSDB_AUTOSYNC M) then st_ret tt
  else match items with
  | [] => st_ret tt
  | _ =>
      now <- utc_now ;;
      let normalized_items := map (normalize_item now) items in
      st_try (_insert_many_into_mindsdb normalized_items)
        (fun exc => if allow_fallback_queue then st_for normalized_items _enqueue_mindsdb
                    else st_raise (OrchestratorError ("MindsDB autosync error: " +:+ exn_str exc)))
  end.

(** [more] attempts are left after this one; the last failure salvages the rows
    one by one. *)
Fixpoint sync_attempts (more : nat) (batch : list mindsdb_item) : ST unit :=
  st_try (_insert_many_into_mindsdb batch)
    (fun _ => match more with
              | O => st_for batch (fun row => st_try (_insert_into_mindsdb row) (fun _ => st_ret tt))
              | S more' => sync_attempts more' batch
              end).

(** [task_done()] for every row of the batch. *)
Definition tasks_done (n : nat) (s : mindsdb_state) : mindsdb_state :=
  set_items (mindsdb_queue s) (queue_unfinished s - Z.of_nat n) s.

(** One round of [_mindsdb_queue_worker]; it waits while the queue is empty. *)
Definition _mindsdb_queue_worker : ST unit := fun s =>
  match mindsdb_queue s with
  | [] => (s, Ok tt)
  | _ =>
      let n := Z.to_nat (Z.max 1 (MINDSDB_AUTOSYNC_BATCH_SIZE M)) in
      let batch := firstn n (mindsdb_queue s) in
      let s := set_items (skipn n (mindsdb_queue s)) (queue_unfinished s) s in
      st_finally (if negb (MINDSDB_AUTOSYNC M) then st_ret tt
                  else sync_attempts (Z.to_nat (Z.max 1 (MINDSDB_AUTOSYNC_RETRIES M)) - 1) batch)
        (tasks_done (length batch)) s
  end.
End sync.

(** ** The statements are read back as written *)

(** A reader of standard SQL string literals: the text after the opening quote
    up to the closing one, a doubled quote for a quote. *)
Fixpoint literal_rest (s : string) : option (string * string) :=
  match s with
  | EmptyString => None
  | String c s' =>
      if Ascii.eqb c "'" then
        match s' with
        | String c2 s2 =>
            if Ascii.eqb c2 "'"
            then match literal_rest s2 with Some (v, r) => Some (String "'" v, r) | None => None end
            else Some ("", s')
        | EmptyString => Some ("", "")
        end
      else match literal_rest s' with Some (v, r) => Some (String c v, r) | None => None end
  end.

Definition read_literal (s : string) : option (string * string) :=
  match after "'" s with Some s' => literal_rest s' | None => None end.

(** [k] literals separated by [", "]. *)
Fixpoint read_literals (k : nat) (s : string) : option (list string * string) :=
  match k with
  | O => Some ([], s)
  | S k' =>
      match read_literal s with
      | None => None
      | Some (v, r) =>
          match k' with
          | O => Some ([v], r)
          | _ => match after ", " r with
                 | None => None
                 | Some r' => match read_literals k' r' with Some (vs, r'') => Some (v :: vs, r'') | None => None end
                 end
          end
      end
  end.

Definition read_tuple (s : string) : option (list string * string) :=
  match after "(" s with
  | None => None
  | Some s' =>
      match read_literals 4 s' with
      | None => None
      | Some (vs, r) => match after ")" r with Some r' => Some (vs, r') | None => None end
      end
  end.

(** The tuples up to the final semicolon. *)
Fixpoint read_tuples (fuel : nat) (s : string) : option (list (list string)) :=
  match fuel with
  | O => None
  | S fuel' =>
      match read_tuple s with
      | None => None
      | Some (vs, r) =>
          match after ", " r with
          | Some r' => match read_tuples fuel' r' with Some l => Some (vs :: l) | None => None end
          | None => if r =s ";" then Some [vs] else None
          end
      end
  end.

Definition read_insert (M : mindsdb_config) (table_name s : string) : option (list (list string)) :=
  match after (insert_prefix M table_name) s with
  | Some s' => read_tuples (String.length s') s'
  | None => None
  end.

Lemma after_app p s : after p (p +:+ s) = Some s.
Proof. induction p as [|c p IH]; [done|]. rewrite append_cons. cbn. by rewrite Ascii.eqb_refl. Qed.

(** A text that does not continue a literal. *)
Definition ends_literal (s : string) : bool :=
  match s with EmptyString => true | String c _ => negb (Ascii.eqb c "'") end.

Lemma literal_rest_spec v rest : ends_literal rest = true ->
  literal_rest (replace_char "'" "''" v +:+ "'" +:+ rest) = Some (v, rest).
Proof.
  intros Hr. induction v as [|c v IH].
  - change (replace_char "'" "''" "" +:+ "'" +:+ rest) with (String "'" rest). cbn.
    destruct rest as [|c2 r]; [done|]. cbn in Hr. apply negb_true_iff in Hr. by rewrite Hr.
  - cbn [replace_char]. destruct (Ascii.eqb c "'") eqn:Ec.
    + apply Ascii.eqb_eq in Ec as ->. rewrite append_assoc, !append_cons. cbn [literal_rest].
      change (Ascii.eqb "'" "'") with true. cbn match.
      change (String "'" ("" +:+ rest)) with ("'" +:+ rest). change ("" +:+ ?x) with x. by rewrite IH.
    + rewrite append_cons. cbn [literal_rest]. by rewrite Ec, IH.
Qed.

Lemma read_literal_spec v rest : ends_literal rest = true -> read_literal (_sql_literal v +:+ rest) = Some (v, rest).
Proof.
  intros Hr. unfold read_literal, _sql_literal. rewrite !append_assoc, after_app. by apply literal_rest_spec.
Qed.

Lemma read_tuple_spec a b c d rest : read_tuple (values_tuple a b c d +:+ rest) = Some ([a; b; c; d], rest).
Proof.
  unfold read_tuple, values_tuple. rewrite !append_assoc, after_app. cbn [read_literals].
  repeat (rewrite read_literal_spec by done; rewrite ?after_app; cbn match). done.
Qed.

Definition item_values (now : string) (r : mindsdb_item) : list string :=
  [i_project r; i_file r; i_summary r; str_or (i_created_at r) now].

Lemma read_tuples_spec now rows fuel : rows <> [] -> (length rows <= fuel)%nat ->
  read_tuples fuel (join ", " (map (fun r => values_tuple (i_project r) (i_file r) (i_summary r)
                                             (str_or (i_created_at r) now)) rows) +:+ ";")
  = Some (map (item_values now) rows).
Proof.
  revert fuel. induction rows as [|r rows IH]; intros fuel Hne Hf; [done|].
  destruct fuel as [|fuel]; [cbn in Hf; lia|]. cbn [map]. destruct rows as [|r2 rows].
  - cbn [map join]. cbn [read_tuples]. by rewrite read_tuple_spec.
  - rewrite join_cons by done. cbn [read_tuples]. rewrite !append_assoc, read_tuple_spec, after_app.
    rewrite IH; [done|done|cbn in *; lia].
Qed.

Lemma tuples_length f (rows : list mindsdb_item) :
  (forall r, (1 <= String.length (f r))%nat) ->
  (length rows <= String.length (join ", " (map f rows) +:+ ";"))%nat.
Proof.
  intros Hf. rewrite append_length. induction rows as [|r rows IH]; [cbn; lia|].
  cbn [map]. destruct rows as [|r2 rows]; [specialize (Hf r); cbn; lia|].
  rewrite join_cons by done. rewrite !append_length. specialize (Hf r). cbn [length] in *. lia.
Qed.

Lemma read_insert_many M now rows table_name : rows <> [] ->
  read_insert M table_name (_mindsdb_insert_many_query M now rows table_name) = Some (map (item_values now) rows).
Proof.
  intros Hne. unfold read_insert, _mindsdb_insert_many_query. cbn zeta. rewrite after_app.
  apply read_tuples_spec; [done|]. apply tuples_length. intros r. unfold values_tuple. rewrite append_length. cbn. lia.
Qed.

(** ** The fallback tables *)

Lemma endswith_nil s : endswith s "" = true.
Proof. induction s as [|c s IH]; [done|]. cbn. by rewrite IH. Qed.

Section fallback.
Variable M : mindsdb_config.
Abbreviation base := (MINDSDB_AUTOSYNC_TABLE M).
Abbreviation suffix := (MINDSDB_AUTOSYNC_TABLE_FALLBACK_SUFFIX M).

(** The position of a table in the chain base, fallback, revisions. *)
Definition table_rank (t : string) : option Z :=
  if t =s base then Some 0
  else if t =s first_fallback M then Some 1
  else match revision M t with Some n => Some (n + 1) | None => None end.

Hypothesis base_named : truthy base = true.
Hypothesis base_fresh : endswith base suffix = false.

Lemma first_fallback_eq : first_fallback M = base +:+ suffix.
Proof. unfold first_fallback, _mindsdb_fallback_table_name. change (str_or "" ?b) with b. by rewrite base_fresh. Qed.

Lemma suffix_length : (1 <= String.length suffix)%nat.
Proof.
  pose proof base_fresh as Hf. destruct suffix as [|c s]; [by rewrite endswith_nil in Hf|cbn; lia].
Qed.

Lemma longer_neq s t : (String.length s < String.length t)%nat -> (t =s s) = false.
Proof. intros Hl. apply String.eqb_neq. intros ->. lia. Qed.

Lemma revision_table n : 0 <= n ->
  table_rank (first_fallback M +:+ "_r" +:+ str_of_Z n) = Some (n + 1) /\
  revision M (first_fallback M +:+ "_r" +:+ str_of_Z n) = Some n.
Proof.
  intros Hn. assert (revision M (first_fallback M +:+ "_r" +:+ str_of_Z n) = Some n) as Hr.
  { unfold revision. rewrite <- append_assoc, after_app. unfold str_of_Z.
    replace (n <? 0) with false by (symmetry; apply Z.ltb_ge; lia). rewrite Z.abs_eq by done. fold (abs_text n).
    destruct (abs_text_spec n Hn) as [Ht Hv].
    assert (truthy (abs_text n) = true) as ->; [|done].
    destruct Ht as [->|(_ & c & s & -> & _)]; done. }
  split; [|done]. unfold table_rank. rewrite Hr.
  pose proof suffix_length.
  rewrite !longer_neq; [done|..]; rewrite ?first_fallback_eq, !append_length;
    change (String.length "_r") with 2%nat; lia.
Qed.

Lemma int_of_digits_nonneg s acc n : 0 <= acc -> int_of_digits acc s = Some n -> 0 <= n.
Proof.
  revert acc. induction s as [|c s IH]; intros acc Ha; cbn; [by intros [= <-]|].
  destruct (is_digit c) eqn:Ed; [|done]. apply IH. unfold is_digit in Ed.
  apply andb_true_iff in Ed as [H1%Z.leb_le H2]. lia.
Qed.

(** The next table is the next one of the chain. *)
Lemma next_table_rank sec t r : truthy t = true -> table_rank t = Some r ->
  table_rank (_mindsdb_next_fallback_table M sec t) = Some (r + 1) /\
  truthy (_mindsdb_next_fallback_table M sec t) = true.
Proof.
  intros Ht Hr. unfold table_rank in Hr. unfold _mindsdb_next_fallback_table. rewrite Ht. cbn [negb orb].
  assert (forall s, truthy (first_fallback M +:+ s) = true) as Htr.
  { intros s. rewrite first_fallback_eq. destruct base; [by cbn in base_named|done]. }
  destruct (t =s base) eqn:Eb.
  - injection Hr as <-. split; [|by rewrite <- (append_nil_r (first_fallback M))]. unfold table_rank.
    rewrite longer_neq, String.eqb_refl; [done|]. rewrite first_fallback_eq, append_length. pose proof suffix_length. lia.
  - destruct (t =s first_fallback M) eqn:Ef.
    + injection Hr as <-. split; [|apply Htr]. apply (revision_table 1). lia.
    + destruct (revision M t) as [n|] eqn:En; [|done]. injection Hr as <-. split; [|apply Htr].
      assert (0 <= n).
      { unfold revision in En. destruct (after _ t) as [ds|]; [|done]. destruct (truthy ds); [|done].
        by eapply (int_of_digits_nonneg ds 0). }
      apply (revision_table (n + 1)). lia.
Qed.
End fallback.

(** ** The calls of MindsDB *)

Section calls.
Variable M : mindsdb_config.
Variable respond : nat -> option exn.
Variable clock : nat -> Z.
Variable s0 : mindsdb_state.

(** Since [s0] only statements were executed. *)
Definition only_calls (s : mindsdb_state) : Prop :=
  mindsdb_queue s = mindsdb_queue s0 /\ queue_unfinished s = queue_unfinished s0 /\
  exists new, executed s = executed s0 ++ new.

Lemma calls_execute q : always only_calls (_mindsdb_execute respond q).
Proof.
  intros s (H1 & H2 & new & H3). unfold _mindsdb_execute. cbn.
  assert (only_calls (mkMinds (mindsdb_table_ready s) (mindsdb_target_table s) (mindsdb_queue s) (queue_unfinished s)
    (executed s ++ [(q, respond (calls s))]) (S (calls s)))) as Ho.
  { split; [done|]. split; [done|]. cbn. rewrite H3, <- app_assoc. by eexists. }
  by destruct (respond (calls s)).
Qed.

Lemma calls_ensure_table t : always only_calls (_ensure_mindsdb_table_exists M respond t).
Proof.
  apply always_bind.
  - unfold _ensure_mindsdb_database_exists. destruct (negb _); [apply always_raise|].
    apply always_try; [apply calls_execute|]. intros e. destruct (_looks_like_mindsdb_database_exists _); [apply always_ret|].
    destruct (_ || _); [|apply always_raise]. apply always_try; [apply calls_execute|]. intros e'.
    destruct (_looks_like_mindsdb_database_exists _); [apply always_ret|apply always_raise].
  - intros u. apply always_bind; [|intros u'; apply calls_execute].
    apply always_try; [apply calls_execute|]. intros e. destruct (negb _); [apply always_raise|apply always_ret].
Qed.

Lemma calls_try_candidates n c : always only_calls (try_candidates M respond clock n c).
Proof.
  revert c. induction n as [|n IH]; intros c; cbn [try_candidates]; [apply always_ret|].
  apply always_try.
  - apply always_bind; [apply calls_ensure_table|]. intros u.
    apply always_bind; [by apply always_modify|]. intros u'. apply always_ret.
  - intros e. destruct (_looks_like_mindsdb_table_corruption _); [|apply always_ret].
    intros s Hs. by apply IH.
Qed.

Lemma calls_switch c : always only_calls (_switch_mindsdb_to_fallback M respond clock c).
Proof. intros s Hs. by apply calls_try_candidates. Qed.

Lemma calls_ensure : always only_calls (ensure_mindsdb_table M respond clock).
Proof.
  intros s Hs. unfold ensure_mindsdb_table. destruct (_ || _); [done|]. destruct (mindsdb_table_ready s); [done|].
  match goal with |- context [st_try ?m ?h s] => assert (always only_calls (st_try m h)) as Ha; [|by apply Ha] end.
  apply always_try.
  - apply always_bind; [apply calls_ensure_table|]. intros u. by apply always_modify.
  - intros e. destruct (negb _); [apply always_ret|]. apply always_bind; [apply calls_switch|]. intros b. apply always_ret.
Qed.
End calls.

Section inserts.
Variable M : mindsdb_config.
Variable respond : nat -> option exn.
Variable clock : nat -> Z.

(** Executed since [s]. *)
Definition new_call (s s' : mindsdb_state) (q : string) (a : option exn) : Prop :=
  exists new, executed s' = executed s ++ new /\ In (q, a) new.

Lemma only_calls_refl s : only_calls s s.
Proof. split; [done|]. split; [done|]. exists []. by rewrite app_nil_r. Qed.

Lemma only_calls_trans s1 s2 s3 : only_calls s1 s2 -> only_calls s2 s3 -> only_calls s1 s3.
Proof.
  intros (A1 & A2 & n1 & A3) (B1 & B2 & n2 & B3). split; [congruence|]. split; [congruence|].
  exists (n1 ++ n2). by rewrite B3, A3, app_assoc.
Qed.

Lemma new_call_later s s1 s2 q a : new_call s s1 q a -> only_calls s1 s2 -> new_call s s2 q a.
Proof.
  intros (n1 & E1 & Hin) (_ & _ & n2 & E2). exists (n1 ++ n2). split; [by rewrite E2, E1, app_assoc|].
  apply in_or_app. by left.
Qed.

Lemma new_call_earlier s0 s s1 q a : only_calls s0 s -> new_call s s1 q a -> new_call s0 s1 q a.
Proof.
  intros (_ & _ & n1 & E1) (n2 & E2 & Hin). exists (n1 ++ n2). split; [by rewrite E2, E1, app_assoc|].
  apply in_or_app. by right.
Qed.

Lemma execute_call q s : new_call s (fst (_mindsdb_execute respond q s)) q (respond (calls s)).
Proof. exists [(q, respond (calls s))]. split; [done|by left]. Qed.

(** An insert that raises was refused, one that returns was accepted. *)
Definition offers (query : string -> string) (s : mindsdb_state) (m : ST mindsdb_state unit) : Prop :=
  let '(s', r) := m s in
  only_calls s s' /\ exists t a, new_call s s' (query t) a /\ (r = Ok tt -> a = None).

Lemma insert_offers query s : offers query s (insert_with_fallback M respond clock query).
Proof.
  unfold offers, insert_with_fallback, st_bind, st_get, st_try.
  set (t := str_or _ _). pose proof (execute_call (query t) s) as Hc.
  pose proof (calls_execute respond s (query t) s (only_calls_refl s)) as Ho.
  destruct (_mindsdb_execute respond (query t) s) as [s1 r1] eqn:E1. cbn [fst] in Hc.
  assert (only_calls s s1) as Ho1 by (by destruct r1). clear Ho.
  assert (r1 = Ok tt -> respond (calls s) = None) as Hr1
    by (unfold _mindsdb_execute in E1; injection E1 as _ <-; by destruct (respond (calls s))).
  destruct r1 as [[]|e]; [by eauto 6|].
  destruct (negb (_looks_like_mindsdb_table_corruption (exn_str e))); [split; [done|]; exists t; by eauto|].
  pose proof (calls_switch M respond clock s t s1 Ho1) as Ho2.
  assert (only_calls s1 (fst (_switch_mindsdb_to_fallback M respond clock t s1))) as Ho12.
  { pose proof (calls_switch M respond clock s1 t s1 (only_calls_refl s1)) as Hx.
    by destruct (_switch_mindsdb_to_fallback M respond clock t s1) as [? []]. }
  destruct (_switch_mindsdb_to_fallback M respond clock t s1) as [s2 [[]|e2]]; cbn [fst negb] in *.
  - set (t2 := str_or _ _). pose proof (execute_call (query t2) s2) as Hc2.
    pose proof (calls_execute respond s (query t2) s2 Ho2) as Ho3.
    destruct (_mindsdb_execute respond (query t2) s2) as [s3 r3] eqn:E3. cbn [fst] in Hc2.
    split; [by destruct r3|]. exists t2, (respond (calls s2)). split; [by eapply new_call_earlier|].
    intros ->. unfold _mindsdb_execute in E3. injection E3 as _ E3. by destruct (respond (calls s2)).
  - split; [done|]. exists t. eexists. split; [by eapply new_call_later|done].
  - split; [done|]. exists t. eexists. split; [by eapply new_call_later|done].
Qed.

(** After calls that only execute statements. *)
Lemma offers_after {A} query s (m : ST mindsdb_state A) (k : A -> ST mindsdb_state unit) :
  (exists s1 a, m s = (s1, Ok a) /\ only_calls s s1 /\ offers query s1 (k a)) -> offers query s (st_bind m k).
Proof.
  intros (s1 & a & E & Ho & Hk). unfold offers, st_bind in *. rewrite E. destruct (k a s1) as [s2 r].
  destruct Hk as (Ho2 & t & x & Hn & Hr). split; [by eapply only_calls_trans|]. exists t, x.
  split; [by eapply new_call_earlier|done].
Qed.

Lemma switch_returns c s : exists s' b, _switch_mindsdb_to_fallback M respond clock c s = (s', Ok b).
Proof.
  unfold _switch_mindsdb_to_fallback. generalize (_mindsdb_next_fallback_table M (unix_seconds clock s)
    (str_or c (str_or (mindsdb_target_table s) (MINDSDB_AUTOSYNC_TABLE M)))). generalize 12%nat.
  intros n. revert s. induction n as [|n IH]; intros s cand; cbn [try_candidates]; [by eauto|].
  unfold st_try, st_bind. destruct (_ensure_mindsdb_table_exists M respond cand s) as [s1 [u|e]]; [by eauto|].
  destruct (_looks_like_mindsdb_table_corruption (exn_str e)); [apply IH|by eauto].
Qed.

Lemma ensure_returns s : exists s', ensure_mindsdb_table M respond clock s = (s', Ok tt) /\ only_calls s s'.
Proof.
  pose proof (calls_ensure M respond clock s s (only_calls_refl s)) as Ho.
  assert (exists s', ensure_mindsdb_table M respond clock s = (s', Ok tt)) as [s' E].
  { unfold ensure_mindsdb_table. destruct (_ || _); [by eauto|]. destruct (mindsdb_table_ready s); [by eauto|].
    unfold st_try, st_bind. destruct (_ensure_mindsdb_table_exists M respond _ s) as [s1 [u|e]]; [by eexists|].
    destruct (negb _); [by eauto|].
    destruct (switch_returns (MINDSDB_AUTOSYNC_TABLE M) s1) as (s2 & b & ->). by eexists. }
  exists s'. split; [done|]. by rewrite E in Ho.
Qed.

Lemma insert_one_offers item s : exists now,
  offers (_mindsdb_insert_query M (i_project item) (i_file item) (i_summary item) (str_or (i_created_at item) now)) s
    (_insert_into_mindsdb M respond clock item).
Proof.
  destruct (ensure_returns s) as (s1 & E & Ho). exists (_utc_now (clock (calls s1))).
  apply offers_after. exists s1, tt. split; [done|]. split; [done|].
  apply offers_after. exists s1. eexists. split; [done|]. split; [apply only_calls_refl|]. apply insert_offers.
Qed.

Lemma insert_many_offers items s : items <> [] -> exists now,
  offers (_mindsdb_insert_many_query M now items) s (_insert_many_into_mindsdb M respond clock items).
Proof.
  intros Hne. destruct (ensure_returns s) as (s1 & E & Ho). exists (_utc_now (clock (calls s1))).
  destruct items as [|i items]; [done|]. unfold _insert_many_into_mindsdb.
  apply offers_after. exists s1, tt. split; [done|]. split; [done|].
  apply offers_after. exists s1. eexists. split; [done|]. split; [apply only_calls_refl|]. apply insert_offers.
Qed.

(** What becomes of a batch: accepted as a whole, or every row offered alone. *)
Definition batch_offered (s s' : mindsdb_state) (batch : list mindsdb_item) : Prop :=
  (exists now t, new_call s s' (_mindsdb_insert_many_query M now batch t) None) \/
  (forall row, In row batch -> exists now t a,
     new_call s s' (_mindsdb_insert_query M (i_project row) (i_file row) (i_summary row)
                      (str_or (i_created_at row) now) t) a).

Lemma salvage_spec batch s : exists s',
  st_for batch (fun row => st_try (_insert_into_mindsdb M respond clock row) (fun _ => st_ret tt)) s = (s', Ok tt) /\
  only_calls s s' /\
  (forall row, In row batch -> exists now t a,
     new_call s s' (_mindsdb_insert_query M (i_project row) (i_file row) (i_summary row)
                      (str_or (i_created_at row) now) t) a).
Proof.
  revert s. induction batch as [|row batch IH]; intros s; cbn [st_for].
  { exists s. split; [done|]. split; [apply only_calls_refl|done]. }
  destruct (insert_one_offers row s) as [now Hof]. unfold offers in Hof. unfold st_bind at 1, st_try at 1.
  destruct (_insert_into_mindsdb M respond clock row s) as [s1 r] eqn:E1. destruct Hof as (Ho & t & a & Hn & _).
  destruct (IH s1) as (s2 & E2 & Ho2 & Hall).
  exists s2. split; [destruct r as [[]|e]; exact E2|]. split; [by eapply only_calls_trans|].
  intros row' [<-|Hin].
  - exists now, t, a. by eapply new_call_later.
  - destruct (Hall row' Hin) as (now' & t' & a' & Hn'). exists now', t', a'. by eapply new_call_earlier.
Qed.

Lemma sync_attempts_spec more batch s : batch <> [] -> exists s',
  sync_attempts M respond clock more batch s = (s', Ok tt) /\ only_calls s s' /\ batch_offered s s' batch.
Proof.
  intros Hne. revert s. induction more as [|more IH]; intros s; cbn [sync_attempts]; unfold st_try at 1;
    destruct (insert_many_offers batch s Hne) as [now Hof]; unfold offers in Hof;
    destruct (_insert_many_into_mindsdb M respond clock batch s) as [s1 [[]|e]]; destruct Hof as (Ho & t & a & Hn & Hr).
  - exists s1. split; [done|]. split; [done|]. left. exists now, t. by rewrite <- (Hr eq_refl).
  - destruct (salvage_spec batch s1) as (s2 & E2 & Ho2 & Hall). exists s2. split; [done|].
    split; [by eapply only_calls_trans|]. right. intros row Hin.
    destruct (Hall row Hin) as (now' & t' & a' & Hn'). exists now', t', a'. by eapply new_call_earlier.
  - exists s1. split; [done|]. split; [done|]. left. exists now, t. by rewrite <- (Hr eq_refl).
  - destruct (IH s1) as (s2 & E2 & Ho2 & Hb). exists s2. split; [done|]. split; [by eapply only_calls_trans|].
    destruct Hb as [(now' & t' & Hn')|Hall]; [left; exists now', t'; by eapply new_call_earlier|].
    right. intros row Hin. destruct (Hall row Hin) as (now' & t' & a' & Hn').
    exists now', t', a'. by eapply new_call_earlier.
Qed.

Lemma candidates_rank n c s s' r :
  truthy (MINDSDB_AUTOSYNC_TABLE M) = true ->
  endswith (MINDSDB_AUTOSYNC_TABLE M) (MINDSDB_AUTOSYNC_TABLE_FALLBACK_SUFFIX M) = false ->
  truthy c = true -> table_rank M c = Some r ->
  try_candidates M respond clock n c s = (s', Ok true) ->
  exists r', r <= r' /\ table_rank M (mindsdb_target_table s') = Some r'.
Proof.
  intros Hb Hf. revert c s r. induction n as [|n IH]; intros c s r Hc Hr; cbn [try_candidates]; [done|].
  unfold st_try, st_bind. destruct (_ensure_mindsdb_table_exists M respond c s) as [s1 [u|e]].
  - cbn. intros [= <-]. exists r. split; [lia|done].
  - destruct (_looks_like_mindsdb_table_corruption (exn_str e)); [|done]. intros E.
    destruct (next_table_rank M Hb Hf (unix_seconds clock s1) c r Hc Hr) as [Hr' Hc'].
    destruct (IH _ _ _ Hc' Hr' E) as (r' & ? & ?). exists r'. split; [lia|done].
Qed.
End inserts.

(** ** Properties *)

(** No value changes the shape of a bulk insert: a reader of SQL with
    standard string literals gets back, from the statement, exactly the rows
    that were put in, whatever quotes, parentheses or semicolons they hold. *)
Theorem insert_statement_roundtrip M now rows table_name :
  rows <> [] ->
  read_insert M table_name (_mindsdb_insert_many_query M now rows table_name) = Some (map (item_values now) rows).
Proof. apply read_insert_many. Qed.

(** A successful switch to a fallback table moves on: the new table comes
    later in the chain of the base table, its fallback and the numbered
    revisions, so a corrupted table is never chosen again. *)
Theorem fallback_moves_on M respond clock current s s' r :
  truthy (MINDSDB_AUTOSYNC_TABLE M) = true ->
  endswith (MINDSDB_AUTOSYNC_TABLE M) (MINDSDB_AUTOSYNC_TABLE_FALLBACK_SUFFIX M) = false ->
  truthy current = true -> table_rank M current = Some r ->
  _switch_mindsdb_to_fallback M respond clock current s = (s', Ok true) ->
  exists r', r < r' /\ table_rank M (mindsdb_target_table s') = Some r' /\ mindsdb_target_table s' <> current.
Proof.
  intros Hb Hf Hc Hr E. unfold _switch_mindsdb_to_fallback, str_or in E. rewrite Hc in E.
  destruct (next_table_rank M Hb Hf (unix_seconds clock s) current r Hc Hr) as [Hr' Hc'].
  destruct (candidates_rank M respond clock 12 _ s s' _ Hb Hf Hc' Hr' E) as (r' & Hle & Ht).
  exists r'. split; [lia|]. split; [done|]. intros Et. rewrite Et, Hr in Ht. injection Ht as ->. lia.
Qed.

(** When the configured table name already ends with the fallback suffix,
    its fallback is the table itself: a corrupted table is replaced by
    itself. *)
Theorem suffixed_table_has_no_fallback M seconds :
  endswith (MINDSDB_AUTOSYNC_TABLE M) (MINDSDB_AUTOSYNC_TABLE_FALLBACK_SUFFIX M) = true ->
  _mindsdb_next_fallback_table M seconds (MINDSDB_AUTOSYNC_TABLE M) = MINDSDB_AUTOSYNC_TABLE M.
Proof.
  intros He. unfold _mindsdb_next_fallback_table. rewrite String.eqb_refl, orb_true_r.
  unfold first_fallback, _mindsdb_fallback_table_name. change (str_or "" ?b) with b. by rewrite He.
Qed.

(** A round of the retry worker takes the oldest rows up to the batch size
    off the queue, acknowledges each once, never fails, and either has one
    statement accepted that inserts all of them or has offered every row in a
    statement of its own. *)
Theorem queue_worker_offers_every_row M respond clock s :
  MINDSDB_AUTOSYNC M = true -> mindsdb_queue s <> [] ->
  let n := Z.to_nat (Z.max 1 (MINDSDB_AUTOSYNC_BATCH_SIZE M)) in
  let batch := firstn n (mindsdb_queue s) in
  exists s', _mindsdb_queue_worker M respond clock s = (s', Ok tt) /\
    mindsdb_queue s' = skipn n (mindsdb_queue s) /\
    queue_unfinished s' = queue_unfinished s - Z.of_nat (length batch) /\
    batch_offered M s s' batch.
Proof.
  intros Ha Hne. cbn zeta. set (n := Z.to_nat _). set (batch := firstn n (mindsdb_queue s)).
  set (s1 := set_items (skipn n (mindsdb_queue s)) (queue_unfinished s) s).
  assert (_mindsdb_queue_worker M respond clock s =
    st_finally (sync_attempts M respond clock (Z.to_nat (Z.max 1 (MINDSDB_AUTOSYNC_RETRIES M)) - 1) batch)
      (tasks_done (length batch)) s1) as ->.
  { unfold _mindsdb_queue_worker. rewrite Ha. unfold s1, batch, n. by destruct (mindsdb_queue s). }
  assert (batch <> []) as Hb.
  { unfold batch, n. destruct (mindsdb_queue s); [done|]. destruct (Z.to_nat _) eqn:E; [lia|discriminate]. }
  destruct (sync_attempts_spec M respond clock (Z.to_nat (Z.max 1 (MINDSDB_AUTOSYNC_RETRIES M)) - 1) batch s1 Hb)
    as (s2 & E2 & (H1 & H2 & _) & Ho).
  unfold st_finally. rewrite E2. eexists. split; [done|]. split; [exact H1|]. split; [cbn; by rewrite H2|exact Ho].
Qed.

(** ** Witnesses *)

Definition nasty_items : list mindsdb_item :=
  [mkItem "p'); DROP TABLE x; --" "o''brien.md" "('a', 'b')" "2024-01-01T00:00:00Z"; mkItem "q" "f" "'" ""].

Lemma insert_statement_roundtrip_witness :
  read_insert default_mindsdb_config "memory_events"
    (_mindsdb_insert_many_query default_mindsdb_config "now" nasty_items "memory_events") =
  Some (map (item_values "now") nasty_items).
Proof. apply (insert_statement_roundtrip default_mindsdb_config "now" nasty_items "memory_events"). discriminate. Defined.

Definition demo_minds : mindsdb_state := mkMinds true "memory_events" nasty_items 2 [] 0.

Lemma fallback_moves_on_witness : exists s',
  _switch_mindsdb_to_fallback default_mindsdb_config (fun _ => None) (fun _ => 0) "memory_events" demo_minds = (s', Ok true) /\
  mindsdb_target_table s' <> "memory_events".
Proof.
  eexists. split; [vm_compute; reflexivity|].
  destruct (fallback_moves_on default_mindsdb_config (fun _ => None) (fun _ => 0) "memory_events" demo_minds
    (fst (_switch_mindsdb_to_fallback default_mindsdb_config (fun _ => None) (fun _ => 0) "memory_events" demo_minds)) 0)
    as (r' & _ & _ & H); [vm_compute; reflexivity..|]. vm_compute in H |- *. exact H.
Defined.

Lemma suffixed_table_has_no_fallback_witness :
  let M := mkMindsConfig true true "files" "events_v2" "_v2" 5 500 8 in
  _mindsdb_next_fallback_table M 1700000000 "events_v2" = "events_v2".
Proof.
  apply (suffixed_table_has_no_fallback (mkMindsConfig true true "files" "events_v2" "_v2" 5 500 8) 1700000000).
  reflexivity.
Defined.

Lemma queue_worker_offers_every_row_witness : exists s',
  _mindsdb_queue_worker default_mindsdb_config (fun n => if Nat.even n then Some (OrchestratorError "boom") else None)
    (fun _ => 0) demo_minds = (s', Ok tt) /\ mindsdb_queue s' = [] /\ queue_unfinished s' = 0.
Proof.
  destruct (queue_worker_offers_every_row default_mindsdb_config
    (fun n => if Nat.even n then Some (OrchestratorError "boom") else None) (fun _ => 0) demo_minds)
    as (s' & E & Hq & Hu & _); [reflexivity|discriminate|].
  exists s'. split; [exact E|]. split; [exact Hq|exact Hu].
Defined.
