(* ===== verification/Regex.v ===== *)
(** * Regular expressions

    The part of Python's [re] the orchestrator uses: character classes, greedy
    repetition of a class, word boundaries, negative look-behind at a class,
    sequences and ordered alternatives, with [search], [sub] and [findall].  The matcher backtracks the way
    [re] does; [matches] is the declarative meaning, and the matcher finds a
    match exactly where there is one. *)

From S2P Require Import Prelude PyStr.
From Stdlib Require Import Ascii.
Open Scope nat_scope.

Inductive re :=
| Eps
| Cls (p : ascii -> bool)
| Rep (p : ascii -> bool) (lo : nat) (hi : option nat)
| Bound
| Seq (a b : re)
| Alt (a b : re)
| NotAfter (p : ascii -> bool).

(** Letters, [[A-Za-z0-9]] and [\w]. *)
Definition is_letter (c : ascii) : bool :=
  let n := Z.of_N (ascii_code (lower_char c)) in ((97 <=? n) && (n <=? 122))%Z.
Definition is_alnum (c : ascii) : bool := is_digit c || is_letter c.
Definition is_word (c : ascii) : bool := is_alnum c || Ascii.eqb c "_".

(** A position is the character before it and the text after it. *)
Abbreviation pos := (option ascii * string)%type.

Definition word_before (p : pos) : bool := match fst p with Some c => is_word c | None => false end.
Definition word_after (p : pos) : bool := match snd p with String c _ => is_word c | EmptyString => false end.

(** Is the character before the position one of the class? *)
Definition after (p : ascii -> bool) (q : pos) : bool := match fst q with Some c => p c | None => false end.

(** ** The matcher *)

(** May one more repetition be taken? *)
Definition more (hi : option nat) : bool := match hi with Some O => false | _ => true end.
Definition less (hi : option nat) : option nat := option_map Nat.pred hi.

Section matcher.
Context {R : Type}.

(** As many repetitions as possible first. *)
Fixpoint rep (p : ascii -> bool) (lo : nat) (hi : option nat) (prev : option ascii) (s : string)
    (k : pos -> option R) : option R :=
  let stop := match lo with O => k (prev, s) | _ => None end in
  match s with
  | String c s' =>
      if more hi && p c then
        match rep p (pred lo) (less hi) (Some c) s' k with Some r => Some r | None => stop end
      else stop
  | EmptyString => stop
  end.

Fixpoint run (r : re) (q : pos) (k : pos -> option R) : option R :=
  match r with
  | Eps => k q
  | Cls p => match snd q with
             | String c s' => if p c then k (Some c, s') else None
             | EmptyString => None
             end
  | Rep p lo hi => rep p lo hi (fst q) (snd q) k
  | Bound => if xorb (word_before q) (word_after q) then k q else None
  | Seq a b => run a q (fun q' => run b q' k)
  | Alt a b => match run a q k with Some x => Some x | None => run b q k end
  | NotAfter p => if after p q then None else k q
  end.
End matcher.

(** The end of the match at a position. *)
Definition match_at (r : re) (q : pos) : option pos := run r q Some.

(** [pattern.search(text)] *)
Fixpoint search_from (r : re) (prev : option ascii) (s : string) : bool :=
  match match_at r (prev, s) with
  | Some _ => true
  | None => match s with String c s' => search_from r (Some c) s' | EmptyString => false end
  end.

Definition search (r : re) (text : string) : bool := search_from r None text.

(** [pattern.sub(repl, text)] for a pattern that matches no empty text; [fuel]
    is the length of the text. *)
Fixpoint sub_from (fuel : nat) (r : re) (repl : string) (prev : option ascii) (s : string) : string :=
  match fuel, s with
  | S fuel', String c s' =>
      match match_at r (prev, s) with
      | Some (prev', rest) => repl +:+ sub_from fuel' r repl prev' rest
      | None => String c (sub_from fuel' r repl (Some c) s')
      end
  | _, _ => s
  end.

Definition sub (r : re) (repl : string) (text : string) : string :=
  sub_from (String.length text) r repl None text.

(** The text between two positions of it. *)
Definition between (q q' : pos) : string := take (String.length (snd q) - String.length (snd q')) (snd q).

(** [re.findall(pattern, text)] for a pattern without groups that matches no
    empty text; [fuel] is the length of the text. *)
Fixpoint findall_from (fuel : nat) (r : re) (prev : option ascii) (s : string) : list string :=
  match fuel, s with
  | S fuel', String c s' =>
      match match_at r (prev, s) with
      | Some q => between (prev, s) q :: findall_from fuel' r (fst q) (snd q)
      | None => findall_from fuel' r (Some c) s'
      end
  | _, _ => []
  end.

Definition findall (r : re) (text : string) : list string := findall_from (String.length text) r None text.

(** ** The meaning of a pattern *)

Inductive matches : re -> pos -> pos -> Prop :=
| m_eps q : matches Eps q q
| m_cls p prev c s : p c = true -> matches (Cls p) (prev, String c s) (Some c, s)
| m_stop p hi q : matches (Rep p 0 hi) q q
| m_more p lo hi prev c s q : more hi = true -> p c = true ->
    matches (Rep p (pred lo) (less hi)) (Some c, s) q -> matches (Rep p lo hi) (prev, String c s) q
| m_bound q : xorb (word_before q) (word_after q) = true -> matches Bound q q
| m_seq a b q q' q'' : matches a q q' -> matches b q' q'' -> matches (Seq a b) q q''
| m_left a b q q' : matches a q q' -> matches (Alt a b) q q'
| m_right a b q q' : matches b q q' -> matches (Alt a b) q q'
| m_not_after p q : after p q = false -> matches (NotAfter p) q q.

#[export] Hint Constructors matches : lattice.

Lemma rep_sound {R} p s : forall lo hi prev (k : pos -> option R) x,
  rep p lo hi prev s k = Some x -> exists q', matches (Rep p lo hi) (prev, s) q' /\ k q' = Some x.
Proof.
  induction s as [|c s IH]; intros lo hi prev k x; cbn.
  { destruct lo; [|done]. eauto with lattice. }
  destruct (more hi && p c) eqn:E; [|destruct lo; [eauto with lattice|done]]. blift.
  destruct (rep p (pred lo) (less hi) (Some c) s k) as [y|] eqn:Er.
  - intros [= ->]. apply IH in Er as (q' & Hq & Hk). eauto with lattice.
  - destruct lo; [eauto with lattice|done].
Qed.

Lemma run_sound {R} r : forall q (k : pos -> option R) x,
  run r q k = Some x -> exists q', matches r q q' /\ k q' = Some x.
Proof.
  induction r as [|p|p lo hi| |a IHa b IHb|a IHa b IHb|p]; intros q k x; cbn.
  - eauto with lattice.
  - destruct q as [prev [|c s]]; cbn; [done|]. destruct (p c) eqn:E; [|done]. eauto with lattice.
  - destruct q. apply rep_sound.
  - destruct (xorb _ _) eqn:E; [|done]. eauto with lattice.
  - intros (q' & Ha & (q'' & Hb & Hk)%IHb)%IHa. eauto with lattice.
  - destruct (run a q k) as [y|] eqn:E.
    + intros [= ->]. apply IHa in E as (q' & Hq & Hk). eauto with lattice.
    + intros (q' & Hq & Hk)%IHb. eauto with lattice.
  - destruct (after p q) eqn:E; [done|]. eauto with lattice.
Qed.

Lemma rep_complete {R} p s : forall lo hi prev q' (k : pos -> option R),
  matches (Rep p lo hi) (prev, s) q' -> k q' <> None -> rep p lo hi prev s k <> None.
Proof.
  induction s as [|c s IH]; intros lo hi prev q' k Hm Hk.
  { inversion Hm; subst; done. }
  inversion Hm as [| |? ? ? |? ? ? ? ? ? ? Hmore Hp Hr| | | | |]; subst; cbn.
  - destruct (more hi && p c); [|done]. by destruct (rep p 0 (less hi) (Some c) s k).
  - rewrite Hmore, Hp. cbn. apply (IH _ _ _ _ k) in Hr; [|done].
    by destruct (rep p (pred lo) (less hi) (Some c) s k).
Qed.

Lemma run_complete {R} r : forall q q' (k : pos -> option R), matches r q q' -> k q' <> None -> run r q k <> None.
Proof.
  induction r as [|p|p lo hi| |a IHa b IHb|a IHa b IHb|p]; intros q q' k Hm Hk.
  - by inversion Hm; subst.
  - inversion Hm as [|? ? ? ? Hp| | | | | | |]; subst. cbn. by rewrite Hp.
  - destruct q. cbn. by eapply rep_complete.
  - inversion Hm as [| | | |? Hx| | | |]; subst. cbn. by rewrite Hx.
  - inversion Hm; subst. cbn. eapply IHa; [done|]. cbn. by eapply IHb.
  - cbn. inversion Hm as [| | | | | |? ? ? ? Ha|? ? ? ? Hb|]; subst.
    + apply (IHa _ _ k) in Ha; [|done]. by destruct (run a q k).
    + destruct (run a q k); [done|]. by eapply IHb.
  - inversion Hm as [| | | | | | | |? ? Ha]; subst. cbn. by rewrite Ha.
Qed.

(** The matcher answers a match, and one whenever there is one. *)
Lemma match_at_sound r q q' : match_at r q = Some q' -> matches r q q'.
Proof. intros (q1 & Hm & [= ->])%run_sound. done. Qed.

Lemma match_at_none r q : match_at r q = None <-> forall q', ~ matches r q q'.
Proof.
  split.
  - intros Hn q' Hm. by apply (run_complete r q q' Some Hm).
  - intros Hn. destruct (match_at r q) as [q'|] eqn:E; [|done]. by apply match_at_sound, Hn in E.
Qed.

(** ** Search and substitution *)

(** The positions of a text. *)
Inductive reaches : pos -> pos -> Prop :=
| r_here q : reaches q q
| r_next prev c s q : reaches (Some c, s) q -> reaches (prev, String c s) q.

#[export] Hint Constructors reaches : lattice.

Lemma reaches_trans q1 q2 q3 : reaches q1 q2 -> reaches q2 q3 -> reaches q1 q3.
Proof. induction 1; eauto with lattice. Qed.

Lemma search_from_iff r s : forall prev,
  search_from r prev s = true <-> exists q q', reaches (prev, s) q /\ matches r q q'.
Proof.
  induction s as [|c s IH]; intros prev; cbn.
  - destruct (match_at r (prev, "")) as [q'|] eqn:E.
    + split; [|done]. intros _. apply match_at_sound in E. eauto with lattice.
    + split; [done|]. rewrite match_at_none in E. intros (q & q' & Hr & Hm). inversion Hr; subst. naive_solver.
  - destruct (match_at r (prev, String c s)) as [q'|] eqn:E.
    + split; [|done]. intros _. apply match_at_sound in E. eauto with lattice.
    + rewrite IH. rewrite match_at_none in E. split.
      * intros (q & q' & Hr & Hm). eauto with lattice.
      * intros (q & q' & Hr & Hm). inversion Hr; subst; [naive_solver|eauto].
Qed.

(** The text is found exactly when the pattern matches somewhere in it. *)
Lemma search_iff r text : search r text = true <-> exists q q', reaches (None, text) q /\ matches r q q'.
Proof. apply search_from_iff. Qed.

(** A match ends at a position of the text. *)
Lemma rep_reaches p s : forall lo hi prev q', matches (Rep p lo hi) (prev, s) q' -> reaches (prev, s) q'.
Proof.
  induction s as [|c s IH]; intros lo hi prev q' Hm; inversion Hm; subst; eauto with lattice.
Qed.

Lemma matches_reaches r q q' : matches r q q' -> reaches q q'.
Proof.
  induction 1; eauto using reaches_trans with lattice.
Qed.

(** How many characters a pattern takes at least. *)
Fixpoint width (r : re) : nat :=
  match r with
  | Eps | Bound | NotAfter _ => 0
  | Cls _ => 1
  | Rep _ lo _ => lo
  | Seq a b => width a + width b
  | Alt a b => Nat.min (width a) (width b)
  end.

Lemma matches_width r q q' : matches r q q' -> width r + String.length (snd q') <= String.length (snd q).
Proof. induction 1; cbn in *; lia. Qed.

(** [text] with non-empty matches replaced by [repl], nowhere a match left out. *)
Inductive substituted (r : re) (repl : string) : pos -> string -> Prop :=
| s_end prev : substituted r repl (prev, EmptyString) EmptyString
| s_keep prev c s t : (forall q, ~ matches r (prev, String c s) q) ->
    substituted r repl (Some c, s) t -> substituted r repl (prev, String c s) (String c t)
| s_match q q' t : matches r q q' -> String.length (snd q') < String.length (snd q) ->
    substituted r repl q' t -> substituted r repl q (repl +:+ t).

Lemma sub_from_spec r repl fuel : 0 < width r -> forall prev s,
  String.length s <= fuel -> substituted r repl (prev, s) (sub_from fuel r repl prev s).
Proof.
  intros Hw. induction fuel as [|fuel IH]; intros prev s Hl.
  { destruct s; cbn in *; [constructor|lia]. }
  destruct s as [|c s]; [constructor|]. cbn [sub_from].
  destruct (match_at r (prev, String c s)) as [[prev' rest]|] eqn:E.
  - apply match_at_sound in E. pose proof (matches_width _ _ _ E) as Hlen. cbn in *.
    eapply s_match; [done|cbn; lia|]. apply IH. lia.
  - apply s_keep; [by apply match_at_none|]. apply IH. cbn in Hl. lia.
Qed.

Lemma sub_spec r repl text : 0 < width r -> substituted r repl (None, text) (sub r repl text).
Proof. intros Hw. by apply sub_from_spec. Qed.

(** A text without a match is left as it is. *)
Lemma sub_from_no_match r repl fuel : forall prev s,
  search_from r prev s = false -> sub_from fuel r repl prev s = s.
Proof.
  induction fuel as [|fuel IH]; intros prev s Hs; [done|]. destruct s as [|c s]; [done|].
  cbn [search_from sub_from] in *. destruct (match_at r (prev, String c s)); [done|]. by rewrite IH.
Qed.

Lemma sub_no_match r repl text : search r text = false -> sub r repl text = text.
Proof. apply sub_from_no_match. Qed.
