(* ===== verification/WriteBuffer.v ===== *)
(** * Buffers of the write path

    What [write_memory] consults and fills before anything is delivered: the
    window of recent writes, the latest hash per file, the rollup buffer of
    hot files, the queue of memory-bank writes, the topic tree, and the
    builders of event identifiers and raw events. *)

From S2P Require Import Prelude PyStr PyTime Json JsonText Paths OutboxMaint.
Open Scope Z_scope.

Record write_config := mkWriteConfig {
  MEMORY_WRITE_DEDUP_ENABLED : bool;
  MEMORY_WRITE_DEDUP_WINDOW_SECS : Z; (* microseconds *)
  MEMORY_WRITE_DEDUP_MAX_KEYS : Z;
  MEMORY_WRITE_LATEST_HASH_DEDUP_ENABLED : bool; MEMORY_WRITE_LATEST_HASH_DEDUP_MAX_KEYS : Z;
  HOT_MEMORY_ROLLUP_ENABLED : bool;
  HOT_MEMORY_ROLLUP_FLUSH_SECS : Z; (* microseconds *)
  HOT_MEMORY_ROLLUP_SUFFIX : string;
  MEMORY_BANK_QUEUE_MAX : Z; MEMORY_WRITE_ASYNC : bool;
  QDRANT_COLLECTION : string; DEFAULT_TOPIC_ROOT : string; MEMORY_WRITE_HISTORY_LIMIT : Z }.

Definition default_write_config : write_config :=
  mkWriteConfig true (120 * us_per_sec) 10000 true 50000 true (20 * us_per_sec) "__rollup.json" 2000 true
    "memmcp_notes" "root" 200.

(** ** Dictionaries *)

(** [d[k] = v]: a known key keeps its place. *)
Fixpoint cset {A} (k : string) (v : A) (d : list (string * A)) : list (string * A) :=
  match d with
  | [] => [(k, v)]
  | (k', v') :: d' => if k =s k' then (k', v) :: d' else (k', v') :: cset k v d'
  end.

(** [d.pop(k, None)] *)
Definition cdel {A} (k : string) (d : list (string * A)) : list (string * A) :=
  List.filter (fun kv => negb (fst kv =s k)) d.

(** ** Identifiers *)

Section ids.
(** [hashlib.sha256(text.encode("utf-8")).hexdigest()] *)
Variable sha256 : string -> string.

Definition build_event_id (project file_name content : string) : string :=
  take 32 (sha256 (project +:+ ":" +:+ file_name +:+ ":" +:+ content)).

Definition build_memory_write_dedupe_key (project file_name content : string) : string :=
  project +:+ ":" +:+ file_name +:+ ":" +:+ take 32 (sha256 content).

Definition memory_content_sha256 (content : string) : string := sha256 content.
End ids.

(** [content[-n:]] *)
Definition take_last (n : nat) (s : string) : string := drop (String.length s - n) s.

Definition summarize_content (content : string) : string :=
  if (String.length content <=? 500)%nat then content
  else take 250 content +:+ "..." +:+ take_last 250 content.

Definition build_raw_memory_event (now : Z) (event_id project file_name content summary topic_path : string)
    (topic_tags : list string) (request_id : option string) : dict :=
  let created_at := _utc_now now in
  [("event_id", JStr event_id); ("source", JStr "memory.write"); ("project", JStr project); ("file", JStr file_name);
   ("content_raw", JStr content); ("summary", JStr summary); ("topic_path", JStr topic_path);
   ("topic_tags", JList (map JStr topic_tags));
   ("request_id", match request_id with Some r => JStr r | None => JNull end);
   ("created_at", JStr created_at); ("updated_at", JStr created_at)].

(** ** The window of recent writes *)

Definition older (a b : string * Z) : bool := snd a <=? snd b.

Definition should_skip_duplicate_memory_write (W : write_config) (dedupe_key : string) (now : Z)
    (memory_write_dedupe_seen : list (string * Z)) : list (string * Z) * bool :=
  if negb (MEMORY_WRITE_DEDUP_ENABLED W) then (memory_write_dedupe_seen, false)
  else
    let window := Z.max 0 (MEMORY_WRITE_DEDUP_WINDOW_SECS W) in
    if window <=? 0 then (memory_write_dedupe_seen, false)
    else
      let cutoff := now - window in
      let seen := List.filter (fun kv => negb (snd kv <? cutoff)) memory_write_dedupe_seen in
      let previous_seen := clookup dedupe_key seen in
      let seen := cset dedupe_key now seen in
      let max_keys := Z.max 100 (MEMORY_WRITE_DEDUP_MAX_KEYS W) in
      let seen :=
        if max_keys <? Z.of_nat (length seen) then
          let overflow := Z.to_nat (Z.of_nat (length seen) - max_keys) in
          let oldest := firstn overflow (sort_by older seen) in
          List.filter (fun kv => negb (mem_str (fst kv) (map fst oldest))) seen
        else seen in
      (seen, match previous_seen with Some t => now - t <=? window | None => false end).

(** ** The latest hash of a file *)

(** [while len(d) > max_keys]; [fuel] is the number of entries. *)
Fixpoint evict_hashes (fuel : nat) (max_keys : Z) (dedupe_key content_hash : string) (d : list (string * string))
  : list (string * string) :=
  match fuel, d with
  | S fuel', (oldest_key, v) :: rest =>
      if Z.of_nat (length d) <=? max_keys then d
      else if oldest_key =s dedupe_key then
        match rest with
        | (second_key, _) :: rest' => evict_hashes fuel' max_keys dedupe_key content_hash ((oldest_key, v) :: rest')
        | [] => evict_hashes fuel' max_keys dedupe_key content_hash [(dedupe_key, content_hash)]
        end
      else evict_hashes fuel' max_keys dedupe_key content_hash rest
  | _, _ => d
  end.

Definition should_skip_unchanged_latest_hash (W : write_config) (project file_name content_hash : string)
    (memory_write_latest_hashes : list (string * string)) : list (string * string) * bool :=
  if negb (MEMORY_WRITE_LATEST_HASH_DEDUP_ENABLED W) then (memory_write_latest_hashes, false)
  else
    let dedupe_key := project +:+ ":" +:+ file_name in
    let max_keys := Z.max 1000 (MEMORY_WRITE_LATEST_HASH_DEDUP_MAX_KEYS W) in
    let previous_hash := clookup dedupe_key memory_write_latest_hashes in
    let d := cset dedupe_key content_hash memory_write_latest_hashes in
    (evict_hashes (length d) max_keys dedupe_key content_hash d,
     match previous_hash with Some h => h =s content_hash | None => false end).

(** ** The memory-bank queue *)

Record bank_item := mkBankItem {
  b_project : string; b_file : string; b_payload : dict; b_summary : string; b_topic_path : string;
  b_topic_tags : list string; b_content_length : Z; b_letta_session : option string; b_letta_admit : bool;
  b_letta_context : option dict; b_waiter : bool; b_start_time : option Z; b_request_id : option string;
  b_event_id : string; b_raw_event : option dict; b_mongo_persisted : bool; b_qdrant_collection : string }.

Record bank_queue := mkBank { memory_bank_queue : list bank_item; memory_bank_queue_dropped : Z }.

(** [memory_bank_queue.full()] *)
Definition bank_full (W : write_config) (q : bank_queue) : bool :=
  (0 <? MEMORY_BANK_QUEUE_MAX W) && (MEMORY_BANK_QUEUE_MAX W <=? Z.of_nat (length (memory_bank_queue q))).

Definition _enqueue_memory_bank_write (W : write_config) (item : bank_item) : ST bank_queue unit := fun q =>
  if bank_full W q
  then (mkBank (memory_bank_queue q) (memory_bank_queue_dropped q + 1), Raise (HTTPException 503 "memory write queue full"))
  else (mkBank (memory_bank_queue q ++ [item]) (memory_bank_queue_dropped q), Ok tt).

(** ** The rollup buffer of hot files *)

Record rollup_item := mkRollupItem {
  r_project : string; r_file : string; r_summary : string; r_topic_path : string; r_topic_tags : list string;
  r_content_hash : string; r_content_length : Z; r_letta_session : option string; r_letta_admit : bool;
  r_letta_context : dict; r_qdrant_collection : string }.

(** An entry keeps the last item with the project and file of the first. *)
Record rollup_entry := mkEntry {
  e_project : string; e_file : string; e_last : rollup_item;
  events_since_flush : Z; bytes_since_flush : Z; first_seen_at : string; last_seen_at : string;
  last_flush_monotonic : Z; last_seen_monotonic : Z }.

(** [hot_memory_rollup_health] *)
Record rollup_health := mkRollupHealth {
  pendingKeys : Z; totalBuffered : Z; totalFlushed : Z; totalSkippedUnchanged : Z;
  lastFlushAt : option string; lastFlushCount : Z; lastFlushError : option string }.

Record rollup_buffer := mkRollups {
  hot_memory_rollup_entries : list (string * rollup_entry); hot_memory_rollup_health : rollup_health }.

Definition empty_rollups : rollup_buffer := mkRollups [] (mkRollupHealth 0 0 0 0 None 0 None).

Definition rollup_key (project file : string) : string := project +:+ ":" +:+ file.

(** The entries with the item buffered. *)
Definition buffer_item (now monotonic : Z) (item : rollup_item) (entries : list (string * rollup_entry))
  : list (string * rollup_entry) :=
  let key := rollup_key (r_project item) (r_file item) in
  let now_iso := _utc_now now in
  let entry := match clookup key entries with
               | Some e => e
               | None => mkEntry (r_project item) (r_file item) item 0 0 now_iso now_iso 0 monotonic
               end in
  cset key (mkEntry (e_project entry) (e_file entry) item (events_since_flush entry + 1)
              (bytes_since_flush entry + r_content_length item) (first_seen_at entry) now_iso
              (last_flush_monotonic entry) monotonic) entries.

Definition enqueue_hot_memory_rollup (now monotonic : Z) (item : rollup_item) (b : rollup_buffer) : rollup_buffer :=
  let entries := buffer_item now monotonic item (hot_memory_rollup_entries b) in
  let h := hot_memory_rollup_health b in
  mkRollups entries
    (mkRollupHealth (Z.of_nat (length entries)) (totalBuffered h + 1) (totalFlushed h) (totalSkippedUnchanged h)
       (lastFlushAt h) (lastFlushCount h) (lastFlushError h)).

(** [json.dumps(payload, ensure_ascii=True, sort_keys=True)] *)
Definition build_hot_memory_rollup_content (now : Z) (e : rollup_entry) : string :=
  let l := e_last e in
  dumps (JObj
    [("bytes_since_last_rollup", JInt (bytes_since_flush e)); ("events_since_last_rollup", JInt (events_since_flush e));
     ("first_seen_at", JStr (first_seen_at e)); ("kind", JStr "high_frequency_rollup");
     ("last_seen_at", JStr (last_seen_at e)); ("project", JStr (e_project e));
     ("rollup_generated_at", JStr (_utc_now now)); ("source_content_sha256", JStr (r_content_hash l));
     ("source_file", JStr (e_file e)); ("source_size_bytes", JInt (r_content_length l));
     ("summary", JStr (r_summary l)); ("topic_path", JStr (r_topic_path l));
     ("topic_tags", JList (map JStr (r_topic_tags l)))]).

Section flush.
Variable W : write_config.
Variables (now monotonic : Z) (force : bool).
Variable uuid : nat -> string.

Definition is_due (e : rollup_entry) : bool :=
  let interval := Z.max us_per_sec (HOT_MEMORY_ROLLUP_FLUSH_SECS W) in
  (0 <? events_since_flush e) &&
  (force || (last_flush_monotonic e <=? 0) || (interval <=? monotonic - last_flush_monotonic e)).

Definition reset_entry (e : rollup_entry) : rollup_entry :=
  mkEntry (e_project e) (e_file e) (e_last e) 0 0 (first_seen_at e) (last_seen_at e) monotonic (last_seen_monotonic e).

(** The counters of a flush that failed are added back. *)
Definition restore_entry (snapshot e : rollup_entry) : rollup_entry :=
  mkEntry (e_project e) (e_file e) (e_last e) (events_since_flush e + events_since_flush snapshot)
    (bytes_since_flush e + bytes_since_flush snapshot) (first_seen_at e) (last_seen_at e)
    (last_flush_monotonic e) (last_seen_monotonic e).

(** [d.update({...})] *)
Definition update_dict (d d' : dict) : dict := fold_left (fun acc kv => dset (fst kv) (snd kv) acc) d' d.

Definition rollup_bank_item (event_id : string) (e : rollup_entry) : result bank_item :=
  let! rollup_file := build_hot_memory_rollup_file (HOT_MEMORY_ROLLUP_SUFFIX W) (e_file e) in
  let l := e_last e in
  Ok (mkBankItem (e_project e) (e_file e)
        [("projectName", JStr (e_project e)); ("fileName", JStr rollup_file);
         ("content", JStr (build_hot_memory_rollup_content now e))]
        (take 400 (r_summary l)) (r_topic_path l) (r_topic_tags l) (r_content_length l)
        (r_letta_session l) (r_letta_admit l)
        (Some (update_dict (r_letta_context l)
           [("project", JStr (e_project e)); ("file", JStr (e_file e)); ("topic_path", JStr (r_topic_path l));
            ("rollup_file", JStr rollup_file); ("source_kind", JStr "high_frequency_rollup")]))
        false None (Some "hot-rollup") event_id None true
        (str_or (r_qdrant_collection l) (QDRANT_COLLECTION W))).

(** One pending entry: queue its rollup, or add its counters back and answer
    the failure. *)
Definition flush_one (n : nat) (key : string) (snapshot : rollup_entry)
    (s : list (string * rollup_entry) * bank_queue) : (list (string * rollup_entry) * bank_queue) * option string :=
  let '(entries, q) := s in
  let failed q exc := ((match clookup key entries with
                        | Some e => cset key (restore_entry snapshot e) entries
                        | None => entries
                        end, q), Some (key +:+ ": " +:+ exn_str exc)) in
  match rollup_bank_item (uuid n) snapshot with
  | Raise exc => failed q exc
  | Ok item => match _enqueue_memory_bank_write W item q with
               | (q', Ok _) => ((entries, q'), None)
               | (q', Raise exc) => failed q' exc
               end
  end.

(** The number of rollups queued, and the failures. *)
Fixpoint flush_pending (n : nat) (pending : list (string * rollup_entry))
    (s : list (string * rollup_entry) * bank_queue) : (list (string * rollup_entry) * bank_queue) * (Z * list string) :=
  match pending with
  | [] => (s, (0, []))
  | (key, snapshot) :: pending' =>
      let '(s', failure) := flush_one n key snapshot s in
      let '(s'', (flushed, failures)) := flush_pending (S n) pending' s' in
      (s'', match failure with None => (flushed + 1, failures) | Some f => (flushed, f :: failures) end)
  end.

Record flush_report := mkFlushReport { flushed : Z; attempted : Z; errors : list string }.

Definition flush_hot_memory_rollups (b : rollup_buffer) (q : bank_queue) : (rollup_buffer * bank_queue) * flush_report :=
  let entries := hot_memory_rollup_entries b in
  let pending := List.filter (fun kv => is_due (snd kv)) entries in
  let entries := map (fun kv => if is_due (snd kv) then (fst kv, reset_entry (snd kv)) else kv) entries in
  let '((entries, q), (n, failures)) := flush_pending 0 pending (entries, q) in
  let h := hot_memory_rollup_health b in
  ((mkRollups entries
      (mkRollupHealth (Z.of_nat (length entries)) (totalBuffered h) (totalFlushed h + n) (totalSkippedUnchanged h)
         (Some (_utc_now now)) n
         (match failures with [] => None | _ => Some (join "; " (firstn 3 failures)) end)), q),
   mkFlushReport n (Z.of_nat (length pending)) (firstn 10 failures)).
End flush.

(** ** The topic tree *)

Inductive topic_node := Node (count : Z) (children : list (string * topic_node)).

Definition node_count (n : topic_node) : Z := let '(Node c _) := n in c.
Definition node_children (n : topic_node) : list (string * topic_node) := let '(Node _ ch) := n in ch.

(** Count one write at the node and along the segments. *)
Fixpoint count_path (segments : list string) (n : topic_node) : topic_node :=
  match segments with
  | [] => Node (node_count n + 1) (node_children n)
  | seg :: segments' =>
      let child := match clookup seg (node_children n) with Some c => c | None => Node 0 [] end in
      Node (node_count n + 1) (cset seg (count_path segments' child) (node_children n))
  end.

Definition _update_topic_tree (project topic_path : string) (tree : list (string * topic_node))
  : list (string * topic_node) :=
  let segments := List.filter truthy (split slash topic_path) in
  let project_node := match clookup project tree with Some n => n | None => Node 0 [] end in
  cset project (count_path segments project_node) tree.

(** The tree as JSON, cut at a depth: a node at the cut has no children key. *)
Fixpoint _truncate_topic_tree (depth : nat) (n : topic_node) : json :=
  match depth with
  | O => JObj [("count", JInt (node_count n))]
  | S depth' =>
      JObj [("count", JInt (node_count n));
            ("children", JObj (map (fun kv => (fst kv, _truncate_topic_tree depth' (snd kv))) (node_children n)))]
  end.
