(* ===== verification/WriteBufferFacts.v ===== *)
(** * Properties of the buffers of the write path *)

From S2P Require Import Prelude PyStr PyTime Json JsonText Paths OutboxMaint WriteBuffer.
Open Scope Z_scope.

(** ** Dictionaries *)

Section dicts.
Context {A : Type}.
Implicit Types (d : list (string * A)).

Lemma clookup_cset k v k' d : clookup k' (cset k v d) = if k' =s k then Some v else clookup k' d.
Proof.
  induction d as [|[k0 v0] d IH]; cbn; [by destruct (k' =s k)|].
  destruct (k =s k0) eqn:E; cbn.
  - blift. subst. by destruct (k' =s k0).
  - rewrite IH. destruct (k' =s k0) eqn:E0, (k' =s k) eqn:E1; try done. blift. congruence.
Qed.

Lemma cset_keys k v d : map fst (cset k v d) = if mem_str k (map fst d) then map fst d else map fst d ++ [k].
Proof.
  induction d as [|[k0 v0] d IH]; cbn; [done|]. destruct (k =s k0) eqn:E; cbn; [done|].
  rewrite IH. unfold mem_str. by destruct (existsb _ _).
Qed.

Lemma cset_NoDup k v d : List.NoDup (map fst d) -> List.NoDup (map fst (cset k v d)).
Proof.
  intros Hd. rewrite cset_keys. destruct (mem_str k (map fst d)) eqn:E; [done|].
  apply mem_str_false in E. apply List.NoDup_app; [done|repeat constructor; by intros []|].
  intros x Hx [<-|[]]. done.
Qed.

Lemma cset_new k v d : ~ In k (map fst d) -> cset k v d = d ++ [(k, v)].
Proof.
  induction d as [|[k0 v0] d IH]; cbn; [done|]. intros Hn. destruct (k =s k0) eqn:E; [blift; naive_solver|].
  f_equal. apply IH. tauto.
Qed.

Lemma cset_In k v d x : In x (cset k v d) -> x = (k, v) \/ In x d.
Proof.
  induction d as [|[k0 v0] d IH]; cbn; [naive_solver|]. destruct (k =s k0) eqn:E; cbn; [|naive_solver].
  blift. naive_solver.
Qed.

Lemma cset_length k v d : length (cset k v d) = if mem_str k (map fst d) then length d else S (length d).
Proof.
  rewrite <- (length_map fst), cset_keys. destruct (mem_str _ _); [apply length_map|].
  rewrite length_app, length_map. cbn. lia.
Qed.

Lemma clookup_In k v d : clookup k d = Some v -> In (k, v) d.
Proof.
  induction d as [|[k0 v0] d IH]; cbn; [done|]. destruct (k =s k0) eqn:E; [|auto].
  blift. intros [= ->]. subst. by left.
Qed.

Lemma clookup_NoDup k v d : List.NoDup (map fst d) -> In (k, v) d -> clookup k d = Some v.
Proof.
  induction d as [|[k0 v0] d IH]; cbn; [done|]. intros [Hn Hd]%List.NoDup_cons_iff [[= <- <-]|Hin].
  - by rewrite String.eqb_refl.
  - destruct (k =s k0) eqn:E; [|auto]. blift. subst. destruct Hn. by apply (in_map fst) in Hin.
Qed.

Lemma clookup_filter p k d : List.NoDup (map fst d) ->
  clookup k (List.filter p d) = match clookup k d with Some v => if p (k, v) then Some v else None | None => None end.
Proof.
  induction d as [|[k0 v0] d IH]; cbn; [done|]. intros [Hn Hd]%List.NoDup_cons_iff.
  specialize (IH Hd). destruct (p (k0, v0)) eqn:Ep; cbn; destruct (k =s k0) eqn:E; try done; blift; subst.
  - by rewrite Ep.
  - rewrite IH, Ep. destruct (clookup k0 d) as [v|] eqn:El; [|done]. apply clookup_In in El.
    destruct Hn. by apply (in_map fst) in El.
Qed.
End dicts.

(** ** The window of recent writes *)

Lemma insert_by_last x l k : older x k = true -> insert_by older x (l ++ [k]) = insert_by older x l ++ [k].
Proof.
  intros Hx. induction l as [|y l IH]; cbn; [by rewrite Hx|]. destruct (older x y); [done|]. cbn. by rewrite IH.
Qed.

(** A stable sort leaves a newest last entry last. *)
Lemma sort_by_last l k : (forall x, In x l -> older x k = true) -> sort_by older (l ++ [k]) = sort_by older l ++ [k].
Proof.
  induction l as [|x l IH]; cbn; intros Hl; [done|]. rewrite IH by auto. apply insert_by_last. auto.
Qed.

Lemma filter_length_lt {A} (f : A -> bool) l x : In x l -> f x = false -> (length (List.filter f l) < length l)%nat.
Proof.
  intros Hin Hf. pose proof (filter_length_split f l) as Hs.
  assert (In x (List.filter (fun y => negb (f y)) l)) as Hx by (apply filter_In; by rewrite Hf).
  destruct (List.filter (fun y => negb (f y)) l); [done|]. cbn in Hs. lia.
Qed.

Section window.
Variable W : write_config.
Abbreviation skip := (should_skip_duplicate_memory_write W).
Abbreviation window := (Z.max 0 (MEMORY_WRITE_DEDUP_WINDOW_SECS W)).
Abbreviation max_keys := (Z.max 100 (MEMORY_WRITE_DEDUP_MAX_KEYS W)).

(** Keys are unique, the window is bounded, and no entry is from the future. *)
Definition seen_ok (now : Z) (seen : list (string * Z)) : Prop :=
  List.NoDup (map fst seen) /\ Z.of_nat (length seen) <= max_keys /\ (forall k t, In (k, t) seen -> t <= now).

Lemma skip_In key now seen k t : In (k, t) (fst (skip key now seen)) -> (k, t) = (key, now) \/ In (k, t) seen.
Proof.
  unfold should_skip_duplicate_memory_write. destruct (negb _); [auto|]. destruct (_ <=? 0); [auto|]. cbn zeta. cbn [fst].
  intros Hin. assert (In (k, t) (cset key now (List.filter (fun kv => negb (snd kv <? now - window)) seen))) as Hc.
  { destruct (max_keys <? _); [by apply filter_In in Hin as [? _]|done]. }
  apply cset_In in Hc as [->|[? _]%filter_In]; auto.
Qed.

Lemma skip_result key now seen : List.NoDup (map fst seen) -> snd (skip key now seen) = true ->
  exists t, In (key, t) seen /\ now - t <= window.
Proof.
  intros Hd. unfold should_skip_duplicate_memory_write. destruct (negb _); [done|]. destruct (_ <=? 0); [done|].
  cbn zeta. cbn [snd]. destruct (clookup key _) as [t|] eqn:El; [|done]. intros Hle%Z.leb_le.
  apply clookup_In, filter_In in El as [Hin _]. eauto.
Qed.

Lemma skip_keys_NoDup key now seen : List.NoDup (map fst seen) -> List.NoDup (map fst (fst (skip key now seen))).
Proof.
  intros Hd. unfold should_skip_duplicate_memory_write. destruct (negb _); [done|]. destruct (_ <=? 0); [done|].
  cbn zeta. cbn [fst]. assert (List.NoDup (map fst (cset key now
    (List.filter (fun kv => negb (snd kv <? now - window)) seen)))) as Hc by (by apply cset_NoDup, NoDup_map_filter).
  destruct (max_keys <? _); [by apply NoDup_map_filter|done].
Qed.

(** An active window keeps its bounds and the write it has just seen. *)
Lemma skip_keeps key now seen : MEMORY_WRITE_DEDUP_ENABLED W = true -> 0 < MEMORY_WRITE_DEDUP_WINDOW_SECS W ->
  seen_ok now seen -> seen_ok now (fst (skip key now seen)) /\ In (key, now) (fst (skip key now seen)).
Proof.
  intros He Hw (Hd & Hl & Ht). pose proof (skip_keys_NoDup key now seen Hd) as Hd'.
  assert (forall k t, In (k, t) (fst (skip key now seen)) -> t <= now) as Ht'.
  { intros k t [[= -> ->]|Hin]%skip_In; [lia|eauto]. }
  revert Hd' Ht'. unfold should_skip_duplicate_memory_write. rewrite He. cbn [negb].
  replace (window <=? 0) with false by (symmetry; apply Z.leb_gt; lia). cbn zeta. cbn [fst].
  set (live := List.filter _ seen). intros Hd' Ht'.
  assert (List.NoDup (map fst live)) as Hdl by (by apply NoDup_map_filter).
  assert (length live <= length seen)%nat as Hll by (apply filter_length_le).
  assert (In (key, now) (cset key now live)) as Hin.
  { apply clookup_In. by rewrite clookup_cset, String.eqb_refl. }
  pose proof (cset_length key now live) as Hcl.
  destruct (max_keys <? Z.of_nat (length (cset key now live))) eqn:Eo; blift; [|by repeat split].
  destruct (mem_str key (map fst live)) eqn:Em; [lia|]. apply mem_str_false in Em.
  rewrite (cset_new key now live Em) in *. rewrite length_app in *. cbn [length] in *.
  assert (Z.to_nat (Z.of_nat (length live + 1) - max_keys) = 1%nat) as E1 by (clearbody live; lia).
  rewrite E1 in *. clear E1.
  assert (forall x, In x live -> older x (key, now) = true) as Hold.
  { intros [k t] [Hx _]%filter_In. apply Z.leb_le. cbn. eauto. }
  rewrite sort_by_last in * by done.
  destruct (sort_by older live) as [|[k0 t0] rest] eqn:Es.
  { apply (f_equal length) in Es. rewrite sort_by_length in Es. cbn in Es. lia. }
  change (map fst (firstn 1 (((k0, t0) :: rest) ++ [(key, now)]))) with [k0] in *.
  assert (In (k0, t0) live) as Hk0 by (apply (sort_by_In older); rewrite Es; by left).
  assert (forall kv : string * Z, mem_str (fst kv) [k0] = (fst kv =s k0)) as Hmem.
  { intros kv. unfold mem_str. cbn. by rewrite orb_false_r. }
  split; [split; [done|split; [|done]]|].
  - enough (length (List.filter (fun kv => negb (mem_str (fst kv) [k0])) (live ++ [(key, now)])) <
      length (live ++ [(key, now)]))%nat as Hlt by (rewrite length_app in Hlt; cbn [length] in Hlt; lia).
    apply (filter_length_lt _ _ (k0, t0)); [apply in_or_app; by left|]. rewrite Hmem. cbn. by rewrite String.eqb_refl.
  - apply filter_In. split; [done|]. rewrite Hmem. cbn. apply negb_true_iff, String.eqb_neq.
    intros ->. apply Em. by apply (in_map fst) in Hk0.
Qed.

(** A write in the window is suppressed. *)
Lemma skip_known key now now2 seen : MEMORY_WRITE_DEDUP_ENABLED W = true -> 0 < MEMORY_WRITE_DEDUP_WINDOW_SECS W ->
  List.NoDup (map fst seen) -> In (key, now) seen -> now2 - now <= MEMORY_WRITE_DEDUP_WINDOW_SECS W ->
  snd (skip key now2 seen) = true.
Proof.
  intros He Hw Hd Hin Hwin. unfold should_skip_duplicate_memory_write. rewrite He. cbn [negb].
  replace (window <=? 0) with false by (symmetry; apply Z.leb_gt; lia).
  cbn zeta. cbn [snd]. rewrite clookup_filter by done. rewrite (clookup_NoDup key now seen Hd Hin). cbn [snd].
  replace (now <? now2 - window) with false by (symmetry; apply Z.ltb_ge; lia). cbn [negb]. apply Z.leb_le. lia.
Qed.

(** A run of writes: the answers in order. *)
Fixpoint run_window (calls : list (string * Z)) (seen : list (string * Z)) : list bool :=
  match calls with
  | [] => []
  | (key, now) :: calls' => let '(seen', b) := skip key now seen in b :: run_window calls' seen'
  end.

Lemma run_window_sound calls before seen i key now :
  List.NoDup (map fst seen) -> (forall k t, In (k, t) seen -> In (k, t) before) ->
  nth_error calls i = Some (key, now) -> nth_error (run_window calls seen) i = Some true ->
  exists t, In (key, t) (before ++ firstn i calls) /\ now - t <= window.
Proof.
  revert before seen i. induction calls as [|[k n] calls IH]; intros before seen i Hd Hb; [by destruct i|].
  cbn [run_window]. pose proof (skip_keys_NoDup k n seen Hd) as Hd'. pose proof (skip_In k n seen) as Hin'.
  pose proof (skip_result k n seen Hd) as Hr. destruct (skip k n seen) as [seen' b]. cbn [fst snd] in *.
  destruct i as [|i]; cbn [nth_error].
  - intros [= <- <-] [= ->]. destruct (Hr eq_refl) as (t & Ht & Hle). exists t. rewrite app_nil_r. auto.
  - intros Hc Ha. destruct (IH (before ++ [(k, n)]) seen' i Hd') as (t & Ht & Hle); [|done|done|].
    + intros k' t' [->|?]%Hin'; apply in_or_app; cbn; auto.
    + exists t. split; [|done]. by rewrite <- app_assoc in Ht.
Qed.
End window.

(** ** The latest hash *)

Lemma evict_spec fuel max_keys key h d :
  2 <= max_keys -> Z.of_nat (length d) <= max_keys + Z.of_nat fuel ->
  List.NoDup (map fst d) -> clookup key d = Some h ->
  let d' := evict_hashes fuel max_keys key h d in
  Z.of_nat (length d') <= max_keys /\ List.NoDup (map fst d') /\ clookup key d' = Some h /\ incl d' d.
Proof.
  intros Hm. revert d. induction fuel as [|fuel IH]; intros d Hf Hd Hk; cbn zeta.
  { cbn. repeat split; [lia|done|done|apply incl_refl]. }
  destruct d as [|[k0 v] rest]; [done|]. cbn [evict_hashes].
  destruct (Z.of_nat (length ((k0, v) :: rest)) <=? max_keys) eqn:El; blift.
  { repeat split; [lia|done|done|apply incl_refl]. }
  cbn [map fst length] in *. apply List.NoDup_cons_iff in Hd as [Hn Hd]. cbn [clookup] in Hk.
  destruct (k0 =s key) eqn:E0.
  - blift. subst k0. rewrite String.eqb_refl in Hk. destruct rest as [|[k1 v1] rest]; [cbn in *; lia|].
    cbn [map fst length] in *. apply List.NoDup_cons_iff in Hd as [Hn1 Hd].
    destruct (IH ((key, v) :: rest)) as (H1 & H2 & H3 & H4).
    + cbn [length]. lia.
    + constructor; [|done]. intros Hx. apply Hn. by right.
    + cbn. by rewrite String.eqb_refl.
    + repeat split; [done..|]. intros x Hx. destruct (H4 x Hx) as [<-|Hr]; [by left|]. by do 2 right.
  - rewrite String.eqb_sym, E0 in Hk. destruct (IH rest) as (H1 & H2 & H3 & H4); [lia|done|done|].
    repeat split; [done..|]. intros x Hx. right. auto.
Qed.

(** ** The rollup buffer *)

Section sums.
Variable f : rollup_entry -> Z.

Fixpoint total (d : list (string * rollup_entry)) : Z :=
  match d with [] => 0 | (_, e) :: d' => f e + total d' end.

Lemma total_cset k v d : total (cset k v d) = total d + f v - match clookup k d with Some e => f e | None => 0 end.
Proof.
  induction d as [|[k0 v0] d IH]; cbn; [lia|]. destruct (k =s k0); cbn; [lia|]. rewrite IH. lia.
Qed.

Hypothesis f_reset : forall m e, f (reset_entry m e) = 0.
Hypothesis f_restore : forall snap e, f (restore_entry snap e) = f e + f snap.

Fixpoint sum (l : list rollup_entry) : Z :=
  match l with [] => 0 | e :: l' => f e + sum l' end.

Lemma total_reset (p : rollup_entry -> bool) m (d : list (string * rollup_entry)) :
  total d = total (map (fun kv => if p (snd kv) then (fst kv, reset_entry m (snd kv)) else kv) d)
            + sum (map snd (List.filter (fun kv => p (snd kv)) d)).
Proof.
  induction d as [|[k e] d IH]; cbn; [done|]. destruct (p e) eqn:Ep; cbn; rewrite IH; [rewrite f_reset|]; lia.
Qed.

Lemma restore_total key snapshot entries : In key (map fst entries) ->
  let entries' := match clookup key entries with
                  | Some e => cset key (restore_entry snapshot e) entries
                  | None => entries
                  end in
  map fst entries' = map fst entries /\ total entries' = total entries + f snapshot.
Proof.
  intros Hin. cbn zeta. destruct (clookup key entries) as [e|] eqn:El.
  - rewrite cset_keys, total_cset, El, f_restore. split; [|lia]. by apply mem_str_In in Hin as ->.
  - exfalso. clear -Hin El. induction entries as [|[k0 v0] d IH]; cbn in *; [done|].
    destruct (key =s k0) eqn:E; [done|]. blift. naive_solver.
Qed.
End sums.

Section flush.
Variable W : write_config.
Variables (now monotonic : Z) (force : bool).
Variable uuid : nat -> string.

(** The bank items are rollups of the accepted entries. *)
Definition rollups_of (accepted : list rollup_entry) (items : list bank_item) : Prop :=
  List.Forall2 (fun e item => exists n, rollup_bank_item W now (uuid n) e = Ok item) accepted items.

Lemma flush_one_spec n key snapshot entries q : In key (map fst entries) ->
  let '((entries', q'), failure) := flush_one W now uuid n key snapshot (entries, q) in
  map fst entries' = map fst entries /\
  exists accepted items, memory_bank_queue q' = memory_bank_queue q ++ items /\ rollups_of accepted items /\
    match failure with None => 1 | Some _ => 0 end = Z.of_nat (length accepted) /\ (forall e, In e accepted -> e = snapshot) /\
    forall f, (forall snap e, f (restore_entry snap e) = f e + f snap) ->
      total f entries + f snapshot = total f entries' + sum f accepted.
Proof.
  intros Hin. unfold flush_one.
  assert (forall q', memory_bank_queue q' = memory_bank_queue q ->
    let entries' := match clookup key entries with
                    | Some e => cset key (restore_entry snapshot e) entries | None => entries end in
    map fst entries' = map fst entries /\
    exists accepted items, memory_bank_queue q' = memory_bank_queue q ++ items /\ rollups_of accepted items /\
      0 = Z.of_nat (length accepted) /\ (forall e, In e accepted -> e = snapshot) /\
      forall f, (forall snap e, f (restore_entry snap e) = f e + f snap) ->
        total f entries + f snapshot = total f entries' + sum f accepted) as Hfail.
  { intros q' Hq. cbn zeta. split.
    - by apply (restore_total (fun e => events_since_flush e)).
    - exists [], []. rewrite app_nil_r. repeat split; [done|constructor|done|]. intros f Hf.
      destruct (restore_total f Hf key snapshot entries Hin) as [_ ->]. cbn. lia. }
  destruct (rollup_bank_item W now (uuid n) snapshot) as [item|e] eqn:Ei; [|by apply Hfail].
  unfold _enqueue_memory_bank_write. destruct (bank_full W q); [by apply Hfail|].
  split; [done|]. exists [snapshot], [item]. repeat split; [constructor; [by exists n|constructor]|by intros e [<-|[]]|].
  intros f _. cbn. lia.
Qed.

Lemma flush_pending_spec pending n entries q : (forall kv, In kv pending -> In (fst kv) (map fst entries)) ->
  let '((entries', q'), (n_flushed, failures)) := flush_pending W now uuid n pending (entries, q) in
  map fst entries' = map fst entries /\
  exists accepted items, memory_bank_queue q' = memory_bank_queue q ++ items /\ rollups_of accepted items /\
    n_flushed = Z.of_nat (length accepted) /\ length pending = (length accepted + length failures)%nat /\
    (forall e, In e accepted -> In e (map snd pending)) /\
    forall f, (forall snap e, f (restore_entry snap e) = f e + f snap) ->
      total f entries + sum f (map snd pending) = total f entries' + sum f accepted.
Proof.
  revert n entries q. induction pending as [|[key snapshot] pending IH]; intros n entries q Hin; cbn [flush_pending].
  { split; [done|]. exists [], []. rewrite app_nil_r. repeat split; [constructor|by intros ? []]. }
  pose proof (flush_one_spec n key snapshot entries q) as H1.
  destruct (flush_one W now uuid n key snapshot (entries, q)) as [[entries1 q1] failure].
  destruct H1 as (K1 & a1 & i1 & Q1 & R1 & L1 & S1 & T1); [apply (Hin (key, snapshot)); by left|].
  specialize (IH (S n) entries1 q1). destruct (flush_pending W now uuid (S n) pending (entries1, q1)) as [[entries2 q2] [fl failures]].
  destruct IH as (K2 & a2 & i2 & Q2 & R2 & L2 & N2 & S2 & T2); [intros kv Hkv; rewrite K1; apply Hin; by right|].
  assert (forall f l1 l2, sum f (l1 ++ l2) = sum f l1 + sum f l2) as Hs.
  { intros f l1 l2. induction l1 as [|x l1 IHl]; cbn; [done|]. rewrite IHl. lia. }
  assert (map fst entries2 = map fst entries /\ memory_bank_queue q2 = memory_bank_queue q ++ i1 ++ i2 /\
    rollups_of (a1 ++ a2) (i1 ++ i2) /\
    (forall e, In e (a1 ++ a2) -> In e (map snd ((key, snapshot) :: pending))) /\
    forall f, (forall snap e, f (restore_entry snap e) = f e + f snap) ->
      total f entries + sum f (map snd ((key, snapshot) :: pending)) = total f entries2 + sum f (a1 ++ a2)) as (G1 & G2 & G3 & G4 & G5).
  { split; [congruence|]. split; [by rewrite Q2, Q1, app_assoc|]. split; [by apply List.Forall2_app|]. split.
    - intros e [He|He]%in_app_or; [left; symmetry; by apply S1|right; by apply S2].
    - intros f Hf. specialize (T1 f Hf). specialize (T2 f Hf). rewrite Hs. cbn. lia. }
  destruct failure; (split; [done|]; exists (a1 ++ a2), (i1 ++ i2); do 2 (split; [done|]);
    rewrite length_app; cbn [length]; do 2 (split; [lia|]); done).
Qed.
End flush.

(** ** The topic tree *)

(** The count at a path; paths without a node count nothing. *)
Fixpoint count_at (path : list string) (n : topic_node) : Z :=
  match path with
  | [] => node_count n
  | seg :: path' => match clookup seg (node_children n) with Some c => count_at path' c | None => 0 end
  end.

Fixpoint is_prefix (p l : list string) : bool :=
  match p, l with
  | [], _ => true
  | x :: p', y :: l' => (x =s y) && is_prefix p' l'
  | _, [] => false
  end.

Lemma count_at_empty p : count_at p (Node 0 []) = 0.
Proof. by destruct p. Qed.

Lemma count_path_spec segments n p :
  count_at p (count_path segments n) = count_at p n + if is_prefix p segments then 1 else 0.
Proof.
  revert n p. induction segments as [|s segments IH]; intros n p; destruct p as [|x p]; cbn; try lia.
  rewrite clookup_cset. destruct (x =s s) eqn:E; cbn [andb]; [|lia]. blift. subst x. rewrite IH.
  destruct (clookup s (node_children n)); [done|]. rewrite count_at_empty. lia.
Qed.

Definition tree_count (project : string) (path : list string) (tree : list (string * topic_node)) : Z :=
  match clookup project tree with Some n => count_at path n | None => 0 end.

(** ** Properties *)

(** The window suppresses only repeated writes: in any run of writes from
    start-up, a suppressed write repeats the key of an earlier write of the
    run that is at most a window old. *)
Theorem window_suppresses_only_repeats W calls i key now :
  nth_error calls i = Some (key, now) -> nth_error (run_window W calls []) i = Some true ->
  exists j t, (j < i)%nat /\ nth_error calls j = Some (key, t) /\ now - t <= Z.max 0 (MEMORY_WRITE_DEDUP_WINDOW_SECS W).
Proof.
  intros Hc Hr. destruct (run_window_sound W calls [] [] i key now) as (t & Ht & Hle); [constructor|done|done|done|].
  cbn [app] in Ht. apply In_nth_error in Ht as [j Hj].
  assert (j < length (firstn i calls))%nat as Hl by (apply nth_error_Some; by rewrite Hj).
  exists j, t. rewrite length_firstn in Hl. split; [lia|]. split; [|done].
  rewrite <- Hj, nth_error_firstn. replace (j <? i)%nat with true; [done|]. symmetry. apply Nat.ltb_lt. lia.
Qed.

(** The window remembers: with time not running backwards it stays within
    its bound, and a write repeated within the window is suppressed, however
    full the window is. *)
Theorem window_suppresses_repeat W key now now2 seen :
  MEMORY_WRITE_DEDUP_ENABLED W = true -> 0 < MEMORY_WRITE_DEDUP_WINDOW_SECS W -> seen_ok W now seen ->
  now <= now2 -> now2 - now <= MEMORY_WRITE_DEDUP_WINDOW_SECS W ->
  let seen' := fst (should_skip_duplicate_memory_write W key now seen) in
  seen_ok W now2 seen' /\ snd (should_skip_duplicate_memory_write W key now2 seen') = true.
Proof.
  intros He Hw Hok Hle Hwin. cbn zeta. destruct (skip_keeps W key now seen He Hw Hok) as [(Hd & Hl & Ht) Hin].
  split; [split; [done|split; [done|]]; intros k t Hkt; specialize (Ht k t Hkt); lia|].
  by apply (skip_known W key now).
Qed.

(** The latest-hash test is exact and bounded: it answers whether the
    recorded hash of the file is this one, records this one, invents nothing
    and never holds more files than its limit. *)
Theorem latest_hash_exact W project file_name h d :
  MEMORY_WRITE_LATEST_HASH_DEDUP_ENABLED W = true -> List.NoDup (map fst d) ->
  Z.of_nat (length d) <= Z.max 1000 (MEMORY_WRITE_LATEST_HASH_DEDUP_MAX_KEYS W) ->
  let key := project +:+ ":" +:+ file_name in
  let '(d', unchanged) := should_skip_unchanged_latest_hash W project file_name h d in
  (unchanged = true <-> clookup key d = Some h) /\ clookup key d' = Some h /\
  (forall k v, In (k, v) d' -> (k, v) = (key, h) \/ In (k, v) d) /\ List.NoDup (map fst d') /\
  Z.of_nat (length d') <= Z.max 1000 (MEMORY_WRITE_LATEST_HASH_DEDUP_MAX_KEYS W).
Proof.
  intros He Hd Hl. cbn zeta. unfold should_skip_unchanged_latest_hash. rewrite He. cbn [negb].
  set (key := project +:+ ":" +:+ file_name). set (max_keys := Z.max 1000 _) in *.
  destruct (evict_spec (length (cset key h d)) max_keys key h (cset key h d)) as (H1 & H2 & H3 & H4);
    [lia|lia|by apply cset_NoDup|by rewrite clookup_cset, String.eqb_refl|].
  repeat split; [| |done| |done|done].
  - destruct (clookup key d) as [h0|]; [|done]. intros ->%String.eqb_eq. done.
  - intros ->. apply String.eqb_refl.
  - intros k v Hkv. apply H4, cset_In in Hkv. done.
Qed.

(** C39: no buffered write of a hot file is lost or counted twice: a buffered
    write adds one to the buffer; a flush moves counters from the buffer to
    the rollups it queues, and when the queue refuses one its counters are
    back in the buffer. *)
Theorem rollup_buffer_conserves W now monotonic force uuid item b q :
  let events b := total events_since_flush (hot_memory_rollup_entries b) in
  let bytes b := total bytes_since_flush (hot_memory_rollup_entries b) in
  let buffered := enqueue_hot_memory_rollup now monotonic item b in
  events buffered = events b + 1 /\ bytes buffered = bytes b + r_content_length item /\
  let '((b', q'), report) := flush_hot_memory_rollups W now monotonic force uuid b q in
  exists accepted items,
    memory_bank_queue q' = memory_bank_queue q ++ items /\ rollups_of W now uuid accepted items /\
    flushed report = Z.of_nat (length accepted) /\ flushed report <= attempted report /\
    (errors report = [] <-> flushed report = attempted report) /\
    (forall e, In e accepted -> In e (map snd (hot_memory_rollup_entries b))) /\
    events b = events b' + sum events_since_flush accepted /\
    bytes b = bytes b' + sum bytes_since_flush accepted /\
    map fst (hot_memory_rollup_entries b') = map fst (hot_memory_rollup_entries b).
Proof.
  cbn zeta. unfold enqueue_hot_memory_rollup, buffer_item. cbn [hot_memory_rollup_entries]. rewrite !total_cset.
  split; [destruct (clookup _ _); cbn; lia|]. split; [destruct (clookup _ _); cbn; lia|].
  unfold flush_hot_memory_rollups. set (entries := hot_memory_rollup_entries b). set (due := is_due W monotonic force).
  set (pending := List.filter _ entries). set (entries1 := map _ entries).
  assert (map fst entries1 = map fst entries) as Hk.
  { unfold entries1. rewrite List.map_map. apply List.map_ext. intros kv. by destruct (due (snd kv)). }
  pose proof (flush_pending_spec W now uuid pending 0 entries1 q) as Hf.
  destruct (flush_pending W now uuid 0 pending (entries1, q)) as [[entries2 q2] [fl failures]].
  destruct Hf as (K2 & acc & items & Q2 & R2 & L2 & N2 & S2 & T2).
  { intros kv [Hin _]%filter_In. rewrite Hk. by apply in_map. }
  exists acc, items. cbn [flushed attempted errors hot_memory_rollup_entries]. split; [done|]. split; [done|]. split; [done|].
  split; [lia|]. split.
  { destruct failures as [|f fs]; cbn [length firstn] in *; [split; [lia|done]|split; [done|lia]]. }
  split.
  { intros e He. apply S2, in_map_iff in He as (kv & <- & [Hin _]%filter_In). by apply in_map. }
  pose proof (total_reset events_since_flush ltac:(done) due monotonic entries) as Te.
  pose proof (total_reset bytes_since_flush ltac:(done) due monotonic entries) as Tb.
  pose proof (T2 events_since_flush ltac:(done)). pose proof (T2 bytes_since_flush ltac:(done)).
  fold entries1 pending in Te, Tb. split; [lia|]. split; [lia|congruence].
Qed.

(** Counting a write raises by one the counts of its project and of every
    prefix of its topic path, and no other count of the tree. *)
Theorem topic_tree_counts_prefixes project topic_path tree project2 path :
  tree_count project2 path (_update_topic_tree project topic_path tree) =
    tree_count project2 path tree +
    if (project2 =s project) && is_prefix path (List.filter truthy (split slash topic_path)) then 1 else 0.
Proof.
  unfold tree_count, _update_topic_tree. rewrite clookup_cset. destruct (project2 =s project) eqn:E; cbn [andb]; [|lia].
  blift. subst. rewrite count_path_spec. destruct (clookup project tree); [done|]. rewrite count_at_empty. lia.
Qed.

(** The key of the window does not separate project and file: a file whose
    name starts with a project's tail shares its key with the file of the
    longer project name, so a write to one project suppresses a write of the
    same content to another. *)
Theorem window_key_confuses_projects W sha256 p q f content now now2 seen :
  MEMORY_WRITE_DEDUP_ENABLED W = true -> 0 < MEMORY_WRITE_DEDUP_WINDOW_SECS W -> seen_ok W now seen ->
  now <= now2 -> now2 - now <= MEMORY_WRITE_DEDUP_WINDOW_SECS W ->
  let key1 := build_memory_write_dedupe_key sha256 p (q +:+ ":" +:+ f) content in
  let key2 := build_memory_write_dedupe_key sha256 (p +:+ ":" +:+ q) f content in
  snd (should_skip_duplicate_memory_write W key2 now2 (fst (should_skip_duplicate_memory_write W key1 now seen))) = true.
Proof.
  intros He Hw (Hd & Hl & Ht) Hle Hwin. cbn zeta.
  assert (build_memory_write_dedupe_key sha256 (p +:+ ":" +:+ q) f content =
          build_memory_write_dedupe_key sha256 p (q +:+ ":" +:+ f) content) as ->.
  { unfold build_memory_write_dedupe_key. by rewrite !append_assoc. }
  set (key := build_memory_write_dedupe_key _ _ _ _).
  destruct (skip_keeps W key now seen He Hw (conj Hd (conj Hl Ht))) as [(Hd' & _ & _) Hin].
  by apply (skip_known W key now).
Qed.

(** ** Witnesses *)

Lemma window_suppresses_only_repeats_witness : exists j t, (j < 2)%nat /\
  nth_error [("a", 0); ("b", 5); ("a", us_per_sec)] j = Some ("a", t) /\
  us_per_sec - t <= Z.max 0 (MEMORY_WRITE_DEDUP_WINDOW_SECS default_write_config).
Proof.
  apply (window_suppresses_only_repeats default_write_config [("a", 0); ("b", 5); ("a", us_per_sec)] 2 "a" us_per_sec);
    vm_compute; reflexivity.
Defined.

Lemma window_suppresses_repeat_witness :
  let seen' := fst (should_skip_duplicate_memory_write default_write_config "a" 7 [("b", 5)]) in
  seen_ok default_write_config 9 seen' /\ snd (should_skip_duplicate_memory_write default_write_config "a" 9 seen') = true.
Proof.
  apply (window_suppresses_repeat default_write_config "a" 7 9 [("b", 5)]).
  - reflexivity.
  - reflexivity.
  - split; [repeat constructor; by intros []|]. split; [cbn; lia|]. intros k t [[= <- <-]|[]]. lia.
  - lia.
  - vm_compute. discriminate.
Defined.

Lemma latest_hash_exact_witness :
  let key := "p" +:+ ":" +:+ "f" in
  let '(d', unchanged) := should_skip_unchanged_latest_hash default_write_config "p" "f" "h2" [("p:f", "h1")] in
  (unchanged = true <-> clookup key [("p:f", "h1")] = Some "h2") /\ clookup key d' = Some "h2" /\
  (forall k v, In (k, v) d' -> (k, v) = (key, "h2") \/ In (k, v) [("p:f", "h1")]) /\ List.NoDup (map fst d') /\
  Z.of_nat (length d') <= Z.max 1000 (MEMORY_WRITE_LATEST_HASH_DEDUP_MAX_KEYS default_write_config).
Proof.
  apply (latest_hash_exact default_write_config "p" "f" "h2" [("p:f", "h1")]).
  - reflexivity.
  - repeat constructor. by intros [].
  - cbn. lia.
Defined.

Lemma window_key_confuses_projects_witness :
  let key1 := build_memory_write_dedupe_key (fun s => s) "p" ("q" +:+ ":" +:+ "f") "text" in
  let key2 := build_memory_write_dedupe_key (fun s => s) ("p" +:+ ":" +:+ "q") "f" "text" in
  snd (should_skip_duplicate_memory_write default_write_config key2 9
    (fst (should_skip_duplicate_memory_write default_write_config key1 7 []))) = true.
Proof.
  apply (window_key_confuses_projects default_write_config (fun s => s) "p" "q" "f" "text" 7 9 []).
  - reflexivity.
  - reflexivity.
  - split; [constructor|]. split; [cbn; lia|]. by intros k t [].
  - lia.
  - vm_compute. discriminate.
Defined.
