(* ===== verification/WriteMemory.v ===== *)
(** * The write path

    [write_memory], the handler of a memory write, and [_memory_bank_worker],
    which takes its queue to the memory bank and hands each record on to the
    fanout.  A handler runs to its end except where it waits for the worker:
    [wait] is what happens meanwhile and what the worker answers.  Requests to
    the raw store and to the memory bank go through [push]. *)

From S2P Require Import Prelude PyStr PyTime Json JsonText Paths Policy Outbox OutboxStore OutboxMaint Fanout Secrets WriteBuffer.
Open Scope Z_scope.

(** ** State *)

Record history_entry := mkHistory {
  h_timestamp : string; h_project : string; h_file : string; h_topic_path : string; h_summary : string;
  h_contentLength : Z }.

Record write_state := mkWrite {
  fan : fanout_state outbox_store; fanout_summary_cache : summary_cache; letta_admission : admission;
  memory_write_dedupe_seen : list (string * Z); memory_write_latest_hashes : list (string * string);
  rollups : rollup_buffer; bank : bank_queue;
  memory_bank_queue_processed : Z; memory_write_history : list history_entry;
  history_file : list history_entry; topic_tree : list (string * topic_node);
  memory_write_last_at : option string; memory_write_last_latency : option Z; (* microseconds *)
  waiter_results : list (string * option exn) }.

Section setters.
Implicit Types s : write_state.

Definition set_fan (x : fanout_state outbox_store) s := mkWrite x (fanout_summary_cache s) (letta_admission s)
  (memory_write_dedupe_seen s) (memory_write_latest_hashes s) (rollups s) (bank s) (memory_bank_queue_processed s)
  (memory_write_history s) (history_file s) (topic_tree s) (memory_write_last_at s) (memory_write_last_latency s)
  (waiter_results s).
Definition set_cache (x : summary_cache) s := mkWrite (fan s) x (letta_admission s)
  (memory_write_dedupe_seen s) (memory_write_latest_hashes s) (rollups s) (bank s) (memory_bank_queue_processed s)
  (memory_write_history s) (history_file s) (topic_tree s) (memory_write_last_at s) (memory_write_last_latency s)
  (waiter_results s).
Definition set_admission (x : admission) s := mkWrite (fan s) (fanout_summary_cache s) x
  (memory_write_dedupe_seen s) (memory_write_latest_hashes s) (rollups s) (bank s) (memory_bank_queue_processed s)
  (memory_write_history s) (history_file s) (topic_tree s) (memory_write_last_at s) (memory_write_last_latency s)
  (waiter_results s).
Definition set_seen (x : list (string * Z)) s := mkWrite (fan s) (fanout_summary_cache s) (letta_admission s)
  x (memory_write_latest_hashes s) (rollups s) (bank s) (memory_bank_queue_processed s)
  (memory_write_history s) (history_file s) (topic_tree s) (memory_write_last_at s) (memory_write_last_latency s)
  (waiter_results s).
Definition set_hashes (x : list (string * string)) s := mkWrite (fan s) (fanout_summary_cache s) (letta_admission s)
  (memory_write_dedupe_seen s) x (rollups s) (bank s) (memory_bank_queue_processed s)
  (memory_write_history s) (history_file s) (topic_tree s) (memory_write_last_at s) (memory_write_last_latency s)
  (waiter_results s).
Definition set_rollups (x : rollup_buffer) s := mkWrite (fan s) (fanout_summary_cache s) (letta_admission s)
  (memory_write_dedupe_seen s) (memory_write_latest_hashes s) x (bank s) (memory_bank_queue_processed s)
  (memory_write_history s) (history_file s) (topic_tree s) (memory_write_last_at s) (memory_write_last_latency s)
  (waiter_results s).
Definition set_bank (x : bank_queue) s := mkWrite (fan s) (fanout_summary_cache s) (letta_admission s)
  (memory_write_dedupe_seen s) (memory_write_latest_hashes s) (rollups s) x (memory_bank_queue_processed s)
  (memory_write_history s) (history_file s) (topic_tree s) (memory_write_last_at s) (memory_write_last_latency s)
  (waiter_results s).
Definition count_bank s := mkWrite (fan s) (fanout_summary_cache s) (letta_admission s)
  (memory_write_dedupe_seen s) (memory_write_latest_hashes s) (rollups s) (bank s) (memory_bank_queue_processed s + 1)
  (memory_write_history s) (history_file s) (topic_tree s) (memory_write_last_at s) (memory_write_last_latency s)
  (waiter_results s).
Definition set_history (h f : list history_entry) s := mkWrite (fan s) (fanout_summary_cache s) (letta_admission s)
  (memory_write_dedupe_seen s) (memory_write_latest_hashes s) (rollups s) (bank s) (memory_bank_queue_processed s)
  h f (topic_tree s) (memory_write_last_at s) (memory_write_last_latency s) (waiter_results s).
Definition set_tree (x : list (string * topic_node)) s := mkWrite (fan s) (fanout_summary_cache s) (letta_admission s)
  (memory_write_dedupe_seen s) (memory_write_latest_hashes s) (rollups s) (bank s) (memory_bank_queue_processed s)
  (memory_write_history s) (history_file s) x (memory_write_last_at s) (memory_write_last_latency s)
  (waiter_results s).
Definition set_last (a : string) (l : Z) s := mkWrite (fan s) (fanout_summary_cache s) (letta_admission s)
  (memory_write_dedupe_seen s) (memory_write_latest_hashes s) (rollups s) (bank s) (memory_bank_queue_processed s)
  (memory_write_history s) (history_file s) (topic_tree s) (Some a) (Some l) (waiter_results s).
Definition add_result (e : string) (r : option exn) s := mkWrite (fan s) (fanout_summary_cache s) (letta_admission s)
  (memory_write_dedupe_seen s) (memory_write_latest_hashes s) (rollups s) (bank s) (memory_bank_queue_processed s)
  (memory_write_history s) (history_file s) (topic_tree s) (memory_write_last_at s) (memory_write_last_latency s)
  (waiter_results s ++ [(e, r)]).
End setters.

(** An operation of the fanout, of the bank queue. *)
Definition in_fan {A} (m : ST (fanout_state outbox_store) A) : ST write_state A := fun s =>
  let '(x, r) := m (fan s) in (set_fan x s, r).
Definition in_bank {A} (m : ST bank_queue A) : ST write_state A := fun s =>
  let '(x, r) := m (bank s) in (set_bank x s, r).

(** ** Requests and responses *)

Record MemoryWrite := mkMemoryWrite {
  projectName : string; fileName : string; content : string; topicPath : option string }.

Record write_response := mkResponse {
  resp_event_id : string; warnings : list string; fanout_status : list (string * string);
  deduped : bool; latest_hash_unchanged : bool; rollup_file : option string }.

(** What a write is once its input is checked. *)
Record write_plan := mkPlan {
  w_project : string; w_file : string; w_content : string; w_policy_warning : option string;
  w_hot : bool; w_hash : string; w_rollup : bool; w_topic_path : string; w_topic_tags : list string;
  w_summary : string }.

Section write.
Variable cfg : store_config.
Variable uuid4 : nat -> string.
Variable C : worker_config.
Variable W : write_config.
Variable P : record_policy.
Variable E : environment.
Variable sha256 : string -> string.
Variable SECRETS_STORAGE_MODE : string.
Variable FANOUT_SUMMARY_CACHE_TTL_SECS : Z. (* microseconds *)
#[local] Instance queue_instance : JobQueue outbox_store := store_queue cfg uuid4.

(** The checks and derivations at the start of [write_memory]. *)
Definition plan_write (payload : MemoryWrite) : result write_plan :=
  let! file_name := normalize_memory_path (fileName payload) in
  if negb (truthy file_name) then Raise (HTTPException 400 "fileName is required")
  else
    let! stored := _prepare_content_for_storage SECRETS_STORAGE_MODE (content payload) in
    let '(content_to_store, storage_policy_warning) := stored in
    let hot_file := is_hot_memory_file P file_name in
    let! topic_path := derive_topic_path (DEFAULT_TOPIC_ROOT W) file_name (topicPath payload) in
    let! topic_tags := topic_tags_for_path (DEFAULT_TOPIC_ROOT W) topic_path in
    Ok (mkPlan (projectName payload) file_name content_to_store storage_policy_warning hot_file
          (memory_content_sha256 sha256 content_to_store) (hot_file && HOT_MEMORY_ROLLUP_ENABLED W)
          topic_path topic_tags (summarize_content content_to_store)).

(** [uuid.uuid4().hex] *)
Definition fresh_id : ST write_state string := in_fan (in_outbox (new_uuid uuid4)).

Definition now_utc : ST write_state Z := in_fan (read_env (clock E)).
Definition now_monotonic : ST write_state Z := in_fan (read_env (monotonic E)).

Definition raw_event_of (now : Z) (id : string) (request_id : option string) (p : write_plan) : dict :=
  build_raw_memory_event now id (w_project p) (w_file p) (w_content p) (w_summary p) (w_topic_path p) (w_topic_tags p)
    request_id.

(** [None]: stored; otherwise the error. *)
Definition persist_raw_event_to_mongo (event : dict) : ST write_state (option string) :=
  st_try (in_fan (push E FANOUT_TARGET_MONGO_RAW [] [JObj event]) ;;; st_ret None)
    (fun e => st_ret (Some (exn_str e))).

Definition deferred_warning (mongo_error : string) : string :=
  "raw-event Mongo write deferred; queued for retry (" +:+ str_or mongo_error "unknown error" +:+ ")".

(** [LETTA_AUTO_SESSION_ID if _letta_target_enabled() ... else None] *)
Definition session_if (b : bool) : option string := if b then Some (LETTA_AUTO_SESSION_ID C) else None.
Definition json_opt (o : option string) : json := match o with Some x => JStr x | None => JNull end.

Definition seed_payload (p : write_plan) (id : string) (raw_event : dict) (letta_context : option dict) (l : letta_state)
  : dict :=
  [("event_id", JStr id); ("project", JStr (w_project p)); ("file", JStr (w_file p)); ("summary", JStr (w_summary p));
   ("payload", JObj [("projectName", JStr (w_project p)); ("fileName", JStr (w_file p))]);
   ("topic_path", JStr (w_topic_path p)); ("topic_tags", JList (map JStr (w_topic_tags p)));
   ("letta_session", json_opt (session_if (_letta_target_enabled C l)));
   ("letta_context", JObj (match letta_context with Some c => c | None => [] end));
   ("qdrant_collection", JStr (QDRANT_COLLECTION W)); ("raw_event", JObj raw_event)].

Definition _seed_mongo_retry (p : write_plan) (id : string) (raw_event : dict) (letta_context : option dict)
  : ST write_state unit :=
  s <- st_get ;;
  now <- now_utc ;;
  in_fan (in_outbox (enqueue_fanout_outbox cfg uuid4 now (seed_payload p id raw_event letta_context (letta (fan s)))
                       [FANOUT_TARGET_MONGO_RAW] true)) ;;;
  in_fan (st_modify (put_signal C (JStr id))).

Definition opt_list (o : option string) : list string := match o with Some x => [x] | None => [] end.

(** The status dictionary with one value for the targets besides the raw store. *)
Definition all_status (bank_ raw rest : string) : list (string * string) :=
  [("memory_bank", bank_); (FANOUT_TARGET_MONGO_RAW, raw); (FANOUT_TARGET_QDRANT, rest); (FANOUT_TARGET_MINDSDB, rest);
   (FANOUT_TARGET_LANGFUSE, rest); (FANOUT_TARGET_LETTA, rest)].

(** ** The latest snapshot of a hot file is unchanged *)
Definition write_unchanged (p : write_plan) (request_id : option string) : ST write_state write_response :=
  id <- fresh_id ;;
  now <- now_utc ;;
  let raw_event := raw_event_of now id request_id p in
  let ws := "latest snapshot unchanged (hash match); memory-bank and fanout writes suppressed"
            :: opt_list (w_policy_warning p) in
  mongo_error <- persist_raw_event_to_mongo raw_event ;;
  ws <- match mongo_error with
        | None => st_ret ws
        | Some e => _seed_mongo_retry p id raw_event None ;;; st_ret (ws ++ [deferred_warning e])
        end ;;
  st_modify (fun s =>
    let b := rollups s in let h := hot_memory_rollup_health b in
    set_rollups (mkRollups (hot_memory_rollup_entries b)
      (mkRollupHealth (pendingKeys h) (totalBuffered h) (totalFlushed h) (totalSkippedUnchanged h + 1)
         (lastFlushAt h) (lastFlushCount h) (lastFlushError h))) s) ;;;
  st_ret (mkResponse id ws (all_status "skipped" (match mongo_error with None => "succeeded" | Some _ => "retrying" end) "skipped")
            true true None).

(** ** A repeated write *)
Definition write_duplicate (p : write_plan) : write_response :=
  mkResponse (build_event_id sha256 (w_project p) (w_file p) (w_content p))
    (("duplicate memory.write suppressed within "
        +:+ str_of_Z (Z.max 0 (MEMORY_WRITE_DEDUP_WINDOW_SECS W) / us_per_sec) +:+ " seconds") :: opt_list (w_policy_warning p))
    (all_status "skipped" "skipped" "skipped") true false None.

(** ** Admission to Letta *)

Record letta_plan := mkLettaPlan {
  letta_admitted : bool; letta_context : option dict; letta_status : string; letta_warnings : list string }.

Definition letta_context_of (p : write_plan) : dict :=
  [("project", JStr (w_project p)); ("file", JStr (w_file p)); ("summary", JStr (w_summary p));
   ("topic_path", JStr (w_topic_path p));
   ("source_kind", JStr (if w_rollup p then "high_frequency_rollup" else "memory_write"));
   ("content_hash", JStr (w_hash p))]
  ++ (if w_rollup p then [] else [("content", JStr (w_content p))]).

Definition plan_letta (p : write_plan) : ST write_state letta_plan :=
  if negb (truthy (LETTA_AUTO_SESSION_ID C)) then st_ret (mkLettaPlan false None "disabled" [])
  else if LETTA_REQUIRE_API_KEY C && negb (truthy (LETTA_API_KEY C)) then
    st_ret (mkLettaPlan false (Some (letta_context_of p)) "disabled"
      ["Letta sync disabled because LETTA_REQUIRE_API_KEY is true and LETTA_API_KEY is empty"])
  else
    s <- st_get ;;
    if negb (letta_runtime_enabled (letta (fan s))) then
      st_ret (mkLettaPlan false (Some (letta_context_of p)) "disabled"
        ["Letta sync disabled due to permanent fanout error ("
           +:+ str_or (letta_runtime_disabled_reason (letta (fan s))) "runtime disabled" +:+ ")"])
    else
      at_ <- now_monotonic ;;
      let source_kind := if w_rollup p then "high_frequency_rollup" else "memory_write" in
      let '(c, (admitted, admission_reason, backlog)) :=
        _letta_admission_should_enqueue C P FANOUT_SUMMARY_CACHE_TTL_SECS at_ (w_file p) (w_topic_path p) (w_summary p)
          source_kind (fanout_summary_cache s) in
      st_modify (set_cache c) ;;;
      if admitted then
        st_ret (mkLettaPlan true (Some (letta_context_of p)) (if w_rollup p then "deferred_rollup" else "pending") [])
      else
        let backlog_msg := Z.max 0 backlog in
        let reason_text := str_or (match admission_reason with Some r => r | None => "" end) "backlog" in
        logged_at <- now_monotonic ;;
        st_modify (fun s =>
          set_admission (fst (_record_letta_admission_drop C reason_text backlog_msg logged_at (letta_admission s))) s) ;;;
        st_ret (mkLettaPlan false (Some (letta_context_of p)) "throttled_backlog"
          ["Letta fanout deferred under backlog (" +:+ reason_text +:+ "; outstanding=" +:+ str_of_Z backlog_msg +:+ ")"]).

(** ** The state of the fanout in the response *)

Definition degraded_warnings (letta_enabled : bool) (f : fanout_summary) : list string :=
  let stats := match clookup FANOUT_TARGET_LETTA (by_target f) with Some c => c | None => [] end in
  let net st := let n := count_of st (by_status f) in
                if letta_enabled then n else Z.max 0 (n - count_of st stats) in
  let retrying := net "retrying" in
  let failed := net "failed" in
  if 0 <? failed then
    ["fanout currently degraded: " +:+ str_of_Z failed +:+ " failed and " +:+ str_of_Z retrying
       +:+ " retrying jobs; durability outside memory-bank is lagging"]
  else if 0 <? retrying then
    ["fanout backlog detected: " +:+ str_of_Z retrying +:+ " jobs retrying; writes may be temporarily memory-bank-only"]
  else [].

Definition read_summary : ST write_state fanout_summary :=
  at_ <- now_monotonic ;;
  s <- st_get ;;
  let '((w, c), f) := get_fanout_summary cfg FANOUT_SUMMARY_CACHE_TTL_SECS at_ (outbox (fan s), fanout_summary_cache s) in
  st_modify (fun s => set_cache c (set_fan (set_outbox w (fan s)) s)) ;;;
  st_ret f.

Definition finish (id : string) (ws : list string) (status : list (string * string)) (rollup : option string)
  : ST write_state write_response :=
  f <- read_summary ;;
  s <- st_get ;;
  st_ret (mkResponse id (ws ++ degraded_warnings (_letta_target_enabled C (letta (fan s))) f) status false false rollup).

(** ** A new write *)

Definition initial_status (p : write_plan) (raw letta_ : string) : list (string * string) :=
  let rest := if w_rollup p then "deferred_rollup" else "pending" in
  [("memory_bank", if w_rollup p then "queued_rollup" else "queued"); (FANOUT_TARGET_MONGO_RAW, raw);
   (FANOUT_TARGET_QDRANT, rest); (FANOUT_TARGET_MINDSDB, rest);
   (FANOUT_TARGET_LANGFUSE, if truthy (LANGFUSE_API_KEY C) then rest else "disabled"); (FANOUT_TARGET_LETTA, letta_)].

(** A hot file is buffered. *)
Definition write_rollup (p : write_plan) (id : string) (raw_event : dict) (mongo_error : option string) (lp : letta_plan)
    (ws : list string) : ST write_state write_response :=
  rollup_file <- st_lift (build_hot_memory_rollup_file (HOT_MEMORY_ROLLUP_SUFFIX W) (w_file p)) ;;
  s <- st_get ;;
  let item := mkRollupItem (w_project p) (w_file p) (w_summary p) (w_topic_path p) (w_topic_tags p) (w_hash p)
                (Z.of_nat (String.length (w_content p)))
                (session_if (_letta_target_enabled C (letta (fan s)) && letta_admitted lp)) (letta_admitted lp)
                (match letta_context lp with Some c => c | None => [] end) (QDRANT_COLLECTION W) in
  now <- now_utc ;;
  at_ <- now_monotonic ;;
  st_modify (fun s => set_rollups (enqueue_hot_memory_rollup now at_ item (rollups s)) s) ;;;
  let ws := ws ++ ["high-frequency write buffered; rollup flush every "
                     +:+ str_of_Z (Z.max us_per_sec (HOT_MEMORY_ROLLUP_FLUSH_SECS W) / us_per_sec)
                     +:+ "s to " +:+ rollup_file] in
  match mongo_error with None => st_ret tt | Some _ => _seed_mongo_retry p id raw_event (letta_context lp) end ;;;
  finish id ws (initial_status p (match mongo_error with None => "succeeded" | Some _ => "retrying" end) (letta_status lp))
    (Some rollup_file).

Definition bank_item_of (p : write_plan) (id : string) (raw_event : dict) (persisted : bool) (lp : letta_plan)
    (l : letta_state) (request_id : option string) (start_time : Z) : bank_item :=
  mkBankItem (w_project p) (w_file p)
    [("projectName", JStr (w_project p)); ("fileName", JStr (w_file p)); ("content", JStr (w_content p))]
    (w_summary p) (w_topic_path p) (w_topic_tags p) (Z.of_nat (String.length (w_content p)))
    (session_if (_letta_target_enabled C l && letta_admitted lp)) (letta_admitted lp) (letta_context lp)
    (negb (MEMORY_WRITE_ASYNC W)) (Some start_time) request_id id (Some raw_event) persisted (QDRANT_COLLECTION W).

(** Any other file is queued for the memory bank. *)
Definition write_queued (wait : ST write_state unit) (p : write_plan) (id : string) (raw_event : dict)
    (mongo_error : option string) (lp : letta_plan) (ws : list string) (request_id : option string) (start_time : Z)
  : ST write_state write_response :=
  s <- st_get ;;
  let persisted := match mongo_error with None => true | Some _ => false end in
  in_bank (_enqueue_memory_bank_write W
             (bank_item_of p id raw_event persisted lp (letta (fan s)) request_id start_time)) ;;;
  match mongo_error with None => st_ret tt | Some _ => _seed_mongo_retry p id raw_event (letta_context lp) end ;;;
  (if MEMORY_WRITE_ASYNC W then st_ret tt
   else st_try wait (fun exc => st_raise (HTTPException 502 ("Memory write failed: " +:+ exn_str exc)))) ;;;
  finish id ws (initial_status p (if persisted then "succeeded" else "retrying") (letta_status lp)) None.

Definition write_new (wait : ST write_state unit) (p : write_plan) (request_id : option string) (start_time : Z)
  : ST write_state write_response :=
  id <- fresh_id ;;
  now <- now_utc ;;
  let raw_event := raw_event_of now id request_id p in
  mongo_error <- persist_raw_event_to_mongo raw_event ;;
  let ws := opt_list (w_policy_warning p)
            ++ match mongo_error with None => [] | Some e => [deferred_warning e] end in
  lp <- plan_letta p ;;
  let ws := ws ++ letta_warnings lp in
  if w_rollup p then write_rollup p id raw_event mongo_error lp ws
  else write_queued wait p id raw_event mongo_error lp ws request_id start_time.

(** [should_skip_unchanged_latest_hash] and [should_skip_duplicate_memory_write]
    on the state. *)
Definition unchanged_hash (p : write_plan) : ST write_state bool := fun s =>
  let '(d, b) := should_skip_unchanged_latest_hash W (w_project p) (w_file p) (w_hash p) (memory_write_latest_hashes s) in
  (set_hashes d s, Ok b).

Definition duplicate_write (p : write_plan) : ST write_state bool :=
  at_ <- (if MEMORY_WRITE_DEDUP_ENABLED W && (0 <? MEMORY_WRITE_DEDUP_WINDOW_SECS W) then now_monotonic else st_ret 0) ;;
  fun s =>
  let key := build_memory_write_dedupe_key sha256 (w_project p) (w_file p) (w_content p) in
  let '(seen, b) := should_skip_duplicate_memory_write W key at_ (memory_write_dedupe_seen s) in
  (set_seen seen s, Ok b).

Definition write_memory (wait : ST write_state unit) (payload : MemoryWrite) (request_id : option string)
  : ST write_state write_response :=
  start_time <- now_monotonic ;;
  p <- st_lift (plan_write payload) ;;
  unchanged <- (if w_hot p then unchanged_hash p else st_ret false) ;;
  if (unchanged : bool) then write_unchanged p request_id
  else
    dup <- duplicate_write p ;;
    if (dup : bool) then st_ret (write_duplicate p)
    else write_new wait p request_id start_time.

(** ** The memory-bank worker *)

(** [deque.append] with [maxlen]. *)
Definition deque_append {A} (maxlen : Z) (x : A) (l : list A) : list A :=
  let l' := l ++ [x] in skipn (length l' - Z.to_nat maxlen) l'.

(** [call_memory_tool("memory_bank_write", payload)] *)
Definition bank_write (payload : dict) : ST write_state unit := in_fan (push E "memory_bank" [] [JObj payload]).

Definition fanout_item (i : bank_item) : dict :=
  [("event_id", JStr (b_event_id i)); ("project", JStr (b_project i)); ("file", JStr (b_file i));
   ("summary", JStr (b_summary i)); ("payload", JObj (b_payload i)); ("topic_path", JStr (b_topic_path i));
   ("topic_tags", JList (map JStr (b_topic_tags i))); ("letta_session", json_opt (b_letta_session i));
   ("letta_context", match b_letta_context i with Some c => JObj c | None => JNull end);
   ("letta_admit", JBool (b_letta_admit i)); ("mongo_persisted", JBool (b_mongo_persisted i));
   ("qdrant_collection", JStr (b_qdrant_collection i));
   ("raw_event", match b_raw_event i with Some e => JObj e | None => JNull end)].

(** The body of the [try]. *)
Definition bank_deliver (i : bank_item) : ST write_state unit :=
  bank_write (b_payload i) ;;;
  now <- now_utc ;;
  let entry := mkHistory (_utc_now now) (b_project i) (b_file i) (b_topic_path i) (b_summary i) (b_content_length i) in
  st_modify (fun s => set_history (deque_append (MEMORY_WRITE_HISTORY_LIMIT W) entry (memory_write_history s)) (history_file s) s) ;;;
  (* _persist_memory_write: a failed append is only logged *)
  st_try (in_fan (push E "history_file" [] [JStr (b_event_id i)]) ;;;
          st_modify (fun s => set_history (memory_write_history s) (history_file s ++ [entry]) s))
    (fun _ => st_ret tt) ;;;
  st_modify (fun s => set_tree (_update_topic_tree (b_project i) (str_or (b_topic_path i) (DEFAULT_TOPIC_ROOT W)) (topic_tree s)) s) ;;;
  in_fan (_enqueue_memory_write_fanout C E (fanout_item i)) ;;;
  match b_start_time i with
  | None => st_ret tt
  | Some start_time =>
      at_ <- now_monotonic ;;
      now <- now_utc ;;
      st_modify (set_last (_utc_now now) (at_ - start_time))
  end ;;;
  st_modify (fun s => if b_waiter i then add_result (b_event_id i) None s else s).

(** One round of the worker's loop; an empty queue waits. *)
Definition _memory_bank_worker : ST write_state unit := fun s =>
  match memory_bank_queue (bank s) with
  | [] => (s, Ok tt)
  | i :: rest =>
      st_finally
        (st_try (bank_deliver i)
           (fun exc => st_modify (fun s => if b_waiter i then add_result (b_event_id i) (Some exc) s else s)))
        count_bank (set_bank (mkBank rest (memory_bank_queue_dropped (bank s))) s)
  end.
End write.
