(* ===== verification/WriteMemoryFacts.v ===== *)
(** * Properties of the write path *)

From S2P Require Import Prelude PyStr PyTime Json JsonText TaskDb Paths Policy Outbox OutboxFacts OutboxStore OutboxStoreFacts OutboxMaint Fanout FanoutFacts Secrets WriteBuffer WriteBufferFacts WriteMemory.
Open Scope Z_scope.

(** ** Reading the summary keeps the stores *)

Section query.
Variable cfg : store_config.
Variables (T : sqlite_outbox) (D : list doc).

Definition same_stores (w : outbox_store) : Prop := tables (db w) = T /\ docs w = D.

Lemma same_modify f : (forall w, db (f w) = db w /\ docs (f w) = docs w) -> always same_stores (st_modify f).
Proof. intros Hf. apply always_modify. intros w. unfold same_stores. destruct (Hf w) as [-> ->]. done. Qed.

Lemma same_demote : always same_stores (_demote_outbox_backend cfg).
Proof.
  apply same_modify. intros w. by destruct (bool_decide _); [|destruct (FANOUT_OUTBOX_FALLBACK_TO_SQLITE cfg)].
Qed.

Lemma same_init : always same_stores (init_fanout_outbox_mongo_client cfg).
Proof.
  intros w Hw. unfold init_fanout_outbox_mongo_client. destruct (negb _); [done|].
  assert (always same_stores (_demote_outbox_backend cfg ;;; st_ret false)) as Hd.
  { apply always_bind; [apply same_demote|]. intros _. apply always_ret. }
  destruct (negb _); [by apply Hd|]. destruct (mongo_client w); [done|].
  destruct (connect_script w) as [|[e|] cs]; [done|by apply Hd|done].
Qed.

Lemma same_with_mongo {A} (m : ST outbox_store A) : always same_stores m -> always same_stores (with_mongo cfg m).
Proof. intros Hm. apply always_bind; [apply same_init|]. intros []; [done|apply always_raise]. Qed.

Lemma same_promote reason : always same_stores (_promote_outbox_backend_to_mongo_if_sqlite_error cfg reason).
Proof.
  intros w Hw. unfold _promote_outbox_backend_to_mongo_if_sqlite_error. do 3 (destruct (negb _); [done|]).
  apply (always_bind same_stores); [apply same_init| |done]. intros []; [apply always_ret|].
  apply always_bind; [by apply same_modify|]. intros _. apply always_ret.
Qed.

Lemma same_read_db {A} (g : sqlite_outbox -> A) : always same_stores (on_sqlite cfg (fun st => Ok (st, g st))).
Proof.
  intros w [Ht Hd]. unfold on_sqlite, _task_db_exec.
  assert (forall n x, tables (fst (run_attempts (fun st => Ok (st, g st)) n x)) = tables x) as Hr.
  { assert (forall x, tables (fst (with_connection (fun st => Ok (st, g st)) x)) = tables x) as Hc.
    { intros x. unfold with_connection. by destruct (next_fault _) as [[] rest]. }
    induction n as [|n IH]; intros x; cbn [run_attempts]; [apply Hc|]. unfold st_try. specialize (Hc x).
    destruct (with_connection _ x) as [x' [a|e]]; [done|]. destruct (retryable e); [by rewrite IH|done]. }
  specialize (Hr (Z.to_nat (Z.max 1 (TASK_DB_LOCK_RETRIES cfg)) - 1)%nat (db w)).
  destruct (run_attempts _ _ (db w)) as [x [a|e]]; (split; [cbn in *; congruence|done]).
Qed.

Lemma same_query : always same_stores (_query_fanout_summary_uncached cfg).
Proof.
  unfold _query_fanout_summary_uncached. set (mongo := with_mongo _ _).
  assert (always same_stores mongo) as Hm.
  { apply same_with_mongo. intros w [Ht Hd]. unfold mongo_call. by destruct (next_fault _) as [[] rest]. }
  assert (always same_stores (sqlite_else_mongo cfg
    (on_sqlite cfg (fun st => Ok (st, _fanout_sqlite_summary (rows st)))) mongo)) as Hs.
  { apply always_try; [apply same_read_db|]. intros e. apply always_bind; [apply same_promote|].
    intros []; [done|apply always_raise]. }
  intros w Hw. unfold mongo_else_sqlite. destruct (_use_mongo_outbox w); [|by apply Hs].
  apply (always_try same_stores mongo); [done| |done]. intros _. apply always_bind; [apply same_demote|by intros _].
Qed.

Lemma same_get ttl at_ wc : same_stores (fst wc) -> same_stores (fst (fst (get_fanout_summary cfg ttl at_ wc))).
Proof.
  destruct wc as [w c]. cbn [fst]. intros Hw. unfold get_fanout_summary.
  destruct (_fanout_cache_fresh _ _ _); [done|]. destruct (has_summary _); [done|].
  pose proof (same_query w Hw) as H. by destruct (_query_fanout_summary_uncached cfg w) as [w' [f|e]].
Qed.
End query.

(** ** Steps of a write *)

Section write.
Variable cfg : store_config.
Variable uuid4 : nat -> string.
Variable C : worker_config.
Variable W : write_config.
Variable P : record_policy.
Variable E : environment.
Variable sha256 : string -> string.
Variable mode : string.
Variable ttl : Z.
Hypothesis uuid4_inj : forall i j, uuid4 i = uuid4 j -> i = j.
Hypothesis uuid4_text : forall i, uuid4 i <> "".

(** What a write may leave behind. *)
Definition look (s : write_state) := (outbox (fan s), letta (fan s), sent (fan s), bank s, rollups s).

(** The same with the stores in place of the outbox. *)
Definition kept (s : write_state) :=
  (tables (db (outbox (fan s))), docs (outbox (fan s)), sent (fan s), bank s, rollups s).

Lemma look_kept s s' : look s' = look s -> kept s' = kept s.
Proof. unfold look, kept. intros [= -> _ -> -> ->]. done. Qed.

(** The status of Letta says whether the record is admitted to it. *)
Definition letta_says (p : write_plan) (lp : letta_plan) : Prop :=
  letta_admitted lp = true <-> letta_status lp = (if w_rollup p then "deferred_rollup" else "pending").

Lemma plan_letta_look p s : exists s' lp, plan_letta C P E ttl p s = (s', Ok lp) /\ look s' = look s /\
  memory_write_dedupe_seen s' = memory_write_dedupe_seen s /\ letta_says p lp.
Proof.
  assert (forall ctx st ws, st = "disabled" \/ st = "throttled_backlog" -> letta_says p (mkLettaPlan false ctx st ws)) as Hno.
  { intros ctx st ws Hst. split; [done|]. cbn. destruct Hst as [-> | ->]; by destruct (w_rollup p). }
  unfold plan_letta. destruct (negb _); [do 2 eexists; eauto 10|]. destruct (_ && _); [do 2 eexists; eauto 10|].
  unfold st_bind at 1, st_get. destruct (negb _); [do 2 eexists; eauto 10|].
  unfold st_bind at 1. cbn [now_monotonic in_fan read_env].
  destruct (_letta_admission_should_enqueue _ _ _ _ _ _ _ _ _) as [c [[[] r] b]];
    do 2 eexists; (split; [reflexivity|]); do 2 (split; [done|]); [done|auto].
Qed.

Lemma persist_look ev s : exists s' err, persist_raw_event_to_mongo E ev s = (s', Ok err) /\
  outbox (fan s') = outbox (fan s) /\ memory_write_dedupe_seen s' = memory_write_dedupe_seen s /\
  bank s' = bank s /\ rollups s' = rollups s /\
  exists a, sent (fan s') = sent (fan s) ++ [mkDelivery FANOUT_TARGET_MONGO_RAW [] [JObj ev] a] /\ (err = None <-> a = None).
Proof.
  unfold persist_raw_event_to_mongo, st_try, st_bind, in_fan, push. cbn.
  destruct (answer E (ticks (fan s))) as [e|]; do 2 eexists; (split; [reflexivity|]); cbn;
    do 4 (split; [done|]); eexists; (split; [reflexivity|]); by split.
Qed.

(** A forced enqueue leaves no row as it was: what was stored before does not
    matter. *)
Lemma accepted_forced now pl od or ts w : accepted now pl true od or ts w -> accepted now pl true [] [] ts w.
Proof.
  assert (forall I (old : list (fanout_row I)) t l,
    served now (event_of_payload "" pl) true old t l -> served now (event_of_payload "" pl) true [] t l) as Hs.
  { intros I old t l (r & Hr & Ht & [Hq|(? & _)]); [|done]. exists r. split; [done|]. split; [done|]. by left. }
  intros [H|H]; [left|right]; intros t Ht; by eapply Hs, H.
Qed.

Lemma seed_kept p id raw ctx s s' : id <> "" ->
  store_ok uuid4 (outbox (fan s)) -> mongo_faults (outbox (fan s)) = [] ->
  _seed_mongo_retry cfg uuid4 C W E p id raw ctx s = (s', Ok tt) ->
  sent (fan s') = sent (fan s) /\ bank s' = bank s /\ rollups s' = rollups s /\
  exists now, accepted now (seed_payload C W p id raw ctx (letta (fan s))) true [] [] [FANOUT_TARGET_MONGO_RAW] (outbox (fan s')).
Proof.
  intros Hid Hok Hf Hs. unfold _seed_mongo_retry in Hs. step_in Hs s0 x Hx. injection Hx as <- <-.
  step_in Hs s1 now H1. injection H1 as <- <-. step_in Hs s2 c H2. unfold in_fan, in_outbox in H2. cbn in H2.
  set (now := clock E (ticks (fan s))) in *. set (pl := seed_payload _ _ _ _ _ _ _) in *.
  assert (jtruthy (dget pl "event_id") = true) as Hj.
  { cbn. unfold truthy. apply negb_true_iff. by apply String.eqb_neq. }
  pose proof (enqueue_answers cfg uuid4 uuid4_inj now pl true Hj [FANOUT_TARGET_MONGO_RAW] (outbox (fan s)) Hok Hf) as Ha.
  destruct (enqueue_fanout_outbox cfg uuid4 now pl [FANOUT_TARGET_MONGO_RAW] true (outbox (fan s))) as [w [r|e]];
    [apply accepted_forced in Ha|done].
  injection H2 as <- ->. injection Hs as <-. cbn. repeat split; [by unfold put_signal; destruct (queue_full _ _)..|].
  exists now. unfold put_signal. destruct (queue_full _ _); exact Ha.
Qed.

Lemma finish_kept id ws st rf s s' resp : finish cfg C E ttl id ws st rf s = (s', Ok resp) ->
  kept s' = kept s /\ resp_event_id resp = id /\ deduped resp = false /\ fanout_status resp = st /\ rollup_file resp = rf.
Proof.
  intros H. unfold finish in H. step_in H s1 f H1. step_in H s2 x Hx. injection Hx as <- <-. injection H as <- <-.
  split; [|done]. unfold read_summary in H1. step_in H1 s2 at_ H2. injection H2 as <- <-.
  step_in H1 s2 x Hx. injection Hx as <- <-.
  pose proof (same_get cfg (tables (db (outbox (fan s)))) (docs (outbox (fan s))) ttl (monotonic E (ticks (fan s)))
    (outbox (fan s), fanout_summary_cache s) ltac:(done)) as Hq. cbn -[get_fanout_summary] in H1.
  destruct (get_fanout_summary cfg ttl (monotonic E (ticks (fan s))) (outbox (fan s), fanout_summary_cache s)) as [[w c] f0].
  injection H1 as <- <-. destruct Hq as [H1 H2]. cbn in H1, H2. unfold kept. cbn. by rewrite H1, H2.
Qed.

(** The raw event was taken by the raw store, or one outbox holds a job that
    carries it there. *)
Definition raw_recorded (p : write_plan) (id : string) (raw : dict) (s s' : write_state) (refused : bool) : Prop :=
  exists a, sent (fan s') = sent (fan s) ++ [mkDelivery FANOUT_TARGET_MONGO_RAW [] [JObj raw] a] /\
    (a = None <-> refused = false) /\
    (refused = true -> exists now ctx l,
       accepted now (seed_payload C W p id raw ctx l) true [] [] [FANOUT_TARGET_MONGO_RAW] (outbox (fan s'))).

Lemma raw_recorded_kept p id raw s s1 s2 r :
  raw_recorded p id raw s s1 r -> kept s2 = kept s1 -> raw_recorded p id raw s s2 r.
Proof.
  intros (a & Hs & Ha & Hr) Hk. unfold kept in Hk. injection Hk as HT HD HS _ _.
  exists a. rewrite HS. split; [done|]. split; [done|]. intros Hf. destruct (Hr Hf) as (now & ctx & l & H).
  exists now, ctx, l. unfold accepted. by rewrite HT, HD.
Qed.

Definition refused_by (err : option string) : bool := match err with Some _ => true | None => false end.

(** A step that seeds the retry when the raw store refused. *)
Lemma seed_records p id raw ctx s s1 s2 err a : id <> "" ->
  store_ok uuid4 (outbox (fan s1)) -> mongo_faults (outbox (fan s1)) = [] ->
  sent (fan s1) = sent (fan s) ++ [mkDelivery FANOUT_TARGET_MONGO_RAW [] [JObj raw] a] -> (err = None <-> a = None) ->
  match err with None => st_ret tt | Some _ => _seed_mongo_retry cfg uuid4 C W E p id raw ctx end s1 = (s2, Ok tt) ->
  raw_recorded p id raw s s2 (refused_by err) /\ bank s2 = bank s1 /\ rollups s2 = rollups s1.
Proof.
  intros Hid Hok Hf Hs Ha Hrun. destruct err as [e|].
  - apply seed_kept in Hrun as (H1 & H2 & H3 & now & H4); [|done..]. split; [|done]. exists a. rewrite H1.
    split; [done|]. split; [naive_solver|]. intros _. eauto.
  - injection Hrun as <-. split; [|done]. exists a. split; [done|]. split; [naive_solver|]. done.
Qed.

(** What the response calls a raw event that was or was not refused. *)
Definition raw_status (refused : bool) : string := if refused then "retrying" else "succeeded".

(** What a new write leaves: its raw event, and its record in the rollup
    buffer or at the end of the bank queue, as the statuses of the response
    say. *)
Definition write_recorded (p : write_plan) (request_id : option string) (s s' : write_state) (resp : write_response) : Prop :=
  exists now refused lp, let id := resp_event_id resp in let raw := raw_event_of now id request_id p in
    raw_recorded p id raw s s' refused /\ letta_says p lp /\
    fanout_status resp = initial_status C p (raw_status refused) (letta_status lp) /\
    if w_rollup p then
      bank s' = bank s /\ (exists rf, build_hot_memory_rollup_file (HOT_MEMORY_ROLLUP_SUFFIX W) (w_file p) = Ok rf /\
                             rollup_file resp = Some rf) /\
      exists t m session, rollups s' = enqueue_hot_memory_rollup t m
        (mkRollupItem (w_project p) (w_file p) (w_summary p) (w_topic_path p) (w_topic_tags p) (w_hash p)
           (Z.of_nat (String.length (w_content p))) session (letta_admitted lp)
           (match letta_context lp with Some c => c | None => [] end) (QDRANT_COLLECTION W)) (rollups s)
    else
      rollups s' = rollups s /\ rollup_file resp = None /\ exists l start,
        memory_bank_queue (bank s') =
          memory_bank_queue (bank s) ++ [bank_item_of C W p id raw (negb refused) lp l request_id start].

Lemma write_rollup_recorded p id now rid err lp ws s s1 s' resp a : id <> "" -> w_rollup p = true ->
  store_ok uuid4 (outbox (fan s1)) -> mongo_faults (outbox (fan s1)) = [] ->
  sent (fan s1) = sent (fan s) ++ [mkDelivery FANOUT_TARGET_MONGO_RAW [] [JObj (raw_event_of now id rid p)] a] ->
  (err = None <-> a = None) -> bank s1 = bank s -> rollups s1 = rollups s ->
  letta_says p lp ->
  write_rollup cfg uuid4 C W E ttl p id (raw_event_of now id rid p) err lp ws s1 = (s', Ok resp) ->
  deduped resp = false /\ write_recorded p rid s s' resp.
Proof.
  intros Hid Hroll Hok Hf Hs Ha Hb Hr Hlp H. unfold write_rollup in H.
  step_in H s2 rf H2. unfold st_lift in H2. injection H2 as <- H2.
  step_in H s2 x H3. injection H3 as <- <-. step_in H s2 t H3. injection H3 as <- <-.
  step_in H s2 m H3. injection H3 as <- <-. step_in H s3 u H3. injection H3 as <- <-.
  step_in H s4 u H4. destruct u.
  eapply seed_records in H4 as (G1 & G2 & G3); [|done|exact Hok|exact Hf|exact Hs|exact Ha].
  apply finish_kept in H as (K & E1 & -> & E2 & E3). split; [done|].
  exists now, (refused_by err), lp. cbn zeta. rewrite E1. split; [by eapply raw_recorded_kept|].
  split; [done|]. split; [rewrite E2; by destruct err|].
  unfold kept in K. injection K as _ _ _ K1 K2. rewrite Hroll. split; [by rewrite K1, G2|]. split; [by eauto|].
  do 3 eexists. rewrite K2, G3; cbn. rewrite Hr. reflexivity.
Qed.

Lemma write_queued_recorded wait p id now rid err lp ws st s s1 s' resp a : id <> "" -> w_rollup p = false ->
  MEMORY_WRITE_ASYNC W = true ->
  store_ok uuid4 (outbox (fan s1)) -> mongo_faults (outbox (fan s1)) = [] ->
  sent (fan s1) = sent (fan s) ++ [mkDelivery FANOUT_TARGET_MONGO_RAW [] [JObj (raw_event_of now id rid p)] a] ->
  (err = None <-> a = None) -> bank s1 = bank s -> rollups s1 = rollups s ->
  letta_says p lp ->
  write_queued cfg uuid4 C W E ttl wait p id (raw_event_of now id rid p) err lp ws rid st s1 = (s', Ok resp) ->
  deduped resp = false /\ write_recorded p rid s s' resp.
Proof.
  intros Hid Hroll Hasync Hok Hf Hs Ha Hb Hr Hlp H. unfold write_queued in H.
  step_in H s2 x H3. injection H3 as <- <-. step_in H s3 u H3. unfold in_bank, _enqueue_memory_bank_write in H3.
  destruct (bank_full W (bank s1)); [done|]. injection H3 as <- <-.
  step_in H s4 u H4. destruct u.
  eapply seed_records in H4 as (G1 & G2 & G3); [|done|exact Hok|exact Hf|exact Hs|exact Ha].
  rewrite Hasync in H. step_in H s5 u H5. injection H5 as <- <-.
  apply finish_kept in H as (K & E1 & -> & E2 & E3). split; [done|].
  exists now, (refused_by err), lp. cbn zeta. rewrite E1. split; [by eapply raw_recorded_kept|].
  split; [done|]. split; [rewrite E2; by destruct err|].
  unfold kept in K. injection K as _ _ _ K1 K2. rewrite Hroll. split; [by rewrite K2, G3|]. split; [done|].
  exists (letta (fan s1)), st. rewrite K1, G2; cbn. rewrite Hb. by destruct err.
Qed.

Lemma write_new_recorded wait p rid st s s' resp : MEMORY_WRITE_ASYNC W = true ->
  store_ok uuid4 (outbox (fan s)) -> mongo_faults (outbox (fan s)) = [] ->
  write_new cfg uuid4 C W P E ttl wait p rid st s = (s', Ok resp) ->
  deduped resp = false /\ write_recorded p rid s s' resp.
Proof.
  intros Hasync Hok Hf H. unfold write_new in H. step_in H s1 eid H1. unfold fresh_id, in_fan, in_outbox, new_uuid in H1.
  cbn in H1. injection H1 as <- <-. step_in H s2 now H2. injection H2 as <- <-.
  set (eid := uuid4 _) in *. set (s1 := set_fan _ _) in H.
  assert (store_ok uuid4 (outbox (fan s1)) /\ mongo_faults (outbox (fan s1)) = []) as [Hok1 Hf1].
  { split; [|done]. by apply (keeps_uuid uuid4 (outbox (fan s))). }
  step_in H s2 err H2. destruct (persist_look (raw_event_of (clock E (ticks (fan s))) eid rid p) s1)
    as (s2' & err' & E2 & L1 & _ & L2 & L3 & a & L4 & L5).
  cbn in H2, E2. rewrite E2 in H2. injection H2 as <- <-. step_in H s3 lp H3.
  destruct (plan_letta_look p s2') as (s3' & lp' & E3 & L6 & _ & L7). rewrite E3 in H3. injection H3 as <- <-.
  unfold look in L6. injection L6 as M1 _ M2 M3 M4.
  destruct (w_rollup p) eqn:Er.
  - eapply write_rollup_recorded in H as (-> & Hw); [done|apply uuid4_text|done|by rewrite M1, L1|by rewrite M1, L1| |
      exact L5|by rewrite M3, L2|by rewrite M4, L3|done]. rewrite M2. exact L4.
  - eapply write_queued_recorded in H as (-> & Hw); [done|apply uuid4_text|done|done|by rewrite M1, L1|by rewrite M1, L1| |
      exact L5|by rewrite M3, L2|by rewrite M4, L3|done]. rewrite M2. exact L4.
Qed.

(** ** The front of [write_memory] *)

Lemma plan_rollup payload p : plan_write W P sha256 mode payload = Ok p ->
  w_rollup p = w_hot p && HOT_MEMORY_ROLLUP_ENABLED W.
Proof.
  unfold plan_write, rbind. repeat (dmatch; try done). by intros [= <-].
Qed.

Lemma unchanged_look p s : exists s' b, unchanged_hash W p s = (s', Ok b) /\ look s' = look s.
Proof. unfold unchanged_hash. destruct (should_skip_unchanged_latest_hash _ _ _ _ _). eauto. Qed.

Lemma duplicate_look p s : exists s' b, duplicate_write W E sha256 p s = (s', Ok b) /\ look s' = look s.
Proof.
  unfold duplicate_write, st_bind. destruct (_ && _); cbn;
    destruct (should_skip_duplicate_memory_write _ _ _ _); eauto.
Qed.

Lemma raw_recorded_look p id raw s s1 s' r :
  look s1 = look s -> raw_recorded p id raw s1 s' r -> raw_recorded p id raw s s' r.
Proof. unfold look. intros [= _ _ Hs _ _]. unfold raw_recorded. by rewrite Hs. Qed.

Lemma write_recorded_look p rid s s1 s' resp :
  look s1 = look s -> write_recorded p rid s1 s' resp -> write_recorded p rid s s' resp.
Proof.
  intros Hl (now & r & lp & H1 & H2). exists now, r, lp. split; [by eapply raw_recorded_look|].
  unfold look in Hl. injection Hl as _ _ _ Hb Hr. by rewrite <- Hb, <- Hr.
Qed.

Lemma write_unchanged_recorded p rid s s' resp :
  store_ok uuid4 (outbox (fan s)) -> mongo_faults (outbox (fan s)) = [] ->
  write_unchanged cfg uuid4 C W E p rid s = (s', Ok resp) ->
  deduped resp = true /\ latest_hash_unchanged resp = true /\ bank s' = bank s /\
  hot_memory_rollup_entries (rollups s') = hot_memory_rollup_entries (rollups s) /\
  exists now r, raw_recorded p (resp_event_id resp) (raw_event_of now (resp_event_id resp) rid p) s s' r /\
    fanout_status resp = all_status "skipped" (raw_status r) "skipped".
Proof.
  intros Hok Hf H. unfold write_unchanged in H. step_in H s1 eid H1. unfold fresh_id, in_fan, in_outbox, new_uuid in H1.
  cbn in H1. injection H1 as <- <-. step_in H s2 now H2. injection H2 as <- <-.
  set (eid := uuid4 _) in *. set (s1 := set_fan _ _) in H.
  assert (store_ok uuid4 (outbox (fan s1)) /\ mongo_faults (outbox (fan s1)) = []) as [Hok1 Hf1].
  { split; [|done]. by apply (keeps_uuid uuid4 (outbox (fan s))). }
  step_in H s2 err H2. destruct (persist_look (raw_event_of (clock E (ticks (fan s))) eid rid p) s1)
    as (s2' & err' & E2 & L1 & _ & L2 & L3 & a & L4 & L5).
  cbn in H2, E2. rewrite E2 in H2. injection H2 as <- <-. step_in H s3 ws H3.
  step_in H s4 u H4. injection H4 as <- <-. injection H as <- <-. cbn.
  assert (match err' with None => st_ret tt
          | Some _ => _seed_mongo_retry cfg uuid4 C W E p eid (raw_event_of (clock E (ticks (fan s))) eid rid p) None
          end s2' = (s3, Ok tt)) as Hseed.
  { destruct err'; [|by injection H3 as <- <-]. step_in H3 s4 u H4. injection H3 as <- <-. by destruct u. }
  eapply seed_records in Hseed as (G1 & G2 & G3); [|apply uuid4_text|by rewrite L1|by rewrite L1|exact L4|exact L5].
  do 2 (split; [done|]). split; [by rewrite G2, L2|]. split; [by rewrite G3, L3|].
  eexists _, (refused_by err'). split; [|by destruct err']. eapply raw_recorded_kept; [|done]. exact G1.
Qed.
End write.

(** ** Properties *)

(** C3: in asynchronous mode and while no MongoDB call of the outbox fails, an
    accepted write leaves its record where the statuses of its response say.
    A new write whose raw status is succeeded was taken by the raw store; one
    whose raw status is retrying was refused by it and a forced job of the outbox
    carries its raw event there.  Its content is at the end of the memory-bank queue
    (status queued) or, for a hot file, its summary, hash and length are added to
    the rollup buffer (status queued_rollup, with the name of the rollup file);
    the status of Letta says whether the record is admitted to it.  An
    unchanged hot file leaves the raw event only, and a repeated write leaves
    everything as it was, all its statuses being skipped. *)
Theorem write_memory_outcomes cfg uuid4 C W P E sha256 mode ttl wait payload rid s s' resp :
  (forall i j, uuid4 i = uuid4 j -> i = j) -> (forall i, uuid4 i <> "") ->
  store_reachable cfg uuid4 (outbox (fan s)) -> mongo_faults (outbox (fan s)) = [] -> MEMORY_WRITE_ASYNC W = true ->
  write_memory cfg uuid4 C W P E sha256 mode ttl wait payload rid s = (s', Ok resp) ->
  exists p, plan_write W P sha256 mode payload = Ok p /\
    if negb (deduped resp) then write_recorded C W p rid s s' resp
    else if latest_hash_unchanged resp then
      bank s' = bank s /\ hot_memory_rollup_entries (rollups s') = hot_memory_rollup_entries (rollups s) /\
      exists now r, raw_recorded C W p (resp_event_id resp) (raw_event_of now (resp_event_id resp) rid p) s s' r /\
        fanout_status resp = all_status "skipped" (raw_status r) "skipped"
    else look s' = look s /\ fanout_status resp = all_status "skipped" "skipped" "skipped".
Proof.
  intros Hinj Htext Hr Hf Hasync H. apply store_reachable_ok in Hr. unfold write_memory in H.
  step_in H s1 st H1. injection H1 as <- <-. step_in H s1 p H1. unfold st_lift in H1.
  injection H1 as <- Hp. exists p. split; [done|]. set (s1 := set_fan _ _) in H.
  assert (look s1 = look s) as Hl1 by done.
  step_in H s2 un H2.
  assert (look s2 = look s1) as Hl2.
  { destruct (w_hot p); [|by injection H2 as <- <-]. destruct (unchanged_look W p s1) as (s2' & b & Eu & Hl).
    rewrite Eu in H2. by injection H2 as <- <-. }
  assert (store_ok uuid4 (outbox (fan s2)) /\ mongo_faults (outbox (fan s2)) = []) as [Hok2 Hf2].
  { rewrite Hl1 in Hl2. unfold look in Hl2. injection Hl2 as -> _ _ _ _. done. }
  destruct un.
  - apply write_unchanged_recorded in H as (-> & -> & Hb & Hroll & now & r & Hraw & Hst); [|done..]. cbn [negb].
    pose proof Hl2 as Hl3. rewrite Hl1 in Hl3. unfold look in Hl3. injection Hl3 as _ _ _ K1 K2.
    rewrite Hb, Hroll, K1, K2. do 2 (split; [done|]). exists now, r. split; [|done]. eapply raw_recorded_look; [|exact Hraw]. congruence.
  - step_in H s3 dup H3. destruct (duplicate_look W E sha256 p s2) as (s3' & b & Ed & Hl3). rewrite Ed in H3.
    injection H3 as <- <-. destruct b.
    + injection H as <- <-. cbn. split; [congruence|done].
    + assert (store_ok uuid4 (outbox (fan s3')) /\ mongo_faults (outbox (fan s3')) = []) as [Hok3 Hf3].
      { unfold look in Hl3. injection Hl3 as -> _ _ _ _. done. }
      apply write_new_recorded in H as (-> & Hw); [|done..]. cbn [negb].
      eapply write_recorded_look; [|exact Hw]. congruence.
Qed.

(** A write of a plain file that finds the bank queue full is refused, after
    its key was recorded. *)
Lemma write_refused cfg uuid4 C W P E sha256 mode ttl wait payload rid p s :
  plan_write W P sha256 mode payload = Ok p -> w_hot p = false ->
  MEMORY_WRITE_DEDUP_ENABLED W = true -> 0 < MEMORY_WRITE_DEDUP_WINDOW_SECS W ->
  let key := build_memory_write_dedupe_key sha256 (w_project p) (w_file p) (w_content p) in
  let '(seen, dup) := should_skip_duplicate_memory_write W key (monotonic E (S (ticks (fan s)))) (memory_write_dedupe_seen s) in
  if dup then
    exists s' resp, write_memory cfg uuid4 C W P E sha256 mode ttl wait payload rid s = (s', Ok resp) /\
      deduped resp = true /\ look s' = look s
  else bank_full W (bank s) = true ->
    exists s', write_memory cfg uuid4 C W P E sha256 mode ttl wait payload rid s
                 = (s', Raise (HTTPException 503 "memory write queue full")) /\
      memory_write_dedupe_seen s' = seen /\ memory_bank_queue (bank s') = memory_bank_queue (bank s).
Proof.
  intros Hp Hhot Hen Hwin. cbn zeta.
  destruct (should_skip_duplicate_memory_write _ _ _ _) as [seen dup] eqn:Ed.
  assert (exists s1, look s1 = look s /\ memory_write_dedupe_seen s1 = seen /\
    write_memory cfg uuid4 C W P E sha256 mode ttl wait payload rid s =
    if dup then (s1, Ok (write_duplicate W sha256 p)) else
    write_new cfg uuid4 C W P E ttl wait p rid (monotonic E (ticks (fan s))) s1) as (s1 & Hl & Hs & ->).
  { exists (set_seen seen (set_fan (tick (tick (fan s))) (set_fan (tick (fan s)) s))). do 2 (split; [done|]).
    unfold write_memory, now_monotonic, in_fan, read_env, st_bind, st_lift. cbn -[write_new]. rewrite Hp, Hhot.
    cbn -[write_new]. unfold duplicate_write, st_bind. rewrite Hen. replace (0 <? _) with true by (symmetry; by apply Z.ltb_lt).
    cbn -[write_new]. rewrite Ed. by destruct dup. }
  destruct dup; [by do 2 eexists|]. intros Hfull.
  assert (bank s1 = bank s) as Hb by (unfold look in Hl; by injection Hl).
  unfold write_new, st_bind. cbn. set (s2 := set_fan _ _).
  destruct (persist_look E (raw_event_of (clock E (ticks (fan s1))) (uuid4 (uuid_next (outbox (fan s1)))) rid p) s2)
    as (s3 & err & E3 & _ & S3 & L3 & _). cbn in E3. rewrite E3.
  destruct (plan_letta_look C P E ttl p s3) as (s4 & lp & E4 & L4 & S4 & _). rewrite E4.
  rewrite (plan_rollup _ _ _ _ _ _ Hp), Hhot. cbn [andb]. unfold write_queued, st_bind, in_bank, _enqueue_memory_bank_write.
  cbn. assert (bank s4 = bank s) as -> by (unfold look in L4; injection L4 as _ _ _ -> _; by rewrite L3).
  rewrite Hfull. eexists. split; [reflexivity|]. cbn. split; [|done].
  by rewrite S4, S3.
Qed.

(** C37: a refused write blocks its own retry: the key of a write is recorded
    before the write is queued, so after the answer 503 (queue full) the same
    write, repeated within the window, is answered as an accepted duplicate
    and leaves nothing anywhere. *)
Theorem refused_write_blocks_retry cfg uuid4 C W P E sha256 mode ttl wait payload rid p s s2 :
  let key := build_memory_write_dedupe_key sha256 (w_project p) (w_file p) (w_content p) in
  let now := monotonic E (S (ticks (fan s))) in let now2 := monotonic E (S (ticks (fan s2))) in
  plan_write W P sha256 mode payload = Ok p -> w_hot p = false ->
  MEMORY_WRITE_DEDUP_ENABLED W = true -> 0 < MEMORY_WRITE_DEDUP_WINDOW_SECS W ->
  seen_ok W now (memory_write_dedupe_seen s) ->
  snd (should_skip_duplicate_memory_write W key now (memory_write_dedupe_seen s)) = false ->
  bank_full W (bank s) = true ->
  exists s1, write_memory cfg uuid4 C W P E sha256 mode ttl wait payload rid s
               = (s1, Raise (HTTPException 503 "memory write queue full")) /\
    memory_bank_queue (bank s1) = memory_bank_queue (bank s) /\
    (memory_write_dedupe_seen s2 = memory_write_dedupe_seen s1 -> now2 - now <= MEMORY_WRITE_DEDUP_WINDOW_SECS W ->
     exists s3 resp, write_memory cfg uuid4 C W P E sha256 mode ttl wait payload rid s2 = (s3, Ok resp) /\
       deduped resp = true /\ look s3 = look s2).
Proof.
  intros key now now2 Hp Hhot Hen Hwin Hseen Hnew Hfull.
  pose proof (write_refused cfg uuid4 C W P E sha256 mode ttl wait payload rid p s Hp Hhot Hen Hwin) as H1.
  cbn zeta in H1. fold key now in H1.
  destruct (skip_keeps W key now (memory_write_dedupe_seen s) Hen Hwin Hseen) as [(Hd & _ & _) Hin].
  destruct (should_skip_duplicate_memory_write W key now (memory_write_dedupe_seen s)) as [seen dup]. cbn in Hnew, Hd, Hin.
  subst dup. destruct (H1 Hfull) as (s1 & Es & Hs & Hb). exists s1. split; [done|]. split; [done|].
  intros Hs2 Hle. pose proof (write_refused cfg uuid4 C W P E sha256 mode ttl wait payload rid p s2 Hp Hhot Hen Hwin) as H2.
  cbn zeta in H2. fold key now2 in H2. rewrite Hs2, Hs in H2.
  pose proof (skip_known W key now now2 seen Hen Hwin Hd Hin Hle) as Hk.
  destruct (should_skip_duplicate_memory_write W key now2 seen) as [seen2 dup]. cbn in Hk. by subst dup.
Qed.

(** ** The memory-bank worker *)

Section bank_worker.
Variable cfg : store_config.
Variable uuid4 : nat -> string.
Variable C : worker_config.
Variable W : write_config.
Variable E : environment.
Abbreviation deliver := (bank_deliver cfg uuid4 C W E).

(** What a delivery never touches before its last step. *)
Definition bank_frame (b : bank_queue) (n : Z) (r : list (string * option exn)) (s : write_state) : Prop :=
  bank s = b /\ memory_bank_queue_processed s = n /\ waiter_results s = r.

Lemma frame_fan {A} b n r (m : ST (fanout_state outbox_store) A) : always (bank_frame b n r) (in_fan m).
Proof. intros s Hs. unfold in_fan. by destruct (m (fan s)) as [x [a|e]]. Qed.

#[local] Hint Resolve frame_fan always_ret : lattice.

Lemma deliver_frame i s : let '(s', r) := deliver i s in
  bank s' = bank s /\ memory_bank_queue_processed s' = memory_bank_queue_processed s /\
  waiter_results s' = waiter_results s ++
    match r with Ok _ => if b_waiter i then [(b_event_id i, None)] else [] | Raise _ => [] end.
Proof.
  enough (hoare (bank_frame (bank s) (memory_bank_queue_processed s) (waiter_results s)) (deliver i)
    (fun _ => bank_frame (bank s) (memory_bank_queue_processed s)
       (waiter_results s ++ if b_waiter i then [(b_event_id i, None)] else []))
    (fun _ => bank_frame (bank s) (memory_bank_queue_processed s) (waiter_results s))) as H.
  { specialize (H s ltac:(done)). destruct (deliver i s) as [s' [[]|e]]; [exact H|]. by rewrite app_nil_r. }
  set (F := bank_frame _ _ (waiter_results s)). unfold bank_deliver.
  eapply hoare_bind; [apply frame_fan|]. intros u. eapply hoare_bind; [apply frame_fan|]. intros now.
  eapply hoare_bind; [apply (always_modify F); done|]. intros u1.
  eapply hoare_bind.
  { apply (always_try F); [|intros; apply always_ret]. apply always_bind; [apply frame_fan|]. intros _. by apply always_modify. }
  intros u2. eapply hoare_bind; [apply (always_modify F); done|]. intros u3.
  eapply hoare_bind; [apply frame_fan|]. intros u4. eapply hoare_bind.
  { instantiate (1 := fun _ => F). destruct (b_start_time i); [|apply always_ret].
    apply (always_bind F); [apply frame_fan|]. intros at_. apply always_bind; [apply frame_fan|]. intros n. by apply always_modify. }
  intros u5. apply hoare_modify. intros s' (H1 & H2 & H3). destruct (b_waiter i); (split; [done|split; [done|]]).
  - cbn. by rewrite H3.
  - by rewrite H3, app_nil_r.
Qed.

Hypothesis uuid4_inj : forall i j, uuid4 i = uuid4 j -> i = j.

(** The targets a queued record is meant for. *)
Definition bank_targets (i : bank_item) (l : letta_state) : list string := fanout_targets C (fanout_item i) l.
Definition bank_payload (i : bank_item) : dict :=
  fanout_payload (JStr (b_event_id i)) (JStr (b_project i)) (JStr (b_file i)) (fanout_item i).

Lemma targets_known item l : List.filter (fun t => mem_str t FANOUT_TARGETS) (fanout_targets C item l) = fanout_targets C item l.
Proof.
  apply filter_all. intros t Ht. apply mem_str_In. unfold fanout_targets in Ht.
  rewrite !in_app_iff in Ht. revert Ht. cbn. destruct (negb _), (_ && _), (truthy _); cbn; tauto.
Qed.

(** A delivery that returns has handed the record to the fanout. *)
Lemma deliver_accepted i s s' : store_ok uuid4 (outbox (fan s)) -> mongo_faults (outbox (fan s)) = [] ->
  b_event_id i <> "" -> deliver i s = (s', Ok tt) ->
  exists now, accepted now (bank_payload i) false (docs (outbox (fan s))) (rows (tables (db (outbox (fan s)))))
    (bank_targets i (letta (fan s))) (outbox (fan s')).
Proof.
  intros Hok Hf Hid H. unfold bank_deliver in H. step_in H s1 u H1.
  assert (outbox (fan s1) = outbox (fan s) /\ letta (fan s1) = letta (fan s)) as [O1 T1].
  { unfold bank_write, in_fan, push in H1. destruct (answer E (ticks (fan s))); [done|]. by injection H1 as <- <-. }
  step_in H s2 now H2. injection H2 as <- <-. step_in H s2 u2 H2. injection H2 as <- <-. step_in H s3 u3 H3.
  assert (outbox (fan s3) = outbox (fan s) /\ letta (fan s3) = letta (fan s)) as [O3 T3].
  { unfold st_try, st_bind, in_fan, push in H3. cbn in H3. destruct (answer E _); injection H3 as <- <-; done. }
  step_in H s4 u4 H4. injection H4 as <- <-. step_in H s5 u5 H5. unfold in_fan in H5.
  cbn -[_enqueue_memory_write_fanout] in H5.
  destruct (_enqueue_memory_write_fanout C E (fanout_item i) (fan s3)) as [x [y|e]] eqn:Ew; [|done]. injection H5 as <- <-.
  assert (outbox (fan s') = outbox x) as ->.
  { step_in H s6 u6 H6. injection H as <-.
    assert (outbox (fan s6) = outbox x) as <-.
    { destruct (b_start_time i); [|by injection H6 as <- <-]. step_in H6 s7 a H7. injection H7 as <- <-.
      step_in H6 s8 n8 H8. injection H8 as <- <-. by injection H6 as <- <-. }
    by destruct (b_waiter i). }
  unfold _enqueue_memory_write_fanout in Ew. step_in Ew x1 y1 E1. injection E1 as <- <-.
  assert (truthy (b_event_id i) = true) as Ht by (by apply negb_true_iff, String.eqb_neq).
  step_in Ew x2 ev E2. cbn in E2. rewrite Ht in E2. injection E2 as <- <-. step_in Ew x2 pr E2. injection E2 as <- <-.
  step_in Ew x2 fl E2. injection E2 as <- <-. step_in Ew x2 now2 E2. injection E2 as <- <-.
  step_in Ew x3 c E3. injection Ew as <-. unfold in_outbox in E3. cbn [outbox tick q_enqueue queue_instance store_queue] in E3.
  exists (clock E (ticks (fan s3))).
  replace (outbox (put_signal C _ x3)) with (outbox x3) by (unfold put_signal; by destruct (queue_full _ _)).
  fold (bank_payload i) in E3. rewrite O3, T3 in E3.
  pose proof (enqueue_answers cfg uuid4 uuid4_inj (clock E (ticks (fan s3))) (bank_payload i) false Ht
    (bank_targets i (letta (fan s))) (outbox (fan s)) Hok Hf) as Ha.
  unfold bank_targets in Ha at 2. rewrite targets_known in Ha. unfold bank_targets in *.
  destruct (enqueue_fanout_outbox cfg uuid4 _ _ _ false (outbox (fan s))) as [w [c'|e]]; [|done].
  by injection E3 as <- <-.
Qed.

(** The requests since [L]. *)
Definition grew (L : list delivery) (s : write_state) : Prop := exists more, sent (fan s) = L ++ more.

Lemma grew_fan {A} L (m : ST (fanout_state outbox_store) A) :
  (forall x, exists more, sent (fst (m x)) = sent x ++ more) -> always (grew L) (in_fan m).
Proof.
  intros Hm s (more & Hs). unfold in_fan. destruct (Hm (fan s)) as (more' & H). destruct (m (fan s)) as [x [a|e]]; cbn in *;
    (exists (more ++ more'); cbn; by rewrite H, Hs, app_assoc).
Qed.

Lemma read_env_sent {A} (f : nat -> A) (x : fanout_state outbox_store) :
  exists more, sent (fst (read_env f x)) = sent x ++ more.
Proof. exists []. by rewrite app_nil_r. Qed.

Lemma enqueue_fanout_sent item x : exists more,
  sent (fst (_enqueue_memory_write_fanout (H := store_queue cfg uuid4) C E item x)) = sent x ++ more.
Proof.
  exists []. rewrite app_nil_r. set (same := fun y : fanout_state outbox_store => sent y = sent x).
  assert (forall A (m : ST outbox_store A), always same (in_outbox m)) as Hout.
  { intros A m s Hs. unfold in_outbox. by destruct (m (outbox s)) as [w [a|e]]. }
  assert (always same (_enqueue_memory_write_fanout (H := store_queue cfg uuid4) C E item)) as H;
    [|specialize (H x eq_refl); by destruct (_enqueue_memory_write_fanout C E item x) as [y [u|e]]].
  apply always_bind; [by intros s Hs|]. intros s0. cbv zeta.
  apply always_bind; [destruct (jtruthy _); [apply always_ret|apply always_bind; [apply Hout|intros u; apply always_ret]]|].
  intros ev. apply always_bind; [by intros s Hs; unfold st_lift; destruct (getitem item "project")|].
  intros p. apply always_bind; [by intros s Hs; unfold st_lift; destruct (getitem item "file")|].
  intros f. apply always_bind; [by intros s Hs|]. intros now. apply always_bind; [apply Hout|].
  intros c. apply always_modify. intros s Hs. unfold put_signal. by destruct (queue_full C s).
Qed.

(** The first request of a delivery is the write to the memory bank, whose
    refusal is its answer. *)
Lemma deliver_sent i s : exists more,
  sent (fan (fst (deliver i s))) = sent (fan s) ++ mkDelivery "memory_bank" [] [JObj (b_payload i)] (answer E (ticks (fan s))) :: more /\
  (forall e, answer E (ticks (fan s)) = Some e -> snd (deliver i s) = Raise e).
Proof.
  set (L := sent (fan s) ++ [mkDelivery "memory_bank" [] [JObj (b_payload i)] (answer E (ticks (fan s)))]).
  enough (grew L (fst (deliver i s)) /\ (forall e, answer E (ticks (fan s)) = Some e -> snd (deliver i s) = Raise e))
    as [[more Hm] He].
  { exists more. split; [|done]. rewrite Hm. unfold L. by rewrite <- app_assoc. }
  destruct (answer E (ticks (fan s))) as [e|] eqn:Ea.
  { unfold bank_deliver, bank_write, st_bind, in_fan, push. cbn. rewrite Ea. split; [by exists []; cbn; rewrite app_nil_r|].
    by intros e' [= <-]. }
  split; [|done]. unfold bank_deliver. unfold st_bind at 1, bank_write, in_fan at 1, push at 1. rewrite Ea. set (s1 := set_fan _ s). assert (grew L s1) as H1 by (exists []; cbn; by rewrite app_nil_r).
  match goal with |- grew L (fst (?m s1)) => assert (always (grew L) m) as Hm end;
    [|specialize (Hm s1 H1); match goal with |- grew L (fst ?x) => by destruct x as [s2 [a|e]] end].
  apply always_bind; [apply grew_fan, read_env_sent|]. intros now. cbn zeta.
  apply always_bind; [by apply always_modify|]. intros _.
  apply always_bind.
  { apply always_try; [|intros; apply always_ret]. apply always_bind; [apply grew_fan; intros x; eexists; reflexivity|].
    intros _. by apply always_modify. }
  intros _. apply always_bind; [by apply always_modify|]. intros _.
  apply always_bind; [apply grew_fan, enqueue_fanout_sent|]. intros _. apply always_bind.
  { destruct (b_start_time i); [|apply always_ret]. apply always_bind; [apply grew_fan, read_env_sent|]. intros at_.
    apply always_bind; [apply grew_fan, read_env_sent|]. intros n. by apply always_modify. }
  intros _. apply always_modify. intros s' Hs'. by destruct (b_waiter i).
Qed.

(** An enqueue into an outbox that answers returns. *)
Lemma enqueue_ready now p ts force w : store_ok uuid4 w -> ready cfg w = true -> jtruthy (dget p "event_id") = true ->
  exists w' c, enqueue_fanout_outbox cfg uuid4 now p ts force w = (w', Ok c).
Proof.
  intros Hok Hr Hid. unfold enqueue_fanout_outbox, st_bind at 1, read_event at 1. rewrite Hid. cbn [st_ret].
  set (ev := event_of_payload "" p). set (known := List.filter _ ts). unfold mongo_else_sqlite, _use_mongo_outbox.
  destruct (fanout_outbox_backend_active w) eqn:Eb.
  - change (bool_decide (BSqlite = BMongo)) with false. cbn match. unfold sqlite_else_mongo, st_try, recorded at 1, st_bind at 1.
    destruct (sqlite_enqueue_ok (fanout cfg) now ev known force (tables (db w)) (proj1 Hok)) as (st & c & Es & _).
    erewrite (on_sqlite_ready cfg); [|done|done|exact Es]. by do 2 eexists.
  - change (bool_decide (BMongo = BMongo)) with true. cbn match. unfold ready in Hr. rewrite Eb in Hr. blift.
    unfold st_try, recorded at 1, _enqueue_fanout_outbox_mongo, with_mongo, st_bind, init_fanout_outbox_mongo_client, _use_mongo_outbox.
    rewrite Eb. change (bool_decide (BMongo = BMongo)) with true. cbn [negb].
    destruct (pymongo_available cfg); [|done]. destruct (mongo_client w); [|done]. cbn [negb].
    unfold read_event. rewrite Hid. cbn [st_ret].
    destruct (mongo_targets_serve cfg uuid4 uuid4_inj now ev force (docs w) known zero_counts w Hok) as (w2 & c2 & Es & _);
      [by destruct (mongo_faults w)|intros r Hr'; by left|apply known_targets|].
    fold ev. rewrite Es. by do 2 eexists.
Qed.

(** A delivery that the memory bank accepts, into an outbox that answers,
    returns. *)
Lemma deliver_ready i s : store_ok uuid4 (outbox (fan s)) -> ready cfg (outbox (fan s)) = true ->
  b_event_id i <> "" -> answer E (ticks (fan s)) = None -> snd (deliver i s) = Ok tt.
Proof.
  intros Hok Hr Hid Ha. unfold bank_deliver. unfold st_bind at 1, bank_write, in_fan at 1, push at 1. rewrite Ha.
  set (s1 := set_fan _ s). unfold now_utc, in_fan at 1, read_env at 1, st_bind at 1. cbn match.
  unfold st_bind at 1, st_modify at 1. cbn match. set (s2 := set_history _ _ _). unfold st_bind at 1.
  assert (exists s3, st_try (in_fan (push E "history_file" [] [JStr (b_event_id i)]) ;;;
    st_modify (fun s => set_history (memory_write_history s) (history_file s ++ [mkHistory (_utc_now (clock E (ticks (fan s1))))
      (b_project i) (b_file i) (b_topic_path i) (b_summary i) (b_content_length i)]) s)) (fun _ => st_ret tt) s2 = (s3, Ok tt) /\
    outbox (fan s3) = outbox (fan s)) as (s3 & -> & Ho).
  { unfold st_try, st_bind, in_fan, push. cbn. destruct (answer E (S (S _))); eexists; split; reflexivity. }
  unfold st_bind at 1, st_modify at 1. cbn match. unfold st_bind at 1, in_fan at 1. cbn [fan set_tree].
  assert (exists x, _enqueue_memory_write_fanout (H := queue_instance cfg uuid4) C E (fanout_item i) (fan s3) = (x, Ok tt)) as (x & ->).
  { unfold _enqueue_memory_write_fanout, st_bind, st_get. cbn [fanout_item].
    assert (truthy (b_event_id i) = true) as Ht by (by apply negb_true_iff, String.eqb_neq).
    change (jtruthy (dget _ "event_id")) with (truthy (b_event_id i)). rewrite Ht. cbn [st_ret].
    change (getitem _ "project") with (Ok (JStr (b_project i))). change (getitem _ "file") with (Ok (JStr (b_file i))).
    cbn [st_lift read_env]. unfold in_outbox. cbn [q_enqueue queue_instance store_queue outbox tick]. rewrite Ho.
    edestruct (enqueue_ready (clock E (ticks (fan s3)))) as (w' & c & ->); [exact Hok|exact Hr|exact Ht|by eexists]. }
  cbn match. unfold st_bind. destruct (b_start_time i); done.
Qed.
End bank_worker.


(** A refusal by the memory bank drops the record: in asynchronous mode,
    where the client was answered when the record was queued, the record leaves
    the queue, nothing is handed to the outbox and nobody is told. *)
Theorem bank_refusal_drops_record cfg uuid4 C W E i rest e s :
  memory_bank_queue (bank s) = i :: rest -> b_waiter i = false -> answer E (ticks (fan s)) = Some e ->
  let '(s', r) := _memory_bank_worker cfg uuid4 C W E s in
  r = Ok tt /\ memory_bank_queue (bank s') = rest /\ outbox (fan s') = outbox (fan s) /\
  queue (fan s') = queue (fan s) /\ waiter_results s' = waiter_results s /\ rollups s' = rollups s /\
  memory_write_history s' = memory_write_history s.
Proof.
  intros Hq Hw Ha. unfold _memory_bank_worker. rewrite Hq. unfold st_finally, st_try, bank_deliver, st_bind, bank_write, in_fan, push.
  cbn. rewrite Ha. cbn. by rewrite Hw.
Qed.

(** ** Witnesses *)

(** One place in the bank queue. *)
Definition demo_small_config : write_config :=
  mkWriteConfig true (120 * us_per_sec) 10000 true 50000 true (20 * us_per_sec) "__rollup.json" 1 true
    "memmcp_notes" "root" 200.
Definition demo_sha (s : string) : string := "h" +:+ s.
Definition demo_write : MemoryWrite := mkMemoryWrite "proj" "notes/day.md" "hello" None.
Definition demo_plan : write_plan :=
  mkPlan "proj" "notes/day.md" "hello" None false (demo_sha "hello") false "notes" ["notes"] "hello".
Definition demo_bank_item (waiter : bool) : bank_item :=
  mkBankItem "p" "f.md" [] "" "root" ["root"] 0 None false None waiter None None "evt" None true "".
Definition demo_write_state (items : list bank_item) : write_state :=
  mkWrite (demo_fanout (empty_store BSqlite [] [] [])) empty_cache (mkAdmission 0 None 0 0) [] [] empty_rollups
    (mkBank items 0) 0 [] [] [] None None [].

Abbreviation demo_write_memory := (write_memory default_store_config demo_uuid default_worker_config demo_small_config
  default_record_policy demo_env demo_sha "redact" 5000000 (st_ret tt) demo_write None).

Lemma demo_uuid_text i : demo_uuid i <> "".
Proof. by destruct i. Qed.

Lemma write_memory_outcomes_witness : exists s' resp,
  demo_write_memory (demo_write_state []) = (s', Ok resp) /\
  deduped resp = false /\
  exists p, plan_write demo_small_config default_record_policy demo_sha "redact" demo_write = Ok p /\
    if negb (deduped resp) then
      write_recorded default_worker_config demo_small_config p None (demo_write_state []) s' resp
    else if latest_hash_unchanged resp then
      bank s' = bank (demo_write_state []) /\
      hot_memory_rollup_entries (rollups s') = hot_memory_rollup_entries (rollups (demo_write_state [])) /\
      exists now r, raw_recorded default_worker_config demo_small_config p (resp_event_id resp)
        (raw_event_of now (resp_event_id resp) None p) (demo_write_state []) s' r /\
        fanout_status resp = all_status "skipped" (raw_status r) "skipped"
    else look s' = look (demo_write_state []) /\ fanout_status resp = all_status "skipped" "skipped" "skipped".
Proof.
  do 2 eexists. split; [vm_compute; reflexivity|]. split; [reflexivity|].
  apply (write_memory_outcomes default_store_config demo_uuid default_worker_config demo_small_config default_record_policy
    demo_env demo_sha "redact" 5000000 (st_ret tt) demo_write None (demo_write_state [])).
  - exact demo_uuid_inj.
  - exact demo_uuid_text.
  - constructor.
  - reflexivity.
  - reflexivity.
  - vm_compute. reflexivity.
Defined.

Lemma refused_write_blocks_retry_witness : exists s1,
  demo_write_memory (demo_write_state [demo_bank_item false]) = (s1, Raise (HTTPException 503 "memory write queue full")) /\
  exists s3 resp, demo_write_memory (set_bank (mkBank [] 0) s1) = (s3, Ok resp) /\ deduped resp = true /\
    look s3 = look (set_bank (mkBank [] 0) s1).
Proof.
  destruct (refused_write_blocks_retry default_store_config demo_uuid default_worker_config demo_small_config
    default_record_policy demo_env demo_sha "redact" 5000000 (st_ret tt) demo_write None demo_plan
    (demo_write_state [demo_bank_item false])
    (set_bank (mkBank [] 0) (fst (demo_write_memory (demo_write_state [demo_bank_item false])))))
    as (s1 & E1 & _ & H).
  - vm_compute. reflexivity.
  - reflexivity.
  - reflexivity.
  - reflexivity.
  - split; [constructor|split; [cbn; lia|by intros k t []]].
  - vm_compute. reflexivity.
  - vm_compute. reflexivity.
  - exists s1. split; [exact E1|]. rewrite E1 in H. apply H; [reflexivity|].
    vm_compute in E1. injection E1 as <-. vm_compute. discriminate.
Defined.


Lemma bank_refusal_drops_record_witness :
  let '(s', r) := _memory_bank_worker default_store_config demo_uuid default_worker_config demo_small_config demo_env
                    (demo_write_state [demo_bank_item false]) in
  r = Ok tt /\ memory_bank_queue (bank s') = [] /\ outbox (fan s') = empty_store BSqlite [] [] [].
Proof.
  pose proof (bank_refusal_drops_record default_store_config demo_uuid default_worker_config demo_small_config demo_env
    (demo_bank_item false) [] (OrchestratorError "upstream error status=503") (demo_write_state [demo_bank_item false])
    eq_refl eq_refl eq_refl) as H.
  destruct (_memory_bank_worker _ _ _ _ _ _) as [s' r]. destruct H as (H1 & H2 & H3 & _). done.
Defined.
