(* ===== verification/Lru.v ===== *)
(** * Ordered dictionaries used as caches

    [collections.OrderedDict] with [move_to_end] and [popitem(last=False)]: the
    oldest entry comes first.  The orchestrator keeps its embedding, search,
    template, pathway and read caches this way, with or without an expiry
    time.  The lemmas on [recent] state what such a cache promises: the keys used
    last are kept. *)

From S2P Require Import Prelude PyStr OutboxMaint WriteBuffer WriteBufferFacts.
Open Scope Z_scope.

Section ordered.
Context {A : Type}.
Implicit Types (d : list (string * A)).

(** [d.move_to_end(k)] for a key that is present. *)
Definition move_to_end (k : string) d : list (string * A) :=
  match clookup k d with Some v => cdel k d ++ [(k, v)] | None => d end.

(** [d[k] = v; d.move_to_end(k)] *)
Definition put (k : string) (v : A) d : list (string * A) := move_to_end k (cset k v d).

(** [while len(d) > max_keys: d.popitem(last=False)] with the number of
    evictions; [fuel] is the length of the dictionary. *)
Fixpoint evict (fuel : nat) (max_keys : Z) d : list (string * A) * Z :=
  match fuel, d with
  | S fuel', _ :: rest =>
      if Z.of_nat (length d) <=? max_keys then (d, 0)
      else let '(d', n) := evict fuel' max_keys rest in (d', n + 1)
  | _, _ => (d, 0)
  end.

Definition put_bounded (max_keys : Z) (k : string) (v : A) d : list (string * A) * Z :=
  let d' := put k v d in evict (length d') max_keys d'.

(** ** Facts *)

Lemma cdel_app k d d' : cdel k (d ++ d') = cdel k d ++ cdel k d'.
Proof. apply List.filter_app. Qed.

Lemma cdel_notin k d : ~ In k (map fst d) -> cdel k d = d.
Proof.
  intros Hn. apply filter_all. intros [k' v] Hin. cbn. apply negb_true_iff, String.eqb_neq. intros ->.
  by apply (in_map fst) in Hin.
Qed.

Lemma cdel_keys k d : ~ In k (map fst (cdel k d)).
Proof. intros ([k' v] & Hk & [_ Hf]%filter_In)%in_map_iff. cbn in *. subst. by rewrite String.eqb_refl in Hf. Qed.

Lemma cdel_cset k v d : cdel k (cset k v d) = cdel k d.
Proof.
  induction d as [|[k' v'] d IH]; cbn; [by rewrite String.eqb_refl|]. destruct (k =s k') eqn:E; cbn.
  - blift. subst. by rewrite String.eqb_refl.
  - rewrite String.eqb_sym, E. cbn. f_equal. apply IH.
Qed.

(** A write puts its key last. *)
Lemma put_eq k v d : put k v d = cdel k d ++ [(k, v)].
Proof. unfold put, move_to_end. by rewrite clookup_cset, String.eqb_refl, cdel_cset. Qed.

Lemma NoDup_cdel k d : List.NoDup (map fst d) -> List.NoDup (map fst (cdel k d)).
Proof. apply NoDup_map_filter. Qed.

Lemma NoDup_put k v d : List.NoDup (map fst d) -> List.NoDup (map fst (put k v d)).
Proof.
  intros Hd. rewrite put_eq, map_app. apply List.NoDup_app; [by apply NoDup_cdel|repeat constructor; by intros []|].
  intros x Hx [<-|[]]. by apply cdel_keys in Hx.
Qed.

Lemma cdel_length k d : (length (cdel k d) <= length d)%nat.
Proof. apply filter_length_le. Qed.

(** Eviction drops from the front what is too much. *)
Lemma evict_skipn fuel max_keys d : 0 <= max_keys -> (length d <= fuel)%nat ->
  evict fuel max_keys d =
    (skipn (length d - Z.to_nat max_keys) d, Z.of_nat (length d - Z.to_nat max_keys)).
Proof.
  intros Hm. revert d. induction fuel as [|fuel IH]; intros d Hl.
  { destruct d; [done|cbn in Hl; lia]. }
  destruct d as [|x d]; [done|]. cbn [evict]. destruct (Z.of_nat (length (x :: d)) <=? max_keys) eqn:E; blift.
  - by replace (length (x :: d) - Z.to_nat max_keys)%nat with 0%nat by lia.
  - cbn [length] in *. rewrite IH by lia.
    replace (S (length d) - Z.to_nat max_keys)%nat with (S (length d - Z.to_nat max_keys)) by lia.
    cbn [skipn]. f_equal. lia.
Qed.

Lemma put_bounded_eq max_keys k v d : 0 <= max_keys ->
  put_bounded max_keys k v d =
    (skipn (length (put k v d) - Z.to_nat max_keys) (put k v d), Z.of_nat (length (put k v d) - Z.to_nat max_keys)).
Proof. intros Hm. by apply evict_skipn. Qed.

Lemma skipn_map_NoDup n d : List.NoDup (map fst d) -> List.NoDup (map fst (skipn n d)).
Proof.
  intros Hd. rewrite <- (firstn_skipn n d), map_app in Hd. by apply List.NoDup_app_remove_l in Hd.
Qed.

(** Keys are distinct and at most [max_keys]. *)
Definition bounded (max_keys : Z) d : Prop := List.NoDup (map fst d) /\ Z.of_nat (length d) <= max_keys.

Lemma put_bounded_ok max_keys k v d : 0 <= max_keys -> List.NoDup (map fst d) ->
  bounded max_keys (fst (put_bounded max_keys k v d)).
Proof.
  intros Hm Hd. rewrite put_bounded_eq by done. cbn. split; [by apply skipn_map_NoDup, NoDup_put|].
  rewrite length_skipn. lia.
Qed.

Lemma bounded_cdel max_keys k d : bounded max_keys d -> bounded max_keys (cdel k d).
Proof. intros [H1 H2]. split; [by apply NoDup_cdel|]. pose proof (cdel_length k d). lia. Qed.

Lemma move_to_end_length k d : List.NoDup (map fst d) -> (length (move_to_end k d) <= length d)%nat.
Proof.
  intros Hd. unfold move_to_end. destruct (clookup k d) as [v|] eqn:E; [|done]. apply clookup_In in E.
  rewrite length_app. cbn. assert (length (cdel k d) < length d)%nat; [|lia].
  apply (filter_length_lt _ d (k, v)); [done|]. cbn. by rewrite String.eqb_refl.
Qed.

Lemma move_to_end_put k v d : clookup k d = Some v -> move_to_end k d = put k v d.
Proof. intros H. rewrite put_eq. unfold move_to_end. by rewrite H. Qed.

Lemma bounded_move max_keys k d : bounded max_keys d -> bounded max_keys (move_to_end k d).
Proof.
  intros [H1 H2]. pose proof (move_to_end_length k d H1). split; [|lia].
  destruct (clookup k d) as [v|] eqn:E; [rewrite (move_to_end_put k v) by done; by apply NoDup_put|].
  unfold move_to_end. by rewrite E.
Qed.

(** ** Recently used keys are kept *)

(** The entry of [k] is in the cache and only keys of [T] were used after it. *)
Definition recent (k : string) (v : A) (T : list string) d : Prop :=
  exists pre suf, d = pre ++ (k, v) :: suf /\ ~ In k (map fst pre) /\ ~ In k (map fst suf) /\
    List.NoDup (map fst suf) /\ incl (map fst suf) T.

Lemma recent_lookup k v T d : recent k v T d -> clookup k d = Some v.
Proof.
  intros (pre & suf & -> & Hp & _). induction pre as [|[k' v'] pre IH]; cbn; [by rewrite String.eqb_refl|].
  destruct (k =s k') eqn:E; [blift; subst; cbn in Hp; tauto|]. apply IH. cbn in Hp. tauto.
Qed.

Lemma recent_put_same k v d : recent k v [] (put k v d).
Proof. rewrite put_eq. exists (cdel k d), []. repeat split; [apply cdel_keys|by intros []|constructor|by intros x []]. Qed.

Lemma recent_cdel k v T k' d : k <> k' -> recent k v T d -> recent k v T (cdel k' d).
Proof.
  intros Hk (pre & suf & -> & Hp & Hs & Hd & Hi). exists (cdel k' pre), (cdel k' suf).
  assert (forall l, incl (map fst (cdel k' l)) (map (A := string * A) fst l)) as Hincl.
  { intros l x (y & <- & [Hy _]%filter_In)%in_map_iff. by apply in_map. }
  split; [|split; [|split; [|split]]].
  - rewrite cdel_app. cbn. destruct (k =s k') eqn:E; [by blift|]. done.
  - intros Hx. by apply Hincl in Hx.
  - intros Hx. by apply Hincl in Hx.
  - by apply NoDup_cdel.
  - intros x Hx. by apply Hi, Hincl.
Qed.

Lemma recent_append k v T k' v' d : k <> k' -> ~ In k' (map fst d) -> recent k v T d -> recent k v (k' :: T) (d ++ [(k', v')]).
Proof.
  intros Hk Hn (pre & suf & -> & Hp & Hs & Hd & Hi). exists pre, (suf ++ [(k', v')]).
  rewrite <- app_assoc. rewrite map_app in *. cbn in *. rewrite in_app_iff in Hn. cbn in Hn. repeat split.
  - done.
  - rewrite in_app_iff. cbn. intros [?|[?|[]]]; [done|congruence].
  - apply List.NoDup_app; [done|repeat constructor; by intros []|]. intros x Hx [<-|[]]. tauto.
  - intros x [Hx|[<-|[]]]%in_app_iff; [right; by apply Hi|by left].
Qed.

(** A write of another key keeps the entry while fewer than [max_keys] keys
    were used after it. *)
Lemma recent_put_bounded max_keys k v T k' v' d : k <> k' ->
  Z.of_nat (length (nodup String.string_dec (k' :: T))) < max_keys -> recent k v T d ->
  recent k v (k' :: T) (fst (put_bounded max_keys k' v' d)).
Proof.
  intros Hk Hm Hr. rewrite put_bounded_eq by lia. cbn [fst].
  assert (recent k v (k' :: T) (put k' v' d)) as (pre & suf & Hd & Hp & Hs & Hnd & Hi).
  { rewrite put_eq. apply recent_append; [done|apply cdel_keys|by apply recent_cdel]. }
  assert (length suf <= length (nodup String.string_dec (k' :: T)))%nat as Hlen.
  { rewrite <- (length_map fst suf). apply List.NoDup_incl_length; [done|]. intros x Hx. by apply nodup_In, Hi. }
  rewrite Hd. set (n := (_ - _)%nat). assert (n <= length pre)%nat as Hn.
  { unfold n. rewrite length_app. cbn [length]. lia. }
  exists (skipn n pre), suf. split; [|split; [|done]].
  - rewrite skipn_app. by replace (n - length pre)%nat with 0%nat by lia.
  - intros Hx. apply Hp. rewrite <- (firstn_skipn n pre), map_app. apply in_app_iff. by right.
Qed.

(** A bounded write keeps what it writes. *)
Lemma recent_put_bounded_same max_keys k v d : 0 < max_keys -> recent k v [] (fst (put_bounded max_keys k v d)).
Proof.
  intros Hm. rewrite put_bounded_eq by lia. cbn [fst].
  destruct (recent_put_same k v d) as (pre & suf & Hd & Hp & Hs & Hn & Hi).
  assert (suf = []) as -> by (destruct suf as [|[k0 v0] suf]; [done|]; destruct (Hi k0); by left).
  rewrite Hd. set (n := (_ - _)%nat). assert (n <= length pre)%nat as Hl.
  { unfold n. rewrite length_app. cbn [length]. lia. }
  exists (skipn n pre), []. split; [rewrite skipn_app; by replace (n - length pre)%nat with 0%nat by lia|].
  split; [|done]. intros Hx. apply Hp. rewrite <- (firstn_skipn n pre), map_app. apply in_app_iff. by right.
Qed.

Lemma recent_move k v T k' d : k <> k' -> recent k v T d -> recent k v (k' :: T) (move_to_end k' d).
Proof.
  intros Hk Hr. unfold move_to_end. destruct (clookup k' d) as [v'|].
  - apply recent_append; [done|apply cdel_keys|by apply recent_cdel].
  - destruct Hr as (pre & suf & H1 & H2 & H3 & H4 & H5). exists pre, suf. do 4 (split; [done|]). intros x Hx. right. auto.
Qed.
End ordered.
