(* ===== verification/Caches.v ===== *)
(** * The caches of the orchestrator

    The embedding cache, the Letta search cache, the retrieval template cache,
    the pathway cache with its Redis backend, the statistics of pathways and
    the cache of memory files.  All are ordered dictionaries ([Lru]).  An entry
    is written by one function only, so the type checks on what is read back
    ([isinstance]) hold by typing and are not repeated. *)

From S2P Require Import Prelude PyStr PyTime Json JsonText Paths OutboxMaint WriteBuffer WriteBufferFacts Lru.
Open Scope Z_scope.

Record lru_config := mkLruConfig { enabled : bool; ttl : Z; (* microseconds *) max_keys : Z }.

Record cache (A : Type) := mkLruCache {
  entries : list (string * A); cache_hits : Z; cache_misses : Z; cache_evictions : Z }.
Arguments mkLruCache {A}. Arguments entries {A}. Arguments cache_hits {A}. Arguments cache_misses {A}. Arguments cache_evictions {A}.

Definition no_cache {A} : cache A := mkLruCache [] 0 0 0.

Section operations.
Context {A : Type}.
Implicit Types c : cache A.

Definition miss (d : list (string * A)) c : cache A := mkLruCache d (cache_hits c) (cache_misses c + 1) (cache_evictions c).
Definition hit (k : string) c : cache A :=
  mkLruCache (move_to_end k (entries c)) (cache_hits c + 1) (cache_misses c) (cache_evictions c).
Definition store (max : Z) (k : string) (v : A) c : cache A :=
  let '(d, n) := put_bounded max k v (entries c) in
  mkLruCache d (cache_hits c) (cache_misses c) (cache_evictions c + n).
End operations.

(** ** Embeddings *)

Section embeddings.
Context {vector : Type}.
Variable F : lru_config.
Variable sha1 : string -> string.

Definition _embedding_cache_key (EMBEDDING_PROVIDER EMBEDDING_MODEL text : string) : string :=
  sha1 (EMBEDDING_PROVIDER +:+ "|" +:+ EMBEDDING_MODEL +:+ "|" +:+ text).

Definition _embedding_cache_get (key : string) (c : cache vector) : cache vector * option vector :=
  if negb (enabled F) || (max_keys F <=? 0) then (c, None)
  else match clookup key (entries c) with
       | None => (miss (entries c) c, None)
       | Some v => (hit key c, Some v)
       end.

Definition _embedding_cache_set (key : string) (v : vector) (c : cache vector) : cache vector :=
  if negb (enabled F) || (max_keys F <=? 0) then c else store (max_keys F) key v c.
End embeddings.

(** ** Entries that expire *)

Section expiring.
Context {A : Type}.
Variable F : lru_config.

Definition cache_off : bool := negb (enabled F) || (ttl F <=? 0) || (max_keys F <=? 0).

Definition ttl_get (now : Z) (key : string) (c : cache (Z * A)) : cache (Z * A) * option A :=
  if cache_off then (c, None)
  else match clookup key (entries c) with
       | None => (miss (entries c) c, None)
       | Some (expires_at, v) =>
           if expires_at <=? now then (miss (cdel key (entries c)) c, None) else (hit key c, Some v)
       end.

Definition ttl_set (now : Z) (key : string) (v : A) (c : cache (Z * A)) : cache (Z * A) :=
  if cache_off then c else store (max_keys F) key (now + ttl F, v) c.
End expiring.

(** Search results of Letta. *)
Definition _letta_search_cache_key (sha1 : string -> string) (LETTA_AUTO_SESSION_ID query : string) (limit : Z)
    (project_filter topic_filter : option string) (top_k : Z) : string :=
  sha1 (join (String (Ascii.ascii_of_N 10) "")
    [LETTA_AUTO_SESSION_ID; query; str_of_Z limit; str_of_Z top_k;
     match project_filter with Some p => p | None => "" end; match topic_filter with Some t => t | None => "" end]).

Definition _letta_search_cache_get {A} (F : lru_config) : Z -> string -> cache (Z * list A) -> cache (Z * list A) * option (list A) :=
  ttl_get F.
Definition _letta_search_cache_set {A} (F : lru_config) : Z -> string -> list A -> cache (Z * list A) -> cache (Z * list A) :=
  ttl_set F.

(** [json.loads(json.dumps(value, default=str))], the value itself on an error. *)
Definition _json_clone (v : json) : json := match loads (dumps v) with Some v' => v' | None => v end.

(** Retrieval templates; [clone] is [_json_clone] on them. *)
Definition _retrieval_template_cache_get {A} (clone : A -> A) (F : lru_config) (now : Z) (key : string) (c : cache (Z * A))
  : cache (Z * A) * option A :=
  let '(c', r) := ttl_get F now key c in (c', option_map clone r).
Definition _retrieval_template_cache_set {A} (clone : A -> A) (F : lru_config) (now : Z) (key : string) (template : A)
    (c : cache (Z * A)) : cache (Z * A) := ttl_set F now key (clone template) c.

(** ** The pathway cache *)

(** What a search answers: results, debug information, warnings. *)
Record bundle := mkBundle { results : list dict; retrieval_debug : dict; bundle_warnings : list string }.

Definition bundle_json (b : bundle) : json :=
  JObj [("results", JList (map JObj (results b))); ("retrieval_debug", JObj (retrieval_debug b));
        ("warnings", JList (map JStr (bundle_warnings b)))].

(** [[dict(row) for row in l if isinstance(row, dict)]] *)
Fixpoint dict_rows (l : list json) : list dict :=
  match l with [] => [] | JObj d :: l' => d :: dict_rows l' | _ :: l' => dict_rows l' end.

Definition as_list (j : json) : list json := match j with JList l => l | _ => [] end.

(** The parts of a bundle, each cloned. *)
Definition clone_parts (rs : list json) (dbg : dict) (ws : list json) : bundle :=
  mkBundle (dict_rows (as_list (_json_clone (JList rs)))) (as_dict (_json_clone (JObj dbg)))
    (map jstr (as_list (_json_clone (JList ws)))).

Definition clone_bundle (b : bundle) : bundle :=
  clone_parts (map JObj (results b)) (retrieval_debug b) (map JStr (bundle_warnings b)).

(** The parts of a value read from the backend. *)
Definition bundle_of_json (parsed : json) : option bundle :=
  match parsed with
  | JObj d =>
      match dget d "results", dget d "retrieval_debug", dget d "warnings" with
      | JList rs, JObj dbg, JList ws => Some (clone_parts rs dbg ws)
      | _, _, _ => None
      end
  | _ => None
  end.

Section pathway.
Variable F : lru_config.
(** [orjson] if it is installed: its [dumps] and [loads]. *)
Variable orjson : option ((json -> string) * (string -> option json)).
(** [zlib.compress] and [zlib.decompress] ([None]: it raises). *)
Variables (compress : string -> string) (decompress : string -> option string).
Variable RETRIEVAL_PATHWAY_REDIS_COMPRESS : bool.

Definition encode_json : json -> string := match orjson with Some (dumps', _) => dumps' | None => dumps end.
Definition decode_json : string -> option json := match orjson with Some (_, loads') => loads' | None => loads end.

Definition _serialize_retrieval_pathway_bundle (b : bundle) : string :=
  let raw := encode_json (bundle_json (clone_bundle b)) in
  if RETRIEVAL_PATHWAY_REDIS_COMPRESS then "z:" +:+ compress raw else "j:" +:+ raw.

Definition _deserialize_retrieval_pathway_bundle (raw : string) : option bundle :=
  if negb (truthy raw) then None
  else
    let payload_bytes :=
      if startswith raw "z:" then decompress (drop 2 raw)
      else if startswith raw "j:" then Some (drop 2 raw)
      else match decompress raw with Some b => Some b | None => Some raw end in
    match payload_bytes with
    | None => None
    | Some b => match decode_json b with Some parsed => bundle_of_json parsed | None => None end
    end.

(** The cache in memory with the counters of its backend; [redis] is what the
    backend holds, each value with the time it expires. *)
Record pathway_cache := mkPathway {
  memory : cache (Z * bundle); redis : list (string * (Z * string));
  backend_hits : Z; backend_misses : Z; backend_errors : Z; backend_writes : Z; backend_write_errors : Z }.

(** The backend is configured and its client could be made. *)
Variable backend_enabled : bool.
Variable RETRIEVAL_PATHWAY_REDIS_PREFIX : string.

Definition _retrieval_pathway_redis_key (key : string) : string := RETRIEVAL_PATHWAY_REDIS_PREFIX +:+ key.

Definition set_memory (m : cache (Z * bundle)) (c : pathway_cache) : pathway_cache :=
  mkPathway m (redis c) (backend_hits c) (backend_misses c) (backend_errors c) (backend_writes c) (backend_write_errors c).

(** [fault]: the exception of the Redis call, if it raises. *)
Definition _retrieval_pathway_cache_backend_get (now : Z) (fault : option exn) (key : string) (c : pathway_cache)
  : pathway_cache * option bundle :=
  if negb backend_enabled then (c, None)
  else
    let count h m e := mkPathway (memory c) (redis c) (backend_hits c + h) (backend_misses c + m) (backend_errors c + e)
                         (backend_writes c) (backend_write_errors c) in
    match fault with
    | Some _ => (count 0 0 1, None)
    | None =>
        match clookup (_retrieval_pathway_redis_key key) (redis c) with
        | None => (count 0 1 0, None)
        | Some (expires_at, blob) => if expires_at <=? now then (count 0 1 0, None) else match _deserialize_retrieval_pathway_bundle blob with
                       | None => (count 0 0 1, None)
                       | Some b => (count 1 0 0, Some b)
                       end
        end
    end.

(** [max(1, int(math.ceil(RETRIEVAL_PATHWAY_CACHE_TTL_SECS)))] seconds *)
Definition redis_ttl : Z := Z.max 1 (- (- ttl F / us_per_sec)) * us_per_sec.

Definition _retrieval_pathway_cache_backend_set (now : Z) (fault : option exn) (key : string) (b : bundle) (c : pathway_cache)
  : pathway_cache :=
  if negb backend_enabled then c
  else match fault with
       | Some _ => mkPathway (memory c) (redis c) (backend_hits c) (backend_misses c) (backend_errors c)
                     (backend_writes c) (backend_write_errors c + 1)
       | None => mkPathway (memory c)
                   (cset (_retrieval_pathway_redis_key key) (now + redis_ttl, _serialize_retrieval_pathway_bundle b) (redis c))
                   (backend_hits c) (backend_misses c) (backend_errors c) (backend_writes c + 1) (backend_write_errors c)
       end.

(** An entry in memory that is not expired is served; otherwise the backend is
    asked and its answer is kept in memory. *)
Definition _retrieval_pathway_cache_get (now : Z) (fault : option exn) (key : string) (c : pathway_cache)
  : pathway_cache * option bundle :=
  if cache_off F then (c, None)
  else
    let from_backend c :=
      match _retrieval_pathway_cache_backend_get now fault key c with
      | (c', Some b) =>
          let '(d, _) := put_bounded (max_keys F) key (now + ttl F, clone_bundle b) (entries (memory c')) in
          (set_memory (mkLruCache d (cache_hits (memory c') + 1) (cache_misses (memory c')) (cache_evictions (memory c'))) c',
           Some b)
      | (c', None) => (set_memory (miss (entries (memory c')) (memory c')) c', None)
      end in
    match clookup key (entries (memory c)) with
    | Some (expires_at, b) =>
        if expires_at <=? now then
          let m := memory c in
          from_backend (set_memory (mkLruCache (cdel key (entries m)) (cache_hits m) (cache_misses m) (cache_evictions m)) c)
        else (set_memory (hit key (memory c)) c, Some (clone_bundle b))
    | None => from_backend c
    end.

Definition _retrieval_pathway_cache_set (now : Z) (fault : option exn) (key : string) (b : bundle) (c : pathway_cache)
  : pathway_cache :=
  if cache_off F then c
  else
    let b := clone_bundle b in
    _retrieval_pathway_cache_backend_set now fault key b
      (set_memory (store (max_keys F) key (now + ttl F, b) (memory c)) c).
End pathway.

(** ** Memory files *)

Record read_config := mkReadConfig {
  MEMMCP_READ_CACHE_MAX_KEYS : Z; MEMMCP_READ_CACHE_FRESH_TTL_SECS : Z; MEMMCP_READ_CACHE_STALE_MAX_SECS : Z;
  MEMMCP_READ_FAIL_OPEN_ENABLED : bool; MEMMCP_READ_CACHE_REFRESH_MAX_INFLIGHT : Z }.

Definition default_read_config : read_config :=
  mkReadConfig 20000 (900 * us_per_sec) (86400 * us_per_sec) true 8.

Definition _memory_read_cache_key (project file_name : string) : result string :=
  let! file_token := normalize_memory_path file_name in
  Ok (lower (strip project) +:+ "::" +:+ lower (strip file_token)).

(** The content, and whether it is past its fresh time. *)
Definition read_cached (R : read_config) (now : Z) (key : string) (allow_stale : bool) (c : cache (Z * string))
  : cache (Z * string) * option (string * bool) :=
  match clookup key (entries c) with
  | None => (miss (entries c) c, None)
  | Some (fetched, content) =>
      let age := Z.max 0 (now - fetched) in
      let is_fresh := age <=? MEMMCP_READ_CACHE_FRESH_TTL_SECS R in
      let is_acceptable_stale := allow_stale && (age <=? MEMMCP_READ_CACHE_STALE_MAX_SECS R) in
      if (0 <? fetched) && (is_fresh || is_acceptable_stale) then (hit key c, Some (content, negb is_fresh))
      else (miss (cdel key (entries c)) c, None)
  end.

Definition _memory_read_cache_get (R : read_config) (now : Z) (project file_name : string) (allow_stale : bool)
  : ST (cache (Z * string)) (option (string * bool)) := fun c =>
  if MEMMCP_READ_CACHE_MAX_KEYS R <=? 0 then (c, Ok None)
  else match _memory_read_cache_key project file_name with
       | Raise e => (c, Raise e)
       | Ok key => let '(c', r) := read_cached R now key allow_stale c in (c', Ok r)
       end.

Definition _memory_read_cache_set (R : read_config) (now : Z) (project file_name content : string)
  : ST (cache (Z * string)) unit := fun c =>
  if MEMMCP_READ_CACHE_MAX_KEYS R <=? 0 then (c, Ok tt)
  else if negb (truthy content) then (c, Ok tt)
  else match _memory_read_cache_key project file_name with
       | Raise e => (c, Raise e)
       | Ok key => (store (MEMMCP_READ_CACHE_MAX_KEYS R) key (now, content) c, Ok tt)
       end.

(** ** Facts *)

Section facts.
Context {A : Type}.

Lemma store_entries max k (v : A) c : entries (store max k v c) = fst (put_bounded max k v (entries c)).
Proof. unfold store. by destruct (put_bounded max k v (entries c)). Qed.
End facts.

Section ttl_facts.
Context {A : Type}.
Variable F : lru_config.
Hypothesis on : cache_off F = false.
Implicit Types c : cache (Z * A).

Lemma cache_on : 0 < ttl F /\ 0 < max_keys F.
Proof. unfold cache_off in on. blift. done. Qed.

(** Reads and writes of a cache, each with its time. *)
Inductive access := Read (now : Z) (key : string) | Write (now : Z) (key : string) (v : A).
Definition access_key (a : access) : string := match a with Read _ k | Write _ k _ => k end.

Definition do_access (a : access) c : cache (Z * A) :=
  match a with Read now k => fst (ttl_get F now k c) | Write now k v => ttl_set F now k v c end.

Definition run_accesses (l : list access) c : cache (Z * A) := fold_left (fun c a => do_access a c) l c.

Lemma do_access_bounded a c : bounded (max_keys F) (entries c) -> bounded (max_keys F) (entries (do_access a c)).
Proof.
  intros Hb. destruct cache_on as [_ Hm]. destruct a as [now k|now k v]; cbn; unfold ttl_get, ttl_set; rewrite on.
  - destruct (clookup k (entries c)) as [[t v]|]; [|done]. destruct (t <=? now); [by apply bounded_cdel|].
    by apply bounded_move.
  - rewrite store_entries. apply put_bounded_ok; [lia|apply Hb].
Qed.

(** One access of another key keeps a recent entry. *)
Lemma do_access_recent a k v T c : access_key a <> k ->
  Z.of_nat (length (nodup String.string_dec (access_key a :: T))) < max_keys F ->
  recent k v T (entries c) -> recent k v (access_key a :: T) (entries (do_access a c)).
Proof.
  intros Hk Hm Hr. assert (forall d, recent k v T d -> recent k v (access_key a :: T) d) as Hmono.
  { intros d (pre & suf & H1 & H2 & H3 & H4 & H5). exists pre, suf. do 4 (split; [done|]). intros x Hx. right. auto. }
  destruct a as [now k'|now k' v']; cbn in *; unfold ttl_get, ttl_set; rewrite on.
  - destruct (clookup k' (entries c)) as [[t w]|]; [|by apply Hmono].
    destruct (t <=? now); [apply Hmono, recent_cdel; [congruence|done]|apply recent_move; [congruence|done]].
  - rewrite store_entries. apply recent_put_bounded; [congruence|done..].
Qed.

Lemma run_recent l k v T c : (forall a, In a l -> access_key a <> k) ->
  Z.of_nat (length (nodup String.string_dec (map access_key l ++ T))) < max_keys F ->
  recent k v T (entries c) -> exists T', recent k v T' (entries (run_accesses l c)).
Proof.
  revert T c. induction l as [|a l IH]; intros T c Hk Hm Hr; cbn; [eauto|].
  cbn [map app] in Hm.
  assert (length (nodup String.string_dec (access_key a :: T)) <=
    length (nodup String.string_dec (access_key a :: map access_key l ++ T)))%nat as H1.
  { apply List.NoDup_incl_length; [apply NoDup_nodup|]. intros x [<-|Hx]%nodup_In; apply nodup_In; [by left|].
    right. apply in_or_app. by right. }
  assert (length (nodup String.string_dec (map access_key l ++ access_key a :: T)) <=
    length (nodup String.string_dec (access_key a :: map access_key l ++ T)))%nat as H2.
  { apply List.NoDup_incl_length; [apply NoDup_nodup|]. intros x Hx%nodup_In. apply nodup_In.
    rewrite in_app_iff in Hx. cbn in Hx |- *. rewrite in_app_iff. tauto. }
  apply (IH (access_key a :: T)); [intros b Hb; apply Hk; by right|lia|].
  apply do_access_recent; [apply Hk; by left|lia|done].
Qed.
End ttl_facts.

(** A cache with room for [max_keys] entries serves what was written last:
    after a write of a key, any accesses of fewer than [max_keys] other keys
    leave it there, and a read before it expires answers the value; after it
    expires a read answers nothing.  The cache never holds more than
    [max_keys] entries. *)
Theorem cache_serves_recent_writes {A} F (c : cache (Z * A)) key v now now' accesses :
  cache_off F = false -> bounded (max_keys F) (entries c) ->
  (forall a, In a accesses -> access_key a <> key) ->
  Z.of_nat (length (nodup String.string_dec (map access_key accesses))) < max_keys F ->
  let c' := run_accesses F accesses (ttl_set F now key v c) in
  bounded (max_keys F) (entries c') /\
  snd (ttl_get F now' key c') = if now' <? now + ttl F then Some v else None.
Proof.
  intros Hon Hb Hk Hm. cbn zeta. destruct (cache_on F Hon) as [_ Hmax]. split.
  - assert (bounded (max_keys F) (entries (ttl_set F now key v c))) as Hb0.
    { change (ttl_set F now key v c) with (do_access F (Write now key v) c). by apply do_access_bounded. }
    clear Hk Hm. revert Hb0. generalize (ttl_set F now key v c). induction accesses as [|a l IH]; intros c0 Hb0; cbn; [done|].
    apply IH. by apply do_access_bounded.
  - assert (recent key (now + ttl F, v) [] (entries (ttl_set F now key v c))) as Hr.
    { unfold ttl_set. rewrite Hon, store_entries. apply recent_put_bounded_same. lia. }
    destruct (run_recent F Hon accesses key (now + ttl F, v) [] (ttl_set F now key v c)) as [T Ht]; [done| |done|].
    { by rewrite app_nil_r. }
    apply recent_lookup in Ht. unfold ttl_get. rewrite Hon, Ht. rewrite Z.leb_antisym.
    by destruct (now' <? now + ttl F).
Qed.

Lemma cache_serves_recent_writes_witness :
  let F := mkLruConfig true 90 2 in
  let c' := run_accesses F [Write 5 "b" 2; Read 6 "b"] (ttl_set F 1 "a" 1 no_cache) in
  bounded (max_keys F) (entries c') /\ snd (ttl_get F 7 "a" c') = Some 1.
Proof.
  apply (cache_serves_recent_writes (mkLruConfig true 90 2) no_cache "a" 1 1 7 [Write 5 "b" 2; Read 6 "b"]).
  - reflexivity.
  - split; [constructor|cbn; lia].
  - intros a [<-|[<-|[]]]; discriminate.
  - vm_compute. reflexivity.
Defined.

(** ** Bundles *)

Lemma json_clone_wf j : json_wf j -> _json_clone j = j.
Proof. intros Hj. unfold _json_clone. by rewrite loads_dumps. Qed.

Lemma dict_rows_map l : dict_rows (map JObj l) = l.
Proof. induction l as [|d l IH]; cbn; [done|by rewrite IH]. Qed.

Definition bundle_wf (b : bundle) : Prop := json_wf (bundle_json b).

Lemma bundle_wf_parts b : bundle_wf b -> json_wf (JList (map JObj (results b))) /\ json_wf (JObj (retrieval_debug b)) /\
  json_wf (JList (map JStr (bundle_warnings b))).
Proof. unfold bundle_wf. cbn. tauto. Qed.

Lemma clone_parts_wf b : bundle_wf b ->
  clone_parts (map JObj (results b)) (retrieval_debug b) (map JStr (bundle_warnings b)) = b.
Proof.
  intros (H1 & H2 & H3)%bundle_wf_parts. unfold clone_parts. rewrite !json_clone_wf by done. cbn.
  rewrite dict_rows_map, List.map_map. cbn. rewrite map_id. by destruct b.
Qed.

Lemma clone_bundle_wf b : bundle_wf b -> clone_bundle b = b.
Proof. apply clone_parts_wf. Qed.

Lemma bundle_roundtrip orjson compress decompress flag b :
  (forall s, decompress (compress s) = Some s) ->
  match orjson with Some (dumps', loads') => forall j, json_wf j -> loads' (dumps' j) = Some j | None => True end ->
  bundle_wf b ->
  _deserialize_retrieval_pathway_bundle orjson decompress (_serialize_retrieval_pathway_bundle orjson compress flag b) = Some b.
Proof.
  intros Hz Ho Hb.
  unfold _serialize_retrieval_pathway_bundle. rewrite clone_bundle_wf by done.
  assert (decode_json orjson (encode_json orjson (bundle_json b)) = Some (bundle_json b)) as Hdec.
  { unfold decode_json, encode_json. destruct orjson as [[d l]|]; [by apply Ho|by apply loads_dumps]. }
  assert (bundle_of_json (bundle_json b) = Some b) as Hof.
  { change (Some (clone_parts (map JObj (results b)) (retrieval_debug b) (map JStr (bundle_warnings b))) = Some b).
    by rewrite clone_parts_wf. }
  unfold _deserialize_retrieval_pathway_bundle. destruct flag.
  - rewrite startswith_app.
    change (match decompress (compress (encode_json orjson (bundle_json b))) with
            | None => None
            | Some x => match decode_json orjson x with Some parsed => bundle_of_json parsed | None => None end
            end = Some b). by rewrite Hz, Hdec.
  - assert (startswith ("j:" +:+ encode_json orjson (bundle_json b)) "z:" = false) as -> by done. rewrite startswith_app.
    change (match decode_json orjson (encode_json orjson (bundle_json b)) with
            | Some parsed => bundle_of_json parsed | None => None end = Some b). by rewrite Hdec.
Qed.

(** What the pathway cache writes to its backend is read back as it was:
    with either JSON library, compressed or not, and stored bundles survive
    cloning. *)
Theorem pathway_bundle_roundtrip orjson compress decompress flag b :
  (forall s, decompress (compress s) = Some s) ->
  match orjson with Some (dumps', loads') => forall j, json_wf j -> loads' (dumps' j) = Some j | None => True end ->
  bundle_wf b ->
  _deserialize_retrieval_pathway_bundle orjson decompress (_serialize_retrieval_pathway_bundle orjson compress flag b) = Some b
  /\ clone_bundle b = b.
Proof. intros Hz Ho Hb. split; [by apply bundle_roundtrip|by apply clone_bundle_wf]. Qed.

Definition demo_bundle : bundle :=
  mkBundle [[("project", JStr "p"); ("file", JStr "a.md"); ("score", JInt 1)]] [("retrieval_mode", JStr "fast")] ["slow"].

Lemma pathway_bundle_roundtrip_witness :
  _deserialize_retrieval_pathway_bundle None Some (_serialize_retrieval_pathway_bundle None (fun s => s) true demo_bundle)
    = Some demo_bundle /\ clone_bundle demo_bundle = demo_bundle.
Proof.
  apply (pathway_bundle_roundtrip None (fun s => s) Some true demo_bundle).
  - reflexivity.
  - exact I.
  - cbn. repeat (split || constructor); cbn; try tauto; intros H; repeat destruct H as [H|H]; done.
Defined.

(** The pathway cache is shared through its backend: a bundle that one
    process sets is what another process, with nothing in memory, gets until
    the backend expires it; then and after a backend failure the read is a
    miss. *)
Theorem pathway_backend_shares F orjson compress decompress flag prefix key b now now' fault (c c2 : pathway_cache) :
  (forall s, decompress (compress s) = Some s) ->
  match orjson with Some (dumps', loads') => forall j, json_wf j -> loads' (dumps' j) = Some j | None => True end ->
  bundle_wf b -> cache_off F = false -> clookup key (entries (memory c2)) = None ->
  redis c2 = redis (_retrieval_pathway_cache_set F orjson compress flag true prefix now None key b c) ->
  snd (_retrieval_pathway_cache_get F orjson decompress true prefix now' fault key c2) =
    match fault with
    | Some _ => None
    | None => if now' <? now + redis_ttl F then Some b else None
    end.
Proof.
  intros Hz Ho Hb Hon Hnone Hredis. unfold _retrieval_pathway_cache_get. rewrite Hon, Hnone.
  unfold _retrieval_pathway_cache_backend_get. cbn [negb]. destruct fault as [e|]; [done|].
  rewrite Hredis. unfold _retrieval_pathway_cache_set. rewrite Hon. cbn [negb _retrieval_pathway_cache_backend_set redis set_memory].
  rewrite clookup_cset, String.eqb_refl, clone_bundle_wf by done.
  rewrite Z.leb_antisym. destruct (now' <? now + redis_ttl F); cbn [negb]; [|done].
  assert (_deserialize_retrieval_pathway_bundle orjson decompress
    (_serialize_retrieval_pathway_bundle orjson compress flag b) = Some b) as ->.
  { by apply (bundle_roundtrip orjson compress decompress flag b). }
  by destruct (put_bounded _ _ _ _).
Qed.

Lemma pathway_backend_shares_witness :
  let F := mkLruConfig true (90 * us_per_sec) 10 in
  let c := mkPathway no_cache [] 0 0 0 0 0 in
  snd (_retrieval_pathway_cache_get F None Some true "p:" (50 * us_per_sec) None "k"
    (set_memory no_cache (_retrieval_pathway_cache_set F None (fun s => s) true true "p:" 7 None "k" demo_bundle c)))
  = Some demo_bundle.
Proof.
  apply (pathway_backend_shares (mkLruConfig true (90 * us_per_sec) 10) None (fun s => s) Some true "p:" "k" demo_bundle 7
    (50 * us_per_sec) None (mkPathway no_cache [] 0 0 0 0 0)).
  - reflexivity.
  - exact I.
  - cbn. repeat (split || constructor); cbn; try tauto; intros H; repeat destruct H as [H|H]; done.
  - reflexivity.
  - reflexivity.
  - reflexivity.
Defined.
