(* ===== verification/Mcp.v ===== *)
(** * The memory MCP client

    The session with the memory server: requests with their retries
    ([_post_mcp_request]), opening and renewing a session
    ([_ensure_mcp_session]), a call ([_call_mcp], [call_memory_tool]) and the
    reading of answers.  The server answers request [n] with [server n]; every
    request is noted in [posted]. *)

From S2P Require Import Prelude PyStr Json JsonText.
From Stdlib Require Import Ascii.
Open Scope Z_scope.

(** ** Texts *)

(** ASCII line ends of [str.splitlines]: LF, VT, FF, CR, FS, GS, RS. *)
Definition is_line_end (c : ascii) : bool :=
  let n := Z.of_N (ascii_code c) in ((10 <=? n) && (n <=? 13)) || ((28 <=? n) && (n <=? 30)).

(** [s.splitlines()]: CR LF is one end; no line after the last end. *)
Fixpoint lines_from (line : string) (after_cr : bool) (s : string) : list string :=
  match s with
  | EmptyString => if truthy line then [line] else []
  | String c s' =>
      if Ascii.eqb c (ascii_of_N 10) && after_cr then lines_from line false s'
      else if is_line_end c then line :: lines_from "" (Ascii.eqb c (ascii_of_N 13)) s'
      else lines_from (line +:+ String c "") false s'
  end.
Definition splitlines (s : string) : list string := lines_from "" false s.

Definition is_str (j : json) : option string := match j with JStr s => Some s | _ => None end.

(** ** Responses *)

Record http_response := mkHttp { status_code : Z; resp_text : string; resp_headers : list (string * string) }.

(** What a post comes to: a response, [httpx.ReadTimeout] or another
    [httpx.HTTPError] with its text. *)
Inductive post_outcome := Answer (r : http_response) | ReadTimeout | HttpError (err : string).

(** [headers.get(key)]: names ignore case. *)
Fixpoint header (key : string) (hs : list (string * string)) : option string :=
  match hs with
  | [] => None
  | (k, v) :: hs' => if lower k =s lower key then Some v else header key hs'
  end.

Fixpoint first_header (keys : list string) (hs : list (string * string)) : option string :=
  match keys with
  | [] => None
  | key :: keys' =>
      match header key hs with
      | Some v => if truthy (strip v) then Some (strip v) else first_header keys' hs
      | None => first_header keys' hs
      end
  end.

Definition _extract_mcp_session_id (hs : list (string * string)) : option string :=
  first_header ["mcp-session-id"; "x-mcp-session-id"; "Mcp-Session-Id"; "X-Mcp-Session-Id"] hs.

Definition _mcp_error_detail_from_response (r : http_response) : string :=
  let text := strip (resp_text r) in
  let fallback := if truthy text then take 500 text else "Memory MCP HTTP " +:+ str_of_Z (status_code r) in
  if truthy text then
    match loads text with
    | Some (JObj payload) =>
        match dget payload "error" with
        | JObj error => match dget error "message" with
                        | JStr message => if truthy (strip message) then strip message else fallback
                        | _ => fallback
                        end
        | _ => fallback
        end
    | _ => fallback
    end
  else fallback.

Definition _is_mcp_missing_session_error (code : Z) (detail : string) : bool :=
  existsb (Z.eqb code) [400; 401; 404; 422] &&
  existsb (contains (lower detail))
    ["no valid session id"; "no valid session-id"; "session id required"; "invalid session id"; "session not found"].

(** The last [data:] line that holds an object. *)
Definition event_payload (text : string) : option dict :=
  fold_left (fun acc line =>
    let line := strip line in
    if negb (startswith line "data:") then acc
    else
      let raw := strip (drop 5 line) in
      if negb (truthy raw) then acc
      else match loads raw with Some (JObj d) => Some d | _ => acc end)
    (splitlines text) None.

Definition _extract_mcp_payload (r : http_response) : result dict :=
  match event_payload (resp_text r) with
  | Some d => Ok d
  | None =>
      match loads (resp_text r) with
      | Some (JObj d) => Ok d
      | _ => if truthy (resp_text r)
             then Raise (HTTPException 502 ("Unable to parse MCP response payload: " +:+ take 300 (resp_text r)))
             else Raise (HTTPException 502 "No MCP response payload")
      end
  end.

(** Two parsed values are one object only for texts of at most one character;
    other shared objects hold no text. *)
Definition same_object (a b : json) : bool :=
  match a, b with JStr x, JStr y => (x =s y) && (String.length x <=? 1)%nat | _, _ => false end.

Fixpoint _extract_mcp_text_chunks (content : json) : list string :=
  match content with
  | JStr s => if truthy s then [s] else []
  | JList l => flat_map _extract_mcp_text_chunks l
  | JObj d =>
      let parts := map (fun kv => (fst kv, _extract_mcp_text_chunks (snd kv))) d in
      let part k := match List.find (fun kv => fst kv =s k) parts with Some (_, c) => c | None => [] end in
      (match dget d "text" with JStr s => if truthy s then [s] else [] | _ => [] end)
      ++ part "content"
      ++ (if same_object (dget d "data") (dget d "content") then [] else part "data")
  | _ => []
  end.

(** The text of an error result. *)
Fixpoint error_of_chunks (chunks : list string) : string :=
  match chunks with
  | [] => "MCP tool returned isError=true"
  | chunk :: chunks' =>
      let text := strip chunk in
      if negb (truthy text) then error_of_chunks chunks'
      else match loads text with
           | Some (JObj parsed) =>
               match jor (jor (dget parsed "error") (dget parsed "message")) (dget parsed "detail") with
               | JStr detail =>
                   if truthy detail then
                     match dget parsed "name" with
                     | JStr name => if truthy name then name +:+ ": " +:+ detail else detail
                     | _ => detail
                     end
                   else text
               | _ => text
               end
           | _ => text
           end
  end.

Definition _mcp_result_error_message (result : dict) : option string :=
  if negb (jtruthy (dget result "isError")) then None
  else Some (error_of_chunks (_extract_mcp_text_chunks (dget result "content"))).

(** ** The client *)

(** A request: its payload and its session header. *)
Record mcp_state := mkMcp { MCP_SESSION_ID : option string; posted : list (dict * option string); ids : nat }.

Section client.
Variable MEMMCP_HTTP_RETRIES : Z.
Variables (protocol_version MCP_CLIENT_NAME MCP_CLIENT_VERSION : string).
Variable server : nat -> post_outcome.
Variable uuid4 : nat -> string.

Definition set_session (sid : option string) : ST mcp_state unit :=
  st_modify (fun s => mkMcp sid (posted s) (ids s)).

(** [headers[MCP_SESSION_HEADER] = session_id] only for a non-empty identifier. *)
Definition session_header (session_id : option string) : option string :=
  match session_id with Some x => if truthy x then Some x else None | None => None end.

(** [client.post(MEMMCP_HTTP_URL, json=payload, headers=headers)] *)
Definition post (payload : dict) (session_id : option string) : ST mcp_state post_outcome := fun s =>
  (mkMcp (MCP_SESSION_ID s) (posted s ++ [(payload, session_header session_id)]) (ids s), Ok (server (length (posted s)))).

(** Attempts [attempt], [attempt + 1], ...; [fuel] attempts are left. *)
Fixpoint post_attempts (fuel : nat) (attempt : Z) (payload : dict) (session_id : option string) : ST mcp_state http_response :=
  match fuel with
  | O => st_raise (HTTPException 502 "Memory MCP error: None")
  | S fuel' =>
      o <- post payload session_id ;;
      match o with
      | Answer r => st_ret r
      | ReadTimeout =>
          if MEMMCP_HTTP_RETRIES <=? attempt then st_raise (HTTPException 504 "Memory MCP timeout")
          else post_attempts fuel' (attempt + 1) payload session_id
      | HttpError err =>
          if MEMMCP_HTTP_RETRIES <=? attempt then st_raise (HTTPException 502 ("Memory MCP error: " +:+ err))
          else post_attempts fuel' (attempt + 1) payload session_id
      end
  end.

Definition _post_mcp_request (payload : dict) (session_id : option string) : ST mcp_state http_response :=
  post_attempts (Z.to_nat (Z.max MEMMCP_HTTP_RETRIES 1)) 1 payload session_id.

Definition new_id : ST mcp_state string := fun s => (mkMcp (MCP_SESSION_ID s) (posted s) (S (ids s)), Ok (uuid4 (ids s))).

Definition init_payload (rid : string) : dict :=
  [("jsonrpc", JStr "2.0"); ("id", JStr rid); ("method", JStr "initialize");
   ("params", JObj [("protocolVersion", JStr protocol_version); ("capabilities", JObj []);
                    ("clientInfo", JObj [("name", JStr MCP_CLIENT_NAME); ("version", JStr MCP_CLIENT_VERSION)])])].

(** A text under a key that is not blank. *)
Definition text_field (r : dict) (k : string) : option string :=
  match is_str (dget r k) with
  | Some v => if truthy (strip v) then Some (strip v) else None
  | None => None
  end.

(** [sessionId] or [session_id] of the result. *)
Definition session_of_result (init_response : dict) : option string :=
  match dget init_response "result" with
  | JObj r => match text_field r "sessionId" with Some v => Some v | None => text_field r "session_id" end
  | _ => None
  end.

(** The body of [_ensure_mcp_session] under its lock. *)
Definition open_session : ST mcp_state string :=
  rid <- new_id ;;
  r <- _post_mcp_request (init_payload rid) None ;;
  if negb (status_code r =? 200) then st_raise (HTTPException (status_code r) (_mcp_error_detail_from_response r))
  else
    sid <- match _extract_mcp_session_id (resp_headers r) with
           | Some v => st_ret (Some v)
           | None => d <- st_lift (_extract_mcp_payload r) ;; st_ret (session_of_result d)
           end ;;
    match sid with
    | None => st_raise (HTTPException 502 "Memory MCP initialize did not return a session id")
    | Some v =>
        set_session (Some v) ;;;
        st_try (_post_mcp_request [("jsonrpc", JStr "2.0"); ("method", JStr "notifications/initialized"); ("params", JObj [])]
                  (Some v) ;;; st_ret tt)
          (fun _ => st_ret tt) ;;;
        st_ret v
    end.

Definition session_open (s : mcp_state) : option string := session_header (MCP_SESSION_ID s).

Definition _ensure_mcp_session (force_refresh : bool) : ST mcp_state string := fun s =>
  match session_open s with
  | Some v => if negb force_refresh then (s, Ok v) else (set_session None ;;; open_session) s
  | None => ((if force_refresh then set_session None else st_ret tt) ;;; open_session) s
  end.

(** A returned result, or [None]: the session was invalid. *)
Definition call_once (payload : dict) (force_refresh : bool) : ST mcp_state (option json) :=
  session_id <- _ensure_mcp_session force_refresh ;;
  r <- _post_mcp_request payload (Some session_id) ;;
  s <- st_get ;;
  match _extract_mcp_session_id (resp_headers r) with
  | Some v => if bool_decide (MCP_SESSION_ID s = Some v) then st_ret tt else set_session (Some v)
  | None => st_ret tt
  end ;;;
  let detail := _mcp_error_detail_from_response r in
  if negb (status_code r =? 200) then
    if _is_mcp_missing_session_error (status_code r) detail then set_session None ;;; st_ret None
    else st_raise (HTTPException (status_code r) detail)
  else
    data <- st_lift (_extract_mcp_payload r) ;;
    match dlookup "error" data with
    | Some error_payload =>
        let error_text := match error_payload with JStr t => t | j => dumps j end in
        if _is_mcp_missing_session_error 400 error_text then set_session None ;;; st_ret None
        else st_raise (HTTPException 500 ("MCP error: " +:+ jstr error_payload))
    | None =>
        match dget data "result" with
        | JNull => st_raise (HTTPException 500 "No MCP response data")
        | v => st_ret (Some v)
        end
    end.

Definition _call_mcp (payload : dict) : ST mcp_state json :=
  a <- call_once payload false ;;
  match a with
  | Some v => st_ret v
  | None =>
      b <- call_once payload true ;;
      match b with
      | Some v => st_ret v
      | None => st_raise (HTTPException 502 "Memory MCP session invalid and refresh failed")
      end
  end.

Definition tool_payload (rid name : string) (arguments : dict) : dict :=
  [("jsonrpc", JStr "2.0"); ("id", JStr rid); ("method", JStr "tools/call");
   ("params", JObj [("name", JStr name); ("arguments", JObj arguments)])].

(** [result.get] on a result that is no object raises. *)
Definition call_memory_tool (name : string) (arguments : dict) : ST mcp_state dict :=
  rid <- new_id ;;
  v <- _call_mcp (tool_payload rid name arguments) ;;
  match v with
  | JObj result =>
      match _mcp_result_error_message result with
      | Some e => if truthy e then st_raise (HTTPException 500 (name +:+ " failed: " +:+ e)) else st_ret result
      | None => st_ret result
      end
  | _ => st_raise (OtherError "AttributeError" "object has no attribute 'get'")
  end.
End client.

(** ** Facts *)

(** The requests a computation adds: at most [k], all [good]. *)
Definition requests {A} (good : dict * option string -> Prop) (k : nat) (m : ST mcp_state A) : Prop :=
  forall s, exists new, posted (fst (m s)) = posted s ++ new /\ (length new <= k)%nat /\ List.Forall good new.

(** Every value it returns satisfies [Q]. *)
Definition returns {A} (Q : A -> Prop) (m : ST mcp_state A) : Prop :=
  forall s s' a, m s = (s', Ok a) -> Q a.

Section requests.
Variable good : dict * option string -> Prop.

Lemma requests_none {A} k (m : ST mcp_state A) : (forall s, posted (fst (m s)) = posted s) -> requests good k m.
Proof. intros Hm s. exists []. rewrite Hm, app_nil_r. repeat split; [cbn; lia|constructor]. Qed.

Lemma requests_bind {A B} k1 k2 (Q : A -> Prop) (m : ST mcp_state A) (f : A -> ST mcp_state B) :
  requests good k1 m -> returns Q m -> (forall a, Q a -> requests good k2 (f a)) -> requests good (k1 + k2) (st_bind m f).
Proof.
  intros Hm Hq Hf s. destruct (Hm s) as (n1 & E1 & L1 & G1). unfold st_bind. specialize (Hq s).
  destruct (m s) as [s1 [a|e]]; cbn in E1.
  - destruct (Hf a (Hq s1 a eq_refl) s1) as (n2 & E2 & L2 & G2). exists (n1 ++ n2).
    rewrite E2, E1, app_assoc, length_app. repeat split; [lia|]. apply List.Forall_app. done.
  - exists n1. cbn. repeat split; [done|lia|done].
Qed.

Lemma requests_weaken {A} k k' (m : ST mcp_state A) : (k <= k')%nat -> requests good k m -> requests good k' m.
Proof. intros Hk Hm s. destruct (Hm s) as (n & E & L & G). exists n. repeat split; [done|lia|done]. Qed.

Lemma requests_try {A} k (m : ST mcp_state A) (a : A) : requests good k m -> requests good k (st_try m (fun _ => st_ret a)).
Proof. intros Hm s. destruct (Hm s) as (n & E & L & G). exists n. unfold st_try. by destruct (m s) as [s' [b|e]]. Qed.
End requests.

Definition anything {A} (a : A) : Prop := True.

(** It raises [HTTPException] only. *)
Definition http_only {A} (m : ST mcp_state A) : Prop :=
  forall s s' e, m s = (s', Raise e) -> exists code detail, e = HTTPException code detail.

Lemma http_bind {A B} (m : ST mcp_state A) (f : A -> ST mcp_state B) :
  http_only m -> (forall a, http_only (f a)) -> http_only (st_bind m f).
Proof.
  intros Hm Hf s s' e. unfold st_bind. specialize (Hm s). destruct (m s) as [s1 [a|e1]]; [apply Hf|].
  intros [= <- <-]. by eapply Hm.
Qed.

Lemma http_raise {A} code detail : http_only (st_raise (A := A) (HTTPException code detail)).
Proof. intros s s' e [= <- <-]. eauto. Qed.

Lemma http_total {A} (m : ST mcp_state A) : (forall s s' e, m s <> (s', Raise e)) -> http_only m.
Proof. intros Hm s s' e H. by destruct (Hm s s' e). Qed.

Lemma http_payload r : http_only (st_lift (_extract_mcp_payload r)).
Proof.
  intros s s' e [= <- H]. unfold _extract_mcp_payload in H. destruct (event_payload _); [done|].
  destruct (loads _) as [[]|]; try (destruct (truthy _); injection H as <-; eauto); done.
Qed.

#[export] Hint Resolve http_bind http_raise http_payload : lattice.

Lemma returns_anything {A} (m : ST mcp_state A) : returns anything m.
Proof. done. Qed.

Section contract.
Variables (R : Z) (pv cn cv : string) (server : nat -> post_outcome) (uuid4 : nat -> string).
Abbreviation tries := (Z.to_nat (Z.max R 1)).

(** A request outside the opening of a session names the session. *)
Definition carries_session (r : dict * option string) : Prop :=
  (exists rid, fst r = init_payload pv cn cv rid /\ snd r = None) \/ exists sid, snd r = Some sid /\ sid <> "".

Lemma post_attempts_requests (good : dict * option string -> Prop) fuel attempt payload sid : good (payload, session_header sid) ->
  requests good fuel (post_attempts R server fuel attempt payload sid).
Proof.
  intros Hg. revert attempt. induction fuel as [|fuel IH]; intros attempt; cbn [post_attempts]; [by apply requests_none|].
  change (S fuel) with (1 + fuel)%nat. eapply (requests_bind good 1 fuel anything); [|apply returns_anything|].
  - intros s. exists [(payload, session_header sid)]. cbn. auto.
  - intros [r| |err] _; [by apply requests_none|..]; destruct (R <=? attempt); try (by apply requests_none); apply IH.
Qed.

Lemma session_header_truthy sid v : session_header sid = Some v -> v <> "".
Proof.
  destruct sid as [x|]; cbn; [|done]. destruct (truthy x) eqn:E; [|done]. intros [= <-] ->. done.
Qed.

Lemma header_session hs v : _extract_mcp_session_id hs = Some v -> v <> "".
Proof.
  unfold _extract_mcp_session_id. generalize ["mcp-session-id"; "x-mcp-session-id"; "Mcp-Session-Id"; "X-Mcp-Session-Id"].
  induction l as [|k l IH]; cbn; [done|]. destruct (header k hs) as [x|]; [|auto].
  destruct (truthy (strip x)) eqn:E; [|auto]. intros [= <-] Hx. by rewrite Hx in E.
Qed.

Lemma result_session d v : session_of_result d = Some v -> v <> "".
Proof.
  unfold session_of_result. destruct (dget d "result"); try done.
  assert (forall r k x, text_field r k = Some x -> x <> "") as Ht.
  { intros r k x. unfold text_field. destruct (is_str _) as [y|]; [|done]. destruct (truthy (strip y)) eqn:Ey; [|done].
    intros [= <-] Hx. by rewrite Hx in Ey. }
  destruct (text_field d0 "sessionId") eqn:E1; [intros [= <-]; by eapply Ht|apply Ht].
Qed.

Lemma open_session_returns : returns (fun v => v <> "") (open_session R pv cn cv server uuid4).
Proof.
  intros s s' v H. unfold open_session in H. step_in H s1 rid H1. step_in H s2 r H2.
  destruct (negb _); [done|]. step_in H s3 sid H3.
  assert (match sid with Some x => x <> "" | None => True end) as Hs.
  { destruct (_extract_mcp_session_id _) eqn:E; [injection H3 as _ <-; by apply header_session in E|].
    step_in H3 s4 d H4. injection H3 as _ <-. destruct (session_of_result d) eqn:Er; [by apply result_session in Er|done]. }
  destruct sid as [x|]; [|done]. step_in H s4 u H4. step_in H s5 u2 H5. by injection H as _ <-.
Qed.

Lemma open_session_requests : requests carries_session (2 * tries) (open_session R pv cn cv server uuid4).
Proof.
  unfold open_session. eapply (requests_bind _ 0 (2 * tries) anything); [by apply requests_none|apply returns_anything|].
  intros rid _. replace (2 * tries)%nat with (tries + tries)%nat by lia.
  eapply (requests_bind _ tries tries anything); [|apply returns_anything|].
  { apply post_attempts_requests. left. by exists rid. }
  intros r _. destruct (negb _); [by apply requests_none|].
  eapply (requests_bind _ 0 tries (fun sid => match sid with Some x => x <> "" | None => True end)).
  - destruct (_extract_mcp_session_id _); [by apply requests_none|].
    eapply (requests_bind _ 0 0 anything); [by apply requests_none|apply returns_anything|]. intros d _. by apply requests_none.
  - intros s s' sid H. destruct (_extract_mcp_session_id _) eqn:E; [injection H as _ <-; by apply header_session in E|].
    step_in H s4 d H4. injection H as _ <-. destruct (session_of_result d) eqn:Er; [by apply result_session in Er|done].
  - intros [v|] Hv; [|by apply requests_none].
    eapply (requests_bind _ 0 tries anything); [by apply requests_none|apply returns_anything|]. intros _ _.
    replace tries with (tries + 0)%nat by lia. eapply (requests_bind _ tries 0 anything); [|apply returns_anything|].
    2:{ intros _ _. by apply requests_none. }
    apply requests_try. replace tries with (tries + 0)%nat by lia.
    eapply (requests_bind _ tries 0 anything); [|apply returns_anything|intros _ _; by apply requests_none].
    apply post_attempts_requests. right. exists v. split; [|done]. cbn. unfold truthy.
    by apply String.eqb_neq in Hv as ->.
Qed.

Lemma ensure_session force : requests carries_session (2 * tries) (_ensure_mcp_session R pv cn cv server uuid4 force) /\
  returns (fun v => v <> "") (_ensure_mcp_session R pv cn cv server uuid4 force).
Proof.
  assert (forall m : ST mcp_state unit, (forall s, posted (fst (m s)) = posted s) ->
    requests carries_session (2 * tries) (m ;;; open_session R pv cn cv server uuid4) /\
    returns (fun v => v <> "") (m ;;; open_session R pv cn cv server uuid4)) as Hopen.
  { intros m Hm. split.
    - eapply (requests_bind _ 0 (2 * tries) anything); [by apply requests_none|apply returns_anything|].
      intros _ _. apply open_session_requests.
    - intros s s' v H. step_in H s1 u H1. by eapply open_session_returns. }
  destruct (Hopen (set_session None) ltac:(done)) as [A1 A2].
  destruct (Hopen (if force then set_session None else st_ret tt) ltac:(by destruct force)) as [B1 B2].
  split; intros s; unfold _ensure_mcp_session; destruct (session_open s) as [v|] eqn:E.
  - destruct force; cbn [negb]; [apply A1|]. by apply (requests_none carries_session (2 * tries) (st_ret v)).
  - apply B1.
  - intros s' w. destruct force; cbn [negb]; [apply A2|]. intros [= <- <-]. by eapply session_header_truthy.
  - intros s' w. apply B2.
Qed.

Lemma call_once_requests payload force :
  requests carries_session (3 * tries) (call_once R pv cn cv server uuid4 payload force).
Proof.
  destruct (ensure_session force) as [H1 H2]. unfold call_once.
  replace (3 * tries)%nat with (2 * tries + tries)%nat by lia.
  eapply (requests_bind _ _ tries _ _ _ H1 H2). intros sid Hsid.
  replace tries with (tries + 0)%nat by lia.
  eapply (requests_bind _ tries 0 anything); [|apply returns_anything|].
  { apply post_attempts_requests. right. exists sid. split; [|done]. cbn. unfold truthy. by apply String.eqb_neq in Hsid as ->. }
  intros r _. apply requests_none. intros s. unfold st_bind, st_get, st_lift, set_session, st_modify, st_ret, st_raise.
  repeat (dmatch; try done).
Qed.

(** The last answer of the server carried the result. *)
Definition answered (payload : dict) (v : json) (s : mcp_state) : Prop :=
  exists before sid r data, posted s = before ++ [(payload, Some sid)] /\ server (length before) = Answer r /\
    status_code r = 200 /\ _extract_mcp_payload r = Ok data /\ dlookup "error" data = None /\
    dget data "result" = v /\ v <> JNull.

Lemma post_attempts_answer fuel attempt payload sid s s' r : post_attempts R server fuel attempt payload sid s = (s', Ok r) ->
  exists before, posted s' = before ++ [(payload, session_header sid)] /\ server (length before) = Answer r.
Proof.
  revert attempt s. induction fuel as [|fuel IH]; intros attempt s; cbn [post_attempts]; [done|].
  intros H. step_in H s1 o H1. injection H1 as <- <-. destruct (server (length (posted s))) as [r0| |err] eqn:E.
  - injection H as <- ->. by exists (posted s).
  - destruct (R <=? attempt); [done|by eapply IH].
  - destruct (R <=? attempt); [done|by eapply IH].
Qed.

Lemma post_attempts_session fuel attempt payload sid s :
  MCP_SESSION_ID (fst (post_attempts R server fuel attempt payload sid s)) = MCP_SESSION_ID s.
Proof.
  revert attempt s. induction fuel as [|fuel IH]; intros attempt s; cbn [post_attempts]; [done|].
  unfold st_bind, post. destruct (server (length (posted s))); [done|..]; (destruct (R <=? attempt); [done|by rewrite IH]).
Qed.

(** A session that was ensured is the session of the client. *)
Lemma ensure_current force s s' v : _ensure_mcp_session R pv cn cv server uuid4 force s = (s', Ok v) -> MCP_SESSION_ID s' = Some v.
Proof.
  assert (forall s s' v, open_session R pv cn cv server uuid4 s = (s', Ok v) -> MCP_SESSION_ID s' = Some v) as Hopen.
  { clear. intros s s' v H. unfold open_session in H. step_in H s1 rid H1. step_in H s2 r H2.
    destruct (negb _); [done|]. step_in H s3 sid H3. destruct sid as [x|]; [|done]. step_in H s4 u H4. step_in H s5 u2 H5.
    injection H as <- <-. injection H4 as <- <-. unfold st_try, st_bind in H5.
    set (s4 := mkMcp (Some x) _ _) in H5.
    pose proof (post_attempts_session tries 1 [("jsonrpc", JStr "2.0"); ("method", JStr "notifications/initialized"); ("params", JObj [])]
      (Some x) s4) as Hp.
    unfold _post_mcp_request in H5. destruct (post_attempts _ _ _ _ _ _ s4) as [s6 [r6|e6]]; injection H5 as <- <-; exact Hp. }
  unfold _ensure_mcp_session, session_open. intros H. destruct (session_header (MCP_SESSION_ID s)) as [x|] eqn:E.
  - destruct force; cbn [negb] in H; [step_in H s1 u H1; by eapply Hopen|]. injection H as <- <-.
    destruct (MCP_SESSION_ID s) as [y|]; [|done]. cbn in E. destruct (truthy y); [|done]. by injection E as ->.
  - step_in H s1 u H1. by eapply Hopen.
Qed.

Lemma call_once_answer payload force s s' v :
  call_once R pv cn cv server uuid4 payload force s = (s', Ok (Some v)) -> answered payload v s' /\ session_open s' <> None.
Proof.
  intros H. unfold call_once in H. step_in H s1 sid H1.
  assert (sid <> "") as Hsid by (destruct (ensure_session force) as [_ Hr]; by eapply Hr).
  assert (forall x, x <> "" -> session_header (Some x) = Some x) as Hsh.
  { intros x Hx. cbn. unfold truthy. by apply String.eqb_neq in Hx as ->. }
  apply ensure_current in H1. step_in H s2 r H2.
  pose proof (post_attempts_session tries 1 payload (Some sid) s1) as Hs2. unfold _post_mcp_request in H2. rewrite H2 in Hs2.
  apply post_attempts_answer in H2 as (before & Hp & Hans). rewrite (Hsh sid Hsid) in Hp. cbn [fst] in Hs2.
  step_in H s3 x H3. injection H3 as <- <-. step_in H s4 u H4.
  assert (posted s4 = posted s2 /\ session_open s4 <> None) as [Hp4 Hs4].
  { unfold session_open. destruct (_extract_mcp_session_id (resp_headers r)) as [w|] eqn:Ew.
    - apply header_session in Ew. destruct (bool_decide _) eqn:Eb; [|injection H4 as <- <-; cbn [MCP_SESSION_ID]; by rewrite Hsh].
      injection H4 as <- <-. apply bool_decide_eq_true in Eb. rewrite Eb. by rewrite Hsh.
    - injection H4 as <- <-. rewrite Hs2, H1. by rewrite Hsh. }
  destruct (status_code r =? 200) eqn:Ec; cbn [negb] in H.
  2:{ destruct (_is_mcp_missing_session_error _ _); [|done]. step_in H s5 u5 H5. injection H as _ H. done. }
  step_in H s5 data H5. unfold st_lift in H5. injection H5 as <- H5.
  destruct (dlookup "error" data) as [err|] eqn:Ee.
  { destruct (_is_mcp_missing_session_error _ _); [|done]. step_in H s6 u6 H6. injection H as _ H. done. }
  destruct (dget data "result") as [| | | | | |] eqn:Er; [done|..]; injection H as <- <-;
    (split; [|done]; exists before, sid, r, data; rewrite Hp4; blift; do 5 (split; [done|]); by rewrite Er).
Qed.

Lemma post_http payload sid : http_only (_post_mcp_request R server payload sid).
Proof.
  unfold _post_mcp_request. generalize tries as fuel. intros fuel. generalize 1.
  induction fuel as [|fuel IH]; intros z; cbn [post_attempts]; [apply http_raise|].
  apply http_bind; [by apply http_total|]. intros [r| |err]; [by apply http_total|..];
    (destruct (R <=? z); [apply http_raise|apply IH]).
Qed.

Lemma open_http : http_only (open_session R pv cn cv server uuid4).
Proof.
  unfold open_session. apply http_bind; [by apply http_total|]. intros rid. apply http_bind; [apply post_http|]. intros r.
  destruct (negb _); [apply http_raise|]. apply http_bind.
  { destruct (_extract_mcp_session_id _); [by apply http_total|].
    apply http_bind; [apply http_payload|]. intros d. by apply http_total. }
  intros [v|]; [|apply http_raise]. apply http_bind; [by apply http_total|]. intros u.
  apply http_bind; [|intros u2; by apply http_total]. apply http_total. intros s s' e. unfold st_try.
  by destruct ((_ ;;; _) s) as [s1 [a|e1]].
Qed.

Lemma ensure_http force : http_only (_ensure_mcp_session R pv cn cv server uuid4 force).
Proof.
  assert (forall m : ST mcp_state unit, (forall s s' e, m s <> (s', Raise e)) ->
    http_only (m ;;; open_session R pv cn cv server uuid4)) as Hm.
  { intros m Hm. apply http_bind; [by apply http_total|]. intros u. apply open_http. }
  intros s s' e. unfold _ensure_mcp_session. destruct (session_open s) as [v|].
  - destruct (negb force); [done|]. by apply Hm.
  - apply Hm. by destruct force.
Qed.

Lemma call_once_http payload force : http_only (call_once R pv cn cv server uuid4 payload force).
Proof.
  unfold call_once. apply http_bind; [apply ensure_http|]. intros sid. apply http_bind; [apply post_http|]. intros r.
  apply http_bind; [by apply http_total|]. intros x. apply http_bind.
  { destruct (_extract_mcp_session_id _); [destruct (bool_decide _)|]; by apply http_total. }
  intros u. destruct (negb _).
  { destruct (_is_mcp_missing_session_error _ _); [|apply http_raise]. apply http_bind; [by apply http_total|].
    intros u2. by apply http_total. }
  apply http_bind; [apply http_payload|]. intros data. destruct (dlookup "error" data) as [err|].
  - destruct (_is_mcp_missing_session_error _ _); [|apply http_raise]. apply http_bind; [by apply http_total|].
    intros u2. by apply http_total.
  - destruct (dget data "result"); try (by apply http_total). apply http_raise.
Qed.
End contract.

(** The contract of a call to the memory server.  Every request outside the
    opening of a session names a session; at most six times the retry budget
    of requests is made; and a call that returns a value was answered: its last
    request got status 200 with that value as result, and the client holds a
    session. *)
Theorem mcp_call_contract R pv cn cv server uuid4 payload s :
  let '(s', r) := _call_mcp R pv cn cv server uuid4 payload s in
  (exists new, posted s' = posted s ++ new /\ (length new <= 6 * Z.to_nat (Z.max R 1))%nat /\
     List.Forall (carries_session pv cn cv) new) /\
  match r with
  | Ok v => answered server payload v s' /\ session_open s' <> None
  | Raise e => exists code detail, e = HTTPException code detail
  end.
Proof.
  assert (requests (carries_session pv cn cv) (6 * Z.to_nat (Z.max R 1)) (_call_mcp R pv cn cv server uuid4 payload)) as Hreq.
  { unfold _call_mcp. replace (6 * Z.to_nat (Z.max R 1))%nat with (3 * Z.to_nat (Z.max R 1) + 3 * Z.to_nat (Z.max R 1))%nat by lia.
    eapply (requests_bind _ _ _ anything); [apply call_once_requests|apply returns_anything|].
    intros [v|] _; [by apply requests_none|].
    replace (3 * Z.to_nat (Z.max R 1))%nat with (3 * Z.to_nat (Z.max R 1) + 0)%nat by lia.
    eapply (requests_bind _ _ _ anything); [apply call_once_requests|apply returns_anything|].
    intros [v|] _; by apply requests_none. }
  assert (http_only (_call_mcp R pv cn cv server uuid4 payload)) as Hhttp.
  { apply http_bind; [apply call_once_http|]. intros [v|]; [by apply http_total|].
    apply http_bind; [apply call_once_http|]. intros [v|]; [by apply http_total|apply http_raise]. }
  specialize (Hreq s). destruct (_call_mcp R pv cn cv server uuid4 payload s) as [s' [v|e]] eqn:E; (split; [exact Hreq|]).
  - unfold _call_mcp in E. step_in E s1 a H1. destruct a as [x|]; [injection E as <- <-; by eapply call_once_answer|].
    step_in E s2 b H2. destruct b as [x|]; [injection E as <- <-; by eapply call_once_answer|done].
  - by eapply Hhttp.
Qed.
