(* ===== verification/ReadPath.v ===== *)
(** * Reading memory files

    [read_project_file] asks the memory server and falls back to the read cache
    when the server is slow or failing; missing index files are bootstrapped.
    The server is reached through the interface [ToolServer]; the client of
    [Mcp] is its instance. *)

From S2P Require Import Prelude PyStr PyTime Json JsonText Paths OutboxMaint WriteBuffer WriteBufferFacts Lru Caches Mcp.
Open Scope Z_scope.

(** A tool call under [asyncio.wait_for] with its timeout: [TimeoutError] when
    the time is over. *)
Class ToolServer (W : Type) := { tool_call : string -> dict -> Z -> ST W dict }.

(** The MCP client; [late n]: the answer after [n] requests came too late. *)
#[export] Instance mcp_tools (R : Z) (pv cn cv : string) (server : nat -> post_outcome) (uuid4 : nat -> string)
    (late : nat -> bool) : ToolServer mcp_state := {|
  tool_call := fun name arguments timeout s =>
    let '(s', r) := call_memory_tool R pv cn cv server uuid4 name arguments s in
    (s', if late (length (posted s')) then Raise TimeoutError else r) |}.

(** ** Printing with [indent=2, sort_keys=True] *)

Definition newline : string := String (Ascii.ascii_of_N 10) "".
Fixpoint spaces (n : nat) : string := match n with O => "" | S n' => " " +:+ spaces n' end.
Definition break (depth : nat) : string := newline +:+ spaces (2 * depth).

Definition key_le {A} (a b : string * A) : bool := str_leb (fst a) (fst b).

Fixpoint pretty (depth : nat) (j : json) : string :=
  match j with
  | JList [] => "[]"
  | JList l => "[" +:+ break (S depth) +:+ join ("," +:+ break (S depth)) (map (pretty (S depth)) l) +:+ break depth +:+ "]"
  | JObj [] => "{}"
  | JObj d =>
      let members := map (fun kv => (fst kv, pretty (S depth) (snd kv))) d in
      "{" +:+ break (S depth)
      +:+ join ("," +:+ break (S depth)) (map (fun kv => quote_json (fst kv) +:+ ": " +:+ snd kv) (sort_by key_le members))
      +:+ break depth +:+ "}"
  | v => dumps v
  end.

(** ** Errors *)

Definition _is_transient_memory_read_http_error (code : Z) (detail : string) : bool :=
  existsb (Z.eqb code) [408; 429; 500; 502; 503; 504] || contains (lower detail) "timeout"
  || contains (lower detail) "temporarily unavailable".

Definition _memory_not_found_detail (detail : string) : bool :=
  existsb (contains (lower detail))
    ["notfounderror"; "resource not found"; "file not found"; "no such file"; "enoent"].

(** ** Stubs of missing files *)

Definition OPTIONAL_OVERRIDE_FILENAMES : list string := ["override-smoke-test.json"].
Definition INDEX_FILE_LATEST_HINTS : list (string * string) :=
  [("index__arena_health.json", "arena__health__latest.json"); ("index__arena_weights.json", "arena__weights__latest.json");
   ("index__api_health.json", "api_health__snapshots__latest.json"); ("index__exits.json", "exit_manager__state__latest.json");
   ("index__position_outcomes.json", "position_outcomes__latest.json");
   ("index__trade_outcomes_exits.json", "attribution__trade_outcomes_exits__latest.json")].

Definition _build_missing_memory_file_stub (OVERRIDE_PROJECT : string) (now : Z) (project file_name : string)
  : result (option dict) :=
  let! normalized_file := normalize_memory_path file_name in
  let stamp := JStr (_utc_now now) in
  if (project =s OVERRIDE_PROJECT) && mem_str normalized_file OPTIONAL_OVERRIDE_FILENAMES then
    Ok (Some [("kind", JStr "override_smoke_test"); ("symbol", JStr "SMOKE"); ("priority", JStr "LOW");
              ("reason", JStr "Auto-created placeholder override file"); ("size_before", JFloat "0.0");
              ("size_after", JFloat "0.0"); ("confidence_before", JFloat "0.0"); ("confidence_after", JFloat "0.0");
              ("override_strength", JFloat "0.0"); ("multiplier", JFloat "1.0"); ("timestamp", stamp);
              ("generated_by", JStr "contextlattice-orchestrator"); ("bootstrap", JBool true)])
  else if negb (startswith normalized_file "index__" && endswith normalized_file ".json") then Ok None
  else
    let latest_hint :=
      match clookup normalized_file INDEX_FILE_LATEST_HINTS with
      | Some h => h
      | None => let stem := take (String.length normalized_file - 12) (drop 7 normalized_file) in
                if truthy stem then stem +:+ "__latest.json" else ""
      end in
    Ok (Some [("kind", JStr "memory_index"); ("project", JStr project); ("index_file", JStr normalized_file);
              ("latest", JStr latest_hint); ("latest_file", JStr latest_hint);
              ("files", JList (if truthy latest_hint then [JStr latest_hint] else []));
              ("entries", JList (if truthy latest_hint then [JObj [("file", JStr latest_hint)]] else []));
              ("generated_at", stamp); ("generated_by", JStr "contextlattice-orchestrator"); ("bootstrap", JBool true)]).

(** ** State *)

Record read_state (W : Type) := mkRead {
  tools : W; files : cache (Z * string); writes : Z; inflight : list (string * Z);
  refresh_started : Z; refresh_completed : Z; refresh_failed : Z; stale_fallbacks : Z; rticks : nat }.
Arguments mkRead {W}. Arguments tools {W}. Arguments files {W}. Arguments writes {W}. Arguments inflight {W}.
Arguments refresh_started {W}. Arguments refresh_completed {W}. Arguments refresh_failed {W}.
Arguments stale_fallbacks {W}. Arguments rticks {W}.

Record settings := mkReadSettings {
  read_cfg : read_config; MEMMCP_READ_TIMEOUT_SECS : Z; MEMMCP_READ_CACHE_REFRESH_TIMEOUT_SECS : Z;
  ORCH_MISSING_FILE_AUTOSTUB : bool; OVERRIDE_PROJECT : string }.

Section reading.
Context {W : Type} `{ToolServer W}.
Variable S : settings.
Variables (clock monotonic : nat -> Z).
Abbreviation state := (read_state W).

Definition set_tools (w : W) (s : state) : state :=
  mkRead w (files s) (writes s) (inflight s) (refresh_started s) (refresh_completed s) (refresh_failed s) (stale_fallbacks s) (rticks s).
Definition set_files (c : cache (Z * string)) (s : state) : state :=
  mkRead (tools s) c (writes s) (inflight s) (refresh_started s) (refresh_completed s) (refresh_failed s) (stale_fallbacks s) (rticks s).

Definition in_tools {A} (m : ST W A) : ST state A := fun s => let '(w, r) := m (tools s) in (set_tools w s, r).
Definition in_files {A} (m : ST (cache (Z * string)) A) : ST state A := fun s => let '(c, r) := m (files s) in (set_files c s, r).

(** A reading of a clock. *)
Definition read_clock (f : nat -> Z) : ST state Z := fun s =>
  (mkRead (tools s) (files s) (writes s) (inflight s) (refresh_started s) (refresh_completed s) (refresh_failed s)
     (stale_fallbacks s) (Datatypes.S (rticks s)), Ok (f (rticks s))).

Definition _read_project_file_remote (project file_name : string) (timeout_secs : Z) : ST state string :=
  r <- in_tools (tool_call "memory_bank_read" [("projectName", JStr project); ("fileName", JStr file_name)]
                   (Z.max us_per_sec timeout_secs)) ;;
  match _extract_mcp_text_chunks (dget r "content") with
  | [] => st_ret ""
  | chunks => st_ret (join newline (List.filter truthy chunks))
  end.

(** [_memory_read_cache_set] with its counter of writes. *)
Definition cache_file (project file_name content : string) : ST state unit :=
  now <- read_clock monotonic ;;
  in_files (_memory_read_cache_set (read_cfg S) now project file_name content) ;;;
  if (MEMMCP_READ_CACHE_MAX_KEYS (read_cfg S) <=? 0) || negb (truthy content) then st_ret tt
  else st_modify (fun s => mkRead (tools s) (files s) (writes s + 1) (inflight s) (refresh_started s) (refresh_completed s)
                             (refresh_failed s) (stale_fallbacks s) (rticks s)).

(** Whether a refresh is started. *)
Definition _schedule_memory_read_cache_refresh (project file_name : string) : ST state bool :=
  if negb (MEMMCP_READ_FAIL_OPEN_ENABLED (read_cfg S)) then st_ret false
  else
    key <- st_lift (_memory_read_cache_key project file_name) ;;
    s <- st_get ;;
    if mem_str key (map fst (inflight s)) then st_ret false
    else if MEMMCP_READ_CACHE_REFRESH_MAX_INFLIGHT (read_cfg S) <=? Z.of_nat (length (inflight s)) then st_ret false
    else
      now <- read_clock monotonic ;;
      st_modify (fun s => mkRead (tools s) (files s) (writes s) (cset key now (inflight s)) (refresh_started s + 1)
                            (refresh_completed s) (refresh_failed s) (stale_fallbacks s) (rticks s)) ;;;
      st_ret true.

(** The background task of a refresh. *)
Definition refresh_runner (project file_name : string) : ST state unit :=
  key <- st_lift (_memory_read_cache_key project file_name) ;;
  st_finally
    (st_try
       (content <- _read_project_file_remote project file_name (MEMMCP_READ_CACHE_REFRESH_TIMEOUT_SECS S) ;;
        (if truthy content then cache_file project file_name content else st_ret tt) ;;;
        st_modify (fun s => mkRead (tools s) (files s) (writes s) (inflight s) (refresh_started s) (refresh_completed s + 1)
                              (refresh_failed s) (stale_fallbacks s) (rticks s)))
       (fun _ => st_modify (fun s => mkRead (tools s) (files s) (writes s) (inflight s) (refresh_started s) (refresh_completed s)
                                       (refresh_failed s + 1) (stale_fallbacks s) (rticks s))))
    (fun s => mkRead (tools s) (files s) (writes s) (cdel key (inflight s)) (refresh_started s) (refresh_completed s)
                (refresh_failed s) (stale_fallbacks s) (rticks s)).

Definition _bootstrap_missing_memory_file (project file_name : string) : ST state (option string) :=
  if negb (ORCH_MISSING_FILE_AUTOSTUB S) then st_ret None
  else
    now <- read_clock clock ;;
    stub <- st_lift (_build_missing_memory_file_stub (OVERRIDE_PROJECT S) now project file_name) ;;
    match stub with
    | None => st_ret None
    | Some d =>
        let content := pretty 0 (JObj d) in
        st_try (in_tools (tool_call "memory_bank_write"
                  [("projectName", JStr project); ("fileName", JStr file_name); ("content", JStr content)] 0) ;;; st_ret tt)
          (fun _ => st_ret tt) ;;;
        st_ret (Some content)
    end.

(** The cached content, stale or not; a hit counts as a fallback and starts a
    refresh. *)
Definition stale_content (project file_name : string) : ST state (option string) :=
  now <- read_clock monotonic ;;
  cached <- in_files (_memory_read_cache_get (read_cfg S) now project file_name true) ;;
  match cached with
  | None => st_ret None
  | Some (content, _) =>
      st_modify (fun s => mkRead (tools s) (files s) (writes s) (inflight s) (refresh_started s) (refresh_completed s)
                            (refresh_failed s) (stale_fallbacks s + 1) (rticks s)) ;;;
      _schedule_memory_read_cache_refresh project file_name ;;;
      st_ret (Some content)
  end.

(** [except HTTPException as exc] *)
Definition on_http_error (project file_name : string) (allow_missing bootstrap_missing : bool) (code : Z) (detail : string)
  : ST state string :=
  cached <- (if MEMMCP_READ_FAIL_OPEN_ENABLED (read_cfg S) && _is_transient_memory_read_http_error code detail
             then stale_content project file_name else st_ret None) ;;
  match cached with
  | Some content => st_ret content
  | None =>
      if _memory_not_found_detail detail then
        fallback <- (if bootstrap_missing then _bootstrap_missing_memory_file project file_name else st_ret None) ;;
        match fallback with
        | Some content => cache_file project file_name content ;;; st_ret content
        | None => if allow_missing then st_ret "" else st_raise (HTTPException code detail)
        end
      else st_raise (HTTPException code detail)
  end.

(** [except asyncio.TimeoutError] *)
Definition on_timeout (project file_name : string) : ST state string :=
  cached <- (if MEMMCP_READ_FAIL_OPEN_ENABLED (read_cfg S) then stale_content project file_name else st_ret None) ;;
  match cached with
  | Some content => st_ret content
  | None => st_raise (HTTPException 504 ("memory_bank_read timeout for " +:+ project +:+ "/" +:+ file_name))
  end.

Definition read_project_file (project file_name : string) (allow_missing bootstrap_missing : bool) : ST state string :=
  fun s =>
  match _read_project_file_remote project file_name (MEMMCP_READ_TIMEOUT_SECS S) s with
  | (s1, Ok content) =>
      if truthy content then (cache_file project file_name content ;;; st_ret content) s1 else (s1, Ok "")
  | (s1, Raise TimeoutError) => on_timeout project file_name s1
  | (s1, Raise (HTTPException code detail)) => on_http_error project file_name allow_missing bootstrap_missing code detail s1
  | (s1, Raise e) => (s1, Raise e)
  end.

(** [get_memory_file]: the text of the file. *)
Definition get_memory_file (project file_path : string) : ST state string :=
  if negb (truthy project) || negb (truthy file_path) then st_raise (HTTPException 400 "project and file path are required")
  else
    file_path <- st_lift (normalize_memory_path file_path) ;;
    if negb (truthy file_path) then st_raise (HTTPException 400 "file path is required")
    else
      content <- st_try (read_project_file project file_path true true)
        (fun exc => match exc with
                    | HTTPException _ _ => st_raise exc
                    | _ => st_raise (HTTPException 500 ("Failed to read memory file: " +:+ exn_str exc))
                    end) ;;
      if negb (truthy content) then st_raise (HTTPException 404 "memory file not found") else st_ret content.
End reading.
