(* ===== verification/ReadPathFacts.v ===== *)
(** * Facts on reading memory files

    Where the text that [read_project_file] answers comes from, for every
    server; what a read leaves in the cache; how many refreshes run. *)

From S2P Require Import Prelude PyStr PyTime Json JsonText Paths OutboxMaint WriteBuffer WriteBufferFacts Lru Caches Mcp ReadPath.
Open Scope Z_scope.

Section facts.
Context {W : Type} `{ToolServer W}.
Variable S : settings.
Variables (clock monotonic : nat -> Z).
Implicit Types s : read_state W.

(** The errors of a request after which the cache may be served. *)
Definition serves_stale (e : exn) : bool :=
  match e with
  | TimeoutError => true
  | HTTPException code detail => _is_transient_memory_read_http_error code detail
  | _ => false
  end.

(** Where an answer comes from, the request having come to [r]. *)
Inductive read_source (project file_name : string) (allow_missing bootstrap_missing : bool) s (r : result string) : string -> Prop :=
| from_server c : r = Ok c -> read_source project file_name allow_missing bootstrap_missing s r c
| from_cache e key fetched c :
    r = Raise e -> serves_stale e = true -> MEMMCP_READ_FAIL_OPEN_ENABLED (read_cfg S) = true ->
    _memory_read_cache_key project file_name = Ok key -> clookup key (entries (files s)) = Some (fetched, c) ->
    monotonic (rticks s) - fetched <=
      Z.max (MEMMCP_READ_CACHE_FRESH_TTL_SECS (read_cfg S)) (MEMMCP_READ_CACHE_STALE_MAX_SECS (read_cfg S)) ->
    read_source project file_name allow_missing bootstrap_missing s r c
| from_stub code detail now stub :
    r = Raise (HTTPException code detail) -> _memory_not_found_detail detail = true -> bootstrap_missing = true ->
    _build_missing_memory_file_stub (OVERRIDE_PROJECT S) now project file_name = Ok (Some stub) ->
    read_source project file_name allow_missing bootstrap_missing s r (pretty 0 (JObj stub))
| from_nothing code detail :
    r = Raise (HTTPException code detail) -> _memory_not_found_detail detail = true -> allow_missing = true ->
    read_source project file_name allow_missing bootstrap_missing s r "".

(** ** The request and the cache *)

(** A request only touches the client of the server. *)
Lemma remote_frame project file_name t s :
  exists w r, _read_project_file_remote project file_name t s = (set_tools w s, r).
Proof.
  unfold _read_project_file_remote, st_bind, in_tools. destruct (tool_call _ _ _ _) as [w [a|e]]; [|eauto].
  destruct (_extract_mcp_text_chunks _); eauto.
Qed.

Lemma cached_is_recent R now key stale (c c' : cache (Z * string)) content old :
  read_cached R now key stale c = (c', Some (content, old)) -> exists fetched,
    clookup key (entries c) = Some (fetched, content) /\
    now - fetched <= Z.max (MEMMCP_READ_CACHE_FRESH_TTL_SECS R) (MEMMCP_READ_CACHE_STALE_MAX_SECS R).
Proof.
  unfold read_cached. destruct (clookup key (entries c)) as [[fetched v]|]; [|by intros [=]].
  destruct ((0 <? fetched) && _) eqn:E; [|by intros [=]]. intros [= <- <- <-]. exists fetched. split; [done|].
  apply andb_true_iff in E as [_ [E|[_ E]%andb_true_iff]%orb_true_iff]; blift; lia.
Qed.

Lemma stale_content_source project file_name s s' content :
  stale_content S monotonic project file_name s = (s', Ok (Some content)) -> exists key fetched,
    _memory_read_cache_key project file_name = Ok key /\ clookup key (entries (files s)) = Some (fetched, content) /\
    monotonic (rticks s) - fetched <=
      Z.max (MEMMCP_READ_CACHE_FRESH_TTL_SECS (read_cfg S)) (MEMMCP_READ_CACHE_STALE_MAX_SECS (read_cfg S)).
Proof.
  unfold stale_content. intros Hr. step_in Hr s1 now Hn. injection Hn as <- <-. step_in Hr s2 found Hc.
  unfold in_files, _memory_read_cache_get in Hc. cbn [files] in Hc.
  destruct (_ <=? 0); [injection Hc as <- <-; by injection Hr|].
  destruct (_memory_read_cache_key project file_name) as [key|e]; [|by injection Hc].
  destruct (read_cached _ _ _ _ _) as [c' [[v old]|]] eqn:E; [|injection Hc as <- <-; by injection Hr].
  injection Hc as <- <-. step_in Hr s3 u Hu. step_in Hr s4 b Hb. injection Hr as <- <-.
  apply cached_is_recent in E as (fetched & E1 & E2). eauto.
Qed.

Lemma stale_content_raises project file_name s s' e :
  stale_content S monotonic project file_name s = (s', Raise e) -> _memory_read_cache_key project file_name = Raise e.
Proof.
  unfold stale_content, st_bind, read_clock, in_files, _memory_read_cache_get. cbn.
  destruct (_ <=? 0); [by intros [=]|]. destruct (_memory_read_cache_key project file_name) as [key|e'] eqn:Ek;
    [|by intros [= _ <-]].
  destruct (read_cached _ _ _ _ _) as [c' [[v old]|]]; [|by intros [=]]. cbn.
  unfold _schedule_memory_read_cache_refresh, st_bind, st_lift. rewrite Ek. cbn. repeat (dmatch; try by intros [=]).
Qed.

Lemma truthy_false x : truthy x = false -> x = "".
Proof. unfold truthy. intros E. by apply negb_false_iff, String.eqb_eq in E. Qed.

(** What is written is what a later look-up finds. *)
Lemma cache_file_lookup project file_name content key s s' : 0 < MEMMCP_READ_CACHE_MAX_KEYS (read_cfg S) ->
  content <> "" -> _memory_read_cache_key project file_name = Ok key ->
  cache_file S monotonic project file_name content s = (s', Ok tt) ->
  clookup key (entries (files s')) = Some (monotonic (rticks s), content).
Proof.
  intros Hm Hc Hk Hr. unfold cache_file in Hr. step_in Hr s1 now Hn. injection Hn as <- <-. step_in Hr s2 u Hu.
  assert (files s' = files s2) as -> by (revert Hr; dmatch; by intros [= <-]).
  revert Hu. unfold in_files, _memory_read_cache_set. rewrite Hk.
  destruct (_ <=? 0) eqn:E; [blift; lia|]. destruct (truthy content) eqn:Et; [|by apply truthy_false in Et]. cbn [negb]. intros [= <- <-]. cbn [files set_files].
  rewrite store_entries. eapply recent_lookup, recent_put_bounded_same. lia.
Qed.

Lemma cache_file_raises project file_name content s s' e :
  cache_file S monotonic project file_name content s = (s', Raise e) -> _memory_read_cache_key project file_name = Raise e.
Proof.
  unfold cache_file, st_bind, read_clock, in_files, _memory_read_cache_set.
  destruct (_memory_read_cache_key project file_name) as [key|e']; repeat (dmatch; try by intros [=]);
    cbn; intros [= _ <-]; try done.
Qed.

(** ** The handlers *)

Lemma bootstrap_source project file_name s s' c :
  _bootstrap_missing_memory_file S clock project file_name s = (s', Ok (Some c)) -> exists now stub,
    _build_missing_memory_file_stub (OVERRIDE_PROJECT S) now project file_name = Ok (Some stub) /\ c = pretty 0 (JObj stub).
Proof.
  unfold _bootstrap_missing_memory_file. dmatch; [by intros [=]|]. intros Hr. step_in Hr s1 now Hn. step_in Hr s2 stub Hs.
  destruct stub as [d|]; [|by injection Hr]. step_in Hr s3 u Hu. injection Hr as <- <-.
  unfold st_lift in Hs. injection Hs as <- Hs. eauto.
Qed.

Lemma key_of_stub project file_name now e :
  _build_missing_memory_file_stub (OVERRIDE_PROJECT S) now project file_name = Raise e ->
  _memory_read_cache_key project file_name = Raise e.
Proof.
  unfold _build_missing_memory_file_stub, _memory_read_cache_key. destruct (normalize_memory_path file_name); cbn; [|by intros [= ->]].
  repeat (dmatch; try by intros [=]).
Qed.

Lemma bootstrap_raises project file_name s s' e :
  _bootstrap_missing_memory_file S clock project file_name s = (s', Raise e) -> _memory_read_cache_key project file_name = Raise e.
Proof.
  unfold _bootstrap_missing_memory_file, st_bind, read_clock, st_lift. dmatch; [by intros [=]|].
  destruct (_build_missing_memory_file_stub _ _ _ _) as [[d|]|e'] eqn:E; [|by intros [=]|intros [= _ <-]; by apply key_of_stub in E].
  unfold st_try. repeat (dmatch; try by intros [=]).
Qed.

(** The errors a read may raise, the request having come to [r]. *)
Inductive read_error (project file_name : string) (r : result string) : exn -> Prop :=
| error_late : r = Raise TimeoutError ->
    read_error project file_name r (HTTPException 504 ("memory_bank_read timeout for " +:+ project +:+ "/" +:+ file_name))
| error_of_request e : r = Raise e -> e <> TimeoutError -> read_error project file_name r e
| error_of_path e : _memory_read_cache_key project file_name = Raise e -> read_error project file_name r e.

Definition read_outcome (project file_name : string) (allow_missing bootstrap_missing : bool) s (r : result string) (out : result string) : Prop :=
  match out with
  | Ok c => read_source project file_name allow_missing bootstrap_missing s r c
  | Raise e => read_error project file_name r e
  end.

(** After an error [e] of the request, either the cache answers or [next] does. *)
Lemma stale_or project file_name am bm w s e (test : bool) (next : ST (read_state W) string) s' out :
  serves_stale e = true \/ test = false -> 
  (cached <- (if MEMMCP_READ_FAIL_OPEN_ENABLED (read_cfg S) && test then stale_content S monotonic project file_name else st_ret None) ;;
   match cached with Some content => st_ret content | None => next end) (set_tools w s) = (s', out) ->
  read_outcome project file_name am bm s (Raise e) out \/ exists s1, next s1 = (s', out).
Proof.
  intros He. unfold st_bind. destruct (MEMMCP_READ_FAIL_OPEN_ENABLED _ && test) eqn:Ef; [|cbn; eauto].
  apply andb_true_iff in Ef as [Ef ->]. destruct (stale_content _ _ _ _ _) as [s1 [[c|]|e']] eqn:Es; [|eauto|].
  - intros [= <- <-]. left. apply stale_content_source in Es as (key & fetched & H1 & H2 & H3). 
    eapply from_cache; [reflexivity|by destruct He|done|done|exact H2|exact H3].
  - intros [= <- <-]. left. apply stale_content_raises in Es. by apply error_of_path.
Qed.

Lemma on_http_error_outcome project file_name am bm w s code detail s' out :
  on_http_error S clock monotonic project file_name am bm code detail (set_tools w s) = (s', out) ->
  read_outcome project file_name am bm s (Raise (HTTPException code detail)) out.
Proof.
  intros Hr. eapply stale_or in Hr as [Hr|[s1 Hr]]; [exact Hr| |cbn; destruct (_is_transient_memory_read_http_error code detail); auto].
  destruct (_memory_not_found_detail detail) eqn:Ed; [|injection Hr as <- <-; by apply error_of_request].
  unfold st_bind in Hr at 1. destruct bm.
  - destruct (_bootstrap_missing_memory_file _ _ _ _ _) as [s2 [[c|]|e]] eqn:Eb.
    + apply bootstrap_source in Eb as (now & stub & E1 & ->). unfold st_bind in Hr.
      destruct (cache_file _ _ _ _ _ _) as [s3 [u|e]] eqn:Ec; injection Hr as <- <-.
      * by eapply from_stub.
      * apply cache_file_raises in Ec. by apply error_of_path.
    + destruct am; injection Hr as <- <-; [by eapply from_nothing|by apply error_of_request].
    + apply bootstrap_raises in Eb. injection Hr as <- <-. by apply error_of_path.
  - cbn in Hr. destruct am; injection Hr as <- <-; [by eapply from_nothing|by apply error_of_request].
Qed.

Lemma on_timeout_outcome project file_name am bm w s s' out :
  on_timeout S monotonic project file_name (set_tools w s) = (s', out) ->
  read_outcome project file_name am bm s (Raise TimeoutError) out.
Proof.
  unfold on_timeout. rewrite <- (andb_true_r (MEMMCP_READ_FAIL_OPEN_ENABLED _)). intros Hr.
  eapply (stale_or _ _ am bm _ _ TimeoutError) in Hr as [Hr|[s1 Hr]]; [exact Hr| |by left].
  injection Hr as <- <-. by apply error_late.
Qed.
End facts.

(** Every answer of a read has a source, whatever the server does: the
    text the server sent for this request, and then it is the newest entry of
    the cache; or, after a timeout or a transient error, the text cached for
    the file, no older than the configured limit; or, when the server does not
    know the file, its stub or the empty text, each only where it is asked for.
    A read that fails says so: 504 after a timeout, otherwise the error of the
    request or of the path. *)
Theorem read_has_source {W} `{ToolServer W} (S : settings) clock monotonic project file_name am bm (s : read_state W) :
  let '(_, r) := _read_project_file_remote project file_name (MEMMCP_READ_TIMEOUT_SECS S) s in
  let '(s', out) := read_project_file S clock monotonic project file_name am bm s in
  read_outcome S monotonic project file_name am bm s r out /\
  (forall c key, r = Ok c -> out = Ok c -> c <> "" -> 0 < MEMMCP_READ_CACHE_MAX_KEYS (read_cfg S) ->
     _memory_read_cache_key project file_name = Ok key ->
     clookup key (entries (files s')) = Some (monotonic (rticks s), c)).
Proof.
  destruct (remote_frame project file_name (MEMMCP_READ_TIMEOUT_SECS S) s) as (w & r & Hq). rewrite Hq.
  destruct (read_project_file S clock monotonic project file_name am bm s) as [s' out] eqn:Hr.
  unfold read_project_file in Hr. rewrite Hq in Hr. destruct r as [c|e].
  - destruct (truthy c) eqn:Et.
    + unfold st_bind in Hr. destruct (cache_file _ _ _ _ _ _) as [s2 [[]|e]] eqn:Ec; injection Hr as <- <-.
      * split; [by apply from_server|]. intros c' key [= <-] _ Hc Hm Hk. by apply (cache_file_lookup _ _ _ _ _ _ _ _ Hm Hc Hk Ec).
      * split; [|by intros ? ? ? [=]]. apply cache_file_raises in Ec. by apply error_of_path.
    + apply truthy_false in Et as ->. injection Hr as <- <-. split; [by apply from_server|]. by intros c key [= <-].
  - split; [|by intros ? ? [=]].
    destruct e; try (injection Hr as <- <-; by apply error_of_request).
    + by eapply on_http_error_outcome.
    + by eapply on_timeout_outcome.
Qed.

(** The memory server reports a missing file as a failed tool call, which
    the client turns into status 500, and 500 counts as transient: while the
    cache has the text of a file that was removed, reads answer that text
    instead of reporting the file missing. *)
Theorem removed_file_is_served {W} `{ToolServer W} (S : settings) clock monotonic project file_name am bm (s s1 : read_state W)
    detail key fetched content :
  _read_project_file_remote project file_name (MEMMCP_READ_TIMEOUT_SECS S) s = (s1, Raise (HTTPException 500 detail)) ->
  _memory_not_found_detail detail = true -> MEMMCP_READ_FAIL_OPEN_ENABLED (read_cfg S) = true ->
  0 < MEMMCP_READ_CACHE_MAX_KEYS (read_cfg S) -> _memory_read_cache_key project file_name = Ok key ->
  clookup key (entries (files s)) = Some (fetched, content) -> 0 < fetched <= monotonic (rticks s) ->
  monotonic (rticks s) - fetched <= MEMMCP_READ_CACHE_STALE_MAX_SECS (read_cfg S) ->
  snd (read_project_file S clock monotonic project file_name am bm s) = Ok content.
Proof.
  intros Hq Hd Ho Hm Hk Hl Hf Hs. pose proof (remote_frame project file_name (MEMMCP_READ_TIMEOUT_SECS S) s) as (w & r & Hw).
  rewrite Hw in Hq. injection Hq as <- ->. unfold read_project_file. rewrite Hw. unfold on_http_error. rewrite Ho. cbn [andb].
  change (_is_transient_memory_read_http_error 500 detail) with true. cbn match.
  unfold stale_content, st_bind, read_clock, in_files, _memory_read_cache_get. cbn [files set_tools rticks entries].
  destruct (_ <=? 0) eqn:E; [blift; lia|]. rewrite Hk. unfold read_cached. rewrite Hl.
  rewrite Z.max_r by lia. rewrite (proj2 (Z.leb_le _ _) Hs), (proj2 (Z.ltb_lt 0 fetched)) by lia. rewrite orb_true_r.
  cbn [andb]. cbn. unfold _schedule_memory_read_cache_refresh, st_bind, st_lift. rewrite Ho, Hk. cbn.
  repeat (dmatch; try done).
Qed.

(** A server that knows no file. *)
#[local] Instance no_files : ToolServer unit := {|
  tool_call := fun name _ _ w => (w, Raise (HTTPException 500 (name +:+ " failed: File not found"))) |}.

Definition some_settings : settings := mkReadSettings default_read_config (8 * us_per_sec) (12 * us_per_sec) true "overrides".

Lemma removed_file_is_served_witness :
  snd (read_project_file some_settings (fun _ => 0) (fun _ => 50) "p" "README.md" true true
        (mkRead tt (mkLruCache [("p::readme.md", (7, "old text"))] 0 0 0) 0 [] 0 0 0 0 0)) = Ok "old text".
Proof.
  apply (removed_file_is_served some_settings (fun _ => 0) (fun _ => 50) "p" "README.md" true true
    (mkRead tt (mkLruCache [("p::readme.md", (7, "old text"))] 0 0 0) 0 [] 0 0 0 0 0)
    (mkRead tt (mkLruCache [("p::readme.md", (7, "old text"))] 0 0 0) 0 [] 0 0 0 0 0)
    "memory_bank_read failed: File not found" "p::readme.md" 7 "old text"); try reflexivity; [cbn; lia|vm_compute; discriminate].
Defined.

(** The key of the cache ignores case: files whose names differ only in case
    share an entry. *)
Lemma read_key_ignores_case : _memory_read_cache_key "p" "README.md" = _memory_read_cache_key "p" "readme.md".
Proof. reflexivity. Qed.

(** ** Refreshes *)

(** At most the configured number of refreshes run, each for a key of its own. *)
Definition inflight_ok {W} (S : settings) (s : read_state W) : Prop :=
  List.NoDup (map fst (inflight s)) /\
  Z.of_nat (length (inflight s)) <= Z.max 0 (MEMMCP_READ_CACHE_REFRESH_MAX_INFLIGHT (read_cfg S)).

(** Refreshes of cached files are bounded: at most the configured number
    run at once, each for a key of its own, and the task of a refresh always
    gives up its place, whatever the server does; a refresh that is not started
    changes nothing. *)
Theorem refreshes_bounded {W} `{ToolServer W} (S : settings) monotonic project file_name (s : read_state W) : inflight_ok S s ->
  (let '(s', r) := _schedule_memory_read_cache_refresh S monotonic project file_name s in
   inflight_ok S s' /\ (r = Ok false -> s' = s) /\
   (r = Ok true -> exists key, _memory_read_cache_key project file_name = Ok key /\ In key (map fst (inflight s')))) /\
  (let '(s', r) := refresh_runner S monotonic project file_name s in
   inflight_ok S s' /\
   (forall key, _memory_read_cache_key project file_name = Ok key -> r = Ok tt /\ ~ In key (map fst (inflight s')))).
Proof.
  intros [H1 H2]. split.
  - unfold _schedule_memory_read_cache_refresh. destruct (MEMMCP_READ_FAIL_OPEN_ENABLED _); cbn; [|by repeat split].
    unfold st_bind, st_lift, st_get. destruct (_memory_read_cache_key project file_name) as [key|e]; [|by repeat split].
    destruct (mem_str key _) eqn:Em; [by repeat split|]. destruct (_ <=? Z.of_nat _) eqn:El; [by repeat split|].
    cbn. unfold inflight_ok. cbn [inflight]. rewrite cset_keys, cset_length, Em. blift.
    split; [split; [|lia]|split; [done|]].
    + apply List.NoDup_app; [done|repeat constructor; by intros []|]. intros x Hx [<-|[]].
      apply mem_str_In in Hx. congruence.
    + intros _. exists key. split; [done|]. apply in_app_iff. right. by left.
  - destruct (refresh_runner S monotonic project file_name s) as [s' r] eqn:Er.
    enough (forall key, _memory_read_cache_key project file_name = Ok key -> r = Ok tt /\ inflight s' = cdel key (inflight s)) as Hk.
    + destruct (_memory_read_cache_key project file_name) as [key|e] eqn:Ek.
      * destruct (Hk key eq_refl) as [-> Hi]. unfold inflight_ok. rewrite Hi. split.
        { split; [by apply NoDup_cdel|]. pose proof (cdel_length key (inflight s)). lia. }
        intros k [= <-]. split; [done|]. apply cdel_keys.
      * split; [|done]. revert Er. unfold refresh_runner, st_bind, st_lift. rewrite Ek. by intros [= <- <-].
    + intros key Ek. revert Er. unfold refresh_runner, st_bind at 1, st_lift. rewrite Ek. unfold st_finally, st_try, st_bind at 1.
      destruct (remote_frame project file_name (MEMMCP_READ_CACHE_REFRESH_TIMEOUT_SECS S) s) as (w & q & ->). 
      destruct q as [c|e]; [|by intros [= <- <-]]. destruct (truthy c); [|by intros [= <- <-]].
      unfold cache_file, in_files, read_clock, _memory_read_cache_set, st_bind. rewrite Ek. destruct (_ <=? 0); [by intros [= <- <-]|]. destruct (negb (truthy c)); by intros [= <- <-].
Qed.

Lemma refreshes_bounded_witness :
  inflight_ok some_settings (mkRead tt no_cache 0 [("p::a.md", 3)] 1 0 0 0 0) /\
  let '(s', r) := _schedule_memory_read_cache_refresh some_settings (fun _ => 50) "p" "b.md" (mkRead tt no_cache 0 [("p::a.md", 3)] 1 0 0 0 0) in
  inflight_ok some_settings s' /\ r = Ok true.
Proof.
  assert (inflight_ok some_settings (mkRead tt no_cache 0 [("p::a.md", 3)] 1 0 0 0 0)) as H0.
  { split; [repeat constructor; by intros []|cbn; lia]. }
  split; [exact H0|].
  destruct (refreshes_bounded some_settings (fun _ => 50) "p" "b.md" (mkRead tt no_cache 0 [("p::a.md", 3)] 1 0 0 0 0) H0) as [(H1 & _) _].
  split; [exact H1|reflexivity].
Defined.
