(* ===== verification/Ranking.v ===== *)
(** * Matching and ranking

    How texts are compared with a query, how the results of the sources are
    merged into one row per record ([_merge_federated_rows]) and how rows are
    ordered.  Scores are exact rationals; [round(x, n)] rounds half to even. *)

From S2P Require Import Prelude PyStr PyTime Json JsonText Policy OutboxMaint WriteBuffer Regex Lru.
From Stdlib Require Import Ascii QArith Qminmax Qround.
Open Scope Z_scope.

(** ** Numbers *)

Definition Qltb (a b : Q) : bool := negb (Qle_bool b a).
Definition qz (z : Z) : Q := inject_Z z.
Definition qlen {A} (l : list A) : Q := qz (Z.of_nat (length l)).

(** The nearest integer, half to even. *)
Definition round_half_even (q : Q) : Z :=
  let n := Qnum q in
  let d := Zpos (Qden q) in
  let f := n / d in
  match 2 * (n mod d) ?= d with
  | Lt => f
  | Gt => f + 1
  | Eq => if Z.even f then f else f + 1
  end.

(** [round(q, k)] *)
Definition pow10 (k : nat) : positive := Z.to_pos (10 ^ Z.of_nat k).
Definition rnd (k : nat) (q : Q) : Q := round_half_even (q * qz (Zpos (pow10 k))) # pow10 k.

(** ** Terms *)

(** [[A-Za-z0-9_:/.-]] *)
Definition is_token_char (c : ascii) : bool :=
  is_word c || Ascii.eqb c ":" || Ascii.eqb c "/" || Ascii.eqb c "." || Ascii.eqb c "-".

Definition dedupe (l : list string) : list string := keep_new (fun _ => true) [] l.
Definition sorted_set (l : list string) : list string := sort_by str_leb (dedupe l).

Definition _query_terms (query : string) (max_terms : nat) : list string :=
  firstn (Nat.max 1 max_terms) (dedupe (findall (Rep is_token_char 3 None) (lower query))).

Definition count_in (terms : list string) (body : string) : Z := Z.of_nat (length (List.filter (contains body) terms)).

Definition _text_match_score (query text : string) : Q :=
  let query_text := lower (strip query) in
  let body := lower text in
  if negb (truthy query_text) || negb (truthy body) then 0
  else if contains body query_text then 1
  else
    let terms := _query_terms query_text 10 in
    let hits := count_in terms body in
    if hits <=? 0 then 0
    else
      let density := Qmin 1 (qz (Z.of_nat (String.length body)) / 4000) in
      Qmin (95 # 100) (qz hits / qz (Z.max 1 (Z.of_nat (length terms))) * ((55 # 100) + (45 # 100) * density)).

(** [(?<![A-Za-z0-9_])[-+]?\$?\d[\d,]*(?:\.\d+)?%?] *)
Definition one_of (cs : list ascii) (c : ascii) : bool := existsb (Ascii.eqb c) cs.
Definition opt_char (c : ascii) : re := Rep (Ascii.eqb c) 0 (Some 1%nat).
Definition numeric_re : re :=
  Seq (NotAfter is_word) (Seq (Rep (one_of ["-"; "+"]%char) 0 (Some 1%nat)) (Seq (opt_char "$")
    (Seq (Cls is_digit) (Seq (Rep (fun c => is_digit c || Ascii.eqb c ",") 0 None)
      (Seq (Alt (Seq (Cls (Ascii.eqb ".")) (Rep is_digit 1 None)) Eps) (opt_char "%")))))).

Definition _extract_numeric_values_verbatim (text : string) (limit : Z) : list string :=
  firstn (Z.to_nat (Z.max 1 limit)) (dedupe (List.filter truthy (map strip (findall numeric_re text)))).

Definition stop_words : list string :=
  ["about"; "after"; "again"; "already"; "avoid"; "from"; "into"; "just"; "like"; "more"; "only"; "that"; "this";
   "with"; "would"].

Definition learning_terms (items : json) : list string :=
  match items with
  | JList l =>
      dedupe (List.filter (fun t => negb (mem_str t stop_words))
        (flat_map (fun v => match v with JStr s => findall (Rep is_token_char 4 None) (lower s) | _ => [] end) l))
  | _ => []
  end.

(** The positive and the negative terms; sets as lists without repetition. *)
Definition _extract_learning_terms (preferences : dict) : list string * list string :=
  (learning_terms (dget preferences "positive"), learning_terms (dget preferences "negative")).

(** [re.sub(r"\s+", " ", text)] *)
Definition collapse_spaces (text : string) : string := sub (Rep is_space 1 None) " " text.
Definition normalized_query (query : string) : string := collapse_spaces (lower (strip query)).

(** ** Sources and weights *)

Definition DEFAULT_RETRIEVAL_SOURCE_WEIGHTS : list (string * Q) :=
  [("qdrant", 1%Q); ("letta", 9 # 10); ("topic_rollups", 88 # 100); ("mindsdb", 8 # 10); ("mongo_raw", 75 # 100);
   ("memory_bank", 65 # 100)].

Definition _normalize_retrieval_sources (RETRIEVAL_SOURCES_ENV : string) (sources : list string) : list string :=
  let requested := match sources with
                   | [] => _normalize_lower_csv (Some RETRIEVAL_SOURCES_ENV)
                   | _ => map (fun item => lower (strip item)) (List.filter (fun item => truthy (strip item)) sources)
                   end in
  match keep_new (fun source => mem_str source RETRIEVAL_SOURCES) [] requested with
  | [] => ["qdrant"]
  | normalized => normalized
  end.

(** A weight that [float] cannot read is [None]. *)
Definition _normalize_retrieval_weights (custom_weights : list (string * option Q)) : list (string * Q) :=
  fold_left (fun weights kv =>
      let key := lower (strip (fst kv)) in
      if negb (mem_str key RETRIEVAL_SOURCES) then weights
      else match snd kv with
           | None => weights
           | Some score => cset key (Qmax 0 (Qmin score 2)) weights
           end) custom_weights DEFAULT_RETRIEVAL_SOURCE_WEIGHTS.

(** ** Rows *)

(** A result of a source: its fields and its score (0 when it has none). *)
Record row := mkRow { fields : dict; score : Q }.

Definition text_of (r : row) (k : string) : string := jstr_or_empty (dget (fields r) k).

Section identity.
(** [hashlib.sha1(...).hexdigest()] and the values of [uuid.uuid4().hex]. *)
Variables (sha1 : string -> string) (uuid_hex : nat -> string).

(** The identity of a row; a row without texts gets a new one, [n] counts
    those given so far. *)
Definition _result_identity (fs : dict) (n : nat) : string * nat :=
  let token k := lower (strip (jstr_or_empty (dget fs k))) in
  if truthy (token "project") || truthy (token "file") then (token "project" +:+ ":" +:+ token "file", n)
  else if truthy (token "summary") then (sha1 (token "summary"), n)
  else (uuid_hex n, S n).
End identity.

(** ** Lifecycle of results *)

Record lifecycle_config := mkLifecycle {
  RETRIEVAL_LIFECYCLE_ENABLED : bool; RETRIEVAL_LIFECYCLE_MAX_KEYS : Z; RETRIEVAL_LIFECYCLE_HALFLIFE_HOURS : Q;
  RETRIEVAL_LIFECYCLE_REUSE_WEIGHT : Q; RETRIEVAL_LIFECYCLE_RECENCY_WEIGHT : Q;
  RETRIEVAL_LIFECYCLE_CONTRADICTION_PENALTY : Q; RETRIEVAL_LIFECYCLE_MAX_ADJUSTMENT : Q }.

(** Monotonic times are microseconds. *)
Record life_entry := mkLife {
  hits : Z; contradictions : Z; summary_hash : option string; first_seen_at : string; first_seen_monotonic : Z;
  last_seen_at : string; last_seen_monotonic : Z }.

Section lifecycle.
Variable F : lifecycle_config.
(** [exp(-log(2) * x)] and [log1p]. *)
Variables (half_decay : Q -> Q) (log1p : Q -> Q).

Definition half_life_secs : Q := Qmax 3600 (RETRIEVAL_LIFECYCLE_HALFLIFE_HOURS F * 3600).
Definition secs (us : Z) : Q := qz us / qz us_per_sec.

(** [float(entry.get("last_seen_monotonic") or entry.get("first_seen_monotonic") or 0.0)] *)
Definition seen_monotonic (e : life_entry) : Z :=
  if last_seen_monotonic e =? 0 then first_seen_monotonic e else last_seen_monotonic e.

Definition life_stale (now : Z) (e : life_entry) : bool :=
  (seen_monotonic e <=? 0) ||
  (Qltb (Qmax (half_life_secs * 6) 3600) (secs (Z.max 0 (now - seen_monotonic e))) && (Z.max 0 (hits e) <=? 1)).

(** The entries that are not stale; the stale ones are dropped. *)
Definition _retrieval_lifecycle_snapshot (now : Z) (d : list (string * life_entry))
  : list (string * life_entry) * list (string * life_entry) :=
  if RETRIEVAL_LIFECYCLE_ENABLED F
  then let kept := List.filter (fun kv => negb (life_stale now (snd kv))) d in (kept, kept)
  else (d, []).

Definition _retrieval_lifecycle_adjustment (key : string) (snapshot : list (string * life_entry)) (now : Z) : Q :=
  if negb (RETRIEVAL_LIFECYCLE_ENABLED F) then 0
  else match clookup key snapshot with
       | None => 0
       | Some e =>
           let age_secs := if 0 <? seen_monotonic e then secs (Z.max 0 (now - seen_monotonic e)) else half_life_secs in
           let reuse_bonus := (log1p (qz (Z.max 0 (hits e))) * RETRIEVAL_LIFECYCLE_REUSE_WEIGHT F)%Q in
           let recency_bonus := (half_decay (age_secs / half_life_secs) * RETRIEVAL_LIFECYCLE_RECENCY_WEIGHT F)%Q in
           let contradiction_penalty := (qz (Z.max 0 (contradictions e)) * RETRIEVAL_LIFECYCLE_CONTRADICTION_PENALTY F)%Q in
           Qmax (- RETRIEVAL_LIFECYCLE_MAX_ADJUSTMENT F)
             (Qmin (RETRIEVAL_LIFECYCLE_MAX_ADJUSTMENT F) (reuse_bonus + recency_bonus - contradiction_penalty))
       end.
End lifecycle.

Section observing.
Variable F : lifecycle_config.
Variables (sha1 : string -> string) (uuid_hex : nat -> string).

Definition disjoint (a b : list string) : bool := negb (existsb (fun x => mem_str x b) a).

(** One result is seen. *)
Definition observe (now_iso : string) (now : Z) (query_values : list string) (fs : dict) (e : option life_entry) : life_entry :=
  let e := match e with Some e => e | None => mkLife 0 0 None now_iso now "" 0 end in
  let summary := strip (jstr_or_empty (dget fs "summary")) in
  let row_values := _extract_numeric_values_verbatim summary 16 in
  let contradiction := match query_values, row_values with
                       | [], _ | _, [] => false
                       | _, _ => disjoint query_values row_values
                       end in
  mkLife (Z.max 0 (hits e) + 1) (if contradiction then Z.max 0 (contradictions e) + 1 else contradictions e)
    (if truthy summary then Some (sha1 (lower summary)) else summary_hash e)
    (first_seen_at e) (first_seen_monotonic e) now_iso now.

Fixpoint observe_rows (now_iso : string) (now : Z) (query_values : list string) (rows : list dict)
    (d : list (string * life_entry)) (n : nat) : list (string * life_entry) * nat :=
  match rows with
  | [] => (d, n)
  | r :: rows' =>
      let '(key, n') := _result_identity sha1 uuid_hex r n in
      if negb (truthy key) then observe_rows now_iso now query_values rows' d n'
      else observe_rows now_iso now query_values rows' (put key (observe now_iso now query_values r (clookup key d)) d) n'
  end.

Definition _record_retrieval_lifecycle_observation (now_iso : string) (now : Z) (query : string) (results : list dict)
    (d : list (string * life_entry)) (n : nat) : list (string * life_entry) * nat :=
  match results with
  | [] => (d, n)
  | _ =>
      if negb (RETRIEVAL_LIFECYCLE_ENABLED F) then (d, n)
      else
        let '(d', n') := observe_rows now_iso now (_extract_numeric_values_verbatim query 16) results d n in
        (fst (evict (length d') (RETRIEVAL_LIFECYCLE_MAX_KEYS F) d'), n')
  end.
End observing.

(** ** Merging *)

Record ranking_config := mkRanking {
  RETRIEVAL_LEARNING_POSITIVE_BOOST : Q; RETRIEVAL_LEARNING_NEGATIVE_PENALTY : Q; RETRIEVAL_FUSION_ENABLED : bool;
  RETRIEVAL_FUSION_LEXICAL_BOOST : Q; RETRIEVAL_FUSION_CONSENSUS_BOOST : Q; RETRIEVAL_FUSION_NUMERIC_MATCH_ENABLED : bool;
  RETRIEVAL_FUSION_NUMERIC_MATCH_BOOST : Q; RETRIEVAL_FUSION_NUMERIC_MISS_PENALTY : Q }.

Definition default_ranking : ranking_config :=
  mkRanking (6 # 100) (8 # 100) true (16 # 100) (2 # 100) true (8 # 100) (3 # 100).

(** A merged row: the fields of the row that was kept and what was added. *)
Record merged_row := mkMerged {
  m_fields : dict; m_source : string; m_sources : list string; base_score : Q; source_weight : Q; quality_multiplier : Q;
  learning_adjustment : Q; fusion_adjustment : Q; lexical_adjustment : Q; numeric_adjustment : Q; numeric_match_ratio : Q;
  lifecycle_adjustment : Q; pre_consensus_score : Q; consensus_adjustment : Q; m_score : Q }.

Definition with_sources (sources : list string) (m : merged_row) : merged_row :=
  mkMerged (m_fields m) (m_source m) sources (base_score m) (source_weight m) (quality_multiplier m)
    (learning_adjustment m) (fusion_adjustment m) (lexical_adjustment m) (numeric_adjustment m) (numeric_match_ratio m)
    (lifecycle_adjustment m) (pre_consensus_score m) (consensus_adjustment m) (m_score m).

Section merging.
Variable C : ranking_config.
Variable F : lifecycle_config.
Variables (half_decay : Q -> Q) (log1p : Q -> Q).
Variables (sha1 : string -> string) (uuid_hex : nat -> string).
Variables (positive_terms negative_terms : list string) (learning_enabled : bool) (query : string)
  (source_weights : list (string * Q)) (quality_multipliers : list (string * Q)) (lifecycle : list (string * life_entry))
  (now_monotonic : Z).

Definition text_blob (r : row) : string :=
  let nl := String (ascii_of_N 10) "" in
  lower (text_of r "project" +:+ nl +:+ text_of r "file" +:+ nl +:+ text_of r "summary").

Definition learning_of (blob : string) : Q :=
  if learning_enabled
  then (qz (count_in positive_terms blob) * RETRIEVAL_LEARNING_POSITIVE_BOOST C
        - qz (count_in negative_terms blob) * RETRIEVAL_LEARNING_NEGATIVE_PENALTY C)%Q
  else 0%Q.

Definition query_numeric_values : list string := _extract_numeric_values_verbatim (normalized_query query) 16.

(** The numeric adjustment and the match ratio. *)
Definition numeric_of (blob : string) : Q * Q :=
  match query_numeric_values with
  | [] => (0%Q, 0%Q)
  | values =>
      if negb (RETRIEVAL_FUSION_NUMERIC_MATCH_ENABLED C) then (0%Q, 0%Q)
      else match _extract_numeric_values_verbatim blob 16 with
           | [] => ((- RETRIEVAL_FUSION_NUMERIC_MISS_PENALTY C)%Q, 0%Q)
           | row_values =>
               let matches := List.filter (fun v => mem_str v row_values) values in
               let match_ratio := (qlen matches / qlen values)%Q in
               let miss_ratio := (qz (Z.max 0 (Z.of_nat (length values) - Z.of_nat (length matches))) / qlen values)%Q in
               ((match_ratio * RETRIEVAL_FUSION_NUMERIC_MATCH_BOOST C
                 - miss_ratio * RETRIEVAL_FUSION_NUMERIC_MISS_PENALTY C)%Q, match_ratio)
           end
  end.

(** Lexical adjustment, numeric adjustment and match ratio. *)
Definition fusion_of (blob : string) : Q * (Q * Q) :=
  if RETRIEVAL_FUSION_ENABLED C && truthy (normalized_query query)
  then ((_text_match_score (normalized_query query) blob * RETRIEVAL_FUSION_LEXICAL_BOOST C)%Q, numeric_of blob)
  else (0%Q, (0%Q, 0%Q)).

Definition source_name (source : string) : string := lower (strip source).
Definition source_label (source : string) : string := str_or (source_name source) source.

Definition weight_of (source : string) : Q :=
  match clookup (source_name source) source_weights with
  | Some w => w
  | None => match clookup source source_weights with Some w => w | None => 1%Q end
  end.

Definition quality_of (source : string) : Q :=
  match clookup (source_name source) quality_multipliers with Some m => m | None => 1%Q end.

(** The score of a row before it is rounded. *)
Definition composite_score (source key : string) (r : row) : Q :=
  let blob := text_blob r in
  let '(lexical, (numeric, _)) := fusion_of blob in
  (score r * weight_of source * quality_of source + learning_of blob + (lexical + numeric)
   + _retrieval_lifecycle_adjustment F half_decay log1p key lifecycle now_monotonic)%Q.

Definition normalized (source key : string) (r : row) : merged_row :=
  let blob := text_blob r in
  let '(lexical, (numeric, ratio)) := fusion_of blob in
  let composite := rnd 6 (composite_score source key r) in
  mkMerged (fields r) (source_label source) [source_label source] (rnd 6 (score r)) (rnd 4 (weight_of source))
    (rnd 6 (quality_of source)) (rnd 6 (learning_of blob)) (rnd 6 (lexical + numeric)) (rnd 6 lexical) (rnd 6 numeric)
    (rnd 6 ratio) (rnd 6 (_retrieval_lifecycle_adjustment F half_decay log1p key lifecycle now_monotonic))
    composite 0 composite.

Definition merge_row (source key : string) (r : row) (merged : list (string * merged_row)) : list (string * merged_row) :=
  let x := normalized source key r in
  match clookup key merged with
  | None => cset key x merged
  | Some existing =>
      let sources := sorted_set (m_sources existing ++ [source_label source]) in
      if Qltb (pre_consensus_score existing) (composite_score source key r)
      then cset key (with_sources sources x) merged
      else cset key (with_sources sources existing) merged
  end.

Fixpoint merge_rows (source : string) (rows : list row) (merged : list (string * merged_row)) (n : nat)
  : list (string * merged_row) * nat :=
  match rows with
  | [] => (merged, n)
  | r :: rows' =>
      let '(key, n') := _result_identity sha1 uuid_hex (fields r) n in
      merge_rows source rows' (merge_row source key r merged) n'
  end.

Fixpoint merge_sources (results_by_source : list (string * list row)) (merged : list (string * merged_row)) (n : nat)
  : list (string * merged_row) * nat :=
  match results_by_source with
  | [] => (merged, n)
  | (source, rows) :: rest => let '(merged', n') := merge_rows source rows merged n in merge_sources rest merged' n'
  end.

(** What the sources agree on is raised. *)
Definition add_consensus (m : merged_row) : merged_row :=
  let sources := sorted_set (m_sources m) in
  let adjustment := if RETRIEVAL_FUSION_ENABLED C && (1 <? Z.of_nat (length sources))
                    then ((qlen sources - 1) * RETRIEVAL_FUSION_CONSENSUS_BOOST C)%Q else 0%Q in
  mkMerged (m_fields m) (m_source m) sources (base_score m) (source_weight m) (quality_multiplier m)
    (learning_adjustment m) (fusion_adjustment m) (lexical_adjustment m) (numeric_adjustment m) (numeric_match_ratio m)
    (lifecycle_adjustment m) (pre_consensus_score m) (rnd 6 adjustment) (rnd 6 (pre_consensus_score m + adjustment)).

(** The merged rows with their identities. *)
Definition _merge_federated_rows (results_by_source : list (string * list row)) (n : nat) : list (string * merged_row) * nat :=
  let '(merged, n') := merge_sources results_by_source [] n in
  (map (fun kv => (fst kv, add_consensus (snd kv))) merged, n').
End merging.

(** ** Order *)

(** [sort(key=lambda row: (row["score"], row["base_score"]), reverse=True)] *)
Definition ranks_before (a b : merged_row) : bool :=
  Qltb (m_score b) (m_score a) || (Qeq_bool (m_score a) (m_score b) && Qle_bool (base_score b) (base_score a)).

(** [l[:n]] *)
Definition upto {A} (n : Z) (l : list A) : list A :=
  firstn (Z.to_nat (if n <? 0 then Z.of_nat (length l) + n else n)) l.

(** [rows.sort(key=lambda row: row["score"], reverse=True); rows[:limit]] *)
Definition best_rows (limit : Z) (rows : list row) : list row :=
  upto limit (sort_by (fun a b => Qle_bool (score b) (score a)) rows).
