(* ===== verification/RankingFacts.v ===== *)
(** * Facts on matching and ranking

    Rounding is monotone; a match score lies between 0 and 1; merging gives
    one row per record, with the best of its scores and all of its sources. *)

From S2P Require Import Prelude PyStr PyTime Json JsonText Policy OutboxMaint WriteBuffer WriteBufferFacts Regex Lru Ranking.
From Stdlib Require Import QArith Qminmax Qround Lqa.
Open Scope Z_scope.

(** ** Rounding *)

Lemma Qltb_true a b : Qltb a b = true <-> (a < b)%Q.
Proof.
  unfold Qltb. rewrite negb_true_iff. split.
  - intros H. apply Qnot_le_lt. intros Hle. apply Qle_bool_iff in Hle. congruence.
  - intros H. destruct (Qle_bool b a) eqn:E; [|done]. apply Qle_bool_iff in E. lra.
Qed.

Lemma Qltb_false a b : Qltb a b = false <-> (b <= a)%Q.
Proof. unfold Qltb. by rewrite negb_false_iff, Qle_bool_iff. Qed.

Lemma qz_le a b : a <= b -> (qz a <= qz b)%Q.
Proof. intros H. by rewrite <- Zle_Qle. Qed.

Lemma qz_lt a b : a < b -> (qz a < qz b)%Q.
Proof. intros H. by rewrite <- Zlt_Qlt. Qed.

(** The nearest integer; at a half the even one. *)
Lemma round_half_even_spec n d (z := round_half_even (n # d)) :
  2 * n - Zpos d <= 2 * Zpos d * z <= 2 * n + Zpos d /\
  (2 * Zpos d * z = 2 * n - Zpos d \/ 2 * Zpos d * z = 2 * n + Zpos d -> Z.even z = true).
Proof.
  unfold z, round_half_even. cbn [Qnum Qden].
  pose proof (Z.div_mod n (Zpos d) ltac:(lia)) as Hn. pose proof (Z.mod_pos_bound n (Zpos d) ltac:(lia)) as Hr.
  set (f := n / Zpos d) in *. set (r := n mod Zpos d) in *.
  destruct (Z.compare_spec (2 * r) (Zpos d)) as [He|Hlt|Hgt].
  - destruct (Z.even f) eqn:Ef.
    + split; [nia|]. done.
    + split; [nia|]. intros _. by rewrite Z.even_add, Ef.
  - split; [nia|]. intros [H|H]; nia.
  - split; [nia|]. intros [H|H]; nia.
Qed.

Lemma round_half_even_mono a b : (a <= b)%Q -> round_half_even a <= round_half_even b.
Proof.
  destruct a as [n1 d1], b as [n2 d2]. unfold Qle. cbn [Qnum Qden]. intros Hle.
  destruct (round_half_even_spec n1 d1) as [H1 E1]. destruct (round_half_even_spec n2 d2) as [H2 E2].
  set (x := round_half_even (n1 # d1)) in *. set (y := round_half_even (n2 # d2)) in *.
  destruct (Z.le_gt_cases x y) as [|Hlt]; [done|exfalso].
  set (P := Zpos d1 * Zpos d2) in *. assert (0 < P) as HP by (unfold P; lia).
  assert (2 * (P * x) <= 2 * (n1 * Zpos d2) + P) as A1 by (unfold P; nia).
  assert (2 * (n2 * Zpos d1) - P <= 2 * (P * y)) as A2 by (unfold P; nia).
  assert (x = y + 1) as Hx by nia. rewrite Hx in A1.
  assert (2 * (P * (y + 1)) = 2 * (n1 * Zpos d2) + P) as B1 by lia.
  assert (2 * (P * y) = 2 * (n2 * Zpos d1) - P) as B2 by lia.
  assert (2 * Zpos d1 * x = 2 * n1 + Zpos d1) as T1 by (apply (Z.mul_reg_r _ _ (Zpos d2)); [lia|]; rewrite Hx; unfold P in B1; lia).
  assert (2 * Zpos d2 * y = 2 * n2 - Zpos d2) as T2 by (apply (Z.mul_reg_r _ _ (Zpos d1)); [lia|]; unfold P in B2; lia).
  specialize (E1 (or_intror T1)). specialize (E2 (or_introl T2)). rewrite Hx, Z.even_add, E2 in E1. done.
Qed.

Lemma round_half_even_Z z p : round_half_even (z * Zpos p # p) = z.
Proof.
  unfold round_half_even. cbn [Qnum Qden]. rewrite Z.div_mul, Z.mod_mul by lia. done.
Qed.

Lemma rnd_mono k a b : (a <= b)%Q -> (rnd k a <= rnd k b)%Q.
Proof.
  intros H. unfold rnd, Qle. cbn [Qnum Qden]. apply Z.mul_le_mono_nonneg_r; [lia|].
  apply round_half_even_mono. apply Qmult_le_compat_r; [done|]. unfold qz, Qle. cbn. lia.
Qed.

Lemma rnd_scaled k z : rnd k (z # pow10 k) = z # pow10 k.
Proof.
  unfold rnd. replace ((z # pow10 k) * qz (Zpos (pow10 k)))%Q with (z * Zpos (pow10 k) # pow10 k).
  - by rewrite round_half_even_Z.
  - unfold qz, Qmult, inject_Z. cbn [Qnum Qden]. by rewrite Pos.mul_1_r.
Qed.

Lemma rnd_rnd k q : rnd k (rnd k q) = rnd k q.
Proof. apply rnd_scaled. Qed.

(** What is at most a rounded number is at most it when rounded. *)
Lemma rnd_le k a q : (a <= rnd k q)%Q -> (rnd k a <= rnd k q)%Q.
Proof. intros H. rewrite <- (rnd_rnd k q). by apply rnd_mono. Qed.

(** ** Match scores *)

(** What a score means: in range, 1 for the whole query, positive for a part. *)
Definition score_means (v : Q) (whole part : Prop) : Prop :=
  (0 <= v <= 1)%Q /\ ((v == 1)%Q <-> whole) /\ ((0 < v)%Q <-> part).

Lemma score_means_none (whole part : Prop) : (whole -> part) -> ~ part -> score_means 0 whole part.
Proof.
  intros Hw Hp. split; [split; lra|]. split; split; intros H; [discriminate H|by apply Hw, Hp in H|lra|done].
Qed.

Lemma score_means_whole (whole part : Prop) : (whole -> part) -> whole -> score_means 1 whole part.
Proof. intros Hw H. split; [split; lra|]. split; split; intros _; [done|lra|auto|lra]. Qed.

Lemma score_means_part v (whole part : Prop) : (0 < v)%Q -> (v <= 95 # 100)%Q -> ~ whole -> part -> score_means v whole part.
Proof. intros H1 H2 Hw Hp. split; [split; lra|]. split; split; intros H; [exfalso; lra|done|done|done]. Qed.

(** The match score of a text lies between 0 and 1; it is 1 exactly when
    the text contains the whole query, positive exactly when it contains the
    query or one of its first ten terms, and never above 0.95 for terms only. *)
Theorem text_match_score_meaning query text (q := lower (strip query)) (body := lower text) :
  score_means (_text_match_score query text)
    (q <> "" /\ body <> "" /\ contains body q = true)
    (q <> "" /\ body <> "" /\ (contains body q = true \/ exists t, In t (_query_terms q 10) /\ contains body t = true)) /\
  (contains body q = false -> (_text_match_score query text <= 95 # 100)%Q).
Proof.
  unfold _text_match_score. fold q body. unfold truthy.
  destruct (q =s "") eqn:Eq; cbn [negb orb]; blift.
  { split; [|intros _; lra]. apply score_means_none; [tauto|]. by intros [? _]. }
  destruct (body =s "") eqn:Eb; cbn [negb orb]; blift.
  { split; [|intros _; lra]. apply score_means_none; [tauto|]. by intros (_ & ? & _). }
  destruct (contains body q) eqn:Ec.
  { split; [|done]. apply score_means_whole; tauto. }
  set (terms := _query_terms q 10). unfold count_in.
  assert (forall t, In t terms /\ contains body t = true <-> In t (List.filter (contains body) terms)) as Hf.
  { intros t. symmetry. apply filter_In. }
  set (found := List.filter (contains body) terms) in *.
  destruct (Z.of_nat (length found) <=? 0) eqn:E; blift.
  { assert (found = []) as H0 by (apply length_zero_iff_nil; lia). rewrite H0 in Hf.
    split; [|intros _; lra]. apply score_means_none; [tauto|].
    intros (_ & _ & [?|(t & Ht)]); [done|]. by apply Hf in Ht. }
  set (density := Qmin 1 (qz (Z.of_nat (String.length body)) / 4000)).
  set (ratio := (qz (Z.of_nat (length found)) / qz (Z.max 1 (Z.of_nat (length terms))))%Q).
  assert (0 <= density)%Q as Hd.
  { unfold density. apply Q.min_glb; [lra|]. apply Qle_shift_div_l; [reflexivity|]. rewrite Qmult_0_l. apply (qz_le 0). lia. }
  assert (0 < ratio)%Q as Hr.
  { unfold ratio. apply Qlt_shift_div_l; [apply (qz_lt 0); lia|]. rewrite Qmult_0_l. apply (qz_lt 0). lia. }
  pose proof (Q.le_min_l (95 # 100) (ratio * ((55 # 100) + (45 # 100) * density))) as Hmin.
  split; [|done]. apply score_means_part; [|done|by intros (_ & _ & ?)|].
  - apply Q.min_glb_lt; [reflexivity|]. apply Qmult_lt_0_compat; [done|]. lra.
  - split; [done|]. split; [done|]. right. destruct found as [|t l] eqn:Ef; [cbn in E; lia|]. exists t. apply Hf. by left.
Qed.

(** ** Sets of strings *)

Lemma dedupe_In x l : In x (dedupe l) <-> In x l.
Proof. unfold dedupe. rewrite keep_new_In. naive_solver. Qed.

Lemma keep_new_seen p seen seen' l : (forall x, In x seen <-> In x seen') -> keep_new p seen l = keep_new p seen' l.
Proof.
  revert seen seen'. induction l as [|x l IH]; intros seen seen' H; cbn; [done|].
  assert (mem_str x seen = mem_str x seen') as ->.
  { apply eq_true_iff_eq. rewrite !mem_str_In. apply H. }
  destruct (_ || _); [by apply IH|]. f_equal. apply IH. intros y. cbn. by rewrite H.
Qed.

Lemma keep_new_snoc seen l x :
  keep_new (fun _ => true) seen (l ++ [x]) =
    keep_new (fun _ => true) seen l ++ (if mem_str x (seen ++ l) then [] else [x]).
Proof.
  revert seen. induction l as [|y l IH]; intros seen; cbn.
  { rewrite app_nil_r. by destruct (mem_str x seen). }
  destruct (mem_str y seen) eqn:E; cbn.
  - rewrite IH. f_equal. assert (mem_str x (seen ++ y :: l) = mem_str x (seen ++ l)) as ->; [|done].
    apply eq_true_iff_eq. rewrite !mem_str_In, !in_app_iff. cbn. apply mem_str_In in E. naive_solver.
  - rewrite IH. cbn. f_equal. f_equal. assert (mem_str x (y :: seen ++ l) = mem_str x (seen ++ y :: l)) as Hm.
    { apply eq_true_iff_eq. rewrite !mem_str_In. cbn. rewrite !in_app_iff. cbn. tauto. }
    cbn in Hm. by rewrite Hm.
Qed.

Lemma dedupe_snoc l x : dedupe (l ++ [x]) = if mem_str x l then dedupe l else dedupe l ++ [x].
Proof. unfold dedupe. rewrite keep_new_snoc. cbn [app]. destruct (mem_str x l); [apply app_nil_r|done]. Qed.

(** Sorted without repetition. *)
Definition is_set (l : list string) : Prop := List.NoDup l /\ StronglySorted (fun a b => str_leb a b = true) l.

Lemma sorted_set_In x l : In x (sorted_set l) <-> In x l.
Proof. unfold sorted_set. by rewrite sort_by_In, dedupe_In. Qed.

Lemma sorted_set_ok l : is_set (sorted_set l).
Proof.
  split.
  - unfold sorted_set. eapply Permutation_NoDup; [symmetry; apply sort_by_perm|]. apply keep_new_NoDup.
  - apply sort_by_sorted; [apply str_leb_total|apply str_leb_trans].
Qed.

Lemma is_set_ext l l' : is_set l -> is_set l' -> (forall x, In x l <-> In x l') -> l = l'.
Proof.
  intros [Hn Hs] [Hn' Hs'] He. eapply sorted_unique; [exact Hs|exact Hs'| |].
  - apply NoDup_Permutation; done.
  - intros x y _ _. apply str_leb_antisym.
Qed.

Lemma sorted_set_id l : is_set l -> sorted_set l = l.
Proof. intros H. apply is_set_ext; [apply sorted_set_ok|done|]. intros x. apply sorted_set_In. Qed.

(** ** Merging *)

Lemma clookup_None {A} k (d : list (string * A)) : In k (map fst d) -> clookup k d <> None.
Proof.
  induction d as [|[k' v] d IH]; cbn; [done|]. destruct (k =s k') eqn:E; [done|]. blift. intros [->|H]; auto.
Qed.

Section merging.
Variable C : ranking_config.
Variable F : lifecycle_config.
Variables (half_decay : Q -> Q) (log1p : Q -> Q).
Variables (sha1 : string -> string) (uuid_hex : nat -> string).
Variables (pos neg : list string) (learning : bool) (query : string) (weights multipliers : list (string * Q))
  (lifecycle : list (string * life_entry)) (now : Z).

Abbreviation composite := (composite_score C F half_decay log1p pos neg learning query weights multipliers lifecycle now).
Abbreviation step := (merge_row C F half_decay log1p pos neg learning query weights multipliers lifecycle now).

(** A row of a source with its identity. *)
Record occurrence := mkOcc { o_source : string; o_key : string; o_row : row }.

Fixpoint occurrences_of (source : string) (rows : list row) (n : nat) : list occurrence * nat :=
  match rows with
  | [] => ([], n)
  | r :: rows' =>
      let '(key, n') := _result_identity sha1 uuid_hex (fields r) n in
      let '(l, n'') := occurrences_of source rows' n' in (mkOcc source key r :: l, n'')
  end.

Fixpoint occurrences (results : list (string * list row)) (n : nat) : list occurrence * nat :=
  match results with
  | [] => ([], n)
  | (source, rows) :: rest =>
      let '(l, n') := occurrences_of source rows n in
      let '(l', n'') := occurrences rest n' in (l ++ l', n'')
  end.

Definition merge_occ (merged : list (string * merged_row)) (o : occurrence) := step (o_source o) (o_key o) (o_row o) merged.

Lemma merge_rows_fold source rows : forall merged n,
  merge_rows C F half_decay log1p sha1 uuid_hex pos neg learning query weights multipliers lifecycle now source rows merged n =
    (fold_left merge_occ (fst (occurrences_of source rows n)) merged, snd (occurrences_of source rows n)).
Proof.
  induction rows as [|r rows IH]; intros merged n; cbn; [done|].
  destruct (_result_identity _ _ _ _) as [key n']. rewrite IH. by destruct (occurrences_of source rows n').
Qed.

Lemma merge_sources_fold results : forall merged n,
  merge_sources C F half_decay log1p sha1 uuid_hex pos neg learning query weights multipliers lifecycle now results merged n =
    (fold_left merge_occ (fst (occurrences results n)) merged, snd (occurrences results n)).
Proof.
  induction results as [|[source rows] rest IH]; intros merged n; cbn; [done|].
  rewrite merge_rows_fold. destruct (occurrences_of source rows n) as [l n']. cbn. rewrite IH.
  destruct (occurrences rest n') as [l' n'']. cbn. by rewrite fold_left_app.
Qed.

Definition occ_score (o : occurrence) : Q := rnd 6 (composite (o_source o) (o_key o) (o_row o)).

(** [m] stands for the occurrences of [k] among [l]. *)
Record represents (l : list occurrence) (k : string) (m : merged_row) : Prop := mkRep {
  rep_best : exists o, In o l /\ o_key o = k /\ m_fields m = fields (o_row o) /\ m_source m = source_label (o_source o) /\
    pre_consensus_score m = occ_score o;
  rep_max : forall o, In o l -> o_key o = k -> (occ_score o <= pre_consensus_score m)%Q;
  rep_set : is_set (m_sources m);
  rep_sources : forall x, In x (m_sources m) <-> exists o, In o l /\ o_key o = k /\ x = source_label (o_source o) }.

Definition merged_ok (l : list occurrence) (merged : list (string * merged_row)) : Prop :=
  map fst merged = dedupe (map o_key l) /\ forall k m, clookup k merged = Some m -> represents l k m.

(** An occurrence of another key changes nothing for [k]. *)
Lemma represents_other l o k m : o_key o <> k -> represents l k m -> represents (l ++ [o]) k m.
Proof.
  intros Hk [(b & Hb & Hb') Hm Hs Hx]. split; [| |done|].
  - exists b. split; [apply in_app_iff; by left|done].
  - intros o' [Ho|[<-|[]]]%in_app_iff Hk'; [by apply Hm|done].
  - intros x. rewrite Hx. split; intros (o' & Ho & Hk' & ->).
    + exists o'. split; [apply in_app_iff; by left|done].
    + apply in_app_iff in Ho as [Ho|[<-|[]]]; [eauto|done].
Qed.

Lemma sources_grow l o k m : o_key o = k -> represents l k m ->
  forall x, In x (sorted_set (m_sources m ++ [source_label (o_source o)])) <->
    exists o', In o' (l ++ [o]) /\ o_key o' = k /\ x = source_label (o_source o').
Proof.
  intros Hk Hr x. rewrite sorted_set_In, in_app_iff, (rep_sources _ _ _ Hr). cbn. split.
  - intros [(o' & Ho & Hk' & ->)|[<-|[]]].
    + exists o'. split; [apply in_app_iff; by left|done].
    + exists o. split; [apply in_app_iff; right; by left|done].
  - intros (o' & [Ho|[<-|[]]]%in_app_iff & Hk' & ->); [left; eauto|right; by left].
Qed.

(** Nobody has [k] yet. *)
Lemma represents_first l o m : ~ In (o_key o) (map o_key l) ->
  m_fields m = fields (o_row o) -> m_source m = source_label (o_source o) -> m_sources m = [source_label (o_source o)] ->
  pre_consensus_score m = occ_score o -> represents (l ++ [o]) (o_key o) m.
Proof.
  intros Hn H1 H2 H3 H4. assert (forall o', In o' (l ++ [o]) -> o_key o' = o_key o -> o' = o) as Ho.
  { intros o' [Ho|[<-|[]]]%in_app_iff Hk; [|done]. destruct Hn. rewrite <- Hk. by apply in_map. }
  assert (In o (l ++ [o])) as Hin by (apply in_app_iff; right; by left).
  split.
  - exists o. auto.
  - intros o' Hi Hk. rewrite (Ho o' Hi Hk), H4. apply Qle_refl.
  - rewrite H3. split; repeat constructor; by intros [].
  - intros x. rewrite H3. cbn. split; [intros [<-|[]]; eauto|]. intros (o' & Hi & Hk & ->). rewrite (Ho o' Hi Hk). by left.
Qed.

Lemma represents_again l o m : represents l (o_key o) m ->
  represents (l ++ [o]) (o_key o)
    (let sources := sorted_set (m_sources m ++ [source_label (o_source o)]) in
     if Qltb (pre_consensus_score m) (composite (o_source o) (o_key o) (o_row o))
     then with_sources sources (normalized C F half_decay log1p pos neg learning query weights multipliers lifecycle now
                                  (o_source o) (o_key o) (o_row o))
     else with_sources sources m).
Proof.
  intros Hr. assert (In o (l ++ [o])) as Hin by (apply in_app_iff; right; by left). cbn zeta.
  destruct (Qltb _ _) eqn:E; [apply Qltb_true in E|apply Qltb_false in E].
  - assert (forall x, In x l -> o_key x = o_key o -> (occ_score x <= occ_score o)%Q) as Hmax.
    { intros x Hx Hk. destruct (rep_best _ _ _ Hr) as (b & _ & _ & _ & _ & Hb).
      eapply Qle_trans; [by apply (rep_max _ _ _ Hr)|]. rewrite Hb in E |- *. unfold occ_score at 1.
      rewrite <- rnd_rnd. apply rnd_mono. apply Qlt_le_weak, E. }
    unfold normalized. destruct (fusion_of _ _ _) as [lexical [numeric ratio]]. split.
    + exists o. by repeat split.
    + intros x [Hx|[<-|[]]]%in_app_iff Hk; [by apply Hmax|apply Qle_refl].
    + apply sorted_set_ok.
    + by apply sources_grow.
  - destruct (rep_best _ _ _ Hr) as (b & Hb & Hbk & Hb'). split.
    + exists b. split; [apply in_app_iff; by left|done].
    + intros x [Hx|[<-|[]]]%in_app_iff Hk; [by apply (rep_max _ _ _ Hr)|].
      destruct Hb' as (_ & _ & Hp). cbn. rewrite Hp in E |- *. by apply rnd_le.
    + apply sorted_set_ok.
    + by apply sources_grow.
Qed.

Lemma merge_occ_ok l merged o : merged_ok l merged -> merged_ok (l ++ [o]) (merge_occ merged o).
Proof.
  intros [Hk Hr]. unfold merge_occ, merge_row, merged_ok.
  assert (forall m, map fst (cset (o_key o) m merged) = dedupe (map o_key (l ++ [o]))) as Hkeys.
  { intros m. rewrite cset_keys, Hk, map_app. cbn [map]. rewrite dedupe_snoc.
    replace (mem_str (o_key o) (dedupe (map o_key l))) with (mem_str (o_key o) (map o_key l)); [done|].
    apply eq_true_iff_eq. by rewrite !mem_str_In, dedupe_In. }
  assert (forall m, represents (l ++ [o]) (o_key o) m ->
            forall k m', clookup k (cset (o_key o) m merged) = Some m' -> represents (l ++ [o]) k m') as Hset.
  { intros m Hm k m'. rewrite clookup_cset. destruct (k =s o_key o) eqn:E; blift.
    - intros [= <-]. by subst.
    - intros Hl. apply represents_other; [congruence|auto]. }
  destruct (clookup (o_key o) merged) as [m|] eqn:El.
  - specialize (represents_again l o m (Hr _ _ El)) as Ha. cbn zeta in Ha.
    destruct (Qltb _ _); (split; [apply Hkeys|exact (Hset _ Ha)]).
  - split; [done|]. apply Hset. apply represents_first.
    + intros Hin. apply dedupe_In in Hin. rewrite <- Hk in Hin. by apply clookup_None in Hin.
    + unfold normalized. by destruct (fusion_of _ _ _) as [lexical [numeric ratio]].
    + unfold normalized. by destruct (fusion_of _ _ _) as [lexical [numeric ratio]].
    + unfold normalized. by destruct (fusion_of _ _ _) as [lexical [numeric ratio]].
    + unfold normalized. by destruct (fusion_of _ _ _) as [lexical [numeric ratio]].
Qed.

Lemma merge_fold_ok l : forall done merged, merged_ok done merged -> merged_ok (done ++ l) (fold_left merge_occ l merged).
Proof.
  induction l as [|o l IH]; intros d merged H; cbn; [by rewrite app_nil_r|].
  replace (d ++ o :: l) with ((d ++ [o]) ++ l) by (by rewrite <- app_assoc). by apply IH, merge_occ_ok.
Qed.

Lemma merge_sources_ok results n :
  merged_ok (fst (occurrences results n)) (fold_left merge_occ (fst (occurrences results n)) []).
Proof. apply (merge_fold_ok _ []). by split. Qed.
End merging.

Lemma consensus_represents C F hd lg pos neg le q ws ms lc now l k m :
  represents C F hd lg pos neg le q ws ms lc now l k m ->
  represents C F hd lg pos neg le q ws ms lc now l k (add_consensus C m).
Proof.
  intros [Hb Hm Hs Hx]. split; [done|done|apply sorted_set_ok|]. intros x. cbn. by rewrite sorted_set_In.
Qed.

(** What agreement of the sources adds. *)
Definition consensus (C : ranking_config) (sources : list string) : Q :=
  if RETRIEVAL_FUSION_ENABLED C && (1 <? Z.of_nat (length sources))
  then ((qlen sources - 1) * RETRIEVAL_FUSION_CONSENSUS_BOOST C)%Q else 0%Q.

Lemma merge_spec C F half_decay log1p sha1 uuid_hex pos neg learning query weights multipliers lifecycle now results n :
  let rows := fst (_merge_federated_rows C F half_decay log1p sha1 uuid_hex pos neg learning query weights multipliers
                     lifecycle now results n) in
  let found := fst (occurrences sha1 uuid_hex results n) in
  map fst rows = dedupe (map o_key found) /\
  forall k m, In (k, m) rows ->
    represents C F half_decay log1p pos neg learning query weights multipliers lifecycle now found k m /\
    m_score m = rnd 6 (pre_consensus_score m + consensus C (m_sources m)).
Proof.
  unfold _merge_federated_rows. rewrite merge_sources_fold. cbn [fst].
  set (found := fst (occurrences sha1 uuid_hex results n)).
  destruct (merge_sources_ok C F half_decay log1p sha1 uuid_hex pos neg learning query weights multipliers lifecycle now results n)
    as [Hk Hr]. fold found in Hk, Hr. set (merged := fold_left _ _ _) in *. cbn zeta. split.
  - rewrite map_map. by rewrite <- Hk.
  - intros k m ([k' m'] & [= <- <-] & Hin)%in_map_iff.
    assert (clookup k' merged = Some m') as Hl.
    { apply clookup_NoDup; [|done]. rewrite Hk. apply keep_new_NoDup. }
    split; [by apply consensus_represents, Hr|done].
Qed.

(** C35: merging gives exactly one row per identity, in the order in which the
    identities first appear.  The row is one of the rows of that identity, with
    the largest of their (rounded) scores; its sources are, sorted and without
    repetition, all the sources that returned the identity, and its final score
    adds the bonus for their number. *)
Theorem merge_unites_sources C F half_decay log1p sha1 uuid_hex pos neg learning query weights multipliers lifecycle now results n :
  let rows := fst (_merge_federated_rows C F half_decay log1p sha1 uuid_hex pos neg learning query weights multipliers
                     lifecycle now results n) in
  let found := fst (occurrences sha1 uuid_hex results n) in
  map fst rows = dedupe (map o_key found) /\
  forall k m, In (k, m) rows ->
    represents C F half_decay log1p pos neg learning query weights multipliers lifecycle now found k m /\
    m_score m = rnd 6 (pre_consensus_score m + consensus C (m_sources m)).
Proof. apply merge_spec. Qed.

(** ** Occurrences *)

Section occurrences.
Variables (sha1 : string -> string) (uuid_hex : nat -> string).

(** The occurrences are the rows of the sources. *)
Lemma occurrences_of_sound source rows : forall n o, In o (fst (occurrences_of sha1 uuid_hex source rows n)) ->
  o_source o = source /\ In (o_row o) rows /\ exists k, o_key o = fst (_result_identity sha1 uuid_hex (fields (o_row o)) k).
Proof.
  induction rows as [|r rows IH]; intros n o; cbn; [done|].
  destruct (_result_identity sha1 uuid_hex (fields r) n) as [key n'] eqn:Ei.
  destruct (occurrences_of sha1 uuid_hex source rows n') as [l n''] eqn:Eo. cbn. intros [<-|H]; cbn.
  - split; [done|]. split; [by left|]. exists n. by rewrite Ei.
  - destruct (IH n' o) as (H1 & H2 & H3); [by rewrite Eo|]. auto.
Qed.

Lemma occurrences_of_complete source rows : forall n r, In r rows ->
  exists o, In o (fst (occurrences_of sha1 uuid_hex source rows n)) /\ o_source o = source /\ o_row o = r.
Proof.
  induction rows as [|r0 rows IH]; intros n r; cbn; [done|].
  destruct (_result_identity sha1 uuid_hex (fields r0) n) as [key n'].
  destruct (occurrences_of sha1 uuid_hex source rows n') as [l n''] eqn:Eo. cbn. intros [<-|H].
  - eexists. split; [by left|done].
  - destruct (IH n' r H) as (o & Ho & Hs & Hr). rewrite Eo in Ho. exists o. auto.
Qed.

Lemma occurrences_sound results : forall n o, In o (fst (occurrences sha1 uuid_hex results n)) ->
  exists rows, In (o_source o, rows) results /\ In (o_row o) rows /\
    exists k, o_key o = fst (_result_identity sha1 uuid_hex (fields (o_row o)) k).
Proof.
  induction results as [|[source rows] rest IH]; intros n o; cbn; [done|].
  destruct (occurrences_of sha1 uuid_hex source rows n) as [l n'] eqn:E1.
  destruct (occurrences sha1 uuid_hex rest n') as [l' n''] eqn:E2. cbn. intros [H|H]%in_app_iff.
  - destruct (occurrences_of_sound source rows n o) as (H1 & H2 & H3); [by rewrite E1|]. exists rows. rewrite H1. auto.
  - destruct (IH n' o) as (rows' & H1 & H2); [by rewrite E2|]. eauto.
Qed.

Lemma occurrences_complete results : forall n source rows r, In (source, rows) results -> In r rows ->
  exists o, In o (fst (occurrences sha1 uuid_hex results n)) /\ o_source o = source /\ o_row o = r.
Proof.
  induction results as [|[source0 rows0] rest IH]; intros n source rows r; cbn; [done|].
  destruct (occurrences_of sha1 uuid_hex source0 rows0 n) as [l n'] eqn:E1.
  destruct (occurrences sha1 uuid_hex rest n') as [l' n''] eqn:E2. cbn. intros [[= -> ->]|H] Hr.
  - destruct (occurrences_of_complete source rows n r Hr) as (o & Ho & H1 & H2). rewrite E1 in Ho. exists o.
    split; [apply in_app_iff; by left|done].
  - destruct (IH n' source rows r H Hr) as (o & Ho & H1 & H2). rewrite E2 in Ho. exists o. split; [apply in_app_iff; by right|done].
Qed.

(** Two rows are of the same record. *)
Definition same_record (f g : dict) : Prop :=
  exists i j, fst (_result_identity sha1 uuid_hex f i) = fst (_result_identity sha1 uuid_hex g j).
End occurrences.

(** Every merged row is a row of a source. *)
Lemma merged_from C F hd lg sha1 uuid pos neg le q ws ms lc now results n k m :
  In (k, m) (fst (_merge_federated_rows C F hd lg sha1 uuid pos neg le q ws ms lc now results n)) ->
  exists source rows r, In (source, rows) results /\ In r rows /\ m_fields m = fields r /\ m_source m = source_label source.
Proof.
  intros Hin. destruct (merge_spec C F hd lg sha1 uuid pos neg le q ws ms lc now results n) as [_ H].
  destruct (H k m Hin) as [[(o & Ho & Hk & Hf & Hs & Hp) _ _ _] _].
  apply occurrences_sound in Ho as (rows & H1 & H2 & _). by exists (o_source o), rows, (o_row o).
Qed.

(** Every row of a source is represented by a merged row. *)
Lemma merged_for C F hd lg sha1 uuid pos neg le q ws ms lc now results n source rows r : In (source, rows) results -> In r rows ->
  exists k m, In (k, m) (fst (_merge_federated_rows C F hd lg sha1 uuid pos neg le q ws ms lc now results n)) /\
    In (source_label source) (m_sources m) /\ same_record sha1 uuid (m_fields m) (fields r) /\
    (rnd 6 (composite_score C F hd lg pos neg le q ws ms lc now source k r) <= pre_consensus_score m)%Q.
Proof.
  intros Hs Hr. destruct (occurrences_complete sha1 uuid results n source rows r Hs Hr) as (o & Ho & <- & <-).
  destruct (merge_spec C F hd lg sha1 uuid pos neg le q ws ms lc now results n) as [Hk H].
  assert (In (o_key o) (map fst (fst (_merge_federated_rows C F hd lg sha1 uuid pos neg le q ws ms lc now results n)))) as Hin.
  { rewrite Hk. apply dedupe_In. by apply in_map. }
  apply in_map_iff in Hin as ([k m] & Hkey & Hin). cbn in Hkey. subst k. exists (o_key o), m. split; [done|].
  destruct (H _ _ Hin) as [Hrep _]. split; [|split].
  - apply (rep_sources _ _ _ _ _ _ _ _ _ _ _ _ _ _ _ Hrep). eauto.
  - destruct (rep_best _ _ _ _ _ _ _ _ _ _ _ _ _ _ _ Hrep) as (o' & Ho' & Hkk & Hf & _). rewrite Hf.
    apply occurrences_sound in Ho as (_ & _ & _ & i & Hi). apply occurrences_sound in Ho' as (_ & _ & _ & j & Hj).
    exists j, i. congruence.
  - apply (rep_max _ _ _ _ _ _ _ _ _ _ _ _ _ _ _ Hrep o Ho eq_refl).
Qed.

(** ** Order *)

Lemma ranks_total a b : ranks_before a b = true \/ ranks_before b a = true.
Proof.
  unfold ranks_before. destruct (Q_dec (m_score a) (m_score b)) as [[H|H]|H].
  - right. by rewrite (proj2 (Qltb_true _ _) H).
  - left. by rewrite (proj2 (Qltb_true _ _) H).
  - rewrite (proj2 (Qeq_bool_iff _ _) H), (proj2 (Qeq_bool_iff _ _) (Qeq_sym _ _ H)). cbn [andb].
    destruct (Qle_bool (base_score b) (base_score a)) eqn:E; [left; by rewrite orb_true_r|right].
    assert (~ (base_score b <= base_score a)%Q) as Hn by (intros Hle; apply Qle_bool_iff in Hle; congruence).
    rewrite (proj2 (Qle_bool_iff _ _)); [by rewrite orb_true_r|]. apply Qlt_le_weak. by apply Qnot_le_lt.
Qed.

Lemma ranks_before_iff a b : ranks_before a b = true <->
  (m_score b < m_score a)%Q \/ ((m_score a == m_score b)%Q /\ (base_score b <= base_score a)%Q).
Proof. unfold ranks_before. by rewrite orb_true_iff, andb_true_iff, Qltb_true, Qeq_bool_iff, Qle_bool_iff. Qed.

Lemma ranks_trans a b c : ranks_before a b = true -> ranks_before b c = true -> ranks_before a c = true.
Proof. rewrite !ranks_before_iff. intros [H1|[H1 H1']] [H2|[H2 H2']]; [left; lra|left; lra|left; lra|right; split; lra]. Qed.

Lemma firstn_incl {A} n (l : list A) x : In x (firstn n l) -> In x l.
Proof. intros H. rewrite <- (firstn_skipn n l). apply in_app_iff. by left. Qed.

Lemma upto_incl {A} n (l : list A) x : In x (upto n l) -> In x l.
Proof. unfold upto. apply firstn_incl. Qed.

Lemma upto_length {A} n (l : list A) : 0 <= n -> length (upto n l) = Nat.min (Z.to_nat n) (length l).
Proof. intros H. unfold upto. destruct (n <? 0) eqn:E; [blift; lia|]. apply length_firstn. Qed.

Lemma StronglySorted_firstn {A} (R : A -> A -> Prop) n l : StronglySorted R l -> StronglySorted R (firstn n l).
Proof.
  intros H. revert n. induction H as [|x l Hs IH Hf]; intros [|n]; cbn; try constructor; [apply IH|].
  rewrite List.Forall_forall in *. intros y Hy. apply Hf. rewrite <- (firstn_skipn n l). apply in_app_iff. by left.
Qed.

(** Merging the rows of two sources. *)
Example merge_two_sources :
  let hit file s := mkRow [("project", JStr "P"); ("file", JStr file); ("summary", JStr "deploy 42 boxes")] s in
  let F := mkLifecycle false 100 1 0 0 0 0 in
  map (fun kv => (fst kv, m_sources (snd kv), Qred (m_score (snd kv))))
    (fst (_merge_federated_rows default_ranking F (fun _ => 1%Q) (fun x => x) (fun s => s) (fun _ => "u") [] [] false "deploy 42"
       DEFAULT_RETRIEVAL_SOURCE_WEIGHTS [] [] 0
       [("qdrant", [hit "a.md" (8 # 10); hit "b.md" (5 # 10)]); ("mongo_raw", [hit "A.md" 1%Q])] 0)) =
  [("p:a.md", ["mongo_raw"; "qdrant"], (53 # 50)%Q); ("p:b.md", ["qdrant"], (37 # 50)%Q)].
Proof. vm_compute. reflexivity. Qed.
