(* ===== verification/SourcePolicy.v ===== *)
(** * Retrieval modes, templates, latencies and the policy for slow sources

    What a search of several sources decides before and after it asks them:
    the mode, the sources and their order, the timeouts, the quality of the
    sources and the statistics of searches.  Durations of requests are in
    seconds (samples in milliseconds) as exact rationals, clock readings in
    microseconds. *)

From S2P Require Import Prelude PyStr PyTime Json JsonText Policy OutboxMaint WriteBuffer Regex Lru Caches Ranking.
From Stdlib Require Import Ascii QArith Qminmax Qround.
Open Scope Z_scope.

Record retrieval_config := mkRetrieval {
  RETRIEVAL_SOURCES_ENV : string; RETRIEVAL_FAST_SOURCES_ENV : string; RETRIEVAL_SLOW_SOURCES_ENV : string;
  RETRIEVAL_MODE_DEFAULT_ENV : string; RETRIEVAL_ENABLE_STAGED_FETCH : bool;
  RETRIEVAL_MODE_FAST_TIMEOUT_SCALE : Q; RETRIEVAL_MODE_DEEP_TIMEOUT_SCALE : Q;
  RETRIEVAL_MODE_FAST_LIMIT_MULTIPLIER : Q; RETRIEVAL_MODE_DEEP_LIMIT_MULTIPLIER : Q;
  RETRIEVAL_MODE_FAST_MAX_SOURCE_LIMIT : Z; RETRIEVAL_MODE_DEEP_MAX_SOURCE_LIMIT : Z;
  RETRIEVAL_QDRANT_TIMEOUT_SECS : Q; RETRIEVAL_MONGO_TIMEOUT_SECS : Q; RETRIEVAL_MINDSDB_TIMEOUT_SECS : Q;
  RETRIEVAL_LETTA_TIMEOUT_SECS : Q; RETRIEVAL_MEMORY_TIMEOUT_SECS : Q; RETRIEVAL_TOPIC_ROLLUP_TIMEOUT_SECS : Q;
  RETRIEVAL_LETTA_SCAN_LIMIT : Z;
  RETRIEVAL_SLOW_SOURCE_MIN_RESULTS : Z; RETRIEVAL_SLOW_SOURCE_MIN_TOP_SCORE : Q; RETRIEVAL_SLOW_SOURCE_MIN_DIVERSITY : Z;
  RETRIEVAL_SLOW_SOURCE_STABILITY_ENABLED : bool; RETRIEVAL_SLOW_SOURCE_STABILITY_MIN_REQUESTS : Z;
  RETRIEVAL_SLOW_SOURCE_TIMEOUT_RATE_THRESHOLD : Q; RETRIEVAL_SLOW_SOURCE_ERROR_RATE_THRESHOLD : Q;
  RETRIEVAL_SLOW_SOURCE_COOLDOWN_SECS : Z; (* microseconds *)
  RETRIEVAL_LETTA_DEGRADED_TIMEOUT_SECS : Q; RETRIEVAL_MEMORY_DEGRADED_TIMEOUT_SECS : Q;
  RETRIEVAL_SOURCE_QUALITY_ADAPTIVE_ENABLED : bool; RETRIEVAL_SOURCE_QUALITY_MIN_REQUESTS : Z;
  RETRIEVAL_SOURCE_QUALITY_MIN_MULTIPLIER : Q; RETRIEVAL_SOURCE_QUALITY_MAX_MULTIPLIER : Q;
  RETRIEVAL_SOURCE_QUALITY_TIMEOUT_WEIGHT : Q; RETRIEVAL_SOURCE_QUALITY_ERROR_WEIGHT : Q;
  RETRIEVAL_SOURCE_QUALITY_STEADY_BOOST : Q; RETRIEVAL_SOURCE_QUALITY_STEADY_TIMEOUT_RATE : Q;
  RETRIEVAL_SOURCE_QUALITY_STEADY_ERROR_RATE : Q;
  RETRIEVAL_LATENCY_HISTORY_LIMIT : nat;
  RETRIEVAL_PATHWAY_STATS_TTL_SECS : Q; RETRIEVAL_PATHWAY_STATS_MAX_KEYS : Z;
  RETRIEVAL_ENABLE_LEARNING_RERANK : bool }.

Definition default_retrieval : retrieval_config :=
  mkRetrieval "qdrant,mongo_raw,mindsdb,topic_rollups,letta,memory_bank" "qdrant,mongo_raw,mindsdb,topic_rollups" "letta,memory_bank"
    "balanced" true (65 # 100) (125 # 100) 3 10 120 300 8 6 8 45 3 2 24 6 (6 # 10) 2 true 20 (45 # 100) (55 # 100)
    (180 * us_per_sec) 18 (25 # 10) true 8 (65 # 100) (108 # 100) (55 # 100) (45 # 100) (3 # 100) (2 # 100) (3 # 100) 400
    86400 5000 true.

Section policy.
Variable G : retrieval_config.

(** ** Modes *)

Definition RETRIEVAL_MODE_FAST : string := "fast".
Definition RETRIEVAL_MODE_BALANCED : string := "balanced".
Definition RETRIEVAL_MODE_DEEP : string := "deep".
Definition RETRIEVAL_MODES : list string := [RETRIEVAL_MODE_FAST; RETRIEVAL_MODE_BALANCED; RETRIEVAL_MODE_DEEP].

Definition RETRIEVAL_MODE_DEFAULT : string :=
  let mode := lower (strip (RETRIEVAL_MODE_DEFAULT_ENV G)) in
  if mem_str mode RETRIEVAL_MODES then mode else RETRIEVAL_MODE_BALANCED.

(** [mode] is empty when none is given. *)
Definition _normalize_retrieval_mode (mode : string) : string :=
  let candidate := lower (strip (str_or mode (str_or RETRIEVAL_MODE_DEFAULT RETRIEVAL_MODE_BALANCED))) in
  if mem_str candidate RETRIEVAL_MODES then candidate else RETRIEVAL_MODE_BALANCED.

Definition _retrieval_mode_timeout_scale (mode : string) : Q :=
  let normalized := _normalize_retrieval_mode mode in
  if normalized =s RETRIEVAL_MODE_FAST then RETRIEVAL_MODE_FAST_TIMEOUT_SCALE G
  else if normalized =s RETRIEVAL_MODE_DEEP then RETRIEVAL_MODE_DEEP_TIMEOUT_SCALE G
  else 1%Q.

Definition _retrieval_mode_source_limit (limit : Z) (mode : string) : Z :=
  let normalized := _normalize_retrieval_mode mode in
  let requested := Z.max 1 limit in
  if normalized =s RETRIEVAL_MODE_FAST then
    Z.max requested (Z.min (Qceiling (qz requested * RETRIEVAL_MODE_FAST_LIMIT_MULTIPLIER G)) (RETRIEVAL_MODE_FAST_MAX_SOURCE_LIMIT G))
  else if normalized =s RETRIEVAL_MODE_DEEP then
    Z.max requested (Z.min (Qceiling (qz requested * RETRIEVAL_MODE_DEEP_LIMIT_MULTIPLIER G)) (RETRIEVAL_MODE_DEEP_MAX_SOURCE_LIMIT G))
  else Z.max requested (Z.min (requested * 6) 200).

(** ** Sources *)

Definition RETRIEVAL_SOURCE_QDRANT : string := "qdrant".
Definition RETRIEVAL_SOURCE_MEMORY_BANK : string := "memory_bank".
Definition RETRIEVAL_SOURCE_MONGO_RAW : string := FANOUT_TARGET_MONGO_RAW.
Definition RETRIEVAL_SOURCE_MINDSDB : string := FANOUT_TARGET_MINDSDB.
Definition RETRIEVAL_SOURCE_LETTA : string := FANOUT_TARGET_LETTA.
Definition RETRIEVAL_SOURCE_TOPIC_ROLLUPS : string := "topic_rollups".

Definition source_csv (raw : string) (default : list string) : list string :=
  match keep_new (fun source => mem_str source RETRIEVAL_SOURCES) [] (_normalize_lower_csv (Some raw)) with
  | [] => default
  | sources => sources
  end.

Definition DEFAULT_RETRIEVAL_FAST_SOURCES : list string :=
  source_csv (RETRIEVAL_FAST_SOURCES_ENV G)
    [RETRIEVAL_SOURCE_QDRANT; RETRIEVAL_SOURCE_MONGO_RAW; RETRIEVAL_SOURCE_MINDSDB; RETRIEVAL_SOURCE_TOPIC_ROLLUPS].
Definition DEFAULT_RETRIEVAL_SLOW_SOURCES : list string :=
  source_csv (RETRIEVAL_SLOW_SOURCES_ENV G) [RETRIEVAL_SOURCE_LETTA; RETRIEVAL_SOURCE_MEMORY_BANK].

Definition _resolve_retrieval_sources_for_mode (mode : string) (sources : list string) : list string :=
  match sources with
  | [] => if _normalize_retrieval_mode mode =s RETRIEVAL_MODE_FAST then DEFAULT_RETRIEVAL_FAST_SOURCES
          else _normalize_retrieval_sources (RETRIEVAL_SOURCES_ENV G) []
  | _ => _normalize_retrieval_sources (RETRIEVAL_SOURCES_ENV G) sources
  end.

(** ** Templates *)

Record template := mkTemplate {
  t_mode : string; source_timeouts : list (string * Q); configured_fast : list string; configured_slow : list string;
  staged_fast_sources : list string; staged_slow_sources : list string; staged_fetch_used : bool }.

(** The text of a float and [hashlib.sha1(...).hexdigest()]. *)
Variables (repr_float : Q -> string) (sha1 : string -> string).
Definition nl : string := String (ascii_of_N 10) "".
Definition py_bool (b : bool) : string := if b then "True" else "False".

Definition _retrieval_template_cache_key (mode : string) (resolved_sources : list string) : string :=
  sha1 (join nl
    [_normalize_retrieval_mode mode; join "," resolved_sources; py_bool (RETRIEVAL_ENABLE_STAGED_FETCH G);
     join "," DEFAULT_RETRIEVAL_FAST_SOURCES; join "," DEFAULT_RETRIEVAL_SLOW_SOURCES;
     repr_float (RETRIEVAL_QDRANT_TIMEOUT_SECS G); repr_float (RETRIEVAL_MONGO_TIMEOUT_SECS G);
     repr_float (RETRIEVAL_MINDSDB_TIMEOUT_SECS G); repr_float (RETRIEVAL_LETTA_TIMEOUT_SECS G);
     repr_float (RETRIEVAL_MEMORY_TIMEOUT_SECS G); repr_float (RETRIEVAL_TOPIC_ROLLUP_TIMEOUT_SECS G);
     repr_float (RETRIEVAL_MODE_FAST_TIMEOUT_SCALE G); repr_float (RETRIEVAL_MODE_DEEP_TIMEOUT_SCALE G)]).

(** The fast sources: the configured ones, then those that are not slow. *)
Definition stage_fast (configured_fast configured_slow resolved_sources : list string) : list string :=
  fold_left (fun acc source => if mem_str source acc || mem_str source configured_slow then acc else acc ++ [source])
    resolved_sources configured_fast.

Definition build_template (mode : string) (resolved_sources : list string) : template :=
  let scaled t := Qmax 1 (t * _retrieval_mode_timeout_scale mode) in
  let configured_fast := List.filter (fun source => mem_str source resolved_sources) DEFAULT_RETRIEVAL_FAST_SOURCES in
  let configured_slow := List.filter (fun source => mem_str source resolved_sources) DEFAULT_RETRIEVAL_SLOW_SOURCES in
  let fast := stage_fast configured_fast configured_slow resolved_sources in
  let slow := List.filter (fun source => mem_str source configured_slow) resolved_sources in
  mkTemplate (_normalize_retrieval_mode mode)
    [(RETRIEVAL_SOURCE_QDRANT, scaled (RETRIEVAL_QDRANT_TIMEOUT_SECS G));
     (RETRIEVAL_SOURCE_MONGO_RAW, scaled (RETRIEVAL_MONGO_TIMEOUT_SECS G));
     (RETRIEVAL_SOURCE_MINDSDB, scaled (RETRIEVAL_MINDSDB_TIMEOUT_SECS G));
     (RETRIEVAL_SOURCE_LETTA, scaled (RETRIEVAL_LETTA_TIMEOUT_SECS G));
     (RETRIEVAL_SOURCE_MEMORY_BANK, scaled (RETRIEVAL_MEMORY_TIMEOUT_SECS G));
     (RETRIEVAL_SOURCE_TOPIC_ROLLUPS, scaled (RETRIEVAL_TOPIC_ROLLUP_TIMEOUT_SECS G))]
    configured_fast configured_slow fast slow
    (RETRIEVAL_ENABLE_STAGED_FETCH G && negb (Nat.eqb (length fast) 0) && negb (Nat.eqb (length slow) 0)).

(** A template with whether it came from the cache; the JSON copy of a template
    equals it. *)
Definition _get_retrieval_template (L : lru_config) (now : Z) (mode : string) (resolved_sources : list string)
    (c : cache (Z * template)) : cache (Z * template) * (template * bool) :=
  let key := _retrieval_template_cache_key mode resolved_sources in
  match _retrieval_template_cache_get (fun t => t) L now key c with
  | (c', Some t) => (c', (t, true))
  | (c', None) => let t := build_template mode resolved_sources in
                  (_retrieval_template_cache_set (fun t => t) L now key t c', (t, false))
  end.

(** ** Latencies *)

Definition at_rank (values : list Q) (i : Z) : Q := nth (Z.to_nat i) values 0%Q.

Definition _percentile (values : list Q) (pct : Q) : Q :=
  match values with
  | [] => 0%Q
  | [v] => v
  | _ =>
      let quantile := Qmax 0 (Qmin 1 pct) in
      let rank := (qz (Z.of_nat (length values) - 1) * quantile)%Q in
      let lower_index := Qfloor rank in
      let upper_index := Qceiling rank in
      let lower := at_rank values lower_index in
      let upper := at_rank values upper_index in
      if lower_index =? upper_index then lower else (lower + (upper - lower) * (rank - qz lower_index))%Q
  end.

Record latency_state := mkLatency {
  samples : list (string * list Q); request_counts : list (string * Z); error_counts : list (string * Z);
  timeout_counts : list (string * Z); mode_counts : list (string * Z); latency_updated_at : option string;
  cooldown_until : list (string * Z) }.

Definition no_latency : latency_state := mkLatency [] [] [] [] [] None [].

Definition count_of (d : list (string * Z)) (k : string) : Z := match clookup k d with Some n => n | None => 0 end.
Definition count_up (k : string) (d : list (string * Z)) : list (string * Z) := cset k (count_of d k + 1) d.

(** [deque(maxlen=n)]: the last [n]. *)
Definition push_sample (x : Q) (l : list Q) : list Q :=
  skipn (length l + 1 - RETRIEVAL_LATENCY_HISTORY_LIMIT G) (l ++ [x]).

Definition _record_retrieval_source_latency (now_iso source : string) (duration_ms : Q) (ok timed_out : bool) (mode : string)
    (s : latency_state) : latency_state :=
  let name := lower (strip source) in
  if negb (truthy name) then s
  else
    let old := match clookup name (samples s) with Some l => l | None => [] end in
    mkLatency (cset name (push_sample (Qmax 0 duration_ms) old) (samples s)) (count_up name (request_counts s))
      (if ok then error_counts s else count_up name (error_counts s))
      (if timed_out then count_up name (timeout_counts s) else timeout_counts s)
      (count_up (_normalize_retrieval_mode mode) (mode_counts s)) (Some now_iso) (cooldown_until s).

Record source_latency := mkSourceLatency {
  sl_samples : Z; sl_requests : Z; sl_errors : Z; sl_timeouts : Z; p50Ms : Q; p95Ms : Q; p99Ms : Q; minMs : Q; maxMs : Q; avgMs : Q }.

Definition latency_of (s : latency_state) (source : string) (l : list Q) : source_latency :=
  let sorted := sort_by Qle_bool l in
  mkSourceLatency (Z.of_nat (length sorted)) (count_of (request_counts s) source) (count_of (error_counts s) source)
    (count_of (timeout_counts s) source) (rnd 3 (_percentile sorted (50 # 100))) (rnd 3 (_percentile sorted (95 # 100)))
    (rnd 3 (_percentile sorted (99 # 100))) (rnd 3 (hd 0%Q sorted)) (rnd 3 (List.last sorted 0%Q))
    (rnd 3 (fold_left Qplus sorted 0%Q / qlen sorted)).

Definition _retrieval_latency_snapshot (s : latency_state) : list (string * source_latency) :=
  map (fun kv => (fst kv, latency_of s (fst kv) (snd kv))) (List.filter (fun kv => negb (Nat.eqb (length (snd kv)) 0)) (samples s)).

(** ** Slow sources *)

Definition rate (n requests : Z) : Q := if 0 <? requests then (qz n / qz requests)%Q else 0%Q.

Definition _degraded_timeout_cap_for_source (source : string) : option Q :=
  let name := lower (strip source) in
  if name =s RETRIEVAL_SOURCE_LETTA then Some (RETRIEVAL_LETTA_DEGRADED_TIMEOUT_SECS G)
  else if name =s RETRIEVAL_SOURCE_MEMORY_BANK then Some (RETRIEVAL_MEMORY_DEGRADED_TIMEOUT_SECS G)
  else None.

Record degraded := mkDegraded {
  dg_requests : Z; dg_errors : Z; dg_timeouts : Z; dg_timeout_rate : Q; dg_error_rate : Q; cooldown_remaining_secs : Q }.

Record source_policy := mkPolicy {
  stability_enabled : bool; degraded_sources : list (string * degraded); timeout_overrides : list (string * Q) }.

Definition set_cooldown (d : list (string * Z)) (s : latency_state) : latency_state :=
  mkLatency (samples s) (request_counts s) (error_counts s) (timeout_counts s) (mode_counts s) (latency_updated_at s) d.

Definition threshold_hit (requests errors timeouts : Z) : bool :=
  (RETRIEVAL_SLOW_SOURCE_STABILITY_MIN_REQUESTS G <=? requests) &&
  (Qle_bool (RETRIEVAL_SLOW_SOURCE_TIMEOUT_RATE_THRESHOLD G) (rate timeouts requests)
   || Qle_bool (RETRIEVAL_SLOW_SOURCE_ERROR_RATE_THRESHOLD G) (rate errors requests)).

(** One monitored source. *)
Definition check_source (now : Z) (source : string) (acc : latency_state * source_policy) : latency_state * source_policy :=
  let '(s, p) := acc in
  let name := lower (strip source) in
  if negb (truthy name) then acc
  else
    let requests := Z.max 0 (count_of (request_counts s) name) in
    let errors := Z.max 0 (count_of (error_counts s) name) in
    let timeouts := Z.max 0 (count_of (timeout_counts s) name) in
    let until := count_of (cooldown_until s) name in
    let hit := threshold_hit requests errors timeouts in
    let until' := if hit then now + RETRIEVAL_SLOW_SOURCE_COOLDOWN_SECS G else until in
    let in_cooldown := hit || (now <? until) in
    let s' := if hit then set_cooldown (cset name until' (cooldown_until s)) s
              else if negb in_cooldown then set_cooldown (cdel name (cooldown_until s)) s else s in
    if negb in_cooldown then (s', p)
    else
      (s', mkPolicy (stability_enabled p)
             (cset name (mkDegraded requests errors timeouts (rnd 6 (rate timeouts requests)) (rnd 6 (rate errors requests))
                           (rnd 3 (secs (Z.max 0 (until' - now))))) (degraded_sources p))
             (match _degraded_timeout_cap_for_source name with
              | Some cap => cset name (Qmax 1 cap) (timeout_overrides p)
              | None => timeout_overrides p
              end)).

Definition _retrieval_slow_source_runtime_policy (now : Z) (sources : list string) (explicit_source_override : bool)
    (s : latency_state) : latency_state * source_policy :=
  let p := mkPolicy (RETRIEVAL_SLOW_SOURCE_STABILITY_ENABLED G) [] [] in
  if negb (RETRIEVAL_SLOW_SOURCE_STABILITY_ENABLED G) then (s, p)
  else
    let monitored := List.filter (fun source => mem_str source DEFAULT_RETRIEVAL_SLOW_SOURCES) sources in
    if Nat.eqb (length monitored) 0 || explicit_source_override then (s, p)
    else fold_left (fun acc source => check_source now source acc) monitored (s, p).

(** ** Quality *)

Record source_quality := mkQuality {
  q_requests : Z; q_errors : Z; q_timeouts : Z; timeoutRate : Q; errorRate : Q; steady : bool; q_multiplier : Q; reason : string }.

(** The multiplier and the reason for it. *)
Definition quality_multiplier_of (requests : Z) (timeout_rate error_rate : Q) (steady : bool) : Q * string :=
  if negb (RETRIEVAL_SOURCE_QUALITY_ADAPTIVE_ENABLED G) then (1%Q, "disabled")
  else if requests <? RETRIEVAL_SOURCE_QUALITY_MIN_REQUESTS G then (1%Q, "insufficient_data")
  else
    let pressure := Qmin 1 (timeout_rate * RETRIEVAL_SOURCE_QUALITY_TIMEOUT_WEIGHT G
                            + error_rate * RETRIEVAL_SOURCE_QUALITY_ERROR_WEIGHT G) in
    let boosted := steady && Qltb 0 (RETRIEVAL_SOURCE_QUALITY_STEADY_BOOST G) in
    let multiplier := (1 - pressure + (if boosted then RETRIEVAL_SOURCE_QUALITY_STEADY_BOOST G else 0))%Q in
    (Qmin (RETRIEVAL_SOURCE_QUALITY_MAX_MULTIPLIER G) (Qmax (RETRIEVAL_SOURCE_QUALITY_MIN_MULTIPLIER G) multiplier),
     if boosted then "steady" else if Qltb 0 pressure then "penalized" else "neutral").

Definition quality_of_source (s : latency_state) (name : string) : source_quality * Q :=
  let requests := Z.max 0 (count_of (request_counts s) name) in
  let errors := Z.max 0 (count_of (error_counts s) name) in
  let timeouts := Z.max 0 (count_of (timeout_counts s) name) in
  let timeout_rate := rate timeouts requests in
  let error_rate := rate errors requests in
  let steady := (RETRIEVAL_SOURCE_QUALITY_MIN_REQUESTS G <=? requests)
                && Qle_bool timeout_rate (RETRIEVAL_SOURCE_QUALITY_STEADY_TIMEOUT_RATE G)
                && Qle_bool error_rate (RETRIEVAL_SOURCE_QUALITY_STEADY_ERROR_RATE G) in
  let '(m, why) := quality_multiplier_of requests timeout_rate error_rate steady in
  (mkQuality requests errors timeouts (rnd 6 timeout_rate) (rnd 6 error_rate) steady (rnd 6 m) why, m).

(** Per source its quality, and the multipliers. *)
Definition _retrieval_source_quality_snapshot (sources : list string) (s : latency_state)
  : list (string * source_quality) * list (string * Q) :=
  let unique := keep_new truthy [] (map (fun source => lower (strip source)) sources) in
  (map (fun name => (name, fst (quality_of_source s name))) unique,
   map (fun name => (name, snd (quality_of_source s name))) unique).

(** ** Statistics of searches *)

Record pathway_stat := mkStat {
  st_query : string; st_project : option string; st_topic : option string; st_sources : list string;
  st_weights : list (string * Q); st_mode : string; st_hits : Z; st_first_at : string; st_first : Z; st_last_at : string; st_last : Z }.

Definition _retrieval_pathway_stat_key (query : string) (project_filter topic_filter : option string) (sources : list string)
    (mode : string) : string :=
  sha1 (join nl [_normalize_retrieval_mode mode; opt_str project_filter; opt_str topic_filter; join "," sources;
                 normalized_query query]).

Definition _record_retrieval_pathway_observation (now_iso : string) (now : Z) (query : string)
    (project_filter topic_filter : option string) (sources : list string) (weights : list (string * Q)) (mode : string)
    (d : list (string * pathway_stat)) : list (string * pathway_stat) :=
  let query_text := collapse_spaces (strip query) in
  if negb (truthy query_text) then d
  else
    let key := _retrieval_pathway_stat_key query_text project_filter topic_filter sources mode in
    let e := match clookup key d with
             | Some e => e
             | None => mkStat (take 320 query_text) project_filter topic_filter sources weights (_normalize_retrieval_mode mode)
                         0 now_iso now "" 0
             end in
    fst (put_bounded (RETRIEVAL_PATHWAY_STATS_MAX_KEYS G) key
      (mkStat (st_query e) (st_project e) (st_topic e) (st_sources e) (st_weights e) (st_mode e) (st_hits e + 1)
         (st_first_at e) (st_first e) now_iso now) d).

Definition stat_seen (e : pathway_stat) : Z := if st_last e =? 0 then st_first e else st_last e.
Definition stat_fresh (now : Z) (e : pathway_stat) : bool :=
  (0 <? stat_seen e) && Qle_bool (secs (now - stat_seen e)) (Qmax 60 (RETRIEVAL_PATHWAY_STATS_TTL_SECS G)).

Definition hotter (a b : pathway_stat) : bool :=
  (st_hits b <? st_hits a) || ((st_hits b =? st_hits a) && (st_last b <=? st_last a)).

(** The most used searches; entries that are too old are dropped. *)
Definition _list_hot_retrieval_pathways (now limit : Z) (d : list (string * pathway_stat))
  : list (string * pathway_stat) * list pathway_stat :=
  let kept := List.filter (fun kv => stat_fresh now (snd kv)) d in
  (kept, firstn (Z.to_nat (Z.max 1 limit)) (sort_by hotter (map snd kept))).

(** ** The key of a search in the pathway cache *)

Definition pair_le (a b : string * Q) : bool :=
  str_ltb (fst a) (fst b) || ((fst a =s fst b) && Qle_bool (snd a) (snd b)).

Definition _retrieval_weight_signature (weights : list (string * Q)) : string :=
  join "," (map (fun kv => fst kv +:+ ":" +:+ repr_float (rnd 4 (snd kv))) (sort_by pair_le weights)).

Definition _retrieval_pathway_cache_key (query : string) (limit : Z) (project_filter topic_filter : option string)
    (sources : list string) (weights : list (string * Q)) (mode : string) (learning_enabled : bool)
    (positive_terms negative_terms : list string) : string :=
  sha1 (join nl
    [_normalize_retrieval_mode mode; str_of_Z limit; opt_str project_filter; opt_str topic_filter; join "," sources;
     _retrieval_weight_signature weights; py_bool learning_enabled; join "," (sort_by str_leb positive_terms);
     join "," (sort_by str_leb negative_terms); normalized_query query]).
End policy.
