(* ===== verification/SourcePolicyFacts.v ===== *)
(** * Facts on modes, templates, latencies and slow sources *)

From S2P Require Import Prelude PyStr PyTime Json JsonText Policy OutboxMaint WriteBuffer WriteBufferFacts Regex Lru Caches Ranking RankingFacts SourcePolicy.
From Stdlib Require Import QArith Qminmax Qround Lqa.
Open Scope Z_scope.

(** ** Stages *)

Lemma keep_new_source raw default x : In x (source_csv raw default) -> (forall y, In y default -> In y RETRIEVAL_SOURCES) ->
  In x RETRIEVAL_SOURCES.
Proof.
  unfold source_csv. destruct (keep_new _ _ _) as [|y l] eqn:E; [auto|]. rewrite <- E. intros Hx _.
  apply keep_new_In in Hx as (_ & Hx & _). by apply mem_str_In in Hx.
Qed.

Lemma stage_fast_In fast slow resolved x :
  In x (stage_fast fast slow resolved) <-> In x fast \/ (In x resolved /\ ~ In x slow).
Proof.
  unfold stage_fast. revert fast. induction resolved as [|y l IH]; intros fast; cbn; [tauto|].
  rewrite IH. destruct (mem_str y fast) eqn:E1; cbn; [apply mem_str_In in E1|apply mem_str_false in E1].
  - split; [tauto|]. intros [?|[[->|?] ?]]; tauto.
  - destruct (mem_str y slow) eqn:E2; [apply mem_str_In in E2|apply mem_str_false in E2].
    + split; [tauto|]. intros [?|[[->|?] ?]]; tauto.
    + rewrite in_app_iff. cbn. split; [intros [[?|[<-|[]]]|?]; tauto|]. intros [?|[[->|?] ?]]; tauto.
Qed.

Lemma stage_fast_NoDup fast slow resolved : List.NoDup fast -> List.NoDup (stage_fast fast slow resolved).
Proof.
  unfold stage_fast. revert fast. induction resolved as [|y l IH]; intros fast Hf; cbn; [done|].
  destruct (mem_str y fast) eqn:E1; cbn; [by apply IH|]. destruct (mem_str y slow); [by apply IH|]. apply IH.
  apply mem_str_false in E1. apply List.NoDup_app; [done|repeat constructor; by intros []|]. by intros x Hx [<-|[]].
Qed.

Lemma source_csv_NoDup raw default : List.NoDup default -> List.NoDup (source_csv raw default).
Proof. intros H. unfold source_csv. destruct (keep_new _ _ _) eqn:E; [done|]. rewrite <- E. apply keep_new_NoDup. Qed.

Definition sources_ok (l : list string) : Prop := forall x, In x l -> In x RETRIEVAL_SOURCES.

Lemma fast_sources_ok G : sources_ok (DEFAULT_RETRIEVAL_FAST_SOURCES G).
Proof. intros x Hx. eapply keep_new_source; [exact Hx|]. cbn. intros y. tauto. Qed.

Lemma slow_sources_ok G : sources_ok (DEFAULT_RETRIEVAL_SLOW_SOURCES G).
Proof. intros x Hx. eapply keep_new_source; [exact Hx|]. cbn. intros y. tauto. Qed.

Lemma normalized_sources_ok env l : sources_ok (_normalize_retrieval_sources env l) /\ List.NoDup (_normalize_retrieval_sources env l).
Proof.
  unfold _normalize_retrieval_sources. destruct (keep_new _ _ _) as [|y l'] eqn:E.
  - split; [intros x [<-|[]]; by left|repeat constructor; by intros []].
  - rewrite <- E. split; [|apply keep_new_NoDup]. intros x (_ & Hx & _)%keep_new_In. by apply mem_str_In in Hx.
Qed.

Lemma NoDup_fast G : List.NoDup (DEFAULT_RETRIEVAL_FAST_SOURCES G).
Proof. apply source_csv_NoDup. apply (List.NoDup_nodup String.string_dec [RETRIEVAL_SOURCE_QDRANT; RETRIEVAL_SOURCE_MONGO_RAW; RETRIEVAL_SOURCE_MINDSDB; RETRIEVAL_SOURCE_TOPIC_ROLLUPS]). Qed.

Lemma resolved_sources_ok G mode l :
  sources_ok (_resolve_retrieval_sources_for_mode G mode l) /\ List.NoDup (_resolve_retrieval_sources_for_mode G mode l).
Proof.
  unfold _resolve_retrieval_sources_for_mode. destruct l; [|apply normalized_sources_ok].
  destruct (_ =s _); [|apply normalized_sources_ok]. split; [apply fast_sources_ok|apply NoDup_fast].
Qed.

(** The two stages of a search divide its sources: when no source is
    configured as fast and as slow, every source to search is in exactly one
    stage, once, and nothing else is; sources configured as slow are in the
    slow stage.  All sources are known ones and every source of a mode has a
    timeout of at least a second. *)
Theorem stages_partition_sources G mode l (resolved := _resolve_retrieval_sources_for_mode G mode l) (t := build_template G mode resolved) :
  (forall x, In x (DEFAULT_RETRIEVAL_FAST_SOURCES G) -> ~ In x (DEFAULT_RETRIEVAL_SLOW_SOURCES G)) ->
  Permutation (staged_fast_sources t ++ staged_slow_sources t) resolved /\ sources_ok resolved /\
  (forall x, In x (staged_slow_sources t) <-> In x resolved /\ In x (DEFAULT_RETRIEVAL_SLOW_SOURCES G)) /\
  (forall x, In x resolved -> exists secs, clookup x (source_timeouts t) = Some secs /\ (1 <= secs)%Q).
Proof.
  intros Hdis. destruct (resolved_sources_ok G mode l) as [Hok Hnd]. fold resolved in Hok, Hnd.
  set (cf := List.filter (fun source => mem_str source resolved) (DEFAULT_RETRIEVAL_FAST_SOURCES G)).
  set (cs := List.filter (fun source => mem_str source resolved) (DEFAULT_RETRIEVAL_SLOW_SOURCES G)).
  assert (forall x, In x cf <-> In x resolved /\ In x (DEFAULT_RETRIEVAL_FAST_SOURCES G)) as Hcf.
  { intros x. unfold cf. rewrite filter_In, mem_str_In. tauto. }
  assert (forall x, In x cs <-> In x resolved /\ In x (DEFAULT_RETRIEVAL_SLOW_SOURCES G)) as Hcs.
  { intros x. unfold cs. rewrite filter_In, mem_str_In. tauto. }
  assert (forall x, In x (staged_slow_sources t) <-> In x cs) as Hslow.
  { intros x. unfold t. cbn. fold cs. rewrite filter_In, mem_str_In, Hcs. tauto. }
  assert (forall x, In x (staged_fast_sources t) <-> In x resolved /\ ~ In x cs) as Hfast.
  { intros x. unfold t. cbn. fold cf cs. rewrite stage_fast_In, Hcf, Hcs. pose proof (Hdis x). tauto. }
  split; [|split; [done|split]].
  - apply NoDup_Permutation.
    + apply List.NoDup_app.
      * apply stage_fast_NoDup, List.NoDup_filter, NoDup_fast.
      * by apply List.NoDup_filter.
      * intros x Hx Hx'. apply Hslow in Hx'. apply Hfast in Hx as [_ Hx]. done.
    + done.
    + intros x. rewrite in_app_iff, Hfast, Hslow. pose proof (Hcs x). destruct (in_dec String.string_dec x cs); tauto.
  - intros x. by rewrite Hslow, Hcs.
  - intros x Hx. apply Hok in Hx. unfold t. cbn [build_template source_timeouts].
    cbn in Hx. repeat destruct Hx as [<-|Hx]; try done; (eexists; split; [reflexivity|apply Q.le_max_l]).
Qed.

Lemma stages_partition_sources_witness :
  let t := build_template default_retrieval "deep" (_resolve_retrieval_sources_for_mode default_retrieval "deep" ["letta"; "qdrant"; "QDRANT "]) in
  staged_fast_sources t = ["qdrant"] /\ staged_slow_sources t = ["letta"] /\
  Permutation (staged_fast_sources t ++ staged_slow_sources t) (_resolve_retrieval_sources_for_mode default_retrieval "deep" ["letta"; "qdrant"; "QDRANT "]).
Proof.
  cbn zeta. split; [vm_compute; reflexivity|]. split; [vm_compute; reflexivity|].
  refine (proj1 (stages_partition_sources default_retrieval "deep" ["letta"; "qdrant"; "QDRANT "] _)).
  intros x Hx Hx'. vm_compute in Hx, Hx'. repeat (destruct Hx as [<-|Hx]; [intuition discriminate|]). exact Hx.
Defined.

(** ** Percentiles *)

Definition ascending (l : list Q) : Prop := forall i j, (i <= j < length l)%nat -> (nth i l 0 <= nth j l 0)%Q.

Lemma sorted_ascending l : ascending (sort_by Qle_bool l).
Proof.
  assert (StronglySorted (fun a b => Qle_bool a b = true) (sort_by Qle_bool l)) as Hs.
  { apply sort_by_sorted.
    - intros x y. rewrite !Qle_bool_iff. destruct (Qlt_le_dec x y); [left; lra|by right].
    - intros x y z. rewrite !Qle_bool_iff. lra. }
  induction Hs as [|x l' Hs IH Hf]; intros i j Hij; cbn in *; [lia|].
  destruct i as [|i], j as [|j]; try lia; [lra| |].
  - rewrite List.Forall_forall in Hf. apply Qle_bool_iff, Hf, nth_In. lia.
  - apply IH. lia.
Qed.

(** The position of a percentile. *)
Definition rank_of (values : list Q) (pct : Q) : Q := (qz (Z.of_nat (length values) - 1) * Qmax 0 (Qmin 1 pct))%Q.

(** Linear interpolation at a rank. *)
Definition interpolate (values : list Q) (r : Q) : Q :=
  (at_rank values (Qfloor r) + (at_rank values (Qceiling r) - at_rank values (Qfloor r)) * (r - qz (Qfloor r)))%Q.

Lemma rank_range values pct : values <> [] -> (0 <= rank_of values pct <= qz (Z.of_nat (length values) - 1))%Q.
Proof.
  intros Hv. assert (0 <= qz (Z.of_nat (length values) - 1))%Q as Hn.
  { apply (qz_le 0). destruct values; [done|]. cbn [length]. lia. }
  assert (0 <= Qmax 0 (Qmin 1 pct) <= 1)%Q as [H0 H1].
  { split; [apply Q.le_max_l|]. apply Q.max_lub; [lra|apply Q.le_min_l]. }
  unfold rank_of. split; [by apply Qmult_le_0_compat|]. set (m := Qmax _ _) in *. set (k := qz _) in *. nra.
Qed.

Lemma percentile_interpolates values pct : values <> [] -> (_percentile values pct == interpolate values (rank_of values pct))%Q.
Proof.
  intros Hv. destruct values as [|v [|w l]]; [done| |].
  - unfold interpolate, rank_of. cbn [length]. change (qz (Z.of_nat 1 - 1)) with 0%Q.
    assert (0 * Qmax 0 (Qmin 1 pct) == 0)%Q as Hr by ring. rewrite (Qfloor_comp _ _ Hr), (Qceiling_comp _ _ Hr), Hr.
    change (Qfloor 0) with 0. change (Qceiling 0) with 0. change (at_rank [v] 0) with v. change (qz 0) with 0%Q.
    cbn [_percentile]. ring.
  - unfold _percentile. cbn zeta. fold (rank_of (v :: w :: l) pct). set (r := rank_of _ _).
    destruct (Qfloor r =? Qceiling r) eqn:E; [|reflexivity]. blift. unfold interpolate. rewrite <- E. ring.
Qed.

Lemma ceiling_le_succ r : (Qceiling r <= Qfloor r + 1)%Z.
Proof.
  assert (r <= inject_Z (Qfloor r + 1))%Q as H by (apply Qlt_le_weak, Qlt_floor).
  apply Qceiling_resp_le in H. by rewrite Qceiling_Z in H.
Qed.

Section interpolation.
Variable values : list Q.
Hypothesis asc : ascending values.
Let top := qz (Z.of_nat (length values) - 1).

Lemma at_rank_mono i j : 0 <= i <= j -> j < Z.of_nat (length values) -> (at_rank values i <= at_rank values j)%Q.
Proof. intros H1 H2. apply asc. lia. Qed.

(** The indices around a rank are indices. *)
Lemma rank_indices r : (0 <= r <= top)%Q ->
  0 <= Qfloor r <= Qceiling r /\ Qceiling r < Z.of_nat (length values) /\ Qceiling r <= Qfloor r + 1.
Proof.
  intros [H0 H1]. unfold top in H1. assert (0 <= Qfloor r) as F0.
  { change 0 with (Qfloor 0). by apply Qfloor_resp_le. }
  assert (Qceiling r <= Z.of_nat (length values) - 1) as C1.
  { apply Qceiling_resp_le in H1. unfold qz in H1. by rewrite Qceiling_Z in H1. }
  assert (Qfloor r <= Qceiling r) as FC.
  { rewrite Zle_Qle. eapply Qle_trans; [apply Qfloor_le|apply Qle_ceiling]. }
  pose proof (ceiling_le_succ r). lia.
Qed.

Lemma interpolate_between r : (0 <= r <= top)%Q ->
  (at_rank values (Qfloor r) <= interpolate values r <= at_rank values (Qceiling r))%Q.
Proof.
  intros Hr. destruct (rank_indices r Hr) as (H1 & H2 & H3).
  pose proof (at_rank_mono (Qfloor r) (Qceiling r) H1 H2) as Hm. unfold interpolate.
  set (lo := at_rank values (Qfloor r)) in *. set (hi := at_rank values (Qceiling r)) in *.
  assert (0 <= r - qz (Qfloor r))%Q as Hw by (pose proof (Qfloor_le r); unfold qz; lra).
  assert (r - qz (Qfloor r) <= 1)%Q as Hw1.
  { pose proof (Qlt_floor r) as Hl. unfold qz. rewrite inject_Z_plus in Hl. change (inject_Z 1) with 1%Q in Hl. lra. }
  split; [nra|nra].
Qed.

(** A larger rank gives a larger value. *)
Lemma interpolate_mono r1 r2 : (0 <= r1)%Q -> (r1 <= r2)%Q -> (r2 <= top)%Q -> (interpolate values r1 <= interpolate values r2)%Q.
Proof.
  intros H0 H12 Ht. assert (0 <= r1 <= top)%Q as R1 by (split; lra). assert (0 <= r2 <= top)%Q as R2 by (split; lra).
  destruct (interpolate_between r1 R1) as [_ U1]. destruct (interpolate_between r2 R2) as [L2 _].
  destruct (rank_indices r1 R1) as (A1 & A2 & A3). destruct (rank_indices r2 R2) as (B1 & B2 & B3).
  pose proof (Qfloor_resp_le _ _ H12) as Hf. pose proof (Qceiling_resp_le _ _ H12) as Hc.
  destruct (Z.le_gt_cases (Qceiling r1) (Qfloor r2)) as [Hle|Hgt].
  - eapply Qle_trans; [exact U1|]. eapply Qle_trans; [|exact L2]. apply at_rank_mono; lia.
  - assert (Qfloor r1 = Qfloor r2) as Ef by lia. assert (Qceiling r1 = Qceiling r2) as Ec by lia.
    unfold interpolate. rewrite Ef, Ec. pose proof (at_rank_mono (Qfloor r2) (Qceiling r2) B1 B2) as Hm.
    set (lo := at_rank values (Qfloor r2)) in *. set (hi := at_rank values (Qceiling r2)) in *. nra.
Qed.
End interpolation.

(** The percentiles reported for a source are ordered and lie between its
    fastest and its slowest sample, whatever the samples are. *)
Theorem percentiles_ordered (l : list Q) p q (s := sort_by Qle_bool l) : l <> [] -> (p <= q)%Q ->
  (hd 0 s <= _percentile s p /\ _percentile s p <= _percentile s q /\ _percentile s q <= List.last s 0)%Q.
Proof.
  intros Hl Hpq. assert (s <> []) as Hs.
  { intros E. apply Hl. apply length_zero_iff_nil. rewrite <- (sort_by_length Qle_bool). unfold s in E. by rewrite E. }
  pose proof (sorted_ascending l) as Ha. fold s in Ha.
  assert (forall x, 0 <= rank_of s x <= qz (Z.of_nat (length s) - 1))%Q as Hr by (intros x; by apply rank_range).
  assert (rank_of s p <= rank_of s q)%Q as Hrank.
  { unfold rank_of. rewrite !(Qmult_comm (qz _)). apply Qmult_le_compat_r; [by apply Q.max_le_compat_l, Q.min_le_compat_l|].
    destruct (Hr p). lra. }
  rewrite !percentile_interpolates by done. split; [|split].
  - eapply Qle_trans; [|apply interpolate_between; [done|apply Hr]].
    replace (hd 0 s)%Q with (at_rank s 0) by (by destruct s). destruct (rank_indices s (rank_of s p) (Hr p)) as (A1 & A2 & A3).
    apply at_rank_mono; [done|lia|lia].
  - apply interpolate_mono; [done|apply Hr|done|apply Hr].
  - eapply Qle_trans; [apply interpolate_between; [done|apply Hr]|].
    destruct (rank_indices s (rank_of s q) (Hr q)) as (A1 & A2 & A3).
    assert (List.last s 0%Q = at_rank s (Z.of_nat (length s) - 1)) as ->.
    { unfold at_rank. replace (Z.to_nat _) with (length s - 1)%nat by lia. clear. induction s as [|x [|y s] IH]; [done|done|].
      change (List.last (x :: y :: s) 0%Q) with (List.last (y :: s) 0%Q). rewrite IH. cbn. by rewrite Nat.sub_0_r. }
    apply at_rank_mono; [done|lia|lia].
Qed.

Lemma percentiles_ordered_witness :
  (1 <= _percentile (sort_by Qle_bool [7; 1; 4]) (50 # 100) /\
   _percentile (sort_by Qle_bool [7; 1; 4]) (50 # 100) <= _percentile (sort_by Qle_bool [7; 1; 4]) (95 # 100) /\
   _percentile (sort_by Qle_bool [7; 1; 4]) (95 # 100) <= 7)%Q.
Proof. apply (percentiles_ordered [7; 1; 4]%Q (50 # 100) (95 # 100)); [discriminate|vm_compute; discriminate]. Defined.

(** ** Counters of the sources *)

Lemma count_up_other k k' d : k <> k' -> count_of (count_up k d) k' = count_of d k'.
Proof. intros H. unfold count_up, count_of. rewrite clookup_cset. destruct (k' =s k) eqn:E; [blift; congruence|done]. Qed.

Lemma count_up_same k d : count_of (count_up k d) k = count_of d k + 1.
Proof. unfold count_up, count_of at 1. by rewrite clookup_cset, String.eqb_refl. Qed.

Definition samples_of (s : latency_state) (name : string) : list Q := match clookup name (samples s) with Some l => l | None => [] end.

(** What the counters of a source mean: timeouts are errors, errors are
    requests, and the samples are those of the last requests. *)
Definition latency_wf (G : retrieval_config) (s : latency_state) : Prop := forall name,
  0 <= count_of (timeout_counts s) name <= count_of (error_counts s) name /\
  count_of (error_counts s) name <= count_of (request_counts s) name /\
  Z.of_nat (length (samples_of s name)) =
    Z.min (count_of (request_counts s) name) (Z.of_nat (RETRIEVAL_LATENCY_HISTORY_LIMIT G)) /\
  List.Forall (fun x => (0 <= x)%Q) (samples_of s name).

Lemma push_sample_length G x l : length (push_sample G x l) = Nat.min (length l + 1) (RETRIEVAL_LATENCY_HISTORY_LIMIT G).
Proof. unfold push_sample. rewrite length_skipn, length_app. cbn [length]. lia. Qed.

Lemma push_sample_Forall G (P : Q -> Prop) x l : P x -> List.Forall P l -> List.Forall P (push_sample G x l).
Proof.
  intros Hx Hl. apply List.Forall_forall. intros y Hy. unfold push_sample in Hy.
  assert (In y (l ++ [x])) as H by (rewrite <- (firstn_skipn (length l + 1 - RETRIEVAL_LATENCY_HISTORY_LIMIT G) (l ++ [x])); apply in_app_iff; by right).
  apply in_app_iff in H as [H|[<-|[]]]; [|done]. rewrite List.Forall_forall in Hl. auto.
Qed.

(** A request that was too late did not succeed. *)
Lemma record_wf G now_iso source ms ok timed_out mode s : (timed_out = true -> ok = false) -> latency_wf G s ->
  latency_wf G (_record_retrieval_source_latency G now_iso source ms ok timed_out mode s).
Proof.
  intros Hto Hs name. unfold _record_retrieval_source_latency. destruct (truthy (lower (strip source))); cbn [negb]; [|apply Hs].
  unfold samples_of. cbn [timeout_counts error_counts request_counts samples]. rewrite clookup_cset.
  destruct (Hs name) as (H1 & H2 & H3 & H4). unfold samples_of in H3, H4.
  destruct (name =s lower (strip source)) eqn:E; blift.
  - subst name. set (k := lower (strip source)) in *. rewrite count_up_same.
    assert (count_of (if ok then error_counts s else count_up k (error_counts s)) k = count_of (error_counts s) k + if ok then 0 else 1) as ->.
    { destruct ok; [lia|apply count_up_same]. }
    assert (count_of (if timed_out then count_up k (timeout_counts s) else timeout_counts s) k =
            count_of (timeout_counts s) k + if timed_out then 1 else 0) as ->.
    { destruct timed_out; [apply count_up_same|lia]. }
    set (l := match clookup k (samples s) with Some l => l | None => [] end) in *.
    repeat split; try (destruct ok, timed_out; (lia || (by specialize (Hto eq_refl)))).
    + rewrite push_sample_length. lia.
    + apply push_sample_Forall; [apply Q.le_max_l|done].
  - rewrite count_up_other by congruence.
    replace (count_of (if ok then error_counts s else _) name) with (count_of (error_counts s) name).
    2: { destruct ok; [done|]. by rewrite count_up_other by congruence. }
    replace (count_of (if timed_out then _ else timeout_counts s) name) with (count_of (timeout_counts s) name).
    2: { destruct timed_out; [|done]. by rewrite count_up_other by congruence. }
    done.
Qed.

Lemma check_source_counts G now source s p (s' := fst (check_source G now source (s, p))) :
  samples s' = samples s /\ request_counts s' = request_counts s /\ error_counts s' = error_counts s /\
  timeout_counts s' = timeout_counts s.
Proof. unfold s', check_source. cbv zeta. repeat (dmatch; cbn [fst set_cooldown samples request_counts error_counts timeout_counts]); done. Qed.

Lemma wf_same_counts G s s' : samples s' = samples s -> request_counts s' = request_counts s -> error_counts s' = error_counts s ->
  timeout_counts s' = timeout_counts s -> latency_wf G s -> latency_wf G s'.
Proof. intros E1 E2 E3 E4 H name. unfold samples_of. rewrite E1, E2, E3, E4. apply H. Qed.

Lemma policy_wf G now sources explicit s : latency_wf G s ->
  latency_wf G (fst (_retrieval_slow_source_runtime_policy G now sources explicit s)).
Proof.
  intros Hs. unfold _retrieval_slow_source_runtime_policy. dmatch; [done|]. dmatch; [done|].
  generalize (mkPolicy (RETRIEVAL_SLOW_SOURCE_STABILITY_ENABLED G) [] []). clear -Hs. revert s Hs.
  induction (List.filter _ sources) as [|x l IH]; intros s Hs p; cbn [fold_left]; [done|].
  destruct (check_source G now x (s, p)) as [s' p'] eqn:E. apply IH.
  destruct (check_source_counts G now x s p) as (E1 & E2 & E3 & E4). rewrite E in *. by eapply wf_same_counts.
Qed.

(** States the searches lead to. *)
Inductive latency_reachable (G : retrieval_config) : latency_state -> Prop :=
| reach_start : latency_reachable G no_latency
| reach_record now_iso source ms ok timed_out mode s : (timed_out = true -> ok = false) -> latency_reachable G s ->
    latency_reachable G (_record_retrieval_source_latency G now_iso source ms ok timed_out mode s)
| reach_policy now sources explicit s : latency_reachable G s ->
    latency_reachable G (fst (_retrieval_slow_source_runtime_policy G now sources explicit s)).

Lemma reachable_wf G s : latency_reachable G s -> latency_wf G s.
Proof.
  induction 1; [|by apply record_wf|by apply policy_wf]. intros name. cbn. repeat split; try lia. constructor.
Qed.

Lemma rate_range n requests : 0 <= n <= requests -> (0 <= rate n requests <= 1)%Q.
Proof.
  intros H. unfold rate. destruct (0 <? requests) eqn:E; [|split; lra]. blift.
  assert (0 < qz requests)%Q as Hp by (by apply (qz_lt 0)).
  split.
  - apply Qle_shift_div_l; [done|]. rewrite Qmult_0_l. apply (qz_le 0). lia.
  - apply Qle_shift_div_r; [done|]. rewrite Qmult_1_l. apply qz_le. lia.
Qed.

(** In every state the searches lead to, the timeouts of a source are among
    its errors and the errors among its requests, so that both rates lie between
    0 and 1; the samples kept are non-negative and are as many as the requests,
    up to the limit; and the quality multiplier of a source is 1 or within the
    configured bounds, and not below 1 for a source without errors. *)
Theorem latency_reachable_wf G s name : latency_reachable G s ->
  (RETRIEVAL_SOURCE_QUALITY_MIN_MULTIPLIER G <= 1)%Q -> (1 <= RETRIEVAL_SOURCE_QUALITY_MAX_MULTIPLIER G)%Q ->
  let m := snd (quality_of_source G s name) in
  latency_wf G s /\
  (0 <= rate (count_of (timeout_counts s) name) (count_of (request_counts s) name) <= 1)%Q /\
  (0 <= rate (count_of (error_counts s) name) (count_of (request_counts s) name) <= 1)%Q /\
  (RETRIEVAL_SOURCE_QUALITY_MIN_MULTIPLIER G <= m <= RETRIEVAL_SOURCE_QUALITY_MAX_MULTIPLIER G)%Q /\
  (count_of (error_counts s) name = 0 -> (1 <= m)%Q).
Proof.
  intros Hr%reachable_wf Hmin Hmax. cbn zeta. destruct (Hr name) as (H1 & H2 & _).
  split; [done|]. split; [apply rate_range; lia|]. split; [apply rate_range; lia|].
  unfold quality_of_source. rewrite !Z.max_r by lia. set (st := _ && _ && _). 
  unfold quality_multiplier_of. destruct (RETRIEVAL_SOURCE_QUALITY_ADAPTIVE_ENABLED G); cbn [negb]; [|cbn; split; [split|]; lra].
  destruct (_ <? _); [cbn; split; [split|]; lra|]. cbn [snd].
  set (tr := rate (count_of (timeout_counts s) name) _). set (er := rate (count_of (error_counts s) name) _).
  set (mult := (1 - _ + _)%Q). split; [split|].
  - apply Q.min_glb; [lra|apply Q.le_max_l].
  - apply Q.le_min_l.
  - intros H0. apply Q.min_glb; [done|]. apply Q.max_le_iff. right. unfold mult.
    assert (tr == 0)%Q as ->. { unfold tr, rate. dmatch; [|lra]. replace (count_of (timeout_counts s) name) with 0 by lia. unfold Qdiv. change (qz 0) with 0%Q. ring. }
    assert (er == 0)%Q as ->. { unfold er, rate. dmatch; [|lra]. rewrite H0. unfold Qdiv. change (qz 0) with 0%Q. ring. }
    assert (Qmin 1 (0 * RETRIEVAL_SOURCE_QUALITY_TIMEOUT_WEIGHT G + 0 * RETRIEVAL_SOURCE_QUALITY_ERROR_WEIGHT G) <= 0)%Q as Hp.
    { eapply Qle_trans; [apply Q.le_min_r|]. lra. }
    destruct (st && Qltb 0 _) eqn:Es; [|lra]. apply andb_true_iff in Es as [_ Es]. apply Qltb_true in Es. lra.
Qed.

Lemma latency_reachable_wf_witness :
  let s := _record_retrieval_source_latency default_retrieval "t" "letta" 900 false true "deep" no_latency in
  latency_wf default_retrieval s /\ samples_of s "letta" = [900%Q].
Proof.
  cbn zeta. split; [|vm_compute; reflexivity].
  refine (proj1 (latency_reachable_wf default_retrieval _ "letta" _ _ _)).
  - apply reach_record; [reflexivity|apply reach_start].
  - vm_compute. discriminate.
  - vm_compute. discriminate.
Defined.

(** ** Degraded sources *)

Section slow.
Variable G : retrieval_config.
Variable now : Z.

(** The rule: too many timeouts or errors, or still cooling down. *)
Definition is_degraded (s : latency_state) (name : string) : bool :=
  threshold_hit G (Z.max 0 (count_of (request_counts s) name)) (Z.max 0 (count_of (error_counts s) name))
    (Z.max 0 (count_of (timeout_counts s) name))
  || (now <? count_of (cooldown_until s) name).

Lemma source_name_id x : In x RETRIEVAL_SOURCES -> lower (strip x) = x /\ truthy x = true.
Proof. cbn. intros Hx. repeat destruct Hx as [<-|Hx]; done. Qed.

Lemma count_of_cdel k k' d : k' <> k -> count_of (cdel k d) k' = count_of d k'.
Proof.
  intros H. unfold count_of. replace (clookup k' (cdel k d)) with (clookup k' d); [done|].
  induction d as [|[k0 v0] d IH]; cbn; [done|]. destruct (k0 =s k) eqn:E; cbn; destruct (k' =s k0) eqn:E'; try done.
  blift. congruence.
Qed.

Lemma count_of_cset k v k' d : k' <> k -> count_of (cset k v d) k' = count_of d k'.
Proof. intros H. unfold count_of. rewrite clookup_cset. destruct (k' =s k) eqn:E; [by blift|done]. Qed.

(** A source is noted exactly when it is degraded; others are not touched. *)
Lemma check_source_spec x s p : In x RETRIEVAL_SOURCES ->
  let '(s', p') := check_source G now x (s, p) in
  (forall y, y <> x -> is_degraded s' y = is_degraded s y) /\
  (forall y, In y (map fst (degraded_sources p')) <-> In y (map fst (degraded_sources p)) \/ (y = x /\ is_degraded s x = true)) /\
  (forall y t, clookup y (timeout_overrides p') = Some t ->
     clookup y (timeout_overrides p) = Some t \/
     (y = x /\ is_degraded s x = true /\ exists cap, _degraded_timeout_cap_for_source G x = Some cap /\ t = Qmax 1 cap)).
Proof.
  intros Hx. destruct (source_name_id x Hx) as [Hn Ht]. unfold check_source. rewrite Hn, Ht. cbn [negb].
  cbv zeta. fold (is_degraded s x). set (hit := threshold_hit G _ _ _).
  assert (is_degraded s x = hit || (now <? count_of (cooldown_until s) x)) as -> by done.
  set (cool := now <? _).
  assert (forall (s' : latency_state) (y : string),
    request_counts s' = request_counts s -> error_counts s' = error_counts s -> timeout_counts s' = timeout_counts s ->
    count_of (cooldown_until s') y = count_of (cooldown_until s) y -> is_degraded s' y = is_degraded s y) as Hsame.
  { intros s' y E1 E2 E3 E4. unfold is_degraded. by rewrite E1, E2, E3, E4. }
  destruct (hit || cool) eqn:E; cbn [negb].
  - split; [|split].
    + intros y Hy. destruct hit; apply Hsame; try done. cbn. by apply count_of_cset.
    + intros y. cbn [degraded_sources]. rewrite cset_keys. destruct (mem_str x _) eqn:Em.
      * apply mem_str_In in Em. split; [tauto|]. intros [?|[-> _]]; done.
      * rewrite in_app_iff. cbn. naive_solver.
    + intros y t. cbn [timeout_overrides]. destruct (_degraded_timeout_cap_for_source G x) as [cap|]; [|tauto].
      rewrite clookup_cset. destruct (y =s x) eqn:Ey; [|tauto]. blift. intros [= <-]. right. eauto.
  - assert (hit = false) as -> by (by destruct hit). split; [|split].
    + intros y Hy. apply Hsame; try done. cbn. by apply count_of_cdel.
    + intros y. naive_solver.
    + intros y t. tauto.
Qed.

Lemma check_all_spec l : forall s p, List.NoDup l -> sources_ok l ->
  let '(_, p') := fold_left (fun acc source => check_source G now source acc) l (s, p) in
  (forall y, In y (map fst (degraded_sources p')) <-> In y (map fst (degraded_sources p)) \/ (In y l /\ is_degraded s y = true)) /\
  (forall y t, clookup y (timeout_overrides p') = Some t ->
     clookup y (timeout_overrides p) = Some t \/
     (In y l /\ is_degraded s y = true /\ exists cap, _degraded_timeout_cap_for_source G y = Some cap /\ t = Qmax 1 cap)).
Proof.
  induction l as [|x l IH]; intros s p Hnd Hok; cbn [fold_left]; [split; cbn; [intros y; tauto|tauto]|].
  apply List.NoDup_cons_iff in Hnd as [Hx Hnd].
  pose proof (check_source_spec x s p (Hok x (or_introl eq_refl))) as Hc.
  destruct (check_source G now x (s, p)) as [s1 p1]. destruct Hc as (H1 & H2 & H3).
  specialize (IH s1 p1 Hnd ltac:(intros z Hz; apply Hok; by right)).
  destruct (fold_left _ _ _) as [s' p']. destruct IH as [I1 I2]. split.
  - intros y. rewrite I1, H2. cbn. split.
    + intros [[?|[-> ?]]|[Hy Hd]]; [tauto|tauto|]. right. split; [tauto|]. rewrite <- H1; [done|by intros ->].
    + intros [?|[[->|Hy] Hd]]; [tauto|tauto|]. right. split; [done|]. rewrite H1; [done|by intros ->].
  - intros y t Ht. apply I2 in Ht as [Ht|(Hy & Hd & Hcap)].
    + apply H3 in Ht as [Ht|(-> & Hd & Hcap)]; [tauto|]. right. split; [by left|done].
    + right. split; [by right|]. split; [|done]. rewrite <- H1; [done|by intros ->].
Qed.
End slow.

(** A source is treated as degraded exactly when it is a searched slow
    source, the policy is on, the sources were not chosen by the caller, and it
    has either reached the threshold of timeouts or errors or is still cooling
    down; only degraded sources get a cap on their timeout, and it is at least
    a second. *)
Theorem degraded_sources_rule G now sources explicit s : List.NoDup sources -> sources_ok sources ->
  let p := snd (_retrieval_slow_source_runtime_policy G now sources explicit s) in
  (forall x, In x (map fst (degraded_sources p)) <->
     RETRIEVAL_SLOW_SOURCE_STABILITY_ENABLED G = true /\ explicit = false /\ In x sources /\
     In x (DEFAULT_RETRIEVAL_SLOW_SOURCES G) /\ is_degraded G now s x = true) /\
  (forall x t, clookup x (timeout_overrides p) = Some t -> In x (map fst (degraded_sources p)) /\ (1 <= t)%Q).
Proof.
  intros Hnd Hok. cbn zeta. unfold _retrieval_slow_source_runtime_policy.
  destruct (RETRIEVAL_SLOW_SOURCE_STABILITY_ENABLED G); cbn [negb]; [|split; [cbn; naive_solver|done]].
  set (l := List.filter (fun source => mem_str source (DEFAULT_RETRIEVAL_SLOW_SOURCES G)) sources).
  assert (forall x, In x l <-> In x sources /\ In x (DEFAULT_RETRIEVAL_SLOW_SOURCES G)) as Hl.
  { intros x. unfold l. by rewrite filter_In, mem_str_In. }
  destruct (Nat.eqb (length l) 0) eqn:E0; cbn [orb].
  { apply Nat.eqb_eq, length_zero_iff_nil in E0. rewrite E0 in Hl. split; [|done]. cbn. intros x. pose proof (Hl x). cbn in *. tauto. }
  destruct explicit; [split; [cbn; naive_solver|done]|].
  assert (List.NoDup l) as Hnl by (by apply List.NoDup_filter).
  assert (sources_ok l) as Hol by (intros x Hx; apply Hok; by apply Hl).
  pose proof (check_all_spec G now l s (mkPolicy true [] []) Hnl Hol) as Hspec.
  destruct (fold_left _ _ _) as [s' p']. destruct Hspec as [H1 H2]. cbn [snd]. split.
  - intros x. rewrite H1, Hl. cbn. tauto.
  - intros x t Ht. apply H2 in Ht as [Ht|(Hx & Hd & cap & _ & ->)]; [done|]. split; [|apply Q.le_max_l].
    apply H1. by right.
Qed.

Lemma degraded_sources_rule_witness :
  let s := mkLatency [] [("letta", 20)] [("letta", 12)] [("letta", 9)] [] None [] in
  let p := snd (_retrieval_slow_source_runtime_policy default_retrieval 5 ["qdrant"; "letta"] false s) in
  In "letta" (map fst (degraded_sources p)) /\ clookup "letta" (timeout_overrides p) = Some 18%Q.
Proof.
  cbn zeta. split; [|vm_compute; reflexivity].
  refine (proj2 (proj1 (degraded_sources_rule default_retrieval 5 ["qdrant"; "letta"] false _ _ _) "letta") _).
  - repeat constructor; cbn; intuition discriminate.
  - intros x [<-|[<-|[]]]; vm_compute; tauto.
  - repeat split; vm_compute; tauto.
Defined.
