(* ===== verification/Federated.v ===== *)
(** * Searching all sources

    [federated_search_memory]: the sources of a mode are asked in one or two
    stages, their answers merged and ranked, the outcome kept in the pathway
    cache.  The sources answer through [reply]; the tasks of a batch run
    concurrently in the code, each touches only the counters of its own source,
    and the model runs them in the order in which they are created. *)

From S2P Require Import Prelude PyStr PyTime Json JsonText Policy OutboxMaint WriteBuffer Regex Lru Caches Ranking SourcePolicy.
From Stdlib Require Import QArith Qminmax.
Open Scope Z_scope.

(** A request to a source and what it comes to. *)
Record request := mkRequest {
  rq_source : string; rq_query : string; rq_limit : Z; rq_project : option string; rq_topic : option string; rq_timeout : Q }.

Inductive outcome := Rows (rows : list row) | TooLate | Fails (e : exn).

(** Settings and surroundings of a search.  [reply n] answers request [n] and
    says how many milliseconds it took; clocks and faults of Redis are numbered
    by the readings and calls before them. *)
Record search_env := mkSearchEnv {
  G : retrieval_config; RC : ranking_config; LC : lifecycle_config; TL : lru_config; PL : lru_config;
  orjson : option ((json -> string) * (string -> option json)); compress : string -> string; decompress : string -> option string;
  RETRIEVAL_PATHWAY_REDIS_COMPRESS : bool; backend_enabled : bool; RETRIEVAL_PATHWAY_REDIS_PREFIX : string;
  half_decay : Q -> Q; log1p : Q -> Q; sha1 : string -> string; uuid_hex : nat -> string; repr_float : Q -> string;
  clock : nat -> Z; monotonic : nat -> Z; redis_fault : nat -> option exn; reply : nat -> request -> outcome * Q }.

Record search_state := mkSearch {
  latency : latency_state; lifecycle : list (string * life_entry); templates : cache (Z * template); pathway : pathway_cache;
  stats : list (string * pathway_stat); uuids : nat; ticks : nat; asked : list request }.

Definition no_pathway : pathway_cache := mkPathway no_cache [] 0 0 0 0 0.
Definition no_search : search_state := mkSearch no_latency [] no_cache no_pathway [] 0 0 [].

Record search_args := mkArgs {
  query : string; limit : Z; project_filter : option string; topic_filter : option string; sources : list string;
  source_weights : list (string * option Q); preferences : dict; rerank_with_learning : bool; retrieval_mode : string;
  record_pathway_usage : bool }.

(** [f"{x:.1f}"] *)
Definition fmt1 (q : Q) : string :=
  let n := round_half_even (q * 10) in
  (if n <? 0 then "-" else "") +:+ str_of_Z (Z.abs n / 10) +:+ "." +:+ str_of_Z (Z.abs n mod 10).

Section search.
Variable E : search_env.
Abbreviation M := (ST search_state).

Definition set_latency (l : latency_state) (s : search_state) : search_state :=
  mkSearch l (lifecycle s) (templates s) (pathway s) (stats s) (uuids s) (ticks s) (asked s).
Definition set_life (d : list (string * life_entry)) (n : nat) (s : search_state) : search_state :=
  mkSearch (latency s) d (templates s) (pathway s) (stats s) n (ticks s) (asked s).
Definition set_templates (c : cache (Z * template)) (s : search_state) : search_state :=
  mkSearch (latency s) (lifecycle s) c (pathway s) (stats s) (uuids s) (ticks s) (asked s).
Definition set_pathway (c : pathway_cache) (s : search_state) : search_state :=
  mkSearch (latency s) (lifecycle s) (templates s) c (stats s) (uuids s) (ticks s) (asked s).
Definition set_stats (d : list (string * pathway_stat)) (s : search_state) : search_state :=
  mkSearch (latency s) (lifecycle s) (templates s) (pathway s) d (uuids s) (ticks s) (asked s).
Definition set_uuids (n : nat) (s : search_state) : search_state :=
  mkSearch (latency s) (lifecycle s) (templates s) (pathway s) (stats s) n (ticks s) (asked s).

Definition tick : M nat := fun s =>
  (mkSearch (latency s) (lifecycle s) (templates s) (pathway s) (stats s) (uuids s) (S (ticks s)) (asked s), Ok (ticks s)).
Definition monotonic_now : M Z := n <- tick ;; st_ret (monotonic E n).
Definition utc_now : M string := n <- tick ;; st_ret (_utc_now (clock E n)).

(** ** Asking the sources *)

Section asking.
Variable a : search_args.
Variable normalized_mode : string.
Variable source_limit : Z.
Variable effective_source_timeouts : list (string * Q).

Definition _build_source_coro (source : string) (timeout_secs : Q) : result request :=
  let rq limit := mkRequest source (query a) limit (project_filter a) (topic_filter a) timeout_secs in
  if mem_str source [RETRIEVAL_SOURCE_QDRANT; RETRIEVAL_SOURCE_MONGO_RAW; RETRIEVAL_SOURCE_MINDSDB] then Ok (rq source_limit)
  else if source =s RETRIEVAL_SOURCE_LETTA then
    Ok (rq (Z.min source_limit (Z.max (limit a) (RETRIEVAL_LETTA_SCAN_LIMIT (G E)))))
  else if mem_str source [RETRIEVAL_SOURCE_MEMORY_BANK; RETRIEVAL_SOURCE_TOPIC_ROLLUPS] then Ok (rq source_limit)
  else Raise (OrchestratorError ("Unknown retrieval source: " +:+ source)).

(** The request is sent and its latency recorded. *)
Definition _timed_source (rq : request) : M (list row) :=
  s <- st_get ;;
  let '(out, duration_ms) := reply E (length (asked s)) rq in
  st_put (mkSearch (latency s) (lifecycle s) (templates s) (pathway s) (stats s) (uuids s) (ticks s) (rq :: asked s)) ;;;
  now_iso <- utc_now ;;
  st_modify (fun s => set_latency (_record_retrieval_source_latency (G E) now_iso (rq_source rq) duration_ms
    (match out with Rows _ => true | _ => false end) (match out with TooLate => true | _ => false end) normalized_mode (latency s)) s) ;;;
  match out with
  | Rows rows => st_ret rows
  | TooLate => st_raise (OrchestratorError (rq_source rq +:+ " retrieval timed out after " +:+ fmt1 (rq_timeout rq) +:+ "s"))
  | Fails e => st_raise e
  end.

Record batch := mkBatch {
  batch_rows : list (string * list row); batch_errors : list (string * string); batch_warnings : list string }.
Definition empty_batch : batch := mkBatch [] [] [].

Definition build_requests (source_batch : list string) : result (list request) :=
  fold_right (fun source acc =>
      let timeout := match clookup source effective_source_timeouts with Some t => t | None => RETRIEVAL_QDRANT_TIMEOUT_SECS (G E) end in
      let! rq := _build_source_coro source timeout in
      let! rest := acc in Ok (rq :: rest)) (Ok []) source_batch.

(** [asyncio.gather(..., return_exceptions=True)] and the loop over it. *)
Fixpoint gather (requests : list request) : M batch :=
  match requests with
  | [] => st_ret empty_batch
  | rq :: rest => fun s =>
      let '(s1, r) := _timed_source rq s in
      match gather rest s1 with
      | (s2, Ok b) =>
          (s2, Ok match r with
                  | Ok rows => mkBatch ((rq_source rq, rows) :: batch_rows b) (batch_errors b) (batch_warnings b)
                  | Raise e => mkBatch (batch_rows b) ((rq_source rq, exn_str e) :: batch_errors b)
                                 ((rq_source rq +:+ " retrieval failed: " +:+ exn_str e) :: batch_warnings b)
                  end)
      | (s2, Raise e) => (s2, Raise e)
      end
  end.

Definition _run_source_batch (source_batch : list string) : M batch :=
  requests <- st_lift (build_requests source_batch) ;; gather requests.
End asking.

(** [results_by_source.update(...)], [source_errors.update(...)],
    [warnings.extend(...)] *)
Definition update_all {A} (d' d : list (string * A)) : list (string * A) := fold_left (fun acc kv => cset (fst kv) (snd kv) acc) d' d.
Definition add_batch (b b' : batch) : batch :=
  mkBatch (update_all (batch_rows b') (batch_rows b)) (update_all (batch_errors b') (batch_errors b))
    (batch_warnings b ++ batch_warnings b').

(** ** Merging with what is known of the sources *)

(** Rows are merged and sorted; the qualities used are answered too. *)
Definition merge_and_sort (a : search_args) (weights : list (string * Q)) (terms : list string * list string) (learning_enabled : bool)
    (life : list (string * life_entry)) (of_sources : list string) (results : list (string * list row))
  : M (list merged_row * (list (string * source_quality) * list (string * Q))) :=
  s <- st_get ;;
  let '(quality, multipliers) := _retrieval_source_quality_snapshot (G E) of_sources (latency s) in
  now <- monotonic_now ;;
  s <- st_get ;;
  let '(merged, n) := _merge_federated_rows (RC E) (LC E) (half_decay E) (log1p E) (sha1 E) (uuid_hex E) (fst terms) (snd terms)
                        learning_enabled (query a) weights multipliers life now results (uuids s) in
  st_modify (set_uuids n) ;;;
  st_ret (sort_by ranks_before (map snd merged), (quality, multipliers)).

(** ** What is answered *)

Definition jf (q : Q) : json := JFloat (repr_float E q).
Definition js (l : list string) : json := JList (map JStr l).

(** [normalized], with its fields in place of those of the row. *)
Definition merged_json (m : merged_row) : dict :=
  fold_left (fun d kv => dset (fst kv) (snd kv) d)
    [("source", JStr (m_source m)); ("sources", js (m_sources m)); ("base_score", jf (base_score m));
     ("source_weight", jf (source_weight m)); ("quality_multiplier", jf (quality_multiplier m));
     ("learning_adjustment", jf (learning_adjustment m)); ("fusion_adjustment", jf (fusion_adjustment m));
     ("lexical_adjustment", jf (lexical_adjustment m)); ("numeric_adjustment", jf (numeric_adjustment m));
     ("numeric_match_ratio", jf (numeric_match_ratio m)); ("lifecycle_adjustment", jf (lifecycle_adjustment m));
     ("pre_consensus_score", jf (pre_consensus_score m)); ("score", jf (m_score m));
     ("consensus_adjustment", jf (consensus_adjustment m))] (m_fields m).

Definition degraded_json (d : degraded) : json :=
  JObj [("requests", JInt (dg_requests d)); ("errors", JInt (dg_errors d)); ("timeouts", JInt (dg_timeouts d));
        ("timeout_rate", jf (dg_timeout_rate d)); ("error_rate", jf (dg_error_rate d));
        ("cooldown_remaining_secs", jf (cooldown_remaining_secs d))].

Definition quality_json (q : source_quality) : json :=
  JObj [("requests", JInt (q_requests q)); ("errors", JInt (q_errors q)); ("timeouts", JInt (q_timeouts q));
        ("timeoutRate", jf (timeoutRate q)); ("errorRate", jf (errorRate q)); ("steady", JBool (steady q));
        ("multiplier", jf (q_multiplier q)); ("reason", JStr (reason q))].

Definition on_values {A} (f : A -> json) (d : list (string * A)) : json := JObj (map (fun kv => (fst kv, f (snd kv))) d).

Definition quality_snapshot_json (snapshot : list (string * source_quality) * list (string * Q)) : json :=
  let g := G E in
  JObj [("enabled", JBool (RETRIEVAL_SOURCE_QUALITY_ADAPTIVE_ENABLED g)); ("minRequests", JInt (RETRIEVAL_SOURCE_QUALITY_MIN_REQUESTS g));
        ("minMultiplier", jf (RETRIEVAL_SOURCE_QUALITY_MIN_MULTIPLIER g)); ("maxMultiplier", jf (RETRIEVAL_SOURCE_QUALITY_MAX_MULTIPLIER g));
        ("timeoutWeight", jf (RETRIEVAL_SOURCE_QUALITY_TIMEOUT_WEIGHT g)); ("errorWeight", jf (RETRIEVAL_SOURCE_QUALITY_ERROR_WEIGHT g));
        ("steadyBoost", jf (RETRIEVAL_SOURCE_QUALITY_STEADY_BOOST g)); ("sources", on_values quality_json (fst snapshot));
        ("multipliers", on_values jf (snd snapshot))].

(** The plan of a search: what is decided before the sources are asked. *)
Record plan := mkPlan {
  p_mode : string; p_sources : list string; p_weights : list (string * Q); p_source_limit : Z; p_explicit : bool;
  p_template : template; p_template_hit : bool; p_policy : source_policy; p_timeouts : list (string * Q);
  p_force_slow : bool; p_terms : list string * list string; p_learning : bool }.

Definition debug_json (p : plan) (b : batch) (skipped : list string) (quality : list (string * source_quality) * list (string * Q))
    (life : list (string * life_entry)) : dict :=
  let g := G E in
  let c := RC E in
  [("retrieval_mode", JStr (p_mode p)); ("sources", js (p_sources p)); ("source_weights", on_values jf (p_weights p));
   ("source_counts", JObj (map (fun source => (source,
      JInt (match clookup source (batch_rows b) with Some rows => Z.of_nat (length rows) | None => 0 end))) (p_sources p)));
   ("source_errors", on_values JStr (batch_errors b));
   ("cache", JObj [("pathway_hit", JBool false); ("template_hit", JBool (p_template_hit p))]);
   ("staged_fetch", JObj
      [("enabled", JBool (staged_fetch_used (p_template p))); ("explicit_source_override", JBool (p_explicit p));
       ("force_include_slow", JBool (p_force_slow p)); ("fast_sources", js (staged_fast_sources (p_template p)));
       ("slow_sources", js (staged_slow_sources (p_template p))); ("slow_sources_skipped", js skipped);
       ("slow_source_min_results", JInt (RETRIEVAL_SLOW_SOURCE_MIN_RESULTS g));
       ("slow_source_min_top_score", jf (RETRIEVAL_SLOW_SOURCE_MIN_TOP_SCORE g));
       ("slow_source_min_diversity", JInt (RETRIEVAL_SLOW_SOURCE_MIN_DIVERSITY g))]);
   ("source_policy", JObj
      [("stability_enabled", JBool (stability_enabled (p_policy p)));
       ("degraded_sources", on_values degraded_json (degraded_sources (p_policy p)));
       ("timeout_overrides", on_values jf (timeout_overrides (p_policy p)))]);
   ("learning_rerank", JObj
      [("enabled", JBool (p_learning p)); ("positive_terms", JInt (Z.of_nat (length (fst (p_terms p)))));
       ("negative_terms", JInt (Z.of_nat (length (snd (p_terms p)))))]);
   ("fusion", JObj
      [("enabled", JBool (RETRIEVAL_FUSION_ENABLED c)); ("lexical_boost", jf (RETRIEVAL_FUSION_LEXICAL_BOOST c));
       ("consensus_boost", jf (RETRIEVAL_FUSION_CONSENSUS_BOOST c));
       ("numeric_match_enabled", JBool (RETRIEVAL_FUSION_NUMERIC_MATCH_ENABLED c));
       ("numeric_match_boost", jf (RETRIEVAL_FUSION_NUMERIC_MATCH_BOOST c));
       ("numeric_miss_penalty", jf (RETRIEVAL_FUSION_NUMERIC_MISS_PENALTY c))]);
   ("source_quality", quality_snapshot_json quality);
   ("lifecycle", JObj
      [("enabled", JBool (RETRIEVAL_LIFECYCLE_ENABLED (LC E))); ("tracked_keys", JInt (Z.of_nat (length life)));
       ("max_keys", JInt (RETRIEVAL_LIFECYCLE_MAX_KEYS (LC E)));
       ("half_life_hours", jf (RETRIEVAL_LIFECYCLE_HALFLIFE_HOURS (LC E)))])].

(** ** The search *)

Definition same_set (l l' : list string) : bool := forallb (fun x => mem_str x l') l && forallb (fun x => mem_str x l) l'.

(** The timeouts of degraded sources are capped. *)
Definition cap_timeouts (timeouts overrides : list (string * Q)) : list (string * Q) :=
  fold_left (fun acc kv => match clookup (fst kv) acc with
                           | None => acc
                           | Some t => cset (fst kv) (Qmax 1 (Qmin t (snd kv))) acc
                           end) overrides timeouts.

Definition plan_search (a : search_args) : M plan :=
  let mode := _normalize_retrieval_mode (G E) (retrieval_mode a) in
  let resolved := _resolve_retrieval_sources_for_mode (G E) mode (sources a) in
  let weights := _normalize_retrieval_weights (source_weights a) in
  let explicit := match sources a with
                  | [] => false
                  | _ => negb (same_set resolved (_resolve_retrieval_sources_for_mode (G E) mode []))
                  end in
  now <- monotonic_now ;;
  s <- st_get ;;
  let '(c, (t, hit)) := _get_retrieval_template (G E) (repr_float E) (sha1 E) (TL E) now mode resolved (templates s) in
  st_put (set_templates c s) ;;;
  now <- monotonic_now ;;
  s <- st_get ;;
  let '(l, policy) := _retrieval_slow_source_runtime_policy (G E) now resolved explicit (latency s) in
  st_put (set_latency l s) ;;;
  let degraded_slow := List.filter (fun source => mem_str source (map fst (degraded_sources policy))) (staged_slow_sources t) in
  let terms := _extract_learning_terms (preferences a) in
  st_ret (mkPlan mode resolved weights (_retrieval_mode_source_limit (G E) (limit a) mode) explicit t hit policy
            (cap_timeouts (source_timeouts t) (timeout_overrides policy))
            ((mode =s RETRIEVAL_MODE_DEEP) && negb explicit && Nat.eqb (length degraded_slow) 0) terms
            (rerank_with_learning a && RETRIEVAL_ENABLE_LEARNING_RERANK (G E)
             && negb (Nat.eqb (length (fst terms)) 0 && Nat.eqb (length (snd terms)) 0))).

(** Are the answers of the fast sources enough? *)
Definition skip_slow (a : search_args) (p : plan) (fast_rows : list (string * list row)) (fast_merged : list merged_row) : bool :=
  let min_results := Z.max 1 (Z.min (limit a) (RETRIEVAL_SLOW_SOURCE_MIN_RESULTS (G E))) in
  let top_score := match fast_merged with m :: _ => m_score m | [] => 0%Q end in
  let count := Z.of_nat (length fast_merged) in
  let with_hits := List.filter (fun source => match clookup source fast_rows with Some (_ :: _) => true | _ => false end)
                     (staged_fast_sources (p_template p)) in
  negb (p_force_slow p) && (min_results <=? count)
  && (RETRIEVAL_SLOW_SOURCE_MIN_DIVERSITY (G E) <=? Z.of_nat (length with_hits))
  && (Qle_bool (RETRIEVAL_SLOW_SOURCE_MIN_TOP_SCORE (G E)) top_score || (Z.max min_results (limit a * 2) <=? count)).

Definition keys_or {A} (d : list (string * A)) (l : list string) : list string := match map fst d with [] => l | ks => ks end.

(** The answers of the sources, and the slow sources that were not asked. *)
Definition fetch (a : search_args) (p : plan) (life : list (string * life_entry)) : M (batch * list string) :=
  let run := _run_source_batch a (p_mode p) (p_source_limit p) (p_timeouts p) in
  let t := p_template p in
  if staged_fetch_used t then
    fast <- run (staged_fast_sources t) ;;
    fm <- merge_and_sort a (p_weights p) (p_terms p) (p_learning p) life (keys_or (batch_rows fast) (staged_fast_sources t)) (batch_rows fast) ;;
    if skip_slow a p (batch_rows fast) (fst fm) && negb (p_explicit p) then st_ret (add_batch empty_batch fast, staged_slow_sources t)
    else
      slow <- run (staged_slow_sources t) ;;
      st_ret (add_batch (add_batch empty_batch fast) slow, [])
  else
    b <- run (p_sources p) ;;
    st_ret (add_batch empty_batch b, []).

Definition pathway_key (a : search_args) (p : plan) : string :=
  _retrieval_pathway_cache_key (G E) (repr_float E) (sha1 E) (query a) (limit a) (project_filter a) (topic_filter a) (p_sources p)
    (p_weights p) (p_mode p) (p_learning p) (fst (p_terms p)) (snd (p_terms p)).

Definition observe_pathway (a : search_args) (p : plan) : M unit :=
  if record_pathway_usage a then
    now <- monotonic_now ;;
    now_iso <- utc_now ;;
    st_modify (fun s => set_stats (_record_retrieval_pathway_observation (G E) (sha1 E) now_iso now (query a) (project_filter a)
      (topic_filter a) (p_sources p) (p_weights p) (p_mode p) (stats s)) s)
  else st_ret tt.

Definition cached_answer (a : search_args) (p : plan) (b : bundle) : bundle :=
  let cached_cache := dset "template_hit" (JBool true) (dset "pathway_hit" (JBool true) (as_dict (dget (retrieval_debug b) "cache"))) in
  mkBundle (upto (limit a) (results b))
    (dset "retrieval_mode" (JStr (p_mode p)) (dset "cache" (JObj cached_cache) (retrieval_debug b))) (bundle_warnings b).

(** The sources are asked and the outcome is kept. *)
Definition search_sources (a : search_args) (p : plan) (key : string) : M bundle :=
  now <- monotonic_now ;;
  s <- st_get ;;
  let '(kept, life) := _retrieval_lifecycle_snapshot (LC E) now (lifecycle s) in
  st_modify (set_life kept (uuids s)) ;;;
  fetched <- fetch a p life ;;
  let '(b, skipped) := fetched in
  ranked <- merge_and_sort a (p_weights p) (p_terms p) (p_learning p) life (keys_or (batch_rows b) (p_sources p)) (batch_rows b) ;;
  let '(merged, quality) := ranked in
  let debug := debug_json p b skipped quality life in
  let final := map merged_json (upto (limit a) merged) in
  now <- monotonic_now ;;
  now_iso <- utc_now ;;
  st_modify (fun s => let '(d, n) := _record_retrieval_lifecycle_observation (LC E) (sha1 E) (uuid_hex E) now_iso now (query a) final
                                       (lifecycle s) (uuids s) in set_life d n s) ;;;
  n <- tick ;;
  st_modify (fun s => set_pathway (_retrieval_pathway_cache_set (PL E) (orjson E) (compress E) (RETRIEVAL_PATHWAY_REDIS_COMPRESS E)
    (backend_enabled E) (RETRIEVAL_PATHWAY_REDIS_PREFIX E) (monotonic E n) (redis_fault E n) key
    (mkBundle final debug (batch_warnings b)) (pathway s)) s) ;;;
  observe_pathway a p ;;;
  st_ret (mkBundle final debug (batch_warnings b)).

Definition federated_search_memory (a : search_args) : M bundle :=
  p <- plan_search a ;;
  let key := pathway_key a p in
  n <- tick ;;
  s <- st_get ;;
  let '(c, cached) := _retrieval_pathway_cache_get (PL E) (orjson E) (decompress E) (backend_enabled E) (RETRIEVAL_PATHWAY_REDIS_PREFIX E)
                        (monotonic E n) (redis_fault E n) key (pathway s) in
  st_put (set_pathway c s) ;;;
  match cached with
  | Some b => observe_pathway a p ;;; st_ret (cached_answer a p b)
  | None => search_sources a p key
  end.
End search.
