(* ===== verification/FederatedFacts.v ===== *)
(** * Facts on searching all sources

    A search always answers, whatever the sources do; failing sources cost
    only their own results; the answer is ranked; a repeated search is served
    from the cache. *)

From S2P Require Import Prelude PyStr PyTime Json JsonText Policy OutboxMaint WriteBuffer WriteBufferFacts Regex Lru Caches Ranking RankingFacts SourcePolicy SourcePolicyFacts Federated.
From Stdlib Require Import Ascii QArith Qminmax.
Open Scope Z_scope.

Section facts.
Variable E : search_env.
Implicit Types s : search_state.

(** ** Parts of the state that a step keeps *)

(** From [s] to [s'] the requests [rqs] were sent; caches, statistics and
    lifecycle are as before. *)
Record sends (rqs : list request) s s' : Prop := mkSends {
  sends_asked : asked s' = rev rqs ++ asked s;
  sends_lifecycle : lifecycle s' = lifecycle s; sends_templates : templates s' = templates s;
  sends_pathway : pathway s' = pathway s; sends_stats : stats s' = stats s;
  sends_latency : latency_reachable (G E) (latency s) -> latency_reachable (G E) (latency s') }.

Lemma sends_nil s : sends [] s s.
Proof. by split. Qed.

Lemma sends_app l1 l2 s1 s2 s3 : sends l1 s1 s2 -> sends l2 s2 s3 -> sends (l1 ++ l2) s1 s3.
Proof.
  intros [A1 A2 A3 A4 A5 A6] [B1 B2 B3 B4 B5 B6]. split; [|congruence..|auto].
  by rewrite B1, A1, rev_app_distr, app_assoc.
Qed.

Lemma tick_sends s : exists s', tick s = (s', Ok (ticks s)) /\ sends [] s s' /\ uuids s' = uuids s.
Proof. eexists. by repeat split. Qed.

Lemma monotonic_sends s : exists s', monotonic_now E s = (s', Ok (monotonic E (ticks s))) /\ sends [] s s' /\ uuids s' = uuids s.
Proof. eexists. by repeat split. Qed.

Lemma utc_sends s : exists s' x, utc_now E s = (s', Ok x) /\ sends [] s s'.
Proof. do 2 eexists. by repeat split. Qed.

(** ** Requests *)

Section batches.
Variables (a : search_args) (mode : string) (source_limit : Z) (timeouts : list (string * Q)).

Lemma build_known x t : In x RETRIEVAL_SOURCES -> exists rq, _build_source_coro E a source_limit x t = Ok rq /\
  rq_source rq = x /\ rq_query rq = query a /\ rq_project rq = project_filter a /\ rq_topic rq = topic_filter a /\ rq_timeout rq = t.
Proof. cbn. intros Hx. destruct Hx as [<-|[<-|[<-|[<-|[<-|[<-|[]]]]]]]; (eexists; split; [reflexivity|by repeat split]). Qed.

(** A request of this search. *)
Definition asks (rq : request) : Prop :=
  rq_query rq = query a /\ rq_project rq = project_filter a /\ rq_topic rq = topic_filter a.

Lemma build_requests_known l : sources_ok l -> exists rqs, build_requests E a source_limit timeouts l = Ok rqs /\
  map rq_source rqs = l /\ List.Forall asks rqs.
Proof.
  induction l as [|x l IH]; intros Hl; cbn; [by exists []|].
  destruct IH as (rqs & Hr & Hm & Ha); [intros y Hy; apply Hl; by right|].
  destruct (build_known x (match clookup x timeouts with Some t => t | None => RETRIEVAL_QDRANT_TIMEOUT_SECS (G E) end)
    (Hl x (or_introl eq_refl))) as (rq & Hq & H1 & H2 & H3 & H4 & _).
  unfold build_requests in Hr. rewrite Hq, Hr. cbn. exists (rq :: rqs). cbn. rewrite H1, Hm. split; [done|]. split; [done|]. by constructor.
Qed.

(** The text of a failure. *)
Definition failure (rq : request) (out : outcome) : option string :=
  match out with
  | Rows _ => None
  | TooLate => Some (rq_source rq +:+ " retrieval timed out after " +:+ fmt1 (rq_timeout rq) +:+ "s")
  | Fails e => Some (exn_str e)
  end.

(** What the requests come to when the first of them is request [n]. *)
Fixpoint answers (n : nat) (rqs : list request) : batch :=
  match rqs with
  | [] => empty_batch
  | rq :: rest =>
      let b := answers (S n) rest in
      match fst (reply E n rq), failure rq (fst (reply E n rq)) with
      | Rows rows, _ => mkBatch ((rq_source rq, rows) :: batch_rows b) (batch_errors b) (batch_warnings b)
      | _, Some err => mkBatch (batch_rows b) ((rq_source rq, err) :: batch_errors b)
                         ((rq_source rq +:+ " retrieval failed: " +:+ err) :: batch_warnings b)
      | _, None => b
      end
  end.

Lemma timed_source_sends rq s : exists s' r, _timed_source E mode rq s = (s', r) /\ sends [rq] s s' /\
  match fst (reply E (length (asked s)) rq) with
  | Rows rows => r = Ok rows
  | out => exists e, r = Raise e /\ failure rq out = Some (exn_str e)
  end.
Proof.
  unfold _timed_source, st_bind, st_get. destruct (reply E (length (asked s)) rq) as [out ms]. cbn.
  destruct out as [rows| |e]; cbn; do 2 eexists; (split; [reflexivity|]); (split; [split; try done; cbn|]).
  - intros H. by apply reach_record.
  - done.
  - intros H. by apply reach_record.
  - eexists. by split.
  - intros H. by apply reach_record.
  - eexists. by split.
Qed.

Lemma gather_sends rqs : forall s, exists s', gather E mode rqs s = (s', Ok (answers (length (asked s)) rqs)) /\ sends rqs s s'.
Proof.
  induction rqs as [|rq rqs IH]; intros s; [exists s; split; [done|apply sends_nil]|]. cbn [gather answers].
  destruct (timed_source_sends rq s) as (s1 & r & Ht & Hs & Hr). rewrite Ht.
  destruct (IH s1) as (s2 & Hg & Hs2). rewrite Hg.
  assert (length (asked s1) = S (length (asked s))) as Hl by (by rewrite (sends_asked _ _ _ Hs)). rewrite Hl.
  exists s2. split; [|apply (sends_app [rq] rqs _ _ _ Hs Hs2)].
  destruct (fst (reply E (length (asked s)) rq)) as [rows| |e] eqn:Eo.
  - by subst r.
  - destruct Hr as (e & -> & He). cbn in He. injection He as He. cbn. by rewrite <- He.
  - destruct Hr as (e' & -> & He). cbn in He. injection He as He. cbn. by rewrite <- He.
Qed.

Lemma run_batch_sends l s : sources_ok l -> exists s' rqs,
  _run_source_batch E a mode source_limit timeouts l s = (s', Ok (answers (length (asked s)) rqs)) /\ sends rqs s s' /\
  map rq_source rqs = l /\ List.Forall asks rqs.
Proof.
  intros Hl. destruct (build_requests_known l Hl) as (rqs & Hb & Hm & Ha). destruct (gather_sends rqs s) as (s' & Hg & Hs).
  exists s', rqs. unfold _run_source_batch, st_bind, st_lift. by rewrite Hb.
Qed.
End batches.

(** ** Accounting for the answers *)

(** Request [i] of [rqs], the first of which is request [n], came to [out]. *)
Definition came_to (n : nat) (rqs : list request) (rq : request) (i : nat) (out : outcome) : Prop :=
  nth_error rqs i = Some rq /\ fst (reply E (n + i) rq) = out.

Definition warning_of (rq : request) (err : string) : string := rq_source rq +:+ " retrieval failed: " +:+ err.

(** A batch accounts for the requests: what it holds was answered, every
    failure is there with a warning, and a source asked once that answered
    keeps its rows. *)
Record accounts (n : nat) (rqs : list request) (b : batch) : Prop := mkAccounts {
  acc_rows : forall x rows, In (x, rows) (batch_rows b) -> exists rq i, came_to n rqs rq i (Rows rows) /\ rq_source rq = x;
  acc_errors : forall x err, In (x, err) (batch_errors b) ->
    exists rq i out, came_to n rqs rq i out /\ rq_source rq = x /\ failure rq out = Some err;
  acc_answered : forall rq i rows, came_to n rqs rq i (Rows rows) ->
    (forall rq' j, nth_error rqs j = Some rq' -> rq_source rq' = rq_source rq -> j = i) -> In (rq_source rq, rows) (batch_rows b);
  acc_failed : forall rq i out err, came_to n rqs rq i out -> failure rq out = Some err ->
    In (warning_of rq err) (batch_warnings b) /\ In (rq_source rq) (map fst (batch_errors b)) }.

Lemma came_to_cons n rq0 rqs rq i out :
  came_to n (rq0 :: rqs) rq i out <->
    (i = O /\ rq = rq0 /\ fst (reply E n rq0) = out) \/ exists j, i = S j /\ came_to (S n) rqs rq j out.
Proof.
  unfold came_to. destruct i as [|i]; cbn.
  - rewrite Nat.add_0_r. split; [intros [[= <-] H]; by left|]. intros [(_ & -> & H)|(j & [=] & _)]. done.
  - replace (n + S i)%nat with (S n + i)%nat by lia. split; [intros H; right; eauto|]. intros [([=] & _)|(j & [= <-] & H)]. done.
Qed.

Lemma came_to_nil n rq i out : ~ came_to n [] rq i out.
Proof. intros [H _]. by destruct i. Qed.

Lemma answers_accounts rqs : forall n, accounts n rqs (answers n rqs).
Proof.
  induction rqs as [|rq0 rqs IH]; intros n.
  { split; cbn; try done; [intros rq i rows H|intros rq i out err H]; by apply came_to_nil in H. }
  destruct (IH (S n)) as [H1 H2 H3 H4]. cbn [answers].
  assert (forall rq i out, came_to (S n) rqs rq i out -> came_to n (rq0 :: rqs) rq (S i) out) as Hlift.
  { intros rq i out H. apply came_to_cons. right. eauto. }
  assert (forall rows rq i, came_to n (rq0 :: rqs) rq i (Rows rows) ->
    (forall rq' j, nth_error (rq0 :: rqs) j = Some rq' -> rq_source rq' = rq_source rq -> j = i) ->
    (rq = rq0 /\ fst (reply E n rq0) = Rows rows) \/ In (rq_source rq, rows) (batch_rows (answers (S n) rqs))) as Hans.
  { intros rows rq i [(-> & -> & H)|(j & -> & H)]%came_to_cons Hu; [by left|]. right. eapply H3; [exact H|].
    intros rq' k Hk Hs. specialize (Hu rq' (S k) Hk Hs). lia. }
  assert (came_to n (rq0 :: rqs) rq0 0 (fst (reply E n rq0))) as H0 by (apply came_to_cons; by left).
  assert (forall x rows, In (x, rows) (batch_rows (answers (S n) rqs)) ->
    exists rq i, came_to n (rq0 :: rqs) rq i (Rows rows) /\ rq_source rq = x) as Hrows.
  { intros x rows Hin. apply H1 in Hin as (rq & i & Hc & Hx). eauto. }
  assert (forall x err, In (x, err) (batch_errors (answers (S n) rqs)) ->
    exists rq i out, came_to n (rq0 :: rqs) rq i out /\ rq_source rq = x /\ failure rq out = Some err) as Herrs.
  { intros x err Hin. apply H2 in Hin as (rq & i & out & Hc & Hx & Hf). exists rq, (S i), out. auto. }
  destruct (failure rq0 (fst (reply E n rq0))) as [err0|] eqn:Ef.
  - assert (forall rows, fst (reply E n rq0) <> Rows rows) as Hno by (intros rows Hr; by rewrite Hr in Ef).
    assert (match fst (reply E n rq0) with
            | Rows rows => mkBatch ((rq_source rq0, rows) :: batch_rows (answers (S n) rqs)) (batch_errors (answers (S n) rqs)) (batch_warnings (answers (S n) rqs))
            | _ => mkBatch (batch_rows (answers (S n) rqs)) ((rq_source rq0, err0) :: batch_errors (answers (S n) rqs))
                     (warning_of rq0 err0 :: batch_warnings (answers (S n) rqs))
            end = mkBatch (batch_rows (answers (S n) rqs)) ((rq_source rq0, err0) :: batch_errors (answers (S n) rqs))
                     (warning_of rq0 err0 :: batch_warnings (answers (S n) rqs))) as Hb.
    { destruct (fst (reply E n rq0)) as [rows| |e]; [by destruct (Hno rows)|done|done]. }
    unfold warning_of in Hb. rewrite Hb. split; cbn [batch_rows batch_errors batch_warnings map In fst]; [done| | |].
    + intros x err [[= <- <-]|Hin]; [|auto]. exists rq0, 0%nat, (fst (reply E n rq0)). auto.
    + intros rq i rows Hc Hu. destruct (Hans rows rq i Hc Hu) as [[_ Hr]|?]; [by destruct (Hno rows)|done].
    + intros rq i out err [(-> & -> & <-)|(j & -> & Hc)]%came_to_cons Hf.
      * rewrite Ef in Hf. injection Hf as <-. split; by left.
      * destruct (H4 rq j out err Hc Hf). split; by right.
  - destruct (fst (reply E n rq0)) as [rows0| |e0] eqn:Er; try done.
    split; cbn [batch_rows batch_errors batch_warnings map In fst]; [|done| |].
    + intros x rows [[= <- <-]|Hin]; [eauto|auto].
    + intros rq i rows Hc Hu. destruct (Hans rows rq i Hc Hu) as [[-> [= ->]]|?]; auto.
    + intros rq i out err [(-> & -> & <-)|(j & -> & Hc)]%came_to_cons Hf; [by rewrite Er, Ef in Hf|]. by apply (H4 rq j out).
Qed.

(** ** Two batches *)

Lemma update_In {A} (d' d : list (string * A)) x : In x (update_all d' d) -> In x d' \/ In x d.
Proof.
  unfold update_all. revert d. induction d' as [|[k v] d' IH]; intros d; cbn; [by right|].
  intros [H|[->|H]%cset_In]%IH; tauto.
Qed.

Lemma cset_keeps {A} k (v : A) d k' v' : k' <> k -> In (k', v') d -> In (k', v') (cset k v d).
Proof.
  intros Hk. induction d as [|[k0 v0] d IH]; cbn; [done|]. intros [[= -> ->]|H].
  - destruct (k =s k') eqn:E0; [blift; congruence|by left].
  - destruct (k =s k0); [by right|]. right. auto.
Qed.

Lemma cset_has {A} k (v : A) d : In (k, v) (cset k v d).
Proof. apply clookup_In. by rewrite clookup_cset, String.eqb_refl. Qed.

Lemma update_has {A} (d' d : list (string * A)) k v :
  In (k, v) d' \/ In (k, v) d -> (forall v', In (k, v') d' -> v' = v) -> In (k, v) (update_all d' d).
Proof.
  unfold update_all. revert d. induction d' as [|[k0 v0] d' IH]; intros d H Hu; cbn; [naive_solver|].
  apply IH; [|intros v' Hv; apply Hu; by right]. cbn in H.
  destruct (String.string_dec k k0) as [->|Hk].
  - rewrite (Hu v0) by (by left). right. apply cset_has.
  - destruct H as [[[= -> ->]|H]|H]; [done|by left|right; by apply cset_keeps].
Qed.

Lemma update_key {A} (d' d : list (string * A)) k : In k (map fst d') \/ In k (map fst d) -> In k (map fst (update_all d' d)).
Proof.
  unfold update_all. revert d. induction d' as [|[k0 v0] d' IH]; intros d H; cbn; [naive_solver|].
  apply IH. cbn in H. rewrite cset_keys. destruct (mem_str k0 (map fst d)) eqn:Em; [apply mem_str_In in Em|].
  - destruct H as [[->|H]|H]; tauto.
  - rewrite in_app_iff. cbn. tauto.
Qed.

Lemma came_to_l n l1 l2 rq i out : came_to n l1 rq i out -> came_to n (l1 ++ l2) rq i out.
Proof. intros [H1 H2]. split; [|done]. rewrite nth_error_app1; [done|]. apply nth_error_Some. congruence. Qed.

Lemma came_to_r n l1 l2 rq i out : came_to (n + length l1) l2 rq i out -> came_to n (l1 ++ l2) rq (length l1 + i) out.
Proof.
  intros [H1 H2]. split; [rewrite nth_error_app2 by lia; by replace (length l1 + i - length l1)%nat with i by lia|].
  by replace (n + (length l1 + i))%nat with (n + length l1 + i)%nat by lia.
Qed.

Lemma came_to_app n l1 l2 rq i out : came_to n (l1 ++ l2) rq i out ->
  came_to n l1 rq i out \/ exists j, i = (length l1 + j)%nat /\ came_to (n + length l1) l2 rq j out.
Proof.
  intros [H1 H2]. destruct (Nat.lt_ge_cases i (length l1)) as [Hl|Hl].
  - left. split; [|done]. by rewrite nth_error_app1 in H1.
  - right. exists (i - length l1)%nat. split; [lia|]. rewrite nth_error_app2 in H1 by lia. split; [done|].
    by replace (n + length l1 + (i - length l1))%nat with (n + i)%nat by lia.
Qed.

Lemma accounts_app n l1 l2 b1 b2 : accounts n l1 b1 -> accounts (n + length l1) l2 b2 -> accounts n (l1 ++ l2) (add_batch b1 b2).
Proof.
  intros [A1 A2 A3 A4] [B1 B2 B3 B4]. split; cbn [add_batch batch_rows batch_errors batch_warnings].
  - intros x rows [H|H]%update_In.
    + apply B1 in H as (rq & i & Hc & Hx). eauto using came_to_r.
    + apply A1 in H as (rq & i & Hc & Hx). eauto using came_to_l.
  - intros x err [H|H]%update_In.
    + apply B2 in H as (rq & i & out & Hc & Hx & Hf). eauto 7 using came_to_r.
    + apply A2 in H as (rq & i & out & Hc & Hx & Hf). eauto 7 using came_to_l.
  - intros rq i rows Hc Hu. apply update_has.
    + apply came_to_app in Hc as [Hc|(j & -> & Hc)]; [right|left].
      * eapply A3; [exact Hc|]. intros rq' k Hk Hs. apply (Hu rq'); [|done]. rewrite nth_error_app1; [done|]. apply nth_error_Some. congruence.
      * eapply B3; [exact Hc|]. intros rq' k Hk Hs. enough (length l1 + k = length l1 + j)%nat by lia. apply (Hu rq'); [|done].
        rewrite nth_error_app2 by lia. by replace (length l1 + k - length l1)%nat with k by lia.
    + intros rows' Hin. apply B1 in Hin as (rq' & k & Hk & Hs). apply came_to_r in Hk.
      pose proof (Hu rq' _ (proj1 Hk) Hs) as <-. destruct Hc as [Hc1 Hc2], Hk as [Hk1 Hk2]. rewrite Hc1 in Hk1. injection Hk1 as <-.
      rewrite Hc2 in Hk2. by injection Hk2.
  - intros rq i out err Hc Hf. apply came_to_app in Hc as [Hc|(j & -> & Hc)].
    + destruct (A4 rq i out err Hc Hf) as [Hw He]. split; [apply in_app_iff; by left|]. apply update_key. by right.
    + destruct (B4 rq j out err Hc Hf) as [Hw He]. split; [apply in_app_iff; by right|]. apply update_key. by left.
Qed.

Lemma accounts_empty n : accounts n [] empty_batch.
Proof. apply (answers_accounts []). Qed.

Lemma accounts_first n rqs b : accounts n rqs b -> accounts n rqs (add_batch empty_batch b).
Proof. intros H. apply (accounts_app n [] rqs); [apply accounts_empty|by rewrite Nat.add_0_r]. Qed.

(** ** Ranking *)

(** [l] is the merge of [results], best first. *)
Definition ranked (a : search_args) (p : plan) (results : list (string * list row)) (l : list merged_row) : Prop :=
  StronglySorted (fun x y => ranks_before x y = true) l /\
  exists multipliers life now n,
    Permutation l (map snd (fst (_merge_federated_rows (RC E) (LC E) (half_decay E) (log1p E) (sha1 E) (uuid_hex E)
      (fst (p_terms p)) (snd (p_terms p)) (p_learning p) (query a) (p_weights p) multipliers life now results n))).

Lemma merge_and_sort_sends a p life of_sources results s : exists s' l q,
  merge_and_sort E a (p_weights p) (p_terms p) (p_learning p) life of_sources results s = (s', Ok (l, q)) /\
  sends [] s s' /\ ranked a p results l.
Proof.
  unfold merge_and_sort, st_bind, st_get. destruct (_retrieval_source_quality_snapshot _ _ _) as [quality multipliers].
  destruct (monotonic_sends s) as (s1 & Hm & Hs & Hu). rewrite Hm.
  destruct (_merge_federated_rows _ _ _ _ _ _ _ _ _ _ _ _ _ _ _ _) as [merged n] eqn:Em. cbn.
  do 3 eexists. split; [reflexivity|]. split; [destruct Hs; by split|]. split.
  - apply sort_by_sorted; [apply ranks_total|apply ranks_trans].
  - exists multipliers, life, (monotonic E (ticks s)), (uuids s1). rewrite Em. apply sort_by_perm.
Qed.

(** ** Plans *)

Definition template_ok (t : template) : Prop := sources_ok (staged_fast_sources t) /\ sources_ok (staged_slow_sources t).

(** Templates in the cache only name known sources. *)
Definition templates_ok s : Prop := forall k e t, In (k, (e, t)) (entries (templates s)) -> template_ok t.

Lemma built_template_ok mode l : sources_ok l -> template_ok (build_template (G E) mode l).
Proof.
  intros Hl. split; intros x Hx; cbn in Hx.
  - apply stage_fast_In in Hx as [[Hx _]%filter_In|[Hx _]]; [by apply (fast_sources_ok (G E))|auto].
  - apply filter_In in Hx as [Hx _]. auto.
Qed.

Lemma In_move_to_end {A} k (d : list (string * A)) x : In x (move_to_end k d) -> In x d.
Proof.
  unfold move_to_end. destruct (clookup k d) as [v|] eqn:El; [|done]. intros [H|[<-|[]]]%in_app_iff.
  - by apply filter_In in H as [H _].
  - by apply clookup_In.
Qed.

Lemma In_evict {A} fuel max_keys (d : list (string * A)) x : In x (fst (evict fuel max_keys d)) -> In x d.
Proof.
  revert d. induction fuel as [|fuel IH]; intros d; [done|]. destruct d as [|y d]; [done|]. cbn [evict]. destruct (_ <=? _); [done|].
  destruct (evict fuel max_keys d) as [d' n] eqn:Ee. cbn. intros H. right. apply IH. by rewrite Ee.
Qed.

Lemma In_store {A} max_keys k (v : A) c x : In x (entries (store max_keys k v c)) -> x = (k, v) \/ In x (entries c).
Proof.
  rewrite store_entries. unfold put_bounded, put. intros H%In_evict%In_move_to_end. by apply cset_In in H.
Qed.

Lemma get_template_ok now mode l s c t hit : sources_ok l -> templates_ok s ->
  _get_retrieval_template (G E) (repr_float E) (sha1 E) (TL E) now mode l (templates s) = (c, (t, hit)) ->
  template_ok t /\ forall k e t', In (k, (e, t')) (entries c) -> template_ok t'.
Proof.
  intros Hl Hs. unfold _get_retrieval_template, _retrieval_template_cache_get, _retrieval_template_cache_set.
  set (key := _retrieval_template_cache_key _ _ _ _ _).
  assert (forall x, In x (entries (fst (ttl_get (TL E) now key (templates s)))) -> In x (entries (templates s))) as Hin.
  { unfold ttl_get. intros x. repeat dmatch; cbn; try done; [intros H; by apply filter_In in H as [H _]|apply In_move_to_end]. }
  destruct (ttl_get (TL E) now key (templates s)) as [c0 [t0|]] eqn:Eg; cbn in *; intros [= <- <- <-].
  - split; [|intros k e t' H; eapply Hs; by apply Hin]. revert Eg. unfold ttl_get.
    destruct (cache_off _); [by intros [=]|]. destruct (clookup key _) as [[e v]|] eqn:El; [|by intros [=]].
    destruct (e <=? now); [by intros [=]|]. intros [= _ <-]. apply clookup_In in El. by apply Hs in El.
  - split; [by apply built_template_ok|]. intros k e t' H. unfold ttl_set in H. destruct (cache_off _); [eapply Hs; by apply Hin|].
    apply In_store in H as [[= _ _ ->]|H]; [by apply built_template_ok|]. eapply Hs. by apply Hin.
Qed.

(** What the plan of a search is, apart from the state. *)
Record plans (a : search_args) (p : plan) : Prop := mkPlans {
  plan_mode : p_mode p = _normalize_retrieval_mode (G E) (retrieval_mode a);
  plan_sources : p_sources p = _resolve_retrieval_sources_for_mode (G E) (p_mode p) (sources a);
  plan_weights : p_weights p = _normalize_retrieval_weights (source_weights a);
  plan_terms : p_terms p = _extract_learning_terms (preferences a);
  plan_learning : p_learning p = rerank_with_learning a && RETRIEVAL_ENABLE_LEARNING_RERANK (G E)
             && negb (Nat.eqb (length (fst (p_terms p))) 0 && Nat.eqb (length (snd (p_terms p))) 0);
  plan_template : template_ok (p_template p) }.

Lemma plan_search_ok a s : templates_ok s -> exists s' p,
  plan_search E a s = (s', Ok p) /\ plans a p /\ templates_ok s' /\ asked s' = asked s /\ pathway s' = pathway s /\
  (latency_reachable (G E) (latency s) -> latency_reachable (G E) (latency s')).
Proof.
  intros Ht. unfold plan_search. set (mode := _normalize_retrieval_mode _ _).
  set (resolved := _resolve_retrieval_sources_for_mode _ _ _). set (explicit := match sources a with [] => _ | _ => _ end).
  destruct (resolved_sources_ok (G E) mode (sources a)) as [Hok _]. fold resolved in Hok.
  destruct (monotonic_sends s) as (s1 & Hm1 & Hs1 & _). unfold st_bind at 1. rewrite Hm1. unfold st_bind at 1, st_get.
  destruct (_get_retrieval_template _ _ _ _ _ _ _ _) as [c [t hit]] eqn:Eg.
  assert (templates_ok s1) as Ht1 by (intros k e t'; rewrite (sends_templates _ _ _ Hs1); apply Ht).
  destruct (get_template_ok _ _ _ s1 _ _ _ Hok Ht1 Eg) as [Hto Htc]. unfold st_bind at 1, st_put.
  set (s2 := set_templates c s1). destruct (monotonic_sends s2) as (s3 & Hm3 & Hs3 & _). unfold st_bind at 1. rewrite Hm3.
  unfold st_bind at 1, st_get. 
  pose proof (reach_policy (G E) (monotonic E (ticks s2)) resolved explicit (latency s3)) as Hreach.
  destruct (_retrieval_slow_source_runtime_policy _ _ _ _ _) as [lat policy]. unfold st_bind, st_put, st_ret.
  do 2 eexists. split; [reflexivity|]. split; [by split|]. split; [|split; [|split]].
  - intros k e t'. cbn. rewrite (sends_templates _ _ _ Hs3). apply Htc.
  - cbn. rewrite (sends_asked _ _ _ Hs3). apply (sends_asked _ _ _ Hs1).
  - cbn. rewrite (sends_pathway _ _ _ Hs3). apply (sends_pathway _ _ _ Hs1).
  - intros Hr. cbn in *. apply Hreach. apply (sends_latency _ _ _ Hs3), (sends_latency _ _ _ Hs1), Hr.
Qed.

Lemma same_key a p p' : plans a p -> plans a p' -> pathway_key E a p = pathway_key E a p'.
Proof.
  intros [A1 A2 A3 A4 A5 _] [B1 B2 B3 B4 B5 _]. unfold pathway_key.
  rewrite A5, B5, A4, B4, A3, B3, A2, B2, A1, B1. done.
Qed.

(** ** Asking *)

(** The fast sources gave enough: rows, top score and number of sources. *)
Definition enough (a : search_args) (p : plan) : Prop :=
  exists rows l, ranked a p rows l /\ skip_slow E a p rows l = true.

(** Which sources the requests go to; slow ones are left out only when the
    caller did not choose the sources and the fast ones gave enough. *)
Definition covers (a : search_args) (p : plan) (rqs : list request) (skipped : list string) : Prop :=
  let t := p_template p in
  (skipped = [] /\ map rq_source rqs =
     if staged_fetch_used t then staged_fast_sources t ++ staged_slow_sources t else p_sources p) \/
  (skipped = staged_slow_sources t /\ map rq_source rqs = staged_fast_sources t /\
   staged_fetch_used t = true /\ p_explicit p = false /\ p_force_slow p = false /\ enough a p).

Lemma skip_not_forced a p rows l : skip_slow E a p rows l = true -> p_force_slow p = false.
Proof. unfold skip_slow. cbn zeta. by destruct (p_force_slow p). Qed.

Lemma sends_length rqs s s' : sends rqs s s' -> length (asked s') = (length (asked s) + length rqs)%nat.
Proof. intros H. rewrite (sends_asked _ _ _ H), length_app, length_rev. lia. Qed.

Lemma fetch_sends a p life s : template_ok (p_template p) -> sources_ok (p_sources p) -> exists s' rqs b skipped,
  fetch E a p life s = (s', Ok (b, skipped)) /\ sends rqs s s' /\ accounts (length (asked s)) rqs b /\
  List.Forall (asks a) rqs /\ covers a p rqs skipped.
Proof.
  intros [Hf Hsl] Hp. unfold fetch, covers. destruct (staged_fetch_used (p_template p)) eqn:Es.
  - destruct (run_batch_sends a (p_mode p) (p_source_limit p) (p_timeouts p) _ s Hf) as (s1 & l1 & Hr1 & Hs1 & Hm1 & Ha1).
    unfold st_bind at 1. rewrite Hr1. set (b1 := answers _ l1) in *.
    pose proof (answers_accounts l1 (length (asked s))) as Hb1. fold b1 in Hb1.
    destruct (merge_and_sort_sends a p life (keys_or (batch_rows b1) (staged_fast_sources (p_template p))) (batch_rows b1) s1)
      as (s2 & fm & q & Hm & Hs2 & Hrank). unfold st_bind at 1. rewrite Hm. cbn [fst].
    pose proof (sends_app _ _ _ _ _ Hs1 Hs2) as Hs12. rewrite app_nil_r in Hs12.
    destruct (skip_slow E a p (batch_rows b1) fm && negb (p_explicit p)) eqn:Esk.
    + apply andb_true_iff in Esk as [Esk Ex]. apply negb_true_iff in Ex.
      exists s2, l1, (add_batch empty_batch b1), (staged_slow_sources (p_template p)). split; [done|]. split; [done|].
      split; [by apply accounts_first|]. split; [done|]. right. pose proof (skip_not_forced _ _ _ _ Esk).
      repeat split; try done. by exists (batch_rows b1), fm.
    + destruct (run_batch_sends a (p_mode p) (p_source_limit p) (p_timeouts p) _ s2 Hsl) as (s3 & l2 & Hr2 & Hs3 & Hm2 & Ha2).
      unfold st_bind. rewrite Hr2. exists s3, (l1 ++ l2), (add_batch (add_batch empty_batch b1) (answers (length (asked s2)) l2)), [].
      split; [done|]. split; [by eapply sends_app|]. split; [|split; [by apply List.Forall_app|left; by rewrite map_app, Hm1, Hm2]].
      apply accounts_app; [by apply accounts_first|]. rewrite <- (sends_length _ _ _ Hs12). apply answers_accounts.
  - destruct (run_batch_sends a (p_mode p) (p_source_limit p) (p_timeouts p) _ s Hp) as (s1 & l1 & Hr1 & Hs1 & Hm1 & Ha1).
    unfold st_bind. rewrite Hr1. exists s1, l1, (add_batch empty_batch (answers (length (asked s)) l1)), [].
    split; [done|]. split; [done|]. split; [apply accounts_first, answers_accounts|]. split; [done|]. by left.
Qed.

(** The cache of the answers after a search. *)
Definition kept (key : string) (out : bundle) (c c' : pathway_cache) : Prop :=
  exists n, c' = _retrieval_pathway_cache_set (PL E) (orjson E) (compress E) (RETRIEVAL_PATHWAY_REDIS_COMPRESS E)
    (backend_enabled E) (RETRIEVAL_PATHWAY_REDIS_PREFIX E) (monotonic E n) (redis_fault E n) key out c.

(** An answer made of the answers of the sources. *)
Record fresh_answer (a : search_args) (p : plan) (n : nat) (rqs : list request) (out : bundle) : Prop := mkFresh {
  fresh_asks : List.Forall (asks a) rqs;
  fresh_covers : exists skipped, covers a p rqs skipped;
  fresh_result : exists b merged, accounts n rqs b /\ ranked a p (batch_rows b) merged /\
    results out = map (merged_json E) (upto (limit a) merged) /\ bundle_warnings out = batch_warnings b;
  fresh_mode : dget (retrieval_debug out) "retrieval_mode" = JStr (p_mode p) }.

Lemma search_sources_ok a p key s : template_ok (p_template p) -> sources_ok (p_sources p) -> exists s' rqs out,
  search_sources E a p key s = (s', Ok out) /\ asked s' = rev rqs ++ asked s /\ templates s' = templates s /\
  fresh_answer a p (length (asked s)) rqs out /\ kept key out (pathway s) (pathway s') /\
  (latency_reachable (G E) (latency s) -> latency_reachable (G E) (latency s')).
Proof.
  intros Ht Hp. unfold search_sources. destruct (monotonic_sends s) as (s1 & Hm & Hs1 & _). unfold st_bind at 1. rewrite Hm.
  unfold st_bind at 1, st_get. destruct (_retrieval_lifecycle_snapshot _ _ _) as [d life]. unfold st_bind at 1, st_modify.
  set (s2 := set_life d (uuids s1) s1). assert (asked s2 = asked s) as Ha2 by apply (sends_asked _ _ _ Hs1).
  destruct (fetch_sends a p life s2 Ht Hp) as (s3 & rqs & b & skipped & Hf & Hs3 & Hacc & Hq & Hcov).
  unfold st_bind at 1. rewrite Hf. unfold st_bind at 1.
  destruct (merge_and_sort_sends a p life (keys_or (batch_rows b) (p_sources p)) (batch_rows b) s3)
    as (s4 & merged & quality & Hms & Hs4 & Hrank). rewrite Hms.
  set (debug := debug_json _ _ _ _ _ _). set (final := map (merged_json E) (upto (limit a) merged)).
  destruct (monotonic_sends s4) as (s5 & Hm5 & Hs5 & _). unfold st_bind at 1. rewrite Hm5.
  destruct (utc_sends s5) as (s6 & iso & Hm6 & Hs6). unfold st_bind at 1. rewrite Hm6. unfold st_bind at 1, st_modify.
  destruct (_record_retrieval_lifecycle_observation _ _ _ _ _ _ _ _ _) as [d' n']. unfold st_bind at 1.
  destruct (tick_sends (set_life d' n' s6)) as (s7 & Hm7 & Hs7 & _). rewrite Hm7. unfold st_bind at 1.
  pose proof (sends_app _ _ _ _ _ (sends_app _ _ _ _ _ (sends_app _ _ _ _ _ Hs3 Hs4) Hs5) Hs6) as H26. rewrite !app_nil_r in H26.
  assert (asked s7 = rev rqs ++ asked s) as Ha7.
  { rewrite (sends_asked _ _ _ Hs7). cbn. rewrite (sends_asked _ _ _ H26). by rewrite Ha2. }
  assert (templates s7 = templates s) as Ht7.
  { rewrite (sends_templates _ _ _ Hs7). cbn. rewrite (sends_templates _ _ _ H26). apply (sends_templates _ _ _ Hs1). }
  assert (pathway s7 = pathway s) as Hp7.
  { rewrite (sends_pathway _ _ _ Hs7). cbn. rewrite (sends_pathway _ _ _ H26). apply (sends_pathway _ _ _ Hs1). }
  assert (latency_reachable (G E) (latency s) -> latency_reachable (G E) (latency s7)) as Hl7.
  { intros Hl. apply (sends_latency _ _ _ Hs7). apply (sends_latency _ _ _ H26). by apply (sends_latency _ _ _ Hs1). }
  set (out := mkBundle final debug (batch_warnings b)). set (s8 := set_pathway _ s7).
  assert (exists s9, observe_pathway E a p s8 = (s9, Ok tt) /\ asked s9 = asked s8 /\ templates s9 = templates s8 /\
            pathway s9 = pathway s8 /\ latency s9 = latency s8) as (s9 & Ho & Ha9 & Ht9 & Hp9 & Hl9).
  { unfold observe_pathway, st_bind, st_ret. destruct (record_pathway_usage a); [|by exists s8]. eexists. by repeat split. }
  unfold st_bind. rewrite Ho. exists s9, rqs, out. rewrite Ha9, Ht9, Hp9, Hl9. cbn. rewrite Ha7, Ht7, Hp7.
  split; [done|]. split; [done|]. split; [done|]. split; [|split; [by eexists|done]].
  rewrite Ha2 in Hacc. split; [done|by exists skipped| |done]. by exists b, merged.
Qed.

(** ** Searches *)

Lemma resolved_ok a p : plans a p -> sources_ok (p_sources p).
Proof. intros Hp. rewrite (plan_sources _ _ Hp). apply resolved_sources_ok. Qed.

(** The cache holds an answer [b] under [key] that is not expired at reading
    [n] of the clock: in memory, or in the backend, which answers. *)
Definition cached_for (key : string) (n : nat) (c : pathway_cache) (b : bundle) : Prop :=
  cache_off (PL E) = false /\
  ((exists expires_at kept_b, clookup key (entries (memory c)) = Some (expires_at, kept_b) /\
      monotonic E n < expires_at /\ b = clone_bundle kept_b) \/
   (backend_enabled E = true /\ redis_fault E n = None /\
    exists expires_at blob, clookup (_retrieval_pathway_redis_key (RETRIEVAL_PATHWAY_REDIS_PREFIX E) key) (redis c) = Some (expires_at, blob) /\
      monotonic E n < expires_at /\ _deserialize_retrieval_pathway_bundle (orjson E) (decompress E) blob = Some b)).

Lemma cache_get_cached n key c c' b :
  _retrieval_pathway_cache_get (PL E) (orjson E) (decompress E) (backend_enabled E) (RETRIEVAL_PATHWAY_REDIS_PREFIX E)
    (monotonic E n) (redis_fault E n) key c = (c', Some b) -> cached_for key n c b.
Proof.
  unfold _retrieval_pathway_cache_get, cached_for. destruct (cache_off (PL E)); [done|].
  assert (forall c0 c1, redis c0 = redis c ->
    _retrieval_pathway_cache_backend_get (orjson E) (decompress E) (backend_enabled E) (RETRIEVAL_PATHWAY_REDIS_PREFIX E)
      (monotonic E n) (redis_fault E n) key c0 = (c1, Some b) ->
    backend_enabled E = true /\ redis_fault E n = None /\
    exists expires_at blob, clookup (_retrieval_pathway_redis_key (RETRIEVAL_PATHWAY_REDIS_PREFIX E) key) (redis c) = Some (expires_at, blob) /\
      monotonic E n < expires_at /\ _deserialize_retrieval_pathway_bundle (orjson E) (decompress E) blob = Some b) as Hb.
  { intros c0 c1 Hr. unfold _retrieval_pathway_cache_backend_get. rewrite Hr. destruct (backend_enabled E); [|done]. cbn [negb].
    destruct (redis_fault E n); [done|]. destruct (clookup _ (redis c)) as [[t blob]|]; [|done].
    destruct (t <=? monotonic E n) eqn:Et; [done|]. blift.
    destruct (_deserialize_retrieval_pathway_bundle _ _ blob) as [b'|] eqn:Eb; [|by intros [=]]. intros [= _ ->].
    do 2 (split; [done|]). by exists t, blob. }
  intros H. split; [done|].
  destruct (clookup key (entries (memory c))) as [[t b0]|].
  1: destruct (t <=? monotonic E n) eqn:Et; [|blift; injection H as _ <-; left; by exists t, b0].
  all: right; destruct (_retrieval_pathway_cache_backend_get _ _ _ _ _ _ _ _) as [c1 [b1|]] eqn:Eb; [|done];
    destruct (put_bounded _ _ _ _) in H; injection H as _ <-; by eapply Hb; [|exact Eb].
Qed.

(** A search answers from the cache and asks nobody, or asks the sources. *)
Lemma search_ok a s : templates_ok s -> exists s' out p,
  federated_search_memory E a s = (s', Ok out) /\ templates_ok s' /\ plans a p /\
  (latency_reachable (G E) (latency s) -> latency_reachable (G E) (latency s')) /\
  ((asked s' = asked s /\ exists n b, cached_for (pathway_key E a p) n (pathway s) b /\ out = cached_answer a p b) \/
   exists rqs c, asked s' = rev rqs ++ asked s /\ fresh_answer a p (length (asked s)) rqs out /\
     kept (pathway_key E a p) out c (pathway s')).
Proof.
  intros Ht. unfold federated_search_memory. destruct (plan_search_ok a s Ht) as (s1 & p & Hp & Hpl & Ht1 & Ha1 & Hp1 & Hl1).
  unfold st_bind at 1. rewrite Hp. destruct (tick_sends s1) as (s2 & Hm & Hs2 & _). unfold st_bind at 1. rewrite Hm.
  unfold st_bind at 1, st_get. destruct (_retrieval_pathway_cache_get _ _ _ _ _ _ _ _ _) as [c cached] eqn:Eg.
  rewrite (sends_pathway _ _ _ Hs2), Hp1 in Eg. unfold st_bind at 1, st_put. set (s3 := set_pathway c s2).
  assert (asked s3 = asked s) as Ha3 by (cbn; by rewrite (sends_asked _ _ _ Hs2)).
  assert (templates_ok s3) as Ht3 by (intros k e t; cbn; rewrite (sends_templates _ _ _ Hs2); apply Ht1).
  assert (latency_reachable (G E) (latency s) -> latency_reachable (G E) (latency s3)) as Hl3.
  { intros Hl. by apply (sends_latency _ _ _ Hs2), Hl1. }
  destruct cached as [b|].
  - assert (exists s4, observe_pathway E a p s3 = (s4, Ok tt) /\ asked s4 = asked s3 /\ templates s4 = templates s3 /\
              latency s4 = latency s3) as (s4 & Ho & Ha4 & Ht4 & Hl4).
    { unfold observe_pathway, st_bind, st_ret. destruct (record_pathway_usage a); [|by exists s3]. eexists. by repeat split. }
    unfold st_bind. rewrite Ho. exists s4, (cached_answer a p b), p. split; [done|]. rewrite Ha4, Hl4.
    split; [intros k e t; rewrite Ht4; apply Ht3|]. split; [done|]. split; [done|]. left. split; [done|].
    apply cache_get_cached in Eg. by eexists _, b.
  - destruct (search_sources_ok a p (pathway_key E a p) s3 (plan_template _ _ Hpl) (resolved_ok a p Hpl))
      as (s4 & rqs & out & Hs & Ha4 & Ht4 & Hfr & Hk & Hl4).
    rewrite Hs. exists s4, out, p. split; [done|]. split; [intros k e t; rewrite Ht4; apply Ht3|]. split; [done|].
    split; [auto|]. right. exists rqs, (pathway s3). rewrite Ha3 in Ha4, Hfr. by split.
Qed.

(** An answer, cached or not, names the mode of its search. *)
Lemma search_mode_used a s s' out : templates_ok s -> federated_search_memory E a s = (s', Ok out) ->
  dget (retrieval_debug out) "retrieval_mode" = JStr (_normalize_retrieval_mode (G E) (retrieval_mode a)).
Proof.
  intros Ht Hs. destruct (search_ok a s Ht) as (s1 & out1 & p & Hs1 & _ & Hpl & _ & Hcase). rewrite Hs in Hs1. injection Hs1 as _ <-.
  rewrite <- (plan_mode _ _ Hpl). destruct Hcase as [(_ & n & b & _ & ->)|(rqs & c & _ & Hf & _)]; [|apply (fresh_mode _ _ _ _ _ Hf)].
  cbn [cached_answer retrieval_debug]. apply dget_dset_eq.
Qed.
End facts.


(** The results of a search that asked its sources are the best of all
    that was answered: they are in descending order of score, as many as the
    limit allows, and every row of a source that was asked once and answered
    is represented by a merged row that names the source and scores at least as
    well (before the bonus for agreement), which is among the results or ranks
    after all of them. *)
Theorem search_results_ranked E a s s' out : templates_ok s -> federated_search_memory E a s = (s', Ok out) ->
  asked s' <> asked s -> 0 <= limit a ->
  exists rqs merged p ms lc now, asked s' = rev rqs ++ asked s /\ plans E a p /\
  StronglySorted (fun x y => ranks_before x y = true) merged /\
  results out = map (merged_json E) (firstn (Z.to_nat (limit a)) merged) /\
  (forall rq i rows r, came_to E (length (asked s)) rqs rq i (Rows rows) ->
     (forall rq' j, nth_error rqs j = Some rq' -> rq_source rq' = rq_source rq -> j = i) -> In r rows ->
     exists k m, In m merged /\ In (source_label (rq_source rq)) (m_sources m) /\
       same_record (sha1 E) (uuid_hex E) (m_fields m) (fields r) /\
       (rnd 6 (composite_score (RC E) (LC E) (half_decay E) (log1p E) (fst (p_terms p)) (snd (p_terms p)) (p_learning p) (query a)
                 (p_weights p) ms lc now (rq_source rq) k r) <= pre_consensus_score m)%Q /\
       (In m (firstn (Z.to_nat (limit a)) merged) \/
        forall x, In x (firstn (Z.to_nat (limit a)) merged) -> ranks_before x m = true)).
Proof.
  intros Ht Hs Hne Hl. destruct (search_ok E a s Ht) as (s1 & out1 & p & Hs1 & _ & Hpl & _ & Hcase). rewrite Hs in Hs1. injection Hs1 as <- <-.
  destruct Hcase as [[Hc _]|(rqs & c & Ha & Hf & _)]; [done|].
  destruct Hf as [_ _ (b & merged & Hacc & [Hsort (ms & lc & now & n & Hperm)] & Hres & _) _].
  exists rqs, merged, p, ms, lc, now. split; [done|]. split; [done|]. split; [done|]. split.
  - rewrite Hres. unfold upto. by destruct (limit a <? 0) eqn:En; [blift; lia|].
  - intros rq i rows r Hc Hu Hr. pose proof (acc_answered _ _ _ _ Hacc rq i rows Hc Hu) as Hin.
    destruct (merged_for (RC E) (LC E) (half_decay E) (log1p E) (sha1 E) (uuid_hex E) (fst (p_terms p)) (snd (p_terms p)) (p_learning p)
      (query a) (p_weights p) ms lc now (batch_rows b) n _ _ r Hin Hr) as (k & m & Hm & H1 & H2 & H3).
    assert (In m merged) as Him. { eapply Permutation_in; [symmetry; exact Hperm|]. by apply (in_map snd) in Hm. }
    exists k, m. split; [done|]. split; [done|]. split; [done|]. split; [done|].
    rewrite <- (firstn_skipn (Z.to_nat (limit a)) merged) in Him. apply in_app_iff in Him as [Him|Him]; [by left|right].
    intros x Hx. by apply (sorted_firstn_skipn ranks_before (Z.to_nat (limit a)) merged).
Qed.

(** ** Repeated searches *)

Section repeated.
Variable E : search_env.
Hypothesis on : cache_off (PL E) = false.

(** A search whose answer is in memory is answered from there. *)
Lemma search_hit a s p expires_at b : templates_ok s -> plans E a p ->
  clookup (pathway_key E a p) (entries (memory (pathway s))) = Some (expires_at, b) ->
  (forall i, monotonic E i < expires_at) ->
  exists s' p', federated_search_memory E a s = (s', Ok (cached_answer a p' (clone_bundle b))) /\ asked s' = asked s.
Proof.
  intros Ht Hpl Hl Hnow. unfold federated_search_memory.
  destruct (plan_search_ok E a s Ht) as (s1 & p' & Hp & Hpl' & Ht1 & Ha1 & Hp1 & _). unfold st_bind at 1. rewrite Hp.
  destruct (tick_sends E s1) as (s2 & Hm & Hs2 & _). unfold st_bind at 1. rewrite Hm. unfold st_bind at 1, st_get.
  unfold _retrieval_pathway_cache_get. rewrite on, (sends_pathway _ _ _ _ Hs2), Hp1, (same_key E a p' p Hpl' Hpl), Hl.
  rewrite (proj2 (Z.leb_gt _ _) (Hnow _)). unfold st_bind at 1, st_put. set (s3 := set_pathway _ s2).
  assert (exists s4, observe_pathway E a p' s3 = (s4, Ok tt) /\ asked s4 = asked s3) as (s4 & Ho & Ha4).
  { unfold observe_pathway, st_bind, st_ret. destruct (record_pathway_usage a); [|by exists s3]. eexists. by repeat split. }
  unfold st_bind. rewrite Ho. exists s4, p'. split; [done|]. rewrite Ha4. cbn. rewrite (sends_asked _ _ _ _ Hs2). done.
Qed.

Lemma kept_in_memory key out c c' : kept E key out c c' -> bundle_wf out ->
  exists n, clookup key (entries (memory c')) = Some (monotonic E n + ttl (PL E), out).
Proof.
  intros [n ->] Hwf. exists n. unfold _retrieval_pathway_cache_set. rewrite on.
  assert (forall c0, memory (_retrieval_pathway_cache_backend_set (PL E) (orjson E) (compress E) (RETRIEVAL_PATHWAY_REDIS_COMPRESS E)
    (backend_enabled E) (RETRIEVAL_PATHWAY_REDIS_PREFIX E) (monotonic E n) (redis_fault E n) key (clone_bundle out) c0) = memory c0) as ->.
  { intros c0. unfold _retrieval_pathway_cache_backend_set. by repeat dmatch. }
  cbn [memory set_memory]. rewrite store_entries, clone_bundle_wf by done.
  eapply recent_lookup, recent_put_bounded_same. by destruct (cache_on (PL E) on).
Qed.
End repeated.

(** A search that asked its sources and is repeated while its answer has
    not expired gives the same results and warnings, and no source is asked
    again. *)
Theorem repeated_search_is_cached E a s s1 out : templates_ok s -> federated_search_memory E a s = (s1, Ok out) ->
  asked s1 <> asked s -> cache_off (PL E) = false -> (forall i j, monotonic E j < monotonic E i + ttl (PL E)) ->
  bundle_wf out -> 0 <= limit a ->
  exists s2 out2, federated_search_memory E a s1 = (s2, Ok out2) /\ asked s2 = asked s1 /\
    results out2 = results out /\ bundle_warnings out2 = bundle_warnings out.
Proof.
  intros Ht Hs Hne Hon Hclock Hwf Hl.
  destruct (search_ok E a s Ht) as (s1' & out' & p & Hs1 & Ht1 & Hpl & _ & Hcase). rewrite Hs in Hs1. injection Hs1 as <- <-.
  destruct Hcase as [[Hc _]|(rqs & c & Ha & Hf & Hk)]; [done|].
  destruct (kept_in_memory E Hon _ _ _ _ Hk Hwf) as [n Hlook].
  destruct (search_hit E Hon a s1 p _ _ Ht1 Hpl Hlook (fun i => Hclock n i)) as (s2 & p' & H2 & Ha2).
  rewrite clone_bundle_wf in H2 by done. exists s2, (cached_answer a p' out). split; [done|]. split; [done|].
  split; [|done]. cbn. destruct Hf as [_ _ (b & merged & _ & _ & Hres & _) _].
  assert (length (results out) <= Z.to_nat (limit a))%nat as Hlen.
  { rewrite Hres, length_map, upto_length by done. lia. }
  unfold upto. destruct (limit a <? 0) eqn:En; [blift; lia|]. by apply firstn_all2.
Qed.

(** ** Checking that a value is well formed *)

Definition decimalb (s : string) : bool :=
  let '(a, rest) := span_digits (if startswith s "-" then drop 1 s else s) in
  ((a =s "0") || (truthy a && negb (startswith a "0"))) && all_digits a &&
  match rest with String c d => Ascii.eqb c "." && all_digits d && truthy d | _ => false end
  && (s =s (if startswith s "-" then "-" else "") +:+ a +:+ rest +:+ "").

Lemma decimalb_float s : decimalb s = true -> float_text s.
Proof.
  unfold decimalb. destruct (span_digits _) as [a rest]. intros H. apply andb_true_iff in H as [H Hs%String.eqb_eq].
  apply andb_true_iff in H as [H Hr]. apply andb_true_iff in H as [H Ha]. rewrite Hs. apply float_num.
  - destruct (startswith s "-"); cbn; tauto.
  - apply orb_true_iff in H as [H%String.eqb_eq|[H1 H2]%andb_true_iff]; [by left|right]. split; [done|].
    destruct a as [|c a]; [done|]. exists c, a. split; [done|]. intros ->. revert H2. cbn. by destruct a.
  - right. destruct rest as [|c d]; [done|].
    apply andb_true_iff in Hr as [[->%Ascii.eqb_eq Hd]%andb_true_iff Ht]. by exists d.
  - by left.
  - destruct rest as [|c d]; [done|]. done.
Qed.

Fixpoint json_wfb (j : json) : bool :=
  match j with
  | JFloat r => decimalb r
  | JList l => forallb json_wfb l
  | JObj d => bool_decide (NoDup (map fst d)) && forallb (fun kv => json_wfb (snd kv)) d
  | _ => true
  end.

Lemma json_wfb_wf j : json_wfb j = true -> json_wf j.
Proof.
  induction j as [|b|z|r|s|l IH|d IH] using json_ind'; cbn; try done.
  - apply decimalb_float.
  - induction IH as [|x l Hx _ IHl]; cbn; [done|]. intros [H1 H2]%andb_true_iff. auto.
  - intros [Hd%bool_decide_eq_true H]%andb_true_iff. split; [by apply NoDup_ListNoDup|]. clear Hd. revert H.
    induction IH as [|kv d Hx _ IHd]; cbn; [done|]. intros [H1 H2]%andb_true_iff. auto.
Qed.

(** ** A search *)

(** Qdrant answers two rows, MongoDB one, MindsDB fails, Letta is too late; the
    memory bank and the rollups have nothing. *)
Definition demo_reply (_ : nat) (rq : request) : outcome * Q :=
  let r file s := mkRow [("project", JStr "p"); ("file", JStr file); ("summary", JStr "deploy notes")] s in
  (if rq_source rq =s "qdrant" then Rows [r "a.md" (4 # 10); r "b.md" (3 # 10)]
   else if rq_source rq =s "mongo_raw" then Rows [r "b.md" 1%Q]
   else if rq_source rq =s "mindsdb" then Fails (OrchestratorError "down")
   else if rq_source rq =s "letta" then TooLate
   else Rows [], 5%Q).

(** The number in decimals, to the millionth. *)
Definition decimal_text (q : Q) : string :=
  let z := round_half_even (q * 1000000) in
  (if z <? 0 then "-" else "") +:+ abs_text (Z.abs z / 1000000) +:+ String "." (digits 6 (Z.abs z mod 1000000)) +:+ "".

Definition demo_env : search_env :=
  mkSearchEnv default_retrieval default_ranking (mkLifecycle false 100 1 0 0 0 0) (mkLruConfig true 300 10) (mkLruConfig true 90 10)
    None (fun s => s) Some false false "" (fun _ => 1%Q) (fun x => x) (fun s => s) (fun _ => "u")
    decimal_text (fun _ => 0) (fun _ => 7) (fun _ => None) demo_reply.

Definition demo_args : search_args := mkArgs "deploy" 5 None None [] [] [] true "" false.

Definition demo_answer : bundle := match snd (federated_search_memory demo_env demo_args no_search) with Ok b => b | Raise _ => mkBundle [] [] [] end.

Lemma no_templates : templates_ok no_search.
Proof. by intros k e t []. Qed.

Example demo_warnings : bundle_warnings demo_answer =
  ["mindsdb retrieval failed: down"; "letta retrieval failed: letta retrieval timed out after 45.0s"].
Proof. vm_compute. reflexivity. Qed.

Example demo_results : map (fun d => (jstr (dget d "file"), dget d "sources")) (results demo_answer) =
  [("b.md", JList [JStr "mongo_raw"; JStr "qdrant"]); ("a.md", JList [JStr "qdrant"])].
Proof. vm_compute. reflexivity. Qed.

Lemma demo_wf : bundle_wf demo_answer.
Proof. apply json_wfb_wf. vm_compute. reflexivity. Qed.


Lemma search_results_ranked_witness :
  exists merged, results demo_answer = map (merged_json demo_env) (firstn 5 merged) /\
    StronglySorted (fun x y => ranks_before x y = true) merged.
Proof.
  destruct (search_results_ranked demo_env demo_args no_search (fst (federated_search_memory demo_env demo_args no_search)) demo_answer)
    as (rqs & merged & p & ms & lc & now & _ & _ & H1 & H2 & _).
  - exact no_templates.
  - vm_compute. reflexivity.
  - vm_compute. discriminate.
  - vm_compute. discriminate.
  - exists merged. split; [exact H2|exact H1].
Defined.

Lemma repeated_search_is_cached_witness :
  exists s2 out2, federated_search_memory demo_env demo_args (fst (federated_search_memory demo_env demo_args no_search)) = (s2, Ok out2) /\
    length (asked s2) = 6%nat /\ results out2 = results demo_answer.
Proof.
  destruct (repeated_search_is_cached demo_env demo_args no_search (fst (federated_search_memory demo_env demo_args no_search)) demo_answer)
    as (s2 & out2 & H1 & H2 & H3 & _).
  - exact no_templates.
  - vm_compute. reflexivity.
  - vm_compute. discriminate.
  - reflexivity.
  - intros i j. vm_compute. reflexivity.
  - exact demo_wf.
  - vm_compute. discriminate.
  - exists s2, out2. split; [exact H1|]. split; [rewrite H2; vm_compute; reflexivity|exact H3].
Defined.
