(* ===== verification/Sources.v ===== *)
(** * The sources of a search

    What each source does with the answer of its store: documents of MongoDB
    ([search_mongo_raw]), rows of MindsDB ([search_mindsdb_memory]), passages of
    Letta with their cache ([search_letta_archival]), the topic rollup index
    ([search_topic_rollups]), the files of the memory bank
    ([search_memory_bank_lexical]), and the listing of files through Qdrant's
    scrolling.  The stores answer through parameters. *)

From S2P Require Import Prelude PyStr PyTime Json JsonText Paths Policy OutboxMaint WriteBuffer Regex Lru Caches Mcp Ranking SourcePolicy.
From Stdlib Require Import Ascii QArith Qminmax Qround.
Open Scope Z_scope.

Definition opt_truthy (o : option string) : bool := truthy (opt_str o).
Definition is_positive (q : Q) : bool := Qltb 0 q.

(** [x or None] *)
Definition str_or_null (s : string) : json := if truthy s then JStr s else JNull.

(** ** MongoDB *)

(** [re.escape] *)
Definition is_special (c : ascii) : bool :=
  one_of ["("; ")"; "["; "]"; "{"; "}"; "?"; "*"; "+"; "-"; "|"; "^"; "$"; "\"; "."; "&"; "~"; "#"; " "]%char c
  || ((9 <=? Z.of_N (ascii_code c)) && (Z.of_N (ascii_code c) <=? 13)).

Fixpoint re_escape (s : string) : string :=
  match s with
  | EmptyString => ""
  | String c s' => (if is_special c then String "\" (String c "") else String c "") +:+ re_escape s'
  end.

Definition mongo_query_filter (project_filter topic_filter : option string) : dict :=
  (if opt_truthy project_filter then [("project", JStr (opt_str project_filter))] else [])
  ++ (if opt_truthy topic_filter then [("topic_path", JObj [("$regex", JStr ("^" +:+ re_escape (opt_str topic_filter)))])] else []).

(** A document as a row, if it matches. *)
Definition mongo_row (query : string) (doc : dict) : option row :=
  let text k := jstr_or_empty (dget doc k) in
  let snippet := str_or (text "summary") (take 500 (text "content_raw")) in
  let score := _text_match_score query (join nl [text "project"; text "file"; text "topic_path"; snippet]) in
  if negb (is_positive score) && negb (Nat.eqb (length (_query_terms query 8)) 0) then None
  else Some (mkRow [("project", dget doc "project"); ("file", dget doc "file"); ("summary", JStr snippet);
                    ("source", JStr RETRIEVAL_SOURCE_MONGO_RAW); ("event_id", dget doc "event_id");
                    ("topic_path", dget doc "topic_path"); ("created_at", dget doc "created_at")] score).

Fixpoint somes {A} (l : list (option A)) : list A :=
  match l with [] => [] | Some x :: l' => x :: somes l' | None :: l' => somes l' end.

(** [find filter n]: the newest [n] documents that match the filter; [None]
    when the client is not connected or the query fails. *)
Definition search_mongo_raw (RETRIEVAL_MONGO_SCAN_LIMIT : Z) (find : dict -> Z -> option (list dict)) (query : string) (limit : Z)
    (project_filter topic_filter : option string) : list row :=
  match find (mongo_query_filter project_filter topic_filter) (Z.max (limit * 12) RETRIEVAL_MONGO_SCAN_LIMIT) with
  | None => []
  | Some docs => best_rows limit (somes (map (mongo_row query) docs))
  end.

(** ** MindsDB *)

Definition _escape_sql_literal (value : string) : string := replace_char "'" "''" value.

Definition column_row (columns : list json) (values : list json) : dict :=
  fold_left (fun d kv => dset (jstr (fst kv)) (snd kv) d)
    (combine columns (values ++ repeat JNull (length columns - length values))) [].

Definition _mindsdb_rows (data : dict) : list dict :=
  match dget data "data" with
  | JList rows =>
      match rows with
      | JObj _ :: _ => dict_rows rows
      | _ =>
          match dget data "column_names" with
          | JList columns => somes (map (fun r => match r with JList vs => Some (column_row columns vs) | _ => None end) rows)
          | _ => []
          end
      end
  | _ => []
  end.

Definition mindsdb_clauses (query : string) (project_filter topic_filter : option string) : list string :=
  let terms := _query_terms query 6 in
  let like column := map (fun term => "LOWER(" +:+ column +:+ ") LIKE '%" +:+ _escape_sql_literal (lower term) +:+ "%'") terms in
  let topic := _escape_sql_literal (opt_str topic_filter) in
  (if opt_truthy project_filter then ["project = '" +:+ _escape_sql_literal (opt_str project_filter) +:+ "'"] else [])
  ++ (if opt_truthy topic_filter then ["(file LIKE '" +:+ topic +:+ "/%' OR file LIKE '" +:+ topic +:+ "%')"] else [])
  ++ (match terms with [] => [] | _ => ["(" +:+ join " OR " (like "summary" ++ like "file") +:+ ")"] end).

Definition mindsdb_sql (db table query : string) (scan_limit : Z) (project_filter topic_filter : option string) : string :=
  let clauses := mindsdb_clauses query project_filter topic_filter in
  "SELECT project, file, summary, created_at FROM " +:+ db +:+ "." +:+ table +:+ " "
  +:+ (match clauses with [] => "" | _ => "WHERE " +:+ join " AND " clauses end)
  +:+ " ORDER BY created_at DESC LIMIT " +:+ str_of_Z scan_limit +:+ ";".

Definition mindsdb_row (query : string) (r : dict) : option row :=
  let text k := jstr_or_empty (dget r k) in
  let score := _text_match_score query (text "project" +:+ nl +:+ text "file" +:+ nl +:+ text "summary") in
  if negb (is_positive score) && negb (Nat.eqb (length (_query_terms query 6)) 0) then None
  else Some (mkRow [("project", JStr (text "project")); ("file", JStr (text "file")); ("summary", JStr (text "summary"));
                    ("source", JStr RETRIEVAL_SOURCE_MINDSDB); ("created_at", dget r "created_at")] score).

(** [execute sql]: the answer of MindsDB, [None] when the table cannot be made
    or the query fails. *)
Definition search_mindsdb_memory (enabled : bool) (db table : string) (RETRIEVAL_MINDSDB_SCAN_LIMIT : Z) (execute : string -> option dict)
    (query : string) (limit : Z) (project_filter topic_filter : option string) : list row :=
  if negb enabled then []
  else match execute (mindsdb_sql db table query (Z.max (limit * 12) RETRIEVAL_MINDSDB_SCAN_LIMIT) project_filter topic_filter) with
       | None => []
       | Some raw => best_rows limit (somes (map (mindsdb_row query) (_mindsdb_rows raw)))
       end.

(** ** Letta *)

Definition not_space (c : ascii) : bool := negb (is_space c).

(** [re.search(key + r"=([^\s]+)", text).group(1)] *)
Fixpoint run_of (p : ascii -> bool) (s : string) : string :=
  match s with String c s' => if p c then String c (run_of p s') else "" | EmptyString => "" end.
Fixpoint field_value (key : string) (s : string) : string :=
  let here := if startswith s key then run_of not_space (drop (String.length key) s) else "" in
  if truthy here then here
  else match s with String _ s' => field_value key s' | EmptyString => "" end.

Definition dash_empty (s : string) : string := if s =s "-" then "" else s.

(** What follows the first colon. *)
Fixpoint after_colon (s : string) : string :=
  match s with EmptyString => "" | String c s' => if Ascii.eqb c ":" then s' else after_colon s' end.

Fixpoint summary_line (lines : list string) : string :=
  match lines with
  | [] => ""
  | l :: lines' => if startswith (lower l) "summary:" then strip (after_colon l) else summary_line lines'
  end.

Record passage := mkPassage { ps_project : string; ps_file : string; ps_topic : string; ps_summary : string }.

Definition _parse_letta_archival_content (text : string) : passage :=
  let lines := List.filter truthy (map strip (splitlines text)) in
  let field k := match lines with header :: _ => dash_empty (strip (field_value k header)) | [] => "" end in
  mkPassage (field "project=") (field "file=") (field "topic=") (str_or (summary_line (tl lines)) (take 500 text)).

Definition letta_row (query : string) (project_filter topic_filter : option string) (item : dict) : option row :=
  let content := jstr_or_empty (jor (dget item "content") (dget item "text")) in
  let parsed := _parse_letta_archival_content content in
  let project := str_or (ps_project parsed) (opt_str project_filter) in
  let summary := str_or (ps_summary parsed) (take 500 content) in
  if opt_truthy project_filter && truthy project && negb (project =s opt_str project_filter) then None
  else if opt_truthy topic_filter && truthy (ps_topic parsed) && negb (startswith (ps_topic parsed) (opt_str topic_filter)) then None
  else
    let score := _text_match_score query (project +:+ nl +:+ ps_file parsed +:+ nl +:+ summary +:+ nl +:+ content) in
    if negb (is_positive score) then None
    else Some (mkRow [("project", str_or_null project); ("file", str_or_null (ps_file parsed)); ("summary", JStr summary);
                      ("source", JStr RETRIEVAL_SOURCE_LETTA); ("topic_path", str_or_null (ps_topic parsed));
                      ("created_at", dget item "timestamp"); ("letta_passage_id", dget item "id")] score).

Definition _letta_search_rows_from_payload (payload : json) (query : string) (limit : Z) (project_filter topic_filter : option string)
  : list row :=
  let items := match payload with JObj d => match dget d "results" with JList l => dict_rows l | _ => [] end | _ => [] end in
  best_rows limit (somes (map (letta_row query project_filter topic_filter) items)).

Definition _letta_effective_timeout (LETTA_REQUEST_TIMEOUT_SECS RETRIEVAL_LETTA_TIMEOUT_SECS : Q) (timeout_secs : option Q) : Q :=
  let requested := match timeout_secs with Some t => t | None => RETRIEVAL_LETTA_TIMEOUT_SECS end in
  Qmax 1 (Qmin LETTA_REQUEST_TIMEOUT_SECS requested).

Record letta_search_config := mkLettaSearch {
  LETTA_CONFIG_ENABLED : bool; LETTA_AUTO_SESSION_ID : string; LETTA_REQUEST_TIMEOUT_SECS : Q; LETTA_TIMEOUT_SECS : Q;
  RETRIEVAL_LETTA_TOP_K_FACTOR : Q; RETRIEVAL_LETTA_TOP_K_CAP : Z; LETTA_CACHE : lru_config;
  RETRIEVAL_LETTA_ASYNC_WARM_ENABLED : bool; RETRIEVAL_LETTA_ASYNC_WARM_TIMEOUT_SECS : Q; (* seconds *)
  RETRIEVAL_LETTA_ASYNC_WARM_MAX_INFLIGHT : Z }.

(** The cache of searches and the warm-ups that run, each with the time it is
    given up. *)
Record letta_search_state := mkLettaState {
  letta_rows : cache (Z * list row); warm_inflight : list (string * Z); warm_started : Z; warm_completed : Z; warm_failed : Z }.

Section letta.
Variable K : letta_search_config.
Variable sha1 : string -> string.

Definition micros (q : Q) : Z := Qfloor (q * qz us_per_sec).

(** Whether a warm-up is started. *)
Definition _schedule_letta_search_cache_warm (now : Z) (cache_key : string) (prior_timeout_secs : Q) (s : letta_search_state)
  : letta_search_state * bool :=
  if negb (RETRIEVAL_LETTA_ASYNC_WARM_ENABLED K) || cache_off (LETTA_CACHE K) then (s, false)
  else
    let warm_timeout := Qmax (prior_timeout_secs + 1) (RETRIEVAL_LETTA_ASYNC_WARM_TIMEOUT_SECS K) in
    let running := List.filter (fun kv => now <? snd kv) (warm_inflight s) in
    let s := mkLettaState (letta_rows s) running (warm_started s) (warm_completed s) (warm_failed s) in
    if mem_str cache_key (map fst running) then (s, false)
    else if RETRIEVAL_LETTA_ASYNC_WARM_MAX_INFLIGHT K <=? Z.of_nat (length running) then (s, false)
    else (mkLettaState (letta_rows s) (cset cache_key (now + micros (warm_timeout + 5)) running) (warm_started s + 1)
            (warm_completed s) (warm_failed s), true).

(** The task of a warm-up; [payload] is what it fetched, [None] when that failed. *)
Definition warm_runner (now : Z) (cache_key query : string) (limit : Z) (project_filter topic_filter : option string)
    (payload : option json) (s : letta_search_state) : letta_search_state :=
  let running := cdel cache_key (warm_inflight s) in
  match payload with
  | None => mkLettaState (letta_rows s) running (warm_started s) (warm_completed s) (warm_failed s + 1)
  | Some data =>
      let rows := _letta_search_rows_from_payload data query limit project_filter topic_filter in
      mkLettaState (_letta_search_cache_set (LETTA_CACHE K) now cache_key rows (letta_rows s)) running (warm_started s) (warm_completed s + 1) (warm_failed s)
  end.

(** What fetching comes to. *)
Inductive fetched := Payload (data : json) | TimedOut | Cancelled | FetchFailed.

Definition letta_top_k (limit : Z) : Z :=
  Z.min (Z.max limit (Qfloor (qz limit * Qmax 1 (RETRIEVAL_LETTA_TOP_K_FACTOR K)))) (RETRIEVAL_LETTA_TOP_K_CAP K).

(** [agent]: whether the agent could be resolved.  A search that is cancelled
    starts a warm-up before it raises. *)
Definition search_letta_archival (now : Z) (agent : bool) (fetch : Z -> Q -> fetched) (query : string) (limit : Z)
    (project_filter topic_filter : option string) (timeout_secs : option Q) (s : letta_search_state)
  : letta_search_state * result (list row) :=
  if negb (LETTA_CONFIG_ENABLED K) || negb agent then (s, Ok [])
  else
    let limit := Z.max 1 limit in
    let top_k := letta_top_k limit in
    let key := _letta_search_cache_key sha1 (LETTA_AUTO_SESSION_ID K) query limit project_filter topic_filter top_k in
    let '(c, cached) := _letta_search_cache_get (LETTA_CACHE K) now key (letta_rows s) in
    let s := mkLettaState c (warm_inflight s) (warm_started s) (warm_completed s) (warm_failed s) in
    match cached with
    | Some rows => (s, Ok (upto limit rows))
    | None =>
        let timeout := _letta_effective_timeout (LETTA_REQUEST_TIMEOUT_SECS K) (LETTA_TIMEOUT_SECS K) timeout_secs in
        match fetch top_k timeout with
        | TimedOut => (fst (_schedule_letta_search_cache_warm now key timeout s), Ok [])
        | Cancelled => (fst (_schedule_letta_search_cache_warm now key timeout s), Raise (OtherError "CancelledError" ""))
        | FetchFailed => (s, Ok [])
        | Payload data =>
            let rows := _letta_search_rows_from_payload data query limit project_filter topic_filter in
            (mkLettaState (_letta_search_cache_set (LETTA_CACHE K) now key rows (letta_rows s)) (warm_inflight s) (warm_started s)
               (warm_completed s) (warm_failed s), Ok rows)
        end
    end.
End letta.

(** ** Topic rollups *)

(** [" ".join(text.split())], cut to [max_chars]. *)
Definition words (s : string) : list string := List.filter truthy (PyStr.split " " (smap (fun c => if is_space c then " "%char else c) s)).
Definition _topic_rollup_sanitize_text (value : string) (max_chars : nat) : string :=
  let text := join " " (words value) in
  if (0 <? Z.of_nat max_chars) && (Z.of_nat max_chars <? Z.of_nat (String.length text))
  then take (max_chars - 3) text +:+ "..." else text.

(** Counts in the index are integers. *)
Definition count_field (d : dict) (k : string) : json := match dget d k with JInt z => JInt z | _ => JInt 0 end.

Definition rollup_row (query project_name : string) (topic_filter : option string) (topic : dict) : result (option row) :=
  let! path := normalize_topic_path (jstr_or_empty (dget topic "path")) in
  if negb (truthy path) then Ok None
  else if opt_truthy topic_filter && negb (startswith path (opt_str topic_filter)) then Ok None
  else
    let snippets := map jstr (as_list (dget topic "summarySnippets")) in
    let values := List.filter truthy (map (fun fact => jstr_or_empty (dget fact "value")) (dict_rows (as_list (dget topic "numericFacts")))) in
    let score := _text_match_score query (join nl (project_name :: path :: snippets ++ values)) in
    if negb (is_positive score) then Ok None
    else
      let summary := match snippets, values with
                     | s0 :: _, _ => s0
                     | [], _ :: _ => "Numeric facts: " +:+ join ", " (firstn 6 values)
                     | [], [] => "Topic rollup available for " +:+ path
                     end in
      Ok (Some (mkRow [("project", JStr project_name); ("file", JStr ("_rollups/topics/" +:+ path +:+ ".json"));
                       ("summary", JStr (_topic_rollup_sanitize_text summary 320)); ("source", JStr RETRIEVAL_SOURCE_TOPIC_ROLLUPS);
                       ("topic_path", JStr path);
                       ("topic_rollup", JObj [("event_count", count_field topic "eventCount");
                          ("recent_event_count", count_field topic "recentEventCount");
                          ("unique_file_count", count_field topic "uniqueFileCount"); ("latest_timestamp", dget topic "latestTimestamp")])]
                      score)).

Fixpoint result_map {A B} (f : A -> result B) (l : list A) : result (list B) :=
  match l with [] => Ok [] | x :: l' => let! y := f x in let! ys := result_map f l' in Ok (y :: ys) end.

Definition project_rollups (query : string) (project_filter topic_filter : option string) (kv : string * json) : result (list row) :=
  match snd kv with
  | JObj payload =>
      if opt_truthy project_filter && negb (fst kv =s opt_str project_filter) then Ok []
      else let! rows := result_map (rollup_row query (fst kv) topic_filter) (dict_rows (as_list (dget payload "topics"))) in Ok (somes rows)
  | _ => Ok []
  end.

Definition search_topic_rollups (topic_rollup_index : dict) (query : string) (limit : Z) (project_filter topic_filter : option string)
  : result (list row) :=
  match dget topic_rollup_index "projects" with
  | JObj projects => let! rows := result_map (project_rollups query project_filter topic_filter) projects in Ok (best_rows limit (concat rows))
  | _ => Ok []
  end.

(** ** The memory bank *)

Record lexical_config := mkLexical {
  RETRIEVAL_MEMORY_PROJECT_LIMIT : Z; RETRIEVAL_MEMORY_FILES_PER_PROJECT : Z; RETRIEVAL_MEMORY_SCAN_LIMIT : Z;
  LEX_DEFAULT_TIMEOUT_SECS : Q; LEX_TOPIC_ROOT : string }.

Section lexical.
Variable X : lexical_config.
(** Elapsed seconds at the [n]th look at the clock; the stores. *)
Variable elapsed : nat -> Q.
Variables (list_projects : list string) (list_files : string -> option (list string)) (read_file : string -> string -> option string).

Definition budget (time_budget_secs : option Q) : Q :=
  Qmax (75 # 100) (match time_budget_secs with Some t => t | None => LEX_DEFAULT_TIMEOUT_SECS X end).

Definition remaining (b : Q) (n : nat) : Q := Qmax 0 (b - elapsed n).

(** Names that match, with their scores; a look at the clock before each. *)
Fixpoint match_names (b : Q) (query project : string) (files : list string) (n : nat) : list (Q * (string * string)) * nat :=
  match files with
  | [] => ([], n)
  | f :: files' =>
      if Qle_bool (remaining b n) (5 # 100) then ([], S n)
      else
        let score := _text_match_score query (project +:+ nl +:+ f) in
        let '(l, n') := match_names b query project files' (S n) in
        (if is_positive score then (score, (project, f)) :: l else l, n')
  end.

(** [None] when a topic cannot be derived. *)
Definition in_topic (topic_filter : option string) (file : string) : result bool :=
  let! topic := derive_topic_path (LEX_TOPIC_ROOT X) file None in Ok (startswith topic (opt_str topic_filter)).

Fixpoint filter_result {A} (f : A -> result bool) (l : list A) : result (list A) :=
  match l with
  | [] => Ok []
  | x :: l' => let! b := f x in let! r := filter_result f l' in Ok (if b then x :: r else r)
  end.

Fixpoint candidates (b : Q) (files_per_project : nat) (query : string) (topic_filter : option string) (projects : list string) (n : nat)
  : result (list (Q * (string * string)) * nat) :=
  match projects with
  | [] => Ok ([], n)
  | p :: projects' =>
      if Qle_bool (remaining b n) (1 # 10) then Ok ([], S n)
      else match list_files p with
           | None => candidates b files_per_project query topic_filter projects' (S n)
           | Some files =>
               let! files := if opt_truthy topic_filter then filter_result (in_topic topic_filter) files else Ok files in
               let '(l, n') := match_names b query p (firstn files_per_project files) (S n) in
               let! rest := candidates b files_per_project query topic_filter projects' n' in
               Ok (l ++ fst rest, snd rest)
           end
  end.

(** One candidate is read; the tasks run in the order of the candidates. *)
Fixpoint inspect (b : Q) (query : string) (selected : list (Q * (string * string))) (n : nat) : list row :=
  match selected with
  | [] => []
  | (name_score, (project, file)) :: selected' =>
      let rest := inspect b query selected' (S n) in
      if Qle_bool (remaining b n) (5 # 100) then rest
      else match read_file project file with
           | None => rest
           | Some content =>
               if negb (truthy content) then rest
               else
                 let summary := summarize_content content in
                 let score := Qmax name_score (_text_match_score query (file +:+ nl +:+ summary)) in
                 if negb (is_positive score) then rest
                 else mkRow [("project", JStr project); ("file", JStr file); ("summary", JStr summary);
                             ("source", JStr RETRIEVAL_SOURCE_MEMORY_BANK)] score :: rest
           end
  end.

Definition search_memory_bank_lexical (query : string) (limit : Z) (project_filter topic_filter : option string)
    (time_budget_secs : option Q) : result (list row) :=
  match _query_terms query 8 with
  | [] => Ok []
  | _ =>
      let b := budget time_budget_secs in
      let project_cap := Z.min (Z.max 1 (RETRIEVAL_MEMORY_PROJECT_LIMIT X)) (Z.max 1 (Qceiling (b * (25 # 10)))) in
      let files_per_project := Z.min (Z.max 1 (RETRIEVAL_MEMORY_FILES_PER_PROJECT X)) (Z.max 6 (Qceiling (b * 10))) in
      let scan_limit := Z.min (Z.max (limit * 2) (RETRIEVAL_MEMORY_SCAN_LIMIT X)) (Z.max (limit * 2) (Qceiling (b * 16))) in
      let projects := if opt_truthy project_filter then [opt_str project_filter] else list_projects in
      let! found := candidates b (Z.to_nat files_per_project) query topic_filter (firstn (Z.to_nat project_cap) projects) 0 in
      let selected := upto scan_limit (sort_by (fun x y => Qle_bool (fst y) (fst x)) (fst found)) in
      Ok (best_rows limit (inspect b query selected (snd found)))
  end.
End lexical.

(** ** Scrolling *)

Section scrolling.
Context {offset : Type}.
(** One page: the points after an offset, at most so many, and the next offset. *)
Variable page : option offset -> Z -> list dict * option offset.

(** The points of all pages, at most [remaining]; [fuel] bounds the pages. *)
Fixpoint scroll (fuel : nat) (at_offset : option offset) (remaining : Z) : list dict :=
  match fuel with
  | O => []
  | S fuel' =>
      if remaining <=? 0 then []
      else
        let '(points, next) := page at_offset (Z.min remaining 256) in
        match points, next with
        | [], _ | _, None => points
        | _, Some _ => points ++ scroll fuel' next (remaining - Z.of_nat (length points))
        end
  end.

Definition texts_of (k : string) (points : list dict) : list string :=
  somes (map (fun p => match dget p k with JStr s => if truthy s then Some s else None | _ => None end) points).

(** Every page but the last takes at least one of [limit] points. *)
Definition list_qdrant_files (limit : Z) : list string := sorted_set (texts_of "file" (scroll (Z.to_nat limit) None limit)).
Definition list_qdrant_projects (limit : Z) : list string := sorted_set (texts_of "project" (scroll (Z.to_nat limit) None limit)).
End scrolling.
