(* ===== verification/SourcesFacts.v ===== *)
(** * Facts on the sources of a search

    Rows respect the request: project, topic, limit, order; warm-ups are
    bounded; scrolling lists everything up to its limit. *)

From S2P Require Import Prelude PyStr PyTime Json JsonText Paths Policy OutboxMaint WriteBuffer WriteBufferFacts Regex Lru Caches Mcp Ranking RankingFacts SourcePolicy Sources.
From Stdlib Require Import Ascii QArith Qminmax Qround Lqa.
Open Scope Z_scope.

Lemma somes_In {A} (l : list (option A)) x : In x (somes l) <-> In (Some x) l.
Proof. induction l as [|[y|] l IH]; cbn; [done|rewrite IH; naive_solver congruence|rewrite IH; naive_solver]. Qed.

Definition by_score (x y : row) : Prop := (score y <= score x)%Q.

Lemma best_rows_In limit rows r : In r (best_rows limit rows) -> In r rows.
Proof. intros H%upto_incl. by apply sort_by_In in H. Qed.

Lemma best_rows_sorted limit rows : StronglySorted by_score (best_rows limit rows).
Proof.
  unfold best_rows, upto. apply StronglySorted_firstn.
  assert (StronglySorted (fun a b => Qle_bool (score b) (score a) = true) (sort_by (fun a b => Qle_bool (score b) (score a)) rows)) as Hs.
  { apply sort_by_sorted.
    - intros x y. rewrite !Qle_bool_iff. destruct (Qlt_le_dec (score x) (score y)); [right; lra|by left].
    - intros x y z. rewrite !Qle_bool_iff. lra. }
  induction Hs as [|x l Hs IH Hf]; constructor; [done|]. rewrite List.Forall_forall in *. intros y Hy. by apply Qle_bool_iff, Hf.
Qed.

Lemma best_rows_length limit rows : 0 <= limit -> (Z.of_nat (length (best_rows limit rows)) <= limit).
Proof. intros H. unfold best_rows. rewrite upto_length by done. lia. Qed.

(** What a source promises of its rows: at most [limit], best first, each
    matching the query and within the filters. *)
Record respects (limit : Z) (project_filter topic_filter : option string) (rows : list row) : Prop := mkRespects {
  resp_limit : 0 <= limit -> Z.of_nat (length rows) <= limit;
  resp_order : StronglySorted by_score rows;
  resp_match : forall r, In r rows -> (0 < score r)%Q;
  resp_project : forall r p, In r rows -> project_filter = Some p -> p <> "" -> dget (fields r) "project" = JStr p;
  resp_topic : forall r t, In r rows -> topic_filter = Some t -> t <> "" ->
    dget (fields r) "topic_path" = JNull \/ exists path, dget (fields r) "topic_path" = JStr path /\ startswith path t = true }.

Lemma truthy_neq s : s <> "" -> truthy s = true.
Proof. intros H. unfold truthy. by rewrite (proj2 (String.eqb_neq _ _) H). Qed.

Lemma letta_row_ok query pf tf item r : letta_row query pf tf item = Some r ->
  (0 < score r)%Q /\ (forall p, pf = Some p -> p <> "" -> dget (fields r) "project" = JStr p) /\
  (forall t, tf = Some t -> t <> "" ->
     dget (fields r) "topic_path" = JNull \/ exists path, dget (fields r) "topic_path" = JStr path /\ startswith path t = true).
Proof.
  unfold letta_row. set (content := jstr_or_empty _). set (parsed := _parse_letta_archival_content content).
  set (project := str_or (ps_project parsed) (opt_str pf)). cbv zeta.
  destruct (opt_truthy pf && truthy project && negb (project =s opt_str pf)) eqn:Ep; [done|].
  destruct (opt_truthy tf && truthy (ps_topic parsed) && negb (startswith (ps_topic parsed) (opt_str tf))) eqn:Et; [done|].
  destruct (is_positive _) eqn:Es; cbn [negb]; [|done]. intros [= <-]. cbn [score fields]. split; [by apply Qltb_true|]. split.
  - intros p -> Hp. cbn in Ep. unfold opt_truthy in Ep. cbn [opt_str] in *.
    assert (truthy project = true) as Ht.
    { unfold project, str_or. cbn [opt_str]. destruct (truthy (ps_project parsed)) eqn:E; [done|by apply truthy_neq]. }
    rewrite (truthy_neq p Hp), Ht in Ep. cbn in Ep. apply negb_false_iff, String.eqb_eq in Ep. rewrite Ep. cbn.
    unfold str_or_null. by rewrite (truthy_neq p Hp).
  - intros t -> Ht. unfold opt_truthy in Et. cbn [opt_str] in Et. rewrite (truthy_neq t Ht) in Et. cbn [andb] in Et.
    change (dget _ "topic_path") with (str_or_null (ps_topic parsed)). unfold str_or_null.
    destruct (truthy (ps_topic parsed)); [|by left]. cbn in Et. apply negb_false_iff in Et. right. eauto.
Qed.

Lemma rollup_row_ok query project tf topic r : rollup_row query project tf topic = Ok (Some r) ->
  (0 < score r)%Q /\ dget (fields r) "project" = JStr project /\
  (forall t, tf = Some t -> t <> "" -> exists path, dget (fields r) "topic_path" = JStr path /\ startswith path t = true).
Proof.
  unfold rollup_row. destruct (normalize_topic_path _) as [path|e]; cbn; [|done]. destruct (truthy path); cbn [negb]; [|done].
  destruct (opt_truthy tf && negb (startswith path (opt_str tf))) eqn:Et; [done|]. destruct (is_positive _) eqn:Es; cbn [negb]; [|done].
  intros [= <-]. cbn [score fields]. split; [by apply Qltb_true|]. split; [done|]. intros t -> Ht.
  unfold opt_truthy in Et. cbn [opt_str] in Et. rewrite (truthy_neq t Ht) in Et. cbn in Et. apply negb_false_iff in Et. by exists path.
Qed.

Lemma result_map_In {A B} (f : A -> result B) l ys y : result_map f l = Ok ys -> In y ys -> exists x, In x l /\ f x = Ok y.
Proof.
  revert ys. induction l as [|x l IH]; intros ys; cbn; [by intros [= <-]|]. destruct (f x) as [y0|e] eqn:Ef; cbn; [|done].
  destruct (result_map f l) as [ys'|e]; cbn; [|done]. intros [= <-] [<-|H]; [eauto|]. destruct (IH ys' eq_refl H) as (x' & H1 & H2). eauto.
Qed.

(** The rows of Letta and of the topic rollups respect the request: at most
    [limit], best first, every one with a positive match score, of the project
    asked for, and of a topic under the one asked for (a passage of Letta may
    also name no topic). *)
Theorem rows_respect_request query limit pf tf payload index rows :
  respects limit pf tf (_letta_search_rows_from_payload payload query limit pf tf) /\
  (search_topic_rollups index query limit pf tf = Ok rows -> respects limit pf tf rows).
Proof.
  split.
  - unfold _letta_search_rows_from_payload. set (items := match payload with JObj _ => _ | _ => _ end).
    assert (forall r, In r (best_rows limit (somes (map (letta_row query pf tf) items))) -> exists item, letta_row query pf tf item = Some r) as Hr.
    { intros r H%best_rows_In. apply somes_In in H. apply in_map_iff in H as (item & H & _). eauto. }
    split; [apply best_rows_length|apply best_rows_sorted| | |].
    + intros r H. apply Hr in H as (item & H). by apply letta_row_ok in H as [H _].
    + intros r p H. apply Hr in H as (item & H). apply letta_row_ok in H as (_ & H & _). auto.
    + intros r t H. apply Hr in H as (item & H). apply letta_row_ok in H as (_ & _ & H). auto.
  - unfold search_topic_rollups. destruct (dget index "projects") as [| | | | | |projects]; try (intros [= <-]; split; try done; constructor).
    destruct (result_map _ projects) as [lists|e] eqn:Em; cbn; [|done]. intros [= <-].
    assert (forall r, In r (best_rows limit (concat lists)) -> exists name topic,
      rollup_row query name tf topic = Ok (Some r) /\ (opt_truthy pf = true -> name = opt_str pf)) as Hr.
    { intros r H%best_rows_In. apply in_concat in H as (l & Hl & H).
      apply (result_map_In _ _ _ _ Em) in Hl as ([name j] & _ & Hp). unfold project_rollups in Hp. cbn [fst snd] in Hp.
      destruct j as [| | | | | |payload']; try (injection Hp as <-; done).
      destruct (opt_truthy pf && negb (name =s opt_str pf)) eqn:Ep; [injection Hp as <-; done|].
      destruct (result_map (rollup_row query name tf) (dict_rows (as_list (dget payload' "topics")))) as [rows'|e] eqn:Em2; [|done].
      cbn in Hp. injection Hp as <-. apply somes_In in H.
      apply (result_map_In _ _ _ _ Em2) in H as (topic & _ & H). exists name, topic. split; [done|]. intros Ht. rewrite Ht in Ep. cbn in Ep.
      by apply negb_false_iff, String.eqb_eq in Ep. }
    split; [apply best_rows_length|apply best_rows_sorted| | |].
    + intros r H. apply Hr in H as (name & topic & H & _). by apply rollup_row_ok in H as [H _].
    + intros r p H -> Hp. apply Hr in H as (name & topic & H & Hn). apply rollup_row_ok in H as (_ & H & _). rewrite H, Hn; [done|].
      by apply truthy_neq.
    + intros r t H -> Ht. apply Hr in H as (name & topic & H & _). apply rollup_row_ok in H as (_ & _ & H). right. auto.
Qed.

(** ** Warm-ups *)

Definition warm_ok (K : letta_search_config) (s : letta_search_state) : Prop :=
  List.NoDup (map fst (warm_inflight s)) /\ Z.of_nat (length (warm_inflight s)) <= Z.max 0 (RETRIEVAL_LETTA_ASYNC_WARM_MAX_INFLIGHT K).

Lemma schedule_warm_ok K now key timeout s : warm_ok K s -> warm_ok K (fst (_schedule_letta_search_cache_warm K now key timeout s)).
Proof.
  intros [H1 H2]. unfold _schedule_letta_search_cache_warm. destruct (_ || _); [done|]. cbv zeta.
  set (running := List.filter _ _). assert (List.NoDup (map fst running)) as Hn by (by apply NoDup_map_filter).
  assert (length running <= length (warm_inflight s))%nat as Hl by apply filter_length_le.
  destruct (mem_str key (map fst running)) eqn:Em; [split; cbn; [done|lia]|].
  destruct (_ <=? Z.of_nat (length running)) eqn:El; [split; cbn; [done|lia]|]. blift.
  split; cbn; [by apply cset_NoDup|]. rewrite cset_length, Em. lia.
Qed.

(** ** Scrolling *)

(** Qdrant pages through [pts]: an offset is a position, and the next one is
    given while points are left. *)
Definition pages (pts : list dict) (at_offset : option nat) (n : Z) : list dict * option nat :=
  let i := match at_offset with Some i => i | None => O end in
  (firstn (Z.to_nat n) (skipn i pts), if (i + Z.to_nat n <? length pts)%nat then Some (i + Z.to_nat n)%nat else None).

Lemma firstn_split {A} a b (l : list A) : firstn (a + b) l = firstn a l ++ firstn b (skipn a l).
Proof.
  revert l. induction a as [|a IH]; intros l; [done|]. destruct l as [|x l]; cbn; [by rewrite firstn_nil|]. by rewrite IH.
Qed.

Lemma scroll_pages pts fuel : forall at_offset remaining, (Z.to_nat remaining <= fuel)%nat ->
  scroll (pages pts) fuel at_offset remaining =
    firstn (Z.to_nat remaining) (skipn (match at_offset with Some i => i | None => O end) pts).
Proof.
  induction fuel as [|fuel IH]; intros off remaining Hf; cbn [scroll].
  { replace (Z.to_nat remaining) with 0%nat by lia. done. }
  destruct (remaining <=? 0) eqn:E; blift; [by replace (Z.to_nat remaining) with 0%nat by lia|].
  unfold pages at 1. set (i := match off with Some i => i | None => O end). set (m := Z.to_nat (Z.min remaining 256)).
  assert (m <= Z.to_nat remaining /\ 0 < m)%nat as [Hm Hm0] by (unfold m; lia).
  destruct (Nat.ltb_spec (i + m) (length pts)) as [Hlt|Hge].
  - assert (length (firstn m (skipn i pts)) = m) as Hlen by (rewrite length_firstn, length_skipn; lia).
    destruct (firstn m (skipn i pts)) as [|x l] eqn:Ef; [cbn in Hlen; lia|]. rewrite <- Ef in *. rewrite Hlen, IH by lia.
    replace (Z.to_nat remaining) with (m + Z.to_nat (remaining - Z.of_nat m))%nat by lia.
    rewrite firstn_split, skipn_skipn. f_equal. f_equal. f_equal. lia.
  - destruct (firstn m (skipn i pts)) as [|x l] eqn:Ef; rewrite <- Ef;
      (rewrite !firstn_all2; [done|rewrite length_skipn; lia..]).
Qed.

(** Scrolling lists exactly the file names of the first [limit] points,
    sorted and without repetition, whatever the number of pages; the pages it
    asks for are enough. *)
Theorem scroll_lists_all pts limit :
  list_qdrant_files (pages pts) limit = sorted_set (texts_of "file" (firstn (Z.to_nat limit) pts)) /\
  list_qdrant_projects (pages pts) limit = sorted_set (texts_of "project" (firstn (Z.to_nat limit) pts)).
Proof. unfold list_qdrant_files, list_qdrant_projects. by rewrite !scroll_pages. Qed.

(** ** LIKE *)

(** SQL's [LIKE]: [%] any text, [_] any character. *)
Fixpoint like (pattern s : string) : bool :=
  match pattern with
  | EmptyString => s =s ""
  | String c p' =>
      if Ascii.eqb c "%" then
        (fix any (s : string) := like p' s || match s with String _ s' => any s' | EmptyString => false end) s
      else match s with String d s' => (Ascii.eqb c "_" || Ascii.eqb c d) && like p' s' | EmptyString => false end
  end.

(** The topic filter of MindsDB escapes quotes but not the wildcards of [LIKE]:
    the pattern for the topic a_b also selects the files of axb. *)
Lemma like_topic_overmatches :
  mindsdb_clauses "" None (Some "a_b") = ["(file LIKE 'a_b/%' OR file LIKE 'a_b%')"] /\
  like "a_b/%" "axb/note.md" = true /\ startswith "axb/note.md" "a_b" = false.
Proof. repeat split; vm_compute; reflexivity. Qed.

Lemma rows_respect_request_witness :
  let payload := JObj [("results", JList [JObj [("content", JStr "[m] project=p file=a.md topic=ops/x
summary: deploy notes")]])] in
  let rows := _letta_search_rows_from_payload payload "deploy" 3 (Some "p") (Some "ops") in
  length rows = 1%nat /\ respects 3 (Some "p") (Some "ops") rows.
Proof.
  cbn zeta. split; [vm_compute; reflexivity|].
  exact (proj1 (rows_respect_request "deploy" 3 (Some "p") (Some "ops")
    (JObj [("results", JList [JObj [("content", JStr "[m] project=p file=a.md topic=ops/x
summary: deploy notes")]])]) [] [])).
Defined.
