(* ===== verification/Recall.v ===== *)
(** * The recall pipeline

    Searching with several variants of a query and in deeper modes when the
    results are poor ([_run_memory_recall_pipeline]), the merging of the result
    sets, the factual grounding, and the counters of recall quality with their
    alerts. *)

From S2P Require Import Prelude PyStr PyTime Json JsonText IsoParse Paths Policy OutboxMaint WriteBuffer Regex Secrets Lru Caches Ranking SourcePolicy Federated Sources.
From Stdlib Require Import Ascii QArith Qminmax.
Open Scope Z_scope.

Record recall_config := mkRecall {
  RETRIEVAL_QUERY_EXPANSION_ENABLED : bool; RETRIEVAL_QUERY_EXPANSION_MAX_VARIANTS : Z; RETRIEVAL_QUERY_EXPANSION_MAX_TERMS : nat;
  RETRIEVAL_QUERY_SYNONYM_MAP : list (string * list string); AGENT_RECALL_ESCALATION_ENABLED : bool;
  AGENT_RECALL_ESCALATE_MIN_RESULTS : Z; AGENT_RECALL_ESCALATE_MIN_TOP_SCORE : Q; AGENT_RECALL_MAX_ESCALATION_STEPS : Z;
  RECALL_LOW_CONFIDENCE_SCORE : Q; RECALL_GROUNDING_SNIPPET_CHARS : nat; RECALL_NUMERIC_FACTS_MAX : Z; RECALL_STALE_HOURS : Q;
  RECALL_QUALITY_HISTORY_LIMIT : Z; RECALL_ALERT_NO_HIT_RATE : Q; RECALL_ALERT_LOW_CONFIDENCE_RATE : Q;
  RECALL_ALERT_STALE_HIT_RATE : Q; RECALL_ALERT_SOURCE_ERROR_RATE : Q; RECALL_ALERT_MIN_REQUESTS : Z }.

Definition default_synonyms : list (string * list string) :=
  [("recall", ["retrieve"; "memory"; "lookup"]); ("retrieval", ["recall"; "search"; "lookup"]);
   ("source", ["origin"; "evidence"; "citation"]); ("quality", ["accuracy"; "precision"; "reliability"]);
   ("latency", ["speed"; "performance"; "delay"]); ("failure", ["error"; "timeout"; "degraded"])].

Definition default_recall : recall_config :=
  mkRecall true 4 8 default_synonyms true 4 (72 # 100) 2 (55 # 100) 280 80 168 4000 (35 # 100) (4 # 10) (45 # 100) (25 # 100) 50.

(** ** Variants of a query *)

(** [re.sub(pattern, repl, text, count=1)] for a [repl] without backslashes. *)
Fixpoint sub_once_from (r : re) (repl : string) (prev : option ascii) (s : string) : string :=
  match match_at r (prev, s) with
  | Some (_, rest) => repl +:+ rest
  | None => match s with String c s' => String c (sub_once_from r repl (Some c) s') | EmptyString => "" end
  end.
Definition sub_once (r : re) (repl text : string) : string := sub_once_from r repl None text.

(** [\b token \b], ignoring case. *)
Definition word_re (token : string) : re := seq [Bound; i_lit token; Bound].

(** [re.sub(r"\s+", " ", text.strip())] *)
Definition one_line (text : string) : string := join " " (words text).

Section recall.
Variable R : recall_config.

(** Candidates are added until there are enough; the check follows the addition. *)
Fixpoint add_variants (candidates variants seen : list string) : list string :=
  match candidates with
  | [] => variants
  | c :: cs =>
      let key := lower c in
      if mem_str key seen then add_variants cs variants seen
      else
        let variants := variants ++ [c] in
        if RETRIEVAL_QUERY_EXPANSION_MAX_VARIANTS R <=? Z.of_nat (length variants) then variants
        else add_variants cs variants (key :: seen)
  end.

Definition joined_variants (normalized : string) : list string :=
  if has_char " " normalized && negb (has_char "/" normalized)
  then [replace_char " " "/" normalized; replace_char " " "_" normalized] else [].

Definition synonym_variants (normalized : string) : list string :=
  List.filter truthy
    (concat (map (fun token =>
       map (fun synonym => one_line (sub_once (word_re token) synonym normalized))
         (match clookup token (RETRIEVAL_QUERY_SYNONYM_MAP R) with Some l => l | None => [] end))
       (_query_terms normalized (RETRIEVAL_QUERY_EXPANSION_MAX_TERMS R)))).

Definition _expand_query_variants (query : string) : list string :=
  let normalized := one_line query in
  if negb (truthy normalized) then []
  else if negb (RETRIEVAL_QUERY_EXPANSION_ENABLED R) then [normalized]
  else add_variants (joined_variants normalized ++ synonym_variants normalized) [normalized] [lower normalized].

(** ** Scores and merging *)

(** [float(text)] of a float's own text. *)
Variable read_float : string -> Q.

(** [float(d.get(k) or 0.0)] *)
Definition number (d : dict) (k : string) : Q :=
  match dget d k with JInt z => qz z | JFloat r => read_float r | JBool true => 1 | _ => 0 end.

Definition _top_result_score (results : list dict) : Q :=
  match results with
  | [] => 0
  | r :: rs => fold_left (fun m d => Qmax m (number d "score")) rs (number r "score")
  end.

Definition _recall_should_escalate (results : list dict) (min_results : Z) (min_top_score : Q) : bool :=
  (Z.of_nat (length results) <? Z.max 1 min_results) || Qltb (_top_result_score results) (Qmin 1 (Qmax 0 min_top_score)).

Section merging.
Variables (sha1 : string -> string) (uuid_hex : nat -> string).

(** A better row replaces the one of the same identity. *)
Definition keep_better (key : string) (row : dict) (merged : list (string * dict)) : list (string * dict) :=
  match clookup key merged with
  | None => cset key row merged
  | Some existing => if Qltb (number existing "score") (number row "score") then cset key row merged else merged
  end.

Fixpoint merge_set (rows : list dict) (merged : list (string * dict)) (n : nat) : list (string * dict) * nat :=
  match rows with
  | [] => (merged, n)
  | row :: rows' =>
      let '(key, n') := _result_identity sha1 uuid_hex row n in
      merge_set rows' (keep_better key row merged) n'
  end.

(** Descending by score, then by base score. *)
Definition better_row (a b : dict) : bool :=
  Qltb (number b "score") (number a "score")
  || (Qeq_bool (number a "score") (number b "score") && Qle_bool (number b "base_score") (number a "base_score")).

Definition _merge_ranked_result_sets (result_sets : list (list dict)) (limit : Z) (n : nat) : list dict * nat :=
  let '(merged, n') := merge_set (concat result_sets) [] n in
  (upto (Z.max 1 limit) (sort_by better_row (map snd merged)), n').
End merging.

(** ** Grounding *)

(** [_parse_timestamp_to_datetime(row.get("created_at") or row.get("updated_at"))],
    in microseconds since the epoch. *)
Definition _parse_timestamp_to_datetime (value : json) : option Z :=
  let text := strip (jstr_or_empty value) in
  if negb (truthy text) then None
  else match fromisoformat (replace_char "Z" "+00:00" text) with
       | Some (us, Some off) => Some (us - off)
       | Some (us, None) => Some us
       | None => None
       end.

Definition row_time (row : dict) : option Z := _parse_timestamp_to_datetime (jor (dget row "created_at") (dget row "updated_at")).

Definition _result_timestamp_iso (row : dict) : json :=
  match row_time row with Some t => JStr (_utc_iso_from_unix t) | None => JNull end.

Definition _is_result_stale (now : Z) (row : dict) : bool :=
  match row_time row with
  | Some t => Qltb (qz t) (qz now - Qmax 1 (RECALL_STALE_HOURS R) * qz (3600 * us_per_sec))
  | None => false
  end.

Definition fact_source (row : dict) : dict :=
  [("project", dget row "project"); ("file", dget row "file"); ("source", dget row "source"); ("topic_path", dget row "topic_path");
   ("timestamp", _result_timestamp_iso row)].

Variable repr_float : Q -> string.

Definition fact_of (index : Z) (row : dict) (summary : string) : dict :=
  [("id", JStr ("fact_" +:+ str_of_Z index)); ("fact", JStr summary); ("snippet", JStr summary);
   ("score", JFloat (repr_float (number row "score"))); ("source", JObj (fact_source row));
   ("numeric_values", JList (map JStr (_extract_numeric_values_verbatim summary (RECALL_NUMERIC_FACTS_MAX R))))].

Definition numeric_fact (value summary : string) (row : dict) : dict :=
  [("value", JStr value); ("snippet", JStr summary); ("source", JObj (fact_source row)); ("verbatim", JBool true)].

Definition numeric_key (value summary : string) (row : dict) : string :=
  join "|" [value; jstr_or_empty (dget row "project"); jstr_or_empty (dget row "file"); summary].

(** The values of one row: the limit is checked after each addition. *)
Fixpoint add_numeric (values : list string) (summary : string) (row : dict) (facts : list dict) (seen : list string)
  : list dict * list string :=
  match values with
  | [] => (facts, seen)
  | v :: vs =>
      let key := numeric_key v summary row in
      if mem_str key seen then add_numeric vs summary row facts seen
      else
        let facts := facts ++ [numeric_fact v summary row] in
        if RECALL_NUMERIC_FACTS_MAX R <=? Z.of_nat (length facts) then (facts, key :: seen)
        else add_numeric vs summary row facts (key :: seen)
  end.

Definition snippet_of (row : dict) : string :=
  _topic_rollup_sanitize_text (jstr_or_empty (dget row "summary")) (RECALL_GROUNDING_SNIPPET_CHARS R).

Fixpoint ground_rows (index : Z) (rows facts numeric : list dict) (seen : list string) : list dict * list dict :=
  match rows with
  | [] => (facts, numeric)
  | row :: rows' =>
      let summary := snippet_of row in
      if negb (truthy summary) then ground_rows (index + 1) rows' facts numeric seen
      else
        let '(numeric, seen) := add_numeric (_extract_numeric_values_verbatim summary (RECALL_NUMERIC_FACTS_MAX R)) summary row numeric seen in
        ground_rows (index + 1) rows' (facts ++ [fact_of index row summary]) numeric seen
  end.

Definition _build_grounding_payload (results : list dict) : dict :=
  let fact_limit := Z.max 1 (Z.min (Z.of_nat (length results)) 64) in
  let '(facts, numeric_facts) := ground_rows 1 (upto fact_limit results) [] [] [] in
  [("strict_numeric_copy", JBool true); ("facts", JList (map JObj facts)); ("numeric_facts", JList (map JObj numeric_facts))].

(** ** Recall quality *)

Record quality_entry := mkQualityEntry {
  qe_timestamp : string; resultCount : Z; topScore : Q; qe_no_hit : bool; qe_low : bool; qe_stale : bool; qe_sources : list string;
  qe_errors : list (string * string) }.

Record recall_quality := mkQuality {
  q_requests : Z; q_no_hit : Z; q_low_confidence : Z; q_stale_hit : Z; source_requests : list (string * Z); source_errors : list (string * Z);
  quality_history : list quality_entry; quality_updated_at : option string }.
Definition no_quality : recall_quality := mkQuality 0 0 0 0 [] [] [] None.

(** [totals[name] = totals.get(name, 0) + delta] *)
Definition add_to (delta : Z) (name : string) (d : list (string * Z)) : list (string * Z) :=
  cset name (SourcePolicy.count_of d name + delta) d.

Definition source_name_of (s : string) : string := lower (strip s).

Definition count_source (d : list (string * Z)) (kv : string * Z) : list (string * Z) :=
  let name := source_name_of (fst kv) in
  if truthy name then add_to (Z.max 0 (snd kv)) name d else d.

Definition count_error (d : list (string * Z)) (kv : string * string) : list (string * Z) :=
  let name := source_name_of (fst kv) in
  if truthy name && truthy (strip (snd kv)) then add_to 1 name d else d.

Definition one_if (b : bool) : Z := if b then 1 else 0.

Definition row_sources (results : list dict) : list string :=
  sorted_set (List.filter truthy (map (fun d => source_name_of (jstr_or_empty (dget d "source"))) results)).

(** [counts] and [errors]: the rows and the error per source of the search. *)
Definition _record_recall_quality_observation (now : Z) (results : list dict) (counts : list (string * Z)) (errors : list (string * string))
    (q : recall_quality) : recall_quality :=
  let top_score := _top_result_score results in
  let no_hit := match results with [] => true | _ => false end in
  let low_confidence := Qltb top_score (RECALL_LOW_CONFIDENCE_SCORE R) in
  let stale_hit := match results with [] => false | d :: _ => _is_result_stale now d end in
  let entry := mkQualityEntry (_utc_now now) (Z.of_nat (length results)) (rnd 6 top_score) no_hit low_confidence stale_hit
                 (row_sources results) errors in
  mkQuality (q_requests q + 1) (q_no_hit q + one_if no_hit) (q_low_confidence q + one_if low_confidence) (q_stale_hit q + one_if stale_hit)
    (fold_left count_source counts (source_requests q)) (fold_left count_error errors (source_errors q))
    (let h := quality_history q ++ [entry] in skipn (length h - Z.to_nat (RECALL_QUALITY_HISTORY_LIMIT R)) h) (Some (_utc_now now)).

(** [round(part / whole, 6) if whole > 0 else 0.0] *)
Definition rate6 (part whole : Z) : Q := if 0 <? whole then rnd 6 (qz part / qz whole) else 0.

Record quality_snapshot := mkQualitySnapshot {
  qs_requests : Z; noHitRate : Q; lowConfidenceRate : Q; staleHitRate : Q; bySource : list (string * (Z * Z * Q));
  recent : list quality_entry }.

Definition _recall_quality_snapshot (q : recall_quality) : quality_snapshot :=
  let requests := Z.max 0 (q_requests q) in
  mkQualitySnapshot requests (rate6 (Z.max 0 (q_no_hit q)) requests) (rate6 (Z.max 0 (q_low_confidence q)) requests)
    (rate6 (Z.max 0 (q_stale_hit q)) requests)
    (map (fun kv => let rc := Z.max 0 (snd kv) in let ec := Z.max 0 (SourcePolicy.count_of (source_errors q) (fst kv)) in
                    (fst kv, (rc, ec, rate6 ec rc))) (source_requests q))
    (skipn (length (quality_history q) - 50) (quality_history q)).

Record alert := mkAlert { al_code : string; severity : string; al_source : option string; metric : string; al_value : Q; threshold : Q; al_requests : Z }.

Definition rate_alert (code name : string) (rate limit : Q) (requests : Z) : list alert :=
  if Qle_bool limit rate then [mkAlert code "warn" None name (rnd 6 rate) limit requests] else [].

Definition source_alert (sm : string * (Z * Z * Q)) : list alert :=
  let '(source, (requests, _, rate)) := sm in
  if (requests <? RECALL_ALERT_MIN_REQUESTS R) || Qltb rate (RECALL_ALERT_SOURCE_ERROR_RATE R) then []
  else [mkAlert "recall_source_error_rate_high" "critical" (Some source) "sourceErrorRate" (rnd 6 rate) (RECALL_ALERT_SOURCE_ERROR_RATE R) requests].

Definition _build_recall_quality_alerts (s : quality_snapshot) : list alert :=
  if qs_requests s <? RECALL_ALERT_MIN_REQUESTS R then []
  else
    rate_alert "recall_no_hit_rate_high" "noHitRate" (noHitRate s) (RECALL_ALERT_NO_HIT_RATE R) (qs_requests s)
    ++ rate_alert "recall_low_confidence_rate_high" "lowConfidenceRate" (lowConfidenceRate s) (RECALL_ALERT_LOW_CONFIDENCE_RATE R) (qs_requests s)
    ++ rate_alert "recall_stale_hit_rate_high" "staleHitRate" (staleHitRate s) (RECALL_ALERT_STALE_HIT_RATE R) (qs_requests s)
    ++ concat (map source_alert (bySource s)).
End recall.

(** ** Expectations of an evaluation *)

Definition _normalize_expected_file_token (file_name : string) : result string :=
  let! p := normalize_memory_path file_name in Ok (lower (strip p)).

Definition _result_hits_expectations (row : dict) (expected_files expected_terms : list string) : result bool :=
  let! row_file := _normalize_expected_file_token (jstr_or_empty (dget row "file")) in
  if truthy row_file && existsb (fun c => (row_file =s c) || endswith row_file c) expected_files then Ok true
  else
    let text k := lower (strip (jstr_or_empty (dget row k))) in
    let haystack := join nl [row_file; text "project"; text "source"; text "summary"] in
    Ok (existsb (fun token => truthy token && contains haystack token) expected_terms).

Fixpoint first_hit (index : Z) (rows : list dict) (expected_files expected_terms : list string) : result (option Z) :=
  match rows with
  | [] => Ok None
  | row :: rows' =>
      let! hit := _result_hits_expectations row expected_files expected_terms in
      if (hit : bool) then Ok (Some index) else first_hit (index + 1) rows' expected_files expected_terms
  end.

Definition _match_rank_within_k (results : list dict) (expected_files expected_terms : list string) (k : Z) : result (option Z) :=
  match expected_files, expected_terms with
  | [], [] => Ok None
  | _, _ => first_hit 1 (upto (Z.max 1 k) results) expected_files expected_terms
  end.

(** ** The pipeline *)

(** The settings of an agent, as its profile holds them. *)
Record recall_profile := mkProfile {
  pf_sources : option (list string); pf_weights : list (string * option Q); escalate_min_results : Z; escalate_min_top_score : Q }.
Definition no_profile : recall_profile := mkProfile None [] 0 0.

Record recall_args := mkRecallArgs {
  ra_query : string; ra_limit : Z; ra_project : option string; ra_topic : option string; ra_sources : option (list string);
  ra_weights : list (string * option Q); ra_preferences : dict; ra_rerank : bool; ra_mode : string; ra_profile : recall_profile;
  ra_auto_escalate : bool; ra_query_expansion : bool }.

Record recall_state := mkRecallState { rs_search : search_state; rs_quality : recall_quality }.

Record variant_record := mkVariant {
  v_query : string; v_index : Z; v_hops : Z; v_mode : string; v_count : Z; v_top : Q; v_hop_modes : list json; v_debug : dict }.

Record recall_answer := mkAnswer {
  an_results : list dict; an_debug : dict; an_warnings : list string; an_grounding : dict; an_variants : list variant_record }.

Section pipeline.
Variable E : search_env.
Variable R : recall_config.
Variable read_float : string -> Q.

Definition _next_retrieval_mode (mode : string) : string :=
  if _normalize_retrieval_mode (G E) mode =s RETRIEVAL_MODE_FAST then RETRIEVAL_MODE_BALANCED else RETRIEVAL_MODE_DEEP.

Definition query_variants (a : recall_args) : list string :=
  let expand_enabled := ra_query_expansion a && RETRIEVAL_QUERY_EXPANSION_ENABLED R in
  match List.filter truthy (if expand_enabled then _expand_query_variants R (ra_query a) else [one_line (ra_query a)]) with
  | [] => [strip (ra_query a)]
  | l => l
  end.

Definition merged_weights (a : recall_args) : list (string * option Q) :=
  fold_left (fun d kv => cset (fst kv) (snd kv) d) (ra_weights a) (pf_weights (ra_profile a)).

Definition min_results (a : recall_args) : Z :=
  if escalate_min_results (ra_profile a) =? 0 then AGENT_RECALL_ESCALATE_MIN_RESULTS R else escalate_min_results (ra_profile a).
Definition min_top_score (a : recall_args) : Q :=
  if Qeq_bool (escalate_min_top_score (ra_profile a)) 0 then AGENT_RECALL_ESCALATE_MIN_TOP_SCORE R else escalate_min_top_score (ra_profile a).
Definition escalation_enabled (a : recall_args) : bool := AGENT_RECALL_ESCALATION_ENABLED R && ra_auto_escalate a.

Definition hop_args (a : recall_args) (query mode : string) : search_args :=
  mkArgs query (ra_limit a) (ra_project a) (ra_topic a)
    (match ra_sources a with Some l => l | None => match pf_sources (ra_profile a) with Some l => l | None => [] end end)
    (merged_weights a) (ra_preferences a) (ra_rerank a) mode true.

(** The loop over the modes: the bundles in order and the last mode.  [fuel]
    counts the modes that are left; see [hops_terminate]. *)
Fixpoint hops (fuel : nat) (a : recall_args) (query mode : string) (hop_count : Z) : ST search_state (list bundle * string) :=
  b <- federated_search_memory E (hop_args a query mode) ;;
  let hop_count := hop_count + 1 in
  let should_escalate := escalation_enabled a && _recall_should_escalate read_float (results b) (min_results a) (min_top_score a) in
  if negb should_escalate || (mode =s RETRIEVAL_MODE_DEEP) || (AGENT_RECALL_MAX_ESCALATION_STEPS R <=? hop_count) then st_ret ([b], mode)
  else
    match fuel with
    | O => st_raise (OtherError "fuel" "")
    | S fuel' =>
        rest <- hops fuel' a query (_next_retrieval_mode mode) hop_count ;;
        st_ret (b :: fst rest, snd rest)
    end.

(** [row.setdefault(k, v)] *)
Definition setdefault (k : string) (v : json) (d : dict) : dict := match dlookup k d with Some _ => d | None => d ++ [(k, v)] end.

Definition merge_results (sets : list (list dict)) (limit : Z) : ST search_state (list dict) := fun s =>
  let '(rows, n) := _merge_ranked_result_sets read_float (sha1 E) (uuid_hex E) sets limit (uuids s) in (set_uuids n s, Ok rows).

Definition run_variant (a : recall_args) (index : Z) (query : string) : ST search_state (list dict * variant_record * list string) :=
  hs <- hops 2 a query (_normalize_retrieval_mode (G E) (ra_mode a)) 0 ;;
  let '(bundles, mode) := hs in
  merged <- merge_results (map results bundles) (Z.max (ra_limit a * 3) (ra_limit a)) ;;
  let rows := map (fun d => setdefault "retrieval_mode_used" (JStr mode) (setdefault "query_variant" (JStr query) d)) merged in
  let record := mkVariant query index (Z.of_nat (length bundles)) mode (Z.of_nat (length rows)) (rnd 6 (_top_result_score read_float rows))
                  (map (fun b => dget (retrieval_debug b) "retrieval_mode") bundles)
                  (match last bundles with Some b => retrieval_debug b | None => [] end) in
  st_ret (rows, record, concat (map bundle_warnings bundles)).

(** The variants in turn; the first may be enough. *)
Fixpoint run_variants (a : recall_args) (index : Z) (queries : list string)
  : ST search_state (list (list dict) * list variant_record * list string) :=
  match queries with
  | [] => st_ret ([], [], [])
  | query :: rest =>
      v <- run_variant a index query ;;
      let '(rows, record, ws) := v in
      if (index =? 0) && negb (_recall_should_escalate read_float rows (Z.max 1 (Z.min (ra_limit a) (min_results a))) (min_top_score a))
      then st_ret ([rows], [record], ws)
      else
        more <- run_variants a (index + 1) rest ;;
        let '(sets, records, ws') := more in
        st_ret (rows :: sets, record :: records, ws ++ ws')
  end.

(** The best variant, the first of equals. *)
Definition better_variant (a b : variant_record) : bool :=
  Qltb (v_top a) (v_top b) || (Qeq_bool (v_top a) (v_top b) && (v_count a <? v_count b)).
Definition best_variant (l : list variant_record) : option variant_record :=
  match l with [] => None | r :: rs => Some (fold_left (fun m x => if better_variant m x then x else m) rs r) end.

Definition merge_errors (errors : list (string * string)) (debug : dict) : list (string * string) :=
  fold_left (fun acc kv =>
      let message := jstr_or_empty (snd kv) in
      if truthy (fst kv) && negb (mem_str (fst kv) (map fst acc)) && truthy (strip message) then acc ++ [(fst kv, message)] else acc)
    (as_dict (dget debug "source_errors")) errors.

Definition json_int (j : json) : Z := match j with JInt z => z | JBool true => 1 | _ => 0 end.

Definition merge_counts (counts : list (string * Z)) (debug : dict) : list (string * Z) :=
  fold_left (fun acc kv =>
      if truthy (fst kv) then cset (fst kv) (Z.max (SourcePolicy.count_of acc (fst kv)) (json_int (snd kv))) acc else acc)
    (as_dict (dget debug "source_counts")) counts.

Definition pipeline_debug (a : recall_args) (records : list variant_record) : json :=
  let f q := JFloat (repr_float E q) in
  JObj [("query_expansion",
         JObj [("enabled", JBool (ra_query_expansion a && RETRIEVAL_QUERY_EXPANSION_ENABLED R));
               ("max_variants", JInt (RETRIEVAL_QUERY_EXPANSION_MAX_VARIANTS R));
               ("variants_considered", JList (map JStr (query_variants a)));
               ("variants_used", JList (map (fun r => JStr (v_query r)) records))]);
        ("escalation",
         JObj [("enabled", JBool (escalation_enabled a)); ("max_steps", JInt (AGENT_RECALL_MAX_ESCALATION_STEPS R));
               ("min_results", JInt (min_results a)); ("min_top_score", f (min_top_score a));
               ("variants", JList (map (fun r =>
                  JObj [("query", JStr (v_query r)); ("hop_count", JInt (v_hops r)); ("escalated", JBool (1 <? v_hops r));
                        ("final_mode", JStr (v_mode r)); ("top_score", f (v_top r)); ("result_count", JInt (v_count r))]) records))])].

Definition _run_memory_recall_pipeline (a : recall_args) : ST recall_state recall_answer := fun s =>
  match (sets <- run_variants a 0 (query_variants a) ;;
         let '(rows, records, ws) := sets in
         merged <- merge_results rows (ra_limit a) ;;
         n <- tick ;;
         st_ret (merged, records, ws, clock E n)) (rs_search s) with
  | (s', Raise e) => (mkRecallState s' (rs_quality s), Raise e)
  | (s', Ok (merged, records, ws, now)) =>
      let best_debug := match best_variant records with Some r => v_debug r | None => [] end in
      let errors := fold_left merge_errors (map v_debug records) [] in
      let counts := fold_left merge_counts (map v_debug records) [] in
      let mode := _normalize_retrieval_mode (G E) (jstr (jor (dget best_debug "retrieval_mode") (JStr (_normalize_retrieval_mode (G E) (ra_mode a))))) in
      let debug := dset "pipeline" (pipeline_debug a records)
        (dset "source_counts" (JObj (map (fun kv => (fst kv, JInt (snd kv))) counts))
        (dset "source_errors" (JObj (map (fun kv => (fst kv, JStr (snd kv))) errors))
        (dset "retrieval_mode" (JStr mode) best_debug))) in
      (mkRecallState s' (_record_recall_quality_observation R read_float now merged counts errors (rs_quality s)),
       Ok (mkAnswer merged debug (dedupe (List.filter truthy (map strip ws))) (_build_grounding_payload R read_float (repr_float E) merged) records))
  end.
End pipeline.
