(* ===== verification/RecallFacts.v ===== *)
(** * The recall pipeline: theorems

    The pipeline always answers after a bounded number of searches, merges the
    best row of every identity in order, and grounds its answer on values copied
    verbatim; two limits and one rate do not count what they say. *)

From S2P Require Import Prelude PyStr PyTime Json JsonText IsoParse Paths Policy OutboxMaint WriteBuffer WriteBufferFacts Regex Secrets Lru Caches Ranking RankingFacts SourcePolicy SourcePolicyFacts Federated FederatedFacts Sources SourcesFacts Recall.
From Stdlib Require Import Ascii QArith Qminmax Lqa.
Open Scope Z_scope.

(** ** Hops *)

Section hops.
Variable E : search_env.
Variable R : recall_config.
Variable read_float : string -> Q.

(** How many deeper modes there are. *)
Definition deeper (mode : string) : nat :=
  if mode =s RETRIEVAL_MODE_FAST then 2 else if mode =s RETRIEVAL_MODE_BALANCED then 1 else 0.

Lemma normalize_known mode : In mode RETRIEVAL_MODES -> _normalize_retrieval_mode (G E) mode = mode.
Proof. intros [<-|[<-|[<-|[]]]]; reflexivity. Qed.

Lemma normalized_known mode : In (_normalize_retrieval_mode (G E) mode) RETRIEVAL_MODES.
Proof. unfold _normalize_retrieval_mode. destruct (mem_str _ RETRIEVAL_MODES) eqn:Em; [by apply mem_str_In|]. cbn. tauto. Qed.

Lemma next_mode mode : In mode RETRIEVAL_MODES -> mode <> RETRIEVAL_MODE_DEEP ->
  In (_next_retrieval_mode E mode) RETRIEVAL_MODES /\ deeper mode = S (deeper (_next_retrieval_mode E mode)).
Proof.
  intros Hm Hd. unfold _next_retrieval_mode. rewrite normalize_known by done.
  destruct Hm as [<-|[<-|[<-|[]]]]; cbn; [tauto..|done].
Qed.

(** The modes from [mode] on, shallow to deep. *)
Definition ladder_from (mode : string) : list string :=
  if mode =s "fast" then ["fast"; "balanced"; "deep"] else if mode =s "balanced" then ["balanced"; "deep"] else ["deep"].

(** The searches ran in the first modes of the ladder from [start] on, the last
    of them in [final]. *)
Definition climbs (start : string) (modes : list string) (final : string) : Prop :=
  modes = firstn (length modes) (ladder_from start) /\ last modes = Some final.

Lemma ladder_next mode : In mode RETRIEVAL_MODES -> mode <> RETRIEVAL_MODE_DEEP ->
  ladder_from mode = mode :: ladder_from (_next_retrieval_mode E mode).
Proof.
  intros Hm Hd. unfold _next_retrieval_mode. rewrite normalize_known by done. destruct Hm as [<-|[<-|[<-|[]]]]; done.
Qed.

Lemma climbs_one mode : In mode RETRIEVAL_MODES -> climbs mode [mode] mode.
Proof. intros [<-|[<-|[<-|[]]]]; by split. Qed.

(** [b] is what a search with [query] in [mode] answers in some state. *)
Definition searched (a : recall_args) (query mode : string) (b : bundle) : Prop :=
  exists s s', templates_ok s /\ federated_search_memory E (hop_args a query mode) s = (s', Ok b).

Lemma hops_terminate fuel a query mode k s : templates_ok s -> In mode RETRIEVAL_MODES -> (deeper mode <= fuel)%nat ->
  exists s' bundles mode' modes, hops E R read_float fuel a query mode k s = (s', Ok (bundles, mode')) /\ templates_ok s' /\
    (1 <= length bundles <= S (deeper mode))%nat /\ In mode' RETRIEVAL_MODES /\
    Z.of_nat (length bundles) <= Z.max 1 (AGENT_RECALL_MAX_ESCALATION_STEPS R - k) /\
    Forall2 (searched a query) modes bundles /\ climbs mode modes mode'.
Proof.
  revert mode k s. induction fuel as [|fuel IH]; intros mode k s Ht Hm Hf; cbn [hops]; unfold st_bind at 1;
    destruct (search_ok E (hop_args a query mode) s Ht) as (s1 & b & p & Eb & Ht1 & _); rewrite Eb; cbv zeta;
    assert (searched a query mode b) as Hb by (by exists s, s1);
    destruct (negb _ || (mode =s RETRIEVAL_MODE_DEEP) || (_ <=? _)) eqn:Es.
  1,3: exists s1, [b], mode, [mode]; split; [done|]; split; [done|]; cbn [length]; split; [lia|]; split; [done|]; split; [lia|];
    split; [by constructor; [|constructor]|by apply climbs_one].
  - apply orb_false_iff in Es as [[_ Hd]%orb_false_iff _]. apply String.eqb_neq in Hd.
    exfalso. destruct Hm as [<-|[<-|[<-|[]]]]; [cbn in Hf; lia..|done].
  - apply orb_false_iff in Es as [[_ Hd]%orb_false_iff Hk]. apply String.eqb_neq in Hd. apply Z.leb_gt in Hk.
    destruct (next_mode mode Hm Hd) as [Hm' He].
    destruct (IH (_next_retrieval_mode E mode) (k + 1) s1 Ht1 Hm' ltac:(lia)) as (s2 & bs & m2 & modes & Eh & Ht2 & Hbs & Hm2 & Hc & Hf2 & Hcl & Hlast).
    unfold st_bind. rewrite Eh. exists s2, (b :: bs), m2, (mode :: modes). split; [done|]. split; [done|]. cbn [length].
    split; [lia|]. split; [done|]. split; [lia|]. split; [by constructor|]. split.
    + cbn [length firstn]. rewrite (ladder_next mode Hm Hd). cbn [firstn]. by f_equal.
    + destruct modes as [|m ms]; [by cbn in Hlast|]. exact Hlast.
Qed.

(** ** Variants *)

Lemma add_variants_length cands variants seen :
  Z.of_nat (length (add_variants R cands variants seen)) <= Z.max (Z.of_nat (length variants) + 1) (RETRIEVAL_QUERY_EXPANSION_MAX_VARIANTS R).
Proof.
  revert variants seen. induction cands as [|c cs IH]; intros variants seen; cbn [add_variants]; [lia|].
  destruct (mem_str _ _); [apply IH|]. cbv zeta. destruct (Z.leb_spec (RETRIEVAL_QUERY_EXPANSION_MAX_VARIANTS R) (Z.of_nat (length (variants ++ [c]))));
    [rewrite length_app; cbn; lia|].
  specialize (IH (variants ++ [c]) (lower c :: seen)). rewrite length_app in *. cbn [length] in *. lia.
Qed.

Lemma variants_bounds a : let n := Z.of_nat (length (query_variants R a)) in
  1 <= n <= Z.max 2 (RETRIEVAL_QUERY_EXPANSION_MAX_VARIANTS R).
Proof.
  cbv zeta. unfold query_variants. set (l := if ra_query_expansion a && RETRIEVAL_QUERY_EXPANSION_ENABLED R then _expand_query_variants R (ra_query a) else [one_line (ra_query a)]).
  assert (Z.of_nat (length l) <= Z.max 2 (RETRIEVAL_QUERY_EXPANSION_MAX_VARIANTS R)) as Hl.
  { unfold l. destruct (_ && _); [|cbn; lia]. unfold _expand_query_variants. destruct (negb _); [cbn; lia|]. destruct (negb _); [cbn; lia|].
    pose proof (add_variants_length (joined_variants (one_line (ra_query a)) ++ synonym_variants R (one_line (ra_query a)))
      [one_line (ra_query a)] [lower (one_line (ra_query a))]). cbn [length] in *. lia. }
  pose proof (filter_length_le truthy l). destruct (List.filter truthy l); cbn [length] in *; lia.
Qed.

Lemma merge_results_ok sets limit s : templates_ok s -> exists s' rows,
  merge_results E read_float sets limit s = (s', Ok rows) /\ templates_ok s' /\ Z.of_nat (length rows) <= Z.max 1 limit /\
  exists n, rows = fst (_merge_ranked_result_sets read_float (sha1 E) (uuid_hex E) sets limit n).
Proof.
  intros Ht. assert (exists s' rows, merge_results E read_float sets limit s = (s', Ok rows) /\ templates_ok s' /\
    rows = fst (_merge_ranked_result_sets read_float (sha1 E) (uuid_hex E) sets limit (uuids s))) as (s' & rows & Em & Ht' & Hr).
  { unfold merge_results. destruct (_merge_ranked_result_sets _ _ _ _ _ _) as [m n]. by do 2 eexists. }
  exists s', rows. split; [done|]. split; [done|]. split; [|by exists (uuids s)]. rewrite Hr.
  unfold _merge_ranked_result_sets. destruct (merge_set _ _ _ _ _ _) as [m n]. cbn [fst]. unfold upto. destruct (Z.ltb_spec (Z.max 1 limit) 0); [lia|].
  rewrite length_firstn. lia.
Qed.

(** What a variant did: a bounded number of searches in ever deeper modes, the
    rows of which are merged into [rows]. *)
Definition variant_ok (a : recall_args) (v : variant_record) (rows : list dict) : Prop :=
  1 <= v_hops v <= Z.max 1 (Z.min 3 (AGENT_RECALL_MAX_ESCALATION_STEPS R)) /\ In (v_mode v) RETRIEVAL_MODES /\
  exists modes bundles n, v_hops v = Z.of_nat (length bundles) /\ v_hop_modes v = map JStr modes /\
    climbs (_normalize_retrieval_mode (G E) (ra_mode a)) modes (v_mode v) /\
    Forall2 (searched a (v_query v)) modes bundles /\
    rows = map (fun d => setdefault "retrieval_mode_used" (JStr (v_mode v)) (setdefault "query_variant" (JStr (v_query v)) d))
             (fst (_merge_ranked_result_sets read_float (sha1 E) (uuid_hex E) (map results bundles) (Z.max (ra_limit a * 3) (ra_limit a)) n)).

Lemma searched_modes a query modes bundles : Forall2 (searched a query) modes bundles ->
  (forall m, In m modes -> In m RETRIEVAL_MODES) -> map (fun b => dget (retrieval_debug b) "retrieval_mode") bundles = map JStr modes.
Proof.
  induction 1 as [|m b modes bundles (s & s' & Ht & Hs) _ IH]; intros Hm; [done|]. cbn [map].
  rewrite (search_mode_used E _ _ _ _ Ht Hs). cbn [retrieval_mode hop_args].
  rewrite normalize_known by (apply Hm; by left). f_equal. apply IH. intros m' H. apply Hm. by right.
Qed.

Lemma climbs_known start modes final m : climbs start modes final -> In m modes -> In m RETRIEVAL_MODES.
Proof.
  intros [H _] Hm. rewrite H in Hm. apply firstn_incl in Hm. unfold ladder_from in Hm.
  repeat (destruct (_ =s _) in Hm; [cbn in *; tauto|]). cbn in *. tauto.
Qed.

Lemma run_variant_ok a index query s : templates_ok s -> exists s' rows v ws,
  run_variant E R read_float a index query s = (s', Ok (rows, v, ws)) /\ templates_ok s' /\ variant_ok a v rows /\ v_query v = query.
Proof.
  intros Ht. unfold run_variant. unfold st_bind at 1. pose proof (normalized_known (ra_mode a)) as Hm.
  destruct (hops_terminate 2 a query (_normalize_retrieval_mode (G E) (ra_mode a)) 0 s Ht Hm) as (s1 & bs & m & modes & -> & Ht1 & Hb & Hm1 & Hc & Hf2 & Hcl).
  { unfold deeper. destruct (_ =s _); [lia|]. destruct (_ =s _); lia. }
  unfold st_bind. destruct (merge_results_ok (map results bs) (Z.max (ra_limit a * 3) (ra_limit a)) s1 Ht1) as (s2 & rows & -> & Ht2 & _ & n & Hrows).
  do 4 eexists. split; [reflexivity|]. split; [done|]. split; [|done]. split; [|split; [done|]]; cbn [v_hops v_mode v_query v_hop_modes].
  - assert (deeper (_normalize_retrieval_mode (G E) (ra_mode a)) <= 2)%nat by (unfold deeper; destruct (_ =s _); [lia|]; destruct (_ =s _); lia).
    lia.
  - exists modes, bs, n. split; [done|]. split; [|split; [done|split; [done|by rewrite Hrows]]].
    eapply searched_modes; [exact Hf2|]. intros m' Hm'. by eapply climbs_known.
Qed.

Lemma run_variants_ok a queries : forall index s, templates_ok s -> exists s' sets records ws,
  run_variants E R read_float a index queries s = (s', Ok (sets, records, ws)) /\ templates_ok s' /\
  Forall2 (variant_ok a) records sets /\ (exists rest, queries = map v_query records ++ rest) /\
  (length records <= length queries)%nat /\ (queries <> [] -> records <> []).
Proof.
  induction queries as [|query rest IH]; intros index s Ht; cbn [run_variants].
  { exists s, [], [], []. split; [done|]. split; [done|]. split; [constructor|]. split; [by exists []|]. split; [cbn; lia|done]. }
  unfold st_bind at 1. destruct (run_variant_ok a index query s Ht) as (s1 & rows & v & ws & -> & Ht1 & Hv & Hq).
  destruct ((index =? 0) && _).
  { do 4 eexists. split; [reflexivity|]. split; [done|]. split; [by constructor; [|constructor]|]. split; [exists rest; cbn; by rewrite Hq|].
    cbn. split; [lia|done]. }
  unfold st_bind. destruct (IH (index + 1) s1 Ht1) as (s2 & sets & records & ws' & -> & Ht2 & Hr & [rest' Hq'] & Hl & _).
  do 4 eexists. split; [reflexivity|]. split; [done|]. split; [by constructor|]. split; [exists rest'; cbn; by rewrite Hq, Hq'|].
  cbn. split; [lia|done].
Qed.
End hops.

(** ** Merging *)

Section merging.
Variable read_float : string -> Q.
Variables (sha1 : string -> string) (uuid_hex : nat -> string).

Abbreviation score_of d := (number read_float d "score").
Abbreviation keep := (keep_better read_float).

(** The rows with their identities. *)
Fixpoint identified (rows : list dict) (n : nat) : list (string * dict) * nat :=
  match rows with
  | [] => ([], n)
  | row :: rows' =>
      let '(key, n') := _result_identity sha1 uuid_hex row n in
      let '(l, n'') := identified rows' n' in ((key, row) :: l, n'')
  end.

Lemma merge_set_fold rows : forall merged n,
  merge_set read_float sha1 uuid_hex rows merged n =
    (fold_left (fun m kr => keep (fst kr) (snd kr) m) (fst (identified rows n)) merged, snd (identified rows n)).
Proof.
  induction rows as [|row rows IH]; intros merged n; cbn; [done|].
  destruct (_result_identity _ _ _ _) as [key n']. rewrite IH. by destruct (identified rows n').
Qed.

(** What has been merged: one row per identity, none of the given rows better. *)
Definition best_of (given merged : list (string * dict)) : Prop :=
  List.NoDup (map fst merged) /\ (forall kr, In kr merged -> In kr given) /\
  (forall k r, In (k, r) given -> exists r', In (k, r') merged /\ (score_of r <= score_of r')%Q).

Lemma keep_best given merged k r : best_of given merged -> best_of (given ++ [(k, r)]) (keep k r merged).
Proof.
  intros (Hn & Hin & Hbest). unfold keep_better.
  assert (forall m, (forall kr, In kr m -> kr = (k, r) \/ In kr merged) -> forall kr, In kr m -> In kr (given ++ [(k, r)])) as Hsub.
  { intros m Hm kr Hkr. apply in_app_iff. destruct (Hm kr Hkr) as [->|H]; [right; by left|left; auto]. }
  assert (best_of (given ++ [(k, r)]) (cset k r merged) \/ exists e, clookup k merged = Some e /\ (score_of r <= score_of e)%Q) as Hc.
  { destruct (clookup k merged) as [e|] eqn:El.
    - destruct (Qlt_le_dec (score_of e) (score_of r)) as [Hlt|Hle]; [left|right; eauto].
      split; [by apply cset_NoDup|]. split; [apply Hsub; intros kr; apply cset_In|].
      intros k' r' [H|[[= <- <-]|[]]]%in_app_iff; [|exists r; split; [apply cset_has|lra]].
      destruct (Hbest k' r' H) as (x & Hx & Hs). destruct (decide (k' = k)) as [->|Hne]; [|exists x; split; [by apply cset_keeps|done]].
      exists r. split; [apply cset_has|]. apply clookup_NoDup in Hx; [|done]. rewrite El in Hx. injection Hx as ->. lra.
    - left. split; [by apply cset_NoDup|]. split; [apply Hsub; intros kr; apply cset_In|].
      intros k' r' [H|[[= <- <-]|[]]]%in_app_iff; [|exists r; split; [apply cset_has|lra]].
      destruct (Hbest k' r' H) as (x & Hx & Hs). exists x. split; [|done]. apply cset_keeps; [|done].
      intros ->. apply (clookup_None k merged); [|done]. by apply (in_map fst) in Hx. }
  destruct (clookup k merged) as [e|] eqn:El; [|by destruct Hc as [Hc|(e & [=] & _)]].
  destruct (Qltb (score_of e) (score_of r)) eqn:Eq.
  - destruct Hc as [Hc|(e' & [= ->] & Hle)]; [done|]. apply Qltb_true in Eq. lra.
  - apply Qltb_false in Eq. split; [done|]. split; [apply Hsub; tauto|].
    intros k' r' [H|[[= <- <-]|[]]]%in_app_iff; [auto|]. exists e. split; [by apply clookup_In|done].
Qed.

Lemma merge_best l : forall given merged, best_of given merged ->
  best_of (given ++ l) (fold_left (fun m kr => keep (fst kr) (snd kr) m) l merged).
Proof.
  induction l as [|[k r] l IH]; intros given merged Hb; cbn; [by rewrite app_nil_r|].
  rewrite (cons_middle (k, r) given l), app_assoc. by apply IH, keep_best.
Qed.

Lemma better_row_iff a b : better_row read_float a b = true <->
  (score_of b < score_of a)%Q \/ ((score_of a == score_of b)%Q /\ (number read_float b "base_score" <= number read_float a "base_score")%Q).
Proof. unfold better_row. by rewrite orb_true_iff, andb_true_iff, Qltb_true, Qeq_bool_iff, Qle_bool_iff. Qed.

Lemma better_row_total a b : better_row read_float a b = true \/ better_row read_float b a = true.
Proof.
  rewrite !better_row_iff. destruct (Q_dec (score_of a) (score_of b)) as [[H|H]|H]; [by right; left|by left; left|].
  destruct (Qlt_le_dec (number read_float a "base_score") (number read_float b "base_score")); [right|left]; right; split; lra.
Qed.

Lemma better_row_trans a b c : better_row read_float a b = true -> better_row read_float b c = true -> better_row read_float a c = true.
Proof. rewrite !better_row_iff. intros [H1|[H1 H1']] [H2|[H2 H2']]; [left; lra|left; lra|left; lra|right; split; lra]. Qed.

Lemma StronglySorted_app_parts {A} (R : A -> A -> Prop) l1 l2 x y : StronglySorted R (l1 ++ l2) -> In x l1 -> In y l2 -> R x y.
Proof.
  induction l1 as [|a l1 IH]; cbn; [done|]. intros [Hs Hf]%StronglySorted_inv [<-|H] Hy; [|auto].
  rewrite List.Forall_forall in Hf. apply Hf, in_app_iff. by right.
Qed.

(** Merging result sets keeps, for every identity, one row, and none of the
    given rows of that identity has a higher score.  What is returned is the
    first [max 1 limit] of them in descending order of score and base score:
    no row left out ranks above a row returned. *)
Theorem merged_sets_rank_best sets limit n :
  let rows := fst (_merge_ranked_result_sets read_float sha1 uuid_hex sets limit n) in
  exists best rest, best_of (fst (identified (concat sets) n)) best /\
    Permutation (map snd best) (rows ++ rest) /\
    length rows = Nat.min (Z.to_nat (Z.max 1 limit)) (length best) /\
    StronglySorted (fun a b => better_row read_float a b = true) rows /\
    (forall a b, In a rows -> In b rest -> better_row read_float a b = true).
Proof.
  cbv zeta. unfold _merge_ranked_result_sets. rewrite merge_set_fold. cbn [fst].
  set (best := fold_left _ _ _). set (sorted := sort_by _ (map snd best)).
  assert (StronglySorted (fun a b => better_row read_float a b = true) sorted) as Hs
    by (apply sort_by_sorted; [apply better_row_total|apply better_row_trans]).
  assert (upto (Z.max 1 limit) sorted = firstn (Z.to_nat (Z.max 1 limit)) sorted) as Hu
    by (unfold upto; destruct (Z.ltb_spec (Z.max 1 limit) 0); [lia|done]).
  exists best, (skipn (Z.to_nat (Z.max 1 limit)) sorted). rewrite Hu. split; [|split; [|split; [|split]]].
  - apply (merge_best _ [] []). split; [constructor|]. split; [done|]. intros k r [].
  - rewrite firstn_skipn. symmetry. apply sort_by_perm.
  - rewrite length_firstn. unfold sorted. by rewrite sort_by_length, length_map.
  - by apply StronglySorted_firstn.
  - intros a b. apply (StronglySorted_app_parts (fun a b => better_row read_float a b = true)). by rewrite firstn_skipn.
Qed.
End merging.

(** ** The answer *)

Section answer.
Variable E : search_env.
Variable R : recall_config.
Variable read_float : string -> Q.

(** The rows of an answer are the best of [sets]: one of the best rows per
    identity, in order, and none left out ranks above one returned. *)
Definition best_rows (sets : list (list dict)) (limit : Z) (rows : list dict) : Prop :=
  exists n best rest, best_of read_float (fst (identified (sha1 E) (uuid_hex E) (concat sets) n)) best /\
    Permutation (map snd best) (rows ++ rest) /\
    length rows = Nat.min (Z.to_nat (Z.max 1 limit)) (length best) /\
    StronglySorted (fun a b => better_row read_float a b = true) rows /\
    (forall a b, In a rows -> In b rest -> better_row read_float a b = true).

Lemma pipeline_answers a s : templates_ok (rs_search s) -> exists s' ans sets,
  _run_memory_recall_pipeline E R read_float a s = (s', Ok ans) /\ templates_ok (rs_search s') /\
  Forall2 (variant_ok E R read_float a) (an_variants ans) sets /\
  (exists rest, query_variants R a = map v_query (an_variants ans) ++ rest) /\
  best_rows sets (ra_limit a) (an_results ans) /\
  1 <= Z.of_nat (length (an_variants ans)) <= Z.max 2 (RETRIEVAL_QUERY_EXPANSION_MAX_VARIANTS R) /\
  Z.of_nat (length (an_results ans)) <= Z.max 1 (ra_limit a) /\
  q_requests (rs_quality s') = q_requests (rs_quality s) + 1.
Proof.
  intros Ht. unfold _run_memory_recall_pipeline. pose proof (variants_bounds R a) as Hv. cbv zeta in Hv.
  unfold st_bind at 1. destruct (run_variants_ok E R read_float a (query_variants R a) 0 (rs_search s) Ht)
    as (s1 & sets & records & ws & -> & Ht1 & Hr & Hq & Hl & Hne).
  unfold st_bind at 1. destruct (merge_results_ok E read_float sets (ra_limit a) s1 Ht1) as (s2 & rows & -> & Ht2 & Hrows & n & Hn).
  unfold st_bind, tick. do 2 eexists. exists sets. split; [reflexivity|]. split; [exact Ht2|]. split; [exact Hr|]. split; [exact Hq|].
  cbn [an_variants an_results rs_quality]. split; [|split; [|split; [exact Hrows|reflexivity]]].
  { exists n. rewrite Hn. apply merged_sets_rank_best. }
  assert (records <> []) as H by (apply Hne; intros Hq0; rewrite Hq0 in Hv; cbn in Hv; lia). destruct records; cbn [length] in *; [done|lia].
Qed.

(** C7: while the cached templates name known sources, recall always answers.
    The variants tried are the first of the variants of the query, at least
    one and at most [max 2 MAX_VARIANTS].  Each makes at least one and at most
    [max 1 (min 3 steps)] searches, in the modes fast, balanced, deep in this
    order from the requested mode on, so that every escalation goes to the next
    deeper mode, and its rows are the merged rows of these searches.  What is
    returned is the best row of every identity among the rows of all variants,
    best first, at most [max 1 limit] of them and none left out ranking above
    one returned, and the call is counted once in the recall quality. *)
Theorem recall_always_answers a s : templates_ok (rs_search s) -> exists s' ans sets,
  _run_memory_recall_pipeline E R read_float a s = (s', Ok ans) /\ templates_ok (rs_search s') /\
  Forall2 (variant_ok E R read_float a) (an_variants ans) sets /\
  (exists rest, query_variants R a = map v_query (an_variants ans) ++ rest) /\
  best_rows sets (ra_limit a) (an_results ans) /\
  1 <= Z.of_nat (length (an_variants ans)) <= Z.max 2 (RETRIEVAL_QUERY_EXPANSION_MAX_VARIANTS R) /\
  Z.of_nat (length (an_results ans)) <= Z.max 1 (ra_limit a) /\
  q_requests (rs_quality s') = q_requests (rs_quality s) + 1.
Proof. apply pipeline_answers. Qed.
End answer.

(** ** Grounding *)

(** [v] is a part of [s]. *)
Definition part_of (v s : string) : Prop := exists a b, s = a +:+ v +:+ b.

Lemma part_of_refl s : part_of s s.
Proof. exists "", "". change ("" +:+ (s +:+ "")) with (s +:+ ""). by rewrite append_nil_r. Qed.

Lemma part_of_cons v c s : part_of v s -> part_of v (String c s).
Proof. intros (a & b & ->). by exists (String c a), b. Qed.

Lemma part_of_trans u v s : part_of u v -> part_of v s -> part_of u s.
Proof. intros (a & b & ->) (a' & b' & ->). exists (a' +:+ a), (b +:+ b'). by rewrite !append_assoc. Qed.

Lemma take_part n : forall s, part_of (take n s) s.
Proof.
  induction n as [|n IH]; intros [|c s]; cbn; try apply part_of_refl; [by exists "", (String c s)|].
  assert (exists b, s = take n s +:+ b) as [b Hb].
  { clear. revert s. induction n as [|n IH]; intros s; [by exists s|]. destruct s as [|c s]; [by exists ""|].
    destruct (IH s) as [b Hb]. exists b. cbn [take]. by rewrite append_cons, <- Hb. }
  exists "", b. change ("" +:+ (String c (take n s) +:+ b)) with (String c (take n s) +:+ b). by rewrite append_cons, <- Hb.
Qed.

Lemma lstrip_part p s : part_of (lstrip_by p s) s.
Proof. induction s as [|c s IH]; cbn; [apply part_of_refl|]. destruct (p c); [by apply part_of_cons|apply part_of_refl]. Qed.

Lemma rstrip_part p s : exists b, s = rstrip_by p s +:+ b.
Proof.
  induction s as [|c s [b IH]]; [by exists ""|]. cbn [rstrip_by]. destruct (rstrip_by p s) as [|d t] eqn:Er.
  - destruct (p c); [by exists (String c s)|]. by exists s.
  - exists b. by rewrite append_cons, <- IH.
Qed.

Lemma strip_part s : part_of (strip s) s.
Proof.
  unfold strip, strip_by. eapply part_of_trans; [|apply (lstrip_part is_space)].
  destruct (rstrip_part is_space (lstrip_by is_space s)) as [b Hb]. by exists "", b.
Qed.

Lemma reaches_part q q' : reaches q q' -> part_of (snd q') (snd q).
Proof. induction 1; [apply part_of_refl|]. by apply part_of_cons. Qed.

Lemma findall_from_part r v fuel : forall prev s, In v (findall_from fuel r prev s) -> part_of v s.
Proof.
  induction fuel as [|fuel IH]; intros prev [|c s]; cbn [findall_from]; try done.
  destruct (match_at r (prev, String c s)) as [q|] eqn:Em; [|intros H; by eapply part_of_cons, IH].
  intros [<-|H]; [apply take_part|]. apply match_at_sound, matches_reaches, reaches_part in Em.
  eapply part_of_trans; [by eapply IH|]. exact Em.
Qed.

Lemma numeric_values_part v text limit : In v (_extract_numeric_values_verbatim text limit) -> v <> "" /\ part_of v text.
Proof.
  intros H%firstn_incl. apply dedupe_In, filter_In in H as [(w & <- & Hw)%in_map_iff Ht].
  split; [by intros Hv; rewrite Hv in Ht|]. eapply part_of_trans; [apply strip_part|]. by eapply findall_from_part.
Qed.

Section grounding.
Variable R : recall_config.
Variable read_float : string -> Q.
Variable repr_float : Q -> string.

(** A numeric fact that a row supports. *)
Definition supported (rows : list dict) (f : dict) : Prop :=
  exists row v, In row rows /\ f = numeric_fact v (snippet_of R row) row /\ v <> "" /\ part_of v (snippet_of R row).

Lemma add_numeric_In values summary row f : forall facts seen,
  In f (fst (add_numeric R values summary row facts seen)) -> In f facts \/ exists v, In v values /\ f = numeric_fact v summary row.
Proof.
  induction values as [|v vs IH]; intros facts seen; cbn [add_numeric]; [by left|].
  assert (forall l, In f (l ++ [numeric_fact v summary row]) -> In f l \/ exists w, In w (v :: vs) /\ f = numeric_fact w summary row) as Hl.
  { intros l [H|[<-|[]]]%in_app_iff; [by left|]. right. exists v. split; [by left|done]. }
  destruct (mem_str _ _).
  - intros [H|(w & Hw & ->)]%IH; [by left|]. right. exists w. split; [by right|done].
  - cbv zeta. destruct (_ <=? _); [apply Hl|]. intros [H|(w & Hw & ->)]%IH; [by apply Hl|]. right. exists w. split; [by right|done].
Qed.

(** The facts of the rows from [index] on. *)
Fixpoint row_facts (index : Z) (rows : list dict) : list dict :=
  match rows with
  | [] => []
  | row :: rows' =>
      (if truthy (snippet_of R row) then [fact_of R read_float repr_float index row (snippet_of R row)] else []) ++ row_facts (index + 1) rows'
  end.

Lemma ground_rows_facts rows : forall index facts numeric seen,
  fst (ground_rows R read_float repr_float index rows facts numeric seen) = facts ++ row_facts index rows /\
  (forall f, In f (snd (ground_rows R read_float repr_float index rows facts numeric seen)) -> In f numeric \/ supported rows f).
Proof.
  induction rows as [|row rows IH]; intros index facts numeric seen; cbn [ground_rows row_facts].
  { rewrite app_nil_r. split; [done|by left]. }
  assert (forall f, supported rows f -> supported (row :: rows) f) as Hmono.
  { intros f (x & v & Hx & H). exists x, v. split; [by right|done]. }
  destruct (truthy (snippet_of R row)) eqn:Et; cbn [negb app].
  - pose proof (fun f => add_numeric_In (_extract_numeric_values_verbatim (snippet_of R row) (RECALL_NUMERIC_FACTS_MAX R)) (snippet_of R row) row f numeric seen) as Ha.
    destruct (add_numeric R _ _ row numeric seen) as [numeric' seen']. cbn [fst] in Ha.
    destruct (IH (index + 1) (facts ++ [fact_of R read_float repr_float index row (snippet_of R row)]) numeric' seen') as [-> Hn].
    split; [by rewrite <- app_assoc|]. intros f [[H|(v & Hv & ->)]%Ha|H]%Hn; [by left| |right; auto].
    right. exists row, v. split; [by left|]. split; [done|]. by eapply numeric_values_part.
  - destruct (IH (index + 1) facts numeric seen) as [-> Hn]. split; [done|]. intros f [H|H]%Hn; [by left|right; auto].
Qed.

(** The grounding of an answer is copied, not made up.  Its facts are, in the
    order of the results, the snippets of the first 64 rows that have one, and
    every numeric value it reports is a non-empty part of the snippet of the row
    it names as its source. *)
Theorem grounding_is_verbatim results : exists numeric,
  _build_grounding_payload R read_float repr_float results =
    [("strict_numeric_copy", JBool true); ("facts", JList (map JObj (row_facts 1 (firstn 64 results)))); ("numeric_facts", JList (map JObj numeric))] /\
  List.Forall (supported (firstn 64 results)) numeric.
Proof.
  unfold _build_grounding_payload.
  assert (upto (Z.max 1 (Z.min (Z.of_nat (length results)) 64)) results = firstn 64 results) as ->.
  { unfold upto. destruct (Z.ltb_spec (Z.max 1 (Z.min (Z.of_nat (length results)) 64)) 0); [lia|].
    destruct (decide (length results <= 64)%nat); [rewrite !firstn_all2 by lia; done|f_equal; lia]. }
  pose proof (ground_rows_facts (firstn 64 results) 1 [] [] []) as [Hf Hn].
  destruct (ground_rows R read_float repr_float 1 (firstn 64 results) [] [] []) as [facts numeric]. cbn [fst snd app] in *. subst facts.
  exists numeric. split; [done|]. apply List.Forall_forall. intros f [[]|H]%Hn. done.
Qed.
End grounding.

(** ** Recall quality *)

Section quality.
Variable R : recall_config.
Variable read_float : string -> Q.

Record observation := mkObservation { ob_now : Z; ob_results : list dict; ob_counts : list (string * Z); ob_errors : list (string * string) }.
Definition observe (q : recall_quality) (o : observation) : recall_quality :=
  _record_recall_quality_observation R read_float (ob_now o) (ob_results o) (ob_counts o) (ob_errors o) q.

(** Counts of the calls never exceed the calls; the history keeps the last. *)
Definition quality_ok (q : recall_quality) : Prop :=
  0 <= q_no_hit q /\ 0 <= q_low_confidence q <= q_requests q /\ 0 <= q_stale_hit q /\ q_no_hit q + q_stale_hit q <= q_requests q /\
  ((0 < RECALL_LOW_CONFIDENCE_SCORE R)%Q -> q_no_hit q <= q_low_confidence q) /\
  Z.of_nat (length (quality_history q)) <= Z.max 0 (RECALL_QUALITY_HISTORY_LIMIT R).

Lemma observe_ok q o : quality_ok q -> quality_ok (observe q o).
Proof.
  intros (H1 & H2 & H3 & H4 & H5 & H6). unfold observe, _record_recall_quality_observation, quality_ok. cbn.
  assert (((0 < RECALL_LOW_CONFIDENCE_SCORE R)%Q -> ob_results o = [] -> Qltb (_top_result_score read_float (ob_results o)) (RECALL_LOW_CONFIDENCE_SCORE R) = true)) as Hl
    by (intros H ->; by apply Qltb_true).
  assert (ob_results o = [] -> one_if (match ob_results o with [] => false | d :: _ => _is_result_stale R (ob_now o) d end) = 0) as Hs by (by intros ->).
  rewrite length_skipn, length_app. cbn [length].
  destruct (ob_results o) as [|d ds]; cbn [one_if] in *;
    destruct (Qltb _ _); cbn [one_if] in *; repeat split; try (unfold one_if; destruct (_is_result_stale _ _ _)); try lia;
    try (intros Hq; specialize (H5 Hq); specialize (Hl Hq); first [lia|by specialize (Hl eq_refl)]).
Qed.

Lemma observations_ok os : forall q, quality_ok q -> quality_ok (fold_left observe os q).
Proof. induction os as [|o os IH]; intros q Hq; [done|]. by apply IH, observe_ok. Qed.

Lemma count_source_of name counts : (forall kv, In kv counts -> source_name_of (fst kv) = name -> snd kv <= 0) -> forall d,
  SourcePolicy.count_of (fold_left count_source counts d) name = SourcePolicy.count_of d name.
Proof.
  induction counts as [|kv counts IH]; intros Hz d; [done|]. cbn [fold_left]. rewrite IH by (intros x Hx; apply Hz; by right).
  unfold count_source. destruct (truthy (source_name_of (fst kv))); [|done]. unfold add_to.
  destruct (decide (source_name_of (fst kv) = name)) as [He|Hne]; [|by rewrite count_of_cset].
  rewrite He. unfold SourcePolicy.count_of at 1. rewrite clookup_cset, String.eqb_refl. specialize (Hz kv (or_introl eq_refl) He). lia.
Qed.

(** [name] gave no rows. *)
Definition rowless (name : string) (o : observation) : Prop :=
  forall kv, In kv (ob_counts o) -> source_name_of (fst kv) = name -> snd kv <= 0.

Lemma rowless_requests name os : List.Forall (rowless name) os -> forall q,
  SourcePolicy.count_of (source_requests (fold_left observe os q)) name = SourcePolicy.count_of (source_requests q) name.
Proof.
  induction 1 as [|o os Ho _ IH]; intros q; [done|]. cbn [fold_left]. rewrite IH. by apply count_source_of.
Qed.

Lemma requests_NoDup os : forall q, List.NoDup (map fst (source_requests q)) -> List.NoDup (map fst (source_requests (fold_left observe os q))).
Proof.
  induction os as [|o os IH]; intros q Hq; [done|]. apply IH. cbn.
  revert Hq. generalize (source_requests q). induction (ob_counts o) as [|kv l IHl]; intros d Hd; [done|]. apply IHl.
  unfold count_source, add_to. destruct (truthy _); [by apply cset_NoDup|done].
Qed.

(** A source that fails in every recall, and so never returns a row, never
    raises the alert on source errors, whatever its errors: the rows it returned
    are counted as its requests, and its error rate is divided by them. *)
Theorem failing_source_never_alerts name os :
  0 < RECALL_ALERT_MIN_REQUESTS R -> List.Forall (rowless name) os ->
  List.Forall (fun al => al_source al <> Some name)
    (_build_recall_quality_alerts R (_recall_quality_snapshot (fold_left observe os no_quality))).
Proof.
  intros Hm Hr. apply List.Forall_forall. intros al Hal Hn. set (q := fold_left observe os no_quality) in *.
  assert (SourcePolicy.count_of (source_requests q) name = 0) as Hq by (unfold q; by rewrite rowless_requests).
  assert (List.NoDup (map fst (source_requests q))) as Hd by (apply requests_NoDup; constructor).
  unfold _build_recall_quality_alerts in Hal. destruct (_ <? _); [done|].
  assert (forall code m rate limit n, ~ In al (rate_alert code m rate limit n)) as Hra.
  { intros code m rate limit n. unfold rate_alert. destruct (Qle_bool _ _); [|tauto]. intros [<-|[]]. done. }
  rewrite !in_app_iff in Hal. destruct Hal as [H|[H|[H|H]]]; [by apply Hra in H..|].
  apply in_concat in H as (l & (sm & <- & Hsm)%in_map_iff & H). unfold _recall_quality_snapshot in Hsm. cbn [bySource] in Hsm.
  apply in_map_iff in Hsm as ((k & v) & <- & Hkv). cbn [fst snd source_alert] in H.
  destruct ((Z.max 0 v <? RECALL_ALERT_MIN_REQUESTS R) || _) eqn:Eb; [done|]. destruct H as [<-|[]]. cbn in Hn. injection Hn as ->.
  apply (clookup_NoDup name v) in Hkv; [|done]. unfold SourcePolicy.count_of in Hq. rewrite Hkv in Hq. subst v.
  apply orb_false_iff in Eb as [Eb _]. apply Z.ltb_ge in Eb. cbn in Eb. lia.
Qed.
End quality.

(** The limit on numeric facts is passed: each further row still adds one. *)
Example numeric_limit_is_passed :
  let R := mkRecall true 4 8 default_synonyms true 4 (72 # 100) 2 (55 # 100) 280 4 168 4000 (35 # 100) (4 # 10) (45 # 100) (25 # 100) 50 in
  let row file summary := [("file", JStr file); ("summary", JStr summary)] in
  length (snd (ground_rows R (fun _ => 0%Q) (fun _ => "") 1 [row "a" "1 2 3 4 5"; row "b" "6 7"; row "c" "8 9"] [] [] [])) = 6%nat.
Proof. vm_compute. reflexivity. Qed.

(** One variant allowed, two given. *)
Example one_variant_gives_two :
  _expand_query_variants (mkRecall true 1 8 default_synonyms true 4 (72 # 100) 2 (55 # 100) 280 80 168 4000 (35 # 100) (4 # 10) (45 # 100) (25 # 100) 50)
    "  deploy   notes " = ["deploy notes"; "deploy/notes"].
Proof. vm_compute. reflexivity. Qed.

(** The default settings on a query with a synonym. *)
Example synonyms_are_tried :
  _expand_query_variants default_recall "Latency notes" = ["Latency notes"; "Latency/notes"; "Latency_notes"; "speed notes"].
Proof. vm_compute. reflexivity. Qed.

(** ** Witnesses *)

Definition demo_recall_args : recall_args :=
  mkRecallArgs "deploy notes" 5 None None None [] [] true "fast" no_profile true true.

Lemma recall_always_answers_witness :
  exists s' ans, _run_memory_recall_pipeline demo_env default_recall (fun _ => 0%Q) demo_recall_args (mkRecallState no_search no_quality) = (s', Ok ans) /\
    1 <= Z.of_nat (length (an_variants ans)) <= 4 /\ Z.of_nat (length (an_results ans)) <= 5.
Proof.
  destruct (recall_always_answers demo_env default_recall (fun _ => 0%Q) demo_recall_args (mkRecallState no_search no_quality) no_templates)
    as (s' & ans & sets & H1 & _ & _ & _ & _ & H4 & H5 & _).
  exists s', ans. split; [exact H1|]. split; [exact H4|exact H5].
Defined.

(** Fifty recalls in which the vector index fails. *)
Definition failing_recalls : list observation :=
  repeat (mkObservation 0 [] [("qdrant", 0)] [("qdrant", "connection refused")]) 50.

Lemma failing_source_never_alerts_witness :
  List.Forall (fun al => al_source al <> Some "qdrant")
    (_build_recall_quality_alerts default_recall (_recall_quality_snapshot (fold_left (observe default_recall (fun _ => 0%Q)) failing_recalls no_quality))).
Proof.
  apply (failing_source_never_alerts default_recall (fun _ => 0%Q) "qdrant" failing_recalls); [reflexivity|].
  apply List.Forall_forall. intros o ->%repeat_spec kv [<-|[]] _. cbn. lia.
Defined.
