(* ===== verification/Tasks.v ===== *)
(** * Agent tasks

    The task queue of the task database: the payload contract and the approval
    rule, creation, claiming under a lease, status updates, approval, recovery
    of expired leases, retry and replay, and the read queries.  Each database
    function is the transaction its source function passes to
    [_task_db_exec]. *)

From S2P Require Import Prelude PyStr PyTime Json JsonText IsoParse Policy TaskDb.
From Stdlib Require Import Ascii.
Open Scope Z_scope.

(** ** Configuration *)

(** Durations are in microseconds. *)
Record task_config := mkTaskConfig {
  HIGH_RISK_APPROVAL_REQUIRED : bool;
  HIGH_RISK_ACTIONS : list string;
  TASK_ALLOWED_ACTIONS : list string;
  TASK_CALLBACK_ALLOWED_HOSTS : list string;
  TASK_LEASE_SECS : Z;
  TASK_DEFAULT_MAX_ATTEMPTS : Z;
  TASK_RETRY_BASE_SECS : Z;
  TASK_RETRY_MAX_SECS : Z }.

Definition default_task_config : task_config := {|
  HIGH_RISK_APPROVAL_REQUIRED := true;
  HIGH_RISK_ACTIONS := ["payment"; "transfer_funds"; "delete_data"; "infra_change"; "prod_deploy";
                        "send_external_message"; "credential_change"; "purchase"];
  TASK_ALLOWED_ACTIONS := ["memory_write"; "memory_search"; "messaging_command"; "http_callback"; "provider_chat"];
  TASK_CALLBACK_ALLOWED_HOSTS := ["localhost"; "127.0.0.1"];
  TASK_LEASE_SECS := 120 * us_per_sec;
  TASK_DEFAULT_MAX_ATTEMPTS := 4;
  TASK_RETRY_BASE_SECS := 2 * us_per_sec;
  TASK_RETRY_MAX_SECS := 300 * us_per_sec |}.

(** The clamps applied when the configuration is read. *)
Definition config_ok (C : task_config) : bool :=
  (15 * us_per_sec <=? TASK_LEASE_SECS C) && (1 <=? TASK_DEFAULT_MAX_ATTEMPTS C)
  && (200000 <=? TASK_RETRY_BASE_SECS C) && (TASK_RETRY_BASE_SECS C <=? TASK_RETRY_MAX_SECS C).

(** ** Risk and approval *)

(** [isinstance(v, str) and v.strip()] gives [v.strip().lower()]. *)
Definition lower_text (v : json) : option string :=
  match v with
  | JStr s => if truthy (strip s) then Some (lower (strip s)) else None
  | _ => None
  end.

Definition _detect_action_type (payload : dict) : option string :=
  match payload with
  | [] => None
  | _ =>
    match lower_text (jor (dget payload "action_type") (dget payload "actionType")) with
    | Some a => Some a
    | None =>
      match dget payload "actions" with
      | JList (first :: _) =>
        match first with
        | JObj d => lower_text (jor (jor (dget d "type") (dget d "action")) (dget d "category"))
        | _ => lower_text first
        end
      | _ => None
      end
    end
  end.

Section approval.
Variable C : task_config.

Definition _detect_risk_level (payload : dict) : string :=
  match payload with
  | [] => "low"
  | _ =>
    match lower_text (jor (jor (dget payload "risk_level") (dget payload "riskLevel")) (dget payload "risk")) with
    | Some r => r
    | None =>
      match _detect_action_type payload with
      | Some a => if mem_str a (HIGH_RISK_ACTIONS C) then "high" else "low"
      | None => "low"
      end
    end
  end.

Definition _requires_approval (payload : dict) : bool :=
  if negb (HIGH_RISK_APPROVAL_REQUIRED C) then false
  else mem_str (_detect_risk_level payload) ["high"; "critical"].
End approval.

(** ** Payload contract *)

Definition task_action_alias : list (string * string) :=
  [("write", "memory_write"); ("remember", "memory_write"); ("search", "memory_search"); ("recall", "memory_search");
   ("message", "messaging_command"); ("messaging", "messaging_command"); ("callback", "http_callback");
   ("http", "http_callback"); ("provider", "provider_chat")].

Fixpoint assoc (k : string) (l : list (string * string)) : option string :=
  match l with
  | [] => None
  | (k', v) :: l' => if k =s k' then Some v else assoc k l'
  end.

Definition _normalize_task_action (raw : json) : option string :=
  match raw with
  | JNull => None
  | _ =>
    let action := lower (strip (jstr raw)) in
    if truthy action then Some (match assoc action task_action_alias with Some a => a | None => action end) else None
  end.

(** *** [urllib.parse.urlparse], as far as scheme and host go *)

Definition is_alpha (c : ascii) : bool :=
  let n := Z.of_N (ascii_code c) in ((65 <=? n) && (n <=? 90)) || ((97 <=? n) && (n <=? 122)).

Definition scheme_char (c : ascii) : bool :=
  is_alpha c || is_digit c || Ascii.eqb c "+" || Ascii.eqb c "-" || Ascii.eqb c ".".

Fixpoint all_chars (p : ascii -> bool) (s : string) : bool :=
  match s with EmptyString => true | String c s' => p c && all_chars p s' end.

Fixpoint filter_chars (p : ascii -> bool) (s : string) : string :=
  match s with
  | EmptyString => EmptyString
  | String c s' => if p c then String c (filter_chars p s') else filter_chars p s'
  end.

(** Text before and after the first character that satisfies [p]. *)
Fixpoint span_until (p : ascii -> bool) (s : string) : string * string :=
  match s with
  | EmptyString => (EmptyString, EmptyString)
  | String c s' => if p c then (EmptyString, s) else let '(a, b) := span_until p s' in (String c a, b)
  end.

(** Leading controls and spaces are dropped, tabs and newlines removed. *)
Definition clean_url (url : string) : string :=
  filter_chars (fun c => negb (let n := ascii_code c in ((n =? 9) || (n =? 10) || (n =? 13))%N))
    (lstrip_by (fun c => (ascii_code c <=? 32)%N) url).

Definition split_scheme (url : string) : string * string :=
  let '(a, b) := span_until (Ascii.eqb ":") url in
  match a, b with
  | String c _, String _ rest =>
      if is_alpha c && all_chars scheme_char a then (lower a, rest) else ("", url)
  | _, _ => ("", url)
  end.

Definition split_netloc (url : string) : string :=
  if startswith url "//" then
    fst (span_until (fun c => Ascii.eqb c "/" || Ascii.eqb c "?" || Ascii.eqb c "#") (drop 2 url))
  else "".

(** [parsed.hostname or ""]: without user information, port and brackets, in
    lower case up to a zone separator. *)
Definition netloc_hostname (netloc : string) : string :=
  let hostinfo := List.last (split "@" netloc) "" in
  let '(pre, bracketed) := span_until (Ascii.eqb "[") hostinfo in
  let host := match bracketed with
              | String _ b => fst (span_until (Ascii.eqb "]") b)
              | EmptyString => fst (span_until (Ascii.eqb ":") hostinfo)
              end in
  let '(name, zone) := span_until (Ascii.eqb "%") host in
  lower name +:+ zone.

(** [None]: [urlparse] raises [ValueError] on an unbalanced bracket. *)
Definition url_parts (url : string) : option (string * string) :=
  let '(scheme, rest) := split_scheme (clean_url url) in
  let netloc := split_netloc rest in
  if Bool.eqb (has_char "[" netloc) (has_char "]" netloc) then Some (scheme, netloc_hostname netloc) else None.

Definition _task_validate_callback_url (C : task_config) (url : string) : result unit :=
  match url_parts url with
  | None => Raise (OtherError "ValueError" "Invalid IPv6 URL")
  | Some (scheme, hostname) =>
    if negb (mem_str (lower scheme) ["http"; "https"]) then
      Raise (HTTPException 422 "http_callback requires http/https URL")
    else
      let host := lower hostname in
      if negb (truthy host) then Raise (HTTPException 422 "http_callback URL host is required")
      else if match TASK_CALLBACK_ALLOWED_HOSTS C with [] => false | hosts => negb (mem_str host hosts) end then
        Raise (HTTPException 422 ("http_callback host '" +:+ host +:+ "' not allowlisted"))
      else Ok tt
  end.

(** [str(normalized.get(a) or normalized.get(b) or "").strip()] *)
Definition text2 (d : dict) (a b : string) : string := strip (jstr_or_empty (jor (dget d a) (dget d b))).
Definition text1 (d : dict) (a : string) : string := strip (jstr_or_empty (dget d a)).

Definition raise422 {A} (m : string) : result A := Raise (HTTPException 422 m).

(** The rules of the action, on the payload with its action filled in. *)
Definition validate_action (C : task_config) (action : string) (n : dict) : result dict :=
  if action =s "memory_write" then
    let project_name := text2 n "projectName" "project" in
    let file_name := text2 n "fileName" "file" in
    let content := text1 n "content" in
    if negb (truthy project_name) || negb (truthy file_name) || negb (truthy content)
    then raise422 "memory_write requires projectName, fileName, and content"
    else Ok (dset "content" (JStr content) (dset "fileName" (JStr file_name) (dset "projectName" (JStr project_name) n)))
  else if action =s "memory_search" then
    let query := text1 n "query" in
    if negb (truthy query) then raise422 "memory_search requires query" else Ok (dset "query" (JStr query) n)
  else if action =s "messaging_command" then
    let text := text1 n "text" in
    if negb (truthy text) then raise422 "messaging_command requires text" else Ok (dset "text" (JStr text) n)
  else if action =s "http_callback" then
    let callback_url := text1 n "url" in
    if negb (truthy callback_url) then raise422 "http_callback requires url"
    else
      let! _ := _task_validate_callback_url C callback_url in
      let n := dset "url" (JStr callback_url) n in
      let method := upper (strip (jstr (jor (dget n "method") (JStr "POST")))) in
      if negb (mem_str method ["GET"; "POST"; "PUT"; "PATCH"; "DELETE"])
      then raise422 ("http_callback method '" +:+ method +:+ "' not allowed")
      else Ok (dset "method" (JStr method) n)
  else if action =s "provider_chat" then
    let has_prompt := truthy (text1 n "prompt") in
    let has_messages := match dget n "messages" with JList (_ :: _) => true | _ => false end in
    if negb has_prompt && negb has_messages then raise422 "provider_chat requires prompt or messages" else Ok n
  else Ok n.

Definition of_opt (o : option string) : json := match o with Some s => JStr s | None => JNull end.

Definition payload_action (n : dict) : option string :=
  _normalize_task_action (jor (jor (dget n "action") (dget n "action_type")) (of_opt (_detect_action_type n))).

Definition _validate_task_payload_contract (C : task_config) (payload : option json) : result (option dict) :=
  match payload with
  | None => Ok None
  | Some (JObj p) =>
    match payload_action p with
    | None => raise422 "task payload requires action"
    | Some action =>
      if negb (mem_str action (TASK_ALLOWED_ACTIONS C))
      then raise422 ("task action '" +:+ action +:+ "' is not allowed")
      else
        let n := dset "action_type" (JStr action) (dset "action" (JStr action) p) in
        let! n' := validate_action C action n in Ok (Some n')
    end
  | Some _ => raise422 "task payload must be an object"
  end.

Definition _task_retry_delay_secs (C : task_config) (attempt : Z) : Z :=
  let exp := Z.max 0 (attempt - 1) in
  Z.min (TASK_RETRY_BASE_SECS C * 2 ^ exp) (TASK_RETRY_MAX_SECS C).

(** ** The tables *)

Inductive task_status := Queued | Approved | TRunning | Blocked | TSucceeded | TFailed | Canceled.

#[export] Instance task_status_eq_dec : EqDecision task_status.
Proof. solve_decision. Defined.

Definition task_status_str (s : task_status) : string :=
  match s with
  | Queued => "queued" | Approved => "approved" | TRunning => "running" | Blocked => "blocked"
  | TSucceeded => "succeeded" | TFailed => "failed" | Canceled => "canceled"
  end.

Definition all_task_statuses : list task_status := [Queued; Approved; TRunning; Blocked; TSucceeded; TFailed; Canceled].

Definition parse_task_status (s : string) : option task_status :=
  List.find (fun st => task_status_str st =s s) all_task_statuses.

(** [TASK_TERMINAL_STATUSES] *)
Definition terminal (s : task_status) : bool :=
  match s with TSucceeded | TFailed | Canceled => true | _ => false end.

(** [status IN ('queued', 'approved')] *)
Definition waiting (s : task_status) : bool :=
  match s with Queued | Approved => true | _ => false end.

Record task := mkTask {
  t_id : string; t_title : string; t_status : task_status; t_project : option string; t_agent : option string;
  t_priority : Z; t_payload : option dict; t_run_after : option string; t_attempts : Z; t_max_attempts : Z;
  t_lease : option string; t_claimed_by : option string; t_last_error : option string; t_result : option json;
  t_completed_at : option string; t_created_at : string; t_updated_at : string;
  t_approval_required : bool; t_approved : bool; t_risk_level : string; t_action_type : option string }.

(** The columns an [UPDATE] of the queue sets. *)
Definition set_queue (st : task_status) (run : option string) (att : Z) (lease by_ err : option string)
    (res : option json) (compl : option string) (upd : string) (appr : bool) (t : task) : task :=
  mkTask (t_id t) (t_title t) st (t_project t) (t_agent t) (t_priority t) (t_payload t) run att (t_max_attempts t)
    lease by_ err res compl (t_created_at t) upd (t_approval_required t) appr (t_risk_level t) (t_action_type t).

Record task_event := mkTaskEvent {
  te_task : string; te_timestamp : string; te_status : string; te_message : option string; te_metadata : option json }.

(** Events in the order of their keys. *)
Record task_tables := mkTables { tasks : list task; task_events : list task_event }.

Definition empty_tables : task_tables := mkTables [] [].

Definition find_task (id : string) (T : task_tables) : option task := List.find (fun t => t_id t =s id) (tasks T).

(** [UPDATE tasks SET ... WHERE id = ?] and the event that records it. *)
Definition update_task (id : string) (u : task -> task) (ev : task_event) (T : task_tables) : task_tables :=
  mkTables (map (fun t => if t_id t =s id then u t else t) (tasks T)) (task_events T ++ [ev]).

(** Metadata dictionaries written by the code. *)
Definition jopt (o : option string) : json := match o with Some s => JStr s | None => JNull end.

(** ** Creation *)

Section ops.
Variable C : task_config.

(** [max(1, min(int(max_attempts or TASK_DEFAULT_MAX_ATTEMPTS), 50))] *)
Definition capped_max_attempts (m : option Z) : Z :=
  let m := match m with Some z => if z =? 0 then TASK_DEFAULT_MAX_ATTEMPTS C else z | None => TASK_DEFAULT_MAX_ATTEMPTS C end in
  Z.max 1 (Z.min m 50).

(** The due time of [run_after], the current time when it is absent. *)
Definition due_at (now : Z) (run_after : option string) : result string :=
  if truthy (opt_str run_after) then
    let! d := _task_parse_datetime (opt_str run_after) in
    match d with
    | Some us => Ok (_utc_iso_from_unix us)
    | None => raise422 "run_after must be ISO-8601 timestamp"
    end
  else Ok (_task_iso_now now).

(** The row [create_task_record] inserts, before the transaction. *)
Definition new_task (now : Z) (id title : string) (project agent : option string) (priority : Z) (payload : option json)
    (run_after : option string) (max_attempts : option Z) : result task :=
  let! np := _validate_task_payload_contract C payload in
  let d := match np with Some d => d | None => [] end in
  let action_type := match _normalize_task_action (dget d "action") with
                     | Some a => Some a
                     | None => _detect_action_type d
                     end in
  let approval_required := jtruthy (dget d "approval_required") || _requires_approval C d in
  let approved := jtruthy (jor (dget d "approved") (dget d "approval")) in
  let! due := due_at now run_after in
  Ok (mkTask id title Queued project agent priority np (Some due) 0 (capped_max_attempts max_attempts)
        None None None None None (_task_iso_now now) (_task_iso_now now) approval_required approved
        (_detect_risk_level C d) action_type).

(** [id TEXT PRIMARY KEY] *)
Definition create_task_record (now : Z) (id title : string) (project agent : option string) (priority : Z)
    (payload : option json) (run_after : option string) (max_attempts : option Z) (T : task_tables)
  : result (task_tables * task) :=
  let! t := new_task now id title project agent priority payload run_after max_attempts in
  if existsb (fun t' => t_id t' =s id) (tasks T) then Raise (IntegrityError "UNIQUE constraint failed: tasks.id")
  else Ok (mkTables (tasks T ++ [t])
             (task_events T ++ [mkTaskEvent id (_task_iso_now now) "queued"
                                  (Some ("Task created (due " +:+ opt_str (t_run_after t) +:+ ")")) None]), t).

(** ** Claim *)

(** SQLite's [trim] removes spaces. *)
Definition sql_trim : string -> string := strip_by (Ascii.eqb " ").

Definition agent_matches (worker_key : string) (internal : bool) (agent : option string) : bool :=
  match agent with
  | None => true
  | Some a =>
      let k := lower (sql_trim a) in
      (sql_trim a =s "") || (k =s "any") || (k =s worker_key)
      || (internal && (k =s "internal")) || (negb internal && (k =s "external"))
  end.

(** [run_after IS NULL OR run_after <= ?] *)
Definition due (now : string) (t : task) : bool :=
  match t_run_after t with None => true | Some r => str_leb r now end.

Definition approval_ok (t : task) : bool := negb (t_approval_required t) || t_approved t.

Definition task_ready (now : string) (t : task) : bool :=
  waiting (t_status t) && approval_ok t && (t_attempts t <? t_max_attempts t) && due now t.

(** [ORDER BY run_after ASC]: null first. *)
Definition opt_leb (a b : option string) : bool :=
  match a, b with None, _ => true | Some _, None => false | Some x, Some y => str_leb x y end.

(** [ORDER BY priority DESC, run_after ASC, created_at ASC]; rows that tie come
    in the order of the table. *)
Definition claim_order (a b : task) : bool :=
  if t_priority a =? t_priority b then
    if bool_decide (t_run_after a = t_run_after b) then str_leb (t_created_at a) (t_created_at b)
    else opt_leb (t_run_after a) (t_run_after b)
  else t_priority b <? t_priority a.

Definition claim_task (now : string) (lease worker : string) (t : task) : task :=
  set_queue TRunning (t_run_after t) (t_attempts t + 1) (Some lease) (Some worker) (t_last_error t) (t_result t)
    (t_completed_at t) now (t_approved t) t.

(** [str(worker or "external").strip() or "external"] *)
Definition worker_name_of (worker : option string) : string :=
  str_or (strip (str_or (opt_str worker) "external")) "external".

(** The transaction [_claim]. *)
Definition claim_tx (now : Z) (worker : option string) (T : task_tables) : result (task_tables * option task) :=
  let timestamp := _task_iso_now now in
  let lease := _task_iso_after now (TASK_LEASE_SECS C) in
  let worker_name := worker_name_of worker in
  let worker_key := lower worker_name in
  let internal := startswith worker_key "internal-worker" in
  match head (sort_by claim_order
                (List.filter (fun t => task_ready timestamp t && agent_matches worker_key internal (t_agent t)) (tasks T))) with
  | None => Ok (T, None)
  | Some t =>
      let T' := update_task (t_id t) (claim_task timestamp lease worker_name)
                  (mkTaskEvent (t_id t) timestamp "running" (Some ("Claimed by " +:+ worker_name))
                     (Some (JObj [("worker", JStr worker_name)]))) T in
      Ok (T', find_task (t_id t) T')
  end.

(** ** Lease recovery *)

Definition lease_expired (now : string) (t : task) : bool :=
  bool_decide (t_status t = TRunning) && match t_lease t with Some l => str_leb l now | None => false end.

Definition lease_order (a b : task) : bool := opt_leb (t_lease a) (t_lease b).

Definition requeue_expired (now : string) (t : task) : task :=
  set_queue Queued (Some now) (t_attempts t) None None
    (match t_last_error t with None => Some "lease expired; requeued" | e => e end)
    (t_result t) (t_completed_at t) now (t_approved t) t.

Definition recover_one (now : string) (T : task_tables) (t : task) : task_tables :=
  update_task (t_id t) (requeue_expired now)
    (mkTaskEvent (t_id t) now "queued" (Some "Lease expired; requeued by scheduler") None) T.

(** The transaction [_recover]. *)
Definition recover_tx (now limit : Z) (T : task_tables) : result (task_tables * Z) :=
  let timestamp := _task_iso_now now in
  let sel := firstn (Z.to_nat limit) (sort_by lease_order (List.filter (lease_expired timestamp) (tasks T))) in
  Ok (fold_left (recover_one timestamp) sel T, Z.of_nat (length sel)).

Definition recover_expired_task_leases (retries now limit : Z) : ST (task_db task_tables) Z :=
  if limit <=? 0 then st_ret 0 else _task_db_exec retries (recover_tx now limit).

(** [claim_next_task]: leases are recovered first, in a transaction of its own. *)
Definition claim_next_task (retries now : Z) (worker : option string) : ST (task_db task_tables) (option task) :=
  recover_expired_task_leases retries now 25 ;;;
  _task_db_exec retries (claim_tx now worker).

(** ** Status updates *)

(** [metadata.get("result") if "result" in metadata else metadata] *)
Definition result_of_metadata (metadata : option dict) : option json :=
  match metadata with
  | None => None
  | Some m => match dlookup "result" m with Some JNull => None | Some v => Some v | None => Some (JObj m) end
  end.

(** [metadata.get("run_after")], ignored when it does not parse. *)
Definition run_after_override (metadata : option dict) : result (option string) :=
  match metadata with
  | None => Ok None
  | Some m =>
      let v := dget m "run_after" in
      if jtruthy v then
        let! d := _task_parse_datetime (jstr v) in Ok (option_map _utc_iso_from_unix d)
      else Ok None
  end.

Definition opt_or (a : option string) (b : string) : string := str_or (opt_str a) b.

Definition status_update (timestamp : string) (s : task_status) (message : option string) (run : option string)
    (res : option json) (t : task) : task :=
  let releases := terminal s || waiting s || bool_decide (s = Blocked) in
  set_queue s
    (match run with Some r => Some r | None => if waiting s then Some timestamp else t_run_after t end)
    (t_attempts t)
    (if releases then None else t_lease t) (if releases then None else t_claimed_by t)
    (if bool_decide (s = TFailed) then Some (take 2000 (opt_or message (opt_str (t_last_error t)))) else t_last_error t)
    (match res with Some r => Some r | None => t_result t end)
    (if terminal s then Some timestamp else t_completed_at t) timestamp (t_approved t) t.

Definition update_task_status (now : Z) (id status : string) (message : option string) (metadata : option dict)
    (T : task_tables) : result (task_tables * option task) :=
  match parse_task_status (lower (strip status)) with
  | None => raise422 ("invalid task status '" +:+ status +:+ "'")
  | Some s =>
      let timestamp := _task_iso_now now in
      let! run := run_after_override metadata in
      match find_task id T with
      | None => Ok (T, None)
      | Some _ =>
          let T' := update_task id (status_update timestamp s message run (result_of_metadata metadata))
                      (mkTaskEvent id timestamp (task_status_str s) message (option_map JObj metadata)) T in
          Ok (T', find_task id T')
      end
  end.

(** ** Approval *)

Definition approve_row (timestamp : string) (t : task) : task :=
  set_queue (match t_status t with Blocked | Queued => Approved | s => s end)
    (match t_run_after t with None => Some timestamp | r => r end) (t_attempts t) (t_lease t) (t_claimed_by t)
    (t_last_error t) (t_result t) (t_completed_at t) timestamp true t.

Definition approve_task_record (now : Z) (id : string) (approver note : option string) (T : task_tables)
  : result (task_tables * option task) :=
  let timestamp := _task_iso_now now in
  match find_task id T with
  | None => Ok (T, None)
  | Some _ =>
      let metadata := if truthy (opt_str approver) || truthy (opt_str note)
                      then Some (JObj [("approver", jopt approver); ("note", jopt note)]) else None in
      let T' := update_task id (approve_row timestamp) (mkTaskEvent id timestamp "approved" (Some "Task approved") metadata) T in
      Ok (T', find_task id T')
  end.

(** ** Retry and replay *)

Definition task_max_attempts (t : task) : Z :=
  if t_max_attempts t =? 0 then TASK_DEFAULT_MAX_ATTEMPTS C else t_max_attempts t.

Definition retry_task (now : Z) (error_text : string) (t : task) : task :=
  if task_max_attempts t <=? t_attempts t then
    set_queue TFailed (t_run_after t) (t_attempts t) None None (Some error_text) (t_result t)
      (Some (_task_iso_now now)) (_task_iso_now now) (t_approved t) t
  else
    set_queue Queued (Some (_task_iso_after now (_task_retry_delay_secs C (t_attempts t)))) (t_attempts t) None None
      (Some error_text) (t_result t) None (_task_iso_now now) (t_approved t) t.

Definition requeue_task_for_retry (now : Z) (id error : string) (worker : option string) (T : task_tables)
  : result (task_tables * option task) :=
  let timestamp := _task_iso_now now in
  let error_text := take 2000 (str_or error "task execution failed") in
  match find_task id T with
  | None => Ok (T, None)
  | Some t =>
      let ratio := str_of_Z (t_attempts t) +:+ "/" +:+ str_of_Z (task_max_attempts t) in
      let '(status, message) :=
        if task_max_attempts t <=? t_attempts t
        then ("failed", "Task failed permanently after " +:+ ratio +:+ " attempts")
        else ("queued", "Task requeued after failure (attempt " +:+ ratio +:+ ")") in
      let T' := update_task id (retry_task now error_text)
                  (mkTaskEvent id timestamp status (Some message)
                     (Some (JObj [("worker", jopt worker); ("error", JStr error_text)]))) T in
      Ok (T', find_task id T')
  end.

Definition replay_row (timestamp : string) (reset_attempts : bool) (t : task) : task :=
  set_queue Queued (Some timestamp) (if reset_attempts then 0 else t_attempts t) None None None (t_result t) None
    timestamp (t_approved t) t.

Definition replay_task_record (now : Z) (id : string) (actor note : option string) (reset_attempts : bool) (T : task_tables)
  : result (task_tables * option task) :=
  let timestamp := _task_iso_now now in
  match find_task id T with
  | None => Ok (T, None)
  | Some _ =>
      let T' := update_task id (replay_row timestamp reset_attempts)
                  (mkTaskEvent id timestamp "queued" (Some "Task replayed to queue")
                     (Some (JObj [("actor", jopt actor); ("note", jopt note); ("reset_attempts", JBool reset_attempts)]))) T in
      Ok (T', find_task id T')
  end.
End ops.

(** ** Queries *)

Definition get_task_record (id : string) (T : task_tables) : option task := find_task id T.

(** [ORDER BY id DESC] *)
Definition get_task_events (id : string) (T : task_tables) : list task_event :=
  rev (List.filter (fun e => te_task e =s id) (task_events T)).

(** [ORDER BY priority DESC, run_after ASC, created_at DESC] *)
Definition list_order (a b : task) : bool :=
  if t_priority a =? t_priority b then
    if bool_decide (t_run_after a = t_run_after b) then str_leb (t_created_at b) (t_created_at a)
    else opt_leb (t_run_after a) (t_run_after b)
  else t_priority b <? t_priority a.

Definition list_agent_ok (agent : string) (t : task) : bool :=
  let k := lower (strip agent) in
  if k =s "unassigned" then sql_trim (opt_str (t_agent t)) =s ""
  else lower (sql_trim (opt_str (t_agent t))) =s k.

Definition list_task_records (status project agent : option string) (limit : Z) (T : task_tables) : list task :=
  firstn (Z.to_nat (Z.max 1 (Z.min limit 200)))
    (sort_by list_order
       (List.filter (fun t =>
          (negb (truthy (opt_str status)) || (task_status_str (t_status t) =s lower (opt_str status)))
          && (negb (truthy (opt_str project)) || bool_decide (t_project t = project))
          && (negb (truthy (opt_str agent)) || list_agent_ok (opt_str agent) t)) (tasks T))).

Definition list_deadletter_task_records (project : option string) (limit : Z) (T : task_tables) : list task :=
  firstn (Z.to_nat (Z.max 1 (Z.min limit 500)))
    (sort_by (fun a b => str_leb (t_updated_at b) (t_updated_at a))
       (List.filter (fun t => bool_decide (t_status t = TFailed)
          && (negb (truthy (opt_str project)) || bool_decide (t_project t = project))) (tasks T))).

Record task_snapshot := mkSnapshot {
  queueReady : Z; running : Z; deadletter : Z; oldestPendingRunAfter : option string; byStatus : list (string * Z) }.

Definition count_tasks (p : task -> bool) (T : task_tables) : Z := Z.of_nat (length (List.filter p (tasks T))).

(** [ORDER BY run_after ASC, created_at ASC LIMIT 1] *)
Definition oldest_order (a b : task) : bool :=
  if bool_decide (t_run_after a = t_run_after b) then str_leb (t_created_at a) (t_created_at b)
  else opt_leb (t_run_after a) (t_run_after b).

Definition get_task_runtime_snapshot (now : Z) (T : task_tables) : task_snapshot :=
  mkSnapshot (count_tasks (task_ready (_task_iso_now now)) T)
    (count_tasks (fun t => bool_decide (t_status t = TRunning)) T)
    (count_tasks (fun t => bool_decide (t_status t = TFailed)) T)
    (match head (sort_by oldest_order (List.filter (fun t => waiting (t_status t)) (tasks T))) with
     | Some t => t_run_after t
     | None => None
     end)
    (List.filter (fun kv => 0 <? snd kv)
       (map (fun s => (task_status_str s, count_tasks (fun t => bool_decide (t_status t = s)) T)) all_task_statuses)).
