(* ===== verification/TaskFacts.v ===== *)
(** * Correctness of the task queue

    The invariant of the tables, what a claim hands out and for how long, the
    retry schedule, the payload contract, and the states from which a task
    never runs again. *)

From S2P Require Import Prelude PyStr PyTime Json JsonText IsoParse Policy TaskDb Tasks.
From Stdlib Require Import Ascii.
Open Scope Z_scope.

(** ** Invariant *)

Definition task_ok (t : task) : Prop :=
  0 <= t_attempts t <= t_max_attempts t /\ 1 <= t_max_attempts t <= 50 /\
  (is_Some (t_lease t) <-> is_Some (t_claimed_by t)) /\
  (is_Some (t_lease t) -> t_status t = TRunning) /\
  (terminal (t_status t) = true -> is_Some (t_completed_at t)).

Definition tables_ok (T : task_tables) : Prop :=
  List.NoDup (map t_id (tasks T)) /\ List.Forall task_ok (tasks T) /\
  List.Forall (fun t => In (t_id t) (map te_task (task_events T))) (tasks T).

(** Updates keep the key. *)
Definition keeps_id (u : task -> task) : Prop := forall t, t_id (u t) = t_id t.

Lemma find_task_spec id T t : find_task id T = Some t -> In t (tasks T) /\ t_id t = id.
Proof. unfold find_task. intros [Hin E]%List.find_some. by blift. Qed.

Lemma find_task_in T t : List.NoDup (map t_id (tasks T)) -> In t (tasks T) -> find_task (t_id t) T = Some t.
Proof.
  intros Hnd Hin. unfold find_task. destruct (List.find _ _) as [t'|] eqn:E.
  - apply List.find_some in E as [Hin' E]. blift. f_equal. by apply (In_NoDup_inj t_id (tasks T)).
  - eapply List.find_none in E; [|exact Hin]. blift. done.
Qed.

Lemma update_task_In id u ev T t : In t (tasks T) ->
  In (if t_id t =s id then u t else t) (tasks (update_task id u ev T)).
Proof. intros Hin. cbn. by apply (in_map (fun t => if t_id t =s id then u t else t)). Qed.

Lemma update_task_ok id u ev T :
  keeps_id u -> (forall t, In t (tasks T) -> t_id t = id -> task_ok t -> task_ok (u t)) ->
  tables_ok T -> tables_ok (update_task id u ev T).
Proof.
  intros Hk Hok (Hnd & Hall & Hev). unfold update_task. split; [|split]; cbn [tasks task_events].
  - rewrite map_update_column by (intros; apply Hk). done.
  - apply List.Forall_map. rewrite List.Forall_forall in *. intros t Hin.
    destruct (String.eqb_spec (t_id t) id); auto.
  - apply List.Forall_map. rewrite List.Forall_forall in *. intros t Hin. rewrite map_app. apply in_or_app. left.
    destruct (t_id t =s id); [rewrite Hk|]; auto.
Qed.

(** The row read back after an update of an existing task. *)
Lemma find_updated id u ev T t : keeps_id u -> tables_ok T -> find_task id T = Some t ->
  find_task id (update_task id u ev T) = Some (u t).
Proof.
  intros Hk (Hnd & _ & _) [Hin <-]%find_task_spec.
  pose proof (find_task_in (update_task (t_id t) u ev T) (u t)) as H. rewrite Hk in H. apply H; clear H.
  - cbn. rewrite map_update_column by (intros; apply Hk). done.
  - pose proof (update_task_In (t_id t) u ev T t Hin) as H. by rewrite String.eqb_refl in H.
Qed.

(** ** The claim order *)

Lemma opt_leb_total a b : opt_leb a b = true \/ opt_leb b a = true.
Proof. destruct a, b; cbn; auto. apply str_leb_total. Qed.

Lemma opt_leb_trans a b c : opt_leb a b = true -> opt_leb b c = true -> opt_leb a c = true.
Proof. destruct a, b, c; cbn; try done. apply str_leb_trans. Qed.

Lemma opt_leb_antisym a b : opt_leb a b = true -> opt_leb b a = true -> a = b.
Proof. destruct a, b; cbn; try done. intros. f_equal. by apply str_leb_antisym. Qed.

Lemma claim_order_refl t : claim_order t t = true.
Proof. unfold claim_order. rewrite Z.eqb_refl, bool_decide_eq_true_2 by done. apply str_leb_refl. Qed.

Lemma claim_order_total a b : claim_order a b = true \/ claim_order b a = true.
Proof.
  unfold claim_order. rewrite (Z.eqb_sym (t_priority b)).
  destruct (t_priority a =? t_priority b) eqn:Ep; blift; [|rewrite !Z.ltb_lt; lia].
  destruct (decide (t_run_after a = t_run_after b)) as [E|E].
  - rewrite E, bool_decide_eq_true_2 by done. apply str_leb_total.
  - rewrite !bool_decide_eq_false_2 by congruence. apply opt_leb_total.
Qed.

Lemma claim_order_trans a b c : claim_order a b = true -> claim_order b c = true -> claim_order a c = true.
Proof.
  unfold claim_order.
  destruct (Z.eqb_spec (t_priority a) (t_priority b)), (Z.eqb_spec (t_priority b) (t_priority c)),
    (Z.eqb_spec (t_priority a) (t_priority c)); rewrite ?Z.ltb_lt; try (intros; lia).
  destruct (decide (t_run_after a = t_run_after b)) as [Eab|Eab], (decide (t_run_after b = t_run_after c)) as [Ebc|Ebc].
  - rewrite Eab, Ebc, !bool_decide_eq_true_2 by done. apply str_leb_trans.
  - rewrite Eab, bool_decide_eq_true_2, !(bool_decide_eq_false_2 _ Ebc) by done. by intros.
  - rewrite <- Ebc, (bool_decide_eq_true_2 (t_run_after b = t_run_after b)), !(bool_decide_eq_false_2 _ Eab) by done.
    by intros.
  - rewrite (bool_decide_eq_false_2 _ Eab), (bool_decide_eq_false_2 _ Ebc). intros H1 H2. rewrite bool_decide_eq_false_2.
    + by eapply opt_leb_trans.
    + intros E. rewrite E in H1. apply Ebc. by apply opt_leb_antisym.
Qed.

(** ** Operations keep the invariant *)

Section ops.
Variable C : task_config.

Lemma claim_task_ok now lease w t : t_attempts t < t_max_attempts t -> waiting (t_status t) = true ->
  task_ok t -> task_ok (claim_task now lease w t).
Proof.
  intros Ha Hw (H1 & H2 & H3 & H4 & H5). unfold task_ok, claim_task; cbn. repeat split; try lia; eauto; done.
Qed.

Lemma requeue_expired_ok now t : task_ok t -> task_ok (requeue_expired now t).
Proof.
  intros (H1 & H2 & H3 & H4 & H5). unfold task_ok; cbn.
  repeat split; try lia; try done; by intros [? ?].
Qed.

Lemma status_update_ok ts s m r res t : task_ok t -> task_ok (status_update ts s m r res t).
Proof.
  intros (H1 & H2 & H3 & H4 & H5). unfold task_ok, status_update; cbn.
  repeat split; try lia.
  all: destruct s; cbn in *; try done; try tauto; try (by intros [? ?]); eauto.
Qed.

Lemma approve_row_ok ts t : task_ok t -> task_ok (approve_row ts t).
Proof.
  intros (H1 & H2 & H3 & H4 & H5). unfold task_ok, approve_row; cbn.
  repeat split; try lia; try tauto.
  - intros Hl. specialize (H4 Hl). by rewrite H4.
  - destruct (t_status t); done || auto.
Qed.

Lemma retry_task_ok now e t : task_ok t -> task_ok (retry_task C now e t).
Proof.
  intros (H1 & H2 & H3 & H4 & H5). unfold retry_task. destruct (_ <=? _); unfold task_ok; cbn;
    repeat split; try lia; try done; eauto; by intros [? ?].
Qed.

Lemma replay_row_ok ts b t : task_ok t -> task_ok (replay_row ts b t).
Proof.
  intros (H1 & H2 & H3 & H4 & H5). unfold task_ok, replay_row; cbn. destruct b;
    repeat split; try lia; try done; by intros [? ?].
Qed.

Lemma capped_bounds m : 1 <= capped_max_attempts C m <= 50.
Proof. unfold capped_max_attempts. lia. Qed.

Lemma new_task_spec now id title pr ag prio p ra mx t :
  new_task C now id title pr ag prio p ra mx = Ok t ->
  t_id t = id /\ t_status t = Queued /\ t_attempts t = 0 /\ task_ok t /\
  exists np, _validate_task_payload_contract C p = Ok np /\ t_payload t = np.
Proof.
  unfold new_task. destruct (_validate_task_payload_contract C p) as [np|] eqn:Ev; [|done].
  cbn [rbind]. destruct (due_at now ra) as [d|] eqn:Ed; [|done]. cbn [rbind]. intros [= <-].
  pose proof (capped_bounds mx). repeat split; cbn; try lia; try done; eauto; by intros [? ?].
Qed.

Lemma create_ok now id title pr ag prio p ra mx T T' t :
  create_task_record C now id title pr ag prio p ra mx T = Ok (T', t) -> tables_ok T -> tables_ok T'.
Proof.
  unfold create_task_record. intros E (Hnd & Hall & Hev).
  destruct (new_task _ _ _ _ _ _ _ _ _) as [t0|] eqn:En; [|done]. cbn [rbind] in E.
  destruct (existsb _ _) eqn:Ex; [done|]. injection E as <- <-.
  apply new_task_spec in En as (Hid & _ & _ & Hok & _). rewrite existsb_false_iff in Ex. rename Hall into Hts.
  split; [|split]; cbn [tasks task_events].
  - rewrite map_app. apply (Permutation_NoDup (Permutation_cons_append _ _)). constructor; [|done].
    rewrite Hid. intros (t' & E & Hin)%in_map_iff. specialize (Ex t' Hin). blift. done.
  - apply List.Forall_app. split; [done|]. constructor; [done|constructor].
  - apply List.Forall_app. split.
    + eapply List.Forall_impl; [|exact Hev]. intros t' Ht'. rewrite map_app. apply in_or_app. by left.
    + constructor; [|constructor]. rewrite Hid, map_app. apply in_or_app. right. by left.
Qed.

(** What the claim selects. *)
Definition eligible (now : Z) (worker : option string) (t : task) : bool :=
  let key := lower (worker_name_of worker) in
  task_ready (_task_iso_now now) t && agent_matches key (startswith key "internal-worker") (t_agent t).

Lemma claim_tx_cases now w T :
  (forall t, In t (tasks T) -> eligible now w t = false) /\ claim_tx C now w T = Ok (T, None) \/
  exists t ev, In t (tasks T) /\ eligible now w t = true /\
    (forall t', In t' (tasks T) -> eligible now w t' = true -> claim_order t t' = true) /\
    let u := claim_task (_task_iso_now now) (_task_iso_after now (TASK_LEASE_SECS C)) (worker_name_of w) in
    let T' := update_task (t_id t) u ev T in
    claim_tx C now w T = Ok (T', find_task (t_id t) T').
Proof.
  unfold claim_tx. fold (eligible now w). set (L := List.filter _ (tasks T)).
  destruct (sort_by claim_order L) as [|t l] eqn:E; cbn [head].
  - left. split; [|done]. intros t Ht. destruct (eligible now w t) eqn:Et; [|done].
    assert (In t (sort_by claim_order L)) as Hin by (by rewrite sort_by_In; apply filter_In). by rewrite E in Hin.
  - right. assert (In t L) as Ht by (rewrite <- (sort_by_In claim_order), E; by left).
    apply filter_In in Ht as [Hin Ht]. exists t. eexists. split; [done|]. split; [done|]. split; [|reflexivity].
    intros t' Hin' Ht'.
    assert (StronglySorted (fun a b => claim_order a b = true) (sort_by claim_order L)) as Hs.
    { apply sort_by_sorted; [apply claim_order_total|apply claim_order_trans]. }
    assert (In t' (t :: l)) as [->|Hl]; [|apply claim_order_refl|].
    { rewrite <- E, sort_by_In. by apply filter_In. }
    rewrite E in Hs. inversion Hs as [|? ? _ Hall]; subst. rewrite List.Forall_forall in Hall. auto.
Qed.
End ops.

(** ** Recovery *)

Lemma recover_fold_ok now sel T : tables_ok T -> tables_ok (fold_left (recover_one now) sel T).
Proof.
  revert T. induction sel as [|t sel IH]; intros T Hok; [done|]. cbn [fold_left]. apply IH.
  apply update_task_ok; [done| |done]. intros; by apply requeue_expired_ok.
Qed.

(** Recovery requeues the selected tasks and leaves the others alone. *)
Lemma recover_fold_tasks now sel T :
  tasks (fold_left (recover_one now) sel T) =
    fold_left (fun l t => map (fun x => if t_id x =s t_id t then requeue_expired now x else x) l) sel (tasks T).
Proof. revert T. induction sel as [|t sel IH]; intros T; [done|]. cbn [fold_left]. by rewrite IH. Qed.

Lemma requeue_fold_other now sel l x : In x l -> ~ In (t_id x) (map t_id sel) ->
  In x (fold_left (fun l t => map (fun x => if t_id x =s t_id t then requeue_expired now x else x) l) sel l).
Proof.
  revert l. induction sel as [|t sel IH]; intros l Hin Hn; [done|]. cbn [fold_left]. cbn [map In] in Hn. apply IH; [|tauto].
  apply in_map_iff. exists x. split; [|done]. rewrite (proj2 (String.eqb_neq _ _)); [done|]. intros E. apply Hn. by left.
Qed.

Lemma requeue_fold_hit now sel l x : List.NoDup (map t_id sel) -> In x l -> In (t_id x) (map t_id sel) ->
  In (requeue_expired now x)
    (fold_left (fun l t => map (fun x => if t_id x =s t_id t then requeue_expired now x else x) l) sel l).
Proof.
  revert l. induction sel as [|t sel IH]; intros l Hnd Hin Hi; [done|]. cbn [fold_left map] in *.
  apply List.NoDup_cons_iff in Hnd as [Hn Hnd].
  destruct (String.eqb_spec (t_id x) (t_id t)) as [E|E].
  - apply (requeue_fold_other now sel); [|cbn; by rewrite E].
    apply in_map_iff. exists x. split; [|done]. rewrite E, String.eqb_refl. done.
  - apply IH; [done| |destruct Hi as [Hi|Hi]; [by rewrite Hi in E|done]].
    apply in_map_iff. exists x. split; [|done]. by rewrite (proj2 (String.eqb_neq _ _)).
Qed.

Definition expired_batch (now limit : Z) (T : task_tables) : list task :=
  firstn (Z.to_nat limit) (sort_by lease_order (List.filter (lease_expired (_task_iso_now now)) (tasks T))).

Lemma expired_batch_In now limit T t : In t (expired_batch now limit T) ->
  In t (tasks T) /\ lease_expired (_task_iso_now now) t = true.
Proof. intros Hin%In_firstn. by rewrite sort_by_In, filter_In in Hin. Qed.

Lemma expired_batch_NoDup now limit T : List.NoDup (map t_id (tasks T)) -> List.NoDup (map t_id (expired_batch now limit T)).
Proof.
  intros Hnd. by apply NoDup_map_firstn, NoDup_map_sort, NoDup_map_filter.
Qed.

(** ** Reachable tables *)

Section reachable.
Variable C : task_config.

Inductive task_step : task_tables -> task_tables -> Prop :=
| tstep_create now id title pr ag prio p ra mx T T' t :
    create_task_record C now id title pr ag prio p ra mx T = Ok (T', t) -> task_step T T'
| tstep_claim now w T T' r : claim_tx C now w T = Ok (T', r) -> task_step T T'
| tstep_recover now limit T T' n : recover_tx now limit T = Ok (T', n) -> task_step T T'
| tstep_update now id s m md T T' r : update_task_status now id s m md T = Ok (T', r) -> task_step T T'
| tstep_approve now id a n T T' r : approve_task_record now id a n T = Ok (T', r) -> task_step T T'
| tstep_retry now id e w T T' r : requeue_task_for_retry C now id e w T = Ok (T', r) -> task_step T T'
| tstep_replay now id a n b T T' r : replay_task_record now id a n b T = Ok (T', r) -> task_step T T'.

Inductive task_reachable : task_tables -> Prop :=
| treach_init : task_reachable empty_tables
| treach_step T T' : task_reachable T -> task_step T T' -> task_reachable T'.

Lemma claim_tx_ok now w T T' r : claim_tx C now w T = Ok (T', r) -> tables_ok T -> tables_ok T'.
Proof.
  intros E Hok. destruct (claim_tx_cases C now w T) as [[_ E']|(t & ev & Hin & Hel & _ & E')];
    cbn zeta in E'; rewrite E' in E; injection E as <- <-; [done|].
  apply update_task_ok; [done| |done]. intros t' Hin' Hid Ht'.
  assert (t' = t) as -> by (apply (In_NoDup_inj t_id (tasks T)); [apply Hok|done..]).
  unfold eligible, task_ready in Hel. blift. by apply claim_task_ok.
Qed.

Lemma task_step_ok T T' : task_step T T' -> tables_ok T -> tables_ok T'.
Proof.
  intros Hs Hok. destruct Hs as [now id title pr ag prio p ra mx T T' t E|now w T T' r E|now limit T T' n E
    |now id s m md T T' r E|now id a n T T' r E|now id e w T T' r E|now id a n b T T' r E].
  - by eapply create_ok.
  - by eapply claim_tx_ok.
  - injection E as <- _. by apply recover_fold_ok.
  - unfold update_task_status in E. destruct (parse_task_status _); [|done].
    destruct (run_after_override md); [|done]. cbn [rbind] in E.
    destruct (find_task id T); injection E as <- <-; [|done].
    apply update_task_ok; [done| |done]. intros; by apply status_update_ok.
  - unfold approve_task_record in E. destruct (find_task id T); injection E as <- <-; [|done].
    apply update_task_ok; [done| |done]. intros; by apply approve_row_ok.
  - unfold requeue_task_for_retry in E. destruct (find_task id T) as [t|]; [|by injection E as <- <-].
    destruct (if _ <=? _ then _ else _) as [s m]. injection E as <- <-.
    apply update_task_ok; [|intros; by apply retry_task_ok|done].
    intros x. unfold retry_task. by destruct (_ <=? _).
  - unfold replay_task_record in E. destruct (find_task id T); injection E as <- <-; [|done].
    apply update_task_ok; [done| |done]. intros; by apply replay_row_ok.
Qed.

Lemma task_reachable_ok T : task_reachable T -> tables_ok T.
Proof. induction 1; [repeat split; constructor|by eapply task_step_ok]. Qed.

Lemma recover_fold_events now sel T : exists evs,
  task_events (fold_left (recover_one now) sel T) = task_events T ++ evs.
Proof.
  revert T. induction sel as [|t sel IH]; intros T; cbn [fold_left]; [exists []; by rewrite app_nil_r|].
  destruct (IH (recover_one now T t)) as [evs ->]. cbn. rewrite <- app_assoc. by eexists.
Qed.

(** Events are never changed or removed. *)
Lemma task_step_events T T' : task_step T T' -> exists evs, task_events T' = task_events T ++ evs.
Proof.
  intros Hs. destruct Hs as [now id title pr ag prio p ra mx T T' t E|now w T T' r E|now limit T T' n E
    |now id s m md T T' r E|now id a n T T' r E|now id e w T T' r E|now id a n b T T' r E].
  - unfold create_task_record in E. destruct (new_task _ _ _ _ _ _ _ _ _) as [t0|]; [|done]. cbn [rbind] in E.
    destruct (existsb _ _); [done|]. injection E as <- <-. by eexists.
  - destruct (claim_tx_cases C now w T) as [[_ E']|(t & ev & Hin & Hel & _ & E')];
      cbn zeta in E'; rewrite E' in E; injection E as <- <-; [exists []; by rewrite app_nil_r|by eexists].
  - injection E as <- _. apply recover_fold_events.
  - unfold update_task_status in E. destruct (parse_task_status _); [|done].
    destruct (run_after_override md); [|done]. cbn [rbind] in E.
    destruct (find_task id T); injection E as <- <-; [by eexists|exists []; by rewrite app_nil_r].
  - unfold approve_task_record in E. destruct (find_task id T); injection E as <- <-; [by eexists|exists []; by rewrite app_nil_r].
  - unfold requeue_task_for_retry in E. destruct (find_task id T) as [t|]; [|injection E as <- <-; exists []; by rewrite app_nil_r].
    destruct (if _ <=? _ then _ else _) as [s m]. injection E as <- <-. by eexists.
  - unfold replay_task_record in E. destruct (find_task id T); injection E as <- <-; [by eexists|exists []; by rewrite app_nil_r].
Qed.
End reachable.

(** Task agents a worker serves. *)
Definition meant_for (worker : string) (agent : option string) : Prop :=
  match agent with
  | None => True
  | Some a =>
      let name := lower (sql_trim a) in
      sql_trim a = "" \/ name = "any" \/ name = lower worker \/
      name = (if startswith (lower worker) "internal-worker" then "internal" else "external")
  end.

Lemma eligible_spec now w t : eligible now w t = true <->
  waiting (t_status t) = true /\ (t_approval_required t = true -> t_approved t = true) /\
  t_attempts t < t_max_attempts t /\ due (_task_iso_now now) t = true /\ meant_for (worker_name_of w) (t_agent t).
Proof.
  unfold eligible, task_ready, approval_ok, agent_matches, meant_for. rewrite !andb_true_iff, Z.ltb_lt.
  assert (negb (t_approval_required t) || t_approved t = true <-> (t_approval_required t = true -> t_approved t = true)) as ->
    by (destruct (t_approval_required t), (t_approved t); cbn; naive_solver).
  destruct (t_agent t) as [a|]; [|tauto]. rewrite !orb_true_iff, !andb_true_iff, !String.eqb_eq.
  destruct (startswith _ _); cbn [negb]; naive_solver.
Qed.

(** A claim that returns a task. *)
Lemma claim_tx_some C now w T T' t' : tables_ok T -> claim_tx C now w T = Ok (T', Some t') ->
  exists t, In t (tasks T) /\ eligible now w t = true /\
    t' = claim_task (_task_iso_now now) (_task_iso_after now (TASK_LEASE_SECS C)) (worker_name_of w) t /\
    In t' (tasks T') /\
    (forall x, In x (tasks T) -> eligible now w x = true -> claim_order t x = true) /\
    (forall x, In x (tasks T) -> t_id x <> t_id t -> In x (tasks T')).
Proof.
  intros Hok E. destruct (claim_tx_cases C now w T) as [[_ E']|(t & ev & Hin & Hel & Hord & E')];
    cbn zeta in E'; rewrite E' in E; [done|]. set (u := claim_task _ _ _) in *.
  assert (find_task (t_id t) T = Some t) as Hf by (apply find_task_in; [apply Hok|done]).
  rewrite (find_updated (t_id t) u ev T t) in E by done. injection E as <- <-.
  exists t. split; [done|]. split; [done|]. split; [done|]. split; [|split; [done|]].
  - pose proof (update_task_In (t_id t) u ev T t Hin) as H. by rewrite String.eqb_refl in H.
  - intros x Hx Hne. pose proof (update_task_In (t_id t) u ev T x Hx) as H.
    by rewrite (proj2 (String.eqb_neq _ _) Hne) in H.
Qed.

(** ** Leases *)

(** A time at least one second before [end_]. *)
Definition before_end (end_ now : Z) : Prop := in_range now /\ now + us_per_sec <= end_.

(** What may happen around task [id] until [end_]: new tasks, changes of other
    tasks, and claims and recoveries before the end. *)
Inductive around (C : task_config) (id : string) (end_ : Z) : task_tables -> task_tables -> Prop :=
| around_create now i title pr ag prio p ra mx T T' t :
    create_task_record C now i title pr ag prio p ra mx T = Ok (T', t) -> around C id end_ T T'
| around_claim now w T T' r : before_end end_ now -> claim_tx C now w T = Ok (T', r) -> around C id end_ T T'
| around_recover now limit T T' n : before_end end_ now -> recover_tx now limit T = Ok (T', n) -> around C id end_ T T'
| around_update now i s m md T T' r : i <> id -> update_task_status now i s m md T = Ok (T', r) -> around C id end_ T T'
| around_approve now i a n T T' r : i <> id -> approve_task_record now i a n T = Ok (T', r) -> around C id end_ T T'
| around_retry now i e w T T' r : i <> id -> requeue_task_for_retry C now i e w T = Ok (T', r) -> around C id end_ T T'
| around_replay now i a n b T T' r : i <> id -> replay_task_record now i a n b T = Ok (T', r) -> around C id end_ T T'.

Inductive meanwhile (C : task_config) (id : string) (end_ : Z) (T : task_tables) : task_tables -> Prop :=
| meanwhile_none : meanwhile C id end_ T T
| meanwhile_step T1 T2 : meanwhile C id end_ T T1 -> around C id end_ T1 T2 -> meanwhile C id end_ T T2.

Definition holds (t : task) (T : task_tables) : Prop := tables_ok T /\ In t (tasks T).

(** An invariant of the tables and a fact on the answers survive every fault. *)
Lemma run_attempts_holds {S A} (P : S -> Prop) (Q : A -> Prop) (fn : S -> result (S * A)) more : forall db,
  (forall s, P s -> match fn s with Ok (s', a) => P s' /\ Q a | Raise _ => True end) -> P (tables db) ->
  let '(db', r) := run_attempts fn more db in P (tables db') /\ match r with Ok a => Q a | Raise _ => True end.
Proof.
  assert (forall db, (forall s, P s -> match fn s with Ok (s', a) => P s' /\ Q a | Raise _ => True end) -> P (tables db) ->
    let '(db', r) := with_connection fn db in P (tables db') /\ match r with Ok a => Q a | Raise _ => True end) as H1.
  { intros db Hfn Hd. specialize (Hfn _ Hd). unfold with_connection. destruct (next_fault _) as [[] rest];
      [|done|]; destruct (fn (tables db)) as [[s a]|x]; cbn; naive_solver. }
  induction more as [|more IH]; intros db Hfn Hd; cbn [run_attempts]; [by apply H1|]. unfold st_try.
  specialize (H1 db Hfn Hd). destruct (with_connection fn db) as [db1 [a|e]]; [done|].
  destruct (retryable e); [apply IH; [done|apply H1]|]. by split; [apply H1|].
Qed.

Section leases.
Variables (C : task_config) (now : Z) (t : task).
Hypothesis end_range : in_range (now + Z.max 0 (TASK_LEASE_SECS C)).
Hypothesis running : t_status t = TRunning.
Hypothesis leased : t_lease t = Some (_task_iso_after now (TASK_LEASE_SECS C)).

Lemma recover_holds now2 limit T : before_end (now + Z.max 0 (TASK_LEASE_SECS C)) now2 -> holds t T ->
  holds t (fold_left (recover_one (_task_iso_now now2)) (expired_batch now2 limit T) T).
Proof.
  intros [R2 Hle] [Hok Hin]. split; [by apply recover_fold_ok|]. rewrite recover_fold_tasks. apply requeue_fold_other; [done|].
  intros (x & Ex & Hx)%in_map_iff. apply expired_batch_In in Hx as [Hx Hexp].
  assert (x = t) as -> by (apply (In_NoDup_inj t_id (tasks T)); [apply Hok|done..]).
  unfold lease_expired in Hexp. rewrite leased in Hexp. unfold _task_iso_after, _task_iso_now in Hexp.
  rewrite (proj2 (iso_leb_1s _ _ R2 end_range Hle)) in Hexp. by rewrite andb_false_r in Hexp.
Qed.

Lemma other_holds id u ev T : id <> t_id t -> tables_ok (update_task id u ev T) -> holds t T -> holds t (update_task id u ev T).
Proof.
  intros Hne Hok [_ Hin]. split; [done|]. pose proof (update_task_In id u ev T t Hin) as H.
  by rewrite (proj2 (String.eqb_neq _ _) (not_eq_sym Hne)) in H.
Qed.

(** A claim takes another task. *)
Lemma claim_holds now2 w T : holds t T ->
  match claim_tx C now2 w T with
  | Ok (T', r) => holds t T' /\ forall t2, r = Some t2 -> t_id t2 <> t_id t
  | Raise _ => True
  end.
Proof.
  intros [Hok Hin]. destruct (claim_tx C now2 w T) as [[T' r]|e] eqn:E; [|done].
  pose proof (claim_tx_ok C now2 w T T' r E Hok) as Hok'.
  destruct (claim_tx_cases C now2 w T) as [[_ E']|(x & ev & Hx & Hel & _ & E')]; cbn zeta in E'; rewrite E' in E; injection E as <- <-.
  { by split. }
  assert (t_id x <> t_id t) as Hne.
  { intros Eq. assert (x = t) as -> by (apply (In_NoDup_inj t_id (tasks T)); [apply Hok|done..]).
    unfold eligible, task_ready in Hel. by rewrite running in Hel. }
  split; [by apply other_holds|]. intros t2 Hf. apply List.find_some in Hf as [_ Hid]. blift. congruence.
Qed.

Lemma around_holds T T' : around C (t_id t) (now + Z.max 0 (TASK_LEASE_SECS C)) T T' -> holds t T -> holds t T'.
Proof.
  intros Hs Hh. assert (task_step C T T' -> tables_ok T') as Hok by (intros H; by eapply task_step_ok; [|apply Hh]).
  destruct Hs as [n i title pr ag prio p ra mx T T' x E|n w T T' r Hn E|n limit T T' k Hn E
    |n i s m md T T' r Hne E|n i a nt T T' r Hne E|n i e w T T' r Hne E|n i a nt b T T' r Hne E].
  - specialize (Hok ltac:(by econstructor)). split; [done|]. unfold create_task_record in E.
    destruct (new_task _ _ _ _ _ _ _ _ _) as [t0|]; [|done]. cbn [rbind] in E. destruct (existsb _ _); [done|].
    injection E as <- <-. cbn. apply in_or_app. left. apply Hh.
  - pose proof (claim_holds n w T Hh) as H. rewrite E in H. apply H.
  - injection E as <- _. by apply recover_holds.
  - specialize (Hok ltac:(by econstructor)). unfold update_task_status in E. destruct (parse_task_status _); [|done].
    destruct (run_after_override md); [|done]. cbn [rbind] in E. destruct (find_task i T); injection E as <- <-; [|done].
    by apply other_holds.
  - specialize (Hok ltac:(by econstructor)). unfold approve_task_record in E. destruct (find_task i T); injection E as <- <-; [|done].
    by apply other_holds.
  - specialize (Hok ltac:(by econstructor)). unfold requeue_task_for_retry in E. destruct (find_task i T) as [x|]; [|by injection E as <- <-].
    destruct (if _ <=? _ then _ else _) as [s m]. injection E as <- <-. by apply other_holds.
  - specialize (Hok ltac:(by econstructor)). unfold replay_task_record in E. destruct (find_task i T); injection E as <- <-; [|done].
    by apply other_holds.
Qed.

Lemma meanwhile_holds T T' : meanwhile C (t_id t) (now + Z.max 0 (TASK_LEASE_SECS C)) T T' -> holds t T -> holds t T'.
Proof. induction 1 as [|T1 T2 _ IH Ha]; [done|]. intros H. by eapply around_holds; [|apply IH]. Qed.
End leases.

(** ** The payload contract *)

Lemma is_space_lower c : is_space (lower_char c) = is_space c.
Proof. by destruct c as [[] [] [] [] [] [] [] []]. Qed.

Lemma lstrip_lower s : lstrip_by is_space (lower s) = lower (lstrip_by is_space s).
Proof. induction s as [|c s IH]; [done|]. cbn. rewrite is_space_lower. by destruct (is_space c). Qed.

Lemma rstrip_lower s : rstrip_by is_space (lower s) = lower (rstrip_by is_space s).
Proof.
  induction s as [|c s IH]; [done|]. change (lower (String c s)) with (String (lower_char c) (lower s)).
  cbn [rstrip_by]. rewrite IH, is_space_lower. destruct (rstrip_by is_space s); [|done]. by destruct (is_space c).
Qed.

Lemma strip_lower s : strip (lower s) = lower (strip s).
Proof. unfold strip, strip_by. by rewrite lstrip_lower, rstrip_lower. Qed.

Lemma truthy_lower s : truthy (lower s) = truthy s.
Proof. by destruct s. Qed.

Lemma assoc_In k l v : assoc k l = Some v -> In (k, v) l.
Proof.
  induction l as [|[k' v'] l IH]; cbn; [done|]. destruct (String.eqb_spec k k') as [->|]; [intros [= ->]; by left|auto].
Qed.

(** A normalised action is a fixed point. *)
Lemma normalize_action_fix raw a : _normalize_task_action raw = Some a -> _normalize_task_action (JStr a) = Some a.
Proof.
  unfold _normalize_task_action. intros E.
  assert (exists x, truthy (lower (strip x)) = true /\
    a = match assoc (lower (strip x)) task_action_alias with Some b => b | None => lower (strip x) end) as (x & Ht & ->).
  { destruct raw; try done; (destruct (truthy _) eqn:Ht in E; [|done]); injection E as <-; eexists; split; eauto. }
  destruct (assoc (lower (strip x)) task_action_alias) as [b|] eqn:Ea.
  - apply assoc_In in Ea. cbn in Ea. cbn [jstr].
    repeat (destruct Ea as [[= _ <-]|Ea]; [vm_compute; reflexivity|]). destruct Ea.
  - cbn [jstr]. rewrite strip_lower, strip_strip, lower_lower, Ht. by rewrite Ea.
Qed.

Lemma dset_same k v d : dlookup k d = Some v -> dset k v d = d.
Proof.
  induction d as [|[k' v'] d IH]; cbn; [done|]. destruct (String.eqb_spec k k') as [->|]; [by intros [= ->]|].
  intros H. by rewrite IH.
Qed.

Lemma text1_strip d k : strip (text1 d k) = text1 d k.
Proof. unfold text1. apply strip_strip. Qed.

Lemma text2_strip d k k' : strip (text2 d k k') = text2 d k k'.
Proof. unfold text2. apply strip_strip. Qed.

Lemma text1_set d k s : dget d k = JStr s -> strip s = s -> text1 d k = s.
Proof. intros E Hs. unfold text1. by rewrite E, jstr_or_empty_str. Qed.

Lemma text2_set d k k' s : dget d k = JStr s -> strip s = s -> truthy s = true -> text2 d k k' = s.
Proof. intros E Hs Ht. unfold text2, jor. rewrite E. cbn [jtruthy]. by rewrite Ht, jstr_or_empty_str. Qed.

Lemma dget_dlookup d k v : dget d k = v -> v <> JNull -> dlookup k d = Some v.
Proof. unfold dget. destruct (dlookup k d); [by intros ->|congruence]. Qed.

Ltac dget_simpl := repeat first [rewrite dget_dset_eq | rewrite dget_dset_ne by done].

(** The action's rules keep the action, and applied again they change nothing. *)
Lemma validate_action_fix C action n n' :
  dget n "action" = JStr action -> dget n "action_type" = JStr action -> validate_action C action n = Ok n' ->
  dget n' "action" = JStr action /\ dget n' "action_type" = JStr action /\ validate_action C action n' = Ok n'.
Proof.
  intros Ha Hat. unfold validate_action.
  destruct (action =s "memory_write"); [|destruct (action =s "memory_search"); [|destruct (action =s "messaging_command");
    [|destruct (action =s "http_callback"); [|destruct (action =s "provider_chat")]]]].
  - destruct (negb (truthy (text2 n "projectName" "project"))) eqn:E1; [done|].
    destruct (negb (truthy (text2 n "fileName" "file"))) eqn:E2; [done|].
    destruct (negb (truthy (text1 n "content"))) eqn:E3; [done|]. cbn [orb]. intros [= <-]. blift.
    dget_simpl. split; [done|]. split; [done|].
    rewrite (text2_set _ "projectName" "project" (text2 n "projectName" "project")), (text2_set _ "fileName" "file" (text2 n "fileName" "file")),
      (text1_set _ "content" (text1 n "content")); try (by dget_simpl); try apply text1_strip; try apply text2_strip; try done.
    rewrite E1, E2, E3. cbn [negb orb]. f_equal.
    rewrite (dset_same "projectName"), (dset_same "fileName"), (dset_same "content"); try done;
      apply dget_dlookup; try done; by dget_simpl.
  - destruct (negb (truthy (text1 n "query"))) eqn:E1; [done|]. intros [= <-]. blift. dget_simpl.
    split; [done|]. split; [done|]. rewrite (text1_set _ "query" (text1 n "query")); [|by dget_simpl|apply text1_strip].
    rewrite E1. cbn [negb]. f_equal. apply dset_same, dget_dlookup; [by dget_simpl|done].
  - destruct (negb (truthy (text1 n "text"))) eqn:E1; [done|]. intros [= <-]. blift. dget_simpl.
    split; [done|]. split; [done|]. rewrite (text1_set _ "text" (text1 n "text")); [|by dget_simpl|apply text1_strip].
    rewrite E1. cbn [negb]. f_equal. apply dset_same, dget_dlookup; [by dget_simpl|done].
  - destruct (negb (truthy (text1 n "url"))) eqn:E1; [done|].
    destruct (_task_validate_callback_url C (text1 n "url")) as [[]|] eqn:Ev; [|done]. cbn [rbind]. dget_simpl.
    destruct (negb (mem_str _ _)) eqn:Em; [done|]. intros [= <-]. blift.
    set (m := upper (strip (jstr (jor (dget n "method") (JStr "POST"))))) in *.
    dget_simpl. split; [done|]. split; [done|].
    rewrite (text1_set _ "url" (text1 n "url")); [|by dget_simpl|apply text1_strip].
    rewrite E1. cbn [negb]. rewrite Ev. cbn [rbind].
    dget_simpl.
    assert (upper (strip (jstr (jor (JStr m) (JStr "POST")))) = m) as ->.
    { apply mem_str_In in Em. cbn in Em. repeat (destruct Em as [<-|Em]; [vm_compute; reflexivity|]). destruct Em. }
    rewrite Em. cbn [negb]. f_equal.
    rewrite (dset_same "url"), (dset_same "method"); [done|apply dget_dlookup; [by dget_simpl|done]..].
  - destruct (negb _ && negb _) eqn:E1; [done|]. intros [= <-]. split; [done|]. split; [done|]. by rewrite E1.
  - intros [= <-]. done.
Qed.

Lemma contract_spec C p d : _validate_task_payload_contract C p = Ok (Some d) ->
  exists p0 action n, p = Some (JObj p0) /\ payload_action p0 = Some action /\ In action (TASK_ALLOWED_ACTIONS C) /\
    dget n "action" = JStr action /\ dget n "action_type" = JStr action /\
    n = dset "action_type" (JStr action) (dset "action" (JStr action) p0) /\ validate_action C action n = Ok d.
Proof.
  unfold _validate_task_payload_contract. destruct p as [[| | | | | |p0]|]; try done.
  destruct (payload_action p0) as [action|] eqn:Ea; [|done].
  destruct (mem_str action (TASK_ALLOWED_ACTIONS C)) eqn:Em; [|done]. cbn [negb].
  destruct (validate_action C action _) as [n'|] eqn:Ev; [|done]. cbn [rbind]. intros [= <-].
  apply mem_str_In in Em. repeat eexists; try done; by dget_simpl.
Qed.

Lemma truthy_action raw a : _normalize_task_action raw = Some a -> truthy a = true.
Proof.
  intros E%normalize_action_fix. unfold _normalize_task_action in E. cbn [jstr] in E.
  destruct (truthy (lower (strip a))) eqn:Ht; [|done]. by destruct a.
Qed.

(** ** Properties *)

(** C13: in every reachable state task keys are unique, attempts never exceed the
    limit of 1 to 50, a lease belongs to a running task and names its worker, a
    finished task has its completion time, every task has an event, and no
    operation changes or removes an event. *)
Theorem task_reachable_wf C T :
  task_reachable C T ->
  tables_ok T /\ forall T', task_step C T T' -> exists evs, task_events T' = task_events T ++ evs.
Proof. intros Hr. split; [by eapply task_reachable_ok|]. intros T'. apply task_step_events. Qed.

(** C11: a claim hands out a task that was waiting, due, approved if it needs
    approval, below its attempt limit and meant for this worker: its agent is
    none, blank, any, the worker's own name (letter case and outer spaces
    aside), internal for an internal worker or external for another one.  It is the
    first of all such tasks by priority, due time and age; it is now running
    under this worker's lease with one more attempt, and no other task
    changes. *)
Theorem claim_hands_out_first_ready_task C now w T T' t' :
  task_reachable C T -> claim_tx C now w T = Ok (T', Some t') ->
  exists t, In t (tasks T) /\ In t' (tasks T') /\ t_id t' = t_id t /\
    waiting (t_status t) = true /\ (t_approval_required t = true -> t_approved t = true) /\
    t_attempts t < t_max_attempts t /\ due (_task_iso_now now) t = true /\ meant_for (worker_name_of w) (t_agent t) /\
    t_status t' = TRunning /\ t_attempts t' = t_attempts t + 1 /\ t_claimed_by t' = Some (worker_name_of w) /\
    t_lease t' = Some (_task_iso_after now (TASK_LEASE_SECS C)) /\
    (forall x, In x (tasks T) -> waiting (t_status x) = true -> (t_approval_required x = true -> t_approved x = true) ->
       t_attempts x < t_max_attempts x -> due (_task_iso_now now) x = true -> meant_for (worker_name_of w) (t_agent x) ->
       claim_order t x = true) /\
    (forall x, In x (tasks T) -> t_id x <> t_id t -> In x (tasks T')).
Proof.
  intros Hr%task_reachable_ok E.
  destruct (claim_tx_some C now w T T' t' Hr E) as (t & Hin & Hel & -> & Hin' & Hord & Hoth). apply eligible_spec in Hel as (H1 & H2 & H3 & H4 & H5).
  exists t. repeat (split; [first [done | lia]|]). split; [|done].
  intros x Hx X1 X2 X3 X4 X5. apply Hord; [done|]. by apply eligible_spec.
Qed.

(** C10: a lease is exclusive up to its last second.  From the claim of a task on, whatever tasks are
    created and however the other tasks are changed, and whatever claims and
    recoveries run at least one second before the lease ends, the task keeps its
    row, running under the same worker and lease; and such a claim, with its
    recovery of expired leases and any failures of the database, neither
    returns the task nor changes it.  (Within the last second the texts of the
    times need not compare as the times do.) *)
Theorem lease_is_exclusive C retries now w T T' t' T2 now2 w2 fs :
  task_reachable C T -> claim_tx C now w T = Ok (T', Some t') ->
  in_range (now + Z.max 0 (TASK_LEASE_SECS C)) ->
  meanwhile C (t_id t') (now + Z.max 0 (TASK_LEASE_SECS C)) T' T2 ->
  before_end (now + Z.max 0 (TASK_LEASE_SECS C)) now2 ->
  In t' (tasks T2) /\ t_status t' = TRunning /\ t_lease t' = Some (_task_iso_after now (TASK_LEASE_SECS C)) /\
  let '(db2, r) := claim_next_task C retries now2 w2 (mkDb T2 fs) in
  In t' (tasks (tables db2)) /\ forall t2, r = Ok (Some t2) -> t_id t2 <> t_id t'.
Proof.
  intros Hr%task_reachable_ok E R Hm Hnow.
  pose proof (claim_tx_ok C now w T T' _ E Hr) as Hok'.
  destruct (claim_tx_some C now w T T' t' Hr E) as (t & _ & _ & Et' & Hin' & _).
  assert (t_status t' = TRunning /\ t_lease t' = Some (_task_iso_after now (TASK_LEASE_SECS C))) as [Hs Hl] by (by rewrite Et').
  assert (holds t' T2) as H2 by (apply (meanwhile_holds C now t' R Hs Hl T' T2 Hm); by split).
  split; [apply H2|]. split; [done|]. split; [done|].
  unfold claim_next_task, recover_expired_task_leases, st_bind. cbn [Z.leb Z.compare]. unfold _task_db_exec at 1.
  pose proof (run_attempts_holds (holds t') (fun _ => True) (recover_tx now2 25) (Z.to_nat (Z.max 1 retries) - 1) (mkDb T2 fs)) as Hrec.
  specialize (Hrec (fun s Hs0 => conj (recover_holds C now t' R Hl now2 25 s Hnow Hs0) I) H2).
  destruct (run_attempts (recover_tx now2 25) _ _) as [db1 [n|e]]; [|split; [apply Hrec|done]]. destruct Hrec as [H1 _].
  unfold _task_db_exec. 
  pose proof (run_attempts_holds (holds t') (fun r => forall t2, r = Some t2 -> t_id t2 <> t_id t') (claim_tx C now2 w2)
    (Z.to_nat (Z.max 1 retries) - 1) db1) as Hcl.
  unshelve epose proof (Hcl _ H1) as Hcl'.
  { intros s Hs0. pose proof (claim_holds C t' Hs now2 w2 s Hs0) as H. by destruct (claim_tx C now2 w2 s) as [[s' r]|]. }
  destruct (run_attempts (claim_tx C now2 w2) _ db1) as [db2 [r|e]]; destruct Hcl' as [Hh Hq]; (split; [apply Hh|]); [|done].
  intros t2 [= ->]. by apply Hq.
Qed.

(** A failed task is failed for good when its attempts are used up, and
    otherwise waits for its delay: no claim a second before the due time may
    take it, and a second after it is ready again if approval allows; the
    delay lies between the base and the cap and doubles below the cap. *)
Theorem retry_delay_and_deadletter C now id e w T t :
  task_reachable C T -> find_task id T = Some t -> config_ok C = true -> 1 <= t_attempts t ->
  let d := _task_retry_delay_secs C (t_attempts t) in
  exists T' t', requeue_task_for_retry C now id e w T = Ok (T', Some t') /\ t_lease t' = None /\
    TASK_RETRY_BASE_SECS C <= d <= TASK_RETRY_MAX_SECS C /\
    (t_attempts t = t_max_attempts t -> t_status t' = TFailed /\ is_Some (t_completed_at t')) /\
    (t_attempts t < t_max_attempts t -> t_status t' = Queued /\
       forall u, in_range u -> in_range (now + d) ->
         (u + us_per_sec <= now + d -> task_ready (_task_iso_now u) t' = false) /\
         (now + d + us_per_sec <= u -> task_ready (_task_iso_now u) t' = approval_ok t)).
Proof.
  intros Hr%task_reachable_ok Hf Hcfg Ha. cbn zeta. pose proof (find_task_spec _ _ _ Hf) as [Hin Hid].
  assert (task_ok t) as (Hb & Hm & _) by (destruct Hr as (_ & Hall & _); rewrite List.Forall_forall in Hall; auto).
  unfold config_ok in Hcfg. blift.
  assert (task_max_attempts C t = t_max_attempts t) as Emx.
  { unfold task_max_attempts. destruct (Z.eqb_spec (t_max_attempts t) 0); lia. }
  unfold requeue_task_for_retry. rewrite Hf, Emx.
  assert (TASK_RETRY_BASE_SECS C <= _task_retry_delay_secs C (t_attempts t) <= TASK_RETRY_MAX_SECS C) as Hd.
  { unfold _task_retry_delay_secs. rewrite (Z.max_r 0) by lia.
    pose proof (Z.pow_pos_nonneg 2 (t_attempts t - 1)). nia. }
  set (err := take 2000 (str_or e "task execution failed")).
  assert (keeps_id (retry_task C now err)) as Hk by (intros x; unfold retry_task; by destruct (_ <=? _)).
  destruct (if t_max_attempts t <=? t_attempts t then _ else _) as [s m].
  do 2 eexists. split; [rewrite (find_updated id _ _ _ _ Hk Hr Hf); reflexivity|].
  unfold retry_task. rewrite Emx. destruct (t_max_attempts t <=? t_attempts t) eqn:El; blift.
  - split; [done|]. split; [done|]. split; [by eauto|lia].
  - split; [done|]. split; [done|]. split; [lia|]. intros _. split; [done|]. intros u Ru Rd.
    unfold task_ready, due, approval_ok. cbn -[_task_iso_after _task_iso_now].
    rewrite (proj2 (Z.ltb_lt _ _)) by lia. unfold _task_iso_after, _task_iso_now. rewrite Z.max_r by lia.
    split; intros Hle.
    + rewrite (proj2 (iso_leb_1s _ _ Ru Rd Hle)). by rewrite andb_false_r.
    + rewrite (proj1 (iso_leb_1s _ _ Rd Ru Hle)). by rewrite !andb_true_r.
Qed.

(** An accepted payload names an allowed action and is stable: validating
    it again changes nothing; a callback goes to an http or https URL whose
    host is on the allow list, if there is one. *)
Theorem payload_contract_sound C p d :
  _validate_task_payload_contract C p = Ok (Some d) ->
  (exists action, dget d "action" = JStr action /\ dget d "action_type" = JStr action /\
     In action (TASK_ALLOWED_ACTIONS C) /\
     (action = "http_callback" -> exists scheme host, url_parts (text1 d "url") = Some (scheme, host) /\
        In (lower scheme) ["http"; "https"] /\ (TASK_CALLBACK_ALLOWED_HOSTS C <> [] -> In (lower host) (TASK_CALLBACK_ALLOWED_HOSTS C)))) /\
  _validate_task_payload_contract C (Some (JObj d)) = Ok (Some d).
Proof.
  intros (p0 & action & n & -> & Hpa & Hal & Ha & Hat & _ & Ev)%contract_spec.
  destruct (validate_action_fix C action n d Ha Hat Ev) as (Ha' & Hat' & Ev').
  split.
  - exists action. repeat (split; [done|]). intros ->. unfold validate_action in Ev'. cbn [String.eqb] in Ev'.
    change ("http_callback" =s "memory_write") with false in Ev'. change ("http_callback" =s "memory_search") with false in Ev'.
    change ("http_callback" =s "messaging_command") with false in Ev'. change ("http_callback" =s "http_callback") with true in Ev'.
    cbn match in Ev'. destruct (negb (truthy (text1 d "url"))); [done|].
    destruct (_task_validate_callback_url C (text1 d "url")) as [[]|] eqn:Ec; [|done].
    unfold _task_validate_callback_url in Ec. destruct (url_parts (text1 d "url")) as [[scheme host]|]; [|done].
    exists scheme, host. split; [done|]. destruct (mem_str (lower scheme) _) eqn:Es in Ec; [|done]. cbn [negb] in Ec.
    split; [by apply mem_str_In|]. destruct (negb (truthy (lower host))); [done|]. intros Hne.
    destruct (TASK_CALLBACK_ALLOWED_HOSTS C) as [|h hs] eqn:Eh; [done|].
    destruct (mem_str (lower host) (h :: hs)) eqn:Emh; [by apply mem_str_In|done].
  - unfold _validate_task_payload_contract, payload_action, jor. rewrite Ha'. cbn [jtruthy].
    unfold payload_action in Hpa. pose proof (truthy_action _ _ Hpa) as Ht. rewrite !Ht. cbn match. cbn [jtruthy]. rewrite Ht.
    rewrite (normalize_action_fix _ _ Hpa). rewrite (proj2 (mem_str_In _ _) Hal). cbn [negb].
    rewrite (dset_same "action"), (dset_same "action_type") by (apply dget_dlookup; done). by rewrite Ev'.
Qed.

(** A task whose lease expires on its last attempt is requeued and never
    runs again: no worker can claim it at any time, and it is neither failed
    nor reported. *)
Theorem lease_expiry_on_last_attempt_strands C now limit T t :
  task_reachable C T -> In t (expired_batch now limit T) -> t_attempts t = t_max_attempts t ->
  exists T' n t', recover_tx now limit T = Ok (T', n) /\ In t' (tasks T') /\ t_id t' = t_id t /\
    t_status t' = Queued /\ t_completed_at t' = t_completed_at t /\
    forall now2 w2, eligible now2 w2 t' = false.
Proof.
  intros Hr%task_reachable_ok Hb Ha. do 2 eexists. exists (requeue_expired (_task_iso_now now) t).
  split; [reflexivity|]. split.
  - cbn [tasks]. fold (expired_batch now limit T). rewrite recover_fold_tasks. apply requeue_fold_hit.
    + apply expired_batch_NoDup, Hr.
    + by apply expired_batch_In in Hb as [? _].
    + by apply in_map.
  - repeat (split; [done|]). intros now2 w2. unfold eligible, task_ready. cbn.
    by rewrite Ha, Z.ltb_irrefl, andb_false_r.
Qed.

(** Setting the status to "approved" does not approve: a task that needs
    approval shows the status and can still not be claimed by anyone. *)
Theorem status_approved_is_not_approval C now id message T t :
  task_reachable C T -> find_task id T = Some t -> t_approval_required t = true -> t_approved t = false ->
  exists T' t', update_task_status now id "approved" message None T = Ok (T', Some t') /\
    t_status t' = Approved /\ forall now2 w2, eligible now2 w2 t' = false.
Proof.
  intros Hr%task_reachable_ok Hf Hq Ha. unfold update_task_status.
  change (parse_task_status (lower (strip "approved"))) with (Some Approved). cbn [rbind run_after_override].
  rewrite Hf. do 2 eexists. rewrite find_updated with (t := t) by done. split; [reflexivity|].
  split; [done|]. intros now2 w2. unfold eligible, task_ready, approval_ok. cbn. by rewrite Hq, Ha.
Qed.

(** Approval opens the gate: the approved task can be claimed as soon as it
    is due and below its attempt limit. *)
Theorem approval_opens_the_gate C now id approver note T t :
  task_reachable C T -> find_task id T = Some t ->
  exists T' t', approve_task_record now id approver note T = Ok (T', Some t') /\ approval_ok t' = true /\
    t_attempts t' = t_attempts t /\
    (t_status t = Queued \/ t_status t = Blocked \/ t_status t = Approved ->
     forall u, task_ready u t' = (t_attempts t <? t_max_attempts t) && due u t').
Proof.
  intros Hr%task_reachable_ok Hf. unfold approve_task_record. rewrite Hf. do 2 eexists.
  rewrite find_updated with (t := t) by done. split; [reflexivity|].
  unfold task_ready, approval_ok, approve_row. cbn. rewrite orb_true_r. repeat (split; [done|]).
  intros Hs u. by destruct Hs as [->|[->| ->]].
Qed.

(** With the default settings the action never triggers the approval gate:
    no allowed action is high risk, so a task that does not declare a risk
    itself needs no approval. *)
Theorem default_actions_never_need_approval p d :
  _validate_task_payload_contract default_task_config p = Ok (Some d) ->
  lower_text (jor (jor (dget d "risk_level") (dget d "riskLevel")) (dget d "risk")) = None ->
  _requires_approval default_task_config d = false.
Proof.
  intros (p0 & action & n & -> & Hpa & Hal & Ha & Hat & _ & Ev)%contract_spec Hrisk.
  destruct (validate_action_fix _ _ _ _ Ha Hat Ev) as (_ & Hat' & _).
  unfold _requires_approval, _detect_risk_level. cbn [HIGH_RISK_APPROVAL_REQUIRED default_task_config negb].
  destruct d as [|kv d']; [done|]. rewrite Hrisk. unfold _detect_action_type, jor. rewrite Hat'. cbn [jtruthy].
  rewrite (truthy_action _ _ Hpa). unfold lower_text.
  pose proof (normalize_action_fix _ _ Hpa) as Hn. pose proof (truthy_action _ _ Hpa) as Ht.
  cbn in Hal. repeat (destruct Hal as [<-|Hal]; [vm_compute; reflexivity|]). destruct Hal.
Qed.

(** ** Witnesses *)

Definition demo_time : Z := 1700000000000001.
Definition demo_task_payload : json := JObj [("action", JStr " Remember "); ("project", JStr "p"); ("file", JStr "a.md");
  ("content", JStr "x"); ("risk_level", JStr "High")].

Definition run_create (now : Z) (id : string) (mx : Z) (p : json) (T : task_tables) : task_tables :=
  match create_task_record default_task_config now id "t" None None 0 (Some p) None (Some mx) T with
  | Ok (T', _) => T' | Raise _ => T end.
Definition run_claim (now : Z) (T : task_tables) : task_tables * option task :=
  match claim_tx default_task_config now (Some "w1") T with Ok r => r | Raise _ => (T, None) end.

Definition demo_low : json := JObj [("action", JStr "memory_search"); ("query", JStr "q")].
Definition demo_T1 : task_tables := run_create demo_time "t1" 1 demo_low empty_tables.
Definition demo_T2 : task_tables := run_create demo_time "t2" 3 demo_task_payload demo_T1.
Definition demo_T3 : task_tables * option task := run_claim (demo_time + 5000000) demo_T2.
Definition the_task (o : option task) : task :=
  match o with Some t => t | None => mkTask "" "" Queued None None 0 None None 0 0 None None None None None "" "" false false "" None end.

Lemma run_create_reachable now id mx p T :
  task_reachable default_task_config T -> task_reachable default_task_config (run_create now id mx p T).
Proof.
  intros Hr. unfold run_create. destruct (create_task_record _ _ _ _ _ _ _ _ _ _ T) as [[T' t]|] eqn:E; [|done].
  eapply treach_step; [exact Hr|]. by eapply tstep_create.
Qed.

Lemma run_claim_reachable now T :
  task_reachable default_task_config T -> task_reachable default_task_config (fst (run_claim now T)).
Proof.
  intros Hr. unfold run_claim. destruct (claim_tx _ _ _ T) as [[T' r]|] eqn:E; [|done].
  eapply treach_step; [exact Hr|]. by eapply tstep_claim.
Qed.

Lemma demo_T1_reachable : task_reachable default_task_config demo_T1.
Proof. apply run_create_reachable, treach_init. Qed.

Lemma demo_T2_reachable : task_reachable default_task_config demo_T2.
Proof. apply run_create_reachable, demo_T1_reachable. Qed.

Lemma demo_T3_reachable : task_reachable default_task_config (fst demo_T3).
Proof. apply run_claim_reachable, demo_T2_reachable. Qed.

Lemma task_reachable_wf_witness : tables_ok (fst demo_T3).
Proof. apply (task_reachable_wf default_task_config (fst demo_T3) demo_T3_reachable). Defined.

Lemma claim_hands_out_first_ready_task_witness :
  t_id (the_task (snd demo_T3)) = "t1" /\ t_status (the_task (snd demo_T3)) = TRunning.
Proof.
  destruct (claim_hands_out_first_ready_task default_task_config (demo_time + 5000000) (Some "w1") demo_T2
    (fst demo_T3) (the_task (snd demo_T3)) demo_T2_reachable) as (t & _ & _ & _ & _ & _ & _ & _ & _ & H & _).
  - vm_compute. reflexivity.
  - split; [vm_compute; reflexivity|exact H].
Defined.

Definition demo_T4 : task_tables := run_create demo_time "t3" 3 demo_low demo_T1.
Definition demo_T5 : task_tables * option task := run_claim (demo_time + 5000000) demo_T4.
Definition demo_T6 : task_db task_tables * result (option task) :=
  claim_next_task default_task_config 1 (demo_time + 6000000) (Some "w1") (mkDb (fst demo_T5) []).

(** The second claim, after a recovery, gets the other task. *)
Lemma lease_is_exclusive_witness :
  snd demo_T6 = Ok (find_task "t3" (tables (fst demo_T6))) /\ In (the_task (snd demo_T5)) (tasks (tables (fst demo_T6))).
Proof.
  split; [vm_compute; reflexivity|].
  destruct (lease_is_exclusive default_task_config 1 (demo_time + 5000000) (Some "w1") demo_T4 (fst demo_T5)
    (the_task (snd demo_T5)) (fst demo_T5) (demo_time + 6000000) (Some "w1") []) as (_ & _ & _ & H).
  - apply run_create_reachable, demo_T1_reachable.
  - vm_compute. reflexivity.
  - vm_compute. intuition discriminate.
  - eapply meanwhile_step; [apply meanwhile_none|]. apply (around_recover _ _ _ (demo_time + 5500000) 25 (fst demo_T5) (fst demo_T5) 0).
    + split; vm_compute; [intuition discriminate|discriminate].
    + vm_compute. reflexivity.
  - split; vm_compute; [intuition discriminate|discriminate].
  - unfold demo_T6. destruct (claim_next_task _ _ _ _ _) as [db2 r]. exact (proj1 H).
Defined.

Lemma retry_delay_and_deadletter_witness : exists T' t',
  requeue_task_for_retry default_task_config (demo_time + 9000000) "t1" "boom" None (fst demo_T3) = Ok (T', Some t') /\
  t_status t' = TFailed.
Proof.
  destruct (retry_delay_and_deadletter default_task_config (demo_time + 9000000) "t1" "boom" None (fst demo_T3)
    (the_task (snd demo_T3)) demo_T3_reachable) as (T' & t' & E & _ & _ & H & _).
  - vm_compute. reflexivity.
  - vm_compute. reflexivity.
  - vm_compute. discriminate.
  - exists T', t'. split; [exact E|]. apply H. vm_compute. reflexivity.
Defined.

Lemma payload_contract_sound_witness : exists d,
  _validate_task_payload_contract default_task_config (Some demo_task_payload) = Ok (Some d) /\
  _validate_task_payload_contract default_task_config (Some (JObj d)) = Ok (Some d).
Proof.
  eexists. split; [vm_compute; reflexivity|].
  apply (payload_contract_sound default_task_config (Some demo_task_payload)). vm_compute. reflexivity.
Defined.

Lemma lease_expiry_on_last_attempt_strands_witness : exists T' n t',
  recover_tx (demo_time + 500000000) 25 (fst demo_T3) = Ok (T', n) /\ In t' (tasks T') /\ t_status t' = Queued /\
  eligible (demo_time + 900000000) (Some "w2") t' = false.
Proof.
  destruct (lease_expiry_on_last_attempt_strands default_task_config (demo_time + 500000000) 25 (fst demo_T3)
    (the_task (snd demo_T3)) demo_T3_reachable) as (T' & n & t' & E & Hin & _ & Hs & _ & H).
  - vm_compute. tauto.
  - vm_compute. reflexivity.
  - exists T', n, t'. split; [exact E|]. split; [exact Hin|]. split; [exact Hs|apply H].
Defined.

Lemma status_approved_is_not_approval_witness : exists T' t',
  update_task_status (demo_time + 1000000) "t2" "approved" None None demo_T2 = Ok (T', Some t') /\
  t_status t' = Approved /\ eligible (demo_time + 900000000) (Some "w2") t' = false.
Proof.
  destruct (status_approved_is_not_approval default_task_config (demo_time + 1000000) "t2" None demo_T2
    (the_task (find_task "t2" demo_T2)) demo_T2_reachable) as (T' & t' & E & Hs & H).
  - vm_compute. reflexivity.
  - vm_compute. reflexivity.
  - vm_compute. reflexivity.
  - exists T', t'. split; [exact E|]. split; [exact Hs|apply H].
Defined.

Lemma approval_opens_the_gate_witness : exists T' t',
  approve_task_record (demo_time + 1000000) "t2" (Some "ann") None demo_T2 = Ok (T', Some t') /\ approval_ok t' = true.
Proof.
  destruct (approval_opens_the_gate default_task_config (demo_time + 1000000) "t2" (Some "ann") None demo_T2
    (the_task (find_task "t2" demo_T2)) demo_T2_reachable) as (T' & t' & E & H & _).
  - vm_compute. reflexivity.
  - exists T', t'. split; [exact E|exact H].
Defined.

Lemma default_actions_never_need_approval_witness :
  _requires_approval default_task_config [("action", JStr "memory_search"); ("query", JStr "q"); ("action_type", JStr "memory_search")] = false.
Proof.
  apply (default_actions_never_need_approval (Some demo_low)).
  - vm_compute. reflexivity.
  - vm_compute. reflexivity.
Defined.
