(* ===== verification/Messaging.v ===== *)
(** * Messaging commands

    Chat messages as commands: the prefixes and the parser
    ([_parse_messaging_command]), topics and files of a channel, the payloads
    of tasks created from a message ([_build_messaging_task_payload]), the
    check of Slack's signatures, and [_execute_messaging_command], written
    against the class [CommandServices] of the operations it calls. *)

From S2P Require Import Prelude PyStr PyTime Json JsonText Paths Policy Regex Secrets Ranking SourcePolicy Tasks WriteMemory Sources.
From Stdlib Require Import Ascii.
Open Scope Z_scope.

(** ** Text *)

Definition space_lead (c : ascii) : bool := Secrets.one_of " ,:-" c || Ascii.eqb c "009".

(** [s.split(maxsplit=1)] *)
Fixpoint first_word (s : string) : string * string :=
  match s with
  | EmptyString => ("", "")
  | String c s' => if is_space c then ("", s) else let '(w, r) := first_word s' in (String c w, r)
  end.

Definition split1 (s : string) : list string :=
  let s := lstrip_by is_space s in
  if truthy s then
    let '(w, r) := first_word s in
    let r := lstrip_by is_space r in
    if truthy r then [w; r] else [w]
  else [].

(** [parts[0].strip().lower()] and [parts[1].strip() if len(parts) > 1 else ""] *)
Definition head_word (parts : list string) : string := lower (strip (List.hd "" parts)).
Definition rest_words (parts : list string) : string := strip (nth 1 parts "").

(** [int(text)] for a decimal text. *)
Definition underscores_ok (s : string) : bool :=
  List.forallb truthy (PyStr.split "_" s).
Definition py_int (text : string) : option Z :=
  let t := strip text in
  let '(neg, t) := match t with
                   | String "-" t' => (true, t')
                   | String "+" t' => (false, t')
                   | _ => (false, t)
                   end in
  if underscores_ok t then option_map (fun z => if (neg : bool) then - z else z) (int_of_digits 0 (replace_char "_" "" t)) else None.

(** ** Settings *)

Record messaging_config := mkMessaging {
  MESSAGING_COMMAND_HANDLE : string; TELEGRAM_BOT_USERNAME : string; MESSAGING_DEFAULT_PROJECT : string;
  MESSAGING_SEARCH_LIMIT : Z; MESSAGING_MAX_RESPONSE_CHARS : Z; MESSAGING_OPENCLAW_STRICT_SECURITY : bool;
  MSG_TOPIC_ROOT : string; (* DEFAULT_TOPIC_ROOT *)
  TASK_PROVIDER_CHAT_MODEL : string; MSG_MAX_ATTEMPTS : Z; (* TASK_DEFAULT_MAX_ATTEMPTS *)
  MESSAGING_INTEGRATIONS_ENABLED : bool; IRONCLAW_INTEGRATION_ENABLED : bool;
  TELEGRAM_DEFAULT_PROJECT : string; SLACK_DEFAULT_PROJECT : string; OPENCLAW_DEFAULT_PROJECT : string;
  IRONCLAW_DEFAULT_PROJECT : string; TELEGRAM_TOPIC_ROOT : string; SLACK_TOPIC_ROOT : string;
  TELEGRAM_WEBHOOK_SECRET : string; SLACK_SIGNING_SECRET : string; TELEGRAM_BOT_TOKEN : string; SLACK_BOT_TOKEN : string }.

Definition default_messaging : messaging_config :=
  mkMessaging "@ContextLattice" "ContextLattice" "messaging" 4 1200 true "root" "" 4 true false
    "messaging" "messaging" "messaging" "messaging" "channels/telegram" "channels/slack" "" "" "" "".

(** ** Commands *)

Record command := mkCommand { c_action : string; c_content : string; c_directives : list (string * string); c_raw : string }.

(** [directives[k] = v] *)
Fixpoint sset (k v : string) (l : list (string * string)) : list (string * string) :=
  match l with
  | [] => [(k, v)]
  | (k', v') :: l' => if k =s k' then (k', v) :: l' else (k', v') :: sset k v l'
  end.

Definition directive_names : list string :=
  ["project"; "topic"; "file"; "limit"; "status"; "priority"; "max_attempts"; "run_after"; "agent"; "task"; "task_id";
   "model"; "mode"].

Definition _MESSAGING_DIRECTIVE_RE : re :=
  seq [Bound; alt (i_lit "project") (map i_lit (List.tl directive_names)); star is_space; lit "="; star is_space;
       at_least 1 (fun c => negb (is_space c))].

(** The groups of a match: the name has neither a blank nor an equals sign. *)
Fixpoint until_eq (s : string) : string * string :=
  match s with
  | EmptyString => ("", "")
  | String c s' => if Ascii.eqb c "=" then ("", s') else let '(a, b) := until_eq s' in (String c a, b)
  end.

Definition directive (m : string) : string * string :=
  let '(name, value) := until_eq m in (lower (strip name), unquote (strip value)).

Definition directives_of (remainder : string) : list (string * string) :=
  fold_left (fun d m => let '(k, v) := directive m in sset k v d) (findall _MESSAGING_DIRECTIVE_RE remainder) [].

Definition action_aliases : list (string * string) :=
  [("remember", "remember"); ("write", "remember"); ("save", "remember"); ("recall", "recall"); ("search", "recall");
   ("find", "recall"); ("status", "status"); ("health", "status"); ("task", "task"); ("tasks", "task"); ("help", "help")].

Section commands.
Variable M : messaging_config.

(** [if prefix not in prefixes: prefixes.append(prefix)] *)
Definition add_prefix (prefixes : list string) (p : string) : list string :=
  if mem_str p prefixes then prefixes else prefixes ++ [p].

Definition handle_prefixes (configured : string) : list string :=
  match configured with
  | EmptyString => []
  | String c rest =>
      if Ascii.eqb c "@" then [configured; rest; "/" +:+ rest]
      else if Ascii.eqb c "/" then [configured; rest; "@" +:+ rest]
      else [configured; "@" +:+ configured; "/" +:+ configured]
  end.

Definition _messaging_command_prefixes : list string :=
  let configured := lower (strip (MESSAGING_COMMAND_HANDLE M)) in
  let prefixes := fold_left add_prefix ["@contextlattice"; "contextlattice"; "/contextlattice"; "/cl"] (handle_prefixes configured) in
  let bot_suffix := lower (strip (TELEGRAM_BOT_USERNAME M)) in
  if truthy bot_suffix then
    fold_left (fun ps prefix => if startswith prefix "/" then add_prefix ps (prefix +:+ "@" +:+ bot_suffix) else ps) prefixes prefixes
  else prefixes.

(** [sorted(prefixes, key=len, reverse=True)] keeps the order of equal lengths. *)
Definition longer_first (a b : string) : bool := (String.length b <=? String.length a)%nat.

Definition _strip_messaging_prefix (text : string) (require_prefix : bool) : option string :=
  let raw := strip text in
  if negb (truthy raw) then None
  else
    match List.find (fun prefix => startswith (lower raw) prefix) (sort_by longer_first _messaging_command_prefixes) with
    | Some prefix => Some (lstrip_by space_lead (drop (String.length prefix) raw))
    | None => if require_prefix then None else Some raw
    end.

Definition _parse_messaging_command (text : string) (require_prefix : bool) : result (option command) :=
  match _strip_messaging_prefix text require_prefix with
  | None => Ok None
  | Some body =>
      if negb (truthy body) then Ok (Some (mkCommand "help" "" [] ""))
      else
        match split1 body with
        | [] => Raise (OtherError "IndexError" "list index out of range")
        | parts =>
            let remainder := rest_words parts in
            let content := strip_by space_lead (sub _MESSAGING_DIRECTIVE_RE "" remainder) in
            match assoc (head_word parts) action_aliases with
            | None => Ok (Some (mkCommand "recall" body [] body))
            | Some action => Ok (Some (mkCommand action content (directives_of remainder) body))
            end
        end
  end.

(** The ellipsis, in UTF-8. *)
Definition ellipsis : string := String "226" (String "128" (String "166" "")).

Definition _truncate_messaging_text (text : string) : string :=
  let limit := MESSAGING_MAX_RESPONSE_CHARS M in
  let rendered := strip text in
  if Z.of_nat (String.length rendered) <=? limit then rendered
  else rstrip_by is_space (take (Z.to_nat (Z.max 1 (limit - 1))) rendered) +:+ ellipsis.

Definition _strict_messaging_channel (channel : string) : result bool :=
  if negb (MESSAGING_OPENCLAW_STRICT_SECURITY M) then Ok false
  else let! normalized := normalize_topic_path channel in Ok (mem_str normalized ["openclaw"; "zeroclaw"; "ironclaw"]).

(** ** Topics and files *)

Definition _messaging_topic_path (default_root source_id : string) (explicit : option string) : result string :=
  let! normalized := normalize_topic_path (opt_str explicit) in
  if truthy normalized then Ok normalized
  else
    let! base := normalize_topic_path default_root in
    let! source := normalize_topic_path source_id in
    if truthy source && negb (source =s MSG_TOPIC_ROOT M) then
      if base =s MSG_TOPIC_ROOT M then Ok source else normalize_topic_path (base +:+ "/" +:+ source)
    else Ok base.

(** [millis]: the time in milliseconds. *)
Definition _messaging_file_name (millis : Z) (topic_path : string) (explicit : option string) : result string :=
  let! normalized := normalize_memory_path (opt_str explicit) in
  if truthy normalized then Ok normalized
  else
    let folder := if topic_path =s MSG_TOPIC_ROOT M then "channels/messaging" else topic_path in
    normalize_memory_path (folder +:+ "/msg_" +:+ str_of_Z millis +:+ ".md").
End commands.

(** ** Answers to a search *)

Definition type_error {A} : result A := Raise (OtherError "TypeError" "").

Definition chars (s : string) : list json := map (fun c => JStr (String c "")) (String.list_ascii_of_string s).

(** A sliced or iterated value: a list, or the characters of a text. *)
Definition items (j : json) : result (list json) :=
  match j with JList l => Ok l | JStr s => Ok (chars s) | _ => type_error end.

(** [" | ".join(str(item) for item in warnings[:2])] *)
Definition warning_text (l : list json) : string := join " | " (map jstr (firstn 2 l)).

(** [sep.join(values)] *)
Fixpoint strings_of (l : list json) : result (list string) :=
  match l with
  | [] => Ok []
  | JStr s :: l' => let! r := strings_of l' in Ok (s :: r)
  | _ => type_error
  end.

Definition or_list (j : json) : json := jor j (JList []).

(** One line of the answer. *)
Definition recall_line (index : Z) (item : json) : result string :=
  match item with
  | JObj d =>
      let summary := replace_char "010" " " (strip (jstr_or_empty (dget d "summary"))) in
      let summary := str_or summary "(no summary)" in
      let summary := if (180 <? String.length summary)%nat then rstrip_by is_space (take 177 summary) +:+ "..." else summary in
      let file_name := jstr (jor (dget d "file") (JStr "-")) in
      let! source := (if jtruthy (dget d "source") then Ok (jstr (dget d "source"))
                      else let! l := items (or_list (dget d "sources")) in
                           let! names := strings_of l in Ok (str_or (join "," names) "memory")) in
      Ok (str_of_Z index +:+ ". [" +:+ source +:+ "] " +:+ file_name +:+ " -> " +:+ summary)
  | _ => Raise (OtherError "AttributeError" "")
  end.

Fixpoint recall_lines (index : Z) (l : list json) : result (list string) :=
  match l with
  | [] => Ok []
  | item :: l' => let! line := recall_line index item in let! rest := recall_lines (index + 1) l' in Ok (line :: rest)
  end.

Definition _format_recall_response (query project topic_path : string) (r : dict) (limit : Z) : result string :=
  let warnings := or_list (dget r "warnings") in
  let missing := "No matching memory found for '" +:+ query +:+ "' in project '" +:+ project +:+ "' topic '" +:+ topic_path +:+ "'." in
  match or_list (dget r "results") with
  | JList ((_ :: _) as results) =>
      let! lines := recall_lines 1 (upto limit results) in
      let header := "Top " +:+ str_of_Z (Z.min (Z.of_nat (length results)) limit) +:+ " memory hits for '" +:+ query +:+ "':" in
      if jtruthy warnings then
        let! w := items warnings in Ok (join nl (header :: lines ++ ["Warnings: " +:+ warning_text w]))
      else Ok (join nl (header :: lines))
  | _ =>
      if jtruthy warnings then let! w := items warnings in Ok (missing +:+ " Warnings: " +:+ warning_text w) else Ok missing
  end.

(** ** Tasks from messages *)

Definition _messaging_directive_int (directives : list (string * string)) (key : string) (default minimum maximum : Z) : Z :=
  match assoc key directives with
  | None => default
  | Some raw => match py_int raw with None => default | Some z => Z.max minimum (Z.min maximum z) end
  end.

Definition raise400 {A} (m : string) : result A := Raise (HTTPException 400 m).

Definition http_methods : list string := ["GET"; "POST"; "PUT"; "PATCH"; "DELETE"].

(** The method and the URL of a callback. *)
Definition callback_target (remainder : string) : string * string :=
  let parts := split1 remainder in
  let first := upper (List.hd "" parts) in
  if mem_str first http_methods then (first, rest_words parts) else ("POST", remainder).

Definition message_payload (text channel source_id project topic_path : string) : dict :=
  [("action", JStr "messaging_command"); ("text", JStr text); ("channel", JStr channel); ("source_id", JStr source_id);
   ("project", JStr project); ("topic_path", JStr topic_path); ("require_prefix", JBool false)].

Definition _build_messaging_task_payload (M : messaging_config) (millis : Z) (create_spec project topic_path channel source_id : string)
    (directives : list (string * string)) : result (string * dict) :=
  let rendered := strip create_spec in
  if negb (truthy rendered) then raise400 "task create requires a payload or subcommand"
  else if startswith rendered "{" then
    match loads rendered with
    | None => raise400 "task create payload JSON is invalid"
    | Some (JObj payload) =>
        let title := strip (jstr (jor (jor (dget payload "title") (dget payload "name")) (JStr "Queued task"))) in
        Ok (str_or title "Queued task", payload)
    | Some _ => raise400 "task create JSON payload must be an object"
    end
  else
    let parts := split1 rendered in
    let sub_action := head_word parts in
    let remainder := rest_words parts in
    if mem_str sub_action ["remember"; "write"; "save"] then
      if negb (truthy remainder) then raise400 "task create remember requires content"
      else
        let! file_name := _messaging_file_name M millis topic_path (assoc "file" directives) in
        Ok ("Remember: " +:+ take 72 remainder,
            [("action", JStr "memory_write"); ("projectName", JStr project); ("fileName", JStr file_name);
             ("content", JStr remainder); ("topic_path", JStr topic_path)])
    else if mem_str sub_action ["recall"; "search"; "find"] then
      if negb (truthy remainder) then raise400 "task create recall requires query"
      else Ok ("Recall: " +:+ take 72 remainder,
            [("action", JStr "memory_search"); ("query", JStr remainder); ("project", JStr project); ("topic_path", JStr topic_path);
             ("limit", JInt (_messaging_directive_int directives "limit" (MESSAGING_SEARCH_LIMIT M) 1 50));
             ("include_preferences", JBool true)])
    else if mem_str sub_action ["message"; "command"; "notify"] then
      if negb (truthy remainder) then raise400 "task create message requires text"
      else Ok ("Message: " +:+ take 72 remainder, message_payload remainder channel source_id project topic_path)
    else if mem_str sub_action ["callback"; "http"] then
      if negb (truthy remainder) then raise400 "task create callback requires URL"
      else
        let '(method, url) := callback_target remainder in
        if negb (truthy url) then raise400 "task create callback requires URL"
        else Ok ("Callback: " +:+ method +:+ " " +:+ take 60 url,
            [("action", JStr "http_callback"); ("url", JStr url); ("method", JStr method);
             ("body", JObj [("source", JStr "messaging_task"); ("channel", JStr channel); ("source_id", JStr source_id)])])
    else if mem_str sub_action ["provider"; "chat"] then
      if negb (truthy remainder) then raise400 "task create provider requires prompt text"
      else Ok ("Provider chat: " +:+ take 60 remainder,
            [("action", JStr "provider_chat"); ("prompt", JStr remainder);
             ("model", str_or_null (str_or (opt_str (assoc "model" directives)) (TASK_PROVIDER_CHAT_MODEL M)))])
    else Ok ("Task: " +:+ take 72 rendered, message_payload rendered channel source_id project topic_path).

(** ** Slack's signatures *)

(** [hmac key text] is the hexadecimal HMAC-SHA256; [now] in seconds. *)
Definition _verify_slack_signature (SLACK_SIGNING_SECRET : string) (hmac : string -> string -> string) (now : Z)
    (raw_body signature timestamp : string) : bool :=
  if negb (truthy SLACK_SIGNING_SECRET) then true
  else
    let provided := strip signature in
    let timestamp := strip timestamp in
    if negb (truthy provided) || negb (truthy timestamp) then false
    else
      match py_int timestamp with
      | None => false
      | Some ts_value =>
          if 300 <? Z.abs (now - ts_value) then false
          else "v0=" +:+ hmac SLACK_SIGNING_SECRET ("v0:" +:+ timestamp +:+ ":" +:+ raw_body) =s provided
      end.

(** ** The operations a command calls *)

Record MemorySearch := mkMemorySearch {
  ms_query : string; ms_limit : Z; ms_project : option string; ms_topic_path : option string; ms_fetch_content : bool;
  ms_retrieval_mode : option string; ms_sources : option (list json); ms_source_weights : option dict;
  ms_rerank_with_learning : bool; ms_include_retrieval_debug : bool; ms_include_grounding : bool;
  ms_user_id : option string; ms_include_preferences : bool; ms_agent_id : option string;
  ms_auto_escalate : option bool; ms_query_expansion : option bool }.

(** What the commands and the task workers call, over a state [S].  Building
    the request models belongs to the call; [post_op] sends a message to a chat
    service. *)
Class CommandServices (S : Type) := {
  now_millis : ST S Z;
  write_op : MemoryWrite -> ST S json;
  search_op : MemorySearch -> ST S dict;
  status_op : ST S dict;
  create_task_op : string -> option string -> option string -> Z -> dict -> option string -> Z -> ST S task;
  get_task_op : string -> ST S (option task);
  get_events_op : string -> ST S (list dict);
  approve_task_op : string -> option string -> option string -> ST S (option task);
  replay_task_op : string -> option string -> option string -> bool -> ST S (option task);
  update_task_op : string -> string -> option string -> option dict -> ST S (option task);
  list_tasks_op : option string -> option string -> option string -> Z -> ST S (list task);
  deadletter_op : option string -> Z -> ST S (list task);
  runtime_op : ST S dict;
  post_op : string -> dict -> ST S unit }.

Definition opt_json (o : option json) : json := match o with Some j => j | None => JNull end.

Definition _task_row_to_dict (t : task) : dict :=
  [("id", JStr (t_id t)); ("title", JStr (t_title t)); ("status", JStr (task_status_str (t_status t)));
   ("project", jopt (t_project t)); ("agent", jopt (t_agent t)); ("priority", JInt (t_priority t));
   ("payload", match t_payload t with Some d => JObj d | None => JNull end);
   ("approval_required", JBool (t_approval_required t)); ("approved", JBool (t_approved t)); ("risk_level", JStr (t_risk_level t));
   ("action_type", jopt (t_action_type t)); ("run_after", jopt (t_run_after t)); ("attempts", JInt (t_attempts t));
   ("max_attempts", JInt (t_max_attempts t)); ("lease_expires_at", jopt (t_lease t)); ("claimed_by", jopt (t_claimed_by t));
   ("last_error", jopt (t_last_error t)); ("result", opt_json (t_result t)); ("completed_at", jopt (t_completed_at t));
   ("created_at", JStr (t_created_at t)); ("updated_at", JStr (t_updated_at t))].

Definition task_result (t : task) : json := JObj [("task", JObj (_task_row_to_dict t))].

(** [a or b] on values that may be absent; [str(a or "").strip() or None] *)
Definition or_opt (a b : option string) : option string := if truthy (opt_str a) then a else b.
Definition text_or_none (a : option string) : option string :=
  let t := strip (opt_str a) in if truthy t then Some t else None.

(** [if k in secured: secured[k] = f(secured[k])] *)
Definition dmap (k : string) (f : json -> json) (d : dict) : dict :=
  match dlookup k d with Some v => dset k (f v) d | None => d end.

Definition _secure_surface_response (strict_surface : bool) (payload : dict) : dict :=
  if negb strict_surface then payload
  else
    let redact v := JStr (_redact_sensitive_values (jstr_or_empty v)) in
    dmap "result" _scrub_sensitive_payload (dmap "file" redact (dmap "response_text" redact payload)).

Definition http_error {S A} (code : Z) (m : string) : ST S A := st_raise (HTTPException code m).

(** [raise] when the condition holds. *)
Definition guard {S} (b : bool) (code : Z) (m : string) : ST S unit := if b then http_error code m else st_ret tt.

Section execute.
Context {S : Type} `{CommandServices S}.
Variable M : messaging_config.

(** Who asks, and where. *)
Record request_context := mkContext {
  x_channel : string; x_source_id : string; x_strict : bool; x_project : string; x_topic_path : string; x_user_id : option string }.

Definition truncate_text : string -> string := _truncate_messaging_text M.

(** The answer to a command. *)
Definition respond (x : request_context) (action : string) (extra : dict) (text : string) (res : json) : dict :=
  _secure_surface_response (x_strict x)
    ([("ok", JBool true); ("action", JStr action)] ++ extra
     ++ [("project", JStr (x_project x)); ("topic_path", JStr (x_topic_path x)); ("response_text", JStr text); ("result", res)]).

Definition respond_task (x : request_context) (subcommand text : string) (res : json) : dict :=
  respond x "task" [("subcommand", JStr subcommand)] (truncate_text text) res.

Definition remember (x : request_context) (content : string) (file : option string) : ST S dict :=
  guard (negb (truthy content)) 400 "remember command requires content" ;;;
  guard (x_strict x && _contains_sensitive_value content) 422
    "potential secret detected; remember command blocked on secure messaging surface" ;;;
  millis <- now_millis ;;
  file_name <- st_lift (_messaging_file_name M millis (x_topic_path x) file) ;;
  write_result <- write_op (mkMemoryWrite (x_project x) file_name content (Some (x_topic_path x))) ;;
  let warnings := match write_result with JObj d => dget d "warnings" | _ => JList [] end in
  suffix <- (if jtruthy warnings then w <- st_lift (items warnings) ;; st_ret (" Warnings: " +:+ warning_text w) else st_ret "") ;;
  let text := "Stored memory in project '" +:+ x_project x +:+ "' at '" +:+ file_name +:+ "'." +:+ suffix in
  st_ret (_secure_surface_response (x_strict x)
    [("ok", JBool true); ("action", JStr "remember"); ("project", JStr (x_project x)); ("topic_path", JStr (x_topic_path x));
     ("file", JStr file_name); ("response_text", JStr (truncate_text text)); ("result", write_result)]).

(** [limit] of a recall *)
Definition recall_limit (directives : list (string * string)) : Z :=
  match assoc "limit" directives with
  | None => MESSAGING_SEARCH_LIMIT M
  | Some raw => match py_int raw with Some z => Z.max 1 (Z.min 10 z) | None => MESSAGING_SEARCH_LIMIT M end
  end.

Definition recall (x : request_context) (c : command) (content : string) : ST S dict :=
  let query := str_or content (strip (c_raw c)) in
  guard (negb (truthy query)) 400 "recall command requires query text" ;;;
  guard (x_strict x && _contains_sensitive_value query) 422
    "potential secret detected; recall command blocked on secure messaging surface" ;;;
  let limit := recall_limit (c_directives c) in
  found <- search_op (mkMemorySearch query limit (Some (x_project x)) (Some (x_topic_path x)) false
    (text_or_none (assoc "mode" (c_directives c))) None None true false true (x_user_id x) true
    (text_or_none (assoc "agent" (c_directives c))) None None) ;;
  text <- st_lift (_format_recall_response query (x_project x) (x_topic_path x) found limit) ;;
  st_ret (respond x "recall" [] (truncate_text text) (JObj found)).

Definition task_create (x : request_context) (directives : list (string * string)) (remainder : string) : ST S dict :=
  guard (x_strict x && _contains_sensitive_value remainder) 422
    "potential secret detected; task create blocked on secure messaging surface" ;;;
  millis <- now_millis ;;
  tp <- st_lift (_build_messaging_task_payload M millis remainder (x_project x) (x_topic_path x) (x_channel x) (x_source_id x) directives) ;;
  t <- create_task_op (fst tp) (Some (x_project x)) (text_or_none (assoc "agent" directives))
         (_messaging_directive_int directives "priority" 0 (-20) 20) (snd tp) (text_or_none (assoc "run_after" directives))
         (_messaging_directive_int directives "max_attempts" (MSG_MAX_ATTEMPTS M) 1 50) ;;
  st_ret (respond_task x "create"
    ("Queued task " +:+ t_id t +:+ " (" +:+ str_or (opt_str (t_action_type t)) "custom" +:+ ") status="
     +:+ task_status_str (t_status t) +:+ " max_attempts=" +:+ str_of_Z (t_max_attempts t) +:+ ".") (task_result t)).

(** [task = await op; if not task: raise HTTPException(404, "task not found")] *)
Definition found_task (op : ST S (option task)) : ST S task :=
  t <- op ;; match t with Some t => st_ret t | None => http_error 404 "task not found" end.

Definition need_id (task_id what : string) : ST S unit :=
  guard (negb (truthy task_id)) 400 ("task " +:+ what +:+ " requires task id").

Definition task_status_cmd (x : request_context) (task_id : string) : ST S dict :=
  need_id task_id "status" ;;;
  t <- found_task (get_task_op task_id) ;;
  events <- get_events_op task_id ;;
  st_ret (respond_task x "status"
    ("Task " +:+ task_id +:+ ": status=" +:+ task_status_str (t_status t) +:+ " attempts=" +:+ str_of_Z (t_attempts t) +:+ "/"
     +:+ str_of_Z (t_max_attempts t) +:+ " project=" +:+ str_or (opt_str (t_project t)) "-" +:+ " action="
     +:+ str_or (opt_str (t_action_type t)) "-" +:+ ".")
    (JObj [("task", JObj (_task_row_to_dict t)); ("events", JList (map JObj (firstn 20 events)))])).

Definition task_approve (x : request_context) (task_id : string) : ST S dict :=
  need_id task_id "approve" ;;;
  t <- found_task (approve_task_op task_id (Some (x_source_id x)) (Some "approved via messaging")) ;;
  st_ret (respond_task x "approve" ("Approved task " +:+ task_id +:+ "; status=" +:+ task_status_str (t_status t) +:+ ".") (task_result t)).

Definition task_replay (x : request_context) (task_id : string) : ST S dict :=
  need_id task_id "replay" ;;;
  t <- found_task (replay_task_op task_id (Some (x_source_id x)) (Some "replayed via messaging") true) ;;
  st_ret (respond_task x "replay"
    ("Replayed task " +:+ task_id +:+ "; status=" +:+ task_status_str (t_status t) +:+ " attempts reset.") (task_result t)).

Definition task_cancel (x : request_context) (task_id : string) : ST S dict :=
  need_id task_id "cancel" ;;;
  t <- found_task (update_task_op task_id "canceled" (Some "Task canceled via messaging command")
         (Some [("actor", JStr (x_source_id x)); ("channel", JStr (x_channel x))])) ;;
  st_ret (respond_task x "cancel" ("Canceled task " +:+ task_id +:+ ".") (task_result t)).

Definition task_line (t : task) : string :=
  "- " +:+ t_id t +:+ " | " +:+ task_status_str (t_status t) +:+ " | p=" +:+ str_of_Z (t_priority t) +:+ " | "
  +:+ str_or (opt_str (t_action_type t)) "-" +:+ " | " +:+ str_or (t_title t) "-".

Definition tasks_result (l : list task) : json := JObj [("tasks", JList (map (fun t => JObj (_task_row_to_dict t)) l))].

Definition task_list (x : request_context) (directives : list (string * string)) : ST S dict :=
  let limit := _messaging_directive_int directives "limit" 8 1 25 in
  l <- list_tasks_op (option_map lower (text_or_none (assoc "status" directives))) (Some (x_project x))
         (text_or_none (assoc "agent" directives)) limit ;;
  let text := match l with
              | [] => "No tasks found."
              | _ => join nl (("Tasks (" +:+ str_of_Z (Z.of_nat (length l)) +:+ "):") :: map task_line (upto limit l))
              end in
  st_ret (respond_task x "list" text (tasks_result l)).

Definition deadletter_line (t : task) : string :=
  "- " +:+ t_id t +:+ " | " +:+ task_status_str (t_status t) +:+ " | attempts=" +:+ str_of_Z (t_attempts t) +:+ "/"
  +:+ str_of_Z (t_max_attempts t) +:+ " | error=" +:+ take 70 (str_or (opt_str (t_last_error t)) "-").

Definition task_deadletter (x : request_context) (directives : list (string * string)) : ST S dict :=
  let limit := _messaging_directive_int directives "limit" 8 1 25 in
  l <- deadletter_op (Some (x_project x)) limit ;;
  let text := match l with
              | [] => "No deadletter tasks."
              | _ => join nl (("Deadletter (" +:+ str_of_Z (Z.of_nat (length l)) +:+ "):") :: map deadletter_line (upto limit l))
              end in
  st_ret (respond_task x "deadletter" text (tasks_result l)).

Definition task_runtime (x : request_context) : ST S dict :=
  runtime <- runtime_op ;;
  let field k := jstr (dget runtime k) in
  st_ret (respond_task x "runtime"
    ("Task runtime: ready=" +:+ field "queueReady" +:+ " running=" +:+ field "running" +:+ " deadletter=" +:+ field "deadletter"
     +:+ " workers=" +:+ field "workersRunning" +:+ "/" +:+ field "workersConfigured" +:+ ".") (JObj [("runtime", JObj runtime)])).

Definition task_help : string :=
  "Task commands: task create <remember|recall|message|callback|provider ...>; "
  +:+ "task status <id>; task list [status=queued limit=8]; task approve <id>; "
  +:+ "task replay <id>; task deadletter; task runtime.".

Definition help_result : json := JObj [("help", JBool true)].

Definition task_command (x : request_context) (c : command) (content : string) : ST S dict :=
  let raw := str_or content (strip (c_raw c)) in
  let parts := split1 raw in
  let subcommand := if truthy raw then head_word parts else "help" in
  let remainder := rest_words parts in
  let directives := c_directives c in
  let task_id := strip (opt_str (or_opt (or_opt (assoc "task_id" directives) (assoc "task" directives)) (Some remainder))) in
  if mem_str subcommand ["create"; "enqueue"; "new"] then task_create x directives remainder
  else if mem_str subcommand ["status"; "get"] then task_status_cmd x task_id
  else if subcommand =s "approve" then task_approve x task_id
  else if mem_str subcommand ["replay"; "retry"; "requeue"] then task_replay x task_id
  else if subcommand =s "cancel" then task_cancel x task_id
  else if mem_str subcommand ["list"; "ls"] then task_list x directives
  else if mem_str subcommand ["deadletter"; "dlq"; "failed"] then task_deadletter x directives
  else if mem_str subcommand ["runtime"; "health"] then task_runtime x
  else st_ret (respond x "task" [("subcommand", JStr "help")] task_help help_result).

Definition healthy_service (j : json) : bool := match j with JObj d => jtruthy (dget d "healthy") | _ => false end.

Definition status_command (x : request_context) : ST S dict :=
  st <- status_op ;;
  services <- st_lift (match dget st "services" with
                       | JObj d => Ok (map (fun kv => JStr (fst kv)) d) (* iterating over a dict gives its keys *)
                       | j => items j
                       end) ;;
  let total := match dget st "services" with JList l => Z.of_nat (length l) | _ => 0 end in
  let healthy := Z.of_nat (length (List.filter healthy_service services)) in
  st_ret (respond x "status" [] ("Context Lattice status: " +:+ str_of_Z healthy +:+ "/" +:+ str_of_Z total +:+ " services healthy.") (JObj st)).

Definition help_command (x : request_context) : dict :=
  let h := str_or (MESSAGING_COMMAND_HANDLE M) "@ContextLattice" in
  respond x "help" []
    ("Commands: " +:+ h +:+ " remember <text>; " +:+ h +:+ " recall <query>; " +:+ h +:+ " status; " +:+ h
     +:+ " task <subcommand>. Optional directives: project=<name> topic=<path> limit=<n>.") help_result.

(** Project and topic of a command. *)
Definition command_context (c : command) (channel source_id default_project topic_root : string)
    (project_override topic_override user_id : option string) : result request_context :=
  let! strict_surface := _strict_messaging_channel M channel in
  let dir k := assoc k (c_directives c) in
  let project := strip (opt_str (or_opt (or_opt (or_opt project_override (dir "project")) (Some default_project))
                                        (Some (MESSAGING_DEFAULT_PROJECT M)))) in
  let! source := normalize_topic_path source_id in
  let! topic_path := _messaging_topic_path M topic_root (str_or source "default") (or_opt topic_override (dir "topic")) in
  Ok (mkContext channel source_id strict_surface (str_or project (MESSAGING_DEFAULT_PROJECT M)) topic_path user_id).

Definition _execute_messaging_command (c : command) (channel source_id default_project topic_root : string)
    (project_override topic_override user_id : option string) : ST S dict :=
  let action := lower (strip (str_or (c_action c) "help")) in
  let content := strip (c_content c) in
  x <- st_lift (command_context c channel source_id default_project topic_root project_override topic_override user_id) ;;
  if action =s "remember" then remember x content (assoc "file" (c_directives c))
  else if action =s "recall" then recall x c content
  else if action =s "task" then task_command x c content
  else if action =s "status" then status_command x
  else st_ret (help_command x).
End execute.

(** ** Endpoints *)

Section endpoints.
Context {S : Type} `{CommandServices S}.
Variable M : messaging_config.

Record MessagingCommandIn := mkMessage {
  in_channel : string; in_source_id : string; in_text : string; in_project : option string; in_topic_path : option string;
  in_user_id : option string; in_require_prefix : bool }.

Definition ignored (ok : bool) (reason : string) : dict := [("ok", JBool ok); ("ignored", JBool true); ("reason", JStr reason)].

Definition channel_default_project (channel : string) : string :=
  let default := MESSAGING_DEFAULT_PROJECT M in
  if channel =s "telegram" then str_or (TELEGRAM_DEFAULT_PROJECT M) default
  else if channel =s "slack" then str_or (SLACK_DEFAULT_PROJECT M) default
  else if channel =s "openclaw" then str_or (OPENCLAW_DEFAULT_PROJECT M) default
  else if channel =s "zeroclaw" then str_or (OPENCLAW_DEFAULT_PROJECT M) default
  else if channel =s "ironclaw" then str_or (IRONCLAW_DEFAULT_PROJECT M) (str_or (OPENCLAW_DEFAULT_PROJECT M) default)
  else default.

Definition messaging_command (payload : MessagingCommandIn) : ST S dict :=
  guard (negb (MESSAGING_INTEGRATIONS_ENABLED M)) 503 "messaging integrations disabled" ;;;
  parsed <- st_lift (_parse_messaging_command M (in_text payload) (in_require_prefix payload)) ;;
  match parsed with
  | None => st_ret (ignored false "no_command_prefix")
  | Some c =>
      channel <- st_lift (normalize_topic_path (str_or (in_channel payload) "custom")) ;;
      source_id <- st_lift (normalize_topic_path (in_source_id payload)) ;;
      topic_root <- st_lift (normalize_topic_path (str_or (opt_str (in_topic_path payload)) ("channels/" +:+ channel))) ;;
      let default_project := opt_str (or_opt (in_project payload) (Some (channel_default_project channel))) in
      _execute_messaging_command M c channel (str_or source_id "source") default_project topic_root (in_project payload)
        (in_topic_path payload) (in_user_id payload)
  end.

(** [MessagingCommandIn(channel=payload.channel or ..., project=payload.project or ...)] *)
Definition bridged (channel project : string) (p : MessagingCommandIn) : MessagingCommandIn :=
  mkMessage (str_or (in_channel p) channel) (in_source_id p) (in_text p) (or_opt (in_project p) (Some project)) (in_topic_path p)
    (in_user_id p) (in_require_prefix p).

Definition messaging_openclaw (p : MessagingCommandIn) : ST S dict :=
  messaging_command (bridged "openclaw" (OPENCLAW_DEFAULT_PROJECT M) p).

Definition messaging_ironclaw (p : MessagingCommandIn) : ST S dict :=
  guard (negb (IRONCLAW_INTEGRATION_ENABLED M)) 503 "ironclaw integration disabled" ;;;
  messaging_command (bridged "ironclaw" (str_or (IRONCLAW_DEFAULT_PROJECT M) (OPENCLAW_DEFAULT_PROJECT M)) p).

Definition _telegram_send_message (chat_id text : string) (reply_to : json) : ST S unit :=
  if negb (truthy (TELEGRAM_BOT_TOKEN M)) || negb (truthy chat_id) then st_ret tt
  else post_op "telegram"
    ([("chat_id", JStr chat_id); ("text", JStr (_truncate_messaging_text M text)); ("disable_web_page_preview", JBool true)]
     ++ match reply_to with JNull => [] | j => [("reply_to_message_id", j)] end).

Definition _slack_send_message (channel_id text : string) (thread_ts : json) : ST S unit :=
  if negb (truthy (SLACK_BOT_TOKEN M)) || negb (truthy channel_id) then st_ret tt
  else post_op "slack"
    ([("channel", JStr channel_id); ("text", JStr (_truncate_messaging_text M text)); ("mrkdwn", JBool false)]
     ++ (if jtruthy thread_ts then [("thread_ts", thread_ts)] else [])).

Definition attribute_error {A} : result A := Raise (OtherError "AttributeError" "").

(** [message.get("from", {}).get("id")] *)
Definition sender_id (message : dict) : result json :=
  match dlookup "from" message with
  | None => Ok JNull
  | Some (JObj d) => Ok (dget d "id")
  | Some _ => attribute_error
  end.

(** [secret]: the header of the request. *)
Definition telegram_webhook (update : dict) (secret : string) : ST S dict :=
  if negb (MESSAGING_INTEGRATIONS_ENABLED M) then st_ret (ignored false "messaging_disabled")
  else
    guard (truthy (TELEGRAM_WEBHOOK_SECRET M) && negb (strip secret =s TELEGRAM_WEBHOOK_SECRET M)) 401
      "invalid telegram webhook secret" ;;;
    match jor (jor (dget update "message") (dget update "edited_message")) (JObj []) with
    | JObj message =>
        let text := strip (jstr_or_empty (dget message "text")) in
        if negb (truthy text) then st_ret (ignored true "non_text")
        else
          let chat_id := strip (jstr_or_empty (dget (as_dict (dget message "chat")) "id")) in
          if negb (truthy chat_id) then st_ret (ignored true "missing_chat_id")
          else
            parsed <- st_lift (_parse_messaging_command M text true) ;;
            match parsed with
            | None => st_ret (ignored true "no_command_prefix")
            | Some c =>
                source_id <- st_lift (normalize_topic_path ("chat-" +:+ chat_id)) ;;
                topic_root <- st_lift (normalize_topic_path (TELEGRAM_TOPIC_ROOT M)) ;;
                user <- st_lift (sender_id message) ;;
                r <- _execute_messaging_command M c "telegram" (str_or source_id "chat")
                       (str_or (TELEGRAM_DEFAULT_PROJECT M) (MESSAGING_DEFAULT_PROJECT M)) topic_root None None
                       (Some (jstr_or_empty user)) ;;
                _telegram_send_message chat_id (jstr_or_empty (dget r "response_text")) (dget message "message_id") ;;;
                st_ret [("ok", JBool true); ("action", dget r "action"); ("project", dget r "project"); ("topic_path", dget r "topic_path")]
            end
    | _ => st_ret (ignored true "no_message")
    end.

Definition mention : re := seq [lit "<@"; at_least 1 (fun c => negb (Ascii.eqb c ">")); lit ">"].

Definition _process_slack_event (event : dict) : ST S unit :=
  let text := strip (jstr_or_empty (dget event "text")) in
  if negb (truthy text) then st_ret tt
  else
    let mention_present := Regex.search mention text in
    let normalized_text := strip (sub mention "" text) in
    parsed <- st_lift (_parse_messaging_command M normalized_text (negb mention_present)) ;;
    match parsed with
    | None => st_ret tt
    | Some c =>
        let channel_id := strip (jstr_or_empty (dget event "channel")) in
        if negb (truthy channel_id) then st_ret tt
        else
          source_id <- st_lift (normalize_topic_path ("channel-" +:+ channel_id)) ;;
          topic_root <- st_lift (normalize_topic_path (SLACK_TOPIC_ROOT M)) ;;
          r <- _execute_messaging_command M c "slack" (str_or source_id "channel")
                 (str_or (SLACK_DEFAULT_PROJECT M) (MESSAGING_DEFAULT_PROJECT M)) topic_root None None
                 (Some (strip (jstr_or_empty (dget event "user")))) ;;
          _slack_send_message channel_id (jstr_or_empty (dget r "response_text")) (jor (dget event "thread_ts") (dget event "ts"))
    end.

(** The answer and the event that is handed to a background task. *)
Definition slack_events (hmac : string -> string -> string) (now : Z) (raw_body signature timestamp : string)
  : result (dict * option dict) :=
  if negb (MESSAGING_INTEGRATIONS_ENABLED M) then Ok (ignored false "messaging_disabled", None)
  else if negb (_verify_slack_signature (SLACK_SIGNING_SECRET M) hmac now raw_body signature timestamp)
  then Raise (HTTPException 401 "invalid slack signature")
  else
    match loads raw_body with
    | None => Raise (HTTPException 400 "invalid slack payload")
    | Some (JObj payload) =>
        if json_eqb (dget payload "type") (JStr "url_verification") then Ok ([("challenge", dget payload "challenge")], None)
        else if negb (json_eqb (dget payload "type") (JStr "event_callback")) then Ok (ignored true "unsupported_event_type", None)
        else
          let event := as_dict (dget payload "event") in
          if jtruthy (dget event "bot_id") then Ok (ignored true "bot_message", None)
          else Ok ([("ok", JBool true)], Some event)
    | Some _ => attribute_error
    end.
End endpoints.
