(* ===== verification/MessagingFacts.v ===== *)
(** * Messaging commands: theorems

    The parser never fails and inverts the rendering of a command, secure
    surfaces refuse and redact secrets, events of Slack are accepted only with
    a fresh signature, and tasks built from messages satisfy the payload
    contract. *)

From S2P Require Import Prelude PyStr PyTime Json JsonText IsoParse Paths Policy Regex Secrets Ranking SourcePolicy Tasks TaskFacts WriteMemory Sources Messaging.
From Stdlib Require Import Ascii.
Open Scope Z_scope.

(** ** Words *)

Lemma lstrip_head p s : match lstrip_by p s with String c _ => p c = false | EmptyString => True end.
Proof. induction s as [|c s IH]; cbn; [done|]. destruct (p c) eqn:E; [done|]. by rewrite E. Qed.

Lemma rstrip_nonspace_head p c s : p c = false -> rstrip_by p (String c s) = String c (rstrip_by p s).
Proof. intros Hc. cbn. rewrite Hc. by destruct (rstrip_by p s). Qed.

Lemma rstrip_suffix_free p a b : rstrip_by p b = b -> b <> "" -> rstrip_by p (a +:+ b) = a +:+ b.
Proof.
  intros Hb Hn. induction a as [|c a IH]; [done|]. rewrite append_cons. cbn [rstrip_by]. rewrite IH.
  destruct (a +:+ b) eqn:E; [|done]. destruct a as [|d a]; [by change ("" +:+ b) with b in E|by rewrite append_cons in E].
Qed.

(** The end of a stripped text is no blank. *)
Lemma rstrip_drop p s : forall n, rstrip_by p s = s -> rstrip_by p (drop n s) = drop n s.
Proof.
  induction s as [|c s IH]; intros [|n] H; cbn [drop]; try done. apply IH. cbn [rstrip_by] in H.
  destruct (rstrip_by p s) as [|d t]; [destruct (p c); [done|]; injection H as <-; done|]. by injection H as ->.
Qed.

Lemma rstrip_lstrip p q s : rstrip_by p s = s -> rstrip_by p (lstrip_by q s) = lstrip_by q s.
Proof.
  induction s as [|c s IH]; [done|]. intros H. cbn [lstrip_by]. destruct (q c); [|done]. apply IH.
  cbn [rstrip_by] in H. destruct (rstrip_by p s) as [|d t]; [destruct (p c); [done|]; by injection H as <-|]. by injection H as ->.
Qed.

Lemma strip_rstripped s : rstrip_by is_space (strip s) = strip s.
Proof. apply rstrip_idem. Qed.

(** A text that does not end in a blank and is not empty has a word. *)
Lemma split1_nonempty s : rstrip_by is_space s = s -> truthy s = true -> split1 s <> [].
Proof.
  intros Hr Ht. unfold split1. assert (truthy (lstrip_by is_space s) = true) as ->.
  { revert Hr Ht. induction s as [|c s IH]; [done|]. intros Hr Ht. cbn [lstrip_by]. destruct (is_space c) eqn:E; [|done].
    cbn [rstrip_by] in Hr. destruct (rstrip_by is_space s) as [|d t] eqn:Es; [by rewrite E in Hr|].
    injection Hr as Hr. subst s. by apply IH. }
  destruct (first_word _) as [w r]. by destruct (truthy (lstrip_by is_space r)).
Qed.

Section parser.
Variable M : messaging_config.

(** What remains after the prefix ends in no blank. *)
Lemma strip_prefix_rstripped text b body : _strip_messaging_prefix M text b = Some body -> rstrip_by is_space body = body.
Proof.
  unfold _strip_messaging_prefix. destruct (negb (truthy (strip text))); [done|].
  destruct (List.find _ _) as [p|].
  - intros [= <-]. apply rstrip_lstrip, rstrip_drop, strip_rstripped.
  - destruct b; [done|]. intros [= <-]. apply strip_rstripped.
Qed.

Lemma parse_ok text b : exists r, _parse_messaging_command M text b = Ok r /\ (r = None <-> _strip_messaging_prefix M text b = None).
Proof.
  unfold _parse_messaging_command. destruct (_strip_messaging_prefix M text b) as [body|] eqn:E; [|by exists None].
  destruct (negb (truthy body)) eqn:Et; [by eexists|]. apply negb_false_iff in Et.
  pose proof (split1_nonempty body (strip_prefix_rstripped _ _ _ E) Et) as Hs.
  destruct (split1 body) as [|w ws]; [done|]. cbv zeta. destruct (assoc _ _); by eexists.
Qed.

(** ** Prefixes *)

Lemma prefix_same_length a b s : startswith s a = true -> startswith s b = true -> String.length a = String.length b -> a = b.
Proof.
  revert b s. induction a as [|c a IH]; intros [|d b] [|e s]; cbn; try done; try lia.
  rewrite !andb_true_iff, !Ascii.eqb_eq. intros [-> Ha] [-> Hb] Hl. f_equal. by apply (IH b s); [..|lia].
Qed.

(** A prefix without a blank of [P +:+ " " +:+ s] is no longer than [P]. *)
Lemma prefix_before_blank P s q : startswith (P +:+ String " " s) q = true -> has_char " " q = false -> (String.length q <= String.length P)%nat.
Proof.
  revert q. induction P as [|c P IH]; intros [|d q]; cbn [String.length]; try lia.
  - change ("" +:+ String " " s) with (String " " s). cbn [startswith has_char].
    rewrite andb_true_iff, Ascii.eqb_eq. intros [-> _]. done.
  - rewrite append_cons. cbn [startswith has_char]. rewrite andb_true_iff, Ascii.eqb_eq. intros [-> Hs] Hb.
    apply orb_false_iff in Hb as [_ Hb]. specialize (IH q Hs Hb). lia.
Qed.

Lemma longer_total a b : longer_first a b = true \/ longer_first b a = true.
Proof. unfold longer_first. rewrite !Nat.leb_le. lia. Qed.

Lemma longer_trans a b c : longer_first a b = true -> longer_first b c = true -> longer_first a c = true.
Proof. unfold longer_first. rewrite !Nat.leb_le. lia. Qed.

(** The first match in the sorted list is at least as long as any other. *)
Lemma find_longest s l p : In p l -> startswith s p = true ->
  exists q, List.find (fun x => startswith s x) (sort_by longer_first l) = Some q /\ In q l /\ startswith s q = true /\
    (String.length p <= String.length q)%nat.
Proof.
  intros Hp Hs. pose proof (sort_by_sorted longer_first longer_total longer_trans l) as Hsort.
  assert (In p (sort_by longer_first l)) as Hin by (by apply sort_by_In).
  assert (forall x, In x (sort_by longer_first l) -> In x l) as Hsub by (intros x; apply sort_by_In).
  induction Hsort as [|x l' Hl IH Hx]; [done|]. cbn [List.find]. destruct (startswith s x) eqn:Ex.
  - exists x. repeat split; [by apply Hsub; left|done|]. destruct Hin as [->|Hin]; [lia|].
    rewrite List.Forall_forall in Hx. specialize (Hx _ Hin). apply Nat.leb_le in Hx. done.
  - destruct Hin as [->|Hin]; [congruence|]. apply IH; [done|]. intros y Hy. apply Hsub. by right.
Qed.
End parser.

(** ** Directives *)

Lemma findall_no_match r fuel : forall prev s, search_from r prev s = false -> findall_from fuel r prev s = [].
Proof.
  induction fuel as [|fuel IH]; intros prev s Hs; [done|]. destruct s as [|c s]; [done|].
  cbn [search_from findall_from] in *. destruct (match_at r (prev, String c s)); [done|]. by apply IH.
Qed.

Lemma reaches_has_char q q' c : reaches q q' -> has_char c (snd q') = true -> has_char c (snd q) = true.
Proof. induction 1 as [|prev d s q _ IH]; [done|]. intros Hc. specialize (IH Hc). cbn in *. rewrite IH. apply orb_true_r. Qed.

Lemma seq_split a b q q' : matches (Seq a b) q q' -> exists q1, matches a q q1 /\ matches b q1 q'.
Proof. intros Hm. inversion Hm; eauto. Qed.

Lemma lit_has_char c q q' : matches (lit (String c "")) q q' -> has_char c (snd q) = true.
Proof.
  intros (q1 & H1 & _)%seq_split. inversion H1 as [|? ? d ? Hd| | | | | | |]; subst. apply Ascii.eqb_eq in Hd as ->. cbn.
  by rewrite Ascii.eqb_refl.
Qed.

(** A directive has an equals sign. *)
Lemma directive_needs_eq text : has_char "=" text = false -> search _MESSAGING_DIRECTIVE_RE text = false.
Proof.
  intros He. apply not_true_iff_false. intros (q & q' & Hr & Hm)%search_iff.
  enough (has_char "=" (snd q) = true) as H by (apply (reaches_has_char _ _ _ Hr) in H; cbn in H; congruence).
  apply seq_split in Hm as (q1 & H1 & Hm). apply seq_split in Hm as (q2 & H2 & Hm). apply seq_split in Hm as (q3 & H3 & Hm).
  apply seq_split in Hm as (q4 & H4 & _). apply (reaches_has_char _ q3); [|exact (lit_has_char _ _ _ H4)].
  apply matches_reaches in H1, H2, H3. exact (reaches_trans _ _ _ (reaches_trans _ _ _ H1 H2) H3).
Qed.

(** ** Rendered commands *)

Lemma lower_length s : String.length (lower s) = String.length s.
Proof. induction s; cbn; congruence. Qed.

Lemma strip_fixed s : lstrip_by is_space s = s -> rstrip_by is_space s = s -> strip s = s.
Proof. unfold strip, strip_by. intros -> H. exact H. Qed.

Definition blank_free (s : string) : bool := all_chars (fun c => negb (is_space c)) s.

Lemma blank_free_head c s : blank_free (String c s) = true -> is_space c = false /\ blank_free s = true.
Proof. unfold blank_free. cbn. rewrite andb_true_iff, negb_true_iff. done. Qed.

Lemma blank_free_has_char s : blank_free s = true -> has_char " " s = false.
Proof.
  induction s as [|c s IH]; [done|]. intros [Hc Hs]%blank_free_head. cbn. rewrite IH by done. rewrite orb_false_r.
  apply Ascii.eqb_neq. by intros ->.
Qed.

Lemma blank_free_lower s : blank_free (lower s) = blank_free s.
Proof. unfold blank_free. induction s as [|c s IH]; [done|]. cbn in *. by rewrite is_space_lower, IH. Qed.

Lemma first_word_blank w s : blank_free w = true -> first_word (w +:+ String " " s) = (w, String " " s).
Proof.
  induction w as [|c w IH]; [done|]. intros [Hc Hw]%blank_free_head. rewrite append_cons. cbn. by rewrite Hc, (IH Hw).
Qed.

Lemma alias_word name action : assoc name action_aliases = Some action ->
  blank_free name = true /\ lower (strip name) = name /\ exists c s, name = String c s /\ space_lead c = false.
Proof.
  intros H%assoc_In. cbn in H.
  destruct H as [[= <- <-]|[[= <- <-]|[[= <- <-]|[[= <- <-]|[[= <- <-]|[[= <- <-]|[[= <- <-]|[[= <- <-]|[[= <- <-]|[[= <- <-]|[[= <- <-]|[]]]]]]]]]]]];
    (split; [done|split; [done|do 2 eexists; split; done]]).
Qed.

Section rendered.
Variable M : messaging_config.
Variables P name text action : string.
Hypothesis prefixes_blank_free : List.forallb blank_free (_messaging_command_prefixes M) = true.
Hypothesis P_prefix : mem_str (lower P) (_messaging_command_prefixes M) = true.
Hypothesis P_nonempty : truthy P = true.
Hypothesis name_alias : assoc name action_aliases = Some action.
Hypothesis text_nonempty : truthy text = true.
Hypothesis text_stripped : strip text = text.

Let message : string := P +:+ String " " (name +:+ String " " text).

Lemma text_ends : rstrip_by is_space text = text /\ lstrip_by is_space text = text.
Proof.
  split; [rewrite <- text_stripped at 1; rewrite strip_rstripped; done|].
  pose proof text_stripped as H. unfold strip, strip_by in H. pose proof (lstrip_head is_space text) as Hh.
  destruct text as [|c t]; [done|]. cbn [lstrip_by] in *. destruct (is_space c) eqn:E; [|done].
  destruct (lstrip_by is_space t) as [|d u] eqn:El; [done|].
  destruct (rstrip_head is_space d u Hh) as (v & Hv). rewrite Hv in H. injection H as -> _. congruence.
Qed.

Lemma P_blank_free : blank_free P = true.
Proof. rewrite <- blank_free_lower. rewrite List.forallb_forall in prefixes_blank_free. by apply prefixes_blank_free, mem_str_In. Qed.

Lemma message_stripped : strip message = message.
Proof.
  apply strip_fixed; unfold message.
  - pose proof P_blank_free as H. destruct P as [|c p]; [done|]. apply blank_free_head in H as [Hc _].
    rewrite append_cons. cbn [lstrip_by]. by rewrite Hc.
  - destruct text_ends as [H _]. assert (text <> "") as Hn by (by intros E; rewrite E in text_nonempty).
    assert (forall c s, rstrip_by is_space s = s -> s <> "" -> rstrip_by is_space (String c s) = String c s) as Hc.
    { intros c s E En. cbn. rewrite E. by destruct s. }
    apply rstrip_suffix_free; [|done]. apply Hc; [|by destruct name].
    apply rstrip_suffix_free; [|done]. by apply Hc.
Qed.

Lemma message_body b : _strip_messaging_prefix M message b = Some (name +:+ String " " text).
Proof.
  unfold _strip_messaging_prefix. rewrite message_stripped. assert (truthy message = true) as ->.
  { unfold message. by destruct P. }
  cbn [negb]. set (l := _messaging_command_prefixes M) in *.
  assert (lower message = lower P +:+ String " " (lower (name +:+ String " " text))) as Hl by (unfold message; by rewrite lower_app).
  destruct (find_longest (lower message) l (lower P)) as (q & Eq & Hq & Hs & Hlen).
  { by apply mem_str_In. }
  { rewrite Hl. apply startswith_app. }
  rewrite Eq. assert (q = lower P) as ->.
  { apply (prefix_same_length q (lower P) (lower message)); [done|rewrite Hl; apply startswith_app|].
    apply Nat.le_antisymm; [|done]. rewrite Hl in Hs. apply (prefix_before_blank _ _ _ Hs).
    apply blank_free_has_char. rewrite List.forallb_forall in prefixes_blank_free. by apply prefixes_blank_free. }
  rewrite lower_length. unfold message. rewrite IsoParse.drop_app by done. destruct (alias_word _ _ name_alias) as (_ & _ & c & s & -> & Hc).
  rewrite append_cons. cbn [lstrip_by]. by rewrite Hc.
Qed.

Lemma message_parses b : has_char "=" text = false -> strip_by space_lead text = text ->
  _parse_messaging_command M message b = Ok (Some (mkCommand action text [] (name +:+ String " " text))).
Proof.
  intros He Hsp. unfold _parse_messaging_command. rewrite message_body.
  destruct (alias_word _ _ name_alias) as (Hb & Hw & c & s & Hn & Hc).
  assert (split1 (name +:+ String " " text) = [name; text]) as Es.
  { unfold split1. assert (lstrip_by is_space (name +:+ String " " text) = name +:+ String " " text) as ->.
    { rewrite Hn. rewrite append_cons. cbn [lstrip_by]. rewrite Hn in Hb. apply blank_free_head in Hb as [-> _]. done. }
    assert (truthy (name +:+ String " " text) = true) as -> by (by rewrite Hn).
    rewrite first_word_blank by done. cbn [lstrip_by]. change (is_space " ") with true. cbn iota.
    destruct text_ends as [_ ->]. by rewrite text_nonempty. }
  assert (truthy (name +:+ String " " text) = true) as -> by (by rewrite Hn). cbn [negb]. rewrite Es. cbv zeta.
  unfold head_word, rest_words. cbn [List.hd nth]. rewrite Hw, text_stripped, name_alias.
  pose proof (directive_needs_eq _ He) as Hd. rewrite (sub_no_match _ _ _ Hd), Hsp.
  unfold directives_of, findall. by rewrite findall_no_match.
Qed.
End rendered.

(** A rendered command is parsed back: after any of the configured prefixes,
    in any case, the name of a command and a text without directives give the
    command's action and exactly the text. *)
Theorem rendered_command_parses M P name text action b :
  List.forallb blank_free (_messaging_command_prefixes M) = true ->
  mem_str (lower P) (_messaging_command_prefixes M) = true -> truthy P = true ->
  assoc name action_aliases = Some action ->
  truthy text = true -> strip text = text -> strip_by space_lead text = text -> has_char "=" text = false ->
  _parse_messaging_command M (P +:+ String " " (name +:+ String " " text)) b
  = Ok (Some (mkCommand action text [] (name +:+ String " " text))).
Proof. intros. by apply message_parses. Qed.

Lemma rendered_command_parses_witness :
  _parse_messaging_command default_messaging "@ContextLattice save deploy the gateway on friday" true
  = Ok (Some (mkCommand "remember" "deploy the gateway on friday" [] "save deploy the gateway on friday")).
Proof.
  exact (rendered_command_parses default_messaging "@ContextLattice" "save" "deploy the gateway on friday" "remember" true
    ltac:(vm_compute; reflexivity) ltac:(vm_compute; reflexivity) eq_refl eq_refl eq_refl
    ltac:(vm_compute; reflexivity) ltac:(vm_compute; reflexivity) ltac:(vm_compute; reflexivity)).
Defined.

(** Prefixes are not followed by a word boundary: with the short prefix /cl,
    a message for another bot is taken for a search. *)
Lemma prefix_without_boundary :
  _parse_messaging_command default_messaging "/clear cache" true = Ok (Some (mkCommand "recall" "ear cache" [] "ear cache")).
Proof. vm_compute. reflexivity. Qed.

(** ** Secure surfaces *)

(** Two computations that do the same and differ by [f] in what they answer. *)
Definition answers_by {S A} (f : A -> A) (m m0 : ST S A) : Prop :=
  forall s, m s = (fst (m0 s), match snd (m0 s) with Ok a => Ok (f a) | Raise e => Raise e end).

Lemma answers_bind {S A B} (f : B -> B) (m : ST S A) k k0 : (forall a, answers_by f (k a) (k0 a)) -> answers_by f (st_bind m k) (st_bind m k0).
Proof. intros Hk s. unfold st_bind. destruct (m s) as [s1 [a|e]]; [apply Hk|done]. Qed.

Lemma answers_ret {S A} (f : A -> A) a b : a = f b -> answers_by (S := S) f (st_ret a) (st_ret b).
Proof. by intros ->. Qed.

Lemma answers_raise {S A} (f : A -> A) e : answers_by (S := S) f (st_raise e) (st_raise e).
Proof. done. Qed.

Lemma answers_if {S A} (f : A -> A) (b : bool) (m n m0 n0 : ST S A) :
  (b = true -> answers_by f m m0) -> (b = false -> answers_by f n n0) -> answers_by f (if b then m else n) (if b then m0 else n0).
Proof. destruct b; auto. Qed.

Lemma dlookup_dmap_eq k f d : dlookup k (dmap k f d) = option_map f (dlookup k d).
Proof. unfold dmap. destruct (dlookup k d) eqn:E; cbn; [apply dlookup_dset_eq|done]. Qed.

Lemma dlookup_dmap_ne k k' f d : k <> k' -> dlookup k' (dmap k f d) = dlookup k' d.
Proof. intros Hk. unfold dmap. destruct (dlookup k d); [by apply dlookup_dset_ne|done]. Qed.

(** The answer of a secure surface, from that of an open one: the text and the file
    redacted, the result scrubbed and no member with a sensitive key left in it,
    and all other members, the project and the topic among them, as they were. *)
Definition redacted_answer (d0 d : dict) : Prop :=
  (forall k, dlookup k d =
     if mem_str k ["response_text"; "file"] then option_map (fun v => JStr (_redact_sensitive_values (jstr_or_empty v))) (dlookup k d0)
     else if k =s "result" then option_map _scrub_sensitive_payload (dlookup k d0)
     else dlookup k d0) /\
  (forall v, dlookup "result" d = Some v -> keys_hidden v = true).

Lemma secure_response d0 : redacted_answer d0 (_secure_surface_response true d0).
Proof.
  unfold _secure_surface_response. cbn [negb]. split.
  - intros k. unfold mem_str. cbn [existsb]. destruct (String.eqb_spec k "response_text") as [->|H1]; cbn [orb];
      [by rewrite dlookup_dmap_ne, dlookup_dmap_ne, dlookup_dmap_eq by done|].
    destruct (String.eqb_spec k "file") as [->|H2]; cbn [orb]; [by rewrite dlookup_dmap_ne, dlookup_dmap_eq, dlookup_dmap_ne by done|].
    destruct (String.eqb_spec k "result") as [->|H3]; [by rewrite dlookup_dmap_eq, dlookup_dmap_ne, dlookup_dmap_ne by done|].
    by rewrite !dlookup_dmap_ne by done.
  - intros v. rewrite dlookup_dmap_eq. destruct (dlookup "result" _) as [w|]; cbn [option_map]; [|done]. intros E.
    assert (v = _scrub_sensitive_payload w) as -> by congruence. apply scrub_hides_keys.
Qed.

(** Does the text that the command would store, look up or schedule hold a secret? *)
Definition sensitive_command (c : command) : bool :=
  let action := lower (strip (str_or (c_action c) "help")) in
  let content := strip (c_content c) in
  let raw := str_or content (strip (c_raw c)) in
  if action =s "remember" then _contains_sensitive_value content
  else if action =s "recall" then _contains_sensitive_value raw
  else if action =s "task" then
    truthy raw && mem_str (head_word (split1 raw)) ["create"; "enqueue"; "new"] && _contains_sensitive_value (rest_words (split1 raw))
  else false.

(** The same settings with no secure surface. *)
Definition opened (M : messaging_config) : messaging_config :=
  mkMessaging (MESSAGING_COMMAND_HANDLE M) (TELEGRAM_BOT_USERNAME M) (MESSAGING_DEFAULT_PROJECT M) (MESSAGING_SEARCH_LIMIT M)
    (MESSAGING_MAX_RESPONSE_CHARS M) false (MSG_TOPIC_ROOT M) (TASK_PROVIDER_CHAT_MODEL M) (MSG_MAX_ATTEMPTS M)
    (MESSAGING_INTEGRATIONS_ENABLED M) (IRONCLAW_INTEGRATION_ENABLED M) (TELEGRAM_DEFAULT_PROJECT M) (SLACK_DEFAULT_PROJECT M)
    (OPENCLAW_DEFAULT_PROJECT M) (IRONCLAW_DEFAULT_PROJECT M) (TELEGRAM_TOPIC_ROOT M) (SLACK_TOPIC_ROOT M) (TELEGRAM_WEBHOOK_SECRET M)
    (SLACK_SIGNING_SECRET M) (TELEGRAM_BOT_TOKEN M) (SLACK_BOT_TOKEN M).

Section surface.
Context {S : Type} `{CommandServices S}.
Variable M : messaging_config.
Variables (channel source project topic : string) (user : option string).
Let secure_x := mkContext channel source true project topic user.
Let open_x := mkContext channel source false project topic user.
Abbreviation by_redaction := (answers_by (_secure_surface_response true)).

Ltac answers_tac :=
  repeat first [ apply answers_bind; intros ? | apply answers_if; intros ? | apply answers_raise | apply answers_ret; reflexivity ].

Lemma remember_redacts content file : _contains_sensitive_value content = false ->
  by_redaction (remember (S := S) M secure_x content file) (remember (S := S) (opened M) open_x content file).
Proof. intros Hc. unfold remember. cbn [x_strict secure_x open_x]. rewrite Hc. answers_tac. Qed.

Lemma recall_redacts c content : _contains_sensitive_value (str_or content (strip (c_raw c))) = false ->
  by_redaction (recall (S := S) M secure_x c content) (recall (S := S) (opened M) open_x c content).
Proof. intros Hc. unfold recall. cbv zeta. cbn [x_strict secure_x open_x]. rewrite Hc. answers_tac. Qed.

Lemma task_command_redacts c content :
  (let raw := str_or content (strip (c_raw c)) in
   truthy raw && mem_str (head_word (split1 raw)) ["create"; "enqueue"; "new"] && _contains_sensitive_value (rest_words (split1 raw)) = false) ->
  by_redaction (task_command (S := S) M secure_x c content) (task_command (S := S) (opened M) open_x c content).
Proof.
  cbv zeta. intros Hc. unfold task_command. cbv zeta. set (raw := str_or content _) in *.
  apply answers_if; intros Es.
  { unfold task_create. cbn [x_strict secure_x open_x]. destruct (truthy raw); [|done]. rewrite Es in Hc. cbn [andb] in Hc. rewrite Hc. answers_tac. }
  unfold task_status_cmd, task_approve, task_replay, task_cancel, task_list, task_deadletter, task_runtime, respond_task.
  cbv zeta. answers_tac.
Qed.

Lemma command_redacts c : sensitive_command c = false ->
  let action := lower (strip (str_or (c_action c) "help")) in
  let content := strip (c_content c) in
  let run M x := if action =s "remember" then remember (S := S) M x content (assoc "file" (c_directives c))
    else if action =s "recall" then recall M x c content
    else if action =s "task" then task_command M x c content
    else if action =s "status" then status_command x else st_ret (help_command M x) in
  by_redaction (run M secure_x) (run (opened M) open_x).
Proof.
  unfold sensitive_command. cbv zeta. set (action := lower _). destruct (action =s "remember"); [apply remember_redacts|].
  destruct (action =s "recall"); [apply recall_redacts|]. destruct (action =s "task"); [apply task_command_redacts|]. intros _.
  unfold status_command. answers_tac.
Qed.
End surface.

Section contexts.
Variable M : messaging_config.

Lemma context_strict c channel src dp root po to u x :
  command_context M c channel src dp root po to u = Ok x -> _strict_messaging_channel M channel = Ok (x_strict x).
Proof.
  unfold command_context. destruct (_strict_messaging_channel M channel) as [b|e]; cbn; [|done].
  destruct (normalize_topic_path src); cbn; [|done]. destruct (_messaging_topic_path _ _ _ _); cbn; [|done]. by intros [= <-].
Qed.
Lemma context_opened c channel src dp root po to u x :
  command_context M c channel src dp root po to u = Ok x ->
  command_context (opened M) c channel src dp root po to u = Ok (mkContext (x_channel x) (x_source_id x) false (x_project x) (x_topic_path x) (x_user_id x)).
Proof.
  unfold command_context. destruct (_strict_messaging_channel M channel) as [b|e]; cbn [rbind]; [|done].
  change (_strict_messaging_channel (opened M) channel) with (Ok false). cbn [rbind].
  destruct (normalize_topic_path src) as [n|]; cbn [rbind]; [|done].
  change (_messaging_topic_path (opened M) root) with (_messaging_topic_path M root).
  destruct (_messaging_topic_path M _ _ _); cbn [rbind]; [|done]. by intros [= <-].
Qed.

Lemma context_refused c channel src dp root po to u e : _strict_messaging_channel M channel = Ok true ->
  command_context M c channel src dp root po to u = Raise e -> command_context (opened M) c channel src dp root po to u = Raise e.
Proof.
  unfold command_context. intros ->. change (_strict_messaging_channel (opened M) channel) with (Ok false). cbn [rbind].
  destruct (normalize_topic_path src) as [n|]; cbn [rbind]; [|done].
  change (_messaging_topic_path (opened M) root) with (_messaging_topic_path M root).
  by destruct (_messaging_topic_path M _ _ _); cbn [rbind].
Qed.
End contexts.

(** A refused command leaves the state as it was. *)
Definition refuses {S A} (m : ST S A) : Prop := forall s, exists e, m s = (s, Raise e).

Lemma guard_refuses {S A} b code msg (m : ST S A) : (b = false -> refuses m) -> refuses (guard b code msg ;;; m).
Proof. intros Hm s. unfold guard. destruct b; [by eexists|]. by apply Hm. Qed.

Lemma guard_true_refuses {S A} b code msg (m : ST S A) : b = true -> refuses (guard b code msg ;;; m).
Proof. intros ->. by apply guard_refuses. Qed.

Section refusal.
Context {S : Type} `{CommandServices S}.
Variable M : messaging_config.

Lemma sensitive_refused x c : x_strict x = true -> sensitive_command c = true ->
  let action := lower (strip (str_or (c_action c) "help")) in
  let content := strip (c_content c) in
  refuses (S := S) (if action =s "remember" then remember M x content (assoc "file" (c_directives c))
    else if action =s "recall" then recall M x c content
    else if action =s "task" then task_command M x c content
    else if action =s "status" then status_command x else st_ret (help_command M x)).
Proof.
  intros Hx. unfold sensitive_command. cbv zeta. set (action := lower _).
  destruct (action =s "remember").
  { intros Hc. unfold remember. apply guard_refuses. intros _. apply guard_true_refuses. by rewrite Hx. }
  destruct (action =s "recall").
  { intros Hc. unfold recall. cbv zeta. apply guard_refuses. intros _. apply guard_true_refuses. by rewrite Hx. }
  destruct (action =s "task"); [|done].
  intros [[Ht Hm]%andb_prop Hc]%andb_prop. unfold task_command. cbv zeta. rewrite Ht, Hm.
  unfold task_create. apply guard_true_refuses. by rewrite Hx.
Qed.
End refusal.

(** C33: on a secure messaging surface the texts that commands store, look up or
    schedule are checked for secrets, and answers are redacted.  A remember, recall or task create command whose text
    holds a detected secret is refused and changes nothing, whatever the services
    do.  Every other command does exactly what it does where the surface is open,
    and answers, or fails, the same, except that the text and the file of the answer
    are redacted and its result is scrubbed, with no member with a sensitive key
    left; the other members are as they were, the project and the topic too.  Other
    commands, and directives, are not checked for secrets. *)
Theorem secure_surface_holds {S : Type} `{CommandServices S} M c channel source_id project topic po to u (s : S) :
  _strict_messaging_channel M channel = Ok true ->
  let run M := _execute_messaging_command M c channel source_id project topic po to u s in
  if sensitive_command c then exists e, run M = (s, Raise e)
  else match run (opened M) with
       | (s', Ok d0) => exists d, run M = (s', Ok d) /\ redacted_answer d0 d
       | (s', Raise e) => run M = (s', Raise e)
       end.
Proof.
  intros Hs. cbv zeta. unfold _execute_messaging_command. cbv zeta. unfold st_bind at 1 2 3, st_lift.
  destruct (command_context M c channel source_id project topic po to u) as [x|e] eqn:Ex.
  2:{ rewrite (context_refused M _ _ _ _ _ _ _ _ _ Hs Ex). destruct (sensitive_command c); [by exists e|done]. }
  assert (x_strict x = true) as Hx by (pose proof (context_strict _ _ _ _ _ _ _ _ _ _ Ex); congruence).
  rewrite (context_opened M _ _ _ _ _ _ _ _ _ Ex). destruct (sensitive_command c) eqn:Hc.
  { exact (sensitive_refused (S := S) M x c Hx Hc s). }
  destruct x as [ch src strict p tp user]. cbn in Hx. subst strict. cbn [x_channel x_source_id x_project x_topic_path x_user_id].
  pose proof (command_redacts (S := S) M ch src p tp user c Hc s) as Hr. cbv zeta in Hr. rewrite Hr.
  match type of Hr with _ = (fst ?m, _) => destruct m as [s' [d0|e]] end; [|done].
  eexists. split; [done|]. apply secure_response.
Qed.

(** Services that only remember what was written. *)
Definition demo_task : task :=
  mkTask "t1" "demo" Queued None None 0 None None 0 4 None None None None None "" "" false false "low" None.
#[local] Instance demo_services : CommandServices (list MemoryWrite) := {|
  now_millis := st_ret 1700000000000;
  write_op w := fun s => (s ++ [w], Ok (JObj [("ok", JBool true); ("warnings", JList [])]));
  search_op _ := st_ret [("results", JList []); ("warnings", JList [])];
  status_op := st_ret [("services", JList [JObj [("healthy", JBool true)]])];
  create_task_op _ _ _ _ _ _ _ := st_ret demo_task;
  get_task_op _ := st_ret (Some demo_task);
  get_events_op _ := st_ret [];
  approve_task_op _ _ _ := st_ret (Some demo_task);
  replay_task_op _ _ _ _ := st_ret (Some demo_task);
  update_task_op _ _ _ _ := st_ret (Some demo_task);
  list_tasks_op _ _ _ _ := st_ret [demo_task];
  deadletter_op _ _ := st_ret [];
  runtime_op := st_ret [("queueReady", JInt 1)];
  post_op _ _ := st_ret tt |}.

Definition run_message (channel text : string) (s : list MemoryWrite) : list MemoryWrite * result dict :=
  match _parse_messaging_command default_messaging text true with
  | Ok (Some c) => _execute_messaging_command default_messaging c channel "u1" "messaging" ("channels/" +:+ channel) None None None s
  | _ => (s, Ok [])
  end.

Lemma secure_surface_holds_witness :
  (exists e, _execute_messaging_command default_messaging (mkCommand "remember" "the password: hunter2hunter2 works" [] "")
               "openclaw" "u1" "messaging" "channels/openclaw" None None None [] = ([], Raise e)) /\
  (exists s' d, _execute_messaging_command default_messaging (mkCommand "remember" "deploy on friday" [("file", "sk-aaaaaaaaaaaaaaaaaaaaaaaa.md")] "")
               "openclaw" "u1" "messaging" "channels/openclaw" None None None [] = (s', Ok d) /\
     length s' = 1%nat /\ dget d "file" <> JStr "sk-aaaaaaaaaaaaaaaaaaaaaaaa.md").
Proof.
  pose proof (fun c => secure_surface_holds default_messaging c "openclaw" "u1" "messaging" "channels/openclaw" None None None [] ltac:(vm_compute; reflexivity)) as H.
  split.
  - exact (H (mkCommand "remember" "the password: hunter2hunter2 works" [] "")).
  - set (c := mkCommand "remember" "deploy on friday" [("file", "sk-aaaaaaaaaaaaaaaaaaaaaaaa.md")] ""). specialize (H c). cbv zeta in H.
    assert (sensitive_command c = false) as Hc by (vm_compute; reflexivity). rewrite Hc in H.
    destruct (_execute_messaging_command (opened default_messaging) c _ _ _ _ _ _ _ _) as [s' [d0|e]] eqn:E; vm_compute in E; [|discriminate E].
    destruct H as (d & Hd & Hk & _). exists s', d. split; [exact Hd|]. injection E as <- <-. split; [reflexivity|].
    unfold dget. rewrite (Hk "file"). vm_compute. discriminate.
Defined.

(** Three gaps of the secure surface: the name of the channel is compared in
    its case, so OpenClaw is no secure channel; the endpoint for OpenClaw lets the
    request name another channel; and project and topic of the answer are not
    redacted. *)
Lemma secure_surface_gaps :
  _strict_messaging_channel default_messaging "OpenClaw" = Ok false /\
  in_channel (bridged "openclaw" "p" (mkMessage "custom" "u" "t" None None None true)) = "custom" /\
  exists d, snd (run_message "openclaw" "@ContextLattice help topic=sk-aaaaaaaaaaaaaaaaaaaaaaaa" []) = Ok d /\
    dget d "topic_path" = JStr "sk-aaaaaaaaaaaaaaaaaaaaaaaa" /\ _contains_sensitive_value "sk-aaaaaaaaaaaaaaaaaaaaaaaa" = true.
Proof.
  split; [vm_compute; reflexivity|]. split; [vm_compute; reflexivity|].
  eexists. split; [vm_compute; reflexivity|]. split; vm_compute; reflexivity.
Qed.

(** ** Slack *)

(** With a signing secret configured, an event of Slack is handed on only
    when the request carries the signature of exactly its time stamp and body,
    and the time stamp is at most five minutes away. *)
Theorem slack_event_is_signed M hmac now raw_body signature timestamp d event :
  truthy (SLACK_SIGNING_SECRET M) = true ->
  slack_events M hmac now raw_body signature timestamp = Ok (d, Some event) ->
  exists ts, py_int (strip timestamp) = Some ts /\ Z.abs (now - ts) <= 300 /\
    strip signature = "v0=" +:+ hmac (SLACK_SIGNING_SECRET M) ("v0:" +:+ strip timestamp +:+ ":" +:+ raw_body) /\
    exists payload, loads raw_body = Some (JObj payload) /\ dget payload "type" = JStr "event_callback" /\
      event = as_dict (dget payload "event") /\ jtruthy (dget event "bot_id") = false.
Proof.
  intros Hs. unfold slack_events. destruct (negb (MESSAGING_INTEGRATIONS_ENABLED M)); [done|].
  destruct (_verify_slack_signature _ _ _ _ _ _) eqn:Ev; [|done]. cbn [negb].
  unfold _verify_slack_signature in Ev. rewrite Hs in Ev. cbn [negb] in Ev.
  destruct (negb (truthy (strip signature)) || negb (truthy (strip timestamp))); [done|].
  destruct (py_int (strip timestamp)) as [ts|]; [|done]. destruct (Z.ltb_spec 300 (Z.abs (now - ts))); [done|].
  apply String.eqb_eq in Ev. destruct (loads raw_body) as [[| | | | | |payload]|]; try done.
  destruct (json_eqb _ (JStr "url_verification")); [done|]. destruct (json_eqb _ (JStr "event_callback")) eqn:Et; [|done].
  cbn [negb]. destruct (jtruthy _) eqn:Eb; [done|]. intros [= _ <-]. exists ts. repeat split; [done|by symmetry|].
  apply json_eqb_eq in Et. eauto.
Qed.

Definition slack_demo : messaging_config :=
  mkMessaging "@ContextLattice" "ContextLattice" "messaging" 4 1200 true "root" "" 4 true false
    "messaging" "messaging" "messaging" "messaging" "channels/telegram" "channels/slack" "" "key" "" "".

Lemma slack_event_is_signed_witness :
  let body := dumps (JObj [("type", JStr "event_callback"); ("event", JObj [("text", JStr "hi")])]) in
  let hmac := fun key text => key +:+ str_of_Z (Z.of_nat (String.length text)) in
  let signature := "v0=" +:+ hmac "key" ("v0:1700000000:" +:+ body) in
  exists ts, py_int (strip "1700000000") = Some ts /\ Z.abs (1700000100 - ts) <= 300.
Proof.
  cbv zeta. set (body := dumps (JObj [("type", JStr "event_callback"); ("event", JObj [("text", JStr "hi")])])).
  set (hmac := fun key text => key +:+ str_of_Z (Z.of_nat (String.length text))).
  destruct (slack_event_is_signed slack_demo hmac 1700000100 body ("v0=" +:+ hmac "key" ("v0:1700000000:" +:+ body)) "1700000000"
    [("ok", JBool true)] [("text", JStr "hi")] eq_refl ltac:(vm_compute; reflexivity)) as (ts & H1 & H2 & _).
  exists ts. exact (conj H1 H2).
Defined.

(** ** Texts *)

(** An answer is the stripped text or a shorter beginning of it and an ellipsis. *)
Lemma truncate_bounds M text : 2 <= MESSAGING_MAX_RESPONSE_CHARS M ->
  let limit := MESSAGING_MAX_RESPONSE_CHARS M in
  (_truncate_messaging_text M text = strip text /\ Z.of_nat (String.length (strip text)) <= limit) \/
  exists t, _truncate_messaging_text M text = t +:+ ellipsis /\ Z.of_nat (String.length t) < limit.
Proof.
  intros Hl. cbv zeta. unfold _truncate_messaging_text. cbv zeta. destruct (Z.leb_spec (Z.of_nat (String.length (strip text))) (MESSAGING_MAX_RESPONSE_CHARS M)); [auto|].
  right. eexists. split; [done|]. 
  assert (forall s, (String.length (rstrip_by is_space s) <= String.length s)%nat) as Hr.
  { intros s. induction s as [|c s IH]; cbn; [lia|]. destruct (rstrip_by is_space s); cbn in *; [destruct (is_space c); cbn; lia|lia]. }
  pose proof (Hr (take (Z.to_nat (Z.max 1 (MESSAGING_MAX_RESPONSE_CHARS M - 1))) (strip text))).
  pose proof (take_length (Z.to_nat (Z.max 1 (MESSAGING_MAX_RESPONSE_CHARS M - 1))) (strip text)). lia.
Qed.

(** ** Tasks from messages *)

Definition task_actions : list string := ["memory_write"; "memory_search"; "messaging_command"; "http_callback"; "provider_chat"].

Lemma rest_words_strip parts : strip (rest_words parts) = rest_words parts.
Proof. apply strip_strip. Qed.

Lemma text1_lookup d k s : dlookup k d = Some (JStr s) -> text1 d k = strip s.
Proof. unfold text1, dget. intros ->. by rewrite jstr_or_empty_str. Qed.

Lemma text2_lookup d a b s : dlookup a d = Some (JStr s) -> truthy s = true -> text2 d a b = strip s.
Proof.
  unfold text2, dget. intros -> Ht. unfold jor. assert (jtruthy (JStr s) = true) as -> by done. by rewrite jstr_or_empty_str.
Qed.

Lemma truthy_strip s : truthy (strip s) = true -> truthy s = true.
Proof. by destruct s. Qed.

Lemma callback_target_ok remainder method url : strip remainder = remainder -> callback_target remainder = (method, url) ->
  strip url = url /\ mem_str method http_methods = true.
Proof.
  intros Hr. unfold callback_target. cbv zeta. destruct (mem_str (upper _) http_methods) eqn:E; intros [= <- <-]; [|done].
  split; [apply rest_words_strip|done].
Qed.

Lemma method_fixed method : mem_str method http_methods = true ->
  upper (strip (jstr (jor (JStr method) (JStr "POST")))) = method /\ truthy method = true.
Proof. intros H%mem_str_In. cbn in H. destruct H as [<-|[<-|[<-|[<-|[<-|[]]]]]]; by vm_compute. Qed.

Section contract.
Variable C : task_config.
Hypothesis allowed : List.forallb (fun a => mem_str a (TASK_ALLOWED_ACTIONS C)) task_actions = true.

Lemma action_allowed a : In a task_actions -> mem_str a (TASK_ALLOWED_ACTIONS C) = true.
Proof. rewrite List.forallb_forall in allowed. apply allowed. Qed.

(** A payload that names its action is checked by the rules of the action. *)
Lemma contract_of action p n : In action task_actions -> n = ("action", JStr action) :: p ++ [("action_type", JStr action)] ->
  dlookup "action_type" p = None ->
  _validate_task_payload_contract C (Some (JObj (("action", JStr action) :: p))) = (let! d := validate_action C action n in Ok (Some d)).
Proof.
  intros Ha -> Hp. cbn [_validate_task_payload_contract].
  assert (payload_action (("action", JStr action) :: p) = Some action) as ->.
  { unfold payload_action. assert (dget (("action", JStr action) :: p) "action" = JStr action) as -> by done.
    cbn in Ha. destruct Ha as [<-|[<-|[<-|[<-|[<-|[]]]]]]; reflexivity. }
  rewrite action_allowed by done. cbn [negb].
  assert (dset "action_type" (JStr action) (dset "action" (JStr action) (("action", JStr action) :: p))
          = ("action", JStr action) :: p ++ [("action_type", JStr action)]) as ->; [|done].
  cbn [dset]. rewrite String.eqb_refl. cbn [dset]. replace ("action_type" =s "action") with false by done. f_equal.
  clear Ha. induction p as [|[k v] p IH]; [done|]. cbn [dlookup] in Hp. cbn [dset app].
  destruct (String.eqb_spec "action_type" k); [done|]. by rewrite IH.
Qed.
End contract.

Ltac checked a :=
  erewrite (contract_of _ ltac:(eassumption) a); [|cbn; tauto|reflexivity|reflexivity]; unfold validate_action; cbn [String.eqb Ascii.eqb Bool.eqb].

(** A task built from a chat message satisfies the payload contract of the
    task queue, unless it is written as JSON or names a blank file: the queue
    accepts it, or it is a callback to a URL that is not allowed. *)
Theorem built_payload_contract C M millis create_spec project topic_path channel source_id directives title p :
  List.forallb (fun a => mem_str a (TASK_ALLOWED_ACTIONS C)) task_actions = true ->
  truthy (strip project) = true -> startswith (strip create_spec) "{" = false ->
  _build_messaging_task_payload M millis create_spec project topic_path channel source_id directives = Ok (title, p) ->
  (forall f, dget p "fileName" = JStr f -> truthy (strip f) = true) ->
  (exists d, _validate_task_payload_contract C (Some (JObj p)) = Ok (Some d)) \/
  (exists url e, dget p "action" = JStr "http_callback" /\ dget p "url" = JStr url /\
    _task_validate_callback_url C url = Raise e /\ _validate_task_payload_contract C (Some (JObj p)) = Raise e).
Proof.
  intros Hall Hproj Hb. unfold _build_messaging_task_payload. cbv zeta. rewrite Hb.
  destruct (truthy (strip create_spec)) eqn:Et; [|done]. cbn [negb].
  set (rest := rest_words _). assert (strip rest = rest) as Hrest by apply rest_words_strip.
  assert (forall text, strip text = text -> truthy text = true -> exists d,
    _validate_task_payload_contract C (Some (JObj (message_payload text channel source_id project topic_path))) = Ok (Some d)) as Hmsg.
  { intros text Hs Ht. unfold message_payload. checked "messaging_command". rewrite (text1_lookup _ "text" text) by reflexivity. rewrite Hs, Ht.
    eexists. reflexivity. }
  destruct (mem_str _ ["remember"; "write"; "save"]).
  { destruct (truthy rest) eqn:Er; [|done]. cbn [negb]. destruct (_messaging_file_name _ _ _ _) as [f|]; [|done].
    cbn [rbind]. intros [= <- <-]. intros Hf. left. pose proof (Hf f eq_refl) as Hf'.
    checked "memory_write". rewrite (text1_lookup _ "content" rest) by reflexivity. rewrite Hrest, Er.
    rewrite (text2_lookup _ "projectName" "project" project) by (reflexivity || by apply truthy_strip). rewrite Hproj.
    rewrite (text2_lookup _ "fileName" "file" f) by (reflexivity || by apply truthy_strip). rewrite Hf'. eexists. reflexivity. }
  destruct (mem_str _ ["recall"; "search"; "find"]).
  { destruct (truthy rest) eqn:Er; [|done]. cbn [negb]. intros [= <- <-] _. left. checked "memory_search".
    rewrite (text1_lookup _ "query" rest) by reflexivity. rewrite Hrest, Er. eexists. reflexivity. }
  destruct (mem_str _ ["message"; "command"; "notify"]).
  { destruct (truthy rest) eqn:Er; [|done]. cbn [negb]. intros [= <- <-] _. left. by apply Hmsg. }
  destruct (mem_str _ ["callback"; "http"]).
  { destruct (truthy rest) eqn:Er; [|done]. cbn [negb]. destruct (callback_target rest) as [method url] eqn:Ec.
    destruct (callback_target_ok _ _ _ Hrest Ec) as [Hu Hm]. destruct (method_fixed _ Hm) as [Hm1 Hm2].
    destruct (truthy url) eqn:Eu; [|done]. cbn [negb]. intros [= <- <-] _. checked "http_callback".
    rewrite (text1_lookup _ "url" url) by reflexivity. rewrite Hu, Eu. cbn [negb].
    destruct (_task_validate_callback_url C url) as [[]|e] eqn:Ev.
    - left. cbn [rbind]. rewrite dget_dset_ne by done.
      match goal with |- context [dget ?d "method"] => assert (dget d "method" = JStr method) as -> by reflexivity end.
      rewrite Hm1. change ["GET"; "POST"; "PUT"; "PATCH"; "DELETE"] with http_methods. rewrite Hm. eexists. reflexivity.
    - right. exists url, e. done. }
  destruct (mem_str _ ["provider"; "chat"]).
  { destruct (truthy rest) eqn:Er; [|done]. cbn [negb]. intros [= <- <-] _. left. checked "provider_chat".
    rewrite (text1_lookup _ "prompt" rest) by reflexivity. rewrite Hrest, Er. eexists. reflexivity. }
  intros [= <- <-] _. left. apply Hmsg; [apply strip_strip|done].
Qed.

Lemma built_payload_contract_witness :
  let p := [("action", JStr "memory_search"); ("query", JStr "open incidents"); ("project", JStr "ops"); ("topic_path", JStr "ops/x");
            ("limit", JInt 9); ("include_preferences", JBool true)] in
  _build_messaging_task_payload default_messaging 0 "recall open incidents" "ops" "ops/x" "slack" "u" [("limit", "9")]
  = Ok ("Recall: open incidents", p) /\
  exists d, _validate_task_payload_contract default_task_config (Some (JObj p)) = Ok (Some d).
Proof.
  cbv zeta. split; [vm_compute; reflexivity|].
  destruct (built_payload_contract default_task_config default_messaging 0 "recall open incidents" "ops" "ops/x" "slack" "u" [("limit", "9")]
    "Recall: open incidents" _ eq_refl eq_refl eq_refl ltac:(vm_compute; reflexivity) ltac:(discriminate)) as [H|H].
  - exact H.
  - exfalso. destruct H as (url & e & H & _). discriminate H.
Defined.
