(* ===== verification/TaskExec.v ===== *)
(** * Task execution

    [_execute_task_action], the write-back of outcomes, the loops of the task
    workers and of the scheduler, and the services of [Messaging] on top of the
    task database.  Everything outside (the memory service, searches, chat and
    HTTP services) is the class [OuterServices] over a state of its own. *)

From S2P Require Import Prelude PyStr PyTime Json JsonText Paths Policy TaskDb Tasks WriteMemory ReadPath Sources Messaging.
From Stdlib Require Import Ascii.
Open Scope Z_scope.

(** ** Settings and HTTP *)

Record exec_config := mkExecConfig {
  TASK_PROVIDER_CHAT_ENABLED : bool; TASK_PROVIDER_CHAT_URL : string; TASK_PROVIDER_CHAT_API_KEY : string; LETTA_AGENT_MODEL : string;
  TASK_RESULT_WRITEBACK_ENABLED : bool; TASK_DB_LOCK_RETRIES : Z }.

Record http_response := mkHttp { status_code : Z; body_text : string }.

(** [client.request(method, url, json=body, headers=headers)] *)
Class HttpClient (S : Type) := http_op : string -> string -> json -> list (string * string) -> ST S http_response.

(** ** Actions *)

(** [str(a or b or ... or "").strip()] *)
Definition first_text (l : list json) : string := strip (jstr_or_empty (fold_left jor l JNull)).
Definition none_if_empty (s : string) : option string := if truthy s then Some s else None.

(** [bool(d.get(k, default))] *)
Definition flag (d : dict) (k : string) (default : bool) : bool :=
  match dlookup k d with Some v => jtruthy v | None => default end.
Definition as_bool (j : json) : option bool := match j with JBool b => Some b | _ => None end.

Definition chat_url (endpoint : string) : string :=
  let endpoint := if endswith endpoint "/" then drop_last 1 endpoint else endpoint in
  if endswith endpoint "/v1" then endpoint +:+ "/chat/completions"
  else if negb (endswith endpoint "/chat/completions") then endpoint +:+ "/v1/chat/completions"
  else endpoint.

(** The text of the first choice. *)
Definition chat_content (data : json) : string :=
  match dget (as_dict data) "choices" with
  | JList (JObj first :: _) =>
      match dget first "message" with JObj message => take 1200 (jstr_or_empty (dget message "content")) | _ => "" end
  | _ => ""
  end.

Section actions.
Context {S : Type} `{CommandServices S} `{HttpClient S}.
Variable C : task_config.
Variable M : messaging_config.
Variable X : exec_config.
(** Python's [int] and [float] of a float literal and of a JSON value. *)
Variable int_of_float : string -> result Z.
Variable py_float : json -> result json.

Definition failed {A} (m : string) : ST S A := st_raise (OrchestratorError m).

(** [int(value)] *)
Definition int_of (j : json) : result Z :=
  match j with
  | JInt z => Ok z
  | JBool b => Ok (if b then 1 else 0)
  | JFloat r => int_of_float r
  | JStr s => match py_int s with Some z => Ok z | None => Raise (OtherError "ValueError" "") end
  | _ => Raise (OtherError "TypeError" "")
  end.

Definition action_result (action : string) (r : json) : dict := [("action", JStr action); ("result", r)].

Definition run_memory_write (t : task) (payload : dict) : ST S dict :=
  let write_payload := mkMemoryWrite (first_text [dget payload "projectName"; dget payload "project"; jopt (t_project t)])
    (first_text [dget payload "fileName"; dget payload "file"]) (jstr_or_empty (dget payload "content"))
    (none_if_empty (first_text [dget payload "topic_path"])) in
  r <- write_op write_payload ;; st_ret (action_result "memory_write" r).

Definition run_memory_search (t : task) (payload : dict) : ST S dict :=
  let text k := none_if_empty (first_text [dget payload k]) in
  limit <- st_lift (int_of (jor (dget payload "limit") (JInt 10))) ;;
  let search_payload := mkMemorySearch (first_text [dget payload "query"]) (Z.max 1 (Z.min limit 50))
    (none_if_empty (first_text [dget payload "project"; jopt (t_project t)])) (text "topic_path") (flag payload "fetch_content" false)
    (text "retrieval_mode") (match dget payload "sources" with JList l => Some l | _ => None end)
    (match dget payload "source_weights" with JObj d => Some d | _ => None end) (flag payload "rerank_with_learning" true)
    (flag payload "include_retrieval_debug" false) (flag payload "include_grounding" true) (text "user_id")
    (flag payload "include_preferences" true) (none_if_empty (first_text [dget payload "agent_id"; jopt (t_agent t)]))
    (as_bool (dget payload "auto_escalate")) (as_bool (dget payload "query_expansion")) in
  r <- search_op search_payload ;; st_ret (action_result "memory_search" (JObj r)).

Definition run_messaging_command (t : task) (worker_name : string) (payload : dict) : ST S dict :=
  let channel := str_or (strip (jstr (jor (dget payload "channel") (JStr "custom")))) "custom" in
  let source_id := str_or (strip (jstr (jor (dget payload "source_id") (JStr worker_name)))) worker_name in
  let text := first_text [dget payload "text"] in
  if negb (truthy text) then failed "messaging_command text is required"
  else
    parsed <- st_lift (_parse_messaging_command M text (flag payload "require_prefix" false)) ;;
    let c := match parsed with Some c => c | None => mkCommand "help" "" [] text end in
    r <- _execute_messaging_command M c channel source_id
           (jstr (jor (jor (dget payload "project") (jopt (t_project t))) (JStr (MESSAGING_DEFAULT_PROJECT M))))
           (jstr (jor (jor (dget payload "topic_path") (dget payload "topic_root")) (JStr ("channels/" +:+ channel))))
           (none_if_empty (first_text [dget payload "project"])) (none_if_empty (first_text [dget payload "topic_path"]))
           (none_if_empty (first_text [dget payload "user_id"])) ;;
    st_ret (action_result "messaging_command" (JObj r)).

Definition run_http_callback (payload : dict) : ST S dict :=
  let callback_url := first_text [dget payload "url"] in
  st_lift (_task_validate_callback_url C callback_url) ;;;
  let method := upper (strip (jstr (jor (dget payload "method") (JStr "POST")))) in
  let headers := map (fun kv => (fst kv, jstr (snd kv))) (as_dict (dget payload "headers")) in
  response <- http_op method callback_url (dget payload "body") headers ;;
  st_ret [("action", JStr "http_callback"); ("status_code", JInt (status_code response));
          ("response_text", JStr (take 600 (body_text response)))].

Definition chat_messages (payload : dict) : ST S json :=
  match dget payload "messages" with
  | JList (_ :: _) as l => st_ret l
  | _ =>
      let prompt := first_text [dget payload "prompt"] in
      if negb (truthy prompt) then failed "provider_chat requires prompt or messages"
      else st_ret (JList [JObj [("role", JStr "user"); ("content", JStr prompt)]])
  end.

Definition run_provider_chat (payload : dict) : ST S dict :=
  if negb (TASK_PROVIDER_CHAT_ENABLED X) then failed "provider_chat action is disabled"
  else
    let endpoint := first_text [dget payload "url"; JStr (TASK_PROVIDER_CHAT_URL X)] in
    if negb (truthy endpoint) then failed "provider_chat endpoint is not configured"
    else
      let model := first_text [dget payload "model"; JStr (TASK_PROVIDER_CHAT_MODEL M); JStr (LETTA_AGENT_MODEL X)] in
      if negb (truthy model) then failed "provider_chat model is not configured"
      else
        messages <- chat_messages payload ;;
        temperature <- st_lift (py_float (match dlookup "temperature" payload with Some v => v | None => JFloat "0.2" end)) ;;
        let body := JObj [("model", JStr model); ("messages", messages); ("temperature", temperature)] in
        let headers := [("content-type", "application/json")]
          ++ (if truthy (TASK_PROVIDER_CHAT_API_KEY X) then [("authorization", "Bearer " +:+ TASK_PROVIDER_CHAT_API_KEY X)] else []) in
        response <- http_op "POST" (chat_url endpoint) body headers ;;
        if 400 <=? status_code response then
          failed ("provider_chat failed: status=" +:+ str_of_Z (status_code response) +:+ " body=" +:+ take 240 (body_text response))
        else
          data <- (if truthy (body_text response) then
                     match loads (body_text response) with
                     | Some j => st_ret j
                     | None => st_raise (OtherError "JSONDecodeError" "")
                     end
                   else st_ret (JObj [])) ;;
          st_ret [("action", JStr "provider_chat"); ("model", JStr model); ("content", JStr (chat_content data)); ("raw", data)].

Definition _execute_task_action (t : task) (worker_name : string) : ST S dict :=
  match t_payload t with
  | None => failed "task payload missing"
  | Some payload =>
      match _normalize_task_action (jor (dget payload "action") (jopt (t_action_type t))) with
      | None => failed "task action missing"
      | Some action =>
          if negb (mem_str action (TASK_ALLOWED_ACTIONS C)) then failed ("task action '" +:+ action +:+ "' is not allowed")
          else if action =s "memory_write" then run_memory_write t payload
          else if action =s "memory_search" then run_memory_search t payload
          else if action =s "messaging_command" then run_messaging_command t worker_name payload
          else if action =s "http_callback" then run_http_callback payload
          else if action =s "provider_chat" then run_provider_chat payload
          else failed ("unsupported task action '" +:+ action +:+ "'")
      end
  end.

End actions.

(** ** Outcomes *)

(** [json.dumps(..., sort_keys=True)] *)
Fixpoint sort_json (j : json) : json :=
  match j with
  | JList l => JList (map sort_json l)
  | JObj d => JObj (sort_by key_le (map (fun kv => (fst kv, sort_json (snd kv))) d))
  | v => v
  end.

(** [updated_at] is set in every row. *)
Definition outcome_payload (t : task) (task_id project action : string) (message : option string) (metadata : option dict) : json :=
  JObj [("task_id", JStr task_id); ("title", JStr (t_title t)); ("status", JStr (task_status_str (t_status t)));
        ("project", JStr project); ("action", JStr action); ("attempts", JInt (t_attempts t)); ("max_attempts", JInt (t_max_attempts t));
        ("message", jopt message); ("metadata", match metadata with Some d => JObj d | None => JNull end);
        ("result", opt_json (t_result t)); ("updated_at", JStr (t_updated_at t))].

(** [write] is [write_memory]. *)
Definition _record_task_outcome_memory {S} (X : exec_config) (write : MemoryWrite -> ST S json) (t : task) (message : option string) (metadata : option dict) : ST S unit :=
  let payload := match t_payload t with Some d => d | None => [] end in
  let project := first_text [jopt (t_project t); dget payload "projectName"; dget payload "project"] in
  let task_id := strip (t_id t) in
  if negb (TASK_RESULT_WRITEBACK_ENABLED X) || negb (truthy project) || negb (truthy task_id) then st_ret tt
  else
    let action := lower (strip (jstr (jor (jor (jopt (t_action_type t)) (dget payload "action")) (JStr "task")))) in
    topic_path <- st_lift (normalize_topic_path (jstr (jor (dget payload "topic_path") (JStr ("tasks/" +:+ action))))) ;;
    file_name <- st_lift (normalize_memory_path ("tasks/" +:+ task_id +:+ "__latest.json")) ;;
    write (mkMemoryWrite project file_name (dumps (sort_json (outcome_payload t task_id project action message metadata)))
                (Some topic_path)) ;;;
    st_ret tt.

(** ** The state of the task runtime *)

Record task_health := mkTaskHealth {
  claimed : Z; succeeded : Z; failed_count : Z; retried : Z; workersRunning : Z; schedulerRunning : bool;
  lastSchedulerTickAt : option string; lastSchedulerRecovered : Z; lastWorkerError : option string;
  schedulerEnabled : bool; internalWorkersEnabled : bool; workersConfigured : Z }.

Record runtime_state (W : Type) := mkRuntime { rt_db : task_db task_tables; rt_world : W; rt_health : task_health }.
Arguments mkRuntime {W}. Arguments rt_db {W}. Arguments rt_world {W}. Arguments rt_health {W}.

(** What lies outside: the clock in microseconds, fresh identifiers, the memory
    service and the remote services. *)
Class OuterServices (W : Type) := {
  clock_us : W -> Z;
  new_id : W -> W * string;
  outer_write : MemoryWrite -> ST W json;
  outer_search : MemorySearch -> ST W dict;
  outer_status : ST W dict;
  outer_post : string -> dict -> ST W unit;
  outer_http : string -> string -> json -> list (string * string) -> ST W http_response }.

Section runtime.
Context {W : Type} `{OuterServices W}.
Variable C : task_config.
Variable X : exec_config.
Abbreviation runtime := (runtime_state W).

Definition in_db {A} (m : ST (task_db task_tables) A) : ST runtime A := fun s =>
  let '(db, r) := m (rt_db s) in (mkRuntime db (rt_world s) (rt_health s), r).
Definition in_world {A} (m : ST W A) : ST runtime A := fun s =>
  let '(w, r) := m (rt_world s) in (mkRuntime (rt_db s) w (rt_health s), r).
Definition now : ST runtime Z := fun s => (s, Ok (clock_us (rt_world s))).
Definition on_health (f : task_health -> task_health) : ST runtime unit :=
  st_modify (fun s => mkRuntime (rt_db s) (rt_world s) (f (rt_health s))).

Definition transaction {A} (fn : task_tables -> result (task_tables * A)) : ST runtime A :=
  in_db (_task_db_exec (TASK_DB_LOCK_RETRIES X) fn).

(** A query. *)
Definition query {A} (f : task_tables -> A) : ST runtime A := transaction (fun T => Ok (T, f T)).


(** [task = await _task_db_exec(...)], then the outcome of a task that ended is
    written to the memory; a failure of that is suppressed. *)
Definition write_outcome (ended : task -> bool) (message : option string) (metadata : option dict) (t : option task) : ST runtime (option task) :=
  match t with
  | Some u =>
      (if ended u then
         st_try (_record_task_outcome_memory X (fun w => in_world (outer_write w)) u message metadata) (fun _ => st_ret tt)
       else st_ret tt) ;;;
      st_ret t
  | None => st_ret t
  end.

(** [update_task_status]: the status and the time are checked before the
    transaction. *)
Definition update_status (id status : string) (message : option string) (metadata : option dict) : ST runtime (option task) :=
  now_ <- now ;;
  match parse_task_status (lower (strip status)) with
  | None => st_lift (raise422 ("invalid task status '" +:+ status +:+ "'"))
  | Some s =>
      st_lift (run_after_override metadata) ;;;
      t <- transaction (update_task_status now_ id status message metadata) ;;
      write_outcome (fun _ => terminal s) message metadata t
  end.

(** [requeue_task_for_retry] *)
Definition retry_later (id error : string) (worker : string) : ST runtime (option task) :=
  now_ <- now ;;
  t <- transaction (requeue_task_for_retry C now_ id error (Some worker)) ;;
  write_outcome (fun u => bool_decide (t_status u = TFailed)) (Some "Task failed after retries")
    (Some [("error", JStr (take 2000 (str_or error "task execution failed")))]) t.

Definition claim (worker : string) : ST runtime (option task) :=
  now_ <- now ;; in_db (claim_next_task C (TASK_DB_LOCK_RETRIES X) now_ (Some worker)).

(** [create_task_record]: the payload is checked before the transaction. *)
Definition create (title : string) (project agent : option string) (priority : Z) (payload : dict) (run_after : option string)
    (max_attempts : Z) : ST runtime task :=
  now_ <- now ;;
  st_lift (new_task C now_ "" title project agent priority (Some (JObj payload)) run_after (Some max_attempts)) ;;;
  id <- in_world (fun w => let '(w', id) := new_id w in (w', Ok id)) ;;
  transaction (create_task_record C now_ id title project agent priority (Some (JObj payload)) run_after (Some max_attempts)).

(** The row of an event; its key is its place in the table. *)
Fixpoint numbered {A} (n : Z) (l : list A) : list (Z * A) :=
  match l with [] => [] | x :: l' => (n, x) :: numbered (n + 1) l' end.
Definition event_row (ne : Z * task_event) : dict :=
  let '(n, e) := ne in
  [("id", JInt n); ("task_id", JStr (te_task e)); ("timestamp", JStr (te_timestamp e)); ("status", JStr (te_status e));
   ("message", jopt (te_message e)); ("metadata", opt_json (te_metadata e))].
Definition event_rows (id : string) (T : task_tables) : list dict :=
  map event_row (rev (List.filter (fun ne => te_task (snd ne) =s id) (numbered 1 (task_events T)))).

Definition health_json (h : task_health) : dict :=
  [("schedulerEnabled", JBool (schedulerEnabled h)); ("schedulerRunning", JBool (schedulerRunning h));
   ("internalWorkersEnabled", JBool (internalWorkersEnabled h)); ("workersConfigured", JInt (workersConfigured h));
   ("workersRunning", JInt (workersRunning h)); ("lastSchedulerTickAt", jopt (lastSchedulerTickAt h));
   ("lastSchedulerRecovered", JInt (lastSchedulerRecovered h)); ("lastWorkerError", jopt (lastWorkerError h));
   ("claimed", JInt (claimed h)); ("succeeded", JInt (succeeded h)); ("failed", JInt (failed_count h)); ("retried", JInt (retried h))].

Definition runtime_snapshot : ST runtime dict := fun s =>
  let n := clock_us (rt_world s) in
  (sn <- query (get_task_runtime_snapshot n) ;;
   st_ret (health_json (rt_health s)
     ++ [("queueReady", JInt (queueReady sn)); ("running", JInt (running sn)); ("deadletter", JInt (deadletter sn));
         ("oldestPendingRunAfter", jopt (oldestPendingRunAfter sn));
         ("byStatus", JObj (map (fun kv => (fst kv, JInt (snd kv))) (byStatus sn))); ("timestamp", JStr (_task_iso_now n))])) s.

(** The services of the commands, on the task database. *)
#[export] Instance runtime_services : CommandServices runtime := {|
  now_millis := fun s => (s, Ok (clock_us (rt_world s) / 1000));
  write_op w := in_world (outer_write w);
  search_op q := in_world (outer_search q);
  status_op := in_world outer_status;
  create_task_op := create;
  get_task_op id := query (get_task_record id);
  get_events_op id := query (event_rows id);
  approve_task_op id approver note := n <- now ;; transaction (approve_task_record n id approver note);
  replay_task_op id actor note reset := n <- now ;; transaction (replay_task_record n id actor note reset);
  update_task_op := update_status;
  list_tasks_op status project agent limit := query (list_task_records status project agent limit);
  deadletter_op project limit := query (list_deadletter_task_records project limit);
  runtime_op := runtime_snapshot;
  post_op k d := in_world (outer_post k d) |}.

#[export] Instance runtime_http : HttpClient runtime := fun m url b h => in_world (outer_http m url b h).

(** ** Workers *)

Variable M : messaging_config.
Variable int_of_float : string -> result Z.
Variable py_float : json -> result json.

Definition count_claimed (h : task_health) : task_health :=
  mkTaskHealth (claimed h + 1) (succeeded h) (failed_count h) (retried h) (workersRunning h) (schedulerRunning h)
    (lastSchedulerTickAt h) (lastSchedulerRecovered h) (lastWorkerError h) (schedulerEnabled h) (internalWorkersEnabled h) (workersConfigured h).
Definition count_succeeded (h : task_health) : task_health :=
  mkTaskHealth (claimed h) (succeeded h + 1) (failed_count h) (retried h) (workersRunning h) (schedulerRunning h)
    (lastSchedulerTickAt h) (lastSchedulerRecovered h) (lastWorkerError h) (schedulerEnabled h) (internalWorkersEnabled h) (workersConfigured h).
Definition count_failed (h : task_health) : task_health :=
  mkTaskHealth (claimed h) (succeeded h) (failed_count h + 1) (retried h) (workersRunning h) (schedulerRunning h)
    (lastSchedulerTickAt h) (lastSchedulerRecovered h) (lastWorkerError h) (schedulerEnabled h) (internalWorkersEnabled h) (workersConfigured h).
Definition count_retried (h : task_health) : task_health :=
  mkTaskHealth (claimed h) (succeeded h) (failed_count h) (retried h + 1) (workersRunning h) (schedulerRunning h)
    (lastSchedulerTickAt h) (lastSchedulerRecovered h) (lastWorkerError h) (schedulerEnabled h) (internalWorkersEnabled h) (workersConfigured h).
Definition set_workers (f : Z -> Z) (h : task_health) : task_health :=
  mkTaskHealth (claimed h) (succeeded h) (failed_count h) (retried h) (f (workersRunning h)) (schedulerRunning h)
    (lastSchedulerTickAt h) (lastSchedulerRecovered h) (lastWorkerError h) (schedulerEnabled h) (internalWorkersEnabled h) (workersConfigured h).
Definition set_error (e : exn) (h : task_health) : task_health :=
  mkTaskHealth (claimed h) (succeeded h) (failed_count h) (retried h) (workersRunning h) (schedulerRunning h)
    (lastSchedulerTickAt h) (lastSchedulerRecovered h) (Some (take 300 (exn_str e))) (schedulerEnabled h) (internalWorkersEnabled h)
    (workersConfigured h).
Definition set_scheduler (b : bool) (h : task_health) : task_health :=
  mkTaskHealth (claimed h) (succeeded h) (failed_count h) (retried h) (workersRunning h) b
    (lastSchedulerTickAt h) (lastSchedulerRecovered h) (lastWorkerError h) (schedulerEnabled h) (internalWorkersEnabled h) (workersConfigured h).
Definition set_tick (at_ : string) (recovered : Z) (h : task_health) : task_health :=
  mkTaskHealth (claimed h) (succeeded h) (failed_count h) (retried h) (workersRunning h) (schedulerRunning h)
    (Some at_) recovered (lastWorkerError h) (schedulerEnabled h) (internalWorkersEnabled h) (workersConfigured h).

Definition is_cancelled (e : exn) : bool := match e with OtherError "CancelledError" _ => true | _ => false end.

(** The task is executed and reported. *)
Definition execute_claimed (worker_name : string) (t : task) : ST runtime unit :=
  on_health count_claimed ;;;
  result <- _execute_task_action C M X int_of_float py_float t worker_name ;;
  update_status (t_id t) "succeeded" (Some "Task executed successfully")
    (Some [("worker", JStr worker_name); ("result", JObj result)]) ;;;
  on_health count_succeeded.

(** [except Exception as exc]: [task] is what had been claimed. *)
Definition handle_failure (worker_name : string) (t : option task) (exc : exn) : ST runtime unit :=
  if is_cancelled exc then st_raise exc
  else
    on_health (set_error exc) ;;;
    match t with
    | Some t =>
        if truthy (t_id t) then
          retried <- retry_later (t_id t) (exn_str exc) worker_name ;;
          match retried with
          | Some u => on_health (if bool_decide (t_status u = Queued) then count_retried else count_failed)
          | None => on_health count_failed
          end
        else st_ret tt
    | None => st_ret tt
    end.

(** One round of the loop; an exception ends the loop. *)
Definition worker_round (worker_name : string) : ST runtime unit := fun s =>
  match claim worker_name s with
  | (s1, Raise e) => handle_failure worker_name None e s1
  | (s1, Ok None) => (s1, Ok tt)
  | (s1, Ok (Some t)) => st_try (execute_claimed worker_name t) (handle_failure worker_name (Some t)) s1
  end.

Fixpoint rounds (n : nat) (m : ST runtime unit) : ST runtime unit :=
  match n with O => st_ret tt | Datatypes.S n' => m ;;; rounds n' m end.

(** [n] rounds of a worker, until it is cancelled or a round raises. *)
Definition _agent_task_worker (worker_index : Z) (n : nat) : ST runtime unit :=
  let worker_name := "internal-worker-" +:+ str_of_Z worker_index in
  on_health (set_workers (fun k => k + 1)) ;;;
  st_finally (rounds n (worker_round worker_name))
    (fun s => mkRuntime (rt_db s) (rt_world s) (set_workers (fun k => Z.max 0 (k - 1)) (rt_health s))).

(** One round of the scheduler. *)
Definition scheduler_round : ST runtime unit :=
  n <- now ;;
  st_try (recovered <- in_db (recover_expired_task_leases (TASK_DB_LOCK_RETRIES X) n 200) ;;
          m <- now ;; on_health (set_tick (_task_iso_now m) recovered))
    (fun exc => if is_cancelled exc then st_raise exc else on_health (set_error exc)).

Definition _task_scheduler_worker (n : nat) : ST runtime unit :=
  on_health (set_scheduler true) ;;;
  st_finally (rounds n scheduler_round)
    (fun s => mkRuntime (rt_db s) (rt_world s) (set_scheduler false (rt_health s))).
End runtime.
