(* ===== verification/Feedback.v ===== *)
(** * Feedback and preferences

    The table [feedback] ([create_feedback_record], [list_feedback_records]), the
    preferences drawn from it ([build_preference_context]) and the endpoints on
    both.  The JSON columns [tags] and [metadata] hold decoded values, as in
    [Tasks]. *)

From S2P Require Import Prelude PyStr PyTime Json JsonText Paths Policy TaskDb Ranking SourcePolicy.
Open Scope Z_scope.

Record feedback := mkFeedback {
  f_id : string; f_created_at : string; f_project : option string; f_user_id : option string; f_source : string; f_task_id : option string;
  f_rating : option Z; f_sentiment : option string; f_tags : option (list string); f_content : string; f_topic_path : option string;
  f_metadata : option dict }.

Section feedback.
(** [FEEDBACK_MAX_CONTENT], [PREFERENCE_MAX_ENTRIES], [LEARNING_LOOP_ENABLED] and [TASK_DB_LOCK_RETRIES]. *)
Variables (FEEDBACK_MAX_CONTENT : nat) (PREFERENCE_MAX_ENTRIES : Z) (LEARNING_LOOP_ENABLED : bool) (TASK_DB_LOCK_RETRIES : Z).

Definition feedback_iso_now (now : Z) : string := _utc_iso_from_unix now.

(** [id TEXT PRIMARY KEY] *)
Definition insert_feedback (now : Z) (id : string) (project user_id source task_id : option string) (rating : option Z)
    (sentiment : option string) (tags : option (list string)) (content topic_path : option string) (metadata : option dict)
    (T : list feedback) : result (list feedback * feedback) :=
  let safe_content := take FEEDBACK_MAX_CONTENT (strip (opt_str content)) in
  let safe_source := lower (str_or (opt_str source) "user") in
  let f := mkFeedback id (feedback_iso_now now) project user_id safe_source task_id rating sentiment tags safe_content topic_path metadata in
  if existsb (fun f' => f_id f' =s id) T then Raise (IntegrityError "UNIQUE constraint failed: feedback.id") else Ok (T ++ [f], f).

Definition create_feedback_record now id project user_id source task_id rating sentiment tags content topic_path metadata
  : ST (task_db (list feedback)) feedback :=
  _task_db_exec TASK_DB_LOCK_RETRIES (insert_feedback now id project user_id source task_id rating sentiment tags content topic_path metadata).

Definition opt_matches (want have : option string) : bool :=
  negb (truthy (opt_str want)) || bool_decide (have = want).

Definition feedback_matches (project user_id source : option string) (f : feedback) : bool :=
  opt_matches project (f_project f) && opt_matches user_id (f_user_id f)
  && (negb (truthy (opt_str source)) || (f_source f =s lower (opt_str source))).

(** [ORDER BY created_at DESC]; rows of the same instant come in the order of
    the table. *)
Definition newer (a b : feedback) : bool := str_leb (f_created_at b) (f_created_at a).

Definition select_feedback (project user_id source : option string) (limit : Z) (T : list feedback) : list feedback :=
  firstn (Z.to_nat (Z.max 1 (Z.min limit 200))) (sort_by newer (List.filter (feedback_matches project user_id source) T)).

Definition list_feedback_records project user_id source limit : ST (task_db (list feedback)) (list feedback) :=
  _task_db_exec TASK_DB_LOCK_RETRIES (fun T => Ok (T, select_feedback project user_id source limit T)).

(** ** Preferences *)

Definition positive_words : list string := ["positive"; "liked"; "good"].
Definition negative_words : list string := ["negative"; "disliked"; "bad"].

(** [content or entry.get("metadata") or ""], as the f-string prints it. *)
Definition feedback_line (f : feedback) : string :=
  let content := strip (f_content f) in
  if truthy content then content else match f_metadata f with Some ((_ :: _) as d) => jrepr (JObj d) | _ => "" end.

Definition rendered (f : feedback) : string :=
  let tag_str := match f_tags f with Some ((_ :: _) as tags) => " [tags: " +:+ join ", " tags +:+ "]" | _ => "" end in
  let topic_str := if truthy (opt_str (f_topic_path f)) then " [topic: " +:+ opt_str (f_topic_path f) +:+ "]" else "" in
  feedback_line f +:+ " (source: " +:+ str_or (f_source f) "user" +:+ ")" +:+ topic_str +:+ tag_str.

Inductive opinion := Liked | Disliked | Noted.

(** The rating decides unless it is 3 or missing. *)
Definition opinion_of (f : feedback) : opinion :=
  let by_sentiment :=
    let s := lower (opt_str (f_sentiment f)) in
    if mem_str s positive_words then Liked else if mem_str s negative_words then Disliked else Noted in
  match f_rating f with
  | Some r => if 4 <=? r then Liked else if r <=? 2 then Disliked else by_sentiment
  | None => by_sentiment
  end.

Record preferences := mkPreferences {
  pref_positive : list string; pref_negative : list string; pref_notes : list string; pref_context : string; pref_total : Z; pref_updated_at : string }.

Definition add_opinion (acc : list string * list string * list string) (f : feedback) : list string * list string * list string :=
  let '(positives, negatives, notes) := acc in
  if negb (truthy (feedback_line f)) then acc
  else match opinion_of f with
       | Liked => (positives ++ [rendered f], negatives, notes)
       | Disliked => (positives, negatives ++ [rendered f], notes)
       | Noted => (positives, negatives, notes ++ [rendered f])
       end.

Definition context_block (title : string) (items : list string) : list string :=
  match items with [] => [] | _ => title :: map (fun item => "- " +:+ item) items end.

Definition build_preference_context (now : Z) (records : list feedback) : preferences :=
  let '(positives, negatives, notes) := fold_left add_opinion records ([], [], []) in
  mkPreferences positives negatives notes
    (strip (join nl (context_block "Positive preferences:" positives ++ context_block "Avoid or dislike:" negatives ++ context_block "Notes:" notes)))
    (Z.of_nat (length records)) (feedback_iso_now now).

Definition preferences_json (p : preferences) : dict :=
  [("positive", JList (map JStr (pref_positive p))); ("negative", JList (map JStr (pref_negative p))); ("notes", JList (map JStr (pref_notes p)));
   ("context", JStr (pref_context p)); ("total", JInt (pref_total p)); ("updated_at", JStr (pref_updated_at p))].

(** ** Endpoints *)

Definition feedback_json (f : feedback) : dict :=
  let opt o := match o with Some s => JStr s | None => JNull end in
  [("id", JStr (f_id f)); ("created_at", JStr (f_created_at f)); ("project", opt (f_project f)); ("user_id", opt (f_user_id f));
   ("source", JStr (f_source f)); ("task_id", opt (f_task_id f)); ("rating", match f_rating f with Some r => JInt r | None => JNull end);
   ("sentiment", opt (f_sentiment f)); ("tags", match f_tags f with Some l => JList (map JStr l) | None => JNull end);
   ("content", JStr (f_content f)); ("topic_path", opt (f_topic_path f));
   ("metadata", match f_metadata f with Some d => JObj d | None => JNull end)].

Record feedback_in := mkFeedbackIn {
  fi_project : option string; fi_user_id : option string; fi_source : option string; fi_task_id : option string; fi_rating : option Z;
  fi_sentiment : option string; fi_tags : option (list string); fi_content : option string; fi_topic_path : option string;
  fi_metadata : option dict }.

(** The database and the other services; [call_memory_tool] and
    [json.dumps(record, indent=2)] are arguments. *)
Section endpoints.
Context {W : Type}.
Variable call_memory_tool : string -> dict -> ST W json.
Variable dumps_indented : json -> string.

Record feedback_state := mkFeedbackState { fs_db : task_db (list feedback); fs_world : W }.

Definition on_db {A} (m : ST (task_db (list feedback)) A) : ST feedback_state A := fun s =>
  let '(db, r) := m (fs_db s) in (mkFeedbackState db (fs_world s), r).
Definition on_world {A} (m : ST W A) : ST feedback_state A := fun s =>
  let '(w, r) := m (fs_world s) in (mkFeedbackState (fs_db s) w, r).

Definition create_feedback (now : Z) (id : string) (p : feedback_in) : ST feedback_state feedback :=
  topic_path <- (if truthy (opt_str (fi_topic_path p)) then st_lift (let! t := normalize_topic_path (opt_str (fi_topic_path p)) in Ok (Some t))
                 else st_ret None) ;;
  record <- on_db (create_feedback_record now id (fi_project p) (fi_user_id p) (fi_source p) (fi_task_id p) (fi_rating p) (fi_sentiment p)
                     (fi_tags p) (fi_content p) topic_path (fi_metadata p)) ;;
  if LEARNING_LOOP_ENABLED && truthy (opt_str (f_project record)) && truthy (f_content record) then
    on_world (call_memory_tool "memory_bank_write"
      [("projectName", JStr (opt_str (f_project record))); ("fileName", JStr ("feedback/" +:+ f_id record +:+ ".md"));
       ("content", JStr (dumps_indented (JObj (feedback_json record))))]) ;;;
    st_ret record
  else st_ret record.

(** [None] when learning is disabled. *)
Definition get_preferences (now : Z) (project user_id : option string) (limit : Z) : ST feedback_state (option preferences) :=
  if negb LEARNING_LOOP_ENABLED then st_ret None
  else records <- on_db (list_feedback_records project user_id None limit) ;; st_ret (Some (build_preference_context now records)).
End endpoints.

(** ** Theorems *)

Definition has_line (f : feedback) : bool := truthy (feedback_line f).
Definition of_opinion (o : opinion) (f : feedback) : bool :=
  has_line f && match o, opinion_of f with Liked, Liked | Disliked, Disliked | Noted, Noted => true | _, _ => false end.
Definition opinions (o : opinion) (records : list feedback) : list string := map rendered (List.filter (of_opinion o) records).

Lemma fold_opinions records : forall p n t, fold_left add_opinion records (p, n, t) =
  (p ++ opinions Liked records, n ++ opinions Disliked records, t ++ opinions Noted records).
Proof.
  induction records as [|f records IH]; intros p n t; cbn [fold_left]; [by rewrite !app_nil_r|].
  unfold opinions, of_opinion, has_line. cbn [List.filter map add_opinion].
  destruct (truthy (feedback_line f)) eqn:Et; cbn [negb andb]; [|by rewrite IH].
  destruct (opinion_of f); rewrite IH; cbn [map]; by rewrite <- app_assoc.
Qed.

(** Preferences partition the feedback that says something: the positive,
    negative and other notes are, each in the order of the records, the rendered
    records of that opinion, and every record with a text or metadata is in
    exactly one of the three. *)
Theorem preferences_partition now records :
  let p := build_preference_context now records in
  pref_positive p = opinions Liked records /\ pref_negative p = opinions Disliked records /\ pref_notes p = opinions Noted records /\
  (length (pref_positive p) + length (pref_negative p) + length (pref_notes p))%nat = length (List.filter has_line records) /\
  pref_total p = Z.of_nat (length records).
Proof.
  unfold build_preference_context. rewrite fold_opinions. cbn. repeat split. unfold opinions. rewrite !length_map.
  induction records as [|f records IH]; [done|]. unfold of_opinion in *. cbn [List.filter]. destruct (has_line f); cbn [andb]; [|exact IH].
  destruct (opinion_of f); cbn [length]; lia.
Qed.

Lemma newer_total a b : newer a b = true \/ newer b a = true.
Proof. apply str_leb_total. Qed.
Lemma newer_trans a b c : newer a b = true -> newer b c = true -> newer a c = true.
Proof. unfold newer. intros H1 H2. by eapply str_leb_trans. Qed.

(** The list of feedback is the newest page of what matches: every listed
    record matches the request, the page has at most 200 records and is full
    unless everything that matches is on it, and no record left out is newer
    than a listed one. *)
Theorem feedback_page project user_id source limit T :
  let page := select_feedback project user_id source limit T in
  exists rest, Permutation (List.filter (feedback_matches project user_id source) T) (page ++ rest) /\
    StronglySorted (fun a b => newer a b = true) (page ++ rest) /\
    Z.of_nat (length page) <= 200 /\ (rest <> [] -> Z.of_nat (length page) = Z.max 1 (Z.min limit 200)).
Proof.
  cbv zeta. unfold select_feedback. set (n := Z.to_nat _). set (l := sort_by newer _). exists (skipn n l).
  rewrite firstn_skipn. split; [symmetry; apply sort_by_perm|].
  split; [apply sort_by_sorted; [apply newer_total|apply newer_trans]|]. rewrite length_firstn. split; [lia|].
  intros Hr. destruct (Nat.le_gt_cases (length l) n) as [Hl|Hl]; [by rewrite skipn_all2 in Hr|]. lia.
Qed.
End feedback.
