(* ===== verification/Profiles.v ===== *)
(** * Agent memory profiles

    The retrieval defaults of agents: normalisation of a profile, the profiles in
    memory and in their file, and the endpoints that list, read, change and
    delete them.  A profile is a dict, as in the source. *)

From S2P Require Import Prelude PyStr PyTime Json JsonText Paths Policy WriteBuffer WriteBufferFacts OutboxMaint Ranking RankingFacts SourcePolicy Recall Messaging TaskExec.
From Stdlib Require Import Ascii QArith Qminmax.
Open Scope Z_scope.

Definition _normalize_agent_memory_profile_id (agent_id : string) : result string :=
  let text := lower (strip agent_id) in
  if negb (truthy text) then Ok "default"
  else let! normalized := normalize_topic_path (replace_char " " "_" text) in Ok (str_or normalized "default").

(** [d.update(d')] *)
Definition dupdate (d d' : dict) : dict := fold_left (fun acc kv => dset (fst kv) (snd kv) acc) d' d.

Section profiles.
Variable G : retrieval_config.
Variable R : recall_config.
(** [float(text)], for a finite number, and the text of a float. *)
Variables (parse_float : string -> option Q) (repr_float : Q -> string).

Definition to_float (j : json) : result Q :=
  match j with
  | JInt z => Ok (qz z)
  | JBool b => Ok (if b then 1%Q else 0%Q)
  | JFloat r | JStr r => match parse_float r with Some q => Ok q | None => Raise (OtherError "ValueError" "could not convert string to float") end
  | _ => Raise (OtherError "TypeError" "float() argument must be a string or a real number")
  end.

(** [int] truncates. *)
Definition to_int (j : json) : result Z :=
  match j with
  | JInt z => Ok z
  | JBool b => Ok (if b then 1 else 0)
  | JFloat r => match parse_float r with Some q => Ok (Z.quot (Qnum q) (QDen q)) | None => Raise (OtherError "ValueError" "cannot convert float to integer") end
  | JStr r => match py_int r with Some z => Ok z | None => Raise (OtherError "ValueError" "invalid literal for int()") end
  | _ => Raise (OtherError "TypeError" "int() argument must be a string or a real number")
  end.

Definition JQ (q : Q) : json := JFloat (repr_float q).

Definition profile_dict (mode : string) (sources : list string) (weights : list (string * Q)) (project : option string)
    (prefixes : list string) (auto_escalate query_expansion : bool) (min_results : Z) (min_top_score : Q) : dict :=
  [("retrieval_mode", JStr mode); ("sources", JList (map JStr sources)); ("source_weights", JObj (map (fun kv => (fst kv, JQ (snd kv))) weights));
   ("default_project", match project with Some p => JStr p | None => JNull end); ("topic_prefixes", JList (map JStr prefixes));
   ("auto_escalate", JBool auto_escalate); ("query_expansion", JBool query_expansion); ("escalate_min_results", JInt min_results);
   ("escalate_min_top_score", JQ min_top_score)].

Definition default_sources : list string := source_csv (RETRIEVAL_SOURCES_ENV G) [RETRIEVAL_SOURCE_QDRANT].

Definition _default_agent_memory_profile : dict :=
  profile_dict (RETRIEVAL_MODE_DEFAULT G) default_sources [] None [] true true (AGENT_RECALL_ESCALATE_MIN_RESULTS R)
    (AGENT_RECALL_ESCALATE_MIN_TOP_SCORE R).

(** [data.get(k, default)] *)
Definition dget_or (d : dict) (k : string) (default : json) : json := match dlookup k d with Some v => v | None => default end.

Definition profile_sources (raw : json) : list string :=
  match raw with
  | JList l => _normalize_retrieval_sources (RETRIEVAL_SOURCES_ENV G) (List.filter (fun s => truthy (strip s)) (map jstr l))
  | _ => default_sources
  end.

Definition profile_weights (raw : json) : list (string * Q) :=
  let custom := match raw with
                | JObj d => map (fun kv => (fst kv, match to_float (snd kv) with Ok q => Some q | Raise _ => None end)) d
                | _ => []
                end in
  List.filter (fun kv => mem_str (fst kv) RETRIEVAL_SOURCES) (_normalize_retrieval_weights custom).

Fixpoint add_prefixes (values : list json) (prefixes : list string) : result (list string) :=
  match values with
  | [] => Ok prefixes
  | v :: vs =>
      let! normalized := normalize_topic_path (jstr_or_empty v) in
      add_prefixes vs (if truthy normalized && negb (mem_str normalized prefixes) then prefixes ++ [normalized] else prefixes)
  end.

Definition profile_prefixes (raw : json) : result (list string) :=
  match raw with JList l => add_prefixes l [] | _ => Ok [] end.

Definition _normalize_agent_memory_profile_payload (data : dict) : result dict :=
  let base := _default_agent_memory_profile in
  let retrieval_mode := _normalize_retrieval_mode G (jstr_or_empty (dget data "retrieval_mode")) in
  let! topic_prefixes := profile_prefixes (dget data "topic_prefixes") in
  let default_project_raw := strip (jstr_or_empty (dget data "default_project")) in
  let! min_results := to_int (dget_or data "escalate_min_results" (dget base "escalate_min_results")) in
  let! min_top_score := to_float (dget_or data "escalate_min_top_score" (dget base "escalate_min_top_score")) in
  Ok (profile_dict (str_or retrieval_mode (RETRIEVAL_MODE_DEFAULT G)) (profile_sources (dget data "sources"))
        (profile_weights (dget data "source_weights")) (if truthy default_project_raw then Some default_project_raw else None) topic_prefixes
        (jtruthy (dget_or data "auto_escalate" (JBool true))) (jtruthy (dget_or data "query_expansion" (JBool true)))
        (Z.max 1 min_results) (Qmin 1 (Qmax 0 min_top_score))).

(** [override] is [None] when it is not a dict. *)
Definition _merge_agent_memory_profiles (base : dict) (override : option dict) : result dict :=
  match override with
  | None => Ok base
  | Some o => let! normalized := _normalize_agent_memory_profile_payload o in Ok (dupdate base normalized)
  end.

Abbreviation profiles := (list (string * dict)).

(** [agent_memory_profiles.get("default") or _default_agent_memory_profile()] *)
Definition default_profile (P : profiles) : dict :=
  match clookup "default" P with Some ((_ :: _) as d) => d | _ => _default_agent_memory_profile end.

(** An exception ends the loop; what was loaded stays. *)
Fixpoint load_candidates (candidates : dict) (P : profiles) : profiles :=
  match candidates with
  | [] => P
  | (raw_agent_id, raw_profile) :: rest =>
      match _normalize_agent_memory_profile_id raw_agent_id with
      | Raise _ => P
      | Ok agent_id =>
          match raw_profile with
          | JObj raw =>
              let base := if agent_id =s "default" then _default_agent_memory_profile else default_profile P in
              match _merge_agent_memory_profiles base (Some raw) with
              | Ok p => load_candidates rest (cset agent_id p P)
              | Raise _ => P
              end
          | _ => load_candidates rest P
          end
      end
  end.

(** [file]: the value in the file, [None] when there is no file or it is not
    JSON. *)
Definition _load_agent_memory_profiles (file : option json) : profiles :=
  let P := [("default", _default_agent_memory_profile)] in
  match file with
  | Some (JObj payload) => load_candidates (match dget payload "profiles" with JObj c => c | _ => payload end) P
  | _ => P
  end.

Definition by_key (a b : string * dict) : bool := str_leb (fst a) (fst b).

(** The value written to the file. *)
Definition _persist_agent_memory_profiles (P : profiles) : json :=
  sort_json (JObj [("profiles", JObj (map (fun kv => (fst kv, JObj (snd kv))) (sort_by by_key P)))]).

Definition _resolve_agent_memory_profile (agent_id : string) (P : profiles) : result dict :=
  let! normalized := _normalize_agent_memory_profile_id agent_id in
  if negb (normalized =s "default") then _merge_agent_memory_profiles (default_profile P) (clookup normalized P)
  else Ok (default_profile P).

(** ** Endpoints *)

(** The profiles and their file; [write_ok] says whether the file can be
    written, an error is logged only. *)
Record profile_state := mkProfiles { memory : profiles; file : option json }.

Section endpoints.
Variable write_ok : bool.

Definition persist (s : profile_state) : profile_state :=
  mkProfiles (memory s) (if write_ok then Some (_persist_agent_memory_profiles (memory s)) else file s).

Definition list_agent_memory_profiles (s : profile_state) : profiles * Z :=
  (sort_by by_key (memory s), Z.of_nat (length (memory s))).

Definition get_agent_memory_profile (agent_id : string) : ST profile_state (string * bool * dict) := fun s =>
  (s, let! normalized := _normalize_agent_memory_profile_id agent_id in
      let! resolved := _resolve_agent_memory_profile normalized (memory s) in
      Ok (normalized, match clookup normalized (memory s) with None => normalized =s "default" | Some _ => true end, resolved)).

(** [updates]: the fields that the request sets. *)
Definition upsert_agent_memory_profile (agent_id : string) (updates : dict) : ST profile_state (string * dict) := fun s =>
  match (let! normalized := _normalize_agent_memory_profile_id agent_id in
         let! current := match clookup normalized (memory s) with
                         | Some d => Ok d
                         | None => _resolve_agent_memory_profile normalized (memory s)
                         end in
         let! profile := _normalize_agent_memory_profile_payload (dupdate current updates) in
         Ok (normalized, profile)) with
  | Ok (normalized, profile) => (persist (mkProfiles (cset normalized profile (memory s)) (file s)), Ok (normalized, profile))
  | Raise e => (s, Raise e)
  end.

Definition delete_agent_memory_profile (agent_id : string) : ST profile_state string := fun s =>
  match _normalize_agent_memory_profile_id agent_id with
  | Raise e => (s, Raise e)
  | Ok normalized =>
      if normalized =s "default" then (s, Raise (HTTPException 400 "default profile cannot be deleted"))
      else match clookup normalized (memory s) with
           | None => (s, Raise (HTTPException 404 "agent profile not found"))
           | Some _ => (persist (mkProfiles (List.filter (fun kv => negb (fst kv =s normalized)) (memory s)) (file s)), Ok normalized)
           end
  end.
End endpoints.
End profiles.
