(* ===== verification/ProfilesFacts.v ===== *)
(** * Agent memory profiles: theorems

    Every stored profile is well formed whatever was sent or loaded, a profile
    is a fixed point of normalisation, and a profile of an agent inherits nothing
    from the default profile. *)

From S2P Require Import Prelude PyStr PyTime Json JsonText Paths Policy WriteBuffer WriteBufferFacts OutboxMaint Ranking RankingFacts SourcePolicy SourcePolicyFacts Recall Messaging TaskExec Profiles.
From Stdlib Require Import Ascii QArith Qminmax Lqa.
Open Scope Z_scope.

Section facts.
Variable G : retrieval_config.
Variable R : recall_config.
Variables (parse_float : string -> option Q) (repr_float : Q -> string).

Abbreviation dict_of := (profile_dict repr_float).
Abbreviation normalize := (_normalize_agent_memory_profile_payload G R parse_float repr_float).

Definition known (s : string) : Prop := In s RETRIEVAL_SOURCES.

(** The fields of a well-formed profile. *)
Record fields_ok (mode : string) (sources : list string) (weights : list (string * Q)) (prefixes : list string) (min_results : Z)
    (min_top_score : Q) : Prop := mkFieldsOk {
  ok_mode : In mode RETRIEVAL_MODES;
  ok_some_source : sources <> [];
  ok_sources : List.Forall known sources /\ List.NoDup sources;
  ok_weights : List.Forall (fun kv => known (fst kv) /\ (0 <= snd kv <= 2)%Q) weights /\ List.NoDup (map fst weights);
  ok_prefixes : List.Forall (fun p => p <> "") prefixes /\ List.NoDup prefixes;
  ok_min_results : 1 <= min_results;
  ok_min_score : (0 <= min_top_score <= 1)%Q }.

Definition profile_ok (d : dict) : Prop := exists mode sources weights project prefixes a q min_results min_top_score,
  d = dict_of mode sources weights project prefixes a q min_results min_top_score /\ fields_ok mode sources weights prefixes min_results min_top_score.

(** The settings of the defaults, as the program bounds them. *)
Definition defaults_ok : Prop := 1 <= AGENT_RECALL_ESCALATE_MIN_RESULTS R /\ (0 <= AGENT_RECALL_ESCALATE_MIN_TOP_SCORE R <= 1)%Q.

(** ** Fields *)

Lemma keep_known l : List.Forall known (keep_new (fun source => mem_str source RETRIEVAL_SOURCES) [] l) /\
  List.NoDup (keep_new (fun source => mem_str source RETRIEVAL_SOURCES) [] l).
Proof.
  split; [|apply keep_new_NoDup]. apply List.Forall_forall. intros s (_ & H & _)%keep_new_In. by apply mem_str_In.
Qed.

Lemma qdrant_ok : ["qdrant"] <> [] /\ List.Forall known ["qdrant"] /\ List.NoDup ["qdrant"].
Proof. split; [done|]. split; [constructor; [by left|constructor]|constructor; [by intros []|constructor]]. Qed.

Lemma sources_ok sources : let l := _normalize_retrieval_sources (RETRIEVAL_SOURCES_ENV G) sources in
  l <> [] /\ List.Forall known l /\ List.NoDup l.
Proof.
  cbv zeta. unfold _normalize_retrieval_sources. set (req := match sources with [] => _ | _ => _ end).
  destruct (keep_known req) as [H1 H2]. destruct (keep_new _ [] req) as [|s l]; [apply qdrant_ok|done].
Qed.

Lemma default_sources_ok : default_sources G <> [] /\ List.Forall known (default_sources G) /\ List.NoDup (default_sources G).
Proof.
  unfold default_sources, source_csv. destruct (keep_known (_normalize_lower_csv (Some (RETRIEVAL_SOURCES_ENV G)))) as [H1 H2].
  destruct (keep_new _ [] _) as [|s l]; [apply qdrant_ok|done].
Qed.

Lemma profile_sources_ok raw : profile_sources G raw <> [] /\ List.Forall known (profile_sources G raw) /\ List.NoDup (profile_sources G raw).
Proof. destruct raw; try apply default_sources_ok. apply sources_ok. Qed.

Lemma clamp2 q : (0 <= Qmax 0 (Qmin q 2) <= 2)%Q.
Proof. split; [apply Q.le_max_l|]. apply Q.max_lub; [lra|apply Q.le_min_r]. Qed.

Lemma clamp1 q : (0 <= Qmin 1 (Qmax 0 q) <= 1)%Q.
Proof. split; [|apply Q.le_min_l]. apply Q.min_glb; [lra|apply Q.le_max_l]. Qed.

Definition weights_in_range (w : list (string * Q)) : Prop :=
  List.Forall (fun kv => known (fst kv) /\ (0 <= snd kv <= 2)%Q) w /\ map fst w = map fst DEFAULT_RETRIEVAL_SOURCE_WEIGHTS.

Lemma fold_inv {A B} (P : A -> Prop) (f : A -> B -> A) l a : P a -> (forall a b, P a -> P (f a b)) -> P (fold_left f l a).
Proof. intros Ha Hf. revert a Ha. induction l; cbn; auto. Qed.

Lemma filter_keys_NoDup {A} (p : string * A -> bool) d : List.NoDup (map fst d) -> List.NoDup (map fst (List.filter p d)).
Proof.
  induction d as [|kv d IH]; cbn; [done|]. intros [Hn Hd]%NoDup_cons_iff. destruct (p kv); cbn; [|auto].
  constructor; [|auto]. intros (x & Hx & [H _]%filter_In)%in_map_iff. apply Hn. rewrite <- Hx. by apply in_map.
Qed.

Lemma cset_in_place {A} k (v : A) d : In k (map fst d) -> map fst (cset k v d) = map fst d.
Proof. intros H. rewrite cset_keys. by rewrite (proj2 (mem_str_In _ _) H). Qed.

Lemma default_weight_names k : known k <-> In k (map fst DEFAULT_RETRIEVAL_SOURCE_WEIGHTS).
Proof. unfold known. cbn. tauto. Qed.

Lemma normalized_weights custom : weights_in_range (_normalize_retrieval_weights custom).
Proof.
  unfold _normalize_retrieval_weights. apply (fold_inv weights_in_range); [|intros w [k v] Hw].
  { split; [|done]. repeat (constructor; [split; [cbn; tauto|cbn; lra]|]). constructor. }
  cbn [fst snd]. destruct (mem_str _ _) eqn:Em; cbn [negb]; [|done]. destruct v as [q|]; [|done]. apply mem_str_In in Em.
  destruct Hw as [Hf Hk]. split.
  - apply List.Forall_forall. intros kv [->|H]%cset_In; [split; [exact Em|apply clamp2]|]. rewrite List.Forall_forall in Hf. auto.
  - rewrite cset_in_place; [done|]. rewrite Hk. by apply default_weight_names.
Qed.

Lemma known_filter {A} (w : list (string * A)) : List.Forall (fun kv => known (fst kv)) w ->
  List.filter (fun kv => mem_str (fst kv) RETRIEVAL_SOURCES) w = w.
Proof. intros H. apply filter_all. rewrite List.Forall_forall in H. intros kv Hkv. by apply mem_str_In, H. Qed.

Lemma profile_weights_ok raw : weights_in_range (profile_weights parse_float raw).
Proof.
  unfold profile_weights. set (custom := match raw with JObj _ => _ | _ => _ end). pose proof (normalized_weights custom) as H.
  rewrite known_filter; [done|]. eapply List.Forall_impl; [|apply H]. by intros kv [].
Qed.

Lemma add_prefixes_ok values : forall prefixes l, add_prefixes values prefixes = Ok l ->
  List.Forall (fun p => p <> "") prefixes /\ List.NoDup prefixes -> List.Forall (fun p => p <> "") l /\ List.NoDup l.
Proof.
  induction values as [|v vs IH]; intros prefixes l; cbn [add_prefixes]; [by intros [= <-]|].
  destruct (normalize_topic_path _) as [n|e]; [|done]. intros H Hp. apply IH in H; [done|].
  destruct (truthy n && negb (mem_str n prefixes)) eqn:Eb; [|done]. apply andb_true_iff in Eb as [Hn Hm]. apply negb_true_iff, mem_str_false in Hm.
  destruct Hp as [Hf Hd]. split.
  - apply List.Forall_app. split; [done|]. constructor; [|constructor]. by intros ->.
  - apply (Permutation_NoDup (Permutation_cons_append prefixes n)). by constructor.
Qed.

(** Whatever it is given, normalisation returns a well-formed profile, with a
    weight for every source. *)
Lemma normalized_fields data d : normalize data = Ok d -> exists mode sources weights project prefixes a q min_results min_top_score,
  d = dict_of mode sources weights project prefixes a q min_results min_top_score /\
  fields_ok mode sources weights prefixes min_results min_top_score /\ weights_in_range weights /\
  (forall p, project = Some p -> p <> "" /\ strip p = p).
Proof.
  unfold _normalize_agent_memory_profile_payload. destruct (profile_prefixes _) as [prefixes|e] eqn:Ep; cbn [rbind]; [|done].
  destruct (to_int _ _) as [mr|e]; cbn [rbind]; [|done]. destruct (to_float _ _) as [ms|e]; cbn [rbind]; [|done].
  intros [= <-]. destruct (profile_sources_ok (dget data "sources")) as (H1 & H2 & H3).
  destruct (profile_weights_ok (dget data "source_weights")) as [Hw1 Hw2].
  do 9 eexists. split; [reflexivity|]. split; [constructor; try done|split; [done|]].
  - unfold str_or. assert (In (_normalize_retrieval_mode G (jstr_or_empty (dget data "retrieval_mode"))) RETRIEVAL_MODES) as Hm.
    { unfold _normalize_retrieval_mode. destruct (mem_str _ _) eqn:E; [by apply mem_str_In|cbn; tauto]. }
    destruct (truthy _) eqn:Et; [done|]. destruct Hm as [H|[H|[H|[]]]]; rewrite <- H in Et; done.
  - split; [done|]. rewrite Hw2. repeat (constructor; [cbn; intuition discriminate|]). constructor.
  - unfold profile_prefixes in Ep. destruct (dget data "topic_prefixes"); try by (injection Ep as <-; repeat constructor).
    eapply add_prefixes_ok; [done|]. repeat constructor.
  - lia.
  - apply clamp1.
  - intros p. destruct (truthy (strip _)) eqn:Et; intros [= <-]. split; [by intros Hp; rewrite Hp in Et|apply strip_strip].
Qed.

Lemma normalize_ok data p : normalize data = Ok p -> profile_ok p.
Proof. intros (? & ? & ? & ? & ? & ? & ? & ? & ? & -> & H & _)%normalized_fields. by do 9 eexists. Qed.

(** ** Merging and storing *)

Lemma dupdate_profile m s w p t a q mr ms m' s' w' p' t' a' q' mr' ms' :
  dupdate (dict_of m s w p t a q mr ms) (dict_of m' s' w' p' t' a' q' mr' ms') = dict_of m' s' w' p' t' a' q' mr' ms'.
Proof. reflexivity. Qed.

(** Merging a profile into a well-formed one keeps nothing of the latter. *)
Lemma merge_replaces base o : profile_ok base ->
  _merge_agent_memory_profiles G R parse_float repr_float base (Some o) = normalize o.
Proof.
  intros (m & s & w & p & t & a & q & mr & ms & -> & _). cbn [_merge_agent_memory_profiles]. destruct (normalize o) as [d|e] eqn:En; [|done].
  apply normalize_ok in En as (m' & s' & w' & p' & t' & a' & q' & mr' & ms' & -> & _). reflexivity.
Qed.

Lemma default_ok : defaults_ok -> profile_ok (_default_agent_memory_profile G R repr_float).
Proof.
  intros [H1 H2]. do 9 eexists. split; [reflexivity|]. destruct default_sources_ok as (Hs1 & Hs2 & Hs3).
  constructor; try done; try (split; constructor).
  unfold RETRIEVAL_MODE_DEFAULT. destruct (mem_str _ _) eqn:E; [by apply mem_str_In|cbn; tauto].
Qed.

Definition profiles_ok (P : list (string * dict)) : Prop :=
  List.Forall (fun kv => profile_ok (snd kv)) P /\ List.NoDup (map fst P) /\ In "default" (map fst P).

Lemma cset_profiles k d P : profiles_ok P -> profile_ok d -> profiles_ok (cset k d P).
Proof.
  intros (Hf & Hn & Hd) Hk. split; [|split; [by apply cset_NoDup|]].
  - apply List.Forall_forall. intros kv [->|H]%cset_In; [done|]. rewrite List.Forall_forall in Hf. auto.
  - rewrite cset_keys. destruct (mem_str _ _); [done|]. apply in_app_iff. by left.
Qed.

Lemma default_profile_ok P : defaults_ok -> profiles_ok P -> profile_ok (default_profile G R repr_float P).
Proof.
  intros Hd (Hf & _). unfold default_profile. destruct (clookup "default" P) as [[|x d]|] eqn:El; [by apply default_ok| |by apply default_ok].
  apply clookup_In in El. rewrite List.Forall_forall in Hf. by apply (Hf _ El).
Qed.

Lemma load_candidates_ok candidates : defaults_ok -> forall P, profiles_ok P ->
  profiles_ok (load_candidates G R parse_float repr_float candidates P).
Proof.
  intros Hd. induction candidates as [|[id raw] rest IH]; intros P HP; cbn [load_candidates]; [done|].
  destruct (_normalize_agent_memory_profile_id id) as [agent|e]; [|done]. destruct raw; try by apply IH.
  rewrite merge_replaces by (destruct (_ =s _); [by apply default_ok|by apply default_profile_ok]).
  destruct (normalize _) as [p|e] eqn:En; [|done]. by apply IH, cset_profiles, (normalize_ok _ _ En).
Qed.

Lemma load_ok file : defaults_ok -> profiles_ok (_load_agent_memory_profiles G R parse_float repr_float file).
Proof.
  intros Hd. assert (profiles_ok [("default", _default_agent_memory_profile G R repr_float)]) as H0.
  { split; [repeat constructor; by apply default_ok|]. split; [constructor; [by intros []|constructor]|by left]. }
  unfold _load_agent_memory_profiles. destruct file as [[]|]; try done. by apply load_candidates_ok.
Qed.

(** The profiles after a start of the program and requests to change them. *)
Inductive profiles_reachable : profile_state -> Prop :=
| pr_start f : profiles_reachable (mkProfiles (_load_agent_memory_profiles G R parse_float repr_float f) f)
| pr_upsert w id updates s : profiles_reachable s -> profiles_reachable (fst (upsert_agent_memory_profile G R parse_float repr_float w id updates s))
| pr_delete w id s : profiles_reachable s -> profiles_reachable (fst (delete_agent_memory_profile w id s)).

(** C14: whatever the file of profiles holds and whatever is sent, every profile in
    memory is well formed: a known mode, known sources without repetition and at
    least one, weights between 0 and 2, prefixes without repetition, thresholds
    in range; the profile named default is never lost. *)
Theorem profiles_stay_well_formed s : defaults_ok -> profiles_reachable s -> profiles_ok (memory s).
Proof.
  intros Hd. induction 1 as [f|w id updates s _ IH|w id s _ IH]; [by apply load_ok| |].
  - unfold upsert_agent_memory_profile. destruct (let! normalized := _ in _) as [[n p]|e] eqn:En; [|done]. cbn.
    destruct (_normalize_agent_memory_profile_id id) as [n'|]; cbn [rbind] in En; [|done].
    destruct (match clookup n' (memory s) with Some d => Ok d | None => _ end) as [cur|]; cbn [rbind] in En; [|done].
    destruct (normalize _) as [p'|] eqn:Ep; cbn [rbind] in En; [|done]. injection En as <- <-. by apply cset_profiles, (normalize_ok _ _ Ep).
  - unfold delete_agent_memory_profile. destruct (_normalize_agent_memory_profile_id id) as [n|]; [|done].
    destruct (String.eqb_spec n "default") as [|Hne]; [done|]. destruct (clookup n (memory s)); [|done]. cbn.
    destruct IH as (Hf & Hn & Hdef). split; [|split].
    + apply List.Forall_forall. intros kv [H _]%filter_In. rewrite List.Forall_forall in Hf. auto.
    + by apply filter_keys_NoDup.
    + apply in_map_iff in Hdef as (kv & Hk & Hin). apply in_map_iff. exists kv. split; [done|]. apply filter_In. split; [done|].
      apply negb_true_iff, String.eqb_neq. congruence.
Qed.

(** A profile of an agent inherits nothing.  Merging it with the default
    profile gives the profile itself, normalised from the program's own defaults:
    a field that only the default profile sets, its project for example, is not
    used for the agent. *)
Theorem agent_inherits_nothing s id n o : defaults_ok -> profiles_ok (memory s) ->
  _normalize_agent_memory_profile_id id = Ok n -> n <> "default" -> clookup n (memory s) = Some o ->
  _resolve_agent_memory_profile G R parse_float repr_float id (memory s) = normalize o.
Proof.
  intros Hd HP Hid Hn Hl. unfold _resolve_agent_memory_profile. rewrite Hid. cbn [rbind]. apply String.eqb_neq in Hn. rewrite Hn, Hl.
  cbn [negb]. by apply merge_replaces, default_profile_ok.
Qed.

(** ** Normalising twice *)

(** A float that is read back from its text. *)
Definition readable (q : Q) : Prop := parse_float (repr_float q) = Some (Qred q) /\ repr_float (Qred q) = repr_float q.

Lemma Qmin_left a b : (a <= b)%Q -> Qmin a b = a.
Proof. intros H. unfold Qmin, GenericMinMax.gmin. destruct (a ?= b)%Q eqn:E; [done|done|]. apply Qgt_alt in E. lra. Qed.

Lemma Qmax_zero q : (0 <= q)%Q -> Qmax 0 (Qred q) = Qred q.
Proof.
  intros H. pose proof (Qred_correct q) as Hq. unfold Qmax, GenericMinMax.gmax. destruct (0 ?= Qred q)%Q eqn:E; [|done|].
  - apply Qeq_alt in E. assert (q == 0)%Q as Hz by lra. apply Qred_complete in Hz. by rewrite Hz.
  - apply Qgt_alt in E. lra.
Qed.

Lemma Qmin_one q : (q <= 1)%Q -> Qmin 1 (Qred q) = Qred q.
Proof.
  intros H. pose proof (Qred_correct q) as Hq. unfold Qmin, GenericMinMax.gmin. destruct (1 ?= Qred q)%Q eqn:E; [|apply Qlt_alt in E; lra|done].
  apply Qeq_alt in E. assert (q == 1)%Q as Hz by lra. apply Qred_complete in Hz. by rewrite Hz.
Qed.

Lemma clamp2_id q : (0 <= q <= 2)%Q -> Qmax 0 (Qmin (Qred q) 2) = Qred q.
Proof. intros [H0 H2]. pose proof (Qred_correct q). rewrite Qmin_left by lra. by apply Qmax_zero. Qed.

Lemma all_weights a b c d e f :
  _normalize_retrieval_weights
    [("qdrant", Some a); ("letta", Some b); ("topic_rollups", Some c); ("mindsdb", Some d); ("mongo_raw", Some e); ("memory_bank", Some f)] =
    [("qdrant", Qmax 0 (Qmin a 2)); ("letta", Qmax 0 (Qmin b 2)); ("topic_rollups", Qmax 0 (Qmin c 2)); ("mindsdb", Qmax 0 (Qmin d 2));
     ("mongo_raw", Qmax 0 (Qmin e 2)); ("memory_bank", Qmax 0 (Qmin f 2))].
Proof. reflexivity. Qed.

(** Weights of a normalised profile. *)
Lemma weights_fixed w : weights_in_range w -> List.Forall readable (map snd w) ->
  map (fun kv => (fst kv, JQ repr_float (snd kv))) (profile_weights parse_float (JObj (map (fun kv => (fst kv, JQ repr_float (snd kv))) w))) =
  map (fun kv => (fst kv, JQ repr_float (snd kv))) w.
Proof.
  intros [Hf Hk] Hr. unfold profile_weights. rewrite known_filter
    by (eapply List.Forall_impl; [|apply normalized_weights]; by intros kv []).
  do 7 (destruct w as [|[? ?] w]; try discriminate Hk). cbn in Hk. injection Hk as -> -> -> -> -> ->. cbn [map snd] in Hr.
  repeat match goal with H : List.Forall _ (_ :: _) |- _ => inversion_clear H end. cbn [fst snd map] in *.
  unfold JQ, readable in *. cbn [to_float map fst snd].
  repeat match goal with H : parse_float (repr_float _) = _ /\ _ |- _ => destruct H as [H ?]; rewrite H; clear H end.
  rewrite all_weights. cbn [map fst snd]. rewrite !clamp2_id by tauto.
  repeat match goal with H : repr_float (Qred _) = _ |- _ => rewrite H; clear H end. reflexivity.
Qed.

Lemma prefixes_fixed l : List.Forall (fun p => normalize_topic_path p = Ok p /\ p <> "") l -> forall acc, List.NoDup (acc ++ l) ->
  add_prefixes (map JStr l) acc = Ok (acc ++ l).
Proof.
  induction 1 as [|p l [Hp Hne] _ IH]; intros acc Hn; cbn [map add_prefixes]; [by rewrite app_nil_r|].
  rewrite jstr_or_empty_str, Hp. cbn [rbind]. assert (truthy p = true) as -> by (by apply negb_true_iff, String.eqb_neq).
  assert (mem_str p acc = false) as ->.
  { apply mem_str_false. intros H. apply NoDup_remove_2 in Hn. apply Hn, in_app_iff. by left. }
  cbn [negb andb]. rewrite IH by (by rewrite <- app_assoc). by rewrite <- app_assoc.
Qed.

Lemma sources_fixed l : l <> [] -> List.Forall known l -> List.NoDup l -> profile_sources G (JList (map JStr l)) = l.
Proof.
  intros Hne Hk Hn. cbn [profile_sources]. rewrite map_map. cbn [jstr]. rewrite map_id.
  assert (forall s, In s l -> lower (strip s) = s /\ truthy (strip s) = true /\ mem_str s RETRIEVAL_SOURCES = true) as Hs.
  { intros s Hs. rewrite List.Forall_forall in Hk. specialize (Hk s Hs). destruct Hk as [<-|[<-|[<-|[<-|[<-|[<-|[]]]]]]]; repeat split; vm_compute; done. }
  rewrite filter_all by (intros s Hsl; apply Hs; done). unfold _normalize_retrieval_sources. destruct l as [|x l]; [done|].
  rewrite filter_all by (intros s Hsl; apply Hs; done).
  assert (map (fun item => lower (strip item)) (x :: l) = x :: l) as ->.
  { rewrite <- (map_id (x :: l)) at 2. apply map_ext_in. intros s Hsl. by apply Hs. }
  rewrite keep_new_id; [done|done|]. intros s Hsl. split; [by apply Hs|by intros []].
Qed.

(** Normalisation is idempotent: a well-formed profile with a weight for every
    source, as normalisation returns it ([normalized_fields]), is returned
    unchanged when its prefixes are plain paths and its floats read back, so
    resolving, updating or reloading a profile does not alter what it holds. *)
Theorem normalized_profile_is_fixed mode sources weights project prefixes a q min_results min_top_score :
  fields_ok mode sources weights prefixes min_results min_top_score -> weights_in_range weights ->
  (forall p, project = Some p -> p <> "" /\ strip p = p) ->
  List.Forall (fun p => normalize_topic_path p = Ok p) prefixes -> List.Forall readable (min_top_score :: map snd weights) ->
  normalize (dict_of mode sources weights project prefixes a q min_results min_top_score) =
    Ok (dict_of mode sources weights project prefixes a q min_results min_top_score).
Proof.
  intros [Hm Hs1 [Hs2 Hs3] _ [Hp1 Hp2] Hmr Hms] Hw Hproj Hplain Hr. inversion_clear Hr as [|? ? [Hf1 Hf2] Hr'].
  assert (profile_prefixes (JList (map JStr prefixes)) = Ok prefixes) as Hpre.
  { apply (prefixes_fixed prefixes); [|done]. rewrite !List.Forall_forall in *. eauto. }
  assert (_normalize_retrieval_mode G mode = mode) as Hmode by (destruct Hm as [<-|[<-|[<-|[]]]]; reflexivity).
  assert (truthy mode = true) as Ht by (destruct Hm as [<-|[<-|[<-|[]]]]; reflexivity).
  unfold _normalize_agent_memory_profile_payload.
  change (dget (dict_of mode sources weights project prefixes a q min_results min_top_score) "topic_prefixes") with (JList (map JStr prefixes)).
  rewrite Hpre. cbn [rbind].
  change (dget_or _ "escalate_min_results" _) with (JInt min_results). change (dget_or _ "escalate_min_top_score" _) with (JQ repr_float min_top_score).
  cbn [to_int to_float JQ rbind]. rewrite Hf1. cbn [rbind].
  change (dget _ "retrieval_mode") with (JStr mode). change (dget _ "sources") with (JList (map JStr sources)).
  change (dget _ "source_weights") with (JObj (map (fun kv => (fst kv, JQ repr_float (snd kv))) weights)).
  change (dget _ "default_project") with (match project with Some p => JStr p | None => JNull end).
  change (dget_or _ "auto_escalate" _) with (JBool a). change (dget_or _ "query_expansion" _) with (JBool q). cbn [jtruthy].
  rewrite jstr_or_empty_str, Hmode, sources_fixed by done. unfold str_or. rewrite Ht.
  rewrite Qmax_zero, Qmin_one by lra. rewrite Z.max_r by lia. unfold profile_dict. rewrite weights_fixed by done.
  unfold JQ. rewrite Hf2. do 3 f_equal.
  destruct project as [p|]; [|done]. destruct (Hproj p eq_refl) as [Hne Hst]. rewrite jstr_or_empty_str, Hst.
  apply String.eqb_neq in Hne. unfold truthy. by rewrite Hne.
Qed.
End facts.

(** ** Examples and witnesses *)

(** Floats as fractions of their reduced form. *)
Definition demo_repr (q : Q) : string := str_of_Z (Qnum (Qred q)) +:+ "/" +:+ str_of_Z (QDen (Qred q)).
Definition demo_floats : list Q := [1%Q; 9 # 10; 22 # 25; 4 # 5; 3 # 4; 13 # 20; 18 # 25]%Q.
Definition demo_parse (text : string) : option Q :=
  clookup text (map (fun q => (demo_repr q, q)) demo_floats).

Abbreviation demo_start := (mkProfiles (_load_agent_memory_profiles default_retrieval default_recall demo_parse demo_repr None) None).
Abbreviation demo_upsert := (upsert_agent_memory_profile default_retrieval default_recall demo_parse demo_repr true).
Abbreviation demo_get := (get_agent_memory_profile default_retrieval default_recall demo_parse demo_repr).

(** A file with a project in the default profile and a profile of an agent. *)
Definition demo_file : json :=
  JObj [("profiles", JObj [("default", JObj [("default_project", JStr "main")]); ("Bot", JObj [("topic_prefixes", JList [JStr "ops"])])])].
Definition demo_profiles : profile_state :=
  mkProfiles (_load_agent_memory_profiles default_retrieval default_recall demo_parse demo_repr (Some demo_file)) (Some demo_file).

Lemma demo_defaults : defaults_ok default_recall.
Proof. split; [cbn; lia|cbn; lra]. Qed.

Lemma profiles_stay_well_formed_witness :
  profiles_ok demo_repr (memory (fst (demo_upsert "Bot" [("topic_prefixes", JList [JStr "ops"])] demo_profiles))).
Proof.
  apply (profiles_stay_well_formed default_retrieval default_recall demo_parse demo_repr); [exact demo_defaults|].
  apply pr_upsert. exact (pr_start default_retrieval default_recall demo_parse demo_repr (Some demo_file)).
Defined.

(** The project of the default profile is not used for the agent. *)
Lemma agent_inherits_nothing_witness :
  exists p, _resolve_agent_memory_profile default_retrieval default_recall demo_parse demo_repr "bot" (memory demo_profiles) = Ok p /\
    dget p "default_project" = JNull /\
    dget (default_profile default_retrieval default_recall demo_repr (memory demo_profiles)) "default_project" = JStr "main".
Proof.
  destruct (clookup "bot" (memory demo_profiles)) as [o|] eqn:Eo; [|vm_compute in Eo; discriminate Eo].
  pose proof (agent_inherits_nothing default_retrieval default_recall demo_parse demo_repr demo_profiles "bot" "bot" o
    demo_defaults (load_ok default_retrieval default_recall demo_parse demo_repr (Some demo_file) demo_defaults) eq_refl ltac:(discriminate) Eo) as H.
  vm_compute in Eo. injection Eo as <-. eexists. split; [rewrite H; vm_compute; reflexivity|]. split; vm_compute; reflexivity.
Defined.

Lemma normalized_profile_is_fixed_witness :
  let d := profile_dict demo_repr "fast" ["letta"] DEFAULT_RETRIEVAL_SOURCE_WEIGHTS (Some "main") ["ops/db"] true false 3 (18 # 25) in
  _normalize_agent_memory_profile_payload default_retrieval default_recall demo_parse demo_repr d = Ok d.
Proof.
  apply (normalized_profile_is_fixed default_retrieval default_recall demo_parse demo_repr "fast" ["letta"] DEFAULT_RETRIEVAL_SOURCE_WEIGHTS (Some "main") ["ops/db"] true false 3 (18 # 25)).
  - constructor.
    + by left.
    + done.
    + split; [repeat constructor; cbn; tauto|constructor; [by intros []|constructor]].
    + split; [repeat (constructor; [split; [cbn; tauto|cbn; lra]|]); constructor|]. cbn.
      repeat (constructor; [cbn; intuition discriminate|]). constructor.
    + split; [repeat constructor; done|constructor; [by intros []|constructor]].
    + lia.
    + cbn. lra.
  - split; [|reflexivity]. repeat (constructor; [split; [cbn; tauto|cbn; lra]|]). constructor.
  - intros p [= <-]. done.
  - repeat constructor.
  - repeat (constructor; [split; vm_compute; reflexivity|]). constructor.
Defined.

(** A prefix with a doubly encoded traversal is accepted, and then every request
    that resolves the profile fails. *)
Example stored_prefix_breaks_agent :
  let s := fst (demo_upsert "bot" [("topic_prefixes", JList [JStr "a/%252e%252e"])] demo_start) in
  (exists d, snd (demo_upsert "bot" [("topic_prefixes", JList [JStr "a/%252e%252e"])] demo_start) = Ok ("bot", d)) /\
  snd (demo_get "bot" s) = Raise (HTTPException 400 "invalid file path").
Proof. split; [eexists|]; vm_compute; reflexivity. Qed.

(** A threshold set to null, which the request model allows, is an error. *)
Example null_threshold_raises :
  snd (demo_upsert "bot" [("escalate_min_results", JNull)] demo_start) =
    Raise (OtherError "TypeError" "int() argument must be a string or a real number").
Proof. vm_compute. reflexivity. Qed.
