(* ===== verification/SearchApi.v ===== *)
(** * The endpoints of memory search

    [search_memory] with the defaults of an agent's profile and the preferences
    of a user, the context pack, the evaluation of recall, and the endpoints of
    the memory engine.  Reading and writing files are operations of a class;
    the [runtime] package is not installed ([_get_migration_runtime] is None). *)

From S2P Require Import Prelude PyStr PyTime Json JsonText Paths Policy OutboxMaint WriteBuffer Regex Lru Caches Ranking SourcePolicy Federated Sources TaskDb Tasks Recall Messaging TaskExec Feedback Profiles.
From Stdlib Require Import Ascii QArith Qminmax.
Open Scope Z_scope.

(** What the endpoints use of the rest of the program. *)
Class MemoryFiles (W : Type) := {
  read_project_file : string -> string -> ST W string;
  read_or_missing : string -> string -> ST W string; (* allow_missing=True, bootstrap_missing=False *)
  write_memory_op : string -> string -> string -> option string -> ST W dict; (* project, file, content, topic *)
  search_rollups_op : string -> Z -> string -> option string -> ST W (list json) }.

Record search_in := mkSearchIn {
  si_query : string; si_limit : Z; si_project : option string; si_fetch_content : bool; si_topic_path : option string; si_mode : option string;
  si_sources : option (list string); si_weights : list (string * Q); si_rerank : bool; si_debug : bool; si_grounding : bool;
  si_user_id : option string; si_preferences : bool; si_agent_id : option string; si_auto_escalate : option bool;
  si_query_expansion : option bool }.

Record search_out := mkSearchOut {
  so_results : list dict; so_preferences : option preferences; so_mode : string; so_warnings : list string; so_agent_id : string;
  so_degraded : bool; so_profile : dict; so_grounding : option dict; so_retrieval : option dict }.

Record api_state (W : Type) := mkApi {
  api_recall : recall_state; api_profiles : profile_state; api_feedback : task_db (list feedback); api_world : W }.
Arguments mkApi {W}. Arguments api_recall {W}. Arguments api_profiles {W}. Arguments api_feedback {W}. Arguments api_world {W}.

(** [str(a or "").strip() or None] *)
Definition text_or_none (s : string) : option string := if truthy (strip s) then Some (strip s) else None.

Section api.
Context {W : Type} `{!MemoryFiles W}.
Variable E : search_env.
Variable R : recall_config.
Variable parse_float : string -> option Q.
Variables (PREFERENCE_MAX_ENTRIES : Z) (LEARNING_LOOP_ENABLED : bool) (TASK_DB_LOCK_RETRIES : Z).

Definition read_float (text : string) : Q := match parse_float text with Some q => q | None => 0%Q end.

Definition on_recall {A} (m : ST recall_state A) : ST (api_state W) A := fun s =>
  let '(r, a) := m (api_recall s) in (mkApi r (api_profiles s) (api_feedback s) (api_world s), a).
Definition on_feedback {A} (m : ST (task_db (list feedback)) A) : ST (api_state W) A := fun s =>
  let '(db, a) := m (api_feedback s) in (mkApi (api_recall s) (api_profiles s) db (api_world s), a).
Definition on_files {A} (m : ST W A) : ST (api_state W) A := fun s =>
  let '(w, a) := m (api_world s) in (mkApi (api_recall s) (api_profiles s) (api_feedback s) w, a).

(** A reading of the clock. *)
Definition api_now : ST (api_state W) Z := fun s =>
  let '(r, n) := tick (rs_search (api_recall s)) in
  (mkApi (mkRecallState r (rs_quality (api_recall s))) (api_profiles s) (api_feedback s) (api_world s),
   let! n := n in Ok (clock E n)).

(** ** Search *)

(** The profile as the pipeline reads it. *)
Definition recall_profile_of (d : dict) : result recall_profile :=
  let or_zero v := if jtruthy v then v else JInt 0 in
  let! min_results := to_int parse_float (or_zero (dget d "escalate_min_results")) in
  let! min_top_score := to_float parse_float (or_zero (dget d "escalate_min_top_score")) in
  Ok (mkProfile (match dget d "sources" with JList l => Some (map jstr l) | _ => None end)
        (map (fun kv => (fst kv, match to_float parse_float (snd kv) with Ok q => Some q | Raise _ => None end)) (as_dict (dget d "source_weights")))
        min_results min_top_score).

Definition profile_prefix_list (profile : dict) : list json := as_list (dget profile "topic_prefixes").

Definition explicit_topic (p : search_in) : result (option string) :=
  if opt_truthy (si_topic_path p) then let! t := normalize_topic_path (opt_str (si_topic_path p)) in Ok (Some t) else Ok None.

Definition search_topic (explicit : option string) (profile : dict) : option string :=
  if opt_truthy explicit then explicit
  else match profile_prefix_list profile with [] => explicit | first :: _ => text_or_none (jstr_or_empty first) end.

Definition search_project (p : search_in) (profile : dict) : option string :=
  match text_or_none (opt_str (si_project p)) with
  | Some project => Some project
  | None => text_or_none (jstr_or_empty (dget profile "default_project"))
  end.

Definition search_mode (p : search_in) (profile : dict) : string :=
  _normalize_retrieval_mode (G E)
    (str_or (opt_str (si_mode p)) (jstr (jor (dget profile "retrieval_mode") (JStr (RETRIEVAL_MODE_DEFAULT (G E)))))).

Definition search_flag (given : option bool) (profile : dict) (k : string) : bool :=
  match given with Some b => b | None => jtruthy (dget_or profile k (JBool true)) end.

Definition prefix_warning (p : search_in) (profile_id : string) (topic_filter : option string) (profile : dict) : list string :=
  if negb (opt_truthy (si_topic_path p)) && (1 <? Z.of_nat (length (profile_prefix_list profile)))
  then ["Agent profile '" +:+ profile_id +:+ "' has multiple topic prefixes; using '" +:+ match topic_filter with Some t => t | None => "None" end
        +:+ "' by default."] else [].

(** The preferences, or a warning. *)
Definition search_preferences (p : search_in) (project : option string) : ST (api_state W) (option preferences * list string) :=
  if LEARNING_LOOP_ENABLED && si_preferences p then
    st_try (records <- on_feedback (list_feedback_records TASK_DB_LOCK_RETRIES project (si_user_id p) None PREFERENCE_MAX_ENTRIES) ;;
            now <- api_now ;;
            st_ret (Some (build_preference_context now records), []))
      (fun _ => st_ret (None, ["Preference context unavailable; results were not learning-reranked."]))
  else st_ret (None, []).

Definition fetch_row (row : dict) : ST (api_state W) dict :=
  match dget row "project", dget row "file" with
  | JStr project, JStr file =>
      if negb (truthy project) || negb (truthy file) then st_ret (dset "content" JNull row)
      else st_try (content <- on_files (read_project_file project file) ;; st_ret (dset "content" (JStr content) row))
             (fun _ => st_ret (dset "content" JNull row))
  | _, _ => st_ret (dset "content" JNull row)
  end.

Fixpoint fetch_rows (rows : list dict) : ST (api_state W) (list dict) :=
  match rows with
  | [] => st_ret []
  | row :: rest => r <- fetch_row row ;; rs <- fetch_rows rest ;; st_ret (r :: rs)
  end.

Definition is_degraded (results : list dict) (debug : dict) : bool :=
  match results with [] => true | _ => match dget debug "source_errors" with JObj (_ :: _) => true | _ => false end end.

Definition profile_echo (profile_id : string) (profile : dict) : dict :=
  [("id", JStr profile_id); ("retrieval_mode", dget profile "retrieval_mode"); ("sources", dget profile "sources");
   ("source_weights", dget profile "source_weights"); ("default_project", dget profile "default_project");
   ("topic_prefixes", JList (profile_prefix_list profile));
   ("auto_escalate", JBool (jtruthy (dget_or profile "auto_escalate" (JBool true))));
   ("query_expansion", JBool (jtruthy (dget_or profile "query_expansion" (JBool true))))].

Definition search_memory (p : search_in) : ST (api_state W) search_out :=
  s <- st_get ;;
  explicit <- st_lift (explicit_topic p) ;;
  profile_id <- st_lift (_normalize_agent_memory_profile_id (opt_str (si_agent_id p))) ;;
  profile <- st_lift (_resolve_agent_memory_profile (G E) R parse_float (repr_float E) profile_id (memory (api_profiles s))) ;;
  let topic_filter := search_topic explicit profile in
  let project_filter := search_project p profile in
  let mode := search_mode p profile in
  pref <- search_preferences p project_filter ;;
  settings <- st_lift (recall_profile_of profile) ;;
  ans <- on_recall (_run_memory_recall_pipeline E R read_float
           (mkRecallArgs (si_query p) (si_limit p) project_filter topic_filter (si_sources p)
              (map (fun kv => (fst kv, Some (snd kv))) (si_weights p))
              (match fst pref with Some q => preferences_json q | None => [] end) (si_rerank p) mode settings
              (search_flag (si_auto_escalate p) profile "auto_escalate") (search_flag (si_query_expansion p) profile "query_expansion"))) ;;
  rows <- (if si_fetch_content p then fetch_rows (an_results ans) else st_ret (an_results ans)) ;;
  st_ret (mkSearchOut rows (fst pref) (_normalize_retrieval_mode (G E) (jstr (jor (dget (an_debug ans) "retrieval_mode") (JStr mode))))
            (prefix_warning p profile_id topic_filter profile ++ snd pref ++ an_warnings ans) profile_id (is_degraded rows (an_debug ans))
            (profile_echo profile_id profile) (if si_grounding p then Some (an_grounding ans) else None)
            (if si_debug p then Some (an_debug ans) else None)).

(** ** The context pack *)

Record pack_in := mkPackIn {
  pk_query : string; pk_limit : Z; pk_max_facts : Z; pk_project : option string; pk_topic_path : option string; pk_mode : option string;
  pk_sources : option (list string); pk_weights : list (string * Q); pk_user_id : option string; pk_preferences : bool; pk_debug : bool;
  pk_agent_id : option string; pk_auto_escalate : option bool; pk_query_expansion : option bool }.

Definition citation_key (source : dict) : string :=
  strip (jstr_or_empty (dget source "project")) +:+ ":" +:+ strip (jstr_or_empty (dget source "file")) +:+ ":" +:+ jstr (dget source "timestamp").

Definition citation_of (source : dict) : dict :=
  [("project", jopt (text_or_none (jstr_or_empty (dget source "project")))); ("file", jopt (text_or_none (jstr_or_empty (dget source "file"))));
   ("source", dget source "source"); ("topic_path", dget source "topic_path"); ("timestamp", dget source "timestamp")].

Fixpoint citations (facts : list dict) (seen : list string) : list dict :=
  match facts with
  | [] => []
  | fact :: rest =>
      let source := as_dict (dget fact "source") in
      let key := citation_key source in
      if mem_str key seen then citations rest seen else citation_of source :: citations rest (key :: seen)
  end.

Definition pack_row (row : dict) : dict :=
  [("project", dget row "project"); ("file", dget row "file"); ("source", dget row "source");
   ("score", JFloat (repr_float E (number read_float row "score"))); ("topic_path", dget row "topic_path");
   ("timestamp", _result_timestamp_iso row); ("summary", JStr (snippet_of R row))].

Definition _build_context_pack_payload (now : Z) (query : string) (response : search_out) (max_facts max_results : Z) : dict :=
  let grounding := match so_grounding response with Some g => g | None => [("facts", JList []); ("numeric_facts", JList []); ("strict_numeric_copy", JBool true)] end in
  let facts := upto (Z.max 1 max_facts) (as_list (dget grounding "facts")) in
  [("query", JStr query); ("generatedAt", JStr (_utc_now now)); ("factualOnly", JBool true);
   ("strictNumericCopy", JBool (jtruthy (dget_or grounding "strict_numeric_copy" (JBool true)))); ("facts", JList facts);
   ("numericFacts", JList (upto (Z.max 1 max_facts) (as_list (dget grounding "numeric_facts"))));
   ("citations", JList (map JObj (citations (dict_rows facts) [])));
   ("results", JList (map (fun row => JObj (pack_row row)) (upto (Z.max 1 max_results) (so_results response))));
   ("warnings", JList (map JStr (so_warnings response))); ("retrievalMode", JStr (so_mode response)); ("agentId", JStr (so_agent_id response))].

Definition pack_search (p : pack_in) : search_in :=
  mkSearchIn (pk_query p) (pk_limit p) (pk_project p) false (pk_topic_path p) (pk_mode p) (pk_sources p) (pk_weights p) true (pk_debug p) true
    (pk_user_id p) (pk_preferences p) (pk_agent_id p) (pk_auto_escalate p) (pk_query_expansion p).

Definition get_memory_context_pack (p : pack_in) : ST (api_state W) dict :=
  response <- search_memory (pack_search p) ;;
  now <- api_now ;;
  let base := [("query", JStr (pk_query p)); ("context_pack", JObj (_build_context_pack_payload now (pk_query p) response (pk_max_facts p) (pk_limit p)));
               ("warnings", JList (map JStr (so_warnings response))); ("retrieval_mode", JStr (so_mode response)); ("agent_id", JStr (so_agent_id response))] in
  st_ret (match so_retrieval response with Some d => if pk_debug p then base ++ [("retrieval", JObj d)] else base | None => base end).

(** ** Evaluation of recall *)

Record eval_case := mkCase {
  ec_id : option string; ec_query : string; ec_limit : Z; ec_project : option string; ec_topic_path : option string; ec_mode : option string;
  ec_sources : option (list string); ec_weights : list (string * Q); ec_agent_id : option string; ec_auto_escalate : option bool;
  ec_query_expansion : option bool; expected_files : list string; expected_substrings : list string; expected_numeric : list string }.

Record eval_request := mkEvalRequest {
  ev_cases : list eval_case; ev_k : Z; ev_debug : bool; ev_preferences : bool; ev_user_id : option string; gate_min_recall_at_k : Q;
  gate_min_mrr : Q; gate_min_numeric_exactness : Q }.

Record case_report := mkReport {
  cr_id : string; cr_query : string; cr_k : Z; cr_hit : bool; cr_matched_rank : option Z; cr_has_expectations : bool; cr_result_count : Z;
  cr_top_score : Q; cr_expected_files : list string; cr_expected_substrings : list string; cr_expected_numeric : list string;
  cr_matched_numeric : list string; cr_warnings : list string; cr_mode : string; cr_agent_id : string; cr_retrieval : option dict }.

Record eval_report := mkEval {
  ev_passed : bool; ev_evaluated : Z; recallAtK : Q; mrr : Q; numericExactness : Q; numericExpected : Z; numericMatched : Z;
  ev_reports : list case_report }.

Definition _grounding_numeric_value_set (grounding : dict) : list string :=
  dedupe (List.filter truthy (map (fun row => strip (jstr_or_empty (dget row "value"))) (dict_rows (as_list (dget grounding "numeric_facts"))))).

Definition case_search (r : eval_request) (c : eval_case) : search_in :=
  mkSearchIn (ec_query c) (ec_limit c) (ec_project c) false (ec_topic_path c) (ec_mode c) (ec_sources c) (ec_weights c) true (ev_debug r) true
    (ev_user_id r) (ev_preferences r) (ec_agent_id c) (ec_auto_escalate c) (ec_query_expansion c).

Definition case_id (c : eval_case) (index : Z) : string :=
  let default := "case-" +:+ str_of_Z index in
  str_or (strip (str_or (opt_str (ec_id c)) default)) default.

Definition expected_file_tokens (c : eval_case) : result (list string) :=
  let! tokens := result_map _normalize_expected_file_token (expected_files c) in Ok (dedupe (List.filter truthy tokens)).
Definition expected_terms (c : eval_case) : list string := map (fun s => lower (strip s)) (List.filter (fun s => truthy (strip s)) (expected_substrings c)).
Definition expected_numbers (c : eval_case) : list string := dedupe (List.filter truthy (map strip (expected_numeric c))).

Definition evaluate_case (r : eval_request) (k index : Z) (c : eval_case) : ST (api_state W) case_report :=
  response <- search_memory (case_search r c) ;;
  files <- st_lift (expected_file_tokens c) ;;
  rank <- st_lift (_match_rank_within_k (so_results response) files (expected_terms c) k) ;;
  let found := _grounding_numeric_value_set (match so_grounding response with Some g => g | None => [] end) in
  st_ret (mkReport (case_id c index) (ec_query c) k (match rank with Some _ => true | None => false end) rank
            (match files, expected_terms c with [], [] => false | _, _ => true end) (Z.of_nat (length (so_results response)))
            (rnd 6 (_top_result_score read_float (so_results response))) (sort_by str_leb files) (expected_terms c)
            (expected_numbers c) (List.filter (fun v => mem_str v found) (expected_numbers c)) (so_warnings response) (so_mode response)
            (so_agent_id response) (so_retrieval response)).

Fixpoint evaluate_cases (r : eval_request) (k index : Z) (cases : list eval_case) : ST (api_state W) (list case_report) :=
  match cases with
  | [] => st_ret []
  | c :: rest => report <- evaluate_case r k index c ;; reports <- evaluate_cases r k (index + 1) rest ;; st_ret (report :: reports)
  end.

(** [1.0 / float(matched_rank)] *)
Definition reciprocal_rank (c : case_report) : Q := match cr_matched_rank c with Some n => (1 / qz n)%Q | None => 0%Q end.

Definition ratio (a b : Q) (n : Z) (default : Q) : Q := if 0 <? n then (a / b)%Q else default.

Definition eval_summary (r : eval_request) (reports : list case_report) : eval_report :=
  let evaluated := List.filter cr_has_expectations reports in
  let n := Z.of_nat (length evaluated) in
  let recall_hits := Z.of_nat (length (List.filter cr_hit evaluated)) in
  let expected := fold_right Z.add 0 (map (fun c => Z.of_nat (length (cr_expected_numeric c))) reports) in
  let matched := fold_right Z.add 0 (map (fun c => Z.of_nat (length (cr_matched_numeric c))) reports) in
  let recall := ratio (qz recall_hits) (qz n) n 0 in
  let m := ratio (fold_right Qplus 0%Q (map reciprocal_rank evaluated)) (qz n) n 0 in
  let exactness := ratio (qz matched) (qz expected) expected 1 in
  mkEval ((0 <? n) && Qle_bool (gate_min_recall_at_k r) recall && Qle_bool (gate_min_mrr r) m && Qle_bool (gate_min_numeric_exactness r) exactness)
    n (rnd 6 recall) (rnd 6 m) (rnd 6 exactness) expected matched reports.

Definition evaluate_memory_recall (r : eval_request) : ST (api_state W) eval_report :=
  match ev_cases r with
  | [] => st_raise (HTTPException 400 "at least one evaluation case is required")
  | cases =>
      reports <- evaluate_cases r (Z.max 1 (Z.min (ev_k r) 20)) 1 cases ;;
      st_ret (eval_summary r reports)
  end.

(** ** The memory engine *)

(** [token.split(sep, 1)] when [sep] occurs. *)
Fixpoint split_at (sep s : string) : option (string * string) :=
  if startswith s sep then Some ("", drop (String.length sep) s)
  else match s with
       | EmptyString => None
       | String c s' => option_map (fun ab => (String c (fst ab), snd ab)) (split_at sep s')
       end.

Definition _engine_split_memory_id (memory_id : string) : result (string * string) :=
  let token := strip memory_id in
  if negb (truthy token) then Raise (HTTPException 422 "memory_id is required")
  else match (match split_at "::" token with Some ab => Some ab | None => split_at "/" token end) with
       | None => Raise (HTTPException 422 "memory_id must be in '<project>::<file>' or '<project>/<file>' form")
       | Some (project, file_name) =>
           if negb (truthy (strip project)) || negb (truthy (strip file_name))
           then Raise (HTTPException 422 "memory_id must include both project and file")
           else Ok (strip project, strip file_name)
       end.

(** [payload.get(k) if isinstance(payload.get(k), dict) else payload] *)
Definition inner (k : string) (payload : dict) : dict := match dget payload k with JObj d => d | _ => payload end.

Definition engine_memory_put (payload : dict) : ST (api_state W) (string * dict) :=
  let item := inner "item" payload in
  let project := strip (jstr_or_empty (dget item "project")) in
  let file_name := strip (jstr_or_empty (jor (dget item "file_name") (dget item "file"))) in
  if negb (truthy project) || negb (truthy file_name) then st_raise (HTTPException 422 "project and file_name are required")
  else
    r <- on_files (write_memory_op project file_name (jstr_or_empty (dget item "content")) (text_or_none (jstr_or_empty (dget item "topic_path")))) ;;
    st_ret (jstr (jor (dget r "event_id") (JStr (project +:+ "::" +:+ file_name))), r).

(** The previous content: an object, a text that is not JSON, or JSON that is
    not an object, which has no [update]. *)
Definition engine_memory_update (payload : dict) : ST (api_state W) string :=
  let memory_id := strip (jstr_or_empty (dget payload "memory_id")) in
  let patch := as_dict (dget payload "patch") in
  pf <- st_lift (_engine_split_memory_id memory_id) ;;
  prior <- on_files (read_or_missing (fst pf) (snd pf)) ;;
  previous <- st_lift (if truthy prior then
                         match loads prior with
                         | Some (JObj d) => Ok d
                         | Some _ => Raise (OtherError "AttributeError" "object has no attribute 'update'")
                         | None => Ok [("content", JStr prior)]
                         end
                       else Ok []) ;;
  r <- on_files (write_memory_op (fst pf) (snd pf) (dumps (sort_json (JObj (dupdate previous patch))))
                   (text_or_none (jstr_or_empty (dget patch "topic_path")))) ;;
  st_ret (jstr (jor (dget r "event_id") (JStr memory_id))).

Definition engine_memory_get (memory_id : string) : ST (api_state W) (option dict) :=
  pf <- st_lift (_engine_split_memory_id memory_id) ;;
  content <- on_files (read_or_missing (fst pf) (snd pf)) ;;
  st_ret (if truthy content
          then Some [("id", JStr memory_id); ("project", JStr (fst pf)); ("file_name", JStr (snd pf)); ("content", JStr content)] else None).

Definition engine_memory_neighbors (payload : dict) : ST (api_state W) (list json) :=
  let memory_id := strip (jstr_or_empty (dget payload "memory_id")) in
  if negb (truthy memory_id) then st_raise (HTTPException 422 "memory_id is required")
  else
    limit <- st_lift (to_int parse_float (jor (dget payload "limit") (JInt 10))) ;;
    pf <- st_lift (_engine_split_memory_id memory_id) ;;
    on_files (search_rollups_op (fst pf +:+ " " +:+ snd pf) (Z.max 1 (Z.min limit 100)) (fst pf)
                (text_or_none (jstr_or_empty (dget (as_dict (dget payload "filters")) "topic_path")))).

Fixpoint engine_put_all (items : list dict) : ST (api_state W) (list string) :=
  match items with
  | [] => st_ret []
  | item :: rest =>
      r <- engine_memory_put [("item", JObj item)] ;;
      ids <- engine_put_all rest ;;
      st_ret (if truthy (strip (fst r)) then strip (fst r) :: ids else ids)
  end.

Definition engine_memory_batch_put (payload : dict) : ST (api_state W) (list string) :=
  engine_put_all (dict_rows (as_list (dget payload "items"))).

(** The arguments of a retrieval request. *)
Record engine_query := mkEngineQuery {
  eq_query : string; eq_limit : Z; eq_project : option string; eq_topic : option string; eq_sources : option (list string);
  eq_weights : list (string * option Q); eq_preferences : dict; eq_rerank : bool; eq_mode : string }.

Definition engine_query_of (payload : dict) : result engine_query :=
  let d := inner "request" payload in
  let query := strip (jstr_or_empty (dget d "query")) in
  if negb (truthy query) then Raise (HTTPException 422 "query is required")
  else
    let! limit := to_int parse_float (jor (dget d "limit") (JInt 10)) in
    Ok (mkEngineQuery query (Z.max 1 (Z.min limit 100))
          (text_or_none (jstr_or_empty (jor (dget d "project_filter") (dget d "project"))))
          (text_or_none (jstr_or_empty (jor (dget d "topic_filter") (dget d "topic_path"))))
          (match dget d "sources" with JList l => Some (map jstr l) | _ => None end)
          (map (fun kv => (fst kv, match to_float parse_float (snd kv) with Ok q => Some q | Raise _ => None end)) (as_dict (dget d "source_weights")))
          (as_dict (dget d "preferences")) (jtruthy (dget_or d "rerank_with_learning" (JBool true)))
          (jstr (jor (dget d "retrieval_mode") (JStr RETRIEVAL_MODE_BALANCED)))).

Definition engine_retrieval_query (payload : dict) : ST (api_state W) bundle :=
  q <- st_lift (engine_query_of payload) ;;
  on_recall (fun s =>
    let '(s', r) := federated_search_memory E (mkArgs (eq_query q) (eq_limit q) (eq_project q) (eq_topic q)
                      (match eq_sources q with Some l => l | None => [] end) (eq_weights q) (eq_preferences q) (eq_rerank q) (eq_mode q) false) (rs_search s) in
    (mkRecallState s' (rs_quality s), r)).

Definition engine_retrieval_query_with_grounding (payload : dict) : ST (api_state W) recall_answer :=
  q <- st_lift (engine_query_of payload) ;;
  settings <- st_lift (recall_profile_of (as_dict (dget (inner "request" payload) "agent_profile"))) ;;
  on_recall (_run_memory_recall_pipeline E R read_float
    (mkRecallArgs (eq_query q) (eq_limit q) (eq_project q) (eq_topic q) (eq_sources q) (eq_weights q) (eq_preferences q) (eq_rerank q) (eq_mode q)
       settings (jtruthy (dget_or (inner "request" payload) "auto_escalate" (JBool false)))
       (jtruthy (dget_or (inner "request" payload) "query_expansion" (JBool true))))).

Fixpoint engine_query_all (requests : list dict) : ST (api_state W) (list bundle) :=
  match requests with
  | [] => st_ret []
  | d :: rest => b <- engine_retrieval_query [("request", JObj d)] ;; bs <- engine_query_all rest ;; st_ret (b :: bs)
  end.
Definition engine_retrieval_batch_query (payload : dict) : ST (api_state W) (list bundle) :=
  engine_query_all (dict_rows (as_list (dget payload "requests"))).
End api.
