(* ===== verification/SearchApiFacts.v ===== *)
(** * The endpoints of memory search: theorems

    A search answers whatever fails behind it, a context pack cites what it
    states, the metrics of an evaluation are in range, and an id that the
    memory engine returns for a new memory is refused by its other calls. *)

From S2P Require Import Prelude PyStr PyTime Json JsonText Paths Policy OutboxMaint WriteBuffer WriteBufferFacts Regex Lru Caches Ranking RankingFacts SourcePolicy SourcePolicyFacts Federated FederatedFacts Sources SourcesFacts TaskDb Tasks Recall RecallFacts Messaging MessagingFacts TaskExec TaskExecFacts Feedback Profiles ProfilesFacts SearchApi.
From Stdlib Require Import Ascii QArith Qminmax Lqa.
Open Scope Z_scope.

(** ** A search answers *)

(** A read leaves the tables as they are, whatever the faults. *)
Lemma read_attempts {S A} (f : S -> A) more : forall db, tables (fst (run_attempts (fun T => Ok (T, f T)) more db)) = tables db.
Proof.
  assert (forall db, tables (fst (with_connection (fun T => Ok (T, f T)) db)) = tables db) as Hc.
  { intros [T fs]. unfold with_connection. cbn. destruct (next_fault fs) as [[|e|e] rest]; reflexivity. }
  induction more as [|more IH]; intros db; cbn [run_attempts]; [apply Hc|]. unfold st_try.
  specialize (Hc db). destruct (with_connection _ db) as [db1 [a|e]]; cbn in *; [done|]. destruct (retryable e); cbn; [by rewrite IH|done].
Qed.

Section search.
Context {W : Type} `{!MemoryFiles W}.
Variable E : search_env.
Variable R : recall_config.
Variable parse_float : string -> option Q.
Variables (PREFERENCE_MAX_ENTRIES : Z) (LEARNING_LOOP_ENABLED : bool) (TASK_DB_LOCK_RETRIES : Z).

(** What a search does not change, and the caches stay usable. *)
Definition kept (s s' : api_state W) : Prop :=
  api_profiles s' = api_profiles s /\ tables (api_feedback s') = tables (api_feedback s) /\ templates_ok (rs_search (api_recall s')).

Lemma kept_intro s s' : api_profiles s' = api_profiles s -> tables (api_feedback s') = tables (api_feedback s) ->
  templates_ok (rs_search (api_recall s')) -> kept s s'.
Proof. done. Qed.

Lemma kept_trans s1 s2 s3 : kept s1 s2 -> kept s2 s3 -> kept s1 s3.
Proof. intros (H1 & H2 & _) (H3 & H4 & H5). unfold kept. by rewrite H3, H4. Qed.

Lemma now_ok s : templates_ok (rs_search (api_recall s)) -> exists s' n, api_now E s = (s', Ok n) /\ kept s s'.
Proof. intros Ht. unfold api_now, tick. do 2 eexists. split; [reflexivity|]. by apply kept_intro. Qed.

(** The preferences and the warning of a search: none when they are not asked
    for, those built from the records that the database answers, or the warning
    when it fails. *)
Definition preferred (p : search_in) (project : option string) (s : api_state W) (pref : option preferences * list string) : Prop :=
  if LEARNING_LOOP_ENABLED && si_preferences p then
    match snd (list_feedback_records TASK_DB_LOCK_RETRIES project (si_user_id p) None PREFERENCE_MAX_ENTRIES (api_feedback s)) with
    | Ok records => exists now, pref = (Some (build_preference_context now records), [])
    | Raise _ => pref = (None, ["Preference context unavailable; results were not learning-reranked."])
    end
  else pref = (None, []).

Lemma preferences_ok p project s : templates_ok (rs_search (api_recall s)) -> exists s' pref,
  search_preferences E PREFERENCE_MAX_ENTRIES LEARNING_LOOP_ENABLED TASK_DB_LOCK_RETRIES p project s = (s', Ok pref) /\ kept s s' /\
  preferred p project s pref /\ rs_quality (api_recall s') = rs_quality (api_recall s).
Proof.
  intros Ht. unfold search_preferences, preferred.
  destruct (LEARNING_LOOP_ENABLED && si_preferences p); [|do 2 eexists; split; [reflexivity|]; split; [by apply kept_intro|done]].
  unfold st_try, st_bind at 1, on_feedback, list_feedback_records, _task_db_exec.
  pose proof (read_attempts (fun T => select_feedback project (si_user_id p) None PREFERENCE_MAX_ENTRIES T)
    (Z.to_nat (Z.max 1 TASK_DB_LOCK_RETRIES) - 1) (api_feedback s)) as Hr.
  destruct (run_attempts _ _ (api_feedback s)) as [db [records|e]]; cbn [fst] in Hr.
  - destruct (now_ok (mkApi (api_recall s) (api_profiles s) db (api_world s)) Ht) as (s1 & n & Hn & Hk).
    unfold st_bind. rewrite Hn. do 2 eexists. split; [reflexivity|]. split; [eapply kept_trans; [|exact Hk]; by apply kept_intro|].
    split; [by eexists|]. unfold api_now, tick in Hn. by injection Hn as <- _.
  - do 2 eexists. split; [reflexivity|]. split; [by apply kept_intro|done].
Qed.

(** A row with the content of its file, or null when it names no file or the
    file could not be read. *)
Definition fetched (row row' : dict) : Prop :=
  (exists project file text w w', dget row "project" = JStr project /\ dget row "file" = JStr file /\
     read_project_file project file w = (w', Ok text) /\ row' = dset "content" (JStr text) row) \/
  (row' = dset "content" JNull row /\
   forall project file, dget row "project" = JStr project -> dget row "file" = JStr file -> truthy project = true -> truthy file = true ->
     exists w w' e, read_project_file project file w = (w', Raise e)).

Lemma fetch_row_ok row s : templates_ok (rs_search (api_recall s)) -> exists s' row', fetch_row row s = (s', Ok row') /\ kept s s' /\
  api_recall s' = api_recall s /\ fetched row row'.
Proof.
  intros Ht.
  assert ((forall project file, dget row "project" = JStr project -> dget row "file" = JStr file -> truthy project = true -> truthy file = true ->
     exists w w' e, read_project_file project file w = (w', Raise e)) ->
    exists s' row', st_ret (dset "content" JNull row) s = (s', Ok row') /\ kept s s' /\ api_recall s' = api_recall s /\ fetched row row') as Hnull.
  { intros H. do 2 eexists. split; [reflexivity|]. split; [by apply kept_intro|]. split; [done|]. right. by split. }
  unfold fetch_row. destruct (dget row "project") as [| | | |project| |] eqn:Ep; try (apply Hnull; intros; done).
  destruct (dget row "file") as [| | | |file| |] eqn:Ef; try (apply Hnull; intros; done).
  destruct (truthy project) eqn:Tp, (truthy file) eqn:Tf; cbn [negb orb];
    try (apply Hnull; intros ? ? [= <-] [= <-] ? ?; congruence).
  unfold st_try, st_bind, on_files. destruct (read_project_file project file (api_world s)) as [w [text|e]] eqn:Er;
    do 2 eexists; (split; [reflexivity|]); (split; [by apply kept_intro|]); (split; [done|]).
  - left. exists project, file, text, (api_world s), w. by rewrite Ep, Ef.
  - right. split; [done|]. rewrite Ep, Ef. intros ? ? [= <-] [= <-] _ _. by exists (api_world s), w, e.
Qed.

Lemma fetch_rows_ok rows : forall s, templates_ok (rs_search (api_recall s)) -> exists s' rows', fetch_rows rows s = (s', Ok rows') /\ kept s s' /\
  api_recall s' = api_recall s /\ Forall2 fetched rows rows'.
Proof.
  induction rows as [|row rows IH]; intros s Ht; cbn [fetch_rows].
  { do 2 eexists. split; [reflexivity|]. split; [by apply kept_intro|]. split; [done|constructor]. }
  unfold st_bind at 1. destruct (fetch_row_ok row s Ht) as (s1 & row' & -> & Hk1 & Hr1 & Hf1).
  unfold st_bind. destruct (IH s1 (proj2 (proj2 Hk1))) as (s2 & rows' & -> & Hk2 & Hr2 & Hf2).
  do 2 eexists. split; [reflexivity|]. split; [by eapply kept_trans|]. split; [congruence|by constructor].
Qed.

(** C8: when the topic of the request is a valid path, the agent's profile can be
    resolved and read and the cached templates name known sources, a search
    answers for every behaviour of the sources, the feedback database and the
    memory files.  Its rows are those that
    the recall pipeline answers for the request's arguments completed by the
    profile, in the same order, at most [max 1 limit] of them; when contents are
    asked for, each row gets the content of its file, or null if the file cannot be
    read.  The preferences given to the pipeline are those built from the
    records of the feedback database; when it fails the pipeline runs without
    and a warning is added, and nothing else changes.  The answer says that it is
    degraded when there is no row, and profiles and feedback are not changed. *)
Theorem search_endpoint_answers p s topic id profile settings :
  templates_ok (rs_search (api_recall s)) -> explicit_topic p = Ok topic ->
  _normalize_agent_memory_profile_id (opt_str (si_agent_id p)) = Ok id ->
  _resolve_agent_memory_profile (G E) R parse_float (repr_float E) id (memory (api_profiles s)) = Ok profile ->
  recall_profile_of parse_float profile = Ok settings ->
  exists s' out pref r1 r2 ans, search_memory E R parse_float PREFERENCE_MAX_ENTRIES LEARNING_LOOP_ENABLED TASK_DB_LOCK_RETRIES p s = (s', Ok out) /\ kept s s' /\
    preferred p (search_project p profile) s pref /\
    rs_quality r1 = rs_quality (api_recall s) /\ api_recall s' = r2 /\
    _run_memory_recall_pipeline E R (read_float parse_float)
      (mkRecallArgs (si_query p) (si_limit p) (search_project p profile) (search_topic topic profile) (si_sources p)
         (map (fun kv => (fst kv, Some (snd kv))) (si_weights p)) (match fst pref with Some q => preferences_json q | None => [] end)
         (si_rerank p) (search_mode E p profile) settings (search_flag (si_auto_escalate p) profile "auto_escalate")
         (search_flag (si_query_expansion p) profile "query_expansion")) r1 = (r2, Ok ans) /\
    (if si_fetch_content p then Forall2 fetched (an_results ans) (so_results out) else so_results out = an_results ans) /\
    so_warnings out = prefix_warning p id (search_topic topic profile) profile ++ snd pref ++ an_warnings ans /\
    Z.of_nat (length (so_results out)) <= Z.max 1 (si_limit p) /\ so_agent_id out = id /\
    (so_results out = [] -> so_degraded out = true).
Proof.
  intros Ht Htop Hid Hprof Hset. unfold search_memory. unfold st_bind at 1, st_get. unfold st_bind at 1, st_lift at 1. rewrite Htop.
  unfold st_bind at 1, st_lift at 1. rewrite Hid. unfold st_bind at 1, st_lift at 1. rewrite Hprof. cbv zeta.
  unfold st_bind at 1. destruct (preferences_ok p (search_project p profile) s Ht) as (s1 & pref & -> & Hk1 & Hpref & Hq1).
  unfold st_bind at 1, st_lift at 1. rewrite Hset. unfold st_bind at 1, on_recall.
  set (args := mkRecallArgs _ _ _ _ _ _ _ _ _ _ _ _).
  destruct (pipeline_answers E R (read_float parse_float) args (api_recall s1) (proj2 (proj2 Hk1))) as (r2 & ans & sets & Ep & Ht2 & _ & _ & _ & _ & Hl & _).
  rewrite Ep.
  set (s2 := mkApi r2 _ _ _). assert (kept s1 s2) as Hk2 by (by apply kept_intro).
  unfold st_bind. destruct (si_fetch_content p) eqn:Ef.
  - destruct (fetch_rows_ok (an_results ans) s2 Ht2) as (s3 & rows & -> & Hk3 & Hr3 & Hf). do 2 eexists. exists pref, (api_recall s1), r2, ans.
    split; [reflexivity|]. split; [exact (kept_trans _ _ _ Hk1 (kept_trans _ _ _ Hk2 Hk3))|]. cbn [so_results so_agent_id so_degraded so_warnings].
    rewrite <- (Forall2_length _ _ _ Hf), Hr3. do 7 (split; [done|]). split; [done|]. by intros ->.
  - do 2 eexists. exists pref, (api_recall s1), r2, ans. split; [reflexivity|]. split; [exact (kept_trans _ _ _ Hk1 Hk2)|].
    cbn [so_results so_agent_id so_degraded so_warnings]. do 7 (split; [done|]). split; [done|]. by intros ->.
Qed.
End search.

(** ** The context pack *)

Lemma citations_cover facts : forall seen,
  (forall fact, In fact facts -> In (citation_key (as_dict (dget fact "source"))) seen \/
     exists fact', In fact' facts /\ citation_key (as_dict (dget fact' "source")) = citation_key (as_dict (dget fact "source")) /\
       In (citation_of (as_dict (dget fact' "source"))) (citations facts seen)) /\
  (forall c, In c (citations facts seen) -> exists fact, In fact facts /\ c = citation_of (as_dict (dget fact "source"))).
Proof.
  induction facts as [|f facts IH]; intros seen; cbn [citations]; [split; intros ? []|].
  set (k := citation_key (as_dict (dget f "source"))). destruct (mem_str k seen) eqn:Em.
  - destruct (IH seen) as [H1 H2]. split.
    + intros fact [<-|H]; [left; by apply mem_str_In|]. destruct (H1 fact H) as [Hs|(f' & Hf' & He & Hin)]; [by left|].
      right. exists f'. split; [by right|done].
    + intros c (f' & Hf' & ->)%H2. exists f'. split; [by right|done].
  - destruct (IH (k :: seen)) as [H1 H2]. split.
    + assert (forall fact, k = citation_key (as_dict (dget fact "source")) -> exists fact', In fact' (f :: facts) /\
        citation_key (as_dict (dget fact' "source")) = citation_key (as_dict (dget fact "source")) /\
        In (citation_of (as_dict (dget fact' "source"))) (citation_of (as_dict (dget f "source")) :: citations facts (k :: seen))) as Hk.
      { intros fact Hk. exists f. split; [by left|]. split; [exact Hk|by left]. }
      intros fact [<-|H]; [right; by apply Hk|]. destruct (H1 fact H) as [[He|Hs]|(f' & Hf' & He & Hin)]; [right; by apply Hk|by left|].
      right. exists f'. split; [by right|]. split; [done|by right].
    + intros c [<-|(f' & Hf' & ->)%H2]; [exists f; split; [by left|done]|]. exists f'. split; [by right|done].
Qed.

Section pack.
Variable E : search_env.
Variable R : recall_config.
Variable parse_float : string -> option Q.

(** A context pack is bounded and cites what it states: it has at most
    [max 1 max_facts] facts and numeric facts and [max 1 limit] results, for every
    fact there is a citation of the same project, file and time, and every
    citation is the source of one of its facts. *)
Theorem pack_cites_its_facts now query response max_facts max_results :
  let pack := _build_context_pack_payload E R parse_float now query response max_facts max_results in
  let facts := dict_rows (as_list (dget pack "facts")) in
  Z.of_nat (length (as_list (dget pack "facts"))) <= Z.max 1 max_facts /\
  Z.of_nat (length (as_list (dget pack "numericFacts"))) <= Z.max 1 max_facts /\
  Z.of_nat (length (as_list (dget pack "results"))) <= Z.max 1 max_results /\
  (forall fact, In fact facts -> exists fact', In fact' facts /\
     citation_key (as_dict (dget fact' "source")) = citation_key (as_dict (dget fact "source")) /\
     In (JObj (citation_of (as_dict (dget fact' "source")))) (as_list (dget pack "citations"))) /\
  (forall c, In c (as_list (dget pack "citations")) -> exists fact, In fact facts /\ c = JObj (citation_of (as_dict (dget fact "source")))).
Proof.
  cbv zeta. set (pack := _build_context_pack_payload _ _ _ _ _ _ _ _).
  set (g := match so_grounding response with
            | Some g => g
            | None => [("facts", JList []); ("numeric_facts", JList []); ("strict_numeric_copy", JBool true)]
            end).
  set (F := upto (Z.max 1 max_facts) (as_list (dget g "facts"))).
  assert (dget pack "facts" = JList F) as -> by reflexivity.
  assert (dget pack "numericFacts" = JList (upto (Z.max 1 max_facts) (as_list (dget g "numeric_facts")))) as -> by reflexivity.
  assert (dget pack "results" = JList (map (fun row => JObj (pack_row E R parse_float row)) (upto (Z.max 1 max_results) (so_results response)))) as -> by reflexivity.
  assert (dget pack "citations" = JList (map JObj (citations (dict_rows F) []))) as -> by reflexivity. cbn [as_list]. unfold F at 1.
  rewrite length_map, !upto_length by lia. split; [lia|]. split; [lia|]. split; [lia|].
  destruct (citations_cover (dict_rows F) []) as [H1 H2]. split.
  - intros fact [[]|(f' & Hf' & He & Hin)]%H1. exists f'. split; [done|]. split; [done|]. by apply in_map.
  - intros c (d & <- & (f' & Hf' & ->)%H2)%in_map_iff. exists f'. done.
Qed.
End pack.

(** ** Evaluation *)

Lemma first_hit_spec files terms rows : forall index n, first_hit index rows files terms = Ok (Some n) ->
  exists before row after, rows = before ++ row :: after /\ n = index + Z.of_nat (length before) /\
    _result_hits_expectations row files terms = Ok true  /\
    List.Forall (fun r => _result_hits_expectations r files terms = Ok false) before.
Proof.
  induction rows as [|row rows IH]; intros index n; cbn [first_hit]; [done|].
  destruct (_result_hits_expectations row files terms) as [[]|] eqn:Eh; cbn [rbind]; [intros [= <-]| |done].
  - exists [], row, rows. split; [done|]. split; [cbn; lia|]. split; [done|constructor].
  - intros (before & r & after & -> & -> & H1 & H2)%IH. exists (row :: before), r, after. split; [done|]. split; [cbn [length]; lia|].
    split; [done|by constructor].
Qed.

(** The rank of a match is the position, counted from 1, of the first result
    that meets an expectation, within the first [max 1 k] results. *)
Theorem match_rank_is_first_hit results files terms k n :
  _match_rank_within_k results files terms k = Ok (Some n) ->
  1 <= n <= Z.max 1 k /\ exists before row after, results = before ++ row :: after /\ n = 1 + Z.of_nat (length before) /\
    _result_hits_expectations row files terms = Ok true  /\
    List.Forall (fun r => _result_hits_expectations r files terms = Ok false) before.
Proof.
  intros H. assert (first_hit 1 (upto (Z.max 1 k) results) files terms = Ok (Some n)) as Hf by (unfold _match_rank_within_k in H; by destruct files, terms).
  apply first_hit_spec in Hf as (before & row & after & He & Hn & H1 & H2).
  assert (length before < length (upto (Z.max 1 k) results))%nat as Hl by (rewrite He, length_app; cbn; lia).
  rewrite upto_length in Hl by lia. split; [lia|].
  assert (upto (Z.max 1 k) results = firstn (Z.to_nat (Z.max 1 k)) results) as Hu by (unfold upto; destruct (Z.ltb_spec (Z.max 1 k) 0); [lia|done]).
  exists before, row, (after ++ skipn (Z.to_nat (Z.max 1 k)) results). split; [|done].
  rewrite app_comm_cons, app_assoc, <- He, Hu. symmetry. apply firstn_skipn.
Qed.

Lemma match_rank_positive results files terms k n : _match_rank_within_k results files terms k = Ok (Some n) -> 1 <= n.
Proof.
  intros H. assert (first_hit 1 (upto (Z.max 1 k) results) files terms = Ok (Some n)) as Hf by (unfold _match_rank_within_k in H; by destruct files, terms).
  apply first_hit_spec in Hf as (before & row & after & _ & -> & _). lia.
Qed.

(** A report: a hit is a rank, and at most what was expected is found. *)
Definition report_ok (c : case_report) : Prop :=
  cr_hit c = match cr_matched_rank c with Some _ => true | None => false end /\
  (forall n, cr_matched_rank c = Some n -> 1 <= n) /\ (length (cr_matched_numeric c) <= length (cr_expected_numeric c))%nat.

Lemma reciprocal_bounds c : report_ok c -> (0 <= reciprocal_rank c <= qz (one_if (cr_hit c)))%Q.
Proof.
  intros (Hh & Hr & _). unfold reciprocal_rank. destruct (cr_matched_rank c) as [n|]; rewrite Hh; [|change (qz (one_if false)) with 0%Q; lra].
  specialize (Hr n eq_refl). cbn [one_if]. assert (1 <= qz n)%Q as Hn by (by apply (qz_le 1 n)). split.
  - apply Qle_shift_div_l; lra.
  - apply Qle_shift_div_r; [lra|]. change (qz 1) with 1%Q. lra.
Qed.

Lemma sum_reciprocal l : List.Forall report_ok l ->
  (0 <= fold_right Qplus 0 (map reciprocal_rank l) <= qz (Z.of_nat (length (List.filter cr_hit l))))%Q.
Proof.
  induction 1 as [|c l Hc _ IH]; [split; apply Qle_refl|]. cbn [map fold_right List.filter]. pose proof (reciprocal_bounds c Hc) as Hb.
  destruct (cr_hit c); cbn [one_if length] in *; [|change (qz 0) with 0%Q in Hb; lra].
  assert (qz (Z.of_nat (S (length (List.filter cr_hit l)))) == 1 + qz (Z.of_nat (length (List.filter cr_hit l))))%Q as ->.
  { replace (Z.of_nat (S (length (List.filter cr_hit l)))) with (1 + Z.of_nat (length (List.filter cr_hit l))) by lia. unfold qz. by rewrite inject_Z_plus. }
  change (qz 1) with 1%Q in Hb. lra.
Qed.

Lemma sum_matched l : List.Forall report_ok l ->
  0 <= fold_right Z.add 0 (map (fun c => Z.of_nat (length (cr_matched_numeric c))) l) <=
    fold_right Z.add 0 (map (fun c => Z.of_nat (length (cr_expected_numeric c))) l).
Proof. induction 1 as [|c l (_ & _ & Hc) _ IH]; cbn [map fold_right]; lia. Qed.

Lemma ratio_bounds a b n d : (0 <= a <= qz n)%Q -> (b == qz n)%Q -> (0 <= d <= 1)%Q -> (0 <= ratio a b n d <= 1)%Q.
Proof.
  intros Ha Hb Hd. unfold ratio. destruct (Z.ltb_spec 0 n) as [Hn|Hn]; [|done]. assert (0 < qz n)%Q by (by apply (qz_lt 0 n)).
  split; [apply Qle_shift_div_l; lra|apply Qle_shift_div_r; lra].
Qed.

Lemma ratio_mono a a' b n d : (a <= a')%Q -> (b == qz n)%Q -> (ratio a b n d <= ratio a' b n d)%Q.
Proof.
  intros Ha Hb. unfold ratio. destruct (Z.ltb_spec 0 n) as [Hn|Hn]; [|apply Qle_refl]. assert (0 < qz n)%Q by (by apply (qz_lt 0 n)).
  unfold Qdiv. apply Qmult_le_compat_r; [done|]. apply Qinv_le_0_compat. lra.
Qed.

Lemma rnd_bounds q : (0 <= q <= 1)%Q -> (0 <= rnd 6 q <= 1)%Q.
Proof.
  intros [H0 H1]. pose proof (rnd_mono 6 _ _ H0). pose proof (rnd_mono 6 _ _ H1).
  assert (rnd 6 0 == 0)%Q by (vm_compute; reflexivity). assert (rnd 6 1 == 1)%Q by (vm_compute; reflexivity). lra.
Qed.

(** The metrics of well-formed reports. *)
Lemma summary_bounds r reports : List.Forall report_ok reports ->
  let e := eval_summary r reports in
  (0 <= mrr e)%Q /\ (mrr e <= recallAtK e)%Q /\ (recallAtK e <= 1)%Q /\ (0 <= numericExactness e <= 1)%Q /\
  (ev_passed e = true -> 0 < ev_evaluated e).
Proof.
  intros Hr. cbv zeta. unfold eval_summary. cbn [mrr recallAtK numericExactness ev_passed ev_evaluated].
  set (l := List.filter cr_has_expectations reports).
  assert (List.Forall report_ok l) as Hl.
  { apply List.Forall_forall. intros c [Hc _]%filter_In. rewrite List.Forall_forall in Hr. auto. }
  pose proof (sum_reciprocal l Hl) as [Hs0 Hs1]. pose proof (sum_matched reports Hr) as [Hm0 Hm1].
  set (hits := qz (Z.of_nat (length (List.filter cr_hit l)))) in *. set (sum := fold_right Qplus 0%Q _) in *.
  assert (0 <= hits <= qz (Z.of_nat (length l)))%Q as Hh.
  { split; [apply (qz_le 0); lia|]. apply qz_le. pose proof (filter_length_le cr_hit l). lia. }
  assert (0 <= ratio sum (qz (Z.of_nat (length l))) (Z.of_nat (length l)) 0 <= 1)%Q as Hb1 by (apply ratio_bounds; [lra|apply Qeq_refl|lra]).
  assert (0 <= ratio hits (qz (Z.of_nat (length l))) (Z.of_nat (length l)) 0 <= 1)%Q as Hb2 by (apply ratio_bounds; [lra|apply Qeq_refl|lra]).
  split; [apply rnd_bounds; done|]. split; [apply rnd_mono, ratio_mono; [done|apply Qeq_refl]|]. split; [apply rnd_bounds; done|]. split.
  - apply rnd_bounds, ratio_bounds; [|apply Qeq_refl|lra]. split; [by apply (qz_le 0)|by apply qz_le].
  - intros [[[H _]%andb_true_iff _]%andb_true_iff _]%andb_true_iff. by apply Z.ltb_lt.
Qed.

Section evaluation.
Context {W : Type} `{!MemoryFiles W}.
Variable E : search_env.
Variable R : recall_config.
Variable parse_float : string -> option Q.
Variables (PREFERENCE_MAX_ENTRIES : Z) (LEARNING_LOOP_ENABLED : bool) (TASK_DB_LOCK_RETRIES : Z).

Lemma evaluate_cases_ok r k cases : forall index s s' reports,
  evaluate_cases E R parse_float PREFERENCE_MAX_ENTRIES LEARNING_LOOP_ENABLED TASK_DB_LOCK_RETRIES r k index cases s = (s', Ok reports) ->
  length reports = length cases /\ List.Forall report_ok reports.
Proof.
  induction cases as [|c cases IH]; intros index s s' reports; cbn [evaluate_cases]; [intros [= _ <-]; split; [done|constructor]|].
  unfold st_bind at 1, evaluate_case, st_bind at 1. destruct (search_memory _ _ _ _ _ _ _ s) as [s1 [out|e]]; [|done].
  unfold st_bind at 1, st_lift at 1. destruct (expected_file_tokens c) as [files|e]; [|done].
  unfold st_bind at 1, st_lift at 1. destruct (_match_rank_within_k _ _ _ _) as [rank|e] eqn:Er; [|done]. cbv zeta. unfold st_ret at 1.
  unfold st_bind. destruct (evaluate_cases _ _ _ _ _ _ _ _ _ _ s1) as [s2 [rest|e]] eqn:Ee; [|done]. intros [= _ <-].
  apply IH in Ee as [Hl Hf]. split; [cbn; lia|]. constructor; [|done]. split; [done|]. cbn. split.
  - intros n ->. by eapply match_rank_positive.
  - apply filter_length_le.
Qed.

(** The metrics of an evaluation of recall are in range: there is a report per
    case, [0 <= mrr <= recallAtK <= 1] and the numeric exactness is between 0 and
    1, and an evaluation passes only if a case with expectations was evaluated. *)
Theorem evaluation_metrics_in_range r s s' e :
  evaluate_memory_recall E R parse_float PREFERENCE_MAX_ENTRIES LEARNING_LOOP_ENABLED TASK_DB_LOCK_RETRIES r s = (s', Ok e) ->
  length (ev_reports e) = length (ev_cases r) /\ (0 <= mrr e)%Q /\ (mrr e <= recallAtK e)%Q /\ (recallAtK e <= 1)%Q /\
  (0 <= numericExactness e <= 1)%Q /\ (ev_passed e = true -> 0 < ev_evaluated e).
Proof.
  unfold evaluate_memory_recall. destruct (ev_cases r) as [|c cases]; [done|]. unfold st_bind.
  destruct (evaluate_cases _ _ _ _ _ _ _ _ _ _ s) as [s1 [reports|x]] eqn:Ec; [|done]. intros [= _ <-].
  apply evaluate_cases_ok in Ec as [Hl Hf]. split; [exact Hl|]. by apply summary_bounds.
Qed.
End evaluation.

(** ** Ids of the memory engine *)

Lemma split_at_none sep c s : has_char c s = false -> startswith sep (String c "") = true -> split_at sep s = None.
Proof.
  destruct sep as [|d sep]; cbn; [done|]. intros Hs Hc. assert (c = d) as -> by (apply andb_true_iff in Hc as [H _]; by apply Ascii.eqb_eq in H).
  clear Hc. induction s as [|a s IH]; [done|]. cbn [has_char split_at startswith] in *. apply orb_false_iff in Hs as [H1 H2].
  rewrite Ascii.eqb_sym, H1. cbn [andb]. by rewrite IH.
Qed.

Lemma has_char_strip c s : has_char c s = false -> has_char c (strip s) = false.
Proof.
  destruct (strip_part s) as (a & b & He). intros H. rewrite He, !has_char_app in H. by apply orb_false_iff in H as [_ [H _]%orb_false_iff].
Qed.

Section engine.
Context {W : Type} `{!MemoryFiles W}.

(** The id that the memory engine returns for a new memory is refused by its
    other calls: it is the id of the write event when there is one, and such an
    id, without a slash or a colon, is not of the form that reading, updating and
    looking for neighbours expect. *)
Theorem new_memory_id_is_refused (s s' s'' : api_state W) payload id r ev :
  engine_memory_put payload s = (s', Ok (id, r)) -> dget r "event_id" = JStr ev -> truthy ev = true ->
  has_char ":" ev = false -> has_char "/" ev = false ->
  id = ev /\ exists message, engine_memory_get id s'' = (s'', Raise (HTTPException 422 message)).
Proof.
  intros Hput Hev Ht Hc Hs. unfold engine_memory_put in Hput. destruct (negb _ || negb _); [done|]. unfold st_bind in Hput.
  destruct (on_files _ s) as [s1 [r1|e]]; [|done]. injection Hput as _ <- <-. rewrite Hev.
  assert (jor (JStr ev) (JStr (strip (jstr_or_empty (dget (inner "item" payload) "project")) +:+ "::" +:+
    strip (jstr_or_empty (jor (dget (inner "item" payload) "file_name") (dget (inner "item" payload) "file"))))) = JStr ev) as ->
    by (unfold jor; cbn [jtruthy]; by rewrite Ht).
  split; [done|]. cbn [jstr]. unfold engine_memory_get, st_bind, st_lift, _engine_split_memory_id.
  destruct (negb (truthy (strip ev))); [by eexists|].
  rewrite (split_at_none "::" ":"), (split_at_none "/" "/") by (done || by apply has_char_strip). by eexists.
Qed.
End engine.

(** ** Examples and witnesses *)

(** Files that cannot be read; a write answers with the id of its event. *)
#[export] Instance demo_files : MemoryFiles unit := {|
  read_project_file := fun _ _ => st_raise (OtherError "ReadTimeout" "");
  read_or_missing := fun _ _ => st_ret "text";
  write_memory_op := fun _ _ _ _ => st_ret [("event_id", JStr "9f2c")];
  search_rollups_op := fun _ _ _ _ => st_ret [] |}.

Definition demo_api : api_state unit :=
  mkApi (mkRecallState no_search no_quality) (mkProfiles [("default", _default_agent_memory_profile (G demo_env) default_recall (repr_float demo_env))] None)
    (mkDb [] [FailBefore (OperationalError "unable to open database file")]) tt.
Definition demo_search : search_in :=
  mkSearchIn "deploy notes" 5 None true (Some "ops/db") (Some "fast") None [] true true true None true None None None.
Definition half (_ : string) : option Q := Some (1 # 2)%Q.

Lemma search_endpoint_answers_witness :
  exists s' out, search_memory demo_env default_recall half 25 true 5 demo_search demo_api = (s', Ok out) /\
    Z.of_nat (length (so_results out)) <= 5 /\ so_agent_id out = "default".
Proof.
  destruct (recall_profile_of half (_default_agent_memory_profile (G demo_env) default_recall (repr_float demo_env))) as [settings|] eqn:Es;
    [|vm_compute in Es; discriminate Es].
  destruct (search_endpoint_answers demo_env default_recall half 25 true 5 demo_search demo_api (Some "ops/db") "default"
    (_default_agent_memory_profile (G demo_env) default_recall (repr_float demo_env)) settings no_templates)
    as (s' & out & pref & r1 & r2 & ans & H1 & _ & _ & _ & _ & _ & _ & _ & H2 & H3 & _).
  - vm_compute. reflexivity.
  - vm_compute. reflexivity.
  - vm_compute. reflexivity.
  - exact Es.
  - exists s', out. split; [exact H1|]. split; [exact H2|exact H3].
Defined.

Definition demo_rows : list dict := [[("file", JStr "a.md")]; [("file", JStr "ops/b.md")]; [("file", JStr "b.md")]].

Lemma match_rank_is_first_hit_witness :
  exists before row after, demo_rows = before ++ row :: after /\ length before = 1%nat /\ _result_hits_expectations row ["b.md"] [] = Ok true.
Proof.
  destruct (match_rank_is_first_hit demo_rows ["b.md"] [] 5 2 ltac:(vm_compute; reflexivity)) as (_ & before & row & after & H1 & H2 & H3 & _).
  exists before, row, after. split; [exact H1|]. split; [lia|exact H3].
Defined.

Definition demo_eval : eval_request :=
  mkEvalRequest [mkCase None "deploy notes" 5 None None None None [] None None None ["a.md"] [] ["42"]] 5 false false None (1 # 2) (1 # 2) (1 # 2).

Lemma evaluation_metrics_in_range_witness :
  exists s' e, evaluate_memory_recall demo_env default_recall half 25 true 5 demo_eval demo_api = (s', Ok e) /\ (mrr e <= recallAtK e)%Q.
Proof.
  destruct (evaluate_memory_recall demo_env default_recall half 25 true 5 demo_eval demo_api) as [s' [e|x]] eqn:Ee.
  - exists s', e. split; [reflexivity|].
    destruct (evaluation_metrics_in_range demo_env default_recall half 25 true 5 demo_eval demo_api s' e Ee) as (_ & _ & H & _). exact H.
  - assert (match snd (evaluate_memory_recall demo_env default_recall half 25 true 5 demo_eval demo_api) with Ok _ => true | Raise _ => false end = true) as H
      by (vm_compute; reflexivity).
    rewrite Ee in H. discriminate H.
Defined.

Lemma new_memory_id_is_refused_witness :
  exists id r, engine_memory_put [("project", JStr "P"); ("file", JStr "a.md"); ("content", JStr "x")] demo_api = (demo_api, Ok (id, r)) /\
    exists message, engine_memory_get id demo_api = (demo_api, Raise (HTTPException 422 message)).
Proof.
  exists "9f2c", [("event_id", JStr "9f2c")]. split; [vm_compute; reflexivity|].
  destruct (new_memory_id_is_refused demo_api demo_api demo_api [("project", JStr "P"); ("file", JStr "a.md"); ("content", JStr "x")] "9f2c"
    [("event_id", JStr "9f2c")] "9f2c") as [_ H]; [vm_compute; reflexivity|reflexivity..|exact H].
Defined.

(** A memory that holds a JSON list cannot be updated. *)
Example update_of_a_list_raises :
  let files := {| read_project_file := fun _ _ => st_raise (OtherError "" ""); read_or_missing := fun _ _ => st_ret "[1, 2]";
                  write_memory_op := fun _ _ _ _ => st_ret []; search_rollups_op := fun _ _ _ _ => st_ret [] |} : MemoryFiles unit in
  snd (engine_memory_update (MemoryFiles0 := files) [("memory_id", JStr "P::a.json"); ("patch", JObj [("k", JInt 1)])] demo_api) =
    Raise (OtherError "AttributeError" "object has no attribute 'update'").
Proof. vm_compute. reflexivity. Qed.

(** The documented form of an id is read back. *)
Example engine_ids : _engine_split_memory_id " P:: notes/a.md " = Ok ("P", "notes/a.md") /\ _engine_split_memory_id "P/notes/a.md" = Ok ("P", "notes/a.md").
Proof. split; vm_compute; reflexivity. Qed.
