(* ===== verification/Topics.v ===== *)
(** * The topic tree and the topic rollups

    The tree that counts the writes under every topic ([_update_topic_tree]),
    its listing, the rollups built from the tree and a window of recent writes
    ([_build_topic_rollup_snapshot_from_entries]), their backfill from a store,
    the hold that protects a backfill, and the round of the rollup worker. *)

From S2P Require Import Prelude PyStr PyTime Json JsonText Paths Policy OutboxMaint WriteBuffer Regex Caches Ranking SourcePolicy Sources Tasks TaskExec Profiles.
From Stdlib Require Import Ascii QArith.
Open Scope Z_scope.

(** ** The tree *)

(** [{"count": n, "children": {...}}] by project; see [WriteBuffer]. *)
Abbreviation topic_tree := (list (string * topic_node)).

Definition new_node : topic_node := Node 0 [].

(** [children.setdefault(segment, {"count": 0, "children": {}})] *)
Definition child (segment : string) (l : list (string * topic_node)) : topic_node :=
  match clookup segment l with Some n => n | None => new_node end.

Definition segments_of (topic_path : string) : list string := List.filter truthy (PyStr.split slash topic_path).

(** The JSON of the file; keys are sorted when it is written. *)
Fixpoint node_json (n : topic_node) : json :=
  match n with
  | Node c ch => JObj [("count", JInt c); ("children", JObj (map (fun kv => (fst kv, node_json (snd kv))) ch))]
  end.
Definition tree_json (t : topic_tree) : dict := map (fun kv => (fst kv, node_json (snd kv))) t.

(** Without a file the tree is counted from the history of writes. *)
Definition history_write (DEFAULT_TOPIC_ROOT : string) (t : topic_tree) (entry : dict) : topic_tree :=
  let project := dget entry "project" in
  if jtruthy project then _update_topic_tree (jstr project) (jstr (jor (dget entry "topic_path") (JStr DEFAULT_TOPIC_ROOT))) t else t.
Definition tree_of_history (DEFAULT_TOPIC_ROOT : string) (history : list dict) : topic_tree :=
  fold_left (history_write DEFAULT_TOPIC_ROOT) history [].

(** [f"{prefix}/{segment}" if prefix else segment] *)
Definition under (prefix segment : string) : string := if truthy prefix then prefix +:+ "/" +:+ segment else segment.

(** The paths in the order of the generator. *)
Fixpoint _iter_topic_paths (depth : nat) (prefix : string) (n : topic_node) : list (string * Z) :=
  match depth with
  | O => []
  | S d => concat (map (fun kv => let path := under prefix (fst kv) in (path, Z.max 0 (node_count (snd kv))) :: _iter_topic_paths d path (snd kv))
                     (node_children n))
  end.

Record topic_item := mkTopic { ti_project : string; ti_path : string; ti_count : Z }.

Definition topic_le (a b : topic_item) : bool :=
  if ti_count a =? ti_count b then
    if ti_project a =s ti_project b then str_leb (ti_path a) (ti_path b) else str_leb (ti_project a) (ti_project b)
  else ti_count b <? ti_count a.

Definition prefix_of (prefix : option string) : result (option string) :=
  if truthy (opt_str prefix) then let! p := normalize_topic_path (opt_str prefix) in Ok (Some p) else Ok None.

Definition has_prefix (normalized : option string) (path : string) : bool :=
  negb (truthy (opt_str normalized)) || startswith path (opt_str normalized).

Definition project_topics (depth : nat) (min_count : Z) (normalized : option string) (name : string) (n : topic_node) : list topic_item :=
  map (fun pc => mkTopic name (fst pc) (snd pc))
    (List.filter (fun pc => negb (snd pc <? min_count) && has_prefix normalized (fst pc)) (_iter_topic_paths depth "" n)).

(** The topics and how many there are in all. *)
Definition _list_topics_snapshot (project prefix : option string) (limit min_count depth : Z) (t : topic_tree) : result (list topic_item * Z) :=
  let depth := Z.to_nat (Z.max 1 (Z.min depth 16)) in
  let limit := Z.max 1 (Z.min limit 5000) in
  let min_count := Z.max 1 min_count in
  let! normalized := prefix_of prefix in
  let topics :=
    if truthy (opt_str project) then project_topics depth min_count normalized (opt_str project) (child (opt_str project) t)
    else concat (map (fun kv => project_topics depth min_count normalized (fst kv) (snd kv)) t) in
  let topics := sort_by topic_le topics in
  Ok (upto limit topics, Z.of_nat (length topics)).

(** ** Rollups *)

Record rollup_config := mkRollupConfig {
  TOPIC_ROLLUP_HISTORY_SCAN_LIMIT : Z; TOPIC_ROLLUP_MAX_SUMMARY_SNIPPETS : Z; TOPIC_ROLLUP_MAX_NUMERIC_FACTS : Z;
  TOPIC_ROLLUP_MAX_UNIQUE_FILES : Z; TOPIC_ROLLUP_BACKFILL_HOLD_SECS : Z; (* microseconds *)
  ROLLUP_LOW_VALUE_PREFIXES : list string; ROLLUP_TOPIC_ROOT : string }.
Definition default_rollups : rollup_config :=
  mkRollupConfig 600 8 16 24 (1800 * us_per_sec) ["telemetry"; "metrics"; "signals"; "overrides"; "perf"; "tmp"] "root".

Record rollup_fact := mkRollupFact { rf_value : string; rf_file : string; rf_topic : string; rf_timestamp : option string; rf_snippet : string }.

(** An entry while it is built; [_unique_files] is a set, kept in the order of
    insertion. *)
Record rollup := mkRollup {
  r_path : string; eventCount : Z; recentEventCount : Z; r_files : list string; latestTimestamp : option string; summarySnippets : list string;
  numericFacts : list rollup_fact; r_children : list string; snippet_seen : list string; fact_seen : list string }.

Section rollups.
Variable C : rollup_config.
(** [hashlib.sha1(...).hexdigest()] *)
Variable sha1 : string -> string.

(** [(?<![A-Za-z0-9_])[-+]?\d[\d,]*(?:\.\d+)?%?] *)
Definition rollup_number : re :=
  Seq (NotAfter is_word) (Seq (Rep (one_of ["-"; "+"]%char) 0 (Some 1%nat))
    (Seq (Cls is_digit) (Seq (Rep (fun c => is_digit c || Ascii.eqb c ",") 0 None)
      (Seq (Alt (Seq (Cls (Ascii.eqb ".")) (Rep is_digit 1 None)) Eps) (opt_char "%"))))).

(** The spans of the matches; [at_] is the position of [s]. *)
Fixpoint finditer_from (fuel : nat) (r : re) (prev : option ascii) (s : string) (at_ : nat) : list (nat * nat) :=
  match fuel, s with
  | S fuel', String c s' =>
      match match_at r (prev, s) with
      | Some q => let e := (at_ + (String.length s - String.length (snd q)))%nat in (at_, e) :: finditer_from fuel' r (fst q) (snd q) e
      | None => finditer_from fuel' r (Some c) s' (S at_)
      end
  | _, _ => []
  end.
Definition finditer (r : re) (text : string) : list (nat * nat) := finditer_from (String.length text) r None text 0.

(** [text[a:b]] *)
Definition slice (text : string) (a b : nat) : string := take (b - a) (drop a text).

Fixpoint rollup_facts (summary source_file topic_path : string) (timestamp : option string) (spans : list (nat * nat)) (seen : list string)
    (n : nat) : list rollup_fact :=
  match spans with
  | [] => []
  | (a, b) :: rest =>
      let token := strip (slice summary a b) in
      let snippet := _topic_rollup_sanitize_text (slice summary (a - 28) (Nat.min (String.length summary) (b + 28))) 96 in
      let key := token +:+ "|" +:+ snippet in
      if negb (truthy token) || mem_str key seen then rollup_facts summary source_file topic_path timestamp rest seen n
      else
        mkRollupFact token source_file topic_path timestamp snippet ::
        (if TOPIC_ROLLUP_MAX_NUMERIC_FACTS C <=? Z.of_nat (S n) then []
         else rollup_facts summary source_file topic_path timestamp rest (key :: seen) (S n))
  end.

Definition _topic_rollup_extract_numeric_facts (summary source_file topic_path : string) (timestamp : option string) : list rollup_fact :=
  if negb (truthy summary) then [] else rollup_facts summary source_file topic_path timestamp (finditer rollup_number summary) [] 0.

Definition _topic_rollup_path_prefixes (topic_path : string) : result (list string) :=
  let! normalized := normalize_topic_path topic_path in
  Ok (match segments_of normalized with [] => [ROLLUP_TOPIC_ROOT C] | segments => tag_prefixes [] segments end).

Definition _new_topic_rollup_entry (path : string) (event_count : Z) (children : list string) : rollup :=
  mkRollup path (Z.max 0 event_count) 0 [] None [] [] (sorted_set (List.filter truthy children)) [] [].

Abbreviation topics := (list (string * rollup)).

Definition seed_entry (path : string) (n : topic_node) (target : topics) : topics :=
  let child_paths := map (fun kv => path +:+ "/" +:+ fst kv) (List.filter (fun kv => truthy (fst kv)) (node_children n)) in
  match clookup path target with
  | None => cset path (_new_topic_rollup_entry path (node_count n) child_paths) target
  | Some e =>
      cset path (mkRollup (r_path e) (Z.max (eventCount e) (node_count n)) (recentEventCount e) (r_files e) (latestTimestamp e) (summarySnippets e)
                   (numericFacts e) (sorted_set (r_children e ++ child_paths)) (snippet_seen e) (fact_seen e)) target
  end.

(** The depth-first walk: a node is seeded before its children. *)
Fixpoint walk (n : topic_node) (prefix : string) (target : topics) {struct n} : topics :=
  match n with
  | Node _ children =>
      (fix go (l : list (string * topic_node)) (target : topics) {struct l} : topics :=
         match l with
         | [] => target
         | (segment, c) :: rest => let path := under prefix segment in go rest (walk c path (seed_entry path c target))
         end) children target
  end.

Definition _seed_topic_rollups_from_tree (t : topic_tree) : list (string * topics) :=
  fold_left (fun seeded kv => cset (fst kv) (walk (snd kv) "" []) seeded) t [].

(** The facts of one write, on one entry. *)
Fixpoint add_facts (new : list rollup_fact) (facts : list rollup_fact) (seen : list string) : list rollup_fact * list string :=
  match new with
  | [] => (facts, seen)
  | f :: rest =>
      let key := join "|" [rf_value f; rf_file f; rf_snippet f] in
      if mem_str key seen then add_facts rest facts seen
      else if TOPIC_ROLLUP_MAX_NUMERIC_FACTS C <=? Z.of_nat (length facts) then (facts, seen)
      else add_facts rest (facts ++ [f]) (key :: seen)
  end.

Record row_parts := mkParts { rp_file : string; rp_timestamp : option string; rp_snippet : string; rp_facts : list rollup_fact }.

(** [timestamp and (not latest or timestamp > latest)] *)
Definition later (timestamp latest : option string) : option string :=
  match timestamp with
  | None => latest
  | Some t => if negb (truthy (opt_str latest)) || negb (str_leb t (opt_str latest)) then timestamp else latest
  end.

Definition touch (p : row_parts) (child_path : option string) (e : rollup) : rollup :=
  let children := match child_path with Some c => sorted_set (r_children e ++ [c]) | None => r_children e end in
  let recent := recentEventCount e + 1 in
  let files := if truthy (rp_file p) && negb (mem_str (rp_file p) (r_files e)) then r_files e ++ [rp_file p] else r_files e in
  let fresh := truthy (rp_snippet p) && negb (mem_str (rp_snippet p) (snippet_seen e))
               && (Z.of_nat (length (summarySnippets e)) <? TOPIC_ROLLUP_MAX_SUMMARY_SNIPPETS C) in
  let '(facts, seen) := add_facts (rp_facts p) (numericFacts e) (fact_seen e) in
  mkRollup (r_path e) (Z.max (eventCount e) recent) recent files (later (rp_timestamp p) (latestTimestamp e))
    (if fresh then summarySnippets e ++ [rp_snippet p] else summarySnippets e) facts children
    (if fresh then rp_snippet p :: snippet_seen e else snippet_seen e) seen.

Definition entry_at (path : string) (t : topics) : rollup :=
  match clookup path t with Some e => e | None => _new_topic_rollup_entry path 0 [] end.

Fixpoint touch_paths (p : row_parts) (paths : list string) (t : topics) : topics :=
  match paths with
  | [] => t
  | path :: rest => touch_paths p rest (cset path (touch p (match rest with c :: _ => Some c | [] => None end) (entry_at path t)) t)
  end.

Record build_state := mkBuild { b_topics : list (string * topics); b_deduped : Z; b_seen : list string }.

Definition row_signature (project file summary : string) : string := sha1 (project +:+ nl +:+ file +:+ nl +:+ summary).

(** The topic of a row. *)
Definition row_topic (row : dict) (file : string) : result string :=
  let! given := normalize_topic_path (jstr_or_empty (dget row "topic_path")) in
  if truthy given then Ok given else derive_topic_path (ROLLUP_TOPIC_ROOT C) file None.

Definition add_row (s : build_state) (row : dict) : result build_state :=
  let project := strip (jstr_or_empty (dget row "project")) in
  let file := strip (jstr_or_empty (dget row "file")) in
  let summary := jstr_or_empty (dget row "summary") in
  let signature := row_signature project file summary in
  if negb (truthy project) || mem_str signature (b_seen s) then Ok s
  else
    let! topic_path := row_topic row file in
    let! paths := _topic_rollup_path_prefixes topic_path in
    let timestamp := let t := strip (jstr_or_empty (dget row "timestamp")) in if truthy t then Some t else None in
    let parts := mkParts file timestamp (_topic_rollup_sanitize_text summary 260)
                   (_topic_rollup_extract_numeric_facts summary file topic_path timestamp) in
    let t := match clookup project (b_topics s) with Some t => t | None => [] end in
    Ok (mkBuild (cset project (touch_paths parts paths t) (b_topics s)) (b_deduped s + 1) (signature :: b_seen s)).

Fixpoint add_rows (rows : list dict) (s : build_state) : result build_state :=
  match rows with [] => Ok s | row :: rest => let! s' := add_row s row in add_rows rest s' end.

(** ** Finished entries *)

Definition inferences (e : rollup) (unique : Z) : list string :=
  firstn 3
    ((if (unique <? recentEventCount e) && (0 <? unique) then ["Recent activity indicates repeated updates on a small file set."] else [])
     ++ (if existsb (fun p => startswith (lower (r_path e)) p) (ROLLUP_LOW_VALUE_PREFIXES C)
         then ["Operational/telemetry topic; lower retrieval priority may reduce noise."] else [])
     ++ (match summarySnippets e with [] => ["No recent summary snippets observed for this topic in the local scan window."] | _ => [] end)).

Definition fact_json (f : rollup_fact) : json :=
  JObj [("value", JStr (rf_value f)); ("sourceFile", JStr (rf_file f)); ("topicPath", JStr (rf_topic f)); ("timestamp", jopt (rf_timestamp f));
        ("snippet", JStr (rf_snippet f))].

Definition count_slashes (s : string) : Z := Z.of_nat (length (PyStr.split slash s)) - 1.

Definition _finalize_topic_rollup_entry (e : rollup) : dict :=
  let unique_files := sort_by str_leb (List.filter truthy (r_files e)) in
  let unique := Z.of_nat (length unique_files) in
  [("path", JStr (r_path e)); ("depth", JInt (Z.max 1 (count_slashes (r_path e) + 1))); ("eventCount", JInt (eventCount e));
   ("recentEventCount", JInt (recentEventCount e)); ("uniqueFileCount", JInt unique);
   ("uniqueFiles", JList (map JStr (upto (TOPIC_ROLLUP_MAX_UNIQUE_FILES C) unique_files))); ("latestTimestamp", jopt (latestTimestamp e));
   ("summarySnippets", JList (map JStr (upto (TOPIC_ROLLUP_MAX_SUMMARY_SNIPPETS C) (summarySnippets e))));
   ("numericFacts", JList (map fact_json (upto (TOPIC_ROLLUP_MAX_NUMERIC_FACTS C) (numericFacts e))));
   ("inference", JList (map JStr (inferences e unique))); ("children", JList (map JStr (r_children e)))].

(** Descending by events, then by recent events, then by path. *)
Definition rollup_le (a b : rollup) : bool :=
  if eventCount a =? eventCount b then
    if recentEventCount a =? recentEventCount b then str_leb (r_path a) (r_path b) else recentEventCount b <? recentEventCount a
  else eventCount b <? eventCount a.

Definition project_payload (t : topics) : json :=
  let rows := sort_by rollup_le (map snd t) in
  JObj [("topicCount", JInt (Z.of_nat (length rows))); ("topics", JList (map (fun e => JObj (_finalize_topic_rollup_entry e)) rows))].

Definition sum_lengths (l : list (string * topics)) : Z := fold_right Z.add 0 (map (fun kv => Z.of_nat (length (snd kv))) l).

Definition _build_topic_rollup_snapshot_from_entries (now : Z) (entries : list dict) (tree : topic_tree) (scanned_count : Z) : result dict :=
  let! s := add_rows entries (mkBuild (_seed_topic_rollups_from_tree tree) 0 []) in
  Ok [("generatedAt", JStr (_utc_now now)); ("historyEntriesScanned", JInt scanned_count); ("historyEntriesDeduped", JInt (b_deduped s));
      ("projects", JObj (map (fun kv => (fst kv, project_payload (snd kv))) (b_topics s)));
      ("projectsCount", JInt (Z.of_nat (length (b_topics s)))); ("topicsCount", JInt (sum_lengths (b_topics s)))].
End rollups.

(** ** The index and the worker *)

(** The remote stores: pages of the vector index, from an offset, and the newest
    documents of the raw store. *)
Class RollupStores (W : Type) := {
  scroll_page : option string -> Z -> json -> ST W (list dict * json);
  raw_store_ready : ST W bool;
  newest_documents : option string -> Z -> ST W (list dict) }.

Record topic_rollup_health := mkTopicRollupHealth {
  rh_runs : Z; rh_lastRunAt : option string; rh_lastDurationMs : option Q; rh_lastError : option string; rh_lastGeneratedAt : json;
  rh_projects : Z; rh_topics : Z; rh_scanned : Z; rh_deduped : Z; rh_lastSource : option string; lastBackfillAt : option string;
  lastBackfillSource : option string; lastBackfillRowsScanned : Z; lastBackfillProject : option string; backfillHoldUntil : option string;
  backfillHoldRemainingSecs : Q; skippedDueToBackfillHold : Z }.
Definition no_rollup_health : topic_rollup_health :=
  mkTopicRollupHealth 0 None None None JNull 0 0 0 0 None None None 0 None None 0 0.

(** [topic_tree], [topic_rollup_index], [topic_rollup_health], the end of the
    hold on the monotonic clock and [memory_write_history]; the two files. *)
Record topic_state (W : Type) := mkTopicState {
  ts_tree : topic_tree; ts_index : dict; ts_health : topic_rollup_health; hold_until : Z; ts_history : list dict; tree_file : option json;
  index_file : option json; ts_world : W }.
Arguments mkTopicState {W}. Arguments ts_tree {W}. Arguments ts_index {W}. Arguments ts_health {W}. Arguments hold_until {W}.
Arguments ts_history {W}. Arguments tree_file {W}. Arguments index_file {W}. Arguments ts_world {W}.

Section worker.
Context {W : Type} `{!RollupStores W}.
Variable C : rollup_config.
Variables (sha1 : string -> string) (parse_float : string -> option Q).
(** Are files written? An error is logged only. *)
Variable write_ok : bool.

Abbreviation M := (ST (topic_state W)).

Definition on_stores {A} (m : ST W A) : M A := fun s =>
  let '(w, r) := m (ts_world s) in
  (mkTopicState (ts_tree s) (ts_index s) (ts_health s) (hold_until s) (ts_history s) (tree_file s) (index_file s) w, r).
Definition set_rollup_health (f : topic_rollup_health -> topic_rollup_health) : M unit := fun s =>
  (mkTopicState (ts_tree s) (ts_index s) (f (ts_health s)) (hold_until s) (ts_history s) (tree_file s) (index_file s) (ts_world s), Ok tt).
Definition set_hold (t : Z) : M unit := fun s =>
  (mkTopicState (ts_tree s) (ts_index s) (ts_health s) t (ts_history s) (tree_file s) (index_file s) (ts_world s), Ok tt).

(** A write: the tree is changed and saved. *)
Definition record_topic (project topic_path : string) : M unit := fun s =>
  let t := _update_topic_tree project topic_path (ts_tree s) in
  (mkTopicState t (ts_index s) (ts_health s) (hold_until s) (ts_history s)
     (if write_ok then Some (sort_json (JObj (tree_json t))) else tree_file s) (index_file s) (ts_world s), Ok tt).

(** *** The hold *)

Definition _topic_rollup_hold_remaining_secs (mono : Z) (s : topic_state W) : Z :=
  if hold_until s <=? 0 then 0 else Z.max 0 (hold_until s - mono).

Definition _topic_rollup_hold_until_iso (now mono : Z) (s : topic_state W) : option string :=
  let remaining := _topic_rollup_hold_remaining_secs mono s in
  if remaining <=? 0 then None else Some (_utc_iso_from_unix (now + remaining)).

Definition hold_health (until : option string) (remaining : Z) (h : topic_rollup_health) : topic_rollup_health :=
  mkTopicRollupHealth (rh_runs h) (rh_lastRunAt h) (rh_lastDurationMs h) (rh_lastError h) (rh_lastGeneratedAt h) (rh_projects h) (rh_topics h)
    (rh_scanned h) (rh_deduped h) (rh_lastSource h) (lastBackfillAt h) (lastBackfillSource h) (lastBackfillRowsScanned h) (lastBackfillProject h)
    until (rnd 3 (qz remaining / qz us_per_sec)) (skippedDueToBackfillHold h).

Definition _refresh_topic_rollup_hold_health (now mono : Z) : M Z :=
  s <- st_get ;;
  let remaining := _topic_rollup_hold_remaining_secs mono s in
  set_rollup_health (hold_health (_topic_rollup_hold_until_iso now mono s) remaining) ;;;
  st_ret remaining.

Definition _set_topic_rollup_backfill_hold (now mono : Z) : M unit :=
  set_hold (if TOPIC_ROLLUP_BACKFILL_HOLD_SECS C <=? 0 then 0 else mono + TOPIC_ROLLUP_BACKFILL_HOLD_SECS C) ;;;
  _refresh_topic_rollup_hold_health now mono ;;;
  st_ret tt.

Definition _topic_rollup_health_snapshot (now mono : Z) : M topic_rollup_health :=
  _refresh_topic_rollup_hold_health now mono ;;; s <- st_get ;; st_ret (ts_health s).

(** *** The index *)

Definition dict_int (d : dict) (k : string) : Z := match dget d k with JInt z => z | JBool true => 1 | _ => 0 end.

Definition run_health (now duration : Z) (source : string) (snapshot : dict) (h : topic_rollup_health) : topic_rollup_health :=
  mkTopicRollupHealth (rh_runs h + 1) (Some (_utc_now now)) (Some (rnd 2 (qz duration / 1000))) None (dget snapshot "generatedAt")
    (dict_int snapshot "projectsCount") (dict_int snapshot "topicsCount") (dict_int snapshot "historyEntriesScanned")
    (dict_int snapshot "historyEntriesDeduped") (Some source) (lastBackfillAt h) (lastBackfillSource h) (lastBackfillRowsScanned h)
    (lastBackfillProject h) (backfillHoldUntil h) (backfillHoldRemainingSecs h) (skippedDueToBackfillHold h).

(** [started], [mono]: readings of the monotonic clock. *)
Definition _set_topic_rollup_snapshot (now started mono : Z) (source : string) (snapshot : dict) : M dict :=
  (fun s => (mkTopicState (ts_tree s) snapshot (ts_health s) (hold_until s) (ts_history s) (tree_file s)
               (if write_ok then Some (sort_json (JObj snapshot)) else index_file s) (ts_world s), Ok tt)) ;;;
  set_rollup_health (run_health now (mono - started) source snapshot) ;;;
  _refresh_topic_rollup_hold_health now mono ;;;
  st_ret snapshot.

(** [l[-n:]] *)
Definition last_rows {A} (n : Z) (l : list A) : list A := skipn (length l - Z.to_nat n) l.

Definition rebuild_topic_rollups_once (now started mono : Z) : M dict :=
  s <- st_get ;;
  let history := last_rows (TOPIC_ROLLUP_HISTORY_SCAN_LIMIT C) (ts_history s) in
  snapshot <- st_lift (_build_topic_rollup_snapshot_from_entries C sha1 now history (ts_tree s) (Z.of_nat (length history))) ;;
  _set_topic_rollup_snapshot now started mono "history" snapshot.

(** *** Backfill *)

Definition _epoch_to_iso_utc (value : json) : option string :=
  match to_float parse_float value with
  | Ok q => Some (_utc_iso_from_unix (round_half_even (q * qz us_per_sec)))
  | Raise _ => None
  end.

Definition point_row (payload : dict) : option dict :=
  let project := strip (jstr_or_empty (dget payload "project")) in
  if negb (truthy project) then None
  else Some [("project", JStr project); ("file", JStr (jstr_or_empty (dget payload "file"))); ("topic_path", JStr (jstr_or_empty (dget payload "topic_path")));
             ("summary", JStr (jstr_or_empty (dget payload "summary"))); ("timestamp", jopt (_epoch_to_iso_utc (dget payload "ts")))].

(** [fuel] is the number of rows still wanted: a page that is not empty has at
    least one; see [qdrant_scan_ends]. *)
Fixpoint scroll_all (fuel : nat) (project : option string) (remaining : Z) (offset : json) : ST W (list dict) :=
  if negb (0 <? remaining) then st_ret []
  else
    page <- scroll_page project (Z.min 256 remaining) offset ;;
    let '(points, next_offset) := page in
    match points, fuel with
    | [], _ => st_ret []
    | _, O => st_raise (OtherError "fuel" "")
    | _, S fuel' =>
        match next_offset with
        | JNull => st_ret (somes (map point_row points))
        | _ => rest <- scroll_all fuel' project (remaining - Z.of_nat (length points)) next_offset ;;
               st_ret (somes (map point_row points) ++ rest)
        end
    end.

Definition _topic_rollup_entries_from_qdrant (scan_limit : Z) (project : option string) : ST W (list dict) :=
  scroll_all (Z.to_nat (Z.max 1 scan_limit)) project (Z.max 1 scan_limit) JNull.

Definition document_row (doc : dict) : dict :=
  map (fun kk => (fst kk, JStr (jstr_or_empty (dget doc (snd kk)))))
    [("project", "project"); ("file", "file"); ("topic_path", "topic_path"); ("summary", "summary"); ("timestamp", "updated_at")].

Definition _topic_rollup_entries_from_mongo (scan_limit : Z) (project : option string) : ST W (list dict) :=
  ready <- raw_store_ready ;;
  if negb ready then st_raise (OrchestratorError "mongo raw store unavailable")
  else docs <- newest_documents project (Z.max 1 scan_limit) ;; st_ret (map document_row docs).

Definition backfill_rows (source : string) (scan_limit : Z) (project : option string) : M (list dict) :=
  if source =s "qdrant" then on_stores (_topic_rollup_entries_from_qdrant scan_limit project)
  else if source =s "mongo_raw" then on_stores (_topic_rollup_entries_from_mongo scan_limit project)
  else if source =s "history" then (s <- st_get ;; st_ret (last_rows scan_limit (ts_history s)))
  else st_raise (HTTPException 400 "source must be one of: qdrant, mongo_raw, history").

Definition backfill_health (now : Z) (source : string) (rows : Z) (project : option string) (h : topic_rollup_health) : topic_rollup_health :=
  mkTopicRollupHealth (rh_runs h) (rh_lastRunAt h) (rh_lastDurationMs h) (rh_lastError h) (rh_lastGeneratedAt h) (rh_projects h) (rh_topics h)
    (rh_scanned h) (rh_deduped h) (rh_lastSource h) (Some (_utc_now now)) (Some source) rows project
    (backfillHoldUntil h) (backfillHoldRemainingSecs h) (skippedDueToBackfillHold h).

Definition backfill_topic_rollups_once (now started mono : Z) (source : string) (scan_limit : Z) (project : option string) : M dict :=
  s <- st_get ;;
  let resolved_source := lower (strip (str_or source "qdrant")) in
  rows <- backfill_rows resolved_source (Z.max 1 scan_limit) project ;;
  snapshot <- st_lift (_build_topic_rollup_snapshot_from_entries C sha1 now rows (ts_tree s) (Z.of_nat (length rows))) ;;
  _set_topic_rollup_snapshot now started mono ("backfill:" +:+ resolved_source) snapshot ;;;
  set_rollup_health (backfill_health now resolved_source (Z.of_nat (length rows)) project) ;;;
  _set_topic_rollup_backfill_hold now mono ;;;
  st_ret snapshot.

(** *** The worker *)

Definition skip_health (h : topic_rollup_health) : topic_rollup_health :=
  mkTopicRollupHealth (rh_runs h) (rh_lastRunAt h) (rh_lastDurationMs h) (rh_lastError h) (rh_lastGeneratedAt h) (rh_projects h) (rh_topics h)
    (rh_scanned h) (rh_deduped h) (rh_lastSource h) (lastBackfillAt h) (lastBackfillSource h) (lastBackfillRowsScanned h) (lastBackfillProject h)
    (backfillHoldUntil h) (backfillHoldRemainingSecs h) (skippedDueToBackfillHold h + 1).
Definition error_health (error : string) (h : topic_rollup_health) : topic_rollup_health :=
  mkTopicRollupHealth (rh_runs h) (rh_lastRunAt h) (rh_lastDurationMs h) (Some error) (rh_lastGeneratedAt h) (rh_projects h) (rh_topics h)
    (rh_scanned h) (rh_deduped h) (rh_lastSource h) (lastBackfillAt h) (lastBackfillSource h) (lastBackfillRowsScanned h) (lastBackfillProject h)
    (backfillHoldUntil h) (backfillHoldRemainingSecs h) (skippedDueToBackfillHold h).

(** One round of [_topic_rollup_worker], after its sleep. *)
Definition rollup_round (now mono ended : Z) : M unit :=
  st_try
    (remaining <- _refresh_topic_rollup_hold_health now mono ;;
     if 0 <? remaining then set_rollup_health skip_health
     else rebuild_topic_rollups_once now mono ended ;;; st_ret tt)
    (fun e => set_rollup_health (error_health (take 320 (exn_str e)))).

(** ** The listing of rollups *)

(** [{"project": name, **topic}] *)
Definition rollup_entry_json (name : string) (topic : dict) : dict := dupdate [("project", JStr name)] topic.

Definition item_le (a b : dict) : bool :=
  if dict_int a "eventCount" =? dict_int b "eventCount" then
    if dict_int a "recentEventCount" =? dict_int b "recentEventCount" then
      if jstr_or_empty (dget a "project") =s jstr_or_empty (dget b "project")
      then str_leb (jstr_or_empty (dget a "path")) (jstr_or_empty (dget b "path"))
      else str_leb (jstr_or_empty (dget a "project")) (jstr_or_empty (dget b "project"))
    else dict_int b "recentEventCount" <? dict_int a "recentEventCount"
  else dict_int b "eventCount" <? dict_int a "eventCount".

Definition listed_topic (name : string) (normalized : option string) (min_count : Z) (topic : dict) : result (option dict) :=
  let! path := normalize_topic_path (jstr_or_empty (dget topic "path")) in
  Ok (if truthy path && has_prefix normalized path && negb (dict_int topic "eventCount" <? min_count) then Some (rollup_entry_json name topic) else None).

Definition listed_project (project normalized : option string) (min_count : Z) (kv : string * json) : result (list dict) :=
  if truthy (opt_str project) && negb (fst kv =s opt_str project) then Ok []
  else match snd kv with
       | JObj payload =>
           let! rows := result_map (listed_topic (fst kv) normalized min_count) (dict_rows (as_list (dget payload "topics"))) in Ok (somes rows)
       | _ => Ok []
       end.

Definition _list_topic_rollups_snapshot (project prefix : option string) (limit min_count : Z) (index : dict) : result (list dict * Z) :=
  let limit := Z.max 1 (Z.min limit 5000) in
  let min_count := Z.max 1 min_count in
  let! normalized := prefix_of prefix in
  let! items := result_map (listed_project project normalized min_count) (as_dict (dget index "projects")) in
  let items := sort_by item_le (concat items) in
  Ok (upto limit items, Z.of_nat (length items)).
End worker.
