(* ===== verification/TopicsFacts.v ===== *)
(** * The topic tree and the topic rollups: theorems

    The count of every node is the number of writes under it, the listing shows
    exactly those counts, a rollup counts the distinct writes of its window, a
    backfill is protected by its hold, a scan of the vector index ends, and a
    backfill of one project empties the rollups of the others. *)

From S2P Require Import Prelude PyStr PyTime Json JsonText Paths Policy OutboxMaint WriteBuffer WriteBufferFacts Regex Caches Ranking RankingFacts SourcePolicy Sources Recall Tasks TaskExec Profiles Topics.
From Stdlib Require Import Ascii QArith.
Open Scope Z_scope.

(** ** The tree counts writes *)

Fixpoint is_prefix (q segments : list string) : bool :=
  match q, segments with
  | [], _ => true
  | a :: q', b :: s' => (a =s b) && is_prefix q' s'
  | _ :: _, [] => false
  end.

(** The count of a node, 0 where there is none. *)
Fixpoint count_at (q : list string) (n : topic_node) : Z :=
  match q with
  | [] => node_count n
  | s :: q' => match clookup s (node_children n) with Some c => count_at q' c | None => 0 end
  end.

Definition tree_count (project : string) (q : list string) (t : topic_tree) : Z :=
  match clookup project t with Some n => count_at q n | None => 0 end.

Lemma count_new q : count_at q new_node = 0.
Proof. by destruct q. Qed.

Lemma count_child s q l : count_at q (child s l) = match clookup s l with Some c => count_at q c | None => 0 end.
Proof. unfold child. destruct (clookup s l); [done|apply count_new]. Qed.

Lemma count_path_cons s rest n :
  count_path (s :: rest) n = Node (node_count n + 1) (cset s (count_path rest (child s (node_children n))) (node_children n)).
Proof. done. Qed.

Lemma update_spec project topic_path t :
  _update_topic_tree project topic_path t = cset project (count_path (segments_of topic_path) (child project t)) t.
Proof. done. Qed.

Lemma count_bump q : forall segments n, count_at q (count_path segments n) = count_at q n + one_if (is_prefix q segments).
Proof.
  induction q as [|s q IH]; intros [|x rest] n; rewrite ?count_path_cons;
    cbn [count_path count_at is_prefix node_count node_children one_if]; try lia.
  rewrite clookup_cset. destruct (String.eqb_spec s x) as [->|Hne]; cbn [andb]; [|cbn; lia]. rewrite IH, count_child. done.
Qed.

Definition write_all (ws : list (string * string)) (t : topic_tree) : topic_tree :=
  fold_left (fun t w => _update_topic_tree (fst w) (snd w) t) ws t.

(** A write under a topic of a project. *)
Definition under_topic (project : string) (q : list string) (w : string * string) : bool :=
  (fst w =s project) && is_prefix q (segments_of (snd w)).

Lemma count_update project q w t :
  tree_count project q (_update_topic_tree (fst w) (snd w) t) = tree_count project q t + one_if (under_topic project q w).
Proof.
  unfold tree_count, under_topic. rewrite update_spec, clookup_cset, (String.eqb_sym project).
  destruct (String.eqb_spec (fst w) project) as [->|]; cbn [andb one_if]; [|lia]. by rewrite count_bump, count_child.
Qed.

Lemma write_all_count project q ws : forall t,
  tree_count project q (write_all ws t) = tree_count project q t + Z.of_nat (length (List.filter (under_topic project q) ws)).
Proof.
  induction ws as [|w ws IH]; intros t; cbn [write_all fold_left List.filter]; [cbn; lia|].
  fold (write_all ws (_update_topic_tree (fst w) (snd w) t)). rewrite IH, count_update. destruct (under_topic project q w); cbn [one_if length]; lia.
Qed.

(** ** The listing *)

(** Trees whose keys are non-empty and not repeated. *)
Inductive node_ok : topic_node -> Prop :=
| node_ok_intro c l : List.NoDup (map fst l) -> (forall s n, In (s, n) l -> s <> "" /\ node_ok n) -> node_ok (Node c l).

Lemma child_ok s l : (forall k n, In (k, n) l -> k <> "" /\ node_ok n) -> node_ok (child s l).
Proof.
  intros H. unfold child. destruct (clookup s l) as [n|] eqn:E; [|constructor; [constructor|intros ? ? []]].
  apply clookup_In in E. by apply (H s n).
Qed.

Lemma bump_ok segments : List.Forall (fun s => s <> "") segments -> forall n, node_ok n -> node_ok (count_path segments n).
Proof.
  induction 1 as [|s rest Hs _ IH]; intros [c l] Hn; inversion Hn as [? ? Hd Hl]; subst; [by constructor|].
  rewrite count_path_cons. constructor; [by apply cset_NoDup|]. intros k n [[= -> ->]|H]%cset_In; [|by apply Hl]. split; [done|]. by apply IH, child_ok.
Qed.

Lemma segments_nonempty path : List.Forall (fun s => s <> "") (segments_of path).
Proof. apply List.Forall_forall. intros s [_ H]%filter_In ->. done. Qed.

Definition tree_ok (t : topic_tree) : Prop := forall p n, In (p, n) t -> node_ok n.

Lemma write_all_ok ws : forall t, tree_ok t -> tree_ok (write_all ws t).
Proof.
  induction ws as [|w ws IH]; intros t Ht; [done|]. apply IH. intros p n [[= -> ->]|H]%cset_In; [|by eapply Ht].
  apply bump_ok; [apply segments_nonempty|]. unfold child. destruct (clookup (fst w) t) as [n'|] eqn:E; [|constructor; [constructor|intros ? ? []]].
  apply clookup_In in E. by eapply Ht.
Qed.

Lemma under_join pre s : List.Forall (fun s => s <> "") pre -> under (join "/" pre) s = join "/" (pre ++ [s]).
Proof.
  intros Hp. unfold under. destruct pre as [|a pre]; [done|]. inversion Hp as [|? ? Ha _]; subst.
  assert (truthy (join "/" (a :: pre)) = true) as -> by (destruct a; [done|]; by destruct pre).
  clear. revert a. induction pre as [|b pre IH]; intros a; [done|].
  change (join "/" (a :: b :: pre)) with (a +:+ "/" +:+ join "/" (b :: pre)).
  change ((a :: b :: pre) ++ [s]) with (a :: ((b :: pre) ++ [s])).
  transitivity (a +:+ "/" +:+ join "/" ((b :: pre) ++ [s])); [|by destruct pre].
  rewrite <- IH, !append_assoc. done.
Qed.

Lemma iter_sound depth : forall pre n path c, List.Forall (fun s => s <> "") pre -> node_ok n ->
  In (path, c) (_iter_topic_paths depth (join "/" pre) n) ->
  exists q, q <> [] /\ (length q <= depth)%nat /\ path = join "/" (pre ++ q) /\ c = Z.max 0 (count_at q n).
Proof.
  induction depth as [|d IH]; intros pre n path c Hp Hn; cbn [_iter_topic_paths]; [intros []|].
  intros (l & (kv & <- & Hkv)%in_map_iff & Hin)%in_concat. destruct kv as [s m]. cbn [fst snd] in Hin. rewrite under_join in Hin by done.
  inversion Hn as [? l Hd Hl]; subst. cbn [node_children] in Hkv. destruct (Hl s m Hkv) as [Hs Hm].
  pose proof (clookup_NoDup s m l Hd Hkv) as Hlk. destruct Hin as [[= <- <-]|Hin].
  - exists [s]. split; [done|]. split; [cbn; lia|]. split; [done|]. cbn [count_at node_children]. by rewrite Hlk.
  - apply IH in Hin as (q & Hq & Hlen & -> & ->); [|apply List.Forall_app; split; [done|by constructor]|done].
    exists (s :: q). split; [done|]. split; [cbn; lia|]. split; [by rewrite <- app_assoc|]. cbn [count_at node_children]. by rewrite Hlk.
Qed.

Lemma iter_complete depth : forall pre n q, List.Forall (fun s => s <> "") pre -> node_ok n -> q <> [] -> (length q <= depth)%nat -> 0 < count_at q n ->
  In (join "/" (pre ++ q), count_at q n) (_iter_topic_paths depth (join "/" pre) n).
Proof.
  induction depth as [|d IH]; intros pre n q Hp Hn Hq Hlen Hc; [destruct q; [done|cbn in Hlen; lia]|]. destruct q as [|s q]; [done|].
  inversion Hn as [c l Hd Hl]; subst. cbn [count_at node_children] in *. destruct (clookup s l) as [m|] eqn:Em; [|lia].
  apply clookup_In in Em. destruct (Hl s m Em) as [Hs Hm]. cbn [_iter_topic_paths node_children]. apply in_concat.
  eexists. split; [apply in_map_iff; exists (s, m); split; [reflexivity|exact Em]|]. cbn [fst snd]. rewrite under_join by done.
  destruct q as [|s' q]; [left; cbn [count_at] in *; f_equal; lia|]. right.
  change (pre ++ s :: s' :: q) with (pre ++ [s] ++ (s' :: q)). rewrite app_assoc. apply IH; [|done|done|cbn in *; lia|done].
  apply List.Forall_app. split; [done|by constructor].
Qed.

Lemma topic_le_total a b : topic_le a b = true \/ topic_le b a = true.
Proof.
  unfold topic_le. rewrite (Z.eqb_sym (ti_count b)), (String.eqb_sym (ti_project b)). destruct (Z.eqb_spec (ti_count a) (ti_count b)) as [|Hc].
  - destruct (ti_project a =s ti_project b); apply str_leb_total.
  - destruct (Z.ltb_spec (ti_count b) (ti_count a)); [by left|right]. apply Z.ltb_lt. lia.
Qed.

Lemma topic_le_trans a b c : topic_le a b = true -> topic_le b c = true -> topic_le a c = true.
Proof.
  unfold topic_le. destruct (Z.eqb_spec (ti_count a) (ti_count b)) as [H1|H1], (Z.eqb_spec (ti_count b) (ti_count c)) as [H2|H2],
    (Z.eqb_spec (ti_count a) (ti_count c)) as [H3|H3]; rewrite ?Z.ltb_lt; try lia.
  destruct (String.eqb_spec (ti_project a) (ti_project b)) as [E1|E1], (String.eqb_spec (ti_project b) (ti_project c)) as [E2|E2],
    (String.eqb_spec (ti_project a) (ti_project c)) as [E3|E3]; try congruence; intros L1 L2.
  - by eapply str_leb_trans.
  - exfalso. apply E1, str_leb_antisym; [done|]. by rewrite E3.
  - by eapply str_leb_trans.
Qed.

Lemma write_all_keys ws : forall t : topic_tree, List.NoDup (map fst t) -> List.NoDup (map fst (write_all ws t)).
Proof. induction ws as [|w ws IH]; intros t Ht; [done|]. by apply IH, cset_NoDup. Qed.

(** The topics of a node of the tree. *)
Lemma project_topics_sound d mc normalized p n it : node_ok n -> In it (project_topics d mc normalized p n) ->
  exists q, q <> [] /\ (length q <= d)%nat /\ ti_project it = p /\ ti_path it = join "/" q /\ ti_count it = Z.max 0 (count_at q n) /\ mc <= ti_count it.
Proof.
  intros Hn ((path & c) & <- & [Hin Hf]%filter_In)%in_map_iff. apply (iter_sound d []) in Hin as (q & Hq & Hl & -> & ->); [|constructor|done].
  exists q. cbn [fst snd] in Hf. apply andb_true_iff in Hf as [Hf _]. apply negb_true_iff, Z.ltb_ge in Hf. done.
Qed.

Lemma project_topics_complete d mc p n q : node_ok n -> q <> [] -> (length q <= d)%nat -> 0 < count_at q n -> mc <= count_at q n ->
  In (mkTopic p (join "/" q) (count_at q n)) (project_topics d mc None p n).
Proof.
  intros Hn Hq Hl Hc Hm. apply in_map_iff. exists (join "/" q, count_at q n). split; [done|]. apply filter_In.
  split; [by apply (iter_complete d []); [constructor|..]|]. cbn [fst snd]. apply andb_true_iff. split; [|done]. apply negb_true_iff, Z.ltb_ge. done.
Qed.

(** The tree and its listing count writes.  After any writes, the topics
    listed are, in descending order of their counts, paths of at most 16
    components whose count is the number of writes of that project to the path or
    below it, at least [min_count]; nothing else is cut off than what is beyond
    the limit, and every path of the asked project and depth with enough writes is
    counted in the total. *)
Theorem topics_list_counts_writes ws project prefix limit min_count depth items total :
  _list_topics_snapshot project prefix limit min_count depth (write_all ws []) = Ok (items, total) ->
  exists all, items = firstn (Z.to_nat (Z.max 1 (Z.min limit 5000))) all /\ total = Z.of_nat (length all) /\
    StronglySorted (fun a b => topic_le a b = true) all /\
    (forall it, In it all -> exists q, q <> [] /\ (length q <= 16)%nat /\ ti_path it = join "/" q /\
       ti_count it = Z.of_nat (length (List.filter (under_topic (ti_project it) q) ws)) /\ Z.max 1 min_count <= ti_count it) /\
    (forall p q, truthy (opt_str project) = true -> p = opt_str project -> q <> [] -> Z.of_nat (length q) <= Z.max 1 (Z.min depth 16) ->
       opt_str prefix = "" -> Z.max 1 min_count <= Z.of_nat (length (List.filter (under_topic p q) ws)) ->
       In (mkTopic p (join "/" q) (Z.of_nat (length (List.filter (under_topic p q) ws)))) all).
Proof.
  unfold _list_topics_snapshot. destruct (prefix_of prefix) as [normalized|e] eqn:Epre; cbn [rbind]; [|done].
  set (t := write_all ws []). set (d := Z.to_nat (Z.max 1 (Z.min depth 16))).
  set (raw := if truthy (opt_str project) then _ else _). intros [= <- <-]. exists (sort_by topic_le raw).
  assert (tree_ok t) as Ht by (apply write_all_ok; intros ? ? []).
  assert (forall p q, tree_count p q t = Z.of_nat (length (List.filter (under_topic p q) ws))) as Hcount.
  { intros p q. unfold t. by rewrite write_all_count. }
  assert (forall p, node_ok (child p t)) as Hchild.
  { intros p. unfold child. destruct (clookup p t) as [n|] eqn:E; [|constructor; [constructor|intros ? ? []]]. apply clookup_In in E. by eapply Ht. }
  assert (forall p q, count_at q (child p t) = tree_count p q t) as Hct by (intros; apply count_child).
  assert (forall it, In it raw -> exists n, node_ok n /\ In it (project_topics d (Z.max 1 min_count) normalized (ti_project it) n) /\
    forall q, count_at q n = tree_count (ti_project it) q t) as Hraw.
  { intros it. unfold raw. destruct (truthy (opt_str project)).
    - intros Hit. pose proof (project_topics_sound _ _ _ _ _ _ (Hchild _) Hit) as (_ & _ & _ & Hp & _). rewrite <- Hp in Hit. eauto.
    - intros (l & ((p & n) & <- & Hpn)%in_map_iff & Hit)%in_concat. cbn [fst snd] in Hit.
      pose proof (project_topics_sound _ _ _ _ _ _ (Ht _ _ Hpn) Hit) as (_ & _ & _ & Hp & _). subst p. exists n.
      split; [by eapply Ht|]. split; [done|]. intros q. unfold tree_count.
      by rewrite (clookup_NoDup _ n t) by (done || apply write_all_keys; constructor). }
  split; [unfold upto; destruct (Z.ltb_spec (Z.max 1 (Z.min limit 5000)) 0); [lia|done]|]. split; [done|].
  split; [apply sort_by_sorted; [apply topic_le_total|apply topic_le_trans]|]. split.
  - intros it (n & Hn & Hit & Hc)%sort_by_In%Hraw. apply project_topics_sound in Hit as (q & Hq & Hl & _ & Hpath & Hcount' & Hmc); [|done].
    exists q. split; [done|]. split; [unfold d in Hl; lia|]. split; [done|]. rewrite <- Hcount, <- Hc. split; [|lia].
    rewrite Hcount'. apply Z.max_r. rewrite Hc, Hcount. lia.
  - intros p q Htr -> Hq Hl Hpre Hmc. apply sort_by_In. unfold raw. rewrite Htr.
    assert (normalized = None) as -> by (unfold prefix_of in Epre; rewrite Hpre in Epre; by injection Epre as <-).
    rewrite <- Hcount, <- Hct in *. apply project_topics_complete; [done|done|unfold d; lia|lia|lia].
Qed.

(** ** Rollups *)

Lemma join_snoc_longer cur p : p <> "" -> (String.length (join "/" cur) < String.length (join "/" (cur ++ [p])))%nat.
Proof.
  intros Hp. assert (1 <= String.length p)%nat by (destruct p; cbn; [done|lia]). induction cur as [|a cur IH]; [cbn; lia|].
  destruct cur as [|b cur]; cbn [join app] in *; rewrite !append_length in *; cbn [String.length] in *; lia.
Qed.

Lemma tag_prefixes_longer segs : List.Forall (fun s => s <> "") segs -> forall cur q, In q (tag_prefixes cur segs) ->
  (String.length (join "/" cur) < String.length q)%nat.
Proof.
  induction 1 as [|s segs Hs _ IH]; intros cur q; cbn [tag_prefixes]; [intros []|]. pose proof (join_snoc_longer cur s Hs).
  intros [<-|H']; [done|]. apply IH in H'. lia.
Qed.

Lemma tag_prefixes_NoDup segs : List.Forall (fun s => s <> "") segs -> forall cur, List.NoDup (tag_prefixes cur segs).
Proof.
  induction 1 as [|s segs Hs Hf IH]; intros cur; cbn [tag_prefixes]; constructor; [|apply IH].
  intros H%(tag_prefixes_longer segs Hf). lia.
Qed.

Lemma path_prefixes_NoDup C topic paths : _topic_rollup_path_prefixes C topic = Ok paths -> List.NoDup paths.
Proof.
  unfold _topic_rollup_path_prefixes. destruct (normalize_topic_path topic) as [n|e]; cbn [rbind]; [|done]. intros [= <-].
  pose proof (tag_prefixes_NoDup _ (segments_nonempty n) []) as H. destruct (segments_of n); [|done]. constructor; [by intros []|constructor].
Qed.

Section rollups.
Variable C : rollup_config.
Variable sha1 : string -> string.

(** What an entry says of the writes under it. *)
Definition entry_ok (seeded : Z) (files : list string) (e : rollup) : Prop :=
  recentEventCount e = Z.of_nat (length files) /\ eventCount e = Z.max seeded (Z.of_nat (length files)) /\
  List.NoDup (r_files e) /\ (forall f, In f (r_files e) <-> f <> "" /\ In f files) /\
  Z.of_nat (length (summarySnippets e)) <= Z.max 0 (TOPIC_ROLLUP_MAX_SUMMARY_SNIPPETS C) /\
  Z.of_nat (length (numericFacts e)) <= Z.max 0 (TOPIC_ROLLUP_MAX_NUMERIC_FACTS C).

Lemma new_entry_ok p n l : 0 <= n -> entry_ok n [] (_new_topic_rollup_entry p n l).
Proof. intros Hn. repeat split; cbn; try lia; try constructor; naive_solver. Qed.

Lemma add_facts_length new : forall facts seen, Z.of_nat (length facts) <= Z.max 0 (TOPIC_ROLLUP_MAX_NUMERIC_FACTS C) ->
  Z.of_nat (length (fst (add_facts C new facts seen))) <= Z.max 0 (TOPIC_ROLLUP_MAX_NUMERIC_FACTS C).
Proof.
  induction new as [|f new IH]; intros facts seen Hl; cbn [add_facts]; [done|]. destruct (mem_str _ _); [by apply IH|].
  destruct (Z.leb_spec (TOPIC_ROLLUP_MAX_NUMERIC_FACTS C) (Z.of_nat (length facts))); [done|]. apply IH. rewrite length_app. cbn. lia.
Qed.

Lemma touch_ok seeded files p c e : entry_ok seeded files e -> entry_ok seeded (files ++ [rp_file p]) (touch C p c e).
Proof.
  intros (Hr & He & Hn & Hf & Hs & Hfacts). unfold touch. pose proof (add_facts_length (rp_facts p) _ (fact_seen e) Hfacts) as Ha.
  destruct (add_facts C (rp_facts p) (numericFacts e) (fact_seen e)) as [facts seen]. cbn [fst] in Ha.
  unfold entry_ok. cbn [recentEventCount eventCount r_files summarySnippets numericFacts]. rewrite !length_app. cbn [length].
  split; [lia|]. split; [lia|]. split; [|split; [|split; [|done]]].
  - destruct (truthy (rp_file p) && negb (mem_str (rp_file p) (r_files e))) eqn:Eb; [|done]. apply andb_true_iff in Eb as [_ Eb].
    apply negb_true_iff, mem_str_false in Eb. apply (Permutation_NoDup (Permutation_cons_append _ _)). by constructor.
  - intros f. destruct (truthy (rp_file p)) eqn:Et; cbn [andb].
    + assert (rp_file p <> "") as Hne by (intros Hx; by rewrite Hx in Et).
      destruct (mem_str (rp_file p) (r_files e)) eqn:Em; cbn [negb]; rewrite !in_app_iff; cbn [In]; rewrite ?Hf; [|naive_solver].
      apply mem_str_In in Em. apply Hf in Em. naive_solver.
    + assert (rp_file p = "") as Hx by (unfold truthy in Et; apply negb_false_iff in Et; by apply String.eqb_eq in Et).
      rewrite Hx, in_app_iff. cbn [In]. rewrite Hf. naive_solver.
  - destruct (truthy (rp_snippet p) && _ && (_ <? _)) eqn:Eb; [|done]. apply andb_true_iff in Eb as [_ Eb]. apply Z.ltb_lt in Eb.
    rewrite length_app. cbn. lia.
Qed.

Lemma touch_paths_lookup parts paths : List.NoDup paths -> forall t p,
  (In p paths -> exists c, clookup p (touch_paths C parts paths t) = Some (touch C parts c (entry_at p t))) /\
  (~ In p paths -> clookup p (touch_paths C parts paths t) = clookup p t).
Proof.
  induction 1 as [|x paths Hx Hn IH]; intros t p; cbn [touch_paths]; [split; [intros []|done]|].
  set (t' := cset x _ t). destruct (IH t' p) as [H1 H2]. split.
  - intros [<-|H].
    + rewrite H2 by done. unfold t'. rewrite clookup_cset, String.eqb_refl. eauto.
    + destruct (H1 H) as [c Hc]. exists c. rewrite Hc. unfold entry_at, t'. rewrite clookup_cset.
      destruct (String.eqb_spec p x) as [->|]; [done|done].
  - intros Hp. rewrite H2 by (intros H; apply Hp; by right). unfold t'. rewrite clookup_cset.
    destruct (String.eqb_spec p x) as [->|]; [|done]. exfalso. apply Hp. by left.
Qed.

(** ** Rows *)

Definition row_project (row : dict) : string := strip (jstr_or_empty (dget row "project")).
Definition row_file (row : dict) : string := strip (jstr_or_empty (dget row "file")).
Definition signature_of (row : dict) : string := row_signature sha1 (row_project row) (row_file row) (jstr_or_empty (dget row "summary")).

(** The path names the topic or one above it: the topic's first segments, one or
    more of them, joined; or the root, for a topic without segments. *)
Definition at_or_above (path topic : string) : bool :=
  match normalize_topic_path topic with
  | Raise _ => false
  | Ok n => match segments_of n with
            | [] => path =s ROLLUP_TOPIC_ROOT C
            | segments => existsb (fun k => path =s join "/" (firstn k segments)) (seq 1 (length segments))
            end
  end.

Lemma tag_prefixes_seq segments : tag_prefixes [] segments = map (fun k => join "/" (firstn k segments)) (seq 1 (length segments)).
Proof.
  apply nth_ext with (d := "") (d' := ""); [by rewrite tag_prefixes_length, length_map, length_seq|].
  intros i Hi. rewrite tag_prefixes_length in Hi. rewrite tag_prefixes_nth by done.
  rewrite (nth_indep _ _ (join "/" (firstn 0 segments))) by (by rewrite length_map, length_seq).
  by rewrite (map_nth (fun k => join "/" (firstn k segments))), seq_nth by done.
Qed.

(** The paths a row is added to are its topic and those above it. *)
Lemma path_prefixes_above topic paths path : _topic_rollup_path_prefixes C topic = Ok paths -> mem_str path paths = at_or_above path topic.
Proof.
  unfold _topic_rollup_path_prefixes, at_or_above. destruct (normalize_topic_path topic) as [n|e]; cbn [rbind]; [|done]. intros [= <-].
  destruct (segments_of n) as [|x segments] eqn:Es; [by cbn; rewrite orb_false_r|].
  change (mem_str path (tag_prefixes [] (x :: segments)) = existsb (fun k => path =s join "/" (firstn k (x :: segments))) (seq 1 (length (x :: segments)))).
  rewrite tag_prefixes_seq. unfold mem_str. generalize (seq 1 (length (x :: segments))).
  induction l as [|k l IH]; [done|]. cbn [map existsb]. by rewrite IH.
Qed.

(** The rows with a project, the first of every signature. *)
Fixpoint fresh (rows : list dict) (seen : list string) : list dict :=
  match rows with
  | [] => []
  | row :: rest =>
      if negb (truthy (row_project row)) || mem_str (signature_of row) seen then fresh rest seen
      else row :: fresh rest (signature_of row :: seen)
  end.

Definition row_under (project path : string) (row : dict) : bool :=
  (row_project row =s project) && match row_topic C row (row_file row) with Ok topic => at_or_above path topic | Raise _ => false end.

(** The files of the fresh rows under a topic, with repetition. *)
Definition files_under (project path : string) (rows : list dict) : list string :=
  map row_file (List.filter (row_under project path) rows).

Definition entry_of (project path : string) (l : list (string * list (string * rollup))) : option rollup :=
  match clookup project l with Some t => clookup path t | None => None end.

(** Every entry is what the seed and the rows so far make it. *)
Definition built (seed : string -> string -> Z) (done_ : list dict) (s : build_state) : Prop :=
  forall project path, match entry_of project path (b_topics s) with
                       | Some e => entry_ok (seed project path) (files_under project path done_) e
                       | None => files_under project path done_ = [] /\ seed project path = 0
                       end.

Lemma add_row_built seed done_ s s' row : built seed done_ s -> add_row C sha1 s row = Ok s' ->
  (s' = s /\ fresh [row] (b_seen s) = []) \/
  (fresh [row] (b_seen s) = [row] /\ b_seen s' = signature_of row :: b_seen s /\ b_deduped s' = b_deduped s + 1 /\ built seed (done_ ++ [row]) s').
Proof.
  intros Hb. unfold add_row. cbn [fresh]. fold (row_project row) (row_file row) (signature_of row).
  change (row_signature sha1 (row_project row) (row_file row) (jstr_or_empty (dget row "summary"))) with (signature_of row).
  destruct (negb (truthy (row_project row)) || mem_str (signature_of row) (b_seen s)); [intros [= <-]; by left|]. intros Hadd. right.
  destruct (row_topic C row (row_file row)) as [topic|e] eqn:Et; cbn [rbind] in *; [|done].
  destruct (_topic_rollup_path_prefixes C topic) as [paths|e] eqn:Ep; cbn [rbind] in *; [|done]. injection Hadd as <-.
  split; [done|]. split; [done|]. split; [done|]. cbn [b_topics].
  set (parts := mkParts _ _ _ _). set (t := match clookup (row_project row) (b_topics s) with Some t => t | None => [] end).
  intros project path. specialize (Hb project path). unfold entry_of in *. cbn [b_topics]. rewrite clookup_cset.
  unfold files_under in *. rewrite List.filter_app, map_app. cbn [List.filter]. unfold row_under at 2 4. rewrite Et, <- (path_prefixes_above _ _ path Ep), (String.eqb_sym (row_project row)).
  destruct (String.eqb_spec project (row_project row)) as [->|Hne]; cbn [andb]; [|by rewrite app_nil_r].
  destruct (touch_paths_lookup parts paths (path_prefixes_NoDup _ _ _ Ep) t path) as [H1 H2].
  assert (clookup path t = match clookup (row_project row) (b_topics s) with Some t => clookup path t | None => None end) as Hl
    by (unfold t; by destruct (clookup (row_project row) (b_topics s))).
  rewrite <- Hl in Hb. destruct (mem_str path paths) eqn:Em.
  - apply mem_str_In in Em. destruct (H1 Em) as [c ->]. cbn [map]. apply (touch_ok _ _ parts c (entry_at path t)).
    unfold entry_at. destruct (clookup path t); [done|]. destruct Hb as [-> ->]. by apply new_entry_ok.
  - apply mem_str_false in Em. rewrite (H2 Em). cbn [map]. by rewrite app_nil_r.
Qed.

Lemma fresh_cons row rows seen : fresh (row :: rows) seen = fresh [row] seen ++ fresh rows (match fresh [row] seen with [] => seen | _ => signature_of row :: seen end).
Proof. cbn [fresh]. by destruct (negb (truthy (row_project row)) || mem_str (signature_of row) seen). Qed.

Lemma add_rows_built seed rows : forall done_ s s', built seed done_ s -> add_rows C sha1 rows s = Ok s' ->
  built seed (done_ ++ fresh rows (b_seen s)) s' /\ b_deduped s' = b_deduped s + Z.of_nat (length (fresh rows (b_seen s))).
Proof.
  induction rows as [|row rows IH]; intros done_ s s' Hb; cbn [add_rows]; [intros [= <-]; cbn; rewrite app_nil_r; split; [done|lia]|].
  destruct (add_row C sha1 s row) as [s1|e] eqn:Ea; cbn [rbind]; [|done]. intros Hr. rewrite fresh_cons.
  destruct (add_row_built _ _ _ _ _ Hb Ea) as [[-> ->]|(-> & Hs & Hd & Hb1)]; [by apply IH|].
  destruct (IH _ _ _ Hb1 Hr) as [H1 H2]. rewrite Hs in H1, H2. cbn [app length] in *. rewrite <- app_assoc in H1. split; [exact H1|lia].
Qed.

(** ** Seeds *)

(** An entry of the tree alone: counts, and nothing of any write. *)
Definition bare (e : rollup) : Prop :=
  recentEventCount e = 0 /\ r_files e = [] /\ summarySnippets e = [] /\ numericFacts e = [] /\ latestTimestamp e = None /\ 0 <= eventCount e.

Definition all_bare (t : list (string * rollup)) : Prop := forall path e, In (path, e) t -> bare e.

Lemma seed_bare path n t : all_bare t -> all_bare (seed_entry path n t).
Proof.
  intros Ht. unfold seed_entry. destruct (clookup path t) as [e|] eqn:El; intros p x [[= -> ->]|H]%cset_In; try by eapply Ht.
  - apply clookup_In, Ht in El as (H1 & H2 & H3 & H4 & H5 & H6). repeat split; cbn; try done. lia.
  - repeat split; cbn; try done. lia.
Qed.

(** Induction on the tree through the lists of children. *)
Lemma topic_node_ind' (P : topic_node -> Prop) :
  (forall c l, (forall s n, In (s, n) l -> P n) -> P (Node c l)) -> forall n, P n.
Proof.
  intros H. fix IH 1. intros [c l]. apply H. induction l as [|[s n] l IHl]; [intros ? ? []|].
  intros s' n' [[= <- <-]|Hin]; [apply IH|by eapply IHl].
Qed.

Lemma walk_bare n : forall prefix t, all_bare t -> all_bare (walk n prefix t).
Proof.
  induction n as [c l IH] using topic_node_ind'. intros prefix t Ht. cbn [walk]. revert t Ht.
  induction l as [|[s n] l IHl]; intros t Ht; [done|]. apply IHl; [intros s' n' H; apply (IH s' n'); by right|].
  apply (IH s n); [by left|]. by apply seed_bare.
Qed.

Lemma seeded_bare tree : forall project t, clookup project (_seed_topic_rollups_from_tree tree) = Some t -> all_bare t.
Proof.
  unfold _seed_topic_rollups_from_tree. set (P := fun l : list (string * list (string * rollup)) => forall project t, clookup project l = Some t -> all_bare t).
  assert (forall l, P l -> P (fold_left (fun seeded kv => cset (fst kv) (walk (snd kv) "" []) seeded) tree l)) as H.
  { induction tree as [|[p n] tree IH]; intros l Hl; [done|]. apply IH. intros project t. rewrite clookup_cset.
    destruct (project =s fst (p, n)); [|apply Hl]. intros [= <-]. apply walk_bare. intros ? ? []. }
  apply H. intros ? ? [=].
Qed.

(** The events that the tree counts for a topic. *)
Definition seed_events (tree : topic_tree) (project path : string) : Z :=
  match entry_of project path (_seed_topic_rollups_from_tree tree) with Some e => eventCount e | None => 0 end.

Lemma seeded_built tree : built (seed_events tree) [] (mkBuild (_seed_topic_rollups_from_tree tree) 0 []).
Proof.
  intros project path. unfold seed_events, entry_of. cbn [b_topics]. destruct (clookup project _) as [t|] eqn:Et; [|done].
  destruct (clookup path t) as [e|] eqn:Ee; [|done]. apply clookup_In in Ee. apply (seeded_bare tree project t Et) in Ee as (H1 & H2 & H3 & H4 & _ & H6).
  unfold entry_ok, files_under. cbn. rewrite H1, H2, H3, H4. cbn. repeat split; try lia; try constructor; naive_solver.
Qed.

Definition build_from (entries : list dict) (tree : topic_tree) : result build_state :=
  add_rows C sha1 entries (mkBuild (_seed_topic_rollups_from_tree tree) 0 []).

(** C16: a rollup counts the distinct writes of its window.  When a snapshot is
    built, every topic's recent count is the number of writes with a project, each
    signature of project, file and summary counted once, whose topic has that path
    as a leading run of its segments: the topic itself and every topic above it;
    its event count is the larger of that and the count the topic tree holds for
    it; its files are, without repetition, the files of those writes; snippets and
    numeric facts stay within their limits.  A topic without an entry has no write
    at or below it and no count in the tree. *)
Theorem rollups_count_distinct_writes now entries tree scanned snapshot :
  _build_topic_rollup_snapshot_from_entries C sha1 now entries tree scanned = Ok snapshot ->
  exists s, build_from entries tree = Ok s /\
    dget snapshot "projects" = JObj (map (fun kv => (fst kv, project_payload C (snd kv))) (b_topics s)) /\
    dget snapshot "historyEntriesDeduped" = JInt (Z.of_nat (length (fresh entries []))) /\
    forall project path, match entry_of project path (b_topics s) with
      | Some e => entry_ok (seed_events tree project path) (files_under project path (fresh entries [])) e
      | None => files_under project path (fresh entries []) = [] /\ seed_events tree project path = 0
      end.
Proof.
  unfold _build_topic_rollup_snapshot_from_entries. fold (build_from entries tree).
  destruct (build_from entries tree) as [s|e] eqn:Es; cbn [rbind]; [|done]. intros [= <-]. exists s. split; [done|]. split; [done|].
  destruct (add_rows_built _ _ [] _ _ (seeded_built tree) Es) as [Hb Hd]. cbn [b_seen b_deduped app] in *. split; [change (JInt (b_deduped s) = JInt (Z.of_nat (length (fresh entries [])))); f_equal; lia|].
  exact Hb.
Qed.

Lemma add_rows_others project rows : forall s s', List.Forall (fun row => row_project row <> project) rows ->
  add_rows C sha1 rows s = Ok s' -> clookup project (b_topics s') = clookup project (b_topics s).
Proof.
  induction rows as [|row rows IH]; intros s s' Hf; cbn [add_rows]; [by intros [= <-]|]. inversion Hf as [|? ? Hne Hf']; subst.
  destruct (add_row C sha1 s row) as [s1|e] eqn:Ea; cbn [rbind]; [|done]. intros ->%IH; [|done]. revert Ea. unfold add_row.
  destruct (negb _ || _); [by intros [= <-]|]. destruct (row_topic _ _ _); cbn [rbind]; [|done].
  destruct (_topic_rollup_path_prefixes _ _); cbn [rbind]; [|done]. intros [= <-]. cbn [b_topics]. rewrite clookup_cset.
  apply not_eq_sym, String.eqb_neq in Hne. unfold row_project in Hne. by rewrite Hne.
Qed.

(** A backfill of one project empties the rollups of the others: a snapshot
    built from rows of other projects only keeps for a project the counts of the
    tree, without snippets, numeric facts, files or times, and it replaces the
    whole index. *)
Theorem scoped_backfill_empties_others now entries tree scanned snapshot project :
  List.Forall (fun row => row_project row <> project) entries ->
  _build_topic_rollup_snapshot_from_entries C sha1 now entries tree scanned = Ok snapshot ->
  exists s, build_from entries tree = Ok s /\
    dget snapshot "projects" = JObj (map (fun kv => (fst kv, project_payload C (snd kv))) (b_topics s)) /\
    forall t path e, clookup project (b_topics s) = Some t -> In (path, e) t -> bare e.
Proof.
  intros Hf. unfold _build_topic_rollup_snapshot_from_entries. fold (build_from entries tree).
  destruct (build_from entries tree) as [s|e] eqn:Es; cbn [rbind]; [|done]. intros [= <-]. exists s. split; [done|]. split; [done|].
  intros t path e Ht. rewrite (add_rows_others project entries _ s Hf Es) in Ht. by apply (seeded_bare tree project t Ht).
Qed.
End rollups.

(** ** The hold and the worker *)

Section worker.
Context {W : Type} `{!RollupStores W}.
Variable C : rollup_config.
Variables (sha1 : string -> string) (parse_float : string -> option Q).
Variable write_ok : bool.

(** A round within the hold. *)
Lemma round_within_hold now mono ended (s : topic_state W) : 0 < hold_until s -> mono < hold_until s ->
  exists s', rollup_round C sha1 write_ok now mono ended s = (s', Ok tt) /\ ts_index s' = ts_index s /\
    skippedDueToBackfillHold (ts_health s') = skippedDueToBackfillHold (ts_health s) + 1 /\ hold_until s' = hold_until s.
Proof.
  intros Hp Hm. assert (_topic_rollup_hold_remaining_secs mono s = hold_until s - mono) as Hr.
  { unfold _topic_rollup_hold_remaining_secs. destruct (Z.leb_spec (hold_until s) 0); lia. }
  unfold rollup_round, st_try, st_bind, _refresh_topic_rollup_hold_health, st_bind, st_get, set_rollup_health, st_ret. rewrite Hr.
  destruct (Z.ltb_spec 0 (hold_until s - mono)); [|lia]. eexists. split; [reflexivity|]. done.
Qed.

Lemma set_health_leaves f (s : topic_state W) : exists s', set_rollup_health f s = (s', Ok tt) /\ ts_index s' = ts_index s /\ hold_until s' = hold_until s.
Proof. by eexists. Qed.

Lemma refresh_leaves now mono (s : topic_state W) : exists s' r,
  _refresh_topic_rollup_hold_health now mono s = (s', Ok r) /\ ts_index s' = ts_index s /\ hold_until s' = hold_until s.
Proof.
  unfold _refresh_topic_rollup_hold_health, st_bind, st_get.
  destruct (set_health_leaves (hold_health (_topic_rollup_hold_until_iso now mono s) (_topic_rollup_hold_remaining_secs mono s)) s) as (s1 & -> & H).
  by do 2 eexists.
Qed.

Lemma set_snapshot_leaves now started mono source snapshot (s : topic_state W) : exists s',
  _set_topic_rollup_snapshot write_ok now started mono source snapshot s = (s', Ok snapshot) /\ ts_index s' = snapshot.
Proof.
  unfold _set_topic_rollup_snapshot. unfold st_bind at 1. set (s1 := mkTopicState _ _ _ _ _ _ _ _).
  unfold st_bind at 1. destruct (set_health_leaves (run_health now (mono - started) source snapshot) s1) as (s2 & -> & H2 & _).
  unfold st_bind. destruct (refresh_leaves now mono s2) as (s3 & r & -> & H3 & _). eexists. split; [reflexivity|]. by rewrite H3, H2.
Qed.

(** What a backfill leaves. *)
Lemma backfill_leaves now started mono source scan_limit project s s' snapshot :
  backfill_topic_rollups_once C sha1 parse_float write_ok now started mono source scan_limit project s = (s', Ok snapshot) ->
  ts_index s' = snapshot /\ hold_until s' = (if TOPIC_ROLLUP_BACKFILL_HOLD_SECS C <=? 0 then 0 else mono + TOPIC_ROLLUP_BACKFILL_HOLD_SECS C).
Proof.
  unfold backfill_topic_rollups_once. unfold st_bind at 1, st_get. unfold st_bind at 1.
  destruct (backfill_rows _ _ _ _ s) as [s1 [rows|e]]; [|done].
  unfold st_bind at 1, st_lift. destruct (_build_topic_rollup_snapshot_from_entries _ _ _ _ _ _) as [snap|e]; [|done].
  unfold st_bind at 1. destruct (set_snapshot_leaves now started mono ("backfill:" +:+ lower (strip (str_or source "qdrant"))) snap s1) as (s2 & -> & Hi2).
  unfold st_bind at 1. destruct (set_health_leaves (backfill_health now (lower (strip (str_or source "qdrant"))) (Z.of_nat (length rows)) project) s2)
    as (s3 & -> & Hi3 & _).
  unfold st_bind at 1, _set_topic_rollup_backfill_hold. unfold st_bind at 1, set_hold. set (s4 := mkTopicState _ _ _ _ _ _ _ _).
  unfold st_bind. destruct (refresh_leaves now mono s4) as (s5 & r & -> & Hi5 & Hh5). intros [= <- <-].
  split; [rewrite Hi5; cbn; congruence|by rewrite Hh5].
Qed.

(** A backfill is protected by its hold: after it, every round of the worker
    before the hold ends leaves the index as the backfill built it, counts a skip
    and keeps the hold. *)
Theorem backfill_survives_rounds now started mono source scan_limit project s s' snapshot rounds :
  backfill_topic_rollups_once C sha1 parse_float write_ok now started mono source scan_limit project s = (s', Ok snapshot) ->
  0 <= mono -> 0 < TOPIC_ROLLUP_BACKFILL_HOLD_SECS C ->
  List.Forall (fun r => snd (fst r) < mono + TOPIC_ROLLUP_BACKFILL_HOLD_SECS C) rounds ->
  exists s'', st_for rounds (fun r => rollup_round C sha1 write_ok (fst (fst r)) (snd (fst r)) (snd r)) s' = (s'', Ok tt) /\
    ts_index s'' = snapshot /\
    skippedDueToBackfillHold (ts_health s'') = skippedDueToBackfillHold (ts_health s') + Z.of_nat (length rounds).
Proof.
  intros [Hi Hh]%backfill_leaves Hm Hp Hf. destruct (Z.leb_spec (TOPIC_ROLLUP_BACKFILL_HOLD_SECS C) 0); [lia|].
  revert s' Hi Hh. induction Hf as [|[[n m] e] rounds Hr _ IH]; intros s' Hi Hh; [exists s'; split; [done|]; split; [done|cbn; lia]|].
  cbn [st_for fst snd] in *. destruct (round_within_hold n m e s') as (s1 & H1 & H2 & H3 & H4); [lia|lia|].
  unfold st_bind at 1. rewrite H1. destruct (IH s1) as (s2 & H5 & H6 & H7); [congruence|congruence|].
  exists s2. split; [exact H5|]. split; [done|]. cbn [length]. lia.
Qed.

(** The scan of the vector index ends: as many pages as rows wanted are enough,
    for every store that answers. *)
Definition answers : Prop := forall p n o (w : W), exists w' page, scroll_page p n o w = (w', Ok page).

(** The scan of the vector index ends for every store that answers, after at
    most as many pages as rows are wanted. *)
Theorem qdrant_scan_ends scan_limit project w : answers ->
  exists w' rows, _topic_rollup_entries_from_qdrant parse_float scan_limit project w = (w', Ok rows).
Proof.
  intros Ha. unfold _topic_rollup_entries_from_qdrant. generalize JNull as offset. generalize (Z.max 1 scan_limit) as n.
  assert (forall fuel n offset w, n <= Z.of_nat fuel -> exists w' rows, scroll_all parse_float fuel project n offset w = (w', Ok rows)) as H.
  { induction fuel as [|fuel IH]; intros n offset w0 Hn; cbn [scroll_all].
    - destruct (Z.ltb_spec 0 n); [lia|]. by do 2 eexists.
    - destruct (Z.ltb_spec 0 n); cbn [negb]; [|by do 2 eexists]. unfold st_bind at 1.
      destruct (Ha project (Z.min 256 n) offset w0) as (w1 & [points next] & ->). destruct points as [|x points]; [by do 2 eexists|].
      destruct (IH (n - Z.of_nat (length (x :: points))) next w1) as (w2 & rows & Hr); [cbn [length]; lia|].
      destruct next; try by do 2 eexists. all: unfold st_bind; rewrite Hr; by do 2 eexists. }
  intros n offset. apply H. lia.
Qed.
End worker.

(** ** Examples and witnesses *)

Definition demo_writes : list (string * string) := [("P", "ops/db"); ("P", "ops"); ("Q", "ops/db"); ("P", "docs")].

Lemma topics_list_counts_writes_witness :
  exists items total, _list_topics_snapshot (Some "P") None 10 1 8 (write_all demo_writes []) = Ok (items, total) /\
    In (mkTopic "P" "ops" 2) items.
Proof.
  destruct (_list_topics_snapshot (Some "P") None 10 1 8 (write_all demo_writes [])) as [[items total]|e] eqn:El; [|vm_compute in El; discriminate El].
  exists items, total. split; [reflexivity|].
  destruct (topics_list_counts_writes demo_writes (Some "P") None 10 1 8 items total El) as (all & Hi & Ht & _ & _ & Hc).
  assert (In (mkTopic "P" "ops" 2) all) as Ha.
  { apply (Hc "P" ["ops"]); [reflexivity|reflexivity|discriminate|cbn; lia|reflexivity|vm_compute; discriminate]. }
  assert (total = 3) as -> by (vm_compute in El; by injection El as <- <-). rewrite Hi, firstn_all2; [exact Ha|]. cbn. lia.
Defined.

Definition demo_row (project file topic summary : string) : dict :=
  [("project", JStr project); ("file", JStr file); ("topic_path", JStr topic); ("summary", JStr summary); ("timestamp", JStr "2026-01-01T00:00:00Z")].
Definition demo_entries : list dict :=
  [demo_row "P" "a.md" "ops/db" "42 rows moved"; demo_row "P" "a.md" "ops/db" "42 rows moved"; demo_row "P" "b.md" "ops" "done"].

(** The repeated write is counted once. *)
Example demo_rollup :
  match build_from default_rollups (fun s => s) demo_entries (write_all demo_writes []) with
  | Ok s => option_map (fun e => (recentEventCount e, eventCount e, r_files e, map rf_value (numericFacts e))) (entry_of "P" "ops" (b_topics s))
  | Raise _ => None
  end = Some (2, 2, ["a.md"; "b.md"], ["42"]).
Proof. vm_compute. reflexivity. Qed.

Lemma rollups_count_distinct_writes_witness :
  exists snapshot s e, _build_topic_rollup_snapshot_from_entries default_rollups (fun s => s) 0 demo_entries (write_all demo_writes []) 3 = Ok snapshot /\
    build_from default_rollups (fun s => s) demo_entries (write_all demo_writes []) = Ok s /\
    entry_of "P" "ops" (b_topics s) = Some e /\ recentEventCount e = 2.
Proof.
  destruct (_build_topic_rollup_snapshot_from_entries default_rollups (fun s => s) 0 demo_entries (write_all demo_writes []) 3) as [snapshot|e] eqn:Eb;
    [|vm_compute in Eb; discriminate Eb].
  destruct (rollups_count_distinct_writes default_rollups (fun s => s) 0 demo_entries (write_all demo_writes []) 3 snapshot Eb) as (s & Hs & _ & _ & He).
  destruct (entry_of "P" "ops" (b_topics s)) as [e|] eqn:Ee.
  - exists snapshot, s, e. split; [reflexivity|]. split; [exact Hs|]. split; [exact Ee|]. specialize (He "P" "ops"). rewrite Ee in He. destruct He as [-> _]. vm_compute. reflexivity.
  - exfalso. vm_compute in Hs. injection Hs as <-. vm_compute in Ee. discriminate Ee.
Defined.

Lemma scoped_backfill_empties_others_witness :
  exists snapshot s t e, _build_topic_rollup_snapshot_from_entries default_rollups (fun s => s) 0 demo_entries (write_all demo_writes []) 3 = Ok snapshot /\
    clookup "Q" (b_topics s) = Some t /\ In ("ops/db", e) t /\ summarySnippets e = [] /\ eventCount e = 1.
Proof.
  destruct (_build_topic_rollup_snapshot_from_entries default_rollups (fun s => s) 0 demo_entries (write_all demo_writes []) 3) as [snapshot|e] eqn:Eb;
    [|vm_compute in Eb; discriminate Eb].
  destruct (scoped_backfill_empties_others default_rollups (fun s => s) 0 demo_entries (write_all demo_writes []) 3 snapshot "Q") as (s & Hs & _ & He).
  - repeat constructor; vm_compute; discriminate.
  - exact Eb.
  - destruct (clookup "Q" (b_topics s)) as [t|] eqn:Et; [|exfalso; vm_compute in Hs; injection Hs as <-; vm_compute in Et; discriminate Et].
    destruct (clookup "ops/db" t) as [e|] eqn:Ee;
      [|exfalso; vm_compute in Hs; injection Hs as <-; vm_compute in Et; injection Et as <-; vm_compute in Ee; discriminate Ee].
    assert (In ("ops/db", e) t) as Hin by (by apply clookup_In).
    exists snapshot, s, t, e. split; [reflexivity|]. split; [done|]. split; [exact Hin|].
    destruct (He t "ops/db" e eq_refl Hin) as (_ & _ & H & _). split; [exact H|].
    vm_compute in Hs. injection Hs as <-. vm_compute in Et. injection Et as <-. vm_compute in Ee. injection Ee as <-. reflexivity.
Defined.

(** A store with one page. *)
#[export] Instance demo_stores : RollupStores unit := {|
  scroll_page := fun _ _ _ => st_ret ([[("project", JStr "P"); ("file", JStr "a.md"); ("summary", JStr "7 boxes")]], JNull);
  raw_store_ready := st_ret false;
  newest_documents := fun _ _ => st_ret [] |}.
Definition demo_topics : topic_state unit := mkTopicState (write_all demo_writes []) [] no_rollup_health 0 [] None None tt.

Lemma backfill_survives_rounds_witness :
  exists s' snapshot s'', backfill_topic_rollups_once default_rollups (fun s => s) (fun _ => None) true 0 10 20 "qdrant" 100 None demo_topics = (s', Ok snapshot) /\
    rollup_round default_rollups (fun s => s) true 5 30 40 s' = (s'', Ok tt) /\ ts_index s'' = snapshot.
Proof.
  destruct (backfill_topic_rollups_once default_rollups (fun s => s) (fun _ => None) true 0 10 20 "qdrant" 100 None demo_topics) as [s' [snapshot|e]] eqn:Eb.
  - destruct (backfill_survives_rounds default_rollups (fun s => s) (fun _ => None) true 0 10 20 "qdrant" 100 None demo_topics s' snapshot [((5, 30), 40)] Eb)
      as (s'' & H1 & H2 & _).
    + lia.
    + reflexivity.
    + repeat constructor.
    + exists s', snapshot. cbn [st_for fst snd] in H1. unfold st_bind in H1.
      destruct (rollup_round default_rollups (fun s => s) true 5 30 40 s') as [s1 [[]|e]] eqn:Er; [|discriminate H1].
      exists s1. split; [reflexivity|]. split; [reflexivity|]. injection H1 as ->. exact H2.
  - exfalso. vm_compute in Eb. discriminate Eb.
Defined.

Lemma qdrant_scan_ends_witness : exists w' rows, _topic_rollup_entries_from_qdrant (fun _ => None) 100 None tt = (w', Ok rows).
Proof.
  apply (qdrant_scan_ends (fun _ => None) 100 None tt). intros p n o []. exists tt. by eexists.
Defined.

(** One write whose stored topic still holds an encoded traversal stops the
    rollups of all projects as long as it is in the window. *)
Example poisoned_topic_stops_rollups :
  derive_topic_path "root" "a.md" (Some "a/%252e%252e") = Ok "a/%2e%2e" /\
  _build_topic_rollup_snapshot_from_entries default_rollups (fun s => s) 0 (demo_entries ++ [demo_row "P" "c.md" "a/%2e%2e" "x"]) [] 4 =
    Raise (HTTPException 400 "invalid file path").
Proof. split; vm_compute; reflexivity. Qed.
