(* ===== verification/Security.v ===== *)
(** * Security posture and API keys

    The settings that decide who is served, read from the environment; the
    check at start ([validate_orchestrator_security_posture]); the key of a
    request ([_extract_api_key]); and the middleware every request passes
    ([request_context_middleware]), around the handler behind it.  The headers
    and query parameters of a request are the lookups the web framework
    offers. *)

From S2P Require Import Prelude PyStr Json Policy Ranking.
From Stdlib Require Import Ascii QArith Qminmax.
Open Scope Z_scope.

(** ** Settings *)

Section settings.
Variable environ : string -> option string.

(** [os.getenv(name, default)] *)
Definition getenv (name default : string) : string :=
  match environ name with Some v => v | None => default end.

(** [os.getenv(name, default).lower() in ("1", "true", "yes", "on")] *)
Definition env_flag (name default : string) : bool :=
  mem_str (lower (getenv name default)) ["1"; "true"; "yes"; "on"].

Definition MEMMCP_ENV : string := lower (strip (_env_alias environ "CONTEXTLATTICE_ENV" "MEMMCP_ENV" "development")).
Definition in_production : bool := mem_str MEMMCP_ENV ["production"; "prod"].

(** [os.getenv("ORCH_PROMETHEUS_ENDPOINT", "/metrics").strip() or "/metrics"],
    with a leading slash. *)
Definition prometheus_endpoint : string :=
  let e := str_or (strip (getenv "ORCH_PROMETHEUS_ENDPOINT" "/metrics")) "/metrics" in
  if startswith e "/" then e else "/" +:+ e.
End settings.

(** A float setting: finite, or one of the values [math.isfinite] refuses. *)
Inductive pyfloat := Finite (q : Q) | Infinite (positive : bool) | NotANumber.

Record security_config := mkSecurity {
  ENV : string; (* MEMMCP_ENV *)
  ORCH_API_KEY : string; ORCH_SECURITY_STRICT : bool; ORCH_PUBLIC_STATUS : bool; ORCH_PUBLIC_DOCS : bool;
  ORCH_PROMETHEUS_ENABLED : bool; ORCH_PROMETHEUS_ENDPOINT : string; ORCH_PROMETHEUS_PUBLIC : bool;
  SEC_MESSAGING_ENABLED : bool; (* MESSAGING_INTEGRATIONS_ENABLED *)
  MESSAGING_WEBHOOK_PUBLIC : bool;
  ORCH_HTTP_REQUEST_LOG_SUCCESS_SAMPLE_RATE : pyfloat; ORCH_HTTP_REQUEST_LOG_SLOW_MS : Q }.

Definition config_of_env (environ : string -> option string) (sample_rate : pyfloat) (slow_ms : Q) : security_config := {|
  ENV := MEMMCP_ENV environ;
  ORCH_API_KEY := strip (_env_alias environ "CONTEXTLATTICE_ORCHESTRATOR_API_KEY" "MEMMCP_ORCHESTRATOR_API_KEY" "");
  ORCH_SECURITY_STRICT := env_flag environ "ORCH_SECURITY_STRICT" "true";
  ORCH_PUBLIC_STATUS := env_flag environ "ORCH_PUBLIC_STATUS" (if in_production environ then "false" else "true");
  ORCH_PUBLIC_DOCS := env_flag environ "ORCH_PUBLIC_DOCS" (if in_production environ then "false" else "true");
  ORCH_PROMETHEUS_ENABLED := env_flag environ "ORCH_PROMETHEUS_ENABLED" "true";
  ORCH_PROMETHEUS_ENDPOINT := prometheus_endpoint environ;
  ORCH_PROMETHEUS_PUBLIC := env_flag environ "ORCH_PROMETHEUS_PUBLIC" "false";
  SEC_MESSAGING_ENABLED := env_flag environ "MESSAGING_INTEGRATIONS_ENABLED" "true";
  MESSAGING_WEBHOOK_PUBLIC := env_flag environ "MESSAGING_WEBHOOK_PUBLIC" "true";
  ORCH_HTTP_REQUEST_LOG_SUCCESS_SAMPLE_RATE := sample_rate;
  ORCH_HTTP_REQUEST_LOG_SLOW_MS := slow_ms |}.

(** ** Requests and responses *)

(** [headers_get], [query_get]: [request.headers.get] and
    [request.query_params.get] of the web framework. *)
Record http_request := mkRequest {
  r_method : string; r_path : string; r_client : option string;
  headers_get : string -> option string; query_get : string -> option string }.

Record response := mkResponse { status_code : Z; body : json; rheaders : list (string * string) }.

Inductive log_line := LogWarning (text : string) | LogError (text : string) | LogJson (event : string) (payload : dict).

(** [a or b] for an optional string. *)
Definition header_or (a : option string) (b : string) : string :=
  match a with Some s => str_or s b | None => b end.

(** [response.headers[k] = v]: the header has this value alone. *)
Definition set_header (k v : string) (r : response) : response :=
  {| status_code := status_code r; body := body r;
     rheaders := List.filter (fun p => negb (fst p =s k)) (rheaders r) ++ [(k, v)] |}.

(** [header.split(" ", 1)[1]] of a text that has a space. *)
Fixpoint after_space (s : string) : string :=
  match s with
  | EmptyString => ""
  | String c s' => if Ascii.eqb c " " then s' else after_space s'
  end.

Definition _extract_api_key (r : http_request) : string :=
  let header := header_or (headers_get r "x-api-key") (header_or (headers_get r "authorization") "") in
  if startswith (lower header) "bearer " then strip (after_space header)
  else
    let key := strip header in
    if truthy key then key
    else strip (header_or (query_get r "api_key") (header_or (query_get r "x_api_key") (header_or (query_get r "token") ""))).

Definition _normalize_rate_limit (value : pyfloat) : Q :=
  match value with Finite rate => Qmax 0 rate | _ => 0 end.

Definition _normalize_sample_rate (value : pyfloat) : Q :=
  match value with Finite rate => Qmin 1 (Qmax 0 rate) | _ => 0 end.

Section posture.
Variable C : security_config.

Definition is_production : bool := mem_str (ENV C) ["production"; "prod"].

Definition posture_issues : list string :=
  if truthy (ORCH_API_KEY C) then []
  else ["CONTEXTLATTICE_ORCHESTRATOR_API_KEY is required in production (legacy MEMMCP_ORCHESTRATOR_API_KEY still supported)"].

Definition posture_warnings : list string :=
  (if ORCH_PUBLIC_STATUS C then ["ORCH_PUBLIC_STATUS=true exposes status endpoints without auth in production"] else [])
  ++ (if ORCH_PUBLIC_DOCS C then ["ORCH_PUBLIC_DOCS=true exposes OpenAPI/docs endpoints without auth in production"] else [])
  ++ (if ORCH_PROMETHEUS_ENABLED C && ORCH_PROMETHEUS_PUBLIC C
      then ["ORCH_PROMETHEUS_PUBLIC=true exposes " +:+ ORCH_PROMETHEUS_ENDPOINT C +:+ " without auth in production"] else []).

(** The state is the log. *)
Definition log_add (l : log_line) : ST (list log_line) unit := st_modify (fun log => log ++ [l]).

Definition validate_orchestrator_security_posture : ST (list log_line) unit :=
  if negb is_production then st_ret tt
  else
    st_for posture_warnings (fun item => log_add (LogWarning ("Security warning: " +:+ item))) ;;;
    if (match posture_issues with [] => false | _ => true end) && ORCH_SECURITY_STRICT C
    then st_raise (OtherError "RuntimeError" (join "; " posture_issues))
    else st_for posture_issues (fun item => log_add (LogError ("Security issue: " +:+ item))).

(** [draw]: the value of [random.random()], if the code asks for one. *)
Definition _should_log_http_request (status : Z) (duration_ms draw : Q) : bool :=
  if 400 <=? status then true
  else if Qle_bool (Qmax 0 (ORCH_HTTP_REQUEST_LOG_SLOW_MS C)) duration_ms then true
  else
    let sample_rate := _normalize_sample_rate (ORCH_HTTP_REQUEST_LOG_SUCCESS_SAMPLE_RATE C) in
    if Qle_bool sample_rate 0 then false
    else if Qle_bool 1 sample_rate then true
    else Qltb draw sample_rate.

Definition public_prefixes : list string :=
  ["/health"; "/pilot"]
  ++ (if SEC_MESSAGING_ENABLED C && MESSAGING_WEBHOOK_PUBLIC C
      then ["/integrations/telegram/webhook"; "/integrations/slack/events"] else [])
  ++ (if ORCH_PUBLIC_STATUS C then ["/status"; "/status/ui"] else [])
  ++ (if ORCH_PUBLIC_DOCS C then ["/openapi"; "/docs"; "/redoc"] else [])
  ++ (if ORCH_PROMETHEUS_ENABLED C && ORCH_PROMETHEUS_PUBLIC C then [ORCH_PROMETHEUS_ENDPOINT C] else []).

Definition is_public (path : string) : bool := existsb (startswith path) public_prefixes.
End posture.

(** ** The middleware *)

Section middleware.
Context {S : Type}.
Variable C : security_config.
Variable repr_float : Q -> string.

(** [uuid]: the value of [uuid.uuid4()]; [started], [stopped]: the two readings
    of the monotonic clock, in seconds; [call_next]: the application behind the
    middleware, given the id kept in [request.state] and the request.  Beside the state of the application there is the log. *)
Definition request_context_middleware (uuid : string) (started stopped draw : Q) (call_next : string -> http_request -> ST S response)
    (r : http_request) : ST (S * list log_line) response :=
  fun '(s, log) =>
    let request_id := header_or (headers_get r "x-request-id") uuid in
    if truthy (ORCH_API_KEY C) && negb (is_public C (r_path r)) && negb (_extract_api_key r =s ORCH_API_KEY C)
    then ((s, log), Ok {| status_code := 401; body := JObj [("ok", JBool false); ("error", JStr "Invalid API key")];
                          rheaders := [("x-request-id", request_id)] |})
    else
      match call_next request_id r s with
      | (s', Raise e) => ((s', log), Raise e)
      | (s', Ok answer) =>
          let answer := set_header "x-request-id" request_id answer in
          let duration_ms := ((stopped - started) * 1000)%Q in
          let log :=
            if _should_log_http_request C (status_code answer) duration_ms draw
            then log ++ [LogJson "http.request"
                           [("request_id", JStr request_id); ("method", JStr (r_method r)); ("path", JStr (r_path r));
                            ("status", JInt (status_code answer)); ("duration_ms", JFloat (repr_float (rnd 2 duration_ms)));
                            ("client", match r_client r with Some host => JStr host | None => JNull end)]]
            else log in
          ((s', log), Ok answer)
      end.
End middleware.
