(* ===== verification/SecurityFacts.v ===== *)
(** * Who is served

    A request outside the public paths reaches the application only with the
    configured key, and a strict production start cannot be without one; the
    three ways of sending the key are accepted; logging never changes an answer;
    the chat webhooks are public and rely on secrets the start does not ask
    for. *)

From S2P Require Import Prelude PyStr Json Policy Ranking Tasks WriteMemory Messaging MessagingFacts Security.
From Stdlib Require Import Ascii QArith Qminmax Lqa.
Open Scope Z_scope.

(** ** Small facts *)

Lemma st_for_log (f : string -> log_line) items log :
  st_for items (fun item => log_add (f item)) log = (log ++ map f items, Ok tt).
Proof.
  revert log. induction items as [|i l IH]; intros log; cbn; [by rewrite app_nil_r|].
  unfold st_bind. cbn. rewrite IH. by rewrite <- app_assoc.
Qed.

Definition header_of (r : response) (k : string) : option string :=
  match List.find (fun p => fst p =s k) (rheaders r) with Some p => Some (snd p) | None => None end.

Lemma header_of_set k v r : header_of (set_header k v r) k = Some v.
Proof.
  unfold header_of, set_header. cbn. induction (rheaders r) as [|[k' v'] l IH]; cbn; [by rewrite String.eqb_refl|].
  destruct (k' =s k) eqn:E; cbn; [exact IH|]. by rewrite E.
Qed.

Lemma header_or_some s b : truthy s = true -> header_or (Some s) b = s.
Proof. intros H. cbn. unfold str_or. by rewrite H. Qed.

Lemma header_or_none b : header_or None b = b.
Proof. done. Qed.

(** What a refused request leaves behind, and what a served one does. *)
Definition refused {S} (request_id : string) (s : S) (log : list log_line) (out : (S * list log_line) * result response) : Prop :=
  fst out = (s, log) /\
  snd out = Ok (mkResponse 401 (JObj [("ok", JBool false); ("error", JStr "Invalid API key")]) [("x-request-id", request_id)]).

Definition served {S} (request_id : string) (inner : S * result response) (log : list log_line) (out : (S * list log_line) * result response) : Prop :=
  fst (fst out) = fst inner /\
  (exists line, snd (fst out) = log ++ line /\ (length line <= 1)%nat) /\
  match snd inner with
  | Raise e => snd out = Raise e
  | Ok a => exists a', snd out = Ok a' /\ status_code a' = status_code a /\ body a' = body a /\
                       header_of a' "x-request-id" = Some request_id
  end.

Section middleware.
Context {S : Type}.
Variables (C : security_config) (repr : Q -> string) (uuid : string) (t0 t1 draw : Q) (call_next : string -> http_request -> ST S response).
Let run := request_context_middleware C repr uuid t0 t1 draw call_next.

Lemma middleware_serves r s log :
  truthy (ORCH_API_KEY C) = false \/ is_public C (r_path r) = true \/ _extract_api_key r = ORCH_API_KEY C ->
  served (header_or (headers_get r "x-request-id") uuid) (call_next (header_or (headers_get r "x-request-id") uuid) r s) log (run r (s, log)).
Proof.
  intros H. unfold run, request_context_middleware.
  replace (_ && _ && _) with false.
  2:{ symmetry. destruct H as [-> | [-> | ->]]; cbn; [done| by rewrite andb_false_r | by rewrite String.eqb_refl, andb_false_r]. }
  destruct (call_next (header_or (headers_get r "x-request-id") uuid) r s) as [s' [a|e]]; cbn.
  - split; [done|]. split.
    + destruct (_should_log_http_request _ _ _ _); [by eexists | exists []; by rewrite app_nil_r; split; [|cbn; lia]].
    + eexists. split; [done|]. cbn. split; [done|]. split; [done|]. exact (header_of_set "x-request-id" _ a).
  - split; [done|]. split; [|done]. exists []. rewrite app_nil_r. split; [done | cbn; lia].
Qed.

Lemma middleware_refuses r s log :
  truthy (ORCH_API_KEY C) = true -> is_public C (r_path r) = false -> _extract_api_key r <> ORCH_API_KEY C ->
  refused (header_or (headers_get r "x-request-id") uuid) s log (run r (s, log)).
Proof.
  intros Hk Hp Hw. unfold run, request_context_middleware. rewrite Hk, Hp.
  apply String.eqb_neq in Hw. rewrite Hw. by split.
Qed.
End middleware.

(** ** The start *)

Lemma posture_ok C log log' :
  validate_orchestrator_security_posture C log = (log', Ok tt) ->
  is_production C = true -> ORCH_SECURITY_STRICT C = true -> truthy (ORCH_API_KEY C) = true.
Proof.
  unfold validate_orchestrator_security_posture. intros H Hp Hs. rewrite Hp in H. cbn in H.
  unfold st_bind in H. rewrite st_for_log in H. rewrite Hs in H.
  unfold posture_issues in H. by destruct (truthy (ORCH_API_KEY C)).
Qed.

Lemma env_flag_unset environ k d : environ k = None -> env_flag environ k d = mem_str (lower d) ["1"; "true"; "yes"; "on"].
Proof. intros H. unfold env_flag, getenv. by rewrite H. Qed.

(** The paths that a production environment leaves open unless it says more. *)
Definition production_open : list string :=
  ["/health"; "/pilot"; "/integrations/telegram/webhook"; "/integrations/slack/events"].

Lemma production_public environ rate slow path :
  in_production environ = true ->
  environ "ORCH_PUBLIC_STATUS" = None -> environ "ORCH_PUBLIC_DOCS" = None -> environ "ORCH_PROMETHEUS_PUBLIC" = None ->
  is_public (config_of_env environ rate slow) path = true -> existsb (startswith path) production_open = true.
Proof.
  intros Hp Hs Hd Hm. unfold is_public, public_prefixes.
  cbn [config_of_env ORCH_PUBLIC_STATUS ORCH_PUBLIC_DOCS ORCH_PROMETHEUS_PUBLIC SEC_MESSAGING_ENABLED].
  rewrite (env_flag_unset _ _ _ Hs), (env_flag_unset _ _ _ Hd), (env_flag_unset _ _ _ Hm), Hp.
  change (mem_str (lower "false") ["1"; "true"; "yes"; "on"]) with false. rewrite andb_false_r, !app_nil_r.
  destruct (_ && _); cbn; [done|]. rewrite !orb_false_r, !orb_true_iff. tauto.
Qed.

(** C15: a start in production with the strict check left on refuses to run
    without a key; once it has passed, a request outside the open paths
    (health, pilot page and the two chat webhooks) whose key is not the
    configured one is answered 401 before the application sees it: the
    application's state and the log are untouched. *)
Theorem strict_production_guards {S} environ rate slow repr uuid t0 t1 draw (call_next : string -> http_request -> ST S response) r s log log0 log1 :
  in_production environ = true -> environ "ORCH_SECURITY_STRICT" = None ->
  environ "ORCH_PUBLIC_STATUS" = None -> environ "ORCH_PUBLIC_DOCS" = None -> environ "ORCH_PROMETHEUS_PUBLIC" = None ->
  let C := config_of_env environ rate slow in
  validate_orchestrator_security_posture C log0 = (log1, Ok tt) ->
  existsb (startswith (r_path r)) production_open = false -> _extract_api_key r <> ORCH_API_KEY C ->
  refused (header_or (headers_get r "x-request-id") uuid) s log
    (request_context_middleware C repr uuid t0 t1 draw call_next r (s, log)).
Proof.
  intros Hp Hs H1 H2 H3 C Hv Ho Hw. apply middleware_refuses; [| |exact Hw].
  - apply (posture_ok _ _ _ Hv); [exact Hp|]. exact (env_flag_unset environ _ "true" Hs).
  - apply not_true_iff_false. intros Hpub. unfold C in Hpub.
    rewrite (production_public environ rate slow _ Hp H1 H2 H3 Hpub) in Ho. done.
Qed.

Definition prod_env (k : string) : option string :=
  if k =s "MEMMCP_ENV" then Some " Production "
  else if k =s "CONTEXTLATTICE_ORCHESTRATOR_API_KEY" then Some " s3cret " else None.

Definition demo_request (path : string) (h q : list (string * string)) : http_request :=
  let get l k := match List.find (fun p => fst p =s k) l with Some p => Some (snd p) | None => None end in
  mkRequest "GET" path None (get h) (get q).

Lemma strict_production_guards_witness :
  refused "u1" 7 []
    (request_context_middleware (config_of_env prod_env (Finite (1 # 10)) 1500) (fun _ => "") "u1" 0 1 0
       (fun _ _ => st_modify Z.succ ;;; st_ret (mkResponse 200 JNull []))
       (demo_request "/memory/search" [("authorization", "Bearer guess")] []) (7, [])).
Proof.
  apply (strict_production_guards prod_env (Finite (1 # 10)) 1500 (fun _ => "") "u1" 0 1 0
           (fun _ _ => st_modify Z.succ ;;; st_ret (mkResponse 200 JNull []))
           (demo_request "/memory/search" [("authorization", "Bearer guess")] []) 7 [] [] []);
    vm_compute; congruence.
Defined.

(** ** Sending the key *)

(** The ways the key may be sent: as it is or as a bearer token in either of
    the two headers, or as a query parameter when both headers are absent. *)
Inductive sends_key (key : string) (r : http_request) : Prop :=
| bearer h scheme : In h ["x-api-key"; "authorization"] -> lower scheme = "bearer" ->
    headers_get r h = Some (scheme +:+ String " " key) -> (h = "authorization" -> headers_get r "x-api-key" = None) ->
    sends_key key r
| plain h : In h ["x-api-key"; "authorization"] -> startswith (lower key) "bearer " = false ->
    headers_get r h = Some key -> (h = "authorization" -> headers_get r "x-api-key" = None) -> sends_key key r
| in_query : headers_get r "x-api-key" = None -> headers_get r "authorization" = None ->
    query_get r "api_key" = Some key -> sends_key key r.

Lemma lower_blank c : lower_char c = " "%char -> c = " "%char.
Proof. destruct c as [[] [] [] [] [] [] [] []]; vm_compute; congruence. Qed.

Lemma after_space_app scheme t : has_char " " (lower scheme) = false -> after_space (scheme +:+ String " " t) = t.
Proof.
  induction scheme as [|c s IH]; intros H; [done|]. rewrite append_cons. cbn in *.
  destruct (Ascii.eqb c " ") eqn:E.
  - apply Ascii.eqb_eq in E. subst c. done.
  - apply IH. destruct (Ascii.eqb _ _); [done|exact H].
Qed.

Lemma bearer_key scheme key : lower scheme = "bearer" ->
  truthy (scheme +:+ String " " key) = true /\ startswith (lower (scheme +:+ String " " key)) "bearer " = true /\
  after_space (scheme +:+ String " " key) = key.
Proof.
  intros H. split; [|split].
  - destruct scheme; [done|]. by rewrite append_cons.
  - rewrite lower_app, H. exact (startswith_app "bearer " (lower key)).
  - apply after_space_app. by rewrite H.
Qed.

Lemma key_extracted key r : strip key = key -> truthy key = true -> sends_key key r -> _extract_api_key r = key.
Proof.
  intros Hs Ht [h scheme Hh Hl Hg Ho | h Hh Hb Hg Ho | Hx Ha Hq]; unfold _extract_api_key.
  - destruct (bearer_key scheme key Hl) as (Hne & Hst & Haf).
    assert (header_or (headers_get r "x-api-key") (header_or (headers_get r "authorization") "") = scheme +:+ String " " key) as ->.
    { destruct Hh as [<- | [<- | []]]; [|rewrite (Ho eq_refl)]; rewrite Hg, ?header_or_none; by rewrite header_or_some. }
    by rewrite Hst, Haf.
  - assert (header_or (headers_get r "x-api-key") (header_or (headers_get r "authorization") "") = key) as ->.
    { destruct Hh as [<- | [<- | []]]; [|rewrite (Ho eq_refl)]; rewrite Hg, ?header_or_none; by rewrite header_or_some. }
    by rewrite Hb, Hs, Ht.
  - rewrite Hx, Ha, Hq, !header_or_none. change (startswith (lower "") "bearer ") with false.
    change (strip "") with "". cbn [truthy String.eqb negb]. by rewrite header_or_some.
Qed.

(** A client that sends the configured key, plainly or as a bearer token
    in whatever case, in either header, or as a query parameter, is served on
    every path: the application runs, and its answer comes back with status and
    body unchanged, carrying the request's id, with at most one log line more. *)
Theorem right_key_is_served {S} environ rate slow repr uuid t0 t1 draw (call_next : string -> http_request -> ST S response) r s log :
  let C := config_of_env environ rate slow in
  sends_key (ORCH_API_KEY C) r ->
  served (header_or (headers_get r "x-request-id") uuid) (call_next (header_or (headers_get r "x-request-id") uuid) r s) log
    (request_context_middleware C repr uuid t0 t1 draw call_next r (s, log)).
Proof.
  intros C H. apply middleware_serves. destruct (truthy (ORCH_API_KEY C)) eqn:Ht; [|by left].
  right; right. apply key_extracted; [|exact Ht|exact H]. unfold C. cbn. apply strip_strip.
Qed.

Lemma right_key_is_served_witness :
  served "id9" (8, Ok (mkResponse 200 JNull [])) []
    (request_context_middleware (config_of_env prod_env (Finite (1 # 10)) 1500) (fun _ => "") "u1" 0 1 0
       (fun _ _ => st_modify Z.succ ;;; st_ret (mkResponse 200 JNull []))
       (demo_request "/memory/search" [("x-request-id", "id9"); ("authorization", "BEARER s3cret")] []) (7, [])).
Proof.
  apply (right_key_is_served prod_env (Finite (1 # 10)) 1500 (fun _ => "") "u1" 0 1 0
           (fun _ _ => st_modify Z.succ ;;; st_ret (mkResponse 200 JNull []))
           (demo_request "/memory/search" [("x-request-id", "id9"); ("authorization", "BEARER s3cret")] []) 7 []).
  apply (bearer _ _ "authorization" "BEARER"); [by right; left | reflexivity | reflexivity | reflexivity].
Defined.

(** ** The webhooks *)

Lemma telegram_secret_ignored {S} `{CommandServices S} M update a b (s : S) :
  TELEGRAM_WEBHOOK_SECRET M = "" -> telegram_webhook M update a s = telegram_webhook M update b s.
Proof. intros H0. unfold telegram_webhook. by rewrite H0. Qed.

(** With the messaging integration on and its webhooks public (the code's
    defaults) and no Telegram secret configured (the default too), a Telegram
    update that carries neither key nor secret is executed as if it had both,
    and a strict production start with a key set passes without a warning
    about it. *)
Theorem keyless_webhook_runs_commands {S} `{CommandServices S} environ rate slow repr uuid t0 t1 draw M update
    (call_next : string -> http_request -> ST S response) r s log log0 secret :
  environ "MESSAGING_INTEGRATIONS_ENABLED" = None -> environ "MESSAGING_WEBHOOK_PUBLIC" = None ->
  TELEGRAM_WEBHOOK_SECRET M = "" -> r_path r = "/integrations/telegram/webhook" ->
  (forall i q t, fst (call_next i q t)
     = fst (telegram_webhook M update (header_or (headers_get q "x-telegram-bot-api-secret-token") "") t)) ->
  let C := config_of_env environ rate slow in
  truthy (ORCH_API_KEY C) = true -> posture_warnings C = [] ->
  validate_orchestrator_security_posture C log0 = (log0, Ok tt) /\
  fst (fst (request_context_middleware C repr uuid t0 t1 draw call_next r (s, log))) = fst (telegram_webhook M update secret s).
Proof.
  intros He Hw Hs Hp Hn C Hk Hwarn. split.
  - unfold validate_orchestrator_security_posture. destruct (is_production C); [|done]. cbn [negb].
    unfold posture_issues. rewrite Hwarn, Hk. done.
  - assert (is_public C (r_path r) = true) as Hpub.
    { unfold is_public, public_prefixes, C. cbn [config_of_env SEC_MESSAGING_ENABLED MESSAGING_WEBHOOK_PUBLIC].
      by rewrite (env_flag_unset _ _ _ He), (env_flag_unset _ _ _ Hw), Hp. }
    destruct (middleware_serves C repr uuid t0 t1 draw call_next r s log (or_intror (or_introl Hpub))) as [-> _].
    rewrite Hn. f_equal. by apply telegram_secret_ignored.
Qed.

#[local] Existing Instance demo_services.

Definition demo_update : dict :=
  [("message", JObj [("text", JStr "@ContextLattice remember the launch is on Friday"); ("chat", JObj [("id", JInt 42)])])].

Definition demo_app (_ : string) (r : http_request) : ST (list MemoryWrite) response :=
  d <- telegram_webhook default_messaging demo_update (header_or (headers_get r "x-telegram-bot-api-secret-token") "") ;;
  st_ret (mkResponse 200 (JObj d) []).

Lemma demo_app_state i q t :
  fst (demo_app i q t)
  = fst (telegram_webhook default_messaging demo_update (header_or (headers_get q "x-telegram-bot-api-secret-token") "") t).
Proof. unfold demo_app, st_bind. by destruct (telegram_webhook _ _ _ _) as [? [?|?]]. Qed.

(** One memory is written by a request without key and secret. *)
Lemma keyless_webhook_runs_commands_witness :
  let C := config_of_env prod_env (Finite (1 # 10)) 1500 in
  let r := demo_request "/integrations/telegram/webhook" [] [] in
  validate_orchestrator_security_posture C [] = ([], Ok tt) /\
  length (fst (fst (request_context_middleware C (fun _ => "") "u1" 0 1 0 demo_app r ([], [])))) = 1%nat.
Proof.
  cbn zeta.
  destruct (keyless_webhook_runs_commands prod_env (Finite (1 # 10)) 1500 (fun _ => "") "u1" 0 1 0 default_messaging demo_update
              demo_app (demo_request "/integrations/telegram/webhook" [] []) [] [] [] ""
              eq_refl eq_refl eq_refl eq_refl
              demo_app_state
              ltac:(vm_compute; reflexivity) ltac:(vm_compute; reflexivity)) as [Hv Hs].
  split; [exact Hv|]. rewrite Hs. vm_compute. reflexivity.
Defined.

(** ** Logging *)

Lemma sample_rate_unit v : (0 <= _normalize_sample_rate v <= 1)%Q.
Proof.
  destruct v as [q|b|]; cbn; [|split; unfold Qle; cbn; lia | split; unfold Qle; cbn; lia].
  split; [|apply Q.le_min_l]. apply Q.min_glb; [unfold Qle; cbn; lia | apply Q.le_max_l].
Qed.

(** Errors and slow requests are always logged. *)
Lemma log_decision C status ms draw :
  400 <= status \/ (Qmax 0 (ORCH_HTTP_REQUEST_LOG_SLOW_MS C) <= ms)%Q ->
  _should_log_http_request C status ms draw = true.
Proof.
  unfold _should_log_http_request. intros [H | H].
  - apply Z.leb_le in H. by rewrite H.
  - destruct (400 <=? status); [done|]. apply Qle_bool_iff in H. by rewrite H.
Qed.
