(* ===== verification/Retention.v ===== *)
(** * Retention of low-value records and pruning of Letta's backlog

    The periodic clean-up of the sinks: records that are of low value and older
    than the sink's retention are deleted from the vector index, the raw store
    and Letta's archive ([run_sink_retention_once]), and Letta's queued jobs are
    pruned when there are too many ([run_letta_auto_prune_once]).  The stores
    answer through the class [Sinks]; a timeout of [wait_for] is a fault of the
    call it interrupts. *)

From S2P Require Import Prelude PyStr PyTime Json JsonText IsoParse Policy Outbox OutboxStore OutboxMaint Fanout Ranking Sources Recall Profiles.
From Stdlib Require Import QArith Qminmax.
Open Scope Z_scope.

(** ** Settings *)

Record retention_config := mkRetention {
  SINK_RETENTION_SCAN_LIMIT : Z; SINK_RETENTION_DELETE_BATCH : Z; SINK_RETENTION_MAX_DELETES_PER_RUN : Z;
  QDRANT_LOW_VALUE_RETENTION_HOURS : Q; MONGO_RAW_LOW_VALUE_RETENTION_HOURS : Q; LETTA_LOW_VALUE_RETENTION_HOURS : Q;
  LETTA_RETENTION_PAGE_LIMIT : Z; LETTA_RETENTION_MAX_DELETES_PER_RUN : Z;
  RT_LETTA_ENABLED : bool; (* _letta_config_enabled() *)
  RT_QDRANT_MODELS : bool (* qdrant_models is not None *) }.

Definition default_retention : retention_config := mkRetention 5000 128 5000 72 0 48 100 1200 true true.

(** ** Stores *)

(** A point of the vector index; an absent id is null. *)
Record point := mkPoint { pt_id : json; pt_payload : dict }.

(** [qdrant_scroll limit offset]: a page and the next offset; [mongo_older
    cutoff limit]: the oldest documents with [updated_at < cutoff]; an answer of
    Letta is its status, its text and its JSON body ([[]] when empty). *)
Class Sinks (W : Type) := {
  qdrant_scroll : Z -> json -> ST W (list point * json);
  qdrant_delete : list json -> ST W unit;
  mongo_ready : ST W bool;
  mongo_older : string -> Z -> ST W (list dict);
  mongo_delete : list json -> ST W Z;
  letta_agent : ST W string;
  letta_list : string -> Z -> string -> ST W (Z * string * json);
  letta_delete : string -> string -> ST W (Z * string) }.

(** [[values[idx : idx + size] for idx in range(0, len(values), size)]] *)
Fixpoint chunks_from {A} (fuel size : nat) (values : list A) : list (list A) :=
  match fuel, values with
  | S fuel', _ :: _ => firstn size values :: chunks_from fuel' size (skipn size values)
  | _, _ => []
  end.
Definition _chunk_values {A} (values : list A) (chunk_size : Z) : list (list A) :=
  chunks_from (length values) (Z.to_nat (Z.max 1 chunk_size)) values.

(** Microseconds since the epoch. *)
Definition _retention_cutoff_datetime (now : Z) (hours : Q) : Z :=
  now - round_half_even (Qmax 0 hours * qz (3600 * us_per_sec)).
Definition _retention_cutoff_iso (now : Z) (hours : Q) : string := _utc_iso_from_unix (_retention_cutoff_datetime now hours).

(** [int(time.time() - (hours * 3600.0))] *)
Definition cutoff_epoch (now : Z) (hours : Q) : Z :=
  let q := (qz now / qz us_per_sec - hours * 3600)%Q in Z.quot (Qnum q) (QDen q).

Section retention.
Context {W : Type} `{Sinks W}.
Variable T : retention_config.
Variable P : record_policy.
Variable parse_float : string -> option Q.

Definition max_scan : Z := Z.max 100 (SINK_RETENTION_SCAN_LIMIT T).
Definition max_deletes : Z := Z.max 1 (SINK_RETENTION_MAX_DELETES_PER_RUN T).

Definition wrap_error {A} (text : string) (m : ST W A) : ST W A :=
  st_try m (fun e => st_raise (OrchestratorError (text +:+ exn_str e))).

Definition disabled (reason : string) : dict :=
  [("enabled", JBool false); ("reason", JStr reason); ("scanned", JInt 0); ("deleted", JInt 0)].

Definition is_null (j : json) : bool := match j with JNull => true | _ => false end.

(** *** The vector index *)

(** The three tests before a point's id is looked at. *)
Definition point_expired (cutoff : Z) (pt : point) : bool :=
  let row := pt_payload pt in
  match to_int parse_float (dget row "ts") with
  | Raise _ => false
  | Ok ts => negb (cutoff <? ts)
             && _is_low_value_memory_record P (jstr_or_empty (dget row "file")) (jstr_or_empty (dget row "topic_path"))
                  (jstr_or_empty (dget row "summary")) "" false
  end.

Fixpoint scan_points (cutoff : Z) (points : list point) (scanned : Z) (candidates : list json) : Z * list json :=
  match points with
  | [] => (scanned, candidates)
  | pt :: points' =>
      let scanned := scanned + 1 in
      if negb (point_expired cutoff pt) || is_null (pt_id pt) then scan_points cutoff points' scanned candidates
      else
        let candidates := candidates ++ [pt_id pt] in
        if max_deletes <=? Z.of_nat (length candidates) then (scanned, candidates)
        else scan_points cutoff points' scanned candidates
  end.

(** A page that is not empty has a point, so [max_scan] pages are enough. *)
Fixpoint scroll_candidates (fuel : nat) (cutoff scanned : Z) (candidates : list json) (offset : json) : ST W (Z * list json) :=
  if negb ((scanned <? max_scan) && (Z.of_nat (length candidates) <? max_deletes)) then st_ret (scanned, candidates)
  else
    match fuel with
    | O => st_raise (OtherError "fuel" "")
    | S fuel' =>
        page <- wrap_error "Qdrant retention scroll failed: " (qdrant_scroll (Z.min 256 (max_scan - scanned)) offset) ;;
        let '(points, next_offset) := page in
        match points with
        | [] => st_ret (scanned, candidates)
        | _ =>
            let '(scanned, candidates) := scan_points cutoff points scanned candidates in
            if is_null next_offset then st_ret (scanned, candidates)
            else scroll_candidates fuel' cutoff scanned candidates next_offset
        end
    end.

Fixpoint delete_batches (batches : list (list json)) (deleted : Z) : ST W Z :=
  match batches with
  | [] => st_ret deleted
  | id_batch :: rest =>
      if negb (RT_QDRANT_MODELS T)
      then st_raise (OrchestratorError "qdrant-client dependency is required for Qdrant retention")
      else wrap_error "Qdrant retention delete failed: " (qdrant_delete id_batch) ;;;
           delete_batches rest (deleted + Z.of_nat (length id_batch))
  end.

Definition _run_qdrant_low_value_retention_once (now : Z) : ST W dict :=
  let hours := Qmax 0 (QDRANT_LOW_VALUE_RETENTION_HOURS T) in
  if Qle_bool hours 0 then st_ret (disabled "QDRANT_LOW_VALUE_RETENTION_HOURS<=0")
  else
    let cutoff := cutoff_epoch now hours in
    found <- scroll_candidates (Z.to_nat max_scan) cutoff 0 [] JNull ;;
    let '(scanned, candidates) := found in
    deleted <- delete_batches (_chunk_values candidates (Z.max 1 (SINK_RETENTION_DELETE_BATCH T))) 0 ;;
    st_ret [("enabled", JBool true); ("cutoffEpoch", JInt cutoff); ("scanned", JInt scanned);
            ("deleteCandidates", JInt (Z.of_nat (length candidates))); ("deleted", JInt deleted)].

(** *** The raw store *)

Definition document_low_value (doc : dict) : bool :=
  _is_low_value_memory_record P (jstr_or_empty (dget doc "file")) (jstr_or_empty (dget doc "topic_path"))
    (jstr_or_empty (dget doc "summary")) (jstr_or_empty (dget doc "source")) false.

Fixpoint pick_documents (docs : list dict) (delete_ids : list json) : list json :=
  match docs with
  | [] => delete_ids
  | doc :: docs' =>
      if max_deletes <=? Z.of_nat (length delete_ids) then delete_ids
      else pick_documents docs' (if document_low_value doc then delete_ids ++ [dget doc "_id"] else delete_ids)
  end.

Definition _run_mongo_low_value_retention_once (now : Z) : ST W dict :=
  let hours := Qmax 0 (MONGO_RAW_LOW_VALUE_RETENTION_HOURS T) in
  if Qle_bool hours 0 then st_ret (disabled "MONGO_RAW_LOW_VALUE_RETENTION_HOURS<=0")
  else
    ready <- mongo_ready ;;
    if negb ready then st_raise (OrchestratorError "mongo raw store unavailable")
    else
      let cutoff_iso := _retention_cutoff_iso now hours in
      docs <- mongo_older cutoff_iso max_scan ;;
      let delete_ids := pick_documents docs [] in
      deleted <- (match delete_ids with [] => st_ret 0 | _ => mongo_delete delete_ids end) ;;
      st_ret [("enabled", JBool true); ("cutoffIso", JStr cutoff_iso); ("scanned", JInt (Z.of_nat (length docs)));
              ("deleteCandidates", JInt (Z.of_nat (length delete_ids))); ("deleted", JInt deleted)].

(** *** Letta's archive *)

Record letta_scan := mkLettaScan {
  ls_scanned : Z; ls_deleted : Z; ls_candidates : Z; ls_after : string; ls_stop_on_recent : bool }.

Definition passage_low_value (row : dict) : bool :=
  let parsed := _parse_letta_archival_content (jstr_or_empty (dget row "text")) in
  _is_low_value_memory_record P (ps_file parsed) (ps_topic parsed) (ps_summary parsed) "" false.

Definition passage_recent (cutoff : Z) (row : dict) : bool :=
  match row_time row with Some t => cutoff <? t | None => false end.

Definition delete_cap : Z :=
  Z.max 1 (Z.min (LETTA_RETENTION_MAX_DELETES_PER_RUN T) (SINK_RETENTION_MAX_DELETES_PER_RUN T)).
Definition page_limit : Z := Z.max 10 (Z.min (LETTA_RETENTION_PAGE_LIMIT T) 200).

Fixpoint scan_passages (agent_id : string) (cutoff : Z) (rows : list json) (s : letta_scan) : ST W letta_scan :=
  match rows with
  | [] => st_ret s
  | JObj row :: rows' =>
      let id := jstr_or_empty (dget row "id") in
      let s := mkLettaScan (ls_scanned s + 1) (ls_deleted s) (ls_candidates s) (str_or id (ls_after s)) (ls_stop_on_recent s) in
      if passage_recent cutoff row
      then st_ret (mkLettaScan (ls_scanned s) (ls_deleted s) (ls_candidates s) (ls_after s) true)
      else if negb (passage_low_value row) || negb (truthy (strip id)) then scan_passages agent_id cutoff rows' s
      else
        answer <- letta_delete agent_id (strip id) ;;
        let '(status, text) := answer in
        let s := mkLettaScan (ls_scanned s) (ls_deleted s) (ls_candidates s + 1) (ls_after s) (ls_stop_on_recent s) in
        s <- (if existsb (Z.eqb status) [200; 202; 204; 404]
              then st_ret (mkLettaScan (ls_scanned s) (ls_deleted s + 1) (ls_candidates s) (ls_after s) (ls_stop_on_recent s))
              else if 400 <=? status
              then st_raise (OrchestratorError ("Letta retention delete failed: status=" +:+ str_of_Z status +:+ " body=" +:+ take 240 text))
              else st_ret s) ;;
        if delete_cap <=? ls_deleted s then st_ret s else scan_passages agent_id cutoff rows' s
  | _ :: rows' => scan_passages agent_id cutoff rows' s
  end.

(** [pages]: the pages the time allows; then the run is cancelled. *)
Fixpoint scan_archive (pages : nat) (agent_id : string) (cutoff : Z) (s : letta_scan) : ST W letta_scan :=
  if negb ((ls_scanned s <? max_scan) && (ls_deleted s <? delete_cap) && negb (ls_stop_on_recent s)) then st_ret s
  else
    match pages with
    | O => st_raise TimeoutError
    | S pages' =>
        answer <- letta_list agent_id page_limit (ls_after s) ;;
        let '(status, text, content) := answer in
        if 400 <=? status
        then st_raise (OrchestratorError ("Letta retention list failed: status=" +:+ str_of_Z status +:+ " body=" +:+ take 240 text))
        else
          match content with
          | JList ((_ :: _) as rows) =>
              s <- scan_passages agent_id cutoff rows s ;;
              if Z.of_nat (length rows) <? page_limit then st_ret s else scan_archive pages' agent_id cutoff s
          | _ => st_ret s
          end
    end.

Definition _run_letta_low_value_retention_once (pages : nat) (now : Z) : ST W dict :=
  let hours := Qmax 0 (LETTA_LOW_VALUE_RETENTION_HOURS T) in
  if Qle_bool hours 0 then st_ret (disabled "LETTA_LOW_VALUE_RETENTION_HOURS<=0")
  else if negb (RT_LETTA_ENABLED T) then st_ret (disabled "letta not configured")
  else
    let cutoff := _retention_cutoff_datetime now hours in
    agent_id <- letta_agent ;;
    s <- scan_archive pages agent_id cutoff (mkLettaScan 0 0 0 "" false) ;;
    st_ret [("enabled", JBool true); ("cutoffIso", JStr (_utc_iso_from_unix cutoff)); ("scanned", JInt (ls_scanned s));
            ("deleteCandidates", JInt (ls_candidates s)); ("deleted", JInt (ls_deleted s))].

(** *** One run *)

(** [sink_retention_state] *)
Record retention_state := mkRetentionState {
  rs_lastRunAt : option string; rs_lastDurationMs : option Q; rs_lastError : option string; rs_lastResult : dict; rs_runs : Z }.
Definition no_retention : retention_state := mkRetentionState None None None [] 0.

Definition _record_sink_retention_run (now : Z) (result : dict) (error : option string) (duration_ms : Q) (s : retention_state)
  : retention_state :=
  mkRetentionState (Some (_utc_now now)) (Some (rnd 2 duration_ms))
    (match error with Some e => if truthy e then Some (take 400 e) else None | None => None end) result (rs_runs s + 1).

(** What is kept of one sink: its report, or the text of its error. *)
Definition sink_outcome (m : ST W dict) : ST W (dict + string) :=
  fun w => match m w with (w', Ok d) => (w', Ok (inl d)) | (w', Raise e) => (w', Ok (inr (exn_str e))) end.

Definition reports (l : list (string * (dict + string))) : dict :=
  List.flat_map (fun p => match snd p with inl d => [(fst p, JObj d)] | inr _ => [] end) l.
Definition failures (l : list (string * (dict + string))) : dict :=
  List.flat_map (fun p => match snd p with inl _ => [] | inr e => [(fst p, JStr e)] end) l.

Definition run_sink_retention_once (pages : nat) (now : Z) (duration_ms : Q) : ST (W * retention_state) dict :=
  fun '(w, s) =>
    let run :=
      q <- sink_outcome (_run_qdrant_low_value_retention_once now) ;;
      m <- sink_outcome (_run_mongo_low_value_retention_once now) ;;
      l <- sink_outcome (_run_letta_low_value_retention_once pages now) ;;
      st_ret [("qdrant", q); ("mongo_raw", m); ("letta", l)] in
    match run w with
    | (w', Ok outcomes) =>
        let errors := failures outcomes in
        let result := [("sinks", JObj (reports outcomes)); ("errors", JObj errors); ("ok", JBool (match errors with [] => true | _ => false end))] in
        let error := match errors with [] => None | _ => Some (take 400 (dumps (JObj errors))) end in
        ((w', _record_sink_retention_run now result error duration_ms s), Ok result)
    | (w', Raise e) => ((w', s), Raise e)
    end.
End retention.

(** ** Pruning Letta's backlog *)

Record auto_prune_config := mkAutoPrune {
  LETTA_AUTO_PRUNE_ENABLED : bool; LETTA_AUTO_PRUNE_BACKLOG_TRIGGER : Z; LETTA_AUTO_PRUNE_LIMIT : Z;
  LETTA_AUTO_PRUNE_STATUSES : list string }.
Definition default_auto_prune : auto_prune_config := mkAutoPrune true 1000 20000 ["pending"; "retrying"].

(** The answer of a run; a key that a branch leaves out is [None].  The settings
    that the answer and the state repeat (the timeout, the interval) are left
    out. *)
Record auto_prune_report := mkAutoReport {
  ar_enabled : bool; ar_forced : bool; ar_ran : bool; ar_skipped : option string; ar_threshold : Z; ar_backlog : option Z;
  ar_backlogBefore : option Z; ar_backlogAfter : option Z; ar_statuses : list string; ar_limit : Z; ar_prune : option prune_report }.

Record auto_prune_state := mkAutoState {
  as_lastRunAt : option string; as_lastDurationMs : option Q; as_lastError : option string; as_lastDeleted : Z;
  as_lastBacklogBefore : Z; as_lastBacklogAfter : Z; as_lastSkippedReason : option string; as_runs : Z;
  as_lastResult : option auto_prune_report }.
Definition no_auto_prune : auto_prune_state := mkAutoState None None None 0 0 0 None 0 None.

Definition or_else {A} (a b : option A) : option A := match a with Some _ => a | None => b end.
Definition opt_default {A} (a : option A) (d : A) : A := match a with Some x => x | None => d end.

(** [result]: the report, or the text of the error. *)
Definition _record_letta_auto_prune_run (now : Z) (result : auto_prune_report + string) (duration_ms : Q) (s : auto_prune_state)
  : auto_prune_state :=
  let at_ := Some (_utc_now now) in
  let took := Some (rnd 2 (Qmax 0 duration_ms)) in
  match result with
  | inr error =>
      mkAutoState at_ took (Some (take 400 error)) (as_lastDeleted s) (as_lastBacklogBefore s) (as_lastBacklogAfter s) None (as_runs s + 1) None
  | inl payload =>
      mkAutoState at_ took None (match ar_prune payload with Some p => pr_deleted p | None => 0 end)
        (opt_default (or_else (ar_backlogBefore payload) (ar_backlog payload)) (as_lastBacklogBefore s))
        (opt_default (or_else (ar_backlogAfter payload) (option_map pr_after (ar_prune payload))) (as_lastBacklogAfter s))
        (ar_skipped payload) (as_runs s + 1) (Some payload)
  end.

Section auto_prune.
Variable A : auto_prune_config.
Variable cfg : store_config.
Variable P : record_policy.
Variable FANOUT_SUMMARY_CACHE_TTL_SECS : Z.

Definition ap_threshold : Z := Z.max 1 (LETTA_AUTO_PRUNE_BACKLOG_TRIGGER A).
Definition ap_limit : Z := Z.max 1 (LETTA_AUTO_PRUNE_LIMIT A).
Definition ap_statuses : list string := match LETTA_AUTO_PRUNE_STATUSES A with [] => ["pending"; "retrying"] | l => l end.

(** The body of the [try]. *)
Definition auto_prune_body (monotonic : Z) (force : bool) : ST (outbox_store * summary_cache) auto_prune_report :=
  fun wc =>
    if negb (LETTA_AUTO_PRUNE_ENABLED A) && negb force
    then (wc, Ok (mkAutoReport false false false (Some "disabled") ap_threshold None None None ap_statuses ap_limit None))
    else
      let '(wc, summary) := get_fanout_summary cfg FANOUT_SUMMARY_CACHE_TTL_SECS monotonic wc in
      let backlog := _fanout_target_outstanding_count summary FANOUT_TARGET_LETTA in
      if negb force && (backlog <? ap_threshold)
      then (wc, Ok (mkAutoReport (LETTA_AUTO_PRUNE_ENABLED A) false false (Some "below_threshold") ap_threshold (Some backlog)
                      None None ap_statuses ap_limit None))
      else
        let '(w, c) := wc in
        match prune_letta_low_value_outbox cfg P ap_statuses ap_limit false w with
        | (w', Raise e) => ((w', c), Raise e)
        | (w', Ok pruned) =>
            let '(w'', c, after) :=
              match _query_fanout_summary_uncached cfg w' with
              | (w'', Ok refreshed) =>
                  (w'', _set_fanout_summary_cache monotonic refreshed c,
                   _fanout_target_outstanding_count refreshed FANOUT_TARGET_LETTA)
              | (w'', Raise _) => (w'', c, Z.max 0 (backlog - pr_deleted pruned))
              end in
            ((w'', c), Ok (mkAutoReport (LETTA_AUTO_PRUNE_ENABLED A) force true None ap_threshold None (Some backlog) (Some after)
                             ap_statuses ap_limit (Some pruned)))
        end.

Definition run_letta_auto_prune_once (now monotonic : Z) (duration_ms : Q) (force : bool)
  : ST ((outbox_store * summary_cache) * auto_prune_state) auto_prune_report :=
  fun '(wc, s) =>
    match auto_prune_body monotonic force wc with
    | (wc', Ok report) => ((wc', _record_letta_auto_prune_run now (inl report) duration_ms s), Ok report)
    | (wc', Raise e) => ((wc', _record_letta_auto_prune_run now (inr (error_text_of e)) duration_ms s), Raise e)
    end.

(** One round of the worker; what it raises is only logged. *)
Definition auto_prune_round (now monotonic : Z) (duration_ms : Q) (ws : (outbox_store * summary_cache) * auto_prune_state)
  : (outbox_store * summary_cache) * auto_prune_state :=
  fst (run_letta_auto_prune_once now monotonic duration_ms false ws).
End auto_prune.

(** One round of the outbox's garbage collector: on an error, a locked or
    broken SQLite file moves the outbox to MongoDB. *)
Definition gc_round (cfg : store_config) (G : gc_config) (now monotonic : Z) (vacuum : option exn) (wg : outbox_store * gc_state)
  : outbox_store * gc_state :=
  match run_fanout_outbox_gc_once cfg G now monotonic vacuum wg with
  | (wg', Ok _) => wg'
  | ((w', g'), Raise e) => (fst (_promote_outbox_backend_to_mongo_if_sqlite_error cfg (error_text_of e) w'), g')
  end.
