(* ===== verification/RetentionFacts.v ===== *)
(** * What retention deletes

    On an index that scrolls in order, a run deletes exactly the first expired
    low-value points among those it scans; records the run has not seen or that
    are not expired stay in every sink, whatever fails; a run always answers and
    names the sinks that failed.  A run scans from the start each time, so points
    behind a full window of kept ones are never reached. *)

From S2P Require Import Prelude PyStr PyTime Json JsonText IsoParse Policy Outbox OutboxStore OutboxMaint Fanout Ranking Sources Recall Profiles Retention.
From Stdlib Require Import QArith Qminmax.
Open Scope Z_scope.

(** ** Chunks *)

Lemma chunks_concat {A} fuel size (l : list A) : (0 < size)%nat -> (length l <= fuel)%nat -> concat (chunks_from fuel size l) = l.
Proof.
  intros Hs. revert l. induction fuel as [|f IH]; intros [|x l] Hl; cbn in *; [done|lia|done|].
  destruct size as [|size]; [lia|]. cbn. f_equal. rewrite IH; [by apply firstn_skipn|].
  rewrite length_skipn. lia.
Qed.

Lemma chunk_values_concat {A} (l : list A) k : concat (_chunk_values l k) = l.
Proof. apply chunks_concat; lia. Qed.

(** ** A healthy index *)

(** [at_offset]: how many points lie before an offset. *)
Class QdrantLaws (W : Type) `{Sinks W} := {
  index : W -> list point;
  at_offset : W -> json -> nat;
  start_offset w : at_offset w JNull = 0%nat;
  scroll_law w limit offset : 0 < limit -> exists next,
    qdrant_scroll limit offset w = (w, Ok (firstn (Z.to_nat limit) (skipn (at_offset w offset) (index w)), next)) /\
    (is_null next = true -> (length (index w) <= at_offset w offset + Z.to_nat limit)%nat) /\
    (is_null next = false -> (at_offset w offset + Z.to_nat limit < length (index w))%nat /\
                             at_offset w next = (at_offset w offset + Z.to_nat limit)%nat);
  delete_law w ids : exists w', qdrant_delete ids w = (w', Ok tt) /\
    index w' = List.filter (fun p => negb (existsb (json_eqb (pt_id p)) ids)) (index w) }.

Lemma firstn_prefix {A} n (a b : list A) : (n <= length a)%nat -> firstn n (a ++ b) = firstn n a.
Proof. intros H. rewrite firstn_app. replace (n - length a)%nat with 0%nat by lia. by rewrite app_nil_r. Qed.

Section index.
Context {W : Type} `{QdrantLaws W}.
Variables (T : retention_config) (P : record_policy) (parse_float : string -> option Q) (cutoff : Z).

Definition doomed (p : point) : bool := point_expired P parse_float cutoff p && negb (is_null (pt_id p)).
Definition doomed_ids (l : list point) : list json := map pt_id (List.filter doomed l).
Definition cap : nat := Z.to_nat (max_deletes T).
Definition window : nat := Z.to_nat (max_scan T).

Lemma cap_pos : (0 < cap)%nat.
Proof. unfold cap, max_deletes. lia. Qed.

Lemma doomed_ids_app a b : doomed_ids (a ++ b) = doomed_ids a ++ doomed_ids b.
Proof. unfold doomed_ids. by rewrite List.filter_app, map_app. Qed.

(** Points are taken in order until there are enough. *)
Lemma scan_points_spec pts sc c : (length c < cap)%nat ->
  let '(sc', c') := scan_points T P parse_float cutoff pts sc c in
  c' = firstn cap (c ++ doomed_ids pts) /\ ((length c' < cap)%nat -> sc' = sc + Z.of_nat (length pts)).
Proof.
  revert sc c. induction pts as [|pt pts IH]; intros sc c Hc; cbn.
  { rewrite app_nil_r. split; [|intros _; lia]. by rewrite firstn_all2 by lia. }
  replace (negb (point_expired P parse_float cutoff pt) || is_null (pt_id pt)) with (negb (doomed pt))
    by (unfold doomed; by destruct (point_expired _ _ _ _), (is_null _)).
  unfold doomed_ids. cbn [List.filter]. destruct (doomed pt); cbn.
  - destruct (max_deletes T <=? Z.of_nat (length (c ++ [pt_id pt]))) eqn:E; blift; rewrite length_app in E; cbn in E.
    + assert (length (c ++ [pt_id pt]) = cap) as Hl by (rewrite length_app; cbn; unfold cap; unfold cap in Hc; lia).
      split; [|rewrite Hl; lia].
      rewrite (cons_middle (pt_id pt) c (map pt_id _)), app_assoc. rewrite firstn_prefix by lia. by rewrite firstn_all2 by lia.
    + assert (length (c ++ [pt_id pt]) < cap)%nat as Hl by (rewrite length_app; cbn; unfold cap; lia).
      specialize (IH (sc + 1) (c ++ [pt_id pt]) Hl).
      destruct (scan_points _ _ _ _ _ _ _) as [sc' c']. destruct IH as [-> Hs].
      rewrite <- app_assoc. split; [done|]. intros Hlt. rewrite <- app_assoc in Hs. rewrite (Hs Hlt). lia.
  - specialize (IH (sc + 1) c Hc). destruct (scan_points _ _ _ _ _ _ _) as [sc' c']. destruct IH as [-> Hs].
    split; [done|]. intros Hlt. rewrite (Hs Hlt). lia.
Qed.

Lemma candidates_done w n : (length (doomed_ids (firstn n (index w))) < cap)%nat ->
  (window <= n)%nat \/ (length (index w) <= n)%nat -> (n <= window)%nat ->
  doomed_ids (firstn n (index w)) = firstn cap (doomed_ids (firstn window (index w))).
Proof.
  intros Hc Hn Hw. destruct Hn as [Hn | Hn].
  - replace window with n by lia. symmetry. apply firstn_all2. lia.
  - rewrite (firstn_all2 (index w)) in Hc |- * by lia. rewrite (firstn_all2 (n := window)) by lia.
    symmetry. apply firstn_all2. lia.
Qed.

Lemma scroll_finds fuel w offset c :
  let n := at_offset w offset in
  c = doomed_ids (firstn n (index w)) -> (length c < cap)%nat -> (n <= window)%nat -> (window - n <= fuel)%nat ->
  exists sc, scroll_candidates T P parse_float fuel cutoff (Z.of_nat n) c offset w
             = (w, Ok (sc, firstn cap (doomed_ids (firstn window (index w))))).
Proof.
  revert offset c. induction fuel as [|fuel IH]; intros offset c n -> Hc Hn Hf.
  all: cbn [scroll_candidates].
  all: replace (Z.of_nat (length (doomed_ids (firstn n (index w)))) <? max_deletes T) with true by (symmetry; apply Z.ltb_lt; unfold cap in Hc; lia).
  all: rewrite andb_true_r; destruct (Z.of_nat n <? max_scan T) eqn:E; blift; cbn [negb].
  1: unfold window in *; lia.
  1,3: exists (Z.of_nat n); unfold st_ret; rewrite <- (candidates_done w n); [done | done | unfold window in *; lia | done].
  set (limit := Z.min 256 (max_scan T - Z.of_nat n)).
  destruct (scroll_law w limit offset) as (next & Hs & Hend & Hmore); [lia|].
  fold n in Hs, Hend, Hmore. unfold st_bind, wrap_error, st_try. rewrite Hs.
  pose proof (take_take_drop (index w) n (Z.to_nat limit)) as Htd.
  set (page := firstn (Z.to_nat limit) (skipn n (index w))) in *.
  destruct page as [|p0 pts] eqn:Ep.
  { exists (Z.of_nat n). unfold st_ret. rewrite <- (candidates_done w n); [done | done | | lia]. right.
    apply (f_equal (@length _)) in Ep. unfold page in Ep. cbn in Ep. rewrite length_firstn, length_skipn in Ep. lia. }
  rewrite <- Ep in *. clear p0 pts Ep.
  pose proof (scan_points_spec page (Z.of_nat n) _ Hc) as Hscan.
  destruct (scan_points _ _ _ _ _ _ _) as [sc c'] eqn:Es. destruct Hscan as [Hc' Hsc].
  rewrite <- doomed_ids_app, Htd in Hc'.
  assert (n + Z.to_nat limit <= window)%nat as Hle by (unfold window, limit; lia).
  destruct (is_null next) eqn:En; [|destruct (Hmore eq_refl) as [Hlen Hat]; destruct (decide (length c' < cap)%nat) as [Hlt|Hge]].
  - exists sc. cbn. do 3 f_equal. rewrite Hc'. specialize (Hend eq_refl).
    by rewrite !(firstn_all2 (index w)) by lia.
  - assert (sc = Z.of_nat (at_offset w next)) as ->.
    { rewrite (Hsc Hlt), Hat. unfold page. rewrite length_firstn, length_skipn. lia. }
    assert (c' = doomed_ids (firstn (at_offset w next) (index w))) as Hc2.
    { rewrite Hat. rewrite Hc' in Hlt |- *. rewrite length_firstn in Hlt. by rewrite firstn_all2 by lia. }
    apply (IH next c' Hc2 Hlt); rewrite Hat; [done|]. unfold limit, window in *. lia.
  - exists sc. assert (length c' = cap) as Hl by (rewrite Hc' in Hge |- *; rewrite length_firstn in Hge |- *; lia).
    assert (scroll_candidates T P parse_float fuel cutoff sc c' next w = (w, Ok (sc, c'))) as ->.
    { destruct fuel; cbn [scroll_candidates]; replace (Z.of_nat (length c') <? max_deletes T) with false
        by (symmetry; apply Z.ltb_ge; unfold cap in Hl; lia); by rewrite andb_false_r. }
    do 3 f_equal. rewrite Hc'. rewrite <- (firstn_skipn (n + Z.to_nat limit) (firstn window (index w))).
    rewrite firstn_firstn, Nat.min_l by lia. rewrite doomed_ids_app, firstn_prefix; [done|].
    rewrite Hc', length_firstn in Hl. lia.
Qed.
End index.

Lemma delete_batches_spec {W} `{QdrantLaws W} T batches deleted w : RT_QDRANT_MODELS T = true ->
  exists w', delete_batches T batches deleted w = (w', Ok (deleted + Z.of_nat (length (concat batches)))) /\
    index w' = List.filter (fun p => negb (existsb (json_eqb (pt_id p)) (concat batches))) (index w).
Proof.
  intros Hm. revert deleted w. induction batches as [|b bs IH]; intros deleted w; cbn.
  { exists w. rewrite Z.add_0_r. split; [done|]. symmetry. by apply filter_all. }
  rewrite Hm. cbn. destruct (delete_law w b) as (w1 & Hd & Hi).
  unfold st_bind, wrap_error, st_try. rewrite Hd.
  destruct (IH (deleted + Z.of_nat (length b)) w1) as (w2 & -> & Hw2). exists w2.
  split; [do 2 f_equal; rewrite length_app; lia|].
  rewrite Hw2, Hi, filter_filter. apply filter_ext_In. intros p _. by rewrite existsb_app, negb_orb.
Qed.

Section qdrant_run.
Context {W : Type} `{QdrantLaws W}.
Variables (T : retention_config) (P : record_policy) (parse_float : string -> option Q) (now : Z).
Hypothesis retention_on : (0 < QDRANT_LOW_VALUE_RETENTION_HOURS T)%Q.
Hypothesis models_on : RT_QDRANT_MODELS T = true.

(** The ids a run deletes: the first expired ones of the window. *)
Definition run_victims (w : W) : list json :=
  firstn (cap T) (doomed_ids P parse_float (cutoff_epoch now (Qmax 0 (QDRANT_LOW_VALUE_RETENTION_HOURS T))) (firstn (window T) (index w))).

Lemma qdrant_run w : exists w' d,
  _run_qdrant_low_value_retention_once T P parse_float now w = (w', Ok d) /\
  dget d "deleted" = JInt (Z.of_nat (length (run_victims w))) /\
  index w' = List.filter (fun p => negb (existsb (json_eqb (pt_id p)) (run_victims w))) (index w).
Proof.
  unfold _run_qdrant_low_value_retention_once. destruct (Qle_bool _ 0) eqn:E.
  { exfalso. apply Qle_bool_iff in E. apply (Qlt_not_le _ _ retention_on). refine (Qle_trans _ _ _ _ E). apply Q.le_max_r. }
  destruct (scroll_finds T P parse_float (cutoff_epoch now (Qmax 0 (QDRANT_LOW_VALUE_RETENTION_HOURS T)))
              (Z.to_nat (max_scan T)) w JNull []) as [sc Hs].
  - by rewrite start_offset.
  - apply cap_pos.
  - rewrite start_offset. lia.
  - unfold window. lia.
  - rewrite start_offset in Hs. unfold st_bind. change 0 with (Z.of_nat 0) at 2. rewrite Hs. fold (run_victims w).
    destruct (delete_batches_spec T (_chunk_values (run_victims w) (Z.max 1 (SINK_RETENTION_DELETE_BATCH T))) 0 w models_on) as (w' & -> & Hi).
    rewrite chunk_values_concat in *. exists w'. eexists. by split.
Qed.
End qdrant_run.

(** C17: with a retention set, a run over an index that scrolls in order
    terminates and deletes exactly the first [SINK_RETENTION_MAX_DELETES_PER_RUN]
    points, among the first [SINK_RETENTION_SCAN_LIMIT] of the index, that are
    of low value and at least as old as the cutoff; it reports their number and
    leaves every other point. *)
Theorem retention_deletes_first_expired {W} `{QdrantLaws W} T P parse_float now w :
  (0 < QDRANT_LOW_VALUE_RETENTION_HOURS T)%Q -> RT_QDRANT_MODELS T = true ->
  exists w' d, _run_qdrant_low_value_retention_once T P parse_float now w = (w', Ok d) /\
    dget d "deleted" = JInt (Z.of_nat (length (run_victims T P parse_float now w))) /\
    index w' = List.filter (fun p => negb (existsb (json_eqb (pt_id p)) (run_victims T P parse_float now w))) (index w).
Proof. intros Hh Hm. exact (qdrant_run T P parse_float now Hh Hm w). Qed.

(** The scan starts over at every run: when the first window of the index
    holds no expired point, no run ever deletes any, however many expired points
    lie behind it and however often retention runs. *)
Theorem retention_never_passes_window {W} `{QdrantLaws W} T P parse_float now w n :
  (0 < QDRANT_LOW_VALUE_RETENTION_HOURS T)%Q -> RT_QDRANT_MODELS T = true -> run_victims T P parse_float now w = [] ->
  index (Nat.iter n (fun w => fst (_run_qdrant_low_value_retention_once T P parse_float now w)) w) = index w.
Proof.
  intros Hh Hm Hv. induction n as [|n IH]; [done|]. cbn [Nat.iter].
  set (w1 := Nat.iter n _ w) in *. change (index (fst (_run_qdrant_low_value_retention_once T P parse_float now w1)) = index w).
  destruct (qdrant_run T P parse_float now Hh Hm w1) as (w' & d & -> & _ & Hi). cbn. rewrite Hi.
  unfold run_victims in Hv |- *. rewrite IH, Hv. by apply filter_all.
Qed.

(** ** Frame and isolation *)

(** Reads keep [I] and answer with known records; deletes of known records of low
    value keep [I] too: of the index, points with a stamp past the cutoff; of
    MongoDB, documents its query for records before the cutoff answered; of Letta,
    passages with a stamp past the cutoff and passages without a readable one. *)
Record sink_frame {W} `{Sinks W} (T : retention_config) (P : record_policy) (parse_float : string -> option Q) (now : Z)
    (known_point : point -> Prop) (known_document known_passage : dict -> Prop) (I : W -> Prop) : Prop := mkFrame {
  f_scroll limit offset : hoare I (qdrant_scroll limit offset) (fun r w => I w /\ List.Forall known_point (fst r)) (fun _ => I);
  f_delete ids :
    List.Forall (fun id => exists p, known_point p /\ point_expired P parse_float (cutoff_epoch now (Qmax 0 (QDRANT_LOW_VALUE_RETENTION_HOURS T))) p = true /\ pt_id p = id) ids ->
    always I (qdrant_delete ids);
  f_ready : always I mongo_ready;
  f_older limit :
    hoare I (mongo_older (_retention_cutoff_iso now (Qmax 0 (MONGO_RAW_LOW_VALUE_RETENTION_HOURS T))) limit)
      (fun docs w => I w /\ List.Forall known_document docs) (fun _ => I);
  f_delete_documents ids :
    List.Forall (fun id => exists d, known_document d /\ document_low_value P d = true /\ dget d "_id" = id) ids ->
    always I (mongo_delete ids);
  f_agent : always I letta_agent;
  f_list agent limit after :
    hoare I (letta_list agent limit after)
      (fun r w => I w /\ (forall rows row, snd r = JList rows -> In (JObj row) rows -> known_passage row)) (fun _ => I);
  f_delete_passage agent row :
    known_passage row ->
    (row_time row = None \/ exists t, row_time row = Some t /\ t <= _retention_cutoff_datetime now (Qmax 0 (LETTA_LOW_VALUE_RETENTION_HOURS T))) ->
    passage_low_value P row = true ->
    always I (letta_delete agent (strip (jstr_or_empty (dget row "id")))) }.

Lemma always_known {S A B} (I : S -> Prop) (m : ST S A) (K : A -> Prop) (k : A -> ST S B) :
  hoare I m (fun a s => I s /\ K a) (fun _ => I) -> (forall a, K a -> always I (k a)) -> always I (st_bind m k).
Proof.
  intros Hm Hk s Hs. unfold st_bind. specialize (Hm s Hs). destruct (m s) as [s' [a|e]]; [|done].
  destruct Hm as [HI HK]. exact (Hk a HK s' HI).
Qed.

Lemma hoare_wrap {W A} (I : W -> Prop) text (m : ST W A) Q :
  hoare I m Q (fun _ => I) -> hoare I (wrap_error text m) Q (fun _ => I).
Proof. intros Hm. eapply hoare_try; [exact Hm|]. by intros e s. Qed.

Section frame.
Context {W : Type} `{Sinks W}.
Variables (T : retention_config) (P : record_policy) (parse_float : string -> option Q) (now : Z).
Variables (known_point : point -> Prop) (known_document known_passage : dict -> Prop) (I : W -> Prop).
Hypothesis F : sink_frame T P parse_float now known_point known_document known_passage I.
Let epoch := cutoff_epoch now (Qmax 0 (QDRANT_LOW_VALUE_RETENTION_HOURS T)).
Let cutoff := _retention_cutoff_datetime now (Qmax 0 (LETTA_LOW_VALUE_RETENTION_HOURS T)).
Let fair_id (id : json) : Prop := exists p, known_point p /\ point_expired P parse_float epoch p = true /\ pt_id p = id.

Lemma scan_points_fair pts sc c : List.Forall known_point pts -> List.Forall fair_id c ->
  List.Forall fair_id (snd (scan_points T P parse_float epoch pts sc c)).
Proof.
  intros Hp. revert sc c. induction Hp as [|p pts Hk Hp IH]; intros sc c Hc; cbn; [done|].
  destruct (point_expired P parse_float epoch p) eqn:E; cbn; [|by apply IH].
  destruct (is_null _); [by apply IH|].
  assert (List.Forall fair_id (c ++ [pt_id p])) as Hc' by (apply List.Forall_app; split; [done|]; repeat constructor; by exists p).
  destruct (_ <=? _); [exact Hc' | by apply IH].
Qed.

Lemma scroll_fair fuel sc c offset : List.Forall fair_id c ->
  hoare I (scroll_candidates T P parse_float fuel epoch sc c offset) (fun r w => I w /\ List.Forall fair_id (snd r)) (fun _ => I).
Proof.
  revert sc c offset. induction fuel as [|fuel IH]; intros sc c offset Hc; cbn; destruct (negb _).
  1,3: by apply hoare_ret.
  - by intros s.
  - eapply hoare_bind; [apply hoare_wrap, (f_scroll _ _ _ _ _ _ _ _ F)|]. intros [pts next] s [Hs Hk]. cbn in Hk.
    destruct pts as [|p0 pts']; [by split|].
    pose proof (scan_points_fair (p0 :: pts') sc c Hk Hc) as Hf.
    destruct (scan_points _ _ _ _ (p0 :: pts') _ _) as [sc' c']. destruct (is_null next); [by split|].
    exact (IH sc' c' next Hf s Hs).
Qed.

Lemma delete_batches_frame batches deleted : List.Forall fair_id (concat batches) -> always I (delete_batches T batches deleted).
Proof.
  revert deleted. induction batches as [|b bs IH]; intros deleted Hf; cbn; [apply always_ret|].
  cbn in Hf. apply List.Forall_app in Hf as [Hb Hbs]. destruct (negb _); [apply always_raise|].
  apply always_bind; [|intros _; by apply IH]. apply hoare_wrap, (f_delete _ _ _ _ _ _ _ _ F), Hb.
Qed.

Lemma qdrant_frame : always I (_run_qdrant_low_value_retention_once T P parse_float now).
Proof.
  unfold _run_qdrant_low_value_retention_once. destruct (Qle_bool _ _); [apply always_ret|].
  eapply always_known; [by apply scroll_fair|]. intros [sc c] Hc. cbn in Hc.
  apply always_bind; [|intros n; apply always_ret]. apply delete_batches_frame. by rewrite chunk_values_concat.
Qed.

Let fair_document (id : json) : Prop := exists d, known_document d /\ document_low_value P d = true /\ dget d "_id" = id.

Lemma pick_documents_fair docs ids : List.Forall known_document docs -> List.Forall fair_document ids ->
  List.Forall fair_document (pick_documents T P docs ids).
Proof.
  intros Hd. revert ids. induction Hd as [|d docs Hk Hd IH]; intros ids Hi; cbn; [done|].
  destruct (_ <=? _); [done|]. apply IH. destruct (document_low_value P d) eqn:E; [|done].
  apply List.Forall_app. split; [done|]. repeat constructor. by exists d.
Qed.

Lemma mongo_frame : always I (_run_mongo_low_value_retention_once T P now).
Proof.
  unfold _run_mongo_low_value_retention_once. destruct (Qle_bool _ _); [apply always_ret|].
  apply always_bind; [exact (f_ready _ _ _ _ _ _ _ _ F)|]. intros [|]; cbn; [|apply always_raise].
  eapply always_known; [exact (f_older _ _ _ _ _ _ _ _ F _)|]. intros docs Hd.
  apply always_bind; [|intros n; apply always_ret].
  pose proof (pick_documents_fair docs [] Hd (List.Forall_nil _)) as Hf.
  destruct (pick_documents T P docs []); [apply always_ret|]. exact (f_delete_documents _ _ _ _ _ _ _ _ F _ Hf).
Qed.

Lemma not_recent c row : passage_recent c row = false -> row_time row = None \/ exists t, row_time row = Some t /\ t <= c.
Proof. unfold passage_recent. destruct (row_time row) as [t|]; [|by left]. intros Ht%Z.ltb_ge. right. by exists t. Qed.

Lemma scan_passages_frame agent rows s : (forall row, In (JObj row) rows -> known_passage row) ->
  always I (scan_passages T P agent cutoff rows s).
Proof.
  revert s. induction rows as [|r rows IH]; intros s Hk; cbn [scan_passages]; [apply always_ret|].
  assert (forall s, always I (scan_passages T P agent cutoff rows s)) as Hrest by (intros s'; apply IH; intros row Hr; apply Hk; by right).
  destruct r as [| | | | | |row]; try apply Hrest.
  destruct (passage_recent cutoff row) eqn:E; [apply always_ret|].
  destruct (passage_low_value P row) eqn:El; cbn [negb orb]; [|apply Hrest]. destruct (negb _); [apply Hrest|].
  apply always_bind; [apply (f_delete_passage _ _ _ _ _ _ _ _ F); [apply Hk; by left | by apply not_recent | exact El]|].
  intros [status text]. apply always_bind.
  - destruct (existsb _ _); [apply always_ret|]. destruct (_ <=? _); [apply always_raise | apply always_ret].
  - intros s'. destruct (_ <=? _); [apply always_ret | apply Hrest].
Qed.

Lemma letta_frame pages : always I (_run_letta_low_value_retention_once T P pages now).
Proof.
  unfold _run_letta_low_value_retention_once. destruct (Qle_bool _ _); [apply always_ret|].
  destruct (negb _); [apply always_ret|]. apply always_bind; [exact (f_agent _ _ _ _ _ _ _ _ F)|]. intros agent.
  apply always_bind; [|intros s; apply always_ret].
  generalize (mkLettaScan 0 0 0 "" false). induction pages as [|pages IH]; intros s; cbn [scan_archive]; (destruct (negb _); [apply always_ret|]).
  { apply always_raise. }
  eapply always_known; [exact (f_list _ _ _ _ _ _ _ _ F agent _ _)|]. intros [[status text] content] Hk. cbn in Hk.
  destruct (400 <=? status); [apply always_raise|].
  destruct content as [| | | | |[|r rows]|]; try apply always_ret.
  apply always_bind; [apply scan_passages_frame; intros row Hr; exact (Hk _ row eq_refl Hr)|]. intros s'. destruct (_ <? _); [apply always_ret | apply IH].
Qed.
End frame.

Lemma sink_outcome_spec {W} (m : ST W dict) w :
  sink_outcome m w = (fst (m w), Ok (match snd (m w) with Ok d => inl d | Raise e => inr (exn_str e) end)).
Proof. unfold sink_outcome. by destruct (m w) as [w' [d|e]]. Qed.

(** C18: a retention run always answers.  It runs the three sinks one after the
    other, each on what the one before left even when that one failed, and
    reports the failures by sink.  Whatever the stores answer, it deletes only
    records they had shown it that are of low value: of the index, points whose
    stamp is past the cutoff; of MongoDB, documents its query for records before
    the cutoff answered; of Letta, passages whose stamp is past the cutoff and
    also those without a readable stamp, however new.  A property of the stores
    that such deletes and reads keep holds afterwards. *)
Theorem retention_keeps_the_rest {W} `{Sinks W} T P parse_float now pages ms known_point known_document known_passage (I : W -> Prop) w s :
  sink_frame T P parse_float now known_point known_document known_passage I -> I w ->
  let '(w1, q) := _run_qdrant_low_value_retention_once T P parse_float now w in
  let '(w2, m) := _run_mongo_low_value_retention_once T P now w1 in
  let '(w3, l) := _run_letta_low_value_retention_once T P pages now w2 in
  I w3 /\ exists s' d, run_sink_retention_once T P parse_float pages now ms (w, s) = ((w3, s'), Ok d) /\
    rs_runs s' = rs_runs s + 1 /\ dget d "ok" = JBool (is_ok q && is_ok m && is_ok l) /\
    let reported sink (r : result dict) :=
      dlookup sink (as_dict (dget d "errors")) = (match r with Raise e => Some (JStr (exn_str e)) | Ok _ => None end) in
    reported "qdrant" q /\ reported "mongo_raw" m /\ reported "letta" l.
Proof.
  intros F HI. unfold run_sink_retention_once, st_bind.
  pose proof (qdrant_frame T P parse_float now _ _ _ I F w HI) as H1.
  rewrite sink_outcome_spec. destruct (_run_qdrant_low_value_retention_once T P parse_float now w) as [w1 q].
  assert (I w1) as HI1 by (by destruct q). cbn [fst snd].
  pose proof (mongo_frame T P parse_float now _ _ _ I F w1 HI1) as H2.
  rewrite sink_outcome_spec. destruct (_run_mongo_low_value_retention_once T P now w1) as [w2 m].
  assert (I w2) as HI2 by (by destruct m). cbn [fst snd].
  pose proof (letta_frame T P parse_float now _ _ _ I F pages w2 HI2) as H3.
  rewrite sink_outcome_spec. destruct (_run_letta_low_value_retention_once T P pages now w2) as [w3 l].
  split; [by destruct l|]. do 2 eexists. split; [reflexivity|]. split; [reflexivity|].
  split; [by destruct q, m, l|]. by destruct q, m, l.
Qed.

(** ** A store to run on *)

Record demo_sinks := mkDemoSinks { dm_points : list point; dm_docs : list dict }.

Definition demo_offset (offset : json) : nat := match offset with JInt n => Z.to_nat n | _ => 0 end.

(** A point is found again by its place; Letta is down. *)
#[local] Instance demo_stores : Sinks demo_sinks := {|
  qdrant_scroll limit offset w :=
    let n := demo_offset offset in
    (w, Ok (firstn (Z.to_nat limit) (skipn n (dm_points w)),
            if (length (dm_points w) <=? n + Z.to_nat limit)%nat then JNull else JInt (Z.of_nat (n + Z.to_nat limit))));
  qdrant_delete ids w :=
    (mkDemoSinks (List.filter (fun p => negb (existsb (json_eqb (pt_id p)) ids)) (dm_points w)) (dm_docs w), Ok tt);
  mongo_ready := st_ret true;
  mongo_older _ limit w := (w, Ok (firstn (Z.to_nat limit) (dm_docs w)));
  mongo_delete ids w :=
    (mkDemoSinks (dm_points w) (List.filter (fun d => negb (existsb (json_eqb (dget d "_id")) ids)) (dm_docs w)), Ok (Z.of_nat (length ids)));
  letta_agent := st_raise (OrchestratorError "letta down");
  letta_list _ _ _ := st_raise (OrchestratorError "letta down");
  letta_delete _ _ := st_raise (OrchestratorError "letta down") |}.

#[local] Instance demo_laws : QdrantLaws demo_sinks.
Proof.
  refine {| index := dm_points; at_offset _ := demo_offset |}.
  - done.
  - intros w limit offset Hl. eexists. split; [reflexivity|].
    destruct (_ <=? _)%nat eqn:E; cbn; [apply Nat.leb_le in E | apply Nat.leb_gt in E]; split; try done. intros _. lia.
  - intros w ids. eexists. split; reflexivity.
Defined.

Definition demo_point (id ts : Z) (file : string) : point := mkPoint (JInt id) [("ts", JInt ts); ("file", JStr file)].
Definition demo_world : demo_sinks :=
  mkDemoSinks [demo_point 1 10 "a__latest.json"; demo_point 2 10 "keep.md"; demo_point 3 2000000000 "b__latest.json"; demo_point 4 20 "c__latest.json"] [].

Lemma retention_deletes_first_expired_witness :
  exists w' d, _run_qdrant_low_value_retention_once default_retention default_record_policy (fun _ => None) (1700000000 * us_per_sec) demo_world
               = (w', Ok d) /\ dget d "deleted" = JInt 2 /\ map pt_id (dm_points w') = [JInt 2; JInt 3].
Proof.
  destruct (retention_deletes_first_expired default_retention default_record_policy (fun _ => None) (1700000000 * us_per_sec) demo_world
              ltac:(reflexivity) eq_refl) as (w' & d & H1 & H2 & H3).
  exists w', d. split; [exact H1|]. split.
  - rewrite H2. vm_compute. reflexivity.
  - change (dm_points w') with (index w'). rewrite H3. vm_compute. reflexivity.
Defined.

Lemma retention_never_passes_window_witness :
  let behind := demo_point 9 10 "old__latest.json" in
  let w := mkDemoSinks (repeat (demo_point 1 10 "keep.md") 5000 ++ [behind]) [] in
  point_expired default_record_policy (fun _ => None) (cutoff_epoch (1700000000 * us_per_sec) 72) behind = true /\
  index (Nat.iter 3 (fun w => fst (_run_qdrant_low_value_retention_once default_retention default_record_policy (fun _ => None)
                                     (1700000000 * us_per_sec) w)) w) = index w.
Proof.
  cbn zeta. split; [vm_compute; reflexivity|].
  apply (retention_never_passes_window default_retention default_record_policy (fun _ => None) (1700000000 * us_per_sec)
           (mkDemoSinks (repeat (demo_point 1 10 "keep.md") 5000 ++ [demo_point 9 10 "old__latest.json"]) []) 3);
    [reflexivity | reflexivity | vm_compute; reflexivity].
Defined.

(** The point that is too recent, and the one that is of value, are kept. *)
Definition demo_kept (w : demo_sinks) : Prop :=
  In (demo_point 2 10 "keep.md") (dm_points w) /\ In (demo_point 3 2000000000 "b__latest.json") (dm_points w).

Lemma demo_frame :
  sink_frame default_retention default_record_policy (fun _ => None) (1700000000 * us_per_sec)
    (fun p => In p (dm_points demo_world)) (fun _ => True) (fun _ => False)
    (fun w => demo_kept w /\ List.Forall (fun p => In p (dm_points demo_world)) (dm_points w)).
Proof.
  assert (forall n l, List.Forall (fun p => In p (dm_points demo_world)) l -> List.Forall (fun p => In p (dm_points demo_world)) (firstn n l)) as Hfirst.
  { intros n l Hl. rewrite List.Forall_forall in *. intros p Hp. apply Hl. by eapply In_firstn. }
  split.
  - intros limit offset w [Hk Hw]. split; [by split|]. apply Hfirst. rewrite List.Forall_forall in *.
    intros p Hp. apply Hw. rewrite <- (firstn_skipn (demo_offset offset)). apply in_or_app. by right.
  - intros ids Hids w [[H2 H3] Hw]. rewrite List.Forall_forall in Hids. cbn -[demo_world demo_point].
    assert (existsb (json_eqb (JInt 2)) ids = false /\ existsb (json_eqb (JInt 3)) ids = false) as [E2 E3].
    { split; apply existsb_false_iff; intros id Hid; destruct (Hids id Hid) as (p & Hp & Hx & <-);
        destruct Hp as [<- | [<- | [<- | [<- | []]]]]; vm_compute in Hx |- *; congruence. }
    split; [split|].
    + apply filter_In. split; [exact H2|]. change (negb (existsb (json_eqb (JInt 2)) ids) = true). by rewrite E2.
    + apply filter_In. split; [exact H3|]. change (negb (existsb (json_eqb (JInt 3)) ids) = true). by rewrite E3.
    + rewrite List.Forall_forall in *. intros p Hp. apply Hw. by apply filter_In in Hp as [? _].
  - by intros w.
  - intros limit w Hw. split; [exact Hw|]. by apply List.Forall_forall.
  - by intros ids _ w.
  - by intros w.
  - by intros agent limit after w.
  - done.
Qed.

(** A passage of low value without dates is pruned whatever the cutoff. *)
Example undated_passage_is_pruned cutoff :
  let row := [("id", JStr "p1"); ("text", JStr "project=P file=a__latest.json topic=t")] in
  passage_recent cutoff row = false /\ passage_low_value default_record_policy row = true.
Proof. split; vm_compute; reflexivity. Qed.

Lemma retention_keeps_the_rest_witness :
  let out := run_sink_retention_once default_retention default_record_policy (fun _ => None) 10 (1700000000 * us_per_sec) 0 (demo_world, no_retention) in
  demo_kept (fst (fst out)) /\ rs_runs (snd (fst out)) = 1.
Proof.
  cbn zeta.
  pose proof (retention_keeps_the_rest default_retention default_record_policy (fun _ => None) (1700000000 * us_per_sec) 10 0
                (fun p => In p (dm_points demo_world)) (fun _ => True) (fun _ => False) _ demo_world no_retention demo_frame) as H.
  assert (demo_kept demo_world /\ List.Forall (fun p => In p (dm_points demo_world)) (dm_points demo_world)) as Hw.
  { split; [split; cbn; tauto|]. by apply List.Forall_forall. }
  specialize (H Hw).
  destruct (_run_qdrant_low_value_retention_once _ _ _ _ demo_world) as [w1 q].
  destruct (_run_mongo_low_value_retention_once _ _ _ w1) as [w2 m].
  destruct (_run_letta_low_value_retention_once _ _ _ _ w2) as [w3 l].
  destruct H as [[Hk _] (s' & d & -> & Hr & _)]. split; [exact Hk | exact Hr].
Defined.

(** ** Letta's backlog *)

(** A round of the worker that is off, or that sees fewer queued jobs than the
    trigger, touches the outbox only to count; every round is counted, and one
    that fails keeps the numbers of the last one that did not. *)
Lemma auto_prune_waits A cfg P ttl now mono ms wc s :
  let summary := get_fanout_summary cfg ttl mono wc in
  LETTA_AUTO_PRUNE_ENABLED A = false \/ _fanout_target_outstanding_count (snd summary) FANOUT_TARGET_LETTA < ap_threshold A ->
  let out := auto_prune_round A cfg P ttl now mono ms (wc, s) in
  fst out = (if LETTA_AUTO_PRUNE_ENABLED A then fst summary else wc) /\
  as_lastDeleted (snd out) = 0 /\ as_lastError (snd out) = None /\
  as_lastSkippedReason (snd out) = Some (if LETTA_AUTO_PRUNE_ENABLED A then "below_threshold" else "disabled").
Proof.
  cbn zeta. unfold auto_prune_round, run_letta_auto_prune_once, auto_prune_body. intros Hw.
  destruct (LETTA_AUTO_PRUNE_ENABLED A); cbn; [|done]. destruct Hw as [|Hw]; [done|].
  destruct (get_fanout_summary cfg ttl mono wc) as [wc' sm]. cbn in *. apply Z.ltb_lt in Hw. by rewrite Hw.
Qed.

Lemma auto_prune_counts A cfg P ttl now mono ms wc s :
  let s' := snd (auto_prune_round A cfg P ttl now mono ms (wc, s)) in
  as_runs s' = as_runs s + 1 /\
  (as_lastError s' <> None -> as_lastDeleted s' = as_lastDeleted s /\ as_lastBacklogAfter s' = as_lastBacklogAfter s).
Proof.
  cbn zeta. unfold auto_prune_round, run_letta_auto_prune_once.
  by destruct (auto_prune_body A cfg P ttl mono false wc) as [wc' [r|e]].
Qed.
