(* ===== verification/Catalog.v ===== *)
(** * The catalog of projects and files

    Names out of the memory server's answers, which may nest JSON in text
    ([_coerce_mcp_name_tokens]); [list_projects] and [list_files], with the
    vector index as fallback; the endpoints that list projects, files and recent
    writes. *)

From S2P Require Import Prelude PyStr Json JsonText Policy ReadPath.
From Stdlib Require Import Ascii.
Open Scope Z_scope.

(** ** Names *)

(** What a value weighs: every decoding of a text gives something lighter. *)
Fixpoint weight (j : json) : nat :=
  match j with
  | JStr s => S (String.length s)
  | JList l => S ((fix sum l := match l with [] => O | x :: l' => (weight x + sum l')%nat end) l)
  | JObj d => S ((fix sum d := match d with [] => O | (_, x) :: d' => (weight x + sum d')%nat end) d)
  | _ => 1%nat
  end.

(** [_append(raw)] for several texts. *)
Definition appended (raws : list string) : list string := List.filter truthy (map strip raws).

(** [isinstance(value.get(key), str) and value.get(key).strip()] *)
Definition has_text (d : dict) (key : string) : bool := match dget d key with JStr s => truthy (strip s) | _ => false end.

Definition string_at (d : dict) (key : string) : list string := match dget d key with JStr s => [s] | _ => [] end.

(** [re.split(r"[\n,]", text)] *)
Definition split_names (text : string) : list string :=
  List.flat_map (PyStr.split ",") (PyStr.split (Ascii.ascii_of_N 10) text).

Section all.
Variable f : json -> option (list string).
(** [tokens.extend(f(item))] for each item. *)
Fixpoint extend_all (l : list json) : option (list string) :=
  match l with
  | [] => Some []
  | x :: l' => match f x, extend_all l' with Some a, Some b => Some (a ++ b) | _, _ => None end
  end.
End all.

(** [None]: the fuel, a bound on the nesting, is used up. *)
Fixpoint coerce_tokens (fuel : nat) (value : json) : option (list string) :=
  match fuel with
  | O => None
  | S fuel' =>
      match value with
      | JStr s =>
          let text := strip s in
          if negb (truthy text) then Some []
          else
            match (if startswith text "{" || startswith text "[" then loads text else None) with
            | Some parsed => coerce_tokens fuel' parsed
            | None =>
                if has_char "," text || has_char (Ascii.ascii_of_N 10) text then Some (appended (split_names text))
                else Some (appended [text])
            end
      | JList l => extend_all (coerce_tokens fuel') l
      | JObj d =>
          if existsb (has_text d) ["error"; "message"; "detail"] then Some []
          else
            let names := appended (List.flat_map (string_at d) ["name"; "file"; "fileName"; "path"; "project"; "projectName"]) in
            match extend_all (coerce_tokens fuel')
                    (List.flat_map (fun k => match dlookup k d with Some v => [v] | None => [] end) ["text"; "value"; "content"]) with
            | Some more => Some (names ++ more)
            | None => None
            end
      | _ => Some []
      end
  end.

Definition _coerce_mcp_name_tokens (value : json) : list string :=
  match coerce_tokens (weight value) value with Some tokens => tokens | None => [] end.

Definition _mcp_content_entries (content : json) : list json :=
  match content with JList l => l | JNull => [] | j => [j] end.

Definition _parse_mcp_name_list (result : dict) : list string :=
  keep_new truthy [] (map strip (List.flat_map _coerce_mcp_name_tokens (_mcp_content_entries (dget result "content")))).

(** ** Listing *)

(** The memory server, and the vector index's own lists. *)
Class Catalog (W : Type) := {
  catalog_tools :: ToolServer W;
  list_qdrant_projects_op : ST W (list string);
  list_qdrant_files_op : string -> ST W (list string) }.

Section listing.
Context {W : Type} `{Catalog W}.
Variable MEMMCP_LIST_TIMEOUT_SECS : Z.

(** [except asyncio.TimeoutError] and [except HTTPException] *)
Definition list_error (e : exn) : bool := match e with TimeoutError | HTTPException _ _ => true | _ => false end.

Definition or_nothing (m : ST W (list string)) : ST W (list string) := st_try m (fun _ => st_ret []).

Definition list_projects : ST W (list string) :=
  projects <- st_try
    (answer <- tool_call "list_projects" [] MEMMCP_LIST_TIMEOUT_SECS ;; st_ret (_parse_mcp_name_list answer))
    (fun e => if list_error e then st_ret [] else st_raise e) ;;
  match projects with [] => or_nothing list_qdrant_projects_op | _ => st_ret projects end.

Definition list_files (project : string) : ST W (list string) :=
  filenames <- st_try
    (answer <- tool_call "list_project_files" [("projectName", JStr project)] MEMMCP_LIST_TIMEOUT_SECS ;; st_ret (_parse_mcp_name_list answer))
    (fun e => if list_error e then st_ret [] else st_raise e) ;;
  match filenames with [] => or_nothing (list_qdrant_files_op project) | _ => st_ret filenames end.

(** ** Endpoints *)

Definition named (name : string) : dict := [("name", JStr name)].

(** [_load(project)] *)
Definition load_project (project : string) : ST W json :=
  files <- or_nothing (list_files project) ;;
  st_ret (JObj [("name", JStr project); ("files", JList (map (fun f => JObj (named f)) files))]).

Definition get_projects : ST W dict :=
  projects <- list_projects ;;
  results <- st_map load_project projects ;;
  st_ret [("projects", JList results)].

Definition get_files (project : string) : ST W dict :=
  files <- list_files project ;; st_ret [("files", JList (map JStr files))].
End listing.

(** [items[-limit:]], newest first. *)
Definition get_recent_memory (MEMORY_WRITE_HISTORY_LIMIT limit : Z) (project : string) (memory_write_history : list dict) : dict :=
  let limit := Z.max 1 (Z.min limit MEMORY_WRITE_HISTORY_LIMIT) in
  let items := if truthy project then List.filter (fun item => json_eqb (dget item "project") (JStr project)) memory_write_history
               else memory_write_history in
  [("items", JList (map JObj (firstn (Z.to_nat limit) (rev items))))].
