(* ===== verification/CatalogFacts.v ===== *)
(** * The catalog's names

    Decoding an answer always ends, however deep texts of JSON are nested in
    one another; the names are trimmed, distinct and not empty; the lists answer
    whenever the memory server fails with a timeout or an HTTP error. *)

From S2P Require Import Prelude PyStr Json JsonText Policy ReadPath Catalog.
From Stdlib Require Import Ascii.
Open Scope Z_scope.

(** ** Weights *)

Definition weigh (l : list json) : nat := list_sum (map weight l).

Lemma weight_list l : weight (JList l) = S (weigh l).
Proof. unfold weigh. cbn. f_equal. induction l as [|x l IH]; [done|]. cbn in *. by rewrite IH. Qed.

Lemma weight_obj d : weight (JObj d) = S (weigh (map snd d)).
Proof. unfold weigh. cbn. f_equal. induction d as [|[k x] d IH]; [done|]. cbn in *. by rewrite IH. Qed.

Lemma weigh_cons x l : weigh (x :: l) = (weight x + weigh l)%nat.
Proof. done. Qed.

Arguments weigh : simpl never.

Lemma weight_pos j : (1 <= weight j)%nat.
Proof. destruct j; cbn; lia. Qed.

Lemma dset_weigh k v d : (weigh (map snd (dset k v d)) <= weight v + weigh (map snd d))%nat.
Proof.
  induction d as [|[k' v'] d IH]; cbn; [unfold weigh; cbn; lia|].
  destruct (k =s k'); cbn [map snd]; rewrite !weigh_cons; lia.
Qed.

Lemma fold_dset_weigh (d acc : dict) :
  (weigh (map snd (fold_left (fun acc kv => dset (fst kv) (snd kv) acc) d acc)) <= weigh (map snd d) + weigh (map snd acc))%nat.
Proof.
  revert acc. induction d as [|[k v] d IH]; intros acc; cbn [fold_left map snd fst]; [lia|].
  rewrite weigh_cons. pose proof (IH (dset k v acc)). pose proof (dset_weigh k v acc). lia.
Qed.

(** ** Lengths of what the scanner leaves *)

Lemma eat_length c s r : eat c s = Some r -> String.length s = S (String.length r).
Proof. destruct s as [|d s]; cbn; [done|]. destruct (Ascii.eqb d c); [|done]. by intros [= ->]. Qed.

Lemma skip_ws_length s : (String.length (skip_ws s) <= String.length s)%nat.
Proof. induction s as [|c s IH]; cbn; [done|]. destruct (_ : bool); cbn; lia. Qed.

Lemma eat_ws_length c s r : eat c (skip_ws s) = Some r -> (S (String.length r) <= String.length s)%nat.
Proof. intros H. apply eat_length in H. pose proof (skip_ws_length s). lia. Qed.

Lemma scan_string_length s t r : scan_string s = Some (t, r) -> (S (String.length t + String.length r) <= String.length s)%nat.
Proof.
  revert t r. induction s as [s IH] using (well_founded_induction (well_founded_ltof _ String.length)); intros t r.
  unfold ltof in IH. destruct s as [|c s]; [done|]. cbn [scan_string].
  assert (Hesc : forall (d : ascii) rest, (String.length rest <= String.length s)%nat ->
    match scan_string rest with Some (t, r) => Some (String d t, r) | None => None end = Some (t, r) ->
    (S (String.length t + String.length r) <= S (String.length s))%nat).
  { intros d rest Hl H. destruct (scan_string rest) as [[t' r']|] eqn:E; [|done]. injection H as <- <-.
    apply IH in E; cbn; lia. }
  destruct (Ascii.eqb c dquote); [intros [= <- <-]; cbn; lia|]. destruct (_ <? _)%N; [done|].
  destruct (negb _); [by apply Hesc|].
  destruct s as [|e rest]; [done|]. intros H. cbn [String.length] in *.
  assert (forall d rest', (String.length rest' <= String.length rest)%nat ->
    match scan_string rest' with Some (t, r) => Some (String d t, r) | None => None end = Some (t, r) ->
    (S (String.length t + String.length r) <= S (S (String.length rest)))%nat) as Hesc'.
  { intros d rest' Hl. apply Hesc. lia. }
  repeat match type of H with
  | (if ?b then _ else _) = _ => destruct b
  | match ?x with _ => _ end = Some (t, r) =>
      lazymatch x with scan_string _ => fail | _ => destruct x; try done end
  end; try done; eapply Hesc'; try exact H; cbn; lia.
Qed.

Lemma span_digits_length s : let '(a, r) := span_digits s in (String.length a + String.length r = String.length s)%nat.
Proof. induction s as [|c s IH]; cbn; [done|]. destruct (is_digit c); [|done]. destruct (span_digits s). cbn. lia. Qed.

Lemma scan_int_part_length s a r : scan_int_part s = Some (a, r) -> (S (String.length r) <= String.length s)%nat.
Proof.
  unfold scan_int_part. destruct (eat "0" s) eqn:E; [intros [= <- <-]; apply eat_length in E; lia|].
  pose proof (span_digits_length s). destruct (span_digits s) as [d r']. destruct d; [done|]. intros [= <- <-]. cbn in *. lia.
Qed.

Lemma scan_frac_length s : (String.length (snd (scan_frac s)) <= String.length s)%nat.
Proof.
  unfold scan_frac. destruct (eat "." s) eqn:E; [|done]. apply eat_length in E.
  pose proof (span_digits_length s0). destruct (span_digits s0) as [a r]. destruct (truthy a); cbn; lia.
Qed.

Lemma scan_sign_length s : (String.length (snd (scan_sign s)) <= String.length s)%nat.
Proof.
  unfold scan_sign. destruct (eat "-" s) eqn:E; [apply eat_length in E; cbn; lia|].
  destruct (eat "+" s) eqn:E'; [apply eat_length in E'; cbn; lia | done].
Qed.

Lemma scan_exp_length s : (String.length (snd (scan_exp s)) <= String.length s)%nat.
Proof.
  unfold scan_exp. destruct s as [|c s]; [done|]. destruct (_ || _); [|done].
  pose proof (scan_sign_length s). destruct (scan_sign s) as [sg s1]. cbn in H.
  pose proof (span_digits_length s1). destruct (span_digits s1) as [a r]. destruct (truthy a); cbn; lia.
Qed.

Lemma scan_number_weight s j r : scan_number s = Some (j, r) -> (weight j + String.length r <= String.length s)%nat.
Proof.
  unfold scan_number. destruct (match eat "-" s with Some t => ("-", t) | None => ("", s) end) as [sg s1] eqn:E1.
  assert (String.length s1 <= String.length s)%nat as H1.
  { destruct (eat "-" s) eqn:E; injection E1 as <- <-; [apply eat_length in E; lia | done]. }
  destruct (scan_int_part s1) as [[a r0]|] eqn:E2; [|done]. apply scan_int_part_length in E2.
  pose proof (scan_frac_length r0). destruct (scan_frac r0) as [f r1]. cbn in H.
  pose proof (scan_exp_length r1). destruct (scan_exp r1) as [e r2]. cbn in H0.
  destruct (_ || _); [intros [= <- <-]; cbn; lia|]. destruct (int_of_digits 0 a); [|done]. intros [= <- <-]. cbn. lia.
Qed.

Lemma startswith_length s p : startswith s p = true -> (String.length p <= String.length s)%nat.
Proof. intros H. apply startswith_spec in H as [t ->]. rewrite append_length. lia. Qed.

Lemma scan_constant_weight s j r : scan_constant s = Some (j, r) -> (weight j + String.length r <= String.length s)%nat.
Proof.
  unfold scan_constant. destruct (List.find _ _) as [[k v]|] eqn:E; [|done]. intros [= -> <-].
  apply List.find_some in E as [Hin Hs]. apply startswith_length in Hs. rewrite drop_length. cbn [fst] in Hs.
  assert (weight j <= String.length k)%nat; [|lia].
  repeat (destruct Hin as [[= <- <-]|Hin]; [cbn; lia|]). done.
Qed.

(** What is scanned weighs no more than the text it takes. *)
Lemma scan_weights fuel :
  (forall s j r, scan_once fuel s = Some (j, r) -> weight j + String.length r <= String.length s)%nat /\
  (forall s l r, scan_items fuel s = Some (l, r) -> weigh l + String.length r <= String.length s)%nat /\
  (forall s d r, scan_members fuel s = Some (d, r) -> weigh (map snd d) + String.length r <= String.length s)%nat.
Proof.
  induction fuel as [|f (IH1 & IH2 & IH3)]; [done|]. split; [|split]; intros s x r; cbn [scan_once scan_items scan_members].
  - destruct (eat dquote s) eqn:Eq.
    { apply eat_length in Eq. destruct (scan_string _) as [[t r']|] eqn:Es; [|done]. intros [= <- <-].
      apply scan_string_length in Es. cbn. lia. }
    destruct (eat "{" s) as [s'|] eqn:Eo.
    { apply eat_length in Eo. destruct (eat "}" _) eqn:Ec; [intros [= <- <-]; apply eat_ws_length in Ec; cbn; lia|].
      destruct (scan_members f _) as [[d r']|] eqn:Em; [|done]. intros [= <- <-]. apply IH3 in Em.
      pose proof (skip_ws_length s'). pose proof (fold_dset_weigh d []). rewrite weight_obj.
      change (weigh (map snd ([] : dict))) with 0%nat in H0. lia. }
    destruct (eat "[" s) as [s'|] eqn:Ea.
    { apply eat_length in Ea. destruct (eat "]" _) eqn:Ec; [intros [= <- <-]; apply eat_ws_length in Ec; cbn; lia|].
      destruct (scan_items f _) as [[l r']|] eqn:Em; [|done]. intros [= <- <-]. apply IH2 in Em.
      pose proof (skip_ws_length s'). rewrite weight_list. lia. }
    destruct (scan_constant s) as [[v r']|] eqn:Ec; [intros [= <- <-]; by apply scan_constant_weight | apply scan_number_weight].
  - destruct (scan_once f s) as [[j r0]|] eqn:Ej; [|done]. apply IH1 in Ej.
    destruct (eat "," _) as [r1|] eqn:Ec.
    + apply eat_ws_length in Ec. destruct (scan_items f _) as [[l r2]|] eqn:El; [|done]. intros [= <- <-].
      apply IH2 in El. pose proof (skip_ws_length r1). rewrite weigh_cons. lia.
    + destruct (eat "]" _) eqn:Eb; [|done]. intros [= <- <-]. apply eat_ws_length in Eb. rewrite weigh_cons.
      change (weigh []) with 0%nat. lia.
  - destruct (eat dquote s) as [s0|] eqn:Eq; [|done]. apply eat_length in Eq.
    destruct (scan_string s0) as [[k r0]|] eqn:Es; [|done]. apply scan_string_length in Es.
    destruct (eat ":" _) as [r1|] eqn:Ec; [|done]. apply eat_ws_length in Ec.
    destruct (scan_once f _) as [[v r2]|] eqn:Ev; [|done]. apply IH1 in Ev. pose proof (skip_ws_length r1).
    destruct (eat "," _) as [r3|] eqn:Em.
    + apply eat_ws_length in Em. destruct (scan_members f _) as [[d r4]|] eqn:Ed; [|done]. intros [= <- <-].
      apply IH3 in Ed. pose proof (skip_ws_length r3). cbn [map snd]. rewrite weigh_cons. lia.
    + destruct (eat "}" _) eqn:Eb; [|done]. intros [= <- <-]. apply eat_ws_length in Eb. cbn [map snd]. rewrite weigh_cons.
      change (weigh (map snd [])) with 0%nat. change (weigh []) with 0%nat. lia.
Qed.

Lemma loads_weight s j : loads s = Some j -> (weight j <= String.length s)%nat.
Proof.
  unfold loads. destruct (scan_once _ _) as [[j' r]|] eqn:E; [|done]. destruct (truthy _); [done|]. intros [= <-].
  apply scan_weights in E. pose proof (skip_ws_length s). lia.
Qed.

Lemma lstrip_length p s : (String.length (lstrip_by p s) <= String.length s)%nat.
Proof. induction s as [|c s IH]; cbn; [done|]. destruct (p c); cbn; lia. Qed.

Lemma rstrip_length p s : (String.length (rstrip_by p s) <= String.length s)%nat.
Proof. induction s as [|c s IH]; cbn; [done|]. destruct (rstrip_by p s); [destruct (p c)|]; cbn in *; lia. Qed.

Lemma strip_length s : (String.length (strip s) <= String.length s)%nat.
Proof.
  unfold strip, strip_by.
  etransitivity; [first [apply rstrip_length | apply lstrip_length]|]. first [apply lstrip_length | apply rstrip_length].
Qed.

(** ** Decoding ends *)

Lemma extend_all_some (f : json -> option (list string)) l :
  List.Forall (fun x => exists t, f x = Some t) l -> exists t, extend_all f l = Some t.
Proof.
  induction 1 as [|x l [t Ht] _ [u Hu]]; [by exists []|]. cbn. rewrite Ht, Hu. by eexists.
Qed.

Lemma weigh_In x l : In x l -> (weight x <= weigh l)%nat.
Proof.
  induction l as [|y l IH]; [done|]. rewrite weigh_cons. intros [<-|Hin]; [lia|]. apply IH in Hin. lia.
Qed.

Lemma dlookup_weigh k d v : dlookup k d = Some v -> (weight v <= weigh (map snd d))%nat.
Proof.
  induction d as [|[k' v'] d IH]; [done|]. cbn. rewrite weigh_cons. destruct (k =s k'); [intros [= ->]; lia|].
  intros H. apply IH in H. lia.
Qed.

Lemma tokens_end fuel value : (weight value <= fuel)%nat -> exists t, coerce_tokens fuel value = Some t.
Proof.
  revert value. induction fuel as [|fuel IH]; intros value Hw; [pose proof (weight_pos value); lia|].
  destruct value as [| | | |s|l|d]; cbn [coerce_tokens]; try by eexists.
  - destruct (negb _); [by eexists|].
    destruct (if _ || _ then loads (strip s) else None) as [p|] eqn:E.
    2: { destruct (has_char _ _ || _); eexists; reflexivity. }
    apply IH. destruct (_ || _); [|done]. apply loads_weight in E. pose proof (strip_length s). cbn in Hw. lia.
  - apply extend_all_some, List.Forall_forall. intros x Hx. apply IH. apply weigh_In in Hx. rewrite weight_list in Hw. lia.
  - destruct (existsb _ _); [by eexists|].
    match goal with |- context [ extend_all ?f ?l ] => destruct (extend_all_some f l) as [t ->] end; [|by eexists].
    apply List.Forall_forall. intros x Hx. apply in_flat_map in Hx as (k & _ & Hk).
    destruct (dlookup k d) as [v|] eqn:E; [|done]. destruct Hk as [<-|[]]. apply IH.
    apply dlookup_weigh in E. rewrite weight_obj in Hw. lia.
Qed.

Lemma extend_all_agree (f g : json -> option (list string)) l t :
  (forall x u, f x = Some u -> g x = Some u) -> extend_all f l = Some t -> extend_all g l = Some t.
Proof.
  intros Hfg. revert t. induction l as [|x l IH]; intros t; cbn; [done|].
  destruct (f x) as [a|] eqn:E; [|done]. destruct (extend_all f l) as [b|]; [|done]. intros [= <-].
  by rewrite (Hfg _ _ E), (IH b eq_refl).
Qed.

(** More fuel changes nothing. *)
Lemma tokens_fuel fuel more value t : (fuel <= more)%nat -> coerce_tokens fuel value = Some t -> coerce_tokens more value = Some t.
Proof.
  revert more value t. induction fuel as [|fuel IH]; intros more value t Hle; [done|].
  destruct more as [|more]; [lia|].
  assert (forall x u, coerce_tokens fuel x = Some u -> coerce_tokens more x = Some u) as Hm by (intros x u; apply IH; lia).
  destruct value as [| | | |s|l|d]; cbn [coerce_tokens]; try done.
  - destruct (negb _); [done|]. destruct (if _ || _ then loads (strip s) else None); [apply Hm | done].
  - by apply extend_all_agree.
  - destruct (existsb _ _); [done|].
    match goal with |- context [ extend_all (coerce_tokens fuel) ?l ] => destruct (extend_all (coerce_tokens fuel) l) as [m|] eqn:E end; [|done].
    by rewrite (extend_all_agree _ _ _ _ Hm E).
Qed.

(** C19: decoding the names of an answer ends for every value, however many
    times text inside it is JSON that holds text again: with the value's own
    weight as fuel the decoder returns, and more fuel gives the same names. *)
Theorem names_decode value more : (weight value <= more)%nat -> coerce_tokens more value = Some (_coerce_mcp_name_tokens value).
Proof.
  intros Hle. unfold _coerce_mcp_name_tokens. destruct (tokens_end (weight value) value (le_n _)) as [t Ht].
  rewrite Ht. by apply (tokens_fuel (weight value)).
Qed.

(** An answer whose text is JSON that holds JSON. *)
Definition nested_answer : json :=
  JObj [("type", JStr "text"); ("text", JStr (dumps (JList [JStr (dumps (JObj [("name", JStr "alpha")])); JStr "beta, gamma"])))].

Lemma names_decode_witness :
  (weight nested_answer <= 1000)%nat /\ _coerce_mcp_name_tokens nested_answer = ["alpha"; "beta"; "gamma"] /\
  coerce_tokens 1000 nested_answer = Some (_coerce_mcp_name_tokens nested_answer).
Proof.
  split; [vm_compute; lia|]. split; [vm_compute; reflexivity|]. apply (names_decode nested_answer 1000). vm_compute. lia.
Defined.

(** ** Lists *)

Lemma names_clean result :
  List.NoDup (_parse_mcp_name_list result) /\ List.Forall (fun n => truthy n = true /\ strip n = n) (_parse_mcp_name_list result).
Proof.
  unfold _parse_mcp_name_list. split; [apply keep_new_NoDup|]. apply List.Forall_forall. intros n Hn.
  apply keep_new_In in Hn as (Hin & Ht & _). split; [exact Ht|]. apply in_map_iff in Hin as (m & <- & _). apply strip_strip.
Qed.

Section lists.
Context {W : Type} `{Catalog W}.
Variable timeout : Z.
(** The memory server fails with timeouts and HTTP errors only. *)
Hypothesis tool_errors : forall name arguments w e, snd (tool_call name arguments timeout w) = Raise e -> list_error e = true.

Lemma or_nothing_ok (m : ST W (list string)) w : exists w' l, or_nothing m w = (w', Ok l).
Proof. unfold or_nothing, st_try. destruct (m w) as [w' [l|e]]; by do 2 eexists. Qed.

Lemma list_with_fallback name arguments (fallback : ST W (list string)) w :
  exists w' l,
    (names <- st_try (answer <- tool_call name arguments timeout ;; st_ret (_parse_mcp_name_list answer))
               (fun e => if list_error e then st_ret [] else st_raise e) ;;
     match names with [] => or_nothing fallback | _ => st_ret names end) w = (w', Ok l).
Proof.
  pose proof (tool_errors name arguments w) as He. unfold st_bind, st_try.
  destruct (tool_call name arguments timeout w) as [w1 [answer|e]]; cbn in *.
  - destruct (_parse_mcp_name_list answer); [apply or_nothing_ok | by do 2 eexists].
  - rewrite (He e eq_refl). apply or_nothing_ok.
Qed.

Lemma list_projects_answers w : exists w' l, list_projects timeout w = (w', Ok l).
Proof. apply list_with_fallback. Qed.

Lemma list_files_answers project w : exists w' l, list_files timeout project w = (w', Ok l).
Proof. apply list_with_fallback. Qed.

Lemma load_project_answers p w : exists w' j, load_project timeout p w = (w', Ok j).
Proof.
  unfold load_project, st_bind. destruct (or_nothing_ok (list_files timeout p) w) as (w' & fs & ->). by do 2 eexists.
Qed.

Lemma get_projects_answers w : exists w' d, get_projects timeout w = (w', Ok d).
Proof.
  assert (forall l w, exists w' rs, st_map (load_project timeout) l w = (w', Ok rs)) as Hm.
  { induction l as [|p l IH]; intros w0; cbn [st_map]; [by do 2 eexists|]. unfold st_bind.
    destruct (load_project_answers p w0) as (w' & j & ->). destruct (IH w') as (w'' & rs & ->). by do 2 eexists. }
  unfold get_projects, st_bind. destruct (list_projects_answers w) as (w1 & ps & ->).
  destruct (Hm ps w1) as (w' & rs & ->). by do 2 eexists.
Qed.
End lists.
