(* ===== verification/Backfill.v ===== *)
(** * Rehydration and backfill of the fanout

    The maintenance endpoints that queue records again: from the memory bank's
    files ([rehydrate_fanout]), from the vector index
    ([backfill_fanout_from_qdrant]) and from the raw store
    ([backfill_fanout_from_mongo_raw], which stops while too many jobs wait).
    They work on the state of the write path; where the records come from is the
    class [BackfillSources]. *)

From S2P Require Import Prelude PyStr PyTime Json JsonText Paths Policy Outbox OutboxStore OutboxMaint Fanout WriteBuffer WriteMemory SourcePolicy Retention.
Open Scope Z_scope.

(** [bf_scroll collection project limit offset]; [bf_scan project limit]: the raw
    store's documents, newest first. *)
Class BackfillSources (X : Type) := {
  bf_list_projects : ST X (list string);
  bf_list_files : string -> ST X (list string);
  bf_read_file : string -> string -> ST X string;
  bf_scroll : string -> option string -> Z -> json -> ST X (list point * json);
  bf_raw_ready : ST X bool;
  bf_scan : option string -> Z -> ST X (list dict) }.

(** The counters of a run. *)
Record tally := mkTally {
  b_scanned : Z; b_inserted : Z; b_requeued : Z; b_existing : Z; b_skipped : Z; b_immediate : Z; b_deferred : Z;
  b_errors : list string }.
Definition no_tally : tally := mkTally 0 0 0 0 0 0 0 [].

Definition skip_row (t : tally) : tally :=
  mkTally (b_scanned t) (b_inserted t) (b_requeued t) (b_existing t) (b_skipped t + 1) (b_immediate t) (b_deferred t) (b_errors t).
Definition add_error (e : string) (t : tally) : tally :=
  mkTally (b_scanned t) (b_inserted t) (b_requeued t) (b_existing t) (b_skipped t) (b_immediate t) (b_deferred t) (b_errors t ++ [e]).
Definition add_stored (immediate deferred : Z) (t : tally) : tally :=
  mkTally (b_scanned t) (b_inserted t) (b_requeued t) (b_existing t) (b_skipped t) (b_immediate t + immediate) (b_deferred t + deferred)
    (b_errors t).
Definition add_counts (c : enqueue_counts) (t : tally) : tally :=
  mkTally (b_scanned t + 1) (b_inserted t + inserted c) (b_requeued t + requeued c) (b_existing t + existing c) (b_skipped t)
    (b_immediate t) (b_deferred t) (b_errors t).

(** One record to queue again. *)
Record backfill_row := mkBackfillRow {
  bf_project : string; bf_file : string; bf_content : string; bf_summary : string; bf_topic : string; bf_tags : list string;
  bf_event : string }.

Section backfill.
Context {X : Type} `{BackfillSources X}.
Variable cfg : store_config.
Variable uuid4 : nat -> string.
Variable C : worker_config.
Variable V : write_config.
Variable E : environment.
Variable sha256 : string -> string.
Variable FANOUT_SUMMARY_CACHE_TTL_SECS : Z.
Abbreviation M := (ST (write_state * X)).

Definition in_write {A} (m : ST write_state A) : M A := fun '(s, x) => let '(s', r) := m s in ((s', x), r).
Definition in_sources {A} (m : ST X A) : M A := fun '(s, x) => let '(x', r) := m x in ((s, x'), r).

(** ** Targets *)

(** [[t for t in requested_targets if t in FANOUT_TARGETS]], or the default. *)
Definition chosen (requested defaults : list string) : list string :=
  match requested with [] => defaults | _ => List.filter (fun t => mem_str t FANOUT_TARGETS) (map lower requested) end.

Definition letta_if (l : letta_state) : list string := if _letta_target_enabled C l then [FANOUT_TARGET_LETTA] else [].
Definition langfuse_set : bool := truthy (LANGFUSE_API_KEY C).

Definition add_target (b : bool) (t : string) (targets : list string) : list string :=
  if b && negb (mem_str t targets) then targets ++ [t] else targets.

Definition rehydrate_targets (l : letta_state) (requested : list string) : list string :=
  chosen requested ([FANOUT_TARGET_MONGO_RAW; FANOUT_TARGET_QDRANT; FANOUT_TARGET_MINDSDB]
                    ++ (if langfuse_set then [FANOUT_TARGET_LANGFUSE] else []) ++ letta_if l).
Definition qdrant_targets (l : letta_state) (requested : list string) (include_qdrant_target : bool) : list string :=
  add_target langfuse_set FANOUT_TARGET_LANGFUSE
    (add_target include_qdrant_target FANOUT_TARGET_QDRANT
       (chosen requested ([FANOUT_TARGET_MONGO_RAW; FANOUT_TARGET_MINDSDB] ++ letta_if l))).
Definition mongo_targets (l : letta_state) (requested : list string) : list string :=
  add_target langfuse_set FANOUT_TARGET_LANGFUSE (chosen requested ([FANOUT_TARGET_QDRANT; FANOUT_TARGET_MINDSDB] ++ letta_if l)).

(** ** One record *)

Definition letta_session : json := if _letta_config_enabled C then JStr (LETTA_AUTO_SESSION_ID C) else JNull.

(** [source]: the ["source"] of the backfills, absent from a rehydration. *)
Definition backfill_payload (r : backfill_row) (source : option string) (collection : json) (raw_event : dict) : dict :=
  let src := match source with Some x => [("source", JStr x)] | None => [] end in
  [("event_id", JStr (bf_event r)); ("project", JStr (bf_project r)); ("file", JStr (bf_file r)); ("summary", JStr (bf_summary r));
   ("payload", JObj ([("projectName", JStr (bf_project r)); ("fileName", JStr (bf_file r)); ("content", JStr (bf_content r))] ++ src));
   ("topic_path", JStr (bf_topic r)); ("topic_tags", JList (map JStr (bf_tags r))); ("letta_session", letta_session);
   ("letta_context", JObj ([("project", JStr (bf_project r)); ("file", JStr (bf_file r)); ("summary", JStr (bf_summary r));
                            ("topic_path", JStr (bf_topic r))] ++ src));
   ("qdrant_collection", collection); ("raw_event", JObj raw_event)].

(** [build_raw_memory_event(..., request_id=..., source=...)] *)
Definition raw_event_from (now : Z) (r : backfill_row) (request_id source : string) : dict :=
  dset "source" (JStr source)
    (build_raw_memory_event now (bf_event r) (bf_project r) (bf_file r) (bf_content r) (bf_summary r) (bf_topic r) (bf_tags r) (Some request_id)).

(** The raw store is tried at once unless the jobs are forced; then the
    remaining targets are queued. *)
Definition store_raw (force : bool) (targets : list string) (raw_event : dict) (t : tally) : M (list string * tally) :=
  if mem_str FANOUT_TARGET_MONGO_RAW targets && negb force then
    error <- in_write (persist_raw_event_to_mongo E raw_event) ;;
    match error with
    | None => st_ret (List.filter (fun t => negb (t =s FANOUT_TARGET_MONGO_RAW)) targets, add_stored 1 0 t)
    | Some _ => st_ret (targets, add_stored 0 1 t)
    end
  else st_ret (targets, t).

Definition enqueue (payload : dict) (targets : list string) (force : bool) : M enqueue_counts :=
  now <- in_write (now_utc E) ;;
  in_write (in_fan (in_outbox (enqueue_fanout_outbox cfg uuid4 now payload targets force))).

Definition submit (r : backfill_row) (source : option string) (collection : json) (raw_event : dict) (targets : list string) (force : bool)
    (t : tally) : M tally :=
  stored <- store_raw force targets raw_event t ;;
  let '(event_targets, t) := stored in
  c <- enqueue (backfill_payload r source collection raw_event) event_targets force ;;
  st_ret (add_counts c t).

(** The signal that wakes the workers. *)
Definition wake (signal : string) (t : tally) : M unit :=
  if (0 <? b_inserted t) || (0 <? b_requeued t) then in_write (in_fan (st_modify (put_signal C (JStr signal)))) else st_ret tt.

(** [[str(tag).strip() for tag in raw if str(tag).strip()]], or the tags of the
    topic. *)
Definition tags_of (raw : json) (topic_path : string) : result (list string) :=
  match raw with
  | JList l => Ok (List.filter truthy (map (fun j => strip (jstr j)) l))
  | _ => topic_tags_for_path (DEFAULT_TOPIC_ROOT V) topic_path
  end.
Definition topic_of (raw : json) (file_name : string) : result string :=
  if jtruthy raw then Ok (jstr raw) else derive_topic_path (DEFAULT_TOPIC_ROOT V) file_name None.

(** ** From the memory bank *)

Record rehydrate_request := mkRehydrate {
  rq_project : string; rq_limit : Z; rq_targets : list string; rq_collection : option string; rq_force : bool }.

Definition file_row (project file_name content : string) : result backfill_row :=
  let! topic_path := derive_topic_path (DEFAULT_TOPIC_ROOT V) file_name None in
  let! topic_tags := topic_tags_for_path (DEFAULT_TOPIC_ROOT V) topic_path in
  Ok (mkBackfillRow project file_name content (summarize_content content) topic_path topic_tags
        (build_event_id sha256 project file_name content)).

Definition rehydrate_file (q : rehydrate_request) (targets : list string) (project file_name : string) (t : tally) : M tally :=
  content <- st_try (c <- in_sources (bf_read_file project file_name) ;; st_ret (inl c))
               (fun e => st_ret (inr (project +:+ "/" +:+ file_name +:+ ": read failed (" +:+ exn_str e +:+ ")"))) ;;
  match content with
  | inr e => st_ret (add_error e t)
  | inl content =>
      if negb (truthy content) then st_ret t
      else
        r <- st_lift (file_row project file_name content) ;;
        now <- in_write (now_utc E) ;;
        submit r None (match rq_collection q with Some c => JStr c | None => JNull end)
          (raw_event_from now r "rehydrate" "maintenance.rehydrate") targets (rq_force q) t
  end.

Fixpoint rehydrate_files (q : rehydrate_request) (targets : list string) (project : string) (files : list string) (t : tally) : M tally :=
  match files with
  | [] => st_ret t
  | f :: files' =>
      if rq_limit q <=? b_scanned t then st_ret t
      else t <- rehydrate_file q targets project f t ;; rehydrate_files q targets project files' t
  end.

Fixpoint rehydrate_projects (q : rehydrate_request) (targets projects : list string) (t : tally) : M tally :=
  match projects with
  | [] => st_ret t
  | p :: projects' =>
      if rq_limit q <=? b_scanned t then st_ret t
      else
        found <- st_try (files <- in_sources (bf_list_files p) ;; st_ret (inl files)) (fun e => st_ret (inr e)) ;;
        t <- (match found with
              | inr e => st_ret (add_error (p +:+ ": list_files failed (" +:+ exn_str e +:+ ")") t)
              | inl files => rehydrate_files q targets p files t
              end) ;;
        rehydrate_projects q targets projects' t
  end.

Definition rehydrate_fanout (q : rehydrate_request) : M (list string * list string * tally) :=
  s <- st_get ;;
  let targets := rehydrate_targets (letta (fan (fst s))) (rq_targets q) in
  match targets with
  | [] => st_raise (HTTPException 400 "No valid targets selected for rehydrate")
  | _ =>
      projects <- (if truthy (rq_project q) then st_ret [rq_project q] else in_sources bf_list_projects) ;;
      t <- rehydrate_projects q targets projects no_tally ;;
      wake "rehydrate" t ;;;
      st_ret (projects, targets, t)
  end.

(** ** From the vector index *)

Record qdrant_request := mkQdrantRequest {
  qq_project : string; qq_limit : Z; qq_targets : list string; qq_collection : option string; qq_force : bool; qq_include_qdrant : bool }.

Definition synthetic_content (project file_name summary : string) : string :=
  join nl ["[backfill:qdrant]"; "project: " +:+ project; "file: " +:+ file_name; "summary: " +:+ summary].

(** The columns of a point and its key among the rows seen. *)
Definition point_columns (p : point) : string * string * string :=
  let col k := strip (jstr_or_empty (dget (pt_payload p) k)) in (col "project", col "file", col "summary").
Definition row_key (project file_name summary : string) : string := project +:+ "::" +:+ file_name +:+ "::" +:+ take 200 summary.

Definition point_backfill_row (p : point) : result backfill_row :=
  let '(project, file_name, summary) := point_columns p in
  let! topic_path := topic_of (dget (pt_payload p) "topic_path") file_name in
  let! topic_tags := tags_of (dget (pt_payload p) "topic_tags") topic_path in
  Ok (mkBackfillRow project file_name (synthetic_content project file_name summary) summary topic_path topic_tags
        (build_event_id sha256 project file_name ("qdrant:" +:+ summary))).

Fixpoint backfill_points (q : qdrant_request) (collection : string) (targets : list string) (points : list point)
    (seen : list string) (t : tally) : M (list string * tally) :=
  match points with
  | [] => st_ret (seen, t)
  | p :: points' =>
      if qq_limit q <=? b_scanned t then st_ret (seen, t)
      else
        let '(project, file_name, summary) := point_columns p in
        let key := row_key project file_name summary in
        if negb (truthy project) || negb (truthy file_name) || negb (truthy summary) || mem_str key seen
        then backfill_points q collection targets points' seen (skip_row t)
        else
          r <- st_lift (point_backfill_row p) ;;
          now <- in_write (now_utc E) ;;
          t <- submit r (Some "qdrant_backfill") (JStr collection)
                 (raw_event_from now r "rehydrate-qdrant" "maintenance.rehydrate_qdrant") targets (qq_force q) t ;;
          backfill_points q collection targets points' (key :: seen) t
  end.

(** [pages] bounds the pages read. *)
Fixpoint backfill_pages (pages : nat) (q : qdrant_request) (collection : string) (targets : list string) (offset : json)
    (seen : list string) (t : tally) : M tally :=
  if negb (b_scanned t <? qq_limit q) then st_ret t
  else
    match pages with
    | O => st_raise (OtherError "fuel" "")
    | S pages' =>
        page <- st_try (p <- in_sources (bf_scroll collection (if truthy (qq_project q) then Some (qq_project q) else None)
                                           (Z.min 256 (qq_limit q - b_scanned t)) offset) ;; st_ret (inl p))
                  (fun e => st_ret (inr e)) ;;
        match page with
        | inr e => st_ret (add_error ("scroll failed (" +:+ exn_str e +:+ ")") t)
        | inl ([], _) => st_ret t
        | inl (points, next_offset) =>
            st <- backfill_points q collection targets points seen t ;;
            let '(seen, t) := st in
            if is_null next_offset then st_ret t else backfill_pages pages' q collection targets next_offset seen t
        end
    end.

Definition backfill_fanout_from_qdrant (pages : nat) (q : qdrant_request) : M (string * list string * tally) :=
  s <- st_get ;;
  let targets := qdrant_targets (letta (fan (fst s))) (qq_targets q) (qq_include_qdrant q) in
  match targets with
  | [] => st_raise (HTTPException 400 "No valid targets selected for qdrant backfill")
  | _ =>
      let collection := str_or (opt_str (qq_collection q)) (QDRANT_COLLECTION V) in
      t <- backfill_pages pages q collection targets JNull [] no_tally ;;
      wake "rehydrate-qdrant" t ;;;
      st_ret (collection, targets, t)
  end.

(** ** From the raw store *)

Record mongo_request := mkMongoRequest {
  mq_project : string; mq_limit : Z; mq_targets : list string; mq_collection : option string; mq_force : bool;
  mq_max_pending_jobs : Z; mq_check_interval : Z }.

(** Stored stamps are texts. *)
Definition _mongo_timestamp_iso (now : Z) (value : json) : string :=
  let text := strip (jstr_or_empty value) in if truthy text then text else _utc_now now.

Definition _fanout_outstanding (s : fanout_summary) : Z :=
  OutboxMaint.count_of "pending" (by_status s) + OutboxMaint.count_of "retrying" (by_status s) + OutboxMaint.count_of "running" (by_status s).

(** A document as a row, but for the row it may turn out to repeat. *)
Definition document_text (doc : dict) : string * string * string * string :=
  let project := strip (jstr_or_empty (dget doc "project")) in
  let file_name := strip (jstr_or_empty (dget doc "file")) in
  let content := jstr_or_empty (dget doc "content_raw") in
  let summary := strip (jstr_or_empty (dget doc "summary")) in
  (project, file_name, content,
   if truthy summary then summary else strip (if truthy content then take 600 content else project +:+ "/" +:+ file_name)).

Definition document_backfill_row (doc : dict) : result backfill_row :=
  let '(project, file_name, content, summary) := document_text doc in
  let! topic_path := topic_of (dget doc "topic_path") file_name in
  let! topic_tags := tags_of (dget doc "topic_tags") topic_path in
  let event_id := strip (jstr_or_empty (dget doc "event_id")) in
  Ok (mkBackfillRow project file_name content summary topic_path topic_tags
        (str_or event_id (build_event_id sha256 project file_name (str_or content summary)))).

Definition document_event (doc : dict) (r : backfill_row) (created_at updated_at : string) : dict :=
  [("event_id", JStr (bf_event r)); ("source", JStr (str_or (jstr_or_empty (dget doc "source")) "maintenance.rehydrate_mongo_raw"));
   ("project", JStr (bf_project r)); ("file", JStr (bf_file r)); ("content_raw", JStr (bf_content r)); ("summary", JStr (bf_summary r));
   ("topic_path", JStr (bf_topic r)); ("topic_tags", JList (map JStr (bf_tags r))); ("request_id", dget doc "request_id");
   ("created_at", JStr created_at); ("updated_at", JStr updated_at)].

(** [await _query_fanout_summary_uncached()], or the cached summary. *)
Definition outstanding_jobs : M Z :=
  fun '(s, x) =>
    match _query_fanout_summary_uncached cfg (outbox (fan s)) with
    | (w, Ok summary) => ((set_fan (set_outbox w (fan s)) s, x), Ok (_fanout_outstanding summary))
    | (w, Raise _) =>
        let '(tick_, at_) := (tick (set_outbox w (fan s)), monotonic E (ticks (fan s))) in
        let '((w', c), summary) := get_fanout_summary cfg FANOUT_SUMMARY_CACHE_TTL_SECS at_ (w, fanout_summary_cache s) in
        ((set_cache c (set_fan (set_outbox w' tick_) s), x), Ok (_fanout_outstanding summary))
    end.

Definition cached_outstanding : M Z :=
  fun '(s, x) =>
    let at_ := monotonic E (ticks (fan s)) in
    let '((w', c), summary) := get_fanout_summary cfg FANOUT_SUMMARY_CACHE_TTL_SECS at_ (outbox (fan s), fanout_summary_cache s) in
    ((set_cache c (set_fan (set_outbox w' (tick (fan s))) s), x), Ok (_fanout_outstanding summary)).

(** [payload.max_pending_jobs > 0 and scanned > 0 and scanned % check_interval == 0] *)
Definition checks_now (q : mongo_request) (t : tally) : bool :=
  (0 <? mq_max_pending_jobs q) && (0 <? b_scanned t) && (b_scanned t mod mq_check_interval q =? 0).

(** The row of a document, in the body of the loop. *)
Definition backfill_document (q : mongo_request) (collection : string) (targets : list string) (doc : dict) (r : backfill_row) (t : tally)
  : M tally :=
  created <- in_write (now_utc E) ;;
  updated <- in_write (now_utc E) ;;
  let raw_event := document_event doc r (_mongo_timestamp_iso created (dget doc "created_at"))
                     (_mongo_timestamp_iso updated (dget doc "updated_at")) in
  stored <- store_raw (mq_force q) targets raw_event t ;;
  let '(event_targets, t) := stored in
  st_try (c <- enqueue (backfill_payload r (Some "mongo_raw_backfill") (JStr collection) raw_event) event_targets (mq_force q) ;;
          st_ret (add_counts c t))
    (fun e => st_ret (add_error (bf_project r +:+ "/" +:+ bf_file r +:+ ": enqueue failed (" +:+ exn_str e +:+ ")") t)).

(** The answer: the counters, whether it stopped for the backlog, the backlog
    it saw last. *)
Fixpoint backfill_documents (q : mongo_request) (collection : string) (targets : list string) (docs : list dict) (seen : list string)
    (outstanding : Z) (t : tally) : M (tally * bool * Z) :=
  match docs with
  | [] => st_ret (t, false, outstanding)
  | doc :: docs' =>
      outstanding <- (if checks_now q t then outstanding_jobs else st_ret outstanding) ;;
      if checks_now q t && (mq_max_pending_jobs q <=? outstanding) then st_ret (t, true, outstanding)
      else
        let '(project, file_name, _, summary) := document_text doc in
        if negb (truthy project) || negb (truthy file_name) || negb (truthy summary)
        then backfill_documents q collection targets docs' seen outstanding (skip_row t)
        else
          r <- st_lift (document_backfill_row doc) ;;
          if mem_str (bf_event r) seen then backfill_documents q collection targets docs' seen outstanding (skip_row t)
          else
            t <- backfill_document q collection targets doc r t ;;
            backfill_documents q collection targets docs' (bf_event r :: seen) outstanding t
  end.

Definition backfill_fanout_from_mongo_raw (q : mongo_request) : M (string * list string * tally * bool * Z) :=
  ready <- in_sources bf_raw_ready ;;
  if negb ready then st_raise (HTTPException 503 "Mongo raw store is unavailable")
  else
    s <- st_get ;;
    let targets := mongo_targets (letta (fan (fst s))) (mq_targets q) in
    match targets with
    | [] => st_raise (HTTPException 400 "No valid targets selected for mongo raw backfill")
    | _ =>
        docs <- st_try (in_sources (bf_scan (if truthy (mq_project q) then Some (mq_project q) else None) (mq_limit q)))
                  (fun e => st_raise (HTTPException 500 ("Mongo raw scan failed: " +:+ exn_str e))) ;;
        let collection := str_or (opt_str (mq_collection q)) (QDRANT_COLLECTION V) in
        out <- backfill_documents q collection targets docs [] 0 no_tally ;;
        let '(t, throttled, outstanding) := out in
        wake "rehydrate-mongo" t ;;;
        outstanding <- (if (outstanding =? 0) && (0 <? mq_max_pending_jobs q) then cached_outstanding else st_ret outstanding) ;;
        st_ret (collection, targets, t, throttled, outstanding)
    end.
End backfill.
