(* ===== verification/BackfillFacts.v ===== *)
(** * Backfills

    A backfill from the raw store keeps the backlog bounded; what it queues is
    stored; but it queues a file's records from the newest to the oldest, and the
    outbox keeps the last one queued. *)

From S2P Require Import Prelude PyStr PyTime Json JsonText TaskDb Paths Policy Outbox OutboxFacts OutboxStore OutboxStoreFacts OutboxMaint OutboxMaintFacts Fanout FanoutFacts WriteBuffer WriteMemory WriteMemoryFacts SourcePolicy Retention Backfill.
Open Scope Z_scope.

(** ** Jobs that wait or run *)

Definition is_open {I} (r : fanout_row I) : bool := status_in (status r) [Pending; Retrying; Running].
Definition open_jobs (rs : list (fanout_row Z)) : Z := count is_open rs.

Lemma open_jobs_split {I} (rs : list (fanout_row I)) :
  count is_open rs = count (fun r => true && status_in (status r) [Pending]) rs
    + count (fun r => true && status_in (status r) [Retrying]) rs + count (fun r => true && status_in (status r) [Running]) rs.
Proof.
  unfold count, is_open. induction rs as [|r rs IH]; [done|]. cbn [List.filter andb].
  destruct (status r);
    repeat match goal with |- context [status_in ?a ?l] =>
      is_constructor a; let b := eval vm_compute in (status_in a l) in change (status_in a l) with b end;
    cbn [length andb] in *; rewrite ?Nat2Z.inj_succ; lia.
Qed.

Lemma outstanding_counts rs : _fanout_outstanding (_fanout_sqlite_summary rs) = open_jobs rs.
Proof.
  unfold _fanout_outstanding, open_jobs. rewrite open_jobs_split, <- !(count_of_status_counts (fun _ => true)). done.
Qed.

Lemma count_app {I} (p : fanout_row I -> bool) a b : count p (a ++ b) = count p a + count p b.
Proof. unfold count. rewrite List.filter_app, length_app. lia. Qed.

Lemma open_count_update {I} (q : fanout_row I -> bool) p u rs : (forall r, p r = true -> q (u r) = q r) ->
  count q (fst (update_where p u rs)) = count q rs.
Proof.
  intros Hu. unfold count, update_where. cbn [fst]. f_equal. induction rs as [|r rs IH]; [done|]. cbn [map List.filter].
  replace (q (if p r then u r else r)) with (q r) by (destruct (p r) eqn:E; [by rewrite Hu | done]).
  destruct (q r); cbn [length]; by rewrite IH.
Qed.

(** ** One enqueue *)

Section enqueue.
Variable cfg : fanout_config.
Variables (now : Z) (ev : event).

Lemma enqueue_dedupe_open tgt st c : exists st' c',
  enqueue_dedupe cfg now ev false tgt st c = Ok (st', c') /\ open_jobs (rows st') <= open_jobs (rows st) + 1.
Proof.
  unfold enqueue_dedupe. destruct (List.find _ _) eqn:E; [do 2 eexists; split; [done|lia]|].
  unfold insert_row. replace (existsb _ _) with false.
  - do 2 eexists. split; [done|]. cbn. unfold open_jobs. rewrite count_app. done.
  - symmetry. apply existsb_false_iff. intros r Hr. exact (List.find_none _ _ E r Hr).
Qed.

Lemma enqueue_target_open tgt st c : exists st' c',
  enqueue_target cfg now ev false tgt st c = Ok (st', c') /\ open_jobs (rows st') <= open_jobs (rows st) + 1.
Proof.
  unfold enqueue_target. destruct (if tries_coalesce _ _ _ _ then _ else _) as [r|]; [|apply enqueue_dedupe_open].
  destruct (coalesce_update now ev (oid r) (rows st)) as [rs n] eqn:E.
  assert (open_jobs rs = open_jobs (rows st)) as Ho.
  { change rs with (fst (rs, n)). rewrite <- E. by apply open_count_update. }
  destruct (0 <? n); [do 2 eexists; split; [done|]; cbn; lia|].
  destruct (enqueue_dedupe_open tgt (with_rows st rs) c) as (st' & c' & -> & Hle). cbn in Hle. do 2 eexists. split; [done|lia].
Qed.

Lemma sqlite_enqueue_open ts st : exists st' c,
  sqlite_enqueue cfg now ev ts false st = Ok (st', c) /\ open_jobs (rows st') <= open_jobs (rows st) + Z.of_nat (length ts).
Proof.
  unfold sqlite_enqueue. set (known := List.filter _ ts).
  assert (length known <= length ts)%nat as Hk by (apply List.filter_length_le).
  assert (forall st c, exists st' c', enqueue_targets cfg now ev false known st c = Ok (st', c') /\
            open_jobs (rows st') <= open_jobs (rows st) + Z.of_nat (length known)) as Hall.
  { clear. induction known as [|t known IH]; intros st c; cbn; [do 2 eexists; split; [done|lia]|].
    destruct (enqueue_target_open t st c) as (st1 & c1 & -> & H1). cbn.
    destruct (IH st1 c1) as (st2 & c2 & -> & H2). do 2 eexists. split; [done|lia]. }
  destruct (Hall st zero_counts) as (st' & c & -> & H). do 2 eexists. split; [done|lia].
Qed.
End enqueue.

(** ** A calm outbox *)

(** SQLite serves and no fault is pending. *)
Definition calm (w : outbox_store) : Prop := fanout_outbox_backend_active w = BSqlite /\ db_faults (db w) = [].
Definition backlog (w : outbox_store) : Z := open_jobs (rows (tables (db w))).

Lemma calm_sqlite {A} cfg (fn : sqlite_outbox -> result (sqlite_outbox * A)) w st' a :
  calm w -> fn (tables (db w)) = Ok (st', a) -> on_sqlite cfg fn w = (set_db (mkDb st' []) w, Ok a).
Proof.
  intros [_ Hf] Hfn. unfold on_sqlite, _task_db_exec. destruct (db w) as [st fs]. cbn in *. subst fs.
  by rewrite (run_attempts_no_fault fn _ st st' a Hfn).
Qed.

Lemma calm_uses_sqlite w : calm w -> _use_mongo_outbox w = false.
Proof. intros [Hb _]. unfold _use_mongo_outbox. by rewrite Hb. Qed.

Lemma enqueue_calm cfg uuid4 now p ts w : calm w -> exists w' c,
  enqueue_fanout_outbox cfg uuid4 now p ts false w = (w', Ok c) /\ calm w' /\ backlog w' <= backlog w + Z.of_nat (length ts).
Proof.
  intros Hc. unfold enqueue_fanout_outbox, st_bind at 1.
  assert (exists w0 ev, read_event uuid4 p w = (w0, Ok ev) /\ calm w0 /\ db w0 = db w) as (w0 & ev & -> & Hc0 & Hd).
  { unfold read_event. destruct (jtruthy _); do 2 eexists; (split; [reflexivity|]); by split. }
  unfold mongo_else_sqlite. rewrite (calm_uses_sqlite w0 Hc0).
  set (known := List.filter _ ts).
  destruct (sqlite_enqueue_open (fanout cfg) now ev known (tables (db w0))) as (st' & c & He & Ho).
  unfold sqlite_else_mongo, st_try, recorded, st_bind. rewrite (calm_sqlite cfg _ w0 st' c Hc0 He).
  assert (length known <= length ts)%nat as Hk by (apply List.filter_length_le).
  do 2 eexists. split; [reflexivity|]. unfold calm, backlog in *. rewrite Hd in Ho.
  destruct (coalesced c <=? 0); cbn; (split; [split; [apply Hc0|done]|lia]).
Qed.

Lemma summary_calm cfg w : calm w -> exists w',
  _query_fanout_summary_uncached cfg w = (w', Ok (_fanout_sqlite_summary (rows (tables (db w))))) /\ calm w' /\ backlog w' = backlog w.
Proof.
  intros Hc. unfold _query_fanout_summary_uncached, mongo_else_sqlite. rewrite (calm_uses_sqlite w Hc).
  unfold sqlite_else_mongo, st_try. rewrite (calm_sqlite cfg _ w _ _ Hc eq_refl).
  eexists. split; [reflexivity|]. by split; [split; [apply Hc|]|].
Qed.

(** ** The run *)

Section run.
Context {X : Type} `{BackfillSources X}.
Variables (cfg : store_config) (uuid4 : nat -> string) (C : worker_config) (V : write_config) (E : environment)
  (sha256 : string -> string) (ttl : Z).
Variable q : mongo_request.
Hypothesis not_forced : mq_force q = false.

(** The outbox is calm with at most so many open jobs. *)
Definition at_most (n : Z) (sx : write_state * X) : Prop := calm (outbox (fan (fst sx))) /\ backlog (outbox (fan (fst sx))) <= n.

Lemma at_most_le n m sx : n <= m -> at_most n sx -> at_most m sx.
Proof. intros Hle [Hc Hb]. split; [done|lia]. Qed.

Lemma clock_keeps n : hoare (at_most n) (in_write (X := X) (now_utc E)) (fun _ => at_most n) never.
Proof. by intros [s x] Hs. Qed.

Lemma store_raw_keeps n targets raw t : hoare (at_most n) (store_raw (X := X) E false targets raw t)
  (fun r sx => at_most n sx /\ (length (fst r) <= length targets)%nat /\ b_scanned (snd r) = b_scanned t) never.
Proof.
  unfold store_raw. destruct (_ && _); [|by apply hoare_ret].
  intros [s x] Hs. unfold st_bind, in_write. destruct (persist_look E raw s) as (s' & err & -> & Ho & _).
  assert (at_most n (s', x)) as Hs' by (unfold at_most in *; cbn in *; by rewrite Ho).
  destruct err; cbn; (split; [exact Hs'|]); (split; [|done]); [lia | apply List.filter_length_le].
Qed.

Lemma enqueue_keeps n payload targets : hoare (at_most n) (enqueue (X := X) cfg uuid4 E payload targets false)
  (fun _ => at_most (n + Z.of_nat (length targets))) never.
Proof.
  unfold enqueue. eapply hoare_bind; [apply clock_keeps|]. intros now [s x] [Hc Hb]. unfold in_write, in_fan, in_outbox.
  destruct (enqueue_calm cfg uuid4 now payload targets (outbox (fan s)) Hc) as (w' & c & -> & Hc' & Hb').
  split; cbn in *; [exact Hc' | lia].
Qed.

Lemma document_keeps n collection targets doc r t :
  hoare (at_most n) (backfill_document (X := X) cfg uuid4 C E q collection targets doc r t)
    (fun t' sx => at_most (n + Z.of_nat (length targets)) sx /\ b_scanned t' = b_scanned t + 1) never.
Proof.
  unfold backfill_document. rewrite not_forced.
  eapply hoare_bind; [apply clock_keeps|]. intros created. eapply hoare_bind; [apply clock_keeps|]. intros updated.
  eapply hoare_bind; [apply store_raw_keeps|]. intros [ts t'] sx (Hs & Hl & Ht). cbn in Hl, Ht.
  pose proof (enqueue_keeps n (backfill_payload C r (Some "mongo_raw_backfill") (JStr collection)
    (document_event doc r (_mongo_timestamp_iso created (dget doc "created_at")) (_mongo_timestamp_iso updated (dget doc "updated_at"))))
    ts sx Hs) as He.
  unfold st_try, st_bind. destruct (enqueue _ _ _ _ _ _ _) as [sx' [c|e]]; [|done].
  split; [|cbn; lia]. apply (at_most_le (n + Z.of_nat (length ts))); [lia | exact He].
Qed.

Lemma outstanding_keeps n : hoare (at_most n) (outstanding_jobs (X := X) cfg E ttl)
  (fun seen sx => at_most n sx /\ at_most seen sx) never.
Proof.
  intros [s x] [Hc Hb]. unfold outstanding_jobs. cbn in Hc, Hb.
  destruct (summary_calm cfg (outbox (fan s)) Hc) as (w' & -> & Hc' & Hb').
  rewrite outstanding_counts. unfold at_most. cbn. rewrite Hb'. unfold backlog in *. by split.
Qed.

(** How many records were queued since the backlog was last looked at. *)
Definition unchecked (k : Z) : Z :=
  if k =? 0 then 0 else if k mod mq_check_interval q =? 0 then mq_check_interval q else k mod mq_check_interval q.

Hypothesis limited : 0 < mq_max_pending_jobs q.
Hypothesis interval_pos : 0 < mq_check_interval q.

Lemma unchecked_le k : 0 <= unchecked k <= mq_check_interval q.
Proof.
  unfold unchecked. pose proof (Z.mod_pos_bound k _ interval_pos). destruct (k =? 0); [lia|]. destruct (_ =? 0); lia.
Qed.

(** A record is queued when less than an interval is unchecked. *)
Lemma unchecked_next k : 0 <= k ->
  unchecked (k + 1) = (if (0 <? k) && (k mod mq_check_interval q =? 0) then 0 else unchecked k) + 1.
Proof.
  intros Hk. unfold unchecked. destruct (k + 1 =? 0) eqn:E1; blift; [lia|].
  set (n := mq_check_interval q) in *.
  pose proof (Z.mod_pos_bound k n interval_pos). pose proof (Z.mod_pos_bound (k + 1) n interval_pos).
  assert ((k + 1) mod n = if k mod n + 1 =? n then 0 else k mod n + 1) as Hm.
  { rewrite Z.add_mod by lia. destruct (k mod n + 1 =? n) eqn:Ee; blift.
    - destruct (Z.eq_dec n 1) as [->|Hn]; [by rewrite Z.mod_1_r|].
      rewrite (Z.mod_small 1) by lia. rewrite Ee. apply Z.mod_same. lia.
    - rewrite (Z.mod_small 1) by lia. apply Z.mod_small. lia. }
  assert (k = 0 -> k mod n = 0) as Hz by (intros ->; apply Z.mod_0_l; lia).
  rewrite Hm. destruct (0 <? k) eqn:E0, (k =? 0) eqn:Ez; blift; try lia; cbn [andb];
    destruct (k mod n =? 0) eqn:Ek, (k mod n + 1 =? n) eqn:En; blift; cbn [andb]; try lia;
    repeat match goal with |- context [?a =? ?b] => destruct (a =? b) eqn:?; blift end; lia.
Qed.

Variables (collection : string) (targets : list string) (B : Z).
Hypothesis B_limit : mq_max_pending_jobs q - 1 <= B.
Let T := Z.of_nat (length targets).
Let most := B + T * mq_check_interval q.

Lemma most_bound k sx : at_most (B + T * unchecked k) sx -> at_most most sx.
Proof. apply at_most_le. pose proof (unchecked_le k). unfold most, T. nia. Qed.

Lemma documents_keep docs seen outstanding t : 0 <= b_scanned t ->
  hoare (at_most (B + T * unchecked (b_scanned t))) (backfill_documents (X := X) cfg uuid4 C V E sha256 ttl q collection targets docs seen outstanding t)
    (fun _ => at_most most) (fun _ => at_most most).
Proof.
  revert seen outstanding t. induction docs as [|doc docs IH]; intros seen out t Ht; cbn [backfill_documents].
  { apply hoare_ret. apply most_bound. }
  set (k := b_scanned t) in *. set (rest := if (0 <? k) && (k mod mq_check_interval q =? 0) then 0 else unchecked k).
  assert (checks_now q t = (0 <? k) && (k mod mq_check_interval q =? 0)) as Hchk.
  { unfold checks_now. fold k. apply Z.ltb_lt in limited. by rewrite limited. }
  eapply (hoare_bind _ _ (fun seen_now sx => (checks_now q t && (mq_max_pending_jobs q <=? seen_now) = false -> at_most (B + T * rest) sx) /\
                                             at_most (B + T * unchecked k) sx)).
  { unfold rest. rewrite Hchk. destruct (_ && _) eqn:Ec; [|apply hoare_ret; by intros sx Hs].
    eapply hoare_conseq; [apply outstanding_keeps| done | | done].
    intros n sx [Hs Hn]. split; [|exact Hs]. cbn [andb]. intros Hle. blift. apply (at_most_le n); [rewrite Z.mul_0_r, Z.add_0_r; clear -B_limit Hle; lia | exact Hn]. }
  intros seen_now sx [Hrest Hs]. cbn beta.
  destruct (checks_now q t && (mq_max_pending_jobs q <=? seen_now)) eqn:Estop; [apply (most_bound k), Hs|].
  specialize (Hrest eq_refl).
  assert (forall seen, match backfill_documents cfg uuid4 C V E sha256 ttl q collection targets docs seen seen_now (skip_row t) sx with
                       | (sx', Ok _) => at_most most sx' | (sx', Raise _) => at_most most sx' end) as Hskip.
  { intros seen'. exact (IH seen' seen_now (skip_row t) Ht sx Hs). }
  destruct (document_text doc) as [[[project file_name] content] summary]. destruct (_ || _); [apply Hskip|].
  unfold st_bind at 1, st_lift. destruct (document_backfill_row V sha256 doc) as [r|e]; [|apply (most_bound k), Hs].
  destruct (mem_str _ _); [apply Hskip|].
  pose proof (document_keeps (B + T * rest) collection targets doc r t sx Hrest) as Hd.
  unfold st_bind. destruct (backfill_document _ _ _ _ _ _ _ _ _ _ _) as [sx' [t'|e]]; [|done]. destruct Hd as [Hd Ht'].
  apply (IH (bf_event r :: seen) seen_now t'); [lia|]. rewrite Ht'. fold k.
  refine (at_most_le _ _ _ _ Hd). pose proof (unchecked_next k Ht) as Hn. fold rest in Hn. fold T. rewrite Hn. lia.
Qed.
End run.

Lemma hoare_fst {S A} (P Q : S -> Prop) (m : ST S A) s : hoare P m (fun _ => Q) (fun _ => Q) -> P s -> Q (fst (m s)).
Proof. intros Hm Hs. specialize (Hm s Hs). by destruct (m s) as [s' [a|e]]. Qed.

Lemma sources_keep {X A} n (m : ST X A) : always (at_most (X := X) n) (in_sources m).
Proof. intros [s x] Hs. unfold in_sources. by destruct (m x) as [x' [a|e]]. Qed.

Lemma wake_keeps {X} C signal t n : always (at_most (X := X) n) (wake C signal t).
Proof.
  unfold wake. destruct (_ || _); [|apply always_ret]. intros [s x] Hs. cbn. unfold put_signal.
  destruct (queue_full C (fan s)); exact Hs.
Qed.

Lemma cached_keeps {X} cfg E ttl n : always (at_most (X := X) n) (cached_outstanding cfg E ttl).
Proof.
  intros [s x] [Hc Hb]. unfold cached_outstanding, get_fanout_summary. cbn in Hc, Hb.
  destruct (_fanout_cache_fresh _ _ _); [by split|]. destruct (has_summary _); [by split|].
  destruct (summary_calm cfg (outbox (fan s)) Hc) as (w' & -> & Hc' & Hb'). split; cbn; [exact Hc' | lia].
Qed.

(** C20: a backfill from the raw store that is not forced, with a positive limit
    on pending jobs and a positive check interval, over the SQLite outbox with no
    statement failing, leaves a backlog of at most the larger of the one it started
    with and the limit less one, plus the check interval times the number of
    targets, however many documents there are, and whether the run ends, is
    throttled or raises. *)
Theorem backfill_bounds_backlog {X} `{BackfillSources X} cfg uuid4 C V E sha256 ttl q (s : write_state) (x : X) :
  mq_force q = false -> 0 < mq_max_pending_jobs q -> 0 < mq_check_interval q -> calm (outbox (fan s)) ->
  let '(s', _) := fst (backfill_fanout_from_mongo_raw cfg uuid4 C V E sha256 ttl q (s, x)) in
  backlog (outbox (fan s')) <= Z.max (backlog (outbox (fan s))) (mq_max_pending_jobs q - 1)
                               + Z.of_nat (length (mongo_targets C (letta (fan s)) (mq_targets q))) * mq_check_interval q.
Proof.
  intros Hf Hm Hi Hc. set (targets := mongo_targets C (letta (fan s)) (mq_targets q)).
  set (B := Z.max (backlog (outbox (fan s))) (mq_max_pending_jobs q - 1)).
  set (most := B + Z.of_nat (length targets) * mq_check_interval q).
  assert (at_most B (s, x)) as Hs by (split; [exact Hc | cbn; unfold B; lia]).
  assert (forall sx : write_state * X, at_most B sx -> at_most most sx) as Hmost by (intros sx; apply at_most_le; unfold most; nia).
  enough (at_most most (fst (backfill_fanout_from_mongo_raw cfg uuid4 C V E sha256 ttl q (s, x)))) as Hgoal.
  { destruct (fst _) as [s' x']. exact (proj2 Hgoal). }
  unfold backfill_fanout_from_mongo_raw, st_bind at 1, in_sources at 1.
  destruct (bf_raw_ready x) as [x1 [ready|e]]; [|exact (Hmost _ Hs)].
  destruct ready; cbn [negb]; [|exact (Hmost _ Hs)]. unfold st_bind at 1, st_get. cbn [fst]. fold targets.
  clearbody targets. destruct targets as [|t0 ts]; [exact (Hmost _ Hs)|]. set (targets := t0 :: ts) in *. clearbody targets.
  eapply (hoare_fst (at_most B)); [|exact Hs].
  eapply (hoare_bind _ _ (fun _ => at_most B)).
  { eapply hoare_try; [apply sources_keep|]. intros e sx Hsx. cbn. exact (Hmost _ Hsx). }
  intros docs. eapply hoare_bind.
  { eapply hoare_conseq; [apply (documents_keep cfg uuid4 C V E sha256 ttl q Hf Hm Hi _ targets B ltac:(unfold B; lia) docs [] 0 no_tally); done
                         | | done | done].
    intros sx. apply at_most_le. unfold unchecked. cbn. lia. }
  intros [[t throttled] out]. eapply always_bind; [apply wake_keeps|]. intros _.
  eapply always_bind; [destruct (_ && _); [apply cached_keeps | apply always_ret]|]. intros n. apply always_ret.
Qed.

(** ** Limits of the other two *)

Section limits.
Context {X : Type} `{BackfillSources X}.
Variables (cfg : store_config) (uuid4 : nat -> string) (C : worker_config) (V : write_config) (E : environment) (sha256 : string -> string).
Let anywhere : write_state * X -> Prop := fun _ => True.

Lemma submit_counts r source collection raw targets force t :
  hoare anywhere (submit (X := X) cfg uuid4 C E r source collection raw targets force t)
    (fun t' _ => b_scanned t' = b_scanned t + 1) (fun _ _ => True).
Proof.
  intros sx _. unfold submit, st_bind at 1.
  assert (hoare anywhere (store_raw (X := X) E force targets raw t) (fun a _ => b_scanned (snd a) = b_scanned t) (fun _ _ => True)) as Hs.
  { unfold store_raw. destruct (_ && _); [|by apply hoare_ret]. intros [s x] _. unfold st_bind, in_write.
    destruct (persist_look E raw s) as (s' & err & -> & _). by destruct err. }
  specialize (Hs sx I). destruct (store_raw _ _ _ _ _ _) as [sx1 [[ts t']|e]]; [|done]. cbn in Hs.
  unfold st_bind. destruct (enqueue _ _ _ _ _ _ _) as [sx2 [c|e]]; [|done]. cbn. by rewrite Hs.
Qed.

Lemma rehydrate_file_counts q targets project f t :
  hoare anywhere (rehydrate_file (X := X) cfg uuid4 C V E sha256 q targets project f t)
    (fun t' _ => b_scanned t' <= b_scanned t + 1) (fun _ _ => True).
Proof.
  unfold rehydrate_file. eapply (hoare_bind _ _ (fun _ => anywhere)).
  { intros [s x] _. unfold st_try, st_bind, in_sources. by destruct (bf_read_file _ _ x) as [x' [c|e]]. }
  intros [content|e]; [|by apply hoare_ret; cbn; lia]. destruct (negb _); [apply hoare_ret; lia|].
  eapply (hoare_bind _ _ (fun _ => anywhere)); [by intros sx _; unfold st_lift; destruct (file_row _ _ _ _ _)|]. intros r.
  eapply (hoare_bind _ _ (fun _ => anywhere)); [by intros [s x] _|]. intros now.
  eapply hoare_conseq; [apply submit_counts | done | | done]. intros t' sx ->. lia.
Qed.

(** A rehydration queues at most as many records as it was asked for. *)
Lemma rehydrate_respects_limit q targets projects t : b_scanned t <= rq_limit q ->
  hoare anywhere (rehydrate_projects (X := X) cfg uuid4 C V E sha256 q targets projects t)
    (fun t' _ => b_scanned t' <= rq_limit q) (fun _ _ => True).
Proof.
  assert (forall project files t, b_scanned t <= rq_limit q ->
    hoare anywhere (rehydrate_files (X := X) cfg uuid4 C V E sha256 q targets project files t)
      (fun t' _ => b_scanned t' <= rq_limit q) (fun _ _ => True)) as Hfiles.
  { intros project files. induction files as [|f files IH]; intros t0 Ht; cbn [rehydrate_files]; [by apply hoare_ret|].
    destruct (_ <=? _) eqn:El; [by apply hoare_ret|]. blift.
    eapply hoare_bind; [apply rehydrate_file_counts|]. intros t' sx Ht'. apply (IH t'); [lia | done]. }
  revert t. induction projects as [|p projects IH]; intros t Ht; cbn [rehydrate_projects]; [by apply hoare_ret|].
  destruct (_ <=? _) eqn:El; [by apply hoare_ret|]. blift.
  eapply (hoare_bind _ _ (fun _ => anywhere)).
  { intros [s x] _. unfold st_try, st_bind, in_sources. by destruct (bf_list_files _ x) as [x' [c|e]]. }
  intros found. eapply (hoare_bind _ _ (fun t' _ => b_scanned t' <= rq_limit q)).
  - destruct found as [files|e]; [by apply Hfiles | by apply hoare_ret].
  - intros t' sx Ht'. by apply IH.
Qed.

(** A backfill from the index queues at most as many rows as it was asked for. *)
Lemma qdrant_backfill_respects_limit pages q collection targets offset seen t : b_scanned t <= qq_limit q ->
  hoare anywhere (backfill_pages (X := X) cfg uuid4 C V E sha256 pages q collection targets offset seen t)
    (fun t' _ => b_scanned t' <= qq_limit q) (fun _ _ => True).
Proof.
  assert (forall points seen t, b_scanned t <= qq_limit q ->
    hoare anywhere (backfill_points (X := X) cfg uuid4 C V E sha256 q collection targets points seen t)
      (fun st _ => b_scanned (snd st) <= qq_limit q) (fun _ _ => True)) as Hpoints.
  { intros points. induction points as [|p points IH]; intros seen0 t0 Ht; cbn [backfill_points]; [by apply hoare_ret|].
    destruct (_ <=? _) eqn:El; [by apply hoare_ret|]. blift. destruct (point_columns p) as [[pr f] sm].
    destruct (_ || _); [by apply IH|].
    eapply (hoare_bind _ _ (fun _ => anywhere)); [by intros sx _; unfold st_lift; destruct (point_backfill_row _ _ _)|]. intros r.
    eapply (hoare_bind _ _ (fun _ => anywhere)); [by intros [s x] _|]. intros now.
    eapply hoare_bind; [apply submit_counts|]. intros t' sx Ht'. apply IH; [lia | done]. }
  revert offset seen t. induction pages as [|pages IH]; intros offset seen t Ht; cbn [backfill_pages]; destruct (negb _).
  1,3: by apply hoare_ret.
  - by intros sx _.
  - eapply (hoare_bind _ _ (fun _ => anywhere)).
    { intros [s x] _. unfold st_try, st_bind, in_sources. by destruct (bf_scroll _ _ _ _ x) as [x' [c|e]]. }
    intros [[points next]|e]; [|by apply hoare_ret]. destruct points as [|p0 points]; [by apply hoare_ret|].
    eapply hoare_bind; [by apply Hpoints|]. intros [seen' t'] sx Ht'. cbn in Ht'.
    destruct (is_null next); [done | by apply IH].
Qed.
End limits.

(** ** A raw store to run on *)

#[local] Instance demo_source : BackfillSources (list dict) := {|
  bf_list_projects := st_ret [];
  bf_list_files _ := st_ret [];
  bf_read_file _ _ := st_ret "";
  bf_scroll _ _ _ _ := st_ret ([], JNull);
  bf_raw_ready := st_ret true;
  bf_scan _ limit x := (x, Ok (firstn (Z.to_nat limit) x)) |}.

Definition demo_document (event file content updated_at : string) : dict :=
  [("event_id", JStr event); ("project", JStr "proj"); ("file", JStr file); ("content_raw", JStr content);
   ("summary", JStr content); ("topic_path", JStr "notes"); ("updated_at", JStr updated_at)].

Definition demo_mongo_request (max_pending interval : Z) : mongo_request := mkMongoRequest "" 50000 ["qdrant"] None false max_pending interval.

Definition demo_backfill (q : mongo_request) (docs : list dict) :=
  backfill_fanout_from_mongo_raw default_store_config demo_uuid default_worker_config demo_small_config demo_env demo_sha 5000000 q
    (demo_write_state [], docs).

(** Three files, a limit of one job and a check after every record: the second
    check ends the run. *)
Lemma backfill_bounds_backlog_witness :
  let out := demo_backfill (demo_mongo_request 1 1)
               [demo_document "e1" "a.md" "x" "3"; demo_document "e2" "b.md" "y" "2"; demo_document "e3" "c.md" "z" "1"] in
  match snd out with Ok (_, _, t, throttled, n) => b_scanned t = 1 /\ throttled = true /\ n = 1 | Raise _ => False end /\
  let '(s', _) := fst out in backlog (outbox (fan s')) <= 1.
Proof.
  cbn zeta. split; [vm_compute; done|].
  exact (backfill_bounds_backlog default_store_config demo_uuid default_worker_config demo_small_config demo_env demo_sha 5000000
           (demo_mongo_request 1 1) (demo_write_state [])
           [demo_document "e1" "a.md" "x" "3"; demo_document "e2" "b.md" "y" "2"; demo_document "e3" "c.md" "z" "1"]
           eq_refl eq_refl eq_refl (conj eq_refl eq_refl)).
Defined.

(** A backfill from the raw store reads a file's records newest first, and
    the outbox merges a record into the waiting job of the same file: the job
    that is left carries the oldest record, which the sinks then take for the
    current one. *)
Theorem backfill_leaves_oldest_version :
  let '(s', _) := fst (demo_backfill (demo_mongo_request 6000 200)
    [demo_document "e2" "notes/day.md" "the new text" "2024-02-02T00:00:00Z";
     demo_document "e1" "notes/day.md" "the old text" "2024-01-01T00:00:00Z"]) in
  map (fun r => (target r, summary r, dget (as_dict (dget (as_dict (payload r)) "payload")) "content")) (rows (tables (db (outbox (fan s')))))
  = [("qdrant", "the old text", JStr "the old text")].
Proof. vm_compute. reflexivity. Qed.
