(* ===== verification/TextLog.v ===== *)
(** * Files of JSON lines

    The histories the service keeps on disk: one JSON value per line, appended
    in a thread ([_append] of the [_persist_*] functions) and read back when the
    service starts.  [_tail_file_lines] reads the end of a file backwards in
    chunks; [_load_memory_write_history] rebuilds the recent writes from it. *)

From S2P Require Import Prelude PyStr Json JsonText SourcePolicy.
From Stdlib Require Import Ascii.
Open Scope Z_scope.

(** ** Lines *)

Definition LF : ascii := Ascii.ascii_of_N 10.
Definition CR : ascii := Ascii.ascii_of_N 13.

(** [data.splitlines()] of bytes, and the lines of a file opened as text: a line
    ends at LF, CR or CR LF; [line] is the text read since the last end. *)
Fixpoint text_lines_from (line : string) (s : string) : list string :=
  match s with
  | EmptyString => if truthy line then [line] else []
  | String c s' =>
      if Ascii.eqb c LF then line :: text_lines_from "" s'
      else if Ascii.eqb c CR then
        match s' with
        | String d s'' => if Ascii.eqb d LF then line :: text_lines_from "" s'' else line :: text_lines_from "" s'
        | EmptyString => [line]
        end
      else text_lines_from (line +:+ String c "") s'
  end.
Definition text_lines (s : string) : list string := text_lines_from "" s.

(** [data.count(b"\n")] *)
Fixpoint count_lf (s : string) : nat :=
  match s with
  | EmptyString => 0
  | String c s' => if Ascii.eqb c LF then S (count_lf s') else count_lf s'
  end.

(** [l[-n:]] for a positive [n] *)
Definition lastn {A} (n : nat) (l : list A) : list A := skipn (length l - n) l.

(** [deque(maxlen=n).append(x)] *)
Definition deque_push {A} (maxlen : nat) (x : A) (l : list A) : list A := lastn maxlen (l ++ [x]).

(** ** Reading the end of a file *)

Section tail.
Variable data : string.
Variables max_lines max_bytes chunk_size : nat.

(** [handle.seek(position); handle.read(read_size)] *)
Definition read_at (position read_size : nat) : string := take read_size (drop position data).

(** [while position > 0 and bytes_read < max_bytes and newline_count <= max_lines];
    what is read so far starts at [position], so [bytes_read] is its length. *)
Fixpoint tail_loop (fuel position : nat) (collected : string) : nat * string :=
  let bytes_read := String.length collected in
  match fuel with
  | O => (position, collected)
  | S fuel' =>
      if (0 <? position)%nat && (bytes_read <? max_bytes)%nat && (count_lf collected <=? max_lines)%nat then
        let remaining_budget := (max_bytes - bytes_read)%nat in
        let read_size := Nat.min chunk_size (Nat.min position remaining_budget) in
        let position := (position - read_size)%nat in
        tail_loop fuel' position (read_at position read_size +:+ collected)
      else (position, collected)
  end.

Definition tail_bytes : string := snd (tail_loop (String.length data) (String.length data) "").
End tail.

Section loading.
(** [row.decode("utf-8", errors="replace")] *)
Variable decode : string -> string.
Variable MEMORY_WRITE_HISTORY_TAIL_CHUNK_BYTES : Z.

Definition _tail_file_lines (data : string) (max_lines max_bytes : Z) (chunk_bytes : option Z) : list string :=
  if (max_lines <=? 0) || (max_bytes <=? 0) then []
  else
    let chunk_size := Z.max 1 (match chunk_bytes with Some c => c | None => MEMORY_WRITE_HISTORY_TAIL_CHUNK_BYTES end) in
    let collected := tail_bytes data (Z.to_nat max_lines) (Z.to_nat max_bytes) (Z.to_nat chunk_size) in
    if negb (truthy collected) then []
    else map decode (lastn (Z.to_nat max_lines) (text_lines collected)).

(** ** Appending and loading *)

(** A file, absent at first. *)
Abbreviation text_file := (option string).

(** [_append(path, line + "\n")] in a thread: a failure is logged, and [torn]
    bytes of the line may have reached the file. *)
Definition append_line (torn : option nat) (value : json) (file : text_file) : text_file :=
  let line := dumps value +:+ nl in
  let written := match torn with None => line | Some k => take k line end in
  Some (match file with Some text => text | None => "" end +:+ written).

(** Blank lines and lines that are not JSON are passed over. *)
Definition parsed_line (line : string) : option json := if truthy (strip line) then loads (strip line) else None.

Fixpoint parsed_lines (lines : list string) : list json :=
  match lines with
  | [] => []
  | line :: rest => match parsed_line line with Some v => v :: parsed_lines rest | None => parsed_lines rest end
  end.

(** [memory_write_history] is a [deque] of [MEMORY_WRITE_HISTORY_LIMIT]. *)
Definition _load_memory_write_history (MEMORY_WRITE_HISTORY_LIMIT MEMORY_WRITE_HISTORY_LOAD_MAX_BYTES : Z) (file : text_file)
    (memory_write_history : list json) : list json :=
  match file with
  | None => memory_write_history
  | Some data =>
      fold_left (fun h v => deque_push (Z.to_nat MEMORY_WRITE_HISTORY_LIMIT) v h)
        (parsed_lines (_tail_file_lines data (Z.max 1 MEMORY_WRITE_HISTORY_LIMIT) MEMORY_WRITE_HISTORY_LOAD_MAX_BYTES None))
        memory_write_history
  end.
End loading.

(** The loops of the smaller histories: the first line that is not JSON, or that
    [add] refuses, ends the loading. *)
Fixpoint load_lines {S} (add : json -> ST S unit) (lines : list string) : ST S unit :=
  match lines with
  | [] => st_ret tt
  | line :: rest =>
      let payload := strip line in
      if negb (truthy payload) then load_lines add rest
      else match loads payload with
           | Some v => add v ;;; load_lines add rest
           | None => st_raise (OtherError "JSONDecodeError" "Expecting value")
           end
  end.
