(* ===== verification/TextLogFacts.v ===== *)
(** * Proofs about the files of JSON lines

    The chunks read backwards make up the end of the file, and hold the last
    lines whole; what is appended line by line is what is loaded after a
    restart. *)

From S2P Require Import Prelude PyStr Json JsonText SourcePolicy Tasks TextLog.
From Stdlib Require Import Ascii.
Open Scope Z_scope.

(** ** Strings *)

Lemma take_drop n s : take n s +:+ drop n s = s.
Proof. revert s. induction n as [|n IH]; intros [|c s]; try done. cbn [take drop]. by rewrite append_cons, IH. Qed.

Lemma drop_drop n m s : drop n (drop m s) = drop (n + m) s.
Proof.
  revert s. induction m as [|m IH]; intros s; [by rewrite Nat.add_0_r|].
  rewrite Nat.add_succ_r. destruct s as [|c s]; [by destruct n|]. cbn [drop]. apply IH.
Qed.

Lemma drop_all s : drop (String.length s) s = "".
Proof. induction s; done. Qed.

Lemma lastn_all {A} n (l : list A) : (length l <= n)%nat -> lastn n l = l.
Proof. intros H. unfold lastn. by replace (length l - n)%nat with 0%nat by lia. Qed.

Lemma lastn_app {A} n (l l' : list A) : (n <= length l')%nat -> lastn n (l ++ l') = lastn n l'.
Proof.
  intros H. unfold lastn. rewrite length_app, skipn_app.
  rewrite skipn_all2 by lia. cbn. f_equal. lia.
Qed.

Lemma lastn_length {A} n (l : list A) : length (lastn n l) = Nat.min n (length l).
Proof. unfold lastn. rewrite length_skipn. lia. Qed.

Lemma lastn_snoc {A} n (x : A) l l' : lastn n (lastn n l ++ x :: l') = lastn n (l ++ x :: l').
Proof.
  destruct (Nat.le_gt_cases (length l) n) as [H|H]; [by rewrite (lastn_all n l)|].
  rewrite <- (firstn_skipn (length l - n) l) at 2. rewrite <- app_assoc. symmetry. apply lastn_app.
  rewrite length_app, lastn_length. cbn. lia.
Qed.

(** Appending one by one to a bounded deque keeps the last ones. *)
Lemma fold_deque {A} n (xs : list A) l : (length l <= n)%nat ->
  fold_left (fun h v => deque_push n v h) xs l = lastn n (l ++ xs).
Proof.
  revert l. induction xs as [|x xs IH]; intros l H; cbn; [by rewrite app_nil_r, lastn_all|].
  rewrite IH by (unfold deque_push; rewrite lastn_length; lia). unfold deque_push.
  destruct xs as [|y xs]; [|by rewrite lastn_snoc, <- app_assoc]. rewrite app_nil_r.
  apply lastn_all. rewrite lastn_length. lia.
Qed.

Lemma last_lastn {A} n (l : list A) d : (0 < n)%nat -> List.last (lastn n l) d = List.last l d.
Proof.
  intros Hn. destruct (Nat.le_gt_cases (length l) n) as [H|H]; [by rewrite lastn_all|].
  unfold lastn. rewrite <- (firstn_skipn (length l - n) l) at 3.
  assert (skipn (length l - n) l <> []) as Hne by (intros E; apply (f_equal length) in E; rewrite length_skipn in E; cbn in E; lia).
  revert Hne. generalize (skipn (length l - n) l) (firstn (length l - n) l). intros b a Hb.
  induction a as [|x a IH]; [done|]. cbn [app]. destruct (a ++ b) eqn:E; [by destruct a, b|]. cbn. by rewrite IH.
Qed.

(** ** The loop that reads backwards *)

Section tail_facts.
Variable data : string.
Variables max_lines max_bytes chunk_size : nat.
Hypothesis chunk_pos : (0 < chunk_size)%nat.

Abbreviation loop := (tail_loop data max_lines max_bytes chunk_size).

Lemma read_at_drop position n : (n <= position)%nat ->
  read_at data (position - n) n +:+ drop position data = drop (position - n) data.
Proof.
  intros H. unfold read_at. replace (drop position data) with (drop n (drop (position - n) data)).
  - apply take_drop.
  - rewrite drop_drop. f_equal. lia.
Qed.

(** Where the loop stops, and that it stops. *)
Lemma tail_loop_spec fuel position : (position <= fuel)%nat -> (position <= String.length data)%nat ->
  (String.length data - position <= max_bytes)%nat ->
  let '(stop, collected) := loop fuel position (drop position data) in
  collected = drop stop data /\ (stop <= position)%nat /\ (String.length collected <= max_bytes)%nat /\
  (stop = 0%nat \/ String.length collected = max_bytes \/ (max_lines < count_lf collected)%nat).
Proof.
  revert position. induction fuel as [|fuel IH]; intros position Hf Hl Hb; cbn [tail_loop].
  - rewrite drop_length. repeat split; lia.
  - rewrite drop_length. destruct (0 <? position)%nat eqn:E1; cbn [andb]; [apply Nat.ltb_lt in E1|apply Nat.ltb_ge in E1].
    2: { rewrite drop_length. repeat split; lia. }
    destruct (_ <? max_bytes)%nat eqn:E2; cbn [andb]; [apply Nat.ltb_lt in E2|apply Nat.ltb_ge in E2].
    2: { rewrite drop_length. repeat split; lia. }
    destruct (_ <=? max_lines)%nat eqn:E3; [apply Nat.leb_le in E3|apply Nat.leb_gt in E3].
    2: { rewrite drop_length. repeat split; lia. }
    set (n := Nat.min _ _). assert (0 < n <= position)%nat as Hn by lia. rewrite read_at_drop by lia.
    specialize (IH (position - n)%nat). destruct (loop _ _ _) as [stop collected].
    destruct IH as (? & ? & ? & ?); [lia..|]. repeat split; [done|lia|done|done].
Qed.

Lemma tail_bytes_spec : exists before, data = before +:+ tail_bytes data max_lines max_bytes chunk_size /\
  (String.length (tail_bytes data max_lines max_bytes chunk_size) <= max_bytes)%nat /\
  (before = "" \/ String.length (tail_bytes data max_lines max_bytes chunk_size) = max_bytes \/
   (max_lines < count_lf (tail_bytes data max_lines max_bytes chunk_size))%nat).
Proof.
  unfold tail_bytes. pose proof (tail_loop_spec (String.length data) (String.length data)) as H. rewrite drop_all in H.
  destruct (loop _ _ "") as [stop collected]. cbn [snd]. destruct H as (-> & _ & Hb & Hs); [lia..|].
  exists (take stop data). split; [by rewrite take_drop|]. split; [done|].
  destruct Hs as [->|Hs]; [left|right]; done.
Qed.
End tail_facts.

(** ** Lines *)

Lemma text_lines_lf line s t :
  text_lines_from line (s +:+ String LF t) = text_lines_from line (s +:+ String LF "") ++ text_lines t.
Proof.
  revert line. induction s as [s IH] using (well_founded_induction (well_founded_ltof _ String.length)); intros line.
  destruct s as [|c s]; [done|]. rewrite !append_cons. cbn [text_lines_from].
  destruct (Ascii.eqb c LF) eqn:E1; [rewrite IH by (unfold ltof; cbn; lia); done|].
  destruct (Ascii.eqb c CR) eqn:E2; [|apply IH; unfold ltof; cbn; lia].
  destruct s as [|d s]; [done|]. rewrite !append_cons. destruct (Ascii.eqb d LF) eqn:E3.
  - rewrite IH by (unfold ltof; cbn; lia). done.
  - change (String d (s +:+ String LF t)) with (String d s +:+ String LF t). rewrite IH by (unfold ltof; cbn; lia). done.
Qed.

Lemma count_lf_lines line s : (count_lf s <= length (text_lines_from line s))%nat.
Proof.
  revert line. induction s as [s IH] using (well_founded_induction (well_founded_ltof _ String.length)); intros line.
  destruct s as [|c s]; [cbn; lia|]. cbn [text_lines_from count_lf].
  destruct (Ascii.eqb c LF) eqn:E1; [cbn; pose proof (IH s ltac:(unfold ltof; cbn; lia) ""); lia|].
  destruct (Ascii.eqb c CR) eqn:E2; [|apply IH; unfold ltof; cbn; lia].
  destruct s as [|d s]; [cbn; lia|]. cbn [count_lf]. destruct (Ascii.eqb d LF) eqn:E3; cbn [length].
  - pose proof (IH s ltac:(unfold ltof; cbn; lia) ""). lia.
  - pose proof (IH (String d s) ltac:(unfold ltof; cbn; lia) "") as H. cbn [count_lf] in H. rewrite E3 in H. lia.
Qed.

Lemma count_lf_split s n : (n < count_lf s)%nat -> exists a b, s = a +:+ String LF b /\ (n <= count_lf b)%nat.
Proof.
  induction s as [|c s IH]; cbn [count_lf]; [lia|]. destruct (Ascii.eqb c LF) eqn:E; intros H.
  - apply Ascii.eqb_eq in E as ->. exists "", s. split; [done|lia].
  - destruct (IH H) as (a & b & -> & Hb). exists (String c a), b. split; [by rewrite append_cons|done].
Qed.

(** The last lines of a text are those of any end of it with enough line feeds. *)
Lemma last_lines before s n : (n < count_lf s)%nat -> lastn n (text_lines (before +:+ s)) = lastn n (text_lines s).
Proof.
  intros H. destruct (count_lf_split s n H) as (a & b & -> & Hb). pose proof (count_lf_lines "" b) as Hl.
  unfold text_lines. rewrite <- append_assoc, (text_lines_lf _ (before +:+ a)), (text_lines_lf _ a).
  by rewrite !lastn_app by (unfold text_lines; lia).
Qed.

Section tail_theorem.
Variable decode : string -> string.
Variable chunk_default : Z.
Abbreviation tail_of := (_tail_file_lines decode chunk_default).

(** A file within the budget: whatever the size of the chunks, the last lines. *)
Lemma tail_is_last_lines data max_lines max_bytes chunk : 0 < max_lines -> Z.of_nat (String.length data) < max_bytes ->
  tail_of data max_lines max_bytes chunk = map decode (lastn (Z.to_nat max_lines) (text_lines data)).
Proof.
  intros Hl Hb. unfold _tail_file_lines. destruct (Z.leb_spec max_lines 0); [lia|]. destruct (Z.leb_spec max_bytes 0); [lia|].
  cbn [orb]. set (c := Z.to_nat (Z.max 1 _)). assert (0 < c)%nat as Hc by lia.
  destruct (tail_bytes_spec data (Z.to_nat max_lines) (Z.to_nat max_bytes) c Hc) as (before & Hd & _ & Hs).
  set (t := tail_bytes _ _ _ _) in *. clearbody t. assert (String.length data = String.length before + String.length t)%nat as Hn
    by (rewrite Hd at 1; apply append_length).
  destruct Hs as [->|[Hs|Hs]]; [|lia|].
  - change ("" +:+ t) with t in Hd. rewrite Hd. by destruct t.
  - destruct t as [|x t]; [cbn in Hs; lia|]. cbn [truthy]. change (truthy (String x t)) with true. cbn [negb].
    rewrite Hd, last_lines by done. done.
Qed.

(** Beyond the budget at most [max_bytes] bytes are looked at. *)
Lemma tail_within_budget data max_lines max_bytes chunk : exists before s, data = before +:+ s /\
  (Z.of_nat (String.length s) <= Z.max 0 max_bytes) /\
  tail_of data max_lines max_bytes chunk = map decode (lastn (Z.to_nat max_lines) (text_lines s)).
Proof.
  unfold _tail_file_lines. destruct (Z.leb_spec max_lines 0) as [H|Hl].
  { exists data, "". rewrite append_nil_r. split; [done|]. split; [cbn; lia|]. by replace (Z.to_nat max_lines) with 0%nat by lia. }
  destruct (Z.leb_spec max_bytes 0) as [H|Hb].
  { exists data, "". rewrite append_nil_r. split; [done|]. split; [cbn; lia|]. done. }
  cbn [orb]. set (c := Z.to_nat (Z.max 1 _)). assert (0 < c)%nat as Hc by lia.
  destruct (tail_bytes_spec data (Z.to_nat max_lines) (Z.to_nat max_bytes) c Hc) as (before & Hd & Hn & _).
  exists before, (tail_bytes data (Z.to_nat max_lines) (Z.to_nat max_bytes) c). split; [done|]. split; [lia|].
  by destruct (tail_bytes _ _ _ _).
Qed.
End tail_theorem.

(** ** Printed values *)

(** Printable ASCII. *)
Definition printable (c : ascii) : bool := let n := N_of_ascii c in ((32 <=? n) && (n <=? 126))%N.

Lemma all_chars_app p s t : all_chars p (s +:+ t) = all_chars p s && all_chars p t.
Proof. induction s as [|c s IH]; [done|]. rewrite append_cons. cbn [all_chars]. by rewrite IH, andb_assoc. Qed.

Lemma all_chars_impl (p q : ascii -> bool) s : (forall c, p c = true -> q c = true) -> all_chars p s = true -> all_chars q s = true.
Proof. intros H. induction s as [|c s IH]; cbn [all_chars]; [done|]. intros [Hc Hs]%andb_true_iff. by rewrite (H c Hc), IH. Qed.

Lemma all_chars_join p sep l : all_chars p sep = true -> List.Forall (fun s => all_chars p s = true) l -> all_chars p (join sep l) = true.
Proof.
  intros Hs. induction 1 as [|x l Hx Hl IH]; [done|]. destruct l as [|y l]; [done|].
  rewrite join_cons by done. by rewrite !all_chars_app, Hx, Hs, IH.
Qed.

Lemma digits_printable s : all_digits s = true -> all_chars printable s = true.
Proof.
  induction s as [|c s IH]; cbn [all_digits all_chars]; [done|]. intros [Hc Hs]%andb_true_iff. rewrite IH by done.
  revert Hc. by destruct c as [[] [] [] [] [] [] [] []].
Qed.

Lemma int_text_printable a : int_text a -> all_chars printable a = true.
Proof. intros [->|[H _]]; [done|by apply digits_printable]. Qed.

Lemma quote_printable s : all_chars printable (quote_json s) = true.
Proof.
  unfold quote_json. cbn [all_chars]. rewrite all_chars_app. change (printable dquote) with true. cbn [all_chars andb].
  rewrite andb_true_r. induction s as [|c s IH]; [done|]. cbn [escape_body]. rewrite all_chars_app, IH, andb_true_r.
  clear. destruct c as [[] [] [] [] [] [] [] []]; vm_compute; reflexivity.
Qed.

Lemma float_printable r : float_text r -> all_chars printable r = true.
Proof.
  intros [r' Hr'|sg a f e Hsg Ha Hf He _]; [by destruct Hr' as [<-|[<-|[<-|[]]]]|].
  rewrite !all_chars_app, (int_text_printable a Ha).
  assert (all_chars printable sg = true) as -> by (by destruct Hsg as [<-|[<-|[]]]).
  assert (all_chars printable f = true) as -> by (destruct Hf as [->|(d & -> & Hd & _)]; [done|exact (digits_printable d Hd)]).
  destruct He as [->|(c & s & d & -> & Hc & Hs & Hd & _)]; [done|]. cbn [all_chars andb]. rewrite all_chars_app, (digits_printable d Hd).
  destruct Hc as [<-|[<-|[]]]; by destruct Hs as [<-|[<-|[<-|[]]]].
Qed.

Lemma dumps_printable j : json_wf j -> all_chars printable (dumps j) = true.
Proof.
  induction j as [|b|z|r|s|l IH|d IH] using json_ind'; cbn [dumps json_wf]; intros Hwf.
  - done.
  - by destruct b.
  - destruct (str_of_Z_text z) as (sg & Hsg & -> & _). destruct (abs_text_spec (Z.abs z)) as [Ht _]; [lia|].
    rewrite all_chars_app, (int_text_printable _ Ht). by destruct Hsg as [<-|[<-|[]]].
  - by apply float_printable.
  - apply quote_printable.
  - rewrite !all_chars_app, all_chars_join; [reflexivity..|]. induction IH as [|x l Hx Hl IHl]; [constructor|].
    destruct Hwf as [Hw Hwf]. constructor; [by apply Hx|by apply IHl].
  - destruct Hwf as [_ Hwf]. rewrite !all_chars_app, all_chars_join; [reflexivity..|]. induction IH as [|x l Hx Hl IHl]; [constructor|].
    destruct Hwf as [Hw Hwf]. constructor; [|by apply IHl]. rewrite !all_chars_app, quote_printable. by rewrite Hx.
Qed.

Lemma printable_ends c : printable c = true -> Ascii.eqb c LF = false /\ Ascii.eqb c CR = false.
Proof. by destruct c as [[] [] [] [] [] [] [] []]. Qed.

Lemma text_lines_printable w line t : all_chars printable w = true ->
  text_lines_from line (w +:+ t) = text_lines_from (line +:+ w) t.
Proof.
  revert line. induction w as [|c w IH]; intros line Hw; [by rewrite append_nil_r|].
  cbn [all_chars] in Hw. apply andb_true_iff in Hw as [Hc Hw]. destruct (printable_ends c Hc) as [H1 H2].
  rewrite append_cons. cbn [text_lines_from]. rewrite H1, H2, IH by done. f_equal. by rewrite append_assoc.
Qed.

(** The file of some values. *)
Fixpoint log_text (values : list json) : string :=
  match values with [] => "" | v :: vs => dumps v +:+ nl +:+ log_text vs end.

Lemma log_text_app a b : log_text (a ++ b) = log_text a +:+ log_text b.
Proof. induction a as [|v a IH]; [done|]. cbn [log_text app]. by rewrite IH, !append_assoc. Qed.

Lemma text_lines_log_app vs t : List.Forall json_wf vs -> text_lines (log_text vs +:+ t) = map dumps vs ++ text_lines t.
Proof.
  induction 1 as [|v vs Hv Hvs IH]; [done|]. cbn [log_text map app]. rewrite !append_assoc. unfold text_lines at 1.
  rewrite text_lines_printable by (by apply dumps_printable). change (nl +:+ ?s) with (String LF s). cbn [text_lines_from].
  change (Ascii.eqb LF LF) with true. cbn beta iota.
  change (text_lines_from "" (log_text vs +:+ t)) with (text_lines (log_text vs +:+ t)). by rewrite IH.
Qed.

Lemma text_lines_log vs : List.Forall json_wf vs -> text_lines (log_text vs) = map dumps vs.
Proof. intros H. rewrite <- (append_nil_r (log_text vs)), text_lines_log_app by done. apply app_nil_r. Qed.

Lemma appended values file : fold_left (fun f v => append_line None v f) values file =
  match values with [] => file | _ => Some (match file with Some t => t | None => "" end +:+ log_text values) end.
Proof.
  revert file. induction values as [|v vs IH]; intros file; [done|]. cbn [fold_left]. rewrite IH. unfold append_line.
  destruct vs as [|w vs]; cbn [log_text]; [by rewrite append_nil_r|]. by rewrite !append_assoc.
Qed.

(** ** Lines read back *)

Definition is_dict (j : json) : bool := match j with JObj _ => true | _ => false end.

Lemma rstrip_end p s c : p c = false -> rstrip_by p (s +:+ String c "") = s +:+ String c "".
Proof.
  intros Hc. induction s as [|d s IH]; [change ("" +:+ ?x) with x; cbn [rstrip_by]; by rewrite Hc|].
  rewrite append_cons. cbn [rstrip_by]. rewrite IH.
  destruct (s +:+ String c "") eqn:Es; [by destruct s|done].
Qed.

Lemma strip_dict d : strip (dumps (JObj d)) = dumps (JObj d).
Proof.
  cbn [dumps]. set (body := join _ _). clearbody body. unfold strip, strip_by.
  change (lstrip_by is_space ("{" +:+ body +:+ "}")) with ("{" +:+ body +:+ "}"). rewrite <- (append_assoc "{"). by apply rstrip_end.
Qed.

Lemma parsed_dict v : json_wf v -> is_dict v = true -> parsed_line (dumps v) = Some v.
Proof. intros Hw Hd. destruct v; try done. unfold parsed_line. rewrite strip_dict. by rewrite loads_dumps. Qed.

Lemma parsed_lines_app a b : parsed_lines (a ++ b) = parsed_lines a ++ parsed_lines b.
Proof. induction a as [|l a IH]; [done|]. cbn [parsed_lines app]. by destruct (parsed_line l); rewrite IH. Qed.

Definition log_entry_ok (v : json) : Prop := json_wf v /\ is_dict v = true.

Lemma parsed_dicts vs : List.Forall log_entry_ok vs -> parsed_lines (map dumps vs) = vs.
Proof.
  induction 1 as [|v vs [Hw Hd] Hvs IH]; [done|]. cbn [map parsed_lines]. by rewrite parsed_dict, IH.
Qed.

Lemma entries_wf vs : List.Forall log_entry_ok vs -> List.Forall json_wf vs.
Proof. apply List.Forall_impl. by intros v []. Qed.

Lemma Forall_lastn {A} (P : A -> Prop) n l : List.Forall P l -> List.Forall P (lastn n l).
Proof. intros H. rewrite <- (firstn_skipn (length l - n) l) in H. by apply List.Forall_app in H as []. Qed.

Lemma In_lastn {A} n (x : A) l : In x (lastn n l) -> In x l.
Proof. intros H. rewrite <- (firstn_skipn (length l - n) l). apply in_or_app. by right. Qed.

Lemma map_lastn {A B} (f : A -> B) n l : map f (lastn n l) = lastn n (map f l).
Proof. unfold lastn. by rewrite length_map, skipn_map. Qed.

Section restart.
Variable decode : string -> string.
(** What is printable ASCII decodes to itself. *)
Hypothesis decode_ascii : forall s, all_chars printable s = true -> decode s = s.
Variable chunk : Z.

Lemma decode_dumps vs : List.Forall json_wf vs -> map decode (map dumps vs) = map dumps vs.
Proof.
  induction 1 as [|v vs Hv Hvs IH]; [done|]. cbn [map]. by rewrite decode_ascii, IH by (by apply dumps_printable).
Qed.

(** The last lines of a log. *)
Lemma tail_log vs max_lines max_bytes c : 0 < max_lines -> List.Forall json_wf vs ->
  Z.of_nat (String.length (log_text vs)) < max_bytes ->
  _tail_file_lines decode chunk (log_text vs) max_lines max_bytes c = map dumps (lastn (Z.to_nat max_lines) vs).
Proof.
  intros Hl Hvs Hb. rewrite tail_is_last_lines, text_lines_log by done.
  rewrite <- map_lastn, decode_dumps by (by apply Forall_lastn). done.
Qed.

Lemma history_reloads values LIMIT BYTES : 0 < LIMIT -> List.Forall log_entry_ok values ->
  Z.of_nat (String.length (log_text values)) < BYTES ->
  _load_memory_write_history decode chunk LIMIT BYTES (fold_left (fun f v => append_line None v f) values None) [] =
  lastn (Z.to_nat LIMIT) values.
Proof.
  intros Hl Hv Hb. rewrite appended. destruct values as [|v vs]; [done|]. unfold _load_memory_write_history.
  change ("" +:+ ?x) with x. rewrite tail_log by (try apply entries_wf; done || lia).
  rewrite fold_deque by (cbn; lia). rewrite parsed_dicts by (by apply Forall_lastn). cbn [app]. rewrite Z.max_r by lia.
  apply lastn_all. rewrite lastn_length. lia.
Qed.

Lemma take_printable k s : all_chars printable s = true -> all_chars printable (take k s) = true.
Proof.
  revert s. induction k as [|k IH]; intros [|c s]; cbn [take all_chars]; try done.
  intros [Hc Hs]%andb_true_iff. by rewrite Hc, IH.
Qed.

Lemma take_line k s t : take k (s +:+ t) = s +:+ t \/ take k (s +:+ t) = take k s \/ exists j, take k (s +:+ t) = s +:+ take j t.
Proof.
  destruct (Nat.le_gt_cases k (String.length s)) as [H|H].
  - right. left. revert s H. induction k as [|k IH]; intros [|c s] H; cbn in H |- *; try done; try lia.
    rewrite append_cons. cbn. f_equal. apply IH. lia.
  - do 2 right. exists (k - String.length s)%nat. revert k H. induction s as [|c s IH]; intros k H; cbn in H.
    + by rewrite Nat.sub_0_r.
    + destruct k as [|k]; [lia|]. rewrite append_cons. cbn [take String.length Nat.sub]. rewrite IH by lia. done.
Qed.

(** A torn line is the printed value, whole or in part, or the line. *)
Lemma torn_line k v : json_wf v ->
  take k (dumps v +:+ nl) = dumps v +:+ nl \/ all_chars printable (take k (dumps v +:+ nl)) = true.
Proof.
  intros Hw. destruct (take_line k (dumps v) nl) as [->|[->|[[|[|j]] ->]]]; [by left|right|right|by left..].
  - by apply take_printable, dumps_printable.
  - change (take 0 nl) with "". rewrite append_nil_r. by apply dumps_printable.
Qed.

(** An append that fails halfway costs its own entry and at most the next one. *)
Lemma torn_entry_cost vs1 v k vs2 : List.Forall log_entry_ok vs1 -> log_entry_ok v -> List.Forall log_entry_ok vs2 ->
  exists kept, (length kept <= 2)%nat /\
  parsed_lines (text_lines (log_text vs1 +:+ take k (dumps v +:+ nl) +:+ log_text vs2)) = vs1 ++ kept ++ skipn 1 vs2.
Proof.
  intros H1 [Hw Hd] H2. rewrite text_lines_log_app, parsed_lines_app, parsed_dicts by (try apply entries_wf; done).
  destruct (torn_line k v Hw) as [->|Hp].
  - assert (List.Forall log_entry_ok (v :: vs2)) as H3 by (constructor; done).
    rewrite append_assoc. change (dumps v +:+ nl +:+ log_text vs2) with (log_text (v :: vs2)).
    rewrite text_lines_log, parsed_dicts by (try apply entries_wf; done).
    exists (v :: firstn 1 vs2). split; [by destruct vs2; cbn; auto with arith|]. by destruct vs2.
  - set (t := take _ _) in *. clearbody t. unfold text_lines. rewrite text_lines_printable by done. change ("" +:+ t) with t.
    destruct vs2 as [|w vs2]; cbn [log_text skipn].
    + cbn [text_lines_from]. exists (parsed_lines (if truthy t then [t] else [])). rewrite app_nil_r. split; [|done].
      destruct (truthy t); cbn; [|lia]. destruct (parsed_line t); cbn; lia.
    + inversion H2 as [|? ? [Hw' _] H2']. subst. rewrite text_lines_printable by (by apply dumps_printable).
      change (nl +:+ ?s) with (String LF s). cbn [text_lines_from]. change (Ascii.eqb LF LF) with true. cbn beta iota.
      change (text_lines_from "" (log_text vs2)) with (text_lines (log_text vs2)).
      rewrite text_lines_log by (by apply entries_wf). cbn [parsed_lines]. rewrite parsed_dicts by done.
      exists (match parsed_line (t +:+ dumps w) with Some x => [x] | None => [] end). by destruct (parsed_line _); cbn; split; try lia.
Qed.
End restart.

(** C31: reading the end of a file backwards in chunks gives the same lines as
    reading the whole file and keeping the last ones, whatever the size of the
    chunks and wherever they cut lines or line ends, as long as the file is
    smaller than the byte budget. *)
Theorem tail_matches_whole_file decode chunk_default data max_lines max_bytes chunk : 0 < max_lines ->
  Z.of_nat (String.length data) < max_bytes ->
  _tail_file_lines decode chunk_default data max_lines max_bytes chunk = map decode (lastn (Z.to_nat max_lines) (text_lines data)).
Proof. apply tail_is_last_lines. Qed.

Definition demo_text : string := "one" +:+ String CR nl +:+ "two" +:+ nl +:+ "three".

Lemma tail_matches_whole_file_witness : _tail_file_lines (fun s => s) 4 demo_text 2 100 None = ["two"; "three"].
Proof. exact (tail_matches_whole_file (fun s => s) 4 demo_text 2 100 None eq_refl eq_refl). Defined.
