(* ===== verification/Monitor.v ===== *)
(** * Monitoring of retrieval and recall

    Alerts on the slow source ([_build_retrieval_alerts]), the metrics of
    retrieval, the monitor that samples recall quality on a schedule and keeps a
    history of the samples, the recommendation of alert thresholds from that
    history, and the warmer that repeats the most used searches.

    The settings that a payload only repeats are left out of it here. *)

From S2P Require Import Prelude PyStr PyTime Json JsonText Paths Policy OutboxMaint WriteBuffer Regex Lru Caches Ranking SourcePolicy Federated Sources ReadPath Recall Profiles TextLog.
From Stdlib Require Import Ascii QArith Qminmax.
Open Scope Z_scope.

Record monitor_config := mkMonitorConfig {
  RETRIEVAL_ALERTS_ENABLED : bool; RETRIEVAL_ALERT_LETTA_P95_MS : Q; RETRIEVAL_ALERT_LETTA_P99_MS : Q;
  RETRIEVAL_ALERT_LETTA_TIMEOUT_RATE : Q; RETRIEVAL_ALERT_MIN_REQUESTS : Z;
  RECALL_MONITOR_HISTORY_LIMIT : Z; RETRIEVAL_PATHWAY_WARMER_ENABLED : bool;
  RETRIEVAL_PATHWAY_WARMER_TOP_QUERIES : Z; RETRIEVAL_PATHWAY_WARMER_LIMIT : Z }.

(** The settings as the environment gives them, with their bounds. *)
Definition monitor_config_of (alerts_enabled : bool) (p95 p99 timeout_rate : Q) (min_requests history_limit : Z) (warmer : bool)
    (top_queries warm_limit : Z) : monitor_config :=
  let p95 := Qmax 1000 p95 in
  mkMonitorConfig alerts_enabled p95 (Qmax p95 p99) (Qmin 1 (Qmax 0 timeout_rate)) (Z.max 1 min_requests) (Z.max 24 history_limit)
    warmer (Z.max 1 top_queries) (Z.max 1 warm_limit).

Definition default_monitor : monitor_config := monitor_config_of true 30000 45000 (5 # 100) 20 288 true 20 8.

(** ** The warmer's record *)

Record warm_run := mkWarmRun {
  wr_candidates : Z; wr_warmed : Z; wr_skipped : Z; wr_errors : list (string * string); wr_duration_ms : Q }.
Inductive warm_result := WarmDisabled | WarmRan (r : warm_run).

Definition warm_errors (r : warm_result) : list (string * string) := match r with WarmDisabled => [] | WarmRan r => wr_errors r end.
Definition result_warmed (r : warm_result) : Z := match r with WarmDisabled => 0 | WarmRan r => wr_warmed r end.
Definition result_skipped (r : warm_result) : Z := match r with WarmDisabled => 0 | WarmRan r => wr_skipped r end.

Record warmer_state := mkWarmer {
  wm_last_run_at : option string; wm_last_duration_ms : option Q; wm_runs : Z; wm_last_warmed : Z; wm_last_skipped : Z;
  wm_last_error : option string; wm_last_result : option warm_result }.
Definition no_warmer : warmer_state := mkWarmer None None 0 0 0 None None.

(** [str(error)[:400] if error else None] *)
Definition error_text (error : option string) : option string :=
  match error with Some e => if truthy e then Some (take 400 e) else None | None => None end.

Definition _record_retrieval_pathway_warmer_run (now : Z) (result : option warm_result) (error : option string) (duration_ms : Q)
    (s : warmer_state) : warmer_state :=
  mkWarmer (Some (_utc_now now)) (Some (rnd 2 (Qmax 0 duration_ms))) (wm_runs s + 1)
    (match result with Some r => result_warmed r | None => wm_last_warmed s end)
    (match result with Some r => result_skipped r | None => wm_last_skipped s end)
    (error_text error) result.

(** ** Alerts *)

Inductive alert_value := Number (q : Q) | Text (s : string).
Record retrieval_alert := mkRetrievalAlert {
  ra_code : string; ra_severity : string; ra_source : option string; ra_metric : string; ra_value : alert_value;
  ra_threshold : option Q; ra_requests : option Z; ra_timeouts : option Z }.

(** An alert on recall, as it joins the others. *)
Definition of_recall (a : alert) : retrieval_alert :=
  mkRetrievalAlert (al_code a) (severity a) (al_source a) (metric a) (Number (al_value a)) (Some (threshold a)) (Some (al_requests a)) None.

Section monitor.
Variable C : monitor_config.
Variable R : recall_config.

(** The measurements of Letta in a latency snapshot: requests, timeouts, p95, p99. *)
Definition letta_alerts (m : source_latency) : list retrieval_alert :=
  let requests := Z.max 0 (sl_requests m) in
  let timeouts := Z.max 0 (sl_timeouts m) in
  let timeout_rate := rate timeouts requests in
  let enough := RETRIEVAL_ALERT_MIN_REQUESTS C <=? requests in
  let high code sev name value digits limit tos :=
    if enough && Qle_bool limit value
    then [mkRetrievalAlert code sev (Some RETRIEVAL_SOURCE_LETTA) name (Number (rnd digits value)) (Some limit) (Some requests) tos] else [] in
  high "letta_p95_high" "warn" "p95Ms" (p95Ms m) 3%nat (RETRIEVAL_ALERT_LETTA_P95_MS C) None
  ++ high "letta_p99_high" "warn" "p99Ms" (p99Ms m) 3%nat (RETRIEVAL_ALERT_LETTA_P99_MS C) None
  ++ high "letta_timeout_rate_high" "critical" "timeoutRate" timeout_rate 6%nat (RETRIEVAL_ALERT_LETTA_TIMEOUT_RATE C) (Some timeouts).

Definition warmer_alerts (w : warmer_state) : list retrieval_alert :=
  let last_error := strip (match wm_last_error w with Some e => e | None => "" end) in
  let count := Z.of_nat (length (match wm_last_result w with Some r => warm_errors r | None => [] end)) in
  if truthy last_error
  then [mkRetrievalAlert "retrieval_warmer_last_error" "critical" (Some "retrieval_pathway_warmer") "lastError" (Text last_error) None None None]
  else if 0 <? count
  then [mkRetrievalAlert "retrieval_warmer_run_errors" "warn" (Some "retrieval_pathway_warmer") "errors" (Number (qz count)) None None None]
  else [].

Record alerts := mkAlerts { alerts_enabled : bool; active : list retrieval_alert; alert_count : Z }.

Definition _build_retrieval_alerts (w : warmer_state) (latency_snapshot : list (string * source_latency)) : alerts :=
  if negb (RETRIEVAL_ALERTS_ENABLED C) then mkAlerts false [] 0
  else
    let found := match clookup RETRIEVAL_SOURCE_LETTA latency_snapshot with Some m => letta_alerts m | None => [] end ++ warmer_alerts w in
    mkAlerts true found (Z.of_nat (length found)).

(** ** Metrics *)

Record lifecycle_metrics := mkLifecycleMetrics { lc_enabled : bool; tracked_keys : Z; lc_contradictions : Z }.

Definition _retrieval_lifecycle_state_snapshot (F : lifecycle_config) (now : Z) (d : list (string * life_entry))
  : list (string * life_entry) * lifecycle_metrics :=
  if negb (RETRIEVAL_LIFECYCLE_ENABLED F) then (d, mkLifecycleMetrics false 0 0)
  else
    let '(d, snapshot) := _retrieval_lifecycle_snapshot F now d in
    (d, mkLifecycleMetrics true (Z.of_nat (length snapshot))
          (fold_left (fun n kv => n + Z.max 0 (contradictions (snd kv))) snapshot 0)).

Record cache_metrics := mkCacheMetrics { current_keys : Z; m_hits : Z; m_misses : Z; m_evictions : Z }.
Definition cache_metrics_of {A} (c : cache A) : cache_metrics :=
  mkCacheMetrics (Z.of_nat (length (entries c))) (cache_hits c) (cache_misses c) (cache_evictions c).

Record retrieval_metrics := mkMetrics {
  rm_updated_at : string; rm_pathway : cache_metrics; rm_backend : Z * Z * Z * Z * Z;
  rm_files : cache_metrics; rm_file_writes : Z; rm_inflight_refresh : Z; rm_refresh : Z * Z * Z; rm_stale_fallbacks : Z;
  rm_templates : cache_metrics; rm_stats_keys : Z; rm_top : list pathway_stat; rm_warmer : warmer_state;
  rm_letta_inflight : Z; rm_letta_warm : Z * Z * Z;
  rm_latency : list (string * source_latency); rm_quality : quality_snapshot; rm_lifecycle : lifecycle_metrics; rm_alerts : alerts }.

(** [active.extend(recall_alerts)] when there are any *)
Definition extend_alerts (a : alerts) (recall_alerts : list alert) : alerts :=
  match recall_alerts with
  | [] => a
  | _ => let all := active a ++ map of_recall recall_alerts in mkAlerts (alerts_enabled a) all (Z.of_nat (length all))
  end.

(** [now] is the time of day, [monotonic] the reading of the monotonic clock. *)
Definition _build_retrieval_metrics_payload {W} (E : search_env) (now monotonic : Z) (top_limit : Z) (q : recall_quality)
    (reads : read_state W) (letta : letta_search_state) (w : warmer_state) (s : search_state) : search_state * retrieval_metrics :=
  let top_limit := Z.max 1 (Z.min top_limit 100) in
  let '(stats', top) := _list_hot_retrieval_pathways (G E) monotonic top_limit (stats s) in
  let latency := _retrieval_latency_snapshot (latency s) in
  let recall_quality := _recall_quality_snapshot q in
  let alerts := extend_alerts (_build_retrieval_alerts w latency) (_build_recall_quality_alerts R recall_quality) in
  let '(life, lifecycle_state) := _retrieval_lifecycle_state_snapshot (LC E) monotonic (lifecycle s) in
  let p := pathway s in
  (set_life life (uuids s) (set_stats stats' s),
   mkMetrics (_utc_now now) (cache_metrics_of (Caches.memory p))
     (backend_hits p, backend_misses p, backend_errors p, backend_writes p, backend_write_errors p)
     (cache_metrics_of (files reads)) (writes reads) (Z.of_nat (length (inflight reads)))
     (refresh_started reads, refresh_completed reads, refresh_failed reads) (stale_fallbacks reads)
     (cache_metrics_of (templates s)) (Z.of_nat (length stats')) top w
     (Z.of_nat (length (warm_inflight letta))) (warm_started letta, warm_completed letta, warm_failed letta)
     latency recall_quality lifecycle_state alerts).
End monitor.

(** ** The monitor *)

Record monitor_state := mkMonitor {
  mon_history : list dict; mon_file : option string; mon_last_run_at : json; mon_last_duration_ms : option Q; mon_runs : Z;
  mon_last_error : option string; mon_last_sample : option dict }.
Definition no_monitor : monitor_state := mkMonitor [] None JNull None 0 None None.

Section sampling.
Variable C : monitor_config.
Variable R : recall_config.
Variables (parse_float : string -> option Q) (repr_float : Q -> string).
(** [row.decode("utf-8", errors="replace")] *)
Variable decode : string -> string.

Abbreviation num q := (JQ repr_float q).

(** The source with the highest error rate; a tie keeps the first. *)
Definition worst_source (by_source : list (string * (Z * Z * Q))) : Q * option string :=
  fold_left (fun acc sm =>
    let '(source, (requests, _, error_rate)) := sm in
    if Z.max 0 requests <=? 0 then acc
    else let error_rate := Qmax 0 error_rate in
         if Qltb (fst acc) error_rate then (error_rate, Some source) else acc) by_source (0%Q, None).

Definition _collect_recall_monitor_sample (now : Z) (q : recall_quality) (l : latency_state) (w : warmer_state) : dict :=
  let quality := _recall_quality_snapshot q in
  let latency := _retrieval_latency_snapshot l in
  let recall_alerts := _build_recall_quality_alerts R quality in
  let retrieval_alerts := _build_retrieval_alerts C w latency in
  let '(max_source_error_rate, max_source_error_name) := worst_source (bySource quality) in
  let '(letta_requests, letta_timeouts, letta_p95, letta_p99) :=
    match clookup RETRIEVAL_SOURCE_LETTA latency with
    | Some m => (Z.max 0 (sl_requests m), Z.max 0 (sl_timeouts m), Qmax 0 (p95Ms m), Qmax 0 (p99Ms m))
    | None => (0, 0, 0%Q, 0%Q)
    end in
  [("timestamp", JStr (_utc_now now)); ("requests", JInt (qs_requests quality)); ("noHitRate", num (noHitRate quality));
   ("lowConfidenceRate", num (lowConfidenceRate quality)); ("staleHitRate", num (staleHitRate quality));
   ("maxSourceErrorRate", num max_source_error_rate);
   ("maxSourceError", match max_source_error_name with Some n => JStr n | None => JNull end);
   ("lettaRequests", JInt letta_requests); ("lettaTimeoutRate", num (rate letta_timeouts letta_requests));
   ("lettaP95Ms", num letta_p95); ("lettaP99Ms", num letta_p99); ("recallAlertCount", JInt (Z.of_nat (length recall_alerts)));
   ("retrievalAlertCount", JInt (Z.of_nat (length (active retrieval_alerts))))].

(** [torn]: see [append_line]; a failure is only logged. *)
Definition _persist_recall_monitor_sample (torn : option nat) (sample : dict) (s : monitor_state) : monitor_state :=
  mkMonitor (mon_history s) (append_line torn (JObj sample) (mon_file s)) (mon_last_run_at s) (mon_last_duration_ms s) (mon_runs s)
    (mon_last_error s) (mon_last_sample s).

Definition history_limit : nat := Z.to_nat (RECALL_MONITOR_HISTORY_LIMIT C).

(** The sample, [duration_ms] after the start. *)
Definition _run_recall_monitor_once (torn : option nat) (now : Z) (duration_ms : Q) (sample : dict) (s : monitor_state) : monitor_state :=
  let s := _persist_recall_monitor_sample torn sample s in
  mkMonitor (deque_push history_limit sample (mon_history s)) (mon_file s)
    (JStr (str_or (jstr_or_empty (dget sample "timestamp")) (_utc_now now))) (Some (rnd 2 duration_ms)) (mon_runs s + 1) None (Some sample).

(** One round of the worker; [Raise] when taking the sample failed. *)
Definition _recall_monitor_worker (torn : option nat) (now : Z) (duration_ms : Q) (sample : result dict) (s : monitor_state) : monitor_state :=
  match sample with
  | Ok sample => _run_recall_monitor_once torn now duration_ms sample s
  | Raise exc => mkMonitor (mon_history s) (mon_file s) (JStr (_utc_now now)) (mon_last_duration_ms s) (mon_runs s)
                   (Some (take 400 (exn_str exc))) (mon_last_sample s)
  end.

(** The newest first. *)
Definition _recall_monitor_snapshot (limit : Z) (s : monitor_state) : list dict :=
  rev (lastn (Z.to_nat (Z.max 1 (Z.min limit (RECALL_MONITOR_HISTORY_LIMIT C)))) (mon_history s)).

Definition in_window (cutoff : Z) (row : dict) : bool :=
  match _parse_timestamp_to_datetime (dget row "timestamp") with Some t => cutoff <=? t | None => false end.

(** Without a sample in the window, the last samples there are. *)
Definition _recall_monitor_samples_for_window (now : Z) (lookback_hours : Q) (max_samples : Z) (s : monitor_state) : list dict :=
  let cutoff := now - round_half_even (Qmax 1 lookback_hours * 3600000000) in
  let n := Z.to_nat (Z.max 1 max_samples) in
  match List.filter (in_window cutoff) (mon_history s) with
  | [] => lastn n (mon_history s)
  | selected => lastn n selected
  end.

(** [chunk] and [max_bytes]: [MEMORY_WRITE_HISTORY_TAIL_CHUNK_BYTES] and
    [MEMORY_WRITE_HISTORY_LOAD_MAX_BYTES]. *)
Definition _load_recall_monitor_history (chunk max_bytes : Z) (s : monitor_state) : monitor_state :=
  match mon_file s with
  | None => s
  | Some data =>
      let rows := _tail_file_lines decode chunk data (Z.max 1 (RECALL_MONITOR_HISTORY_LIMIT C)) (Z.max 1048576 max_bytes) None in
      let loaded := dict_rows (parsed_lines rows) in
      let history := fold_left (fun h v => deque_push history_limit v h) (lastn history_limit loaded) [] in
      match loaded with
      | [] => mkMonitor history (mon_file s) (mon_last_run_at s) (mon_last_duration_ms s) (mon_runs s) (mon_last_error s) (mon_last_sample s)
      | _ => let latest := List.last loaded [] in
             mkMonitor history (mon_file s) (dget latest "timestamp") (mon_last_duration_ms s) (mon_runs s) (mon_last_error s) (Some latest)
      end
  end.

(** ** Recommended thresholds *)

Definition clean (values : list Q) : list Q := sort_by Qle_bool (map (Qmax 0) values).

Definition _recommend_rate_threshold (values : list Q) (current floor ceiling : Q) : Q :=
  match clean values with
  | [] => rnd 6 (Qmax floor (Qmin ceiling current))
  | sorted =>
      let p95 := _percentile sorted (95 # 100) in
      let p99 := _percentile sorted (99 # 100) in
      let suggested := Qmax (Qmax (current * (8 # 10)) (p95 * (12 # 10))) (p99 * (105 # 100)) in
      rnd 6 (Qmax floor (Qmin ceiling suggested))
  end.

Definition _recommend_latency_threshold (values : list Q) (current floor : Q) : Q :=
  match clean values with
  | [] => rnd 3 (Qmax floor current)
  | sorted =>
      let p95 := _percentile sorted (95 # 100) in
      let p99 := _percentile sorted (99 # 100) in
      rnd 3 (Qmax (Qmax (Qmax (current * (85 # 100)) (p95 * (115 # 100))) (p99 * (105 # 100))) floor)
  end.

(** [float(item.get(k, 0.0) or 0.0)] *)
Definition float_at (k : string) (item : dict) : result Q :=
  if jtruthy (dget item k) then to_float parse_float (dget item k) else Ok 0%Q.

Fixpoint floats_at (k : string) (samples : list dict) : result (list Q) :=
  match samples with
  | [] => Ok []
  | item :: rest => let! q := float_at k item in let! qs := floats_at k rest in Ok (q :: qs)
  end.

Record thresholds := mkThresholds {
  th_noHitRate : Q; th_lowConfidenceRate : Q; th_staleHitRate : Q; th_sourceErrorRate : Q; th_recall_min : Z;
  th_lettaP95Ms : Q; th_lettaP99Ms : Q; th_lettaTimeoutRate : Q; th_retrieval_min : Z }.

Definition current_thresholds : thresholds :=
  mkThresholds (RECALL_ALERT_NO_HIT_RATE R) (RECALL_ALERT_LOW_CONFIDENCE_RATE R) (RECALL_ALERT_STALE_HIT_RATE R)
    (RECALL_ALERT_SOURCE_ERROR_RATE R) (RECALL_ALERT_MIN_REQUESTS R) (RETRIEVAL_ALERT_LETTA_P95_MS C) (RETRIEVAL_ALERT_LETTA_P99_MS C)
    (RETRIEVAL_ALERT_LETTA_TIMEOUT_RATE C) (RETRIEVAL_ALERT_MIN_REQUESTS C).

Definition above_zero : list Q -> list Q := List.filter (Qltb 0).
Definition rate_threshold (values : list Q) (current : Q) : Q := _recommend_rate_threshold values current (1 # 1000) 1.

Record tuning := mkTuning {
  tu_lookback_hours : Q; tu_samples : Z; tu_min_samples : Z; tu_sufficient : bool; tu_current : thresholds; tu_recommended : thresholds;
  tu_env : list (string * Q); tu_warnings : list string }.

Definition env_of (t : thresholds) : list (string * Q) :=
  [("ORCH_RECALL_ALERT_NO_HIT_RATE", th_noHitRate t); ("ORCH_RECALL_ALERT_LOW_CONFIDENCE_RATE", th_lowConfidenceRate t);
   ("ORCH_RECALL_ALERT_STALE_HIT_RATE", th_staleHitRate t); ("ORCH_RECALL_ALERT_SOURCE_ERROR_RATE", th_sourceErrorRate t);
   ("ORCH_RETRIEVAL_ALERT_LETTA_P95_MS", th_lettaP95Ms t); ("ORCH_RETRIEVAL_ALERT_LETTA_P99_MS", th_lettaP99Ms t);
   ("ORCH_RETRIEVAL_ALERT_LETTA_TIMEOUT_RATE", th_lettaTimeoutRate t)].

Definition recommend (samples : list dict) : result thresholds :=
  let! no_hit := floats_at "noHitRate" samples in
  let! low_conf := floats_at "lowConfidenceRate" samples in
  let! stale := floats_at "staleHitRate" samples in
  let! source_error := floats_at "maxSourceErrorRate" samples in
  let! p95 := floats_at "lettaP95Ms" samples in
  let! p99 := floats_at "lettaP99Ms" samples in
  let! timeouts := floats_at "lettaTimeoutRate" samples in
  Ok (mkThresholds (rate_threshold no_hit (RECALL_ALERT_NO_HIT_RATE R)) (rate_threshold low_conf (RECALL_ALERT_LOW_CONFIDENCE_RATE R))
        (rate_threshold stale (RECALL_ALERT_STALE_HIT_RATE R)) (rate_threshold source_error (RECALL_ALERT_SOURCE_ERROR_RATE R))
        (RECALL_ALERT_MIN_REQUESTS R)
        (_recommend_latency_threshold (above_zero p95) (RETRIEVAL_ALERT_LETTA_P95_MS C) 1000)
        (_recommend_latency_threshold (above_zero p99) (RETRIEVAL_ALERT_LETTA_P99_MS C) (RETRIEVAL_ALERT_LETTA_P95_MS C))
        (rate_threshold timeouts (RETRIEVAL_ALERT_LETTA_TIMEOUT_RATE C)) (RETRIEVAL_ALERT_MIN_REQUESTS C)).

Definition _build_recall_tuning_payload (samples : list dict) (lookback_hours : Q) (min_samples : Z) : result tuning :=
  let n := Z.of_nat (length samples) in
  let! recommended := recommend samples in
  Ok (mkTuning lookback_hours n min_samples (min_samples <=? n) current_thresholds recommended (env_of recommended)
        (if n <? Z.max 1 min_samples
         then ["Only " +:+ str_of_Z n +:+ " recall monitor samples available; collect at least " +:+ str_of_Z min_samples
               +:+ " for stable tuning."] else [])).

(** ** Endpoints *)

(** The tuning with the newest sample of its window and the monitor's last samples. *)
Definition get_recall_tuning (now : Z) (lookback_hours : Q) (min_samples max_samples : Z) (s : monitor_state)
  : result (tuning * option dict * list dict) :=
  let lookback := Qmax 1 lookback_hours in
  let samples := _recall_monitor_samples_for_window now lookback max_samples s in
  let! t := _build_recall_tuning_payload samples lookback (Z.max 1 min_samples) in
  Ok (t, match samples with [] => None | _ => Some (List.last samples []) end, _recall_monitor_snapshot (Z.min max_samples 20) s).

Definition trigger_recall_monitor_snapshot (torn : option nat) (now : Z) (duration_ms : Q) (q : recall_quality) (l : latency_state)
    (w : warmer_state) (s : monitor_state) : monitor_state * dict :=
  let sample := _collect_recall_monitor_sample now q l w in (_run_recall_monitor_once torn now duration_ms sample s, sample).
End sampling.

(** ** The warmer *)

(** What the warmer uses: the search, and the list of the most used searches. *)
Class Searcher (S : Type) := {
  search_op : search_args -> ST S bundle;
  hot_pathways_op : Z -> ST S (list pathway_stat) }.

#[export] Instance federated_searcher (E : search_env) : Searcher search_state := {|
  search_op := federated_search_memory E;
  hot_pathways_op limit :=
    now <- monotonic_now E ;;
    s <- st_get ;;
    let '(stats', top) := _list_hot_retrieval_pathways (G E) now limit (stats s) in
    st_put (set_stats stats' s) ;;; st_ret top |}.

Section warmer.
Context {S : Type} `{Searcher S}.
Variable C : monitor_config.
Variable GC : retrieval_config.
(** The tasks finish in some order. *)
Variable finish_order : list pathway_stat -> list pathway_stat.

(** [str(value or "").strip() or None] *)
Definition stripped (value : option string) : option string :=
  let t := strip (opt_str value) in if truthy t then Some t else None.

Definition warm_args (entry : pathway_stat) (query : string) : search_args :=
  mkArgs query (Z.max 1 (Z.min (RETRIEVAL_PATHWAY_WARMER_LIMIT C) 20)) (stripped (st_project entry)) (stripped (st_topic entry))
    (st_sources entry) (map (fun kv => (fst kv, Some (snd kv))) (st_weights entry)) [] false
    (_normalize_retrieval_mode GC (str_or (st_mode entry) RETRIEVAL_MODE_BALANCED)) false.

Definition _run_retrieval_pathway_warm_query (entry : pathway_stat) : ST S bool :=
  let query := strip (st_query entry) in
  if negb (truthy query) then st_ret false
  else search_op (warm_args entry query) ;;; st_ret true.

(** [_warm(entry)] with the counters it shares. *)
Definition warm (acc : Z * Z * list (string * string)) (entry : pathway_stat) (s : S) : S * (Z * Z * list (string * string)) :=
  let '(warmed, skipped, errors) := acc in
  let query := strip (st_query entry) in
  if negb (truthy query) then (s, (warmed, skipped + 1, errors))
  else match _run_retrieval_pathway_warm_query entry s with
       | (s, Ok true) => (s, (warmed + 1, skipped, errors))
       | (s, Ok false) => (s, (warmed, skipped + 1, errors))
       | (s, Raise exc) => (s, (warmed, skipped, cset (take 120 query) (take 240 (exn_str exc)) errors))
       end.

Fixpoint warm_all (acc : Z * Z * list (string * string)) (l : list pathway_stat) (s : S) : S * (Z * Z * list (string * string)) :=
  match l with
  | [] => (s, acc)
  | entry :: rest => let '(s, acc) := warm acc entry s in warm_all acc rest s
  end.

Definition _warm_retrieval_pathways_once (duration_ms : Q) : ST S warm_result :=
  if negb (RETRIEVAL_PATHWAY_WARMER_ENABLED C) then st_ret WarmDisabled
  else
    top_queries <- hot_pathways_op (RETRIEVAL_PATHWAY_WARMER_TOP_QUERIES C) ;;
    fun s =>
    let '(s, (warmed, skipped, errors)) := warm_all (0, 0, []) (finish_order top_queries) s in
    (s, Ok (WarmRan (mkWarmRun (Z.of_nat (length top_queries)) warmed skipped errors (rnd 2 duration_ms)))).

(** One round of the worker. *)
Definition _retrieval_pathway_warmer_worker (now : Z) (duration_ms : Q) (sw : S * warmer_state) : S * warmer_state :=
  let '(s, w) := sw in
  match _warm_retrieval_pathways_once duration_ms s with
  | (s, Ok result) => (s, _record_retrieval_pathway_warmer_run now (Some result) None duration_ms w)
  | (s, Raise exc) => (s, _record_retrieval_pathway_warmer_run now None (Some (exn_str exc)) duration_ms w)
  end.

(** [{"ok": ..., "result": ...}]; an error of the list passes through. *)
Definition trigger_retrieval_pathway_warm (now : Z) (duration_ms : Q) (sw : S * warmer_state) : (S * warmer_state) * result (bool * warm_result) :=
  let '(s, w) := sw in
  match _warm_retrieval_pathways_once duration_ms s with
  | (s, Ok result) => ((s, _record_retrieval_pathway_warmer_run now (Some result) None duration_ms w),
                       Ok (match warm_errors result with [] => true | _ => false end, result))
  | (s, Raise exc) => ((s, w), Raise exc)
  end.
End warmer.
