(* ===== verification/MonitorFacts.v ===== *)
(** * Proofs about the monitor

    Recommended thresholds against the samples they come from, and against the
    bounds of the settings; the history of samples over a restart; the runs of
    the warmer. *)

From S2P Require Import Prelude PyStr PyTime Json JsonText Paths Policy OutboxMaint WriteBuffer Regex Lru Caches Ranking RankingFacts SourcePolicy SourcePolicyFacts Federated FederatedFacts Sources ReadPath Recall Profiles Tasks TextLog TextLogFacts Monitor.
From Stdlib Require Import Ascii QArith Qminmax Qround Lqa.
Open Scope Z_scope.

(** ** Rounding *)

Lemma rnd_near k q : (q - (1 # 2 * pow10 k) <= rnd k q)%Q.
Proof.
  destruct q as [n d]. unfold rnd, qz, inject_Z, Qmult. cbn [Qnum Qden]. rewrite Pos.mul_1_r.
  destruct (round_half_even_spec (n * Zpos (pow10 k)) d) as [[H _] _].
  set (z := round_half_even _) in *. clearbody z. unfold Qle, Qminus, Qplus, Qopp. cbn [Qnum Qden].
  set (p := pow10 k) in *. rewrite !Pos2Z.inj_mul. nia.
Qed.

Lemma rnd_at_least k a q : rnd k a = a -> (a <= q)%Q -> (a <= rnd k q)%Q.
Proof. intros Ha Hq. rewrite <- Ha. by apply rnd_mono. Qed.

(** ** Samples above a percentile *)

Lemma nth_below (l : list Q) k x : ascending l -> (k < length l)%nat -> (nth k l 0 <= x)%Q ->
  (length (List.filter (Qltb x) l) <= length l - 1 - k)%nat.
Proof.
  intros Ha Hk Hx. rewrite <- (firstn_skipn (S k) l) at 1. rewrite List.filter_app, length_app.
  assert (List.filter (Qltb x) (firstn (S k) l) = []) as ->.
  { destruct (List.filter _ _) as [|y ys] eqn:Ey; [done|exfalso].
    assert (In y (List.filter (Qltb x) (firstn (S k) l))) as Hy by (rewrite Ey; by left).
    apply List.filter_In in Hy as [Hin Hlt]. apply Qltb_true in Hlt. apply (In_nth _ _ 0%Q) in Hin as (i & Hi & <-).
    rewrite length_firstn in Hi. rewrite nth_firstn in Hlt. destruct (i <? S k)%nat eqn:E; [|apply Nat.ltb_ge in E; lia].
    pose proof (Ha i k ltac:(lia)). lra. }
  cbn [length]. pose proof (List.filter_length_le (Qltb x) (skipn (S k) l)) as Hf. rewrite length_skipn in Hf. lia.
Qed.

(** How many of [n] samples may lie above the percentile [pct]. *)
Definition allowed (n : nat) (pct : Q) : nat := (n - 1 - Z.to_nat (Qfloor (qz (Z.of_nat n - 1) * pct)))%nat.

Lemma above_percentile l pct : l <> [] -> (0 <= pct <= 1)%Q ->
  (length (List.filter (Qltb (_percentile (sort_by Qle_bool l) pct)) (sort_by Qle_bool l)) <= allowed (length l) pct)%nat.
Proof.
  intros Hl Hp. pose proof (sorted_ascending l) as Ha. rewrite <- (sort_by_length Qle_bool l).
  set (s := sort_by Qle_bool l) in *. assert (s <> []) as Hs.
  { intros E. apply Hl, length_zero_iff_nil. rewrite <- (sort_by_length Qle_bool). fold s. by rewrite E. }
  clearbody s. assert (rank_of s pct == qz (Z.of_nat (length s) - 1) * pct)%Q as Hr.
  { unfold rank_of. rewrite Q.min_r by lra. rewrite Q.max_r by lra. reflexivity. }
  unfold allowed. rewrite <- (Qfloor_comp _ _ Hr). destruct (rank_indices s (rank_of s pct) (rank_range s pct Hs)) as (H1 & H2 & _).
  apply nth_below; [done|lia|]. rewrite percentile_interpolates by done.
  apply (interpolate_between s Ha). by apply rank_range.
Qed.

Lemma clean_length values : length (clean values) = length values.
Proof. unfold clean. by rewrite sort_by_length, length_map. Qed.

Lemma count_map_max x values : (0 < x)%Q ->
  (length (List.filter (Qle_bool x) values) <= length (List.filter (Qle_bool x) (map (Qmax 0) values)))%nat.
Proof.
  intros Hx. induction values as [|v vs IH]; [done|]. cbn [List.filter map].
  destruct (Qle_bool x v) eqn:E1; destruct (Qle_bool x (Qmax 0 v)) eqn:E2; cbn [length]; try lia.
  apply Qle_bool_iff in E1. rewrite <- not_true_iff_false in E2. destruct E2. apply Qle_bool_iff.
  eapply Qle_trans; [exact E1|apply Q.le_max_r].
Qed.

Lemma filter_perm_length {A} (f : A -> bool) l l' : Permutation l l' -> length (List.filter f l) = length (List.filter f l').
Proof.
  induction 1 as [|x l l' _ IH|x y l|l1 l2 l3 _ IH1 _ IH2]; cbn [List.filter]; [done| | |congruence].
  - by destruct (f x); cbn; rewrite IH.
  - by destruct (f x), (f y).
Qed.

Lemma filter_length_impl {A} (f g : A -> bool) l : (forall x, f x = true -> g x = true) ->
  (length (List.filter f l) <= length (List.filter g l))%nat.
Proof.
  intros H. induction l as [|x l IH]; [done|]. cbn [List.filter]. specialize (H x).
  destruct (f x); [rewrite H by done; cbn; lia|]. destruct (g x); cbn; lia.
Qed.

(** A threshold above the 99th percentile is reached by few samples. *)
Lemma reached_by_few values t : values <> [] -> (0 < t)%Q -> (_percentile (clean values) (99 # 100) < t)%Q ->
  (length (List.filter (Qle_bool t) values) <= allowed (length values) (99 # 100))%nat.
Proof.
  intros Hv Ht Hp. etransitivity; [by apply count_map_max|].
  rewrite <- (filter_perm_length (Qle_bool t) _ _ (sort_by_perm Qle_bool (map (Qmax 0) values))).
  rewrite <- (length_map (Qmax 0) values). etransitivity; [|apply above_percentile; [by destruct values|lra]].
  apply filter_length_impl. intros x Hx. apply Qle_bool_iff in Hx. apply Qltb_true. unfold clean in Hp. lra.
Qed.

Lemma rate_above_p99 values current : values <> [] -> (_percentile (clean values) (99 # 100) < 1)%Q ->
  (_percentile (clean values) (99 # 100) < rate_threshold values current /\ 1 # 1000 <= rate_threshold values current)%Q.
Proof.
  intros Hv Hp. assert (clean values <> []) as Hc.
  { intros E. apply Hv, length_zero_iff_nil. by rewrite <- clean_length, E. }
  unfold rate_threshold, _recommend_rate_threshold. destruct (clean values) as [|c cs]; [done|].
  set (p := _percentile (c :: cs) (99 # 100)) in *. set (a := Qmax (current * _) _).
  set (x := Qmax (1 # 1000) _). assert (1 # 1000 <= x)%Q as Hx by apply Q.le_max_l.
  assert (rnd 6 (1 # 1000) == 1 # 1000)%Q as H1 by (vm_compute; reflexivity).
  assert (rnd 6 1 == 1)%Q as H2 by (vm_compute; reflexivity).
  assert (1 # 1000 <= rnd 6 x)%Q as Hr by (rewrite <- H1; by apply rnd_mono).
  split; [|done]. destruct (Qlt_le_dec p (1 # 1000)) as [Hs|Hs]; [lra|].
  destruct (Qlt_le_dec (p * (105 # 100)) 1) as [Hm|Hm].
  - assert (p * (105 # 100) <= x)%Q as Hpx.
    { eapply Qle_trans; [|apply Q.le_max_r]. apply Q.min_glb; [lra|apply Q.le_max_r]. }
    pose proof (rnd_near 6 x) as Hn. change (1 # 2 * pow10 6) with (1 # 2000000) in Hn. lra.
  - assert (1 <= x)%Q as Hx1.
    { eapply Qle_trans; [|apply Q.le_max_r]. apply Q.min_glb; [lra|]. eapply Qle_trans; [exact Hm|apply Q.le_max_r]. }
    pose proof (rnd_mono 6 1 x Hx1). lra.
Qed.

Lemma latency_above_p99 values current floor : values <> [] -> (1000 <= floor)%Q ->
  (_percentile (clean values) (99 # 100) < _recommend_latency_threshold values current floor /\
   1000 <= _recommend_latency_threshold values current floor)%Q.
Proof.
  intros Hv Hf. assert (clean values <> []) as Hc.
  { intros E. apply Hv, length_zero_iff_nil. by rewrite <- clean_length, E. }
  unfold _recommend_latency_threshold. destruct (clean values) as [|c cs]; [done|].
  set (p := _percentile (c :: cs) (99 # 100)) in *. set (x := Qmax _ floor).
  assert (floor <= x)%Q as Hx by apply Q.le_max_r. assert (p * (105 # 100) <= x)%Q as Hpx.
  { eapply Qle_trans; [|apply Q.le_max_l]. apply Q.le_max_r. }
  assert (rnd 3 1000 == 1000)%Q as H1 by (vm_compute; reflexivity).
  assert (1000 <= rnd 3 x)%Q as Hr by (rewrite <- H1; apply rnd_mono; lra).
  split; [|done]. pose proof (rnd_near 3 x) as Hn. change (1 # 2 * pow10 3) with (1 # 2000) in Hn.
  destruct (Qlt_le_dec p 1000) as [Hs|Hs]; lra.
Qed.

(** With the recommended threshold few of the samples it was computed from
    would have raised the alert: at most the share above the 99th percentile,
    one of 100 samples.  For a rate this holds unless that percentile is already
    1. *)
Theorem recommended_thresholds_rarely_fire values current floor : values <> [] ->
  ((_percentile (clean values) (99 # 100) < 1)%Q ->
   (length (List.filter (Qle_bool (rate_threshold values current)) values) <= allowed (length values) (99 # 100))%nat) /\
  ((1000 <= floor)%Q ->
   (length (List.filter (Qle_bool (_recommend_latency_threshold values current floor)) values) <= allowed (length values) (99 # 100))%nat).
Proof.
  intros Hv. split; intros H.
  - destruct (rate_above_p99 values current Hv H). apply reached_by_few; [done|lra|done].
  - destruct (latency_above_p99 values current floor Hv H). apply reached_by_few; [done|lra|done].
Qed.

Lemma recommended_thresholds_rarely_fire_witness :
  let values := [1 # 10; 3 # 10; 2 # 10; 4 # 10]%Q in
  (length (List.filter (Qle_bool (rate_threshold values (25 # 100))) values) <= 1)%nat.
Proof.
  cbn zeta. refine (proj1 (recommended_thresholds_rarely_fire [1 # 10; 3 # 10; 2 # 10; 4 # 10]%Q (25 # 100) 1000 ltac:(discriminate)) _).
  vm_compute. reflexivity.
Defined.

(** ** Larger samples, larger thresholds *)

Abbreviation dominated := (Forall2 Qle).

Lemma Qle_bool_gt a b : Qle_bool a b = false -> (b < a)%Q.
Proof. intros H. apply Qltb_true. unfold Qltb. by rewrite H. Qed.

Lemma insert_dominated x y l l' : (x <= y)%Q -> dominated l l' ->
  StronglySorted (fun a b => Qle_bool a b = true) l -> StronglySorted (fun a b => Qle_bool a b = true) l' ->
  dominated (insert_by Qle_bool x l) (insert_by Qle_bool y l').
Proof.
  intros Hxy Hd. revert x y Hxy. induction Hd as [|a b l l' Hab Hd IH]; intros x y Hxy Hs Hs'; cbn [insert_by]; [by repeat constructor|].
  inversion Hs as [|? ? Hs1 Hall]. inversion Hs' as [|? ? Hs1' Hall']. subst.
  assert (forall z m, List.Forall (fun b => Qle_bool z b = true) m -> insert_by Qle_bool z m = z :: m) as Hhead.
  { intros z [|w m] Hm; [done|]. inversion Hm as [|? ? Hw]. cbn [insert_by]. by rewrite Hw. }
  destruct (Qle_bool x a) eqn:E1; destruct (Qle_bool y b) eqn:E2;
    [apply Qle_bool_iff in E1, E2|apply Qle_bool_iff in E1; apply Qle_bool_gt in E2|apply Qle_bool_gt in E1; apply Qle_bool_iff in E2
    |apply Qle_bool_gt in E1, E2].
  - constructor; [done|]. by constructor.
  - constructor; [lra|]. rewrite <- (Hhead a l) by done. apply IH; [lra|done|done].
  - constructor; [lra|]. rewrite <- (Hhead b l') by done. apply IH; [lra|done|done].
  - constructor; [done|]. by apply IH.
Qed.

Lemma sort_strongly l : StronglySorted (fun a b => Qle_bool a b = true) (sort_by Qle_bool l).
Proof.
  apply sort_by_sorted.
  - intros x y. rewrite !Qle_bool_iff. destruct (Qlt_le_dec x y); [left; lra|by right].
  - intros x y z. rewrite !Qle_bool_iff. lra.
Qed.

Lemma sort_dominated l l' : dominated l l' -> dominated (sort_by Qle_bool l) (sort_by Qle_bool l').
Proof. induction 1; cbn [sort_by]; [constructor|]. apply insert_dominated; auto using sort_strongly. Qed.

Lemma clean_dominated l l' : dominated l l' -> dominated (clean l) (clean l').
Proof.
  intros H. apply sort_dominated. induction H as [|x y l l' Hxy H IH]; cbn [map]; constructor; [|done].
  by apply Q.max_le_compat_l.
Qed.

Lemma at_rank_dominated l l' i : dominated l l' -> (at_rank l i <= at_rank l' i)%Q.
Proof.
  unfold at_rank. intros H. generalize (Z.to_nat i).
  induction H as [|x y l l' Hxy H IH]; intros [|n]; cbn; [lra|lra|done|apply IH].
Qed.

Lemma percentile_dominated l l' pct : l <> [] -> dominated (clean l) (clean l') ->
  (_percentile (clean l) pct <= _percentile (clean l') pct)%Q.
Proof.
  intros Hl Hd. pose proof (Forall2_length _ _ _ Hd) as Hn. assert (clean l <> []) as Hc.
  { intros E. apply Hl, length_zero_iff_nil. by rewrite <- clean_length, E. }
  assert (clean l' <> []) as Hc' by (intros E; rewrite E in Hn; by destruct (clean l)).
  rewrite !percentile_interpolates by done. assert (rank_of (clean l') pct = rank_of (clean l) pct) as ->.
  { unfold rank_of. by rewrite Hn. }
  set (r := rank_of _ _). unfold interpolate.
  pose proof (at_rank_dominated _ _ (Qfloor r) Hd). pose proof (at_rank_dominated _ _ (Qceiling r) Hd).
  assert (0 <= r - qz (Qfloor r))%Q by (pose proof (Qfloor_le r); unfold qz; lra).
  assert (r - qz (Qfloor r) <= 1)%Q.
  { pose proof (Qlt_floor r) as Hf. unfold qz. rewrite inject_Z_plus in Hf. change (inject_Z 1) with 1%Q in Hf. lra. }
  set (w := (r - qz (Qfloor r))%Q) in *. nra.
Qed.

Lemma latency_monotone l l' c c' f f' : dominated l l' -> (c <= c')%Q -> (f <= f')%Q ->
  (_recommend_latency_threshold l c f <= _recommend_latency_threshold l' c' f')%Q.
Proof.
  intros Hd Hc Hf. unfold _recommend_latency_threshold. pose proof (clean_dominated l l' Hd) as Hcd.
  pose proof (Forall2_length _ _ _ Hcd) as Hn.
  destruct (clean l) as [|x xs] eqn:E1, (clean l') as [|y ys] eqn:E2; try done.
  - apply rnd_mono. by apply Q.max_le_compat.
  - assert (l <> []) as Hl by (intros ->; done). rewrite <- E1, <- E2 in *. apply rnd_mono.
    apply Q.max_le_compat; [|done]. apply Q.max_le_compat; [apply Q.max_le_compat|].
    + lra.
    + pose proof (percentile_dominated l l' (95 # 100) Hl Hcd). lra.
    + pose proof (percentile_dominated l l' (99 # 100) Hl Hcd). lra.
Qed.

(** ** Settings that follow the recommendation *)

Lemma rate_threshold_range values current : (1 # 1000 <= rate_threshold values current <= 1)%Q.
Proof.
  unfold rate_threshold, _recommend_rate_threshold.
  assert (forall x, 1 # 1000 <= rnd 6 (Qmax (1 # 1000) (Qmin 1 x)) <= 1)%Q as H.
  { intros x. assert (rnd 6 (1 # 1000) == 1 # 1000)%Q as H1 by (vm_compute; reflexivity).
    assert (rnd 6 1 == 1)%Q as H2 by (vm_compute; reflexivity). split.
    - pose proof (rnd_mono 6 _ _ (Q.le_max_l (1 # 1000) (Qmin 1 x))). lra.
    - assert (Qmax (1 # 1000) (Qmin 1 x) <= 1)%Q as Hx by (apply Q.max_lub; [lra|apply Q.le_min_l]).
      pose proof (rnd_mono 6 _ _ Hx). lra. }
  destruct (clean values); apply H.
Qed.

Lemma latency_floor values current floor : (1000 <= floor)%Q -> (1000 <= _recommend_latency_threshold values current floor)%Q.
Proof.
  intros Hf. assert (rnd 3 1000 == 1000)%Q as H1 by (vm_compute; reflexivity). unfold _recommend_latency_threshold.
  assert (forall x, floor <= x -> 1000 <= rnd 3 x)%Q as H by (intros x Hx; pose proof (rnd_mono 3 1000 x ltac:(lra)); lra).
  destruct (clean values); apply H; [apply Q.le_max_l|apply Q.le_max_r].
Qed.

Lemma floats_dominated parse_float (samples : list dict) l l' k k' :
  (forall item q q', In item samples -> float_at parse_float k item = Ok q -> float_at parse_float k' item = Ok q' -> (0 < q <= q')%Q) ->
  floats_at parse_float k samples = Ok l -> floats_at parse_float k' samples = Ok l' ->
  above_zero l = l /\ above_zero l' = l' /\ dominated l l'.
Proof.
  revert l l'. induction samples as [|item rest IH]; intros l l' Hs; cbn [floats_at]; [intros [= <-] [= <-]; auto|].
  intros H1 H2. destruct (float_at parse_float k item) as [q|] eqn:E1; [|done]. destruct (float_at parse_float k' item) as [q'|] eqn:E2; [|done].
  cbn [rbind] in *. destruct (floats_at parse_float k rest) as [qs|]; [|done]. destruct (floats_at parse_float k' rest) as [qs'|]; [|done].
  injection H1 as <-. injection H2 as <-. destruct (Hs item q q' (or_introl eq_refl) E1 E2) as [Hq Hqq].
  destruct (IH qs qs') as (Hp & Hp' & Hd); [|done|done|].
  { intros i ? ? Hi. apply Hs. by right. }
  unfold above_zero in *. cbn [List.filter]. rewrite (proj2 (Qltb_true 0 q)), (proj2 (Qltb_true 0 q')) by lra. rewrite Hp, Hp'. auto.
Qed.

(** The measurements of a sample are consistent: a positive p95, at most the p99. *)
Definition letta_measured (parse_float : string -> option Q) (item : dict) : Prop :=
  forall p95 p99, float_at parse_float "lettaP95Ms" item = Ok p95 -> float_at parse_float "lettaP99Ms" item = Ok p99 -> (0 < p95 <= p99)%Q.

Lemma recommended_letta C R parse_float samples t : (1000 <= RETRIEVAL_ALERT_LETTA_P95_MS C <= RETRIEVAL_ALERT_LETTA_P99_MS C)%Q ->
  List.Forall (letta_measured parse_float) samples -> recommend C R parse_float samples = Ok t ->
  (1000 <= th_lettaP95Ms t <= th_lettaP99Ms t)%Q /\ (0 <= th_lettaTimeoutRate t <= 1)%Q.
Proof.
  intros [H95 H99] Hm Hr. unfold recommend in Hr.
  do 4 (destruct (floats_at parse_float _ samples) as [?|]; [cbn [rbind] in Hr|done]).
  destruct (floats_at parse_float "lettaP95Ms" samples) as [l|] eqn:E1; [cbn [rbind] in Hr|done].
  destruct (floats_at parse_float "lettaP99Ms" samples) as [l'|] eqn:E2; [cbn [rbind] in Hr|done].
  destruct (floats_at parse_float "lettaTimeoutRate" samples) as [to|]; [cbn [rbind] in Hr|done]. injection Hr as <-.
  cbn [th_lettaP95Ms th_lettaP99Ms th_lettaTimeoutRate]. destruct (floats_dominated parse_float samples l l' "lettaP95Ms" "lettaP99Ms") as (-> & -> & Hd); [|done|done|].
  { intros item q q' Hi. rewrite List.Forall_forall in Hm. by apply Hm. }
  split; [split|].
  - apply latency_floor. lra.
  - by apply latency_monotone.
  - pose proof (rate_threshold_range to (RETRIEVAL_ALERT_LETTA_TIMEOUT_RATE C)). lra.
Qed.

(** The recommended alert settings of the slow source are in order, and a
    service started with them runs with exactly these values: the bounds the
    settings are put in do not change them. *)
Theorem recommended_settings_hold C R parse_float samples t on min_requests history warmer top limit :
  C = monitor_config_of on (RETRIEVAL_ALERT_LETTA_P95_MS C) (RETRIEVAL_ALERT_LETTA_P99_MS C) (RETRIEVAL_ALERT_LETTA_TIMEOUT_RATE C)
        min_requests history warmer top limit ->
  List.Forall (letta_measured parse_float) samples -> recommend C R parse_float samples = Ok t ->
  let C' := monitor_config_of on (th_lettaP95Ms t) (th_lettaP99Ms t) (th_lettaTimeoutRate t) min_requests history warmer top limit in
  (RETRIEVAL_ALERT_LETTA_P95_MS C' == th_lettaP95Ms t /\ RETRIEVAL_ALERT_LETTA_P99_MS C' == th_lettaP99Ms t /\
   RETRIEVAL_ALERT_LETTA_TIMEOUT_RATE C' == th_lettaTimeoutRate t)%Q.
Proof.
  intros HC Hm Hr C'. assert (1000 <= RETRIEVAL_ALERT_LETTA_P95_MS C <= RETRIEVAL_ALERT_LETTA_P99_MS C)%Q as Hc.
  { rewrite HC. cbn. split; apply Q.le_max_l. }
  destruct (recommended_letta C R parse_float samples t Hc Hm Hr) as [[H1 H2] H3]. unfold C', monitor_config_of.
  cbn [RETRIEVAL_ALERT_LETTA_P95_MS RETRIEVAL_ALERT_LETTA_P99_MS RETRIEVAL_ALERT_LETTA_TIMEOUT_RATE].
  rewrite (Q.max_r 1000) by done. rewrite (Q.max_r (th_lettaP95Ms t)) by done. rewrite (Q.max_r 0) by lra. rewrite Q.min_r by lra.
  repeat split; reflexivity.
Qed.

Definition demo_read (r : string) : option Q := if r =s "1200.0" then Some 1200%Q else if r =s "2500.0" then Some 2500%Q else Some 0%Q.
Definition demo_monitor_row : dict := [("lettaP95Ms", JFloat "1200.0"); ("lettaP99Ms", JFloat "2500.0")].

Lemma recommended_settings_hold_witness : exists t,
  recommend default_monitor default_recall demo_read [demo_monitor_row; demo_monitor_row] = Ok t /\
  (RETRIEVAL_ALERT_LETTA_P95_MS (monitor_config_of true (th_lettaP95Ms t) (th_lettaP99Ms t) (th_lettaTimeoutRate t) 20 288 true 20 8)
   == th_lettaP95Ms t)%Q.
Proof.
  destruct (recommend default_monitor default_recall demo_read [demo_monitor_row; demo_monitor_row]) as [t|] eqn:Et; [|vm_compute in Et; discriminate].
  exists t. split; [reflexivity|].
  refine (proj1 (recommended_settings_hold default_monitor default_recall demo_read [demo_monitor_row; demo_monitor_row] t true 20 288 true 20 8 _ _ Et)).
  - vm_compute. reflexivity.
  - assert (letta_measured demo_read demo_monitor_row) as Hd.
    { intros p q H1 H2. vm_compute in H1, H2. injection H1 as <-. injection H2 as <-. split; vm_compute; [reflexivity|discriminate]. }
    constructor; [exact Hd|constructor; [exact Hd|constructor]].
Defined.

(** ** The history *)

Section history.
Variable C : monitor_config.
Hypothesis limit_pos : 0 < RECALL_MONITOR_HISTORY_LIMIT C.
Variable decode : string -> string.
Hypothesis decode_ascii : forall s, all_chars printable s = true -> decode s = s.

(** The runs of the monitor with their clock readings. *)
Definition run_samples (runs : list (Z * Q * dict)) (s : monitor_state) : monitor_state :=
  fold_left (fun s r => _run_recall_monitor_once C None (fst (fst r)) (snd (fst r)) (snd r) s) runs s.

Lemma run_history runs s : (length (mon_history s) <= history_limit C)%nat ->
  mon_history (run_samples runs s) = lastn (history_limit C) (mon_history s ++ map snd runs) /\
  mon_file (run_samples runs s) = fold_left (fun f v => append_line None v f) (map (fun r => JObj (snd r)) runs) (mon_file s) /\
  mon_runs (run_samples runs s) = mon_runs s + Z.of_nat (length runs).
Proof.
  revert s. induction runs as [|[[now ms] d] runs IH]; intros s Hs; cbn [run_samples fold_left map].
  - rewrite app_nil_r, lastn_all by done. repeat split. cbn. lia.
  - fold (run_samples runs). destruct (IH (_run_recall_monitor_once C None now ms d s)) as (H1 & H2 & H3).
    { unfold _run_recall_monitor_once, deque_push. cbn [mon_history]. rewrite lastn_length. lia. }
    unfold run_samples in *. cbn [fst snd] in *. rewrite H1, H2, H3. cbn [mon_history mon_file mon_runs _run_recall_monitor_once _persist_recall_monitor_sample].
    split; [|split; [done|cbn [length]; lia]]. unfold deque_push.
    destruct (map snd runs) as [|x xs]; [|by rewrite lastn_snoc, <- app_assoc]. rewrite app_nil_r.
    apply lastn_all. rewrite lastn_length. lia.
Qed.

Lemma run_last runs s : runs <> [] -> mon_last_sample (run_samples runs s) = Some (List.last (map snd runs) []).
Proof.
  revert s. induction runs as [|r runs IH]; intros s H; [done|]. destruct runs as [|r' runs]; [done|].
  change (run_samples (r :: r' :: runs) s) with (run_samples (r' :: runs) (_run_recall_monitor_once C None (fst (fst r)) (snd (fst r)) (snd r) s)).
  by rewrite IH.
Qed.

Lemma restart_history runs chunk bytes : List.Forall (fun r => json_wf (JObj (snd r))) runs ->
  Z.of_nat (String.length (log_text (map (fun r => JObj (snd r)) runs))) < Z.max 1048576 bytes ->
  let s := run_samples runs no_monitor in
  let s' := _load_recall_monitor_history C decode chunk bytes (mkMonitor [] (mon_file s) JNull None 0 None None) in
  mon_history s = lastn (history_limit C) (map snd runs) /\ mon_history s' = mon_history s /\ mon_last_sample s' = mon_last_sample s.
Proof.
  intros Hw Hb s s'. destruct (run_history runs no_monitor) as (H1 & H2 & _); [cbn; lia|]. cbn [no_monitor mon_history app] in H1.
  split; [done|]. unfold s', _load_recall_monitor_history. cbn [mon_file]. fold s in H1, H2. rewrite H2. clear s'.
  destruct runs as [|r runs]; [by rewrite H1|]. rewrite appended. cbn [map]. cbn [no_monitor mon_file].
  change ("" +:+ ?x) with x. set (vs := JObj (snd r) :: _) in *. assert (vs = map JObj (map snd (r :: runs))) as Hvs.
  { unfold vs. cbn [map]. by rewrite map_map. }
  assert (List.Forall log_entry_ok vs) as Hok.
  { rewrite Hvs, map_map, List.Forall_map. eapply List.Forall_impl; [|exact Hw]. intros x Hx. by split. }
  rewrite (tail_log decode decode_ascii chunk vs) by (try apply entries_wf; done || lia).
  rewrite parsed_dicts by (by apply Forall_lastn). rewrite Z.max_r by lia. fold (history_limit C).
  rewrite Hvs, <- map_lastn, dict_rows_map. set (ds := map snd (r :: runs)) in *.
  assert (0 < history_limit C)%nat as Hl by (unfold history_limit; lia).
  rewrite fold_deque by (cbn; lia). cbn [app]. rewrite (lastn_all _ (lastn (history_limit C) (lastn _ _))) by (rewrite lastn_length; lia).
  rewrite (lastn_all _ (lastn _ ds)) by (rewrite lastn_length; lia).
  destruct (lastn (history_limit C) ds) as [|x xs] eqn:E.
  { apply (f_equal length) in E. rewrite lastn_length in E. unfold ds in E. cbn in E. lia. }
  cbn [mon_history mon_last_sample]. split; [by rewrite H1|]. rewrite <- E. unfold s. rewrite run_last by done.
  fold ds. by rewrite last_lastn.
Qed.

(** The samples of a window. *)
Lemma window_samples now lookback n s row : In row (_recall_monitor_samples_for_window now lookback n s) ->
  In row (mon_history s) /\
  (in_window (now - round_half_even (Qmax 1 lookback * 3600000000)) row = true \/
   forall row', In row' (mon_history s) -> in_window (now - round_half_even (Qmax 1 lookback * 3600000000)) row' = false).
Proof.
  unfold _recall_monitor_samples_for_window. set (w := in_window _). intros H.
  destruct (List.filter w (mon_history s)) as [|x xs] eqn:E.
  - split; [by eapply In_lastn|]. right. intros row' Hr. destruct (w row') eqn:Ew; [|done].
    assert (In row' (List.filter w (mon_history s))) as Hf by (by apply List.filter_In). by rewrite E in Hf.
  - assert (In row (x :: xs)) as Hr by (by eapply In_lastn). rewrite <- E in Hr. apply List.filter_In in Hr as []. auto.
Qed.
End history.

(** The history of the monitor survives a restart: the samples reloaded
    from the file are the ones the running service held, the last
    [RECALL_MONITOR_HISTORY_LIMIT] of all that were taken, whatever the size of
    the chunks the file is read in. *)
Theorem monitor_survives_restart C decode chunk bytes runs : 0 < RECALL_MONITOR_HISTORY_LIMIT C ->
  (forall s, all_chars printable s = true -> decode s = s) ->
  List.Forall (fun r => json_wf (JObj (snd r))) runs ->
  Z.of_nat (String.length (log_text (map (fun r => JObj (snd r)) runs))) < Z.max 1048576 bytes ->
  let s := run_samples C runs no_monitor in
  let s' := _load_recall_monitor_history C decode chunk bytes (mkMonitor [] (mon_file s) JNull None 0 None None) in
  mon_history s = lastn (history_limit C) (map snd runs) /\ mon_history s' = mon_history s /\ mon_last_sample s' = mon_last_sample s.
Proof. intros Hl Hd. by apply restart_history. Qed.

Definition demo_runs : list (Z * Q * dict) :=
  [(1700000000000000, 1%Q, [("timestamp", JStr "a"); ("requests", JInt 3)]); (1700000900000000, 2%Q, [("timestamp", JStr "b"); ("requests", JInt 4)])].

Lemma monitor_survives_restart_witness :
  mon_history (_load_recall_monitor_history default_monitor (fun s => s) 7 0
    (mkMonitor [] (mon_file (run_samples default_monitor demo_runs no_monitor)) JNull None 0 None None)) = map snd demo_runs.
Proof.
  destruct (monitor_survives_restart default_monitor (fun s => s) 7 0 demo_runs) as (H1 & H2 & _).
  - vm_compute. reflexivity.
  - done.
  - repeat (constructor; [split; [repeat (constructor; [cbn; intuition discriminate|]); constructor|cbn; tauto]|]). constructor.
  - vm_compute. reflexivity.
  - rewrite H2, H1. vm_compute. reflexivity.
Defined.

(** ** The warmer *)

Section warming.
Context {S : Type} `{Searcher S}.
Variable C : monitor_config.
Variable GC : retrieval_config.

Definition warm_key (entry : pathway_stat) : string := take 120 (strip (st_query entry)).
Abbreviation total acc := (fst (fst acc) + snd (fst acc) + Z.of_nat (length (snd acc))).

Lemma cset_size {A} k (v : A) d : (length d <= length (cset k v d) <= 1 + length d)%nat /\
  (~ In k (map fst d) -> length (cset k v d) = Datatypes.S (length d)) /\ (forall x, In x (map fst (cset k v d)) -> x = k \/ In x (map fst d)).
Proof.
  induction d as [|[k' v'] d (IH1 & IH2 & IH3)]; cbn [cset map fst length]; [naive_solver lia|].
  destruct (k =s k') eqn:E; blift; cbn [length map fst].
  - subst. split; [lia|]. split; [intros []; by left|]. intros x [->|Hx]; auto. right. by right.
  - split; [lia|]. split; [intros Hn; rewrite IH2; [done|intros Hi; apply Hn; by right]|].
    intros x [->|Hx]; [right; by left|]. destruct (IH3 x Hx); [by left|right; by right].
Qed.

(** One search adds one to the counters, or the error of its query. *)
Lemma warm_one acc entry s : let acc' := snd (warm C GC acc entry s) in
  total acc <= total acc' <= total acc + 1 /\ fst (fst acc) <= fst (fst acc') /\ snd (fst acc) <= snd (fst acc') /\
  (~ In (warm_key entry) (map fst (snd acc)) -> total acc' = total acc + 1) /\
  (forall k, In k (map fst (snd acc')) -> k = warm_key entry \/ In k (map fst (snd acc))).
Proof.
  destruct acc as [[w k] errors]. unfold warm. fold (warm_key entry).
  destruct (negb (truthy (strip (st_query entry)))); [cbn [fst snd]; naive_solver lia|].
  destruct (_run_retrieval_pathway_warm_query C GC entry s) as [s' [[]|e]]; cbn [fst snd]; [naive_solver lia..|].
  destruct (cset_size (warm_key entry) (take 240 (exn_str e)) errors) as (H1 & H2 & H3).
  split; [lia|]. split; [lia|]. split; [lia|]. split; [|done]. intros Hn. rewrite H2 by done. lia.
Qed.

Lemma warm_all_counts l : forall acc s, let acc' := snd (warm_all C GC acc l s) in
  total acc <= total acc' <= total acc + Z.of_nat (length l) /\ fst (fst acc) <= fst (fst acc') /\ snd (fst acc) <= snd (fst acc') /\
  (List.NoDup (map warm_key l) -> (forall e, In e l -> ~ In (warm_key e) (map fst (snd acc))) -> total acc' = total acc + Z.of_nat (length l)).
Proof.
  induction l as [|entry l IH]; intros acc s; cbn [warm_all]; [cbn [snd length]; split; [lia|]; split; [lia|]; split; [lia|]; lia|].
  destruct (warm_one acc entry s) as (H1 & H2 & H3 & H4 & H5). destruct (warm C GC acc entry s) as [s1 acc1]. cbn [snd] in *.
  destruct (IH acc1 s1) as (I1 & I2 & I3 & I4). cbn [length]. split; [lia|]. split; [lia|]. split; [lia|].
  cbn [map]. intros Hnd Hfresh. inversion Hnd as [|? ? Hni Hnd']. subst. rewrite I4, H4; [lia|apply Hfresh; by left|done|].
  intros e He Hin. apply H5 in Hin as [Hk|Hin]; [|by apply (Hfresh e); [right|]]. apply Hni. rewrite <- Hk. by apply in_map.
Qed.
End warming.

(** A run of the warmer accounts for its candidates: those warmed, skipped
    and failed are at most all of them, and exactly all when no two failing
    queries share their first 120 characters; it never fails because a search
    does, whichever order the searches finish in. *)
Theorem warmer_accounts {S} `{Searcher S} C GC order ms s s1 top : RETRIEVAL_PATHWAY_WARMER_ENABLED C = true ->
  (forall l, Permutation (order l) l) -> hot_pathways_op (RETRIEVAL_PATHWAY_WARMER_TOP_QUERIES C) s = (s1, Ok top) ->
  exists s' r, _warm_retrieval_pathways_once C GC order ms s = (s', Ok (WarmRan r)) /\ wr_candidates r = Z.of_nat (length top) /\
  0 <= wr_warmed r /\ 0 <= wr_skipped r /\
  wr_warmed r + wr_skipped r + Z.of_nat (length (wr_errors r)) <= wr_candidates r /\
  (List.NoDup (map warm_key top) -> wr_warmed r + wr_skipped r + Z.of_nat (length (wr_errors r)) = wr_candidates r).
Proof.
  intros Hon Hp Htop. unfold _warm_retrieval_pathways_once. rewrite Hon. cbn [negb]. unfold st_bind. rewrite Htop.
  destruct (warm_all_counts C GC (order top) (0, 0, []) s1) as (H1 & H2 & H3 & H4).
  destruct (warm_all C GC (0, 0, []) (order top) s1) as [s' [[w k] errors]]. cbn [fst snd length map] in *.
  rewrite (Permutation_length (Hp top)) in H1, H4. eexists _, _. split; [reflexivity|]. cbn [wr_candidates wr_warmed wr_skipped wr_errors].
  split; [done|]. split; [lia|]. split; [lia|]. split; [lia|]. intros Hnd. rewrite H4; [lia| |by intros ? _ []].
  eapply Permutation_NoDup; [|exact Hnd]. apply Permutation_map. symmetry. apply Hp.
Qed.

(** ** Warming leaves the statistics alone *)

Section statistics.
Variable E : search_env.

Definition keeps_stats {A} (m : ST search_state A) : Prop := forall s, stats (fst (m s)) = stats s.

Lemma stats_kept_ret {A} (a : A) : keeps_stats (st_ret a).
Proof. done. Qed.
Lemma stats_kept_lift {A} (r : result A) : keeps_stats (st_lift r).
Proof. done. Qed.
Lemma stats_kept_tick : keeps_stats tick.
Proof. done. Qed.
Lemma stats_kept_bind {A B} (m : ST search_state A) (k : A -> ST search_state B) :
  keeps_stats m -> (forall a, keeps_stats (k a)) -> keeps_stats (st_bind m k).
Proof.
  intros Hm Hk s. unfold st_bind. specialize (Hm s). destruct (m s) as [s1 [a|e]]; cbn in *; [|done]. by rewrite Hk.
Qed.
(** A reading of the state followed by what depends on it. *)
Lemma stats_kept_get {A} (k : search_state -> ST search_state A) : (forall s, stats (fst (k s s)) = stats s) -> keeps_stats (st_bind st_get k).
Proof. intros H s. unfold st_bind, st_get. apply H. Qed.
Lemma stats_kept_at {A} (m : ST search_state A) s0 s : keeps_stats m -> stats s0 = stats s -> stats (fst (m s0)) = stats s.
Proof. intros Hm <-. apply Hm. Qed.
Lemma stats_kept_modify f : (forall s, stats (f s) = stats s) -> keeps_stats (st_modify f).
Proof. intros H s. apply H. Qed.

Lemma stats_kept_monotonic : keeps_stats (monotonic_now E).
Proof. done. Qed.
Lemma stats_kept_utc : keeps_stats (utc_now E).
Proof. done. Qed.
Lemma stats_kept_timed mode rq : keeps_stats (_timed_source E mode rq).
Proof.
  unfold _timed_source. apply stats_kept_get. intros s. destruct (reply E _ rq) as [out ms].
  unfold st_bind at 1, st_put. apply stats_kept_at; [|done].
  apply stats_kept_bind; [apply stats_kept_utc|intros now]. apply stats_kept_bind; [by apply stats_kept_modify|]. intros []. by destruct out.
Qed.

Lemma stats_kept_gather mode rqs : keeps_stats (gather E mode rqs).
Proof.
  induction rqs as [|rq rqs IH]; cbn [gather]; [apply stats_kept_ret|]. intros s.
  pose proof (stats_kept_timed mode rq s) as H1. destruct (_timed_source E mode rq s) as [s1 r]. cbn [fst] in H1.
  specialize (IH s1). destruct (gather E mode rqs s1) as [s2 [b|e]]; cbn [fst] in *; congruence.
Qed.

Lemma stats_kept_batch a mode n timeouts l : keeps_stats (_run_source_batch E a mode n timeouts l).
Proof. unfold _run_source_batch. apply stats_kept_bind; [apply stats_kept_lift|]. intros rqs. apply stats_kept_gather. Qed.

Lemma stats_kept_merge a w t learning life from results : keeps_stats (merge_and_sort E a w t learning life from results).
Proof.
  unfold merge_and_sort. apply stats_kept_get. intros s0. destruct (_retrieval_source_quality_snapshot _ _ _) as [q m].
  apply stats_kept_at; [|done]. apply stats_kept_bind; [apply stats_kept_monotonic|intros now].
  apply stats_kept_get. intros s. destruct (_merge_federated_rows _ _ _ _ _ _ _ _ _ _ _ _ _ _ _ _) as [merged n].
  done.
Qed.

Lemma stats_kept_fetch a p life : keeps_stats (fetch E a p life).
Proof.
  unfold fetch. destruct (staged_fetch_used _); apply stats_kept_bind; try apply stats_kept_batch; intros b; [|apply stats_kept_ret].
  apply stats_kept_bind; [apply stats_kept_merge|]. intros fm. destruct (_ && _); [apply stats_kept_ret|].
  apply stats_kept_bind; [apply stats_kept_batch|]. intros. apply stats_kept_ret.
Qed.

Lemma stats_kept_plan a : keeps_stats (plan_search E a).
Proof.
  unfold plan_search. apply stats_kept_bind; [apply stats_kept_monotonic|intros now]. apply stats_kept_get. intros s.
  destruct (_get_retrieval_template _ _ _ _ _ _ _ _) as [c [t hit]]. unfold st_bind at 1, st_put.
  apply stats_kept_at; [|done].
  apply stats_kept_bind; [apply stats_kept_monotonic|intros now']. apply stats_kept_get. intros s'.
  destruct (_retrieval_slow_source_runtime_policy _ _ _ _ _) as [l policy]. done.
Qed.

Lemma stats_kept_unrecorded a p : record_pathway_usage a = false -> keeps_stats (observe_pathway E a p).
Proof. intros H. unfold observe_pathway. rewrite H. apply stats_kept_ret. Qed.

Lemma stats_kept_sources a p key : record_pathway_usage a = false -> keeps_stats (search_sources E a p key).
Proof.
  intros Ha. unfold search_sources. apply stats_kept_bind; [apply stats_kept_monotonic|intros now]. apply stats_kept_get. intros s.
  destruct (_retrieval_lifecycle_snapshot _ _ _) as [kept life].
  apply stats_kept_at; [|done]. apply stats_kept_bind; [by apply stats_kept_modify|intros []].
  apply stats_kept_bind; [apply stats_kept_fetch|]. intros [b skipped]. apply stats_kept_bind; [apply stats_kept_merge|]. intros [merged quality].
  apply stats_kept_bind; [apply stats_kept_monotonic|intros now1]. apply stats_kept_bind; [apply stats_kept_utc|intros now2].
  apply stats_kept_bind; [apply stats_kept_modify; intros s0; by destruct (_record_retrieval_lifecycle_observation _ _ _ _ _ _ _ _ _)|intros []].
  apply stats_kept_bind; [apply stats_kept_tick|intros n]. apply stats_kept_bind; [by apply stats_kept_modify|intros []].
  apply stats_kept_bind; [by apply stats_kept_unrecorded|intros []]. apply stats_kept_ret.
Qed.

Lemma stats_kept_search a : record_pathway_usage a = false -> keeps_stats (federated_search_memory E a).
Proof.
  intros Ha. unfold federated_search_memory. apply stats_kept_bind; [apply stats_kept_plan|intros p]. apply stats_kept_bind; [apply stats_kept_tick|intros n].
  apply stats_kept_get. intros s. destruct (_retrieval_pathway_cache_get _ _ _ _ _ _ _ _ _) as [c [b|]]; unfold st_bind at 1, st_put;
    (apply stats_kept_at; [|done]).
  - apply stats_kept_bind; [by apply stats_kept_unrecorded|intros []]. apply stats_kept_ret.
  - by apply stats_kept_sources.
Qed.

Lemma stats_kept_warm C GC l : forall acc s, stats (fst (warm_all (H := federated_searcher E) C GC acc l s)) = stats s.
Proof.
  induction l as [|entry l IH]; intros [[w k] errors] s; cbn [warm_all]; [done|].
  assert (stats (fst (warm (H := federated_searcher E) C GC (w, k, errors) entry s)) = stats s) as Hw.
  { unfold warm, _run_retrieval_pathway_warm_query. destruct (negb (truthy (strip (st_query entry)))); [done|].
    cbn [search_op federated_searcher]. unfold st_bind.
    pose proof (stats_kept_search (warm_args C GC entry (strip (st_query entry))) eq_refl s) as Hk.
    by destruct (federated_search_memory E _ s) as [s1 [b|e]]. }
  destruct (warm _ _ _ _ _) as [s1 acc1]. cbn [fst] in Hw. by rewrite IH.
Qed.
End statistics.

(** The searches of the warmer are not counted as use: after a run the
    statistics hold what they held, less the entries that had grown too old, so
    a search stays hot only as long as its users repeat it. *)
Theorem warming_is_not_use E C order ms s : RETRIEVAL_PATHWAY_WARMER_ENABLED C = true ->
  stats (fst (_warm_retrieval_pathways_once (H := federated_searcher E) C (G E) order ms s)) =
  List.filter (fun kv => stat_fresh (G E) (monotonic E (ticks s)) (snd kv)) (stats s).
Proof.
  intros Hon. unfold _warm_retrieval_pathways_once. rewrite Hon. cbn [negb hot_pathways_op federated_searcher].
  unfold st_bind at 1. unfold monotonic_now, tick, st_bind, st_get, st_put, st_ret. cbn [fst snd stats ticks]. unfold _list_hot_retrieval_pathways.
  set (kept := List.filter _ _). cbn [fst snd]. set (top := firstn _ _). set (s1 := set_stats _ _).
  pose proof (stats_kept_warm E C (G E) (order top) (0, 0, []) s1) as Hk.
  destruct (warm_all _ _ _ _ _) as [s2 [[w k] errors]]. cbn [fst] in *. by rewrite Hk.
Qed.

Definition demo_stat (query : string) (hits : Z) : pathway_stat :=
  mkStat query (Some "p") None [] [] "balanced" hits "2024-01-01T00:00:00Z" 5 "2024-01-01T00:00:00Z" 6.

(** A search that fails for one query. *)
#[local] Instance demo_searcher : Searcher nat := {|
  search_op a := fun n => (Datatypes.S n, if query a =s "bad" then Raise (OrchestratorError "down") else Ok (mkBundle [] [] []));
  hot_pathways_op limit := st_ret [demo_stat "good" 4; demo_stat "bad" 2; demo_stat " " 1] |}.

Lemma warmer_accounts_witness : exists s' r,
  _warm_retrieval_pathways_once default_monitor default_retrieval (fun l => l) 1 0%nat = (s', Ok (WarmRan r)) /\
  wr_warmed r + wr_skipped r + Z.of_nat (length (wr_errors r)) = 3.
Proof.
  destruct (warmer_accounts default_monitor default_retrieval (fun l => l) 1 0%nat 0%nat
              [demo_stat "good" 4; demo_stat "bad" 2; demo_stat " " 1]) as (s' & r & H1 & H2 & _ & _ & _ & H3).
  - reflexivity.
  - done.
  - reflexivity.
  - exists s', r. split; [exact H1|]. rewrite H3, H2; [reflexivity|]. repeat (constructor; [cbn; intuition discriminate|]). constructor.
Defined.

Definition warm_state : search_state := set_stats [("k", demo_stat "deploy" 3)] no_search.

Lemma warming_is_not_use_witness :
  stats (fst (_warm_retrieval_pathways_once (H := federated_searcher demo_env) default_monitor default_retrieval (fun l => l) 1 warm_state)) =
  [("k", demo_stat "deploy" 3)].
Proof. exact (warming_is_not_use demo_env default_monitor (fun l => l) 1 warm_state eq_refl). Defined.
