(* ===== verification/Feeds.v ===== *)
(** * Feeds of signals and overrides

    Files that trading agents leave in two projects of the memory bank are read
    on a schedule, normalized, kept in a bounded cache and appended to a history
    file that is loaded at the start.  [_refresh_signal_cache] and
    [_refresh_override_cache] have the same shape and differ in what they fetch
    and how they normalize. *)

From S2P Require Import Prelude PyStr PyTime Json JsonText IsoParse Paths Caches Ranking ReadPath Catalog Profiles TextLog.
From Stdlib Require Import Ascii.
Open Scope Z_scope.

(** ** Stamps *)

(** [+HH:MM], with seconds and a fraction when there are any *)
Definition offset_text (off : Z) : string :=
  let a := Z.abs off in
  let secs := a / us_per_sec in
  let us := a mod us_per_sec in
  (if off <? 0 then "-" else "+") +:+ digits 2 (secs / 3600) +:+ ":" +:+ digits 2 (secs / 60 mod 60) +:+
  (if (secs mod 60 =? 0) && (us =? 0) then ""
   else ":" +:+ digits 2 (secs mod 60) +:+ (if us =? 0 then "" else "." +:+ digits 6 us)).

(** [datetime.isoformat()] of what [fromisoformat] read *)
Definition stamp_text (dt : Z * option Z) : string :=
  isoformat (utcfromtimestamp (fst dt)) +:+ match snd dt with Some off => offset_text off | None => "" end.

(** ** Normal forms *)

Section feeds.
(** The [repr] of [float(text)], [None] for a [ValueError], and of [float(n)]. *)
Variables (float_text_of : string -> option string) (float_of_int : Z -> string).

(** [_to_float] of both functions. *)
Definition _to_float (value : json) : json :=
  match value with
  | JInt z => JFloat (float_of_int z)
  | JBool b => JFloat (if b then "1.0" else "0.0")
  | JFloat r => JFloat r
  | JStr s => JFloat (match float_text_of s with Some r => r | None => "0.0" end)
  | _ => JFloat "0.0"
  end.

(** [value.upper()] *)
Definition upper_of (value : json) : result json :=
  match value with
  | JStr s => Ok (JStr (upper s))
  | _ => Raise (OtherError "AttributeError" "object has no attribute 'upper'")
  end.

Definition signal_stamp (raw : dict) : json :=
  match jor (dget raw "created_at") (dget raw "createdAt") with
  | JStr created =>
      match fromisoformat created with
      | Some dt => JStr (stamp_text dt)
      | None => match fromisoformat (replace_char "Z" "+00:00" created) with Some dt => JStr (stamp_text dt) | None => dget raw "created_at" end
      end
  | _ => dget raw "created_at"
  end.

Definition _normalize_signal (raw : dict) : result dict :=
  let! symbol := upper_of (dget_or raw "symbol" (JStr "")) in
  Ok [("symbol", symbol); ("address", dget_or raw "address" (JStr "")); ("price_usd", _to_float (dget raw "price_usd"));
      ("volume_24h_usd", _to_float (dget raw "volume_24h_usd")); ("liquidity_usd", _to_float (dget raw "liquidity_usd"));
      ("momentum_score", _to_float (dget raw "momentum_score")); ("risk_score", _to_float (dget raw "risk_score"));
      ("verified", JBool (jtruthy (dget raw "verified"))); ("created_at", signal_stamp raw); ("file", dget_or raw "file" (JStr ""))].

Definition override_stamp (raw : dict) : json :=
  let created := jor (dget raw "timestamp") (dget raw "created_at") in
  match created with
  | JStr text => match fromisoformat (replace_char "Z" "+00:00" text) with Some dt => JStr (stamp_text dt) | None => created end
  | _ => created
  end.

Definition _normalize_override (raw : dict) : result dict :=
  let! symbol := upper_of (jor (dget raw "symbol") (JStr "")) in
  let f k := (k, _to_float (dget raw k)) in
  Ok [("symbol", symbol); ("priority", dget_or raw "priority" (JStr "MEDIUM")); ("reason", dget_or raw "reason" (JStr ""));
      f "size_before"; f "size_after"; f "final_size"; f "confidence_before"; f "confidence_after"; f "override_strength";
      ("multiplier", _to_float (dget_or raw "multiplier" (JFloat "1.0"))); f "kelly_fraction"; f "kelly_target";
      ("timestamp", override_stamp raw); ("file", dget_or raw "file" (JStr ""))].

(** ** A feed *)

(** The cache ([deque(maxlen=...)]), the set of files seen and the history file. *)
Record feed := mkFeed { feed_cache : list json; seen_files : list json; feed_file : option string }.
Definition no_feed : feed := mkFeed [] [] None.

Definition seen (f : feed) (name : json) : bool := existsb (json_eqb name) (seen_files f).

Definition keep_entry (maxlen : nat) (entry name : json) (f : feed) : feed :=
  mkFeed (deque_push maxlen entry (feed_cache f)) (if seen f name then seen_files f else seen_files f ++ [name]) (feed_file f).

(** A line of the history: the entry is kept before its file is looked at. *)
Definition load_entry (maxlen : nat) (entry : json) : ST feed unit := fun f =>
  let kept := mkFeed (deque_push maxlen entry (feed_cache f)) (seen_files f) (feed_file f) in
  match entry with
  | JObj d =>
      match dget d "file" with
      | JList (_ :: _) | JObj (_ :: _) => (kept, Raise (OtherError "TypeError" "unhashable type"))
      | name => (if jtruthy name then keep_entry maxlen entry name f else kept, Ok tt)
      end
  | _ => (kept, Raise (OtherError "AttributeError" "object has no attribute 'get'"))
  end.

(** The lines of the file, up to the first one that cannot be taken. *)
Definition load_history (maxlen : nat) (f : feed) : feed :=
  match feed_file f with
  | None => f
  | Some text => fst (load_lines (load_entry maxlen) (text_lines text) f)
  end.

Definition _load_signal_history := load_history.
Definition _load_override_history := load_history.

(** The loop under the lock: what is new is cached, and listed for the file. *)
Fixpoint add_new (normalize : dict -> result dict) (maxlen : nat) (raws : list dict) (new : list dict) : ST feed (list dict) := fun f =>
  match raws with
  | [] => (f, Ok new)
  | raw :: rest =>
      let name := dget raw "file" in
      if negb (jtruthy name) || seen f name then add_new normalize maxlen rest new f
      else match normalize raw with
           | Raise e => (f, Raise e)
           | Ok d => add_new normalize maxlen rest (new ++ [d]) (keep_entry maxlen (JObj d) name f)
           end
  end.

(** [for entry in new_entries: await _persist_signal_entry(entry)]; [torn] by entry. *)
Definition _persist_entries (torn : nat -> option nat) (new : list dict) (f : feed) : feed :=
  mkFeed (feed_cache f) (seen_files f)
    (fst (fold_left (fun acc d => (append_line (torn (snd acc)) (JObj d) (fst acc), S (snd acc))) new (feed_file f, 0%nat))).

(** [fetched]: the entries, or the error of fetching them. *)
Definition refresh_cache (normalize : dict -> result dict) (maxlen : nat) (torn : nat -> option nat) (fetched : result (list dict)) : ST feed unit :=
  fun f =>
  match fetched with
  | Raise _ | Ok [] => (f, Ok tt)
  | Ok raw_entries =>
      match add_new normalize maxlen (rev raw_entries) [] f with
      | (f, Ok new) => (_persist_entries torn new f, Ok tt)
      | (f, Raise e) => (f, Raise e)
      end
  end.

Definition _refresh_signal_cache := refresh_cache _normalize_signal.
Definition _refresh_override_cache := refresh_cache _normalize_override.

(** The refresh task over some rounds; an exception ends it. *)
Fixpoint refresh_loop (normalize : dict -> result dict) (maxlen : nat) (rounds : list ((nat -> option nat) * result (list dict))) : ST feed unit :=
  match rounds with
  | [] => st_ret tt
  | (torn, fetched) :: rest => refresh_cache normalize maxlen torn fetched ;;; refresh_loop normalize maxlen rest
  end.

Definition _signal_refresh_loop := refresh_loop _normalize_signal.
Definition _override_refresh_loop := refresh_loop _normalize_override.

(** [list(signal_cache)[-limit:]], the newest first. *)
Definition get_latest (HISTORY_LIMIT limit : Z) (f : feed) : list json :=
  rev (lastn (Z.to_nat (Z.max 1 (Z.min limit HISTORY_LIMIT))) (feed_cache f)).
Definition get_latest_signals := get_latest.
Definition get_latest_overrides := get_latest.

(** The refresh on demand; the number of cached entries. *)
Definition refresh_overrides (maxlen : nat) (torn : nat -> option nat) (fetched : result (list dict)) : ST feed Z :=
  _refresh_override_cache maxlen torn fetched ;;; f <- st_get ;; st_ret (Z.of_nat (length (feed_cache f))).
End feeds.

(** ** Fetching *)

Section fetching.
Context {W : Type} `{Catalog W}.
Variable RS : settings.
Variables (clock monotonic : nat -> Z).
Variable MEMMCP_LIST_TIMEOUT_SECS : Z.

(** [sorted(files, reverse=True)[:limit]] *)
Definition latest_names (limit : Z) (files : list string) : list string := upto limit (rev (sort_by str_leb files)).

(** [data = json.loads(content); data["file"] = name] *)
Definition file_entry (name content : string) : result dict :=
  match loads content with
  | Some (JObj d) => Ok (dset "file" (JStr name) d)
  | Some _ => Raise (OtherError "TypeError" "object does not support item assignment")
  | None => Raise (OtherError "JSONDecodeError" "Expecting value")
  end.

(** A file that cannot be read or parsed, or is empty, is passed over. *)
Definition fetch_entry (project name : string) (allow_missing bootstrap_missing : bool) (entries : list dict) : ST (read_state W) (list dict) :=
  st_try
    (content <- read_project_file RS clock monotonic project name allow_missing bootstrap_missing ;;
     if negb (truthy content) then st_ret entries
     else data <- st_lift (file_entry name content) ;; st_ret (entries ++ [data]))
    (fun _ => st_ret entries).

Fixpoint fetch_signals (project : string) (names : list string) (entries : list dict) : ST (read_state W) (list dict) :=
  match names with
  | [] => st_ret entries
  | name :: rest => entries <- fetch_entry project name false false entries ;; fetch_signals project rest entries
  end.

Definition _fetch_signals_from_memmcp (SIGNAL_PROJECT : string) (limit : Z) : ST (read_state W) (list dict) :=
  files <- in_tools (list_files MEMMCP_LIST_TIMEOUT_SECS SIGNAL_PROJECT) ;;
  match files with [] => st_ret [] | _ => fetch_signals SIGNAL_PROJECT (latest_names limit files) [] end.

(** The name is normalized outside the [try]. *)
Fixpoint fetch_overrides (project : string) (names : list string) (entries : list dict) : ST (read_state W) (list dict) :=
  match names with
  | [] => st_ret entries
  | name :: rest =>
      normalized_file <- st_lift (normalize_memory_path name) ;;
      if mem_str normalized_file OPTIONAL_OVERRIDE_FILENAMES then fetch_overrides project rest entries
      else entries <- fetch_entry project normalized_file true true entries ;; fetch_overrides project rest entries
  end.

Definition _fetch_overrides_from_memmcp (limit : Z) : ST (read_state W) (list dict) :=
  files <- in_tools (list_files MEMMCP_LIST_TIMEOUT_SECS (OVERRIDE_PROJECT RS)) ;;
  match files with [] => st_ret [] | _ => fetch_overrides (OVERRIDE_PROJECT RS) (latest_names limit files) [] end.
End fetching.
