(* ===== verification/FeedsFacts.v ===== *)
(** * Proofs about the feeds

    No file is reported twice, a restart gives back what reached the file, and an
    entry without a text for a symbol ends the task that reads the feed. *)

From S2P Require Import Prelude PyStr PyTime Json JsonText IsoParse Paths Caches Ranking ReadPath Catalog Profiles Tasks TextLog TextLogFacts Feeds.
From Stdlib Require Import Ascii.
Open Scope Z_scope.

(** The file of an entry. *)
Definition file_of (d : dict) : json := dget d "file".

(** What a fetch answers: printable values, with the name of the file. *)
Definition raw_ok (raw : dict) : Prop := json_wf (JObj raw) /\ exists name, file_of raw = JStr name.

Lemma seen_In f name : seen f name = true <-> In name (seen_files f).
Proof.
  unfold seen. rewrite existsb_exists. split.
  - intros (x & Hx & He). apply json_eqb_eq in He. by subst.
  - intros H. exists name. split; [done|by apply json_eqb_eq].
Qed.

Section feed_facts.
Variable normalize : dict -> result dict.
Variable maxlen : nat.
(** A normal form keeps the file and stays printable. *)
Hypothesis normalize_ok : forall raw d, raw_ok raw -> normalize raw = Ok d -> raw_ok d /\ file_of d = file_of raw.

(** The feed after some entries were added. *)
Definition adds (f : feed) (added : list dict) (f' : feed) : Prop :=
  feed_cache f' = lastn maxlen (feed_cache f ++ map JObj added) /\ seen_files f' = seen_files f ++ map file_of added /\
  feed_file f' = feed_file f /\ List.Forall raw_ok added /\ List.Forall (fun d => jtruthy (file_of d) = true) added /\
  List.NoDup (map file_of added) /\ (forall x, In x (map file_of added) -> ~ In x (seen_files f)).

Lemma adds_nil f : (length (feed_cache f) <= maxlen)%nat -> adds f [] f.
Proof. intros H. unfold adds. cbn. rewrite !app_nil_r, lastn_all by done. repeat split; try constructor. naive_solver. Qed.

Lemma keep_entry_adds f d : seen f (file_of d) = false -> raw_ok d -> jtruthy (file_of d) = true ->
  adds f [d] (keep_entry maxlen (JObj d) (file_of d) f).
Proof.
  intros Hs Hd Ht. unfold adds, keep_entry, deque_push. cbn [feed_cache seen_files feed_file map]. rewrite Hs.
  do 3 (split; [done|]). split; [by constructor|]. split; [by constructor|]. split; [by constructor; [intros []|constructor]|].
  intros x [<-|[]] Hi. apply seen_In in Hi. congruence.
Qed.

Lemma adds_trans f f1 f2 a b : adds f a f1 -> adds f1 b f2 -> adds f (a ++ b) f2.
Proof.
  intros (A1 & A2 & A3 & A4 & A5 & A6 & A7) (B1 & B2 & B3 & B4 & B5 & B6 & B7). unfold adds. rewrite !map_app.
  rewrite B1, B2, B3, A1, A2, A3. split.
  { destruct (map JObj b) as [|x xs]; [|by rewrite lastn_snoc, <- app_assoc]. rewrite !app_nil_r. apply lastn_all. rewrite lastn_length. lia. }
  split; [by rewrite app_assoc|]. split; [done|]. split; [by apply List.Forall_app|]. split; [by apply List.Forall_app|]. split.
  - apply List.NoDup_app; [done|done|]. intros x Hx Hx'. apply (B7 x Hx'). rewrite A2. apply in_or_app. by right.
  - intros x [Hx|Hx]%in_app_or; [by apply A7|]. intros Hi. apply (B7 x Hx). rewrite A2. apply in_or_app. by left.
Qed.

(** The first entry of every named file that is not among those seen. *)
Fixpoint newcomers (seen : list json) (raws : list dict) : list dict :=
  match raws with
  | [] => []
  | raw :: rest =>
      if negb (jtruthy (file_of raw)) || existsb (json_eqb (file_of raw)) seen then newcomers seen rest
      else raw :: newcomers (seen ++ [file_of raw]) rest
  end.

Abbreviation normalized := (Forall2 (fun raw d => normalize raw = Ok d)).

(** The loop adds the normal forms of the newcomers; when it ends with an
    exception, it is that of an entry, and only new files were added. *)
Lemma add_new_adds raws : forall new f, List.Forall raw_ok raws -> (length (feed_cache f) <= maxlen)%nat ->
  exists added, adds f added (fst (add_new normalize maxlen raws new f)) /\
  match snd (add_new normalize maxlen raws new f) with
  | Ok l => l = new ++ added /\ normalized (newcomers (seen_files f) raws) added
  | Raise e => exists raw, In raw raws /\ normalize raw = Raise e
  end.
Proof.
  induction raws as [|raw raws IH]; intros new f Hr Hl; cbn [add_new newcomers].
  { exists []. split; [by apply adds_nil|]. cbn [snd]. split; [by rewrite app_nil_r|constructor]. }
  inversion Hr as [|? ? Hraw Hrest]. subst. fold (file_of raw).
  assert (forall g (m : list dict), adds f m g -> (length (feed_cache g) <= maxlen)%nat) as Hlen by (intros g m (-> & _); rewrite lastn_length; lia).
  destruct (negb (jtruthy (file_of raw))) eqn:Et; cbn [orb];
    [destruct (IH new f Hrest Hl) as (added & H1 & H2); exists added; split; [done|]; destruct (snd _); [done|]; destruct H2 as (x & ? & ?); exists x; split; [by right|done]|].
  change (existsb (json_eqb (file_of raw)) (seen_files f)) with (seen f (file_of raw)). destruct (seen f (file_of raw)) eqn:Es;
    [destruct (IH new f Hrest Hl) as (added & H1 & H2); exists added; split; [done|]; destruct (snd _); [done|]; destruct H2 as (x & ? & ?); exists x; split; [by right|done]|].
  destruct (normalize raw) as [d|e] eqn:En; [|exists []; split; [by apply adds_nil|]; cbn; exists raw; split; [by left|done]].
  destruct (normalize_ok raw d Hraw En) as [Hd Hf]. rewrite <- Hf in *.
  assert (adds f [d] (keep_entry maxlen (JObj d) (file_of d) f)) as Ha by (apply keep_entry_adds; [done|done|by apply negb_false_iff in Et]).
  destruct (IH (new ++ [d]) (keep_entry maxlen (JObj d) (file_of d) f)) as (added & H1 & H2); [done|by eapply Hlen|].
  exists (d :: added). split; [by apply (adds_trans _ _ _ [d] added Ha)|]. destruct (snd _) as [l|e].
  - destruct H2 as [-> H2]. split; [by rewrite <- app_assoc|]. constructor; [done|]. destruct Ha as (_ & Hseen & _). by rewrite Hseen in H2.
  - destruct H2 as (x & ? & ?). exists x. split; [by right|done].
Qed.

(** ** The history of a feed *)

Abbreviation torn_at := (nat -> option nat) (only parsing).
Abbreviation round := (torn_at * result (list dict))%type (only parsing).

(** Every append to the file either succeeds or leaves nothing of its line. *)
Definition whole_or_nothing (torn : torn_at) : Prop := forall n, torn n = None \/ torn n = Some 0%nat.
Definition never_torn (torn : torn_at) : Prop := forall n, torn n = None.

(** The entries of a round, each with whether its append succeeds. *)
Fixpoint tags (torn : torn_at) (k : nat) (new : list dict) : list (dict * bool) :=
  match new with [] => [] | d :: rest => (d, match torn k with None => true | Some _ => false end) :: tags torn (S k) rest end.

(** What comes in over some rounds: of every round that fetches, oldest first,
    the first entry of every named file that did not come in before. *)
Fixpoint arrivals (seen : list json) (rounds : list round) : list (dict * bool) :=
  match rounds with
  | [] => []
  | (torn, Ok raws) :: rest => let new := newcomers seen (rev raws) in tags torn 0 new ++ arrivals (seen ++ map file_of new) rest
  | (_, Raise _) :: rest => arrivals seen rest
  end.

(** The entries the feed makes of them. *)
Definition came_in (seen : list json) (rounds : list round) (es : list (dict * bool)) : Prop :=
  Forall2 (fun x y => normalize (fst x) = Ok (fst y) /\ snd x = snd y) (arrivals seen rounds) es.

(** Those that reached the file. *)
Definition written (es : list (dict * bool)) : list dict := map fst (List.filter snd es).

Definition file_text (f : feed) : string := match feed_file f with Some t => t | None => "" end.

(** The feed of the entries that came in. *)
Definition holds (f : feed) (es : list (dict * bool)) : Prop :=
  feed_cache f = lastn maxlen (map JObj (map fst es)) /\ seen_files f = map file_of (map fst es) /\
  file_text f = log_text (map JObj (written es)) /\
  List.Forall raw_ok (map fst es) /\ List.Forall (fun d => jtruthy (file_of d) = true) (map fst es) /\ List.NoDup (map file_of (map fst es)).

Lemma written_app a b : written (a ++ b) = written a ++ written b.
Proof. unfold written. by rewrite List.filter_app, map_app. Qed.

Lemma tags_fst torn new : forall k, map fst (tags torn k new) = new.
Proof. induction new as [|d new IH]; intros k; [done|]. cbn [tags map fst]. by rewrite IH. Qed.

Lemma persisted torn new : whole_or_nothing torn -> forall file k,
  match fst (fold_left (fun acc d => (append_line (torn (snd acc)) (JObj d) (fst acc), S (snd acc))) new (file, k)) with Some t => t | None => "" end =
  match file with Some t => t | None => "" end +:+ log_text (map JObj (written (tags torn k new))).
Proof.
  intros Hc. induction new as [|d new IH]; intros file k; [by rewrite append_nil_r|]. cbn [fold_left fst snd tags]. rewrite IH. unfold written.
  cbn [List.filter snd]. unfold append_line. destruct (Hc k) as [-> | ->]; cbn [List.filter map fst snd log_text take].
  - by rewrite !append_assoc.
  - change (take 0 _) with "". by rewrite append_nil_r.
Qed.

Lemma normalized_files raws ds : List.Forall raw_ok raws -> normalized raws ds -> map file_of ds = map file_of raws.
Proof.
  intros Hr HF. induction HF as [|raw d raws ds H _ IH]; [done|]. inversion Hr as [|? ? Hraw Hrest]. subst.
  cbn [map]. rewrite IH by done. f_equal. by destruct (normalize_ok raw d Hraw H).
Qed.

Lemma newcomers_In raw raws : forall seen, In raw (newcomers seen raws) -> In raw raws.
Proof.
  induction raws as [|x raws IH]; intros seen; cbn [newcomers]; [done|]. destruct (_ || _); [intros H; right; by eapply IH|].
  intros [<-|H]; [by left|right; by eapply IH].
Qed.

Lemma tags_normalized torn raws ds : normalized raws ds -> forall k,
  Forall2 (fun x y => normalize (fst x) = Ok (fst y) /\ snd x = snd y) (tags torn k raws) (tags torn k ds).
Proof. induction 1 as [|raw d raws ds H _ IH]; intros k; cbn [tags]; constructor; auto. Qed.

(** A round that ends well adds what came in. *)
Lemma refresh_holds torn raws f es : whole_or_nothing torn -> holds f es -> List.Forall raw_ok raws ->
  match refresh_cache normalize maxlen torn (Ok raws) f with
  | (f', Ok _) => exists added, normalized (newcomers (seen_files f) (rev raws)) added /\ holds f' (es ++ tags torn 0 added)
  | (f', Raise e) => feed_file f' = feed_file f /\ exists raw, In raw raws /\ normalize raw = Raise e
  end.
Proof.
  intros Ht Hh Hr. unfold refresh_cache. destruct raws as [|raw raws]; [exists []; split; [constructor|]; by rewrite app_nil_r|].
  destruct Hh as (H1 & H2 & H3 & H4 & H5 & H6). destruct (add_new_adds (rev (raw :: raws)) [] f) as (added & Ha & Hn).
  { by apply List.Forall_rev. }
  { rewrite H1, lastn_length. lia. }
  destruct Ha as (A1 & A2 & A3 & A4 & A5 & A6 & A7). destruct (add_new normalize maxlen (rev (raw :: raws)) [] f) as [f1 [new|e]]; cbn [fst snd] in *.
  2: { split; [done|]. destruct Hn as (x & Hx & ?). exists x. by apply in_rev in Hx. }
  destruct Hn as [-> Hn]. cbn [app] in *. exists added. split; [done|]. unfold holds, file_text, _persist_entries. cbn [feed_cache seen_files feed_file].
  rewrite persisted, written_app by done. rewrite !map_app, tags_fst, A1, A2, A3, H1, H2. unfold file_text in H3. rewrite H3, log_text_app. split.
  { destruct (map JObj added) as [|x xs]; [|by rewrite lastn_snoc]. rewrite !app_nil_r. apply lastn_all. rewrite lastn_length. lia. }
  split; [done|]. split; [done|]. split; [by apply List.Forall_app|]. split; [by apply List.Forall_app|].
  apply List.NoDup_app; [done|done|]. intros x Hx Hx'. apply (A7 x Hx'). by rewrite H2.
Qed.

Definition round_ok (r : round) : Prop := whole_or_nothing (fst r) /\ forall raws, snd r = Ok raws -> List.Forall raw_ok raws.

(** How the rounds end: all of them, or with the exception of an entry of the
    first that does not end well. *)
Definition ends (rounds done_ : list round) (r : result unit) : Prop :=
  match r with
  | Ok _ => done_ = rounds
  | Raise e => exists torn raws rest raw, rounds = done_ ++ (torn, Ok raws) :: rest /\ In raw raws /\ normalize raw = Raise e
  end.

Lemma loop_holds rounds : forall f es, holds f es -> List.Forall round_ok rounds ->
  let '(f', r) := refresh_loop normalize maxlen rounds f in
  exists done_ es' g, ends rounds done_ r /\ came_in (seen_files f) done_ es' /\ holds g (es ++ es') /\ feed_file f' = feed_file g /\
    (r = Ok tt -> f' = g).
Proof.
  induction rounds as [|[torn fetched] rounds IH]; intros f es Hh Hr; cbn [refresh_loop].
  { exists [], [], f. rewrite app_nil_r. split; [done|]. split; [constructor|done]. }
  inversion Hr as [|? ? [Ht Hf] Hrest]. subst. cbn [fst snd] in *. unfold st_bind. destruct fetched as [raws|e].
  - pose proof (refresh_holds torn raws f es Ht Hh (Hf raws eq_refl)) as H.
    destruct (refresh_cache normalize maxlen torn (Ok raws) f) as [f1 [[]|e]].
    + destruct H as (added & Hn & H1). specialize (IH f1 _ H1 Hrest). destruct (refresh_loop normalize maxlen rounds f1) as [f' r].
      destruct IH as (done_ & es' & g & He & Hc & Hg & Hfile & Hok). exists ((torn, Ok raws) :: done_), (tags torn 0 added ++ es'), g.
      split; [|split; [|split; [by rewrite app_assoc|done]]].
      * destruct r as [[]|e]; cbn in *; [by subst|]. destruct He as (t & rs & rest & raw & -> & ?). by exists t, rs, rest, raw.
      * unfold came_in. cbn [arrivals]. apply Forall2_app; [by apply tags_normalized|].
        enough (seen_files f1 = seen_files f ++ map file_of (newcomers (seen_files f) (rev raws))) as <- by done.
        destruct H1 as (_ & -> & _). rewrite !map_app, tags_fst. destruct Hh as (_ & <- & _). f_equal.
        apply normalized_files; [|done]. apply List.Forall_forall. intros x Hx%newcomers_In%in_rev.
        pose proof (Hf raws eq_refl) as Hall. rewrite List.Forall_forall in Hall. by apply Hall.
    + destruct H as [H1 H2]. exists [], [], f. rewrite app_nil_r. split; [|split; [constructor|done]].
      destruct H2 as (raw & Hin & Hn). by exists torn, raws, rounds, raw.
  - cbn [refresh_cache]. specialize (IH f es Hh Hrest). destruct (refresh_loop normalize maxlen rounds f) as [f' r].
    destruct IH as (done_ & es' & g & He & Hc & Hg). exists ((torn, Raise e) :: done_), es', g. split; [|done].
    destruct r as [[]|e']; cbn in *; [by subst|]. destruct He as (t & rs & rest & raw & -> & ?). by exists t, rs, rest, raw.
Qed.

(** Loading the file of some entries. *)
Lemma load_adds vs : forall f, List.Forall raw_ok vs -> List.Forall (fun d => jtruthy (file_of d) = true) vs ->
  List.NoDup (map file_of vs) -> (forall x, In x (map file_of vs) -> ~ In x (seen_files f)) -> (length (feed_cache f) <= maxlen)%nat ->
  exists f', load_lines (load_entry maxlen) (map dumps (map JObj vs)) f = (f', Ok tt) /\ adds f vs f'.
Proof.
  induction vs as [|d vs IH]; intros f Hok Ht Hnd Hs Hl; cbn [map load_lines]; [exists f; split; [done|by apply adds_nil]|].
  inversion Hok as [|? ? Hd Hok']. inversion Ht as [|? ? Htd Ht']. inversion Hnd as [|? ? Hni Hnd']. subst.
  rewrite strip_dict. assert (truthy (dumps (JObj d)) = true) as -> by done. cbn [negb]. rewrite loads_dumps by (apply Hd).
  assert (seen f (file_of d) = false) as Hseen.
  { destruct (seen f (file_of d)) eqn:E; [|done]. apply seen_In in E. exfalso. by apply (Hs (file_of d)); [left|]. }
  assert (load_entry maxlen (JObj d) f = (keep_entry maxlen (JObj d) (file_of d) f, Ok tt)) as Hload.
  { destruct Hd as [_ [name Hname]]. unfold load_entry. unfold file_of in *. rewrite Hname in *. by rewrite Htd. }
  unfold st_bind. rewrite Hload. pose proof (keep_entry_adds f d Hseen Hd Htd) as Ha.
  destruct (IH (keep_entry maxlen (JObj d) (file_of d) f)) as (f' & H1 & H2); try done.
  - intros x Hx. destruct Ha as (_ & -> & _). intros [Hi|[<-|[]]]%in_app_or; [by apply (Hs x); [right|]|done].
  - destruct Ha as (-> & _). rewrite lastn_length. lia.
  - exists f'. split; [done|]. by apply (adds_trans _ _ _ [d] vs Ha).
Qed.

Lemma written_Forall (P : dict -> Prop) es : List.Forall P (map fst es) -> List.Forall P (written es).
Proof.
  unfold written. rewrite !List.Forall_map, !List.Forall_forall. intros H x [Hx _]%filter_In. by apply H.
Qed.

Lemma written_NoDup es : List.NoDup (map file_of (map fst es)) -> List.NoDup (map file_of (written es)).
Proof.
  unfold written. induction es as [|[d []] es IH]; cbn [map List.filter fst snd]; intros H; inversion H as [|? ? Hn Hr]; subst; [constructor| |by apply IH].
  constructor; [|by apply IH]. intros Hi. apply Hn. apply in_map_iff in Hi as (x & <- & Hx). apply in_map.
  apply in_map_iff in Hx as (y & <- & [Hy _]%filter_In). by apply in_map.
Qed.

(** Loading the file gives the entries that reached it. *)
Lemma restart_feed f es : holds f es ->
  load_history maxlen (mkFeed [] [] (feed_file f)) = mkFeed (lastn maxlen (map JObj (written es))) (map file_of (written es)) (feed_file f).
Proof.
  intros (_ & _ & H3 & H4 & H5 & H6). unfold load_history. cbn [feed_file]. unfold file_text in H3.
  apply written_Forall in H4, H5. apply written_NoDup in H6. destruct (feed_file f) as [text|]; [subst text|by destruct (written es) as [|d l]; [|destruct (dumps (JObj d))]].
  assert (List.Forall json_wf (map JObj (written es))) as Hw.
  { rewrite List.Forall_map. eapply List.Forall_impl; [|exact H4]. by intros x []. }
  rewrite text_lines_log by done.
  destruct (load_adds (written es) (mkFeed [] [] (Some (log_text (map JObj (written es)))))) as (f' & E & A1 & A2 & A3 & _); try done.
  { intros x _ []. }
  { cbn. lia. }
  rewrite E. cbn [fst]. destruct f' as [c' s' t']. cbn [feed_cache seen_files feed_file app] in *. by subst.
Qed.

Lemma untorn_written rounds : List.Forall (fun r => never_torn (fst r)) rounds -> forall seen es, came_in seen rounds es -> written es = map fst es.
Proof.
  assert (forall torn new k, never_torn torn -> List.Forall (fun x => snd x = true) (tags torn k new)) as Htags.
  { intros torn new. induction new as [|d new IH]; intros k Ht; cbn [tags]; constructor; [cbn; by rewrite Ht|by apply IH]. }
  intros Hr seen es Hc. assert (List.Forall (fun x => snd x = true) (arrivals seen rounds)) as Ha.
  { clear Hc. revert seen. induction Hr as [|[torn [raws|e]] rounds Ht _ IH]; intros seen; cbn [arrivals]; [constructor| |apply IH].
    apply List.Forall_app. split; [by apply Htags|apply IH]. }
  unfold came_in in Hc. unfold written. induction Hc as [|x y xs ys [_ Hs] _ IH]; [done|]. inversion Ha as [|? ? Hx Hxs]. subst.
  cbn [List.filter map]. rewrite <- Hs, Hx. cbn [map]. by rewrite IH.
Qed.
End feed_facts.

(** ** Normal forms *)

Lemma dlookup_wf d k v : json_wf (JObj d) -> dlookup k d = Some v -> json_wf v.
Proof.
  intros [_ Hw]. revert Hw. induction d as [|[k' v'] d IH]; [done|]. cbn [fold_right snd dlookup]. intros [Hv Hw] H.
  destruct (k =s k'); [by injection H as <-|by apply IH].
Qed.

Lemma dget_wf d k : json_wf (JObj d) -> json_wf (dget d k).
Proof. intros Hw. unfold dget. destruct (dlookup k d) eqn:E; [by eapply dlookup_wf|done]. Qed.

Lemma dget_or_wf d k j : json_wf (JObj d) -> json_wf j -> json_wf (dget_or d k j).
Proof. intros Hw Hj. unfold dget_or. destruct (dlookup k d) eqn:E; [by eapply dlookup_wf|done]. Qed.

Lemma dget_or_file d name j : dget d "file" = JStr name -> dget_or d "file" j = JStr name.
Proof. unfold dget, dget_or. by destruct (dlookup "file" d). Qed.

Section normal_forms.
Variables (float_text_of : string -> option string) (float_of_int : Z -> string).
(** The texts are those of floats. *)
Hypothesis texts_are_floats : (forall s r, float_text_of s = Some r -> float_text r) /\ (forall z, float_text (float_of_int z)).

Lemma zero_text : float_text "0.0".
Proof. apply (float_num "" "0" ".0" ""); [by left|by left| |by left|done]. right. by exists "0". Qed.
Lemma one_text : float_text "1.0".
Proof. apply (float_num "" "1" ".0" ""); [by left| | |by left|done]; right; [|by exists "0"]. split; [done|]. by exists "1"%char, "". Qed.

Lemma to_float_wf j : json_wf j -> json_wf (_to_float float_text_of float_of_int j).
Proof.
  destruct texts_are_floats as [Ht Hi]. destruct j as [|b|z|r|s|l|d]; intros Hj; cbn [_to_float json_wf]; auto using zero_text.
  - destruct b; auto using zero_text, one_text.
  - destruct (float_text_of s) eqn:E; [by eapply Ht|apply zero_text].
Qed.

Lemma upper_wf j v : upper_of j = Ok v -> json_wf v.
Proof. destruct j; try done. by intros [= <-]. Qed.

Lemma jor_wf a b : json_wf a -> json_wf b -> json_wf (jor a b).
Proof. unfold jor. by destruct (jtruthy a). Qed.

Lemma signal_stamp_wf raw : json_wf (JObj raw) -> json_wf (signal_stamp raw).
Proof.
  intros H. pose proof (dget_wf raw "created_at" H). unfold signal_stamp. destruct (jor _ _); try done.
  destruct (fromisoformat _); [done|]. by destruct (fromisoformat _).
Qed.

Lemma override_stamp_wf raw : json_wf (JObj raw) -> json_wf (override_stamp raw).
Proof.
  intros H. pose proof (jor_wf _ _ (dget_wf raw "timestamp" H) (dget_wf raw "created_at" H)) as Hj. unfold override_stamp.
  destruct (jor _ _); try done. by destruct (fromisoformat _).
Qed.

Ltac dict_wf := split; [repeat (constructor; [cbn; intuition discriminate|]); constructor|]; cbn [fold_right snd];
  repeat split;
  repeat first [apply to_float_wf | apply dget_wf | apply dget_or_wf | apply signal_stamp_wf | apply override_stamp_wf | assumption | exact one_text | exact I].

Lemma normalize_signal_ok raw d : raw_ok raw -> _normalize_signal float_text_of float_of_int raw = Ok d -> raw_ok d /\ file_of d = file_of raw.
Proof.
  intros [Hw [name Hn]] H. unfold _normalize_signal in H. destruct (upper_of _) as [symbol|] eqn:Eu; [|done]. injection H as <-.
  apply upper_wf in Eu. unfold file_of in *. split; [split|].
  - dict_wf.
  - exists name. cbn. by apply dget_or_file.
  - cbn. rewrite Hn. by apply dget_or_file.
Qed.

Lemma normalize_override_ok raw d : raw_ok raw -> _normalize_override float_text_of float_of_int raw = Ok d -> raw_ok d /\ file_of d = file_of raw.
Proof.
  intros [Hw [name Hn]] H. unfold _normalize_override in H. destruct (upper_of _) as [symbol|] eqn:Eu; [|done]. injection H as <-.
  apply upper_wf in Eu. unfold file_of in *. split; [split|].
  - dict_wf.
  - exists name. cbn. by apply dget_or_file.
  - cbn. rewrite Hn. by apply dget_or_file.
Qed.
End normal_forms.

(** ** Signals *)

Definition demo_texts (s : string) : option string := if s =s "1.5" then Some "1.5" else None.

Lemma holds_nothing maxlen : holds maxlen no_feed [].
Proof. unfold holds. cbn. repeat split; constructor. Qed.

(** C32: what a restart gives back of the signals.  Over any rounds of the
    refresh task the signals that come in are the normal forms of the first entry
    fetched for each named file, oldest first in every round.  When the rounds end
    well the cache holds the last [SIGNAL_HISTORY_LIMIT] of them and the files seen
    are theirs, no file twice.  Loading the history file then gives the cache and the
    files of exactly those whose append succeeded: the same feed when no append
    failed.  When a round ends with an exception, it is that of an entry it fetched,
    and loading gives the signals of the rounds before it.  Entries are as fetching
    gives them, printable and with the name of their file, and a failed append leaves
    nothing of its line. *)
Theorem signals_survive_restart texts ints maxlen rounds :
  (forall s r, texts s = Some r -> float_text r) /\ (forall z, float_text (ints z)) -> List.Forall round_ok rounds ->
  let normalize := _normalize_signal texts ints in
  let '(f, r) := _signal_refresh_loop texts ints maxlen rounds no_feed in
  exists done_ es, ends normalize rounds done_ r /\ came_in normalize [] done_ es /\ List.NoDup (map file_of (map fst es)) /\
    (r = Ok tt -> feed_cache f = lastn maxlen (map JObj (map fst es)) /\ seen_files f = map file_of (map fst es)) /\
    _load_signal_history maxlen (mkFeed [] [] (feed_file f)) = mkFeed (lastn maxlen (map JObj (written es))) (map file_of (written es)) (feed_file f) /\
    (r = Ok tt -> List.Forall (fun r => never_torn (fst r)) rounds -> _load_signal_history maxlen (mkFeed [] [] (feed_file f)) = f).
Proof.
  intros Ht Hr normalize. pose proof (loop_holds normalize maxlen (normalize_signal_ok texts ints Ht) rounds no_feed [] (holds_nothing maxlen) Hr) as H.
  unfold _signal_refresh_loop. fold normalize. destruct (refresh_loop normalize maxlen rounds no_feed) as [f r].
  destruct H as (done_ & es & g & He & Hc & Hg & Hfile & Hok). cbn [app] in Hg.
  pose proof (restart_feed normalize maxlen (normalize_signal_ok texts ints Ht) g es Hg) as Hl. destruct Hg as (H1 & H2 & _ & _ & _ & H6).
  exists done_, es. split; [done|]. split; [done|]. split; [done|]. split; [intros Hx; by rewrite (Hok Hx)|].
  unfold _load_signal_history. rewrite Hfile. split; [done|]. intros Hx Hn. rewrite Hl, (Hok Hx), (untorn_written normalize done_ ltac:(subst r; cbn in He; by subst) [] es Hc).
  destruct g as [c s t]. cbn [feed_cache seen_files feed_file] in *. by subst.
Qed.

Definition demo_signal (file : string) : dict := [("symbol", JStr "sol"); ("price_usd", JStr "1.5"); ("file", JStr file)].
Definition demo_rounds : list ((nat -> option nat) * result (list dict)) :=
  [(fun _ => None, Ok [demo_signal "b.json"; demo_signal "a.json"]); (fun _ => None, Raise TimeoutError);
   (fun _ => None, Ok [demo_signal "c.json"; demo_signal "b.json"])].

Lemma demo_texts_ok : (forall s r, demo_texts s = Some r -> float_text r) /\ (forall z : Z, float_text "1.0").
Proof.
  split; [|intros _; exact one_text]. intros s r. unfold demo_texts. destruct (s =s "1.5"); [|done]. intros [= <-].
  apply (float_num "" "1" ".5" ""); [by left| | |by left|done]; right; [|by exists "5"]. split; [done|]. by exists "1"%char, "".
Qed.

Lemma demo_signal_ok file : raw_ok (demo_signal file).
Proof. split; [|by exists file]. split; [repeat (constructor; [cbn; intuition discriminate|]); constructor|cbn; tauto]. Qed.

Lemma signals_survive_restart_witness : exists f,
  _signal_refresh_loop demo_texts (fun _ => "1.0") 2 demo_rounds no_feed = (f, Ok tt) /\
  length (seen_files f) = 3%nat /\ length (feed_cache f) = 2%nat /\ _load_signal_history 2 (mkFeed [] [] (feed_file f)) = f.
Proof.
  destruct (_signal_refresh_loop demo_texts (fun _ => "1.0") 2 demo_rounds no_feed) as [f [[]|e]] eqn:Ef;
    [|vm_compute in Ef; discriminate].
  exists f. split; [reflexivity|]. split; [vm_compute in Ef; injection Ef as <-; reflexivity|].
  split; [vm_compute in Ef; injection Ef as <-; reflexivity|].
  pose proof (signals_survive_restart demo_texts (fun _ => "1.0") 2 demo_rounds demo_texts_ok) as H. rewrite Ef in H.
  destruct H as (done_ & es & _ & _ & _ & _ & _ & H); [|apply H; [reflexivity|repeat constructor]].
  assert (forall l, List.Forall raw_ok (map demo_signal l)) as Hl by (intros l; rewrite List.Forall_map; apply List.Forall_forall; intros x _; apply demo_signal_ok).
  constructor; [|constructor; [|constructor; [|constructor]]]; (split; [by left|]); intros raws [= <-].
  - exact (Hl ["b.json"; "a.json"]).
  - exact (Hl ["c.json"; "b.json"]).
Defined.

(** A file whose entry cannot be normalized, and no other entry of that file. *)
Lemma poison_raises normalize maxlen raws bad e : In bad raws -> jtruthy (file_of bad) = true -> normalize bad = Raise e ->
  (forall raw, In raw raws -> raw <> bad -> file_of raw <> file_of bad) ->
  forall new f, seen f (file_of bad) = false -> exists f' e', add_new normalize maxlen raws new f = (f', Raise e') /\ seen f' (file_of bad) = false.
Proof.
  induction raws as [|raw raws IH]; intros Hin Ht Hn Hd new f Hs; [done|]. cbn [add_new]. fold (file_of raw).
  destruct (decide (raw = bad)) as [->|Hne]; [rewrite Ht, Hs, Hn; cbn; by exists f, e|].
  assert (In bad raws) as Hin' by (by destruct Hin).
  assert (forall raw', In raw' raws -> raw' <> bad -> file_of raw' <> file_of bad) as Hd' by (intros; apply Hd; [by right|done]).
  destruct (negb (jtruthy (file_of raw)) || seen f (file_of raw)); [by apply IH|].
  destruct (normalize raw) as [d|e'] eqn:En; [|by exists f, e']. apply IH; try done.
  destruct (seen (keep_entry _ _ _ _) (file_of bad)) eqn:E; [|done]. exfalso. apply seen_In in E. unfold keep_entry in E. cbn [seen_files] in E.
  assert (~ In (file_of bad) (seen_files f)) as Hns by (rewrite <- seen_In; congruence).
  destruct (seen f (file_of raw)); [done|]. apply in_app_or in E as [E|[E|[]]]; [done|]. apply (Hd raw); [by left|done|done].
Qed.

Lemma poison_refresh normalize maxlen torn raws bad e f : In bad raws -> jtruthy (file_of bad) = true -> normalize bad = Raise e ->
  (forall raw, In raw raws -> raw <> bad -> file_of raw <> file_of bad) -> seen f (file_of bad) = false ->
  exists f' e', refresh_cache normalize maxlen torn (Ok raws) f = (f', Raise e') /\ seen f' (file_of bad) = false /\ feed_file f' = feed_file f.
Proof.
  intros Hin Ht Hn Hd Hs. unfold refresh_cache. destruct raws as [|raw raws]; [done|].
  destruct (poison_raises normalize maxlen (rev (raw :: raws)) bad e) with (new := @nil dict) (f := f) as (f' & e' & E & Hs').
  - by apply in_rev in Hin.
  - done.
  - done.
  - intros r Hr. apply Hd. by apply in_rev.
  - done.
  - rewrite E. exists f', e'. split; [done|]. split; [done|].
    assert (forall l new g g' r, add_new normalize maxlen l new g = (g', r) -> feed_file g' = feed_file g) as Hfile.
    { clear. induction l as [|x l IH]; intros new g g' r; cbn [add_new]; [by intros [= <- _]|].
      destruct (_ || _); [apply IH|]. destruct (normalize x); [|by intros [= <- _]]. intros H. by apply IH in H as ->. }
    by apply Hfile in E.
Qed.

(** One signal file whose [symbol] is not a text ends the refresh task: as
    long as the file is among those fetched and its name has not been seen, the
    refresh raises, nothing of the round reaches the history file, and the name
    stays unseen, so that the next start of the task ends the same way. *)
Theorem odd_symbol_ends_refresh texts ints maxlen torn raws bad name v f : In bad raws -> file_of bad = JStr name -> truthy name = true ->
  dget bad "symbol" = v -> dlookup "symbol" bad <> None -> (forall s, v <> JStr s) ->
  (forall raw, In raw raws -> raw <> bad -> file_of raw <> file_of bad) -> seen f (JStr name) = false ->
  exists f' e, _refresh_signal_cache texts ints maxlen torn (Ok raws) f = (f', Raise e) /\ seen f' (JStr name) = false /\ feed_file f' = feed_file f.
Proof.
  intros Hin Hf Ht Hv Hk Hs Hd Hn. rewrite <- Hf in *. apply (poison_refresh _ _ _ _ _ (OtherError "AttributeError" "object has no attribute 'upper'")); try done.
  - by rewrite Hf.
  - unfold _normalize_signal. assert (dget_or bad "symbol" (JStr "") = v) as ->.
    { unfold dget in Hv. unfold dget_or. by destruct (dlookup "symbol" bad). }
    destruct v; try done. by destruct (Hs s).
Qed.

Lemma odd_symbol_ends_refresh_witness : exists f' e,
  _refresh_signal_cache demo_texts (fun _ => "1.0") 2 (fun _ => None)
    (Ok [demo_signal "b.json"; [("symbol", JNull); ("file", JStr "x.json")]]) no_feed = (f', Raise e) /\ feed_file f' = None.
Proof.
  destruct (odd_symbol_ends_refresh demo_texts (fun _ => "1.0") 2 (fun _ => None)
              [demo_signal "b.json"; [("symbol", JNull); ("file", JStr "x.json")]] [("symbol", JNull); ("file", JStr "x.json")] "x.json" JNull no_feed)
    as (f' & e & H1 & _ & H3); try done.
  - right. by left.
  - intros raw [<-|[<-|[]]] H; [vm_compute; congruence|done].
  - exists f', e. split; [exact H1|exact H3].
Defined.
