(* ===== verification/Trading.v ===== *)
(** * Trading telemetry

    Snapshots of trading, of strategies and of the sidecar's health that agents
    post: the current values, the bounded histories and their files, the copy of
    a snapshot in MindsDB, and the analytics computed there or, when that fails,
    from the history in memory. *)

From S2P Require Import Prelude PyStr PyTime Json JsonText Policy MindsDb Ranking Sources Messaging Profiles TextLog.
From Stdlib Require Import Ascii QArith.
Open Scope Z_scope.

(** ** Numbers in SQL *)

Section numbers.
(** [float(text)] of a finite number. *)
Variable parse_float : string -> option Q.

(** A value that is no finite number gives the default. *)
Definition _safe_float (value : json) (default : Q) : Q :=
  match to_float parse_float value with Ok q => q | Raise _ => default end.

Definition _safe_int (value : json) (default : Z) : Z :=
  match to_int parse_float value with Ok z => z | Raise _ => default end.

(** [f"{number:.12f}"] *)
Definition fixed12 (number : Q) : string :=
  let n := Z.abs (round_half_even (number * qz (10 ^ 12))) in
  (if Qltb number 0 then "-" else "") +:+ str_of_Z (n / 10 ^ 12) +:+ "." +:+ digits 12 (n mod 10 ^ 12).

Definition _sql_float_literal (value : json) (default : Q) : string :=
  let rendered := rstrip_by (Ascii.eqb ".") (rstrip_by (Ascii.eqb "0") (fixed12 (_safe_float value default))) in
  if negb (truthy rendered) || (rendered =s "-0") then "0" else rendered.
End numbers.

(** ** State *)

Record trading_config := mkTradingConfig {
  MINDSDB_TRADING_AUTOSYNC : bool; MINDSDB_TRADING_DB : string; MINDSDB_TRADING_TABLE : string;
  TRADING_HISTORY_LIMIT : Z; STRATEGY_HISTORY_LIMIT : Z; SIDECAR_HEALTH_HISTORY_LIMIT : Z }.

Definition default_trading_config : trading_config := mkTradingConfig true "files" "trading_metrics" 256 256 200.

Definition initial_trading_metrics : dict :=
  [("updatedAt", JNull); ("openPositions", JInt 0); ("totalValueUsd", JFloat "0.0"); ("unrealizedPnl", JFloat "0.0");
   ("realizedPnl", JFloat "0.0"); ("dailyPnl", JFloat "0.0"); ("positions", JList []); ("priceCacheEntries", JInt 0);
   ("priceCacheMaxAge", JFloat "0.0"); ("priceCacheTtl", JFloat "0.0"); ("priceCacheFreshness", JFloat "0.0");
   ("priceCachePenalty", JFloat "1.0")].
Definition initial_strategy_metrics : dict := [("updatedAt", JNull); ("strategies", JList [])].
Definition initial_sidecar : dict := [("updatedAt", JNull); ("healthy", JNull); ("detail", JStr "unknown")].

(** Current values, history ([deque]) and file. *)
Record telemetry := mkTelemetry { metrics : dict; history : list json; history_file : option string }.

(** [snapshot.get(k, default)] of what a line of the file holds *)
Definition get_or (snapshot : json) (k : string) (default : json) : result json :=
  match snapshot with
  | JObj d => Ok (dget_or d k default)
  | _ => Raise (OtherError "AttributeError" "object has no attribute 'get'")
  end.

(** [metrics[key] = snapshot.get(field, default)] in turn. *)
Fixpoint apply_fields (fields : list (string * string * json)) (snapshot : json) (m : dict) : result dict :=
  match fields with
  | [] => Ok m
  | (key, field, default) :: rest =>
      let! v := get_or snapshot field default in apply_fields rest snapshot (dset key v m)
  end.

Definition trading_fields : list (string * string * json) :=
  [("updatedAt", "timestamp", JNull); ("openPositions", "open_positions", JInt 0); ("totalValueUsd", "total_value_usd", JFloat "0.0");
   ("unrealizedPnl", "unrealized_pnl", JFloat "0.0"); ("realizedPnl", "realized_pnl", JFloat "0.0"); ("dailyPnl", "daily_pnl", JFloat "0.0");
   ("positions", "positions", JList []); ("priceCacheEntries", "price_cache_entries", JInt 0);
   ("priceCacheMaxAge", "price_cache_max_age", JFloat "0.0"); ("priceCacheTtl", "price_cache_ttl", JFloat "0.0");
   ("priceCacheFreshness", "price_cache_freshness", JFloat "0.0"); ("priceCachePenalty", "price_cache_penalty", JFloat "1.0")].
Definition strategy_fields : list (string * string * json) :=
  [("updatedAt", "timestamp", JNull); ("strategies", "strategies", JList [])].

Definition _apply_trading_snapshot : json -> dict -> result dict := apply_fields trading_fields.
Definition _apply_strategy_snapshot : json -> dict -> result dict := apply_fields strategy_fields.

(** The lines of the file up to the first
    that is not JSON; the last of them becomes current unless there was one. *)
Definition load_telemetry (fields : list (string * string * json)) (maxlen : nat) (t : telemetry) : telemetry :=
  match history_file t with
  | None => t
  | Some text =>
      let '(h, loaded) := load_lines (fun v h => (deque_push maxlen v h, Ok tt)) (text_lines text) (history t) in
      let m := match loaded, h with
               | Ok _, _ :: _ => match apply_fields fields (List.last h JNull) (metrics t) with Ok m => m | Raise _ => metrics t end
               | _, _ => metrics t
               end in
      mkTelemetry m h (history_file t)
  end.
Definition _load_trading_history (TC : trading_config) := load_telemetry trading_fields (Z.to_nat (TRADING_HISTORY_LIMIT TC)).
Definition _load_strategy_history (TC : trading_config) := load_telemetry strategy_fields (Z.to_nat (STRATEGY_HISTORY_LIMIT TC)).

Definition persist_snapshot (torn : option nat) (snapshot : json) (t : telemetry) : telemetry :=
  mkTelemetry (metrics t) (history t) (append_line torn snapshot (history_file t)).

Definition _persist_trading_snapshot := persist_snapshot.
Definition _persist_strategy_snapshot := persist_snapshot.

(** The part of [ingest_trading] and [ingest_strategy_metrics] that is common:
    the snapshot becomes current, joins the history and is written. *)
Definition ingest (fields : list (string * string * json)) (maxlen : nat) (torn : option nat) (snapshot : dict) (t : telemetry) : telemetry :=
  let m := match apply_fields fields (JObj snapshot) (metrics t) with Ok m => m | Raise _ => metrics t end in
  persist_snapshot torn (JObj snapshot) (mkTelemetry m (deque_push maxlen (JObj snapshot) (history t)) (history_file t)).

(** [list(history)[-limit:]] *)
Definition get_history (LIMIT limit : Z) (t : telemetry) : list json := lastn (Z.to_nat (Z.max 1 (Z.min limit LIMIT))) (history t).
Definition get_trading_history (TC : trading_config) := get_history (TRADING_HISTORY_LIMIT TC).
Definition get_strategy_history (TC : trading_config) := get_history (STRATEGY_HISTORY_LIMIT TC).

(** ** Snapshots *)

(** A float as its [repr], a stamp as its [isoformat()]. *)
Record TradingMetrics := mkTradingMetrics {
  tm_timestamp : string; tm_open_positions : Z; tm_total_value_usd : string; tm_unrealized_pnl : string; tm_realized_pnl : string;
  tm_daily_pnl : string; tm_positions : list dict; tm_price_cache_entries : option Z; tm_price_cache_max_age : option string;
  tm_price_cache_ttl : option string; tm_price_cache_freshness : option string; tm_price_cache_penalty : option string }.

Definition opt_float (r : option string) : json := match r with Some r => JFloat r | None => JNull end.

(** [payload.model_dump()], with the stamp as a text *)
Definition trading_snapshot (p : TradingMetrics) : dict :=
  [("timestamp", JStr (tm_timestamp p)); ("open_positions", JInt (tm_open_positions p)); ("total_value_usd", JFloat (tm_total_value_usd p));
   ("unrealized_pnl", JFloat (tm_unrealized_pnl p)); ("realized_pnl", JFloat (tm_realized_pnl p)); ("daily_pnl", JFloat (tm_daily_pnl p));
   ("positions", JList (map JObj (tm_positions p)));
   ("price_cache_entries", match tm_price_cache_entries p with Some n => JInt n | None => JNull end);
   ("price_cache_max_age", opt_float (tm_price_cache_max_age p)); ("price_cache_ttl", opt_float (tm_price_cache_ttl p));
   ("price_cache_freshness", opt_float (tm_price_cache_freshness p)); ("price_cache_penalty", opt_float (tm_price_cache_penalty p))].

(** ** MindsDB *)

Section sync.
Variable M : mindsdb_config.
Variable TC : trading_config.
(** Errors and answers of MindsDB, and readings of the clock, by call. *)
Variable respond : nat -> option exn.
Variable answer : nat -> dict.
Variable clock : nat -> Z.
Variable parse_float : string -> option Q.

Record trading_sync := mkSync { minds : mindsdb_state; mindsdb_trading_table_ready : bool }.
Abbreviation M_ := (ST trading_sync).

Definition in_minds {A} (m : ST mindsdb_state A) : M_ A := fun s =>
  let '(d, r) := m (minds s) in (mkSync d (mindsdb_trading_table_ready s), r).

Definition trading_table : string := MINDSDB_TRADING_DB TC +:+ "." +:+ MINDSDB_TRADING_TABLE TC.
Definition trading_off : bool := negb (MINDSDB_ENABLED M) || negb (MINDSDB_TRADING_AUTOSYNC TC).

Definition create_query : string :=
  "CREATE TABLE IF NOT EXISTS " +:+ trading_table +:+ " (timestamp TEXT, open_positions DOUBLE, total_value_usd DOUBLE, " +:+
  "unrealized_pnl DOUBLE, realized_pnl DOUBLE, daily_pnl DOUBLE, price_cache_entries DOUBLE, price_cache_max_age DOUBLE, " +:+
  "price_cache_ttl DOUBLE, price_cache_freshness DOUBLE, price_cache_penalty DOUBLE);".

Definition ensure_mindsdb_trading_table : M_ unit := fun s =>
  if trading_off || mindsdb_trading_table_ready s then (s, Ok tt)
  else
    (in_minds (_ensure_mindsdb_database_exists respond (MINDSDB_TRADING_DB TC)) ;;;
     st_try (in_minds (_mindsdb_execute respond create_query))
       (fun exc => if negb (_looks_like_mindsdb_table_exists (exn_str exc)) then st_raise exc else st_ret tt) ;;;
     in_minds (_mindsdb_execute respond ("SELECT COUNT(*) AS c FROM " +:+ trading_table +:+ ";")) ;;;
     st_modify (fun s => mkSync (minds s) true)) s.

Definition insert_query (timestamp : string) (snapshot : dict) : string :=
  let num k default := _sql_float_literal parse_float (dget snapshot k) default in
  "INSERT INTO " +:+ trading_table +:+ " (timestamp, open_positions, total_value_usd, unrealized_pnl, realized_pnl, daily_pnl, " +:+
  "price_cache_entries, price_cache_max_age, price_cache_ttl, price_cache_freshness, price_cache_penalty) VALUES (" +:+
  join ", " [ "'" +:+ _escape_sql_literal timestamp +:+ "'"; str_of_Z (_safe_int parse_float (dget snapshot "open_positions") 0);
              num "total_value_usd" 0%Q; num "unrealized_pnl" 0%Q; num "realized_pnl" 0%Q; num "daily_pnl" 0%Q;
              num "price_cache_entries" 0%Q; num "price_cache_max_age" 0%Q; num "price_cache_ttl" 0%Q;
              num "price_cache_freshness" 0%Q; num "price_cache_penalty" 1%Q ] +:+ ");".

Definition push_trading_snapshot_to_mindsdb (snapshot : dict) : M_ unit :=
  if trading_off then st_ret tt
  else
    ensure_mindsdb_trading_table ;;;
    now <- in_minds (utc_now clock) ;;
    in_minds (_mindsdb_execute respond (insert_query (jstr (jor (dget snapshot "timestamp") (JStr now))) snapshot)).

Record ingested := mkIngested { historySize : Z; mindsdb_synced : bool; warning : option string }.

Definition ingest_trading (torn : option nat) (payload : TradingMetrics) (st : telemetry * trading_sync) : (telemetry * trading_sync) * ingested :=
  let '(t, s) := st in
  let snapshot := trading_snapshot payload in
  let t := ingest trading_fields (Z.to_nat (TRADING_HISTORY_LIMIT TC)) torn snapshot t in
  let size := Z.of_nat (length (history t)) in
  if trading_off then ((t, s), mkIngested size false None)
  else match push_trading_snapshot_to_mindsdb snapshot s with
       | (s, Ok _) => ((t, s), mkIngested size true None)
       | (s, Raise exc) => ((t, s), mkIngested size false (Some (exn_str exc)))
       end.

Definition ingest_strategy_metrics (torn : option nat) (snapshot : dict) (t : telemetry) : telemetry * Z :=
  let t := ingest strategy_fields (Z.to_nat (STRATEGY_HISTORY_LIMIT TC)) torn snapshot t in (t, Z.of_nat (length (history t))).

(** ** Analytics *)

Record analytics := mkAnalytics {
  total_trades : Z; win_rate : Q; total_pnl : Q; avg_position_size : Q; avg_cache_freshness : Q; computed_at : string;
  an_source : string; an_warning : option string }.

(** [h.get] of every entry of the history *)
Fixpoint dict_rows_or_fail (l : list json) : result (list dict) :=
  match l with
  | [] => Ok []
  | JObj d :: rest => let! ds := dict_rows_or_fail rest in Ok (d :: ds)
  | _ => Raise (OtherError "AttributeError" "object has no attribute 'get'")
  end.

(** [{"error": "No trading history available", ...}] without a history. *)
Definition _local_fallback (now : Z) (t : telemetry) (why : string) : result (option analytics) :=
  match dict_rows_or_fail (history t) with
  | Raise e => Raise e
  | Ok [] => Ok None
  | Ok rows =>
      let n := Z.of_nat (length rows) in
      let num k (h : dict) := _safe_float parse_float (dget h k) 0 in
      let sum l := fold_left Qplus l 0%Q in
      let profitable := Z.of_nat (length (List.filter (fun h => Qltb 0 (num "realized_pnl" h)) rows)) in
      let fresh := map (num "price_cache_freshness") (List.filter (fun h => match dget h "price_cache_freshness" with JNull => false | _ => true end) rows) in
      Ok (Some (mkAnalytics n (rnd 4 (qz profitable / qz n)) (rnd 2 (sum (map (num "realized_pnl") rows)))
                  (rnd 2 (sum (map (num "total_value_usd") rows) / qz n))
                  (rnd 4 (match fresh with [] => 0%Q | _ => (sum fresh / qlen fresh)%Q end)) (_utc_now now) "local_history" (Some why)))
  end.

Definition analytics_query : string :=
  "SELECT COUNT(*) AS total_trades, SUM(CASE WHEN realized_pnl > 0 THEN 1 ELSE 0 END) AS profitable_trades, " +:+
  "COALESCE(SUM(realized_pnl), 0) AS total_pnl, COALESCE(AVG(total_value_usd), 0) AS avg_position_size, " +:+
  "COALESCE(AVG(price_cache_freshness), 0) AS avg_cache_freshness FROM " +:+ trading_table +:+ ";".

(** [await _mindsdb_execute(sql)] with what it answers *)
Definition query_rows (sql : string) : M_ (list dict) := fun s =>
  match in_minds (_mindsdb_execute respond sql) s with
  | (s', Ok _) => (s', Ok (_mindsdb_rows (answer (calls (minds s)))))
  | (s', Raise e) => (s', Raise e)
  end.

Definition analytics_of_row (now : Z) (row : dict) : analytics :=
  let n := _safe_int parse_float (dget row "total_trades") 0 in
  let profitable := _safe_int parse_float (dget row "profitable_trades") 0 in
  let num k := _safe_float parse_float (dget row k) 0 in
  mkAnalytics n (rnd 4 (if 0 <? n then qz profitable / qz n else 0)) (rnd 2 (num "total_pnl")) (rnd 2 (num "avg_position_size"))
    (rnd 4 (num "avg_cache_freshness")) (_utc_now now) "mindsdb_sql" None.

(** [None]: the answer that there is no history. *)
Definition compute_trading_analytics_mindsdb (now : Z) (t : telemetry) : M_ (option analytics) := fun s =>
  if trading_off then (s, _local_fallback now t "MindsDB trading analytics disabled")
  else match (ensure_mindsdb_trading_table ;;; query_rows analytics_query) s with
       | (s, Ok []) => (s, _local_fallback now t "MindsDB returned no rows")
       | (s, Ok (row :: _)) => (s, Ok (Some (analytics_of_row now row)))
       | (s, Raise exc) => (s, _local_fallback now t (exn_str exc))
       end.
End sync.

(** ** The sidecar *)

(** [state.update(entry)] and the bounded history. *)
Definition sidecar_entry (timestamp : string) (healthy : bool) (detail : string) : dict :=
  [("timestamp", JStr timestamp); ("healthy", JBool healthy); ("detail", JStr detail)].

Definition ingest_sidecar_health (maxlen : nat) (timestamp : string) (healthy : bool) (detail : string) (st : dict * list dict)
  : (dict * list dict) * Z :=
  let entry := sidecar_entry timestamp healthy detail in
  let history := deque_push maxlen entry (snd st) in
  ((dupdate (fst st) entry, history), Z.of_nat (length history)).

Definition get_sidecar_health (LIMIT limit : Z) (st : dict * list dict) : dict :=
  dset "history" (JList (map JObj (rev (lastn (Z.to_nat (Z.max 1 (Z.min limit LIMIT))) (snd st))))) (fst st).
