(* ===== verification/TradingFacts.v ===== *)
(** * Proofs about trading telemetry

    A number written into SQL reads back as itself to twelve decimals; the
    histories survive a restart, up to a line that was torn; the analytics answer
    whatever MindsDB does. *)

From S2P Require Import Prelude PyStr PyTime Json JsonText Policy MindsDb Ranking RankingFacts SourcePolicy Sources Messaging Profiles Tasks TextLog TextLogFacts Trading.
From Stdlib Require Import Ascii QArith Qround Lqa.
Open Scope Z_scope.

(** ** Numbers in SQL *)

(** A decimal literal: a sign, digits, and digits after a point. *)
Definition digit_of (c : ascii) : Q := qz (Z.of_N (N_of_ascii c) - 48).
Fixpoint fraction (s : string) : Q := match s with EmptyString => 0%Q | String c s' => ((digit_of c + fraction s') * (1 # 10))%Q end.

Definition unsigned_number (s : string) : option Q :=
  let '(a, r) := span_digits s in
  match int_of_digits 0 a, r with
  | Some z, EmptyString => if truthy a then Some (qz z) else None
  | Some z, String c f => if truthy a && Ascii.eqb c "." && truthy f && all_digits f then Some (qz z + fraction f)%Q else None
  | None, _ => None
  end.
Definition sql_number (s : string) : option Q :=
  match s with
  | String c s' => if Ascii.eqb c "-" then option_map Qopp (unsigned_number s') else unsigned_number s
  | EmptyString => None
  end.

Lemma fraction_app s t : (fraction (s +:+ t) == fraction s + fraction t * (1 # Z.to_pos (10 ^ Z.of_nat (String.length s))))%Q.
Proof.
  induction s as [|c s IH].
  - change ("" +:+ t) with t. cbn [fraction String.length]. change (Z.to_pos (10 ^ Z.of_nat 0)) with 1%positive. ring.
  - rewrite append_cons. cbn [fraction String.length]. rewrite IH. rewrite Nat2Z.inj_succ, Z.pow_succ_r by lia.
    assert (0 < 10 ^ Z.of_nat (String.length s)) as Hp by (apply Z.pow_pos_nonneg; lia).
    assert ((1 # Z.to_pos (10 * 10 ^ Z.of_nat (String.length s))) == (1 # 10) * (1 # Z.to_pos (10 ^ Z.of_nat (String.length s))))%Q as ->.
    { unfold Qeq. cbn. lia. }
    ring.
Qed.

Lemma digits_snoc n z : digits (S n) z = digits n (z / 10) +:+ String (Ascii.ascii_of_N (Z.to_N (48 + z mod 10))) "".
Proof. done. Qed.

Lemma digit_of_code d : 0 <= d < 10 -> (digit_of (Ascii.ascii_of_N (Z.to_N (48 + d))) == qz d)%Q.
Proof. intros H. unfold digit_of. rewrite N_ascii_embedding by lia. rewrite Z2N.id by lia. by replace (48 + d - 48) with d by lia. Qed.

Lemma fraction_digits n z : 0 <= z < 10 ^ Z.of_nat n -> (fraction (digits n z) == z # Z.to_pos (10 ^ Z.of_nat n))%Q.
Proof.
  revert z. induction n as [|n IH]; intros z Hz.
  - cbn in *. replace z with 0 by lia. reflexivity.
  - rewrite digits_snoc, fraction_app, digits_length. cbn [fraction]. rewrite Nat2Z.inj_succ, Z.pow_succ_r in * by lia.
    pose proof (Z.div_mod z 10 ltac:(lia)) as Hd. pose proof (Z.mod_pos_bound z 10 ltac:(lia)) as Hm.
    rewrite IH by (split; [apply Z.div_pos; lia|apply Z.div_lt_upper_bound; lia]). rewrite digit_of_code by done.
    assert (0 < 10 ^ Z.of_nat n) as Hp by (apply Z.pow_pos_nonneg; lia).
    set (q := z / 10) in *. set (r := z mod 10) in *. rewrite Hd. unfold qz, inject_Z, Qeq, Qplus, Qmult. cbn [Qnum Qden].
    rewrite !Pos2Z.inj_mul. rewrite !Z2Pos.id by lia. ring.
Qed.

Lemma fraction_rstrip s : (fraction (rstrip_by (Ascii.eqb "0") s) == fraction s)%Q.
Proof.
  induction s as [|c s IH]; [reflexivity|]. cbn [rstrip_by fraction]. rewrite <- IH. destruct (rstrip_by _ s) as [|d t] eqn:E; [|reflexivity].
  cbn [fraction]. destruct (Ascii.eqb "0" c) eqn:Ec; [|reflexivity]. apply Ascii.eqb_eq in Ec as <-. reflexivity.
Qed.

Lemma all_digits_rstrip s : all_digits s = true -> all_digits (rstrip_by (Ascii.eqb "0") s) = true.
Proof.
  induction s as [|c s IH]; [done|]. cbn [all_digits rstrip_by]. intros [Hc Hs]%andb_true_iff. specialize (IH Hs).
  destruct (rstrip_by _ s); [destruct (Ascii.eqb "0" c); cbn; by rewrite ?Hc|]. cbn [all_digits] in *. by rewrite Hc.
Qed.

Lemma rstrip_app p s c t : p c = false -> rstrip_by p (s +:+ String c t) = s +:+ String c (rstrip_by p t).
Proof.
  intros Hc. induction s as [|d s IH].
  - change ("" +:+ ?x) with x. cbn [rstrip_by]. destruct (rstrip_by p t); [by rewrite Hc|done].
  - rewrite !append_cons. cbn [rstrip_by]. rewrite IH. by destruct s.
Qed.

(** Digits end in a digit. *)
Lemma digits_end_no_point s : all_digits s = true -> rstrip_by (Ascii.eqb ".") s = s.
Proof.
  induction s as [|c s IH]; [done|]. cbn [all_digits rstrip_by]. intros [Hc Hs]%andb_true_iff. rewrite IH by done.
  destruct s; [|done]. by rewrite Ascii.eqb_sym, (not_digit_neq c ".").
Qed.

Lemma rstrip_keep p a b : b <> "" -> rstrip_by p b = b -> rstrip_by p (a +:+ b) = a +:+ b.
Proof.
  intros Hb Hr. induction a as [|c a IH]; [done|]. rewrite append_cons. cbn [rstrip_by]. rewrite IH.
  destruct (a +:+ b) eqn:E; [|done]. by destruct a, b.
Qed.

Lemma int_text_digits a : int_text a -> all_digits a = true /\ a <> "".
Proof. intros [->|[H (c & s & -> & _)]]; done. Qed.

(** The digits of a literal without their trailing zeros. *)
Definition trimmed (a d : string) : string :=
  match rstrip_by (Ascii.eqb "0") d with EmptyString => a | f => a +:+ String "." f end.

Lemma trim_point sg a d : In sg [""; "-"] -> int_text a -> all_digits d = true ->
  rstrip_by (Ascii.eqb ".") (rstrip_by (Ascii.eqb "0") (sg +:+ a +:+ "." +:+ d)) = sg +:+ trimmed a d.
Proof.
  intros Hsg Ha Hd. destruct (int_text_digits a Ha) as [Had Hne]. rewrite <- append_assoc. change ("." +:+ d) with (String "." d).
  rewrite rstrip_app by done. pose proof (all_digits_rstrip d Hd) as Hf. unfold trimmed.
  destruct (rstrip_by (Ascii.eqb "0") d) as [|c f]; [|].
  - rewrite append_assoc. transitivity (rstrip_by (Ascii.eqb ".") (sg +:+ a)).
    + rewrite <- append_assoc. generalize (sg +:+ a). intros x. induction x as [|y x IH]; [done|].
      rewrite append_cons. cbn [rstrip_by]. by rewrite IH.
    + apply rstrip_keep; [done|by apply digits_end_no_point].
  - rewrite append_assoc. change (String "." (String c f)) with ("." +:+ String c f). rewrite <- !append_assoc.
    apply rstrip_keep; [done|by apply digits_end_no_point].
Qed.

Lemma trimmed_value a d z : int_text a -> int_of_digits 0 a = Some z -> all_digits d = true ->
  exists v, unsigned_number (trimmed a d) = Some v /\ (v == qz z + fraction d)%Q.
Proof.
  intros Ha Hz Hd. destruct (int_text_digits a Ha) as [Had Hne]. assert (truthy a = true) as Hta by (by destruct a).
  pose proof (fraction_rstrip d) as Hf. pose proof (all_digits_rstrip d Hd) as Hdf. unfold trimmed, unsigned_number.
  destruct (rstrip_by (Ascii.eqb "0") d) as [|c f] eqn:E.
  - pose proof (span_digits_app a "" Had eq_refl) as Hs. rewrite append_nil_r in Hs. rewrite Hs, Hz, Hta. exists (qz z). split; [done|]. rewrite <- Hf. cbn. ring.
  - rewrite span_digits_app by done. rewrite Hz, Hta. change (Ascii.eqb "." ".") with true. change (truthy (String c f)) with true. cbn [andb].
    rewrite Hdf. eexists. split; [done|]. by rewrite Hf.
Qed.

Lemma sql_number_signed sg s v : In sg [""; "-"] -> unsigned_number s = Some v -> (exists c t, s = String c t /\ is_digit c = true) ->
  sql_number (sg +:+ s) = Some (if truthy sg then - v else v)%Q.
Proof.
  intros Hsg Hv (c & t & -> & Hc). destruct Hsg as [<-|[<-|[]]].
  - change ("" +:+ ?x) with x. cbn [sql_number]. rewrite (not_digit_neq c "-") by done. done.
  - change ("-" +:+ ?x) with (String "-" x). cbn [sql_number]. change (Ascii.eqb "-" "-") with true. cbn beta iota. by rewrite Hv.
Qed.

Lemma trimmed_head a d : int_text a -> exists c t, trimmed a d = String c t /\ is_digit c = true.
Proof.
  intros Ha. destruct (int_text_head a Ha) as (c & t & -> & Hc). unfold trimmed. destruct (rstrip_by _ d) as [|x f]; [by exists c, t|].
  exists c, (t +:+ String "." (String x f)). by rewrite append_cons.
Qed.

Lemma round_sign q : (if Qltb q 0 then - Z.abs (round_half_even q) else Z.abs (round_half_even q)) = round_half_even q.
Proof.
  destruct (Qltb q 0) eqn:E.
  - apply Qltb_true in E. pose proof (round_half_even_mono q 0 ltac:(lra)) as H. change (round_half_even 0) with 0 in H. lia.
  - apply Qltb_false in E. pose proof (round_half_even_mono 0 q E) as H. change (round_half_even 0) with 0 in H. lia.
Qed.

Lemma literal_value n : 0 <= n -> exists v,
  unsigned_number (trimmed (str_of_Z (n / 10 ^ 12)) (digits 12 (n mod 10 ^ 12))) = Some v /\ (v == n # Z.to_pos (10 ^ 12))%Q /\
  int_text (str_of_Z (n / 10 ^ 12)).
Proof.
  intros Hn. assert (0 <= n / 10 ^ 12) as Hq by (apply Z.div_pos; lia). pose proof (Z.mod_pos_bound n (10 ^ 12) ltac:(lia)) as Hm.
  assert (str_of_Z (n / 10 ^ 12) = abs_text (n / 10 ^ 12)) as ->.
  { unfold str_of_Z. destruct (Z.ltb_spec (n / 10 ^ 12) 0); [lia|]. rewrite Z.abs_eq by done. done. }
  destruct (abs_text_spec (n / 10 ^ 12) Hq) as [Ht Hv].
  destruct (trimmed_value _ (digits 12 (n mod 10 ^ 12)) _ Ht Hv (digits_all _ _)) as (v & H1 & H2).
  exists v. split; [done|]. split; [|done]. rewrite H2, (fraction_digits 12 (n mod 10 ^ 12)) by done.
  pose proof (Z.div_mod n (10 ^ 12) ltac:(lia)) as Hd. set (q := n / 10 ^ 12) in *. set (r := n mod 10 ^ 12) in *.
  unfold qz, inject_Z, Qeq, Qplus. cbn [Qnum Qden]. change (Zpos (Z.to_pos (10 ^ Z.of_nat 12))) with (10 ^ 12).
  change (Zpos (1 * Z.to_pos (10 ^ Z.of_nat 12))) with (10 ^ 12). change (Zpos (Z.to_pos (10 ^ 12))) with (10 ^ 12). lia.
Qed.

Lemma sql_literal_reads parse_float value default : exists v,
  sql_number (_sql_float_literal parse_float value default) = Some v /\ (v == rnd 12 (_safe_float parse_float value default))%Q.
Proof.
  unfold _sql_float_literal, fixed12. set (q := _safe_float parse_float value default). clearbody q.
  assert (exists sg, In sg [""; "-"] /\ (if Qltb q 0 then "-" else "") = sg /\ truthy sg = Qltb q 0) as (sg & Hsg & -> & Hts).
  { destruct (Qltb q 0); [exists "-"|exists ""]; cbn; tauto. }
  set (n := Z.abs _). destruct (literal_value n ltac:(lia)) as (v & H1 & H2 & H3).
  rewrite (trim_point sg _ (digits 12 (n mod 10 ^ 12)) Hsg H3 (digits_all _ _)). set (t := trimmed _ _) in *.
  destruct (trimmed_head _ (digits 12 (n mod 10 ^ 12)) H3) as (c & s & Hc & Hdig). fold t in Hc.
  assert (truthy (sg +:+ t) = true) as -> by (destruct Hsg as [<-|[<-|[]]]; by rewrite Hc). cbn [negb orb].
  assert ((if truthy sg then - v else v) == rnd 12 q)%Q as Hval.
  { rewrite Hts. unfold rnd. change (pow10 12) with (Z.to_pos (10 ^ 12)). change (qz (Zpos (Z.to_pos (10 ^ 12)))) with (qz (10 ^ 12)).
    rewrite <- (round_sign (q * qz (10 ^ 12))). assert (Qltb (q * qz (10 ^ 12)) 0 = Qltb q 0) as ->.
    { destruct (Qltb q 0) eqn:E; [apply Qltb_true in E; apply Qltb_true|apply Qltb_false in E; apply Qltb_false];
        change (qz (10 ^ 12)) with 1000000000000%Q; lra. }
    fold n. destruct (Qltb q 0); rewrite H2; unfold Qeq; cbn; lia. }
  destruct (sg +:+ t =s "-0") eqn:E0.
  - exists 0%Q. split; [reflexivity|]. rewrite <- Hval. apply String.eqb_eq in E0. destruct Hsg as [<-|[<-|[]]].
    + change ("" +:+ t) with t in E0. rewrite Hc in E0. injection E0 as -> _. done.
    + change ("-" +:+ t) with (String "-" t) in E0. injection E0 as E0. rewrite E0 in H1. vm_compute in H1. injection H1 as <-. reflexivity.
  - exists (if truthy sg then - v else v)%Q. split; [|done]. apply sql_number_signed; [done|done|]. by exists c, s.
Qed.

(** A number is written into an SQL statement as a decimal literal that
    reads back as the number rounded to twelve decimals, whatever the value is:
    a text, a missing value or something else gives the default. *)
Theorem sql_numbers_read_back parse_float value default : exists v,
  sql_number (_sql_float_literal parse_float value default) = Some v /\ (v == rnd 12 (_safe_float parse_float value default))%Q.
Proof. apply sql_literal_reads. Qed.

(** ** Current values *)

Definition key_of (f : string * string * json) : string := fst (fst f).
(** What a snapshot makes of the metrics. *)
Definition metrics_of (fields : list (string * string * json)) (d : dict) : dict :=
  map (fun f => (key_of f, dget_or d (snd (fst f)) (snd f))) fields.

Lemma dset_middle k v v' a b : ~ In k (map fst a) -> dset k v (a ++ (k, v') :: b) = a ++ (k, v) :: b.
Proof.
  induction a as [|[k' x] a IH]; cbn [app dset map fst]; intros H; [by rewrite String.eqb_refl|].
  destruct (k =s k') eqn:E; blift; [subst; destruct H; by left|]. f_equal. apply IH. intros Hi. apply H. by right.
Qed.

Lemma apply_after fields d a m : List.NoDup (map fst a ++ map key_of fields) -> map fst m = map key_of fields ->
  apply_fields fields (JObj d) (a ++ m) = Ok (a ++ metrics_of fields d).
Proof.
  revert a m. induction fields as [|[[k field] default] fields IH]; intros a m Hnd Hm.
  - by destruct m.
  - destruct m as [|[k' v] m]; [done|]. cbn [map fst key_of] in Hm, Hnd. injection Hm as -> Hm. cbn [apply_fields get_or rbind].
    change (key_of (k, field, default)) with k in *. rewrite dset_middle.
    2: { intros Hi. apply List.NoDup_remove_2 in Hnd. apply Hnd, in_or_app. by left. }
    rewrite (app_assoc a [_] m : a ++ _ :: m = (a ++ [_]) ++ m), IH; [|by rewrite map_app, <- app_assoc|done].
    rewrite <- app_assoc. done.
Qed.

Section telemetry_facts.
Variable fields : list (string * string * json).
Hypothesis fields_distinct : List.NoDup (map key_of fields).
Variable maxlen : nat.
Hypothesis room : (0 < maxlen)%nat.

Lemma applied d m : map fst m = map key_of fields -> apply_fields fields (JObj d) m = Ok (metrics_of fields d).
Proof. intros H. exact (apply_after fields d [] m fields_distinct H). Qed.

Lemma metrics_keys d : map fst (metrics_of fields d) = map key_of fields.
Proof. unfold metrics_of. by rewrite map_map. Qed.

Definition ingests (snapshots : list dict) (t : telemetry) : telemetry := fold_left (fun t s => ingest fields maxlen None s t) snapshots t.

Lemma ingests_state snapshots t : map fst (metrics t) = map key_of fields -> (length (history t) <= maxlen)%nat ->
  history (ingests snapshots t) = lastn maxlen (history t ++ map JObj snapshots) /\
  history_file (ingests snapshots t) = fold_left (fun f v => append_line None v f) (map JObj snapshots) (history_file t) /\
  metrics (ingests snapshots t) = match snapshots with [] => metrics t | _ => metrics_of fields (List.last snapshots []) end.
Proof.
  revert t. induction snapshots as [|s snapshots IH]; intros t Hk Hl.
  - cbn. by rewrite app_nil_r, lastn_all.
  - change (ingests (s :: snapshots) t) with (ingests snapshots (ingest fields maxlen None s t)).
    assert (ingest fields maxlen None s t = mkTelemetry (metrics_of fields s) (deque_push maxlen (JObj s) (history t)) (append_line None (JObj s) (history_file t))) as ->
      by (unfold ingest; by rewrite applied).
    destruct (IH (mkTelemetry (metrics_of fields s) (deque_push maxlen (JObj s) (history t)) (append_line None (JObj s) (history_file t)))) as (-> & -> & ->).
    { apply metrics_keys. }
    { cbn [history]. unfold deque_push. rewrite lastn_length. lia. }
    cbn [history metrics history_file map fold_left]. split; [|split; [done|by destruct snapshots]]. unfold deque_push.
    destruct (map JObj snapshots); [|by rewrite lastn_snoc, <- app_assoc]. rewrite app_nil_r. apply lastn_all. rewrite lastn_length. lia.
Qed.

(** Reading the lines of a log. *)
Abbreviation push := (fun v h => (deque_push maxlen v h, Ok tt)).

Lemma load_log vs rest h : List.Forall log_entry_ok vs ->
  load_lines push (map dumps vs ++ rest) h = load_lines push rest (fold_left (fun h v => deque_push maxlen v h) vs h).
Proof.
  intros H. revert h. induction H as [|v vs [Hw Hd] Hvs IH]; intros h; [done|]. cbn [map app load_lines fold_left].
  destruct v as [| | | | | |d]; try done. rewrite strip_dict. change (truthy (dumps (JObj d))) with true. cbn [negb]. rewrite loads_dumps by done.
  unfold st_bind. apply IH.
Qed.

Lemma dicts_ok snapshots : List.Forall (fun d => json_wf (JObj d)) snapshots -> List.Forall log_entry_ok (map JObj snapshots).
Proof. intros H. rewrite List.Forall_map. eapply List.Forall_impl; [|exact H]. by intros d. Qed.

Lemma reload snapshots m0 : map fst m0 = map key_of fields -> List.Forall (fun d => json_wf (JObj d)) snapshots ->
  let t := ingests snapshots (mkTelemetry m0 [] None) in
  load_telemetry fields maxlen (mkTelemetry m0 [] (history_file t)) = t.
Proof.
  intros Hk Hw t. destruct (ingests_state snapshots (mkTelemetry m0 [] None) Hk ltac:(cbn; lia)) as (H1 & H2 & H3). fold t in H1, H2, H3.
  cbn [history history_file metrics app] in *. unfold load_telemetry. cbn [history_file history metrics]. destruct t as [tm th tf].
  cbn [history history_file metrics] in *. rewrite H2, appended in *. destruct snapshots as [|s snapshots]; [by subst|]. cbn [map] in *.
  change ("" +:+ ?x) with x in *. change (JObj s :: map JObj snapshots) with (map JObj (s :: snapshots)) in *.
  pose proof (dicts_ok _ Hw) as Hok. rewrite text_lines_log by (by apply entries_wf).
  rewrite <- (app_nil_r (map dumps _)), load_log by done. cbn [load_lines st_ret]. rewrite fold_deque by (cbn; lia). cbn [app].
  assert (List.last (lastn maxlen (map JObj (s :: snapshots))) JNull = JObj (List.last (s :: snapshots) [])) as Hlast.
  { rewrite last_lastn by done. clear. revert s. induction snapshots as [|s' l IH]; intros s; [done|]. apply IH. }
  destruct (lastn maxlen (map JObj (s :: snapshots))) as [|x xs] eqn:E.
  { apply (f_equal length) in E. rewrite lastn_length in E. cbn in E. lia. }
  rewrite Hlast, applied by done. by subst.
Qed.

(** A line that is not JSON ends the loading, and nothing becomes current. *)
Lemma torn_line_hides vs bad rest t : List.Forall log_entry_ok vs -> history_file t = Some (log_text vs +:+ bad +:+ nl +:+ rest) ->
  all_chars printable bad = true -> truthy (strip bad) = true -> loads (strip bad) = None -> (length (history t) <= maxlen)%nat ->
  load_telemetry fields maxlen t = mkTelemetry (metrics t) (lastn maxlen (history t ++ vs)) (history_file t).
Proof.
  intros Hvs Hf Hp Ht Hb Hl. unfold load_telemetry. rewrite Hf. rewrite text_lines_log_app by (by apply entries_wf). rewrite load_log by done.
  unfold text_lines. rewrite text_lines_printable by done. change (nl +:+ rest) with (String LF rest). change ("" +:+ bad) with bad.
  cbn [text_lines_from]. change (Ascii.eqb LF LF) with true. cbn beta iota. cbn [load_lines]. rewrite Ht, Hb. cbn [negb st_raise].
  by rewrite fold_deque.
Qed.
End telemetry_facts.

(** ** Trading *)

Section posting.
Variable M : mindsdb_config.
Variable TC : trading_config.
Variable respond : nat -> option exn.
Variable clock : nat -> Z.
Variable parse_float : string -> option Q.

Definition posts (payloads : list TradingMetrics) (st : telemetry * trading_sync) : telemetry * trading_sync :=
  fold_left (fun st p => fst (ingest_trading M TC respond clock parse_float None p st)) payloads st.

Lemma ingest_telemetry p st : fst (fst (ingest_trading M TC respond clock parse_float None p st)) =
  ingest trading_fields (Z.to_nat (TRADING_HISTORY_LIMIT TC)) None (trading_snapshot p) (fst st).
Proof.
  destruct st as [t s]. unfold ingest_trading. destruct (trading_off M TC); [done|].
  by destruct (push_trading_snapshot_to_mindsdb _ _ _ _ _ _ _) as [s' [|]].
Qed.

Lemma posts_telemetry payloads st :
  fst (posts payloads st) = ingests trading_fields (Z.to_nat (TRADING_HISTORY_LIMIT TC)) (map trading_snapshot payloads) (fst st).
Proof.
  revert st. induction payloads as [|p payloads IH]; intros st; [done|].
  change (posts (p :: payloads) st) with (posts payloads (fst (ingest_trading M TC respond clock parse_float None p st))).
  rewrite IH, ingest_telemetry. done.
Qed.
End posting.

Lemma trading_distinct : List.NoDup (map key_of trading_fields).
Proof. repeat (constructor; [cbn; intuition discriminate|]). constructor. Qed.

(** Whatever MindsDB does, posted trading metrics are kept: the history is
    the last [TRADING_HISTORY_LIMIT] snapshots, and after a restart the history,
    the current metrics and the file are what they were. *)
Theorem trading_survives_restart M TC respond clock parse_float payloads s : 0 < TRADING_HISTORY_LIMIT TC ->
  List.Forall (fun p => json_wf (JObj (trading_snapshot p))) payloads ->
  let t := fst (posts M TC respond clock parse_float payloads (mkTelemetry initial_trading_metrics [] None, s)) in
  history t = lastn (Z.to_nat (TRADING_HISTORY_LIMIT TC)) (map (fun p => JObj (trading_snapshot p)) payloads) /\
  _load_trading_history TC (mkTelemetry initial_trading_metrics [] (history_file t)) = t.
Proof.
  intros Hl Hw t. assert (0 < Z.to_nat (TRADING_HISTORY_LIMIT TC))%nat as Hn by lia.
  assert (List.Forall (fun d => json_wf (JObj d)) (map trading_snapshot payloads)) as Hw' by (by rewrite List.Forall_map).
  unfold t. rewrite posts_telemetry. cbn [fst]. split.
  - destruct (ingests_state trading_fields trading_distinct _ Hn (map trading_snapshot payloads) (mkTelemetry initial_trading_metrics [] None)) as (-> & _).
    + done.
    + cbn. lia.
    + cbn [history app]. by rewrite map_map.
  - apply (reload trading_fields trading_distinct); done.
Qed.

Definition demo_trading (n : Z) : TradingMetrics :=
  mkTradingMetrics "2025-01-01T00:00:00" n "1.0" "0.0" "1.0" "0.0" [] None None None None None.

Lemma trading_survives_restart_witness :
  let t := fst (posts default_mindsdb_config default_trading_config (fun _ => Some TimeoutError) (fun _ => 0) (fun _ => None)
             [demo_trading 1; demo_trading 2] (mkTelemetry initial_trading_metrics [] None, mkSync (mkMinds false "" [] 0 [] 0) false)) in
  dget (metrics (_load_trading_history default_trading_config (mkTelemetry initial_trading_metrics [] (history_file t)))) "openPositions" = JInt 2.
Proof.
  cbn zeta.
  destruct (trading_survives_restart default_mindsdb_config default_trading_config (fun _ => Some TimeoutError) (fun _ => 0) (fun _ => None)
              [demo_trading 1; demo_trading 2] (mkSync (mkMinds false "" [] 0 [] 0) false)) as [_ H].
  - vm_compute. reflexivity.
  - assert (forall n, json_wf (JObj (trading_snapshot (demo_trading n)))) as Hd.
    { intros n. assert (float_text "0.0") as H0 by (apply (float_num "" "0" ".0" ""); [by left|by left|right; by exists "0"|by left|done]).
      assert (float_text "1.0") as H1.
      { apply (float_num "" "1" ".0" ""); [by left|right; split; [done|by exists "1"%char, ""]|right; by exists "0"|by left|done]. }
      split; [repeat (constructor; [cbn; intuition discriminate|]); constructor|]. cbn. tauto. }
    constructor; [apply Hd|constructor; [apply Hd|constructor]].
  - rewrite H. vm_compute. reflexivity.
Defined.

(** An append that fails halfway hides every later snapshot from the next
    start: if the torn line and the one written after it do not make a JSON
    value, loading stops there, keeps only what was written before, and leaves
    the current metrics at their initial values. *)
Theorem torn_snapshot_hides_later TC vs v k w ws : List.Forall log_entry_ok vs -> log_entry_ok v -> log_entry_ok w ->
  0 < TRADING_HISTORY_LIMIT TC -> (k <= String.length (dumps v))%nat ->
  loads (strip (take k (dumps v +:+ nl) +:+ dumps w)) = None -> truthy (strip (take k (dumps v +:+ nl) +:+ dumps w)) = true ->
  let file := fold_left (fun f v => append_line None v f) (w :: ws)
                (append_line (Some k) v (Some (log_text vs))) in
  _load_trading_history TC (mkTelemetry initial_trading_metrics [] file) =
  mkTelemetry initial_trading_metrics (lastn (Z.to_nat (TRADING_HISTORY_LIMIT TC)) vs) file.
Proof.
  intros Hvs [Hv _] [Hw _] Hl Hk Hb Ht file. unfold _load_trading_history.
  assert (file = Some (log_text vs +:+ (take k (dumps v +:+ nl) +:+ dumps w) +:+ nl +:+ log_text ws)) as Hf.
  { unfold file. rewrite appended. unfold append_line. cbn [log_text]. by rewrite !append_assoc. }
  rewrite (torn_line_hides trading_fields (Z.to_nat (TRADING_HISTORY_LIMIT TC)) vs (take k (dumps v +:+ nl) +:+ dumps w) (log_text ws)); try done.
  - rewrite all_chars_app, (dumps_printable w Hw), andb_true_r. destruct (torn_line k v Hv) as [E|E]; [|done].
    apply (f_equal String.length) in E. pose proof (take_length k (dumps v +:+ nl)) as Hlen. rewrite E, append_length in Hlen. cbn in Hlen. lia.
  - cbn. lia.
Qed.

Lemma torn_snapshot_hides_later_witness :
  let v := JObj [("timestamp", JStr "t")] in
  let file := fold_left (fun f v => append_line None v f) [v; v] (append_line (Some 5%nat) v (Some (log_text []))) in
  history (_load_trading_history default_trading_config (mkTelemetry initial_trading_metrics [] file)) = [].
Proof.
  cbn zeta. assert (log_entry_ok (JObj [("timestamp", JStr "t")])) as Hok.
  { split; [|done]. split; [repeat (constructor; [cbn; intuition discriminate|]); constructor|cbn; tauto]. }
  rewrite (torn_snapshot_hides_later default_trading_config [] (JObj [("timestamp", JStr "t")]) 5 (JObj [("timestamp", JStr "t")])
             [JObj [("timestamp", JStr "t")]]); [reflexivity|constructor|exact Hok|exact Hok|reflexivity|vm_compute; lia|vm_compute; reflexivity|vm_compute; reflexivity].
Defined.

(** ** Analytics *)

Lemma dict_rows_total l : List.Forall (fun v => is_dict v = true) l -> exists ds, dict_rows_or_fail l = Ok ds /\ length ds = length l.
Proof.
  induction 1 as [|v l Hv Hl (ds & IH & Hn)]; [by exists []|]. destruct v; try done. cbn [dict_rows_or_fail]. rewrite IH. cbn.
  eexists. split; [done|]. cbn. by rewrite Hn.
Qed.

Lemma rnd_unit k q : (0 <= q <= 1)%Q -> (0 <= rnd k q <= 1)%Q.
Proof.
  intros [H0 H1]. assert (rnd k 0 == 0)%Q as E0 by (unfold rnd, Qeq; cbn; reflexivity).
  assert (rnd k 1 == 1)%Q as E1.
  { unfold rnd. replace (1 * qz (Zpos (pow10 k)))%Q with (Zpos (pow10 k) * Zpos 1 # 1).
    - rewrite round_half_even_Z. unfold Qeq. cbn. lia.
    - unfold qz, inject_Z, Qmult. cbn [Qnum Qden]. f_equal. lia. }
  pose proof (rnd_mono k 0 q H0). pose proof (rnd_mono k q 1 H1). split; lra.
Qed.

Lemma local_answers parse_float now t why : List.Forall (fun v => is_dict v = true) (history t) -> exists a,
  _local_fallback parse_float now t why = Ok a /\
  match a with
  | None => history t = []
  | Some a => total_trades a = Z.of_nat (length (history t)) /\ (0 <= win_rate a <= 1)%Q /\ an_source a = "local_history" /\ an_warning a = Some why
  end.
Proof.
  intros Hd. destruct (dict_rows_total (history t) Hd) as (ds & Hds & Hn). unfold _local_fallback. rewrite Hds.
  destruct ds as [|d ds]; [exists None; split; [done|]; by destruct (history t)|].
  eexists. split; [reflexivity|]. cbn [total_trades win_rate an_source an_warning]. split; [by rewrite Hn|]. split; [|done]. apply rnd_unit.
  set (p := List.filter _ _). assert (length p <= length (d :: ds))%nat as Hp by apply List.filter_length_le.
  set (n := Z.of_nat (length (d :: ds))). assert (0 < qz n)%Q as Hpos by (apply (qz_lt 0); unfold n; cbn [length]; lia).
  split.
  - apply Qle_shift_div_l; [done|]. rewrite Qmult_0_l. apply (qz_le 0). lia.
  - apply Qle_shift_div_r; [done|]. rewrite Qmult_1_l. apply qz_le. unfold n. lia.
Qed.

(** The analytics always answer: from the SQL of MindsDB when that works,
    and otherwise, whatever fails there, from the snapshots in memory, with
    their number and a share of profitable ones between 0 and 1, or with the
    notice that there is no history. *)
Theorem trading_analytics_answer M TC respond answer parse_float now t s : List.Forall (fun v => is_dict v = true) (history t) ->
  exists s' r, compute_trading_analytics_mindsdb M TC respond answer parse_float now t s = (s', Ok r) /\
  match r with
  | None => history t = []
  | Some a => an_source a = "mindsdb_sql" \/
      (total_trades a = Z.of_nat (length (history t)) /\ (0 <= win_rate a <= 1)%Q /\ an_source a = "local_history")
  end.
Proof.
  intros Hd. assert (forall why (s' : trading_sync), exists s'' r, (s', _local_fallback parse_float now t why) = (s'', Ok r) /\
    match r with
    | None => history t = []
    | Some a => an_source a = "mindsdb_sql" \/
        (total_trades a = Z.of_nat (length (history t)) /\ (0 <= win_rate a <= 1)%Q /\ an_source a = "local_history")
    end) as Hlocal.
  { intros why s'. destruct (local_answers parse_float now t why Hd) as (a & -> & Ha). exists s', a. split; [done|].
    destruct a; [|done]. right. tauto. }
  unfold compute_trading_analytics_mindsdb. destruct (trading_off M TC); [apply Hlocal|].
  destruct ((ensure_mindsdb_trading_table _ _ _ ;;; _) s) as [s1 [[|row rows]|e]]; [apply Hlocal| |apply Hlocal].
  eexists _, _. split; [reflexivity|]. by left.
Qed.

Lemma trading_analytics_answer_witness : exists s' r,
  compute_trading_analytics_mindsdb default_mindsdb_config default_trading_config (fun _ => Some TimeoutError) (fun _ => []) (fun _ => Some 2%Q) 0
    (mkTelemetry [] [JObj [("realized_pnl", JFloat "2.0")]] None) (mkSync (mkMinds false "" [] 0 [] 0) false) = (s', Ok r) /\
  match r with Some a => an_source a = "local_history" | None => False end.
Proof.
  destruct (trading_analytics_answer default_mindsdb_config default_trading_config (fun _ => Some TimeoutError) (fun _ => []) (fun _ => Some 2%Q) 0
    (mkTelemetry [] [JObj [("realized_pnl", JFloat "2.0")]] None) (mkSync (mkMinds false "" [] 0 [] 0) false)) as (s' & r & H & _).
  - constructor; [reflexivity|constructor].
  - exists s', r. split; [exact H|]. vm_compute in H. injection H as _ <-. reflexivity.
Defined.

(** ** The sidecar *)

Definition sidecar_reports (maxlen : nat) (l : list (string * bool * string)) : dict * list dict :=
  fold_left (fun st r => fst (ingest_sidecar_health maxlen (fst (fst r)) (snd (fst r)) (snd r) st)) l (initial_sidecar, []).

(** The health of the sidecar is answered without the time of the last
    report: [updatedAt] stays null after any sidecar_reports, and the time is under
    another name. *)
Theorem sidecar_time_not_updated maxlen l LIMIT limit r :
  dget (get_sidecar_health LIMIT limit (sidecar_reports maxlen l)) "updatedAt" = JNull /\
  dget (get_sidecar_health LIMIT limit (sidecar_reports maxlen (l ++ [r]))) "timestamp" = JStr (fst (fst r)).
Proof.
  assert (forall st, dget (fst st) "updatedAt" = JNull ->
    dget (fst (fold_left (fun st r => fst (ingest_sidecar_health maxlen (fst (fst r)) (snd (fst r)) (snd r) st)) l st)) "updatedAt" = JNull) as H.
  { induction l as [|x l IH]; intros st Hst; [done|]. cbn [fold_left]. apply IH. cbn [ingest_sidecar_health fst]. unfold dupdate, sidecar_entry.
    cbn [fold_left fst snd]. rewrite !dget_dset_ne by done. done. }
  unfold get_sidecar_health. rewrite !dget_dset_ne by done. split; [by apply H|].
  unfold sidecar_reports. rewrite fold_left_app. cbn [fold_left ingest_sidecar_health fst]. unfold dupdate, sidecar_entry. cbn [fold_left fst snd].
  rewrite !dget_dset_ne by done. apply dget_dset_eq.
Qed.
