(* ===== verification/Vectors.v ===== *)
(** * Embeddings and the vector index

    Vectors of texts from a provider or computed here ([embed_text]), the
    collections of Qdrant on a local and a cloud backend, writing points to them
    ([push_batch_to_qdrant]) and searching them ([search_qdrant]), and the traces
    sent to Langfuse.  Qdrant, the provider and Langfuse answer by [respond],
    [provider] and [langfuse], indexed by the calls before; the state notes what
    was sent.  The client library of Qdrant is installed. *)

From S2P Require Import Prelude PyStr PyTime Json JsonText OutboxMaint WriteBuffer Lru Caches Ranking TaskExec.
From Stdlib Require Import Ascii QArith Qminmax.
Open Scope Z_scope.

Record vector_config := mkVectorConfig {
  EMBEDDING_PROVIDER : string; EMBEDDING_MODEL : string; EMBEDDING_BASE_URL : string; EMBEDDING_API_KEY : string; OLLAMA_BASE_URL : string;
  FALLBACK_EMBED_DIM : Z; EMBEDDING_FAIL_OPEN : bool; EMBEDDING_CACHE : lru_config; QDRANT_COLLECTION : string;
  QDRANT_USE_CLOUD : bool; QDRANT_CLOUD_FALLBACK : bool; QDRANT_CLUSTER_ENDPOINT : string; LANGFUSE_API_KEY : string; LANGFUSE_URL : string }.

Definition default_vectors : vector_config :=
  mkVectorConfig "cheap" "cheap-embed-v1" "" "" "http://ollama:11434" 32 true (mkLruConfig true 0 50000) "memmcp_notes" false false "" "" "http://langfuse:3000".

Definition runtime_error (m : string) : exn := OtherError "RuntimeError" m.

(** ** A vector without a provider *)

(** [base[i] += x] *)
Fixpoint add_at (i : nat) (x : Q) (base : list Q) : list Q :=
  match base, i with
  | [], _ => []
  | b :: rest, O => (b + x)%Q :: rest
  | b :: rest, S i' => b :: add_at i' x rest
  end.

Definition byte_weight (c : ascii) : Q := (qz (Z.of_N (N_of_ascii c)) / 255)%Q.

(** [for idx, char in enumerate(encoded): base[idx % vector_size] += char / 255.0] *)
Fixpoint spread (n idx : nat) (text : string) (base : list Q) : list Q :=
  match text with
  | EmptyString => base
  | String c rest => spread n (S idx) rest (add_at (Nat.modulo idx n) (byte_weight c) base)
  end.

Definition cheap_values (text : string) (n : nat) : list Q :=
  let base := spread n 0 text (repeat 0%Q n) in
  let norm := Qmax (fold_left Qplus base 0%Q) (1 # 1000000) in
  map (fun v => rnd 6 (v / norm)) base.

Section vectors.
Variable V : vector_config.
Variable sha1 : string -> string.
Variable repr_float : Q -> string.

Definition _cheap_embedding (text : string) (vector_size : Z) : result (list json) :=
  if negb (truthy text) then Ok (repeat (JFloat "0.0") (Z.to_nat vector_size))
  else if vector_size =? 0 then Raise (OtherError "ZeroDivisionError" "integer modulo by zero")
  else if vector_size <? 0 then Raise (OtherError "IndexError" "list index out of range")
  else Ok (map (fun q => JFloat (repr_float q)) (cheap_values text (Z.to_nat vector_size))).

(** ** State *)

Record qdrant_point := mkPoint { p_id : string; p_vector : list json; p_payload : dict }.
Record scored_hit := mkHit { h_payload : dict; h_score : json }.

Inductive qdrant_op :=
| GetCollection (collection : string)
| CreateCollection (collection : string) (size : Z)
| Upsert (collection : string) (points : list qdrant_point)
| SearchPoints (collection : string) (vector : list json) (must : list (string * string)) (limit : Z).
(** The size of the vectors of a collection, when it tells one. *)
Inductive qdrant_reply := CollectionInfo (size : option Z) | Completed | Hits (hits : list scored_hit).

Record vec_state := mkVec {
  embedding_cache : cache (list json); dim_cache : list (string * Z); qdrant_log : list (string * qdrant_op * bool);
  provider_log : list (string * json); langfuse_log : list (list json); ids : nat; vcalls : nat }.

Variable respond : nat -> string -> qdrant_op -> result qdrant_reply.
Variable provider : nat -> string -> json -> list (string * string) -> result http_response.
Variable langfuse : nat -> list json -> result http_response.
Variable uuid4 : nat -> string.
(** Readings of the clock, and what the local time is ahead of UTC. *)
Variable clock : nat -> Z.
Variable utc_offset : Z.
Abbreviation M := (ST vec_state).

Definition set_embeddings (c : cache (list json)) (s : vec_state) : vec_state :=
  mkVec c (dim_cache s) (qdrant_log s) (provider_log s) (langfuse_log s) (ids s) (vcalls s).
Definition set_dim (collection : string) (size : Z) (s : vec_state) : vec_state :=
  mkVec (embedding_cache s) (cset collection size (dim_cache s)) (qdrant_log s) (provider_log s) (langfuse_log s) (ids s) (vcalls s).

Definition run_op (target : string) (op : qdrant_op) : M qdrant_reply := fun s =>
  let r := respond (vcalls s) target op in
  (mkVec (embedding_cache s) (dim_cache s) (qdrant_log s ++ [(target, op, is_ok r)]) (provider_log s) (langfuse_log s) (ids s) (S (vcalls s)), r).

Definition post_provider (url : string) (body : json) (headers : list (string * string)) : M http_response := fun s =>
  (mkVec (embedding_cache s) (dim_cache s) (qdrant_log s) (provider_log s ++ [(url, body)]) (langfuse_log s) (ids s) (S (vcalls s)),
   provider (vcalls s) url body headers).

(** ** Providers *)

Definition strip_slash (url : string) : string := rstrip_by (Ascii.eqb "/") url.

(** [resp.json()] *)
Definition json_of (resp : http_response) : result json :=
  match loads (body_text resp) with Some j => Ok j | None => Raise (OtherError "JSONDecodeError" "Expecting value") end.

Definition item_at (j : json) (k : string) : result json :=
  match j with
  | JObj d => match dlookup k d with Some v => Ok v | None => Raise (KeyError k) end
  | _ => Raise (OtherError "TypeError" "object is not subscriptable")
  end.
Definition attr_get (j : json) (k : string) : result json :=
  match j with JObj d => Ok (dget d k) | _ => Raise (OtherError "AttributeError" "object has no attribute 'get'") end.
Definition first_of (j : json) : result json :=
  match j with JList (x :: _) => Ok x | _ => Raise (KeyError "0") end.

Definition _openai_like_embedding (text : string) : M json :=
  if negb (truthy (EMBEDDING_BASE_URL V)) then st_raise (OrchestratorError "EMBEDDING_BASE_URL is not set for openai provider")
  else
    resp <- post_provider (strip_slash (EMBEDDING_BASE_URL V) +:+ "/v1/embeddings") (JObj [("model", JStr (EMBEDDING_MODEL V)); ("input", JStr text)])
              (("content-type", "application/json") ::
               (if truthy (EMBEDDING_API_KEY V) then [("authorization", "Bearer " +:+ EMBEDDING_API_KEY V)] else [])) ;;
    if negb (status_code resp =? 200) then st_raise (OrchestratorError ("Embedding request failed: " +:+ body_text resp))
    else
      data <- st_lift (json_of resp) ;;
      payloads <- st_lift (attr_get data "data") ;;
      if negb (jtruthy payloads) then st_raise (OrchestratorError "Embedding provider returned no data")
      else first <- st_lift (first_of payloads) ;; st_lift (item_at first "embedding").

Definition _ollama_embedding (text : string) : M json :=
  resp <- post_provider (strip_slash (OLLAMA_BASE_URL V) +:+ "/api/embeddings") (JObj [("model", JStr (EMBEDDING_MODEL V)); ("prompt", JStr text)]) [] ;;
  if negb (status_code resp =? 200) then st_raise (OrchestratorError ("Ollama embedding failed: " +:+ body_text resp))
  else
    data <- st_lift (json_of resp) ;;
    vector <- st_lift (attr_get data "embedding") ;;
    more <- st_lift (attr_get data "data") ;;
    vector <- (match vector with
               | JNull => if jtruthy more then first <- st_lift (first_of more) ;; st_lift (attr_get first "embedding") else st_ret JNull
               | v => st_ret v
               end) ;;
    match vector with JNull => st_raise (OrchestratorError "Ollama response missing embedding field") | v => st_ret v end.

(** [list(vector)], what the cache keeps; the answer of a provider is a list or
    something [list] refuses. *)
Definition list_of (j : json) : result (list json) :=
  match j with JList l => Ok l | _ => Raise (OtherError "TypeError" "object is not iterable") end.

Definition cache_vector (key : string) (v : list json) : M unit :=
  st_modify (fun s => set_embeddings (_embedding_cache_set (EMBEDDING_CACHE V) key v (embedding_cache s)) s).

Definition _cheap_fallback (text : string) (error : exn) : M (list json) :=
  if negb (EMBEDDING_FAIL_OPEN V) then st_raise (OrchestratorError (exn_str error))
  else st_lift (_cheap_embedding text (FALLBACK_EMBED_DIM V)).

Definition from_provider (text key : string) (ask : M json) : M (list json) :=
  st_try (answer <- ask ;; vector <- st_lift (list_of answer) ;; cache_vector key vector ;;; st_ret vector) (_cheap_fallback text).

Definition embed_text (text : string) : M (list json) :=
  let key := _embedding_cache_key sha1 (EMBEDDING_PROVIDER V) (EMBEDDING_MODEL V) text in
  s <- st_get ;;
  let '(c, cached) := _embedding_cache_get (EMBEDDING_CACHE V) key (embedding_cache s) in
  st_put (set_embeddings c s) ;;;
  match cached with
  | Some v => st_ret v
  | None =>
      if mem_str (EMBEDDING_PROVIDER V) ["openai"; "lmstudio"; "openai-compatible"] then from_provider text key (_openai_like_embedding text)
      else if EMBEDDING_PROVIDER V =s "ollama" then from_provider text key (_ollama_embedding text)
      else vector <- st_lift (_cheap_embedding text (FALLBACK_EMBED_DIM V)) ;; cache_vector key vector ;;; st_ret vector
  end.

(** ** Backends *)

Definition _qdrant_operation_targets : list string :=
  let cloud_available := truthy (QDRANT_CLUSTER_ENDPOINT V) in
  if QDRANT_USE_CLOUD V && cloud_available then "cloud" :: (if QDRANT_CLOUD_FALLBACK V then ["local"] else [])
  else "local" :: (if QDRANT_CLOUD_FALLBACK V && cloud_available then ["cloud"] else []).

Fixpoint on_targets {A} (fn : string -> M A) (targets : list string) : M A :=
  match targets with
  | [] => st_raise (runtime_error "Qdrant operation failed ()")
  | [target] => fn target
  | target :: rest => st_try (fn target) (fun _ => on_targets fn rest)
  end.
Definition _qdrant_call {A} (fn : string -> M A) : M A := on_targets fn _qdrant_operation_targets.

(** ** Collections *)

Definition mismatch (existing required : Z) : exn :=
  runtime_error ("Qdrant collection dimension mismatch: existing=" +:+ str_of_Z existing +:+ ", required=" +:+ str_of_Z required
                 +:+ ". Drop the collection or adjust the embedding model.").

Definition missing_collection (exc : exn) : bool :=
  let error_text := lower (exn_str exc) in contains error_text "404" || contains error_text "not found".

(** [_ensure_on_backend(client, target)] *)
Definition ensure_on_backend (collection : string) (vector_size : Z) (target : string) : M unit :=
  exists_ <- st_try
    (info <- run_op target (GetCollection collection) ;;
     let current := match info with CollectionInfo (Some n) => n | _ => 0 end in
     if current =? 0 then st_ret true
     else if negb (current =? vector_size) then st_raise (mismatch current vector_size)
     else st_modify (set_dim collection current) ;;; st_ret true)
    (fun exc => if missing_collection exc then st_ret false else st_raise exc) ;;
  if (exists_ : bool) then st_ret tt
  else run_op target (CreateCollection collection vector_size) ;;; st_modify (set_dim collection vector_size).

Definition ensure_qdrant_collection (vector_size : Z) (collection_name : string) : M unit :=
  let collection := str_or collection_name (QDRANT_COLLECTION V) in
  s <- st_get ;;
  match clookup collection (dim_cache s) with
  | Some cached => if cached =? vector_size then st_ret tt else st_raise (mismatch cached vector_size)
  | None => _qdrant_call (ensure_on_backend collection vector_size)
  end.

(** [re.search(prefix + r"\s*(\d+)", text, re.IGNORECASE)] at a position: the
    digits and what follows them. *)
Definition digits_after (prefix : string) (spaces : bool) (s : string) : option (Z * string) :=
  if startswith (lower s) prefix then
    let rest := drop (String.length prefix) s in
    let '(a, r) := span_digits (if spaces then lstrip_by is_space rest else rest) in
    if truthy a then match int_of_digits 0 a with Some z => Some (z, r) | None => None end else None
  else None.

Fixpoint find_number (at_pos : string -> option Z) (s : string) : option Z :=
  match at_pos s with
  | Some z => Some z
  | None => match s with String _ s' => find_number at_pos s' | EmptyString => None end
  end.

Definition expected_at (s : string) : option Z := option_map fst (digits_after "expected dim:" true s).
Definition existing_at (s : string) : option Z :=
  match digits_after "existing=" false s with
  | Some (z, r) => match eat "," r with
                   | Some r' => match digits_after "required=" false (lstrip_by is_space r') with Some _ => Some z | None => None end
                   | None => None
                   end
  | None => None
  end.

Definition _qdrant_expected_dim (error_text : string) : option Z :=
  match find_number expected_at error_text with Some z => Some z | None => find_number existing_at error_text end.

(** The dimension an error asks for, when it is another one. *)
Definition other_dim (exc : exn) (dim : Z) : option Z :=
  match _qdrant_expected_dim (exn_str exc) with
  | Some expected => if (0 <? expected) && negb (expected =? dim) then Some expected else None
  | None => None
  end.

(** ** Writing points *)

Definition text_at (row : dict) (k : string) : string := jstr_or_empty (dget row k).

(** [datetime.utcnow().timestamp()] takes the UTC reading for local time. *)
Definition epoch_seconds (now : Z) : Z := Z.quot (now - utc_offset) us_per_sec.

Definition point_payload (ts : Z) (row : dict) : dict :=
  [("project", JStr (text_at row "project")); ("file", JStr (text_at row "file")); ("summary", JStr (take 500 (text_at row "content"))); ("ts", JInt ts)]
  ++ (if jtruthy (dget row "topic_path") then [("topic_path", dget row "topic_path")] else [])
  ++ (if jtruthy (dget row "topic_tags") then [("topic_tags", dget row "topic_tags")] else []).

Definition _qdrant_point_payload (row : dict) (vector : list json) : M qdrant_point := fun s =>
  (mkVec (embedding_cache s) (dim_cache s) (qdrant_log s) (provider_log s) (langfuse_log s) (S (ids s)) (vcalls s),
   Ok (mkPoint (uuid4 (ids s)) vector (point_payload (epoch_seconds (clock (vcalls s))) row))).

Fixpoint points_of (rows : list dict) (vectors : list (list json)) : M (list qdrant_point) :=
  match rows, vectors with
  | row :: rows', v :: vectors' =>
      p <- _qdrant_point_payload row v ;;
      ps <- points_of rows' vectors' ;;
      st_ret (p :: ps)
  | _, _ => st_ret []
  end.

(** [collection_name] or the default, stripped; the default when that is empty *)
Definition collection_of (item : dict) : string :=
  str_or (strip (jstr (jor (dget item "collection_name") (JStr (QDRANT_COLLECTION V))))) (QDRANT_COLLECTION V).

Definition add_to_group (grouped : list (string * list dict)) (item : dict) : list (string * list dict) :=
  let c := collection_of item in
  cset c (match clookup c grouped with Some rows => rows | None => [] end ++ [item]) grouped.

Definition cheap_vectors (rows : list dict) (dim : Z) : M (list (list json)) :=
  st_map (fun row => st_lift (_cheap_embedding (text_at row "content") dim)) rows.

Definition _upsert (collection : string) (points : list qdrant_point) : M qdrant_reply :=
  _qdrant_call (fun target => run_op target (Upsert collection points)).

(** [except RuntimeError] *)
Definition is_runtime (exc : exn) : bool := match exc with OrchestratorError _ => true | OtherError "RuntimeError" _ => true | _ => false end.

(** The vectors of a group in the dimension of its collection. *)
Definition vectors_for (collection : string) (rows : list dict) : M (list (list json) * Z) :=
  vectors <- st_map (fun row => embed_text (text_at row "content")) rows ;;
  let vector_dim := match vectors with v :: _ => Z.of_nat (length v) | [] => 0 end in
  st_try (ensure_qdrant_collection vector_dim collection ;;; st_ret (vectors, vector_dim))
    (fun exc => if negb (is_runtime exc) then st_raise exc
                else match other_dim exc vector_dim with
                     | Some expected => vs <- cheap_vectors rows expected ;; st_ret (vs, expected)
                     | None => st_raise exc
                     end).

Definition push_group (collection : string) (rows : list dict) : M unit :=
  vd <- vectors_for collection rows ;;
  points <- points_of rows (fst vd) ;;
  expected <- st_try (_upsert collection points ;;; st_ret None)
    (fun exc => match other_dim exc (snd vd) with
                | Some expected => st_ret (Some expected)
                | None => st_raise (runtime_error ("Qdrant upsert failed: " +:+ exn_str exc))
                end) ;;
  match expected with
  | None => st_ret tt
  | Some expected =>
      st_modify (set_dim collection expected) ;;;
      vectors <- cheap_vectors rows expected ;;
      fallback_points <- points_of rows vectors ;;
      st_try (_upsert collection fallback_points ;;; st_ret tt)
        (fun exc => st_raise (runtime_error ("Qdrant upsert failed after fallback: " +:+ exn_str exc)))
  end.

Definition push_batch_to_qdrant (items : list dict) : M unit :=
  st_for (fold_left add_to_group items []) (fun group => push_group (fst group) (snd group)).

Definition push_to_qdrant (project file_name content : string) (topic_path : json) (topic_tags : json) (collection_name : json) : M unit :=
  push_batch_to_qdrant [[("project", JStr project); ("file", JStr file_name); ("content", JStr content); ("topic_path", topic_path);
                         ("topic_tags", jor topic_tags (JList [])); ("collection_name", collection_name)]].

(** ** Langfuse *)

Definition _langfuse_trace_event (project summary : string) (payload : dict) : M json := fun s =>
  (mkVec (embedding_cache s) (dim_cache s) (qdrant_log s) (provider_log s) (langfuse_log s) (S (ids s)) (vcalls s),
   Ok (JObj [("id", JStr (uuid4 (ids s))); ("type", JStr "trace"); ("name", JStr project); ("metadata", JObj [("summary", JStr summary)]);
             ("input", JObj payload)])).

Definition post_langfuse (events : list json) : M http_response := fun s =>
  (mkVec (embedding_cache s) (dim_cache s) (qdrant_log s) (provider_log s) (langfuse_log s ++ [events]) (ids s) (S (vcalls s)),
   langfuse (vcalls s) events).

Definition _ingest_langfuse_events (events : list json) (raise_on_error : bool) : M unit :=
  match events with
  | [] => st_ret tt
  | _ =>
      if negb (truthy (LANGFUSE_API_KEY V)) then st_ret tt
      else
        resp <- st_try (r <- post_langfuse events ;; st_ret (Some r))
          (fun exc => if raise_on_error then st_raise (OrchestratorError ("Langfuse ingest failed: " +:+ exn_str exc)) else st_ret None) ;;
        match resp with
        | None => st_ret tt
        | Some r =>
            if (400 <=? status_code r) && raise_on_error
            then st_raise (OrchestratorError ("Langfuse ingest failed: status=" +:+ str_of_Z (status_code r) +:+ " body=" +:+ take 300 (body_text r)))
            else st_ret tt
        end
  end.

Definition push_to_langfuse (project summary : string) (payload : dict) : M unit :=
  event <- _langfuse_trace_event project summary payload ;; _ingest_langfuse_events [event] true.

Definition push_batch_to_langfuse (items : list dict) : M unit :=
  if negb (truthy (LANGFUSE_API_KEY V)) then st_ret tt
  else
    events <- st_map (fun item => _langfuse_trace_event (text_at item "project") (text_at item "summary")
                                    (match dget item "payload" with JObj d => d | _ => [] end)) items ;;
    _ingest_langfuse_events events true.

(** [{"latency_ms": latency_ms, **(metadata or {})}] *)
Definition trace_to_langfuse (operation : string) (latency_ms : Q) (metadata : dict) : M unit := fun s =>
  if negb (truthy (LANGFUSE_API_KEY V)) then (s, Ok tt)
  else
    let now := JStr (_utc_now (clock (vcalls s))) in
    let event := JObj [("id", JStr (uuid4 (ids s))); ("type", JStr "span"); ("name", JStr ("orchestrator." +:+ operation)); ("startTime", now);
                       ("endTime", now); ("metadata", JObj (update_dict [("latency_ms", JFloat (repr_float latency_ms))] metadata))] in
    _ingest_langfuse_events [event] false
      (mkVec (embedding_cache s) (dim_cache s) (qdrant_log s) (provider_log s) (langfuse_log s) (S (ids s)) (vcalls s)).

(** ** Searching *)

Definition build_filter (project_filter topic_filter : string) : list (string * string) :=
  (if truthy project_filter then [("project", project_filter)] else []) ++ (if truthy topic_filter then [("topic_tags", topic_filter)] else []).

Definition run_search (vector : list json) (must : list (string * string)) (limit : Z) : M (list scored_hit) :=
  r <- _qdrant_call (fun target => run_op target (SearchPoints (QDRANT_COLLECTION V) vector must limit)) ;;
  st_ret (match r with Hits l => l | _ => [] end).

Definition row_of_hit (h : scored_hit) : dict :=
  [("project", dget (h_payload h) "project"); ("file", dget (h_payload h) "file"); ("summary", dget (h_payload h) "summary"); ("score", h_score h)].

(** [late]: the embedding took longer than its timeout; [latency_ms]: of the
    search. *)
Definition search_qdrant (late : bool) (latency_ms : Q) (query : string) (limit : Z) (project_filter topic_filter : string) : M (list dict) :=
  query_vector <- st_try (if late then st_raise TimeoutError else embed_text query) (fun _ => st_lift (_cheap_embedding query (FALLBACK_EMBED_DIM V))) ;;
  let must := build_filter project_filter topic_filter in
  hits <- st_try (run_search query_vector must limit)
    (fun exc => match other_dim exc (Z.of_nat (length query_vector)) with
                | None => st_raise (runtime_error ("Qdrant search failed: " +:+ exn_str exc))
                | Some expected => vector <- st_lift (_cheap_embedding query expected) ;; run_search vector must limit
                end) ;;
  trace_to_langfuse "search" latency_ms [("query_length", JInt (Z.of_nat (String.length query))); ("results", JInt (Z.of_nat (length hits)))] ;;;
  st_ret (map row_of_hit hits).
End vectors.
