(* ===== verification/VectorsFacts.v ===== *)
(** * Proofs about embeddings and the vector index

    The vector computed here is a distribution; an embedding always comes back;
    the text of a dimension error is read back by the code that handles it; a
    batch that is accepted is stored whole, each record once in its
    collection. *)

From S2P Require Import Prelude PyStr PyTime Json JsonText IsoParse OutboxMaint WriteBuffer WriteBufferFacts Lru Caches Ranking RankingFacts TaskExec SearchApiFacts Vectors.
From Stdlib Require Import Ascii QArith Qminmax Lqa.
Open Scope Z_scope.

(** ** The vector without a provider *)

Abbreviation qsum l := (fold_left Qplus l 0%Q).

Lemma fold_plus l a : (fold_left Qplus l a == a + qsum l)%Q.
Proof.
  revert a. induction l as [|x l IH]; intros a; cbn [fold_left]; [ring|]. rewrite IH. rewrite (IH (0 + x)%Q). ring.
Qed.

Lemma qsum_nonneg l : List.Forall (fun q => 0 <= q)%Q l -> (0 <= qsum l)%Q /\ List.Forall (fun q => q <= qsum l)%Q l.
Proof.
  induction 1 as [|x l Hx Hl [IH1 IH2]]; cbn [fold_left]; [split; [lra|constructor]|].
  assert (fold_left Qplus l (0 + x) == x + qsum l)%Q as E by (rewrite fold_plus; ring). rewrite E. split; [lra|].
  constructor; [lra|]. eapply List.Forall_impl; [|exact IH2]. intros y Hy. cbn in Hy. rewrite E. lra.
Qed.

Lemma add_at_length i x l : length (add_at i x l) = length l.
Proof. revert i. induction l as [|y l IH]; intros [|i]; cbn; auto. Qed.

Lemma add_at_nonneg i x l : (0 <= x)%Q -> List.Forall (fun q => 0 <= q)%Q l -> List.Forall (fun q => 0 <= q)%Q (add_at i x l).
Proof.
  intros Hx Hl. revert i. induction Hl as [|y l Hy Hl IH]; intros [|i]; cbn; constructor; auto. lra.
Qed.

Lemma byte_weight_nonneg c : (0 <= byte_weight c)%Q.
Proof. unfold byte_weight. apply Qle_shift_div_l; [lra|]. rewrite Qmult_0_l. apply (qz_le 0). lia. Qed.

Lemma spread_spec n text : forall idx base, List.Forall (fun q => 0 <= q)%Q base ->
  length (spread n idx text base) = length base /\ List.Forall (fun q => 0 <= q)%Q (spread n idx text base).
Proof.
  induction text as [|c text IH]; intros idx base Hb; cbn [spread]; [done|].
  destruct (IH (S idx) (add_at (Nat.modulo idx n) (byte_weight c) base)) as [H1 H2].
  - apply add_at_nonneg; [apply byte_weight_nonneg|done].
  - by rewrite H1, add_at_length.
Qed.

Lemma cheap_values_spec text n : length (cheap_values text n) = n /\ List.Forall (fun q => 0 <= q <= 1)%Q (cheap_values text n).
Proof.
  unfold cheap_values. destruct (spread_spec n text 0 (repeat 0%Q n)) as [H1 H2].
  { apply List.Forall_forall. intros x Hx. apply repeat_spec in Hx. subst. lra. }
  set (base := spread _ _ _ _) in *. split; [by rewrite length_map, H1, repeat_length|]. rewrite List.Forall_map.
  destruct (qsum_nonneg base H2) as [H3 H4]. set (norm := Qmax _ _).
  assert (qsum base <= norm)%Q as Hn by apply Q.le_max_l. assert (0 < norm)%Q as Hp.
  { eapply Qlt_le_trans; [|apply Q.le_max_r]. reflexivity. }
  apply List.Forall_forall. intros v Hv. rewrite List.Forall_forall in H2, H4. specialize (H2 v Hv). specialize (H4 v Hv). cbn in H2, H4.
  apply rnd_bounds. split; [apply Qle_shift_div_l; [done|lra]|apply Qle_shift_div_r; [done|lra]].
Qed.

(** ** The text of a dimension error *)

Lemma lower_string c s : lower (String c s) = String (lower_char c) (lower s).
Proof. done. Qed.

Lemma startswith_head c s d p : Ascii.eqb c d = false -> startswith (String c s) (String d p) = false.
Proof. intros H. cbn [startswith]. by rewrite Ascii.eqb_sym, H. Qed.

(** Nothing is found before a character that does not start the pattern. *)
Lemma find_skip at_pos p rest : (forall a c b, p = a +:+ String c b -> at_pos (String c b +:+ rest) = None) ->
  find_number at_pos (p +:+ rest) = find_number at_pos rest.
Proof.
  induction p as [|c p IH]; intros H; [done|]. rewrite append_cons. cbn [find_number]. rewrite <- append_cons.
  rewrite (H "" c p) by done. apply IH. intros a d b ->. apply (H (String c a)). by rewrite append_cons.
Qed.

Lemma digits_after_head prefix d spaces c s : prefix = String d (drop 1 prefix) -> Ascii.eqb (lower_char c) d = false ->
  digits_after prefix spaces (String c s) = None.
Proof. intros -> H. unfold digits_after. rewrite lower_string, startswith_head; done. Qed.

Lemma digit_lower c : is_digit c = true -> lower_char c = c.
Proof. destruct c as [[] [] [] [] [] [] [] []]; done. Qed.

Lemma find_skip_digits at_pos a rest : all_digits a = true ->
  (forall c s, is_digit c = true -> at_pos (String c s) = None) -> find_number at_pos (a +:+ rest) = find_number at_pos rest.
Proof.
  intros Ha H. induction a as [|c a IH]; [done|]. cbn [all_digits] in Ha. apply andb_true_iff in Ha as [Hc Ha].
  rewrite append_cons. cbn [find_number]. rewrite H by done. by apply IH.
Qed.

Lemma expected_digit c s : is_digit c = true -> expected_at (String c s) = None.
Proof.
  intros H. unfold expected_at. rewrite (digits_after_head _ "e"); [done|done|]. rewrite digit_lower by done. by apply not_digit_neq.
Qed.

Lemma existing_digit c s : is_digit c = true -> existing_at (String c s) = None.
Proof.
  intros H. unfold existing_at. rewrite (digits_after_head _ "e"); [done|done|]. rewrite digit_lower by done. by apply not_digit_neq.
Qed.

Lemma no_expected a b : all_digits a = true -> all_digits b = true ->
  find_number expected_at ("Qdrant collection dimension mismatch: existing=" +:+ a +:+ ", required=" +:+ b
                           +:+ ". Drop the collection or adjust the embedding model.") = None.
Proof.
  intros Ha Hb.
  change (find_number expected_at (a +:+ ", required=" +:+ b +:+ ". Drop the collection or adjust the embedding model.") = None).
  rewrite (find_skip_digits expected_at a) by (done || exact expected_digit).
  change (find_number expected_at (b +:+ ". Drop the collection or adjust the embedding model.") = None).
  rewrite (find_skip_digits expected_at b) by (done || exact expected_digit). by vm_compute.
Qed.

(** The digits that follow the pattern. *)
Lemma digits_after_found prefix z a rest : lower prefix = prefix -> int_of_digits 0 a = Some z -> all_digits a = true -> truthy a = true ->
  no_digit_head rest = true -> digits_after prefix false (prefix +:+ a +:+ rest) = Some (z, rest).
Proof.
  intros Hp Hz Ha Ta Hr. unfold digits_after. rewrite lower_app, Hp, startswith_app, drop_app by done.
  rewrite span_digits_app by done. by rewrite Ta, Hz.
Qed.

Lemma existing_found z y a b rest : int_of_digits 0 a = Some z -> all_digits a = true -> truthy a = true -> all_digits b = true -> truthy b = true ->
  int_of_digits 0 b = Some y -> no_digit_head rest = true -> existing_at ("existing=" +:+ a +:+ ", required=" +:+ b +:+ rest) = Some z.
Proof.
  intros Hz Ha Ta Hb Tb Hy Hr. unfold existing_at. rewrite (digits_after_found _ z) by done.
  change (eat "," (", required=" +:+ b +:+ rest)) with (Some (" required=" +:+ b +:+ rest)). cbn match.
  change (lstrip_by is_space (" required=" +:+ b +:+ rest)) with ("required=" +:+ b +:+ rest).
  by rewrite (digits_after_found _ y).
Qed.

Lemma dim_text z : 0 <= z -> all_digits (str_of_Z z) = true /\ truthy (str_of_Z z) = true /\ int_of_digits 0 (str_of_Z z) = Some z.
Proof.
  intros Hz. destruct (str_of_Z_text z) as (sg & Hsg & E & Ez). rewrite Z.abs_eq in E, Ez by done.
  destruct (abs_text_spec z Hz) as [Ht Hv]. destruct (int_text_head _ Ht) as (c & s & Ec & Hc).
  assert (sg = "") as ->. { destruct Hsg as [<-|[<-|[]]]; [done|]. cbn in Ez. assert (z = 0) as -> by lia. by vm_compute in E. }
  change ("" +:+ abs_text z) with (abs_text z) in E. rewrite E. repeat split; [|by rewrite Ec|done].
  destruct Ht as [->|(H & _)]; done.
Qed.

(** The dimension of the text of [mismatch] is read back from it. *)
Lemma mismatch_dim existing required : 0 <= existing -> 0 <= required ->
  _qdrant_expected_dim (exn_str (mismatch existing required)) = Some existing.
Proof.
  intros He Hr. destruct (dim_text existing He) as (Ha & Ta & Za). destruct (dim_text required Hr) as (Hb & Tb & Zb).
  unfold _qdrant_expected_dim, mismatch, runtime_error. cbn [exn_str]. rewrite no_expected by done.
  change (find_number existing_at ("existing=" +:+ str_of_Z existing +:+ ", required=" +:+ str_of_Z required
            +:+ ". Drop the collection or adjust the embedding model.") = Some existing).
  set (tail := ". Drop the collection or adjust the embedding model.").
  pose proof (existing_found existing required (str_of_Z existing) (str_of_Z required) tail Za Ha Ta Hb Tb Zb eq_refl) as H.
  rewrite append_cons in H |- *. cbn [find_number]. by rewrite H.
Qed.

(** ** Writing a batch *)

(** What the backends accepted. *)
Definition accepted_upserts (log : list (string * qdrant_op * bool)) : list (string * list qdrant_point) :=
  flat_map (fun e => match e with (_, Upsert c ps, true) => [(c, ps)] | _ => [] end) log.

(** The point holds the row. *)
Definition holds_row (row : dict) (p : qdrant_point) : Prop := exists ts, p_payload p = point_payload ts row.

Definition holds_group (group stored : string * list _) : Prop := fst stored = fst group /\ List.Forall2 holds_row (snd group) (snd stored).

Lemma accepted_app l l' : accepted_upserts (l ++ l') = accepted_upserts l ++ accepted_upserts l'.
Proof. apply flat_map_app. Qed.

Definition stored_is (a : list (string * list qdrant_point)) (s : vec_state) : Prop := accepted_upserts (qdrant_log s) = a.
(** Nothing is accepted meanwhile. *)
Definition quiet {A} (m : ST vec_state A) : Prop := forall a, always (stored_is a) m.

Lemma quiet_bind {A B} (m : ST vec_state A) (k : A -> ST vec_state B) : quiet m -> (forall x, quiet (k x)) -> quiet (st_bind m k).
Proof. intros Hm Hk a. apply always_bind; [apply Hm|intros x; apply Hk]. Qed.
Lemma quiet_try {A} (m : ST vec_state A) h : quiet m -> (forall e, quiet (h e)) -> quiet (st_try m h).
Proof. intros Hm Hk a. apply always_try; [apply Hm|intros x; apply Hk]. Qed.
Lemma quiet_ret {A} (x : A) : quiet (st_ret x).
Proof. by intros a s. Qed.
Lemma quiet_raise {A} e : quiet (st_raise (A := A) e).
Proof. by intros a s. Qed.
Lemma quiet_lift {A} (r : result A) : quiet (st_lift r).
Proof. intros a s Hs. by destruct r. Qed.
Lemma quiet_modify f : (forall s, qdrant_log (f s) = qdrant_log s) -> quiet (st_modify f).
Proof. intros Hf a s Hs. unfold stored_is, st_modify in *. by rewrite Hf. Qed.
(** A reading of the state followed by what depends on it. *)
Lemma quiet_get {A} (k : vec_state -> ST vec_state A) : (forall s0, quiet (k s0)) -> quiet (st_bind st_get k).
Proof. intros H a s Hs. by apply H. Qed.
Lemma quiet_map {A B} (body : A -> ST vec_state B) l : (forall x, quiet (body x)) -> quiet (st_map body l).
Proof. intros H a. apply hoare_map. intros x _. apply H. Qed.

Create HintDb quiet.
#[local] Hint Resolve quiet_ret quiet_raise quiet_lift : quiet.
Ltac quiet := repeat first [solve [auto with quiet] | apply quiet_bind; [|intros ?] | apply quiet_try; [|intros ?] | done | apply quiet_modify; done | case_match].

Section writing.
Variable V : vector_config.
Variable sha1 : string -> string.
Variable repr_float : Q -> string.
Variable respond : nat -> string -> qdrant_op -> result qdrant_reply.
Variable provider : nat -> string -> json -> list (string * string) -> result http_response.
Variable uuid4 : nat -> string.
Variable clock : nat -> Z.
Variable utc_offset : Z.

Lemma quiet_op target op : (match op with Upsert _ _ => false | _ => true end) = true -> quiet (run_op respond target op).
Proof.
  intros Hop a s Hs. unfold run_op. assert (stored_is a (fst (run_op respond target op s))) as H.
  { unfold stored_is, run_op. cbn [fst qdrant_log]. rewrite accepted_app, Hs. destruct op; [..|done|]; try done; cbn; by rewrite app_nil_r. }
  unfold run_op in H. by destruct (respond _ _ _).
Qed.
Lemma quiet_post url body headers : quiet (post_provider provider url body headers).
Proof. intros a s Hs. unfold post_provider. by destruct (provider _ _ _ _). Qed.
Lemma quiet_targets {A} (fn : string -> ST vec_state A) targets : (forall t, quiet (fn t)) -> quiet (on_targets fn targets).
Proof. intros H. induction targets as [|t [|t' targets] IH]; cbn [on_targets]; quiet. Qed.

Lemma quiet_from_provider text key m : quiet m -> quiet (from_provider V repr_float text key m).
Proof. intros Hm. unfold from_provider, cache_vector, _cheap_fallback. quiet. Qed.

Lemma quiet_embed text : quiet (embed_text V sha1 repr_float provider text).
Proof.
  intros a s Hs. unfold embed_text. unfold st_bind at 1, st_get. destruct (_embedding_cache_get _ _ _) as [c cached].
  unfold st_bind at 1, st_put. assert (stored_is a (set_embeddings c s)) as Hc by done. revert Hc. generalize (set_embeddings c s).
  match goal with |- forall v, _ -> match ?m v with _ => _ end => enough (quiet m) as H by exact (H a) end.
  destruct cached; [quiet|]. destruct (mem_str _ _); [|destruct (_ =s _)].
  - apply quiet_from_provider. unfold _openai_like_embedding. quiet; apply quiet_post.
  - apply quiet_from_provider. unfold _ollama_embedding. quiet; apply quiet_post.
  - unfold cache_vector. quiet.
Qed.

Lemma quiet_ensure dim collection : quiet (ensure_qdrant_collection V respond dim collection).
Proof.
  unfold ensure_qdrant_collection. apply quiet_get. intros s0. destruct (clookup _ _); [quiet|].
  apply quiet_targets. intros t. unfold ensure_on_backend. quiet; by apply quiet_op.
Qed.

Lemma quiet_points rows vectors : quiet (points_of uuid4 clock utc_offset rows vectors).
Proof. revert vectors. induction rows as [|row rows IH]; intros [|v vectors]; cbn [points_of]; quiet. Qed.

Lemma quiet_cheap rows dim : quiet (cheap_vectors repr_float rows dim).
Proof. apply quiet_map. intros x. apply quiet_lift. Qed.

#[local] Hint Resolve quiet_embed quiet_ensure quiet_cheap quiet_points : quiet.

Lemma st_map_length {A B} (body : A -> ST vec_state B) l s s' ys : st_map body l s = (s', Ok ys) -> length ys = length l.
Proof.
  revert s ys. induction l as [|x l IH]; intros s ys; cbn [st_map]; [by intros [= <- <-]|].
  intros (s1 & y & _ & H)%st_bind_ok. apply st_bind_ok in H as (s2 & zs & H2 & [= <- <-]). cbn. f_equal. by eapply IH.
Qed.

Lemma quiet_ends {A} (m : ST vec_state A) a s s' r : quiet m -> m s = (s', r) -> stored_is a s -> stored_is a s'.
Proof. intros Hm E Hs. specialize (Hm a s Hs). rewrite E in Hm. by destruct r. Qed.

Lemma vectors_for_spec collection rows s s' r : vectors_for V sha1 repr_float respond provider collection rows s = (s', r) ->
  (forall a, stored_is a s -> stored_is a s') /\ forall vd, r = Ok vd -> length (fst vd) = length rows.
Proof.
  intros E. split.
  - intros a. eapply quiet_ends; [|exact E]. unfold vectors_for. apply quiet_bind; [apply quiet_map; intros x; apply quiet_embed|].
    intros vs. quiet.
  - intros vd ->. unfold vectors_for in E. apply st_bind_ok in E as (s1 & vs & H1 & E). apply st_map_length in H1.
    unfold st_try in E. destruct (st_bind _ _ s1) as [s2 [vd'|e]] eqn:E2.
    + injection E as <- <-. apply st_bind_ok in E2 as (s3 & u & _ & [= <- <-]). done.
    + destruct (negb _); [done|]. destruct (other_dim _ _); [|done]. apply st_bind_ok in E as (s3 & ws & H3 & [= <- <-]).
      by apply st_map_length in H3.
Qed.

Lemma points_of_rows rows vectors s s' ps : length vectors = length rows -> points_of uuid4 clock utc_offset rows vectors s = (s', Ok ps) ->
  List.Forall2 holds_row rows ps.
Proof.
  revert vectors s ps. induction rows as [|row rows IH]; intros [|v vectors] s ps; cbn [points_of length]; try discriminate.
  - intros _ [= <- <-]. constructor.
  - intros [= Hl] (s1 & p & [= <- <-] & H)%st_bind_ok. apply st_bind_ok in H as (s2 & qs & H2 & [= <- <-]).
    constructor; [by eexists|]. by eapply IH.
Qed.

(** An upsert that returns was accepted once, one that raises not at all. *)
Lemma upsert_spec collection points a s s' r : _upsert V respond collection points s = (s', r) -> stored_is a s ->
  stored_is (a ++ if is_ok r then [(collection, points)] else []) s'.
Proof.
  unfold _upsert, _qdrant_call. generalize (_qdrant_operation_targets V). intros targets E. revert s a E.
  assert (forall t s a, stored_is a s -> stored_is (a ++ if is_ok (snd (run_op respond t (Upsert collection points) s)) then [(collection, points)] else [])
            (fst (run_op respond t (Upsert collection points) s))) as Hop.
  { intros t s a Hs. unfold run_op, stored_is. cbn [fst snd qdrant_log]. rewrite accepted_app, Hs. by destruct (is_ok _). }
  induction targets as [|t [|t' targets] IH]; intros s a E Hs; cbn [on_targets] in E.
  - injection E as <- <-. by rewrite app_nil_r.
  - specialize (Hop t s a Hs). by rewrite E in Hop.
  - unfold st_try in E. specialize (Hop t s a Hs). destruct (run_op _ _ _ s) as [s1 [v|e]]; [by injection E as <- <-|].
    cbn [fst snd is_ok] in Hop. rewrite app_nil_r in Hop. by eapply IH.
Qed.

Abbreviation push_group := (push_group V sha1 repr_float respond provider uuid4 clock utc_offset).
Abbreviation push_batch_to_qdrant := (push_batch_to_qdrant V sha1 repr_float respond provider uuid4 clock utc_offset).

(** A group is stored whole by one accepted call, or not at all. *)
Lemma push_group_spec collection rows a s s' r : push_group collection rows s = (s', r) -> stored_is a s ->
  match r with
  | Ok _ => exists ps, stored_is (a ++ [(collection, ps)]) s' /\ List.Forall2 holds_row rows ps
  | Raise _ => stored_is a s'
  end.
Proof.
  intros E Hs. unfold Vectors.push_group in E. unfold st_bind at 1 in E.
  destruct (vectors_for _ _ _ _ _ _ _ s) as [s1 [vd|e]] eqn:E1; apply vectors_for_spec in E1 as [Hv Hl]; apply Hv in Hs; [|by injection E as <- <-].
  specialize (Hl vd eq_refl). unfold st_bind at 1 in E.
  destruct (points_of _ _ _ _ _ s1) as [s2 [ps|e]] eqn:E2; pose proof (quiet_ends _ _ _ _ _ (quiet_points _ _) E2 Hs) as Hs2; [|by injection E as <- <-].
  apply points_of_rows in E2; [|done]. unfold st_bind at 1, st_try at 1 in E. unfold st_bind at 1 in E.
  destruct (_upsert _ _ _ _ s2) as [s3 [u|e]] eqn:E3; apply (upsert_spec _ _ a) in E3; try done.
  { injection E as <- <-. by exists ps. }
  cbn [is_ok] in E3. rewrite app_nil_r in E3. destruct (other_dim _ _) as [expected|]; [|by injection E as <- <-].
  unfold st_ret at 1, st_bind at 1, st_modify at 1 in E.
  assert (stored_is a (set_dim collection expected s3)) as Hs4 by done. revert E Hs4. generalize (set_dim collection expected s3). intros s4 E Hs4.
  unfold st_bind at 1 in E. destruct (cheap_vectors _ _ _ s4) as [s5 [ws|e']] eqn:E5;
    pose proof (quiet_ends _ _ _ _ _ (quiet_cheap _ _) E5 Hs4) as Hs5; [|by injection E as <- <-].
  apply st_map_length in E5. unfold st_bind at 1 in E.
  destruct (points_of _ _ _ _ _ s5) as [s6 [qs|e']] eqn:E6; pose proof (quiet_ends _ _ _ _ _ (quiet_points _ _) E6 Hs5) as Hs6; [|by injection E as <- <-].
  apply points_of_rows in E6; [|done]. unfold st_try in E. unfold st_bind in E.
  destruct (_upsert _ _ _ _ s6) as [s7 [u|e']] eqn:E7; apply (upsert_spec _ _ a) in E7; try done; injection E as <- <-.
  - by exists qs.
  - cbn [is_ok] in E7. by rewrite app_nil_r in E7.
Qed.

(** The groups stored before a batch ends. *)
Lemma push_groups_spec groups a s s' r : st_for groups (fun g => push_group (fst g) (snd g)) s = (s', r) -> stored_is a s ->
  exists n l, stored_is (a ++ l) s' /\ List.Forall2 holds_group (firstn n groups) l /\ (is_ok r = true -> n = length groups).
Proof.
  revert a s. induction groups as [|g groups IH]; intros a s E Hs; cbn [st_for] in E.
  { injection E as <- <-. exists 0%nat, []. rewrite app_nil_r. by repeat constructor. }
  unfold st_bind in E. destruct (push_group _ _ s) as [s1 [u|e]] eqn:E1; apply (push_group_spec _ _ a) in E1; try done.
  - destruct E1 as (ps & H1 & H2). destruct (IH _ _ E H1) as (n & l & Hl & Hf & Hn).
    exists (S n), ((fst g, ps) :: l). rewrite <- app_assoc in Hl. split; [done|]. split; [|intros Hr; cbn; by rewrite Hn].
    cbn [firstn]. by constructor.
  - injection E as <- <-. exists 0%nat, []. rewrite app_nil_r. by repeat constructor.
Qed.
End writing.

(** ** Grouping *)

Section grouping.
Variable V : vector_config.
Abbreviation rows_in grouped c := (match clookup c grouped with Some rows => rows | None => [] end).

Lemma add_to_group_rows grouped item c : rows_in (add_to_group V grouped item) c =
  rows_in grouped c ++ (if collection_of V item =s c then [item] else []).
Proof.
  unfold add_to_group. rewrite clookup_cset, String.eqb_sym. destruct (collection_of V item =s c) eqn:E; [|by rewrite app_nil_r].
  apply String.eqb_eq in E. by subst.
Qed.

(** Each collection has the items for it, in the order they came. *)
Lemma grouped_rows items : forall grouped c, rows_in (fold_left (add_to_group V) items grouped) c =
  rows_in grouped c ++ List.filter (fun item => collection_of V item =s c) items.
Proof.
  induction items as [|item items IH]; intros grouped c; cbn [fold_left List.filter]; [by rewrite app_nil_r|].
  rewrite IH, add_to_group_rows, <- app_assoc. by destruct (_ =s c).
Qed.

Lemma grouped_NoDup items : forall grouped, List.NoDup (map fst grouped) -> List.NoDup (map fst (fold_left (add_to_group V) items grouped)).
Proof. induction items as [|item items IH]; intros grouped H; cbn [fold_left]; [done|]. apply IH. by apply cset_NoDup. Qed.

Lemma clookup_member {A} k (d : list (string * A)) v : List.NoDup (map fst d) -> In (k, v) d -> clookup k d = Some v.
Proof.
  induction d as [|[k' v'] d IH]; cbn; [by intros _ []|]. intros [Hn Hd]%List.NoDup_cons_iff [[= -> ->]|Hin]; [by rewrite String.eqb_refl|].
  destruct (k =s k') eqn:E; [|by apply IH]. apply String.eqb_eq in E. subst. destruct Hn. by apply (in_map fst) in Hin.
Qed.

Lemma group_items items c rows : In (c, rows) (fold_left (add_to_group V) items []) -> rows = List.filter (fun item => collection_of V item =s c) items.
Proof.
  intros Hin. apply clookup_member in Hin; [|apply grouped_NoDup; constructor]. pose proof (grouped_rows items [] c) as H. by rewrite Hin in H.
Qed.
Lemma add_to_group_keys grouped item c : In c (map fst (add_to_group V grouped item)) <-> collection_of V item = c \/ In c (map fst grouped).
Proof.
  unfold add_to_group. rewrite cset_keys. destruct (mem_str _ _) eqn:E; [apply mem_str_In in E|rewrite in_app_iff]; cbn; naive_solver.
Qed.
Lemma grouped_keys items c : forall grouped, In c (map fst (fold_left (add_to_group V) items grouped)) <->
  In c (map fst grouped) \/ exists item, In item items /\ collection_of V item = c.
Proof.
  induction items as [|item items IH]; intros grouped; cbn [fold_left]; [naive_solver|]. rewrite IH, add_to_group_keys. cbn [In]. naive_solver.
Qed.
End grouping.

(** ** Embeddings always come back *)

Section answering.
Variable V : vector_config.
Variable sha1 : string -> string.
Variable repr_float : Q -> string.
Variable respond : nat -> string -> qdrant_op -> result qdrant_reply.
Variable provider : nat -> string -> json -> list (string * string) -> result http_response.
Variable langfuse : nat -> list json -> result http_response.
Variable uuid4 : nat -> string.
Variable clock : nat -> Z.

Lemma cheap_embedding_ok text dim : 0 < dim -> exists v, _cheap_embedding repr_float text dim = Ok v /\ Z.of_nat (length v) = dim.
Proof.
  intros Hd. unfold _cheap_embedding. destruct (negb _); [eexists; split; [done|]; rewrite repeat_length; lia|].
  destruct (Z.eqb_spec dim 0); [lia|]. destruct (Z.ltb_spec dim 0); [lia|]. eexists. split; [done|].
  rewrite length_map. destruct (cheap_values_spec text (Z.to_nat dim)) as [-> _]. lia.
Qed.

Lemma from_provider_ok text key ask s : EMBEDDING_FAIL_OPEN V = true -> 0 < FALLBACK_EMBED_DIM V ->
  is_ok (snd (from_provider V repr_float text key ask s)) = true.
Proof.
  intros Hf Hd. unfold from_provider, st_try, _cheap_fallback. destruct (st_bind _ _ s) as [s' [v|e]]; [done|]. rewrite Hf. cbn [negb].
  destruct (cheap_embedding_ok text _ Hd) as (v & E & _). unfold st_lift. by rewrite E.
Qed.

Lemma embed_text_ok text s : EMBEDDING_FAIL_OPEN V = true -> 0 < FALLBACK_EMBED_DIM V ->
  is_ok (snd (embed_text V sha1 repr_float provider text s)) = true.
Proof.
  intros Hf Hd. unfold embed_text. unfold st_bind at 1, st_get. destruct (_embedding_cache_get _ _ _) as [c [v|]]; [done|].
  unfold st_bind at 1, st_put. destruct (mem_str _ _); [by apply from_provider_ok|]. destruct (_ =s _); [by apply from_provider_ok|].
  destruct (cheap_embedding_ok text _ Hd) as (v & E & _). unfold st_bind at 1, st_lift. by rewrite E.
Qed.

Lemma trace_ok operation ms metadata s : is_ok (snd (trace_to_langfuse V repr_float langfuse uuid4 clock operation ms metadata s)) = true.
Proof.
  unfold trace_to_langfuse. destruct (negb _); [done|]. unfold _ingest_langfuse_events. destruct (negb _); [done|].
  unfold st_bind at 1, st_try, st_bind, post_langfuse. destruct (langfuse _ _) as [r|e]; cbn [snd is_ok st_ret]; [|done].
  by rewrite andb_false_r.
Qed.

Lemma targets_nonempty : exists t rest, _qdrant_operation_targets V = t :: rest.
Proof. unfold _qdrant_operation_targets. destruct (_ && _); by eexists _, _. Qed.

Lemma run_search_ok vector must limit hits s : (forall n t op, respond n t op = Ok (Hits hits)) ->
  exists s', run_search V respond vector must limit s = (s', Ok hits).
Proof.
  intros H. unfold run_search, _qdrant_call. destruct targets_nonempty as (t & rest & ->).
  unfold st_bind. destruct rest as [|t' rest]; cbn [on_targets]; unfold st_try, run_op; rewrite H; by eexists.
Qed.

(** A search answers with what the index found, whatever becomes of the
    provider of embeddings and of the trace. *)
Lemma search_answers late ms query limit project_filter topic_filter hits s :
  0 < FALLBACK_EMBED_DIM V -> (forall n t op, respond n t op = Ok (Hits hits)) ->
  exists s', search_qdrant V sha1 repr_float respond provider langfuse uuid4 clock late ms query limit project_filter topic_filter s
             = (s', Ok (map row_of_hit hits)).
Proof.
  intros Hd H. unfold search_qdrant. destruct (cheap_embedding_ok query _ Hd) as (c & Ec & _).
  match goal with |- context [st_bind (st_try ?m ?h) _] => assert (exists s1 v, st_try m h s = (s1, Ok v)) as (s1 & v & E1) end.
  { unfold st_try. destruct (_ s) as [s1 [v|e]]; [by eexists _, _|]. unfold st_lift. rewrite Ec. by eexists _, _. }
  unfold st_bind at 1. rewrite E1. destruct (run_search_ok v (build_filter project_filter topic_filter) limit hits s1 H) as (s2 & E2).
  unfold st_bind at 1, st_try at 1. rewrite E2. unfold st_bind.
  pose proof (trace_ok "search" ms [("query_length", JInt (Z.of_nat (String.length query))); ("results", JInt (Z.of_nat (length hits)))] s2) as H3.
  destruct (trace_to_langfuse _ _ _ _ _ _ _ _ s2) as [s3 [u|e]]; [|done]. by eexists.
Qed.
End answering.

(** ** The promises of the index *)

Lemma Forall2_matched {A B} (R : A -> B -> Prop) l l' y : List.Forall2 R l l' -> In y l' -> exists x, In x l /\ R x y.
Proof. induction 1 as [|a b l l' Hab _ IH]; cbn; [by intros []|]. naive_solver. Qed.

(** Records for two collections, as the witnesses write them. *)
Definition sample_row (content collection : string) : dict :=
  [("project", JStr "p"); ("file", JStr "a.md"); ("content", JStr content); ("topic_path", JStr "t/u"); ("collection_name", JStr collection)].
Definition no_state : vec_state := mkVec no_cache [] [] [] [] 0 0.
Definition plain_reply (n : nat) (target : string) (op : qdrant_op) : result qdrant_reply :=
  match op with GetCollection _ => Raise (runtime_error "Not found: 404") | _ => Ok Completed end.
Definition no_provider (n : nat) (url : string) (body : json) (headers : list (string * string)) : result http_response :=
  Raise (OtherError "ConnectError" "refused").
Definition shown (q : Q) : string := str_of_Z (Qnum q) +:+ "/" +:+ str_of_Z (Zpos (Qden q)).

(** C21: a batch that is written without an exception is stored whole: each
    collection named by its rows gets exactly one accepted call, which holds the
    rows for that collection, each once and in the order they came, whichever
    backend took it and whether or not the vectors had to be recomputed for the
    collection's dimension. *)
Theorem batch_stored V sha1 repr_float respond provider uuid4 clock utc_offset items s s' :
  push_batch_to_qdrant V sha1 repr_float respond provider uuid4 clock utc_offset items s = (s', Ok tt) ->
  exists l, accepted_upserts (qdrant_log s') = accepted_upserts (qdrant_log s) ++ l /\ List.NoDup (map fst l) /\
    (forall c, In c (map fst l) <-> exists item, In item items /\ collection_of V item = c) /\
    (forall c ps, In (c, ps) l -> List.Forall2 holds_row (List.filter (fun item => collection_of V item =s c) items) ps).
Proof.
  intros E. unfold Vectors.push_batch_to_qdrant in E. set (groups := fold_left _ _ _) in E.
  destruct (push_groups_spec _ _ _ _ _ _ _ _ _ _ _ _ _ E eq_refl) as (n & l & Hl & Hf & Hn). rewrite Hn, firstn_all in Hf by done.
  assert (map fst l = map fst groups) as Hk.
  { clear -Hf. induction Hf as [|g e gs l [He _] _ IH]; cbn; [done|]. by rewrite He, IH. }
  exists l. split; [done|]. rewrite Hk. split; [apply grouped_NoDup; constructor|]. split.
  - intros c. unfold groups. rewrite grouped_keys. cbn. naive_solver.
  - intros c ps Hin. destruct (Forall2_matched _ _ _ _ Hf Hin) as ([c' rows] & Hg & [Hc Hr]).
    cbn in Hc, Hr. subst c'. apply group_items in Hg. by subst.
Qed.

Lemma batch_stored_witness :
  let items := [sample_row "one" ""; sample_row "two" "other"; sample_row "three" ""] in
  let run := push_batch_to_qdrant default_vectors (fun x => x) shown plain_reply no_provider (fun n => str_of_Z (Z.of_nat n)) (fun _ => 0) 0 items no_state in
  map (fun e => (fst e, length (snd e))) (accepted_upserts (qdrant_log (fst run))) = [("memmcp_notes", 2%nat); ("other", 1%nat)] /\
  exists l, accepted_upserts (qdrant_log (fst run)) = accepted_upserts [] ++ l /\ List.NoDup (map fst l) /\
    (forall c, In c (map fst l) <-> exists item, In item items /\ collection_of default_vectors item = c) /\
    (forall c ps, In (c, ps) l -> List.Forall2 holds_row (List.filter (fun item => collection_of default_vectors item =s c) items) ps).
Proof.
  split; [by vm_compute|].
  apply (batch_stored default_vectors (fun x => x) shown plain_reply no_provider (fun n => str_of_Z (Z.of_nat n)) (fun _ => 0) 0 _ no_state).
  match goal with |- ?m = _ => transitivity (fst m, snd m); [by destruct m|] end. f_equal.
Defined.

(** The error raised when a collection has another dimension is read back by
    the code that handles it: the dimension found is the collection's. *)
Theorem dimension_read_back existing required : 0 <= existing -> 0 <= required ->
  _qdrant_expected_dim (exn_str (mismatch existing required)) = Some existing.
Proof. apply mismatch_dim. Qed.

Lemma dimension_read_back_witness : _qdrant_expected_dim (exn_str (mismatch 768 32)) = Some 768.
Proof. by apply (dimension_read_back 768 32). Defined.

(** With the default setting an embedding always comes back, and a search
    answers with what the index found, whatever becomes of the provider of
    embeddings and of the trace sent to Langfuse. *)
Theorem search_without_provider V sha1 repr_float respond provider langfuse uuid4 clock late ms query limit project_filter topic_filter hits s :
  EMBEDDING_FAIL_OPEN V = true -> 0 < FALLBACK_EMBED_DIM V -> (forall n t op, respond n t op = Ok (Hits hits)) ->
  is_ok (snd (embed_text V sha1 repr_float provider query s)) = true /\
  exists s', search_qdrant V sha1 repr_float respond provider langfuse uuid4 clock late ms query limit project_filter topic_filter s
             = (s', Ok (map row_of_hit hits)).
Proof. intros Hf Hd H. split; [by apply embed_text_ok|by apply search_answers]. Qed.

Lemma search_without_provider_witness :
  is_ok (snd (embed_text default_vectors (fun x => x) shown no_provider "q" no_state)) = true /\
  exists s', search_qdrant default_vectors (fun x => x) shown (fun _ _ _ => Ok (Hits [mkHit [("file", JStr "a.md")] (JFloat "0.5")])) no_provider
               (fun _ _ => Raise TimeoutError) (fun n => str_of_Z (Z.of_nat n)) (fun _ => 0) true 0 "q" 5 "" "" no_state
             = (s', Ok [[("project", JNull); ("file", JStr "a.md"); ("summary", JNull); ("score", JFloat "0.5")]]).
Proof.
  apply (search_without_provider default_vectors (fun x => x) shown _ no_provider _ (fun n => str_of_Z (Z.of_nat n)) (fun _ => 0) true 0 "q" 5 "" ""
           [mkHit [("file", JStr "a.md")] (JFloat "0.5")] no_state); done.
Defined.

(** The vector computed without a provider has the dimension asked for and
    entries from zero to one, in exact arithmetic. *)
Theorem cheap_vector_bounds text n : length (cheap_values text n) = n /\ List.Forall (fun q => 0 <= q <= 1)%Q (cheap_values text n).
Proof. apply cheap_values_spec. Qed.

(** A collection whose dimension has the digits 404 is taken for a missing
    one: the error of the wrong dimension contains 404, so the code goes on to
    create the collection and notes the new dimension. *)
Theorem dimension_404_is_missing :
  let respond n target op := match op with GetCollection _ => Ok (CollectionInfo (Some 4040)) | _ => Ok Completed end in
  let run := ensure_qdrant_collection default_vectors respond 32 "notes" no_state in
  snd run = Ok tt /\ map (fun e => snd (fst e)) (qdrant_log (fst run)) = [GetCollection "notes"; CreateCollection "notes" 32] /\
  dim_cache (fst run) = [("notes", 32)].
Proof. by vm_compute. Qed.

(** The time of a point is off by the local offset from UTC: one hour east of
    Greenwich a point is dated an hour before it was written. *)
Theorem point_time_off now : 0 <= now -> epoch_seconds 0 now = now / 1000000 /\
  epoch_seconds 3600000000 (now + 3600000000) = now / 1000000.
Proof.
  intros H. unfold epoch_seconds, us_per_sec. rewrite Z.sub_0_r, Z.add_simpl_r. split; apply Z.quot_div_nonneg; lia.
Qed.

Lemma point_time_off_witness : epoch_seconds 0 5000000 = 5 /\ epoch_seconds 3600000000 (5000000 + 3600000000) = 5.
Proof. by apply (point_time_off 5000000). Defined.
