(* ===== verification/Letta.v ===== *)
(** * Letta's agents and archive

    The agent of a session is looked up by its name or created, its endpoints are
    put in order, and it is checked again after a while
    ([_resolve_letta_agent_id]); a record goes to its archive as a short text
    with tags ([push_to_letta]).  Letta answers by [serve], indexed by the
    requests before; the state notes the requests.  [clock] gives [time.time()]
    in microseconds, one reading after the other. *)

From S2P Require Import Prelude PyStr Json JsonText OutboxMaint WriteBuffer SourcePolicy TaskExec Vectors.
Open Scope Z_scope.

Record letta_client_config := mkLettaClient {
  LETTA_URL : string; LETTA_API_KEY : string; LETTA_REQUIRE_API_KEY : bool; LETTA_AGENT_MODEL : string; LETTA_AGENT_EMBEDDING : string;
  LETTA_AGENT_VERIFY_INTERVAL_SECS : Z; (* microseconds *)
  LETTA_ARCHIVAL_MAX_CHARS : Z; LETTA_ARCHIVAL_INCLUDE_CONTENT : bool }.

Definition default_letta_client : letta_client_config :=
  mkLettaClient "http://letta:8283" "" false "ollama/qwen2.5-coder:7b" "" 300000000 400 false.

Inductive letta_request :=
| FetchAgent (agent_id : string)
| FindAgents (agent_name : string)
| PatchAgent (agent_id : string) (payload : json)
| CreateAgent (payload : json)
| PostArchival (agent_id : string) (payload : json).

Record letta_client := mkLettaAgents {
  LETTA_AGENT_CACHE : list (string * string); LETTA_AGENT_VERIFIED_AT : list (string * Z); letta_log : list (letta_request * list (string * string));
  letta_calls : nat; letta_readings : nat }.

(** [s[:n]] *)
Definition slice_to (n : Z) (s : string) : string :=
  if 0 <=? n then take (Z.to_nat n) s else drop_last (Z.to_nat (- n)) s.

Definition shortened (n : nat) (s : string) : string :=
  if (String.length s <=? n)%nat then s else take n s +:+ "...".

Section letta.
Variable C : letta_client_config.
Variable serve : nat -> letta_request -> list (string * string) -> result http_response.
Variable clock : nat -> Z.
Abbreviation M := (ST letta_client).

Definition dash (s : string) : string := str_or s "-".

Definition archival_metadata (context : dict) : dict :=
  List.filter (fun kv => negb (mem_str (fst kv) ["project"; "file"; "topic_path"; "content"; "summary"])) context.

Definition archival_lines (summary : string) (context : dict) : list string :=
  let project := text_at context "project" in let file_name := text_at context "file" in
  let topic_path := text_at context "topic_path" in let content := text_at context "content" in
  (if truthy project || truthy file_name || truthy topic_path
   then ["project=" +:+ dash project +:+ " file=" +:+ dash file_name +:+ " topic=" +:+ dash topic_path] else [])
  ++ (if truthy summary then ["summary: " +:+ shortened 240 summary] else [])
  ++ (if LETTA_ARCHIVAL_INCLUDE_CONTENT C && truthy content then ["content_snippet: " +:+ shortened 220 content] else [])
  ++ (match archival_metadata context with [] => [] | m => ["metadata: " +:+ take 180 (dumps (JObj m))] end).

Definition _build_letta_archival_text (summary : string) (context : dict) : string :=
  let text := strip (join nl (archival_lines summary context)) in
  let text := if truthy text then text else str_or summary "memory update" in
  if LETTA_ARCHIVAL_MAX_CHARS C <? Z.of_nat (String.length text) then slice_to (LETTA_ARCHIVAL_MAX_CHARS C) text else text.

Definition _normalize_ollama_openai_base (url : string) : string :=
  let cleaned := strip_slash (strip url) in
  if negb (truthy cleaned) then cleaned
  else if negb (contains cleaned "ollama:11434") then cleaned
  else if endswith cleaned "/v1" then cleaned
  else cleaned +:+ "/v1".

Definition letta_ask (rq : letta_request) (headers : list (string * string)) : M http_response := fun s =>
  (mkLettaAgents (LETTA_AGENT_CACHE s) (LETTA_AGENT_VERIFIED_AT s) (letta_log s ++ [(rq, headers)]) (S (letta_calls s)) (letta_readings s),
   serve (letta_calls s) rq headers).

Definition letta_now : M Z := fun s =>
  (mkLettaAgents (LETTA_AGENT_CACHE s) (LETTA_AGENT_VERIFIED_AT s) (letta_log s) (letta_calls s) (S (letta_readings s)), Ok (clock (letta_readings s))).

Definition set_agent (session_id agent_id : string) : M unit := st_modify (fun s =>
  mkLettaAgents (cset session_id agent_id (LETTA_AGENT_CACHE s)) (LETTA_AGENT_VERIFIED_AT s) (letta_log s) (letta_calls s) (letta_readings s)).
Definition set_verified (session_id : string) (t : Z) : M unit := st_modify (fun s =>
  mkLettaAgents (LETTA_AGENT_CACHE s) (cset session_id t (LETTA_AGENT_VERIFIED_AT s)) (letta_log s) (letta_calls s) (letta_readings s)).

(** [resp.json() if resp.content else default] *)
Definition json_or (default : json) (resp : http_response) : result json :=
  if truthy (body_text resp) then json_of resp else Ok default.

Definition letta_refused {A} (what : string) (resp : http_response) : M A :=
  st_raise (OrchestratorError (what +:+ " failed: status=" +:+ str_of_Z (status_code resp) +:+ " body=" +:+ take 300 (body_text resp))).

Definition _ensure_letta_agent_endpoint_compat (agent_id : string) (agent_payload : dict) (headers : list (string * string)) : M unit :=
  match dget agent_payload "llm_config", dget agent_payload "embedding_config" with
  | JObj llm_cfg, JObj emb_cfg =>
      let llm_endpoint := text_at llm_cfg "model_endpoint" in
      let emb_endpoint := text_at emb_cfg "embedding_endpoint" in
      let normalized_llm := _normalize_ollama_openai_base llm_endpoint in
      let normalized_emb := _normalize_ollama_openai_base emb_endpoint in
      if (normalized_llm =s llm_endpoint) && (normalized_emb =s emb_endpoint) then st_ret tt
      else
        let llm_patch := dset "model_endpoint" (JStr (str_or normalized_llm llm_endpoint)) llm_cfg in
        let emb_patch := dset "embedding_endpoint" (JStr (str_or normalized_emb emb_endpoint)) emb_cfg in
        resp <- letta_ask (PatchAgent agent_id (JObj [("llm_config", JObj llm_patch); ("embedding_config", JObj emb_patch)])) headers ;;
        if 400 <=? status_code resp then letta_refused "Letta agent endpoint patch" resp else st_ret tt
  | _, _ => st_ret tt
  end.

(** The agent is fetched and its endpoints put in order. *)
Definition check_agent (agent_id : string) (headers : list (string * string)) : M unit :=
  details <- letta_ask (FetchAgent agent_id) headers ;;
  if 400 <=? status_code details then letta_refused "Letta agent fetch" details
  else
    detail_payload <- st_lift (json_or (JObj []) details) ;;
    match detail_payload with
    | JObj d => _ensure_letta_agent_endpoint_compat agent_id d headers
    | _ => st_ret tt
    end.

(** The id of the first row, empty when there is none. *)
Definition first_id (lookup : http_response) : result string :=
  let! rows := json_or (JList []) lookup in
  match rows with
  | JList (row :: _) => let! i := attr_get row "id" in Ok (strip (jstr_or_empty i))
  | _ => Ok ""
  end.

Definition adopt (session_id agent_id : string) : M string :=
  set_agent session_id agent_id ;;; t <- letta_now ;; set_verified session_id t ;;; st_ret agent_id.

Definition create_payload (session_id : string) : json :=
  JObj ([("name", JStr session_id)] ++ (if truthy (LETTA_AGENT_MODEL C) then [("model", JStr (LETTA_AGENT_MODEL C))] else [])
        ++ (if truthy (LETTA_AGENT_EMBEDDING C) then [("embedding", JStr (LETTA_AGENT_EMBEDDING C))] else [])).

(** The first agent found, checked, or what [otherwise] makes of none. *)
Definition adopt_found (session_id : string) (lookup : http_response) (headers : list (string * string)) (otherwise : M string) : M string :=
  agent_id <- st_lift (first_id lookup) ;;
  if truthy agent_id then check_agent agent_id headers ;;; adopt session_id agent_id else otherwise.

Definition create_agent (session_id : string) (headers : list (string * string)) : M string :=
  created <- letta_ask (CreateAgent (create_payload session_id)) headers ;;
  if 400 <=? status_code created then
    if negb ((status_code created =? 409) || (status_code created =? 422)) then letta_refused "Letta agent create" created
    else
      retry_lookup <- letta_ask (FindAgents session_id) headers ;;
      if 400 <=? status_code retry_lookup then letta_refused "Letta agent lookup retry" retry_lookup
      else adopt_found session_id retry_lookup headers (letta_refused "Letta agent create" created)
  else
    payload <- st_lift (json_or (JObj []) created) ;;
    match payload with
    | JObj d =>
        let agent_id := strip (text_at d "id") in
        if negb (truthy agent_id) then st_raise (OrchestratorError "Letta agent create returned no id")
        else _ensure_letta_agent_endpoint_compat agent_id d headers ;;; adopt session_id agent_id
    | _ => st_raise (OrchestratorError "Letta agent create returned no id")
    end.

Definition cached_agent (session_id : string) (s : letta_client) : string :=
  match clookup session_id (LETTA_AGENT_CACHE s) with Some a => a | None => "" end.
Definition verified_at (session_id : string) (s : letta_client) : Z :=
  match clookup session_id (LETTA_AGENT_VERIFIED_AT s) with Some t => t | None => 0 end.

Definition _resolve_letta_agent_id (session_id : string) (headers : list (string * string)) : M string :=
  if startswith session_id "agent-" then st_ret session_id
  else
    s <- st_get ;;
    let cached := cached_agent session_id s in
    fresh <- (if truthy cached then t <- letta_now ;; st_ret (t - verified_at session_id s <? LETTA_AGENT_VERIFY_INTERVAL_SECS C) else st_ret false) ;;
    if (fresh : bool) then st_ret cached
    else if truthy cached then
      check_agent cached headers ;;; t <- letta_now ;; set_verified session_id t ;;; st_ret cached
    else
      lookup <- letta_ask (FindAgents session_id) headers ;;
      if 400 <=? status_code lookup then letta_refused "Letta agent lookup" lookup
      else adopt_found session_id lookup headers (create_agent session_id headers).

Definition archival_tags (context : dict) : list string :=
  let project := strip (text_at context "project") in let file_name := strip (text_at context "file") in
  firstn 8 (["contextlattice"] ++ (if truthy project then ["project:" +:+ take 120 project] else [])
            ++ (if truthy file_name then ["file:" +:+ take 180 file_name] else [])).

Definition push_to_letta (session_id summary : string) (context : dict) : M unit :=
  if negb (truthy (LETTA_API_KEY C)) && LETTA_REQUIRE_API_KEY C
  then st_raise (OrchestratorError "LETTA_REQUIRE_API_KEY is enabled but LETTA_API_KEY is not set")
  else
    let headers := if truthy (LETTA_API_KEY C) then [("Authorization", "Bearer " +:+ LETTA_API_KEY C)] else [] in
    agent_id <- _resolve_letta_agent_id session_id headers ;;
    let payload := JObj [("text", JStr (_build_letta_archival_text summary context)); ("tags", JList (map JStr (archival_tags context)))] in
    resp <- letta_ask (PostArchival agent_id payload) headers ;;
    resp <- (if (500 <=? status_code resp) && negb (startswith session_id "agent-") then
               set_verified session_id 0 ;;;
               agent_id <- _resolve_letta_agent_id session_id headers ;;
               letta_ask (PostArchival agent_id payload) headers
             else st_ret resp) ;;
    if 400 <=? status_code resp then letta_refused "Letta sync" resp else st_ret tt.
End letta.

(** * Proofs about Letta's agents and archive

    A record written to the archive is read back by the search, a push that
    returns was accepted by the agent of its session, and the agents that are
    remembered were confirmed by Letta. *)

From S2P Require Import IsoParse WriteBufferFacts Mcp Tasks TaskExec Sources MessagingFacts CatalogFacts TextLogFacts TradingFacts.
From Stdlib Require Import Ascii.
Open Scope Z_scope.

(** ** The text of a record *)

Lemma lines_from_word w : all_chars (fun c => negb (is_line_end c)) w = true ->
  forall line t, lines_from line false (w +:+ t) = lines_from (line +:+ w) false t.
Proof.
  induction w as [|c w IH]; intros H line t; [by rewrite append_nil_r|]. cbn [all_chars] in H. blift. rewrite append_cons. cbn [lines_from].
  rewrite andb_false_r. destruct (is_line_end c); [done|]. rewrite IH by done. by rewrite append_assoc.
Qed.

Abbreviation LF := (ascii_of_N 10).

Lemma lines_from_lf line t : lines_from line false (String LF t) = line :: splitlines t.
Proof. cbn [lines_from]. by rewrite andb_false_r. Qed.

(** The end of a text, after its last line that matters. *)
Definition line_tail (t : string) : Prop := t = "" \/ exists u, t = String LF u.

Lemma first_line w t : all_chars (fun c => negb (is_line_end c)) w = true -> truthy w = true -> line_tail t ->
  exists more, splitlines (w +:+ t) = w :: more.
Proof.
  intros Hw Tw [->|[u ->]]; unfold splitlines; rewrite lines_from_word by done; [|rewrite lines_from_lf; by eexists].
  change ("" +:+ w) with w. cbn [lines_from]. rewrite Tw. by eexists.
Qed.

Lemma line_tail_rstrip t : line_tail t -> line_tail (rstrip_by is_space t).
Proof.
  intros [->|[u ->]]; [by left|]. cbn [rstrip_by]. destruct (rstrip_by is_space u); [left|right; by eexists]. done.
Qed.

Lemma space_line_end w : all_chars not_space w = true -> all_chars (fun c => negb (is_line_end c)) w = true.
Proof.
  induction w as [|c w IH]; cbn [all_chars]; [done|]. intros H. blift. rewrite IH by done.
  assert (is_line_end c = false) as ->; [|done]. destruct (is_line_end c) eqn:E; [|done]. unfold not_space in *.
  assert (is_space c = true) as Hs; [|by rewrite Hs in *]. clear -E. destruct c as [[] [] [] [] [] [] [] []]; by vm_compute in E |- *.
Qed.

Lemma last_visible s : truthy s = true -> rstrip_by is_space s = s -> exists s0 c, s = s0 +:+ String c "" /\ is_space c = false.
Proof.
  induction s as [|c s IH]; [done|]. intros _ H. cbn [rstrip_by] in H. destruct (rstrip_by is_space s) as [|d r] eqn:E.
  - destruct (is_space c) eqn:Hc; [done|]. injection H as <-. by exists "", c.
  - injection H as H. subst s. destruct IH as (s0 & e & H1 & H2); [done|done|]. exists (String c s0), e. rewrite H1. by rewrite append_cons.
Qed.

Lemma word_rstrip w : all_chars not_space w = true -> rstrip_by is_space w = w.
Proof.
  induction w as [|c w IH]; cbn [all_chars]; [done|]. intros H. blift. cbn [rstrip_by]. rewrite IH by done. unfold not_space in *.
  destruct w; [|done]. by destruct (is_space c).
Qed.

(** *** The fields of the header *)

Lemma startswith_before w r key : has_char " " key = false -> startswith (w +:+ String " " r) key = startswith w key.
Proof.
  revert key. induction w as [|c w IH]; intros key Hk.
  - change ("" +:+ String " " r) with (String " " r). destruct key as [|k key]; [done|]. cbn [startswith has_char] in *. blift.
    destruct (Ascii.eqb_spec k " ") as [->|]; done.
  - rewrite append_cons. destruct key as [|k key]; [done|]. cbn [startswith has_char] in *. blift. by rewrite IH.
Qed.

Lemma startswith_char w key c : startswith w key = true -> has_char c key = true -> has_char c w = true.
Proof.
  revert w. induction key as [|k key IH]; intros [|d w] H1 H2; try done. cbn [startswith has_char] in *. blift. apply Ascii.eqb_eq in H. subst.
  apply orb_true_iff in H2 as [->|H2]; [done|]. rewrite (IH w) by done. apply orb_true_r.
Qed.

Lemma field_skip key w r : has_char " " key = false -> has_char "=" key = true -> has_char "=" w = false ->
  field_value key (w +:+ String " " r) = field_value key (String " " r).
Proof.
  intros H1 H2. induction w as [|c w IH]; intros Hw; [done|]. rewrite append_cons. cbn [field_value]. rewrite <- append_cons.
  rewrite startswith_before by done. destruct (startswith (String c w) key) eqn:E; [by apply startswith_char with (c := "="%char) in E; [congruence|]|].
  cbn [truthy]. apply IH. cbn [has_char] in Hw. by blift.
Qed.

Lemma run_of_word w r : all_chars not_space w = true -> (r = "" \/ exists u, r = String " " u) -> run_of not_space (w +:+ r) = w.
Proof.
  intros Hw Hr. induction w as [|c w IH]; [by destruct Hr as [->|[u ->]]|]. cbn [all_chars] in Hw. blift.
  rewrite append_cons. cbn [run_of]. rewrite H, IH; done.
Qed.

Lemma field_here key w r : all_chars not_space w = true -> truthy w = true -> (r = "" \/ exists u, r = String " " u) ->
  field_value key (key +:+ w +:+ r) = w.
Proof.
  intros Hw Tw Hr. assert (forall s, s = key +:+ w +:+ r -> field_value key s = w) as H; [|by apply H]. intros s Hs.
  assert (startswith s key = true /\ drop (String.length key) s = w +:+ r) as [H1 H2]; [subst; by rewrite startswith_app, drop_app|].
  destruct s as [|c s]; cbn [field_value]; rewrite H1, H2, run_of_word by done; by rewrite Tw.
Qed.

(** A field of the header: empty, or a word that is no dash. *)
Definition header_field (w : string) : Prop := all_chars not_space w = true /\ w <> "-".

Lemma dash_word w : header_field w -> all_chars not_space (dash w) = true /\ truthy (dash w) = true /\ dash_empty (strip (dash w)) = w.
Proof.
  intros [Hw Hn]. destruct w as [|c w]; [done|]. change (dash (String c w)) with (String c w). split; [done|]. split; [done|].
  assert (strip (String c w) = String c w) as ->.
  { unfold strip, strip_by. cbn [all_chars] in Hw. assert (is_space c = false) as Hc by (unfold not_space in Hw; blift; by destruct (is_space c)).
    cbn [lstrip_by]. rewrite Hc. by apply word_rstrip. }
  unfold dash_empty. by apply String.eqb_neq in Hn as ->.
Qed.

Lemma dash_char w : has_char "=" w = false -> has_char "=" (dash w) = false.
Proof. by destruct w. Qed.

Section header.
Variables P F T : string.
Hypothesis HP : header_field P.
Hypothesis HF : header_field F.
Hypothesis HT : header_field T.
Hypothesis NP : has_char "=" P = false.
Hypothesis NF : has_char "=" F = false.

Definition archive_header : string := "project=" +:+ dash P +:+ " file=" +:+ dash F +:+ " topic=" +:+ dash T.

Lemma archive_header_fields : field_value "project=" archive_header = dash P /\ field_value "file=" archive_header = dash F /\
  field_value "topic=" archive_header = dash T.
Proof.
  destruct (dash_word P HP) as (P1 & P2 & _). destruct (dash_word F HF) as (F1 & F2 & _). destruct (dash_word T HT) as (T1 & T2 & _).
  unfold archive_header. split; [apply field_here; try done; right; by eexists|]. split.
  - transitivity (field_value "file=" (dash P +:+ " file=" +:+ dash F +:+ " topic=" +:+ dash T)); [reflexivity|].
    etransitivity; [apply field_skip; [done|done|by apply dash_char]|].
    transitivity (field_value "file=" ("file=" +:+ dash F +:+ " topic=" +:+ dash T)); [reflexivity|].
    apply field_here; try done. right. by eexists.
  - transitivity (field_value "topic=" (dash P +:+ " file=" +:+ dash F +:+ " topic=" +:+ dash T)); [reflexivity|].
    etransitivity; [apply field_skip; [done|done|by apply dash_char]|].
    transitivity (field_value "topic=" (dash F +:+ " topic=" +:+ dash T)); [reflexivity|].
    etransitivity; [apply field_skip; [done|done|by apply dash_char]|].
    transitivity (field_value "topic=" ("topic=" +:+ dash T +:+ "")); [by rewrite append_nil_r|].
    apply field_here; try done. by left.
Qed.

Lemma archive_header_line : strip archive_header = archive_header /\ all_chars (fun c => negb (is_line_end c)) archive_header = true.
Proof.
  destruct (dash_word P HP) as (P1 & P2 & _). destruct (dash_word F HF) as (F1 & F2 & _). destruct (dash_word T HT) as (T1 & T2 & _). split.
  - unfold strip, strip_by. change (lstrip_by is_space archive_header) with archive_header. unfold archive_header.
    destruct (last_visible (dash T) T2 (word_rstrip _ T1)) as (t0 & c & -> & Hc). rewrite <- !append_assoc. by apply rstrip_last.
  - unfold archive_header. rewrite !all_chars_app, (space_line_end (dash P)), (space_line_end (dash F)), (space_line_end (dash T)) by done. done.
Qed.
End header.

Lemma strip_lines a b c t : rstrip_by is_space b = b -> truthy b = true -> is_space c = false -> line_tail t ->
  exists t', strip (String c (a +:+ b +:+ t)) = String c (a +:+ b +:+ t') /\ line_tail t'.
Proof.
  intros Hb Tb Hc Ht. exists (rstrip_by is_space t). split; [|by apply line_tail_rstrip]. unfold strip, strip_by. cbn [lstrip_by]. rewrite Hc.
  destruct (last_visible b Tb Hb) as (b0 & d & -> & Hd).
  transitivity (rstrip_by is_space (String c (a +:+ b0) +:+ String d t)).
  { f_equal. rewrite append_cons, !append_assoc. by rewrite append_cons. }
  rewrite rstrip_app by done. rewrite append_cons, !append_assoc. by rewrite append_cons.
Qed.

(** *** A record read back *)

Lemma two_lines h x l : exists t, line_tail t /\ join nl (h :: x :: l) = h +:+ nl +:+ x +:+ t.
Proof.
  destruct l as [|y l]; [exists ""; split; [by left|]; cbn [join]; by rewrite append_nil_r|].
  exists (nl +:+ join nl (y :: l)). split; [right; by eexists|]. reflexivity.
Qed.

(** The two lines every archived record with a summary starts with. *)
Lemma archived_lines H S t : strip H = H -> truthy H = true -> all_chars (fun c => negb (is_line_end c)) H = true ->
  strip S = S -> truthy S = true -> all_chars (fun c => negb (is_line_end c)) S = true -> line_tail t ->
  exists more, List.filter truthy (map strip (splitlines (H +:+ nl +:+ S +:+ t))) = H :: S :: more.
Proof.
  intros H1 H2 H3 S1 S2 S3 Ht. unfold splitlines. rewrite lines_from_word by done.
  change (nl +:+ S +:+ t) with (String LF (S +:+ t)). rewrite lines_from_lf. destruct (first_line S t S3 S2 Ht) as [more ->].
  cbn [map List.filter]. change ("" +:+ H) with H. rewrite H1, S1, H2, S2. by eexists.
Qed.

Lemma summary_found S more : strip S = S -> summary_line (("summary: " +:+ S) :: more) = S.
Proof.
  intros HS. cbn [summary_line]. assert (startswith (lower ("summary: " +:+ S)) "summary:" = true) as ->.
  { rewrite lower_app. exact (startswith_app "summary:" (" " +:+ lower S)). }
  change (after_colon ("summary: " +:+ S)) with (String " " S). transitivity (strip S); [|done]. reflexivity.
Qed.

Lemma summary_ends S : strip S = S -> truthy S = true -> rstrip_by is_space ("summary: " +:+ S) = "summary: " +:+ S.
Proof. intros HS TS. apply rstrip_keep; [by intros ->|]. rewrite <- HS. apply strip_rstripped. Qed.

Lemma summary_strip S : strip S = S -> truthy S = true -> strip ("summary: " +:+ S) = "summary: " +:+ S.
Proof. intros HS TS. exact (summary_ends S HS TS). Qed.

Lemma archive_roundtrip C summary context P F T :
  text_at context "project" = P -> text_at context "file" = F -> text_at context "topic_path" = T ->
  header_field P -> header_field F -> header_field T -> has_char "=" P = false -> has_char "=" F = false ->
  truthy P || truthy F || truthy T = true ->
  strip summary = summary -> truthy summary = true -> all_chars (fun c => negb (is_line_end c)) summary = true -> (String.length summary <= 240)%nat ->
  Z.of_nat (String.length (join nl (archival_lines C summary context))) <= LETTA_ARCHIVAL_MAX_CHARS C ->
  _parse_letta_archival_content (_build_letta_archival_text C summary context) = mkPassage P F T summary.
Proof.
  intros EP EF ET HP HF HT NP NF Ht S1 S2 S3 S4 HL.
  assert (exists t, line_tail t /\ join nl (archival_lines C summary context) = archive_header P F T +:+ nl +:+ ("summary: " +:+ summary) +:+ t)
    as (t & Htail & Ej).
  { unfold archival_lines. rewrite EP, EF, ET, Ht, S2. unfold shortened at 1. apply Nat.leb_le in S4. rewrite S4. apply two_lines. }
  unfold _build_letta_archival_text. pose proof (strip_length (join nl (archival_lines C summary context))) as Hlen. rewrite Ej in HL, Hlen |- *.
  destruct (strip_lines (drop 1 (archive_header P F T) +:+ nl) ("summary: " +:+ summary) "p" t) as (t' & E & Ht'); try done; [by apply summary_ends|].
  rewrite !(append_assoc _ nl) in E. change (String "p" (drop 1 (archive_header P F T) +:+ ?x)) with (archive_header P F T +:+ x) in E.
  rewrite E in Hlen |- *. change (truthy (archive_header P F T +:+ _)) with true. cbn match.
  destruct (Z.ltb_spec (LETTA_ARCHIVAL_MAX_CHARS C) (Z.of_nat (String.length (archive_header P F T +:+ nl +:+ ("summary: " +:+ summary) +:+ t')))); [lia|].
  destruct (archive_header_line P F T HP HF HT) as [A1 A2]. destruct (archive_header_fields P F T HP HF HT NP NF) as (B1 & B2 & B3).
  unfold _parse_letta_archival_content.
  destruct (archived_lines (archive_header P F T) ("summary: " +:+ summary) t') as [more ->]; try done; [by apply summary_strip|].
  cbn [tl]. rewrite summary_found, B1, B2, B3 by done.
  destruct (dash_word P HP) as (_ & _ & ->). destruct (dash_word F HF) as (_ & _ & ->). destruct (dash_word T HT) as (_ & _ & ->).
  unfold str_or. by rewrite S2.
Qed.

(** ** Agents *)

Section agents.
Variable C : letta_client_config.
Variable serve : nat -> letta_request -> list (string * string) -> result http_response.
Variable clock : nat -> Z.

(** A request that was answered this way. *)
Definition was_answered (rq : letta_request) (resp : http_response) (s : letta_client) : Prop :=
  exists i h, nth_error (letta_log s) i = Some (rq, h) /\ serve i rq h = Ok resp.

(** Letta knows the agent: it was fetched, or it is the one Letta made. *)
Definition confirmed (a : string) (s : letta_client) : Prop :=
  exists resp, status_code resp < 400 /\
    (was_answered (FetchAgent a) resp s \/
     exists p d, was_answered (CreateAgent p) resp s /\ json_or (JObj []) resp = Ok (JObj d) /\ strip (text_at d "id") = a).

Definition agents_ok (s : letta_client) : Prop :=
  letta_calls s = length (letta_log s) /\ forall k a, In (k, a) (LETTA_AGENT_CACHE s) -> confirmed a s.

(** Steps that only make requests. *)
Definition grows (s s' : letta_client) : Prop :=
  (exists l, letta_log s' = letta_log s ++ l) /\ LETTA_AGENT_CACHE s' = LETTA_AGENT_CACHE s /\ LETTA_AGENT_VERIFIED_AT s' = LETTA_AGENT_VERIFIED_AT s /\
  (letta_calls s = length (letta_log s) -> letta_calls s' = length (letta_log s')).
Definition only_asks {A} (m : ST letta_client A) : Prop := forall s, grows s (fst (m s)).

#[global] Instance grows_preorder : PreOrder grows.
Proof.
  split.
  - intros s. split; [exists []; by rewrite app_nil_r|done].
  - intros a b c ((l1 & H1) & H2 & H3 & H4) ((l2 & H5) & H6 & H7 & H8). split; [exists (l1 ++ l2); by rewrite H5, H1, app_assoc|].
    rewrite H6, H7. auto.
Qed.

Lemma only_asks_bind {A B} (m : ST letta_client A) (k : A -> ST letta_client B) : only_asks m -> (forall a, only_asks (k a)) -> only_asks (st_bind m k).
Proof.
  intros Hm Hk s. unfold st_bind. specialize (Hm s). destruct (m s) as [s1 [a|e]]; cbn [fst] in *; [|done]. etransitivity; [done|apply Hk].
Qed.
Lemma only_asks_ret {A} (a : A) : only_asks (st_ret a).
Proof. intros s. reflexivity. Qed.
Lemma only_asks_lift {A} (r : result A) : only_asks (st_lift r).
Proof. intros s. reflexivity. Qed.
Lemma only_asks_refused {A} what resp : only_asks (letta_refused (A := A) what resp).
Proof. intros s. reflexivity. Qed.
Lemma only_asks_now : only_asks (letta_now clock).
Proof. intros s. split; [exists []; by rewrite app_nil_r|done]. Qed.
Lemma only_asks_ask rq h : only_asks (letta_ask serve rq h).
Proof. intros s. split; [by eexists|]. cbn. repeat split. intros ->. rewrite length_app. cbn. lia. Qed.
Create HintDb asks.
#[local] Hint Resolve only_asks_ret only_asks_lift only_asks_refused only_asks_now only_asks_ask : asks.
Ltac asks := repeat first [solve [auto with asks] | apply only_asks_bind; [|intros ?] | case_match].

Lemma only_asks_compat agent_id d h : only_asks (_ensure_letta_agent_endpoint_compat serve agent_id d h).
Proof. unfold _ensure_letta_agent_endpoint_compat. asks. Qed.
#[local] Hint Resolve only_asks_compat : asks.
Lemma only_asks_check agent_id h : only_asks (check_agent serve agent_id h).
Proof. unfold check_agent. asks. Qed.

Lemma nth_error_grows {A} (l l' : list A) i x : nth_error l i = Some x -> nth_error (l ++ l') i = Some x.
Proof. intros H. rewrite nth_error_app1; [done|]. apply nth_error_Some. congruence. Qed.

Lemma answered_grows rq resp s s' : grows s s' -> was_answered rq resp s -> was_answered rq resp s'.
Proof. intros ((l & Hl) & _) (i & h & H1 & H2). exists i, h. rewrite Hl. split; [by apply nth_error_grows|done]. Qed.

Lemma confirmed_grows a s s' : grows s s' -> confirmed a s -> confirmed a s'.
Proof.
  intros Hg (resp & Hr & [H|(p & d & H & Hd)]); exists resp; split; try done; [left|right; exists p, d; split; [|done]]; by eapply answered_grows.
Qed.

Lemma agents_ok_grows s s' : grows s s' -> agents_ok s -> agents_ok s'.
Proof.
  intros Hg [H1 H2]. split; [by apply Hg|]. intros k a Hin. eapply confirmed_grows; [done|]. apply (H2 k). destruct Hg as (_ & Hc & _).
  by rewrite <- Hc.
Qed.

Lemma only_asks_keeps {A} (m : ST letta_client A) s s' r : only_asks m -> m s = (s', r) -> grows s s'.
Proof. intros Hm E. specialize (Hm s). by rewrite E in Hm. Qed.

(** An answer is noted with its request. *)
Lemma ask_answered rq h s s' resp : agents_ok s -> letta_ask serve rq h s = (s', Ok resp) -> was_answered rq resp s' /\ grows s s'.
Proof.
  intros [Hc _] E. split; [|eapply only_asks_keeps; [|exact E]; apply only_asks_ask].
  unfold letta_ask in E. injection E as <- E. exists (length (letta_log s)), h. cbn [letta_log]. rewrite nth_error_app2, Nat.sub_diag by lia.
  by rewrite <- Hc.
Qed.

Lemma check_confirms agent_id h s s' : agents_ok s -> check_agent serve agent_id h s = (s', Ok tt) -> confirmed agent_id s' /\ grows s s'.
Proof.
  intros Hs E. split; [|eapply only_asks_keeps; [|exact E]; apply only_asks_check].
  unfold check_agent in E. apply st_bind_ok in E as (s1 & resp & E1 & E). destruct (ask_answered _ _ _ _ _ Hs E1) as [Ha Hg].
  destruct (Z.leb_spec 400 (status_code resp)); [done|]. eapply confirmed_grows; [|exists resp; split; [done|by left]].
  apply st_bind_ok in E as (s2 & j & E2 & E). injection E2 as <- _.
  destruct j; try (by injection E as <-); (eapply only_asks_keeps; [|exact E]; apply only_asks_compat).
Qed.

(** The agent of a session and every other agent remembered are known. *)
Lemma adopt_ok session_id agent_id s s' a : agents_ok s -> confirmed agent_id s -> adopt clock session_id agent_id s = (s', Ok a) ->
  agents_ok s' /\ a = agent_id /\ cached_agent session_id s' = agent_id /\ letta_log s' = letta_log s.
Proof.
  intros [H1 H2] Hc E. unfold adopt, set_agent, set_verified, st_modify, st_bind, letta_now, st_ret in E. injection E as <- <-. repeat split; cbn.
  - done.
  - intros k x [[= -> ->]|Hin]%cset_In; [exact Hc|by apply (H2 k)].
  - unfold cached_agent. cbn. by rewrite clookup_cset, String.eqb_refl.
Qed.

Definition owns (session_id a : string) (s : letta_client) : Prop := agents_ok s /\ cached_agent session_id s = a.
Abbreviation finds session_id m := (hoare agents_ok m (owns session_id) (fun _ => agents_ok)).

Lemma hoare_asks {A B} (m : ST letta_client A) (k : A -> ST letta_client B) (P : A -> letta_client -> Prop) Q :
  only_asks m -> (forall s s' a, agents_ok s -> m s = (s', Ok a) -> P a s') -> (forall a, hoare (fun s => agents_ok s /\ P a s) (k a) Q (fun _ => agents_ok)) ->
  hoare agents_ok (st_bind m k) Q (fun _ => agents_ok).
Proof.
  intros Hm HP Hk s Hs. unfold st_bind. destruct (m s) as [s1 [a|e]] eqn:E; pose proof (agents_ok_grows _ _ (only_asks_keeps _ _ _ _ Hm E) Hs) as Hs1; [|done].
  apply Hk. split; [done|]. exact (HP _ _ _ Hs E).
Qed.

Lemma asked_hoare {A B} (m : ST letta_client A) (k : A -> ST letta_client B) Q : only_asks m -> (forall a, hoare agents_ok (k a) Q (fun _ => agents_ok)) ->
  hoare agents_ok (st_bind m k) Q (fun _ => agents_ok).
Proof. intros Hm Hk. apply (hoare_asks m k (fun _ _ => True)); [done|done|]. intros a s [Hs _]. by apply Hk. Qed.

Lemma refused_finds session_id what resp : finds session_id (letta_refused what resp).
Proof. by intros s Hs. Qed.
Lemma raise_finds session_id e : finds session_id (st_raise e).
Proof. by intros s Hs. Qed.

Lemma adopt_finds session_id agent_id : hoare (fun s => agents_ok s /\ confirmed agent_id s) (adopt clock session_id agent_id) (owns session_id) (fun _ => agents_ok).
Proof.
  intros s [Hs Hc]. destruct (adopt clock session_id agent_id s) as [s' [a|e]] eqn:E; [|discriminate].
  destruct (adopt_ok _ _ _ _ _ Hs Hc E) as (H1 & -> & H2 & _). done.
Qed.

Lemma checked_finds session_id agent_id h : finds session_id (check_agent serve agent_id h ;;; adopt clock session_id agent_id).
Proof.
  apply (hoare_asks _ _ (fun _ => confirmed agent_id)); [apply only_asks_check| |intros []; apply adopt_finds].
  intros s s' [] Hs E. by destruct (check_confirms _ _ _ _ Hs E).
Qed.

Lemma adopt_found_finds session_id lookup h otherwise : finds session_id otherwise ->
  finds session_id (adopt_found serve clock session_id lookup h otherwise).
Proof.
  intros Ho. unfold adopt_found. apply asked_hoare; [apply only_asks_lift|]. intros a. destruct (truthy a); [apply checked_finds|done].
Qed.

Lemma create_finds session_id h : finds session_id (create_agent C serve clock session_id h).
Proof.
  unfold create_agent. apply (hoare_asks _ _ (was_answered (CreateAgent (create_payload C session_id)))); [apply only_asks_ask| |].
  { intros s s' resp Hs E. by destruct (ask_answered _ _ _ _ _ Hs E). }
  intros created. destruct (Z.leb_spec 400 (status_code created)) as [Hc|Hc].
  - apply (hoare_conseq _ agents_ok _ (owns session_id) (owns session_id) _ (fun _ => agents_ok)); [|by intros s []|done|done].
    destruct (negb _); [apply refused_finds|]. apply asked_hoare; [apply only_asks_ask|]. intros retry. destruct (400 <=? _); [apply refused_finds|].
    apply adopt_found_finds, refused_finds.
  - intros s [Hs Ha]. unfold st_bind at 1, st_lift. destruct (json_or (JObj []) created) as [[| | | | | |d]|e] eqn:E; try done.
    destruct (negb (truthy (strip (text_at d "id")))); [done|]. unfold st_bind.
    destruct (_ensure_letta_agent_endpoint_compat _ _ _ _ s) as [s1 [u|e]] eqn:E1; pose proof (only_asks_keeps _ _ _ _ (only_asks_compat _ _ _) E1) as Hg;
      [|by eapply agents_ok_grows].
    apply adopt_finds. split; [by eapply agents_ok_grows|]. eapply confirmed_grows; [done|]. exists created. split; [done|]. right. by eexists _, d.
Qed.

Lemma resolve_finds session_id h : startswith session_id "agent-" = false -> finds session_id (_resolve_letta_agent_id C serve clock session_id h).
Proof.
  intros Hn s Hs. unfold _resolve_letta_agent_id. rewrite Hn. unfold st_bind at 1, st_get. set (cached := cached_agent session_id s).
  destruct (truthy cached) eqn:Ec.
  - unfold st_bind at 1. unfold st_bind at 1, letta_now at 1. cbn [st_ret]. set (s1 := mkLettaAgents _ _ _ _ _).
    assert (agents_ok s1 /\ cached_agent session_id s1 = cached) as [Hs1 Hc1] by done. destruct (_ <? _); [done|].
    unfold st_bind at 1. destruct (check_agent _ _ _ s1) as [s2 [u|e]] eqn:E; pose proof (only_asks_keeps _ _ _ _ (only_asks_check _ _) E) as Hg;
      pose proof (agents_ok_grows _ _ Hg Hs1) as Hs2; [|done].
    unfold st_bind, letta_now, set_verified, st_modify, st_ret. split; [done|]. destruct Hg as (_ & Hk & _). unfold cached_agent in *. cbn. by rewrite Hk.
  - unfold st_bind at 1. cbn [st_ret]. revert s Hs cached Ec. intros s Hs _ _. revert s Hs.
    change (finds session_id (lookup <- letta_ask serve (FindAgents session_id) h ;;
      if 400 <=? status_code lookup then letta_refused "Letta agent lookup" lookup else adopt_found serve clock session_id lookup h (create_agent C serve clock session_id h))).
    apply asked_hoare; [apply only_asks_ask|]. intros lookup. destruct (400 <=? _); [apply refused_finds|]. apply adopt_found_finds, create_finds.
Qed.

(** *** Pushing a record *)

Definition agent_of (session_id : string) (s : letta_client) : string :=
  if startswith session_id "agent-" then session_id else cached_agent session_id s.

Definition client_headers : list (string * string) := if truthy (LETTA_API_KEY C) then [("Authorization", "Bearer " +:+ LETTA_API_KEY C)] else [].

Definition archival_payload (summary : string) (context : dict) : json :=
  JObj [("text", JStr (_build_letta_archival_text C summary context)); ("tags", JList (map JStr (archival_tags context)))].

(** The request made last, the record for the agent of the session, was answered
    this way. *)
Definition posted (session_id summary : string) (context : dict) (resp : http_response) (s : letta_client) : Prop :=
  exists l, letta_log s = l ++ [(PostArchival (agent_of session_id s) (archival_payload summary context), client_headers)] /\
    serve (length l) (PostArchival (agent_of session_id s) (archival_payload summary context)) client_headers = Ok resp.

Lemma resolve_owner session_id h : hoare agents_ok (_resolve_letta_agent_id C serve clock session_id h)
  (fun a s => agents_ok s /\ a = agent_of session_id s) (fun _ => agents_ok).
Proof.
  unfold agent_of. destruct (startswith session_id "agent-") eqn:E.
  - intros s Hs. unfold _resolve_letta_agent_id. by rewrite E.
  - eapply hoare_conseq; [by apply resolve_finds|done| |done]. intros a s [Hs Ha]. done.
Qed.

Lemma post_posted session_id summary context agent_id :
  hoare (fun s => agents_ok s /\ agent_id = agent_of session_id s) (letta_ask serve (PostArchival agent_id (archival_payload summary context)) client_headers)
    (fun resp s => agents_ok s /\ posted session_id summary context resp s) (fun _ => agents_ok).
Proof.
  intros s [Hs ->]. destruct (letta_ask _ _ _ s) as [s' [resp|e]] eqn:E; pose proof (only_asks_keeps _ _ _ _ (only_asks_ask _ _) E) as Hg;
    pose proof (agents_ok_grows _ _ Hg Hs) as Hs'; [|done].
  split; [done|]. destruct Hs as [Hc _]. unfold letta_ask in E. injection E as <- E. exists (letta_log s). split; [done|]. by rewrite <- Hc.
Qed.

Lemma push_spec session_id summary context : hoare agents_ok (push_to_letta C serve clock session_id summary context)
  (fun _ s => agents_ok s /\ exists resp, status_code resp < 400 /\ posted session_id summary context resp s) (fun _ => agents_ok).
Proof.
  unfold push_to_letta. fold client_headers. fold (archival_payload summary context). destruct (_ && _); [by intros s Hs|].
  eapply hoare_bind; [apply resolve_owner|]. intros a. eapply hoare_bind; [apply post_posted|]. intros resp.
  eapply (hoare_bind _ _ (fun resp s => agents_ok s /\ posted session_id summary context resp s)).
  - destruct (_ && _); [|by apply hoare_ret]. eapply hoare_bind; [apply (hoare_modify _ _ (fun _ => agents_ok)); by intros s [Hs _]|]. intros [].
    eapply hoare_bind; [apply resolve_owner|]. intros b. apply post_posted.
  - intros resp' s [Hs Hp]. destruct (Z.leb_spec 400 (status_code resp')); [done|]. split; [done|]. by exists resp'.
Qed.

(** *** An agent that Letta lost *)

(** The agent remembered is refused by Letta and its last check is out of date at
    every reading of the clock to come. *)
Definition lost (session_id a : string) (s : letta_client) : Prop :=
  cached_agent session_id s = a /\ forall n, LETTA_AGENT_VERIFY_INTERVAL_SECS C <= clock n - verified_at session_id s.

Lemma lost_resolve session_id a h s : startswith session_id "agent-" = false -> truthy a = true ->
  (forall n h, exists resp, serve n (FetchAgent a) h = Ok resp /\ 400 <= status_code resp) -> lost session_id a s ->
  exists s' e, _resolve_letta_agent_id C serve clock session_id h s = (s', Raise e) /\ lost session_id a s'.
Proof.
  intros Hn Ta Hr [Hc Hv]. unfold _resolve_letta_agent_id. rewrite Hn. unfold st_bind at 1, st_get. rewrite Hc, Ta.
  unfold st_bind at 1. unfold st_bind at 1, letta_now at 1. cbn [st_ret].
  assert ((clock (letta_readings s) - verified_at session_id s <? LETTA_AGENT_VERIFY_INTERVAL_SECS C) = false) as -> by apply Z.ltb_ge, Hv.
  unfold st_bind at 1, check_agent. unfold st_bind at 1, letta_ask at 1. cbn [letta_calls].
  destruct (Hr (letta_calls s) h) as (resp & E & Hs). rewrite E. apply Z.leb_le in Hs. rewrite Hs. by eexists _, _.
Qed.

Lemma lost_push session_id a summary context s : startswith session_id "agent-" = false -> truthy a = true ->
  (forall n h, exists resp, serve n (FetchAgent a) h = Ok resp /\ 400 <= status_code resp) -> lost session_id a s ->
  let run := push_to_letta C serve clock session_id summary context s in is_ok (snd run) = false /\ lost session_id a (fst run).
Proof.
  intros Hn Ta Hr Hl. unfold push_to_letta. destruct (_ && _); [done|]. cbv zeta. unfold st_bind at 1 5.
  fold client_headers. destruct (lost_resolve session_id a client_headers s Hn Ta Hr Hl) as (s' & e & E & Hl'). unfold st_bind. by rewrite E.
Qed.

Fixpoint pushes (records : list (string * dict)) (session_id : string) (s : letta_client) : letta_client * list bool :=
  match records with
  | [] => (s, [])
  | (summary, context) :: rest =>
      let '(s1, r) := push_to_letta C serve clock session_id summary context s in
      let '(s2, answers) := pushes rest session_id s1 in (s2, is_ok r :: answers)
  end.

Lemma lost_pushes records session_id a s : startswith session_id "agent-" = false -> truthy a = true ->
  (forall n h, exists resp, serve n (FetchAgent a) h = Ok resp /\ 400 <= status_code resp) -> lost session_id a s ->
  snd (pushes records session_id s) = map (fun _ => false) records.
Proof.
  intros Hn Ta Hr. revert s. induction records as [|[summary context] records IH]; intros s Hl; [done|]. cbn [pushes].
  destruct (lost_push session_id a summary context s Hn Ta Hr Hl) as [H1 H2].
  destruct (push_to_letta _ _ _ _ _ _ s) as [s1 r]. cbn [fst snd] in *. specialize (IH s1 H2). destruct (pushes records session_id s1). cbn in *. by rewrite H1, IH.
Qed.
End agents.

(** ** The promises *)

(** C22: a record written to Letta's archive is read back by the search: the
    project, the file, the topic and the summary are those of the record, when
    the names have no white space, the first two no equals sign, the summary is
    one line of at most 240 characters and the text is within the limit; what
    else the record holds does not matter. *)
Theorem archived_record_reads_back C summary context P F T :
  text_at context "project" = P -> text_at context "file" = F -> text_at context "topic_path" = T ->
  header_field P -> header_field F -> header_field T -> has_char "=" P = false -> has_char "=" F = false ->
  truthy P || truthy F || truthy T = true ->
  strip summary = summary -> truthy summary = true -> all_chars (fun c => negb (is_line_end c)) summary = true -> (String.length summary <= 240)%nat ->
  Z.of_nat (String.length (join nl (archival_lines C summary context))) <= LETTA_ARCHIVAL_MAX_CHARS C ->
  _parse_letta_archival_content (_build_letta_archival_text C summary context) = mkPassage P F T summary.
Proof. apply archive_roundtrip. Qed.

Definition sample_context (file_name : string) : dict :=
  [("project", JStr "lattice"); ("file", JStr file_name); ("topic_path", JStr "ops/deploy"); ("content", JStr "long text"); ("kind", JStr "note")].

Lemma archived_record_reads_back_witness :
  _parse_letta_archival_content (_build_letta_archival_text default_letta_client "Deploy: done twice" (sample_context "notes/a.md"))
  = mkPassage "lattice" "notes/a.md" "ops/deploy" "Deploy: done twice".
Proof.
  apply (archived_record_reads_back default_letta_client "Deploy: done twice" (sample_context "notes/a.md")); try done; try by vm_compute.
  cbn. lia.
Defined.

(** A file name with a space is cut when it is read back from the archive. *)
Theorem archived_name_cut :
  ps_file (_parse_letta_archival_content (_build_letta_archival_text default_letta_client "Deploy" (sample_context "my notes.md"))) = "my".
Proof. by vm_compute. Qed.

(** A push to Letta that returns was accepted: its last request is the record
    for the agent of its session, answered without an error.  The agents
    remembered are agents Letta fetched or made, after a push that raises too. *)
Theorem letta_push_accepted C serve clock session_id summary context s : agents_ok serve s ->
  let run := push_to_letta C serve clock session_id summary context s in
  agents_ok serve (fst run) /\
  (snd run = Ok tt -> exists resp, status_code resp < 400 /\ posted C serve session_id summary context resp (fst run)).
Proof.
  intros Hs. cbv zeta. pose proof (push_spec C serve clock session_id summary context s Hs) as H.
  destruct (push_to_letta _ _ _ _ _ _ s) as [s' [u|e]]; cbn [fst snd]; [split; [apply H|intros _; apply H]|done].
Qed.

(** A Letta that makes the agent it is asked for; the first post fails. *)
Definition sample_letta (n : nat) (rq : letta_request) (h : list (string * string)) : result http_response :=
  match rq with
  | FindAgents _ => Ok (mkHttp 200 "[]")
  | CreateAgent _ => Ok (mkHttp 200 (dumps (JObj [("id", JStr "agent-7")])))
  | PostArchival _ _ => Ok (mkHttp (if (n <? 3)%nat then 503 else 200) "")
  | _ => Ok (mkHttp 200 "")
  end.
Definition no_agents : letta_client := mkLettaAgents [] [] [] 0 0.

Lemma letta_push_accepted_witness :
  let run := push_to_letta default_letta_client sample_letta (fun _ => 1000000000) "memmcp-default" "s" (sample_context "a.md") no_agents in
  map fst (letta_log (fst run)) = [FindAgents "memmcp-default"; CreateAgent (create_payload default_letta_client "memmcp-default");
    PostArchival "agent-7" (archival_payload default_letta_client "s" (sample_context "a.md")); FetchAgent "agent-7";
    PostArchival "agent-7" (archival_payload default_letta_client "s" (sample_context "a.md"))] /\
  agents_ok sample_letta (fst run) /\
  exists resp, status_code resp < 400 /\ posted default_letta_client sample_letta "memmcp-default" "s" (sample_context "a.md") resp (fst run).
Proof.
  split; [by vm_compute|].
  destruct (letta_push_accepted default_letta_client sample_letta (fun _ => 1000000000) "memmcp-default" "s" (sample_context "a.md") no_agents) as [H1 H2].
  - split; [done|by intros k a []].
  - split; [exact H1|]. apply H2. by vm_compute.
Defined.

(** An agent that Letta no longer has is never forgotten: once its check is
    out of date, every push of its session raises, however many are made, and no
    other agent is looked up or created. *)
Theorem lost_agent_blocks_session C serve clock records session_id a s : startswith session_id "agent-" = false -> truthy a = true ->
  (forall n h, exists resp, serve n (FetchAgent a) h = Ok resp /\ 400 <= status_code resp) -> lost C clock session_id a s ->
  snd (pushes C serve clock records session_id s) = map (fun _ => false) records.
Proof. apply lost_pushes. Qed.

Lemma lost_agent_blocks_session_witness :
  snd (pushes default_letta_client (fun _ rq _ => Ok (mkHttp (match rq with FetchAgent _ => 404 | _ => 200 end) "")) (fun n => 1000000000)
         [("a", []); ("b", [])] "memmcp-default" (mkLettaAgents [("memmcp-default", "agent-7")] [("memmcp-default", 0)] [] 0 0)) = [false; false].
Proof.
  apply (lost_agent_blocks_session default_letta_client _ (fun _ => 1000000000) [("a", []); ("b", [])] "memmcp-default" "agent-7"); [done|done| |by split].
  intros n h. eexists. split; [done|]. cbn. lia.
Defined.
