(* ===== verification/OutboxGc.v ===== *)
(** * The script that prunes the outbox

    [scripts/fanout_outbox_gc.py]: a second process that deletes old rows of the
    outbox of the service, in one transaction.  [sql] runs a statement on the
    working copy of the table or raises the fault the script of faults holds for
    it; [commit] makes the copy the table, [rollback] goes back to it.  The files
    are a predicate, the settings of the environment a function; a path is kept
    as its text. *)

From S2P Require Import Prelude PyStr PyTime Outbox OutboxMaint.
From Stdlib Require Import Ascii.
Open Scope Z_scope.

(** ** Arguments *)

Record gc_args := mkGcArgs {
  a_db_path : string; succeeded_retention_hours : Z; failed_retention_hours : Z; stale_pending_hours : Z; a_stale_targets : string;
  vacuum : bool; vacuum_min_deleted : Z; dry_run : bool }.

Definition default_gc_args : gc_args := mkGcArgs "" 24 168 24 "" false 500 false.

Definition _cutoff_iso (now hours : Z) : string := _utc_iso_from_unix (now - 3600 * us_per_sec * Z.max 0 hours).

Definition _parse_csv (raw : string) : list string := List.filter truthy (map strip (split ","%char raw)).

(** [Path(dir) / name] *)
Definition path_join (dir name : string) : string := rstrip_by (Ascii.eqb "/") dir +:+ "/" +:+ name.

Definition db_candidates (getenv : string -> string) (cli_value : string) : list string :=
  (if truthy cli_value then [cli_value] else [])
  ++ (if truthy (strip (getenv "TASK_DB_PATH")) then [strip (getenv "TASK_DB_PATH")] else [])
  ++ (if truthy (strip (getenv "ORCHESTRATOR_DATA_DIR")) then [path_join (strip (getenv "ORCHESTRATOR_DATA_DIR")) "agent_tasks.db"] else [])
  ++ ["/Volumes/wd_black/memmcp/orchestrator/agent_tasks.db"; "services/orchestrator/data/agent_tasks.db"].

Definition _resolve_db_path (getenv : string -> string) (exists_ : string -> bool) (cli_value : string) : string :=
  let candidates := db_candidates getenv cli_value in
  match List.find exists_ candidates with
  | Some path => path
  | None => match candidates with path :: _ => path | [] => "services/orchestrator/data/agent_tasks.db" end
  end.

(** ** The database *)

(** The table as committed and as this connection sees it; the faults of the
    statements to come, [None] for a statement that succeeds. *)
Record gc_db := mkGcDb { committed : sqlite_outbox; working : sqlite_outbox; faults : list (option exn) }.
Abbreviation M := (ST gc_db).

Definition sql {A} (f : sqlite_outbox -> sqlite_outbox * A) : M A := fun d =>
  match faults d with
  | Some e :: rest => (mkGcDb (committed d) (working d) rest, Raise e)
  | None :: rest => (mkGcDb (committed d) (fst (f (working d))) rest, Ok (snd (f (working d))))
  | [] => (mkGcDb (committed d) (fst (f (working d))) [], Ok (snd (f (working d))))
  end.

Definition commit : M unit := fun d =>
  match faults d with
  | Some e :: rest => (mkGcDb (committed d) (working d) rest, Raise e)
  | None :: rest => (mkGcDb (working d) (working d) rest, Ok tt)
  | [] => (mkGcDb (working d) (working d) [], Ok tt)
  end.
Definition rollback (d : gc_db) : gc_db := mkGcDb (committed d) (committed d) (faults d).

(** [SELECT COUNT] where [p] holds *)
Definition _count_rows (p : fanout_row Z -> bool) : M Z :=
  sql (fun st => (st, Z.of_nat (length (List.filter p (rows st))))).

(** [DELETE] where [p] holds, with [cur.rowcount] *)
Definition delete_matching (p : fanout_row Z -> bool) : M Z :=
  sql (fun st => let '(rs, n) := delete_where p (rows st) in (with_rows st rs, n)).

Definition statuses_by_name : list outbox_status := [Failed; Pending; Retrying; Running; Succeeded].

(** [GROUP BY status ORDER BY status]: no group is empty. *)
Definition status_groups (rs : list (fanout_row Z)) : list (string * Z) :=
  List.filter (fun kn => 0 <? snd kn)
    (map (fun s => (status_str s, Z.of_nat (length (List.filter (fun r => status_in (status r) [s]) rs)))) statuses_by_name).
Definition _status_counts : M (list (string * Z)) := sql (fun st => (st, status_groups (rows st))).

(** A statement without effect on the rows whose error is kept. *)
Definition checked : M string := st_try (sql (fun st => (st, ""))) (fun e => st_ret (exn_str e)).

(** ** The run *)

Record gc_summary := mkGcSummary {
  before_total : Z; after_total : Z; before_status : list (string * Z); after_status : list (string * Z);
  succeeded_deleted : Z; failed_deleted : Z; stale_deleted : Z; deleted_total : Z; stale_targets : list string;
  checkpoint_error : string; vacuum_ran : bool; vacuum_error : string }.

Section script.
Variable A : gc_args.
(** The readings of the clock for the three cutoffs. *)
Variable clock : nat -> Z.

Definition old_succeeded (r : fanout_row Z) : bool :=
  status_in (status r) [Succeeded] && str_ltb (finished_at r) (_cutoff_iso (clock 0%nat) (succeeded_retention_hours A)).
Definition old_failed (r : fanout_row Z) : bool :=
  status_in (status r) [Failed] && str_ltb (finished_at r) (_cutoff_iso (clock 1%nat) (failed_retention_hours A)).
Definition stale_pending (r : fanout_row Z) : bool :=
  mem_str (target r) (_parse_csv (a_stale_targets A)) && status_in (status r) [Pending; Retrying; Running]
  && str_ltb (attempted_at r) (_cutoff_iso (clock 2%nat) (stale_pending_hours A)).

(** Counted in a dry run, else deleted. *)
Definition prune (p : fanout_row Z -> bool) : M Z := if dry_run A then _count_rows p else delete_matching p.

(** After the rows: the end of the transaction, the checkpoint and the vacuum. *)
Definition finish_gc (total : Z) : M (string * bool * string) :=
  if dry_run A then st_modify rollback ;;; st_ret ("", false, "")
  else
    commit ;;;
    checkpoint <- checked ;;
    if vacuum A && (Z.max 0 (vacuum_min_deleted A) <=? total)
    then v <- checked ;; st_ret (checkpoint, v =s "", v)
    else st_ret (checkpoint, false, "").

Definition gc_body : M gc_summary :=
  before <- _count_rows (fun _ => true) ;;
  before_groups <- _status_counts ;;
  succeeded <- prune old_succeeded ;;
  failed <- prune old_failed ;;
  stale <- (match _parse_csv (a_stale_targets A) with [] => st_ret 0 | _ => prune stale_pending end) ;;
  let total := succeeded + failed + stale in
  ends <- finish_gc total ;;
  after <- _count_rows (fun _ => true) ;;
  after_groups <- _status_counts ;;
  let '(checkpoint, ran, v) := ends in
  st_ret (mkGcSummary before after before_groups after_groups succeeded failed stale total (_parse_csv (a_stale_targets A)) checkpoint ran v).

(** What is printed; every error of the body is a [DatabaseError]. *)
Inductive gc_output := DbMissing | TableMissing | GcDone (summary : gc_summary) | GcError (message : string).

(** [main()] with the exit code; [d] is [None] when the file does not exist,
    [Some None] when the table does not. *)
Definition gc_main (d : option (option gc_db)) : option gc_db * gc_output * Z :=
  match d with
  | None => (None, DbMissing, 0)
  | Some None => (None, TableMissing, 0)
  | Some (Some db) =>
      match gc_body db with
      | (db', Ok summary) => (Some db', GcDone summary, 0)
      | (db', Raise e) => (Some (rollback db'), GcError (exn_str e), 1)
      end
  end.
End script.

(** * Proofs about the script that prunes the outbox

    The script and the service's own collection delete the same rows; a dry run
    counts what a run would delete; and a run that is disturbed at any statement
    deletes everything it should or nothing. *)

From S2P Require Import Policy OutboxMaintFacts.
Open Scope Z_scope.

Lemma hoare_pure_r {S B} (P : S -> Prop) (F : Prop) (m : ST S B) Q X : (F -> hoare P m Q X) -> hoare (fun s => P s /\ F) m Q X.
Proof. intros H s [Hs Hf]. by apply H. Qed.

Section facts.
Variable A : gc_args.
Variable clock : nat -> Z.

(** The rows a run deletes. *)
Definition pruned_row (r : fanout_row Z) : bool := old_succeeded A clock r || old_failed A clock r || stale_pending A clock r.
Definition pruned (st : sqlite_outbox) : sqlite_outbox := with_rows st (List.filter (fun r => negb (pruned_row r)) (rows st)).
Abbreviation count p l := (Z.of_nat (length (List.filter p l))).

Definition at_rest (st : sqlite_outbox) (d : gc_db) : Prop := committed d = st.
Definition sees (st w : sqlite_outbox) (d : gc_db) : Prop := committed d = st /\ working d = w.

(** ** Statements *)

Lemma sql_sees {B} (f : sqlite_outbox -> sqlite_outbox * B) st w :
  hoare (sees st w) (sql f) (fun b d => sees st (fst (f w)) d /\ b = snd (f w)) (fun _ => at_rest st).
Proof. intros d [H1 H2]. unfold sql. destruct (faults d) as [|[e|] rest]; [by rewrite H2|done|by rewrite H2]. Qed.

Lemma count_sees p st w : hoare (sees st w) (_count_rows p) (fun n d => sees st w d /\ n = count p (rows w)) (fun _ => at_rest st).
Proof. apply sql_sees. Qed.

Lemma groups_sees st w : hoare (sees st w) _status_counts (fun g d => sees st w d /\ g = status_groups (rows w)) (fun _ => at_rest st).
Proof. apply sql_sees. Qed.

(** What the connection sees after [p] was pruned. *)
Definition kept_after (p : fanout_row Z -> bool) (w : sqlite_outbox) : sqlite_outbox :=
  if dry_run A then w else with_rows w (List.filter (fun r => negb (p r)) (rows w)).

Lemma prune_sees p st w : hoare (sees st w) (prune A p) (fun n d => sees st (kept_after p w) d /\ n = count p (rows w)) (fun _ => at_rest st).
Proof. unfold prune, kept_after. destruct (dry_run A); apply sql_sees. Qed.

Lemma checked_keeps st : hoare (sees st st) checked (fun _ => sees st st) (fun _ => at_rest st).
Proof. intros d [H1 H2]. unfold checked, st_try, sql. destruct (faults d) as [|[e|] rest]; by split. Qed.

Lemma commit_sees st w : hoare (sees st w) commit (fun _ => sees w w) (fun _ => at_rest st).
Proof. intros d [H1 H2]. unfold commit. destruct (faults d) as [|[e|] rest]; by rewrite ?H2. Qed.

(** The table a run leaves. *)
Definition table_left (st w : sqlite_outbox) : sqlite_outbox := if dry_run A then st else w.

Lemma finish_sees total st w :
  hoare (sees st w) (finish_gc A total) (fun _ => sees (table_left st w) (table_left st w)) (fun _ d => at_rest st d \/ at_rest (table_left st w) d).
Proof.
  unfold finish_gc, table_left. destruct (dry_run A).
  - intros d [H1 H2]. cbn. unfold sees, rollback. cbn. by rewrite H1.
  - eapply hoare_bind; [eapply hoare_conseq; [apply commit_sees|done|done|by left]|]. intros [].
    eapply hoare_bind; [eapply hoare_conseq; [apply checked_keeps|done|done|by right]|]. intros c. destruct (_ && _); [|by apply hoare_ret].
    eapply hoare_bind; [eapply hoare_conseq; [apply checked_keeps|done|done|by right]|]. intros v. by apply hoare_ret.
Qed.

(** ** The whole run *)

Lemma filter_after {X} (p q : X -> bool) l : (forall x, p x = true -> q x = false) -> List.filter p (List.filter (fun x => negb (q x)) l) = List.filter p l.
Proof.
  intros H. rewrite filter_filter. apply filter_ext_In. intros x _. specialize (H x). destruct (p x), (q x); try done. by discriminate H.
Qed.

Lemma status_in_excl s l l' : status_in s l = true -> (forall x, x ∈ l -> x ∈ l' -> False) -> status_in s l' = false.
Proof. unfold status_in. rewrite bool_decide_eq_true, bool_decide_eq_false. naive_solver. Qed.

Lemma failed_not_succeeded r : old_failed A clock r = true -> old_succeeded A clock r = false.
Proof.
  unfold old_failed, old_succeeded. intros H. blift. erewrite status_in_excl; [done|exact H|]. intros x. set_solver.
Qed.
Lemma stale_not_old r : stale_pending A clock r = true -> old_succeeded A clock r = false /\ old_failed A clock r = false.
Proof.
  unfold old_failed, old_succeeded, stale_pending. intros H. blift.
  split; erewrite status_in_excl; try done; try exact H1; intros x; set_solver.
Qed.

Lemma no_targets_no_stale r : _parse_csv (a_stale_targets A) = [] -> stale_pending A clock r = false.
Proof. intros E. unfold stale_pending. by rewrite E. Qed.

(** The statements for the stale rows: none without targets. *)
Definition prune_stale : ST gc_db Z := match _parse_csv (a_stale_targets A) with [] => st_ret 0 | _ => prune A (stale_pending A clock) end.

Lemma prune_stale_sees st w : hoare (sees st w) prune_stale
  (fun n d => sees st (kept_after (stale_pending A clock) w) d /\ n = count (stale_pending A clock) (rows w)) (fun _ => at_rest st).
Proof.
  unfold prune_stale. destruct (_parse_csv _) eqn:E; [|apply prune_sees]. apply hoare_ret. intros d [H1 H2].
  assert (forall l : list (fanout_row Z), List.filter (stale_pending A clock) l = []) as Hn.
  { intros l. induction l as [|r l IH]; [done|]. cbn. by rewrite no_targets_no_stale. }
  rewrite Hn. split; [|done]. split; [done|]. unfold kept_after. destruct (dry_run A); [done|]. rewrite H2. rewrite filter_all; [by destruct w|].
  intros r _. by rewrite no_targets_no_stale.
Qed.

Lemma kept_after_rows p w : rows (kept_after p w) = if dry_run A then rows w else List.filter (fun r => negb (p r)) (rows w).
Proof. unfold kept_after. by destruct (dry_run A). Qed.

Lemma kept_thrice st : table_left st (kept_after (stale_pending A clock) (kept_after (old_failed A clock) (kept_after (old_succeeded A clock) st)))
  = table_left st (pruned st).
Proof.
  unfold table_left, pruned, kept_after. destruct (dry_run A); [done|]. unfold with_rows. cbn. rewrite !filter_filter. f_equal.
  apply filter_ext_In. intros r _. unfold pruned_row. by destruct (old_succeeded A clock r), (old_failed A clock r), (stale_pending A clock r).
Qed.

Lemma count_failed st : count (old_failed A clock) (rows (kept_after (old_succeeded A clock) st)) = count (old_failed A clock) (rows st).
Proof. rewrite kept_after_rows. destruct (dry_run A); [done|]. by rewrite filter_after by apply failed_not_succeeded. Qed.
Lemma count_stale st : count (stale_pending A clock) (rows (kept_after (old_failed A clock) (kept_after (old_succeeded A clock) st))) = count (stale_pending A clock) (rows st).
Proof.
  rewrite !kept_after_rows. destruct (dry_run A); [done|]. rewrite !filter_after; [done|intros r Hr; by apply stale_not_old..].
Qed.

(** What a run that ends well tells of the table it found. *)
Definition tells (st : sqlite_outbox) (s : gc_summary) : Prop :=
  succeeded_deleted s = count (old_succeeded A clock) (rows st) /\ failed_deleted s = count (old_failed A clock) (rows st) /\
  stale_deleted s = count (stale_pending A clock) (rows st) /\ deleted_total s = succeeded_deleted s + failed_deleted s + stale_deleted s /\
  before_total s = Z.of_nat (length (rows st)) /\ after_total s = Z.of_nat (length (rows (table_left st (pruned st)))) /\
  before_status s = status_groups (rows st) /\ after_status s = status_groups (rows (table_left st (pruned st))).

Lemma filter_true {X} (l : list X) : List.filter (fun _ => true) l = l.
Proof. apply filter_all. done. Qed.

Lemma gc_body_spec st : hoare (sees st st) (gc_body A clock)
  (fun s d => at_rest (table_left st (pruned st)) d /\ tells st s) (fun _ d => at_rest st d \/ at_rest (table_left st (pruned st)) d).
Proof.
  assert (forall (B : Type) (m : ST gc_db B) P Q, hoare P m Q (fun _ => at_rest st) ->
    hoare P m Q (fun _ d => at_rest st d \/ at_rest (table_left st (pruned st)) d)) as early.
  { intros B m P Q H. eapply hoare_conseq; [exact H|done|done|by left]. }
  assert (forall (B : Type) (m : ST gc_db B) P Q, hoare P m Q (fun _ => at_rest (table_left st (pruned st))) ->
    hoare P m Q (fun _ d => at_rest st d \/ at_rest (table_left st (pruned st)) d)) as late.
  { intros B m P Q H. eapply hoare_conseq; [exact H|done|done|by right]. }
  unfold gc_body. fold prune_stale.
  eapply hoare_bind; [apply early, count_sees|]. intros before. apply hoare_pure_r. intros Hb.
  eapply hoare_bind; [apply early, groups_sees|]. intros groups. apply hoare_pure_r. intros Hg.
  eapply hoare_bind; [apply early, prune_sees|]. intros n1. apply hoare_pure_r. intros H1.
  eapply hoare_bind; [apply early, prune_sees|]. intros n2. apply hoare_pure_r. intros H2.
  eapply hoare_bind; [apply early, prune_stale_sees|]. intros n3. apply hoare_pure_r. intros H3.
  eapply hoare_bind; [eapply hoare_conseq; [apply finish_sees|done|done|]; rewrite kept_thrice; by intros|]. rewrite kept_thrice.
  intros [[c ran] v].
  eapply hoare_bind; [apply late, count_sees|]. intros after. apply hoare_pure_r. intros Ha.
  eapply hoare_bind; [apply late, groups_sees|]. intros groups'. apply hoare_pure_r. intros Hg'.
  apply hoare_ret. intros d [Hc _]. split; [exact Hc|]. rewrite filter_true in Hb, Ha. rewrite count_failed in H2. rewrite count_stale in H3.
  by repeat split.
Qed.
End facts.

(** ** The promises *)

(** C24: the script deletes all it should in one go, or nothing, whatever statement
    fails: a run that ends well leaves the table without the rows to prune, or as
    it was in a dry run, and its counts are those rows; a run that ends with an
    error leaves the table as it was, or as it should be when only the counting
    after the commit failed. *)
Theorem gc_script_all_or_nothing A clock st script :
  match gc_main A clock (Some (Some (mkGcDb st st script))) with
  | (Some d, GcDone s, code) => code = 0 /\ committed d = table_left A st (pruned A clock st) /\ tells A clock st s
  | (Some d, GcError _, code) => code = 1 /\ working d = committed d /\ (committed d = st \/ committed d = table_left A st (pruned A clock st))
  | _ => False
  end.
Proof.
  unfold gc_main. pose proof (gc_body_spec A clock st (mkGcDb st st script) (conj eq_refl eq_refl)) as H.
  destruct (gc_body A clock _) as [d [s|e]]; [by destruct H as [H1 H2]|]. split; [done|]. split; [done|]. exact H.
Qed.

(** The settings of a service whose environment holds the values of the arguments:
    it reads the stale targets with its own parser, in lower case and without
    unknown names. *)
Definition service_config (A : gc_args) : gc_config :=
  mkGcConfig (succeeded_retention_hours A) (failed_retention_hours A) (stale_pending_hours A)
    (_normalize_fanout_target_csv (Some (a_stale_targets A))) (vacuum A) (vacuum_min_deleted A) (3600 * us_per_sec).

(** The same with the targets as the script reads them. *)
Definition script_config (A : gc_args) : gc_config :=
  mkGcConfig (succeeded_retention_hours A) (failed_retention_hours A) (stale_pending_hours A)
    (_parse_csv (a_stale_targets A)) (vacuum A) (vacuum_min_deleted A) (3600 * us_per_sec).

(** Both read the same targets when these are written as the service writes them. *)
Definition known_targets (raw : string) : Prop := List.Forall (fun t => In t FANOUT_TARGETS) (_parse_csv raw).

Lemma lower_csv raw : _normalize_lower_csv (Some raw) = map lower (_parse_csv raw).
Proof.
  unfold _normalize_lower_csv, _parse_csv, opt_str. induction (split "," raw) as [|x l IH]; [done|]. cbn [map List.filter].
  destruct (truthy (strip x)); cbn [map]; by rewrite IH.
Qed.

Lemma known_lower l : List.Forall (fun t => In t FANOUT_TARGETS) l -> map lower l = l.
Proof.
  induction 1 as [|t l Ht _ IH]; [done|]. cbn [map]. rewrite IH. f_equal.
  destruct Ht as [<-|[<-|[<-|[<-|[<-|[]]]]]]; reflexivity.
Qed.

Lemma same_targets raw t : known_targets raw -> mem_str t (_normalize_fanout_target_csv (Some raw)) = mem_str t (_parse_csv raw).
Proof.
  intros Hk. apply eq_true_iff_eq. unfold _normalize_fanout_target_csv. rewrite !mem_str_In, keep_new_In, lower_csv, known_lower by done.
  unfold known_targets in Hk. rewrite List.Forall_forall in Hk. rewrite mem_str_In. split; [tauto|]. intros H. split; [done|]. split; [by apply Hk|]. by intros [].
Qed.

Lemma no_stale G now (rs : list (fanout_row Z)) : FANOUT_OUTBOX_STALE_TARGETS G = [] -> delete_where (sqlite_stale G now) rs = (rs, 0).
Proof.
  intros Hn. unfold delete_where. rewrite filter_all, filter_none; [done| |]; intros r _; unfold sqlite_stale; by rewrite Hn.
Qed.

Lemma delete_where_ext {T} (p q : T -> bool) l : (forall x, p x = q x) -> delete_where p l = delete_where q l.
Proof. intros H. unfold delete_where. by rewrite (List.filter_ext _ _ H), (List.filter_ext _ (fun x => negb (q x))) by (intros x; by rewrite H). Qed.

Lemma service_reads_script A now run vac st : known_targets (a_stale_targets A) ->
  _fanout_outbox_gc_sqlite (service_config A) now run vac st = _fanout_outbox_gc_sqlite (script_config A) now run vac st.
Proof.
  intros Hk. assert (forall G (rs : list (fanout_row Z)), match FANOUT_OUTBOX_STALE_TARGETS G with [] => (rs, 0) | _ => delete_where (sqlite_stale G now) rs end
                                  = delete_where (sqlite_stale G now) rs) as Hd.
  { intros G rs. destruct (FANOUT_OUTBOX_STALE_TARGETS G) eqn:E; [by rewrite no_stale|done]. }
  unfold _fanout_outbox_gc_sqlite. destruct (delete_where (sqlite_old_succeeded (service_config A) now) (rows st)) as [rs1 n1] eqn:E1.
  change (delete_where (sqlite_old_succeeded (script_config A) now) (rows st)) with (delete_where (sqlite_old_succeeded (service_config A) now) (rows st)).
  rewrite E1. change (delete_where (sqlite_old_failed (script_config A) now) rs1) with (delete_where (sqlite_old_failed (service_config A) now) rs1).
  destruct (delete_where (sqlite_old_failed (service_config A) now) rs1) as [rs2 n2]. rewrite !Hd.
  rewrite (delete_where_ext (sqlite_stale (service_config A) now) (sqlite_stale (script_config A) now)); [done|].
  intros r. unfold sqlite_stale. cbn [FANOUT_OUTBOX_STALE_TARGETS service_config script_config]. by rewrite same_targets.
Qed.

Lemma gc_body_calm A clock st : is_ok (snd (gc_body A clock (mkGcDb st st []))) = true.
Proof.
  unfold gc_body, prune, finish_gc, checked, _count_rows, _status_counts, delete_matching, delete_where, commit, sql, st_bind, st_try, st_modify, st_ret.
  destruct (dry_run A); cbn; destruct (_parse_csv _); cbn; try done; by destruct (_ && _).
Qed.

Lemma service_counts G now run vac st st' rep : _fanout_outbox_gc_sqlite G now run vac st = Ok (st', rep) ->
  gc_succeeded rep = Z.of_nat (length (List.filter (sqlite_old_succeeded G now) (rows st))) /\
  gc_failed rep = Z.of_nat (length (List.filter (sqlite_old_failed G now) (List.filter (fun r => negb (sqlite_old_succeeded G now r)) (rows st)))) /\
  (FANOUT_OUTBOX_STALE_TARGETS G <> [] ->
   gc_stale rep = Z.of_nat (length (List.filter (sqlite_stale G now) (List.filter (fun r => negb (sqlite_old_failed G now r))
                    (List.filter (fun r => negb (sqlite_old_succeeded G now r)) (rows st)))))) /\
  (FANOUT_OUTBOX_STALE_TARGETS G = [] -> gc_stale rep = 0).
Proof.
  unfold _fanout_outbox_gc_sqlite, delete_where. destruct (FANOUT_OUTBOX_STALE_TARGETS G); intros [= <- <-]; by repeat split.
Qed.

(** C23: the script and the service's own collection are the same: with the
    same settings, the same reading of the clock, the same table, no failing
    statement, and stale targets written in lower case with the names of fan-out
    targets, the script leaves the table the service would leave and counts what
    the service counts; a dry run counts the same and leaves the table as it was. *)
Theorem gc_script_matches_service A now run vac st : known_targets (a_stale_targets A) ->
  exists d s st' rep, gc_main A (fun _ => now) (Some (Some (mkGcDb st st []))) = (Some d, GcDone s, 0) /\
    _fanout_outbox_gc_sqlite (service_config A) now run vac st = Ok (st', rep) /\
    committed d = (if dry_run A then st else st') /\
    succeeded_deleted s = gc_succeeded rep /\ failed_deleted s = gc_failed rep /\ stale_deleted s = gc_stale rep /\ deleted_total s = gc_deleted_total rep.
Proof.
  intros Hk. rewrite (service_reads_script A now run vac st Hk). destruct (gc_sqlite_spec (script_config A) now run vac st) as (rep & E & _ & _ & Ht & _).
  destruct (service_counts _ _ _ _ _ _ _ E) as (C1 & C2 & C3 & C4). cbn [FANOUT_OUTBOX_STALE_TARGETS script_config] in C3, C4.
  pose proof (gc_body_calm A (fun _ => now) st) as Hok.
  pose proof (gc_body_spec A (fun _ => now) st (mkGcDb st st []) (conj eq_refl eq_refl)) as H. unfold gc_main.
  destruct (gc_body A (fun _ => now) _) as [d [s|e]]; [|done]. destruct H as [Hc (T1 & T2 & T3 & T4 & _)].
  eexists d, s, _, rep. split; [done|]. split; [exact E|].
  assert (stale_deleted s = gc_stale rep) as H3.
  { rewrite T3. destruct (_parse_csv (a_stale_targets A)) eqn:Ep.
    - rewrite C4 by done. rewrite filter_none; [done|]. intros r _. by apply no_targets_no_stale.
    - rewrite C3 by done. rewrite !filter_after; [done|intros r Hr; first [exact (proj1 (stale_not_old A (fun _ => now) r Hr)) | exact (proj2 (stale_not_old A (fun _ => now) r Hr))]..]. }
  assert (failed_deleted s = gc_failed rep) as H2.
  { rewrite T2, C2. rewrite filter_after; [done|]. intros r Hr. exact (failed_not_succeeded A (fun _ => now) r Hr). }
  assert (succeeded_deleted s = gc_succeeded rep) as H1 by (by rewrite T1, C1).
  split; [by rewrite Hc|]. split; [done|]. split; [done|]. split; [done|]. rewrite T4, H1, H2, H3. lia.
Qed.

(** A table with an old failed row, an old finished row and a stale one. *)
Definition sample_outbox_row (id : Z) (target_name : string) (s : outbox_status) : fanout_row Z :=
  mkRow id "e" target_name "p" "f" "" (Json.JObj []) "" (Json.JList []) s 1 40 "2024-01-01T00:00:00Z" None None None "2024-01-01T00:00:00Z" "2024-01-01T00:00:00Z" (str_of_Z id).
Definition sample_table : sqlite_outbox :=
  mkOutbox [sample_outbox_row 1 "qdrant" Failed; sample_outbox_row 2 "letta" Pending; sample_outbox_row 3 "letta" Succeeded; sample_outbox_row 4 "mindsdb" Pending] 5.
Definition sample_args (raw : string) : gc_args := mkGcArgs "" 24 168 24 raw true 1 false.

(** The names of targets are taken as they are written, while the service
    reads them in lower case: with the same setting the script keeps the stale
    rows the service deletes. *)
Theorem gc_targets_case_differs :
  let now := 1709210096000042 in
  let service := service_config (sample_args "Letta") in
  (match gc_main (sample_args "Letta") (fun _ => now) (Some (Some (mkGcDb sample_table sample_table []))) with
   | (Some d, _, _) => map oid (rows (committed d)) | _ => [] end) = [2; 4] /\
  (match _fanout_outbox_gc_sqlite service now true None sample_table with Ok (st, _) => map oid (rows st) | _ => [] end) = [4].
Proof. by vm_compute. Qed.

Lemma gc_script_matches_service_witness :
  exists d s st' rep, gc_main (sample_args "letta, mindsdb") (fun _ => 1709210096000042) (Some (Some (mkGcDb sample_table sample_table []))) = (Some d, GcDone s, 0) /\
    _fanout_outbox_gc_sqlite (service_config (sample_args "letta, mindsdb")) 1709210096000042 true None sample_table = Ok (st', rep) /\
    committed d = st' /\ rows st' = [] /\ stale_deleted s = 2.
Proof.
  destruct (gc_script_matches_service (sample_args "letta, mindsdb") 1709210096000042 true None sample_table) as (d & s & st' & rep & H1 & H2 & H3 & _ & _ & H4 & _).
  - unfold known_targets. vm_compute. repeat constructor; tauto.
  - exists d, s, st', rep. split; [exact H1|]. split; [exact H2|]. split; [exact H3|]. rewrite H4. vm_compute in H2. injection H2 as <- <-. split; reflexivity.
Defined.
