(* ===== verification/TaskApi.v ===== *)
(** * The endpoints of the task queue

    The routes under [/agents/tasks] in the order they are registered, the
    endpoint behind each, and the answer to a request.  A scheduler of the
    migration runtime, code that is not part of the repository, takes the place of
    the queue's own operations when it is configured ([scheduler]).  A body has
    been read into the fields of its model. *)

From S2P Require Import Prelude PyStr PyTime Policy Json TaskDb Tasks Messaging TaskExec.
From Stdlib Require Import Ascii.
Open Scope Z_scope.

(** ** Routes *)

Inductive segment := Lit (s : string) | Param (name : string).
Record route := mkRoute { r_method : string; r_path : list segment; r_endpoint : string }.

(** [/a/b] as its segments *)
Definition segments (path : string) : list string := split "/"%char path.

(** A parameter takes a whole segment that is not empty. *)
Fixpoint match_path (pattern : list segment) (path : list string) : option (list (string * string)) :=
  match pattern, path with
  | [], [] => Some []
  | Lit a :: pattern', b :: path' => if a =s b then match_path pattern' path' else None
  | Param n :: pattern', b :: path' =>
      if truthy b then option_map (cons (n, b)) (match_path pattern' path') else None
  | _, _ => None
  end.

(** The first route that matches. *)
Fixpoint route_request (routes : list route) (method path : string) : option (string * list (string * string)) :=
  match routes with
  | [] => None
  | r :: routes' =>
      if r_method r =s method then
        match match_path (r_path r) (segments path) with
        | Some params => Some (r_endpoint r, params)
        | None => route_request routes' method path
        end
      else route_request routes' method path
  end.

Definition at_tasks (rest : list segment) : list segment := [Lit ""; Lit "agents"; Lit "tasks"] ++ rest.

Definition task_routes : list route :=
  [mkRoute "POST" (at_tasks []) "create_agent_task";
   mkRoute "GET" (at_tasks []) "list_agent_tasks";
   mkRoute "POST" (at_tasks [Lit "next"]) "claim_agent_task";
   mkRoute "GET" (at_tasks [Param "task_id"]) "get_agent_task";
   mkRoute "POST" (at_tasks [Param "task_id"; Lit "status"]) "update_agent_task_status";
   mkRoute "POST" (at_tasks [Param "task_id"; Lit "approve"]) "approve_agent_task";
   mkRoute "POST" (at_tasks [Param "task_id"; Lit "replay"]) "replay_agent_task";
   mkRoute "POST" (at_tasks [Lit "recover-leases"]) "recover_agent_task_leases";
   mkRoute "GET" (at_tasks [Lit "deadletter"]) "list_deadletter_tasks";
   mkRoute "GET" (at_tasks [Lit "runtime"]) "agent_task_runtime"].

(** ** Bodies *)

Record AgentTaskCreate := mkTaskCreate {
  c_title : string; c_project : option string; c_agent : option string; c_priority : Z; c_payload : option dict; c_risk_level : option string;
  c_action_type : option string; c_approval_required : option bool; c_approved : option bool; c_topic_path : option string;
  c_run_after : option string; c_max_attempts : option Z }.
Record AgentTaskStatus := mkTaskStatus { u_status : string; u_message : option string; u_metadata : option dict }.

Definition set_text (k : string) (v : option string) (d : dict) : dict := if truthy (opt_str v) then dset k (JStr (opt_str v)) d else d.
Definition set_bool (k : string) (v : option bool) (d : dict) : dict := match v with Some b => dset k (JBool b) d | None => d end.

Definition task_payload (p : AgentTaskCreate) : dict :=
  let d := match c_payload p with Some d => d | None => [] end in
  let d := set_text "risk_level" (c_risk_level p) d in
  let d := set_text "action_type" (c_action_type p) d in
  let d := set_bool "approval_required" (c_approval_required p) d in
  let d := set_bool "approved" (c_approved p) d in
  set_text "topic_path" (c_topic_path p) d.

(** ** Endpoints *)

Section api.
Context {W : Type} `{OuterServices W}.
Variable C : task_config.
Variable X : exec_config.
Abbreviation M := (ST (runtime_state W)).

(** The scheduler of the migration runtime. *)
Record scheduler := mkScheduler {
  submit_task : string -> option string -> option string -> Z -> option json -> option string -> option Z -> M task;
  claim_next : option string -> M (option task);
  scheduler_update : string -> string -> option string -> option dict -> M (option task);
  scheduler_retry : string -> string -> string -> M (option task);
  queue_metrics : M dict }.
Variable runtime : option scheduler.

(** [create_task_record]: the payload is checked before the transaction. *)
Definition create_record (title : string) (project agent : option string) (priority : Z) (payload : option json) (run_after : option string)
    (max_attempts : option Z) : M task :=
  n <- now ;;
  st_lift (new_task C n "" title project agent priority payload run_after max_attempts) ;;;
  id <- in_world (fun w => let '(w', id) := new_id w in (w', Ok id)) ;;
  transaction X (create_task_record C n id title project agent priority payload run_after max_attempts).

Definition claim_for (worker : option string) : M (option task) :=
  n <- now ;; in_db (claim_next_task C (TASK_DB_LOCK_RETRIES X) n worker).

Definition _scheduler_submit_via_runtime (title : string) (project agent : option string) (priority : Z) (payload : option json)
    (run_after : option string) (max_attempts : option Z) : M task :=
  match runtime with
  | None => create_record title project agent priority payload run_after max_attempts
  | Some r => submit_task r title project agent priority payload run_after max_attempts
  end.
Definition _scheduler_claim_via_runtime (worker : option string) : M (option task) :=
  match runtime with None => claim_for worker | Some r => claim_next r worker end.
Definition _scheduler_update_via_runtime (task_id status : string) (message : option string) (metadata : option dict) : M (option task) :=
  match runtime with None => update_status X task_id status message metadata | Some r => scheduler_update r task_id status message metadata end.
Definition _scheduler_retry_via_runtime (task_id error worker : string) : M (option task) :=
  match runtime with None => retry_later C X task_id error worker | Some r => scheduler_retry r task_id error worker end.

Definition task_or_404 (t : option task) : M json :=
  match t with Some t => st_ret (task_result t) | None => http_error 404 "task not found" end.

Definition create_agent_task (p : AgentTaskCreate) : M json :=
  t <- _scheduler_submit_via_runtime (c_title p) (c_project p) (c_agent p) (c_priority p)
         (match task_payload p with [] => None | d => Some (JObj d) end) (c_run_after p) (c_max_attempts p) ;;
  st_ret (task_result t).

Definition list_agent_tasks (status project agent : option string) (limit : Z) : M json :=
  l <- query X (list_task_records status project agent limit) ;; st_ret (tasks_result l).

Definition claim_agent_task (worker : option string) : M json :=
  t <- _scheduler_claim_via_runtime worker ;;
  st_ret (match t with Some t => task_result t | None => JObj [("task", JNull)] end).

Definition get_agent_task (task_id : string) : M json :=
  t <- query X (get_task_record task_id) ;;
  match t with
  | None => http_error 404 "task not found"
  | Some t => events <- query X (event_rows task_id) ;;
              st_ret (JObj [("task", JObj (_task_row_to_dict t)); ("events", JList (map JObj events))])
  end.

Definition update_agent_task_status (task_id : string) (p : AgentTaskStatus) : M json :=
  t <- _scheduler_update_via_runtime task_id (u_status p) (u_message p) (u_metadata p) ;; task_or_404 t.

Definition approve_agent_task (task_id : string) (approver note : option string) : M json :=
  n <- now ;; t <- transaction X (approve_task_record n task_id approver note) ;; task_or_404 t.

Definition replay_agent_task (task_id : string) (actor note : option string) (reset_attempts : bool) : M json :=
  n <- now ;; t <- transaction X (replay_task_record n task_id actor note reset_attempts) ;; task_or_404 t.

Definition recover_agent_task_leases (limit : Z) : M json :=
  n <- now ;;
  recovered <- in_db (recover_expired_task_leases (TASK_DB_LOCK_RETRIES X) n (Z.max 1 (Z.min limit 1000))) ;;
  st_ret (JObj [("ok", JBool true); ("recovered", JInt recovered)]).

Definition list_deadletter_tasks (project : option string) (limit : Z) : M json :=
  l <- query X (list_deadletter_task_records project limit) ;; st_ret (tasks_result l).

Definition agent_task_runtime : M json :=
  d <- match runtime with None => runtime_snapshot X | Some r => queue_metrics r end ;; st_ret (JObj [("runtime", JObj d)]).

(** ** Answers *)

Record api_response := mkApi { api_status : Z; api_json : option json }.

(** [HTTPException] is answered with its code, another exception with 500. *)
Definition answer (m : M json) : M api_response := fun s =>
  match m s with
  | (s', Ok j) => (s', Ok (mkApi 200 (Some j)))
  | (s', Raise (HTTPException code d)) => (s', Ok (mkApi code (Some (JObj [("detail", JStr d)]))))
  | (s', Raise _) => (s', Ok (mkApi 500 None))
  end.

Definition opt_field (d : dict) (k : string) : option string := match dget d k with JStr s => Some s | _ => None end.
Definition dict_field (d : dict) (k : string) : option dict := match dget d k with JObj m => Some m | _ => None end.

(** The requests of a worker: a task to run and a status to report. *)
Definition answer_worker (path : string) (body : dict) (params : list (string * string)) : option (M api_response) :=
  match route_request task_routes "POST" path with
  | Some ("claim_agent_task", _) => Some (answer (claim_agent_task (assoc "worker" params)))
  | Some ("update_agent_task_status", ps) =>
      match opt_field body "status" with
      | Some status =>
          Some (answer (update_agent_task_status (opt_str (assoc "task_id" ps))
                          (mkTaskStatus status (opt_field body "message") (dict_field body "metadata"))))
      | None => None
      end
  | _ => None
  end.
End api.
