(* ===== verification/TaskWorker.v ===== *)
(** * The script that works on tasks

    [scripts/task_agent_worker.py]: a process that asks the service for a task,
    runs a command or a model on it and reports the status.  The service and the
    model server answer by [world_post], the shell by [world_run], on a world [W]
    of their own; the log notes what was posted, asked and run. *)

From S2P Require Import Prelude PyStr Json JsonText SourcePolicy TaskApi.
From Stdlib Require Import Ascii.
Open Scope Z_scope.

(** [json.dumps(j, indent=2)]: [n] spaces are before the brackets. *)
Fixpoint indent_of (n : nat) : string := match n with O => "" | S n' => String " " (indent_of n') end.
Fixpoint dumps_indent (n : nat) (j : json) : string :=
  match j with
  | JList [] => "[]"
  | JObj [] => "{}"
  | JList l => "[" +:+ nl +:+ join ("," +:+ nl) (map (fun x => indent_of (n + 2) +:+ dumps_indent (n + 2) x) l) +:+ nl +:+ indent_of n +:+ "]"
  | JObj d => "{" +:+ nl +:+ join ("," +:+ nl) (map (fun kv => indent_of (n + 2) +:+ quote_json (fst kv) +:+ ": " +:+ dumps_indent (n + 2) (snd kv)) d)
              +:+ nl +:+ indent_of n +:+ "}"
  | v => dumps v
  end.

Definition _base_url_for_provider (provider : string) (override : string) : string :=
  if truthy override then rstrip_by (Ascii.eqb "/") override
  else
    let provider := lower provider in
    if provider =s "ollama" then "http://127.0.0.1:11434"
    else if provider =s "lmstudio" then "http://127.0.0.1:1234"
    else if mem_str provider ["openai-compatible"; "vllm"] then "http://127.0.0.1:8000"
    else if provider =s "llama-cpp" then "http://127.0.0.1:8080"
    else "http://127.0.0.1:8000".

(** The command of an agent, empty when there is none; [getenv] gives the empty
    text for a variable that is not set. *)
Definition _runner_cmd_for_agent (getenv : string -> string) (agent : string) : string :=
  let agent := lower agent in
  if truthy (getenv "TASK_AGENT_CMD") then getenv "TASK_AGENT_CMD"
  else if agent =s "trae" then getenv "TRAE_CMD"
  else if agent =s "letta" then getenv "LETTA_CMD"
  else if agent =s "autogen" then getenv "AUTOGEN_CMD"
  else if agent =s "crewai" then getenv "CREWAI_CMD"
  else if agent =s "langgraph" then getenv "LANGGRAPH_CMD"
  else if agent =s "openhands" then getenv "OPENHANDS_CMD"
  else "".

Record worker_args := mkWorkerArgs {
  wa_agent : string; wa_url : string; wa_provider : string; wa_model : string; wa_base_url : string; wa_api_key : string; wa_once : bool; wa_worker : string }.
Definition default_worker_args : worker_args :=
  mkWorkerArgs "trae" "http://127.0.0.1:8075" "ollama" "qwen2.5-coder:7b" (_base_url_for_provider "ollama" "") "" false "local-worker".

Inductive worker_event :=
| Posted (path : string) (body : json) (accepted : bool)
| AskedModel (url : string) (body : json)
| RanCommand (cmd : string) (env : list (string * string)).

Record worker_state (W : Type) := mkWorker { w_world : W; w_log : list worker_event }.
Arguments mkWorker {W}. Arguments w_world {W}. Arguments w_log {W}.

Section worker.
Context {W : Type}.
(** A request to the service by its path, and one to a model server. *)
Variable world_post : string -> json -> list (string * string) -> ST W api_response.
Variable world_model : string -> json -> list (string * string) -> ST W api_response.
Variable world_run : string -> list (string * string) -> ST W Z.
Variable getenv : string -> string.
Variable A : worker_args.
Abbreviation M := (ST (worker_state W)).

Definition note (m : ST W api_response) (mark : bool -> worker_event) : M api_response := fun s =>
  match m (w_world s) with
  | (w, Ok r) => (mkWorker w (w_log s ++ [mark ((200 <=? api_status r) && (api_status r <? 300))]), Ok r)
  | (w, Raise x) => (mkWorker w (w_log s ++ [mark false]), Raise x)
  end.

(** [resp.raise_for_status(); resp.json()] *)
Definition read_response (r : api_response) : M json :=
  if negb ((200 <=? api_status r) && (api_status r <? 300)) then st_raise (OtherError "HTTPStatusError" ("status " +:+ str_of_Z (api_status r)))
  else match api_json r with Some j => st_ret j | None => st_raise (OtherError "JSONDecodeError" "Expecting value") end.

Definition _post (path : string) (payload : json) (params : list (string * string)) : M json :=
  r <- note (world_post path payload params) (Posted path payload) ;; read_response r.

Definition ask_model (url : string) (payload : json) (headers : list (string * string)) : M json :=
  r <- note (world_model url payload headers) (fun _ => AskedModel url payload) ;; read_response r.

(** [j[k]] and [j.get(k)] *)
Definition item_of (j : json) (k : string) : M json :=
  match j with
  | JObj d => match dlookup k d with Some v => st_ret v | None => st_raise (KeyError k) end
  | _ => st_raise (OtherError "TypeError" "indices must be integers")
  end.
Definition get_of (j : json) (k : string) : M json :=
  match j with JObj d => st_ret (dget d k) | _ => st_raise (OtherError "AttributeError" "no attribute 'get'") end.
Definition head_of (j : json) : M json :=
  match j with
  | JList (x :: _) => st_ret x
  | JList [] => st_raise (OtherError "IndexError" "list index out of range")
  | _ => st_raise (OtherError "TypeError" "not subscriptable")
  end.

Definition _call_openai_compatible (base_url model : string) (messages : json) (api_key : string) : M json :=
  data <- ask_model (base_url +:+ "/v1/chat/completions")
            (JObj [("model", JStr model); ("messages", messages); ("temperature", JFloat "0.2"); ("stream", JBool false)])
            (("content-type", "application/json") :: (if truthy api_key then [("authorization", "Bearer " +:+ api_key)] else [])) ;;
  choices <- item_of data "choices" ;; first <- head_of choices ;; message <- item_of first "message" ;; item_of message "content".

Definition _call_ollama (base_url model : string) (messages : json) : M json :=
  data <- ask_model (base_url +:+ "/api/chat") (JObj [("model", JStr model); ("messages", messages); ("stream", JBool false)]) [] ;;
  message <- get_of data "message" ;;
  match jor message (JObj []) with
  | JObj d => st_ret (match dlookup "content" d with Some v => v | None => JStr "" end)
  | _ => st_raise (OtherError "AttributeError" "no attribute 'get'")
  end.

Definition _run_llm_task (provider model base_url api_key : string) (task : dict) : M json :=
  let prompt := jstr (match dlookup "title" task with Some t => t | None => JStr "Task" end) in
  let body := prompt +:+ nl +:+ nl +:+ "Payload:" +:+ nl +:+ dumps_indent 0 (jor (dget task "payload") (JObj [])) in
  let messages := JList [JObj [("role", JStr "system"); ("content", JStr "You are a task runner. Provide a concise plan and next actions.")];
                         JObj [("role", JStr "user"); ("content", JStr body)]] in
  if lower provider =s "ollama" then _call_ollama base_url model messages
  else _call_openai_compatible base_url model messages api_key.

Definition _run_command (cmd : string) (env : list (string * string)) : M Z := fun s =>
  let '(w, r) := world_run cmd env (w_world s) in (mkWorker w (w_log s ++ [RanCommand cmd env]), r).

Definition _write_memory (project : json) (file_name content : string) : M unit :=
  _post "/memory/write" (JObj [("projectName", project); ("fileName", JStr file_name); ("content", JStr content)]) [] ;;; st_ret tt.

Definition _post_feedback (payload : json) : M unit :=
  st_try (_post "/feedback" payload [] ;;; st_ret tt) (fun _ => st_ret tt).

Definition _format_result (task : dict) (output : json) : string :=
  let payload_block := if jtruthy (dget task "payload") then dumps_indent 0 (dget task "payload") else "{}" in
  "# Task Result" +:+ nl +:+ nl +:+ "## Task" +:+ nl +:+ "- id: " +:+ jstr (dget task "id") +:+ nl +:+ "- title: " +:+ jstr (dget task "title") +:+ nl
  +:+ "- project: " +:+ jstr (dget task "project") +:+ nl +:+ "- agent: " +:+ jstr (dget task "agent") +:+ nl +:+ nl +:+ "## Payload" +:+ nl
  +:+ "```" +:+ nl +:+ payload_block +:+ nl +:+ "```" +:+ nl +:+ nl +:+ "## Output" +:+ nl +:+ jstr output +:+ nl.

(** [f"/agents/tasks/{task['id']}/status"] *)
Definition report (task : dict) (status message : string) : M unit :=
  id <- item_of (JObj task) "id" ;;
  _post ("/agents/tasks/" +:+ jstr id +:+ "/status") (JObj [("status", JStr status); ("message", JStr message)]) [] ;;;
  st_ret tt.

Definition feedback_body (project task_id : json) (content : json) (topic_path : json) (agent_choice : string) : json :=
  JObj [("project", project); ("task_id", task_id); ("source", JStr "agent"); ("content", content); ("topic_path", topic_path);
        ("metadata", JObj [("agent", JStr agent_choice); ("provider", JStr (wa_provider A)); ("model", JStr (wa_model A))])].

(** [output[:1500]] *)
Definition first_1500 (output : json) : M json :=
  match output with
  | JStr s => st_ret (JStr (take 1500 s))
  | JList l => st_ret (JList (firstn 1500 l))
  | _ => st_raise (OtherError "TypeError" "object is not subscriptable")
  end.

(** The value of an environment variable for the command: a text. *)
Definition env_text (j : json) : M string :=
  match j with JStr s => st_ret s | _ => st_raise (OtherError "TypeError" "expected str, bytes or os.PathLike object") end.

Definition lower_of (j : json) : M string :=
  match j with JStr s => st_ret (lower s) | _ => st_raise (OtherError "AttributeError" "no attribute 'lower'") end.

(** The environment added for the command. *)
Definition task_env (task : dict) (agent_choice : string) : M (list (string * string)) :=
  id <- item_of (JObj task) "id" ;;
  title <- item_of (JObj task) "title" ;;
  id <- env_text id ;; title <- env_text title ;; project <- env_text (jor (dget task "project") (JStr "")) ;;
  st_ret [("TASK_ID", id); ("TASK_TITLE", title); ("TASK_PROJECT", project); ("TASK_AGENT", agent_choice);
          ("TASK_PAYLOAD", dumps (jor (dget task "payload") (JObj []))); ("TASK_MODEL_PROVIDER", wa_provider A); ("TASK_MODEL", wa_model A);
          ("TASK_BASE_URL", wa_base_url A); ("TASK_API_KEY", wa_api_key A); ("MEMMCP_ORCHESTRATOR_URL", wa_url A)].

Definition run_by_command (cmd : string) (task : dict) (agent_choice : string) (topic_path : json) : M unit :=
  env <- task_env task agent_choice ;;
  exit_code <- _run_command cmd env ;;
  let message := if exit_code =? 0 then "Task completed by runner command" else "Runner command failed" in
  report task (if exit_code =? 0 then "succeeded" else "failed") message ;;;
  if exit_code =? 0 then _post_feedback (feedback_body (dget task "project") (dget task "id") (JStr message) topic_path agent_choice) else st_ret tt.

Definition run_by_model (task : dict) (agent_choice : string) (topic_path : json) : M unit :=
  output <- _run_llm_task (wa_provider A) (wa_model A) (wa_base_url A) (wa_api_key A) task ;;
  let project := jor (dget task "project") (JStr "_global") in
  id <- item_of (JObj task) "id" ;;
  _write_memory project ("task_runs/" +:+ jstr id +:+ ".md") (_format_result task output) ;;;
  report task "succeeded" ("Completed via " +:+ wa_provider A +:+ " (" +:+ wa_model A +:+ ")") ;;;
  content <- first_1500 output ;;
  _post_feedback (feedback_body project (dget task "id") content topic_path agent_choice).

(** A payload that is neither null nor a dictionary has no [get]. *)
Definition _handle_task (task : dict) : M unit :=
  task_payload <- (match jor (dget task "payload") (JObj []) with
                   | JObj d => st_ret d
                   | _ => st_raise (OtherError "AttributeError" "no attribute 'get'")
                   end) ;;
  let topic_path := jor (dget task_payload "topic_path") (dget task_payload "topicPath") in
  if jtruthy (dget task "approval_required") && negb (jtruthy (dget task "approved")) then report task "blocked" "Awaiting approval"
  else
    agent_choice <- lower_of (jor (dget task "agent") (JStr (wa_agent A))) ;;
    item_of (JObj task) "id" ;;; item_of (JObj task) "title" ;;;
    let cmd := _runner_cmd_for_agent getenv agent_choice in
    if truthy cmd then run_by_command cmd task agent_choice topic_path
    else st_try (run_by_model task agent_choice topic_path) (fun exc => report task "failed" ("Runner error: " +:+ exn_str exc)).

(** One turn of the loop: whether it is left; an exception is printed. *)
Definition worker_turn : M bool :=
  st_try
    (data <- _post "/agents/tasks/next" (JObj []) [("worker", wa_worker A)] ;;
     task <- get_of data "task" ;;
     if jtruthy task then
       match task with
       | JObj d => _handle_task d ;;; st_ret false
       | _ => st_raise (OtherError "AttributeError" "no attribute 'get'")
       end
     else st_ret (wa_once A))
    (fun _ => st_ret false).

(** At most [n] turns, and whether the loop was left. *)
Fixpoint worker_main (n : nat) : M bool :=
  match n with
  | O => st_ret false
  | S n' => left <- worker_turn ;; if (left : bool) then st_ret true else worker_main n'
  end.
End worker.
