(* ===== verification/TaskWorkerFacts.v ===== *)
(** * Proofs about the task endpoints and the script that works on tasks

    A task the script has handled was reported, a task that waits for approval is
    not run, and with the service behind it the command's exit code becomes the
    status of the task in the database. *)

From S2P Require Import Prelude PyStr PyTime Policy Json JsonText SourcePolicy OutboxFacts TaskDb Tasks TaskFacts Messaging TaskExec TaskExecFacts TaskApi TaskWorker.
From Stdlib Require Import Ascii.
Open Scope Z_scope.

(** ** What a turn adds to the log *)

Section log.
Context {W : Type}.
Abbreviation M := (ST (worker_state W)).

(** [m] adds only events in [P]. *)
Definition adds (P : worker_event -> Prop) {A} (m : M A) : Prop := forall s, exists l, w_log (fst (m s)) = w_log s ++ l /\ List.Forall P l.

Lemma adds_ret P {A} (a : A) : adds P (st_ret a).
Proof. intros s. exists []. by rewrite app_nil_r. Qed.
Lemma adds_raise P {A} e : adds P (st_raise (A := A) e).
Proof. intros s. exists []. by rewrite app_nil_r. Qed.
Lemma adds_bind P {A B} (m : M A) (k : A -> M B) : adds P m -> (forall a, adds P (k a)) -> adds P (st_bind m k).
Proof.
  intros Hm Hk s. unfold st_bind. destruct (Hm s) as (l1 & E1 & F1). destruct (m s) as [s1 [a|e]]; cbn [fst] in *; [|by exists l1].
  destruct (Hk a s1) as (l2 & E2 & F2). exists (l1 ++ l2). rewrite E2, E1, app_assoc. split; [done|by apply List.Forall_app].
Qed.
Lemma adds_try P {A} (m : M A) h : adds P m -> (forall e, adds P (h e)) -> adds P (st_try m h).
Proof.
  intros Hm Hk s. unfold st_try. destruct (Hm s) as (l1 & E1 & F1). destruct (m s) as [s1 [a|e]]; cbn [fst] in *; [by exists l1|].
  destruct (Hk e s1) as (l2 & E2 & F2). exists (l1 ++ l2). rewrite E2, E1, app_assoc. split; [done|by apply List.Forall_app].
Qed.
Lemma adds_impl (P Q : worker_event -> Prop) {A} (m : M A) : (forall e, P e -> Q e) -> adds P m -> adds Q m.
Proof. intros H Hm s. destruct (Hm s) as (l & E & F). exists l. split; [done|]. by eapply List.Forall_impl. Qed.
Lemma adds_note (P : worker_event -> Prop) (m : ST W api_response) mark : (forall b, P (mark b)) -> adds P (note m mark).
Proof. intros H s. unfold note. destruct (m (w_world s)) as [w [r|x]]; eexists; split; try done; by repeat constructor. Qed.

Lemma adds_read P r : adds P (read_response (W := W) r).
Proof. unfold read_response. destruct (negb _); [apply adds_raise|]. destruct (api_json r); [apply adds_ret|apply adds_raise]. Qed.
Lemma adds_item P j k : adds P (item_of (W := W) j k).
Proof. unfold item_of. destruct j as [| | | | | |d]; try apply adds_raise. destruct (dlookup k d); [apply adds_ret|apply adds_raise]. Qed.
Lemma adds_get P j k : adds P (get_of (W := W) j k).
Proof. unfold get_of. destruct j; try apply adds_raise. apply adds_ret. Qed.
Lemma adds_head P j : adds P (head_of (W := W) j).
Proof. unfold head_of. destruct j as [| | | | |[|x l]|]; try apply adds_raise. apply adds_ret. Qed.
Lemma adds_first P j : adds P (first_1500 (W := W) j).
Proof. unfold first_1500. destruct j; try apply adds_raise; apply adds_ret. Qed.
Lemma adds_env P j : adds P (env_text (W := W) j).
Proof. unfold env_text. destruct j; try apply adds_raise; apply adds_ret. Qed.
End log.

Create HintDb adds.
#[export] Hint Resolve adds_ret adds_raise adds_read adds_item adds_get adds_head adds_first adds_env : adds.
Ltac adds := repeat first [solve [auto with adds] | apply adds_bind; [|intros ?] | apply adds_try; [|intros ?] | case_match].

(** ** Handling a task *)

Section handling.
Context {W : Type}.
Variable world_post : string -> json -> list (string * string) -> ST W api_response.
Variable world_model : string -> json -> list (string * string) -> ST W api_response.
Variable world_run : string -> list (string * string) -> ST W Z.
Variable getenv : string -> string.
Variable A : worker_args.

Definition status_path (id : json) : string := "/agents/tasks/" +:+ jstr id +:+ "/status".

Definition is_report (path : string) (e : worker_event) : bool := match e with Posted p _ _ => p =s path | _ => false end.
(** The event runs nothing. *)
Definition harmless (e : worker_event) : Prop := match e with Posted _ _ _ => True | _ => False end.
Definition other_event (path : string) (e : worker_event) : Prop := is_report path e = false.

Lemma adds_post (P : worker_event -> Prop) path payload params : (forall b, P (Posted path payload b)) -> adds P (_post world_post path payload params).
Proof. intros H. unfold _post. apply adds_bind; [by apply adds_note|intros r; apply adds_read]. Qed.

Lemma adds_feedback id payload : adds (other_event (status_path id)) (_post_feedback world_post payload).
Proof. unfold _post_feedback. apply adds_try; [apply adds_bind; [by apply adds_post|intros j; apply adds_ret]|intros e; apply adds_ret]. Qed.

Lemma feedback_ok payload s : exists s', _post_feedback world_post payload s = (s', Ok tt).
Proof. unfold _post_feedback, st_try. destruct (st_bind _ _ s) as [s1 [[]|e]]; by eexists. Qed.

(** A report that returns was accepted. *)
Lemma post_ok path payload params s s' j : _post world_post path payload params s = (s', Ok j) -> w_log s' = w_log s ++ [Posted path payload true].
Proof.
  unfold _post, note. intros E. apply st_bind_ok in E as (s1 & r & E1 & E2). destruct (world_post _ _ _ _) as [w [r'|x]]; [|done]. injection E1 as <- ->.
  unfold read_response in E2. destruct (_ && _) eqn:Eb; [|done]. cbn [negb] in E2. destruct (api_json r); [|done]. by injection E2 as <- _.
Qed.

Lemma report_ok task id status message s s' : dlookup "id" task = Some id -> report world_post task status message s = (s', Ok tt) ->
  w_log s' = w_log s ++ [Posted (status_path id) (JObj [("status", JStr status); ("message", JStr message)]) true].
Proof.
  intros Hid E. unfold report in E. apply st_bind_ok in E as (s1 & i & E1 & E). unfold item_of in E1. rewrite Hid in E1. injection E1 as <- <-.
  apply st_bind_ok in E as (s2 & j & E2 & [= <-]). by apply post_ok in E2.
Qed.

(** The task was reported with one of the statuses, last of all. *)
Definition reported (id : json) (statuses : list string) (s s' : worker_state W) : Prop :=
  exists l1 l2 status message, w_log s' = w_log s ++ l1 ++ Posted (status_path id) (JObj [("status", JStr status); ("message", JStr message)]) true :: l2 /\
    In status statuses /\ List.Forall (other_event (status_path id)) l2.

Lemma reported_after id statuses s s1 s2 : (exists l, w_log s1 = w_log s ++ l) -> reported id statuses s1 s2 -> reported id statuses s s2.
Proof.
  intros (l & El) (l1 & l2 & st & msg & E & H). exists (l ++ l1), l2, st, msg. split; [|done]. by rewrite E, El, <- !app_assoc.
Qed.

Lemma report_reported task id status message statuses s s' : dlookup "id" task = Some id -> In status statuses ->
  report world_post task status message s = (s', Ok tt) -> reported id statuses s s'.
Proof. intros Hid Hin E. apply (report_ok _ id) in E; [|done]. exists [], [], status, message. by repeat split. Qed.

Lemma reported_more id statuses s s1 s2 {B} (m : ST (worker_state W) B) r : adds (other_event (status_path id)) m -> m s1 = (s2, r) ->
  reported id statuses s s1 -> reported id statuses s s2.
Proof.
  intros Hm Er (l1 & l2 & st & msg & E & Hin & F). destruct (Hm s1) as (l3 & E3 & F3). rewrite Er in E3. cbn [fst] in E3. exists l1, (l2 ++ l3), st, msg. split; [|split; [done|]].
  - rewrite E3, E, <- !app_assoc. done.
  - by apply List.Forall_app.
Qed.

Abbreviation handle := (_handle_task world_post world_model world_run getenv A).
Abbreviation outcomes := ["blocked"; "succeeded"; "failed"].

Lemma adds_any {B} (m : ST (worker_state W) B) s s' r : adds (fun _ => True) m -> m s = (s', r) -> exists l, w_log s' = w_log s ++ l.
Proof. intros Hm E. destruct (Hm s) as (l & El & _). rewrite E in El. by exists l. Qed.

Lemma adds_run_command cmd env : adds (fun _ => True) (_run_command world_run cmd env).
Proof. intros s. unfold _run_command. destruct (world_run _ _ _) as [w r]. eexists. split; [done|]. by repeat constructor. Qed.
Lemma adds_task_env P task agent : adds P (task_env (W := W) A task agent).
Proof. unfold task_env. adds. Qed.

Lemma run_by_command_reported cmd task id agent topic s s' : dlookup "id" task = Some id ->
  run_by_command world_post world_run A cmd task agent topic s = (s', Ok tt) -> reported id outcomes s s'.
Proof.
  intros Hid E. unfold run_by_command in E. apply st_bind_ok in E as (s1 & env & E1 & E). apply st_bind_ok in E as (s2 & code & E2 & E).
  apply st_bind_ok in E as (s3 & [] & E3 & E).
  apply (reported_after _ _ _ s1); [by eapply adds_any; [apply adds_task_env|]|].
  apply (reported_after _ _ _ s2); [by eapply adds_any; [apply adds_run_command|]|].
  apply (report_reported _ id _ _ outcomes) in E3; [|done|by destruct (_ =? _); cbn; tauto].
  destruct (code =? 0); [|by injection E as <-].
  eapply reported_more; [apply adds_feedback|exact E|exact E3].
Qed.

Lemma adds_report task status message : adds (fun _ => True) (report world_post task status message).
Proof.
  unfold report. apply adds_bind; [apply adds_item|intros i]. apply adds_bind; [by apply adds_post|intros j; apply adds_ret].
Qed.
Lemma adds_ask url payload h : adds (fun _ => True) (ask_model world_model url payload h).
Proof. unfold ask_model. apply adds_bind; [by apply adds_note|intros r; apply adds_read]. Qed.
Lemma adds_llm provider model base key task : adds (fun _ => True) (_run_llm_task world_model provider model base key task).
Proof.
  unfold _run_llm_task. destruct (_ =s _); [unfold _call_ollama|unfold _call_openai_compatible]; (apply adds_bind; [apply adds_ask|intros; adds]).
Qed.
Lemma adds_write project file content : adds (fun _ => True) (_write_memory world_post project file content).
Proof. unfold _write_memory. apply adds_bind; [by apply adds_post|intros; apply adds_ret]. Qed.
Lemma adds_model task agent topic : adds (fun _ => True) (run_by_model world_post world_model A task agent topic).
Proof.
  unfold run_by_model. apply adds_bind; [apply adds_llm|intros output]. apply adds_bind; [apply adds_item|intros i].
  apply adds_bind; [apply adds_write|intros []]. apply adds_bind; [apply adds_report|intros []]. apply adds_bind; [apply adds_first|intros c].
  eapply adds_impl; [|apply (adds_feedback JNull)]. done.
Qed.

Lemma run_by_model_reported task id agent topic s s' : dlookup "id" task = Some id ->
  run_by_model world_post world_model A task agent topic s = (s', Ok tt) -> reported id outcomes s s'.
Proof.
  intros Hid E. unfold run_by_model in E. apply st_bind_ok in E as (s1 & out & E1 & E). apply st_bind_ok in E as (s2 & i & E2 & E).
  apply st_bind_ok in E as (s3 & [] & E3 & E). apply st_bind_ok in E as (s4 & [] & E4 & E). apply st_bind_ok in E as (s5 & c & E5 & E).
  apply (reported_after _ _ _ s1); [by eapply adds_any; [apply adds_llm|]|]. apply (reported_after _ _ _ s2); [by eapply adds_any; [apply adds_item|]|].
  apply (reported_after _ _ _ s3); [by eapply adds_any; [apply adds_write|]|].
  apply (report_reported _ id _ _ outcomes) in E4; [|done|cbn; tauto].
  eapply reported_more; [apply adds_feedback|exact E|]. eapply reported_more; [apply adds_first|exact E5|exact E4].
Qed.

(** A task that waits for approval. *)
Definition unapproved (task : dict) : bool := jtruthy (dget task "approval_required") && negb (jtruthy (dget task "approved")).

Lemma handle_reported task id s s' : dlookup "id" task = Some id -> handle task s = (s', Ok tt) -> reported id outcomes s s'.
Proof.
  intros Hid E. unfold _handle_task in E. apply st_bind_ok in E as (s1 & p & E1 & E).
  assert (s1 = s) as ->. { destruct (jor _ _); try done. by injection E1. }
  destruct (_ && _); [by apply (report_reported _ id _ _ outcomes) in E; [|done|cbn; tauto]|].
  apply st_bind_ok in E as (s2 & agent & E2 & E). assert (s2 = s) as ->. { unfold lower_of in E2. destruct (jor _ _); try done. by injection E2. }
  unfold st_bind at 1 2, item_of in E. rewrite Hid in E. cbn [st_ret] in E. destruct (dlookup "title" task); [|done]. cbn [st_ret] in E.
  destruct (truthy _); [by eapply run_by_command_reported|].
  unfold st_try in E. destruct (run_by_model _ _ _ _ _ _ s) as [s3 [[]|e]] eqn:E3; [injection E as <-; by eapply run_by_model_reported|].
  apply (reported_after _ _ _ s3); [by eapply adds_any; [apply adds_model|]|]. apply (report_reported _ id _ _ outcomes) in E; [exact E|done|cbn; tauto].
Qed.

(** A task that waits for approval is only reported. *)
Lemma unapproved_not_run task s : unapproved task = true -> exists l, w_log (fst (handle task s)) = w_log s ++ l /\ List.Forall harmless l.
Proof.
  intros Hu. unfold unapproved in Hu. revert s. change (adds harmless (handle task)). unfold _handle_task. rewrite Hu.
  apply adds_bind; [case_match; auto with adds|]. intros p. unfold report. apply adds_bind; [apply adds_item|intros i].
  apply adds_bind; [by apply adds_post|intros j; apply adds_ret].
Qed.
End handling.

(** ** The service behind the script *)

Lemma status_segments id : has_char "/" id = false -> segments ("/agents/tasks/" +:+ id +:+ "/status") = [""; "agents"; "tasks"; id; "status"].
Proof.
  intros H. unfold segments. change ("/agents/tasks/" +:+ id +:+ "/status") with ("/agents/tasks" +:+ String "/" (id +:+ String "/" "status")).
  rewrite !split_app_sep_gen. rewrite (split_nosep "/" id H). done.
Qed.

Lemma status_routed id : has_char "/" id = false -> truthy id = true ->
  route_request task_routes "POST" ("/agents/tasks/" +:+ id +:+ "/status") = Some ("update_agent_task_status", [("task_id", id)]).
Proof.
  intros H T. unfold task_routes. cbn [route_request r_method r_path r_endpoint at_tasks app]. rewrite status_segments by done.
  cbn [match_path]. rewrite T. change ("" =s "") with true. change ("agents" =s "agents") with true. change ("tasks" =s "tasks") with true.
  cbn iota. destruct ("next" =s id); done.
Qed.

Section service.
Context {W : Type} `{OuterServices W}.
Variable C : task_config.
Variable X : exec_config.
Abbreviation state := (runtime_state W).

Lemma claim_approval worker (s s1 : state) t : db_faults (rt_db s) = [] -> tables_ok (tables (rt_db s)) -> claim C X worker s = (s1, Ok (Some t)) ->
  approval_ok t = true /\ db_quiet (t_id t) (rt_db s1).
Proof.
  intros Hq Hok E. split.
  2: { destruct (claim_result C X worker s Hq Hok) as (s2 & r & E2 & _ & H2). rewrite E2 in E. injection E as <- ->. apply H2. }
  unfold claim, now, st_bind at 1, in_db, claim_next_task, recover_expired_task_leases in E. change (25 <=? 0) with false in E. cbn iota beta in E.
  unfold st_bind in E. set (n := clock_us (rt_world s)) in E.
  pose proof (exec_quiet (TASK_DB_LOCK_RETRIES X) (recover_tx n 25) (rt_db s) Hq) as H1. destruct (_task_db_exec _ (recover_tx n 25) _) as [db1 [k|e]]; [|done].
  destruct H1 as [Hq1 H1]. assert (tables_ok (tables db1)) as Hok1 by (eapply (task_step_ok C); [by eapply tstep_recover|done]).
  pose proof (exec_quiet (TASK_DB_LOCK_RETRIES X) (claim_tx C n (Some worker)) db1 Hq1) as H2.
  destruct (_task_db_exec _ (claim_tx _ _ _) _) as [db2 r]. destruct H2 as [_ H2]. injection E as <- ->.
  destruct (claim_tx_some _ _ _ _ _ _ Hok1 H2) as (t0 & _ & Hel & -> & _). unfold eligible, task_ready in Hel. blift. done.
Qed.

(** A report without metadata. *)
Lemma status_result id status ts message (s : state) : parse_task_status (lower (strip status)) = Some ts -> db_quiet id (rt_db s) ->
  exists s' u, update_status X id status (Some message) None s = (s', Ok (Some u)) /\
    settled id (fun u => t_status u = ts) (rt_db s').
Proof.
  intros Hp Hq. pose proof Hq as (_ & Hok & (t & Ht)%has_task_find). unfold update_status. unfold st_bind at 1, now. cbn iota beta. rewrite Hp.
  set (n := clock_us (rt_world s)). set (f := status_update (_task_iso_now n) ts (Some message) None None).
  set (T' := update_task id f (mkTaskEvent id (_task_iso_now n) (task_status_str ts) (Some message) None) (tables (rt_db s))).
  assert (find_task id T' = Some (f t)) as Hu by (by apply find_updated).
  assert (update_task_status n id status (Some message) None (tables (rt_db s)) = Ok (T', Some (f t))) as Hf.
  { unfold update_task_status. rewrite Hp. cbn [run_after_override rbind]. rewrite Ht. f_equal. f_equal. exact Hu. }
  destruct (settle_result C X _ id (fun _ => terminal ts) (Some message) None s T' (f t) (fun u => t_status u = ts)
    Hq Hf (tstep_update C _ _ _ _ _ _ _ _ Hf) Hu eq_refl) as (s' & E & H1 & H2).
  exists s', (f t). unfold st_bind at 1, st_lift. cbn iota beta. rewrite E. done.
Qed.

Variable other : string -> json -> ST W api_response.
Variable shell : string -> list (string * string) -> ST W Z.
Variable models : string -> json -> list (string * string) -> ST W api_response.
Variable getenv : string -> string.
Variable A : worker_args.

(** The service: the task queue answers its paths, the rest of it the others. *)
Definition service_post (path : string) (body : json) (params : list (string * string)) : ST state api_response :=
  match answer_worker C X None path (as_dict body) params with
  | Some m => m
  | None => in_world (other path body)
  end.
Definition service_run (cmd : string) (env : list (string * string)) : ST state Z := in_world (shell cmd env).
Definition service_model (url : string) (body : json) (headers : list (string * string)) : ST state api_response := in_world (models url body headers).

Definition chosen_agent (t : task) : string := lower (str_or (opt_str (t_agent t)) (wa_agent A)).

Lemma feedback_keeps_db payload (s : state) l : exists w l', _post_feedback service_post payload (mkWorker s l) = (mkWorker (mkRuntime (rt_db s) w (rt_health s)) l', Ok tt).
Proof.
  unfold _post_feedback, st_try, _post, st_bind, note. cbn [w_world w_log]. change (service_post "/feedback" payload []) with (in_world (other "/feedback" payload)).
  unfold in_world. destruct (other "/feedback" payload (rt_world s)) as [w [r|e]]; [|by eexists w, _].
  unfold read_response. destruct (negb _); [by eexists w, _|]. destruct (api_json r); by eexists w, _.
Qed.

(** A report of the script, as the service takes it. *)
Lemma service_report (t : task) status ts message (s : state) l : has_char "/" (t_id t) = false -> truthy (t_id t) = true ->
  parse_task_status (lower (strip status)) = Some ts -> db_quiet (t_id t) (rt_db s) ->
  exists s' l', report service_post (_task_row_to_dict t) status message (mkWorker s l) = (mkWorker s' l', Ok tt) /\
    settled (t_id t) (fun u => t_status u = ts) (rt_db s').
Proof.
  intros Hs Ti Hp Hq. destruct (status_result (t_id t) status ts message s Hp Hq) as (s' & u & E & Hset).
  unfold report. unfold st_bind at 1, item_of. change (dlookup "id" (_task_row_to_dict t)) with (Some (JStr (t_id t))). cbn [st_ret jstr].
  unfold st_bind at 1, _post. unfold st_bind at 1, note. cbn [w_world w_log].
  assert (service_post ("/agents/tasks/" +:+ t_id t +:+ "/status") (JObj [("status", JStr status); ("message", JStr message)]) [] s
          = (s', Ok (mkApi 200 (Some (task_result u))))) as Ep.
  { unfold service_post, answer_worker. rewrite status_routed by done.
    change (opt_field (as_dict (JObj [("status", JStr status); ("message", JStr message)])) "status") with (Some status).
    change (opt_field (as_dict (JObj [("status", JStr status); ("message", JStr message)])) "message") with (Some message).
    change (dict_field (as_dict (JObj [("status", JStr status); ("message", JStr message)])) "metadata") with (@None dict).
    change (opt_str (assoc "task_id" [("task_id", t_id t)])) with (t_id t). cbn match.
    unfold answer, update_agent_task_status, _scheduler_update_via_runtime. cbn [u_status u_message u_metadata]. unfold st_bind. rewrite E. done. }
  rewrite Ep. cbn [api_status]. change ((200 <=? 200) && (200 <? 300)) with true. eexists s', _. split; [reflexivity|done].
Qed.

Abbreviation turn := (worker_turn service_post service_model service_run getenv A).
Abbreviation handle_t := (_handle_task service_post service_model service_run getenv A).

Lemma service_claim (s s1 : state) t : claim C X (wa_worker A) s = (s1, Ok (Some t)) ->
  service_post "/agents/tasks/next" (JObj []) [("worker", wa_worker A)] s = (s1, Ok (mkApi 200 (Some (task_result t)))).
Proof.
  intros E. change (service_post "/agents/tasks/next" (JObj []) [("worker", wa_worker A)]) with (answer (claim_agent_task C X None (Some (wa_worker A)))).
  unfold answer, claim_agent_task, _scheduler_claim_via_runtime. unfold st_bind.
  change (claim_for C X (Some (wa_worker A)) s) with (claim C X (wa_worker A) s). by rewrite E.
Qed.

Lemma run_by_command_settles cmd (t : task) agent topic code (s : state) l : has_char "/" (t_id t) = false -> truthy (t_id t) = true ->
  (forall env w, exists w', shell cmd env w = (w', Ok code)) -> db_quiet (t_id t) (rt_db s) ->
  exists s' l', run_by_command service_post service_run A cmd (_task_row_to_dict t) agent topic (mkWorker s l) = (mkWorker s' l', Ok tt) /\
    settled (t_id t) (fun u => t_status u = if code =? 0 then TSucceeded else TFailed) (rt_db s').
Proof.
  intros Hs Ti Hsh Hq. unfold run_by_command.
  assert (exists env, task_env A (_task_row_to_dict t) agent (mkWorker s l) = (mkWorker s l, Ok env)) as (env & Ee).
  { unfold task_env, st_bind, item_of.
    change (dlookup "id" (_task_row_to_dict t)) with (Some (JStr (t_id t))). change (dlookup "title" (_task_row_to_dict t)) with (Some (JStr (t_title t))).
    cbn [st_ret env_text]. change (dget (_task_row_to_dict t) "project") with (jopt (t_project t)).
    assert (exists pr, jor (jopt (t_project t)) (JStr "") = JStr pr) as (pr & Epr).
    { unfold jor. destruct (t_project t) as [pr|]; cbn [jopt jtruthy]; [destruct (truthy pr)|]; by eexists. }
    rewrite Epr. cbn [env_text st_ret]. by eexists. }
  unfold st_bind at 1. rewrite Ee. unfold st_bind at 1, _run_command. cbn [w_world w_log]. unfold service_run, in_world.
  destruct (Hsh env (rt_world s)) as (w' & Ew). rewrite Ew. cbn iota beta zeta. set (s1 := mkRuntime (rt_db s) w' (rt_health s)).
  unfold st_bind at 1. destruct (code =? 0).
  - destruct (service_report t "succeeded" TSucceeded "Task completed by runner command" s1 (l ++ [RanCommand cmd env]) Hs Ti eq_refl Hq) as (s2 & l2 & Er & Hset).
    rewrite Er. destruct (feedback_keeps_db (feedback_body A (dget (_task_row_to_dict t) "project") (dget (_task_row_to_dict t) "id") (JStr "Task completed by runner command") topic agent) s2 l2)
      as (w3 & l3 & Ef). rewrite Ef. by eexists _, _.
  - destruct (service_report t "failed" TFailed "Runner command failed" s1 (l ++ [RanCommand cmd env]) Hs Ti eq_refl Hq) as (s2 & l2 & Er & Hset).
    rewrite Er. by eexists _, _.
Qed.

Lemma turn_settles (s s1 : state) t code l : db_faults (rt_db s) = [] -> tables_ok (tables (rt_db s)) ->
  claim C X (wa_worker A) s = (s1, Ok (Some t)) -> has_char "/" (t_id t) = false -> truthy (t_id t) = true ->
  truthy (_runner_cmd_for_agent getenv (chosen_agent t)) = true ->
  (forall env w, exists w', shell (_runner_cmd_for_agent getenv (chosen_agent t)) env w = (w', Ok code)) ->
  exists s' l', turn (mkWorker s l) = (mkWorker s' l', Ok false) /\
    settled (t_id t) (fun u => t_status u = if code =? 0 then TSucceeded else TFailed) (rt_db s').
Proof.
  intros Hq Hok Ec Hs Ti Tc Hsh. destruct (claim_approval _ _ _ _ Hq Hok Ec) as [Happ Hdb].
  unfold worker_turn, st_try. unfold st_bind at 1, _post. unfold st_bind at 1, note. cbn [w_world w_log]. rewrite (service_claim _ _ _ Ec).
  cbn [api_status]. change ((200 <=? 200) && (200 <? 300)) with true. unfold read_response. cbn [api_status api_json].
  change (negb ((200 <=? 200) && (200 <? 300))) with false. cbn [st_ret]. unfold st_bind at 1.
  change (get_of (task_result t) "task") with (st_ret (S := worker_state state) (JObj (_task_row_to_dict t))). cbn [st_ret].
  change (jtruthy (JObj (_task_row_to_dict t))) with true. cbn iota. unfold st_bind at 1.
  set (l1 := l ++ [_]). enough (exists s' l', handle_t (_task_row_to_dict t) (mkWorker s1 l1) = (mkWorker s' l', Ok tt) /\
    settled (t_id t) (fun u => t_status u = if code =? 0 then TSucceeded else TFailed) (rt_db s')) as (s' & l' & E & Hset).
  { rewrite E. by eexists s', l'. }
  unfold _handle_task. change (dget (_task_row_to_dict t) "payload") with (match t_payload t with Some d => JObj d | None => JNull end).
  assert (exists p, jor (match t_payload t with Some d => JObj d | None => JNull end) (JObj []) = JObj p) as (p & Ep).
  { destruct (t_payload t) as [[|kv d]|]; by eexists. }
  rewrite Ep. unfold st_bind at 1. cbn [st_ret].
  change (dget (_task_row_to_dict t) "approval_required") with (JBool (t_approval_required t)).
  change (dget (_task_row_to_dict t) "approved") with (JBool (t_approved t)). cbn [jtruthy].
  assert (t_approval_required t && negb (t_approved t) = false) as -> by (unfold approval_ok in Happ; by destruct (t_approval_required t), (t_approved t)).
  unfold st_bind at 1. assert (lower_of (W := state) (jor (dget (_task_row_to_dict t) "agent") (JStr (wa_agent A))) = st_ret (chosen_agent t)) as ->.
  { change (dget (_task_row_to_dict t) "agent") with (jopt (t_agent t)). unfold chosen_agent, str_or, jor. destruct (t_agent t) as [a|]; cbn [jopt jtruthy opt_str]; [|done].
    by destruct (truthy a). }
  cbn [st_ret]. unfold st_bind at 1 2, item_of. change (dlookup "id" (_task_row_to_dict t)) with (Some (JStr (t_id t))).
  change (dlookup "title" (_task_row_to_dict t)) with (Some (JStr (t_title t))). cbn [st_ret]. rewrite Tc. by apply run_by_command_settles.
Qed.
End service.

(** ** The promises *)

(** C26: a task that the script has handled was reported: when handling returns, the
    last status posted for the task was accepted by the service and says that it
    is blocked, has succeeded or has failed.  A task that waits for approval is
    only reported: no command is run and no model is asked. *)
Theorem handled_task_is_reported {W} world_post world_model world_run getenv A task id (s : worker_state W) :
  dlookup "id" task = Some id ->
  let run := _handle_task world_post world_model world_run getenv A task s in
  (snd run = Ok tt -> reported id ["blocked"; "succeeded"; "failed"] s (fst run)) /\
  (unapproved task = true -> exists l, w_log (fst run) = w_log s ++ l /\ List.Forall harmless l).
Proof.
  intros Hid. cbv zeta. split; [|apply unapproved_not_run]. destruct (_handle_task _ _ _ _ _ _ s) as [s' r] eqn:E. cbn [fst snd]. intros ->.
  by eapply handle_reported.
Qed.

(** A service that accepts everything, models that say nothing, a shell that
    succeeds. *)
Definition plain_post (path : string) (body : json) (params : list (string * string)) : ST unit api_response := st_ret (mkApi 200 (Some (JObj []))).
Definition null_model (url : string) (body : json) (headers : list (string * string)) : ST unit api_response :=
  st_ret (mkApi 200 (Some (JObj [("choices", JList [JObj [("message", JObj [("content", JNull)])]])]))).
Definition plain_run (cmd : string) (env : list (string * string)) : ST unit Z := st_ret 0.
Definition sample_task : dict := [("id", JStr "t1"); ("title", JStr "demo"); ("project", JNull); ("agent", JNull); ("payload", JObj [])].
Definition no_worker : worker_state unit := mkWorker tt [].

Lemma handled_task_is_reported_witness :
  reported (JStr "t1") ["blocked"; "succeeded"; "failed"] no_worker
    (fst (_handle_task plain_post null_model plain_run (fun k => if k =s "TRAE_CMD" then "run" else "") default_worker_args sample_task no_worker)).
Proof.
  apply (handled_task_is_reported plain_post null_model plain_run (fun k => if k =s "TRAE_CMD" then "run" else "") default_worker_args sample_task (JStr "t1") no_worker);
    [reflexivity|by vm_compute].
Defined.

(** C25: with the task queue of the service behind it and no failures, one turn of
    the script settles the task it is given by the exit code of the task's
    command: the task has succeeded in the database for zero and has failed for
    another code. *)
Theorem exit_code_becomes_status {W} `{OuterServices W} C X other shell models getenv A (s s1 : runtime_state W) t code l :
  db_faults (rt_db s) = [] -> tables_ok (tables (rt_db s)) ->
  claim C X (wa_worker A) s = (s1, Ok (Some t)) -> has_char "/" (t_id t) = false -> truthy (t_id t) = true ->
  truthy (_runner_cmd_for_agent getenv (chosen_agent A t)) = true ->
  (forall env w, exists w', shell (_runner_cmd_for_agent getenv (chosen_agent A t)) env w = (w', Ok code)) ->
  exists s' l' u, worker_turn (service_post C X other) (service_model models) (service_run shell) getenv A (mkWorker s l) = (mkWorker s' l', Ok false) /\
    find_task (t_id t) (tables (rt_db s')) = Some u /\ t_status u = (if code =? 0 then TSucceeded else TFailed).
Proof.
  intros Hq Hok Ec Hs Ti Tc Hsh. destruct (turn_settles C X other shell models getenv A s s1 t code l Hq Hok Ec Hs Ti Tc Hsh) as (s' & l' & E & _ & u & Hu & Hst).
  by exists s', l', u.
Qed.

(** A world with a clock, in which nothing else answers. *)
#[local] Instance clock_world : OuterServices Z := {|
  clock_us w := w; new_id w := (w, "fresh"); outer_write _ := st_raise (OrchestratorError "down");
  outer_search _ := st_raise (OrchestratorError "down"); outer_status := st_ret []; outer_post _ _ := st_ret tt;
  outer_http _ _ _ _ := st_raise TimeoutError |}.
Definition quiet_exec : exec_config := exec_demo false.
Definition trae_env (k : string) : string := if k =s "TRAE_CMD" then "run" else "".

Lemma exit_code_becomes_status_witness : exists s' l' u,
  worker_turn (service_post default_task_config quiet_exec (fun _ _ => st_ret (mkApi 200 None))) (service_model (fun _ _ _ => st_raise TimeoutError))
    (service_run (fun _ _ => st_ret 3)) trae_env default_worker_args (mkWorker (demo_runtime []) []) = (mkWorker s' l', Ok false) /\
  find_task "t1" (tables (rt_db s')) = Some u /\ t_status u = TFailed.
Proof.
  destruct (claim default_task_config quiet_exec "local-worker" (demo_runtime [])) as [s1 o] eqn:E.
  assert (exists t, o = Ok (Some t) /\ t_id t = "t1" /\ t_agent t = None) as (t & -> & Hid & Ha).
  { vm_compute in E. injection E as _ <-. eexists. split; [reflexivity|]. split; reflexivity. }
  rewrite <- Hid.
  apply (exit_code_becomes_status default_task_config quiet_exec (fun _ _ => st_ret (mkApi 200 None)) (fun _ _ => st_ret 3) (fun _ _ _ => st_raise TimeoutError) trae_env
           default_worker_args (demo_runtime []) s1 t 3 []); [reflexivity|apply demo_tables_ok|exact E|by rewrite Hid|by rewrite Hid| |].
  - unfold chosen_agent. rewrite Ha. reflexivity.
  - intros env w. by exists w.
Defined.

(** C30: two documented endpoints cannot be reached: the route of a single task is
    registered before them and takes their paths, so that the lists of failed
    tasks and of the queue's figures are answered as a task that is not found. *)
Theorem task_lists_are_shadowed {W} `{OuterServices W} X (s : runtime_state W) name :
  In name ["deadletter"; "runtime"] -> db_faults (rt_db s) = [] -> find_task name (tables (rt_db s)) = None ->
  route_request task_routes "GET" ("/agents/tasks/" +:+ name) = Some ("get_agent_task", [("task_id", name)]) /\
  snd (answer (get_agent_task X name) s) = Ok (mkApi 404 (Some (JObj [("detail", JStr "task not found")]))).
Proof.
  intros Hin Hq Hf. split; [by destruct Hin as [<-|[<-|[]]]|]. unfold answer, get_agent_task, query. unfold st_bind.
  rewrite (tx_result X (fun T => Ok (T, get_task_record name T)) s (tables (rt_db s)) None Hq); [done|]. unfold get_task_record. by rewrite Hf.
Qed.

Lemma task_lists_are_shadowed_witness :
  route_request task_routes "GET" "/agents/tasks/deadletter" = Some ("get_agent_task", [("task_id", "deadletter")]) /\
  snd (answer (get_agent_task quiet_exec "deadletter") (demo_runtime [])) = Ok (mkApi 404 (Some (JObj [("detail", JStr "task not found")]))).
Proof. apply (task_lists_are_shadowed quiet_exec (demo_runtime []) "deadletter"); [by left|reflexivity|by vm_compute]. Defined.

(** A script started with its default names never gets a task meant for a
    runner: the service compares the task's agent with the name of the worker,
    and the script sends only that. *)
Theorem runner_tasks_are_not_claimed C now T T' t : tables_ok T ->
  claim_tx C now (Some (wa_worker default_worker_args)) T = Ok (T', Some t) -> t_agent t <> Some "trae".
Proof.
  intros Hok E Ha. destruct (claim_tx_some _ _ _ _ _ _ Hok E) as (t0 & _ & Hel & -> & _). unfold eligible in Hel. apply andb_true_iff in Hel as [_ Hel].
  cbn [claim_task set_queue t_agent] in Ha. rewrite Ha in Hel. by vm_compute in Hel.
Qed.

Lemma runner_tasks_are_not_claimed_witness : exists T' t,
  claim_tx default_task_config 1700000005000001 (Some (wa_worker default_worker_args)) demo_tables = Ok (T', Some t) /\ t_agent t <> Some "trae".
Proof.
  destruct (claim_tx default_task_config 1700000005000001 (Some (wa_worker default_worker_args)) demo_tables) as [[T' [t|]]|e] eqn:E;
    [|vm_compute in E; discriminate..].
  exists T', t. split; [reflexivity|]. exact (runner_tasks_are_not_claimed default_task_config 1700000005000001 demo_tables T' t demo_tables_ok E).
Defined.

(** A service with two tasks to hand out. *)
Definition two_tasks (path : string) (body : json) (params : list (string * string)) : ST nat api_response := fun n =>
  if path =s "/agents/tasks/next" then
    match n with
    | O => (O, Ok (mkApi 200 (Some (JObj [("task", JNull)]))))
    | S n' => (n', Ok (mkApi 200 (Some (JObj [("task", JObj (dset "id" (JStr ("t" +:+ str_of_Z (Z.of_nat n))) sample_task))]))))
    end
  else (n, Ok (mkApi 200 (Some (JObj [])))).
Definition posted_paths {W} (s : worker_state W) : list string := flat_map (fun e => match e with Posted p _ _ => [p] | _ => [] end) (w_log s).

(** The flag to process a single task does not do so: the loop is left only
    when there is no task, after all that wait were processed. *)
Theorem once_processes_every_task :
  let A := mkWorkerArgs "trae" "" "ollama" "m" "" "" true "local-worker" in
  let run := worker_main two_tasks (fun _ _ _ => st_raise TimeoutError) (fun _ _ => st_ret 0) trae_env A 5 (mkWorker 2%nat []) in
  snd run = Ok true /\ posted_paths (fst run) =
    ["/agents/tasks/next"; "/agents/tasks/t2/status"; "/feedback"; "/agents/tasks/next"; "/agents/tasks/t1/status"; "/feedback"; "/agents/tasks/next"].
Proof. by vm_compute. Qed.

(** A model that answers without text has its task reported twice, first as
    succeeded, then as failed: the answer is cut after the first report. *)
Theorem empty_answer_reported_twice :
  let run := _handle_task plain_post null_model plain_run (fun _ => "") (mkWorkerArgs "trae" "" "vllm" "m" "" "" false "w") sample_task no_worker in
  snd run = Ok tt /\
  flat_map (fun e => match e with Posted "/agents/tasks/t1/status" (JObj d) _ => [dget d "status"] | _ => [] end) (w_log (fst run)) = [JStr "succeeded"; JStr "failed"].
Proof. by vm_compute. Qed.
