(* ===== verification/NdjsonArchive.v ===== *)
(** * The script that archives histories

    [scripts/archive_ndjson_by_time.py]: lines of a history file that are older
    than a window go to compressed files by day, the others stay.  The history is
    a text, a compressed file a list of members; a run may be stopped between two
    files or within the writing of one.  Times are microseconds since the epoch. *)

From S2P Require Import Prelude PyStr PyTime Json JsonText IsoParse OutboxMaint WriteBuffer SourcePolicy TextLog.
From Stdlib Require Import Ascii.
Open Scope Z_scope.

(** The instants Python can hold: from the year 1 to 9999. *)
Definition instant_ok (t : Z) : bool := (-62135596800 * us_per_sec <=? t) && (t <? 253402300800 * us_per_sec).

(** [dt.astimezone(UTC)] *)
Definition astimezone_utc (us off : Z) : result (option Z) :=
  if instant_ok (us - off) then Ok (Some (us - off)) else Raise (OtherError "OverflowError" "date value out of range").

Definition _parse_iso_ts (value : json) : result (option Z) :=
  match value with
  | JStr v =>
      let text := strip v in
      if negb (truthy text) then Ok None
      else
        let text := if endswith text "Z" then drop_last 1 text +:+ "+00:00" else text in
        match fromisoformat text with
        | Some (us, Some off) => astimezone_utc us off
        | Some (us, None) => Ok (Some us)
        | None => Ok None
        end
  | _ => Ok None
  end.

(** [for line in handle]: the lines of a file opened as text, each with its end. *)
Fixpoint raw_lines_from (line : string) (s : string) : list string :=
  match s with
  | EmptyString => if truthy line then [line] else []
  | String c s' =>
      if Ascii.eqb c LF then (line +:+ nl) :: raw_lines_from "" s'
      else if Ascii.eqb c CR then
        match s' with
        | String d s'' => if Ascii.eqb d LF then (line +:+ nl) :: raw_lines_from "" s'' else (line +:+ nl) :: raw_lines_from "" s'
        | EmptyString => [line +:+ nl]
        end
      else raw_lines_from (line +:+ String c "") s'
  end.
Definition _iter_lines (s : string) : list string := raw_lines_from "" s.

(** [dt.strftime("%Y%m%d")]; the year is not padded before the year 1000. *)
Definition date_key (t : Z) : string :=
  let dt := utcfromtimestamp t in str_of_Z (year dt) +:+ digits 2 (month dt) +:+ digits 2 (day dt).

Inductive line_fate := Skipped | Kept (written : string) | Moved (date : string) (written : string).

Section archive.
Variables (cutoff : Z) (timestamp_field : string).

(** What becomes of a line, the body of the loop. *)
Definition sort_line (raw : string) : result line_fate :=
  let line := strip raw in
  if negb (truthy line) then Ok Skipped
  else
    match loads line with
    | None => Ok (Kept raw)
    | Some obj =>
        let! dt := match obj with JObj d => _parse_iso_ts (dget d timestamp_field) | _ => Ok None end in
        Ok (match dt with
            | None => Kept raw
            | Some dt => if dt <? cutoff then Moved (date_key dt) (line +:+ nl) else Kept (line +:+ nl)
            end)
    end.

Fixpoint sort_lines (lines : list string) : result (list line_fate) :=
  match lines with
  | [] => Ok []
  | raw :: rest => let! f := sort_line raw in let! fs := sort_lines rest in Ok (f :: fs)
  end.

Definition kept_lines (fates : list line_fate) : list string := flat_map (fun f => match f with Kept w => [w] | _ => [] end) fates.

(** [buckets[date_key].append(line + "\n")] *)
Definition add_to_bucket (buckets : list (string * list string)) (f : line_fate) : list (string * list string) :=
  match f with
  | Moved d w => cset d (match clookup d buckets with Some l => l | None => [] end ++ [w]) buckets
  | _ => buckets
  end.

(** ** Files *)

(** What an [open] for appending adds to a compressed file: a member, which is
    cut when the process ends before the file is closed; a reader still gets the
    text of the part that was written. *)
Inductive member := Whole (text : string) | Cut (text : string).

(** The history, and the compressed files by day. *)
Record archive_files := mkArchive { hot : string; cold : list (string * list member) }.

Definition members_of (d : string) (c : list (string * list member)) : list member := match clookup d c with Some ms => ms | None => [] end.

(** The text a reader gets: it cannot pass a member that is cut. *)
Fixpoint readable (ms : list member) : string :=
  match ms with [] => "" | Whole t :: rest => t +:+ readable rest | Cut t :: _ => t end.

Definition concat_lines (l : list string) : string := fold_right (fun a b => a +:+ b) "" l.

(** [gzip.open(out_path, "at")] *)
Definition append_cold (files : list (string * list member)) (bucket : string * list string) : list (string * list member) :=
  cset (fst bucket) (members_of (fst bucket) files ++ [Whole (concat_lines (snd bucket))]) files.

(** Where the process ends: after [files] compressed files, and within the next
    one when [partial] says how much of its text was written. *)
Record kill := mkKill { killed_after : nat; partial : option nat }.

Definition cut_cold (k : kill) (buckets : list (string * list string)) (files : list (string * list member)) : list (string * list member) :=
  let whole := fold_left append_cold (firstn (killed_after k) buckets) files in
  match partial k, skipn (killed_after k) buckets with
  | Some n, (d, lines) :: _ => cset d (members_of d whole ++ [Cut (take n (concat_lines lines))]) whole
  | _, _ => whole
  end.

(** A run over one history.  [stop]: where the process ends early; [appended]:
    what the service appends to the history between the reading of it and
    [os.replace]. *)
Definition archive_file (stop : option kill) (appended : string) (f : archive_files) : archive_files * result (option (Z * Z)) :=
  let meanwhile := hot f +:+ appended in
  match sort_lines (_iter_lines (hot f)) with
  | Raise e => (mkArchive meanwhile (cold f), Raise e)
  | Ok fates =>
      let buckets := fold_left add_to_bucket fates [] in
      match stop with
      | Some k => (mkArchive meanwhile (cut_cold k buckets (cold f)), Ok None)
      | None =>
          let kept := kept_lines fates in
          let moved := List.filter (fun f => match f with Moved _ _ => true | _ => false end) fates in
          (mkArchive (concat_lines kept) (fold_left append_cold buckets (cold f)),
           Ok (Some (Z.of_nat (length moved), Z.of_nat (length kept))))
      end
  end.
End archive.

Definition archive_cutoff (now retention_hours : Z) : Z := now - 3600 * us_per_sec * retention_hours.

Example date_before_epoch : date_key (-1) = "19691231".
Proof. reflexivity. Qed.
Example date_first : date_key (-62135596800 * us_per_sec) = "10101".
Proof. reflexivity. Qed.
Example demo_archive :
  let line := dumps (JObj [("timestamp", JStr "2024-01-01T00:00:00Z")]) in
  archive_file 1704153600000000 "timestamp" None "" (mkArchive (line +:+ nl +:+ "odd") [])
  = (mkArchive "odd" [("20240101", [Whole (line +:+ nl)])], Ok (Some (1, 1))).
Proof. vm_compute. reflexivity. Qed.

(** * Proofs about the script that archives histories

    Lines go to the file of their day or stay, in order; nothing that was in the
    history when it was read is lost, wherever the run stops; a second run finds
    nothing to do.  What the service appends during a run is lost, what is moved
    behind a member that is cut cannot be read, and signals are never archived. *)

From S2P Require Import WriteBufferFacts Tasks TextLogFacts Feeds.
From Stdlib Require Import Ascii.
Open Scope Z_scope.

(** ** Lines of a file *)

Definition not_end (c : ascii) : bool := negb (Ascii.eqb c LF || Ascii.eqb c CR).
Abbreviation no_ends s := (all_chars not_end s = true).
Definition whole_line (w : string) : Prop := exists x, w = x +:+ nl /\ no_ends x.

(** The lines a file can have: only the last may lack its end. *)
Inductive file_lines : list string -> Prop :=
| fl_nil : file_lines []
| fl_last w : truthy w = true -> no_ends w -> file_lines [w]
| fl_cons w l : whole_line w -> file_lines l -> file_lines (w :: l).

Create HintDb archive.
#[local] Hint Constructors file_lines : archive.

Lemma whole_file_lines l : List.Forall whole_line l -> file_lines l.
Proof. induction 1; auto with archive. Qed.

Lemma nl_line x : no_ends x -> whole_line (x +:+ nl).
Proof. by exists x. Qed.
#[local] Hint Resolve whole_file_lines nl_line : archive.

Lemma no_ends_snoc x c : no_ends x -> not_end c = true -> no_ends (x +:+ String c "").
Proof. intros Hx Hc. rewrite all_chars_app, Hx. cbn. by rewrite Hc. Qed.

Lemma raw_lines_ok n : forall s line, (String.length s <= n)%nat -> no_ends line -> file_lines (raw_lines_from line s).
Proof.
  induction n as [|n IH]; intros [|c s] line Hn Hl; cbn [String.length] in Hn; try lia; cbn [raw_lines_from];
    [destruct (truthy line) eqn:E; auto with archive..|].
  destruct (Ascii.eqb c LF) eqn:E1; [constructor; [by apply nl_line|apply IH; [lia|done]]|].
  destruct (Ascii.eqb c CR) eqn:E2.
  - destruct s as [|d s]; [auto with archive|]. cbn [String.length] in Hn.
    destruct (Ascii.eqb d LF); constructor; try (by apply nl_line); apply IH; cbn [String.length]; try done; lia.
  - apply IH; [lia|]. apply no_ends_snoc; [done|]. unfold not_end. by rewrite E1, E2.
Qed.

Lemma iter_lines_ok s : file_lines (_iter_lines s).
Proof. by apply (raw_lines_ok (String.length s)). Qed.

Lemma raw_lines_read x t : forall line, no_ends x -> raw_lines_from line (x +:+ t) = raw_lines_from (line +:+ x) t.
Proof.
  induction x as [|c x IH]; intros line Hx; [by rewrite append_nil_r|].
  cbn in Hx. apply andb_true_iff in Hx as [Hc Hx]. rewrite append_cons. cbn [raw_lines_from].
  unfold not_end in Hc. destruct (Ascii.eqb c LF), (Ascii.eqb c CR); try done.
  rewrite IH by done. f_equal. by rewrite append_assoc.
Qed.

Lemma raw_lines_whole w t : whole_line w -> _iter_lines (w +:+ t) = w :: _iter_lines t.
Proof. intros (x & -> & Hx). unfold _iter_lines. rewrite append_assoc, raw_lines_read by done. done. Qed.

Lemma iter_concat l : file_lines l -> _iter_lines (concat_lines l) = l.
Proof.
  induction 1 as [|w Ht Hw|w l Hw Hl IH]; [done| |].
  - cbn [concat_lines fold_right]. unfold _iter_lines. rewrite raw_lines_read by done. cbn [raw_lines_from].
    change ("" +:+ w) with w. by rewrite Ht.
  - cbn [concat_lines fold_right]. fold (concat_lines l). rewrite raw_lines_whole by done. by f_equal.
Qed.

Lemma concat_lines_app a b : concat_lines (a ++ b) = concat_lines a +:+ concat_lines b.
Proof. induction a as [|x a IH]; [done|]. cbn. fold (concat_lines (a ++ b)) (concat_lines a). by rewrite IH, append_assoc. Qed.

Lemma iter_lines_app l t : List.Forall whole_line l -> _iter_lines (concat_lines l +:+ t) = l ++ _iter_lines t.
Proof.
  induction 1 as [|w l Hw _ IH]; [done|]. cbn [concat_lines fold_right]. fold (concat_lines l).
  rewrite append_assoc, raw_lines_whole by done. cbn. by rewrite IH.
Qed.

(** ** Stripped lines *)

Lemma all_chars_lstrip p q s : all_chars p s = true -> all_chars p (lstrip_by q s) = true.
Proof. induction s as [|c s IH]; [done|]. cbn. intros [Hc Hs]%andb_true_iff. destruct (q c); [auto|]. cbn. by rewrite Hc, Hs. Qed.

Lemma all_chars_rstrip p q s : all_chars p s = true -> all_chars p (rstrip_by q s) = true.
Proof.
  induction s as [|c s IH]; [done|]. cbn [all_chars rstrip_by]. intros [Hc Hs]%andb_true_iff. specialize (IH Hs).
  destruct (rstrip_by q s) as [|d t]; [destruct (q c); cbn; by rewrite ?Hc|]. cbn [all_chars]. by rewrite Hc.
Qed.

Lemma lstrip_end p s c : p c = true -> lstrip_by p (s +:+ String c "") = match lstrip_by p s with EmptyString => "" | t => t +:+ String c "" end.
Proof. intros Hc. induction s as [|d s IH]; [change ("" +:+ ?x) with x; cbn; by rewrite Hc|]. rewrite append_cons. cbn. by destruct (p d). Qed.

Lemma rstrip_space p s c : p c = true -> rstrip_by p (s +:+ String c "") = rstrip_by p s.
Proof. intros Hc. induction s as [|d s IH]; [change ("" +:+ ?x) with x; cbn; by rewrite Hc|]. rewrite append_cons. cbn [rstrip_by]. by rewrite IH. Qed.

Lemma strip_nl s : strip (s +:+ nl) = strip s.
Proof.
  unfold strip, strip_by, nl. rewrite lstrip_end by done. destruct (lstrip_by is_space s) eqn:E; [done|]. by rewrite rstrip_space.
Qed.

Lemma strip_no_ends s : no_ends s -> no_ends (strip s).
Proof. intros H. by apply all_chars_rstrip, all_chars_lstrip. Qed.

(** A line as it is read. *)
Definition read_line (w : string) : Prop := whole_line w \/ (truthy w = true /\ no_ends w).

Lemma read_strip w : read_line w -> no_ends (strip w).
Proof. intros [(x & -> & Hx)|[_ Hw]]; rewrite ?strip_nl; by apply strip_no_ends. Qed.

Section facts.
Variables (cutoff : Z) (field : string).
Abbreviation sort1 := (sort_line cutoff field).
Abbreviation sorted := (sort_lines cutoff field).

(** ** The fate of a line *)

Definition written (f : line_fate) : list string := match f with Skipped => [] | Kept w | Moved _ w => [w] end.

Lemma sort_written raw f w : sort1 raw = Ok f -> In w (written f) -> strip w = strip raw /\ (w = raw \/ w = strip raw +:+ nl).
Proof.
  unfold sort_line. intros H Hw. destruct (negb _); [by injection H as <-|].
  destruct (loads _) as [obj|]; [|injection H as <-; destruct Hw as [<-|[]]; auto].
  assert (strip (strip raw +:+ nl) = strip raw) as Hs by by rewrite strip_nl, strip_strip.
  destruct (match obj with JObj d => _ | _ => _ end) as [[dt|]|]; cbn in H; [|injection H as <-; destruct Hw as [<-|[]]; auto|done].
  destruct (dt <? cutoff); injection H as <-; destruct Hw as [<-|[]]; auto.
Qed.

Lemma sort_moved raw d w : sort1 raw = Ok (Moved d w) -> w = strip raw +:+ nl.
Proof.
  unfold sort_line. intros H. destruct (negb _); [done|]. destruct (loads _) as [obj|]; [|done].
  destruct (match obj with JObj d => _ | _ => _ end) as [[dt|]|]; cbn in H; try done. destruct (dt <? cutoff); congruence.
Qed.

Lemma sort_skipped raw : sort1 raw = Ok Skipped -> truthy (strip raw) = false.
Proof.
  unfold sort_line. intros H. destruct (truthy (strip raw)); [|done]. cbn in H. destruct (loads _) as [obj|]; [|done].
  destruct (match obj with JObj d => _ | _ => _ end) as [[dt|]|]; cbn in H; try done. by destruct (dt <? cutoff).
Qed.

Lemma sort_visible raw f : sort1 raw = Ok f -> f <> Skipped -> truthy (strip raw) = true.
Proof. unfold sort_line. destruct (truthy (strip raw)); [done|]. by intros [= <-]. Qed.

(** A kept line is kept again. *)
Lemma sort_again raw w : sort1 raw = Ok (Kept w) -> sort1 w = Ok (Kept w).
Proof.
  intros H. destruct (sort_written raw (Kept w) w H (or_introl eq_refl)) as [Hs [->|Hw]]; [done|].
  unfold sort_line in *. rewrite Hs. destruct (negb _); [done|]. destruct (loads _) as [obj|]; [|done].
  destruct (match obj with JObj d => _ | _ => _ end) as [[dt|]|]; cbn in *; [|done..].
  destruct (dt <? cutoff); [done|]. congruence.
Qed.

Lemma sorted_spec lines fates : sorted lines = Ok fates <-> Forall2 (fun raw f => sort1 raw = Ok f) lines fates.
Proof.
  revert fates. induction lines as [|raw lines IH]; intros fates; cbn [sort_lines].
  - split; [intros [= <-]; constructor|by inversion 1].
  - split.
    + destruct (sort1 raw) as [f|] eqn:E; cbn; [|done]. destruct (sorted lines) as [fs|] eqn:E2; cbn; [|done].
      intros [= <-]. constructor; [done|]. by apply IH.
    + inversion 1 as [|? f ? fs Hf Hfs]; subst. rewrite Hf. cbn. apply IH in Hfs. by rewrite Hfs.
Qed.

Lemma kept_ok lines fates : file_lines lines -> Forall2 (fun raw f => sort1 raw = Ok f) lines fates -> file_lines (kept_lines fates).
Proof.
  intros Hl. revert fates. induction Hl as [|w Ht Hw|w l Hw Hl IH]; intros fates HF; inversion HF as [|? f ? fs Hf Hfs]; subst; [constructor| |].
  - inversion Hfs; subst. destruct f as [|k|d k]; [constructor| |constructor]. cbn.
    destruct (sort_written _ _ k Hf (or_introl eq_refl)) as [_ [-> | ->]]; [by constructor|].
    constructor; [|constructor]. apply nl_line, strip_no_ends, Hw.
  - specialize (IH _ Hfs). destruct f as [|k|d k]; [done| |done]. cbn. constructor; [|done].
    destruct (sort_written _ _ k Hf (or_introl eq_refl)) as [_ [-> | ->]]; [done|].
    apply nl_line, read_strip. by left.
Qed.

Lemma kept_again lines fates : Forall2 (fun raw f => sort1 raw = Ok f) lines fates -> sorted (kept_lines fates) = Ok (map Kept (kept_lines fates)).
Proof.
  intros HF. apply sorted_spec. induction HF as [|raw f lines fates Hf _ IH]; [constructor|].
  destruct f as [|k|d k]; [done| |done]. cbn. constructor; [|done]. by apply sort_again in Hf.
Qed.

(** ** Members *)

Definition uncut (ms : list member) : Prop := List.Forall (fun m => exists t, m = Whole t) ms.

Lemma readable_app a b : uncut a -> readable (a ++ b) = readable a +:+ readable b.
Proof. induction 1 as [|m a [t ->] _ IH]; [done|]. cbn. by rewrite IH, append_assoc. Qed.

(** ** Buckets *)

Definition moved_on (d : string) (fates : list line_fate) : list string :=
  flat_map (fun f => match f with Moved d' w => if d =s d' then [w] else [] | _ => [] end) fates.
Definition bucket_of (d : string) (b : list (string * list string)) : list string := match clookup d b with Some l => l | None => [] end.

Lemma buckets_by_day d fates : forall b, bucket_of d (fold_left add_to_bucket fates b) = bucket_of d b ++ moved_on d fates.
Proof.
  induction fates as [|f fates IH]; intros b; cbn [fold_left]; [by rewrite app_nil_r|]. rewrite IH.
  destruct f as [|k|d' k]; [done..|]. cbn [add_to_bucket moved_on flat_map]. unfold bucket_of at 1. rewrite clookup_cset.
  destruct (d =s d') eqn:E; [|done]. blift. subst. by rewrite <- app_assoc.
Qed.

Lemma buckets_NoDup fates : forall b, List.NoDup (map fst b) -> List.NoDup (map fst (fold_left add_to_bucket fates b)).
Proof. induction fates as [|f fates IH]; intros b Hb; [done|]. cbn. apply IH. destruct f; [done..|]. by apply cset_NoDup. Qed.

Lemma bucket_missing d b : ~ In d (map fst b) -> bucket_of d b = [].
Proof.
  unfold bucket_of. induction b as [|[k v] b IH]; cbn; [done|]. intros H. destruct (d =s k) eqn:E; [blift; subst; tauto|]. apply IH. tauto.
Qed.

Lemma cold_by_day d b : forall c, List.NoDup (map fst b) -> exists more,
  members_of d (fold_left append_cold b c) = members_of d c ++ more /\ uncut more /\ readable more = concat_lines (bucket_of d b).
Proof.
  induction b as [|[k v] b IH]; intros c Hb; cbn [fold_left]; [exists []; rewrite app_nil_r; by repeat constructor|].
  inversion Hb as [|? ? Hk Hb']; subst. destruct (IH (append_cold c (k, v)) Hb') as (more & -> & Hu & Hr).
  unfold append_cold, members_of at 1. cbn [fst snd]. rewrite clookup_cset.
  unfold bucket_of. cbn [clookup]. destruct (d =s k) eqn:E; [|by exists more]. blift. subst.
  exists (Whole (concat_lines v) :: more). rewrite <- app_assoc. split; [done|]. split; [constructor; [by eexists|done]|]. cbn [readable].
  by rewrite Hr, bucket_missing, append_nil_r.
Qed.

(** A killed run has only added to the compressed files. *)
Lemma cut_grows k b c d : List.NoDup (map fst b) -> exists more, members_of d (cut_cold k b c) = members_of d c ++ more /\ (partial k = None -> uncut more).
Proof.
  intros Hb. assert (List.NoDup (map fst (firstn (killed_after k) b))) as Hf.
  { rewrite <- firstn_map. rewrite <- (firstn_skipn (killed_after k) (map fst b)) in Hb. by apply NoDup_app_remove_r in Hb. }
  destruct (cold_by_day d _ c Hf) as (more & Hm & Hu & _). unfold cut_cold.
  destruct (partial k) as [n|]; [|by exists more]. destruct (skipn (killed_after k) b) as [|[d' lines] rest]; [by exists more|].
  unfold members_of at 1. rewrite clookup_cset. destruct (d =s d') eqn:E; [|by exists more]. blift. subst.
  rewrite Hm, <- app_assoc. by eexists.
Qed.

(** ** A run *)

Definition is_moved (f : line_fate) : bool := match f with Moved _ _ => true | _ => false end.
Abbreviation run := (archive_file cutoff field).
Abbreviation fates_of s fates := (Forall2 (fun raw f => sort1 raw = Ok f) (_iter_lines s) fates).

Lemma archive_done text f f' r : run None text f = (f', Ok r) -> exists fates, fates_of (hot f) fates /\
  f' = mkArchive (concat_lines (kept_lines fates)) (fold_left append_cold (fold_left add_to_bucket fates []) (cold f)) /\
  r = Some (Z.of_nat (length (List.filter is_moved fates)), Z.of_nat (length (kept_lines fates))).
Proof.
  unfold archive_file. destruct (sorted _) as [fates|] eqn:E; [|done]. intros [= <- <-]. exists fates. by apply sorted_spec in E.
Qed.

Lemma counts_lines lines fates : Forall2 (fun raw f => sort1 raw = Ok f) lines fates ->
  (length (List.filter is_moved fates) + length (kept_lines fates) = length (List.filter (fun raw => truthy (strip raw)) lines))%nat.
Proof.
  induction 1 as [|raw f lines fates Hf _ IH]; [done|]. cbn [List.filter]. destruct f as [|k|d k].
  - by rewrite (sort_skipped _ Hf).
  - rewrite (sort_visible _ _ Hf) by done. cbn [is_moved kept_lines flat_map]. fold (kept_lines fates). rewrite length_app. cbn. lia.
  - rewrite (sort_visible _ _ Hf) by done. cbn [is_moved kept_lines flat_map]. fold (kept_lines fates). cbn. lia.
Qed.

Lemma moved_line d w lines fates : Forall2 (fun raw f => sort1 raw = Ok f) lines fates -> In w (moved_on d fates) ->
  exists raw, In raw lines /\ w = strip raw +:+ nl.
Proof.
  induction 1 as [|raw f lines fates Hf _ IH]; [done|]. cbn [moved_on flat_map]. intros [Hw|Hw]%in_app_or.
  - destruct f as [|k|d' k]; [done..|]. destruct (d =s d'); [|done]. destruct Hw as [<-|[]]. exists raw. split; [by left|by eapply sort_moved].
  - destruct (IH Hw) as (x & Hx & ->). exists x. split; [by right|done].
Qed.

Lemma read_lines l w : file_lines l -> In w l -> read_line w.
Proof. induction 1 as [|x Ht Hx|x l Hx _ IH]; [done|intros [<-|[]]; by right|intros [<-|H]; [by left|auto]]. Qed.

Lemma moved_whole d s fates : fates_of s fates -> List.Forall whole_line (moved_on d fates).
Proof.
  intros HF. apply List.Forall_forall. intros w Hw. destruct (moved_line _ _ _ _ HF Hw) as (raw & Hr & ->).
  apply nl_line, read_strip. by apply (read_lines (_iter_lines s)); [apply iter_lines_ok|].
Qed.

(** Whether a line is among the kept or the moved. *)
Lemma line_placed raw lines fates : Forall2 (fun raw f => sort1 raw = Ok f) lines fates -> In raw lines -> truthy (strip raw) = true ->
  exists w, strip w = strip raw /\ (In w (kept_lines fates) \/ exists d, In w (moved_on d fates)).
Proof.
  intros HF Hin Ht. induction HF as [|x f lines fates Hf _ IH]; [done|]. destruct Hin as [->|Hin].
  - destruct f as [|w|d w]; [by rewrite (sort_skipped _ Hf) in Ht|..]; exists w;
      (split; [by apply (sort_written _ _ w Hf); left|]); [by left; left|].
    right. exists d. cbn. rewrite String.eqb_refl. by left.
  - destruct (IH Hin) as (w & Hs & Hw). exists w. split; [done|]. destruct Hw as [Hw|(d & Hw)].
    + left. apply in_or_app. by right.
    + right. exists d. apply in_or_app. by right.
Qed.

Lemma kept_map l : kept_lines (map Kept l) = l.
Proof. induction l as [|x l IH]; [done|]. cbn. by f_equal. Qed.
Lemma bucket_kept l b : fold_left add_to_bucket (map Kept l) b = b.
Proof. by induction l. Qed.
Lemma moved_kept l : List.filter is_moved (map Kept l) = [].
Proof. by induction l. Qed.

(** The files of a run, line by line: the history is what was kept and the file
    of a day has grown by the lines moved there, both in order; the counts are
    those of all lines that are not blank. *)
Theorem archive_sorts_lines text f f' r : run None text f = (f', Ok r) -> exists fates, fates_of (hot f) fates /\
  _iter_lines (hot f') = kept_lines fates /\
  (exists n m, r = Some (n, m) /\ n + m = Z.of_nat (length (List.filter (fun raw => truthy (strip raw)) (_iter_lines (hot f))))) /\
  forall d, exists more, members_of d (cold f') = members_of d (cold f) ++ more /\ uncut more /\ readable more = concat_lines (moved_on d fates).
Proof.
  intros (fates & HF & -> & ->)%archive_done. exists fates. split; [done|]. cbn [hot cold]. split; [|split].
  - apply iter_concat, (kept_ok (_iter_lines (hot f))); [apply iter_lines_ok|done].
  - eexists _, _. split; [done|]. rewrite <- (counts_lines _ _ HF). lia.
  - intros d. destruct (cold_by_day d (fold_left add_to_bucket fates []) (cold f)) as (more & H1 & H2 & H3); [apply buckets_NoDup; constructor|].
    exists more. by rewrite H3, buckets_by_day.
Qed.

(** The compressed files hold whole members of whole lines. *)
Definition whole_files (c : list (string * list member)) : Prop :=
  forall d, uncut (members_of d c) /\ exists l, List.Forall whole_line l /\ readable (members_of d c) = concat_lines l.

(** A line with this text is in the history or can be read in a compressed file. *)
Definition present (text : string) (f : archive_files) : Prop :=
  exists w, strip w = text /\ (In w (_iter_lines (hot f)) \/ exists d, In w (_iter_lines (readable (members_of d (cold f))))).

(** What was readable stays so when a file grows. *)
Lemma growing_cold c c' d w : whole_files c -> (exists more, members_of d c' = members_of d c ++ more) ->
  In w (_iter_lines (readable (members_of d c))) -> In w (_iter_lines (readable (members_of d c'))).
Proof.
  intros Hc [more ->]. destruct (Hc d) as (Hu & l & Hl & E). rewrite readable_app, E, iter_lines_app by done.
  rewrite iter_concat by (by apply whole_file_lines). intros H. apply in_or_app. by left.
Qed.

Lemma run_grows stop text f f' r d : run stop text f = (f', r) -> exists more, members_of d (cold f') = members_of d (cold f) ++ more.
Proof.
  unfold archive_file. destruct (sorted _) as [fates|e]; [|intros [= <- _]; exists []; by rewrite app_nil_r].
  assert (List.NoDup (map fst (fold_left add_to_bucket fates []))) as Hb by (apply buckets_NoDup; constructor).
  destruct stop as [k|]; intros [= <- _]; cbn [cold].
  - destruct (cut_grows k _ (cold f) d Hb) as (more & H & _). by exists more.
  - destruct (cold_by_day d _ (cold f) Hb) as (more & H & _). by exists more.
Qed.

Lemma run_keeps_line stop f text : whole_files (cold f) -> truthy text = true -> present text f -> present text (fst (run stop "" f)).
Proof.
  intros Hc Ht (w & Hs & Hw). destruct (run stop "" f) as [f' r] eqn:Er. cbn [fst]. destruct Hw as [Hw|[d Hw]].
  2: { exists w. split; [done|]. right. exists d. apply (growing_cold (cold f)); [done| |done]. by apply (run_grows stop "" f f' r). }
  destruct (hot f' =s hot f) eqn:Eh; [apply String.eqb_eq in Eh; exists w; rewrite Eh; split; [done|by left]|].
  assert (stop = None /\ exists r', r = Ok r') as [-> [r' ->]].
  { revert Er. unfold archive_file. destruct (sorted _); [destruct stop; intros [= <- <-]; [|by eauto]|intros [= <- <-]];
      cbn [hot] in Eh; rewrite append_nil_r, String.eqb_refl in Eh; done. }
  destruct (archive_sorts_lines "" f f' r' Er) as (fates & HF & Hh & _ & Hd).
  destruct (line_placed w _ _ HF Hw) as (w' & Hs' & Hw'); [by rewrite Hs|]. exists w'. split; [congruence|].
  destruct Hw' as [Hw'|[d Hw']]; [left; by rewrite Hh|]. right. exists d. destruct (Hd d) as (more & -> & _ & Hm).
  destruct (Hc d) as (Hu & l & Hl & El). rewrite readable_app, El, Hm, iter_lines_app by done. apply in_or_app. right.
  rewrite iter_concat; [done|]. by apply whole_file_lines, (moved_whole d (hot f)).
Qed.
(** A second run with the same cutoff moves nothing and changes nothing. *)
Theorem archive_again f f' n m : run None "" f = (f', Ok (Some (n, m))) -> run None "" f' = (f', Ok (Some (0, m))).
Proof.
  intros Hr. destruct (archive_done _ _ _ _ Hr) as (fates & HF & -> & [= _ Em]). unfold archive_file. cbn [hot cold].
  rewrite iter_concat by (by apply (kept_ok (_iter_lines (hot f))); [apply iter_lines_ok|]).
  rewrite (kept_again _ _ HF), bucket_kept, kept_map. fold is_moved. rewrite moved_kept. by subst m.
Qed.

(** What the service appends while a run has the history open is not in it
    afterwards: a run that ends leaves the same files whatever was appended. *)
Theorem appended_during_run_lost text f f' r : run None text f = (f', Ok r) -> f' = fst (run None "" f).
Proof. unfold archive_file. destruct (sorted _); [|done]. by intros [= <- _]. Qed.
End facts.

(** ** Runs in a row *)

(** One run: its cutoff, and where it ends. *)
Definition archive_run (field : string) (run : Z * option kill) (f : archive_files) : archive_files :=
  fst (archive_file (fst run) field (snd run) "" f).

Definition between_files (run : Z * option kill) : Prop := match snd run with Some k => partial k = None | None => True end.

Lemma bucket_firstn d n : forall b, bucket_of d (firstn n b) = [] \/ bucket_of d (firstn n b) = bucket_of d b.
Proof.
  unfold bucket_of. induction n as [|n IH]; intros [|[k v] b]; cbn [firstn clookup]; auto. destruct (d =s k); auto.
Qed.

(** A run that is not killed within a file leaves whole members of whole lines:
    a killed one has written the same members as one that ends, fewer of them. *)
Lemma run_keeps_whole cutoff field stop f : between_files (cutoff, stop) -> whole_files (cold f) ->
  whole_files (cold (archive_run field (cutoff, stop) f)).
Proof.
  intros Hb Hc d. unfold archive_run, archive_file. cbn [fst snd].
  destruct (sort_lines cutoff field (_iter_lines (hot f))) as [fates|e] eqn:E; [|exact (Hc d)]. apply sorted_spec in E.
  set (buckets := fold_left add_to_bucket fates []).
  assert (List.NoDup (map fst buckets)) as Hn by (apply buckets_NoDup; constructor).
  assert (forall n, uncut (members_of d (fold_left append_cold (firstn n buckets) (cold f))) /\
    exists l, List.Forall whole_line l /\ readable (members_of d (fold_left append_cold (firstn n buckets) (cold f))) = concat_lines l) as H.
  { intros n. destruct (cold_by_day d (firstn n buckets) (cold f)) as (more & -> & Hu & Hr).
    { rewrite <- firstn_map. rewrite <- (firstn_skipn n (map fst buckets)) in Hn. by apply NoDup_app_remove_r in Hn. }
    destruct (Hc d) as (Hu0 & l & Hl & El). split; [by apply List.Forall_app|].
    exists (l ++ bucket_of d (firstn n buckets)). rewrite readable_app, El, Hr, concat_lines_app by done. split; [|done].
    apply List.Forall_app. split; [done|]. destruct (bucket_firstn d n buckets) as [->|[= ->]]; [constructor|].
    unfold buckets. rewrite buckets_by_day. by apply (moved_whole cutoff field d (hot f)). }
  destruct stop as [k|]; cbn [cold].
  - unfold between_files in Hb. cbn in Hb. unfold cut_cold. rewrite Hb. apply H.
  - specialize (H (length buckets)). by rewrite firstn_all in H.
Qed.

(** C29: archiving keeps the lines of a history.  Starting from compressed
    files of whole lines with no member cut short, after any runs, each with its own
    cutoff, that end or are killed between two compressed files, and a last one that
    ends or is killed anywhere, within the writing of a compressed file too, every
    line of the history that is not blank is, up to the blanks around it, still in
    the history or readable in a compressed file.  It is assumed that nothing is
    appended to the history while a run has it open. *)
Theorem archive_loses_nothing field runs last f raw : List.Forall between_files runs -> whole_files (cold f) ->
  In raw (_iter_lines (hot f)) -> truthy (strip raw) = true ->
  present (strip raw) (archive_run field last (fold_left (fun f run => archive_run field run f) runs f)).
Proof.
  intros Hr Hc Hin Ht. assert (present (strip raw) f) as Hp by (exists raw; split; [done|by left]). clear Hin. revert f Hc Hp.
  induction Hr as [|[cutoff stop] runs Hb _ IH]; intros f Hc Hp; cbn [fold_left]; [by apply run_keeps_line|].
  apply IH; [by apply run_keeps_whole|by apply run_keeps_line].
Qed.

(** ** Signals *)

(** The history of signals has no [timestamp] key: its lines stay for ever. *)
Theorem signals_never_archived cutoff float_text_of float_of_int raw d : _normalize_signal float_text_of float_of_int raw = Ok d -> json_wf (JObj d) ->
  sort_line cutoff "timestamp" (dumps (JObj d) +:+ nl) = Ok (Kept (dumps (JObj d) +:+ nl)).
Proof.
  intros Hn Hw. unfold sort_line. rewrite strip_nl, strip_dict. destruct (negb _) eqn:E; [|].
  - exfalso. by destruct d.
  - rewrite loads_dumps by done. unfold _normalize_signal in Hn.
    destruct (upper_of _) as [s|]; [|done]. cbn [rbind] in Hn. by injection Hn as <-.
Qed.

(** ** Witness *)

Definition old_line : string := dumps (JObj [("timestamp", JStr "2024-01-01T00:00:00Z")]).

Definition new_line : string := dumps (JObj [("timestamp", JStr "2024-01-03T00:00:00Z")]).

(** A run killed before its first file, then one that ends. *)
Lemma archive_loses_nothing_witness :
  present old_line (archive_run "timestamp" (1704153600000000, None)
    (fold_left (fun f run => archive_run "timestamp" run f) [(1704153600000000, Some (mkKill 0 None))] (mkArchive (new_line +:+ nl +:+ old_line) []))).
Proof.
  apply (archive_loses_nothing "timestamp" [(1704153600000000, Some (mkKill 0 None))] (1704153600000000, None) (mkArchive (new_line +:+ nl +:+ old_line) []) old_line).
  - repeat constructor.
  - intros d. split; [constructor|]. exists []. split; [constructor|reflexivity].
  - vm_compute. tauto.
  - reflexivity.
Defined.

(** A run killed within a compressed file leaves a member that is cut; the next
    run adds the day's lines behind it and takes them out of the history, so that
    they cannot be read any more. *)
Theorem cut_member_hides_lines :
  let f := archive_run "timestamp" (1704153600000000, Some (mkKill 0 (Some 5%nat))) (mkArchive (old_line +:+ nl) []) in
  hot f = old_line +:+ nl /\
  archive_run "timestamp" (1704153600000000, None) f = mkArchive "" [("20240101", [Cut (take 5 old_line); Whole (old_line +:+ nl)])] /\
  ~ present old_line (archive_run "timestamp" (1704153600000000, None) f).
Proof.
  cbn zeta. split; [vm_compute; reflexivity|]. split; [vm_compute; reflexivity|]. intros (w & Hs & [Hw|[d Hw]]).
  - vm_compute in Hw. done.
  - unfold members_of in Hw. change (cold _) with [("20240101", [Cut (take 5 old_line); Whole (old_line +:+ nl)])] in Hw. cbn [clookup] in Hw.
    destruct (d =s "20240101"); [|done]. vm_compute in Hw. destruct Hw as [<-|[]]. vm_compute in Hs. done.
Qed.
