(* ===== verification/Lifecycle.v ===== *)
(** * Starting and stopping the service

    The handlers FastAPI runs when the service starts
    ([start_background_tasks], [init_mcp_client], [orchestrator_startup], in the
    order they are registered) and when it ends ([close_mcp_client]): the tasks
    of the event loop, the variables that hold them, and the shared clients. *)

From S2P Require Import Prelude PyStr PyTime Json Outbox OutboxStore Policy Tasks WriteBuffer Security TaskExec.
Open Scope Z_scope.

(** ** Tasks of the event loop *)

Inductive worker :=
| MindsdbQueueWorker | MindsdbBootstrap | MemoryBankWorker (idx : Z)
| MemoryWriteWorker (idx : Z) (target exclude_target : option string)
| OutboxGcWorker | LettaAutoPruneWorker | SinkRetentionWorker | PathwayWarmerWorker | RecallMonitorWorker
| HotMemoryRollupWorker | TopicRollupWorker | RebuildTopicRollups | SignalRefreshLoop | OverrideRefreshLoop
| TaskSchedulerWorker | AgentTaskWorker (idx : Z).

Inductive task_phase := Live | Done | Failed (e : exn) | Cancelled.

(** What [task_phase] a worker that ended leaves. *)
Definition phase_of {A} (r : result A) : task_phase :=
  match r with Ok _ => Done | Raise e => if is_cancelled e then Cancelled else Failed e end.

Record loop_task := mkLoopTask { job : worker; phase : task_phase }.

(** The global variables that hold tasks. *)
Inductive slot :=
| mindsdb_queue_task | memory_bank_queue_tasks | memory_write_queue_tasks | mindsdb_write_queue_tasks
| letta_write_queue_tasks | outbox_gc_task | letta_auto_prune_task | sink_retention_task
| retrieval_pathway_warmer_task | recall_monitor_task | hot_memory_rollup_task | topic_rollup_task
| task_scheduler_task | agent_task_worker_tasks.
#[export] Instance slot_eq : EqDecision slot.
Proof. solve_decision. Defined.

Inductive client := MCP_CLIENT | QDRANT_CLIENT | QDRANT_CLOUD_CLIENT | MINDSDB_CLIENT | LETTA_CLIENT | LANGFUSE_CLIENT.
#[export] Instance client_eq : EqDecision client.
Proof. solve_decision. Defined.

(** Tasks are named by their place in the loop, in the order of their creation. *)
Record service := mkService {
  loop : list loop_task; slots : slot -> list nat; clients : client -> bool;
  raw_mongo : bool; task_db_ready : bool; mcp_session : option string; dim_cache : list (string * Z);
  sv_outbox : outbox_store; sv_rollups : rollup_buffer; sv_bank : bank_queue; sv_health : task_health;
  sv_log : list log_line; connection_ends : list string }.

Definition set_loop (x : list loop_task) (s : service) : service :=
  mkService x (slots s) (clients s) (raw_mongo s) (task_db_ready s) (mcp_session s) (dim_cache s) (sv_outbox s) (sv_rollups s)
    (sv_bank s) (sv_health s) (sv_log s) (connection_ends s).
Definition set_slot (k : slot) (ids : list nat) (s : service) : service :=
  mkService (loop s) (fun k' => if decide (k' = k) then ids else slots s k') (clients s) (raw_mongo s) (task_db_ready s)
    (mcp_session s) (dim_cache s) (sv_outbox s) (sv_rollups s) (sv_bank s) (sv_health s) (sv_log s) (connection_ends s).
Definition set_clients (x : client -> bool) (s : service) : service :=
  mkService (loop s) (slots s) x (raw_mongo s) (task_db_ready s) (mcp_session s) (dim_cache s) (sv_outbox s) (sv_rollups s)
    (sv_bank s) (sv_health s) (sv_log s) (connection_ends s).
Definition set_raw_mongo (x : bool) (s : service) : service :=
  mkService (loop s) (slots s) (clients s) x (task_db_ready s) (mcp_session s) (dim_cache s) (sv_outbox s) (sv_rollups s)
    (sv_bank s) (sv_health s) (sv_log s) (connection_ends s).
Definition set_db_ready (x : bool) (s : service) : service :=
  mkService (loop s) (slots s) (clients s) (raw_mongo s) x (mcp_session s) (dim_cache s) (sv_outbox s) (sv_rollups s)
    (sv_bank s) (sv_health s) (sv_log s) (connection_ends s).
Definition forget_sessions (s : service) : service :=
  mkService (loop s) (slots s) (clients s) (raw_mongo s) (task_db_ready s) None [] (sv_outbox s) (sv_rollups s)
    (sv_bank s) (sv_health s) (sv_log s) (connection_ends s).
Definition put_outbox (x : outbox_store) (s : service) : service :=
  mkService (loop s) (slots s) (clients s) (raw_mongo s) (task_db_ready s) (mcp_session s) (dim_cache s) x (sv_rollups s)
    (sv_bank s) (sv_health s) (sv_log s) (connection_ends s).
Definition set_buffers (b : rollup_buffer) (q : bank_queue) (s : service) : service :=
  mkService (loop s) (slots s) (clients s) (raw_mongo s) (task_db_ready s) (mcp_session s) (dim_cache s) (sv_outbox s) b
    q (sv_health s) (sv_log s) (connection_ends s).
Definition put_health (x : task_health) (s : service) : service :=
  mkService (loop s) (slots s) (clients s) (raw_mongo s) (task_db_ready s) (mcp_session s) (dim_cache s) (sv_outbox s) (sv_rollups s)
    (sv_bank s) x (sv_log s) (connection_ends s).
Definition set_log (x : list log_line) (s : service) : service :=
  mkService (loop s) (slots s) (clients s) (raw_mongo s) (task_db_ready s) (mcp_session s) (dim_cache s) (sv_outbox s) (sv_rollups s)
    (sv_bank s) (sv_health s) x (connection_ends s).
Definition end_connection (c : string) (s : service) : service :=
  mkService (loop s) (slots s) (clients s) (raw_mongo s) (task_db_ready s) (mcp_session s) (dim_cache s) (sv_outbox s) (sv_rollups s)
    (sv_bank s) (sv_health s) (sv_log s) (connection_ends s ++ [c]).

Definition run_outbox {A} (m : ST outbox_store A) : ST service A := fun s =>
  let '(o, r) := m (sv_outbox s) in (put_outbox o s, r).

(** [asyncio.create_task(w())] *)
Definition create_task (w : worker) : ST service nat := fun s =>
  (set_loop (loop s ++ [mkLoopTask w Live]) s, Ok (length (loop s))).

(** [if enabled and not <slot>: ...], a task for each of the [jobs]. *)
Definition start_slot (enabled : bool) (k : slot) (jobs : list worker) : ST service unit := fun s =>
  if enabled && match slots s k with [] => true | _ => false end
  then (ids <- st_map create_task jobs ;; st_modify (set_slot k ids)) s
  else (s, Ok tt).

(** [range(n)] *)
Definition zrange (n : Z) : list Z := map Z.of_nat (seq 0 (Z.to_nat n)).

Record life_config := mkLife {
  MONGO_RAW_ENABLED : bool; FANOUT_RUNNING_STALE_SECS : Z; MINDSDB_AUTOSYNC : bool; MINDSDB_AUTOSYNC_BOOTSTRAP : bool;
  MEMORY_BANK_WORKERS : Z; MEMORY_WRITE_WORKERS : Z; MINDSDB_FANOUT_WORKERS : Z; LETTA_FANOUT_WORKERS : Z;
  FANOUT_OUTBOX_GC_ENABLED : bool; LETTA_AUTO_PRUNE_ENABLED : bool; SINK_RETENTION_ENABLED : bool;
  RETRIEVAL_PATHWAY_WARMER_ENABLED : bool; RECALL_MONITOR_ENABLED : bool;
  TOPIC_ROLLUP_ENABLED : bool; TASK_SCHEDULER_ENABLED : bool; TASK_INTERNAL_WORKERS_ENABLED : bool; AGENT_TASK_WORKERS : Z;
  QDRANT_CLUSTER_ENDPOINT : string; LANGFUSE_API_KEY : string }.

Section handlers.
Variables (C : life_config) (S : security_config) (cfg : store_config) (W : write_config) (uuid : nat -> string).
(** The outcomes of the calls outside: connecting to MongoDB, creating the tables,
    whether [qdrant-client] is installed, and closing a client; [outbox_is_raw]:
    the outbox uses the connection of the raw store ([is MONGO_CLIENT]). *)
Variables (mongo_connects db_inits qdrant_installed outbox_is_raw : bool) (close_of : client -> result unit).
Variables (now monotonic : Z).

(** ** Start *)

Definition init_mongo_client : ST service bool := fun s =>
  if negb (MONGO_RAW_ENABLED C) then (s, Ok false)
  else if negb (pymongo_available cfg) then (s, Ok false)
  else if raw_mongo s then (s, Ok true)
  else (set_raw_mongo mongo_connects s, Ok mongo_connects).

Definition start_background_tasks : ST service unit :=
  (if MONGO_RAW_ENABLED C then init_mongo_client ;;; st_ret tt else st_ret tt) ;;;
  (fun s => if _use_mongo_outbox (sv_outbox s)
            then (run_outbox (init_fanout_outbox_mongo_client cfg) ;;; st_ret tt) s else (s, Ok tt)) ;;;
  run_outbox (recover_stale_running_jobs cfg now (FANOUT_RUNNING_STALE_SECS C)) ;;;
  start_slot (MINDSDB_AUTOSYNC C) mindsdb_queue_task [MindsdbQueueWorker] ;;;
  (if MINDSDB_AUTOSYNC C && MINDSDB_AUTOSYNC_BOOTSTRAP C then create_task MindsdbBootstrap ;;; st_ret tt else st_ret tt) ;;;
  start_slot true memory_bank_queue_tasks (map MemoryBankWorker (zrange (Z.max 1 (MEMORY_BANK_WORKERS C)))) ;;;
  start_slot true memory_write_queue_tasks
    (map (fun idx => MemoryWriteWorker idx None (Some FANOUT_TARGET_LETTA)) (zrange (Z.max 1 (MEMORY_WRITE_WORKERS C)))) ;;;
  start_slot true mindsdb_write_queue_tasks
    (map (fun idx => MemoryWriteWorker (2000 + idx) (Some FANOUT_TARGET_MINDSDB) None) (zrange (Z.max 0 (MINDSDB_FANOUT_WORKERS C)))) ;;;
  start_slot true letta_write_queue_tasks
    (map (fun idx => MemoryWriteWorker (1000 + idx) (Some FANOUT_TARGET_LETTA) None) (zrange (Z.max 0 (LETTA_FANOUT_WORKERS C)))) ;;;
  start_slot (FANOUT_OUTBOX_GC_ENABLED C) outbox_gc_task [OutboxGcWorker] ;;;
  start_slot (LETTA_AUTO_PRUNE_ENABLED C) letta_auto_prune_task [LettaAutoPruneWorker] ;;;
  start_slot (SINK_RETENTION_ENABLED C) sink_retention_task [SinkRetentionWorker] ;;;
  start_slot (RETRIEVAL_PATHWAY_WARMER_ENABLED C) retrieval_pathway_warmer_task [PathwayWarmerWorker] ;;;
  start_slot (RECALL_MONITOR_ENABLED C) recall_monitor_task [RecallMonitorWorker] ;;;
  start_slot (HOT_MEMORY_ROLLUP_ENABLED W) hot_memory_rollup_task [HotMemoryRollupWorker] ;;;
  (fun s => let starts := match slots s topic_rollup_task with [] => TOPIC_ROLLUP_ENABLED C | _ => false end in
            (start_slot (TOPIC_ROLLUP_ENABLED C) topic_rollup_task [TopicRollupWorker] ;;;
             if starts then create_task RebuildTopicRollups ;;; st_ret tt else st_ret tt) s).

(** [if CLIENT is None and needed: CLIENT = ...] *)
Definition open_client (c : client) (needed : bool) (available : bool) : ST service unit := fun s =>
  if negb (clients s c) && needed then
    if available then (set_clients (fun c' => if decide (c' = c) then true else clients s c') s, Ok tt)
    else (s, Raise (OtherError "RuntimeError" "qdrant-client dependency is required (install qdrant-client)"))
  else (s, Ok tt).

Definition _ensure_shared_service_clients : ST service unit := fun s =>
  let cloud_needed := truthy (QDRANT_CLUSTER_ENDPOINT C) in
  if clients s QDRANT_CLIENT && clients s MINDSDB_CLIENT && clients s LETTA_CLIENT
     && (negb (truthy (LANGFUSE_API_KEY C)) || clients s LANGFUSE_CLIENT) && (negb cloud_needed || clients s QDRANT_CLOUD_CLIENT)
  then (s, Ok tt)
  else
    (open_client QDRANT_CLIENT true qdrant_installed ;;;
     open_client QDRANT_CLOUD_CLIENT cloud_needed qdrant_installed ;;;
     open_client MINDSDB_CLIENT true true ;;;
     open_client LETTA_CLIENT true true ;;;
     open_client LANGFUSE_CLIENT (truthy (LANGFUSE_API_KEY C)) true) s.

Definition init_mcp_client : ST service unit :=
  open_client MCP_CLIENT true true ;;; _ensure_shared_service_clients.

Definition ensure_task_db : ST service unit := fun s =>
  (if task_db_ready s then s else set_db_ready db_inits s, Ok tt).

Definition orchestrator_startup : ST service unit :=
  (fun s => let '(log, r) := validate_orchestrator_security_posture S (sv_log s) in (set_log log s, r)) ;;;
  create_task SignalRefreshLoop ;;; create_task OverrideRefreshLoop ;;;
  ensure_task_db ;;;
  start_slot (TASK_SCHEDULER_ENABLED C) task_scheduler_task [TaskSchedulerWorker] ;;;
  start_slot (TASK_INTERNAL_WORKERS_ENABLED C && (0 <? AGENT_TASK_WORKERS C)) agent_task_worker_tasks
    (map AgentTaskWorker (zrange (AGENT_TASK_WORKERS C))).

(** The handlers run in the order they are registered; an exception ends the start. *)
Definition startup : ST service unit := start_background_tasks ;;; init_mcp_client ;;; orchestrator_startup.

(** ** Stop *)

(** [task.cancel()]: a live worker passes the cancellation on and ends. *)
Definition cancel (t : loop_task) : loop_task :=
  match phase t with Live => mkLoopTask (job t) Cancelled | _ => t end.
Definition cancel_ids (ids : list nat) (l : list loop_task) : list loop_task := fold_left (fun l i => alter cancel i l) ids l.

(** [with contextlib.suppress(asyncio.CancelledError): await task], one by one. *)
Fixpoint first_failure (ids : list nat) (l : list loop_task) : option exn :=
  match ids with
  | [] => None
  | i :: ids' => match l !! i with
                 | Some (mkLoopTask _ (Failed e)) => Some e
                 | _ => first_failure ids' l
                 end
  end.

Definition stop_slot (k : slot) : ST service unit := fun s =>
  match slots s k with
  | [] => (s, Ok tt)
  | ids =>
      let s1 := set_loop (cancel_ids ids (loop s)) s in
      match first_failure ids (loop s1) with
      | Some e => (s1, Raise e)
      | None => (set_slot k [] s1, Ok tt)
      end
  end.

Definition runtime_stopped (h : task_health) : task_health :=
  mkTaskHealth (claimed h) (succeeded h) (failed_count h) (retried h) 0 false
    (Some (_task_iso_now now)) (lastSchedulerRecovered h) (lastWorkerError h) (schedulerEnabled h) (internalWorkersEnabled h)
    (workersConfigured h).

(** [await CLIENT.aclose(); CLIENT = None] *)
Definition close_client (c : client) : ST service unit := fun s =>
  if clients s c then
    match close_of c with
    | Ok _ => (set_clients (fun c' => if decide (c' = c) then false else clients s c') s, Ok tt)
    | Raise e => (s, Raise e)
    end
  else (s, Ok tt).

(** The connections to MongoDB; an error of [close] is ignored. *)
Definition close_mongo : ST service unit := fun s =>
  let s := if mongo_client (sv_outbox s) && negb (outbox_is_raw && raw_mongo s) then end_connection "outbox" s else s in
  let s := if raw_mongo s then end_connection "raw" s else s in
  (put_outbox (set_client false (connect_script (sv_outbox s)) (sv_outbox s)) (set_raw_mongo false s), Ok tt).

Definition flush_at_end : ST service unit := fun s =>
  if HOT_MEMORY_ROLLUP_ENABLED W then
    let '((b, q), _) := flush_hot_memory_rollups W now monotonic true uuid (sv_rollups s) (sv_bank s) in (set_buffers b q s, Ok tt)
  else (s, Ok tt).

Definition close_mcp_client : ST service unit :=
  stop_slot task_scheduler_task ;;;
  stop_slot agent_task_worker_tasks ;;;
  st_modify (fun s => put_health (runtime_stopped (sv_health s)) s) ;;;
  stop_slot hot_memory_rollup_task ;;;
  stop_slot topic_rollup_task ;;;
  flush_at_end ;;;
  st_for [outbox_gc_task; letta_auto_prune_task; sink_retention_task; retrieval_pathway_warmer_task; recall_monitor_task] stop_slot ;;;
  st_for [MCP_CLIENT; QDRANT_CLIENT; QDRANT_CLOUD_CLIENT; MINDSDB_CLIENT; LETTA_CLIENT; LANGFUSE_CLIENT] close_client ;;;
  st_modify forget_sessions ;;;
  close_mongo.
End handlers.

(** * Proofs about starting and stopping the service

    What runs after a start, which targets of the outbox have a worker, that a
    second start changes nothing, what a stop ends and what it leaves, and that
    a worker that failed keeps a stop from flushing and closing anything. *)

From S2P Require Import OutboxStoreFacts WriteBufferFacts TaskExecFacts.
Open Scope Z_scope.

(** ** Tasks *)

Abbreviation live w := (mkLoopTask w Live).

Lemma create_tasks jobs : forall s,
  st_map create_task jobs s = (set_loop (loop s ++ map (fun w => live w) jobs) s, Ok (seq (length (loop s)) (length jobs))).
Proof.
  induction jobs as [|w jobs IH]; intros s; cbn [st_map].
  - cbn. rewrite app_nil_r. by destruct s.
  - unfold st_bind at 1. cbn [create_task]. unfold st_bind. rewrite IH. cbn [loop set_loop map length seq].
    rewrite length_app, <- app_assoc. cbn. by rewrite Nat.add_1_r.
Qed.

Definition jobs_in (s : service) (k : slot) : list (option loop_task) := map (fun i => loop s !! i) (slots s k).
Definition runs (s : service) (k : slot) (jobs : list worker) : Prop := jobs_in s k = map (fun w => Some (live w)) jobs.

Lemma runs_member s k jobs i : runs s k jobs -> In i (slots s k) -> exists w, In w jobs /\ loop s !! i = Some (live w).
Proof.
  unfold runs, jobs_in. intros H Hi. apply (in_map (fun i => loop s !! i)) in Hi. rewrite H in Hi.
  apply in_map_iff in Hi as (w & Hw & Hin). eauto.
Qed.

Lemma runs_job s k jobs w : runs s k jobs -> In w jobs -> exists i, In i (slots s k) /\ loop s !! i = Some (live w).
Proof.
  unfold runs, jobs_in. intros H Hw. apply (in_map (fun w => Some (live w))) in Hw. rewrite <- H in Hw.
  apply in_map_iff in Hw as (i & Hi & Hin). eauto.
Qed.

Lemma runs_empty s k jobs : runs s k jobs -> (slots s k = [] <-> jobs = []).
Proof. unfold runs, jobs_in. intros H. apply (f_equal length) in H. rewrite !length_map in H. destruct (slots s k), jobs; cbn in H; naive_solver. Qed.

(** What a start has done: the slots of [D] run the expected jobs, the others are
    empty, and no task is in two slots. *)
Record started (expected : slot -> list worker) (D : slot -> Prop) (s : service) : Prop := {
  st_runs k : D k -> runs s k (expected k);
  st_empty k : ~ D k -> slots s k = [];
  st_range k i : In i (slots s k) -> (i < length (loop s))%nat;
  st_apart k k' i : In i (slots s k) -> In i (slots s k') -> k = k' }.

Lemma started_append expected D s l : started expected D s -> started expected D (set_loop (loop s ++ l) s).
Proof.
  intros [H1 H2 H3 H4]. split; cbn [loop slots set_loop]; try done.
  - intros k Hk. specialize (H1 k Hk). unfold runs, jobs_in in *. cbn [loop slots set_loop]. rewrite <- H1.
    apply map_ext_in. intros i Hi. by apply lookup_app_l, (H3 k).
  - intros k i Hi%H3. rewrite length_app. lia.
Qed.

Lemma lookup_new {A} (l' : list A) : forall l, map (fun i => (l ++ l') !! i) (seq (length l) (length l')) = map Some l'.
Proof.
  induction l' as [|x l' IH]; intros l; [done|]. cbn [length seq map]. f_equal; [by apply list_lookup_middle|].
  specialize (IH (l ++ [x])). rewrite <- app_assoc, length_app, Nat.add_1_r in IH. exact IH.
Qed.

Lemma start_slot_spec expected (D : slot -> Prop) (enabled : bool) k jobs : ~ D k -> (if enabled then jobs else []) = expected k ->
  hoare (started expected D) (start_slot enabled k jobs) (fun _ => started expected (fun k' => D k' \/ k' = k)) (fun _ _ => False).
Proof.
  intros Hk He s Hs. unfold start_slot. rewrite (st_empty _ _ _ Hs k Hk), andb_true_r. destruct enabled.
  - unfold st_bind. rewrite create_tasks. cbn [st_modify set_slot set_loop loop slots]. destruct Hs as [H1 H2 H3 H4]. subst jobs.
    split; cbn [loop slots set_slot set_loop]; intros k'; cbv beta.
    + unfold runs, jobs_in. cbn [loop slots set_slot set_loop]. destruct (decide (k' = k)) as [->|Hne]; intros HD.
      * rewrite <- (length_map (fun w => live w) (expected k)), lookup_new. apply List.map_map.
      * destruct HD as [HD|]; [|done]. specialize (H1 k' HD). unfold runs, jobs_in in H1. rewrite <- H1.
        apply map_ext_in. intros i Hi. by apply lookup_app_l, (H3 k').
    + intros HD. destruct (decide (k' = k)) as [->|]; [tauto|]. apply H2. tauto.
    + intros i. rewrite length_app, length_map. destruct (decide (k' = k)); [intros [? ?]%in_seq; lia|intros Hi%H3; lia].
    + intros k'' i. destruct (decide (k' = k)) as [->|], (decide (k'' = k)) as [->|]; [done|..]; rewrite ?in_seq; intros Ha Hb; [|..|by eapply H4].
      * apply H3 in Hb. lia.
      * apply H3 in Ha. lia.
  - destruct Hs as [H1 H2 H3 H4]. split; [|naive_solver..]. intros k' [HD| ->]; [by apply H1|].
    unfold runs, jobs_in. by rewrite H2, <- He.
Qed.

(** Steps that leave the slots alone and at most add tasks. *)
Definition adds_tasks (s s' : service) : Prop := slots s' = slots s /\ exists l, loop s' = loop s ++ l.

Lemma started_adds expected D s s' : adds_tasks s s' -> started expected D s -> started expected D s'.
Proof.
  intros [Hs (l & Hl)] H. apply (started_append _ _ _ l) in H as [H1 H2 H3 H4]. unfold runs, jobs_in in *.
  split; unfold runs, jobs_in; rewrite ?Hs, ?Hl; cbn [loop slots set_loop] in *; eauto.
Qed.

Definition adding {A} (m : ST service A) : Prop := forall s, adds_tasks s (fst (m s)).

Lemma adds_same s s' : slots s' = slots s -> loop s' = loop s -> adds_tasks s s'.
Proof. intros H1 H2. split; [done|]. exists []. by rewrite app_nil_r. Qed.

Lemma adding_bind {A B} (m : ST service A) (k : A -> ST service B) : adding m -> (forall a, adding (k a)) -> adding (st_bind m k).
Proof.
  intros Hm Hk s. specialize (Hm s). unfold st_bind. destruct (m s) as [s1 [a|e]]; [|done]. cbn in Hm.
  destruct Hm as [E1 (l1 & L1)], (Hk a s1) as [E2 (l2 & L2)]. split; [congruence|]. exists (l1 ++ l2). by rewrite L2, L1, app_assoc.
Qed.

Lemma adding_ret {A} (a : A) : adding (st_ret a).
Proof. intros s. by apply adds_same. Qed.
Lemma adding_create w : adding (create_task w).
Proof. intros s. split; [done|]. by exists [live w]. Qed.
Lemma adding_outbox {A} (m : ST outbox_store A) : adding (run_outbox m).
Proof. intros s. unfold run_outbox. destruct (m (sv_outbox s)). by apply adds_same. Qed.

Lemma adding_keeps {A} (m : ST service A) expected D : adding m ->
  hoare (started expected D) m (fun _ => started expected D) (fun _ => started expected D).
Proof. intros Hm s Hs. specialize (Hm s). apply (started_adds expected D) in Hm; [|done]. by destruct (m s) as [s' [a|e]]. Qed.

Create HintDb lifecycle discriminated.
#[local] Hint Resolve adding_ret adding_create adding_outbox : lifecycle.
#[local] Hint Extern 1 (adding (st_bind _ _)) => apply adding_bind; [|intros ?] : lifecycle.
#[local] Hint Extern 1 (adding (if ?b then _ else _)) => destruct b : lifecycle.

Section facts.
Variables (C : life_config) (S : security_config) (cfg : store_config) (W : write_config) (uuid : nat -> string).
Variables (mongo_connects db_inits qdrant_installed outbox_is_raw : bool) (close_of : client -> result unit) (now monotonic : Z).
Abbreviation start := (startup C S cfg W mongo_connects db_inits qdrant_installed now).
Abbreviation stop := (close_mcp_client W uuid outbox_is_raw close_of now monotonic).

Lemma adding_open c needed available : adding (open_client c needed available).
Proof. intros s. unfold open_client. destruct (negb _ && _), available; by apply adds_same. Qed.
Lemma adding_mongo : adding (init_mongo_client C cfg mongo_connects).
Proof. intros s. unfold init_mongo_client. repeat dmatch; by apply adds_same. Qed.
#[local] Hint Resolve adding_open adding_mongo : lifecycle.
Lemma adding_shared : adding (_ensure_shared_service_clients C qdrant_installed).
Proof.
  intros s. unfold _ensure_shared_service_clients. destruct (_ && _); [by apply adds_same|].
  assert (forall m : ST service unit, adding m -> adds_tasks s (fst (m s))) as H by (intros m Hm; apply Hm).
  apply H. auto 20 with lifecycle.
Qed.
Lemma adding_mcp : adding (init_mcp_client C qdrant_installed).
Proof. apply adding_bind; [auto with lifecycle|intros _; apply adding_shared]. Qed.
Lemma adding_posture : adding (fun s => let '(log, r) := validate_orchestrator_security_posture S (sv_log s) in (set_log log s, r)).
Proof. intros s. destruct (validate_orchestrator_security_posture S (sv_log s)). by apply adds_same. Qed.
Lemma adding_db : adding (ensure_task_db db_inits).
Proof. intros s. unfold ensure_task_db. destruct (task_db_ready s); by apply adds_same. Qed.

(** ** Start *)

(** The jobs of each variable. *)
Definition expected_jobs (k : slot) : list worker :=
  let one (b : bool) w := if b then [w] else [] in
  match k with
  | mindsdb_queue_task => one (MINDSDB_AUTOSYNC C) MindsdbQueueWorker
  | memory_bank_queue_tasks => map MemoryBankWorker (zrange (Z.max 1 (MEMORY_BANK_WORKERS C)))
  | memory_write_queue_tasks => map (fun i => MemoryWriteWorker i None (Some FANOUT_TARGET_LETTA)) (zrange (Z.max 1 (MEMORY_WRITE_WORKERS C)))
  | mindsdb_write_queue_tasks => map (fun i => MemoryWriteWorker (2000 + i) (Some FANOUT_TARGET_MINDSDB) None) (zrange (Z.max 0 (MINDSDB_FANOUT_WORKERS C)))
  | letta_write_queue_tasks => map (fun i => MemoryWriteWorker (1000 + i) (Some FANOUT_TARGET_LETTA) None) (zrange (Z.max 0 (LETTA_FANOUT_WORKERS C)))
  | outbox_gc_task => one (FANOUT_OUTBOX_GC_ENABLED C) OutboxGcWorker
  | letta_auto_prune_task => one (LETTA_AUTO_PRUNE_ENABLED C) LettaAutoPruneWorker
  | sink_retention_task => one (SINK_RETENTION_ENABLED C) SinkRetentionWorker
  | retrieval_pathway_warmer_task => one (RETRIEVAL_PATHWAY_WARMER_ENABLED C) PathwayWarmerWorker
  | recall_monitor_task => one (RECALL_MONITOR_ENABLED C) RecallMonitorWorker
  | hot_memory_rollup_task => one (HOT_MEMORY_ROLLUP_ENABLED W) HotMemoryRollupWorker
  | topic_rollup_task => one (TOPIC_ROLLUP_ENABLED C) TopicRollupWorker
  | task_scheduler_task => one (TASK_SCHEDULER_ENABLED C) TaskSchedulerWorker
  | agent_task_worker_tasks => if TASK_INTERNAL_WORKERS_ENABLED C then map AgentTaskWorker (zrange (AGENT_TASK_WORKERS C)) else []
  end.
Abbreviation after D := (started expected_jobs D).

(** A step of a start, whatever it raises. *)
Lemma start_step (D : slot -> Prop) (enabled : bool) k jobs : ~ D k -> (if enabled then jobs else []) = expected_jobs k ->
  hoare (after D) (start_slot enabled k jobs) (fun _ => after (fun k' => D k' \/ k' = k)) (fun _ _ => True).
Proof. intros H1 H2. eapply hoare_conseq; [by apply (start_slot_spec expected_jobs D)|done..]. Qed.

Lemma keep_step {A} (m : ST service A) D : adding m -> hoare (after D) m (fun _ => after D) (fun _ _ => True).
Proof. intros Hm. eapply hoare_conseq; [by apply (adding_keeps m expected_jobs D)|done..]. Qed.

Definition topics_step : ST service unit := fun s =>
  let starts := match slots s topic_rollup_task with [] => TOPIC_ROLLUP_ENABLED C | _ => false end in
  (start_slot (TOPIC_ROLLUP_ENABLED C) topic_rollup_task [TopicRollupWorker] ;;;
   if starts then create_task RebuildTopicRollups ;;; st_ret tt else st_ret tt) s.

Lemma topics_started (D : slot -> Prop) : ~ D topic_rollup_task -> hoare (after D) topics_step (fun _ => after (fun k => D k \/ k = topic_rollup_task)) (fun _ _ => True).
Proof.
  intros HD. assert (forall b : bool, hoare (after D) (start_slot (TOPIC_ROLLUP_ENABLED C) topic_rollup_task [TopicRollupWorker] ;;;
    (if b then create_task RebuildTopicRollups ;;; st_ret tt else st_ret tt)) (fun _ => after (fun k => D k \/ k = topic_rollup_task)) (fun _ _ => True)) as H.
  { intros b. eapply hoare_bind; [by apply start_step|]. intros ?; cbv beta. apply keep_step. auto with lifecycle. }
  intros s Hs. exact (H _ s Hs).
Qed.

Lemma zrange_none n : n <= 0 -> zrange n = [].
Proof. intros Hn. unfold zrange. by replace (Z.to_nat n) with 0%nat by lia. Qed.

Lemma agent_jobs : (if TASK_INTERNAL_WORKERS_ENABLED C && (0 <? AGENT_TASK_WORKERS C) then map AgentTaskWorker (zrange (AGENT_TASK_WORKERS C)) else [])
  = expected_jobs agent_task_worker_tasks.
Proof. cbn. destruct (TASK_INTERNAL_WORKERS_ENABLED C), (0 <? AGENT_TASK_WORKERS C) eqn:E; try done. blift. by rewrite zrange_none. Qed.

Lemma fresh_started s : (forall k, slots s k = []) -> after (fun _ => False) s.
Proof. intros H. split; try done; intros *; rewrite ?H; done. Qed.

Lemma background_started D : (forall k, D k -> False) ->
  hoare (after D) (start_background_tasks C cfg W mongo_connects now)
    (fun _ => after (fun k => k <> task_scheduler_task /\ k <> agent_task_worker_tasks)) (fun _ _ => True).
Proof.
  intros HD. unfold start_background_tasks. fold topics_step.
  eapply hoare_bind; [apply (keep_step _ D); auto with lifecycle|intros ?; cbv beta].
  eapply hoare_bind; [apply (keep_step _ D)|intros ?; cbv beta].
  { intros s. destruct (_use_mongo_outbox (sv_outbox s)); [|by apply adds_same].
    assert (adding (run_outbox (init_fanout_outbox_mongo_client cfg) ;;; st_ret tt)) as H by auto with lifecycle. apply H. }
  eapply hoare_bind; [apply (keep_step _ D), adding_outbox|intros ?; cbv beta].
  eapply hoare_conseq; [|done| |done].
  - repeat (eapply hoare_bind; [first [apply start_step; [naive_solver|reflexivity]|apply keep_step; auto with lifecycle]|intros ?; cbv beta]).
    apply topics_started. naive_solver.
  - intros _ s [H1 H2 H3 H4]. split; [|intros k Hk|done..].
    + intros k [Hk1 Hk2]. apply H1. destruct k; tauto.
    + apply H2. intros H. apply Hk. split; intros ->; naive_solver.
Qed.

Lemma startup_started : hoare (fun s => forall k, slots s k = []) start (fun _ => after (fun _ => True)) (fun _ _ => True).
Proof.
  clear uuid outbox_is_raw close_of monotonic. unfold startup. eapply hoare_bind.
  { eapply hoare_conseq; [by apply (background_started (fun _ => False))|apply fresh_started|done..]. }
  intros ?; cbv beta. eapply hoare_bind; [apply keep_step, adding_mcp|]. intros ?; cbv beta. unfold orchestrator_startup.
  eapply hoare_bind; [apply keep_step, adding_posture|intros ?; cbv beta].
  do 2 (eapply hoare_bind; [apply keep_step; auto with lifecycle|intros ?; cbv beta]).
  eapply hoare_bind; [apply keep_step, adding_db|intros ?; cbv beta].
  eapply hoare_bind; [apply start_step; [naive_solver|reflexivity]|intros ?; cbv beta].
  eapply hoare_conseq; [apply (start_step (fun k => (k <> task_scheduler_task /\ k <> agent_task_worker_tasks) \/ k = task_scheduler_task));
    [naive_solver|apply agent_jobs]|done| |done].
  intros _ s [H1 H2 H3 H4]. split; [|done..]. intros k _. apply H1. destruct (decide (k = task_scheduler_task)), (decide (k = agent_task_worker_tasks)); tauto.
Qed.

Lemma started_service s s' : (forall k, slots s k = []) -> start s = (s', Ok tt) -> after (fun _ => True) s'.
Proof. intros Hs H. pose proof (startup_started s Hs) as Hq. by rewrite H in Hq. Qed.

(** The rows of the outbox a live worker takes. *)
Definition served (s : service) (r : fanout_row Z) : Prop :=
  exists k i idx tgt ex, In i (slots s k) /\ loop s !! i = Some (live (MemoryWriteWorker idx tgt ex)) /\ target_ok tgt ex r = true.

Lemma write_jobs k idx tgt ex : In (MemoryWriteWorker idx tgt ex) (expected_jobs k) ->
  (k = memory_write_queue_tasks /\ tgt = None /\ ex = Some FANOUT_TARGET_LETTA) \/
  (k = mindsdb_write_queue_tasks /\ tgt = Some FANOUT_TARGET_MINDSDB /\ ex = None) \/
  (k = letta_write_queue_tasks /\ tgt = Some FANOUT_TARGET_LETTA /\ ex = None /\ 0 < LETTA_FANOUT_WORKERS C).
Proof.
  destruct k; cbn [expected_jobs]; try (by dmatch; intros []).
  - by intros (i & [=] & _)%in_map_iff.
  - intros (i & [= _ <- <-] & _)%in_map_iff. tauto.
  - intros (i & [= _ <- <-] & _)%in_map_iff. tauto.
  - intros (i & [= _ <- <-] & Hi)%in_map_iff. right. right. split; [done|]. split; [done|]. split; [done|].
    apply in_map_iff in Hi as (n & _ & Hn%in_seq). lia.
  - destruct (TASK_INTERNAL_WORKERS_ENABLED C); [|done]. by intros (i & [=] & _)%in_map_iff.
Qed.

Lemma zrange_some n : 0 < n -> In 0 (zrange n).
Proof. intros Hn. apply in_map_iff. exists 0%nat. split; [done|]. apply in_seq. lia. Qed.

(** C27: every row of the outbox has a worker that takes it, but for the rows of Letta
    when no worker of its own is configured: the others pass them over. *)
Theorem targets_have_workers s s' r : (forall k, slots s k = []) -> start s = (s', Ok tt) ->
  served s' r <-> (target r <> FANOUT_TARGET_LETTA \/ 0 < LETTA_FANOUT_WORKERS C).
Proof.
  intros Hs H%started_service; [|done]. split.
  - intros (k & i & idx & tgt & ex & Hi & Hl & Ht).
    destruct (runs_member s' k _ i (st_runs _ _ _ H k I) Hi) as (w & Hw & E). rewrite Hl in E. injection E as <-.
    apply write_jobs in Hw as [(_ & -> & ->)|[(_ & -> & ->)|(_ & -> & -> & Hn)]]; [left|left|by right]; intros E; unfold target_ok in Ht; by rewrite E in Ht.
  - intros Hr. destruct (target r =s FANOUT_TARGET_LETTA) eqn:E.
    + blift. destruct Hr as [Hr|Hr]; [done|].
      destruct (runs_job s' letta_write_queue_tasks _ (MemoryWriteWorker 1000 (Some FANOUT_TARGET_LETTA) None) (st_runs _ _ _ H _ I)) as (i & Hi & Hl).
      { cbn. apply (in_map (fun i => MemoryWriteWorker (1000 + i) (Some FANOUT_TARGET_LETTA) None) _ 0). apply zrange_some. lia. }
      exists letta_write_queue_tasks, i, 1000, (Some FANOUT_TARGET_LETTA), None. split; [done|]. split; [done|]. unfold target_ok. by rewrite E.
    + destruct (runs_job s' memory_write_queue_tasks _ (MemoryWriteWorker 0 None (Some FANOUT_TARGET_LETTA)) (st_runs _ _ _ H _ I)) as (i & Hi & Hl).
      { cbn. apply (in_map (fun i => MemoryWriteWorker i None (Some FANOUT_TARGET_LETTA)) _ 0). apply zrange_some. lia. }
      exists memory_write_queue_tasks, i, 0, None, (Some FANOUT_TARGET_LETTA). split; [done|]. split; [done|]. unfold target_ok. cbn [opt_str]. by rewrite E.
Qed.

(** ** A second start *)

Definition same_slots (s s' : service) : Prop := forall k, slots s' k = slots s k.

Lemma start_slot_again s0 (enabled : bool) k jobs : (slots s0 k = [] -> (if enabled then jobs else []) = []) ->
  hoare (same_slots s0) (start_slot enabled k jobs) (fun _ => same_slots s0) (fun _ => same_slots s0).
Proof.
  intros H s Hs. unfold start_slot. rewrite (Hs k). destruct (slots s0 k) eqn:E; [|by rewrite andb_false_r].
  rewrite andb_true_r. destruct enabled; [|done]. specialize (H eq_refl). subst jobs.
  cbn. intros k'. cbn. destruct (decide (k' = k)) as [->|]; [done|apply Hs].
Qed.

Lemma adding_again {A} (m : ST service A) s0 : adding m -> hoare (same_slots s0) m (fun _ => same_slots s0) (fun _ => same_slots s0).
Proof.
  intros Hm s Hs. destruct (Hm s) as [E _]. assert (same_slots s0 (fst (m s))) as H by (intros k; by rewrite E).
  by destruct (m s) as [s' [a|e]].
Qed.

Lemma again_step s0 (enabled : bool) k jobs : after (fun _ => True) s0 -> (if enabled then jobs else []) = expected_jobs k ->
  hoare (same_slots s0) (start_slot enabled k jobs) (fun _ => same_slots s0) (fun _ => same_slots s0).
Proof. intros H E. apply start_slot_again. intros Hk. rewrite E. by apply (runs_empty s0 k _ (st_runs _ _ _ H k I)). Qed.

Lemma hoare_bind_same {A B} (P : service -> Prop) (m : ST service A) (k : A -> ST service B) :
  hoare P m (fun _ => P) (fun _ => P) -> (forall a, hoare P (k a) (fun _ => P) (fun _ => P)) -> hoare P (st_bind m k) (fun _ => P) (fun _ => P).
Proof. intros Hm Hk. by eapply hoare_bind. Qed.

Lemma topics_again s0 : after (fun _ => True) s0 -> hoare (same_slots s0) topics_step (fun _ => same_slots s0) (fun _ => same_slots s0).
Proof.
  intros H. assert (forall b : bool, hoare (same_slots s0) (start_slot (TOPIC_ROLLUP_ENABLED C) topic_rollup_task [TopicRollupWorker] ;;;
    (if b then create_task RebuildTopicRollups ;;; st_ret tt else st_ret tt)) (fun _ => same_slots s0) (fun _ => same_slots s0)) as Hb.
  { intros b. apply hoare_bind_same; [by apply again_step|]. intros ?. apply adding_again. auto with lifecycle. }
  intros s Hs. exact (Hb _ s Hs).
Qed.

Lemma startup_again s0 : after (fun _ => True) s0 -> hoare (same_slots s0) start (fun _ => same_slots s0) (fun _ => same_slots s0).
Proof.
  clear uuid outbox_is_raw close_of monotonic. intros H. unfold startup, start_background_tasks, orchestrator_startup. fold topics_step.
  assert (adding (fun s => if _use_mongo_outbox (sv_outbox s) then (run_outbox (init_fanout_outbox_mongo_client cfg) ;;; st_ret tt) s else (s, Ok tt))) as Hm.
  { intros s. destruct (_use_mongo_outbox (sv_outbox s)); [|by apply adds_same].
    assert (adding (run_outbox (init_fanout_outbox_mongo_client cfg) ;;; st_ret tt)) as Hm by auto with lifecycle. apply Hm. }
  pose proof adding_shared. pose proof adding_posture. pose proof adding_db. pose proof (topics_again s0 H). pose proof agent_jobs.
  repeat (apply hoare_bind_same; [|intros ?]);
    first [done|by apply again_step|apply adding_again; by auto with lifecycle].
Qed.

(** A second start leaves every variable as the first left it: no worker runs
    twice. *)
Theorem second_start_keeps_workers s s1 s2 r : (forall k, slots s k = []) -> start s = (s1, Ok tt) -> start s1 = (s2, r) ->
  forall k, slots s2 k = slots s1 k.
Proof.
  intros Hs H1 H2. pose proof (startup_again s1 (started_service s s1 Hs H1) s1 (fun _ => eq_refl)) as H. rewrite H2 in H. by destruct r.
Qed.

(** ** Stop *)

Definition is_failed (t : loop_task) : bool := match phase t with Failed _ => true | _ => false end.

Lemma cancel_ids_app a b l : cancel_ids (a ++ b) l = cancel_ids b (cancel_ids a l).
Proof. apply fold_left_app. Qed.

Lemma cancel_ids_lookup ids : forall l i, cancel_ids ids l !! i = (fun t => if bool_decide (i ∈ ids) then cancel t else t) <$> l !! i.
Proof.
  induction ids as [|j ids IH]; intros l i; cbn [cancel_ids fold_left].
  - destruct (l !! i) as [t|]; [|done]. cbn. by rewrite bool_decide_eq_false_2 by apply not_elem_of_nil.
  - fold (cancel_ids ids (alter cancel j l)). rewrite IH. destruct (decide (i = j)) as [->|Hne].
    + rewrite list_lookup_alter_eq. destruct (l !! j) as [t|]; [|done]. cbn.
      rewrite (bool_decide_eq_true_2 (j ∈ j :: ids)) by constructor. f_equal. case_bool_decide; [|done].
      unfold cancel. by destruct t as [w []].
    + rewrite list_lookup_alter_ne by done. destruct (l !! i) as [t|]; [|done]. cbn. f_equal.
      erewrite (bool_decide_ext (i ∈ j :: ids) (i ∈ ids)); [done|]. set_solver.
Qed.

Lemma failure_cancelled ids ids' l : first_failure ids (cancel_ids ids' l) = first_failure ids l.
Proof.
  induction ids as [|i ids IH]; [done|]. cbn [first_failure]. rewrite IH, cancel_ids_lookup. destruct (l !! i) as [t|]; [|done]. cbn.
  case_bool_decide; [|done]. destruct t as [w []]; done.
Qed.

(** The variables a stop empties, in its order. *)
Definition stopped_slots : list slot :=
  [task_scheduler_task; agent_task_worker_tasks; hot_memory_rollup_task; topic_rollup_task; outbox_gc_task; letta_auto_prune_task;
   sink_retention_task; retrieval_pathway_warmer_task; recall_monitor_task].

(** What a stop has done to the tasks of [s0]. *)
Record stopping (s0 : service) (done_ : list slot) (b : rollup_buffer) (q : bank_queue) (s : service) : Prop := {
  sp_slots k : slots s k = if bool_decide (k ∈ done_) then [] else slots s0 k;
  sp_loop : loop s = cancel_ids (flat_map (slots s0) done_) (loop s0);
  sp_clients : clients s = clients s0;
  sp_rollups : sv_rollups s = b; sp_bank : sv_bank s = q }.

Lemma stop_slot_spec s0 done_ b q k : k ∉ done_ -> first_failure (slots s0 k) (loop s0) = None ->
  hoare (stopping s0 done_ b q) (stop_slot k) (fun _ => stopping s0 (done_ ++ [k]) b q) (fun _ _ => False).
Proof.
  intros Hk Hf s [H1 H2 H3 H4 H5]. unfold stop_slot. rewrite (H1 k), bool_decide_eq_false_2 by done.
  assert (forall l : list nat, l = slots s0 k -> forall k', (if bool_decide (k' ∈ done_ ++ [k]) then [] else slots s0 k')
    = if decide (k' = k) then [] else if bool_decide (k' ∈ done_) then [] else slots s0 k') as Hd.
  { intros _ _ k'. repeat case_bool_decide; destruct (decide (k' = k)); try done; set_solver. }
  assert (flat_map (slots s0) (done_ ++ [k]) = flat_map (slots s0) done_ ++ slots s0 k) as Hm by (rewrite flat_map_app; cbn; by rewrite app_nil_r).
  destruct (slots s0 k) as [|i ids] eqn:E.
  - split; try done.
    + intros k'. rewrite (Hd [] eq_refl), (H1 k'). destruct (decide (k' = k)) as [->|]; [|done]. case_bool_decide; done.
    + by rewrite Hm, app_nil_r.
  - cbn [loop set_loop]. rewrite H2, !failure_cancelled, Hf. split; cbn [slots loop clients sv_rollups sv_bank set_slot set_loop]; try done.
    + intros k'. rewrite (Hd _ eq_refl). destruct (decide (k' = k)); [done|]. apply H1.
    + by rewrite Hm, cancel_ids_app.
Qed.

Definition no_failures (s : service) : Prop := forall k, In k stopped_slots -> first_failure (slots s k) (loop s) = None.
Definition closes_all : Prop := forall c, exists u, close_of c = Ok u.

(** The buffers after the flush of a stop. *)
Definition flushed_buffers (s : service) : rollup_buffer * bank_queue :=
  if HOT_MEMORY_ROLLUP_ENABLED W then fst (flush_hot_memory_rollups W now monotonic true uuid (sv_rollups s) (sv_bank s))
  else (sv_rollups s, sv_bank s).

Lemma flush_spec s0 done_ : hoare (stopping s0 done_ (sv_rollups s0) (sv_bank s0)) (flush_at_end W uuid now monotonic)
  (fun _ => stopping s0 done_ (fst (flushed_buffers s0)) (snd (flushed_buffers s0))) (fun _ _ => False).
Proof.
  intros s [H1 H2 H3 H4 H5]. unfold flush_at_end, flushed_buffers. rewrite H4, H5. destruct (HOT_MEMORY_ROLLUP_ENABLED W); [|by split].
  by destruct (flush_hot_memory_rollups _ _ _ _ _ _ _) as [[b q] rep].
Qed.

(** The tasks, the variables and the buffers of a service that is closing. *)
Definition kept_by (s1 s : service) : Prop :=
  slots s = slots s1 /\ loop s = loop s1 /\ sv_rollups s = sv_rollups s1 /\ sv_bank s = sv_bank s1.

Lemma close_client_spec s1 (closed : client -> Prop) c : closes_all ->
  hoare (fun s => kept_by s1 s /\ forall c', closed c' -> clients s c' = false) (close_client close_of c)
    (fun _ s => kept_by s1 s /\ forall c', closed c' \/ c' = c -> clients s c' = false) (fun _ _ => False).
Proof.
  intros Hc s [Hk Hs]. unfold close_client. destruct (clients s c) eqn:E.
  - destruct (Hc c) as [u ->]. split; [done|]. cbn. intros c' H. destruct (decide (c' = c)); [done|]. apply Hs. tauto.
  - split; [done|]. intros c' [H| ->]; auto.
Qed.

Lemma close_clients_spec s1 : closes_all -> hoare (kept_by s1)
  (st_for [MCP_CLIENT; QDRANT_CLIENT; QDRANT_CLOUD_CLIENT; MINDSDB_CLIENT; LETTA_CLIENT; LANGFUSE_CLIENT] (close_client close_of))
  (fun _ s => kept_by s1 s /\ forall c, clients s c = false) (fun _ _ => False).
Proof.
  intros Hc. eapply hoare_conseq.
  - apply (hoare_for (fun D s => kept_by s1 s /\ forall c, D c -> clients s c = false) (fun c c' => c' = c) _ _ _ ltac:(naive_solver)
      (fun c D _ => close_client_spec s1 D c Hc) (fun _ => False)).
  - intros s H. by split.
  - intros _ s [H1 H2]. split; [done|]. intros c. apply H2. right. exists c. split; [|done]. destruct c; cbn; tauto.
  - done.
Qed.

Lemma stop_slots_spec s0 ks b q : forall done_, NoDup (done_ ++ ks) -> (forall k, k ∈ ks -> first_failure (slots s0 k) (loop s0) = None) ->
  hoare (stopping s0 done_ b q) (st_for ks stop_slot) (fun _ => stopping s0 (done_ ++ ks) b q) (fun _ _ => False).
Proof.
  induction ks as [|k ks IH]; intros done_ Hn Hf; cbn [st_for].
  - rewrite app_nil_r. by apply hoare_ret.
  - eapply hoare_bind.
    + apply stop_slot_spec; [|apply Hf; by left]. apply NoDup_app in Hn as (_ & Hn & _). intros Hk. apply (Hn k Hk). by left.
    + intros ?. cbv beta. replace (done_ ++ k :: ks) with ((done_ ++ [k]) ++ ks) in * by (by rewrite <- app_assoc).
      apply IH; [done|]. intros k' Hk'. apply Hf. by right.
Qed.

(** What a stop that ends well leaves. *)
Record ended (s0 s : service) : Prop := {
  en_slots k : slots s k = if bool_decide (k ∈ stopped_slots) then [] else slots s0 k;
  en_loop : loop s = cancel_ids (flat_map (slots s0) stopped_slots) (loop s0);
  en_clients c : clients s c = false;
  en_rollups : sv_rollups s = fst (flushed_buffers s0); en_bank : sv_bank s = snd (flushed_buffers s0) }.

Lemma stop_spec s0 : no_failures s0 -> closes_all -> hoare (eq s0) stop (fun _ => ended s0) (fun _ _ => False).
Proof.
  intros Hf Hc. unfold close_mcp_client.
  assert (forall k, k ∈ stopped_slots -> first_failure (slots s0 k) (loop s0) = None) as Hf' by (intros k Hk; by apply Hf, list_elem_of_In).
  eapply hoare_bind.
  { eapply hoare_conseq; [apply (stop_slot_spec s0 [] (sv_rollups s0) (sv_bank s0)); [set_solver|apply Hf; cbn; tauto]| |done..].
    intros s <-. by split. }
  intros ?; cbv beta. eapply hoare_bind; [apply stop_slot_spec; [set_solver|apply Hf; cbn; tauto]|intros ?; cbv beta].
  eapply hoare_bind; [apply (hoare_modify _ _ (fun _ => stopping s0 [task_scheduler_task; agent_task_worker_tasks] (sv_rollups s0) (sv_bank s0))); intros s []; by split|].
  intros ?; cbv beta. do 2 (eapply hoare_bind; [apply stop_slot_spec; [set_solver|apply Hf; cbn; tauto]|intros ?; cbv beta]).
  eapply hoare_bind; [apply flush_spec|intros ?; cbv beta].
  eapply hoare_bind; [apply stop_slots_spec; [cbn; repeat constructor; set_solver|intros k Hk; apply Hf'; unfold stopped_slots; set_solver]|intros ?; cbv beta].
  intros s1 [H1 H2 H3 H4 H5]. unfold st_bind at 1.
  pose proof (close_clients_spec s1 Hc s1 ltac:(done)) as Hcl. destruct (st_for _ (close_client close_of) s1) as [s2 [u|e]]; [|done].
  destruct Hcl as [(K1 & K2 & K3 & K4) Kc]. cbn. unfold close_mongo. repeat case_match; split; cbn; intros; rewrite ?K1, ?K2, ?K3, ?K4; auto.
Qed.

(** The workers of the write queues. *)
Definition write_slot (k : slot) : bool :=
  match k with
  | mindsdb_queue_task | memory_bank_queue_tasks | memory_write_queue_tasks | mindsdb_write_queue_tasks | letta_write_queue_tasks => true
  | _ => false
  end.

Lemma stopped_not_write k : In k stopped_slots <-> write_slot k = false.
Proof. rewrite <- list_elem_of_In. unfold stopped_slots. destruct k; cbn; split; intros; try done; set_solver. Qed.

(** C28: a stop, when no client fails to close and no task it awaits has failed,
    ends every background loop and every task worker it holds and forgets them,
    closes the clients and flushes the buffered rollups.  The workers of the five
    write queues are not among them: they keep their variables, and every task
    that only these hold is as it was before. *)
Theorem stop_ends_workers s : no_failures s -> closes_all -> exists s', stop s = (s', Ok tt) /\
  (forall k, if write_slot k then slots s' k = slots s k
             else slots s' k = [] /\ forall i t, In i (slots s k) -> loop s' !! i = Some t -> phase t <> Live) /\
  (forall i, (forall k, In i (slots s k) -> write_slot k = true) -> loop s' !! i = loop s !! i) /\
  (forall c, clients s' c = false) /\ (sv_rollups s', sv_bank s') = flushed_buffers s.
Proof.
  intros Hf Hc. pose proof (stop_spec s Hf Hc s eq_refl) as H. destruct (stop s) as [s' [[]|e]]; [|done]. destruct H as [H1 H2 H3 H4 H5].
  exists s'. split; [done|]. split; [|split; [|split; [done|]]].
  - intros k. destruct (write_slot k) eqn:Ek.
    + rewrite H1, bool_decide_eq_false_2; [done|]. intros Hk%list_elem_of_In%stopped_not_write. congruence.
    + apply stopped_not_write in Ek. split; [by rewrite H1, bool_decide_eq_true_2 by by apply list_elem_of_In|].
      intros i t Hi. rewrite H2, cancel_ids_lookup, bool_decide_eq_true_2 by (apply list_elem_of_In, in_flat_map; eauto).
      destruct (loop s !! i) as [t0|]; [|done]. cbn. intros [= <-]. by destruct t0 as [w []].
  - intros i Hi. rewrite H2, cancel_ids_lookup, bool_decide_eq_false_2; [by destruct (loop s !! i)|].
    intros (k & Hk%stopped_not_write & Hin)%list_elem_of_In%in_flat_map. apply Hi in Hin. congruence.
  - rewrite H4, H5. by destruct (flushed_buffers s).
Qed.

(** ** Defects *)

Lemma bank_grows s : exists items, memory_bank_queue (snd (flushed_buffers s)) = memory_bank_queue (sv_bank s) ++ items.
Proof.
  unfold flushed_buffers. destruct (HOT_MEMORY_ROLLUP_ENABLED W); [|exists []; by rewrite app_nil_r]. unfold flush_hot_memory_rollups.
  set (entries := hot_memory_rollup_entries (sv_rollups s)). set (pending := List.filter _ entries). set (entries1 := map _ entries).
  pose proof (flush_pending_spec W now uuid pending 0 entries1 (sv_bank s)) as Hf.
  destruct (flush_pending W now uuid 0 pending (entries1, sv_bank s)) as [[entries2 q2] [fl failures]].
  destruct Hf as (_ & _ & items & Q2 & _); [|by exists items].
  intros kv [Hin _]%filter_In. unfold entries1. rewrite List.map_map. apply in_map_iff. exists kv. split; [|done]. by destruct (is_due _ _ _ _).
Qed.

(** A stop leaves the workers of the write queues running, though the clients
    they use are closed; and the rollups it flushes are only queued for the
    memory bank: nothing waits for that queue. *)
Theorem stop_strands_writes s s1 s2 r : (forall k, slots s k = []) -> start s = (s1, Ok tt) -> closes_all -> no_failures s1 ->
  stop s1 = (s2, Ok tt) ->
  (served s1 r -> served s2 r) /\ exists items, memory_bank_queue (sv_bank s2) = memory_bank_queue (sv_bank s1) ++ items.
Proof.
  intros Hs H%started_service Hc Hf H2; [|done]. pose proof (stop_spec s1 Hf Hc s1 eq_refl) as He. rewrite H2 in He. destruct He as [E1 E2 _ _ E5].
  split; [|rewrite E5; apply bank_grows].
  intros (k & i & idx & tgt & ex & Hi & Hl & Ht). exists k, i, idx, tgt, ex.
  destruct (runs_member s1 k _ i (st_runs _ _ _ H k I) Hi) as (w & Hw & E). rewrite Hl in E. injection E as <-.
  assert (k ∉ stopped_slots) as Hk by (apply write_jobs in Hw as [[-> _]|[[-> _]|[-> _]]]; unfold stopped_slots; set_solver).
  rewrite (E1 k), bool_decide_eq_false_2 by done. split; [done|]. split; [|done]. rewrite E2, cancel_ids_lookup, Hl, bool_decide_eq_false_2; [done|].
  intros (k' & Hk' & Hi')%list_elem_of_In%in_flat_map. apply Hk, list_elem_of_In. by rewrite (st_apart _ _ _ H k k' i Hi Hi').
Qed.

(** A worker of the task queue that failed ends the stop: awaiting it raises its
    exception again, before the rollups are flushed and any client is closed. *)
Theorem failed_worker_blocks_stop s e : first_failure (slots s task_scheduler_task) (loop s) = None ->
  first_failure (slots s agent_task_worker_tasks) (loop s) = Some e ->
  exists s', stop s = (s', Raise e) /\ sv_rollups s' = sv_rollups s /\ sv_bank s' = sv_bank s /\ clients s' = clients s /\
    slots s' hot_memory_rollup_task = slots s hot_memory_rollup_task.
Proof.
  intros H1 H2. pose proof (stop_slot_spec s [] (sv_rollups s) (sv_bank s) task_scheduler_task ltac:(set_solver) H1 s) as H.
  unfold close_mcp_client, st_bind at 1. destruct (stop_slot task_scheduler_task s) as [s1 [[]|x]].
  2: { exfalso. apply H. by split. }
  destruct H as [E1 E2 E3 E4 E5]; [by split|]. unfold st_bind at 1, stop_slot at 1. rewrite (E1 agent_task_worker_tasks).
  rewrite bool_decide_eq_false_2 by set_solver. destruct (slots s agent_task_worker_tasks) as [|i ids] eqn:E; [done|].
  cbn [loop set_loop]. rewrite E2, !failure_cancelled, H2. eexists. split; [reflexivity|]. cbn. rewrite E1.
  by rewrite bool_decide_eq_false_2 by set_solver.
Qed.

(** A start that the security check refuses has started the workers of the
    outbox before: the check is in the handler that is registered last. *)
Theorem refused_start_leaves_workers s s1 s2 log e r : (forall k, slots s k = []) ->
  start_background_tasks C cfg W mongo_connects now s = (s1, Ok tt) -> init_mcp_client C qdrant_installed s1 = (s2, Ok tt) ->
  validate_orchestrator_security_posture S (sv_log s2) = (log, Raise e) -> target r <> FANOUT_TARGET_LETTA ->
  exists s', start s = (s', Raise e) /\ served s' r.
Proof.
  intros Hs H1 H2 H3 Hr. pose proof (background_started (fun _ => False) ltac:(done) s (fresh_started s Hs)) as H. rewrite H1 in H.
  pose proof (adding_mcp s1) as Ha. rewrite H2 in Ha. apply (started_adds _ _ _ _ Ha) in H.
  exists (set_log log s2). split; [unfold startup, orchestrator_startup, st_bind; by rewrite H1, H2, H3|].
  destruct (runs_job s2 memory_write_queue_tasks _ (MemoryWriteWorker 0 None (Some FANOUT_TARGET_LETTA)) (st_runs _ _ _ H memory_write_queue_tasks ltac:(done))) as (i & Hi & Hl).
  { cbn. apply (in_map (fun i => MemoryWriteWorker i None (Some FANOUT_TARGET_LETTA)) _ 0). apply zrange_some. lia. }
  exists memory_write_queue_tasks, i, 0, None, (Some FANOUT_TARGET_LETTA). split; [done|]. split; [done|]. unfold target_ok. cbn [opt_str].
  by apply String.eqb_neq in Hr as ->.
Qed.
End facts.

(** ** Witnesses *)

(** The settings of [.env.example], with two agent workers. *)
Definition demo_life (letta_workers : Z) : life_config :=
  mkLife true 900 true true 1 4 1 letta_workers true true true true true true true true 2 "" "".
Definition demo_security : security_config := config_of_env (fun _ => None) (Finite (QArith_base.Qmake 1 10)) (QArith_base.Qmake 1500 1).
Definition idle_service : service :=
  mkService [] (fun _ => []) (fun _ => false) false false None [] (empty_store BSqlite [] [] []) empty_rollups (mkBank [] 0) idle_health [] [].
Definition demo_start (letta_workers : Z) : service * result unit :=
  startup (demo_life letta_workers) demo_security default_store_config default_write_config true true true 1700000000000001 idle_service.
Definition row_of (tgt : string) : fanout_row Z :=
  mkRow 1 "e1" tgt "p" "f" "s" JNull "t" JNull Pending 0 5 "" None None None "" "" "d".

Lemma targets_have_workers_witness :
  served (fst (demo_start 1)) (row_of "letta") /\ ~ served (fst (demo_start 0)) (row_of "letta").
Proof.
  split.
  - apply (targets_have_workers (demo_life 1) demo_security default_store_config default_write_config true true true 1700000000000001
      idle_service (fst (demo_start 1)) (row_of "letta") (fun _ => eq_refl)); [vm_compute; reflexivity|right; reflexivity].
  - intros H. apply (targets_have_workers (demo_life 0) demo_security default_store_config default_write_config true true true 1700000000000001
      idle_service (fst (demo_start 0)) (row_of "letta") (fun _ => eq_refl)) in H; [|vm_compute; reflexivity].
    destruct H as [H|H]; [by apply H|done].
Defined.

Definition demo_stop (s : service) : service * result unit :=
  close_mcp_client default_write_config (fun _ => "u") true (fun _ => Ok tt) 1700000001000001 5000000 s.

Lemma stop_ends_workers_witness : exists s', demo_stop (fst (demo_start 1)) = (s', Ok tt) /\
  slots s' agent_task_worker_tasks = [] /\ slots s' letta_write_queue_tasks = slots (fst (demo_start 1)) letta_write_queue_tasks /\ clients s' MCP_CLIENT = false.
Proof.
  destruct (stop_ends_workers default_write_config (fun _ => "u") true (fun _ => Ok tt) 1700000001000001 5000000 (fst (demo_start 1)))
    as (s' & H & Hs & _ & Hc & _).
  - intros k Hk. repeat (destruct Hk as [<-|Hk]; [vm_compute; reflexivity|]). destruct Hk.
  - intros c. exists tt. reflexivity.
  - exists s'. split; [exact H|]. split; [apply (Hs agent_task_worker_tasks)|]. split; [apply (Hs letta_write_queue_tasks)|apply Hc].
Defined.

(** The two defects together: an agent worker ended by a retry that failed, then
    a stop. *)
Definition after_failed_retry : service :=
  let s := fst (demo_start 1) in
  let r := snd (run_worker 5 (demo_runtime [NoFault; NoFault; FailBefore (OperationalError "disk is full")])) in
  match slots s agent_task_worker_tasks with
  | i :: _ => set_loop (alter (fun t => mkLoopTask (job t) (phase_of r)) i (loop s)) s
  | [] => s
  end.

Lemma failed_worker_blocks_stop_witness :
  exists s', demo_stop after_failed_retry = (s', Raise (OperationalError "disk is full")) /\ clients s' MCP_CLIENT = true.
Proof.
  destruct (failed_worker_blocks_stop default_write_config (fun _ => "u") true (fun _ => Ok tt) 1700000001000001 5000000 after_failed_retry
    (OperationalError "disk is full")) as (s' & H & _ & _ & Hc & _); [vm_compute; reflexivity..|].
  exists s'. split; [exact H|]. rewrite Hc. vm_compute. reflexivity.
Defined.
