(* ===== verification/VersionAudit.v ===== *)
(** * The script that audits image versions

    [scripts/service_version_audit.py]: the images of compose files, the latest
    stable tag of each in its registry, and patching the pinned tags.  A registry
    is a function from a page of a repository to the payload of that page or the
    exception of the request.  Texts are as [read_text] answers them, with LF as
    the only end of a line among CR and LF. *)

From S2P Require Import Prelude PyStr Json JsonText Regex Mcp SourcePolicy OutboxMaint WriteBuffer.
From Stdlib Require Import Ascii.
Open Scope Z_scope.

(** ** Patterns *)

Definition chr (c : ascii) : re := Cls (Ascii.eqb c).
Fixpoint lit_re (s : string) : re := match s with EmptyString => Eps | String c s' => Seq (chr c) (lit_re s') end.
Definition spaces_re : re := Rep is_space 0 None.
Definition number_re : re := Rep is_digit 1 None.
Definition is_quote (c : ascii) : bool := Ascii.eqb c (ascii_of_N 34) || Ascii.eqb c (ascii_of_N 39).
Definition quote_opt : re := Rep is_quote 0 (Some 1%nat).
Definition no_quotes : re := Rep (fun c => negb (is_quote c)) 1 None.
Definition dotted : re := Alt (Seq (chr ".") number_re) Eps.
Definition v_opt : re := Rep (Ascii.eqb "v") 0 (Some 1%nat).

(** [pattern.fullmatch(s)] of a pattern without groups *)
Definition fullmatch (r : re) (s : string) : bool :=
  match run r (None, s) (fun q => if truthy (snd q) then None else Some tt) with Some _ => true | None => false end.

(** [$]: the end, or a line end that is last *)
Definition at_end (q : pos) : bool := negb (truthy (snd q)) || (snd q =s nl).

Definition STABLE_SEMVER_RE : re :=
  Seq v_opt (Seq number_re (Seq (chr ".") (Seq number_re (Seq (chr ".") (Seq number_re dotted))))).

(** A group [(?:\.(\d+))?]: its digits, the empty text for no match. *)
Definition opt_group {R} (q : pos) (k : pos -> string -> option R) : option R :=
  run dotted q (fun q' => k q' (drop 1 (between q q'))).

(** [VERSION_PART_RE.fullmatch(tag)] with its groups *)
Definition VERSION_PART_RE (tag : string) : option (list string) :=
  run v_opt (None, tag) (fun q1 => run number_re q1 (fun q2 =>
    opt_group q2 (fun q3 g2 => opt_group q3 (fun q4 g3 => opt_group q4 (fun q5 g4 =>
      run (Alt (Seq (Cls (fun c => Ascii.eqb c "-" || Ascii.eqb c "+")) (Rep (fun c => negb (Ascii.eqb c (ascii_of_N 10))) 0 None)) Eps) q5
        (fun q6 => if truthy (snd q6) then None else Some [between q1 q2; g2; g3; g4])))))).

Definition services_re : re := Seq spaces_re (Seq (lit_re "services:") spaces_re).
Definition is_service_char (c : ascii) : bool :=
  is_alnum c || Ascii.eqb c "_" || Ascii.eqb c "." || Ascii.eqb c "-".

(** [^  ([A-Za-z0-9_.-]+):\s*$] *)
Definition service_match (line : string) : option string :=
  run (lit_re "  ") (None, line) (fun q1 => run (Rep is_service_char 1 None) q1 (fun q2 =>
    run (Seq (chr ":") spaces_re) q2 (fun q3 => if at_end q3 then Some (between q1 q2) else None))).

(** The line of an image: its start with an opening quote, the reference and its
    end with a closing quote. *)
Definition image_match (line : string) : option (string * string * string) :=
  let q0 : pos := (None, line) in
  run (Seq spaces_re (Seq (lit_re "image:") (Seq spaces_re quote_opt))) q0 (fun q1 => run no_quotes q1 (fun q2 =>
    run (Seq quote_opt spaces_re) q2 (fun q3 => if at_end q3 then Some (between q0 q1, between q1 q2, between q2 q3) else None))).

(** ** Image references *)

Definition is_registry_host (component : string) : bool :=
  has_char "." component || has_char ":" component || (component =s "localhost").

(** [s.rsplit(c, 1)] of a text with that character *)
Definition rsplit1 (c : ascii) (s : string) : string * string :=
  let parts := split c s in (join (String c "") (removelast parts), List.last parts "").

Definition split_image_ref (image_ref : string) : string * string :=
  let ref := strip image_ref in
  let ref := if has_char "@" ref then hd "" (split "@" ref) else ref in
  if has_char ":" ref && has_char "/" ref && negb (has_char "/" (snd (rsplit1 ":" ref))) then rsplit1 ":" ref
  else if has_char ":" ref && negb (has_char "/" ref) then rsplit1 ":" ref
  else (ref, "latest").

Definition classify_tag_mode (tag : string) : string :=
  if lower tag =s "latest" then "floating-latest"
  else if fullmatch STABLE_SEMVER_RE tag then "pinned-semver"
  else "floating-channel".

Definition version := list Z.

Definition parse_version_tuple (tag : string) : option version :=
  match VERSION_PART_RE tag with
  | None => None
  | Some groups => Some (map (fun g => match int_of_digits 0 g with Some n => n | None => 0 end) (List.filter truthy groups))
  end.

Definition normalize_image_name (image_name : string) : string :=
  if startswith image_name "docker.io/" then image_name
  else if is_registry_host (hd "" (split "/" image_name)) then image_name
  else if has_char "/" image_name then "docker.io/" +:+ image_name
  else "docker.io/library/" +:+ image_name.

Definition SOURCE_OVERRIDES : list (string * (string * string)) := [("ghcr.io/tbxark/mcp-proxy", ("github_releases", "TBXark/mcp-proxy"))].
Definition UNSUPPORTED_REGISTRIES : list string := ["cgr.dev/"; "ghcr.io/promptfoo/"].

Definition resolve_source (image_name : string) : string * option string :=
  let normalized := normalize_image_name image_name in
  match clookup normalized SOURCE_OVERRIDES with
  | Some (kind, ref) => (kind, Some ref)
  | None =>
      if existsb (startswith normalized) UNSUPPORTED_REGISTRIES then ("unsupported", None)
      else if startswith normalized "docker.io/" then ("dockerhub", Some (drop 10 normalized))
      else ("unsupported", None)
  end.

(** ** Registries *)

(** [a < b] on tuples of integers *)
Fixpoint tuple_ltb (a b : version) : bool :=
  match a, b with
  | _, [] => false
  | [], _ :: _ => true
  | x :: a', y :: b' => (x <? y) || ((x =? y) && tuple_ltb a' b')
  end.

(** The best tag so far. *)
Definition better (best : option (string * version)) (tag : string) : option (string * version) :=
  if negb (fullmatch STABLE_SEMVER_RE tag) then best
  else match parse_version_tuple tag with
       | None | Some [] => best
       | Some v => match best with
                   | None => Some (tag, v)
                   | Some (_, best_version) => if tuple_ltb best_version v then Some (tag, v) else best
                   end
       end.

Definition not_iterable (msg : string) : exn := OtherError "TypeError" msg.
Definition no_get : exn := OtherError "AttributeError" "object has no attribute 'get'".

(** [for row in value], for the values JSON has *)
Definition rows_of (value : json) : result (list json) :=
  match value with
  | JList l => Ok l
  | JObj d => Ok (map (fun kv => JStr (fst kv)) d)
  | JStr s => Ok (if truthy s then [JStr s] else [])
  | _ => Raise (not_iterable "object is not iterable")
  end.

(** One row: [skip] is the test of drafts. *)
Definition take_row (key : string) (skip : dict -> bool) (best : option (string * version)) (row : json) : result (option (string * version)) :=
  match row with
  | JObj d => if skip d then Ok best
              else Ok (better best (strip (jstr (match dlookup key d with Some v => v | None => JStr "" end))))
  | _ => Raise no_get
  end.

Fixpoint take_rows (key : string) (skip : dict -> bool) (best : option (string * version)) (rows : list json) : result (option (string * version)) :=
  match rows with
  | [] => Ok best
  | row :: rest => let! b := take_row key skip best row in take_rows key skip b rest
  end.

Definition latest := (option string * option version * string)%type.
Definition found (missing : string) (best : option (string * version)) : latest :=
  match best with
  | Some (tag, v) => if truthy tag then (Some tag, Some v, "") else (None, None, missing)
  | None => (None, None, missing)
  end.

Section audit.
(** [request_json] of the page of a repository: Docker Hub and GitHub. *)
Variables (hub_page github_page : string -> Z -> result json).

(** [n] pages are left. *)
Fixpoint hub_loop (repo : string) (n : nat) (page : Z) (best : option (string * version)) : result (option (string * version)) :=
  match n with
  | O => Ok best
  | S n' =>
      let! data := hub_page repo page in
      match data with
      | JObj d =>
          let! rows := rows_of (match dlookup "results" d with Some v => v | None => JList [] end) in
          let! best := take_rows "name" (fun _ => false) best rows in
          if negb (jtruthy (dget d "next")) then Ok best else hub_loop repo n' (page + 1) best
      | _ => Raise no_get
      end
  end.

Definition fetch_latest_from_dockerhub (repo : string) : result latest :=
  let! best := hub_loop repo 6 1 None in Ok (found "No stable semver tag found via Docker Hub API." best).

Fixpoint github_loop (repo : string) (n : nat) (page : Z) (best : option (string * version)) : result (option (string * version)) :=
  match n with
  | O => Ok best
  | S n' =>
      let! releases := github_page repo page in
      match releases with
      | JList rows =>
          let! best := take_rows "tag_name" (fun d => jtruthy (dget d "draft") || jtruthy (dget d "prerelease")) best rows in
          if (length rows <? 100)%nat then Ok best else github_loop repo n' (page + 1) best
      | _ => Ok best
      end
  end.

Definition fetch_latest_from_github_releases (repo : string) : result latest :=
  let! best := github_loop repo 4 1 None in Ok (found "No stable release tag found via GitHub Releases API." best).

Definition fetch_latest_stable (source_kind : string) (source_ref : option string) : result latest :=
  match source_ref with
  | Some ref =>
      if (source_kind =s "dockerhub") && truthy ref then fetch_latest_from_dockerhub ref
      else if (source_kind =s "github_releases") && truthy ref then fetch_latest_from_github_releases ref
      else Ok (None, None, "Source not supported for automatic stable-version lookup.")
  | None => Ok (None, None, "Source not supported for automatic stable-version lookup.")
  end.

(** ** Compose files *)

Record ImageEntry := mkImage {
  compose_file : string; line_no : nat; im_service : string; image_ref : string; image_name : string; image_tag : string;
  tag_mode : string; source_kind : string; source_ref : option string; current_version : option version;
  latest_stable_tag : option string; latest_stable_version : option version; update_available : bool;
  target_tag : option string; im_note : string }.

Definition image_entry (path : string) (idx : nat) (service matched : string) : ImageEntry :=
  let ref := strip matched in
  let '(name, tag) := split_image_ref ref in
  let '(kind, source) := resolve_source name in
  mkImage path idx service ref name tag (classify_tag_mode tag) kind source (parse_version_tuple tag) None None false None "".

Fixpoint scan_lines (path : string) (idx : nat) (in_services : bool) (current_service : option string) (lines : list string) : list ImageEntry :=
  match lines with
  | [] => []
  | line :: rest =>
      let go b c := scan_lines path (S idx) b c rest in
      if match run services_re (None, line) (fun q => if at_end q then Some tt else None) with Some _ => true | None => false end
      then go true None
      else if negb in_services then go false current_service
      else match service_match line with
           | Some s => go true (Some s)
           | None =>
               match image_match line, current_service with
               | Some (_, matched, _), Some service => image_entry path idx service matched :: go true current_service
               | _, _ => go true current_service
               end
           end
  end.

Definition load_compose_images (path text : string) : list ImageEntry := scan_lines path 1 false None (splitlines text).

Definition compare_versions (entry : ImageEntry) (allow_major : bool) : bool * option string * string :=
  if negb (tag_mode entry =s "pinned-semver") then (false, None, "Floating tag; updates are picked up via docker pull.")
  else match current_version entry, latest_stable_version entry, latest_stable_tag entry with
       | Some ((current_major :: _) as current), Some ((latest_major :: _) as newest), Some tag =>
           if negb (truthy tag) then (false, None, "Pinned semver tag but unable to compare versions.")
           else if negb allow_major && negb (latest_major =? current_major)
           then (false, None, "Major bump available but blocked (use --allow-major).")
           else if negb (tuple_ltb current newest) then (false, None, "Already at latest stable for current policy.")
           else (true, Some tag, "")
       | _, _, _ => (false, None, "Pinned semver tag but unable to compare versions.")
       end.

(** ** Patching *)

(** [text.splitlines(keepends=True)] *)
Fixpoint keep_from (line s : string) : list string :=
  match s with
  | EmptyString => if truthy line then [line] else []
  | String c s' => if is_line_end c then (line +:+ String c "") :: keep_from "" s' else keep_from (line +:+ String c "") s'
  end.

(** [line_updates.get(idx)]: the last entry of a line. *)
Definition update_at (entries : list ImageEntry) (idx : nat) : option ImageEntry :=
  fold_left (fun found e => if (line_no e =? idx)%nat then Some e else found) entries None.

Definition patch_line (entries : list ImageEntry) (idx : nat) (line : string) : option string :=
  match update_at entries idx with
  | None => None
  | Some entry =>
      match target_tag entry with
      | None => None
      | Some tag =>
          if negb (truthy tag) then None
          else match image_match (rstrip_by (Ascii.eqb (ascii_of_N 10)) line) with
               | None => None
               | Some (g1, g2, g3) =>
                   if negb (strip g2 =s image_ref entry) then None
                   else Some (g1 +:+ (image_name entry +:+ ":" +:+ tag) +:+ g3 +:+ nl)
               end
      end
  end.

Fixpoint patch_lines (entries : list ImageEntry) (idx : nat) (lines : list string) : list string * Z :=
  match lines with
  | [] => ([], 0)
  | line :: rest =>
      let '(lines', n) := patch_lines entries (S idx) rest in
      match patch_line entries idx line with
      | Some updated => (updated :: lines', n + 1)
      | None => (line :: lines', n)
      end
  end.

Definition wants_update (e : ImageEntry) : bool := update_available e && match target_tag e with Some t => truthy t | None => false end.

(** The files of [by_file], in the order of their first entry. *)
Definition files_of (entries : list ImageEntry) : list string :=
  fold_left (fun paths e => if mem_str (compose_file e) paths then paths else paths ++ [compose_file e]) entries [].

Fixpoint apply_files (entries : list ImageEntry) (paths : list string) (fs : list (string * string)) : list (string * string) * (Z * list string) :=
  match paths with
  | [] => (fs, (0, []))
  | path :: rest =>
      let text := match clookup path fs with Some t => t | None => "" end in
      let '(lines, n) := patch_lines (List.filter (fun e => compose_file e =s path) entries) 1 (keep_from "" text) in
      let fs := if 0 <? n then cset path (fold_right String.append "" lines) fs else fs in
      let '(fs, (m, changed)) := apply_files entries rest fs in
      (fs, (n + m, if 0 <? n then path :: changed else changed))
  end.

Definition apply_updates (entries : list ImageEntry) (fs : list (string * string)) : list (string * string) * (Z * list string) :=
  let wanted := List.filter wants_update entries in apply_files wanted (files_of wanted) fs.

(** ** The run *)

Definition cache_key := (string * option string)%type.
Definition latest_cache := list (cache_key * latest).
Definition key_eqb (a b : cache_key) : bool := bool_decide (a = b).
Definition cached (k : cache_key) (c : latest_cache) : option latest := option_map snd (List.find (fun kv => key_eqb (fst kv) k) c).

(** [except HTTPError: ... except Exception: ...] *)
Definition failure_note (e : exn) : string :=
  match e with HTTPException code reason => "HTTP " +:+ str_of_Z code +:+ ": " +:+ reason | _ => exn_str e end.
Definition latest_of (kind : string) (ref : option string) : latest :=
  match fetch_latest_stable kind ref with Ok l => l | Raise e => (None, None, failure_note e) end.

Definition with_latest (allow_major : bool) (l : latest) (e : ImageEntry) : ImageEntry :=
  let '(tag, v, note) := l in
  let e := mkImage (compose_file e) (line_no e) (im_service e) (image_ref e) (image_name e) (image_tag e) (tag_mode e) (source_kind e)
             (source_ref e) (current_version e) tag v (update_available e) (target_tag e) (im_note e) in
  let '(ok, target, compare_note) := compare_versions e allow_major in
  mkImage (compose_file e) (line_no e) (im_service e) (image_ref e) (image_name e) (image_tag e) (tag_mode e) (source_kind e)
    (source_ref e) (current_version e) tag v ok target (if truthy compare_note then compare_note else note).

(** The entries with their latest versions, and the sources that were asked. *)
Fixpoint check_entries (allow_major : bool) (c : latest_cache) (entries : list ImageEntry) : list ImageEntry * list cache_key :=
  match entries with
  | [] => ([], [])
  | e :: rest =>
      let k := (source_kind e, source_ref e) in
      match cached k c with
      | Some l => let '(es, asked) := check_entries allow_major c rest in (with_latest allow_major l e :: es, asked)
      | None =>
          let l := latest_of (source_kind e) (source_ref e) in
          let '(es, asked) := check_entries allow_major (c ++ [(k, l)]) rest in (with_latest allow_major l e :: es, k :: asked)
      end
  end.

(** [main]: the files that exist, patched when asked to. *)
Definition audit_main (allow_major apply : bool) (paths : list string) (fs : list (string * string))
    : list (string * string) * (list ImageEntry * (Z * list string)) :=
  let entries := flat_map (fun p => match clookup p fs with Some t => load_compose_images p t | None => [] end) paths in
  let entries := fst (check_entries allow_major [] entries) in
  let '(fs, done) := if apply then apply_updates entries fs else (fs, (0, [])) in
  (fs, (entries, done)).
End audit.

Example version_ex : map parse_version_tuple ["v1.2.3"; "1.2"; "7-alpine"; "latest"; "1.2.3.4.5"] = [Some [1; 2; 3]; Some [1; 2]; Some [7]; None; None].
Proof. vm_compute. reflexivity. Qed.
Example image_ex : image_match "    image: 'nginx:1.2.3'  " = Some ("    image: '", "nginx:1.2.3", "'  ").
Proof. vm_compute. reflexivity. Qed.
Example image_split_ex : map split_image_ref ["localhost:5000/a"; "localhost:5000/a:1"; "redis:7@sha256:0"; "redis"]
  = [("localhost:5000/a", "latest"); ("localhost:5000/a", "1"); ("redis", "7"); ("redis", "latest")].
Proof. vm_compute. reflexivity. Qed.

(** * Proofs about the script that audits image versions

    The latest tag is the greatest of the stable tags on the pages read; an
    update never goes back and keeps the major version; patching changes only the
    lines of updated images and there only the reference; and each source is
    asked once. *)

From S2P Require Import IsoParse WriteBufferFacts.
From Stdlib Require Import Ascii.
Open Scope Z_scope.

(** ** Order of versions *)

Lemma tuple_irrefl a : tuple_ltb a a = false.
Proof. induction a as [|x a IH]; [done|]. cbn. by rewrite Z.ltb_irrefl, IH, andb_false_r. Qed.

Lemma tuple_trans : forall a b c, tuple_ltb a b = true -> tuple_ltb b c = true -> tuple_ltb a c = true.
Proof.
  induction a as [|x a IH]; intros [|y b] [|z c]; cbn; try done. intros H1 H2.
  apply orb_true_iff in H1 as [H1|[H1 H1']%andb_true_iff], H2 as [H2|[H2 H2']%andb_true_iff]; apply orb_true_iff; blift; subst.
  1-3: left; apply Z.ltb_lt; lia.
  right. rewrite Z.eqb_refl. by rewrite (IH b c).
Qed.

Lemma tuple_total a b : tuple_ltb a b = false -> tuple_ltb b a = false -> a = b.
Proof.
  revert b. induction a as [|x a IH]; intros [|y b]; cbn; try done. intros H1 H2.
  apply orb_false_iff in H1 as [H1 H1'], H2 as [H2 H2']. blift. assert (x = y) as -> by lia. rewrite Z.eqb_refl in *. f_equal. auto.
Qed.

Definition tuple_le (a b : version) : Prop := tuple_ltb b a = false.

Lemma tuple_le_trans a b c : tuple_le a b -> tuple_le b c -> tuple_le a c.
Proof.
  unfold tuple_le. intros H1 H2. destruct (tuple_ltb c a) eqn:E; [|done]. destruct (tuple_ltb a b) eqn:E1.
  - by rewrite (tuple_trans c a b E E1) in H2.
  - rewrite (tuple_total _ _ E1 H1) in E. congruence.
Qed.

Lemma tuple_lt_le a b : tuple_ltb a b = true -> tuple_le a b.
Proof. unfold tuple_le. intros H. destruct (tuple_ltb b a) eqn:E; [|done]. by rewrite <- (tuple_irrefl a), (tuple_trans a b a). Qed.

(** ** The best tag *)

(** A tag that counts, with its version. *)
Definition stable (tag : string) (v : version) : Prop := fullmatch STABLE_SEMVER_RE tag = true /\ parse_version_tuple tag = Some v /\ v <> [].

(** [best] is the greatest of the [tags]. *)
Definition greatest (tags : list string) (best : option (string * version)) : Prop :=
  match best with
  | None => forall tag v, In tag tags -> ~ stable tag v
  | Some (tag, v) => In tag tags /\ stable tag v /\ forall tag' v', In tag' tags -> stable tag' v' -> tuple_le v' v
  end.

Lemma better_greatest tags best tag : greatest tags best -> greatest (tags ++ [tag]) (better best tag).
Proof.
  intros Hg. unfold better. destruct (fullmatch STABLE_SEMVER_RE tag) eqn:Ef; cbn [negb].
  2: { assert (forall v, ~ stable tag v) as Hn by (intros v [H _]; congruence).
    destruct best as [[t v]|]; cbn in *; [destruct Hg as (H1 & H2 & H3); split; [apply in_or_app; auto|split; [done|]]|];
      intros t' v' [H|[<-|[]]]%in_app_or; eauto. by intros ?%Hn. }
  destruct (parse_version_tuple tag) as [[|x v]|] eqn:Ep.
  1,3: assert (forall w, ~ stable tag w) as Hn by (intros w (_ & H & Hw); congruence);
    destruct best as [[t w]|]; cbn in *; [destruct Hg as (H1 & H2 & H3); split; [apply in_or_app; auto|split; [done|]]|];
      intros t' v' [H|[<-|[]]]%in_app_or; eauto; by intros ?%Hn.
  assert (stable tag (x :: v)) as Hs by done.
  assert (forall w, stable tag w -> w = x :: v) as Hu by (intros w (_ & H & _); congruence).
  destruct best as [[t w]|]; cbn in Hg.
  - destruct Hg as (H1 & H2 & H3). destruct (tuple_ltb w (x :: v)) eqn:Et; cbn.
    + split; [apply in_or_app; right; by left|]. split; [done|]. intros t' v' [H|[<-|[]]]%in_app_or Hv'.
      * eapply tuple_le_trans; [by eapply H3|]. by apply tuple_lt_le.
      * rewrite (Hu _ Hv'). apply tuple_irrefl.
    + split; [apply in_or_app; by left|]. split; [done|]. intros t' v' [H|[<-|[]]]%in_app_or Hv'; [by eapply H3|].
      by rewrite (Hu _ Hv').
  - split; [apply in_or_app; right; by left|]. split; [done|]. intros t' v' [H|[<-|[]]]%in_app_or Hv'; [by destruct (Hg t' v' H)|].
    rewrite (Hu _ Hv'). apply tuple_irrefl.
Qed.

(** The tag of a row. *)
Definition tag_of (key : string) (row : json) : string :=
  match row with JObj d => strip (jstr (match dlookup key d with Some v => v | None => JStr "" end)) | _ => "" end.
Definition counted (skip : dict -> bool) (row : json) : bool := match row with JObj d => negb (skip d) | _ => false end.
Definition row_tags (key : string) (skip : dict -> bool) (rows : list json) : list string := map (tag_of key) (List.filter (counted skip) rows).

Lemma take_rows_greatest key skip rows : forall tags best best', greatest tags best -> take_rows key skip best rows = Ok best' ->
  greatest (tags ++ row_tags key skip rows) best'.
Proof.
  induction rows as [|row rows IH]; intros tags best best' Hg H; cbn [take_rows] in H.
  - injection H as <-. unfold row_tags. cbn. by rewrite app_nil_r.
  - destruct row as [| | | | | |d]; try done. cbn [take_row rbind] in H. unfold row_tags. cbn [List.filter counted].
    destruct (skip d) eqn:E; cbn [negb rbind] in *; [by eapply IH|].
    cbn [map]. rewrite cons_middle, app_assoc. eapply IH; [|exact H]. by apply better_greatest.
Qed.

(** ** Pages *)

Section registry.
Variables (hub_page github_page : string -> Z -> result json).
Abbreviation fetch := (fetch_latest_stable hub_page github_page).

(** The tags of the pages a lookup reads. *)
Fixpoint hub_tags (repo : string) (n : nat) (page : Z) : list string :=
  match n with
  | O => []
  | S n' =>
      match hub_page repo page with
      | Ok (JObj d) =>
          match rows_of (match dlookup "results" d with Some v => v | None => JList [] end) with
          | Ok rows => row_tags "name" (fun _ => false) rows ++ (if jtruthy (dget d "next") then hub_tags repo n' (page + 1) else [])
          | Raise _ => []
          end
      | _ => []
      end
  end.

Definition not_released (d : dict) : bool := jtruthy (dget d "draft") || jtruthy (dget d "prerelease").
Fixpoint github_tags (repo : string) (n : nat) (page : Z) : list string :=
  match n with
  | O => []
  | S n' =>
      match github_page repo page with
      | Ok (JList rows) => row_tags "tag_name" not_released rows ++ (if (length rows <? 100)%nat then [] else github_tags repo n' (page + 1))
      | _ => []
      end
  end.

Lemma hub_greatest repo n : forall page tags best best', greatest tags best -> hub_loop hub_page repo n page best = Ok best' ->
  greatest (tags ++ hub_tags repo n page) best'.
Proof.
  induction n as [|n IH]; intros page tags best best' Hg H; cbn [hub_loop hub_tags] in *.
  - injection H as <-. by rewrite app_nil_r.
  - destruct (hub_page repo page) as [data|e]; [|done]. cbn [rbind] in H. destruct data as [| | | | | |d]; try done.
    destruct (rows_of _) as [rows|e]; [|done]. cbn [rbind] in H.
    destruct (take_rows _ _ best rows) as [b|e] eqn:E; [|done]. cbn [rbind] in H. apply (take_rows_greatest _ _ _ tags) in E; [|done].
    destruct (jtruthy (dget d "next")); cbn [negb] in H.
    + rewrite app_assoc. by eapply IH.
    + injection H as <-. by rewrite app_nil_r.
Qed.

Lemma github_greatest repo n : forall page tags best best', greatest tags best -> github_loop github_page repo n page best = Ok best' ->
  greatest (tags ++ github_tags repo n page) best'.
Proof.
  induction n as [|n IH]; intros page tags best best' Hg H; cbn [github_loop github_tags] in *.
  - injection H as <-. by rewrite app_nil_r.
  - destruct (github_page repo page) as [data|e]; [|done]. cbn [rbind] in H.
    destruct data as [| | | | |rows|]; try (injection H as <-; by rewrite app_nil_r).
    destruct (take_rows _ _ best rows) as [b|e] eqn:E; [|done]. cbn [rbind] in H. apply (take_rows_greatest _ _ _ tags) in E; [|done].
    destruct (length rows <? 100)%nat.
    + injection H as <-. by rewrite app_nil_r.
    + rewrite app_assoc. by eapply IH.
Qed.

Definition source_tags (kind : string) (ref : string) : list string :=
  if kind =s "dockerhub" then hub_tags ref 6 1 else github_tags ref 4 1.

Lemma found_some missing best tags tag v note : greatest tags best -> found missing best = (Some tag, v, note) ->
  exists w, v = Some w /\ greatest tags (Some (tag, w)).
Proof. destruct best as [[t w]|]; cbn; [|done]. intros Hg. destruct (truthy t); [|done]. intros [= <- <- _]. eauto. Qed.

Lemma fetch_greatest kind ref tag v note : fetch kind ref = Ok (Some tag, v, note) ->
  exists r w, ref = Some r /\ v = Some w /\ greatest (source_tags kind r) (Some (tag, w)).
Proof.
  unfold fetch_latest_stable, source_tags. destruct ref as [r|]; [|done]. intros H. exists r.
  destruct (kind =s "dockerhub") eqn:Ek; cbn [andb] in H.
  - destruct (truthy r); [|blift; by subst kind].
    unfold fetch_latest_from_dockerhub in H. destruct (hub_loop hub_page r 6 1 None) as [best|] eqn:E; [|done]. cbn [rbind] in H. injection H as H.
    apply (hub_greatest _ _ _ []) in E; [|by intros ? ? []]. destruct (found_some _ _ _ _ _ _ E H) as (w & ? & ?). eauto.
  - destruct ((kind =s "github_releases") && truthy r); [|done].
    unfold fetch_latest_from_github_releases in H. destruct (github_loop github_page r 4 1 None) as [best|] eqn:E; [|done]. cbn [rbind] in H. injection H as H.
    apply (github_greatest _ _ _ []) in E; [|by intros ? ? []]. destruct (found_some _ _ _ _ _ _ E H) as (w & ? & ?). eauto.
Qed.

(** The latest tag that is found is the greatest of all stable tags on the
    pages read, in the order of versions. *)
Theorem latest_is_greatest kind ref tag v note : fetch kind ref = Ok (Some tag, v, note) ->
  exists r w, ref = Some r /\ v = Some w /\ In tag (source_tags kind r) /\ stable tag w /\
    forall tag' v', In tag' (source_tags kind r) -> stable tag' v' -> tuple_ltb w v' = false.
Proof. intros (r & w & -> & -> & H1 & H2 & H3)%fetch_greatest. by exists r, w. Qed.

(** ** Entries *)

Abbreviation direct am e := (with_latest am (latest_of hub_page github_page (source_kind e) (source_ref e)) e).
Definition cache_ok (c : latest_cache) : Prop := forall k l, In (k, l) c -> l = latest_of hub_page github_page (fst k) (snd k).

Lemma cached_In k c l : cached k c = Some l -> In (k, l) c.
Proof.
  unfold cached. destruct (List.find _ c) as [[k' l']|] eqn:E; [|done]. cbn. intros [= <-]. apply List.find_some in E as [H1 H2].
  cbn in H2. unfold key_eqb in H2. apply bool_decide_eq_true in H2. by subst.
Qed.

Lemma cached_none k c : cached k c = None -> ~ In k (map fst c).
Proof.
  unfold cached. destruct (List.find _ c) as [[k' l']|] eqn:E; [done|]. intros _ ([k1 l1] & <- & Hin)%in_map_iff.
  apply (List.find_none _ _ E) in Hin. cbn in Hin. unfold key_eqb in Hin. by rewrite bool_decide_eq_true_2 in Hin.
Qed.

Lemma check_entries_spec am es : forall c, cache_ok c ->
  fst (check_entries hub_page github_page am c es) = map (fun e => direct am e) es /\
  List.NoDup (snd (check_entries hub_page github_page am c es)) /\
  (forall k, In k (snd (check_entries hub_page github_page am c es)) -> ~ In k (map fst c)).
Proof.
  induction es as [|e es IH]; intros c Hc; cbn [check_entries]; [by repeat split; [constructor|]|].
  destruct (cached (source_kind e, source_ref e) c) as [l|] eqn:E.
  - specialize (IH c Hc). destruct (check_entries _ _ am c es) as [es' asked]. cbn in *. destruct IH as (-> & H2 & H3).
    apply cached_In, Hc in E. cbn in E. by subst l.
  - assert (cache_ok (c ++ [((source_kind e, source_ref e), latest_of hub_page github_page (source_kind e) (source_ref e))])) as Hc'.
    { intros k l [H|[[= <- <-]|[]]]%in_app_or; [by apply Hc|done]. }
    specialize (IH _ Hc'). destruct (check_entries _ _ am _ es) as [es' asked]. cbn in *. destruct IH as (-> & H2 & H3).
    apply cached_none in E. split; [done|]. split.
    + constructor; [|done]. intros Hin%H3. apply Hin. rewrite map_app. apply in_or_app. right. by left.
    + intros k [<-|Hk]; [done|]. apply H3 in Hk. rewrite map_app in Hk. intros Hin. apply Hk, in_or_app. by left.
Qed.

(** The cache is not seen: each entry has what its own lookup answers; and no
    source is asked twice. *)
Theorem each_source_asked_once am es :
  fst (check_entries hub_page github_page am [] es) = map (fun e => direct am e) es /\
  List.NoDup (snd (check_entries hub_page github_page am [] es)).
Proof. destruct (check_entries_spec am es [] ltac:(by intros ? ? [])) as (H1 & H2 & _). done. Qed.

Lemma compare_ok e am target note : compare_versions e am = (true, target, note) ->
  exists tag cur new, target = Some tag /\ latest_stable_tag e = Some tag /\ latest_stable_version e = Some new /\ current_version e = Some cur /\
    tag_mode e = "pinned-semver" /\ tuple_ltb cur new = true /\ (am = false -> hd 0 new = hd 0 cur).
Proof.
  unfold compare_versions. destruct (tag_mode e =s "pinned-semver") eqn:Em; [|done]. cbn [negb].
  destruct (current_version e) as [[|x cur]|]; [done| |done]. destruct (latest_stable_version e) as [[|y new]|]; [done| |done].
  destruct (latest_stable_tag e) as [tag|]; [|done]. destruct (truthy tag); [|done]. cbn [negb].
  destruct (negb am && negb (y =? x)) eqn:Ea; [done|]. destruct (tuple_ltb (x :: cur) (y :: new)) eqn:Et; [|done]. cbn [negb].
  intros [= <- _]. apply String.eqb_eq in Em. exists tag, (x :: cur), (y :: new). repeat (split; [done|]).
  intros ->. cbn in Ea. blift. done.
Qed.

(** An entry with an update: pinned, with a greater version to go to. *)
Lemma checked_goes_up am es e : In e (fst (check_entries hub_page github_page am [] es)) -> update_available e = true ->
  exists r tag cur new, source_ref e = Some r /\ target_tag e = Some tag /\ tag_mode e = "pinned-semver" /\ current_version e = Some cur /\
    greatest (source_tags (source_kind e) r) (Some (tag, new)) /\ tuple_ltb cur new = true /\ (am = false -> hd 0 new = hd 0 cur).
Proof.
  destruct (check_entries_spec am es [] ltac:(by intros ? ? [])) as (-> & _). intros (e0 & <- & _)%in_map_iff. unfold with_latest, latest_of.
  destruct (fetch_latest_stable hub_page github_page (source_kind e0) (source_ref e0)) as [[[t v] note]|x] eqn:Ef.
  - destruct (compare_versions _ am) as [[ok target] cn] eqn:Ec. cbn. intros ->. apply compare_ok in Ec as (tag & cur & new & -> & Ht & Hv & Hc & Hm & Hl & Ha).
    cbn in Ht, Hv, Hc, Hm. subst t. apply fetch_greatest in Ef as (r & w & Hr & Hw & Hg). rewrite Hw in Hv. injection Hv as ->.
    by exists r, tag, cur, new.
  - destruct (compare_versions _ am) as [[ok target] cn] eqn:Ec. cbn. intros ->. apply compare_ok in Ec as (tag & cur & new & _ & [=] & _).
Qed.

(** What an entry says of its reference. *)
Definition reads_reference (e : ImageEntry) : Prop :=
  split_image_ref (image_ref e) = (image_name e, image_tag e) /\ resolve_source (image_name e) = (source_kind e, source_ref e) /\
  tag_mode e = classify_tag_mode (image_tag e) /\ current_version e = parse_version_tuple (image_tag e).

Lemma image_entry_reads path idx service matched : reads_reference (image_entry path idx service matched).
Proof.
  unfold image_entry, reads_reference. destruct (split_image_ref (strip matched)) as [name tag] eqn:Es. destruct (resolve_source name) as [kind source] eqn:Er.
  by cbn.
Qed.

Lemma scan_reads path lines : forall idx b c, List.Forall reads_reference (scan_lines path idx b c lines).
Proof.
  induction lines as [|line lines IH]; intros idx b c; cbn [scan_lines]; [constructor|].
  destruct (match run _ _ _ with Some _ => true | None => false end); [apply IH|]. destruct (negb b); [apply IH|].
  destruct (service_match line); [apply IH|]. destruct (image_match line) as [[[g1 m] g3]|]; [|apply IH].
  destruct c; [|apply IH]. constructor; [apply image_entry_reads|apply IH].
Qed.

Lemma checked_reads am es : List.Forall reads_reference es -> List.Forall reads_reference (fst (check_entries hub_page github_page am [] es)).
Proof.
  destruct (check_entries_spec am es [] ltac:(by intros ? ? [])) as (-> & _). rewrite List.Forall_map. apply List.Forall_impl.
  intros e He. unfold with_latest. destruct (latest_of _ _ _ _) as [[t v] note]. by destruct (compare_versions _ am) as [[ok target] cn].
Qed.

Lemma pinned_stable tag : classify_tag_mode tag = "pinned-semver" -> fullmatch STABLE_SEMVER_RE tag = true.
Proof. unfold classify_tag_mode. destruct (lower tag =s "latest"); [done|]. by destruct (fullmatch STABLE_SEMVER_RE tag). Qed.
End registry.

(** ** Patching *)

Lemma reaches_between q q' : reaches q q' -> between q q' +:+ snd q' = snd q.
Proof.
  intros H. assert (exists a, snd q = a +:+ snd q') as (a & Ha).
  { induction H as [q|prev c s q _ (a & Ha)]; [by exists ""|]. cbn in *. exists (String c a). by rewrite Ha. }
  unfold between. rewrite Ha, append_length.
  replace (String.length a + String.length (snd q') - String.length (snd q'))%nat with (String.length a) by lia.
  by rewrite take_app.
Qed.

Lemma run_between {R} r q (k : pos -> option R) x : run r q k = Some x -> exists q', between q q' +:+ snd q' = snd q /\ k q' = Some x.
Proof. intros (q' & Hm & Hk)%run_sound. exists q'. split; [|done]. by eapply reaches_between, matches_reaches. Qed.

(** A line with an image is its three groups, up to a last line end. *)
Lemma image_match_split line g1 g2 g3 : image_match line = Some (g1, g2, g3) ->
  exists rest, line = g1 +:+ g2 +:+ g3 +:+ rest /\ (rest = "" \/ rest = nl).
Proof.
  unfold image_match. intros (q1 & H1 & (q2 & H2 & (q3 & H3 & H)%run_between)%run_between)%run_between.
  destruct (at_end q3) eqn:E; [|done]. injection H as <- <- <-. exists (snd q3). cbn [snd] in *. split; [by rewrite H3, H2, H1|].
  unfold at_end in E. destruct (truthy (snd q3)) eqn:Et; [right; by apply String.eqb_eq|left].
  unfold truthy in Et. blift. done.
Qed.

Lemma rstrip_no_lf s t : rstrip_by (Ascii.eqb (ascii_of_N 10)) s <> t +:+ nl.
Proof.
  revert t. induction s as [|c s IH]; intros t; cbn [rstrip_by]; [by destruct t|].
  destruct (rstrip_by _ s) as [|d u] eqn:E.
  - destruct (Ascii.eqb (ascii_of_N 10) c) eqn:Ec; [by destruct t|]. intros H. destruct t as [|x t]; [injection H as ->; by rewrite Ascii.eqb_refl in Ec|].
    rewrite append_cons in H. injection H as _ H. by destruct t.
  - intros H. destruct t as [|x t]; [by injection H|]. rewrite append_cons in H. injection H as _ H. by apply (IH t).
Qed.

(** What patching may do to a line. *)
Definition patched (entries : list ImageEntry) (idx : nat) (line line' : string) : Prop :=
  exists e tag g1 g2 g3, In e entries /\ line_no e = idx /\ target_tag e = Some tag /\
    rstrip_by (Ascii.eqb (ascii_of_N 10)) line = g1 +:+ g2 +:+ g3 /\ strip g2 = image_ref e /\
    line' = g1 +:+ (image_name e +:+ ":" +:+ tag) +:+ g3 +:+ nl.

Lemma update_at_In entries idx e : update_at entries idx = Some e -> In e entries /\ line_no e = idx.
Proof.
  unfold update_at. assert (forall acc, fold_left (fun found e => if (line_no e =? idx)%nat then Some e else found) entries acc = Some e ->
    acc = Some e \/ (In e entries /\ line_no e = idx)) as H; [|intros He; destruct (H None He); [done|done]].
  induction entries as [|x entries IH]; intros acc; cbn [fold_left]; [by left|]. intros [Ha|[Hi Hl]]%IH; [|right; split; [by right|done]].
  destruct (line_no x =? idx)%nat eqn:E; [|by left]. injection Ha as ->. right. split; [by left|]. by apply Nat.eqb_eq.
Qed.

Lemma patch_line_spec entries idx line line' : patch_line entries idx line = Some line' -> patched entries idx line line'.
Proof.
  unfold patch_line. destruct (update_at entries idx) as [e|] eqn:Eu; [|done]. apply update_at_In in Eu as [Hi Hl].
  destruct (target_tag e) as [tag|] eqn:Et; [|done]. destruct (truthy tag); [|done]. cbn [negb].
  destruct (image_match _) as [[[g1 g2] g3]|] eqn:Em; [|done]. destruct (strip g2 =s image_ref e) eqn:Es; [|done]. cbn [negb]. intros [= <-].
  apply image_match_split in Em as (rest & Hr & Hrest). apply String.eqb_eq in Es. exists e, tag, g1, g2, g3. repeat (split; [done|]). split; [|done].
  destruct Hrest as [->| ->]; [by rewrite append_nil_r in Hr|]. exfalso. apply (rstrip_no_lf line (g1 +:+ g2 +:+ g3)). by rewrite Hr, !append_assoc.
Qed.

(** Lines and their numbers. *)
Inductive lines_patched (entries : list ImageEntry) : nat -> list string -> list string -> Z -> Prop :=
| lp_nil idx : lines_patched entries idx [] [] 0
| lp_same idx line l l' n : lines_patched entries (S idx) l l' n -> lines_patched entries idx (line :: l) (line :: l') n
| lp_changed idx line line' l l' n : patched entries idx line line' -> lines_patched entries (S idx) l l' n ->
    lines_patched entries idx (line :: l) (line' :: l') (n + 1).
#[local] Hint Constructors lines_patched : lattice.

Lemma patch_lines_spec entries lines : forall idx,
  lines_patched entries idx lines (fst (patch_lines entries idx lines)) (snd (patch_lines entries idx lines)).
Proof.
  induction lines as [|line lines IH]; intros idx; cbn [patch_lines]; [constructor|]. specialize (IH (S idx)).
  destruct (patch_lines entries (S idx) lines) as [l' n]. destruct (patch_line entries idx line) as [line'|] eqn:E; cbn in *.
  - apply lp_changed; [by apply patch_line_spec|done].
  - by apply lp_same.
Qed.

Lemma lines_unchanged entries idx l l' n : lines_patched entries idx l l' n -> 0 <= n /\ (n = 0 -> l' = l).
Proof. induction 1 as [|idx line l l' n _ [IH1 IH2]|idx line line' l l' n _ _ [IH1 _]]; [done| |]; (split; [lia|]); [|lia]. intros H. by rewrite IH2. Qed.

Lemma keep_concat s : forall line, fold_right String.append "" (keep_from line s) = line +:+ s.
Proof.
  induction s as [|c s IH]; intros line; cbn [keep_from].
  - destruct (truthy line) eqn:E; [done|]. unfold truthy in E. blift. by subst.
  - destruct (is_line_end c); cbn [fold_right]; rewrite IH; [|by rewrite append_assoc]. rewrite append_assoc. done.
Qed.

Definition joined (lines : list string) : string := fold_right String.append "" lines.
Abbreviation in_file path entries := (List.filter (fun e => compose_file e =s path) entries).

Lemma apply_files_spec entries paths : forall fs, List.NoDup paths ->
  forall path text, clookup path fs = Some text -> exists lines' n,
    clookup path (fst (apply_files entries paths fs)) = Some (joined lines') /\
    lines_patched (in_file path entries) 1 (keep_from "" text) lines' n /\ (~ In path paths -> n = 0).
Proof.
  induction paths as [|p paths IH]; intros fs Hn path text Hl; cbn [apply_files].
  - exists (keep_from "" text), 0. unfold joined. rewrite keep_concat. split; [done|]. split; [|done].
    generalize 1%nat. induction (keep_from "" text) as [|x l IHl]; intros i; [constructor|]. by apply lp_same.
  - inversion Hn as [|? ? Hp Hn']; subst. set (text0 := match clookup p fs with Some t => t | None => "" end).
    pose proof (patch_lines_spec (in_file p entries) (keep_from "" text0) 1) as Hs.
    destruct (patch_lines _ 1 (keep_from "" text0)) as [lines n]. cbn [fst snd] in Hs.
    set (fs1 := if 0 <? n then cset p (fold_right String.append "" lines) fs else fs).
    specialize (IH fs1 Hn' path). destruct (apply_files entries paths fs1) as [fs2 [m changed]]. cbn [fst] in *.
    destruct (decide (path = p)) as [->|Hne].
    + assert (text0 = text) as Et by (unfold text0; by rewrite Hl). rewrite Et in Hs.
      assert (clookup p fs1 = Some (joined lines)) as H1.
      { unfold fs1. destruct (0 <? n) eqn:E; [by rewrite clookup_cset, String.eqb_refl|]. rewrite Hl. blift.
        apply lines_unchanged in Hs as [H0 H0']. rewrite H0' by lia. unfold joined. by rewrite keep_concat. }
      destruct (IH _ H1) as (l' & n' & H2 & H3 & H4). specialize (H4 Hp). apply lines_unchanged in H3 as [_ H3]. rewrite (H3 H4) in H2.
      exists lines, n. unfold joined in H2 at 1. rewrite keep_concat in H2. split; [exact H2|]. split; [done|]. intros H. by destruct H; left.
    + assert (clookup path fs1 = Some text) as H1.
      { unfold fs1. destruct (0 <? n); [|done]. rewrite clookup_cset. destruct (path =s p) eqn:E; [blift; done|done]. }
      destruct (IH _ H1) as (l' & n' & H2 & H3 & H4). exists l', n'. split; [done|]. split; [done|]. intros H. apply H4. intros Hi. apply H. by right.
Qed.

Lemma files_NoDup entries : List.NoDup (files_of entries).
Proof.
  unfold files_of. assert (forall acc, List.NoDup acc -> List.NoDup (fold_left (fun paths e => if mem_str (compose_file e) paths then paths else paths ++ [compose_file e]) entries acc)) as H;
    [|by apply H; constructor].
  induction entries as [|e entries IH]; intros acc Ha; [done|]. cbn [fold_left]. apply IH. destruct (mem_str (compose_file e) acc) eqn:E; [done|].
  apply mem_str_false in E. apply List.NoDup_app; [done|repeat constructor; by intros []|]. intros x Hx [<-|[]]. done.
Qed.

(** Patching keeps every line of a compose file but those of images to
    update, and changes there the reference alone: the same name with the new tag. *)
Theorem patching_touches_images_only entries fs path text : clookup path fs = Some text ->
  exists lines' n, clookup path (fst (apply_updates entries fs)) = Some (joined lines') /\
    lines_patched (in_file path (List.filter wants_update entries)) 1 (keep_from "" text) lines' n.
Proof.
  intros H. destruct (apply_files_spec (List.filter wants_update entries) (files_of (List.filter wants_update entries)) fs (files_NoDup _) path text H)
    as (l' & n & H1 & H2 & _). by exists l', n.
Qed.

Section promise.
Variables (hub_page github_page : string -> Z -> result json).

(** A line whose image, pinned to a stable version, got a new tag: the reference
    is the same name with the greatest stable tag on the pages that were read, of a
    greater version than the old tag, and of the same major version unless major
    versions are allowed; the rest of the line is as it was. *)
Definition upgraded (allow_major : bool) (line line' : string) : Prop :=
  exists before reference after name old cur kind repo tag new,
    rstrip_by (Ascii.eqb (ascii_of_N 10)) line = before +:+ reference +:+ after /\
    split_image_ref (strip reference) = (name, old) /\ resolve_source name = (kind, Some repo) /\
    fullmatch STABLE_SEMVER_RE old = true /\ parse_version_tuple old = Some cur /\
    greatest (source_tags hub_page github_page kind repo) (Some (tag, new)) /\ tuple_ltb cur new = true /\
    (allow_major = false -> hd 0 new = hd 0 cur) /\
    line' = before +:+ (name +:+ ":" +:+ tag) +:+ after +:+ nl.

Lemma patched_upgraded am es idx line line' : List.Forall reads_reference es ->
  List.Forall (fun e => update_available e = true -> exists r tag cur new, source_ref e = Some r /\ target_tag e = Some tag /\
     tag_mode e = "pinned-semver" /\ current_version e = Some cur /\ greatest (source_tags hub_page github_page (source_kind e) r) (Some (tag, new)) /\
     tuple_ltb cur new = true /\ (am = false -> hd 0 new = hd 0 cur)) es ->
  patched (List.filter wants_update es) idx line line' -> upgraded am line line'.
Proof.
  rewrite !List.Forall_forall. intros Hr Hu (e & tag & g1 & g2 & g3 & [He Hw]%filter_In & _ & Ht & Hl & Hg & ->).
  apply andb_true_iff in Hw as [Hw _]. destruct (Hr e He) as (R1 & R2 & R3 & R4). destruct (Hu e He Hw) as (r & tag' & cur & new & U1 & U2 & U3 & U4 & U5 & U6 & U7).
  rewrite Ht in U2. injection U2 as <-. exists g1, g2, g3, (image_name e), (image_tag e), cur, (source_kind e), r, tag, new.
  rewrite Hg, U1 in *. rewrite U4 in R4. rewrite U3 in R3. symmetry in R3. repeat (split; [first [done|by apply pinned_stable]|]). done.
Qed.

Lemma lines_upgraded am es path : (forall idx line line', patched (in_file path (List.filter wants_update es)) idx line line' -> upgraded am line line') ->
  forall idx l l' n, lines_patched (in_file path (List.filter wants_update es)) idx l l' n ->
  Forall2 (fun line line' => line' = line \/ upgraded am line line') l l'.
Proof. intros Hp idx l l' n H. induction H; constructor; eauto. Qed.

(** C40: a run of the version script changes a compose file only by upgrades.  With
    [--apply], every line of every file is as it was or [upgraded]: a pinned
    reference that gets the greatest stable tag among those on the pages read, the
    first six of Docker Hub or the first four of GitHub's releases, a greater version
    than its own, and without [--allow-major] of the same major version; without
    [--apply] no file changes. *)
Theorem updates_go_up allow_major apply paths fs path text : clookup path fs = Some text ->
  let fs' := fst (audit_main hub_page github_page allow_major apply paths fs) in
  if apply then exists lines', clookup path fs' = Some (joined lines') /\
    Forall2 (fun line line' => line' = line \/ upgraded allow_major line line') (keep_from "" text) lines'
  else fs' = fs.
Proof.
  intros Hl. cbv zeta. unfold audit_main. destruct apply; [|done]. set (es0 := flat_map _ paths).
  assert (List.Forall reads_reference es0) as H0.
  { apply List.Forall_forall. intros e (p & _ & Hin)%in_flat_map. destruct (clookup p fs); [|done].
    pose proof (scan_reads p (splitlines s) 1 false None) as Hs. rewrite List.Forall_forall in Hs. by apply Hs. }
  set (es := fst (check_entries hub_page github_page allow_major [] es0)).
  pose proof (apply_files_spec (List.filter wants_update es) (files_of (List.filter wants_update es)) fs (files_NoDup _) path text Hl) as H.
  destruct H as (lines' & n & H1 & H2 & _). unfold apply_updates. destruct (apply_files _ _ fs) as [fs' done']. cbn [fst] in *.
  exists lines'. split; [done|]. eapply lines_upgraded; [|exact H2]. intros idx line line' Hp.
  apply (patched_upgraded allow_major es idx); [by apply checked_reads| |].
  - apply List.Forall_forall. intros e He Hu. by apply (checked_goes_up hub_page github_page allow_major es0).
  - destruct Hp as (e & tag & g1 & g2 & g3 & [He _]%filter_In & Hrest). by exists e, tag, g1, g2, g3.
Qed.
End promise.

(** ** Witnesses and defects *)

Definition hub_of (tags : list string) (_ : string) (_ : Z) : result json :=
  Ok (JObj [("results", JList (map (fun t => JObj [("name", JStr t)]) tags))]).
Definition no_github (_ : string) (_ : Z) : result json := Ok JNull.
Definition compose (image : string) : string :=
  "services:" +:+ nl +:+ "  web:" +:+ nl +:+ "    image: " +:+ image +:+ nl.
Definition audit_of (tags : list string) (image : string) : list (string * string) * (list ImageEntry * (Z * list string)) :=
  audit_main (hub_of tags) no_github false true ["c.yml"] [("c.yml", compose image)].

Example audit_ex : fst (audit_of ["1.2.3"; "1.10.0"; "1.9.9"; "1.11.0-rc1"] "nginx:1.2.3") = [("c.yml", compose "nginx:1.10.0")].
Proof. vm_compute. reflexivity. Qed.

Lemma latest_is_greatest_witness : exists w, stable "1.10.0" w /\ tuple_ltb w [1; 9; 9] = false.
Proof.
  destruct (latest_is_greatest (hub_of ["1.2.3"; "1.10.0"; "1.9.9"]) no_github "dockerhub" (Some "library/nginx") "1.10.0" (Some [1; 10; 0]) "")
    as (r & w & [= <-] & _ & _ & Hs & Hg); [vm_compute; reflexivity|].
  exists w. split; [exact Hs|]. apply (Hg "1.9.9"); [vm_compute; tauto|]. split; [vm_compute; reflexivity|]. split; [vm_compute; reflexivity|discriminate].
Defined.

Definition demo_images : list ImageEntry :=
  fst (check_entries (hub_of ["1.2.3"; "1.10.0"]) no_github false [] (load_compose_images "c.yml" (compose "nginx:1.2.3"))).

Lemma updates_go_up_witness : exists lines',
  fst (audit_of ["1.2.3"; "1.10.0"; "2.0.0-rc1"] "nginx:1.2.3") = [("c.yml", joined lines')] /\ joined lines' = compose "nginx:1.10.0" /\
  Forall2 (fun line line' => line' = line \/ upgraded (hub_of ["1.2.3"; "1.10.0"; "2.0.0-rc1"]) no_github false line line') (keep_from "" (compose "nginx:1.2.3")) lines'.
Proof.
  destruct (updates_go_up (hub_of ["1.2.3"; "1.10.0"; "2.0.0-rc1"]) no_github false true ["c.yml"] [("c.yml", compose "nginx:1.2.3")] "c.yml" (compose "nginx:1.2.3") eq_refl)
    as (lines' & H1 & H2).
  exists lines'. assert (joined lines' = compose "nginx:1.10.0") as E .
  { match type of H1 with ?a = _ => assert (a = Some (compose "nginx:1.10.0")) as E by (vm_compute; reflexivity) end. rewrite E in H1. by injection H1. }
  split; [rewrite E; vm_compute; reflexivity|]. split; [exact E|exact H2].
Defined.

Lemma patching_touches_images_only_witness : exists lines' n,
  clookup "c.yml" (fst (apply_updates demo_images [("c.yml", compose "nginx:1.2.3")])) = Some (joined lines') /\
  lines_patched (in_file "c.yml" (List.filter wants_update demo_images)) 1 (keep_from "" (compose "nginx:1.2.3")) lines' n.
Proof. apply (patching_touches_images_only demo_images [("c.yml", compose "nginx:1.2.3")] "c.yml" (compose "nginx:1.2.3")). reflexivity. Defined.

(** One tag of a new major version hides every newer tag of the current one. *)
Lemma major_hides_minor :
  fst (audit_of ["1.10.0"] "nginx:1.2.3") = [("c.yml", compose "nginx:1.10.0")] /\
  fst (audit_of ["1.10.0"; "2.0.0"] "nginx:1.2.3") = [("c.yml", compose "nginx:1.2.3")].
Proof. split; vm_compute; reflexivity. Qed.

(** A reference pinned by its digest loses the digest. *)
Lemma update_drops_digest : fst (audit_of ["1.10.0"] "nginx:1.2.3@sha256:ab") = [("c.yml", compose "nginx:1.10.0")].
Proof. vm_compute. reflexivity. Qed.

(** A pinned tag with a comment behind it is taken for a floating one. *)
Lemma comment_hides_version : map tag_mode (fst (snd (audit_of ["1.10.0"] "nginx:1.2.3 # pinned"))) = ["floating-channel"].
Proof. vm_compute. reflexivity. Qed.
