(* ===== verification/EvalCases.v ===== *)
(** * The saved cases of the recall evaluation

    The file of cases, seeded with a default set, read and normalised
    ([_load_saved_recall_eval_config]), listed and evaluated
    ([evaluate_saved_recall_cases]).  The state is the text of the file.
    [parse_case] is the validation of [RecallEvalCase] by pydantic. *)

From S2P Require Import Prelude PyStr PyTime Json JsonText Caches SourcePolicy Federated Recall Profiles SearchApi TaskApi TaskWorker.
From Stdlib Require Import QArith.
Open Scope Z_scope.

(** The thresholds of the settings. *)
Record gate := mkGate { minRecallAtK : Q; minMrr : Q; minNumericExactness : Q }.

Record saved_config := mkSaved {
  sc_version : json; sc_updatedAt : json; sc_k : Z; sc_gate : gate; sc_cases : list eval_case }.

Record saved_request := mkSavedRequest {
  sr_k : option Z; sr_debug : bool; sr_preferences : bool; sr_user_id : option string;
  sr_recall : option Q; sr_mrr : option Q; sr_numeric : option Q }.

Section cases.
Variable DEFAULT_GATE : gate.
Variables (repr_float : Q -> string) (parse_float : string -> option Q).
Variable parse_case : dict -> option eval_case.
(** Whether the file can be written. *)
Variable writable : bool.

Definition default_case (id query : string) (limit : Z) (expected : list string) : json :=
  JObj [("id", JStr id); ("query", JStr query); ("limit", JInt limit); ("expected_substrings", JList (map JStr expected))].

Definition _default_recall_eval_case_set (now : Z) : dict :=
  [("version", JInt 1); ("updatedAt", JStr (_utc_now now)); ("k", JInt 5);
   ("gate", JObj [("minRecallAtK", JFloat (repr_float (minRecallAtK DEFAULT_GATE))); ("minMrr", JFloat (repr_float (minMrr DEFAULT_GATE)));
                  ("minNumericExactness", JFloat (repr_float (minNumericExactness DEFAULT_GATE)))]);
   ("cases", JList [default_case "health-surface" "health status" 8 ["health"];
                    default_case "trading-telemetry-surface" "trading telemetry process" 8 ["trading"];
                    default_case "retrieval-sources-surface" "letta mindsdb retrieval" 10 ["letta"; "mindsdb"]])].

Definition _ensure_recall_eval_cases_file (now : Z) : ST (option string) unit := fun file =>
  match file with
  | Some _ => (file, Ok tt)
  | None => (if writable then Some (dumps_indent 0 (JObj (_default_recall_eval_case_set now))) else None, Ok tt)
  end.

(** [float(gate.get(k) or default)] *)
Definition gate_value (g : dict) (k : string) (default : Q) : result Q :=
  if jtruthy (dget g k) then to_float parse_float (dget g k) else Ok default.

(** [isinstance(raw, dict)], and the validation, whose error drops the case. *)
Definition normalized_cases (cases : list json) : list eval_case :=
  flat_map (fun raw => match raw with
                       | JObj d => match parse_case d with Some c => [c] | None => [] end
                       | _ => []
                       end) cases.

(** The payload of the file, or the default set. *)
Definition saved_payload (now : Z) (file : option string) : dict :=
  match file with
  | Some text => match loads text with Some (JObj d) => d | _ => _default_recall_eval_case_set now end
  | None => _default_recall_eval_case_set now
  end.

Definition cases_or_default (now : Z) (payload : dict) : dict * list json :=
  match dget payload "cases" with
  | JList l => (payload, l)
  | _ => let d := _default_recall_eval_case_set now in (d, as_list (dget d "cases"))
  end.

Definition _load_saved_recall_eval_config (now : Z) : ST (option string) saved_config :=
  _ensure_recall_eval_cases_file now ;;;
  file <- st_get ;;
  let '(payload, cases) := cases_or_default now (saved_payload now file) in
  let g := match dget payload "gate" with JObj g => g | _ => [] end in
  k <- st_lift (to_int parse_float (jor (dget payload "k") (JInt 5))) ;;
  r <- st_lift (gate_value g "minRecallAtK" (minRecallAtK DEFAULT_GATE)) ;;
  m <- st_lift (gate_value g "minMrr" (minMrr DEFAULT_GATE)) ;;
  n <- st_lift (gate_value g "minNumericExactness" (minNumericExactness DEFAULT_GATE)) ;;
  st_ret (mkSaved (dget payload "version") (dget payload "updatedAt") k (mkGate r m n) (normalized_cases cases)).

(** [float(gate.get(k) or default)] of a number *)
Definition or_default (x default : Q) : Q := if Qeq_bool x 0 then default else x.

Definition in_unit (q : Q) : bool := Qle_bool 0 q && Qle_bool q 1.

(** [RecallEvalRequest(...)], with the bounds of its fields. *)
Definition eval_request_of (r : eval_request) : result eval_request :=
  if (1 <=? ev_k r) && (ev_k r <=? 20) && in_unit (gate_min_recall_at_k r) && in_unit (gate_min_mrr r) && in_unit (gate_min_numeric_exactness r)
  then Ok r else Raise (OtherError "ValidationError" "validation error for RecallEvalRequest").

Definition saved_eval_request (p : saved_request) (c : saved_config) : result eval_request :=
  let pick o x d := match o with Some q => q | None => or_default x d end in
  eval_request_of
    (mkEvalRequest (sc_cases c)
       (match sr_k p with Some k => k | None => if sc_k c =? 0 then 5 else sc_k c end)
       (sr_debug p) (sr_preferences p) (sr_user_id p)
       (pick (sr_recall p) (minRecallAtK (sc_gate c)) (minRecallAtK DEFAULT_GATE))
       (pick (sr_mrr p) (minMrr (sc_gate c)) (minMrr DEFAULT_GATE))
       (pick (sr_numeric p) (minNumericExactness (sc_gate c)) (minNumericExactness DEFAULT_GATE))).

Section evaluate.
Context {W : Type} `{!MemoryFiles W}.
Variables (E : search_env) (R : recall_config) (PREFERENCE_MAX_ENTRIES : Z) (LEARNING_LOOP_ENABLED : bool) (TASK_DB_LOCK_RETRIES : Z).

(** The file beside the state of the endpoints. *)
Definition evaluate_saved_recall_cases (now : Z) (p : saved_request) : ST (option string * api_state W) (eval_report * saved_config) :=
  fun '(file, s) =>
    match _load_saved_recall_eval_config now file with
    | (file, Raise e) => ((file, s), Raise e)
    | (file, Ok c) =>
        match sc_cases c with
        | [] => ((file, s), Raise (HTTPException 400 "saved recall eval case set is empty"))
        | _ =>
            match saved_eval_request p c with
            | Raise e => ((file, s), Raise e)
            | Ok r =>
                let '(s, answer) := evaluate_memory_recall E R parse_float PREFERENCE_MAX_ENTRIES LEARNING_LOOP_ENABLED TASK_DB_LOCK_RETRIES r s in
                ((file, s), match answer with Ok report => Ok (report, c) | Raise e => Raise e end)
            end
        end
    end.
End evaluate.

(** [get_saved_recall_eval_cases] *)
Definition get_saved_recall_eval_cases (now : Z) : ST (option string) (saved_config * Z) :=
  c <- _load_saved_recall_eval_config now ;; st_ret (c, Z.of_nat (length (sc_cases c))).
End cases.

(** * Proofs about the saved cases of the recall evaluation

    A file that cannot be read or holds no list of cases counts as the default
    set; the saved cases are the valid ones, in order; an evaluation of the saved
    cases is the evaluation of a request with them.  A threshold of zero cannot
    be saved, and a number of results out of range ends the evaluation. *)

From Stdlib Require Import QArith.
Open Scope Z_scope.

Section facts.
Variable DEFAULT_GATE : gate.
Variables (repr_float : Q -> string) (parse_float : string -> option Q).
Variable parse_case : dict -> option eval_case.
Variable writable : bool.
Abbreviation load := (_load_saved_recall_eval_config DEFAULT_GATE repr_float parse_float parse_case writable).
Abbreviation default_set := (_default_recall_eval_case_set DEFAULT_GATE repr_float).

(** A text that is read is only read. *)
Lemma load_keeps_file now text : fst (load now (Some text)) = Some text.
Proof.
  unfold _load_saved_recall_eval_config, st_bind, _ensure_recall_eval_cases_file, st_get, st_lift.
  destruct (cases_or_default _ _ _ _) as [payload cases]. destruct (to_int _ _); [|done]. repeat (destruct (gate_value _ _ _ _); [|done]). done.
Qed.

(** A case is used exactly if it is an object that validates. *)
Lemma normalized_In cases c : In c (normalized_cases parse_case cases) <-> exists d, In (JObj d) cases /\ parse_case d = Some c.
Proof.
  unfold normalized_cases. rewrite in_flat_map. split.
  - intros (raw & Hin & Hc). destruct raw as [| | | | | |d]; try done. exists d. split; [done|]. destruct (parse_case d) as [c'|]; [|done].
    destruct Hc as [->|[]]. done.
  - intros (d & Hin & Hc). exists (JObj d). split; [done|]. rewrite Hc. by left.
Qed.

(** The cases of a readable file are used exactly if they are objects that
    validate, and reading leaves the file. *)
Theorem saved_cases_are_the_valid_ones now text d cases : loads text = Some (JObj d) -> dget d "cases" = JList cases ->
  fst (load now (Some text)) = Some text /\
  forall c, snd (load now (Some text)) = Ok c -> sc_version c = dget d "version" /\
    forall e, In e (sc_cases c) <-> exists raw, In (JObj raw) cases /\ parse_case raw = Some e.
Proof.
  intros Hl Hc. split; [apply load_keeps_file|].
  unfold _load_saved_recall_eval_config, st_bind, _ensure_recall_eval_cases_file, st_get, st_lift, saved_payload. rewrite Hl.
  unfold cases_or_default. rewrite Hc. intros c. destruct (to_int _ _); [|done]. repeat (destruct (gate_value _ _ _ _); [|done]).
  cbn. intros [= <-]. split; [done|]. intros e. apply normalized_In.
Qed.

(** A file that is not JSON, not an object or without a list of cases counts as
    the default set. *)
Theorem unreadable_cases_are_defaults now text :
  match loads text with Some (JObj d) => match dget d "cases" with JList _ => False | _ => True end | _ => True end ->
  forall c, snd (load now (Some text)) = Ok c -> sc_cases c = normalized_cases parse_case (as_list (dget (default_set now) "cases")) /\ sc_version c = JInt 1.
Proof.
  intros H c. unfold _load_saved_recall_eval_config, st_bind, _ensure_recall_eval_cases_file, st_get, st_lift.
  assert (cases_or_default DEFAULT_GATE repr_float now (saved_payload DEFAULT_GATE repr_float now (Some text))
    = (default_set now, as_list (dget (default_set now) "cases"))) as ->.
  { unfold saved_payload. destruct (loads text) as [[| | | | | |d]|]; try reflexivity. unfold cases_or_default.
    destruct (dget d "cases"); try reflexivity. done. }
  destruct (to_int _ _); [|done]. repeat (destruct (gate_value _ _ _ _); [|done]). cbn [st_ret snd]. by intros [= <-].
Qed.

(** ** Evaluation *)

Section evaluate.
Context {W : Type} `{!MemoryFiles W}.
Variables (E : search_env) (R : recall_config) (PREFERENCE_MAX_ENTRIES : Z) (LEARNING_LOOP_ENABLED : bool) (TASK_DB_LOCK_RETRIES : Z).
Abbreviation evaluate := (evaluate_memory_recall E R parse_float PREFERENCE_MAX_ENTRIES LEARNING_LOOP_ENABLED TASK_DB_LOCK_RETRIES).
Abbreviation evaluate_saved := (evaluate_saved_recall_cases DEFAULT_GATE repr_float parse_float parse_case writable E R PREFERENCE_MAX_ENTRIES
  LEARNING_LOOP_ENABLED TASK_DB_LOCK_RETRIES).

(** The evaluation of the saved cases is the evaluation of a request with exactly
    the cases of the configuration, within the bounds of a request. *)
Theorem saved_evaluation_is_evaluation now p file s file' s' report c :
  evaluate_saved now p (file, s) = ((file', s'), Ok (report, c)) ->
  load now file = (file', Ok c) /\ exists r, ev_cases r = sc_cases c /\ ev_cases r <> [] /\ 1 <= ev_k r <= 20 /\ evaluate r s = (s', Ok report).
Proof.
  unfold evaluate_saved_recall_cases. destruct (load now file) as [f [c0|e]]; [|done]. destruct (sc_cases c0) as [|x cases] eqn:Ec; [done|].
  unfold saved_eval_request, eval_request_of. cbv zeta.
  set (r := mkEvalRequest _ _ _ _ _ _ _ _). destruct (_ && _) eqn:Eb; [|done].
  destruct (evaluate r s) as [s1 [rep|e]] eqn:Er; [|done]. intros [= <- <- <- <-]. split; [done|]. exists r.
  split; [done|]. split; [cbn; by rewrite Ec|]. split; [|done]. blift. lia.
Qed.

(** A saved number of results above 20 ends every evaluation that does not name
    its own. *)
Theorem saved_k_out_of_range now p file s c : load now file = (file, Ok c) -> sc_cases c <> [] -> sr_k p = None -> 20 < sc_k c ->
  evaluate_saved now p (file, s) = ((file, s), Raise (OtherError "ValidationError" "validation error for RecallEvalRequest")).
Proof.
  intros Hl Hc Hk Hb. unfold evaluate_saved_recall_cases. rewrite Hl. destruct (sc_cases c) as [|x cases] eqn:Ec; [done|].
  unfold saved_eval_request, eval_request_of. cbv zeta. cbn [ev_k]. rewrite Hk. replace (sc_k c =? 0) with false by (symmetry; apply Z.eqb_neq; lia).
  replace (sc_k c <=? 20) with false by (symmetry; apply Z.leb_gt; lia). by rewrite andb_false_r.
Qed.
End evaluate.

(** A saved threshold of zero, which lets every evaluation pass, is read as the
    default. *)
Theorem zero_gate_is_default g k default v : dget g k = v -> v = JInt 0 \/ v = JNull \/ v = JBool false \/ v = JStr "" ->
  gate_value parse_float g k default = Ok default.
Proof. intros H Hv. unfold gate_value. rewrite H. by destruct Hv as [->|[->|[->| ->]]]. Qed.
End facts.

(** ** Examples *)

Definition demo_gate : gate := mkGate (3 # 4) (11 # 20) (9 # 10).
Definition demo_floats (s : string) : option Q :=
  if s =s "0.75" then Some (3 # 4) else if s =s "0.55" then Some (11 # 20) else if s =s "0.9" then Some (9 # 10) else None.
Definition demo_repr (q : Q) : string := if Qeq_bool q (3 # 4) then "0.75" else if Qeq_bool q (11 # 20) then "0.55" else "0.9".
Definition demo_case (d : dict) : option eval_case :=
  match dget d "query" with
  | JStr q => Some (mkCase None q 10 None None None None [] None None None [] [] [])
  | _ => None
  end.
Abbreviation demo_load := (_load_saved_recall_eval_config demo_gate demo_repr demo_floats demo_case true 1700000000000001).

(** The seeded file is read back as the default set. *)
Example seeded_cases : match demo_load None with
  | (Some text, Ok c) => snd (demo_load (Some text)) = Ok c /\ length (sc_cases c) = 3%nat /\ sc_gate c = demo_gate
  | _ => False
  end.
Proof. vm_compute. repeat split. Qed.

(** A threshold of zero in the file. *)
Example zero_mrr : match snd (demo_load (Some (dumps (JObj [("gate", JObj [("minMrr", JInt 0)]); ("cases", JList [])])))) with
  | Ok c => minMrr (sc_gate c) = 11 # 20
  | Raise _ => False
  end.
Proof. vm_compute. reflexivity. Qed.
