(* ===== verification/AgentOrch.v ===== *)
(** * The helper for agents that share task lists

    [scripts/agent_orchestration.py]: a client of the service's memory
    ([MemMCPOrchestrator]) and the task lists several agents keep there
    ([TaskCoordinator]).  The service answers by [serve], on a world of its own. *)

From S2P Require Import Prelude PyStr PyTime Json JsonText Profiles SourcePolicy TaskApi TaskWorker.
From Stdlib Require Import Ascii.
Open Scope Z_scope.

(** ** Paths *)

(** [quote(s, safe="")] *)
Definition hex_upper (n : N) : ascii := if (n <? 10)%N then ascii_of_N (48 + n) else ascii_of_N (55 + n).
Definition quote_safe (c : ascii) : bool :=
  is_digit c || Regex.is_letter c || Ascii.eqb c "_" || Ascii.eqb c "." || Ascii.eqb c "-" || Ascii.eqb c "~".
Fixpoint url_quote (s : string) : string :=
  match s with
  | EmptyString => ""
  | String c s' =>
      if quote_safe c then String c (url_quote s')
      else let n := ascii_code c in String "%" (String (hex_upper (n / 16)) (String (hex_upper (n mod 16)) (url_quote s')))
  end.

Definition _encode_project_path (project : string) (file_name : option string) : string :=
  let encoded_project := url_quote project in
  match file_name with
  | Some f =>
      if truthy f then
        match map url_quote (List.filter truthy (split "/" (lstrip_by (Ascii.eqb "/") f))) with
        | [] => encoded_project
        | parts => encoded_project +:+ "/" +:+ join "/" parts
        end
      else encoded_project
  | None => encoded_project
  end.

(** ** The client *)

Record http_call := mkCall { hc_method : string; hc_path : string; hc_body : json }.
Record http_answer := mkAnswer { ha_status : Z; ha_type : string; ha_text : string }.

Section client.
Context {W : Type}.
Variable serve : http_call -> ST W http_answer.
Variable clock : W -> Z.

(** [resp.raise_for_status()] *)
Definition call (method path : string) (body : json) : ST W http_answer :=
  resp <- serve (mkCall method path body) ;;
  if (200 <=? ha_status resp) && (ha_status resp <? 300) then st_ret resp
  else st_raise (OtherError "HTTPStatusError" ("status " +:+ str_of_Z (ha_status resp))).

(** [resp.json()] *)
Definition body_of (resp : http_answer) : result json :=
  match loads (ha_text resp) with Some j => Ok j | None => Raise (OtherError "JSONDecodeError" "Expecting value") end.

Definition orch_write (project file_name content : string) : ST W json :=
  resp <- call "POST" "/memory/write" (JObj [("projectName", JStr project); ("fileName", JStr file_name); ("content", JStr content)]) ;;
  st_lift (body_of resp).

Definition orch_read (project file_name : string) : ST W string :=
  resp <- call "GET" ("/memory/files/" +:+ _encode_project_path project (Some file_name)) JNull ;;
  if startswith (ha_type resp) "application/json"
  then (j <- st_lift (body_of resp) ;; st_ret (dumps_indent 0 j))
  else st_ret (ha_text resp).

(** [data.get(k, [])] *)
Definition get_list (data : json) (k : string) : result json :=
  match data with JObj d => Ok (dget_or d k (JList [])) | _ => Raise (OtherError "AttributeError" "no attribute 'get'") end.

Definition orch_list_files (project : string) : ST W json :=
  resp <- call "GET" ("/projects/" +:+ _encode_project_path project None +:+ "/files") JNull ;;
  data <- st_lift (body_of resp) ;; st_lift (get_list data "files").

Definition orch_search (query : string) (project : option string) (limit : Z) (fetch_content : bool) : ST W json :=
  resp <- call "POST" "/memory/search" (JObj [("query", JStr query); ("project", match project with Some p => JStr p | None => JNull end);
                                              ("limit", JInt limit); ("fetch_content", JBool fetch_content)]) ;;
  data <- st_lift (body_of resp) ;; st_lift (get_list data "results").

Definition orch_status : ST W json := resp <- call "GET" "/status" JNull ;; st_lift (body_of resp).

(** ** Task lists *)

Definition utc : ST W Z := fun w => (w, Ok (clock w)).

(** [strftime("%Y%m%d_%H%M%S")] *)
Definition stamp (t : Z) : string :=
  let dt := utcfromtimestamp t in
  str_of_Z (year dt) +:+ digits 2 (month dt) +:+ digits 2 (day dt) +:+ "_" +:+ digits 2 (hour dt) +:+ digits 2 (minute dt) +:+ digits 2 (second dt).

Definition create_task_list (project task_id : string) (tasks : list json) : ST W (string * string) :=
  t <- utc ;;
  let file_name := "tasks/" +:+ task_id +:+ "_" +:+ stamp t +:+ ".json" in
  t' <- utc ;;
  let payload := JObj [("task_id", JStr task_id); ("created_at", JStr (isoformat (utcfromtimestamp t') +:+ "Z")); ("status", JStr "pending");
                       ("tasks", JList tasks)] in
  orch_write project file_name (dumps_indent 0 payload) ;;; st_ret (file_name, task_id).

(** [data["tasks"]] *)
Definition tasks_in (data : dict) : result (list json) :=
  match dlookup "tasks" data with
  | Some (JList l) => Ok l
  | Some _ => Raise (OtherError "TypeError" "not a list")
  | None => Raise (KeyError "tasks")
  end.

(** The place of [l[i]] for an integer, from the end when it is negative. *)
Definition place (i : Z) (n : nat) : option nat :=
  if (0 <=? i) && (i <? Z.of_nat n) then Some (Z.to_nat i)
  else if (i <? 0) && (0 <=? Z.of_nat n + i) then Some (Z.to_nat (Z.of_nat n + i))
  else None.

Definition marked_task (status : string) (at_ : string) (result_ : option string) (t : dict) : dict :=
  let t := dset "updated_at" (JStr at_) (dset "status" (JStr status) t) in
  match result_ with Some r => if truthy r then dset "result" (JStr r) t else t | None => t end.

(** The task at the index, when the index is below the length. *)
Definition mark_task (at_ : string) (i : Z) (status : string) (result_ : option string) (tasks : list json) : result (list json) :=
  if i <? Z.of_nat (length tasks) then
    match place i (length tasks) with
    | None => Raise (OtherError "IndexError" "list index out of range")
    | Some n => match nth_error tasks n with
                | Some (JObj t) => Ok (firstn n tasks ++ JObj (marked_task status at_ result_ t) :: skipn (S n) tasks)
                | _ => Raise (OtherError "TypeError" "task is not an object")
                end
    end
  else Ok tasks.

(** [t.get("status") == s] *)
Fixpoint all_have (s : string) (tasks : list json) : result bool :=
  match tasks with
  | [] => Ok true
  | JObj t :: rest => if json_eqb (dget t "status") (JStr s) then all_have s rest else Ok false
  | _ => Raise (OtherError "AttributeError" "no attribute 'get'")
  end.
Fixpoint any_has (s : string) (tasks : list json) : result bool :=
  match tasks with
  | [] => Ok false
  | JObj t :: rest => if json_eqb (dget t "status") (JStr s) then Ok true else any_has s rest
  | _ => Raise (OtherError "AttributeError" "no attribute 'get'")
  end.

Definition overall_status (all_done any_failed : bool) : string :=
  if all_done then "completed" else if any_failed then "failed" else "in_progress".

(** The new content of the list. *)
Definition updated_list (at_ : string) (i : Z) (status : string) (result_ : option string) (data : dict) : result dict :=
  let! tasks := tasks_in data in
  let! tasks := mark_task at_ i status result_ tasks in
  let! all_done := all_have "done" tasks in
  let! any_failed := any_has "failed" tasks in
  Ok (dset "status" (JStr (overall_status all_done any_failed)) (dset "tasks" (JList tasks) data)).

Definition parse_list (content : string) : result dict :=
  match loads content with
  | Some (JObj d) => Ok d
  | Some _ => Raise (OtherError "TypeError" "not an object")
  | None => Raise (OtherError "JSONDecodeError" "Expecting value")
  end.

(** What follows the reading of the list. *)
Definition finish_update (project file_name : string) (i : Z) (status : string) (result_ : option string) (content : string) : ST W unit :=
  data <- st_lift (parse_list content) ;;
  t <- utc ;;
  data <- st_lift (updated_list (isoformat (utcfromtimestamp t) +:+ "Z") i status result_ data) ;;
  orch_write project file_name (dumps_indent 0 (JObj data)) ;;; st_ret tt.

(** [update_task_status] *)
Definition coordinator_update (project file_name : string) (i : Z) (status : string) (result_ : option string) : ST W unit :=
  content <- orch_read project file_name ;; finish_update project file_name i status result_ content.

Definition read_task_list (project file_name : string) : ST W dict :=
  content <- orch_read project file_name ;; st_lift (parse_list content).

Definition log_agent_handoff (project from_agent to_agent context : string) (task_file : option string) : ST W unit :=
  t <- utc ;;
  let file_name := "briefings/handoff_" +:+ from_agent +:+ "_to_" +:+ to_agent +:+ "_" +:+ stamp t +:+ ".txt" in
  t' <- utc ;;
  let content := "# Agent Handoff" +:+ nl +:+ "From: " +:+ from_agent +:+ nl +:+ "To: " +:+ to_agent +:+ nl +:+
                 "Timestamp: " +:+ isoformat (utcfromtimestamp t') +:+ "Z" +:+ nl +:+ nl +:+ "## Context" +:+ nl +:+ context +:+ nl in
  let content := match task_file with
                 | Some f => if truthy f then content +:+ nl +:+ "## Task File" +:+ nl +:+ f +:+ nl else content
                 | None => content
                 end in
  orch_write project file_name content ;;; st_ret tt.
End client.

Example path_ex : _encode_project_path "my project" (Some "//a b/c.json") = "my%20project/a%20b/c.json".
Proof. vm_compute. reflexivity. Qed.

(** * Proofs about the helper for agents

    Paths decode to the names they were made of; an update of a task list changes
    one task and sets the overall status the tasks call for; two agents that
    update at the same time lose one update. *)

From S2P Require Import Tasks TextLogFacts Regex.
From Stdlib Require Import Ascii.
Open Scope Z_scope.

(** ** Paths *)

Definition hex_digit (c : ascii) : option N :=
  let n := ascii_code c in
  if is_digit c then Some (n - 48)%N
  else if ((65 <=? n) && (n <=? 70))%N then Some (n - 55)%N
  else if ((97 <=? n) && (n <=? 102))%N then Some (n - 87)%N
  else None.

(** [unquote(s)], as a server decodes a path *)
Fixpoint url_unquote (s : string) : string :=
  match s with
  | EmptyString => ""
  | String c s' =>
      match s' with
      | String a (String b s'') =>
          match (if Ascii.eqb c "%" then hex_digit a else None), hex_digit b with
          | Some x, Some y => String (ascii_of_N (16 * x + y)) (url_unquote s'')
          | _, _ => String c (url_unquote s')
          end
      | _ => String c (url_unquote s')
      end
  end.

Lemma hex_pair c : let n := ascii_code c in
  match hex_digit (hex_upper (n / 16)), hex_digit (hex_upper (n mod 16)) with
  | Some x, Some y => ascii_of_N (16 * x + y) = c
  | _, _ => False
  end /\ hex_upper (n / 16) <> "/"%char /\ hex_upper (n mod 16) <> "/"%char.
Proof. destruct c as [[] [] [] [] [] [] [] []]; vm_compute; repeat split; discriminate. Qed.

Lemma safe_not_percent c : quote_safe c = true -> Ascii.eqb c "%" = false /\ Ascii.eqb c "/" = false.
Proof. destruct c as [[] [] [] [] [] [] [] []]; vm_compute; intros H; try discriminate H; by split. Qed.

Lemma unquote_safe c s : Ascii.eqb c "%" = false -> url_unquote (String c s) = String c (url_unquote s).
Proof. intros H. cbn [url_unquote]. rewrite H. by destruct s as [|a [|b s]]. Qed.

Lemma unquote_quote s : url_unquote (url_quote s) = s.
Proof.
  induction s as [|c s IH]; [done|]. cbn [url_quote]. destruct (quote_safe c) eqn:E.
  - rewrite unquote_safe by (by apply safe_not_percent). by rewrite IH.
  - cbv zeta. cbn [url_unquote]. rewrite Ascii.eqb_refl. destruct (hex_pair c) as [H _]. cbv zeta in H.
    destruct (hex_digit (hex_upper (ascii_code c / 16))) as [x|]; [|done]. destruct (hex_digit (hex_upper (ascii_code c mod 16))) as [y|]; [|done].
    by rewrite H, IH.
Qed.

Lemma quote_no_slash s : has_char "/" (url_quote s) = false.
Proof.
  induction s as [|c s IH]; [done|]. cbn [url_quote]. destruct (quote_safe c) eqn:E.
  - cbn [has_char]. apply safe_not_percent in E as [_ ->]. exact IH.
  - cbv zeta. cbn [has_char]. destruct (hex_pair c) as (_ & H1 & H2). cbv zeta in H1, H2.
    apply Ascii.eqb_neq in H1 as ->. apply Ascii.eqb_neq in H2 as ->. exact IH.
Qed.

(** The segments of an encoded path decode to the project and the parts of the
    file name, whatever characters they have. *)
Theorem encoded_path_decodes project file : truthy file = true ->
  map url_unquote (split "/" (_encode_project_path project (Some file)))
  = project :: List.filter truthy (split "/" (lstrip_by (Ascii.eqb "/") file)).
Proof.
  intros Hf. unfold _encode_project_path. rewrite Hf. set (parts := List.filter truthy _).
  assert (forall l, map url_unquote (map url_quote l) = l) as Hu by (intros l; rewrite List.map_map; erewrite List.map_ext; [apply List.map_id|apply unquote_quote]).
  destruct parts as [|p ps] eqn:Ep; cbn [map].
  - rewrite split_nosep by apply quote_no_slash. cbn. by rewrite unquote_quote.
  - change (url_quote project +:+ "/" +:+ join "/" (url_quote p :: map url_quote ps)) with (join "/" (map url_quote (project :: p :: ps))).
    rewrite (split_join "/"); [apply Hu|done|]. apply List.Forall_forall. intros x (y & <- & _)%in_map_iff. apply quote_no_slash.
Qed.

(** ** Task lists *)

Definition has_status (s : string) (j : json) : bool := match j with JObj t => json_eqb (dget t "status") (JStr s) | _ => false end.

Lemma all_have_spec s tasks b : all_have s tasks = Ok b -> b = forallb (has_status s) tasks.
Proof.
  revert b. induction tasks as [|t tasks IH]; intros b; cbn; [by intros [= <-]|]. destruct t as [| | | | | |d]; try done. cbn.
  destruct (json_eqb _ _); [apply IH|by intros [= <-]].
Qed.

Lemma any_has_spec s tasks b : any_has s tasks = Ok b -> b = existsb (has_status s) tasks.
Proof.
  revert b. induction tasks as [|t tasks IH]; intros b; cbn; [by intros [= <-]|]. destruct t as [| | | | | |d]; try done. cbn.
  destruct (json_eqb _ _); [by intros [= <-]|apply IH].
Qed.

(** The status the tasks call for. *)
Definition status_of_tasks (tasks : list json) : string :=
  if forallb (has_status "done") tasks then "completed" else if existsb (has_status "failed") tasks then "failed" else "in_progress".

Lemma place_bounds i n k : place i n = Some k -> (k < n)%nat.
Proof. unfold place. destruct ((0 <=? i) && _) eqn:E1; [blift; intros [= <-]; lia|]. destruct ((i <? 0) && _) eqn:E2; [|done]. blift. intros [= <-]. lia. Qed.

Lemma mark_task_spec at_ i st res tasks tasks' : mark_task at_ i st res tasks = Ok tasks' ->
  (tasks' = tasks /\ Z.of_nat (length tasks) <= i) \/
  exists n t, place i (length tasks) = Some n /\ nth_error tasks n = Some (JObj t) /\
    tasks' = firstn n tasks ++ JObj (marked_task st at_ res t) :: skipn (S n) tasks.
Proof.
  unfold mark_task. destruct (i <? Z.of_nat (length tasks)) eqn:E; blift; [|intros [= <-]; by left].
  destruct (place i (length tasks)) as [n|] eqn:Ep; [|done]. destruct (nth_error tasks n) as [[| | | | | |t]|] eqn:En; try done. intros [= <-].
  right. by exists n, t.
Qed.

Lemma nth_split_at {A} n : forall (l : list A) x, nth_error l n = Some x -> l = firstn n l ++ x :: skipn (S n) l.
Proof. induction n as [|n IH]; intros [|y l] x H; try done; [by injection H as ->|]. cbn in *. f_equal. by apply IH. Qed.

Lemma marked_status st at_ res t : dget (marked_task st at_ res t) "status" = JStr st.
Proof.
  unfold marked_task. assert (dget (dset "updated_at" (JStr at_) (dset "status" (JStr st) t)) "status" = JStr st) as H by (rewrite dget_dset_ne by done; apply dget_dset_eq).
  destruct res as [r|]; [|done]. destruct (truthy r); [|done]. by rewrite dget_dset_ne.
Qed.

(** An update changes one task, the one at the index (from the end for a negative
    one), or none when the index is past the list; and the overall status is the
    one the tasks then call for. *)
Theorem update_sets_one_task at_ i st res data data' tasks : tasks_in data = Ok tasks -> updated_list at_ i st res data = Ok data' ->
  exists tasks', tasks_in data' = Ok tasks' /\ dget data' "status" = JStr (status_of_tasks tasks') /\
    ((tasks' = tasks /\ Z.of_nat (length tasks) <= i) \/
     exists before t after t', tasks = before ++ JObj t :: after /\ tasks' = before ++ JObj t' :: after /\ dget t' "status" = JStr st /\
       place i (length tasks) = Some (length before)).
Proof.
  unfold updated_list. intros -> H. cbn [rbind] in H. destruct (mark_task at_ i st res tasks) as [tasks'|] eqn:Em; [|done]. cbn [rbind] in H.
  destruct (all_have "done" tasks') as [a|] eqn:Ea; [|done]. cbn [rbind] in H. destruct (any_has "failed" tasks') as [b|] eqn:Eb; [|done].
  cbn [rbind] in H. injection H as <-. apply all_have_spec in Ea as ->. apply any_has_spec in Eb as ->. exists tasks'. split; [|split].
  - unfold tasks_in. rewrite dlookup_dset_ne, dlookup_dset_eq by done. done.
  - rewrite dget_dset_eq. done.
  - apply mark_task_spec in Em as [Hm|(n & t & Hp & Hn & ->)]; [by left|right].
    exists (firstn n tasks), t, (skipn (S n) tasks), (marked_task st at_ res t). split; [|split; [done|split; [apply marked_status|]]].
    + by apply nth_split_at.
    + rewrite List.firstn_length_le; [done|]. apply place_bounds in Hp. lia.
Qed.

(** ** Two agents *)

(** A service that keeps one file. *)
Definition one_file (c : http_call) : ST string http_answer := fun w =>
  if hc_method c =s "GET" then (w, Ok (mkAnswer 200 "text/plain" w))
  else (match hc_body c with JObj d => jstr (dget d "content") | _ => w end, Ok (mkAnswer 200 "application/json" "{}")).

Definition two_tasks : string :=
  dumps_indent 0 (JObj [("status", JStr "pending"); ("tasks", JList [JObj [("name", JStr "a")]; JObj [("name", JStr "b")]])]).
Abbreviation update i := (coordinator_update one_file (fun _ => 1700000000000000) "p" "tasks/t.json" i "done" None).
Abbreviation finish i := (finish_update one_file (fun _ => 1700000000000000) "p" "tasks/t.json" i "done" None).
Abbreviation statuses w := (match parse_list w with Ok d => match tasks_in d with Ok l => map (has_status "done") l | _ => [] end | _ => [] end).

(** One after the other both updates are kept; when the second agent has read the
    list before the first has written it, the update of the first is lost. *)
Lemma concurrent_update_lost :
  statuses (fst ((update 0 ;;; update 1) two_tasks)) = [true; true] /\
  statuses (fst ((content <- orch_read one_file "p" "tasks/t.json" ;; update 0 ;;; finish 1 content) two_tasks)) = [false; true].
Proof. split; vm_compute; reflexivity. Qed.
